(* ===== verification/_CoqProject ===== *)
-Q . S2P
Prelude.v
Words.v
CStr.v
PriorityQueue.v
HashTable.v
EventTimer.v
GlobalTimer.v
Sched.v
FdEvents.v
EventLoop.v
LoopRun.v
Timers.v
XdrCodec.v
XdrStruct.v
XdrDict.v
XdrText.v
Md5.v
IpcBuffer.v
Zmqlite.v
Critical.v
ProcParse.v
ProcWrite.v
ProcChild.v
CmdResponse.v
CmdRegistry.v
CmdTelemetry.v
CmdMulticast.v
Json.v
EventDebug.v
PseudoThreads.v
Config.v
CmdDispatch.v
CmdInit.v
CmdLine.v
Util.v
FdTurn.v
ProcSignal.v
Gpio.v
Handler.v
Sockets.v
Plugin.v
ProcInit.v
Threads.v
Spawn.v
TelmDict.v
