(* ===== verification/Prelude.v ===== *)
(** * libproc: a verification development

    libproc is the library the PolySat satellites' processes are built on: an
    event loop that calls back on descriptors, timers and commands, clocks that
    can be virtual and shared between processes under test, and an XDR codec
    for the structures that processes exchange.  This development models its
    core and proves it correct, file by file.

    ** The parts and how they interact

    The event loop (src/events.c) keeps timed events in two binary heaps
    (src/priorityQueue.c) ordered by wake-up time, and descriptor callbacks in
    a hash table next to the sets that it passes to select.  It asks an event
    timer (src/eventTimer.c, src/globalTimer.c) to block until the next wake-up
    or until a descriptor is ready; the timer is a record of functions, so that
    tests run the same loop on a virtual clock.  Messages are encoded and
    decoded by src/xdr.c from tables of fields; the definitions of structures
    are registered in a chained hash table (src/hashtable.c), which unions look
    types up in.  Commands (src/cmd.c) are such structures: a request waits for
    its response under a timed event, a telemetry request is answered with
    blocks of encoded structures, and multicast packets are handed to the
    handlers of a service.  Packets that arrive are dispatched to the handlers
    of their commands, or to a table of commands of one byte that is filled from
    a configuration file; a command line is scanned into the parameters of a
    command with the text functions of src/xdr.c.  The process library (src/proclib.c) starts
    the process, turns signals into descriptor events, runs child processes and
    functions in threads, sends commands and queues writes on the same loop; src/critical.c keeps a few
    bytes over restarts in files guarded by MD5 (src/md5.c); src/zmqlite.c
    speaks the framing of ZMQ over the growing buffers of src/ipc.c.  Threads
    that look blocking (src/pseudo_threads.c) run between the turns of the loop
    and wait on its timers and descriptors.  src/config.c reads configuration
    files into the structures of a program, and src/json.c the small objects
    that the loop's debugger is sent; src/util.c cleans directories with the
    heap that the loop keeps its events in; src/plugin.c loads libraries that
    register objects for configuration files, and src/telm_dict.c prints what a
    program says of its telemetry.

    ** Files

    - Prelude: times ([struct timeval] and its macros), tactics, lemmas on
      arrays.
    - PriorityQueue: the heap of priorityQueue.c.  The element callbacks
      (priority and position) are the classes [PQElem] and [PQPos] over a memory
      [M], the comparison is a parameter with [CmpSpec]; so the theorems hold for
      any client, and Sched discharges the classes for [ScheduleCB].
    - HashTable: hashtable.c, with the three callbacks as parameters.
    - EventTimer: [EventTimerOps] is the [struct EventTimer] of function
      pointers; the default, real-time debug and virtual timers are its values.
      The kernel clocks are parameters.
    - GlobalTimer: the timer shared between processes.  Each process is a
      program counter over the phases of [ET_gvirt_block]; [gstep] is one step
      of one process on the shared memory, and the theorems are by induction on
      reachability, for any number of processes and any interleaving.
    - Sched: timed events of events.c: the events in memory, the two queues,
      [EVT_sched_add], [_remove], [_update], and the time arithmetic.
    - FdEvents: descriptor events of events.c: the chains of [EventCB], the
      select sets, counters and [maxFd].
    - EventLoop: [EVT_start_loop_auto_exit] and everything it calls, over the
      states of Sched and FdEvents and any timer.
    - LoopRun: whole runs of that loop on the virtual timer.
    - Timers: the classes [TimerOps] and [Timers] of what a client of timed
      events relies on, with Sched as their instance.
    - XdrCodec: encoders and decoders of xdr.c for integers, floats, strings,
      byte arrays and arrays; the interfaces [Encodes], [Codec], [SizedEncoder]
      and [SafeDecoder] that the composites are proved against.
    - XdrStruct: structures, bit fields, unions, and the registry of
      definitions (a client of HashTable).
    - XdrDict: dictionaries, their operations and their codec.
    - XdrText: printers and scanners of xdr.c; [TextCodec] is what the two
      functions of a type promise to a structure that is printed and scanned.
    - Words: machine integers, byte orders, writes into byte arrays.
    - CStr: what the code uses of the C library on strings: [strlen],
      [strcasecmp], [strchr], [strtol], character classes.
    - Md5: md5.c against the algorithm of RFC 1321.
    - IpcBuffer: the growing buffers of ipc.c.
    - Zmqlite: handshake, frames and the server of zmqlite.c, a client of
      IpcBuffer and FdEvents.
    - Critical: critical.c over a directory that remembers every state it has
      been in, so that a power failure may strike at any byte.
    - ProcParse, ProcWrite, ProcChild: command lines, queued writes and child
      processes of proclib.c, on the table of FdEvents.
    - CmdResponse: requests and responses of cmd.c and ipc.c.  The timers are
      the class of Timers.
    - CmdRegistry: the registry of commands and errors, on HashTable.
    - CmdTelemetry: both ends of a telemetry request, on XdrStruct.
    - CmdMulticast: multicast subscriptions, on FdEvents.
    - CmdDispatch: the command socket, [cmd_handler_cb], over CmdResponse,
      CmdRegistry and the packets of XdrStruct; [node] is a process with its
      tables and pending requests.
    - CmdInit: [cmd_handler_init], the tables of cmd.c given to Config.
    - CmdLine: a command line, from its arguments to [IPC_command].
    - Json: the scanner and getters of json.c.
    - EventDebug: the commands and reports of the debugger of events.c, over
      EventLoop and Json.
    - PseudoThreads: pseudo_threads.c on Timers; the code of a thread is a
      parameter, its context the call in which it was left.
    - Config: config.c; the tables, lookups and callbacks of the program are
      parameters over a world of theirs.
    - Util: util.c; [UTIL_cleanup_dir] is a second client of PriorityQueue,
      over an array of records.
    - FdTurn: what the loop does to a descriptor's entry around its callback,
      for the components below.
    - ProcSignal: signals of proclib.c: the handler that writes to a pipe, and
      the callbacks that the loop calls.
    - Gpio: the two interrupts of events.c, whose callbacks may register more.
    - Handler: [EVT_initWithSize] and [EVT_free_handler] of events.c.
    - Sockets: names of services and blocking exchanges of ipc.c; commands sent
      by proclib.c and its registration with the watchdog.
    - Plugin: plugin.c over readdir and dlopen.
    - ProcInit: the files, events and handlers that [PROC_init] leaves, over
      ProcSignal, CmdDispatch and Sockets, and what [PROC_cleanup] removes.
    - Threads: [thread_function] of proclib.c; threads and loop interleave.
    - Spawn: [PROC_fork_child], the descriptors of parent and child, over
      ProcParse and ProcChild.
    - TelmDict: telm_dict.c, read back with Json.

    ** Conventions

    Heap objects are named by addresses in a [gmap]; NULL is [None].  C arrays
    are lists.  A failing allocation is a boolean argument of the operation, or
    a predicate on sizes.  [size_t], [uint32_t] and [int32_t] arithmetic wraps
    where the code can make it wrap (XdrCodec, XdrStruct, XdrDict); times,
    counters and indices of the other parts are unbounded integers.  A fault
    (write through NULL or past a buffer, failed assertion) is a value of the
    result type there, so that safety is a theorem and not an assumption.
    Callbacks, select, the clocks and malloc are parameters; what a theorem
    needs of them is a class or a hypothesis with an instance in its witness,
    and the comment before the theorem names it.

    ** What the theorems show

    - PriorityQueue: insert, pop, remove and change of priority keep the heap
      well formed and act on the multiset of its contents; pop returns a
      minimum; the sift loops end; printing is sorted.  Removal has a side
      condition that the code needs.
    - HashTable: the table refines a partial map; walks visit every entry
      once; extraction empties the table unless a key is NULL.
    - EventTimer, GlobalTimer: the time limits passed to the blocking callback;
      clocks freeze while a process is stopped; mutual exclusion and
      monotonicity of shared time, and what its order guarantees in fact.
    - Sched, FdEvents: the invariants of both tables (queued events, critical
      counters, select sets, blocked sets, the highest descriptor of each event)
      are kept by every operation, with the effect of each operation on every
      branch.
    - EventLoop: processing one timed event and one descriptor event, with
      breakpoints, removal and a queue that cannot grow (the event is then lost);
      the pass over the due events ends and leaves none that is due; a turn over the ready descriptors, which starts at another
      descriptor and event each time, processes each of them exactly once; the
      loop exits by itself exactly when nothing critical is left.
    - LoopRun: on the virtual clock, with callbacks that run once, the loop
      returns, and has called the events in the order of their times.
    - Xdr: round trips of every type, of arrays, structures, unions, bit fields
      and dictionaries; encoders stay inside their room and report the size
      they need; decoders stay inside their input on any bytes; dictionaries
      refine partial maps and have a canonical form.  Where the code does
      otherwise, a theorem says what it does.  What is printed as [key=value]
      is scanned back, for every scalar and for structures of them; arrays and
      bytes are scanned from the texts of their elements, but not from what is
      printed.
    - Md5: a message fed in pieces of at most 2^32 - 64 bytes has the digest of
      the standard; for longer ones the loop may not end.
    - IpcBuffer, Zmqlite: appended bytes reach the consumer in order whatever
      the chunks; the message callback sees exactly the messages sent; the
      list of clients, their memory and their descriptor events agree.
    - Critical: after any run of saves, restarts and power failures of one
      process, while its files can be read, a restart reads the last state that
      was acknowledged or a later attempt, also when one of the two sets of files
      is lost; errors are reported.
    - Proc: the arguments of a command line are its words; queued writes are
      performed in order, once, and the write event is registered exactly while
      something is queued; a child is reported once, after its exit and the end
      of its pipes, and its output reaches the callback in order.
    - Cmd: each request ends exactly once, by its response or its timeout, where
      no two timeouts are tied; the registry refines a map; the receiver of a telemetry packet
      sees the structures the populators made; each multicast service with
      handlers has one watched socket.  No packet that was read makes the process
      fault, under the same condition; a command that is sent reaches the handler registered for it with equal
      parameters, and one without a handler is answered with an error that
      reaches the callback of the request; the table after start is what the
      command file says; a command line delivers the parameters it spells.
    - Json: the getters return what a well-formed object says, whatever its
      blanks, and never write past their buffers on any text.
    - EventDebug: with memory and without tied times no command of a debugger
      disturbs the events of the program or keeps the loop alive; [next] runs exactly the steps it asks for; a
      short report is read back by the reader of json.c.
    - PseudoThreads: each thread is in one list, that of its state, and its
      timer is pending exactly while it waits; a pass of [PT_run_all] runs every
      ready thread and ends.
    - Config: reading a file makes the calls that the document means, and a
      buffered object gives the data its text means when it is asked for.
    - Util: cleaning a directory keeps the newest files, as many as it is asked
      to, deletes the others and stays inside its records.
    - ProcSignal: the signals written to the pipe reach the callbacks in order,
      each those that are registered then.
    - Gpio: each callback that an interrupt accepts is called exactly once or
      given up, whatever its callbacks do.
    - Handler: a new handler is well formed and empty; releasing one runs the
      deferred callbacks and the clean-up of every descriptor once, and frees
      every event, if the deferred callbacks leave it alone; one that defers
      itself again keeps it from ending.
    - Sockets: while no command is sent on a socket that holds one back, every
      command is sent once, in order; the wait for a response ends; names and
      ports are inverse except where the table repeats them.
    - Plugin: a lookup returns the last plugin registered under the name, after
      loading its file from every directory; a directory is scanned once.
    - ProcInit: the files name the process and its number, and of the others
      exactly the stale one with its own name goes, whichever files can be opened
      and however much is written; the three descriptors of a process are watched, its commands have
      their handlers, and the watchdog is asked when it should be.
    - Threads: every function that is started is reported at most once, with its
      value, in any interleaving; those that never are, are exactly those whose
      pipe could not be watched or written to.
    - Spawn: the child runs the words of the command line on its ends of the
      three pipes; the parent keeps exactly the other ends.
    - TelmDict: the JSON is the objects of the mode with commas between them,
      and json.c reads the strings of a point back.

    ** Bounds and fuel

    The sift loops of the heap take the index and the size as fuel, proved
    enough.  [HASH_extract] takes the number of entries, proved enough without
    NULL keys and never enough with one.  [timed_pass] has fuel because a
    callback may reschedule for ever; under a clock that stands still the sum of
    the lateness of the events, in microseconds, is enough.  [loop_turns] is the
    number of turns of an event loop that need not end; in LoopRun one more
    than the number of events is enough.

    [CMD_iterate_structs] recurses on fuel, one more than the bytes of the
    packet, proved enough; the loops of IpcBuffer, ProcParse and ProcChild
    take the length of what they consume.  [PT_run_all] takes two turns for
    each ready thread, [ParseObject] of Config one more than the lines that are
    left; both are proved enough where the code ends, and a theorem shows the
    file for which it does not.

    Releasing a bucket of descriptors takes three rounds for each entry, and a
    queue its size.  A callback of Gpio runs at a depth that exceeds its rank,
    where callbacks only add callbacks of lower rank.  [wait_loop] of Sockets
    takes two more turns than the number of interrupted selects.

    ** Not modelled

    Release of memory, and output that nobody reads back (help, usage, debug
    prints); text of floating point numbers; system calls with nothing between
    them (creating and binding sockets, shared memory); getters and setters of
    one field; the vendored json.hpp, the tests and the example programs.  The
    file system of Critical keeps the order of the operations, because the code
    never syncs.  Descriptor sets have no FD_SETSIZE; the cleanup callbacks of
    descriptors are recorded with their arguments and not run, so that what they
    do to the handler is not part of the model; the steps of GlobalTimer end
    when a process removes the state file and are for at most 128 processes;
    the signal pipe of ProcSignal never fills up; allocations that the code does
    not test (CmdDispatch, PseudoThreads, thread blocks) succeed. *)

From stdpp Require Import base gmap list numbers sorting.
From Stdlib Require Import ZArith Lia.

Declare Scope libproc_scope.
Delimit Scope libproc_scope with libproc.
Open Scope Z_scope.

(** ** Pointers

    A heap object is named by its address; NULL is [None] wherever the code
    tests for it. *)

Abbreviation ptr := positive (only parsing).

(** ** struct timeval (sys/time.h and the fallback macros of events.c) *)

Record timeval := TV { tv_sec : Z; tv_usec : Z }.

#[export] Instance timeval_eq_dec : EqDecision timeval.
Proof. solve_decision. Defined.

#[export] Instance timeval_inhabited : Inhabited timeval := populate (TV 0 0).

(** [timercmp(a, b, CMP)]: seconds decide unless they are equal. *)
Definition timercmp (CMP : Z -> Z -> bool) (a b : timeval) : bool :=
  if tv_sec a =? tv_sec b then CMP (tv_usec a) (tv_usec b)
  else CMP (tv_sec a) (tv_sec b).

Definition timeradd (a b : timeval) : timeval :=
  let s := tv_sec a + tv_sec b in
  let u := tv_usec a + tv_usec b in
  if 1000000 <=? u then TV (s + 1) (u - 1000000) else TV s u.

Definition timersub (a b : timeval) : timeval :=
  let s := tv_sec a - tv_sec b in
  let u := tv_usec a - tv_usec b in
  if u <? 0 then TV (s - 1) (u + 1000000) else TV s u.

Notation "a '<=t' b" := (timercmp Z.leb a b) (at level 70) : libproc_scope.
Notation "a '<t' b" := (timercmp Z.ltb a b) (at level 70) : libproc_scope.
Notation "a '>=t' b" := (timercmp Z.geb a b) (at level 70) : libproc_scope.
Notation "a '>t' b" := (timercmp Z.gtb a b) (at level 70) : libproc_scope.

(** A normalised time, and a time as a number of microseconds. *)
Definition tv_norm (t : timeval) : Prop := 0 <= tv_usec t < 1000000.
Definition tv_us (t : timeval) : Z := tv_sec t * 1000000 + tv_usec t.

(** The order [timercmp] decides: lexicographic, total, on any pair. *)
Definition tv_le (a b : timeval) : Prop :=
  tv_sec a < tv_sec b \/ (tv_sec a = tv_sec b /\ tv_usec a <= tv_usec b).

#[export] Instance tv_norm_dec t : Decision (tv_norm t).
Proof. unfold tv_norm. apply _. Defined.

(** ** Tactics *)

(** Case analysis on every boolean integer comparison of the goal. *)
Ltac zcases :=
  repeat match goal with
  | |- context [?a =? ?b] => destruct (Z.eqb_spec a b)
  | |- context [?a <=? ?b] => destruct (Z.leb_spec a b)
  | |- context [?a <? ?b] => destruct (Z.ltb_spec a b)
  | |- context [?a >=? ?b] => rewrite (Z.geb_leb a b)
  | |- context [?a >? ?b] => rewrite (Z.gtb_ltb a b)
  end.

(** Unfold times and decide by linear arithmetic. *)
Ltac tv_solve :=
  unfold tv_le, tv_norm, tv_us, timeradd, timersub, timercmp in *;
  repeat match goal with t : timeval |- _ => destruct t end; simpl in *;
  zcases; simpl in *; try lia; try congruence; try (f_equal; lia).

Create HintDb libproc.

(** ** Times *)

Lemma tv_le_refl a : tv_le a a.
Proof. tv_solve. Qed.

Lemma tv_le_trans a b c : tv_le a b -> tv_le b c -> tv_le a c.
Proof. tv_solve. Qed.

Lemma tv_le_total a b : tv_le a b \/ tv_le b a.
Proof. tv_solve. Qed.

Lemma tv_le_antisym a b : tv_le a b -> tv_le b a -> a = b.
Proof. destruct a, b; unfold tv_le; simpl; intros; f_equal; lia. Qed.

Lemma timercmp_geb a b : timercmp Z.geb a b = true <-> tv_le b a.
Proof. split; tv_solve; intros; first [ lia | done ]. Qed.

Lemma timercmp_gtb a b : timercmp Z.gtb a b = false <-> tv_le a b.
Proof. split; tv_solve; intros; first [ lia | done ]. Qed.

Lemma timercmp_ltb a b : timercmp Z.ltb a b = false <-> tv_le b a.
Proof. split; tv_solve; intros; first [ lia | done ]. Qed.

Lemma timercmp_leb a b : timercmp Z.leb a b = true <-> tv_le a b.
Proof. split; tv_solve; intros; first [ lia | done ]. Qed.

#[export] Instance tv_le_dec a b : Decision (tv_le a b).
Proof. unfold tv_le. apply _. Defined.

Lemma tv_le_us a b : tv_norm a -> tv_norm b -> (tv_le a b <-> tv_us a <= tv_us b).
Proof. split; tv_solve. Qed.

Lemma timeradd_us a b : tv_us (timeradd a b) = tv_us a + tv_us b.
Proof. tv_solve. Qed.

Lemma timersub_us a b : tv_us (timersub a b) = tv_us a - tv_us b.
Proof. tv_solve. Qed.

Lemma timeradd_norm a b : tv_norm a -> tv_norm b -> tv_norm (timeradd a b).
Proof. tv_solve. Qed.

Lemma timersub_norm a b : tv_norm a -> tv_norm b -> tv_norm (timersub a b).
Proof. tv_solve. Qed.

Lemma tv_us_inj a b : tv_norm a -> tv_norm b -> tv_us a = tv_us b -> a = b.
Proof. destruct a, b; unfold tv_norm, tv_us; simpl; intros; f_equal; lia. Qed.

#[export] Hint Resolve tv_le_refl timeradd_norm timersub_norm : libproc.

(** ** Lists used as C arrays *)

Section Arrays.
Context {A : Type} `{!Inhabited A}.
Implicit Types l : list A.

Lemma arr_get_set_eq l i x : (i < length l)%nat -> <[i:=x]> l !!! i = x.
Proof. intros. by apply list_lookup_total_insert_eq. Qed.

Lemma arr_get_set_ne l i j x : i <> j -> <[i:=x]> l !!! j = l !!! j.
Proof. intros. by apply list_lookup_total_insert_ne. Qed.

(** Exchanging two cells of an array permutes it. *)
Lemma swap_Permutation l i j x y :
  l !! i = Some x -> l !! j = Some y -> <[j:=x]> (<[i:=y]> l) ≡ₚ l.
Proof.
  intros Hi Hj.
  destruct (decide (i = j)) as [->|Hne].
  { rewrite list_insert_insert_eq. rewrite list_insert_id; [done|congruence]. }
  pose proof (lookup_lt_Some _ _ _ Hi) as Li.
  pose proof (lookup_lt_Some _ _ _ Hj) as Lj.
  apply Permutation_inj. split; [by rewrite !length_insert|].
  exists (fun k => if decide (k = i) then j else if decide (k = j) then i else k).
  split.
  - intros a b H. repeat case_decide; congruence.
  - intros k. repeat case_decide; subst.
    + rewrite list_lookup_insert_ne by done.
      rewrite list_lookup_insert_eq by done. done.
    + rewrite list_lookup_insert_eq by (by rewrite length_insert). done.
    + rewrite !list_lookup_insert_ne by done. done.
Qed.
End Arrays.

Lemma StronglySorted_weaken {A} (R R' : relation A) (l : list A) :
  (forall x y, R x y -> R' x y) -> StronglySorted R l -> StronglySorted R' l.
Proof.
  intros HR. induction 1 as [|a l Hl IH Hf]; constructor; [done|].
  eapply Forall_impl; [exact Hf|]. eauto.
Qed.
