(* ===== verification/Words.v ===== *)
(** * Machine integers and bytes

    Fixed-width integers as [Z] with their wrap-around, integers as little and
    big endian bytes, and writes into a byte array.  Shared by the components
    that work on memory: XdrCodec, Md5, IpcBuffer, Zmqlite, Critical.  The host is
    little endian; [size_t] has 64 bits. *)

From stdpp Require Import base list numbers.
From Stdlib Require Import ZArith Lia.
From S2P Require Import Prelude.
Open Scope Z_scope.

(** ** Machine integers *)

Definition u32 (z : Z) : Z := z mod 2 ^ 32.
Definition u64 (z : Z) : Z := z mod 2 ^ 64.
Definition s32 (z : Z) : Z := (z + 2 ^ 31) mod 2 ^ 32 - 2 ^ 31.
Definition s64 (z : Z) : Z := (z + 2 ^ 63) mod 2 ^ 64 - 2 ^ 63.

Abbreviation zlen l := (Z.of_nat (length l)).

Fixpoint le_bytes (n : nat) (z : Z) : list Z :=
  match n with O => [] | S n' => z mod 256 :: le_bytes n' (z / 256) end.

Fixpoint le_value (bs : list Z) : Z :=
  match bs with [] => 0 | b :: bs' => b + 256 * le_value bs' end.

(** [htonl] and [ntohl] reverse the bytes. *)
Definition htonl (x : Z) : Z := le_value (reverse (le_bytes 4 x)).
Abbreviation ntohl := htonl.

(** ** Byte arrays *)

(** The array after [data] was copied to offset [off]. *)
Definition splice (buf : list Z) (off : Z) (data : list Z) : list Z :=
  take (Z.to_nat off) buf ++ data ++ drop (Z.to_nat off + length data) buf.

(** ** Facts about bytes *)

Definition is_byte (b : Z) : Prop := 0 <= b < 256.

Lemma le_bytes_length n z : length (le_bytes n z) = n.
Proof. revert z. induction n as [|n IH]; intros z; simpl; [done|by rewrite IH]. Qed.

Lemma le_bytes_bytes n z : Forall is_byte (le_bytes n z).
Proof.
  revert z. induction n as [|n IH]; intros z; simpl; constructor; [|apply IH].
  apply Z.mod_pos_bound. lia.
Qed.

Lemma le_value_bytes n z : le_value (le_bytes n z) = z mod 256 ^ Z.of_nat n.
Proof.
  revert z. induction n as [|n IH]; intros z; [simpl; by rewrite Z.mod_1_r|].
  cbn [le_bytes le_value]. rewrite IH, Nat2Z.inj_succ, Z.pow_succ_r by lia.
  rewrite Z.rem_mul_r by lia. lia.
Qed.

Lemma le_bytes_value bs : Forall is_byte bs -> le_bytes (length bs) (le_value bs) = bs.
Proof.
  induction 1 as [|b bs Hb Hbs IH]; [done|]. unfold is_byte in Hb. cbn [le_value length le_bytes].
  rewrite (Z.mul_comm 256), Z.mod_add by lia.
  rewrite Z.mod_small by lia. f_equal.
  rewrite Z.div_add by lia. rewrite Z.div_small by lia. exact IH.
Qed.

Lemma le_value_range bs : Forall is_byte bs -> 0 <= le_value bs < 256 ^ zlen bs.
Proof.
  induction 1 as [|b bs Hb Hbs IH]; [simpl; lia|]. unfold is_byte in Hb.
  cbn [le_value length]. rewrite Nat2Z.inj_succ, Z.pow_succ_r by lia. lia.
Qed.

(** The four bytes of an integer in network order. *)
Definition be32 (z : Z) : list Z := reverse (le_bytes 4 z).

Lemma be32_length z : length (be32 z) = 4%nat.
Proof. unfold be32. by rewrite length_reverse, le_bytes_length. Qed.

Lemma be32_bytes z : Forall is_byte (be32 z).
Proof. unfold be32. apply Forall_reverse, le_bytes_bytes. Qed.

Lemma be32_value z : le_bytes 4 (le_value (be32 z)) = be32 z.
Proof. rewrite <- (be32_length z) at 1. apply le_bytes_value, be32_bytes. Qed.

Lemma htonl_bytes z : le_bytes 4 (htonl z) = be32 z.
Proof. exact (be32_value z). Qed.

Lemma ntohl_be32 z : ntohl (le_value (be32 z)) = u32 z.
Proof.
  unfold htonl. rewrite be32_value. unfold be32. rewrite reverse_involutive. apply le_value_bytes.
Qed.

Lemma htonl_range x : 0 <= htonl x < 2 ^ 32.
Proof. pose proof (le_value_range (be32 x) (be32_bytes x)) as H. rewrite be32_length in H. exact H. Qed.

Lemma splice_length buf off data :
  0 <= off -> off + zlen data <= zlen buf -> length (splice buf off data) = length buf.
Proof.
  intros H1 H2. unfold splice. rewrite !length_app, length_take, length_drop. lia.
Qed.

Lemma splice_nil buf off : 0 <= off -> off <= zlen buf -> splice buf off [] = buf.
Proof.
  intros H1 H2. unfold splice. simpl. rewrite Nat.add_0_r. apply take_drop.
Qed.

Lemma splice_splice buf off d1 d2 :
  0 <= off -> off + zlen d1 + zlen d2 <= zlen buf ->
  splice (splice buf off d1) (off + zlen d1) d2 = splice buf off (d1 ++ d2).
Proof.
  intros H1 H2. unfold splice. set (o := Z.to_nat off).
  assert (Ho : (o + length d1 + length d2 <= length buf)%nat) by lia.
  replace (Z.to_nat (off + zlen d1)) with (o + length d1)%nat by lia.
  rewrite length_app. rewrite !app_assoc.
  rewrite take_app_le by (rewrite length_app, length_take; lia).
  rewrite take_ge by (rewrite length_app, length_take; lia).
  rewrite <- !app_assoc. do 3 f_equal.
  rewrite !app_assoc, drop_app_ge by (rewrite length_app, length_take; lia).
  rewrite length_app, length_take, drop_drop. f_equal. lia.
Qed.

Lemma splice_take buf n d :
  (n + length d <= length buf)%nat ->
  take (n + length d) (splice buf (Z.of_nat n) d) = take n buf ++ d.
Proof.
  intros H. unfold splice. rewrite Nat2Z.id, app_assoc, take_app_le by (rewrite length_app, length_take; lia).
  apply take_ge. rewrite length_app, length_take. lia.
Qed.

(** ** Words *)

Lemma u32_range x : 0 <= u32 x < 2 ^ 32.
Proof. apply Z.mod_pos_bound. lia. Qed.

Lemma u32_small x : 0 <= x < 2 ^ 32 -> u32 x = x.
Proof. apply Z.mod_small. Qed.

Lemma u32_add_l a b : u32 (u32 a + b) = u32 (a + b).
Proof. apply Zplus_mod_idemp_l. Qed.

Lemma u32_add_r a b : u32 (a + u32 b) = u32 (a + b).
Proof. apply Zplus_mod_idemp_r. Qed.

(** Bits above the width of a word. *)
Lemma lor_shiftl a b k : 0 <= k -> 0 <= a < 2 ^ k -> Z.lor a (Z.shiftl b k) = a + 2 ^ k * b.
Proof.
  intros Hk Ha. rewrite Z.shiftl_mul_pow2 by done. rewrite (Z.mul_comm (2 ^ k)).
  assert (H0 : Z.land a (b * 2 ^ k) = 0).
  { apply Z.bits_inj'. intros n Hn. rewrite Z.land_spec, Z.bits_0.
    destruct (Z.ltb_spec n k).
    - by rewrite Z.mul_pow2_bits_low, andb_false_r.
    - rewrite <- (Z.mod_small a (2 ^ k)) by done. by rewrite Z.mod_pow2_bits_high by lia. }
  rewrite <- Z.lxor_lor by done. symmetry. by apply Z.add_nocarry_lxor.
Qed.

Lemma land_ones_mod x k : 0 <= k -> Z.land x (2 ^ k - 1) = x mod 2 ^ k.
Proof. intros Hk. rewrite <- Z.land_ones by done. by rewrite Z.ones_equiv, Z.sub_1_r. Qed.

Lemma le_bytes_mod n z : le_bytes n (z mod 256 ^ Z.of_nat n) = le_bytes n z.
Proof.
  rewrite <- le_value_bytes. rewrite <- (le_bytes_length n z) at 1. apply le_bytes_value, le_bytes_bytes.
Qed.

Lemma le_bytes_app n k z : le_bytes (n + k) z = le_bytes n z ++ le_bytes k (z / 256 ^ Z.of_nat n).
Proof.
  revert z. induction n as [|n IH]; intros z; [simpl; by rewrite Z.div_1_r|].
  cbn [Nat.add le_bytes app]. rewrite IH, Z.div_div by lia. rewrite Nat2Z.inj_succ, Z.pow_succ_r by lia. done.
Qed.
