(* ===== verification/CStr.v ===== *)
(** * C strings and numbers in them

    What the parsers use of string.h, strings.h, ctype.h and stdlib.h in the C
    locale: a string in a block of bytes, comparison without case, white space,
    and the numbers of [strtol] and [strtoll].  Shared by XdrCodec, ProcParse,
    CmdRegistry, Json, Config, Util, Sockets, Plugin, ProcInit and TelmDict. *)

From stdpp Require Import base list numbers.
From Stdlib Require Import ZArith Lia.
From Stdlib Require String Ascii.
From S2P Require Import Prelude Words.
Open Scope Z_scope.

(** The bytes of a string constant. *)
Definition bytes_of (s : String.string) : list Z := (fun c => Z.of_nat (Ascii.nat_of_ascii c)) <$> String.list_ascii_of_string s.
Arguments bytes_of s%_string_scope.

(** ** Strings

    The C string in a block ends at the first zero byte, or at the end of the
    block, which a zero follows. *)

Fixpoint cstr (block : list Z) : list Z :=
  match block with
  | [] => []
  | b :: rest => if b =? 0 then [] else b :: cstr rest
  end.

Lemma cstr_idem k : cstr (cstr k) = cstr k.
Proof.
  induction k as [|b k IH]; simpl; [done|]. destruct (b =? 0) eqn:E; [done|]. simpl. by rewrite E, IH.
Qed.

(** A string without zero bytes is its own C string. *)
Lemma cstr_plain k : Forall (fun c => c <> 0) k -> cstr k = k.
Proof.
  induction 1 as [|b k Hb _ IH]; [done|]. cbn [cstr]. by rewrite (proj2 (Z.eqb_neq _ _) Hb), IH.
Qed.

Definition tolower (c : Z) : Z := if (65 <=? c) && (c <=? 90) then c + 32 else c.

(** [0 == strcasecmp(a, b)] *)
Fixpoint same_name (a b : list Z) : bool :=
  match a, b with
  | [], [] => true
  | x :: a', y :: b' => (tolower x =? tolower y) && same_name a' b'
  | _, _ => false
  end.

Lemma same_name_refl a : same_name a a = true.
Proof. induction a as [|x a IH]; [done|]. cbn. by rewrite Z.eqb_refl, IH. Qed.

(** [isspace] *)
Definition isspace (c : Z) : bool := ((9 <=? c) && (c <=? 13)) || (c =? 32).

(** [isblank] *)
Definition isblank (c : Z) : bool := (c =? 32) || (c =? 9).

(** [strchr]: what comes before the first [c], and what follows it. *)
Fixpoint strchr (c : Z) (s : list Z) : list Z * option (list Z) :=
  match s with
  | [] => ([], None)
  | x :: s' => if x =? c then ([], Some s') else let '(a, r) := strchr c s' in (x :: a, r)
  end.

Lemma strchr_none c s : c ∉ s -> strchr c s = (s, None).
Proof.
  induction s as [|x s IH]; [done|]. rewrite not_elem_of_cons. intros [H1 H2]. cbn [strchr].
  rewrite (proj2 (Z.eqb_neq _ _)) by congruence. by rewrite IH.
Qed.

Lemma strchr_app c a b : c ∉ a -> strchr c (a ++ c :: b) = (a, Some b).
Proof.
  induction a as [|x a IH].
  - intros _. cbn. by rewrite Z.eqb_refl.
  - rewrite not_elem_of_cons. intros [H1 H2]. cbn [app strchr].
    rewrite (proj2 (Z.eqb_neq _ _)) by congruence. by rewrite IH.
Qed.

(** ** Numbers *)

Definition digit (c : Z) : Z :=
  if (48 <=? c) && (c <=? 57) then c - 48
  else let l := tolower c in if (97 <=? l) && (l <=? 122) then l - 87 else 99.

Fixpoint digits (base : Z) (s : list Z) (acc : Z) : Z :=
  match s with
  | [] => acc
  | c :: s' => if digit c <? base then digits base s' (acc * base + digit c) else acc
  end.

Fixpoint after_spaces (s : list Z) : list Z :=
  match s with
  | c :: s' => if isspace c then after_spaces s' else s
  | [] => []
  end.

Definition signed (s : list Z) : bool * list Z :=
  match s with
  | c :: s' => if c =? 45 then (true, s') else if c =? 43 then (false, s') else (false, s)
  | [] => (false, [])
  end.

(** Base 0 is read off the prefix: 0x before a hexadecimal digit, or 0. *)
Definition prefixed (base : Z) (s : list Z) : Z * list Z :=
  match s with
  | z :: x :: h :: rest =>
      if ((base =? 0) || (base =? 16)) && (z =? 48) && (tolower x =? 120) && (digit h <? 16) then (16, h :: rest)
      else if base =? 0 then (if z =? 48 then 8 else 10, s) else (base, s)
  | z :: _ => if base =? 0 then (if z =? 48 then 8 else 10, s) else (base, s)
  | [] => (10, [])
  end.

(** The value, kept within 64 bits, and whether [errno] was set to ERANGE;
    [strtol] and [strtoll] agree where long has 64 bits. *)
Definition strtol (str : list Z) (base : Z) : Z * bool :=
  let '(neg, s) := signed (after_spaces (cstr str)) in
  let '(b, s) := prefixed base s in
  let v := if neg then - digits b s 0 else digits b s 0 in
  if v <? - 2 ^ 63 then (- 2 ^ 63, true)
  else if 2 ^ 63 - 1 <? v then (2 ^ 63 - 1, true)
  else (v, false).

Definition atol (str : list Z) : Z := (strtol str 10).1.

(** ** Decimal numerals *)

(** The digits of [n] as printf writes them; [fuel] digits at most. *)
Fixpoint numeral (fuel : nat) (n : Z) : list Z :=
  match fuel with
  | O => []
  | S fuel' => (if n <? 10 then [] else numeral fuel' (n / 10)) ++ [48 + n mod 10]
  end.

Lemma digits_app base a b acc :
  Forall (fun c => digit c < base) a -> digits base (a ++ b) acc = digits base b (digits base a acc).
Proof.
  intros H. revert acc. induction H as [|c a Hc _ IH]; intros acc; [done|]. cbn [app digits].
  rewrite (proj2 (Z.ltb_lt _ _) Hc). apply IH.
Qed.

Lemma numeral_digits fuel n :
  0 <= n < 10 ^ Z.of_nat fuel ->
  Forall (fun c => 48 <= c <= 57) (numeral fuel n) /\
  digits 10 (numeral fuel n) 0 = n.
Proof.
  assert (Hd : forall c, 48 <= c <= 57 -> digit c = c - 48).
  { intros c Hc. unfold digit. by rewrite (proj2 (Z.leb_le _ _)), (proj2 (Z.leb_le _ _)) by lia. }
  revert n. induction fuel as [|fuel IH]; intros n Hn; [simpl in Hn; assert (n = 0) by lia; subst; by split|].
  cbn [numeral]. pose proof (Z.mod_pos_bound n 10 ltac:(lia)) as Hm. pose proof (Z.div_mod n 10 ltac:(lia)) as Hdm.
  assert (Hstep : digit (48 + n mod 10) = n mod 10) by (rewrite Hd; lia).
  destruct (Z.ltb_spec n 10) as [Hs|Hs].
  - rewrite Z.mod_small in * by lia. split; [repeat constructor; lia|].
    cbn [app digits]. rewrite Hstep. by rewrite (proj2 (Z.ltb_lt _ _)) by lia.
  - rewrite Nat2Z.inj_succ, Z.pow_succ_r in Hn by lia.
    destruct (IH (n / 10)) as [F V]; [split; [apply Z.div_pos; lia|apply Z.div_lt_upper_bound; lia]|].
    split; [apply Forall_app; split; [done|repeat constructor; lia]|].
    rewrite digits_app by (eapply list.Forall_impl; [exact F|]; intros c Hc; cbn beta in Hc; rewrite Hd; lia).
    rewrite V. cbn [digits]. rewrite Hstep, (proj2 (Z.ltb_lt _ _)) by lia. lia.
Qed.

(** A positive number starts with a digit other than 0. *)
Lemma numeral_head fuel n :
  0 < n < 10 ^ Z.of_nat fuel -> fuel <> O -> exists c r, numeral fuel n = c :: r /\ 49 <= c <= 57.
Proof.
  revert n. induction fuel as [|fuel IH]; [done|]. intros n Hn _. cbn [numeral].
  destruct (Z.ltb_spec n 10) as [Hs|Hs].
  - exists (48 + n), []. rewrite Z.mod_small by lia. split; [done|lia].
  - rewrite Nat2Z.inj_succ, Z.pow_succ_r in Hn by lia.
    assert (Hd : 0 < n / 10 < 10 ^ Z.of_nat fuel)
      by (split; [apply Z.div_str_pos; lia|apply Z.div_lt_upper_bound; lia]).
    destruct fuel as [|fuel]; [cbn in Hd; lia|]. destruct (IH (n / 10) Hd ltac:(done)) as (c & r & -> & Hc).
    by exists c, (r ++ [48 + n mod 10]).
Qed.
