(* ===== verification/PriorityQueue.v ===== *)
(** * The priority queue (priorityQueue.c, priorityQueue.h)

    A binary heap in an array of element pointers whose cell 0 is unused.
    The elements live in the memory of the caller: the queue reaches their
    priority and their position only through the callbacks given to
    [ps_pqueue_init], which the class [PQElem] states together with what the
    queue relies on.  The comparison callback is a parameter too; the theorems
    ask of it only [CmpSpec], which both [>=] (events.c, util.c) and [>]
    satisfy. *)

From stdpp Require Import base gmap list numbers sorting.
From Stdlib Require Import ZArith Lia.
From S2P Require Import Prelude.
Open Scope nat_scope.

(** The get/set callbacks over a caller memory [M]: [ps_pqueue_get_pri_f],
    [ps_pqueue_set_pri_f], [ps_pqueue_get_pos_f], [ps_pqueue_set_pos_f]. *)
Class PQElem (M : Type) := {
  getpri : M -> ptr -> timeval;
  setpri : M -> ptr -> timeval -> M;
  getpos : M -> ptr -> nat;
  setpos : M -> ptr -> nat -> M;
  live : M -> ptr -> Prop;
  getpri_setpos : forall m p n x, getpri (setpos m p n) x = getpri m x;
  getpos_setpri : forall m p t x, getpos (setpri m p t) x = getpos m x;
  getpos_setpos_ne : forall m p n x, x <> p -> getpos (setpos m p n) x = getpos m x;
  live_setpos : forall m p n x, live (setpos m p n) x <-> live m x;
  live_setpri : forall m p t x, live (setpri m p t) x <-> live m x
}.

(** Callbacks that do store (the debug printer's do not). *)
Class PQPos (M : Type) `{PQElem M} := {
  getpri_setpri : forall m p t x, live m p ->
    getpri (setpri m p t) x = if decide (x = p) then t else getpri m x;
  getpos_setpos : forall m p n x, live m p ->
    getpos (setpos m p n) x = if decide (x = p) then n else getpos m x
}.

(** What the queue needs of [cmppri]: true implies "not before", false
    implies "not after" in the order of times. *)
Class CmpSpec (cmppri : timeval -> timeval -> bool) := {
  cmp_true : forall a b, cmppri a b = true -> tv_le b a;
  cmp_false : forall a b, cmppri a b = false -> tv_le a b
}.

(** [ps_pqueue_t]: [d] is the allocated array, of [avail] cells. *)
Record ps_pqueue_t := PQ { size : nat; avail : nat; step : nat; d : list ptr }.

Definition left (i : nat) : nat := 2 * i.
Definition right (i : nat) : nat := 2 * i + 1.
Definition parent (i : nat) : nat := Nat.div2 i.

(** The two mallocs of [ps_pqueue_init] may fail. *)
Definition ps_pqueue_init (q_ok d_ok : bool) (n : nat) : option ps_pqueue_t :=
  if negb q_ok then None
  else if negb d_ok then None
  else Some (PQ 1 (n + 1) (n + 1) (replicate (n + 1) inhabitant)).

Definition ps_pqueue_size (q : ps_pqueue_t) : nat := size q - 1.

Section Queue.
Context {M : Type} `{!PQElem M}.
Context (cmppri : timeval -> timeval -> bool).

(** The loop of [bubble_up]; [fuel] bounds the number of turns. *)
Fixpoint bubble_up_loop (fuel : nat) (m : M) (d : list ptr) (i : nat)
    (moving_pri : timeval) : M * list ptr * nat :=
  match fuel with
  | O => (m, d, i)
  | S fuel' =>
      let parent_node := parent i in
      if (1 <? i) && cmppri (getpri m (d !!! parent_node)) moving_pri then
        let x := d !!! parent_node in
        bubble_up_loop fuel' (setpos m x i) (<[i:=x]> d) parent_node moving_pri
      else (m, d, i)
  end.

Definition bubble_up (m : M) (q : ps_pqueue_t) (i : nat) : M * ps_pqueue_t :=
  let moving_node := d q !!! i in
  let moving_pri := getpri m moving_node in
  let '(m', d', i') := bubble_up_loop i m (d q) i moving_pri in
  (setpos m' moving_node i', PQ (size q) (avail q) (step q) (<[i':=moving_node]> d')).

Definition maxchild_d (m : M) (sz : nat) (d : list ptr) (i : nat) : nat :=
  let child_node := left i in
  if sz <=? child_node then 0
  else if (child_node + 1 <? sz)
          && cmppri (getpri m (d !!! child_node)) (getpri m (d !!! (child_node + 1)))
       then child_node + 1
       else child_node.

Definition maxchild (m : M) (q : ps_pqueue_t) (i : nat) : nat :=
  maxchild_d m (size q) (d q) i.

Fixpoint percolate_down_loop (fuel : nat) (sz : nat) (m : M) (d : list ptr) (i : nat)
    (moving_pri : timeval) : M * list ptr * nat :=
  match fuel with
  | O => (m, d, i)
  | S fuel' =>
      let child_node := maxchild_d m sz d i in
      if negb (child_node =? 0) && cmppri moving_pri (getpri m (d !!! child_node)) then
        let x := d !!! child_node in
        percolate_down_loop fuel' sz (setpos m x i) (<[i:=x]> d) child_node moving_pri
      else (m, d, i)
  end.

(** [size q] turns are enough: the index at least doubles each turn. *)
Definition percolate_down (m : M) (q : ps_pqueue_t) (i : nat) : M * ps_pqueue_t :=
  let moving_node := d q !!! i in
  let moving_pri := getpri m moving_node in
  let '(m', d', i') := percolate_down_loop (size q) (size q) m (d q) i moving_pri in
  (setpos m' moving_node i', PQ (size q) (avail q) (step q) (<[i':=moving_node]> d')).

(** The array is grown by [step] cells when it is full; [realloc_ok] is the
    outcome of that realloc.  Result 0 is success. *)
Definition ps_pqueue_insert (realloc_ok : bool) (m : M) (q : option ps_pqueue_t)
    (x : ptr) : Z * M * option ps_pqueue_t :=
  match q with
  | None => (1%Z, m, q)
  | Some q0 =>
      let grow := avail q0 <=? size q0 in
      if grow && negb realloc_ok then (1%Z, m, q)
      else
        let newsize := size q0 + step q0 in
        let d1 := if grow then d q0 ++ replicate (newsize - avail q0) inhabitant else d q0 in
        let av := if grow then newsize else avail q0 in
        let i := size q0 in
        let '(m', q') := bubble_up m (PQ (i + 1) av (step q0) (<[i:=x]> d1)) i in
        (0%Z, m', Some q')
  end.

Definition ps_pqueue_change_priority (m : M) (q : ps_pqueue_t) (new_pri : timeval)
    (x : ptr) : M * ps_pqueue_t :=
  let old_pri := getpri m x in
  let m1 := setpri m x new_pri in
  let posn := getpos m1 x in
  if cmppri old_pri new_pri then bubble_up m1 q posn else percolate_down m1 q posn.

Definition ps_pqueue_remove (m : M) (q : ps_pqueue_t) (x : ptr) : Z * M * ps_pqueue_t :=
  let posn := getpos m x in
  let sz := size q - 1 in
  let q1 := PQ sz (avail q) (step q) (<[posn := d q !!! sz]> (d q)) in
  let '(m', q') :=
    if cmppri (getpri m x) (getpri m (d q1 !!! posn)) then bubble_up m q1 posn
    else percolate_down m q1 posn in
  (0%Z, m', q').

Definition ps_pqueue_pop (m : M) (q : option ps_pqueue_t)
    : option ptr * M * option ps_pqueue_t :=
  match q with
  | None => (None, m, q)
  | Some q0 =>
      if size q0 =? 1 then (None, m, q)
      else
        let head := d q0 !!! 1 in
        let sz := size q0 - 1 in
        let '(m', q') :=
          percolate_down m (PQ sz (avail q0) (step q0) (<[1 := d q0 !!! sz]> (d q0))) 1 in
        (Some head, m', Some q')
  end.

Definition ps_pqueue_peek (q : option ps_pqueue_t) : option ptr :=
  match q with
  | None => None
  | Some q0 => if size q0 =? 1 then None else Some (d q0 !!! 1)
  end.

(** [subtree_is_valid] recurses on the children; [fuel] bounds the depth. *)
Fixpoint subtree_is_valid (fuel : nat) (m : M) (q : ps_pqueue_t) (pos : nat) : bool :=
  match fuel with
  | O => true
  | S fuel' =>
      (if left pos <? size q then
         negb (cmppri (getpri m (d q !!! pos)) (getpri m (d q !!! left pos)))
         && subtree_is_valid fuel' m q (left pos)
       else true)
      && (if right pos <? size q then
            negb (cmppri (getpri m (d q !!! pos)) (getpri m (d q !!! right pos)))
            && subtree_is_valid fuel' m q (right pos)
          else true)
  end.

Definition ps_pqueue_is_valid (m : M) (q : ps_pqueue_t) : bool :=
  subtree_is_valid (size q) m q 1.

(** The elements a queue holds, cells 1 to [size - 1]. *)
Definition contents (q : ps_pqueue_t) : list ptr := take (size q - 1) (drop 1 (d q)).

(** Heap order, and positions that agree with the array. *)
Definition heap_ordered (m : M) (q : ps_pqueue_t) : Prop :=
  forall j, 1 < j -> j < size q ->
    tv_le (getpri m (d q !!! parent j)) (getpri m (d q !!! j)).

(** The live cells lie inside the array; the array has [avail] cells. *)
Definition pq_cells (q : ps_pqueue_t) : Prop := 1 <= size q <= length (d q).

Definition pq_shape (q : ps_pqueue_t) : Prop :=
  pq_cells q /\ length (d q) = avail q /\ 0 < step q.

Definition pos_ok (m : M) (q : ps_pqueue_t) : Prop :=
  forall j, 1 <= j -> j < size q -> live m (d q !!! j) /\ getpos m (d q !!! j) = j.

Definition pq_wf (m : M) (q : ps_pqueue_t) : Prop :=
  pq_shape q /\ heap_ordered m q /\ pos_ok m q.
End Queue.

(** ** Index arithmetic *)

Lemma parent_lt i : 1 <= i -> parent i < i.
Proof. intros. unfold parent. apply Nat.lt_div2. lia. Qed.

Lemma parent_spec i : 2 * parent i <= i <= 2 * parent i + 1.
Proof. unfold parent. pose proof (Nat.div2_odd i). destruct (Nat.odd i); cbn [Nat.b2n] in *; lia. Qed.

Lemma parent_pos i : 1 < i -> 1 <= parent i.
Proof. pose proof (parent_spec i). lia. Qed.

Lemma parent_child i j : 1 <= i -> (parent j = i <-> j = left i \/ j = right i).
Proof.
  unfold left, right. intros. pose proof (parent_spec j). split; [lia|].
  intros [->| ->]; revert H0; [pose proof (parent_spec (2 * i)) | pose proof (parent_spec (2 * i + 1))]; lia.
Qed.

#[export] Hint Resolve parent_lt parent_pos : libproc.

(** ** Exchanging two cells *)

Definition swap (l : list ptr) (i k : nat) : list ptr :=
  <[k := l !!! i]> (<[i := l !!! k]> l).

Lemma length_swap l i k : length (swap l i k) = length l.
Proof. unfold swap. by rewrite !length_insert. Qed.

Lemma swap_get l i k j : i < length l -> k < length l ->
  swap l i k !!! j = if decide (j = k) then l !!! i
                     else if decide (j = i) then l !!! k else l !!! j.
Proof.
  intros Hi Hk. unfold swap. repeat case_decide; subst.
  - by rewrite arr_get_set_eq by (by rewrite length_insert).
  - rewrite arr_get_set_ne by done. by rewrite arr_get_set_eq.
  - by rewrite !arr_get_set_ne by done.
Qed.

Lemma hole_swap (l : list ptr) i k mv : i < length l -> k <> i ->
  <[k:=mv]> (<[i := l !!! k]> l) = swap (<[i:=mv]> l) i k.
Proof.
  intros Hi Hne. unfold swap.
  rewrite arr_get_set_eq by done. rewrite arr_get_set_ne by done.
  by rewrite list_insert_insert_eq.
Qed.

(** The cells 1 to [sz - 1] of an array, and that a swap inside permutes them. *)
Definition cells (sz : nat) (l : list ptr) : list ptr := take (sz - 1) (drop 1 l).

Lemma cells_insert_out sz l i x : sz <= i -> cells sz (<[i:=x]> l) = cells sz l.
Proof.
  intros. unfold cells. destruct (decide (1 <= i)) as [Hle|Hgt].
  - rewrite drop_insert_ge by done. by rewrite take_insert_ge by lia.
  - rewrite drop_insert_lt by lia. done.
Qed.

Lemma cells_insert_in sz l i x : 1 <= i -> i < sz ->
  cells sz (<[i:=x]> l) = <[i - 1:=x]> (cells sz l).
Proof.
  intros. unfold cells. rewrite drop_insert_ge by done.
  by rewrite take_insert_lt by lia.
Qed.

Lemma cells_lookup sz l j : 1 <= j -> j < sz -> cells sz l !! (j - 1) = l !! j.
Proof.
  intros. unfold cells. rewrite lookup_take_lt by lia. rewrite lookup_drop.
  f_equal. lia.
Qed.

Lemma lookup_of_total (l : list ptr) j : j < length l -> l !! j = Some (l !!! j).
Proof. intros. by apply list_lookup_lookup_total_lt. Qed.

Lemma cells_swap sz l i k : 1 <= i < sz -> 1 <= k < sz -> sz <= length l ->
  cells sz (swap l i k) ≡ₚ cells sz l.
Proof.
  intros Hi Hk Hl. unfold swap.
  rewrite !cells_insert_in by lia.
  apply swap_Permutation; rewrite cells_lookup by lia; apply lookup_of_total; lia.
Qed.

Lemma elem_of_cells sz l x : sz <= length l ->
  x ∈ cells sz l <-> exists j, 1 <= j < sz /\ l !!! j = x.
Proof.
  intros Hl. rewrite list_elem_of_lookup. split.
  - intros [j Hj]. exists (S j).
    assert (j < sz - 1) as Hlt.
    { apply lookup_lt_Some in Hj. unfold cells in Hj. rewrite length_take in Hj. lia. }
    split; [lia|].
    replace j with (S j - 1) in Hj by lia.
    rewrite cells_lookup in Hj by lia. by apply list_lookup_total_correct.
  - intros (j & Hj & <-). exists (j - 1). rewrite cells_lookup by lia.
    apply lookup_of_total; lia.
Qed.

(** ** Moving the hole

    Both loops move a hole through the array: one turn copies cell [k] into
    the hole [i] and makes [k] the hole. *)
Section Sift.
Context {M : Type} `{!PQElem M}.

Inductive sift (sz : nat) : M -> list ptr -> nat -> M -> list ptr -> nat -> Prop :=
| sift_done m l i : sift sz m l i m l i
| sift_move m l i k m' l' i' :
    k <> i -> 1 <= k < sz ->
    sift sz (setpos m (l !!! k) i) (<[i := l !!! k]> l) k m' l' i' ->
    sift sz m l i m' l' i'.

Lemma sift_range sz m l i m' l' i' : sift sz m l i m' l' i' ->
  1 <= i < sz -> sz <= length l ->
  1 <= i' < sz /\ length l' = length l.
Proof.
  induction 1 as [|m l i k m' l' i' Hne Hk _ IH]; intros Hi Hl; [done|].
  destruct IH as [? ?]; [done|by rewrite length_insert|].
  rewrite length_insert in *. done.
Qed.

Lemma sift_cells sz m l i m' l' i' mv : sift sz m l i m' l' i' ->
  1 <= i < sz -> sz <= length l ->
  cells sz (<[i':=mv]> l') ≡ₚ cells sz (<[i:=mv]> l).
Proof.
  induction 1 as [|m l i k m' l' i' Hne Hk _ IH]; intros Hi Hl; [done|].
  rewrite IH by (rewrite ?length_insert; lia).
  rewrite hole_swap by (done || lia). apply cells_swap; rewrite ?length_insert; lia.
Qed.

Lemma sift_outside sz m l i m' l' i' mv : sift sz m l i m' l' i' ->
  1 <= i < sz -> sz <= length l ->
  forall j, sz <= j -> <[i':=mv]> l' !!! j = <[i:=mv]> l !!! j.
Proof.
  induction 1 as [|m l i k m' l' i' Hne Hk _ IH]; intros Hi Hl j Hj; [done|].
  rewrite IH by (rewrite ?length_insert; lia).
  rewrite hole_swap by (done || lia).
  rewrite swap_get by (rewrite length_insert; lia).
  repeat case_decide; (lia || done).
Qed.

(** Every cell but the hole [i] carries its own index, and none holds [mv]. *)
Definition hole_pos (m : M) (sz : nat) (l : list ptr) (i : nat) (mv : ptr) : Prop :=
  forall j, 1 <= j < sz -> j <> i ->
    live m (l !!! j) /\ getpos m (l !!! j) = j /\ l !!! j <> mv.

Lemma sift_pos `{!PQPos M} sz m l i m' l' i' mv : sift sz m l i m' l' i' ->
  1 <= i < sz -> sz <= length l -> hole_pos m sz l i mv -> hole_pos m' sz l' i' mv.
Proof.
  induction 1 as [|m l i k m' l' i' Hne Hk _ IH]; intros Hi Hl Hp; [done|].
  apply IH; [done|by rewrite length_insert|].
  intros j Hj Hjk. destruct (Hp k Hk Hne) as (Lk & Pk & Nk).
  rewrite live_setpos, getpos_setpos by done.
  destruct (decide (j = i)) as [->|Hji].
  - rewrite arr_get_set_eq by lia. by rewrite decide_True.
  - rewrite arr_get_set_ne by done. destruct (Hp j Hj Hji) as (Lj & Pj & Nj).
    rewrite decide_False; [done|]. intros E. rewrite E, Pk in Pj. lia.
Qed.
End Sift.

(** ** What the queue leaves alone

    A relation on memories that contains every [setpos] holds between the
    memory before and after any operation but [ps_pqueue_change_priority]. *)
Class PosFrame {M} `{!PQElem M} (R : M -> M -> Prop) := {
  pf_refl : forall m, R m m;
  pf_trans : forall a b c, R a b -> R b c -> R a c;
  pf_setpos : forall m p n, R m (setpos m p n)
}.

Section Frames.
Context {M : Type} `{!PQElem M}.

Lemma sift_frame (R : M -> M -> Prop) `{!PosFrame R} sz m l i m' l' i' :
  sift sz m l i m' l' i' -> R m m'.
Proof.
  induction 1; [apply pf_refl|]. eapply pf_trans; [apply pf_setpos|done].
Qed.

#[export] Instance same_pri_frame :
  PosFrame (fun m m' : M => forall x, getpri m' x = getpri m x).
Proof.
  split; [done| |intros; apply getpri_setpos]. intros a b c H1 H2 x. by rewrite H2, H1.
Qed.

#[export] Instance same_live_frame :
  PosFrame (fun m m' : M => forall x, live m' x <-> live m x).
Proof.
  split; [done| |intros; apply live_setpos]. intros a b c H1 H2 x. by rewrite H2, H1.
Qed.

Lemma sift_getpri sz m l i m' l' i' : sift sz m l i m' l' i' ->
  forall x, getpri m' x = getpri m x.
Proof. apply (sift_frame (fun m m' => forall x, getpri m' x = getpri m x)). Qed.

Lemma sift_live sz m l i m' l' i' : sift sz m l i m' l' i' ->
  forall x, live m' x <-> live m x.
Proof. apply (sift_frame (fun m m' => forall x, live m' x <-> live m x)). Qed.

(** Positions of pointers outside the touched cells. *)
Lemma sift_getpos_out sz m l i m' l' i' : sift sz m l i m' l' i' ->
  1 <= i < sz -> sz <= length l ->
  forall x, (forall j, 1 <= j < sz -> j <> i -> l !!! j <> x) -> getpos m' x = getpos m x.
Proof.
  induction 1 as [|m l i k m' l' i' Hne Hk _ IH]; intros Hi Hl x Hx; [done|].
  rewrite IH; [apply getpos_setpos_ne; intros ->; by apply (Hx k)|done|by rewrite length_insert|].
  intros j Hj Hjk. destruct (decide (j = i)) as [->|].
  - rewrite arr_get_set_eq by lia. by apply (Hx k).
  - rewrite arr_get_set_ne by done. by apply (Hx j).
Qed.
End Frames.

(** ** Heap order with a hole *)
Section HeapOrder.
Context (pri : ptr -> timeval) (sz : nat).

Definition edge (l : list ptr) (j : nat) : Prop :=
  tv_le (pri (l !!! parent j)) (pri (l !!! j)).

(** Children of [i] are not before the parent of [i]. *)
Definition grand (l : list ptr) (i : nat) : Prop :=
  1 < i -> forall j, 1 < j < sz -> parent j = i ->
    tv_le (pri (l !!! parent i)) (pri (l !!! j)).

(** Only the edge into [i] may be out of order. *)
Definition up_inv (l : list ptr) (i : nat) : Prop :=
  (forall j, 1 < j < sz -> j <> i -> edge l j) /\ grand l i.

(** Only the edges out of [i] may be out of order. *)
Definition down_inv (l : list ptr) (i : nat) : Prop :=
  (forall j, 1 < j < sz -> parent j <> i -> edge l j) /\ grand l i.

Lemma up_step l i : 1 < i < sz -> sz <= length l -> up_inv l i ->
  tv_le (pri (l !!! i)) (pri (l !!! parent i)) -> up_inv (swap l i (parent i)) (parent i).
Proof.
  intros Hi Hl [He Hg] Hle.
  pose proof (parent_lt i ltac:(lia)) as Hp. pose proof (parent_pos i ltac:(lia)) as Hp1.
  assert (forall j, swap l i (parent i) !!! j =
    if decide (j = parent i) then l !!! i else if decide (j = i) then l !!! parent i
    else l !!! j) as Hs by (intros; apply swap_get; lia).
  split.
  - intros j Hj Hne. unfold edge. rewrite !Hs.
    pose proof (parent_lt j ltac:(lia)) as Hpj.
    rewrite (decide_False (P := j = parent i)) by done.
    destruct (decide (j = i)) as [->|Hji].
    + by rewrite decide_True by done.
    + destruct (decide (parent j = parent i)) as [E|].
      * eapply tv_le_trans; [exact Hle|]. rewrite <-E. by apply He.
      * destruct (decide (parent j = i)) as [E|].
        -- by apply Hg; [lia..|].
        -- by apply He.
  - intros Hp2 j Hj E. rewrite !Hs. subst.
    pose proof (parent_lt (parent i) ltac:(lia)) as Hpp.
    pose proof (parent_lt j ltac:(lia)) as Hpj.
    rewrite (decide_False (P := parent (parent i) = parent i)) by lia.
    rewrite (decide_False (P := parent (parent i) = i)) by lia.
    rewrite (decide_False (P := j = parent i)) by lia.
    assert (edge l (parent i)) as Ep by (apply He; lia).
    case_decide; [exact Ep|].
    eapply tv_le_trans; [exact Ep|]. rewrite <-E. apply He; lia.
Qed.

Lemma up_done l i : up_inv l i -> (1 < i -> edge l i) ->
  forall j, 1 < j < sz -> edge l j.
Proof.
  intros [He _] Hi j Hj. destruct (decide (j = i)) as [->|]; [apply Hi; lia|by apply He].
Qed.

Lemma down_step l i c : 1 <= i -> 1 < c < sz -> sz <= length l -> parent c = i ->
  (forall j, 1 < j < sz -> parent j = i -> tv_le (pri (l !!! c)) (pri (l !!! j))) ->
  down_inv l i -> tv_le (pri (l !!! c)) (pri (l !!! i)) -> down_inv (swap l i c) c.
Proof.
  intros Hi Hc Hl Hpc Hmin [He Hg] Hle.
  pose proof (parent_lt c ltac:(lia)) as Hlt.
  assert (forall j, swap l i c !!! j =
    if decide (j = c) then l !!! i else if decide (j = i) then l !!! c
    else l !!! j) as Hs by (intros; apply swap_get; lia).
  split.
  - intros j Hj Hne. unfold edge. rewrite !Hs.
    pose proof (parent_lt j ltac:(lia)) as Hpj.
    rewrite (decide_False (P := parent j = c)) by done.
    destruct (decide (j = c)) as [->|Hjc].
    + by rewrite decide_True by done.
    + destruct (decide (parent j = i)) as [E|].
      * rewrite decide_False by lia. by apply Hmin.
      * destruct (decide (j = i)) as [->|].
        -- by apply Hg; [lia..|].
        -- by apply He.
  - intros _ j Hj E. rewrite !Hs. subst.
    pose proof (parent_lt j ltac:(lia)) as Hpj.
    rewrite (decide_False (P := parent (parent j) = parent j)) by lia.
    rewrite decide_True by done.
    rewrite (decide_False (P := j = parent j)) by lia.
    rewrite decide_False by lia. apply He; lia.
Qed.

Lemma down_done l i : down_inv l i ->
  (forall j, 1 < j < sz -> parent j = i -> edge l j) ->
  forall j, 1 < j < sz -> edge l j.
Proof.
  intros [He _] Hi j Hj. destruct (decide (parent j = i)); [by apply Hi|by apply He].
Qed.

(** The root of an ordered heap is a minimum. *)
Lemma root_min l : (forall j, 1 < j < sz -> edge l j) ->
  forall j, 1 <= j < sz -> tv_le (pri (l !!! 1)) (pri (l !!! j)).
Proof.
  intros He j. induction j as [j IH] using lt_wf_ind. intros Hj.
  destruct (decide (j = 1)) as [->|Hne]; [apply tv_le_refl|].
  eapply tv_le_trans; [|apply He; lia].
  apply IH; [apply parent_lt; lia|].
  pose proof (parent_pos j ltac:(lia)). pose proof (parent_lt j ltac:(lia)). lia.
Qed.
End HeapOrder.

(** ** The loops *)
Section Loops.
Context {M : Type} `{!PQElem M}.
Context (cmppri : timeval -> timeval -> bool) `{!CmpSpec cmppri}.

Lemma bubble_up_loop_sift fuel sz m l i p m' l' i' :
  1 <= i < sz -> bubble_up_loop cmppri fuel m l i p = (m', l', i') ->
  sift sz m l i m' l' i'.
Proof.
  revert m l i; induction fuel as [|fuel IH]; intros m l i Hi H; simpl in H;
    [simplify_eq; constructor|].
  destruct (Nat.ltb_spec 1 i) as [Hlt|]; simpl in H; [|simplify_eq; constructor].
  destruct (cmppri _ p); [|simplify_eq; constructor].
  pose proof (parent_lt i ltac:(lia)). pose proof (parent_pos i ltac:(lia)).
  econstructor; [| |apply IH, H]; lia.
Qed.

Lemma bubble_up_loop_order fuel sz m l i mv m' l' i' :
  i <= fuel -> 1 <= i < sz -> sz <= length l ->
  bubble_up_loop cmppri fuel m l i (getpri m mv) = (m', l', i') ->
  up_inv (getpri m) sz (<[i:=mv]> l) i ->
  forall j, 1 < j < sz -> edge (getpri m) (<[i':=mv]> l') j.
Proof.
  revert m l i; induction fuel as [|fuel IH]; intros m l i Hf Hi Hl H Hinv; simpl in H; [lia|].
  destruct (Nat.ltb_spec 1 i) as [Hlt|Hge]; simpl in H;
    [|simplify_eq; apply (up_done _ _ _ _ Hinv); lia].
  pose proof (parent_lt i ltac:(lia)) as Hp. pose proof (parent_pos i ltac:(lia)) as Hp1.
  assert (<[i:=mv]> l !!! i = mv) as Hmv by (apply arr_get_set_eq; lia).
  assert (<[i:=mv]> l !!! parent i = l !!! parent i) as Hpar by (apply arr_get_set_ne; lia).
  destruct (cmppri (getpri m (l !!! parent i)) (getpri m mv)) eqn:Hc.
  - apply cmp_true in Hc.
    rewrite <-(getpri_setpos m (l !!! parent i) i mv) in H.
    assert (forall x, getpri (setpos m (l !!! parent i) i) x = getpri m x) as Hsame
      by (intros; apply getpri_setpos).
    intros j Hj. unfold edge.
    rewrite <-!Hsame. eapply IH; [| | |exact H| |exact Hj]; rewrite ?length_insert; try lia.
    rewrite hole_swap by lia.
    assert (up_inv (getpri m) sz (swap (<[i:=mv]> l) i (parent i)) (parent i)) as [U1 U2].
    { apply up_step; rewrite ?length_insert; try lia; try done. by rewrite Hmv, Hpar. }
    split; [intros k Hk Hki; unfold edge|intros Hk1 k Hk Hki]; rewrite !Hsame;
      [by apply U1|by apply U2].
  - simplify_eq. apply cmp_false in Hc. apply (up_done _ _ _ _ Hinv).
    intros _. unfold edge. by rewrite Hmv, Hpar.
Qed.

Lemma maxchild_spec m sz l i : 1 <= i ->
  match maxchild_d cmppri m sz l i with
  | O => forall j, 1 < j < sz -> parent j <> i
  | S c' => let c := S c' in 1 < c < sz /\ parent c = i /\
      forall j, 1 < j < sz -> parent j = i -> tv_le (getpri m (l !!! c)) (getpri m (l !!! j))
  end.
Proof.
  intros Hi. unfold maxchild_d, left.
  destruct (Nat.leb_spec sz (2 * i)) as [Hge|Hlt].
  { intros j Hj E. apply parent_child in E; unfold left, right in *; lia. }
  destruct (Nat.ltb_spec (2 * i + 1) sz) as [Hr|Hr]; cbn [andb];
    [destruct (cmppri _ _) eqn:Hc|].
  1: replace (2 * i + 1) with (S (2 * i)) in * by lia.
  2,3: assert (exists c', 2 * i = S c') as [c' E] by (exists (2 * i - 1); lia); rewrite E.
  all: cbv zeta; (split; [lia|]); (split; [apply parent_child; unfold left, right; lia|]).
  all: intros j Hj Hpj; apply parent_child in Hpj as [->| ->]; unfold left, right in *; try lia.
  all: rewrite <-?E; replace (2 * i + 1) with (S (2 * i)) in * by lia; try apply tv_le_refl.
  - by apply cmp_true in Hc.
  - by apply cmp_false in Hc.
Qed.

Lemma percolate_down_loop_sift fuel sz m l i p m' l' i' :
  1 <= i -> percolate_down_loop cmppri fuel sz m l i p = (m', l', i') ->
  sift sz m l i m' l' i'.
Proof.
  revert m l i; induction fuel as [|fuel IH]; intros m l i Hi H; simpl in H;
    [simplify_eq; constructor|].
  pose proof (maxchild_spec m sz l i Hi) as Hm.
  destruct (maxchild_d cmppri m sz l i) as [|c'] eqn:Ec; simpl in H; [simplify_eq; constructor|].
  destruct Hm as (Hc & Hp & _).
  destruct (cmppri _ _); [|simplify_eq; constructor].
  pose proof (parent_lt (S c') ltac:(lia)).
  econstructor; [| |apply IH, H]; lia.
Qed.

Lemma percolate_down_loop_order fuel sz m l i mv m' l' i' :
  sz <= fuel + i -> 1 <= i -> i < length l -> sz <= length l ->
  percolate_down_loop cmppri fuel sz m l i (getpri m mv) = (m', l', i') ->
  down_inv (getpri m) sz (<[i:=mv]> l) i ->
  forall j, 1 < j < sz -> edge (getpri m) (<[i':=mv]> l') j.
Proof.
  revert m l i; induction fuel as [|fuel IH]; intros m l i Hf Hi Hil Hl H Hinv.
  { simpl in H. simplify_eq. apply (down_done _ _ _ _ Hinv). intros j Hj Hp.
    pose proof (parent_lt j ltac:(lia)). lia. }
  simpl in H.
  pose proof (maxchild_spec m sz l i Hi) as Hm.
  assert (<[i:=mv]> l !!! i = mv) as Hmv by (apply arr_get_set_eq; lia).
  assert (forall j, 1 < j < sz -> parent j = i -> <[i:=mv]> l !!! j = l !!! j) as Hch.
  { intros j Hj Hp. apply arr_get_set_ne. pose proof (parent_lt j ltac:(lia)). lia. }
  destruct (maxchild_d cmppri m sz l i) as [|c'] eqn:Ec; simpl negb in H; simpl andb in H;
    cbv iota in H.
  { simplify_eq. apply (down_done _ _ _ _ Hinv). intros j Hj Hp. by destruct (Hm j). }
  destruct Hm as (Hc & Hp & Hmin). set (c := S c') in *.
  destruct (cmppri (getpri m mv) (getpri m (l !!! c))) eqn:Hcmp.
  - apply cmp_true in Hcmp.
    rewrite <-(getpri_setpos m (l !!! c) i mv) in H.
    assert (forall x, getpri (setpos m (l !!! c) i) x = getpri m x) as Hsame
      by (intros; apply getpri_setpos).
    intros j Hj. unfold edge. rewrite <-!Hsame.
    pose proof (parent_lt c ltac:(lia)).
    eapply IH; [| | | |exact H| |exact Hj]; rewrite ?length_insert; try lia.
    rewrite hole_swap by lia.
    assert (down_inv (getpri m) sz (swap (<[i:=mv]> l) i c) c) as [U1 U2].
    { apply down_step; rewrite ?length_insert; try lia; try done.
      - intros k Hk Hki. rewrite !Hch by done. by apply Hmin.
      - by rewrite Hmv, Hch. }
    split; [intros k Hk Hki; unfold edge|intros Hk1 k Hk Hki]; rewrite !Hsame;
      [by apply U1|by apply U2].
  - simplify_eq. apply cmp_false in Hcmp. apply (down_done _ _ _ _ Hinv).
    intros j Hj Hpj. unfold edge. rewrite Hpj, Hmv, Hch by done.
    eapply tv_le_trans; [exact Hcmp|by apply Hmin].
Qed.
End Loops.

Lemma cells_snoc (l : list ptr) i : 1 <= i < length l ->
  cells (i + 1) l = cells i l ++ [l !!! i].
Proof.
  intros. unfold cells. replace (i + 1 - 1) with (S (i - 1)) by lia.
  apply take_S_r. rewrite lookup_drop. replace (1 + (i - 1)) with i by lia.
  apply lookup_of_total. lia.
Qed.

Lemma cells_ext (l1 l2 : list ptr) sz : sz <= length l1 -> length l1 = length l2 ->
  (forall j, 1 <= j < sz -> l1 !!! j = l2 !!! j) -> cells sz l1 = cells sz l2.
Proof.
  intros Hl Hlen Hj. apply list_eq. intros k.
  destruct (decide (k < sz - 1)) as [Hk|Hk].
  - replace k with (S k - 1) by lia. rewrite !cells_lookup by lia.
    rewrite !lookup_of_total by lia. f_equal. apply Hj. lia.
  - unfold cells. by rewrite !lookup_take_ge by lia.
Qed.

(** ** The sifting operations *)
Section Operations.
Context {M : Type} `{!PQElem M}.
Context (cmppri : timeval -> timeval -> bool) `{!CmpSpec cmppri}.
Implicit Types (m : M) (q : ps_pqueue_t).

(** What sifting promises: same elements, heap order, same priorities. *)
Definition sifted m q m' q' : Prop :=
  length (d q') = length (d q) /\ heap_ordered m' q' /\ contents q' ≡ₚ contents q /\
  size q' = size q /\ avail q' = avail q /\ step q' = step q /\
  (forall x, getpri m' x = getpri m x) /\ (forall x, live m' x <-> live m x) /\
  (forall x, x ∉ contents q -> getpos m' x = getpos m x).

Lemma sift_sifted m q i m1 l1 i1 :
  let mv := d q !!! i in
  let m' := setpos m1 mv i1 in
  let q' := PQ (size q) (avail q) (step q) (<[i1:=mv]> l1) in
  pq_cells q -> 1 <= i < size q -> sift (size q) m (d q) i m1 l1 i1 ->
  (forall j, 1 < j < size q -> edge (getpri m) (<[i1:=mv]> l1) j) ->
  sifted m q m' q'.
Proof.
  intros mv m' q' Hs Hi Hsift He.
  assert (size q <= length (d q)) as Hsl by (unfold pq_cells in Hs; lia).
  assert (forall x, getpri m' x = getpri m x) as Hpri.
  { intros x. unfold m'. rewrite getpri_setpos.
    by apply (sift_getpri _ _ _ _ _ _ _ Hsift). }
  pose proof (sift_range _ _ _ _ _ _ _ Hsift Hi Hsl) as [Hi1 Hl1].
  assert (<[i:=mv]> (d q) = d q) as Hid.
  { apply list_insert_id. apply lookup_of_total. lia. }
  split; [simpl; by rewrite length_insert|].
  split; [intros j Hj1 Hj2; rewrite !Hpri; simpl in *; apply He; lia|].
  split; [pose proof (sift_cells _ _ _ _ _ _ _ mv Hsift Hi Hsl) as Hc;
          rewrite Hid in Hc; exact Hc|].
  do 3 (split; [done|]). split; [done|]. split.
  - intros x. unfold m'. rewrite live_setpos.
    by apply (sift_live _ _ _ _ _ _ _ Hsift).
  - intros x Hx.
    assert (forall j, 1 <= j < size q -> d q !!! j <> x) as Hout.
    { intros j Hj <-. apply Hx. apply elem_of_cells; [lia|by exists j]. }
    unfold m'. rewrite getpos_setpos_ne by (intros ->; by apply (Hout i)).
    eapply sift_getpos_out; eauto.
Qed.

Lemma sift_pos_ok `{!PQPos M} m q i m1 l1 i1 :
  let mv := d q !!! i in
  pq_cells q -> 1 <= i < size q -> sift (size q) m (d q) i m1 l1 i1 ->
  live m mv -> hole_pos m (size q) (d q) i mv ->
  pos_ok (setpos m1 mv i1) (PQ (size q) (avail q) (step q) (<[i1:=mv]> l1)).
Proof.
  intros mv Hs Hi Hsift Hmv Hp.
  assert (size q <= length (d q)) as Hsl by (unfold pq_cells in Hs; lia).
  pose proof (sift_range _ _ _ _ _ _ _ Hsift Hi Hsl) as [Hi1 Hl1].
  pose proof (sift_pos _ _ _ _ _ _ _ mv Hsift Hi Hsl Hp) as Hp1.
  assert (live m1 mv) as Lmv by (by apply (sift_live _ _ _ _ _ _ _ Hsift)).
  intros j Hj1 Hj2. simpl in *.
  rewrite live_setpos, getpos_setpos by done.
  destruct (decide (j = i1)) as [->|Hne].
  - rewrite arr_get_set_eq by lia. by rewrite decide_True.
  - rewrite arr_get_set_ne by done. destruct (Hp1 j) as (? & ? & ?); [lia|done|].
    by rewrite decide_False.
Qed.

Lemma bubble_up_sifted m q i :
  pq_cells q -> 1 <= i < size q -> up_inv (getpri m) (size q) (d q) i ->
  sifted m q (bubble_up cmppri m q i).1 (bubble_up cmppri m q i).2.
Proof.
  intros Hsh Hi Hup. unfold bubble_up.
  destruct (bubble_up_loop _ _ _ _ _ _) as [[m1 l1] i1] eqn:E. simpl.
  assert (1 <= size q <= length (d q)) as Hs by exact Hsh.
  apply sift_sifted; [done..| |].
  - by eapply bubble_up_loop_sift.
  - eapply (bubble_up_loop_order cmppri i (size q)); [| | |exact E|]; try lia.
    by rewrite list_insert_id by (apply lookup_of_total; lia).
Qed.

Lemma percolate_down_sifted m q i :
  pq_cells q -> 1 <= i < size q -> down_inv (getpri m) (size q) (d q) i ->
  sifted m q (percolate_down cmppri m q i).1 (percolate_down cmppri m q i).2.
Proof.
  intros Hsh Hi Hdn. unfold percolate_down.
  destruct (percolate_down_loop _ _ _ _ _ _ _) as [[m1 l1] i1] eqn:E. simpl.
  assert (1 <= size q <= length (d q)) as Hs by exact Hsh.
  apply sift_sifted; [done..| |].
  - refine (percolate_down_loop_sift cmppri _ _ _ _ _ _ _ _ _ _ E); lia.
  - refine (percolate_down_loop_order cmppri _ _ _ _ _ _ _ _ _ _ _ _ _ E _); try lia.
    by rewrite list_insert_id by (apply lookup_of_total; lia).
Qed.

Lemma bubble_up_pos `{!PQPos M} m q i :
  pq_cells q -> 1 <= i < size q -> live m (d q !!! i) ->
  hole_pos m (size q) (d q) i (d q !!! i) ->
  pos_ok (bubble_up cmppri m q i).1 (bubble_up cmppri m q i).2.
Proof.
  intros Hsh Hi Hlv Hp. unfold bubble_up.
  destruct (bubble_up_loop _ _ _ _ _ _) as [[m1 l1] i1] eqn:E. simpl.
  apply sift_pos_ok with (m := m) (i := i); [done..| |done|done]. by eapply bubble_up_loop_sift.
Qed.

Lemma percolate_down_pos `{!PQPos M} m q i :
  pq_cells q -> 1 <= i < size q -> live m (d q !!! i) ->
  hole_pos m (size q) (d q) i (d q !!! i) ->
  pos_ok (percolate_down cmppri m q i).1 (percolate_down cmppri m q i).2.
Proof.
  intros Hsh Hi Hlv Hp. unfold percolate_down.
  destruct (percolate_down_loop _ _ _ _ _ _ _) as [[m1 l1] i1] eqn:E. simpl.
  apply sift_pos_ok with (m := m) (i := i); [done..| |done|done].
  refine (percolate_down_loop_sift cmppri _ _ _ _ _ _ _ _ _ _ E); lia.
Qed.

(** Past the live cells [percolate_down] only rewrites its own cell. *)
Lemma percolate_down_outside m q i : 1 <= i -> size q <= i ->
  percolate_down cmppri m q i =
  (setpos m (d q !!! i) i, PQ (size q) (avail q) (step q) (<[i := d q !!! i]> (d q))).
Proof.
  intros Hi Hge. unfold percolate_down.
  destruct (size q) as [|n] eqn:E; [done|]. simpl percolate_down_loop.
  unfold maxchild_d, left. destruct (Nat.leb_spec (S n) (2 * i)); [done|lia].
Qed.
End Operations.

(** ** Lemmas on the public operations *)
Section Public.
Context {M : Type} `{!PQElem M}.
Context (cmppri : timeval -> timeval -> bool) `{!CmpSpec cmppri}.
Implicit Types (m : M) (q : ps_pqueue_t).

Definition pq_heap m q : Prop := pq_cells q /\ heap_ordered m q.

Lemma wf_heap m q : pq_wf m q -> pq_heap m q.
Proof. intros ((? & _) & ? & ?). by split. Qed.

Lemma cells_bounds q : pq_cells q -> 1 <= size q <= length (d q).
Proof. done. Qed.

Lemma wf_edge m q : pq_heap m q -> forall j, 1 < j < size q -> edge (getpri m) (d q) j.
Proof. intros [_ Ho] j Hj. apply Ho; lia. Qed.

Lemma wf_grand m q i : pq_heap m q -> grand (getpri m) (size q) (d q) i.
Proof.
  intros H Hi j Hj E. pose proof (parent_lt j ltac:(lia)).
  eapply tv_le_trans; [apply (wf_edge _ _ H); lia|].
  rewrite <-E. by apply (wf_edge _ _ H).
Qed.

(** In a well-formed queue an element sits at its recorded position. *)
Lemma wf_position m q x : pq_wf m q -> x ∈ contents q ->
  1 <= getpos m x < size q /\ d q !!! getpos m x = x /\ live m x.
Proof.
  intros ((Hs%cells_bounds & _) & _ & Hp) Hx.
  apply elem_of_cells in Hx as (j & Hj & <-); [|lia].
  destruct (Hp j) as [? ->]; [lia..|]. done.
Qed.

Lemma wf_hole_pos m q i : pq_wf m q -> 1 <= i < size q ->
  hole_pos m (size q) (d q) i (d q !!! i).
Proof.
  intros (_ & _ & Hp) Hi j Hj Hne. destruct (Hp j) as [? Pj]; [lia..|].
  destruct (Hp i) as [_ Pi]; [lia..|]. repeat split; [done..|].
  intros E. rewrite E, Pi in Pj. done.
Qed.

Lemma peek_min m q x : pq_heap m q -> ps_pqueue_peek (Some q) = Some x ->
  x ∈ contents q /\ forall y, y ∈ contents q -> tv_le (getpri m x) (getpri m y).
Proof.
  intros H Hp. pose proof H as [Hs%cells_bounds _]. unfold ps_pqueue_peek in Hp.
  destruct (Nat.eqb_spec (size q) 1) as [|Hne]; [done|]. simplify_eq.
  split; [apply elem_of_cells; [lia|exists 1; split; [lia|done]]|].
  intros y Hy. apply elem_of_cells in Hy as (j & Hj & <-); [|lia].
  eapply root_min; [|done]. by apply wf_edge.
Qed.

(** The grown array of an insertion. *)
Definition grown q : ps_pqueue_t :=
  if avail q <=? size q
  then PQ (size q) (size q + step q) (step q)
          (d q ++ replicate (size q + step q - avail q) inhabitant)
  else q.

Lemma grown_shape q : pq_shape q ->
  pq_shape (grown q) /\ size (grown q) = size q /\ size q < avail (grown q) /\
  (forall j, j < size q -> d (grown q) !!! j = d q !!! j) /\
  contents (grown q) = contents q.
Proof.
  intros (Hs%cells_bounds & Hl & Hst). unfold grown.
  destruct (Nat.leb_spec (avail q) (size q)) as [Hg|Hg]; [|by repeat split; try lia].
  unfold pq_shape, pq_cells, contents; simpl. rewrite length_app, length_replicate.
  repeat split; try lia.
  - intros j Hj. apply lookup_total_app_l. lia.
  - rewrite drop_app_le by lia. apply take_app_le. rewrite length_drop. lia.
Qed.

(** The array just before the new element is sifted up. *)
Definition appended q x : ps_pqueue_t :=
  PQ (size q + 1) (avail (grown q)) (step (grown q)) (<[size q := x]> (d (grown q))).

Lemma insert_unfold ok m q x :
  ps_pqueue_insert cmppri ok m (Some q) x =
  if (avail q <=? size q) && negb ok then (1%Z, m, Some q)
  else (0%Z, (bubble_up cmppri m (appended q x) (size q)).1,
        Some (bubble_up cmppri m (appended q x) (size q)).2).
Proof.
  unfold ps_pqueue_insert, appended, grown.
  destruct (avail q <=? size q), ok; simpl; try done;
    match goal with |- context [bubble_up ?c ?m ?q ?i] => by destruct (bubble_up c m q i) end.
Qed.

Lemma appended_spec m q x : pq_shape q -> heap_ordered m q ->
  pq_shape (appended q x) /\ up_inv (getpri m) (size q + 1) (d (appended q x)) (size q) /\
  contents (appended q x) ≡ₚ x :: contents q /\
  (forall j, j < size q -> d (appended q x) !!! j = d q !!! j) /\
  d (appended q x) !!! size q = x.
Proof.
  intros Hsh Ho. assert (pq_heap m q) as H by (split; [apply Hsh|done]).
  destruct (grown_shape q Hsh) as (Hsh' & Es & Hav & Hget & Hcon).
  destruct Hsh' as (Hs%cells_bounds & Hl & Hst). rewrite Es in Hs.
  assert (forall j, j < size q -> d (appended q x) !!! j = d q !!! j) as Hold.
  { intros j Hj. simpl. rewrite arr_get_set_ne by lia. by apply Hget. }
  assert (d (appended q x) !!! size q = x) as Hnew by (simpl; apply arr_get_set_eq; lia).
  split; [|split; [split|split; [|done]]].
  - unfold pq_shape, pq_cells; simpl. rewrite length_insert. lia.
  - intros j Hj Hne. pose proof (parent_lt j ltac:(lia)). unfold edge.
    rewrite !Hold by lia. apply (wf_edge _ _ H). lia.
  - intros _ j Hj E. pose proof (parent_lt j ltac:(lia)). lia.
  - unfold contents. simpl size. change (take (size q + 1 - 1) (drop 1 (d (appended q x))))
      with (cells (size q + 1) (d (appended q x))).
    rewrite cells_snoc by (simpl; rewrite length_insert; lia). rewrite Hnew.
    rewrite <-Permutation_cons_append. f_equiv.
    change (take (size q - 1) (drop 1 (d q))) with (contents q).
    rewrite <-Hcon. unfold contents. rewrite Es.
    change (take (size q - 1) (drop 1 (d (grown q)))) with (cells (size q) (d (grown q))).
    simpl. by rewrite cells_insert_out by lia.
Qed.

Lemma insert_heap ok m q x m' q' :
  pq_shape q -> heap_ordered m q ->
  ps_pqueue_insert cmppri ok m (Some q) x = (0%Z, m', Some q') ->
  pq_shape q' /\ heap_ordered m' q' /\ contents q' ≡ₚ x :: contents q /\
  size q' = size q + 1 /\
  (forall y, getpri m' y = getpri m y) /\ (forall y, live m' y <-> live m y) /\
  (forall y, y <> x -> y ∉ contents q -> getpos m' y = getpos m y).
Proof.
  intros Hsh0 Ho Hins. rewrite insert_unfold in Hins.
  destruct (_ && _); [done|]. simplify_eq.
  destruct (appended_spec m q x Hsh0 Ho) as ((Hs & Hl & Hst) & Hup & Hcon & _ & _).
  pose proof (cells_bounds _ (proj1 Hsh0)) as Hs1.
  destruct (bubble_up_sifted cmppri m (appended q x) (size q) Hs) as
    (S1 & S2 & S3 & S4 & S5 & S6 & S7 & S8 & S9); [simpl; lia|done|].
  split; [unfold pq_shape, pq_cells; rewrite S1, S4, S5, S6; by split|].
  split; [done|]. split; [by rewrite S3|]. do 3 (split; [done|]).
  intros y Hne Hy. apply S9. rewrite Hcon, elem_of_cons. by intros [?|?].
Qed.

Lemma insert_wf `{!PQPos M} ok m q x m' q' :
  pq_wf m q -> live m x -> x ∉ contents q ->
  ps_pqueue_insert cmppri ok m (Some q) x = (0%Z, m', Some q') -> pq_wf m' q'.
Proof.
  intros (Hsh0 & Ho & Hp) Hlx Hx Hins.
  destruct (insert_heap _ _ _ _ _ _ Hsh0 Ho Hins) as (S1 & S2 & _).
  split; [done|]. split; [done|].
  rewrite insert_unfold in Hins.
  destruct (_ && _); [done|]. simplify_eq.
  destruct (appended_spec m q x Hsh0 Ho) as ((Hs & _) & _ & _ & Hold & Hnew).
  pose proof (cells_bounds _ (proj1 Hsh0)) as Hs1.
  apply (bubble_up_pos cmppri m (appended q x) (size q)); [done|simpl; lia|by rewrite Hnew|].
  intros j Hj Hne. simpl size in Hj. rewrite Hnew, Hold by lia.
  destruct (Hp j) as [? ?]; [lia..|]. repeat split; [done..|].
  intros <-. apply Hx. apply elem_of_cells; [lia|]. exists j. split; [lia|done].
Qed.

(** The queue just before the last element, put in the freed cell, is sifted. *)
Definition filled q posn : ps_pqueue_t :=
  PQ (size q - 1) (avail q) (step q) (<[posn := d q !!! (size q - 1)]> (d q)).

Lemma filled_contents q posn : pq_cells q -> 1 <= posn < size q - 1 ->
  contents q ≡ₚ d q !!! posn :: contents (filled q posn).
Proof.
  intros Hs%cells_bounds Hp. unfold contents.
  change (take (size q - 1) (drop 1 (d q))) with (cells (size q) (d q)).
  rewrite <-(cells_swap (size q) (d q) posn (size q - 1)) by lia.
  replace (size q) with (size q - 1 + 1) at 1 by lia.
  rewrite cells_snoc by (rewrite length_swap; lia).
  rewrite swap_get by lia. rewrite decide_True by lia.
  rewrite <-Permutation_cons_append. f_equiv. simpl.
  change (take (size q - 1 - 1) (drop 1 (<[posn:=d q !!! (size q - 1)]> (d q))))
    with (cells (size q - 1) (<[posn:=d q !!! (size q - 1)]> (d q))).
  unfold swap. by rewrite cells_insert_out by lia.
Qed.

Lemma last_contents q : pq_cells q -> 1 < size q ->
  contents q ≡ₚ d q !!! (size q - 1) :: contents (filled q (size q - 1)).
Proof.
  intros Hs%cells_bounds Hgt. unfold contents.
  change (take (size q - 1) (drop 1 (d q))) with (cells (size q) (d q)).
  replace (size q) with (size q - 1 + 1) at 1 by lia.
  rewrite cells_snoc by lia. rewrite <-Permutation_cons_append. f_equiv. simpl.
  change (take (size q - 1 - 1) (drop 1 ?l)) with (cells (size q - 1) l).
  rewrite list_insert_id; [done|]. apply lookup_of_total; lia.
Qed.

Lemma filled_shape q posn : pq_cells q -> 1 < size q -> pq_cells (filled q posn).
Proof.
  intros Hs%cells_bounds Hgt. unfold pq_cells; simpl. rewrite length_insert. lia.
Qed.

Lemma filled_get q posn j : pq_cells q -> 1 <= posn < size q ->
  d (filled q posn) !!! j = if decide (j = posn) then d q !!! (size q - 1) else d q !!! j.
Proof.
  intros Hs%cells_bounds Hp. simpl. case_decide as E.
  - subst. apply arr_get_set_eq. lia.
  - by apply arr_get_set_ne.
Qed.

(** Only the moved element may be out of order, upwards or downwards. *)
Lemma filled_up m q posn : pq_heap m q -> 1 <= posn < size q - 1 ->
  tv_le (getpri m (d q !!! (size q - 1))) (getpri m (d q !!! posn)) ->
  up_inv (getpri m) (size q - 1) (d (filled q posn)) posn.
Proof.
  intros H Hp Hle. pose proof H as [Hsh _]. split.
  - intros j Hj Hne. unfold edge. rewrite !filled_get by (done || lia).
    rewrite (decide_False (P := j = posn)) by done.
    case_decide as E; [|apply (wf_edge _ _ H); lia].
    eapply tv_le_trans; [exact Hle|]. rewrite <-E. apply (wf_edge _ _ H); lia.
  - intros H1 j Hj E. pose proof (parent_lt j ltac:(lia)). pose proof (parent_lt posn ltac:(lia)).
    rewrite !filled_get by (done || lia). rewrite !decide_False by lia.
    apply (wf_grand _ _ _ H); lia.
Qed.

Lemma filled_down m q posn : pq_heap m q -> 1 <= posn < size q - 1 ->
  tv_le (getpri m (d q !!! posn)) (getpri m (d q !!! (size q - 1))) ->
  down_inv (getpri m) (size q - 1) (d (filled q posn)) posn.
Proof.
  intros H Hp Hle. pose proof H as [Hsh _]. split.
  - intros j Hj Hne. unfold edge. rewrite !filled_get by (done || lia).
    rewrite (decide_False (P := parent j = posn)) by done.
    case_decide as E; [|apply (wf_edge _ _ H); lia].
    eapply tv_le_trans; [|exact Hle]. subst. apply (wf_edge _ _ H); lia.
  - intros H1 j Hj E. pose proof (parent_lt j ltac:(lia)). pose proof (parent_lt posn ltac:(lia)).
    rewrite !filled_get by (done || lia). rewrite !decide_False by lia.
    apply (wf_grand _ _ _ H); lia.
Qed.

Lemma filled_hole m q posn : pq_wf m q -> 1 <= posn < size q - 1 ->
  live m (d (filled q posn) !!! posn) /\
  hole_pos m (size q - 1) (d (filled q posn)) posn (d (filled q posn) !!! posn).
Proof.
  intros H Hp. pose proof H as ((Hsh & _) & _ & Hpos).
  pose proof (cells_bounds _ Hsh).
  destruct (Hpos (size q - 1)) as [Ll Pl]; [lia..|].
  rewrite (filled_get _ _ posn), decide_True by (done || lia). split; [done|].
  intros j Hj Hne. rewrite filled_get, decide_False by (done || lia).
  destruct (Hpos j) as [? Pj]; [lia..|]. repeat split; [done..|].
  intros E. rewrite E, Pl in Pj. lia.
Qed.
End Public.

(** ** Removing and re-ordering *)
Section Remove.
Context {M : Type} `{!PQElem M}.
Context (cmppri : timeval -> timeval -> bool) `{!CmpSpec cmppri}.
Implicit Types (m : M) (q : ps_pqueue_t).

Lemma pop_unfold m q : size q <> 1 ->
  ps_pqueue_pop cmppri m (Some q) =
  (Some (d q !!! 1), (percolate_down cmppri m (filled q 1) 1).1,
   Some (percolate_down cmppri m (filled q 1) 1).2).
Proof.
  intros Hne. unfold ps_pqueue_pop. destruct (Nat.eqb_spec (size q) 1); [done|].
  fold (filled q 1). by destruct (percolate_down _ _ _ _).
Qed.

Lemma remove_unfold m q x :
  let posn := getpos m x in
  let r := if cmppri (getpri m x) (getpri m (d (filled q posn) !!! posn))
           then bubble_up cmppri m (filled q posn) posn
           else percolate_down cmppri m (filled q posn) posn in
  ps_pqueue_remove cmppri m q x = (0%Z, r.1, r.2).
Proof.
  cbv zeta. unfold ps_pqueue_remove. fold (filled q (getpos m x)).
  destruct (cmppri _ _); [by destruct (bubble_up _ _ _ _)|by destruct (percolate_down _ _ _ _)].
Qed.

(** When the removed element is the last cell, the element put in its place is
    the removed element itself.  It must not be sifted up. *)
Definition remove_safe m q x : Prop :=
  getpos m x = size q - 1 -> size q <> 2 ->
  cmppri (getpri m (d q !!! parent (size q - 1))) (getpri m x) = false \/
  cmppri (getpri m x) (getpri m x) = false.

Lemma remove_last m q x : pq_wf m q -> x ∈ contents q -> getpos m x = size q - 1 ->
  remove_safe m q x ->
  ps_pqueue_remove cmppri m q x =
    (0%Z, setpos m x (size q - 1), PQ (size q - 1) (avail q) (step q) (d q)).
Proof.
  intros H Hx Hpos Hsafe. rewrite remove_unfold, Hpos.
  destruct (wf_position _ _ _ H Hx) as (Hp & Hd & _). rewrite Hpos in Hp, Hd.
  pose proof (cells_bounds _ (proj1 (proj1 H))) as Hs.
  assert (filled q (size q - 1) = PQ (size q - 1) (avail q) (step q) (d q)) as ->.
  { unfold filled. f_equal. apply list_insert_id, lookup_of_total. lia. }
  assert (<[size q - 1 := x]> (d q) = d q) as Hid.
  { apply list_insert_id. rewrite lookup_of_total by lia. by f_equal. }
  simpl d. rewrite Hd. destruct (cmppri (getpri m x) (getpri m x)) eqn:Hxx.
  - unfold bubble_up. simpl d. rewrite Hd.
    assert (bubble_up_loop cmppri (size q - 1) m (d q) (size q - 1) (getpri m x)
            = (m, d q, size q - 1)) as ->; [|simpl; by rewrite Hid].
    destruct (size q - 1) as [|n] eqn:En; [done|]. cbn [bubble_up_loop].
    destruct (Nat.ltb_spec 1 (S n)); [|done].
    destruct (Hsafe ltac:(by rewrite En)) as [Hc|Hc]; [lia| |congruence].
    rewrite En in Hc. by rewrite Hc.
  - rewrite percolate_down_outside by (simpl; lia). simpl. by rewrite Hd, Hid.
Qed.

Lemma remove_wf `{!PQPos M} m q x r m' q' :
  pq_wf m q -> x ∈ contents q -> remove_safe m q x ->
  ps_pqueue_remove cmppri m q x = (r, m', q') ->
  pq_wf m' q' /\ contents q ≡ₚ x :: contents q' /\
  (forall y, getpri m' y = getpri m y) /\ (forall y, live m' y <-> live m y) /\
  (forall y, y ∉ contents q -> getpos m' y = getpos m y).
Proof.
  intros H Hx Hsafe Hr. pose proof H as ((Hs & Hl & Hst) & Ho & Hpk).
  destruct (wf_position _ _ _ H Hx) as (Hp & Hd & Hlv).
  pose proof (cells_bounds _ Hs) as Hb.
  destruct (decide (getpos m x = size q - 1)) as [E|E].
  - rewrite remove_last in Hr by done. simplify_eq. rewrite E in *.
    split; [|split; [|split; [|split]]].
    + split; [unfold pq_shape, pq_cells; simpl; lia|].
      split; [intros j Hj1 Hj2; rewrite !getpri_setpos; apply Ho; simpl in *; lia|].
      intros j Hj1 Hj2. simpl in *. rewrite live_setpos.
      destruct (Hpk j) as [Lj Pj]; [lia..|]. split; [done|].
      rewrite getpos_setpos_ne; [done|]. intros Ex. rewrite Ex in Pj. lia.
    + rewrite (last_contents q) by (done || lia). rewrite Hd. f_equiv.
      unfold contents; simpl. by rewrite list_insert_id by (apply lookup_of_total; lia).
    + intros; apply getpri_setpos.
    + intros; apply live_setpos.
    + intros y Hy. apply getpos_setpos_ne. by intros ->.
  - rewrite remove_unfold in Hr.
    assert (1 <= getpos m x < size q - 1) as Hp' by lia.
    assert (d (filled q (getpos m x)) !!! getpos m x = d q !!! (size q - 1)) as Hlast.
    { rewrite filled_get by (done || lia). by rewrite decide_True. }
    destruct (filled_hole m q _ H Hp') as [Hlive Hhole].
    assert (pq_cells (filled q (getpos m x))) as Hcells by (apply filled_shape; [done|lia]).
    assert (exists mq, mq = (m', q') /\ sifted m (filled q (getpos m x)) mq.1 mq.2 /\
              pos_ok mq.1 mq.2) as (mq & -> & HS & HP).
    { rewrite Hlast in Hr. eexists; split; [reflexivity|].
      destruct (cmppri _ _) eqn:Hc; injection Hr as <- <- <-.
      - apply cmp_true in Hc. split; [|by apply bubble_up_pos].
        apply bubble_up_sifted; [done..|]. apply filled_up; [by apply wf_heap|done|].
        by rewrite Hd.
      - apply cmp_false in Hc. split; [|by apply percolate_down_pos].
        apply percolate_down_sifted; [done..|]. apply filled_down; [by apply wf_heap|done|].
        by rewrite Hd. }
    destruct HS as (S1 & S2 & S3 & S4 & S5 & S6 & S7 & S8 & S9).
    split; [|split; [|split; [done|split; [done|]]]].
    + split; [|by split]. unfold pq_shape, pq_cells. simpl in *.
      rewrite S1, S4, S5, S6, length_insert. lia.
    + rewrite (filled_contents q (getpos m x)) by done. rewrite Hd. by rewrite S3.
    + intros y Hy. apply S9. rewrite (filled_contents q (getpos m x)), elem_of_cons in Hy by done.
      tauto.
Qed.

Lemma pop_heap m q x m' q' :
  pq_heap m q -> ps_pqueue_pop cmppri m (Some q) = (Some x, m', Some q') ->
  pq_heap m' q' /\ contents q ≡ₚ x :: contents q' /\
  (forall y, getpri m' y = getpri m y) /\ (forall y, live m' y <-> live m y) /\
  (forall y, y ∉ contents q -> getpos m' y = getpos m y) /\
  size q' = size q - 1 /\ length (d q') = length (d q) /\ avail q' = avail q /\ step q' = step q.
Proof.
  intros H Hpop. pose proof H as [Hs Ho]. pose proof (cells_bounds _ Hs) as Hb.
  assert (size q <> 1) as Hne.
  { intros E. unfold ps_pqueue_pop in Hpop. by rewrite E in Hpop. }
  rewrite pop_unfold in Hpop by done. simplify_eq.
  destruct (decide (size q = 2)) as [E2|E2].
  - rewrite percolate_down_outside by (simpl; lia). simpl.
    assert (<[1 := d q !!! (size q - 1)]> (d q) = d q) as ->.
    { rewrite E2. apply list_insert_id, lookup_of_total. lia. }
    assert (<[1 := d q !!! 1]> (d q) = d q) as ->.
    { apply list_insert_id, lookup_of_total. lia. }
    pose proof (last_contents q Hs ltac:(lia)) as Hc. unfold filled in Hc. rewrite E2 in *.
    simpl in *.
    assert (d q !!! 1 ∈ contents q) as Hin by (rewrite Hc; left).
    split; [|split; [|split; [|split; [|split]]]].
    + split; [unfold pq_cells; simpl; lia|]. intros j ??. simpl in *. lia.
    + rewrite Hc. done.
    + intros; apply getpri_setpos.
    + intros; apply live_setpos.
    + intros y Hy. apply getpos_setpos_ne. by intros ->.
    + done.
  - destruct (percolate_down_sifted cmppri m (filled q 1) 1) as
      (S1 & S2 & S3 & S4 & S5 & S6 & S7 & S8 & S9).
    { apply filled_shape; [done|lia]. }
    { simpl. lia. }
    { apply filled_down; [done|lia|]. eapply root_min; [|instantiate (1 := size q); lia].
      by apply wf_edge. }
    rewrite (filled_contents q 1) by (done || lia).
    rewrite S3. simpl in S1. rewrite length_insert in S1.
    split; [split; [unfold pq_cells; rewrite S1, S4; simpl; lia|done]|].
    do 3 (split; [done|]). split; [|by rewrite S1, S4, S5, S6].
    intros y Hy. rewrite (filled_contents q 1), elem_of_cons in Hy by (done || lia).
    apply S9. tauto.
Qed.

Lemma pop_wf `{!PQPos M} m q x m' q' :
  pq_wf m q -> ps_pqueue_pop cmppri m (Some q) = (Some x, m', Some q') -> pq_wf m' q'.
Proof.
  intros H Hpop. pose proof H as ((Hs & Hl & Hst) & Ho & Hpk).
  destruct (pop_heap _ _ _ _ _ (wf_heap _ _ H) Hpop) as
    ([S1 S2] & _ & _ & _ & _ & E1 & E2 & E3 & E4).
  split; [split; [done|rewrite E2, E3, E4; done]|]. split; [done|].
  pose proof (cells_bounds _ Hs) as Hb.
  assert (size q <> 1) as Hne.
  { intros E. unfold ps_pqueue_pop in Hpop. by rewrite E in Hpop. }
  rewrite pop_unfold in Hpop by done. simplify_eq.
  destruct (decide (size q = 2)) as [E|E].
  - intros j Hj1 Hj2. lia.
  - destruct (filled_hole m q 1 H ltac:(lia)) as [Hlive Hhole].
    apply (percolate_down_pos cmppri m (filled q 1) 1); [|simpl; lia|done|done]. apply filled_shape; [done|lia].
Qed.

(** Changing the priority of the element in cell [i] only disturbs the edges
    around [i]. *)
Section Change.
Context `{!PQPos M} (m : M) (q : ps_pqueue_t) (x : ptr) (t : timeval).
Hypothesis (H : pq_wf m q) (Hx : x ∈ contents q).

Lemma change_other j : 1 <= j < size q -> j <> getpos m x ->
  getpri (setpri m x t) (d q !!! j) = getpri m (d q !!! j).
Proof.
  intros Hj Hne. destruct (wf_position _ _ _ H Hx) as (_ & _ & Hlv).
  rewrite getpri_setpri by done. rewrite decide_False; [done|]. intros E.
  destruct H as (_ & _ & Hpk). destruct (Hpk j) as [_ Pj]; [lia..|]. by rewrite E in Pj.
Qed.

Lemma change_self : getpri (setpri m x t) (d q !!! getpos m x) = t.
Proof.
  destruct (wf_position _ _ _ H Hx) as (_ & Hd & Hlv).
  rewrite getpri_setpri by done. by rewrite Hd, decide_True.
Qed.

Lemma change_grand : grand (getpri (setpri m x t)) (size q) (d q) (getpos m x).
Proof.
  destruct (wf_position _ _ _ H Hx) as (Hp & _ & _).
  intros Hi j Hj E. pose proof (parent_lt j ltac:(lia)). pose proof (parent_lt _ (proj1 Hp)).
  pose proof (parent_pos _ Hi). rewrite !change_other by lia.
  by apply (wf_grand _ _ _ (wf_heap _ _ H)).
Qed.

Lemma change_edge j : 1 < j < size q -> j <> getpos m x -> parent j <> getpos m x ->
  edge (getpri (setpri m x t)) (d q) j.
Proof.
  intros Hj Hne Hnp. pose proof (parent_lt j ltac:(lia)). pose proof (parent_pos j ltac:(lia)).
  unfold edge. rewrite !change_other by lia. by apply (wf_edge _ _ (wf_heap _ _ H)).
Qed.

Lemma change_up : tv_le t (getpri m x) ->
  up_inv (getpri (setpri m x t)) (size q) (d q) (getpos m x).
Proof.
  intros Hle. destruct (wf_position _ _ _ H Hx) as (Hp & Hd & _).
  split; [|apply change_grand]. intros j Hj Hne.
  destruct (decide (parent j = getpos m x)) as [E|]; [|by apply change_edge].
  unfold edge. rewrite E, change_self, change_other by (done || lia).
  eapply tv_le_trans; [exact Hle|].
  rewrite <-Hd at 1. rewrite <-E. by apply (wf_edge _ _ (wf_heap _ _ H)).
Qed.

Lemma change_down : tv_le (getpri m x) t ->
  down_inv (getpri (setpri m x t)) (size q) (d q) (getpos m x).
Proof.
  intros Hle. destruct (wf_position _ _ _ H Hx) as (Hp & Hd & _).
  split; [|apply change_grand]. intros j Hj Hne.
  destruct (decide (j = getpos m x)) as [->|]; [|by apply change_edge].
  pose proof (parent_lt _ (proj1 Hp)). pose proof (parent_pos _ (proj1 Hj)).
  unfold edge. rewrite change_self, change_other by lia.
  eapply tv_le_trans; [|exact Hle].
  rewrite <-Hd at 2. by apply (wf_edge _ _ (wf_heap _ _ H)).
Qed.

Lemma change_hole : live (setpri m x t) (d q !!! getpos m x) /\
  hole_pos (setpri m x t) (size q) (d q) (getpos m x) (d q !!! getpos m x).
Proof.
  destruct (wf_position _ _ _ H Hx) as (Hp & Hd & Hlv).
  split; [rewrite live_setpri; by rewrite Hd|].
  intros j Hj Hne. rewrite live_setpri, getpos_setpri. by apply wf_hole_pos.
Qed.
End Change.

Lemma change_priority_wf `{!PQPos M} m q x t m' q' :
  pq_wf m q -> x ∈ contents q ->
  ps_pqueue_change_priority cmppri m q t x = (m', q') ->
  pq_wf m' q' /\ contents q' ≡ₚ contents q /\
  (forall y, getpri m' y = if decide (y = x) then t else getpri m y) /\
  (forall y, live m' y <-> live m y) /\
  (forall y, y ∉ contents q -> getpos m' y = getpos m y).
Proof.
  intros H Hx Hc. pose proof H as ((Hs & Hl & Hst) & _ & _).
  destruct (wf_position _ _ _ H Hx) as (Hp & _ & Hlv).
  destruct (change_hole m q x t H Hx) as [Hlive Hhole].
  unfold ps_pqueue_change_priority in Hc. rewrite getpos_setpri in Hc.
  assert (sifted (setpri m x t) q m' q' /\ pos_ok m' q') as [HS HP].
  { assert (forall r, r = (m', q') -> m' = r.1 /\ q' = r.2) as Hr by (by intros ? ->).
    destruct (Hr _ Hc) as [-> ->]. clear Hr Hc.
    destruct (cmppri (getpri m x) t) eqn:Hcmp.
    - split; [|by apply bubble_up_pos].
      apply bubble_up_sifted; [done..|]. apply change_up; [done..|]. by apply cmp_true.
    - split; [|by apply percolate_down_pos].
      apply percolate_down_sifted; [done..|]. apply change_down; [done..|]. by apply cmp_false. }
  destruct HS as (S1 & S2 & S3 & S4 & S5 & S6 & S7 & S8 & S9).
  split; [|split; [done|split; [|split]]].
  - split; [|by split]. unfold pq_shape, pq_cells. by rewrite S1, S4, S5, S6.
  - intros y. rewrite S7. by apply getpri_setpri.
  - intros y. by rewrite S8, live_setpri.
  - intros y Hy. by rewrite S9, getpos_setpri.
Qed.
End Remove.

(** Every operation but a change of priority only stores positions. *)
Section OpFrames.
Context {M : Type} `{!PQElem M} (cmppri : timeval -> timeval -> bool).
Context (R : M -> M -> Prop) `{!PosFrame R}.

Lemma bubble_up_frame m q i : R m (bubble_up cmppri m q i).1.
Proof.
  unfold bubble_up. generalize (getpri m (d q !!! i)) as p. generalize (d q !!! i) as x.
  intros x p. destruct (bubble_up_loop cmppri i m (d q) i p) as [[m1 l1] i1] eqn:E. simpl.
  eapply pf_trans; [|apply pf_setpos]. revert E. generalize i at 1 as fuel. intros fuel.
  generalize (d q) as l. revert m i m1 l1 i1.
  induction fuel as [|fuel IH]; intros m i m1 l1 i1 l E; simpl in E; [simplify_eq; apply pf_refl|].
  destruct (_ && _); [|simplify_eq; apply pf_refl].
  eapply pf_trans; [apply pf_setpos|]. by eapply IH.
Qed.

Lemma percolate_down_frame m q i : R m (percolate_down cmppri m q i).1.
Proof.
  unfold percolate_down. generalize (getpri m (d q !!! i)) as p. generalize (d q !!! i) as x.
  intros x p. destruct (percolate_down_loop _ _ _ _ _ _ _) as [[m1 l1] i1] eqn:E. simpl.
  eapply pf_trans; [|apply pf_setpos]. revert E. generalize (size q) at 1 as fuel. intros fuel.
  generalize (d q) as l. revert m i m1 l1 i1.
  induction fuel as [|fuel IH]; intros m i m1 l1 i1 l E; simpl in E; [simplify_eq; apply pf_refl|].
  destruct (_ && _); [|simplify_eq; apply pf_refl].
  eapply pf_trans; [apply pf_setpos|]. by eapply IH.
Qed.

Lemma insert_frame ok m q x r m' q' :
  ps_pqueue_insert cmppri ok m q x = (r, m', q') -> R m m'.
Proof.
  destruct q as [q|]; [|intros [= <- <- <-]; apply pf_refl]. rewrite insert_unfold.
  destruct (_ && _); intros [= <- <- <-]; [apply pf_refl|apply bubble_up_frame].
Qed.

Lemma remove_frame m q x r m' q' : ps_pqueue_remove cmppri m q x = (r, m', q') -> R m m'.
Proof.
  rewrite remove_unfold. intros [= <- <- <-].
  destruct (cmppri _ _); [apply bubble_up_frame|apply percolate_down_frame].
Qed.

Lemma pop_frame m q x m' q' : ps_pqueue_pop cmppri m (Some q) = (Some x, m', q') -> R m m'.
Proof.
  intros H. destruct (decide (size q = 1)) as [E|E].
  - unfold ps_pqueue_pop in H. by rewrite E in H.
  - rewrite pop_unfold in H by done. simplify_eq. apply percolate_down_frame.
Qed.
End OpFrames.

(** A queue stays well formed when its own elements are left alone. *)
Lemma pq_wf_untouched {M} `{!PQElem M} (m m' : M) q :
  pq_wf m q ->
  (forall x, x ∈ contents q -> getpri m' x = getpri m x /\ (live m x -> live m' x) /\
     getpos m' x = getpos m x) ->
  pq_wf m' q.
Proof.
  intros (Hs & Ho & Hp) H. pose proof (cells_bounds _ (proj1 Hs)) as Hb.
  assert (Hin : forall j, 1 <= j -> j < size q -> d q !!! j ∈ contents q).
  { intros j H1 H2. apply elem_of_cells; [lia|by exists j]. }
  split; [done|]. split.
  - intros j Hj1 Hj2. pose proof (parent_pos j Hj1). pose proof (parent_lt j ltac:(lia)).
    destruct (H (d q !!! j)) as [-> _]; [apply Hin; lia|].
    destruct (H (d q !!! parent j)) as [-> _]; [apply Hin; lia|]. by apply Ho.
  - intros j Hj1 Hj2. destruct (H (d q !!! j) (Hin j Hj1 Hj2)) as (_ & Hl & ->).
    destruct (Hp j Hj1 Hj2). auto.
Qed.

Lemma contents_NoDup {M} `{!PQElem M} (m : M) q : pq_wf m q -> NoDup (contents q).
Proof.
  intros (Hs & _ & Hp). pose proof (cells_bounds _ (proj1 Hs)) as Hb.
  apply NoDup_alt. intros i j x Hi Hj.
  assert (Hlt : forall k, contents q !! k = Some x -> k < size q - 1 /\ d q !!! (S k) = x).
  { intros k Hk. pose proof (lookup_lt_Some _ _ _ Hk) as Hkl. unfold contents in Hkl.
    rewrite length_take in Hkl. split; [lia|]. replace k with (S k - 1) in Hk by lia.
    unfold contents in Hk. fold (cells (size q) (d q)) in Hk.
    rewrite cells_lookup in Hk by lia. by apply list_lookup_total_correct. }
  destruct (Hlt i Hi) as [Hi1 Hi2]. destruct (Hlt j Hj) as [Hj1 Hj2].
  destruct (Hp (S i)) as [_ Pi]; [lia..|]. destruct (Hp (S j)) as [_ Pj]; [lia..|].
  rewrite Hi2 in Pi. rewrite Hj2 in Pj. lia.
Qed.

(** ** The comparison callbacks of the repository *)

#[export] Instance geb_cmp : CmpSpec (timercmp Z.geb).
Proof.
  split; intros a b H; [by apply timercmp_geb|].
  destruct (tv_le_total a b) as [?|Hba]; [done|]. apply timercmp_geb in Hba. congruence.
Qed.

#[export] Instance gtb_cmp : CmpSpec (timercmp Z.gtb).
Proof.
  split; intros a b H; [|by apply timercmp_gtb].
  destruct (tv_le_total b a) as [?|Hab]; [done|]. apply timercmp_gtb in Hab. congruence.
Qed.

(** ** The debug printer: [ps_pqueue_print] drains a copy whose callbacks do
    not store. *)
Record nostore (M : Type) := NoStore { stored : M }.
Arguments NoStore {M}.
Arguments stored {M}.

#[export] Instance nostore_elem {M} `{!PQElem M} : PQElem (nostore M).
Proof.
  refine {| getpri m := getpri (stored m); setpri m _ _ := m;
            getpos m := getpos (stored m); setpos m _ _ := m;
            live m := live (stored m) |}; done.
Defined.

(** [while ((e = ps_pqueue_pop(dup))) print(out, e);] as the printed list. *)
Fixpoint print_loop {M} `{!PQElem M} (cmppri : timeval -> timeval -> bool) (fuel : nat)
    (m : M) (dup : option ps_pqueue_t) : list ptr :=
  match fuel with
  | O => []
  | S fuel' =>
      match ps_pqueue_pop cmppri m dup with
      | (Some e, m', dup') => e :: print_loop cmppri fuel' m' dup'
      | _ => []
      end
  end.

Definition ps_pqueue_print {M} `{!PQElem M} (cmppri : timeval -> timeval -> bool)
    (m : M) (q : ps_pqueue_t) : list ptr :=
  let dup := PQ (size q) (avail q) (step q)
                (take (size q) (d q) ++ replicate 1 inhabitant) in
  print_loop cmppri (size q) (NoStore m) (Some dup).

(** ** Termination: the loops stop by their own tests *)
Section Termination.
Context {M : Type} `{!PQElem M} (cmppri : timeval -> timeval -> bool).

Lemma bubble_up_loop_fuel f1 f2 (m : M) l i p : i <= f1 -> i <= f2 ->
  bubble_up_loop cmppri f1 m l i p = bubble_up_loop cmppri f2 m l i p.
Proof.
  revert f2 m l i; induction f1 as [|f1 IH]; intros f2 m l i H1 H2.
  { assert (i = 0) as -> by lia. by destruct f2. }
  destruct f2 as [|f2]; [assert (i = 0) as -> by lia; done|]. cbn [bubble_up_loop].
  destruct (Nat.ltb_spec 1 i) as [Hi|]; [|done]. simpl.
  destruct (cmppri _ _); [|done]. pose proof (parent_lt i ltac:(lia)). apply IH; lia.
Qed.

Lemma maxchild_gt (m : M) sz l i : 1 <= i -> maxchild_d cmppri m sz l i <> 0 ->
  i < maxchild_d cmppri m sz l i < sz.
Proof.
  intros Hi. unfold maxchild_d, left. destruct (Nat.leb_spec sz (2 * i)); [done|].
  destruct (Nat.ltb_spec (2 * i + 1) sz); cbn [andb]; [destruct (cmppri _ _)|]; lia.
Qed.

Lemma percolate_down_loop_fuel f1 f2 sz (m : M) l i p : 1 <= i ->
  sz <= f1 + i -> sz <= f2 + i ->
  percolate_down_loop cmppri f1 sz m l i p = percolate_down_loop cmppri f2 sz m l i p.
Proof.
  assert (forall f m l i, 1 <= i -> sz <= i ->
    percolate_down_loop cmppri f sz m l i p = (m, l, i)) as Hout.
  { intros f m0 l0 i0 Hi Hge. destruct f; [done|]. cbn [percolate_down_loop].
    destruct (Nat.eqb_spec (maxchild_d cmppri m0 sz l0 i0) 0) as [|Hne]; [done|].
    pose proof (maxchild_gt _ _ _ _ Hi Hne). lia. }
  revert f2 m l i; induction f1 as [|f1 IH]; intros f2 m l i Hi H1 H2.
  { by rewrite !Hout by lia. }
  destruct f2 as [|f2]; [by rewrite !Hout by lia|]. cbn [percolate_down_loop].
  destruct (Nat.eqb_spec (maxchild_d cmppri m sz l i) 0) as [|Hne]; [done|]. simpl.
  destruct (cmppri _ _); [|done]. pose proof (maxchild_gt _ _ _ _ Hi Hne). apply IH; lia.
Qed.
End Termination.

(** ** The validity check *)
Section Valid.
Context {M : Type} `{!PQElem M} (cmppri : timeval -> timeval -> bool) `{!CmpSpec cmppri}.

(** Every edge below [pos] passes the check. *)
Lemma subtree_valid_edges fuel (m : M) q pos : size q <= fuel + pos -> 1 <= pos ->
  subtree_is_valid cmppri fuel m q pos = true ->
  forall j k, 1 < j < size q -> Nat.iter k parent j = pos -> k <> 0 ->
    cmppri (getpri m (d q !!! parent j)) (getpri m (d q !!! j)) = false.
Proof.
  revert pos; induction fuel as [|fuel IH]; intros pos Hf Hpos Hv j k Hj Hk Hk0.
  { exfalso. destruct k as [|k]; [done|].
    assert (forall k, Nat.iter k parent j <= j) as Hle.
    { intros n. induction n as [|n IHn]; [done|]. simpl.
      pose proof (parent_spec (Nat.iter n parent j)). lia. }
    specialize (Hle (S k)). lia. }
  cbn [subtree_is_valid] in Hv. apply andb_prop in Hv as [Hl Hr].
  assert (forall c, c = left pos \/ c = right pos -> c < size q ->
    cmppri (getpri m (d q !!! pos)) (getpri m (d q !!! c)) = false /\
    subtree_is_valid cmppri fuel m q c = true) as Hc.
  { intros c [->| ->] Hlt;
      [destruct (Nat.ltb_spec (left pos) (size q)); [|lia];
       apply andb_prop in Hl as [Ha Hb]
      |destruct (Nat.ltb_spec (right pos) (size q)); [|lia];
       apply andb_prop in Hr as [Ha Hb]];
      (split; [by apply negb_true_iff|done]). }
  destruct k as [|k]; [done|]. simpl in Hk.
  set (c := Nat.iter k parent j) in *.
  assert (c <= j) as Hcj.
  { unfold c. clear. induction k as [|k IHk]; [done|]. simpl.
    pose proof (parent_spec (Nat.iter k parent j)). lia. }
  destruct (Hc c) as [Hcmp Hsub]; [by apply parent_child|lia|].
  destruct (decide (k = 0)) as [->|Hk1].
  - simpl in c. subst c. by rewrite Hk.
  - apply (IH c) with (k := k); try done.
    + pose proof (parent_spec c). lia.
    + pose proof (parent_spec c). lia.
Qed.

Lemma iter_parent_root j : 1 <= j -> exists k, Nat.iter k parent j = 1.
Proof.
  induction j as [j IH] using lt_wf_ind. intros Hj.
  destruct (decide (j = 1)) as [->|]; [by exists 0|].
  destruct (IH (parent j)) as [k Hk]; [apply parent_lt; lia|apply parent_pos; lia|].
  exists (S k). rewrite Nat.iter_succ_r. done.
Qed.

Lemma is_valid_edges (m : M) q : ps_pqueue_is_valid cmppri m q = true ->
  forall j, 1 < j < size q ->
    cmppri (getpri m (d q !!! parent j)) (getpri m (d q !!! j)) = false.
Proof.
  intros Hv j Hj. destruct (iter_parent_root j ltac:(lia)) as [k Hk].
  eapply (subtree_valid_edges _ m q 1); [|done|exact Hv|done|exact Hk|]; [lia|].
  intros ->. simpl in Hk. lia.
Qed.

Lemma edges_subtree_valid fuel (m : M) q pos : 1 <= pos ->
  (forall j, 1 < j < size q ->
    cmppri (getpri m (d q !!! parent j)) (getpri m (d q !!! j)) = false) ->
  subtree_is_valid cmppri fuel m q pos = true.
Proof.
  intros Hpos He. revert pos Hpos; induction fuel as [|fuel IH]; intros pos Hpos; [done|].
  assert (forall c, c = left pos \/ c = right pos -> c < size q ->
    cmppri (getpri m (d q !!! pos)) (getpri m (d q !!! c)) = false) as Hc.
  { intros c Hc Hlt. apply parent_child in Hc as <-; [|done]. apply He.
    split; [|done]. destruct c as [|[|c]]; cbn in Hpos; lia. }
  cbn [subtree_is_valid]. apply andb_true_intro; split.
  - destruct (Nat.ltb_spec (left pos) (size q)); [|done].
    rewrite Hc by auto. simpl. apply IH. unfold left. lia.
  - destruct (Nat.ltb_spec (right pos) (size q)); [|done].
    rewrite Hc by auto. simpl. apply IH. unfold right. lia.
Qed.
End Valid.

Lemma print_loop_sorted {M} `{!PQElem M} cmppri `{!CmpSpec cmppri} fuel (m : M) q :
  pq_heap m q -> size q - 1 <= fuel ->
  print_loop cmppri fuel m (Some q) ≡ₚ contents q /\
  StronglySorted (fun x y => tv_le (getpri m x) (getpri m y)) (print_loop cmppri fuel m (Some q)).
Proof.
  revert m q; induction fuel as [|fuel IH]; intros m q H Hf; cbn [print_loop].
  { split; [|constructor]. unfold contents. by replace (size q - 1) with 0 by lia. }
  destruct (ps_pqueue_pop cmppri m (Some q)) as [[[x|] m'] q1] eqn:Hpop.
  - assert (exists q', q1 = Some q') as [q' ->].
    { unfold ps_pqueue_pop in Hpop. destruct (size q =? 1); [done|].
      destruct (percolate_down _ _ _ _). simplify_eq. eauto. }
    destruct (pop_heap cmppri _ _ _ _ _ H Hpop) as (H' & Hc & Hpri & _ & _ & E & _).
    destruct (IH m' q' H') as [IH1 IH2]; [lia|].
    assert (x = d q !!! 1 /\ size q <> 1) as [-> Hne].
    { unfold ps_pqueue_pop in Hpop. destruct (Nat.eqb_spec (size q) 1); [done|].
      destruct (percolate_down _ _ _ _). by simplify_eq. }
    split; [by rewrite IH1, Hc|]. constructor.
    + eapply StronglySorted_weaken; [|exact IH2]. intros a b. simpl. by rewrite !Hpri.
    + apply Forall_forall. intros y Hy.
      destruct (peek_min m q (d q !!! 1)) as [_ Hmin]; [done| |].
      { unfold ps_pqueue_peek. by destruct (Nat.eqb_spec (size q) 1). }
      apply Hmin. rewrite Hc. right. by rewrite <-IH1.
  - split; [|constructor]. unfold contents.
    unfold ps_pqueue_pop in Hpop. destruct (Nat.eqb_spec (size q) 1) as [->|]; [done|].
    destruct (percolate_down _ _ _ _). simplify_eq.
Qed.

(** ** A reference memory: every element is a priority and a position *)

Abbreviation cell_mem := (gmap ptr (timeval * nat)).

Definition cell_pri (m : cell_mem) (p : ptr) : timeval :=
  match m !! p with Some (t, _) => t | None => TV 0 0 end.
Definition cell_pos (m : cell_mem) (p : ptr) : nat :=
  match m !! p with Some (_, n) => n | None => 0 end.

#[export] Instance cell_elem : PQElem cell_mem.
Proof.
  refine {| getpri := cell_pri;
            setpri m p t := alter (fun c => (t, c.2)) p m;
            getpos := cell_pos;
            setpos m p n := alter (fun c => (c.1, n)) p m;
            live m p := is_Some (m !! p) |}.
  all: unfold cell_pri, cell_pos; intros m p v x; rewrite lookup_alter; case_decide as E;
    subst; try done; destruct (m !! x) as [[? ?]|] eqn:El; simpl; rewrite ?El; try done.
  all: split; eauto.
Defined.

#[export] Instance cell_pqpos : PQPos cell_mem.
Proof.
  split; intros m p v x [[t n] Hp]; simpl; unfold cell_pri, cell_pos;
    rewrite lookup_alter; repeat case_decide; subst; try done; by rewrite Hp.
Qed.

Definition mem3 : cell_mem :=
  {[ 1%positive := (TV 5 0, 1); 2%positive := (TV 7 0, 2); 3%positive := (TV 6 0, 3);
     4%positive := (TV 5 1, 0) ]}.
Definition queue3 : ps_pqueue_t := PQ 4 4 3 [9; 1; 2; 3]%positive.

Ltac small_index j :=
  do 8 (destruct j as [|j];
        [first [lia | by apply (bool_decide_unpack _) | vm_compute; eauto]|]).

Lemma queue3_wf : pq_wf mem3 queue3.
Proof.
  split; [split; [|split]; vm_compute; lia|]. split.
  - intros j H1 H2. simpl in H2. small_index j. lia.
  - intros j H1 H2. simpl in H2. small_index j. lia.
Qed.

(** ** Properties *)

(** C3. Insertion.  On a well-formed queue and a live element that is not in
    it, [ps_pqueue_insert] either returns 0 with a well-formed queue that holds
    exactly the old elements and the new one, every priority unchanged, or
    returns 1 with queue and memory untouched, and the latter only when the
    array is full and realloc failed. *)
Theorem pq_insert_correct {M} `{!PQElem M} `{!PQPos M} cmppri `{!CmpSpec cmppri}
    (realloc_ok : bool) (m : M) (q : ps_pqueue_t) (x : ptr) :
  pq_wf m q -> live m x -> x ∉ contents q ->
  match ps_pqueue_insert cmppri realloc_ok m (Some q) x with
  | (r, m', Some q') =>
      (r = 0%Z /\ pq_wf m' q' /\ contents q' ≡ₚ x :: contents q /\
       (forall y, getpri m' y = getpri m y) /\ (forall y, live m' y <-> live m y)) \/
      (r = 1%Z /\ m' = m /\ q' = q /\ realloc_ok = false /\ avail q <= size q)
  | _ => False
  end.
Proof.
  intros H Hl Hx. destruct (ps_pqueue_insert _ _ _ _ _) as [[r m'] [q'|]] eqn:E.
  2: { rewrite insert_unfold in E. by destruct (_ && _). }
  pose proof E as E'. rewrite insert_unfold in E.
  destruct (Nat.leb_spec (avail q) (size q)), realloc_ok; simpl in E; simplify_eq; [left|right|left|left].
  2: done.
  all: pose proof H as (Hsh & Ho & Hp);
    destruct (insert_heap _ _ _ _ _ _ _ Hsh Ho E') as (? & ? & ? & ? & ? & ? & ?);
    split; [done|]; split; [exact (insert_wf cmppri _ _ _ _ _ _ H Hl Hx E')|done].
Qed.

Lemma pq_insert_correct_witness :
  exists m' q', ps_pqueue_insert (timercmp Z.geb) true mem3 (Some queue3) 4%positive
                = (0%Z, m', Some q') /\ pq_wf m' q' /\ contents q' = [1; 4; 3; 2]%positive.
Proof.
  pose proof (pq_insert_correct (timercmp Z.geb) true mem3 queue3 4%positive queue3_wf
    ltac:(vm_compute; eauto) ltac:(by apply (bool_decide_unpack _))) as H.
  destruct (ps_pqueue_insert (timercmp Z.geb) true mem3 (Some queue3) 4%positive)
    as [[r m'] [q'|]] eqn:E; [|done].
  destruct H as [(-> & Hw & _)|(_ & _ & _ & [=] & _)].
  exists m', q'. split; [done|]. split; [done|]. vm_compute in E. by simplify_eq.
Defined.

(** C2. Removal of the head.  On a well-formed queue [ps_pqueue_pop] returns
    NULL exactly when the queue is empty, and otherwise an element no other
    element precedes, leaving a well-formed queue of the remaining elements
    with their priorities unchanged. *)
Theorem pq_pop_correct {M} `{!PQElem M} `{!PQPos M} cmppri `{!CmpSpec cmppri}
    (m : M) (q : ps_pqueue_t) :
  pq_wf m q ->
  match ps_pqueue_pop cmppri m (Some q) with
  | (None, m', q') => contents q = [] /\ m' = m /\ q' = Some q
  | (Some x, m', Some q') =>
      pq_wf m' q' /\ contents q ≡ₚ x :: contents q' /\
      (forall y, y ∈ contents q -> tv_le (getpri m x) (getpri m y)) /\
      (forall y, getpri m' y = getpri m y)
  | _ => False
  end.
Proof.
  intros H. destruct (decide (size q = 1)) as [E1|E1].
  { unfold ps_pqueue_pop, contents. by rewrite E1. }
  pose proof (pop_unfold cmppri m q E1) as Hpop. rewrite Hpop.
  destruct (pop_heap _ _ _ _ _ _ (wf_heap _ _ H) Hpop) as (_ & Hc & Hpri & _).
  split; [exact (pop_wf cmppri _ _ _ _ _ H Hpop)|]. split; [done|]. split; [|done].
  intros y Hy. eapply peek_min; [by apply wf_heap| |done].
  unfold ps_pqueue_peek. by destruct (Nat.eqb_spec (size q) 1).
Qed.

Lemma pq_pop_correct_witness :
  exists m' q', ps_pqueue_pop (timercmp Z.geb) mem3 (Some queue3)
                = (Some 1%positive, m', Some q') /\ pq_wf m' q' /\
                contents q' = [3; 2]%positive.
Proof.
  pose proof (pq_pop_correct (timercmp Z.geb) mem3 queue3 queue3_wf) as H.
  destruct (ps_pqueue_pop (timercmp Z.geb) mem3 (Some queue3)) as [[[x|] m'] [q'|]] eqn:E;
    [|done|by destruct H|by destruct H].
  vm_compute in E. simplify_eq. destruct H as (Hw & _).
  do 2 eexists. split; [reflexivity|]. split; [exact Hw|done].
Defined.

(** C4. Removal of an arbitrary element.  On a well-formed queue
    [ps_pqueue_remove] takes out exactly the given element and leaves a
    well-formed queue, provided ([remove_safe]) that, when the element is in the
    last cell of a queue of two or more, the comparison callback does not hold
    between its parent's priority and its own, or is irreflexive at its own. *)
Theorem pq_remove_correct {M} `{!PQElem M} `{!PQPos M} cmppri `{!CmpSpec cmppri}
    (m : M) (q : ps_pqueue_t) (x : ptr) :
  pq_wf m q -> x ∈ contents q -> remove_safe cmppri m q x ->
  match ps_pqueue_remove cmppri m q x with
  | (r, m', q') =>
      r = 0%Z /\ pq_wf m' q' /\ contents q ≡ₚ x :: contents q' /\
      (forall y, getpri m' y = getpri m y)
  end.
Proof.
  intros H Hx Hsafe. destruct (ps_pqueue_remove _ _ _ _) as [[r m'] q'] eqn:E.
  destruct (remove_wf cmppri _ _ _ _ _ _ H Hx Hsafe E) as (? & ? & ? & _ & _).
  rewrite remove_unfold in E. by simplify_eq.
Qed.

Lemma pq_remove_correct_witness :
  contents (ps_pqueue_remove (timercmp Z.geb) mem3 queue3 1%positive).2 = [3; 2]%positive /\
  pq_wf (ps_pqueue_remove (timercmp Z.geb) mem3 queue3 1%positive).1.2
        (ps_pqueue_remove (timercmp Z.geb) mem3 queue3 1%positive).2.
Proof.
  split; [done|].
  pose proof (pq_remove_correct (timercmp Z.geb) mem3 queue3 1%positive queue3_wf
    ltac:(by apply (bool_decide_unpack _)) ltac:(intros E; discriminate E)) as H.
  destruct (ps_pqueue_remove _ _ _ _) as [[r m'] q']. simpl. apply H.
Defined.

(** Two elements of equal priority, as two inserts leave them. *)
Definition mem_eq : cell_mem := {[ 1%positive := (TV 5 0, 2); 2%positive := (TV 5 0, 1) ]}.
Definition queue_eq : ps_pqueue_t := PQ 3 4 4 [9; 2; 1; 9]%positive.

Lemma queue_eq_wf : pq_wf mem_eq queue_eq.
Proof.
  split; [split; [|split]; vm_compute; lia|]. split.
  - intros j H1 H2. simpl in H2. small_index j. lia.
  - intros j H1 H2. simpl in H2. small_index j. lia.
Qed.

(** The side condition on removal is needed: with the [>=] callback of events.c
    there is a well-formed queue of two elements of equal priority on which
    [ps_pqueue_remove] of the one in the last cell keeps the removed element in
    the queue and loses the other one. *)
Theorem pq_remove_equal_priority_wrong :
  exists (m : cell_mem) (q : ps_pqueue_t) (x y : ptr),
    x <> y /\ pq_wf m q /\ contents q ≡ₚ [x; y] /\
    contents (ps_pqueue_remove (timercmp Z.geb) m q x).2 = [x].
Proof.
  exists mem_eq, queue_eq, 1%positive, 2%positive.
  split; [done|]. split; [apply queue_eq_wf|]. split; [apply perm_swap|done].
Qed.

(** Changing a priority.  When the element still carries the priority it is
    queued under, [ps_pqueue_change_priority] gives it the new priority, keeps
    every other priority and the set of elements, and restores the heap. *)
Theorem pq_change_priority_correct {M} `{!PQElem M} `{!PQPos M} cmppri `{!CmpSpec cmppri}
    (m : M) (q : ps_pqueue_t) (x : ptr) (t : timeval) :
  pq_wf m q -> x ∈ contents q ->
  let '(m', q') := ps_pqueue_change_priority cmppri m q t x in
  pq_wf m' q' /\ contents q' ≡ₚ contents q /\
  (forall y, getpri m' y = if decide (y = x) then t else getpri m y).
Proof.
  intros H Hx. destruct (ps_pqueue_change_priority _ _ _ _ _) as [m' q'] eqn:E.
  destruct (change_priority_wf cmppri _ _ _ _ _ _ H Hx E) as (? & ? & ? & _). done.
Qed.

Lemma pq_change_priority_correct_witness :
  contents (ps_pqueue_change_priority (timercmp Z.geb) mem3 queue3 (TV 9 0) 1%positive).2
    = [3; 2; 1]%positive /\
  pq_wf (ps_pqueue_change_priority (timercmp Z.geb) mem3 queue3 (TV 9 0) 1%positive).1
        (ps_pqueue_change_priority (timercmp Z.geb) mem3 queue3 (TV 9 0) 1%positive).2.
Proof.
  split; [done|].
  pose proof (pq_change_priority_correct (timercmp Z.geb) mem3 queue3 1%positive (TV 9 0)
    queue3_wf ltac:(by apply (bool_decide_unpack _))) as H.
  destruct (ps_pqueue_change_priority _ _ _ _ _) as [m' q']. simpl. apply H.
Defined.

(** The printer.  [ps_pqueue_print] prints every element of the queue once,
    in the order of the priorities, and stops after [size] pops. *)
Theorem pq_print_sorted {M} `{!PQElem M} cmppri `{!CmpSpec cmppri} (m : M) (q : ps_pqueue_t) :
  pq_heap m q ->
  ps_pqueue_print cmppri m q ≡ₚ contents q /\
  StronglySorted (fun x y => tv_le (getpri m x) (getpri m y)) (ps_pqueue_print cmppri m q).
Proof.
  intros [Hs%cells_bounds Ho]. unfold ps_pqueue_print.
  set (dup := PQ _ _ _ _).
  assert (forall j, j < size q -> d dup !!! j = d q !!! j) as Hget.
  { intros j Hj. simpl. rewrite lookup_total_app_l by (rewrite length_take; lia).
    rewrite lookup_total_take. by rewrite decide_True. }
  assert (contents dup = contents q) as Hc.
  { unfold contents. simpl. rewrite drop_app_le by (rewrite length_take; lia).
    rewrite take_app_le by (rewrite length_drop, length_take; lia).
    change (drop 1 (take (size q) (d q))) with (skipn 1 (firstn (size q) (d q))).
    rewrite skipn_firstn_comm. change (@firstn ptr) with (@take ptr). rewrite take_take.
    f_equal. lia. }
  rewrite <-Hc.
  destruct (print_loop_sorted cmppri (size q) (NoStore m) dup) as [Hp Hsort];
    [|simpl; lia|by split; [|eapply StronglySorted_weaken; [|exact Hsort]]].
  split.
  - unfold pq_cells. simpl. rewrite length_app, length_take. simpl. lia.
  - intros j H1 H2. simpl in H2. pose proof (parent_lt j ltac:(lia)).
    rewrite !Hget by lia. simpl. by apply Ho.
Qed.

Lemma pq_print_sorted_witness :
  ps_pqueue_print (timercmp Z.geb) mem3 queue3 = [1; 3; 2]%positive /\
  StronglySorted (fun x y => tv_le (getpri mem3 x) (getpri mem3 y))
    (ps_pqueue_print (timercmp Z.geb) mem3 queue3).
Proof.
  split; [done|]. apply (pq_print_sorted (timercmp Z.geb) mem3 queue3).
  apply wf_heap, queue3_wf.
Defined.

(** The validity check.  [ps_pqueue_is_valid] accepts a queue exactly when
    no parent compares true against a child.  Hence it accepts only ordered
    heaps, and with a strict callback it accepts all of them; with the [>=]
    callback of events.c it rejects a well-formed queue that holds an element
    and a child of equal priority. *)
Theorem pq_is_valid_spec {M} `{!PQElem M} cmppri `{!CmpSpec cmppri} (m : M) (q : ps_pqueue_t) :
  (ps_pqueue_is_valid cmppri m q = true <->
   forall j, 1 < j < size q ->
     cmppri (getpri m (d q !!! parent j)) (getpri m (d q !!! j)) = false) /\
  (ps_pqueue_is_valid cmppri m q = true -> heap_ordered m q) /\
  (ps_pqueue_is_valid (timercmp Z.gtb) m q = true <-> heap_ordered m q) /\
  ps_pqueue_is_valid (timercmp Z.geb) mem_eq queue_eq = false.
Proof.
  assert (forall c, CmpSpec c -> ps_pqueue_is_valid c m q = true -> heap_ordered m q) as Hs.
  { intros c Hc Hv j H1 H2. apply (cmp_false (cmppri := c)). by apply is_valid_edges. }
  split; [|split; [by apply Hs|split; [split; [by apply Hs, gtb_cmp|]|done]]].
  - split; [by apply is_valid_edges|]. intros He. by apply edges_subtree_valid.
  - intros Ho. apply edges_subtree_valid; [done|]. intros j Hj.
    apply timercmp_gtb. apply Ho; lia.
Qed.

Lemma pq_is_valid_spec_witness :
  ps_pqueue_is_valid (timercmp Z.gtb) mem3 queue3 = true.
Proof.
  apply (pq_is_valid_spec (timercmp Z.geb) mem3 queue3). apply queue3_wf.
Defined.

(** Termination.  The loops of [bubble_up] and [percolate_down] leave by
    their own tests: more turns than the index, respectively the size, never
    change the result. *)
Theorem pq_loops_terminate {M} `{!PQElem M} cmppri (m : M) (q : ps_pqueue_t) i p k :
  1 <= i ->
  bubble_up_loop cmppri (i + k) m (d q) i p = bubble_up_loop cmppri i m (d q) i p /\
  percolate_down_loop cmppri (size q + k) (size q) m (d q) i p
    = percolate_down_loop cmppri (size q) (size q) m (d q) i p.
Proof.
  intros Hi. split; [apply bubble_up_loop_fuel; lia|apply percolate_down_loop_fuel; lia].
Qed.

Lemma pq_loops_terminate_witness :
  bubble_up_loop (timercmp Z.geb) (3 + 5) mem3 (d queue3) 3 (TV 1 0)
  = bubble_up_loop (timercmp Z.geb) 3 mem3 (d queue3) 3 (TV 1 0).
Proof. apply (pq_loops_terminate (timercmp Z.geb) mem3 queue3 3 (TV 1 0) 5). lia. Defined.
