(* ===== verification/HashTable.v ===== *)
(** * The chained hash table (hashtable.c, hashtable.h)

    An array of [hashSize] singly linked chains.  Hash, key comparison and
    key extraction are callbacks of the creator; the table is used by xdr.c
    and cmd.c with the identity hash on integers cast to pointers.  A node is
    unlinked through a pointer to its predecessor's [next] field, which is a
    position in the chain here. *)

From stdpp Require Import base gmap sets list numbers sorting.
From Stdlib Require Import ZArith Lia.
From S2P Require Import Prelude.
Open Scope Z_scope.

(** ** Data and operations *)
Section HashTable.
Context {K D : Type}.

(** [HASH_hash_func_cb], [HASH_cmp_keys_cb], [HASH_key_for_data_cb]; a key is a
    pointer and may be NULL. *)
Context (hashFunc : K -> Z) (keyCmp : K -> K -> bool) (keyForData : D -> K).
Context (key_null : K -> bool).

Record HashNode := Node { hn_hash : Z; hn_key : K; hn_data : D }.

Record HashTable := HT { hashSize : Z; buckets : list (list HashNode) }.

Definition bucket_ix (t : HashTable) (hash : Z) : nat := Z.to_nat (hash mod hashSize t).

Definition bucket (t : HashTable) (i : nat) : list HashNode := default [] (buckets t !! i).

Definition set_bucket (t : HashTable) (i : nat) (c : list HashNode) : HashTable :=
  HT (hashSize t) (<[i:=c]> (buckets t)).

Definition HASH_create_table (malloc_ok : bool) (sz : Z) : option HashTable :=
  if malloc_ok then Some (HT sz (replicate (Z.to_nat sz) [])) else None.

(** The chain walk of [HASH_search_internal]: the position of the first node
    whose key is not NULL and compares equal. *)
Fixpoint search_chain (c : list HashNode) (key : K) : option nat :=
  match c with
  | [] => None
  | n :: c' =>
      if negb (key_null (hn_key n)) && keyCmp (hn_key n) key then Some 0%nat
      else S <$> search_chain c' key
  end.

Definition HASH_search_internal (t : HashTable) (key : K) : option (nat * nat) :=
  let i := bucket_ix t (hashFunc key) in
  (fun j => (i, j)) <$> search_chain (bucket t i) key.

Definition HASH_remove_key_internal (t : HashTable) (key : K) : option D * HashTable :=
  match HASH_search_internal t key with
  | None => (None, t)
  | Some (i, j) =>
      let c := bucket t i in
      (hn_data <$> c !! j, set_bucket t i (take j c ++ drop (S j) c))
  end.

Definition HASH_remove_key (t : option HashTable) (key : K) : option D * option HashTable :=
  match t with
  | None => (None, None)
  | Some t0 => let '(r, t') := HASH_remove_key_internal t0 key in (r, Some t')
  end.

Definition HASH_remove_data (t : option HashTable) (data : option D)
    : option D * option HashTable :=
  match t, data with
  | Some t0, Some dt =>
      let '(r, t') := HASH_remove_key_internal t0 (keyForData dt) in (r, Some t')
  | _, _ => (None, t)
  end.

(** [HASH_free_table] unlinks node after node, chain after chain; the result
    is the nodes in the order they are freed. *)
Definition HASH_free_table (t : option HashTable) : list HashNode :=
  match t with None => [] | Some t0 => concat (buckets t0) end.

Fixpoint find_chain (c : list HashNode) (key : K) : option D :=
  match c with
  | [] => None
  | n :: c' => if keyCmp (hn_key n) key then Some (hn_data n) else find_chain c' key
  end.

Definition HASH_find_key (t : option HashTable) (key : K) : option D :=
  match t with
  | None => None
  | Some t0 => find_chain (bucket t0 (bucket_ix t0 (hashFunc key))) key
  end.

Definition HASH_find_data (t : option HashTable) (data : option D) : option D :=
  match t, data with
  | Some _, Some dt => HASH_find_key t (keyForData dt)
  | _, _ => None
  end.

Definition HASH_add_data (malloc_ok : bool) (t : HashTable) (data : option D)
    : Z * HashTable :=
  match data with
  | None => (-1, t)
  | Some dt =>
      let key := keyForData dt in
      match HASH_find_key (Some t) key with
      | Some _ => (-3, t)
      | None =>
          if negb malloc_ok then (-4, t)
          else
            let hash := hashFunc key in
            let i := bucket_ix t hash in
            (0, set_bucket t i (Node hash key dt :: bucket t i))
      end
  end.

(** The iterator is called on each node and may ask for its removal. *)
Section Iterate.
Context {St : Type} (iterator : St -> D -> St * bool).

Fixpoint iterate_chain (s : St) (c : list HashNode) : St * list HashNode :=
  match c with
  | [] => (s, [])
  | n :: c' =>
      let '(s1, goner) := iterator s (hn_data n) in
      let '(s2, c2) := iterate_chain s1 c' in
      (s2, if goner then c2 else n :: c2)
  end.

Fixpoint iterate_buckets (s : St) (bs : list (list HashNode)) : St * list (list HashNode) :=
  match bs with
  | [] => (s, [])
  | c :: bs' =>
      let '(s1, c1) := iterate_chain s c in
      let '(s2, bs2) := iterate_buckets s1 bs' in
      (s2, c1 :: bs2)
  end.

Definition HASH_iterate_arg_table (t : option HashTable) (arg : St) : St * option HashTable :=
  match t with
  | None => (arg, None)
  | Some t0 => let '(s, bs) := iterate_buckets arg (buckets t0) in (s, Some (HT (hashSize t0) bs))
  end.
End Iterate.

(** [HASH_iterate_table] is the same walk with an iterator that has no
    argument. *)
Definition HASH_iterate_table (iterator : D -> bool) (t : option HashTable)
    : option HashTable :=
  (HASH_iterate_arg_table (fun _ dt => (tt, iterator dt)) t tt).2.

(** [while(table->buckets[i]) extractor(HASH_remove_key(...))]; [None] is a
    loop that has not stopped within [fuel] turns. *)
Fixpoint extract_bucket (fuel : nat) (t : HashTable) (i : nat) (out : list (option D))
    : option (HashTable * list (option D)) :=
  match bucket t i with
  | [] => Some (t, out)
  | n :: _ =>
      match fuel with
      | O => None
      | S fuel' =>
          let '(r, t') := HASH_remove_key_internal t (hn_key n) in
          extract_bucket fuel' t' i (out ++ [r])
      end
  end.

Fixpoint extract_buckets (fuel : nat) (t : HashTable) (ixs : list nat) (out : list (option D))
    : option (HashTable * list (option D)) :=
  match ixs with
  | [] => Some (t, out)
  | i :: ixs' =>
      match extract_bucket fuel t i out with
      | None => None
      | Some (t', out') => extract_buckets fuel t' ixs' out'
      end
  end.

Definition HASH_extract (fuel : nat) (t : option HashTable)
    : option (option HashTable * list (option D)) :=
  match t with
  | None => Some (None, [])
  | Some t0 =>
      match extract_buckets fuel t0 (seq 0 (length (buckets t0))) [] with
      | None => None
      | Some (t', out) => Some (Some t', out)
      end
  end.

(** ** Invariant *)

(** A node caches its key and hash, and sits in the bucket of its hash; no
    bucket has a key twice. *)
Definition node_ok (t : HashTable) (i : nat) (n : HashNode) : Prop :=
  hn_key n = keyForData (hn_data n) /\ hn_hash n = hashFunc (hn_key n) /\
  bucket_ix t (hn_hash n) = i.

Definition chain_ok (t : HashTable) (i : nat) (c : list HashNode) : Prop :=
  Forall (node_ok t i) c /\ NoDup (hn_key <$> c).

Definition ht_wf (t : HashTable) : Prop :=
  0 < hashSize t /\ length (buckets t) = Z.to_nat (hashSize t) /\
  forall i c, buckets t !! i = Some c -> chain_ok t i c.

(** The partial map a table stands for. *)
Definition represents (t : HashTable) (m : K -> option D) : Prop :=
  forall k, HASH_find_key (Some t) k = m k.

Definition nodes (t : HashTable) : list HashNode := concat (buckets t).

Definition map_set (m : K -> option D) (k : K) (v : option D) : K -> option D :=
  fun k' => if keyCmp k k' then v else m k'.
End HashTable.
Arguments HashNode : clear implicits.
Arguments HashTable : clear implicits.

(** What the table relies on: [keyCmp] decides equality of keys. *)
Class KeySpec {K} (keyCmp : K -> K -> bool) := {
  keyCmp_spec : forall a b, keyCmp a b = true <-> a = b
}.

(** The comparison callbacks of xdr.c and cmd.c compare the integer values of
    the pointers. *)
#[export] Instance Z_eqb_KeySpec : KeySpec Z.eqb := {| keyCmp_spec := Z.eqb_eq |}.

(** ** Correctness *)
Section Correctness.
Context {K D : Type}.
Context (hashFunc : K -> Z) (keyCmp : K -> K -> bool) (keyForData : D -> K).
Context (key_null : K -> bool).
Context `{!KeySpec keyCmp}.
Abbreviation node := (HashNode K D).
Abbreviation table := (HashTable K D).
Abbreviation wf := (ht_wf hashFunc keyForData).
Abbreviation find t k := (HASH_find_key hashFunc keyCmp (Some t) k).
Abbreviation remove := (HASH_remove_key_internal hashFunc keyCmp key_null).

Lemma keyCmp_refl k : keyCmp k k = true.
Proof. by apply keyCmp_spec. Qed.

Lemma keyCmp_ne a b : a <> b -> keyCmp a b = false.
Proof. intros H. apply not_true_iff_false. by rewrite keyCmp_spec. Qed.

Lemma keyCmp_dec (a b : K) : {a = b} + {a <> b}.
Proof.
  destruct (keyCmp a b) eqn:E; [left; by apply keyCmp_spec|].
  right. intros ->. by rewrite keyCmp_refl in E.
Qed.

(** *** Chains *)

Lemma find_chain_app (c1 c2 : list node) k :
  k ∉ hn_key <$> c1 -> find_chain keyCmp (c1 ++ c2) k = find_chain keyCmp c2 k.
Proof.
  induction c1 as [|n c1 IH]; simpl; [done|]. intros Hn.
  rewrite keyCmp_ne by (intros <-; apply Hn; set_solver).
  apply IH. set_solver.
Qed.

Lemma find_chain_None (c : list node) k :
  find_chain keyCmp c k = None <-> k ∉ hn_key <$> c.
Proof.
  clear key_null hashFunc keyForData.
  induction c as [|n c IH]; simpl; [set_solver|].
  destruct (keyCmp (hn_key n) k) eqn:E.
  - apply keyCmp_spec in E. subst. set_solver.
  - assert (hn_key n <> k) by (intros <-; by rewrite keyCmp_refl in E). set_solver.
Qed.

Lemma find_chain_cons_ne (n : node) c k :
  hn_key n <> k -> find_chain keyCmp (n :: c) k = find_chain keyCmp c k.
Proof. intros. simpl. by rewrite keyCmp_ne. Qed.

Lemma search_chain_spec (c : list node) k :
  key_null k = false ->
  match search_chain keyCmp key_null c k with
  | None => k ∉ hn_key <$> c
  | Some j => exists c1 n c2,
      c = c1 ++ n :: c2 /\ length c1 = j /\ hn_key n = k /\ k ∉ hn_key <$> c1
  end.
Proof.
  intros Hk. induction c as [|n c IH]; simpl; [set_solver|].
  destruct (keyCmp_dec (hn_key n) k) as [He|He].
  - rewrite He, Hk, keyCmp_refl. simpl. exists [], n, c. set_solver.
  - rewrite (keyCmp_ne _ _ He), andb_false_r.
    destruct (search_chain keyCmp key_null c k) as [j|]; simpl; [|set_solver].
    destruct IH as (c1 & n' & c2 & -> & <- & Hn & Hc). exists (n :: c1), n', c2.
    set_solver.
Qed.

Lemma search_chain_null (c : list node) k :
  key_null k = true -> search_chain keyCmp key_null c k = None.
Proof.
  intros Hk. induction c as [|n c IH]; simpl; [done|]. rewrite IH.
  destruct (keyCmp_dec (hn_key n) k) as [->|He]; [by rewrite Hk|].
  by rewrite (keyCmp_ne _ _ He), andb_false_r.
Qed.

(** *** Tables *)

Lemma bucket_ix_lt (t : table) h : wf t -> (bucket_ix t h < length (buckets t))%nat.
Proof.
  intros (Hs & -> & _). unfold bucket_ix.
  pose proof (Z.mod_pos_bound h (hashSize t) Hs). lia.
Qed.

Lemma bucket_ok (t : table) i : wf t -> chain_ok hashFunc keyForData t i (bucket t i).
Proof.
  intros (_ & _ & H). unfold bucket. destruct (buckets t !! i) as [c|] eqn:E; simpl.
  - by apply H.
  - split; simpl; constructor.
Qed.

Lemma bucket_set_eq (t : table) i c :
  (i < length (buckets t))%nat -> bucket (set_bucket t i c) i = c.
Proof. intros. unfold bucket. simpl. by rewrite list_lookup_insert_eq. Qed.

Lemma bucket_set_ne (t : table) i j c : i <> j -> bucket (set_bucket t i c) j = bucket t j.
Proof. intros. unfold bucket. simpl. by rewrite list_lookup_insert_ne. Qed.

Lemma set_bucket_wf (t : table) i c :
  wf t -> chain_ok hashFunc keyForData t i c -> wf (set_bucket t i c).
Proof.
  intros (Hs & Hl & Hc) Hi. split; [done|]. split; [simpl; by rewrite length_insert|].
  intros j c' Hj. simpl in Hj. apply list_lookup_insert_Some in Hj as [(-> & -> & _)|[_ Hj]].
  - exact Hi.
  - exact (Hc _ _ Hj).
Qed.

(** Replacing the chain of [k]'s bucket changes the answers for the keys of
    that bucket only. *)
Lemma find_set_bucket (t : table) i c k :
  wf t -> (i < length (buckets t))%nat ->
  find (set_bucket t i c) k =
    (if decide (bucket_ix t (hashFunc k) = i) then find_chain keyCmp c k else find t k).
Proof.
  intros Hw Hi. simpl.
  change (bucket_ix (set_bucket t i c) (hashFunc k)) with (bucket_ix t (hashFunc k)).
  case_decide as E.
  - by rewrite E, bucket_set_eq.
  - rewrite bucket_set_ne; [done|congruence].
Qed.

Lemma chain_ok_remove (t : table) i c1 n c2 :
  chain_ok hashFunc keyForData t i (c1 ++ n :: c2) ->
  chain_ok hashFunc keyForData t i (c1 ++ c2).
Proof.
  intros [Hf Hn]. split.
  - apply Forall_app in Hf as [H1 H2]. apply Forall_cons_1 in H2 as [_ H2].
    apply Forall_app. done.
  - rewrite fmap_app in *. simpl in Hn. apply NoDup_app in Hn as (N1 & Nd & N2).
    apply NoDup_cons in N2 as [_ N2]. apply NoDup_app. split; [done|]. split; [|done].
    intros x Hx Hx2. apply (Nd x Hx). set_solver.
Qed.

(** *** Creation *)

Lemma create_wf sz t :
  0 < sz -> HASH_create_table true sz = Some t -> wf t /\ represents hashFunc keyCmp t (fun _ => None).
Proof.
  intros Hs [= <-]. split.
  - split; [done|]. split; [simpl; by rewrite length_replicate|].
    intros i c H. simpl in H. apply lookup_replicate_1 in H as [-> _]. split; simpl; constructor.
  - intros k. simpl. unfold bucket. simpl. pose proof (Z.mod_pos_bound (hashFunc k) sz Hs).
    rewrite lookup_replicate_2; [done|]. unfold bucket_ix. simpl. lia.
Qed.

(** *** Insertion *)

Lemma add_new (t : table) m dt :
  wf t -> represents hashFunc keyCmp t m -> m (keyForData dt) = None ->
  let k := keyForData dt in
  let i := bucket_ix t (hashFunc k) in
  let t' := set_bucket t i (Node (hashFunc k) k dt :: bucket t i) in
  wf t' /\ represents hashFunc keyCmp t' (map_set keyCmp m k (Some dt)).
Proof.
  clear key_null. intros Hw Hm Hk k i t'. pose proof (bucket_ix_lt t (hashFunc k) Hw) as Hi.
  pose proof (bucket_ok t i Hw) as [Hf Hn]. split.
  - apply set_bucket_wf; [done|]. split.
    + constructor; [done|exact Hf].
    + simpl. constructor; [|exact Hn]. apply find_chain_None.
      rewrite <- Hk. exact (Hm k).
  - intros k'. unfold t'. rewrite find_set_bucket by done. unfold map_set.
    destruct (keyCmp_dec k k') as [<-|Hne].
    + rewrite decide_True by done. simpl. by rewrite keyCmp_refl.
    + rewrite (keyCmp_ne _ _ Hne). case_decide as E; [|apply Hm].
      rewrite find_chain_cons_ne by done. rewrite <- Hm. simpl. by rewrite E.
Qed.

(** [HASH_add_data] implements insertion into a partial map: NULL data is
    refused with -1, a key that is present with -3 and a failed allocation
    with -4, each leaving the table as it is; otherwise the result is 0 and
    the table stands for the map extended with the new entry.  The table
    invariant is kept in every case. *)
Theorem ht_add_correct (t : table) m malloc_ok data r t' :
  wf t -> represents hashFunc keyCmp t m ->
  HASH_add_data hashFunc keyCmp keyForData malloc_ok t data = (r, t') ->
  wf t' /\
  match data with
  | None => r = -1 /\ t' = t
  | Some dt =>
      match m (keyForData dt), malloc_ok with
      | Some _, _ => r = -3 /\ t' = t
      | None, false => r = -4 /\ t' = t
      | None, true =>
          r = 0 /\ represents hashFunc keyCmp t' (map_set keyCmp m (keyForData dt) (Some dt))
      end
  end.
Proof.
  intros Hw Hm. destruct data as [dt|]; [|intros [= <- <-]; done].
  unfold HASH_add_data. rewrite (Hm (keyForData dt)).
  destruct (m (keyForData dt)) eqn:Hk; [intros [= <- <-]; done|].
  destruct malloc_ok; intros [= <- <-]; [|done].
  by destruct (add_new t m dt Hw Hm Hk).
Qed.

(** *** Removal *)

Lemma remove_found (t : table) m k :
  wf t -> represents hashFunc keyCmp t m -> key_null k = false ->
  (remove t k).1 = m k /\ wf (remove t k).2 /\
  represents hashFunc keyCmp (remove t k).2 (map_set keyCmp m k None).
Proof.
  intros Hw Hm Hk. unfold HASH_remove_key_internal, HASH_search_internal.
  set (i := bucket_ix t (hashFunc k)).
  pose proof (bucket_ix_lt t (hashFunc k) Hw) as Hi. fold i in Hi.
  pose proof (bucket_ok t i Hw) as Hc.
  assert (Hmk : m k = find_chain keyCmp (bucket t i) k) by (rewrite <- Hm; done).
  pose proof (search_chain_spec (bucket t i) k Hk) as Hs.
  destruct (search_chain keyCmp key_null (bucket t i) k) as [j|]; simpl.
  - destruct Hs as (c1 & n & c2 & Eb & <- & Hn & Hc1). rewrite Eb in *.
    rewrite list_lookup_middle by done.
    rewrite take_app_length, drop_app_ge by lia.
    replace (S (length c1) - length c1)%nat with 1%nat by lia. simpl.
    rewrite Hmk, find_chain_app by done. simpl. rewrite Hn, keyCmp_refl.
    split; [done|]. split; [apply set_bucket_wf; [done|by eapply chain_ok_remove]|].
    intros k'. rewrite find_set_bucket by done. unfold map_set.
    destruct (keyCmp_dec k k') as [<-|Hne].
    + rewrite decide_True by done. rewrite keyCmp_refl. apply find_chain_None.
      destruct Hc as [_ Hnd]. rewrite fmap_app in Hnd. simpl in Hnd.
      apply NoDup_app in Hnd as (_ & _ & Hnd). apply NoDup_cons in Hnd as [Hnd _]. set_solver.
    + rewrite (keyCmp_ne _ _ Hne). case_decide as E; [|apply Hm].
      rewrite <- Hm. simpl. rewrite E. fold i. rewrite Eb.
      clear -Hn Hne KeySpec0. induction c1 as [|x c1 IH]; simpl.
      * rewrite keyCmp_ne by congruence. done.
      * by rewrite IH.
  - apply find_chain_None in Hs. rewrite Hmk, Hs. split; [done|]. split; [done|].
    intros k'. rewrite Hm. unfold map_set. destruct (keyCmp_dec k k') as [<-|Hne].
    + by rewrite keyCmp_refl, Hmk.
    + by rewrite keyCmp_ne.
Qed.

Lemma remove_null (t : table) k : key_null k = true -> remove t k = (None, t).
Proof.
  intros Hk. unfold HASH_remove_key_internal, HASH_search_internal.
  by rewrite search_chain_null.
Qed.

(** [HASH_remove_key] implements deletion for every key that is not NULL:
    it returns the entry of the key (NULL when there is none) and the table
    then stands for the map without it.  For a NULL key, which
    [HASH_find_key] does find, it returns NULL and removes nothing. *)
Theorem ht_remove_correct (t : table) m k :
  wf t -> represents hashFunc keyCmp t m ->
  exists r t', HASH_remove_key hashFunc keyCmp key_null (Some t) k = (r, Some t') /\ wf t' /\
    if key_null k then r = None /\ t' = t
    else r = m k /\ represents hashFunc keyCmp t' (map_set keyCmp m k None).
Proof.
  intros Hw Hm. unfold HASH_remove_key.
  destruct (key_null k) eqn:Hk.
  - rewrite remove_null by done. exists None, t. done.
  - pose proof (remove_found t m k Hw Hm Hk) as (H1 & H2 & H3).
    destruct (remove t k) as [r t']. eauto 6.
Qed.

(** *** Iteration *)

Section IterateFacts.
Context {St : Type} (iterator : St -> D -> St * bool).

(** The reference walk: the iterator threaded through the entries, keeping
    those it does not ask to remove. *)
Fixpoint walk (s : St) (l : list node) : St * list node :=
  match l with
  | [] => (s, [])
  | n :: l' =>
      let r := iterator s (hn_data n) in
      let w := walk r.1 l' in
      (w.1, if r.2 then w.2 else n :: w.2)
  end.

Lemma iterate_chain_walk s (c : list node) : iterate_chain iterator s c = walk s c.
Proof.
  revert s. induction c as [|n c IH]; intros s; simpl; [done|].
  destruct (iterator s (hn_data n)) as [s1 g]. simpl. rewrite IH.
  by destruct (walk s1 c).
Qed.

Lemma walk_app s (l1 l2 : list node) :
  walk s (l1 ++ l2) = ((walk (walk s l1).1 l2).1, (walk s l1).2 ++ (walk (walk s l1).1 l2).2).
Proof.
  revert s. induction l1 as [|n l1 IH]; intros s; simpl.
  - by destruct (walk s l2).
  - rewrite IH. simpl. by destruct (iterator s (hn_data n)) as [? []].
Qed.

Lemma walk_sublist s (l : list node) : (walk s l).2 `sublist_of` l.
Proof.
  revert s. induction l as [|n l IH]; intros s; simpl; [constructor|].
  destruct (iterator s (hn_data n)).2; by constructor.
Qed.

Lemma iterate_buckets_walk s (bs : list (list node)) :
  (iterate_buckets iterator s bs).1 = (walk s (concat bs)).1 /\
  concat (iterate_buckets iterator s bs).2 = (walk s (concat bs)).2 /\
  Forall2 sublist (iterate_buckets iterator s bs).2 bs.
Proof.
  revert s. induction bs as [|c bs IH]; intros s; simpl; [by repeat constructor|].
  rewrite iterate_chain_walk, walk_app. pose proof (walk_sublist s c) as Hc.
  destruct (walk s c) as [s1 c1]. simpl in *.
  destruct (IH s1) as (H1 & H2 & H3). destruct (iterate_buckets iterator s1 bs) as [s2 bs2].
  simpl in *. rewrite H1, H2. by repeat constructor.
Qed.

Lemma chain_ok_sublist (t t' : table) i c c' :
  hashSize t' = hashSize t -> c' `sublist_of` c ->
  chain_ok hashFunc keyForData t i c -> chain_ok hashFunc keyForData t' i c'.
Proof.
  intros Hs Hc [Hf Hn]. split.
  - apply Forall_forall. intros n Hin. rewrite Forall_forall in Hf.
    pose proof (Hf n (elem_of_sublist _ _ _ Hin Hc)) as H.
    unfold node_ok, bucket_ix in *. by rewrite Hs.
  - eapply sublist_NoDup; [exact Hn|]. by apply fmap_sublist.
Qed.

(** [HASH_iterate_arg_table] calls the iterator exactly once on every
    entry, bucket after bucket in chain order and threading its argument,
    unlinks exactly the entries for which it answers true, and keeps the
    table invariant. *)
Theorem ht_iterate_correct (t : table) arg :
  wf t ->
  exists t', HASH_iterate_arg_table iterator (Some t) arg = ((walk arg (nodes t)).1, Some t') /\
    wf t' /\ nodes t' = (walk arg (nodes t)).2.
Proof.
  intros Hw. unfold HASH_iterate_arg_table.
  destruct (iterate_buckets_walk arg (buckets t)) as (H1 & H2 & H3).
  destruct (iterate_buckets iterator arg (buckets t)) as [s bs]. simpl in *.
  eexists. split; [rewrite H1; done|]. split; [|exact H2].
  destruct Hw as (Hs & Hl & Hc). split; [done|]. split.
  - simpl. by rewrite (Forall2_length _ _ _ H3).
  - intros i c' Hi. simpl in Hi. destruct (Forall2_lookup_l _ _ _ _ _ H3 Hi) as (c & Hi' & Hsub).
    eapply (chain_ok_sublist t); eauto.
Qed.
End IterateFacts.

(** *** Extraction *)

Lemma remove_head (t : table) i n c :
  wf t -> (i < length (buckets t))%nat -> bucket t i = n :: c ->
  key_null (hn_key n) = false ->
  remove t (hn_key n) = (Some (hn_data n), set_bucket t i c).
Proof.
  intros Hw Hi Hb Hk. pose proof (bucket_ok t i Hw) as [Hf _]. rewrite Hb in Hf.
  apply Forall_cons_1 in Hf as [(_ & Hh & Hix) _]. rewrite Hh in Hix.
  unfold HASH_remove_key_internal, HASH_search_internal. rewrite Hix, Hb. simpl.
  rewrite Hk, keyCmp_refl. simpl. rewrite Hb. done.
Qed.

Definition no_null (c : list node) : Prop := Forall (fun n => key_null (hn_key n) = false) c.

Lemma extract_bucket_ok c fuel (t : table) i out :
  wf t -> (i < length (buckets t))%nat -> bucket t i = c -> no_null c ->
  (length c <= fuel)%nat ->
  exists t', extract_bucket hashFunc keyCmp key_null fuel t i out
      = Some (t', out ++ (Some ∘ hn_data <$> c)) /\
    wf t' /\ length (buckets t') = length (buckets t) /\ bucket t' i = [] /\
    (forall j, j <> i -> bucket t' j = bucket t j).
Proof.
  revert fuel t out. induction c as [|n c IH]; intros fuel t out Hw Hi Hb Hn Hf.
  - exists t. destruct fuel; simpl; rewrite Hb, app_nil_r; done.
  - destruct fuel as [|fuel]; [simpl in Hf; lia|]. cbn [extract_bucket]. rewrite Hb.
    apply Forall_cons_1 in Hn as [Hn Hnc].
    rewrite (remove_head t i n c) by done.
    pose proof (bucket_ok t i Hw) as Hok. rewrite Hb in Hok.
    destruct (IH fuel (set_bucket t i c) (out ++ [Some (hn_data n)])) as (t' & -> & Hw' & Hl & Hbi & Hbj).
    + apply set_bucket_wf; [done|]. by apply (chain_ok_remove t i [] n c).
    + simpl. by rewrite length_insert.
    + by apply bucket_set_eq.
    + done.
    + simpl in Hf. lia.
    + exists t'. rewrite <- app_assoc. split; [done|]. split; [done|].
      split; [rewrite Hl; simpl; by rewrite length_insert|]. split; [done|].
      intros j Hj. rewrite Hbj by done. by apply bucket_set_ne.
Qed.

Lemma extract_buckets_ok ixs fuel (t : table) out :
  wf t -> NoDup ixs -> Forall (fun i => (i < length (buckets t))%nat) ixs ->
  (forall i, no_null (bucket t i)) -> (forall i, (length (bucket t i) <= fuel)%nat) ->
  exists t', extract_buckets hashFunc keyCmp key_null fuel t ixs out
      = Some (t', out ++ (Some ∘ hn_data <$> concat (bucket t <$> ixs))) /\
    wf t' /\ length (buckets t') = length (buckets t) /\
    (forall i, i ∈ ixs -> bucket t' i = []) /\
    (forall i, i ∉ ixs -> bucket t' i = bucket t i).
Proof.
  revert t out. induction ixs as [|i ixs IH]; intros t out Hw Hnd Hlt Hnn Hf.
  - exists t. simpl. rewrite app_nil_r. split; [done|]. split; [done|]. split; [done|]. set_solver.
  - apply NoDup_cons in Hnd as [Hni Hnd]. apply Forall_cons_1 in Hlt as [Hi Hlt].
    cbn [extract_buckets].
    destruct (extract_bucket_ok (bucket t i) fuel t i out Hw Hi eq_refl (Hnn i) (Hf i))
      as (t1 & -> & Hw1 & Hl1 & Hb1 & Hb1').
    assert (Heq : bucket t1 <$> ixs = bucket t <$> ixs).
    { apply list_fmap_ext. intros k j Hj. apply Hb1'. intros ->.
      apply Hni. by eapply list_elem_of_lookup_2. }
    destruct (IH t1 (out ++ (Some ∘ hn_data <$> bucket t i)) Hw1 Hnd) as (t' & -> & Hw' & Hl' & Hb & Hb').
    + by rewrite Hl1.
    + intros j. destruct (decide (j = i)) as [->|]; [rewrite Hb1; constructor|by rewrite Hb1'].
    + intros j. destruct (decide (j = i)) as [->|]; [rewrite Hb1; simpl; lia|by rewrite Hb1'].
    + exists t'. rewrite Heq. simpl. rewrite fmap_app, <- app_assoc. split; [done|].
      split; [done|]. split; [congruence|]. split.
      * intros j. rewrite elem_of_cons. intros [->|Hj]; [|by apply Hb].
        destruct (decide (i ∈ ixs)); [by apply Hb|]. by rewrite Hb'.
      * intros j Hj. apply not_elem_of_cons in Hj as [Hji Hj]. rewrite Hb' by done. by apply Hb1'.
Qed.

(** A node with a NULL key stays in its bucket, whatever is removed. *)
Lemma remove_keeps_null (t : table) k n i :
  key_null (hn_key n) = true -> n ∈ bucket t i -> n ∈ bucket (remove t k).2 i.
Proof.
  intros Hn Hin. destruct (key_null k) eqn:Hk; [by rewrite remove_null|].
  unfold HASH_remove_key_internal, HASH_search_internal.
  set (j := bucket_ix t (hashFunc k)).
  pose proof (search_chain_spec (bucket t j) k Hk) as Hs.
  destruct (search_chain keyCmp key_null (bucket t j) k) as [p|]; simpl; [|done].
  destruct Hs as (c1 & x & c2 & Hb & <- & Hx & _). rewrite Hb.
  rewrite take_app_length, drop_app_ge by lia.
  replace (S (length c1) - length c1)%nat with 1%nat by lia. simpl.
  destruct (decide (j = i)) as [<-|]; [|by rewrite bucket_set_ne].
  assert (Hj : (j < length (buckets t))%nat).
  { unfold bucket in Hb. destruct (buckets t !! j) eqn:E; [by eapply lookup_lt_Some|].
    simpl in Hb. by destruct c1. }
  rewrite bucket_set_eq by done. rewrite Hb in Hin. rewrite elem_of_app, elem_of_cons in Hin.
  rewrite elem_of_app. destruct Hin as [|[->|]]; [tauto| |tauto]. congruence.
Qed.

Lemma extract_bucket_null fuel (t : table) i n out :
  key_null (hn_key n) = true -> n ∈ bucket t i ->
  extract_bucket hashFunc keyCmp key_null fuel t i out = None.
Proof.
  intros Hn. revert t out. induction fuel as [|fuel IH]; intros t out Hin;
    cbn [extract_bucket]; destruct (bucket t i) as [|x c] eqn:Hb; try set_solver.
  pose proof (remove_keeps_null t (hn_key x) n i Hn) as Hk. rewrite Hb in Hk.
  destruct (remove t (hn_key x)) as [r t']. apply IH. by apply Hk.
Qed.

Lemma extract_bucket_keeps_null fuel (t t' : table) i j n out out' :
  key_null (hn_key n) = true -> n ∈ bucket t j ->
  extract_bucket hashFunc keyCmp key_null fuel t i out = Some (t', out') -> n ∈ bucket t' j.
Proof.
  intros Hn. revert t out. induction fuel as [|fuel IH]; intros t out Hin;
    cbn [extract_bucket]; destruct (bucket t i) as [|x c] eqn:Hb; try (by intros [= <- <-]).
  pose proof (remove_keeps_null t (hn_key x) n j Hn Hin) as Hk.
  destruct (remove t (hn_key x)) as [r t1]. by apply IH.
Qed.

Lemma extract_buckets_null fuel ixs (t : table) i n out :
  key_null (hn_key n) = true -> n ∈ bucket t i -> i ∈ ixs ->
  extract_buckets hashFunc keyCmp key_null fuel t ixs out = None.
Proof.
  intros Hn. revert t out. induction ixs as [|j ixs IH]; intros t out Hin Hi; [set_solver|].
  cbn [extract_buckets]. destruct (decide (i = j)) as [<-|Hij].
  - by rewrite (extract_bucket_null fuel t i n out).
  - destruct (extract_bucket hashFunc keyCmp key_null fuel t j out) as [[t1 out1]|] eqn:E; [|done].
    apply IH; [by eapply extract_bucket_keeps_null|set_solver].
Qed.

Lemma bucket_length_nodes (t : table) i : (length (bucket t i) <= length (nodes t))%nat.
Proof.
  unfold bucket, nodes. destruct (buckets t !! i) as [c|] eqn:E; simpl; [|lia].
  rewrite <- (take_drop_middle _ _ _ E), concat_app. simpl. rewrite !length_app. lia.
Qed.

Lemma nodes_buckets (t : table) : nodes t = concat (bucket t <$> seq 0 (length (buckets t))).
Proof.
  unfold nodes. f_equal. apply list_eq. intros i. rewrite list_lookup_fmap.
  destruct (decide (i < length (buckets t))%nat) as [Hi|Hi].
  - rewrite lookup_seq_lt by done. simpl. unfold bucket.
    by destruct (lookup_lt_is_Some_2 _ _ Hi) as [c ->].
  - rewrite lookup_seq_ge, lookup_ge_None_2 by lia. done.
Qed.

Lemma elem_of_nodes (t : table) n :
  n ∈ nodes t <-> exists i, (i < length (buckets t))%nat /\ n ∈ bucket t i.
Proof.
  rewrite nodes_buckets, list_elem_of_In, in_concat. setoid_rewrite <- list_elem_of_In.
  setoid_rewrite list_elem_of_fmap. setoid_rewrite elem_of_seq. split.
  - intros (c & (i & -> & Hi) & Hn). exists i. split; [lia|done].
  - intros (i & Hi & Hn). eexists. split; [|exact Hn]. exists i. split; [done|lia].
Qed.

(** [HASH_extract] hands every entry to the extractor exactly once, in
    table order, and leaves the table empty, provided no entry has a NULL
    key; as soon as one entry has a NULL key its loop never ends. *)
Theorem ht_extract_correct (t : table) :
  wf t ->
  (no_null (nodes t) ->
   exists t', HASH_extract hashFunc keyCmp key_null (length (nodes t)) (Some t)
       = Some (Some t', Some ∘ hn_data <$> nodes t) /\ wf t' /\ nodes t' = []) /\
  (~ no_null (nodes t) -> forall fuel, HASH_extract hashFunc keyCmp key_null fuel (Some t) = None).
Proof.
  intros Hw. split.
  - intros Hn. unfold HASH_extract.
    destruct (extract_buckets_ok (seq 0 (length (buckets t))) (length (nodes t)) t [] Hw)
      as (t' & E & Hw' & Hl & Hb & _).
    + apply NoDup_seq.
    + apply Forall_forall. intros i Hi. apply elem_of_seq in Hi. lia.
    + intros i. destruct (decide (i < length (buckets t))%nat) as [Hi|Hi].
      * apply Forall_forall. intros n Hin. unfold no_null in Hn. rewrite Forall_forall in Hn.
        apply Hn, elem_of_nodes. eauto.
      * unfold bucket. rewrite lookup_ge_None_2 by lia. constructor.
    + apply bucket_length_nodes.
    + rewrite E, <- nodes_buckets. exists t'. split; [done|]. split; [done|].
      rewrite nodes_buckets, Hl. clear E.
      induction (seq 0 (length (buckets t))) as [|i l IH]; [done|].
      simpl. rewrite Hb by set_solver. apply IH. set_solver.
  - intros Hn fuel. unfold HASH_extract.
    assert (exists n, n ∈ nodes t /\ key_null (hn_key n) = true) as (n & Hin & Hk).
    { apply not_Forall_Exists in Hn; [|intros x; apply bool_eq_dec].
      apply Exists_exists in Hn as (n & Hin & H).
      exists n. split; [done|]. simpl in H. by destruct (key_null (hn_key n)). }
    apply elem_of_nodes in Hin as (i & Hi & Hin).
    rewrite (extract_buckets_null fuel _ t i n []); try done. apply elem_of_seq. lia.
Qed.
End Correctness.

(** ** The tables of xdr.c and cmd.c: integer keys, identity hash *)
Module IntTable.
Definition hash (k : Z) : Z := k.
Definition key (e : Z * Z) : Z := e.1.
Definition null (k : Z) : bool := k =? 0.

Definition empty7 : HashTable Z (Z * Z) := HT 7 (replicate 7 []).
Definition add (t : HashTable Z (Z * Z)) (e : Z * Z) := (HASH_add_data hash Z.eqb key true t (Some e)).2.

(** Keys 3, 10 and 4: the first two share a bucket. *)
Definition three : HashTable Z (Z * Z) := add (add (add empty7 (3, 30)) (10, 100)) (4, 40).

Definition find_in (t : HashTable Z (Z * Z)) (k : Z) : option (Z * Z) :=
  HASH_find_key hash Z.eqb (Some t) k.

Lemma three_wf : ht_wf hash key three.
Proof.
  split; [reflexivity|]. split; [reflexivity|].
  intros i c H. vm_compute in H.
  do 7 (destruct i as [|i]; [injection H as <-; split;
    [repeat constructor | apply (bool_decide_unpack _); vm_compute; reflexivity]|]).
  destruct i; discriminate.
Qed.

Lemma three_represents : represents hash Z.eqb three (find_in three).
Proof. intros k. reflexivity. Qed.
End IntTable.

Lemma ht_add_correct_witness :
  IntTable.find_in IntTable.three 17 = None /\
  (HASH_add_data IntTable.hash Z.eqb IntTable.key true IntTable.three (Some (17, 1))).1 = 0.
Proof.
  split; [reflexivity|].
  destruct (ht_add_correct IntTable.hash Z.eqb IntTable.key IntTable.three
    (IntTable.find_in IntTable.three) true (Some (17, 1))
    (HASH_add_data IntTable.hash Z.eqb IntTable.key true IntTable.three (Some (17, 1))).1
    (HASH_add_data IntTable.hash Z.eqb IntTable.key true IntTable.three (Some (17, 1))).2
    IntTable.three_wf IntTable.three_represents eq_refl) as [_ H].
  exact (proj1 H).
Defined.

Lemma ht_remove_correct_witness :
  exists r t', HASH_remove_key IntTable.hash Z.eqb IntTable.null (Some IntTable.three) 3 = (r, Some t') /\
    r = Some (3, 30).
Proof.
  destruct (ht_remove_correct IntTable.hash Z.eqb IntTable.key IntTable.null IntTable.three
    (IntTable.find_in IntTable.three) 3 IntTable.three_wf IntTable.three_represents)
    as (r & t' & H1 & _ & H2).
  exists r, t'. split; [exact H1|]. exact (proj1 H2).
Defined.

Lemma ht_iterate_correct_witness :
  exists t', HASH_iterate_arg_table (fun s (e : Z * Z) => (s + e.2, e.1 =? 10)) (Some IntTable.three) 0
      = (170, Some t') /\ (hn_data <$> nodes t') = [(3, 30); (4, 40)].
Proof.
  destruct (ht_iterate_correct IntTable.hash IntTable.key
    (fun s (e : Z * Z) => (s + e.2, e.1 =? 10)) IntTable.three 0 IntTable.three_wf)
    as (t' & H1 & _ & H2).
  exists t'. split; [exact H1|]. rewrite H2. reflexivity.
Defined.

Lemma ht_extract_correct_witness :
  exists t', HASH_extract IntTable.hash Z.eqb IntTable.null 3 (Some IntTable.three)
      = Some (Some t', [Some (10, 100); Some (3, 30); Some (4, 40)]).
Proof.
  destruct (ht_extract_correct IntTable.hash Z.eqb IntTable.key IntTable.null IntTable.three
    IntTable.three_wf) as [H _].
  destruct H as (t' & H & _); [repeat constructor|]. exists t'. exact H.
Defined.
