(* ===== verification/EventTimer.v ===== *)
(** * The event timers of one process (eventTimer.c, eventTimer.h)

    The event loop blocks, and reads its clocks, through a table of function
    pointers.  [EventTimerOps] is that table; the default, the real-time debug
    and the virtual timer are three values of it.  The kernel's clocks and the
    select callback belong to the world [W]. *)

From stdpp Require Import base gmap list numbers sorting.
From Stdlib Require Import ZArith Lia.
From S2P Require Import Prelude.
Open Scope Z_scope.

Definition VIRT_CLK_STOLEN : Z := 2.
Definition VIRT_CLK_PAUSED : Z := 1.
Definition VIRT_CLK_ACTIVE : Z := 0.

(** [struct timespec] *)
Record timespec := TS { ts_sec : Z; ts_nsec : Z }.

(** [ET_block_cb]: it sees the timer and the time to block ([None] is
    NULL, block for ever), and runs in the world. *)
Definition ET_block_cb (T W : Type) : Type := T -> option timeval -> W -> Z * T * W.

(** [struct EventTimer]; the virt_* pointers are NULL for the timers that have
    no virtual clock. *)
Record EventTimerOps (T W : Type) := ETOps {
  et_block : T -> option timeval -> bool -> ET_block_cb T W -> W -> Z * T * W;
  et_get_gmt_time : T -> W -> Z * timeval;
  et_get_monotonic_time : T -> W -> Z * timeval;
  et_virt_inc_time_p : option (T -> timeval -> T);
  et_virt_set_time_p : option (T -> timeval -> T);
  et_virt_get_time_p : option (T -> W -> Z * timeval);
  et_virt_set_pause_p : option (T -> Z -> T);
  et_virt_get_pause_p : option (T -> Z)
}.
Arguments ETOps {T W}.
Arguments et_block {T W}.
Arguments et_get_gmt_time {T W}.
Arguments et_get_monotonic_time {T W}.
Arguments et_virt_inc_time_p {T W}.
Arguments et_virt_set_time_p {T W}.
Arguments et_virt_get_time_p {T W}.
Arguments et_virt_set_pause_p {T W}.
Arguments et_virt_get_pause_p {T W}.

(** The part of the three block functions that turns the wake-up time into a
    time to block: the difference, cleared when it is negative. *)
Definition block_diff (nextAwake curTime : timeval) : timeval :=
  let diffTime := timersub nextAwake curTime in
  if (tv_sec diffTime <? 0) || (tv_usec diffTime <? 0) then TV 0 0 else diffTime.

Record RTDebugEventTimer := RTD { offset : timeval }.

Record VirtualEventTimer := VET { vet_time : timeval; vet_paused : Z }.

Section Timers.
Context {W : Type}.
Context (gettimeofday : W -> timeval) (clock_gettime : W -> Z * timespec).

(** The conversion of [CLOCK_MONOTONIC] to microseconds. *)
Definition timespec_to_timeval (tp : timespec) : timeval :=
  TV (ts_sec tp) (Z.quot (ts_nsec tp + 500) 1000).

(** ** The default timer *)

Definition ET_default_gmt (et : unit) (w : W) : Z * timeval := (0, gettimeofday w).

Definition ET_default_monotonic (et : unit) (w : W) : Z * timeval :=
  let '(res, tp) := clock_gettime w in (res, timespec_to_timeval tp).

Definition ET_default_block (et : unit) (nextAwake : option timeval) (pauseWhileBlocking : bool)
    (blockcb : ET_block_cb unit W) (w : W) : Z * unit * W :=
  let curTime := (ET_default_monotonic et w).2 in
  let blockTime :=
    match nextAwake with
    | Some na => Some (block_diff na curTime)
    | None => None
    end in
  blockcb et blockTime w.

Definition ET_default_init (malloc_ok : bool) : option (unit * EventTimerOps unit W) :=
  if malloc_ok
  then Some (tt, ETOps ET_default_block ET_default_gmt ET_default_monotonic None None None None None)
  else None.

(** ** The real-time debug timer: a real clock minus an offset *)

Definition ET_rtdebug_gmt (et : RTDebugEventTimer) (w : W) : Z * timeval :=
  (0, timersub (gettimeofday w) (offset et)).

Definition ET_rtdebug_monotonic (et : RTDebugEventTimer) (w : W) : Z * timeval :=
  let '(res, tp) := clock_gettime w in
  (res, timersub (timespec_to_timeval tp) (offset et)).

Definition ET_rtdebug_block (et : RTDebugEventTimer) (nextAwake : option timeval)
    (pauseWhileBlocking : bool) (blockcb : ET_block_cb RTDebugEventTimer W) (w : W)
    : Z * RTDebugEventTimer * W :=
  let curTime := (ET_rtdebug_monotonic et w).2 in
  let blockTime :=
    match nextAwake with
    | Some na => Some (block_diff na curTime)
    | None => None
    end in
  let '(res, et1, w1) := blockcb et blockTime w in
  if pauseWhileBlocking then
    let endTime := (ET_rtdebug_monotonic et1 w1).2 in
    let diffTime := block_diff endTime curTime in
    (res, RTD (timeradd diffTime (offset et1)), w1)
  else (res, et1, w1).

Definition ET_rtdebug_init (malloc_ok : bool)
    : option (RTDebugEventTimer * EventTimerOps RTDebugEventTimer W) :=
  if malloc_ok
  then Some (RTD (TV 0 0),
    ETOps ET_rtdebug_block ET_rtdebug_gmt ET_rtdebug_monotonic None None None None None)
  else None.

(** ** The virtual timer *)

Definition et_virt_inc_time (clk : VirtualEventTimer) (time : timeval) : VirtualEventTimer :=
  VET (timeradd time (vet_time clk)) (vet_paused clk).

Definition et_virt_set_time (clk : VirtualEventTimer) (time : timeval) : VirtualEventTimer :=
  VET time (vet_paused clk).

Definition et_virt_get_time (clk : VirtualEventTimer) (w : W) : Z * timeval := (0, vet_time clk).

Definition et_virt_set_pause (clk : VirtualEventTimer) (pauseState : Z) : VirtualEventTimer :=
  if negb (pauseState =? VIRT_CLK_STOLEN) then VET (vet_time clk) pauseState else clk.

Definition et_virt_get_pause (clk : VirtualEventTimer) : Z := vet_paused clk.

Definition ET_virt_block (et : VirtualEventTimer) (nextAwake : option timeval)
    (pauseWhileBlocking : bool) (blockcb : ET_block_cb VirtualEventTimer W) (w : W)
    : Z * VirtualEventTimer * W :=
  match nextAwake with
  | Some na =>
      if pauseWhileBlocking then
        blockcb et (Some (block_diff na (et_virt_get_time et w).2)) w
      else if et_virt_get_pause et =? VIRT_CLK_ACTIVE then
        blockcb (et_virt_set_time et na) (Some (TV 0 0)) w
      else blockcb et None w
  | None => blockcb et None w
  end.

Definition ET_virt_init (malloc_ok : bool) (initTime : timeval)
    : option (VirtualEventTimer * EventTimerOps VirtualEventTimer W) :=
  if malloc_ok
  then Some (VET initTime VIRT_CLK_ACTIVE,
    ETOps ET_virt_block et_virt_get_time et_virt_get_time
      (Some et_virt_inc_time) (Some et_virt_set_time) (Some et_virt_get_time)
      (Some et_virt_set_pause) (Some et_virt_get_pause))
  else None.
End Timers.

(** ** Theorems *)

(** A time as the clocks deliver it: rounding may produce 1000000
    microseconds. *)
Definition tv_clock (t : timeval) : Prop := 0 <= tv_usec t <= 1000000.

Definition ts_ok (tp : timespec) : Prop := 0 <= ts_nsec tp < 1000000000.

Lemma timespec_clock tp : ts_ok tp -> tv_clock (timespec_to_timeval tp).
Proof.
  unfold ts_ok, tv_clock. intros H. simpl.
  rewrite Z.quot_div_nonneg by lia. split.
  - apply Z.div_pos; lia.
  - apply Z.lt_succ_r, Z.div_lt_upper_bound; lia.
Qed.

Lemma block_diff_us na cur :
  tv_norm na -> tv_clock cur ->
  tv_us (block_diff na cur) = Z.max 0 (tv_us na - tv_us cur) /\ tv_norm (block_diff na cur).
Proof.
  unfold block_diff, tv_clock. intros Hn Hc. split; tv_solve; simpl; zcases; simpl; lia.
Qed.

(** The monotonic clock is converted to the nearest microsecond, and the
    result is a normalised time exactly when the nanoseconds are below
    999999500; from there on [tv_usec] is 1000000. *)
Theorem et_monotonic_rounding tp :
  ts_ok tp ->
  let tv := timespec_to_timeval tp in
  -500 <= tv_usec tv * 1000 - ts_nsec tp <= 500 /\
  (tv_norm tv <-> ts_nsec tp < 999999500).
Proof.
  unfold ts_ok, tv_norm. intros H. simpl. rewrite Z.quot_div_nonneg by lia.
  pose proof (Z.div_mod (ts_nsec tp + 500) 1000 ltac:(lia)).
  pose proof (Z.mod_pos_bound (ts_nsec tp + 500) 1000 ltac:(lia)). lia.
Qed.

Lemma et_monotonic_rounding_witness :
  tv_usec (timespec_to_timeval (TS 7 999999500)) = 1000000 /\
  ~ tv_norm (timespec_to_timeval (TS 7 999999500)).
Proof.
  split; [reflexivity|].
  destruct (et_monotonic_rounding (TS 7 999999500)) as [_ H].
  - unfold ts_ok; simpl; lia.
  - intros Hn. apply H in Hn. simpl in Hn. lia.
Defined.

Section TimerFacts.
Context {W : Type}.
Context (gettimeofday : W -> timeval) (clock_gettime : W -> Z * timespec).
Context (clock_ok : forall w, ts_ok (clock_gettime w).2).

Lemma default_monotonic_clock et w : tv_clock (ET_default_monotonic clock_gettime et w).2.
Proof.
  unfold ET_default_monotonic. pose proof (clock_ok w) as H.
  destruct (clock_gettime w) as [r tp]. by apply timespec_clock.
Qed.

(** [ET_default_block] calls the callback exactly once: with no time
    limit when there is no scheduled event, and otherwise with a normalised
    limit that is the time left to the wake-up, or zero when it has passed. *)
Theorem et_default_block_limit et na pause cb w :
  tv_norm na ->
  ET_default_block clock_gettime et None pause cb w = cb et None w /\
  exists bt, ET_default_block clock_gettime et (Some na) pause cb w = cb et (Some bt) w /\
    tv_norm bt /\
    tv_us bt = Z.max 0 (tv_us na - tv_us (ET_default_monotonic clock_gettime et w).2).
Proof.
  intros Hn. split; [done|]. eexists. split; [reflexivity|].
  destruct (block_diff_us na _ Hn (default_monotonic_clock et w)). done.
Qed.

(** Time stands still for a process under the real-time debug timer while
    it is blocked with [pauseWhileBlocking]: the monotonic and the wall-clock
    readings after the call are those from before the call, whatever the
    callback took, as long as the two kernel clocks advanced by the same
    amount and did not run backwards.  Without the flag the offset is what the
    callback leaves. *)
Theorem et_rtdebug_block_freezes et na cb w :
  let '(r1, et1, w1) :=
    cb et (match na with
           | Some t => Some (block_diff t (ET_rtdebug_monotonic clock_gettime et w).2)
           | None => None end) w in
  et1 = et -> tv_norm (offset et) ->
  tv_us (timespec_to_timeval (clock_gettime w).2) <= tv_us (timespec_to_timeval (clock_gettime w1).2) ->
  let '(r2, et2, w2) := ET_rtdebug_block clock_gettime et na true cb w in
  r2 = r1 /\ w2 = w1 /\
  tv_us (ET_rtdebug_monotonic clock_gettime et2 w2).2
    = tv_us (ET_rtdebug_monotonic clock_gettime et w).2 /\
  (tv_us (gettimeofday w1) - tv_us (gettimeofday w)
     = tv_us (timespec_to_timeval (clock_gettime w1).2)
       - tv_us (timespec_to_timeval (clock_gettime w).2) ->
   tv_us (ET_rtdebug_gmt gettimeofday et2 w2).2 = tv_us (ET_rtdebug_gmt gettimeofday et w).2) /\
  ET_rtdebug_block clock_gettime et na false cb w = (r1, et, w1).
Proof.
  unfold ET_rtdebug_block.
  destruct (cb et _ w) as [[r1 et1] w1]. intros -> Ho Hclk.
  split; [done|]. split; [done|].
  unfold ET_rtdebug_monotonic, ET_rtdebug_gmt in *.
  pose proof (clock_ok w) as K0. pose proof (clock_ok w1) as K1.
  destruct (clock_gettime w) as [q0 tp0]. destruct (clock_gettime w1) as [q1 tp1]. simpl in *.
  assert (Hd : tv_us (block_diff (timersub (timespec_to_timeval tp1) (offset et))
                                 (timersub (timespec_to_timeval tp0) (offset et)))
             = tv_us (timespec_to_timeval tp1) - tv_us (timespec_to_timeval tp0)).
  { apply timespec_clock in K0, K1.
    revert K0 K1 Hclk. generalize (timespec_to_timeval tp0) (timespec_to_timeval tp1).
    intros a b. unfold block_diff, tv_clock. clear clock_ok.
    destruct et as [off]. simpl in *. intros. tv_solve; simpl; zcases; simpl; lia. }
  rewrite !timersub_us, timeradd_us, Hd. split; [lia|]. split; [lia|done].
Qed.

(** The virtual timer: a paused blocking call waits in real time without
    moving the clock; an active clock jumps to the wake-up time and polls; a
    clock that is paused, or has nothing scheduled, blocks for ever.  In no
    case does the pause state change before the callback runs. *)
Theorem et_virt_block_cases et na pause cb (w : W) :
  ET_virt_block et na pause cb w =
    match na, pause, bool_decide (vet_paused et = VIRT_CLK_ACTIVE) with
    | None, _, _ | Some _, false, false => cb et None w
    | Some t, true, _ => cb et (Some (block_diff t (vet_time et))) w
    | Some t, false, true => cb (VET t (vet_paused et)) (Some (TV 0 0)) w
    end.
Proof.
  unfold ET_virt_block, et_virt_get_pause. destruct na as [t|]; [|by destruct pause].
  destruct pause; [done|]. case_bool_decide as E.
  - by rewrite (proj2 (Z.eqb_eq _ _) E).
  - by rewrite (proj2 (Z.eqb_neq _ _) E).
Qed.

(** The virtual clock operations read back what they write: setting is
    absolute, incrementing adds, the pause state is kept by both, and a request
    to steal the clock leaves a single-process virtual clock as it is. *)
Theorem et_virt_clock_laws clk t1 t2 p (w : W) :
  et_virt_get_time (et_virt_set_time clk t1) w = (0, t1) /\
  tv_us (et_virt_get_time (et_virt_inc_time (et_virt_set_time clk t1) t2) w).2 = tv_us t1 + tv_us t2 /\
  et_virt_get_pause (et_virt_inc_time (et_virt_set_time clk t1) t2) = et_virt_get_pause clk /\
  et_virt_get_pause (et_virt_set_pause clk p)
    = (if p =? VIRT_CLK_STOLEN then et_virt_get_pause clk else p) /\
  et_virt_get_time (et_virt_set_pause clk p) w = et_virt_get_time clk w.
Proof.
  split; [done|]. split; [simpl; rewrite timeradd_us; lia|]. split; [done|].
  unfold et_virt_set_pause. by destruct (p =? VIRT_CLK_STOLEN).
Qed.
End TimerFacts.

(** A world that is a clock in nanoseconds, and a callback that lets it run. *)
Definition tick_clock (w : Z) : Z * timespec := (0, TS (w / 1000000000) (w mod 1000000000)).
Definition tick_gmt (w : Z) : timeval := TV (w / 1000000000) (w mod 1000000000 / 1000).
Definition tick_cb {T} (d : Z) : ET_block_cb T Z := fun et _ w => (1, et, w + d).

Lemma tick_clock_ok w : ts_ok (tick_clock w).2.
Proof. unfold ts_ok. simpl. apply Z.mod_pos_bound. lia. Qed.

Lemma et_default_block_limit_witness :
  exists bt, ET_default_block tick_clock tt (Some (TV 9 0)) false (tick_cb 5) 7500000000
      = tick_cb 5 tt (Some bt) 7500000000 /\ tv_us bt = 1500000.
Proof.
  destruct (et_default_block_limit tick_clock tick_clock_ok tt (TV 9 0) false (tick_cb 5) 7500000000)
    as (_ & bt & H1 & _ & H2); [unfold tv_norm; simpl; lia|].
  exists bt. split; [exact H1|exact H2].
Defined.

Lemma et_rtdebug_block_freezes_witness :
  tv_us (ET_rtdebug_monotonic tick_clock
     (ET_rtdebug_block tick_clock (RTD (TV 2 0)) None true (tick_cb 3000000000) 7000000000).1.2
     10000000000).2 = 5000000.
Proof.
  pose proof (et_rtdebug_block_freezes tick_gmt tick_clock tick_clock_ok (RTD (TV 2 0)) None
    (tick_cb 3000000000) 7000000000 eq_refl) as H.
  destruct H as (_ & _ & H & _); [unfold tv_norm; simpl; lia|vm_compute; discriminate|exact H].
Defined.
