(* ===== verification/GlobalTimer.v ===== *)
(** * The shared virtual clock of several processes (globalTimer.c)

    Processes that take part in a simulation map one [SharedState]: two
    counting semaphores, the global time and a slot per process.  The model is
    a step relation over the shared state and the program counters of the
    processes; a step is the code between two semaphore waits, which is atomic
    for the other processes because they all hold the event mutex to touch the
    shared state.  The executable functions the steps are made of are the
    bodies of the C functions.  There are no more steps once a process has
    removed the state file, and a process that finds all 128 slots taken is
    not part of a run. *)

From stdpp Require Import base gmap list numbers sorting.
From Stdlib Require Import ZArith Lia.
From S2P Require Import Prelude EventTimer.
Open Scope Z_scope.

(** ** Data *)

Definition MAX_PROCS : nat := 128.

Record SharedProcessState := SPS {
  next_time : timeval;
  active : bool;
  holds_mutex : bool;
  thief : bool;
  pid : Z
}.

#[export] Instance SharedProcessState_inhabited : Inhabited SharedProcessState :=
  populate (SPS (TV 0 0) false false false 0).

(** A semaphore is its counter. *)
Record SharedState := SS {
  evt_mutex : Z;
  barrier : Z;
  curr_time : timeval;
  num_procs : nat;
  time_thief : Z;
  procs : list SharedProcessState
}.

(** The per-process object: its clock, its slot and its pause mode. *)
Record VirtualGlobalEventTimer := VGET {
  vg_time : timeval;
  my_state : nat;
  vg_paused : Z
}.

Definition with_mutex (s : SharedState) (v : Z) : SharedState :=
  SS v (barrier s) (curr_time s) (num_procs s) (time_thief s) (procs s).
Definition with_barrier (s : SharedState) (v : Z) : SharedState :=
  SS (evt_mutex s) v (curr_time s) (num_procs s) (time_thief s) (procs s).
Definition with_thief (s : SharedState) (v : Z) : SharedState :=
  SS (evt_mutex s) (barrier s) (curr_time s) (num_procs s) v (procs s).
Definition with_proc (s : SharedState) (i : nat) (f : SharedProcessState -> SharedProcessState)
    : SharedState :=
  SS (evt_mutex s) (barrier s) (curr_time s) (num_procs s) (time_thief s) (alter f i (procs s)).

Definition sem_post_mutex (s : SharedState) : SharedState := with_mutex s (evt_mutex s + 1).
Definition sem_post_barrier (s : SharedState) : SharedState := with_barrier s (barrier s + 1).

(** [sem_wait] returns only once the counter is positive. *)
Definition sem_wait_mutex (s : SharedState) : option SharedState :=
  if 0 <? evt_mutex s then Some (with_mutex s (evt_mutex s - 1)) else None.
Definition sem_wait_barrier (s : SharedState) : option SharedState :=
  if 0 <? barrier s then Some (with_barrier s (barrier s - 1)) else None.

Definition set_next (t : timeval) (p : SharedProcessState) : SharedProcessState :=
  SPS t (active p) (holds_mutex p) (thief p) (pid p).
Definition set_active (b : bool) (p : SharedProcessState) : SharedProcessState :=
  SPS (next_time p) b (holds_mutex p) (thief p) (pid p).
Definition set_holds (b : bool) (p : SharedProcessState) : SharedProcessState :=
  SPS (next_time p) (active p) b (thief p) (pid p).
Definition set_thief (b : bool) (p : SharedProcessState) : SharedProcessState :=
  SPS (next_time p) (active p) (holds_mutex p) b (pid p).
Definition set_pid (v : Z) (p : SharedProcessState) : SharedProcessState :=
  SPS (next_time p) (active p) (holds_mutex p) (thief p) v.

Definition my (s : SharedState) (et : VirtualGlobalEventTimer) : SharedProcessState :=
  procs s !!! my_state et.

(** ** Operations *)

Definition shared_init (now : timeval) : SharedState :=
  SS 1 0 now 0 0 (replicate MAX_PROCS inhabitant).

(** [setup_shared_state] once the state file is mapped; [shared] is [None]
    when this process had to create it.  The code does not check the slot
    index against [MAX_PROCS]. *)
Inductive setup_result :=
  | Ready (s : SharedState) (et : VirtualGlobalEventTimer)
  | WaitMutex            (* still in sem_wait *)
  | OutOfBounds.         (* a write past procs[MAX_PROCS] *)

Definition setup_shared_state (getpid : Z) (now : timeval) (pause_mode : Z)
    (shared : option SharedState) : setup_result :=
  let s0 := match shared with Some s => s | None => shared_init now end in
  match sem_wait_mutex s0 with
  | None => WaitMutex
  | Some s =>
      let i := num_procs s in
      match procs s !! i with
      | None => OutOfBounds
      | Some old =>
          let p := SPS (curr_time s) true true (thief old) getpid in
          Ready
            (SS (evt_mutex s) (barrier s) (curr_time s) (S i) (time_thief s) (<[i:=p]> (procs s)))
            (VGET (TV 0 0) i pause_mode)
      end
  end.

(** [ET_gvirt_init]: a NULL state file, a failed allocation or a failed system
    call of the set-up give NULL. *)
Definition ET_gvirt_init (state_file malloc_ok syscalls_ok : bool) (getpid : Z) (now : timeval)
    (pause_mode : Z) (shared : option SharedState) : option setup_result :=
  if negb state_file then None
  else if negb malloc_ok then None
  else if negb syscalls_ok then None
  else Some (setup_shared_state getpid now pause_mode shared).

Definition live (p : SharedProcessState) : bool := (0 <? pid p) && active p.

(** The loop over [procs[0 .. num_procs)]: the number of live processes and
    the index of the first one with the smallest [next_time]. *)
Fixpoint smallest_loop (ps : list SharedProcessState) (i : nat) (acc : option (nat * timeval))
    (cnt : nat) : nat * option (nat * timeval) :=
  match ps with
  | [] => (cnt, acc)
  | p :: ps' =>
      if live p then
        let acc' :=
          match acc with
          | None => Some (i, next_time p)
          | Some (_, t) => if timercmp Z.ltb (next_time p) t then Some (i, next_time p) else acc
          end in
        smallest_loop ps' (S i) acc' (S cnt)
      else smallest_loop ps' (S i) acc cnt
  end.

Definition find_smallest (s : SharedState) : nat * option (nat * timeval) :=
  smallest_loop (take (num_procs s) (procs s)) 0 None 0.

Fixpoint post_barriers (n : nat) (s : SharedState) : SharedState :=
  match n with O => s | S n' => post_barriers n' (sem_post_barrier s) end.

(** [ET_gvirt_block] up to the release of the mutex (lines 252 to 286), for a
    process that takes part in global time; [None] is a failed assertion. *)
Definition gvirt_release (s0 : SharedState) (et : VirtualGlobalEventTimer) (nextAwake : timeval)
    : option SharedState :=
  if negb (holds_mutex (my s0 et)) then None
  else
    let s1 := with_proc s0 (my_state et) (set_next nextAwake) in
    match find_smallest s1 with
    | (_, None) => None
    | (proc_cnt, Some (smallest, t)) =>
        let s2 :=
          if time_thief s1 =? 0 then
            post_barriers proc_cnt
              (with_proc
                 (SS (evt_mutex s1) (barrier s1) t (num_procs s1) (time_thief s1) (procs s1))
                 smallest (set_active false))
          else s1 in
        let s3 := with_proc s2 (my_state et) (set_thief false) in
        let s4 :=
          if negb (time_thief s3 =? 0) && (time_thief s3 =? pid (my s3 et))
          then with_proc s3 (my_state et) (set_thief true) else s3 in
        Some (sem_post_mutex (with_proc s4 (my_state et) (set_holds false)))
    end.

(** Lines 315 to 327, entered with the mutex just taken: the local clock takes
    the global time, and the process either goes round again or owns the
    loop.  [None] is the failed assertion of line 319. *)
Definition gvirt_check (s : SharedState) (et : VirtualGlobalEventTimer) (nextAwake : timeval)
    : option (bool * SharedState * VirtualGlobalEventTimer) :=
  let et' := VGET (curr_time s) (my_state et) (vg_paused et) in
  if negb (timercmp Z.eqb nextAwake (next_time (my s et))) then None
  else if timercmp Z.gtb nextAwake (curr_time s) then Some (false, sem_post_mutex s, et')
  else
    Some (true, with_proc (with_proc s (my_state et) (set_active true)) (my_state et) (set_holds true), et').

(** [ET_gvirt_block] up to its first wait: it calls the callback at once with
    a limit, fails an assertion, or has released the mutex; a thief of time then
    calls the callback with the limit of [steal], everybody else goes to the
    barrier, and calls it with a zero limit once [gvirt_check] lets him in. *)
Inductive block_entry :=
  | SelectNow (limit : option timeval)
  | AssertFails
  | Released (s : SharedState) (steal : option timeval).

Definition ET_gvirt_block (s : SharedState) (et : VirtualGlobalEventTimer)
    (nextAwake : option timeval) (pauseWhileBlocking : bool) : block_entry :=
  match nextAwake with
  | None => SelectNow None
  | Some na =>
      if pauseWhileBlocking then SelectNow (Some (block_diff na (vg_time et)))
      else if (vg_paused et =? VIRT_CLK_ACTIVE) || (vg_paused et =? VIRT_CLK_STOLEN) then
        match gvirt_release s et na with
        | None => AssertFails
        | Some s' =>
            Released s' (if thief (my s' et) then Some (block_diff na (vg_time et)) else None)
        end
      else SelectNow None
  end.

Definition et_gvirt_inc_time (clk : VirtualGlobalEventTimer) (t : timeval) : VirtualGlobalEventTimer :=
  VGET (timeradd t (vg_time clk)) (my_state clk) (vg_paused clk).

Definition et_gvirt_set_time (clk : VirtualGlobalEventTimer) (t : timeval) : VirtualGlobalEventTimer :=
  VGET t (my_state clk) (vg_paused clk).

Definition et_gvirt_get_time (clk : VirtualGlobalEventTimer) : Z * timeval := (0, vg_time clk).

Definition et_gvirt_set_pause (s : SharedState) (clk : VirtualGlobalEventTimer) (pauseState : Z)
    : SharedState * VirtualGlobalEventTimer :=
  let clk' := VGET (vg_time clk) (my_state clk) pauseState in
  if negb (holds_mutex (my s clk)) then (s, clk)
  else if pauseState =? VIRT_CLK_STOLEN then
    if negb (time_thief s =? 0) then (s, clk)
    else (with_thief s (pid (my s clk)), clk')
  else if negb (time_thief s =? 0) && (time_thief s =? pid (my s clk))
  then (with_thief s 0, clk')
  else (s, clk').

Definition et_gvirt_get_pause (clk : VirtualGlobalEventTimer) : Z := vg_paused clk.

(** [cleanup_shared_state]: the new shared state, and whether the state file
    was removed. *)
Definition cleanup_shared_state (s0 : SharedState) (self : VirtualGlobalEventTimer)
    : SharedState * bool :=
  let i := my_state self in
  let s1 := with_proc s0 i (set_active false) in
  if holds_mutex (my s1 self) then
    let s2 :=
      if (pid (my s1 self) =? time_thief s1) && negb (time_thief s1 =? 0)
      then with_thief s1 0 else s1 in
    let s3 := with_proc s2 i (set_pid 0) in
    let cnt := (find_smallest s3).1 in
    let s4 := post_barriers cnt s3 in
    let s5 := sem_post_mutex (with_proc s4 i (set_holds false)) in
    (with_proc s5 i (set_pid 0), Nat.eqb cnt 0)
  else (with_proc s1 i (set_pid 0), false).

(** ** The processes as a transition system *)

(** Where a process is: in its event loop with the event mutex, at the barrier,
    through the barrier and waiting for the mutex, blocked as the thief of
    time, waiting to take the mutex back as the thief, or ended.  A process
    that ends without posting the mutex keeps it for ever. *)
Inductive pc :=
  | Running
  | AtBarrier (nextAwake : timeval)
  | WantMutex (nextAwake : timeval)
  | Stealing (nextAwake : timeval)
  | WantBack (nextAwake : timeval)
  | Aborted
  | Exited (with_mutex : bool).

(** [alive] until [cleanup_shared_state] destroys the semaphores and removes
    the state file; what happens to the processes after that is not
    modelled. *)
Record sys := Sys {
  sh : SharedState;
  loc : list (pc * VirtualGlobalEventTimer);
  alive : bool
}.

Inductive label :=
  | LJoin (getpid : Z) (pause_mode : Z)
  | LBlock (i : nat) (nextAwake : timeval)
  | LBarrier (i : nat)
  | LMutex (i : nat)
  | LStolen (i : nat)
  | LPause (i : nat) (pauseState : Z)
  | LSetTime (i : nat) (t : timeval)
  | LExit (i : nat).

Definition set_loc (c : sys) (s : SharedState) (i : nat) (x : pc * VirtualGlobalEventTimer) : sys :=
  Sys s (<[i:=x]> (loc c)) (alive c).

(** One step of the system; [None] when the step is not possible. *)
Definition gstep_alive (c : sys) (l : label) : option sys :=
  match l with
  | LJoin getpid pm =>
      match (if 0 <? getpid then setup_shared_state getpid (TV 0 0) pm (Some (sh c)) else WaitMutex) with
      | Ready s et => Some (Sys s (loc c ++ [(Running, et)]) (alive c))
      | _ => None
      end
  | LBlock i na =>
      match loc c !! i with
      | Some (Running, et) =>
          match ET_gvirt_block (sh c) et (Some na) false with
          | SelectNow _ => None
          | AssertFails => Some (set_loc c (sh c) i (Aborted, et))
          | Released s None => Some (set_loc c s i (AtBarrier na, et))
          | Released s (Some _) => Some (set_loc c s i (Stealing na, et))
          end
      | _ => None
      end
  | LBarrier i =>
      match loc c !! i, sem_wait_barrier (sh c) with
      | Some (AtBarrier na, et), Some s => Some (set_loc c s i (WantMutex na, et))
      | _, _ => None
      end
  | LMutex i =>
      match loc c !! i, sem_wait_mutex (sh c) with
      | Some (WantMutex na, et), Some s =>
          match gvirt_check s et na with
          | None => Some (set_loc c s i (Aborted, et))
          | Some (true, s', et') => Some (set_loc c s' i (Running, et'))
          | Some (false, s', et') => Some (set_loc c s' i (AtBarrier na, et'))
          end
      | Some (WantBack na, et), Some s => Some (set_loc c s i (Running, et))
      | _, _ => None
      end
  | LStolen i =>
      match loc c !! i with
      | Some (Stealing na, et) => Some (set_loc c (sh c) i (WantBack na, et))
      | _ => None
      end
  | LPause i p =>
      match loc c !! i with
      | Some (Running, et) =>
          let '(s, et') := et_gvirt_set_pause (sh c) et p in Some (set_loc c s i (Running, et'))
      | _ => None
      end
  | LSetTime i t =>
      match loc c !! i with
      | Some (Running, et) => Some (set_loc c (sh c) i (Running, et_gvirt_set_time et t))
      | _ => None
      end
  | LExit i =>
      match loc c !! i with
      | Some (Running, et) =>
          let '(s, del) := cleanup_shared_state (sh c) et in
          Some (Sys s (<[i:=(Exited (negb (holds_mutex (my (sh c) et))), et)]> (loc c)) (negb del))
      | _ => None
      end
  end.

Definition gstep (c : sys) (l : label) : option sys :=
  if alive c then gstep_alive c l else None.

Definition start (now : timeval) : sys := Sys (shared_init now) [] true.

Inductive reachable (now : timeval) : sys -> Prop :=
  | reachable_start : reachable now (start now)
  | reachable_step c l c' : reachable now c -> gstep c l = Some c' -> reachable now c'.

Fixpoint grun (c : sys) (ls : list label) : option sys :=
  match ls with
  | [] => Some c
  | l :: ls' => match gstep c l with Some c' => grun c' ls' | None => None end
  end.

Lemma grun_reachable now ls c c' : reachable now c -> grun c ls = Some c' -> reachable now c'.
Proof.
  revert c. induction ls as [|l ls IH]; intros c Hc; simpl; [by intros [= <-]|].
  destruct (gstep c l) as [c1|] eqn:E; [|done]. apply IH. by econstructor.
Qed.

(** ** Invariant *)

(** A process that has taken the event mutex and not posted it. *)
Definition owner (x : pc * VirtualGlobalEventTimer) : bool :=
  match x.1 with Running | Aborted | Exited true => true | _ => false end.

Fixpoint owners (l : list (pc * VirtualGlobalEventTimer)) : Z :=
  match l with [] => 0 | x :: l' => Z.b2z (owner x) + owners l' end.

Definition waiting_for (p : pc) : option timeval :=
  match p with
  | AtBarrier t | WantMutex t | Stealing t | WantBack t => Some t
  | _ => None
  end.

(** The slot of a process against its program counter. *)
Definition slot_ok (p : SharedProcessState) (x : pc * VirtualGlobalEventTimer) : Prop :=
  (holds_mutex p = true -> x.1 = Running /\ active p = true) /\
  (forall t, waiting_for x.1 = Some t -> next_time p = t) /\
  (match x.1 with Exited _ => True | _ => 0 < pid p end).

Definition inv (c : sys) : Prop :=
  length (procs (sh c)) = MAX_PROCS /\ num_procs (sh c) = length (loc c) /\
  (length (loc c) <= MAX_PROCS)%nat /\
  0 <= evt_mutex (sh c) /\ evt_mutex (sh c) + owners (loc c) = 1 /\ 0 <= barrier (sh c) /\
  forall i x, loc c !! i = Some x -> my_state x.2 = i /\ slot_ok (procs (sh c) !!! i) x.

(** No process that waits is due before the global time. *)
Definition timed (c : sys) : Prop :=
  forall i x, loc c !! i = Some x -> owner x = false -> live (procs (sh c) !!! i) = true ->
    tv_le (curr_time (sh c)) (next_time (procs (sh c) !!! i)).

(** ** Lemmas on the shared state *)

Lemma with_proc_eq s i f :
  (i < length (procs s))%nat -> procs (with_proc s i f) !!! i = f (procs s !!! i).
Proof. intros. by apply list_lookup_total_alter_eq. Qed.

Lemma with_proc_ne s i j f : i <> j -> procs (with_proc s i f) !!! j = procs s !!! j.
Proof. intros. by apply list_lookup_total_alter_ne. Qed.

Lemma post_barriers_eq n s : post_barriers n s = with_barrier s (barrier s + Z.of_nat n).
Proof.
  revert s. induction n as [|n IH]; intros s; simpl post_barriers.
  - destruct s. unfold with_barrier. simpl. f_equal. lia.
  - rewrite IH. unfold with_barrier. simpl. f_equal. lia.
Qed.

Lemma owners_insert l i x y :
  l !! i = Some x -> owners (<[i:=y]> l) = owners l - Z.b2z (owner x) + Z.b2z (owner y).
Proof.
  revert i. induction l as [|z l IH]; intros [|i]; simpl; try done.
  - intros [= ->]. lia.
  - intros H. rewrite (IH i H). lia.
Qed.

Lemma owners_app l k : owners (l ++ k) = owners l + owners k.
Proof. induction l as [|x l IH]; simpl; [lia|]. rewrite IH. lia. Qed.

Lemma owners_nonneg l : 0 <= owners l.
Proof. induction l as [|x l IH]; simpl; [lia|]. destruct (owner x); simpl; lia. Qed.

(** With at most one owner, two owners are the same process. *)
Lemma owners_unique l i j x y :
  owners l <= 1 -> l !! i = Some x -> l !! j = Some y ->
  owner x = true -> owner y = true -> i = j.
Proof.
  intros Hl Hi Hj Hx Hy. destruct (decide (i = j)) as [|Hne]; [done|]. exfalso.
  set (z := (Exited false, x.2) : pc * VirtualGlobalEventTimer).
  pose proof (owners_insert l i x z Hi) as H1.
  pose proof (owners_insert (<[i:=z]> l) j y z) as H2.
  rewrite list_lookup_insert_ne in H2 by done. specialize (H2 Hj).
  pose proof (owners_nonneg (<[j:=z]> (<[i:=z]> l))).
  rewrite Hx in H1. rewrite Hy in H2. simpl in *. lia.
Qed.

(** The loop finds the minimum of the live processes. *)
Lemma smallest_loop_spec ps i acc cnt :
  match (smallest_loop ps i acc cnt).2 with
  | None => acc = None /\ Forall (fun p => live p = false) ps
  | Some (k, t) =>
      (forall k0 t0, acc = Some (k0, t0) -> tv_le t t0) /\
      Forall (fun p => live p = true -> tv_le t (next_time p)) ps /\
      (acc = Some (k, t) \/
       exists j, k = (i + j)%nat /\ exists p, ps !! j = Some p /\ live p = true /\ next_time p = t)
  end.
Proof.
  revert i acc cnt. induction ps as [|p ps IH]; intros i acc cnt; simpl.
  - destruct acc as [[k t]|]; simpl; [|by split].
    split; [intros k0 t0 [= -> ->]; apply tv_le_refl|]. split; [constructor|by left].
  - destruct (live p) eqn:El.
    + set (acc' := match acc with None => _ | Some _ => _ end).
      specialize (IH (S i) acc' (S cnt)).
      assert (Ha : exists k1 t1, acc' = Some (k1, t1) /\ tv_le t1 (next_time p) /\
                (forall k0 t0, acc = Some (k0, t0) -> tv_le t1 t0) /\
                (acc = Some (k1, t1) \/ (k1 = i /\ t1 = next_time p))).
      { unfold acc'. destruct acc as [[k0 t0]|].
        - destruct (timercmp Z.ltb (next_time p) t0) eqn:E.
          + exists i, (next_time p). repeat split; auto using tv_le_refl.
            intros k1 t1 [= -> ->]. revert E. tv_solve; intros; lia.
          + apply timercmp_ltb in E. exists k0, t0. repeat split; auto.
            intros k1 t1 [= -> ->]. apply tv_le_refl.
        - exists i, (next_time p). repeat split; auto using tv_le_refl. done. }
      destruct Ha as (k1 & t1 & Ea & Hp & Hacc & Hk).
      destruct (smallest_loop ps (S i) acc' (S cnt)).2 as [[k t]|].
      * destruct IH as (H1 & H2 & H3). specialize (H1 _ _ Ea).
        split; [intros k0 t0 E; eapply tv_le_trans; [exact H1|by eapply Hacc]|].
        split; [constructor; [intros _; by eapply tv_le_trans|done]|].
        destruct H3 as [H3|(j & -> & q & Hq)].
        -- rewrite Ea in H3. injection H3 as -> ->. destruct Hk as [|[-> ->]]; [by left|].
           right. exists 0%nat. split; [lia|]. exists p. done.
        -- right. exists (S j). split; [lia|]. by exists q.
      * destruct IH as [IH _]. congruence.
    + specialize (IH (S i) acc cnt).
      destruct (smallest_loop ps (S i) acc cnt).2 as [[k t]|].
      * destruct IH as (H1 & H2 & H3). split; [done|].
        split; [constructor; [congruence|done]|].
        destruct H3 as [|(j & -> & q & Hq)]; [by left|]. right. exists (S j).
        split; [lia|]. by exists q.
      * destruct IH. split; [done|]. by constructor.
Qed.

Lemma find_smallest_min s cnt k t :
  find_smallest s = (cnt, Some (k, t)) -> (num_procs s <= length (procs s))%nat ->
  (k < num_procs s)%nat /\ live (procs s !!! k) = true /\ next_time (procs s !!! k) = t /\
  forall j, (j < num_procs s)%nat -> live (procs s !!! j) = true ->
    tv_le t (next_time (procs s !!! j)).
Proof.
  intros H Hn. pose proof (smallest_loop_spec (take (num_procs s) (procs s)) 0 None 0) as Hs.
  unfold find_smallest in H. rewrite H in Hs. simpl in Hs.
  destruct Hs as (_ & Hf & [?|(j & -> & p & Hp & Hl & Ht)]); [done|]. simpl.
  apply lookup_take_Some in Hp as [Hp Hj].
  rewrite (list_lookup_total_correct _ _ _ Hp). split; [done|]. split; [done|]. split; [done|].
  intros j' Hj' Hl'. rewrite Forall_lookup in Hf.
  destruct (lookup_lt_is_Some_2 (procs s) j') as [q Hq]; [lia|].
  rewrite (list_lookup_total_correct _ _ _ Hq) in *. apply (Hf j' q); [|done].
  apply lookup_take_Some. done.
Qed.

(** What a release may do to a slot of another process. *)
Definition slot_keep (p' p : SharedProcessState) : Prop :=
  next_time p' = next_time p /\ holds_mutex p' = holds_mutex p /\ pid p' = pid p /\
  (active p' = true -> active p = true).

Lemma slot_keep_refl p : slot_keep p p.
Proof. done. Qed.

Lemma set_active_keep p : slot_keep (set_active false p) p.
Proof. by repeat split. Qed.

Lemma slot_keep_live p' p : slot_keep p' p -> live p' = true -> live p = true.
Proof.
  unfold live. intros (_ & _ & -> & H). rewrite !andb_true_iff. intros [? ?]. auto.
Qed.

Lemma slot_keep_inactive p' p : slot_keep p' p -> active p = false -> active p' = false.
Proof. intros (_ & _ & _ & H) Ha. destruct (active p'); [|done]. rewrite H in Ha; done. Qed.

Lemma with_proc_keep s i f j :
  (forall p, slot_keep (f p) p) -> slot_keep (procs (with_proc s i f) !!! j) (procs s !!! j).
Proof.
  intros Hf. destruct (decide (i = j)) as [<-|]; [|by rewrite with_proc_ne].
  destruct (decide (i < length (procs s))%nat).
  - by rewrite with_proc_eq.
  - simpl. rewrite !list_lookup_total_alt, list_lookup_alter_eq.
    rewrite lookup_ge_None_2 by lia. apply slot_keep_refl.
Qed.

Lemma slot_keep_trans p q r : slot_keep p q -> slot_keep q r -> slot_keep p r.
Proof. unfold slot_keep. intros (?&?&?&?) (?&?&?&?). repeat split; try congruence. auto. Qed.

#[export] Hint Resolve slot_keep_refl set_active_keep with_proc_keep slot_keep_trans : libproc.

(** The effect of the release. *)
Lemma gvirt_release_spec s et na s' :
  let i := my_state et in
  (i < num_procs s)%nat -> (num_procs s <= length (procs s))%nat ->
  gvirt_release s et na = Some s' ->
  holds_mutex (procs s !!! i) = true /\
  evt_mutex s' = evt_mutex s + 1 /\ barrier s <= barrier s' /\ num_procs s' = num_procs s /\
  time_thief s' = time_thief s /\ length (procs s') = length (procs s) /\
  next_time (procs s' !!! i) = na /\ holds_mutex (procs s' !!! i) = false /\
  pid (procs s' !!! i) = pid (procs s !!! i) /\
  (forall j, j <> i -> slot_keep (procs s' !!! j) (procs s !!! j)) /\
  (if time_thief s =? 0
   then forall j, (j < num_procs s)%nat -> live (procs s' !!! j) = true ->
          tv_le (curr_time s') (next_time (procs s' !!! j))
   else curr_time s' = curr_time s) /\
  (time_thief s = 0 -> exists k, (k < num_procs s)%nat /\
     live (procs (with_proc s i (set_next na)) !!! k) = true /\
     next_time (procs (with_proc s i (set_next na)) !!! k) = curr_time s').
Proof.
  intros i Hi Hn. unfold gvirt_release, my. fold i.
  destruct (holds_mutex (procs s !!! i)) eqn:Hh; [change (negb true) with false; cbv iota|done].
  set (s1 := with_proc s i (set_next na)).
  assert (L1 : length (procs s1) = length (procs s)) by (simpl; apply length_alter).
  destruct (find_smallest s1) as [cnt [[k t]|]] eqn:Ef; [|done].
  destruct (find_smallest_min s1 cnt k t Ef) as (Hk & Hkl & Hkt & Hmin); [rewrite L1; exact Hn|].
  set (s2 := if time_thief s1 =? 0 then _ else s1).
  assert (E2 : evt_mutex s2 = evt_mutex s /\ barrier s <= barrier s2 /\ num_procs s2 = num_procs s /\
     time_thief s2 = time_thief s /\ length (procs s2) = length (procs s) /\
     curr_time s2 = (if time_thief s =? 0 then t else curr_time s) /\
     forall j, slot_keep (procs s2 !!! j) (procs s1 !!! j)).
  { unfold s2. change (time_thief s1) with (time_thief s). destruct (time_thief s =? 0).
    - rewrite post_barriers_eq. cbn [with_barrier with_proc evt_mutex barrier num_procs time_thief
        curr_time procs]. rewrite length_alter, L1. split_and!; try done; [simpl; lia|].
      intros j. apply (with_proc_keep s1 k (set_active false) j). auto with libproc.
    - split_and!; done || (simpl; lia). }
  destruct E2 as (M2 & B2 & N2 & T2 & L2 & C2 & K2).
  clearbody s2. cbv zeta. fold i.
  set (s3 := with_proc s2 i (set_thief false)).
  set (s4 := if negb (time_thief s3 =? 0) && _ then with_proc s3 i (set_thief true) else s3).
  assert (E4 : evt_mutex s4 = evt_mutex s2 /\ barrier s4 = barrier s2 /\ num_procs s4 = num_procs s2 /\
     time_thief s4 = time_thief s2 /\ length (procs s4) = length (procs s2) /\
     curr_time s4 = curr_time s2 /\ forall j, slot_keep (procs s4 !!! j) (procs s2 !!! j)).
  { assert (Ht : forall b p, slot_keep (set_thief b p) p) by done.
    assert (K3 : forall j, slot_keep (procs s3 !!! j) (procs s2 !!! j))
      by (intros j; apply with_proc_keep; apply Ht).
    assert (L3 : length (procs s3) = length (procs s2)) by apply length_alter.
    unfold s4. destruct (negb _ && _); split_and!; try done.
    - simpl. rewrite length_alter. exact L3.
    - intros j. eapply slot_keep_trans; [|apply K3]. apply with_proc_keep. apply Ht. }
  destruct E4 as (M4 & B4 & N4 & T4 & L4 & C4 & K4). clearbody s4.
  intros [= <-].
  set (s5 := with_proc s4 i (set_holds false)).
  assert (Hs5i : procs s5 !!! i = set_holds false (procs s4 !!! i)) by (apply with_proc_eq; lia).
  assert (Hs5 : forall j, j <> i -> procs s5 !!! j = procs s4 !!! j)
    by (intros; by apply with_proc_ne).
  assert (K41 : forall j, slot_keep (procs s4 !!! j) (procs s1 !!! j)) by eauto with libproc.
  assert (Hi1 : procs s1 !!! i = set_next na (procs s !!! i)) by (apply with_proc_eq; lia).
  change (procs (sem_post_mutex s5)) with (procs s5).
  change (curr_time (sem_post_mutex s5)) with (curr_time s4).
  assert (Hlen : length (procs s5) = length (procs s4)) by apply length_alter.
  split_and!; try done; try (simpl; lia); try congruence.
  - rewrite Hs5i. simpl. rewrite (proj1 (K41 i)), Hi1. done.
  - by rewrite Hs5i.
  - rewrite Hs5i. destruct (K41 i) as (_ & _ & Hp & _). simpl. by rewrite Hp, Hi1.
  - intros j Hj. rewrite Hs5 by done. rewrite <- (with_proc_ne s i j (set_next na)); auto.
  - destruct (time_thief s =? 0); [|congruence].
    intros j Hj Hl. rewrite C4, C2.
    assert (Hnx : next_time (procs s5 !!! j) = next_time (procs s4 !!! j) /\
                  live (procs s5 !!! j) = live (procs s4 !!! j)).
    { destruct (decide (j = i)) as [->|]; [by rewrite Hs5i|by rewrite Hs5]. }
    destruct Hnx as [-> Hl']. rewrite Hl' in Hl. rewrite (proj1 (K41 j)).
    apply Hmin; [done|]. exact (slot_keep_live _ _ (K41 j) Hl).
  - intros Ht. rewrite C4, C2, Ht. exists k. done.
Qed.

(** ** Preservation *)

(** The frame of a step of process [i]: every other slot is kept. *)
Definition framed (s s' : SharedState) (i : nat) : Prop :=
  length (procs s') = length (procs s) /\ num_procs s' = num_procs s /\
  forall j, j <> i -> slot_keep (procs s' !!! j) (procs s !!! j) /\
    ((j < num_procs s)%nat -> holds_mutex (procs s !!! j) = true ->
     procs s' !!! j = procs s !!! j).

Lemma framed_with_proc s i f : framed s (with_proc s i f) i.
Proof.
  split_and!; [apply length_alter|done|]. intros j Hj. rewrite with_proc_ne by done. done.
Qed.

Lemma framed_trans s1 s2 s3 i : framed s1 s2 i -> framed s2 s3 i -> framed s1 s3 i.
Proof.
  intros (L1 & N1 & K1) (L2 & N2 & K2). split_and!; [congruence|congruence|].
  intros j Hj. destruct (K1 j Hj) as [A1 B1]. destruct (K2 j Hj) as [A2 B2].
  split; [by eapply slot_keep_trans|]. intros Hn H.
  rewrite B2; [auto|congruence|]. by rewrite B1.
Qed.

Lemma framed_same s s' i :
  procs s' = procs s -> num_procs s' = num_procs s -> framed s s' i.
Proof. intros Hp Hn. unfold framed. rewrite Hp. done. Qed.

Lemma inv_set c i x s' y :
  inv c -> loc c !! i = Some x -> framed (sh c) s' i ->
  0 <= evt_mutex s' -> 0 <= barrier s' ->
  evt_mutex s' + Z.b2z (owner y) = evt_mutex (sh c) + Z.b2z (owner x) ->
  my_state y.2 = i -> slot_ok (procs s' !!! i) y ->
  inv (set_loc c s' i y).
Proof.
  intros (I1 & I2 & I3 & I4 & I5 & I6 & I7) Hx (L & N & K) Hm Hb Ho Hy Hs.
  unfold inv, set_loc. cbn [sh loc].
  rewrite (owners_insert _ _ _ y Hx), length_insert. split_and!; try congruence; try lia.
  intros j z Hz. apply list_lookup_insert_Some in Hz as [(<- & <- & _)|[Hne Hz]]; [done|].
  destruct (I7 j z Hz) as [Hj (S1 & S2 & S3)]. destruct (K j) as [(E1 & E2 & E3 & _) E4]; [done|].
  split; [done|]. split_and!; [|by rewrite E1|by rewrite E3].
  rewrite E2. intros H. rewrite E4; [auto| |done]. rewrite I2. by eapply lookup_lt_Some.
Qed.

Lemma timed_set c i s' y :
  timed c -> framed (sh c) s' i -> curr_time s' = curr_time (sh c) ->
  (owner y = false -> live (procs s' !!! i) = true -> tv_le (curr_time s') (next_time (procs s' !!! i))) ->
  timed (set_loc c s' i y).
Proof.
  intros Ht (L & N & K) Hc Hy j z Hz Ho Hl. unfold set_loc in *. cbn [sh loc] in *.
  apply list_lookup_insert_Some in Hz as [(<- & <- & _)|[Hne Hz]]; [auto|].
  destruct (K j) as [Hk _]; [done|]. rewrite (proj1 Hk), Hc. eapply Ht; eauto.
  by eapply slot_keep_live.
Qed.

Lemma inv_slot c i x :
  inv c -> loc c !! i = Some x ->
  (i < num_procs (sh c))%nat /\ (num_procs (sh c) <= length (procs (sh c)))%nat /\ my_state x.2 = i.
Proof.
  intros (I1 & I2 & I3 & _ & _ & _ & I7) Hx. pose proof (lookup_lt_Some _ _ _ Hx).
  destruct (I7 i x Hx). split_and!; [lia|lia|done].
Qed.

Lemma inv_mutex c i x :
  inv c -> loc c !! i = Some x -> owner x = true -> evt_mutex (sh c) = 0.
Proof.
  intros (_ & _ & _ & I4 & I5 & _ & _) Hx Ho.
  pose proof (owners_insert _ _ _ (Exited false, x.2) Hx) as H.
  pose proof (owners_nonneg (<[i:=(Exited false, x.2)]> (loc c))). rewrite Ho in H. simpl in *. lia.
Qed.

Lemma cleanup_frame s et : framed s (cleanup_shared_state s et).1 (my_state et).
Proof.
  unfold cleanup_shared_state. set (i := my_state et).
  destruct (holds_mutex _); simpl fst.
  - rewrite post_barriers_eq. cbv zeta.
    eapply framed_trans; [|apply framed_with_proc].
    eapply framed_trans; [|apply framed_same; reflexivity].
    eapply framed_trans; [|apply framed_with_proc].
    eapply framed_trans; [|apply framed_same; reflexivity].
    eapply framed_trans; [|apply framed_with_proc].
    eapply framed_trans; [apply (framed_with_proc s i (set_active false))|].
    apply framed_same; by destruct (_ && _).
  - eapply framed_trans; apply framed_with_proc.
Qed.

Lemma cleanup_slot s et :
  (my_state et < length (procs s))%nat ->
  let s' := (cleanup_shared_state s et).1 in
  let h := holds_mutex (my s et) in
  evt_mutex s' = (if h then evt_mutex s + 1 else evt_mutex s) /\ barrier s <= barrier s' /\
  curr_time s' = curr_time s /\
  holds_mutex (procs s' !!! my_state et) = false /\ live (procs s' !!! my_state et) = false.
Proof.
  intros Hi. unfold cleanup_shared_state. set (i := my_state et) in *.
  assert (H : holds_mutex (my (with_proc s i (set_active false)) et) = holds_mutex (my s et))
    by (unfold my; fold i; by rewrite with_proc_eq).
  cbv zeta. rewrite H. destruct (holds_mutex (my s et)) eqn:Hh; cbn [fst].
  - rewrite post_barriers_eq. cbv zeta.
    set (s2 := if (_ && _) then _ else _).
    assert (E : evt_mutex s2 = evt_mutex s /\ barrier s2 = barrier s /\ curr_time s2 = curr_time s /\
                length (procs s2) = length (procs s)).
    { unfold s2. destruct (_ && _); simpl; rewrite ?length_alter; done. }
    destruct E as (E1 & E2 & E3 & E4). clearbody s2.
    rewrite with_proc_eq by (simpl; rewrite ?length_alter; lia).
    split_and!; simpl; try lia; try done.
    rewrite list_lookup_total_alter_eq by (rewrite ?length_alter; lia). done.
  - rewrite with_proc_eq by (simpl; rewrite ?length_alter; lia).
    rewrite with_proc_eq by done. simpl. split_and!; try lia; done.
Qed.

Lemma set_pause_frame s et p :
  let s' := (et_gvirt_set_pause s et p).1 in
  procs s' = procs s /\ num_procs s' = num_procs s /\ evt_mutex s' = evt_mutex s /\
  barrier s' = barrier s /\ curr_time s' = curr_time s /\
  my_state (et_gvirt_set_pause s et p).2 = my_state et.
Proof. unfold et_gvirt_set_pause. repeat (case_match; simpl; try done). Qed.

Lemma inv_start now : inv (start now).
Proof. unfold inv. simpl. split_and!; try done; try lia. Qed.

Lemma timed_start now : timed (start now).
Proof. intros i x H. done. Qed.

(** The slot flag [holds_mutex] is set for an owner only. *)
Lemma holder_unique c j i x :
  inv c -> (j < num_procs (sh c))%nat -> holds_mutex (procs (sh c) !!! j) = true ->
  loc c !! i = Some x -> owner x = true -> j = i.
Proof.
  intros (_ & I2 & _ & I4 & I5 & _ & I7) Hj Hh Hx Ho. rewrite I2 in Hj.
  destruct (lookup_lt_is_Some_2 _ _ Hj) as [z Hz].
  destruct (I7 j z Hz) as [_ [S1 _]]. destruct (S1 Hh) as [Hr _].
  eapply (owners_unique (loc c)); eauto; [lia|]. unfold owner. by rewrite Hr.
Qed.

(** Joining. *)
Lemma join_step c p pm c' :
  inv c -> gstep c (LJoin p pm) = Some c' ->
  inv c' /\ curr_time (sh c') = curr_time (sh c) /\ (timed c -> timed c').
Proof.
  intros (I1 & I2 & I3 & I4 & I5 & I6 & I7). unfold gstep, gstep_alive. destruct (alive c); [|done].
  destruct (Z.ltb_spec 0 p) as [Hp|]; [|done]. unfold setup_shared_state, sem_wait_mutex.
  destruct (Z.ltb_spec 0 (evt_mutex (sh c))) as [Hm|]; [|done].
  cbn [num_procs procs with_mutex curr_time evt_mutex barrier time_thief].
  destruct (procs (sh c) !! num_procs (sh c)) as [old|] eqn:Eo; [|done]. intros [= <-].
  pose proof (lookup_lt_Some _ _ _ Eo) as Hn.
  pose proof (owners_nonneg (loc c)).
  set (np := SPS _ _ _ _ _).
  assert (Hlook : forall j, j <> num_procs (sh c) ->
            <[num_procs (sh c):=np]> (procs (sh c)) !!! j = procs (sh c) !!! j)
    by (intros; by apply list_lookup_total_insert_ne).
  split; [|split; [done|]].
  - unfold inv. cbn [sh loc procs num_procs evt_mutex barrier].
    rewrite length_insert, length_app, owners_app. simpl (owners [_]). cbn [length].
    split_and!; try lia. intros i x Hx. apply lookup_snoc_Some in Hx as [[Hi Hx]|[-> <-]].
    + rewrite Hlook by lia. by apply I7.
    + rewrite <- I2. rewrite list_lookup_total_insert_eq by done.
      split; [done|]. split_and!; by simpl.
  - intros Ht i x Hx Ho Hl. cbn [sh loc procs curr_time] in *.
    apply lookup_snoc_Some in Hx as [[Hi Hx]|[-> <-]]; [|done].
    rewrite Hlook in * by lia. by eapply Ht.
Qed.

(** The call to block. *)
Definition label_ok (c : sys) (l : label) : Prop :=
  match l with LBlock i na => tv_le (curr_time (sh c)) na | _ => True end.

(** The assertions of the release fail only when the flag is not set. *)
Lemma gvirt_release_None s et na :
  let i := my_state et in
  (i < num_procs s)%nat -> (num_procs s <= length (procs s))%nat ->
  active (procs s !!! i) = true -> 0 < pid (procs s !!! i) ->
  gvirt_release s et na = None -> holds_mutex (procs s !!! i) = false.
Proof.
  intros i Hi Hn Ha Hp. unfold gvirt_release, my. fold i.
  destruct (holds_mutex (procs s !!! i)); [|done].
  change (negb true) with false. cbv iota zeta.
  pose proof (smallest_loop_spec
    (take (num_procs s) (procs (with_proc s i (set_next na)))) 0 None 0) as Hs.
  unfold find_smallest. change (num_procs (with_proc s i (set_next na))) with (num_procs s).
  destruct (smallest_loop _ 0 None 0) as [cnt [[k t]|]]; [done|]. simpl in Hs.
  destruct Hs as [_ Hs]. exfalso. rewrite Forall_lookup in Hs.
  specialize (Hs i (set_next na (procs s !!! i))). 
  assert (Hl : live (set_next na (procs s !!! i)) = true).
  { unfold live. simpl. rewrite Ha. destruct (Z.ltb_spec 0 (pid (procs s !!! i))); [done|lia]. }
  rewrite Hs in Hl; [done|]. apply lookup_take_Some. split; [|done].
  rewrite list_lookup_alter_eq. destruct (lookup_lt_is_Some_2 (procs s) i) as [q Hq]; [lia|].
  by rewrite (list_lookup_total_correct _ _ _ Hq), Hq.
Qed.

Lemma block_step c i na c' :
  inv c -> gstep c (LBlock i na) = Some c' ->
  inv c' /\
  (timed c -> tv_le (curr_time (sh c)) na -> timed c' /\ tv_le (curr_time (sh c)) (curr_time (sh c'))).
Proof.
  intros Hinv. unfold gstep, gstep_alive. destruct (alive c); [|done]. destruct (loc c !! i) as [[[] et]|] eqn:Hx; try done.
  unfold ET_gvirt_block. destruct (_ || _); [|done].
  destruct (inv_slot c i _ Hinv Hx) as (Hi & Hn & Hmy). simpl in Hmy.
  pose proof (inv_mutex c i _ Hinv Hx eq_refl) as Hm.
  destruct (gvirt_release (sh c) et na) as [s|] eqn:Er.
  - intros Hc. assert (Hc' : set_loc c s i (if thief (my s et) then Stealing na else AtBarrier na, et) = c')
      by (destruct (thief (my s et)); congruence). subst c'. clear Hc.
    destruct (gvirt_release_spec (sh c) et na s) as
      (R1 & R2 & R3 & R4 & R5 & R6 & R7 & R8 & Rp & R9 & R10 & R11); [by rewrite Hmy|done|done|].
    rewrite Hmy in *.
    assert (Hf : framed (sh c) s i).
    { split_and!; try congruence. intros j Hj. split; [by apply R9|]. intros Hjn Hh. exfalso.
      apply Hj. by apply (holder_unique c j i _ Hinv Hjn Hh Hx). }
    set (y := (if thief (my s et) then Stealing na else AtBarrier na, et)).
    assert (Hy : owner y = false /\ waiting_for y.1 = Some na)
      by (unfold y; by destruct (thief (my s et))). destruct Hy as [Hy1 Hy2].
    assert (I6 : 0 <= barrier (sh c)) by apply Hinv.
    split.
    + apply (inv_set c i _ s y Hinv Hx Hf); try lia; [rewrite Hy1, R2; simpl; lia|done|].
      destruct Hinv as (_ & _ & _ & _ & _ & _ & I7). destruct (I7 i _ Hx) as [_ (_ & _ & I73)].
      split_and!; [by rewrite R8|intros t; rewrite Hy2, R7; by intros [= ->]|].
      unfold y. simpl. rewrite Rp. by destruct (thief (my s et)).
    + intros Ht Hna. unfold set_loc at 2. cbn [sh].
      destruct (Z.eqb_spec (time_thief (sh c)) 0) as [E0|E0].
      * split.
        -- intros j z Hz Ho Hl. apply R10; [|done]. apply lookup_lt_Some in Hz.
           unfold set_loc in Hz. simpl in Hz. rewrite length_insert in Hz.
           destruct Hinv as (_ & -> & _). done.
        -- destruct (R11 E0) as (k & Hk & Hkl & <-).
           destruct (decide (i = k)) as [<-|Hne]; [by rewrite with_proc_eq by lia|].
           rewrite with_proc_ne in * by done.
           destruct (lookup_lt_is_Some_2 (loc c) k) as [z Hz].
           { destruct Hinv as (_ & <- & _). done. }
           apply (Ht k z Hz); [|done]. destruct (owner z) eqn:Hoz; [|done].
           exfalso. apply Hne. eapply (owners_unique (loc c)); eauto. destruct Hinv as (?&?&?&?&?&?&?). lia.
      * split; [|rewrite R10; apply tv_le_refl].
        apply timed_set; try done. intros _ _. rewrite R10, R7. done.
  - intros [= <-]. assert (Hs : slot_ok (procs (sh c) !!! i) (Aborted, et)).
    { destruct (proj2 (proj2 (proj2 (proj2 (proj2 (proj2 Hinv))))) i _ Hx) as [_ (S1 & _ & S3)].
      split_and!; [|done|done]. intros Hh. destruct (S1 Hh) as [_ Ha]. exfalso.
      apply not_false_iff_true in Hh. apply Hh. rewrite <- Hmy.
      apply (gvirt_release_None (sh c) et na); rewrite ?Hmy; done. }
    assert (Hf : framed (sh c) (sh c) i) by (by apply framed_same).
    split; [|intros Ht _; split; [|apply tv_le_refl]].
    + apply (inv_set c i _ _ _ Hinv Hx); try done; apply Hinv.
    + by apply timed_set.
Qed.

(** A step that leaves the slots as they are and moves between two places
    where the same thing is waited for. *)
Lemma quiet_step c i x s y :
  inv c -> loc c !! i = Some x ->
  procs s = procs (sh c) -> num_procs s = num_procs (sh c) -> curr_time s = curr_time (sh c) ->
  0 <= evt_mutex s -> 0 <= barrier s ->
  evt_mutex s + Z.b2z (owner y) = evt_mutex (sh c) + Z.b2z (owner x) ->
  my_state y.2 = i -> slot_ok (procs (sh c) !!! i) y ->
  (owner y = false -> owner x = false) ->
  inv (set_loc c s i y) /\ (timed c -> timed (set_loc c s i y)).
Proof.
  intros Hinv Hx Hp Hn Hc Hm Hb Ho Hy Hs Hw.
  assert (Hf : framed (sh c) s i) by (by apply framed_same). split.
  - apply (inv_set c i x s y Hinv Hx Hf); try done. by rewrite Hp.
  - intros Ht. apply timed_set; try done. intros Hy' Hl. rewrite Hp, Hc in *. eapply Ht; eauto.
Qed.

Lemma inv_at c i x : inv c -> loc c !! i = Some x -> my_state x.2 = i /\ slot_ok (procs (sh c) !!! i) x.
Proof. intros (_ & _ & _ & _ & _ & _ & I7). apply I7. Qed.

Lemma check_slot s et na b s' et' :
  (my_state et < length (procs s))%nat -> gvirt_check s et na = Some (b, s', et') ->
  num_procs s' = num_procs s /\ barrier s' = barrier s /\ curr_time s' = curr_time s /\
  framed s s' (my_state et) /\ my_state et' = my_state et /\ vg_time et' = curr_time s /\
  (if b then tv_le na (curr_time s) /\ evt_mutex s' = evt_mutex s /\
        active (procs s' !!! my_state et) = true /\
        pid (procs s' !!! my_state et) = pid (procs s !!! my_state et)
   else evt_mutex s' = evt_mutex s + 1 /\ procs s' = procs s).
Proof.
  intros Hi. unfold gvirt_check. destruct (negb _); [done|].
  destruct (timercmp Z.gtb na (curr_time s)) eqn:E; intros [= <- <- <-].
  - split_and!; done || by apply framed_same.
  - split_and!; try done.
    + eapply framed_trans; apply framed_with_proc.
    + by apply timercmp_gtb.
    + rewrite with_proc_eq by (simpl; rewrite length_alter; done). by rewrite with_proc_eq.
    + rewrite with_proc_eq by (simpl; rewrite length_alter; done). by rewrite with_proc_eq.
Qed.

(** The assertion of line 319 cannot fail. *)
Lemma check_Some c i na et s :
  inv c -> loc c !! i = Some (WantMutex na, et) -> procs s = procs (sh c) ->
  gvirt_check s et na <> None.
Proof.
  intros Hinv Hx Hp. destruct (inv_at c i _ Hinv Hx) as [Hmy (_ & S2 & _)].
  simpl in Hmy, S2. unfold gvirt_check, my. rewrite Hp, Hmy, (S2 na eq_refl).
  replace (timercmp Z.eqb na na) with true; [by destruct (timercmp Z.gtb na (curr_time s))|].
  unfold timercmp. by rewrite !Z.eqb_refl.
Qed.

Lemma mutex_step c i c' :
  inv c -> gstep c (LMutex i) = Some c' ->
  inv c' /\ curr_time (sh c') = curr_time (sh c) /\ (timed c -> timed c').
Proof.
  intros Hinv. unfold gstep, gstep_alive. destruct (alive c); [|done]. destruct (loc c !! i) as [[p et]|] eqn:Hx; [|done].
  destruct (inv_slot c i _ Hinv Hx) as (Hi & Hn & Hmy). simpl in Hmy.
  destruct (inv_at c i _ Hinv Hx) as [_ Hs]. assert (Hb : 0 <= barrier (sh c)) by apply Hinv.
  unfold sem_wait_mutex. destruct (Z.ltb_spec 0 (evt_mutex (sh c))) as [Hm|]; [|by destruct p].
  destruct p; try done.
  - destruct (gvirt_check _ et nextAwake) as [[[b s'] et']|] eqn:Ec.
    2:{ exfalso. by eapply check_Some, Ec. }
    apply check_slot in Ec as (C1 & C2 & C3 & C4 & C5 & C6 & C7); [|simpl; lia].
    assert (Hf : framed (sh c) s' i).
    { rewrite Hmy in C4. eapply framed_trans; [|exact C4]. by apply framed_same. }
    rewrite Hmy in *. destruct Hs as (S1 & S2 & S3). destruct b; intros [= <-].
    + destruct C7 as (D1 & D2 & D3 & D4). split; [|split; [done|]].
      * apply (inv_set c i _ s' _ Hinv Hx Hf); simpl; simpl in D2, C2; try lia.
        split_and!; simpl; [by intros|done|]. simpl in D4. by rewrite D4.
      * intros Ht. by apply timed_set.
    + destruct C7 as (D1 & D2). simpl in D1, D2, C1, C2, C3. split; [|split; [done|]].
      * apply (inv_set c i _ s' _ Hinv Hx Hf); simpl; try lia. rewrite D2.
        split_and!; [intros Hh; by destruct (S1 Hh)|done|done].
      * intros Ht. apply timed_set; try done. intros _ Hl. rewrite C3, D2 in *. by eapply Ht.
  - intros [= <-]. simpl.
    destruct (quiet_step c i _ (with_mutex (sh c) (evt_mutex (sh c) - 1)) (Running, et) Hinv Hx)
      as [Q1 Q2]; simpl; try done; try lia.
    destruct Hs as (S1 & S2 & S3). split_and!; try done. intros Hh. by destruct (S1 Hh).
Qed.

Lemma exit_step c i c' :
  inv c -> gstep c (LExit i) = Some c' ->
  inv c' /\ curr_time (sh c') = curr_time (sh c) /\ (timed c -> timed c').
Proof.
  intros Hinv. unfold gstep, gstep_alive. destruct (alive c); [|done]. destruct (loc c !! i) as [[[] et]|] eqn:Hx; try done.
  destruct (inv_slot c i _ Hinv Hx) as (Hi & Hn & Hmy). simpl in Hmy.
  pose proof (inv_mutex c i _ Hinv Hx eq_refl) as Hm.
  assert (Hb : 0 <= barrier (sh c)) by apply Hinv.
  pose proof (cleanup_frame (sh c) et) as Hf.
  destruct (cleanup_slot (sh c) et) as (C1 & C2 & C3 & C4 & C5); [lia|]. rewrite Hmy in *.
  destruct (cleanup_shared_state (sh c) et) as [s' del]. simpl in Hf, C1, C2, C3, C4, C5.
  set (y := (Exited (negb (holds_mutex (my (sh c) et))), et)).
  intros [= <-]. split; [|split; [done|]].
  - apply (inv_set c i _ s' y Hinv Hx Hf); simpl; try lia;
      try (destruct (holds_mutex (my (sh c) et)); simpl; lia).
    split_and!; simpl; try done. congruence.
  - intros Ht. apply (timed_set c i s' y); try done. congruence.
Qed.

Lemma other_step c l c' :
  match l with LBarrier _ | LStolen _ | LPause _ _ | LSetTime _ _ => True | _ => False end ->
  inv c -> gstep c l = Some c' ->
  inv c' /\ curr_time (sh c') = curr_time (sh c) /\ (timed c -> timed c').
Proof.
  intros Hl Hinv. unfold gstep. destruct (alive c); [|done].
  assert (Hb : 0 <= barrier (sh c)) by apply Hinv.
  assert (Hm : 0 <= evt_mutex (sh c)) by apply Hinv.
  destruct l as [| |i| |i|i p|i t|]; try done; simpl; destruct (loc c !! i) as [[q et]|] eqn:Hx;
    try done; destruct (inv_at c i _ Hinv Hx) as [Hmy Hs].
  - unfold sem_wait_barrier. destruct (Z.ltb_spec 0 (barrier (sh c))); [|by destruct q].
    destruct q; try done. intros [= <-]. simpl.
    destruct (quiet_step c i _ (with_barrier (sh c) (barrier (sh c) - 1)) (WantMutex nextAwake, et) Hinv Hx)
      as [Q1 Q2]; simpl; try done; try lia.
    destruct Hs as (S1 & S2 & S3). split_and!; try done. intros Hh. by destruct (S1 Hh).
  - destruct q; try done. intros [= <-]. simpl.
    destruct (quiet_step c i _ (sh c) (WantBack nextAwake, et) Hinv Hx)
      as [Q1 Q2]; simpl; try done; try lia.
    destruct Hs as (S1 & S2 & S3). split_and!; try done. intros Hh. by destruct (S1 Hh).
  - destruct q; try done. pose proof (set_pause_frame (sh c) et p) as (P1 & P2 & P3 & P4 & P5 & P6).
    destruct (et_gvirt_set_pause (sh c) et p) as [s' et']. simpl in *. intros [= <-]. simpl.
    destruct (quiet_step c i _ s' (Running, et') Hinv Hx) as [Q1 Q2]; simpl; try done; try lia.
  - destruct q; try done. intros [= <-]. simpl.
    destruct (quiet_step c i _ (sh c) (Running, et_gvirt_set_time et t) Hinv Hx) as [Q1 Q2];
      simpl; try done; try lia.
Qed.

Lemma step_inv c l c' : inv c -> gstep c l = Some c' -> inv c'.
Proof.
  destruct l; intros Hi Hs;
    first [ by eapply join_step | by eapply block_step | by eapply mutex_step
          | by eapply exit_step | by eapply other_step; [|exact Hi|exact Hs] ].
Qed.

Lemma step_timed c l c' :
  inv c -> timed c -> label_ok c l -> gstep c l = Some c' ->
  timed c' /\ tv_le (curr_time (sh c)) (curr_time (sh c')).
Proof.
  intros Hi Ht Hl Hs. destruct l.
  2:{ destruct (block_step _ _ _ _ Hi Hs) as [_ H]. by apply H. }
  all: match type of Hs with
    | gstep _ (LJoin _ _) = _ => destruct (join_step _ _ _ _ Hi Hs) as (_ & E & H)
    | gstep _ (LMutex _) = _ => destruct (mutex_step _ _ _ Hi Hs) as (_ & E & H)
    | gstep _ (LExit _) = _ => destruct (exit_step _ _ _ Hi Hs) as (_ & E & H)
    | gstep _ ?l = _ => destruct (other_step c l c' I Hi Hs) as (_ & E & H)
    end; split; [by apply H|rewrite E; apply tv_le_refl].
Qed.

Lemma reachable_inv now c : reachable now c -> inv c.
Proof. induction 1 as [|c l c' _ IH Hs]; [apply inv_start|by eapply step_inv]. Qed.

(** ** Theorems *)

(** C30. Mutual exclusion.  In every reachable state the event mutex is 0 or 1,
    at most one process is in its event loop, the mutex is 0 while one is, and
    the assertion after the barrier cannot fail. *)
Theorem gvirt_mutual_exclusion now c :
  reachable now c ->
  (evt_mutex (sh c) = 0 \/ evt_mutex (sh c) = 1) /\
  (forall i j ei ej, loc c !! i = Some (Running, ei) -> loc c !! j = Some (Running, ej) -> i = j) /\
  (forall i e, loc c !! i = Some (Running, e) -> evt_mutex (sh c) = 0) /\
  (forall i na e s, loc c !! i = Some (WantMutex na, e) -> sem_wait_mutex (sh c) = Some s ->
     gvirt_check s e na <> None).
Proof.
  intros Hr. apply reachable_inv in Hr as Hinv.
  pose proof (owners_nonneg (loc c)) as Ho.
  assert (I4 : 0 <= evt_mutex (sh c)) by apply Hinv.
  assert (I5 : evt_mutex (sh c) + owners (loc c) = 1) by apply Hinv.
  split; [lia|]. split; [|split].
  - intros i j ei ej Hi Hj. eapply (owners_unique (loc c)); eauto. lia.
  - intros i e Hi. by eapply inv_mutex.
  - intros i na e s Hi Hs. eapply check_Some; [done|exact Hi|].
    unfold sem_wait_mutex in Hs. by destruct (0 <? evt_mutex (sh c)); [injection Hs as <-|].
Qed.

(** The runs in which no process asks to be woken before the global time. *)
Inductive timed_run (now : timeval) : sys -> Prop :=
  | timed_run_start : timed_run now (start now)
  | timed_run_step c l c' :
      timed_run now c -> label_ok c l -> gstep c l = Some c' -> timed_run now c'.

Lemma timed_run_inv now c : timed_run now c -> inv c /\ timed c.
Proof.
  induction 1 as [|c l c' _ [IH1 IH2] Hl Hs]; [split; [apply inv_start|apply timed_start]|].
  split; [by eapply step_inv|]. by eapply step_timed.
Qed.

(** Global time never runs backwards, no process that waits is due before
    it, and a process that is let into its loop has its clock set to the
    global time, which has reached its wake-up time, when every process asks
    for wake-ups that are not before the global time. *)
Theorem gvirt_time_monotone now c l c' :
  timed_run now c -> label_ok c l -> gstep c l = Some c' ->
  tv_le (curr_time (sh c)) (curr_time (sh c')) /\ timed c' /\
  (forall i na e e', l = LMutex i -> loc c !! i = Some (WantMutex na, e) ->
     loc c' !! i = Some (Running, e') ->
     vg_time e' = curr_time (sh c') /\ tv_le na (vg_time e')).
Proof.
  intros Hr Hl Hs. destruct (timed_run_inv now c Hr) as [Hinv Ht].
  destruct (step_timed c l c' Hinv Ht Hl Hs) as [H1 H2]. split; [done|]. split; [done|].
  intros i na e e' -> Hi Hi'. unfold gstep, gstep_alive, sem_wait_mutex in Hs.
  destruct (alive c); [|done]. rewrite Hi in Hs.
  destruct (inv_slot c i _ Hinv Hi) as (Hn & Hn' & Hmy). simpl in Hmy.
  destruct (0 <? evt_mutex (sh c)); [|done].
  pose proof (lookup_lt_Some _ _ _ Hi) as Hlt.
  destruct (gvirt_check _ e na) as [[[[] s'] e1]|] eqn:Ec; injection Hs as <-;
    unfold set_loc in Hi'; cbn [loc sh] in Hi'; rewrite list_lookup_insert_eq in Hi' by done;
    try done.
  injection Hi' as <-. apply check_slot in Ec as (_ & _ & E3 & _ & _ & E6 & E7 & _); [|simpl; lia].
  cbn [sh set_loc]. rewrite E6, E3. done.
Qed.

(** *** Runs in which nobody steals time *)

Definition no_steal (l : label) : Prop :=
  match l with LPause _ p => p <> VIRT_CLK_STOLEN | _ => True end.

Inductive honest_run (now : timeval) : sys -> Prop :=
  | honest_run_start : honest_run now (start now)
  | honest_run_step c l c' :
      honest_run now c -> no_steal l -> gstep c l = Some c' -> honest_run now c'.

Lemma honest_reachable now c : honest_run now c -> reachable now c.
Proof. induction 1; econstructor; eauto. Qed.

(** Only the process in the loop is marked active. *)
Definition lonely (c : sys) : Prop :=
  time_thief (sh c) = 0 /\
  forall i x, loc c !! i = Some x ->
    (x.1 = Running -> holds_mutex (procs (sh c) !!! i) = true) /\
    (x.1 <> Running -> active (procs (sh c) !!! i) = false) /\
    (match x.1 with Stealing _ | WantBack _ | Aborted => False | _ => True end).

(** If only one slot is live, the loop finds that one. *)
Lemma smallest_loop_one ps i k p acc cnt :
  (forall j q, ps !! j = Some q -> j <> k -> live q = false) ->
  ps !! k = Some p -> live p = true -> acc = None ->
  smallest_loop ps i acc cnt = (S cnt, Some ((i + k)%nat, next_time p)).
Proof.
  revert i k acc cnt. induction ps as [|q ps IH]; intros i k acc cnt Ho Hk Hl ->; [done|]. simpl.
  destruct k as [|k].
  - simpl in Hk. injection Hk as ->. rewrite Hl.
    assert (H0 : forall ps' j acc' c', (forall x, x ∈ ps' -> live x = false) ->
                 smallest_loop ps' j acc' c' = (c', acc')).
    { induction ps' as [|x ps' IH']; intros j acc' c' H; [done|]. simpl.
      rewrite (H x) by set_solver. apply IH'. set_solver. }
    rewrite H0; [by rewrite Nat.add_0_r|].
    intros x Hx. apply list_elem_of_lookup_1 in Hx as [j Hj]. by apply (Ho (S j) x).
  - rewrite (Ho 0%nat q) by done. rewrite (IH (S i) k None cnt); try done; [by rewrite Nat.add_succ_r|].
    intros j x Hj Hne. apply (Ho (S j) x); [done|lia].
Qed.

Lemma smallest_loop_none ps i acc cnt :
  (forall j q, ps !! j = Some q -> live q = false) -> smallest_loop ps i acc cnt = (cnt, acc).
Proof.
  revert i. induction ps as [|q ps IH]; intros i H; [done|]. simpl. rewrite (H 0%nat q) by done.
  apply IH. intros j x Hj. by apply (H (S j) x).
Qed.

Lemma not_active_not_live p : active p = false -> live p = false.
Proof. unfold live. intros ->. apply andb_false_r. Qed.

(** In a lonely state the slots of the others are not live. *)
Lemma lonely_others c i et j q :
  inv c -> lonely c -> loc c !! i = Some (Running, et) -> j <> i -> (j < num_procs (sh c))%nat ->
  procs (sh c) !! j = Some q -> live q = false.
Proof.
  intros Hinv [_ Hlo] Hx Hj Hn Hq.
  destruct (lookup_lt_is_Some_2 (loc c) j) as [z Hz].
  { destruct Hinv as (_ & <- & _). done. }
  apply not_active_not_live. rewrite <- (list_lookup_total_correct _ _ _ Hq).
  apply (proj1 (proj2 (Hlo j z Hz))). intros Hr. apply Hj.
  assert (owners (loc c) <= 1) by (destruct Hinv as (?&?&?&?&?&?&?); lia).
  eapply (owners_unique (loc c)); eauto. unfold owner. by rewrite Hr.
Qed.

Lemma lonely_smallest c i et na :
  inv c -> lonely c -> loc c !! i = Some (Running, et) ->
  find_smallest (with_proc (sh c) i (set_next na)) = (1%nat, Some (i, na)).
Proof.
  intros Hinv Hlo Hx. destruct (inv_slot c i _ Hinv Hx) as (Hi & Hn & Hmy).
  destruct (inv_at c i _ Hinv Hx) as [_ (S1 & _ & S3)].
  destruct (S1 (proj1 (proj2 Hlo i _ Hx) eq_refl)) as [_ Ha].
  destruct (lookup_lt_is_Some_2 (procs (sh c)) i) as [p Hp]; [lia|].
  rewrite (list_lookup_total_correct _ _ _ Hp) in *.
  unfold find_smallest. rewrite (smallest_loop_one _ 0 i (set_next na p)); try done.
  - intros j q Hq Hne. apply lookup_take_Some in Hq as [Hq Hj]. simpl in Hq.
    rewrite list_lookup_alter_ne in Hq by done. by eapply lonely_others.
  - apply lookup_take_Some. split; [|done]. simpl. rewrite list_lookup_alter_eq, Hp. done.
  - unfold live. simpl. rewrite Ha. simpl in S3. by destruct (Z.ltb_spec 0 (pid p)); [|lia].
Qed.

Lemma lonely_release c i et na s :
  inv c -> lonely c -> loc c !! i = Some (Running, et) -> gvirt_release (sh c) et na = Some s ->
  curr_time s = na /\ barrier s = barrier (sh c) + 1 /\ thief (my s et) = false /\
  active (procs s !!! i) = false /\ time_thief s = 0.
Proof.
  intros Hinv Hlo Hx Hr. destruct (inv_slot c i _ Hinv Hx) as (Hi & Hn & Hmy). simpl in Hmy.
  pose proof (lonely_smallest c i et na Hinv Hlo Hx) as Hs.
  destruct Hlo as [Ht0 _]. revert Hr. unfold gvirt_release. rewrite Hmy, Hs.
  destruct (negb _); [done|]. rewrite post_barriers_eq.
  change (time_thief (with_proc (sh c) i (set_next na))) with (time_thief (sh c)).
  rewrite Ht0. cbn [Z.eqb with_proc with_barrier time_thief]. rewrite ?Ht0.
  cbn [Z.eqb negb andb]. intros [= <-]. unfold my. rewrite Hmy.
  simpl. rewrite !list_lookup_total_alter_eq by (rewrite ?length_alter; lia). done.
Qed.

Lemma lonely_cleanup c i et :
  inv c -> lonely c -> loc c !! i = Some (Running, et) ->
  let r := cleanup_shared_state (sh c) et in
  r.2 = true /\ barrier r.1 = barrier (sh c) /\ time_thief r.1 = 0 /\
  active (procs r.1 !!! i) = false.
Proof.
  intros Hinv Hlo Hx. destruct (inv_slot c i _ Hinv Hx) as (Hi & Hn & Hmy). simpl in Hmy.
  pose proof (proj1 (proj2 Hlo i _ Hx) eq_refl) as Hh. pose proof (proj1 Hlo) as Ht0.
  unfold cleanup_shared_state. rewrite Hmy. cbv zeta.
  assert (H : holds_mutex (my (with_proc (sh c) i (set_active false)) et) = true)
    by (unfold my; rewrite Hmy, with_proc_eq by lia; done).
  rewrite H. change (time_thief (with_proc (sh c) i (set_active false))) with (time_thief (sh c)).
  rewrite Ht0, andb_false_r.
  set (s3 := with_proc (with_proc (sh c) i (set_active false)) i (set_pid 0)).
  assert (Hs : find_smallest s3 = (0%nat, None)).
  { unfold find_smallest. apply smallest_loop_none. intros j q Hq.
    apply lookup_take_Some in Hq as [Hq Hj]. destruct (decide (j = i)) as [->|Hne].
    - apply list_lookup_total_correct in Hq. unfold s3 in Hq.
      rewrite with_proc_eq in Hq by (simpl; rewrite length_alter; lia). by subst q.
    - simpl in Hq. rewrite !list_lookup_alter_ne in Hq by done. by eapply lonely_others. }
  rewrite Hs. simpl. split_and!; try done.
  rewrite !list_lookup_total_alter_eq by (rewrite ?length_alter; lia). done.
Qed.

(** Steps of a lonely system stay lonely. *)
Lemma lonely_set c i s y :
  lonely c -> framed (sh c) s i -> time_thief s = 0 ->
  (y.1 = Running -> holds_mutex (procs s !!! i) = true) ->
  (y.1 <> Running -> active (procs s !!! i) = false) ->
  (match y.1 with Stealing _ | WantBack _ | Aborted => False | _ => True end) ->
  lonely (set_loc c s i y).
Proof.
  intros [Ht0 Hlo] (_ & _ & Hf) Ht H1 H2 H3. split; [done|].
  intros j z Hz. unfold set_loc in *. cbn [sh loc] in *.
  apply list_lookup_insert_Some in Hz as [(<- & <- & _)|[Hne Hz]]; [done|].
  destruct (Hlo j z Hz) as (L1 & L2 & L3). destruct (Hf j) as [K _]; [done|].
  split_and!; [|intros Hr; eapply slot_keep_inactive; eauto|done].
  destruct K as (_ & E & _). by rewrite E.
Qed.

Lemma lonely_join c p pm c' : inv c -> lonely c -> gstep c (LJoin p pm) = Some c' -> lonely c'.
Proof.
  intros (I1 & I2 & _) [Ht0 Hlo]. unfold gstep, gstep_alive. destruct (alive c); [|done]. destruct (0 <? p); [|done].
  unfold setup_shared_state, sem_wait_mutex. destruct (0 <? evt_mutex (sh c)); [|done].
  cbn [num_procs procs with_mutex curr_time evt_mutex barrier time_thief].
  destruct (procs (sh c) !! num_procs (sh c)) as [old|] eqn:Eo; [|done]. intros [= <-].
  pose proof (lookup_lt_Some _ _ _ Eo) as Hn. split; [done|].
  intros i x Hx. cbn [sh loc procs] in *. apply lookup_snoc_Some in Hx as [[Hi Hx]|[-> <-]].
  - rewrite list_lookup_total_insert_ne by lia. by apply Hlo.
  - rewrite <- I2, list_lookup_total_insert_eq by done. by split_and!.
Qed.

Lemma lonely_block c i na c' : inv c -> lonely c -> gstep c (LBlock i na) = Some c' -> lonely c'.
Proof.
  intros Hinv Hlo. unfold gstep, gstep_alive. destruct (alive c); [|done]. destruct (loc c !! i) as [[[] et]|] eqn:Hx; try done.
  unfold ET_gvirt_block. destruct (_ || _); [|done].
  destruct (inv_slot c i _ Hinv Hx) as (Hi & Hn & Hmy). simpl in Hmy.
  destruct (inv_at c i _ Hinv Hx) as [_ (S1 & _ & S3)].
  pose proof (proj1 (proj2 Hlo i _ Hx) eq_refl) as Hh. destruct (S1 Hh) as [_ Ha].
  destruct (gvirt_release (sh c) et na) as [s|] eqn:Er.
  - destruct (lonely_release c i et na s Hinv Hlo Hx Er) as (_ & _ & Hth & Hac & Ht).
    destruct (gvirt_release_spec (sh c) et na s) as (_ & _ & _ & R4 & _ & R6 & _ & _ & _ & R9 & _);
      [by rewrite Hmy|done|done|]. rewrite Hmy in *.
    rewrite Hth. intros Hc'. injection Hc' as <-. apply lonely_set; try done.
    split_and!; [done|done|]. intros j Hj. split; [by apply R9|]. intros Hjn Hj'. exfalso. apply Hj.
    by apply (holder_unique c j i _ Hinv Hjn Hj' Hx).
  - exfalso. apply not_false_iff_true in Hh. apply Hh. rewrite <- Hmy.
    apply (gvirt_release_None (sh c) et na); rewrite ?Hmy; done.
Qed.

Lemma lonely_mutex c i c' : inv c -> lonely c -> gstep c (LMutex i) = Some c' -> lonely c'.
Proof.
  intros Hinv Hlo. unfold gstep, gstep_alive. destruct (alive c); [|done]. destruct (loc c !! i) as [[p et]|] eqn:Hx; [|done].
  destruct (inv_slot c i _ Hinv Hx) as (Hi & Hn & Hmy). simpl in Hmy.
  destruct (proj2 Hlo i _ Hx) as (L1 & L2 & L3).
  unfold sem_wait_mutex. destruct (0 <? evt_mutex (sh c)); [|by destruct p].
  destruct p; try done. unfold gvirt_check. destruct (negb _) eqn:En.
  { exfalso. eapply (check_Some c i nextAwake et (sh c)); eauto. unfold gvirt_check.
    unfold my in *. simpl in En. by rewrite En. }
  destruct (timercmp Z.gtb _ _); intros Hc; injection Hc as <-; rewrite ?Hmy.
  - apply lonely_set; try done; try exact (proj1 Hlo). intros _. by apply L2.
  - apply lonely_set; try done; try exact (proj1 Hlo).
    + eapply framed_trans; [|apply framed_with_proc].
      eapply framed_trans; [|apply framed_with_proc]. by apply framed_same.
    + intros _. rewrite with_proc_eq by (simpl; rewrite length_alter; lia). done.
Qed.

Lemma lonely_step c l c' : inv c -> lonely c -> no_steal l -> gstep c l = Some c' -> lonely c'.
Proof.
  intros Hinv Hlo Hl Hs.
  destruct (alive c) eqn:Hal; [|unfold gstep in Hs; by rewrite Hal in Hs].
  destruct l as [p pm|i na|i|i|i|i p|i t|i];
    [by eapply lonely_join|by eapply lonely_block| |by eapply lonely_mutex|..];
    unfold gstep in Hs; rewrite Hal in Hs; simpl in Hs;
    destruct (loc c !! i) as [[q et]|] eqn:Hx; try done;
    destruct (proj2 Hlo i _ Hx) as (L1 & L2 & L3); pose proof (proj1 Hlo) as Ht0.
  - unfold sem_wait_barrier in Hs. destruct (0 <? barrier (sh c)); [|by destruct q].
    destruct q; try done. injection Hs as <-.
    apply lonely_set; try done. intros _. by apply L2.
  - by destruct q.
  - destruct q; try done. unfold et_gvirt_set_pause in Hs.
    rewrite (proj2 (Z.eqb_neq _ _) Hl), Ht0 in Hs. cbn [Z.eqb negb andb] in Hs.
    destruct (negb _); injection Hs as <-; by apply lonely_set.
  - destruct q; try done. injection Hs as <-. by apply lonely_set.
  - destruct q; try done.
    destruct (lonely_cleanup c i et Hinv Hlo Hx) as (_ & _ & C3 & C4).
    destruct (inv_slot c i _ Hinv Hx) as (_ & _ & Hmy). simpl in Hmy.
    pose proof (cleanup_frame (sh c) et) as Hf. rewrite Hmy in Hf.
    destruct (cleanup_shared_state (sh c) et) as [s del]. injection Hs as <-.
    by apply (lonely_set c i s (Exited (negb (holds_mutex (my (sh c) et))), et)).
Qed.

Lemma honest_lonely now c : honest_run now c -> inv c /\ lonely c.
Proof.
  induction 1 as [|c l c' Hr [IH1 IH2] Hl Hs]; [split; [apply inv_start|by split]|].
  split; [by eapply step_inv|by eapply lonely_step].
Qed.

(** While nobody steals time every process but the one in its loop is
    marked inactive, so the search for the smallest wake-up time sees only the
    caller: a release posts the barrier exactly once and moves the global time
    to the caller's own wake-up, whatever earlier time another process waits
    for, and a process that leaves removes the semaphores and the state file
    of the others. *)
Theorem gvirt_no_global_order now c i et na :
  honest_run now c -> loc c !! i = Some (Running, et) ->
  (exists s, gvirt_release (sh c) et na = Some s /\ curr_time s = na /\
     barrier s = barrier (sh c) + 1) /\
  (cleanup_shared_state (sh c) et).2 = true.
Proof.
  intros Hr Hx. destruct (honest_lonely now c Hr) as [Hinv Hlo]. split.
  - destruct (inv_slot c i _ Hinv Hx) as (Hi & Hn & Hmy). simpl in Hmy.
    destruct (gvirt_release (sh c) et na) as [s|] eqn:Er.
    + exists s. destruct (lonely_release c i et na s Hinv Hlo Hx Er) as (? & ? & _). done.
    + destruct (inv_at c i _ Hinv Hx) as [_ (S1 & _ & S3)].
      pose proof (proj1 (proj2 Hlo i _ Hx) eq_refl) as Hh. destruct (S1 Hh) as [_ Ha].
      exfalso. apply not_false_iff_true in Hh. apply Hh. rewrite <- Hmy.
      apply (gvirt_release_None (sh c) et na); rewrite ?Hmy; done.
  - by apply (lonely_cleanup c i et Hinv Hlo Hx).
Qed.

(** ** Witnesses and traces *)

Lemma grun_honest now ls c c' :
  honest_run now c -> Forall no_steal ls -> grun c ls = Some c' -> honest_run now c'.
Proof.
  revert c. induction ls as [|l ls IH]; intros c Hc Hf; simpl; [by intros [= <-]|].
  apply Forall_cons_1 in Hf as [Hl Hf]. destruct (gstep c l) as [c1|] eqn:E; [|done].
  apply IH; [by econstructor|done].
Qed.

Definition the (o : option sys) : sys := default (start (TV 0 0)) o.

(** The first process waits for 10 s when the second, which joined later, is in
    its loop. *)
Definition late_trace : list label :=
  [LJoin 101 0; LBlock 0 (TV 10 0); LJoin 102 0].

Definition late_state : sys := the (grun (start (TV 5 0)) late_trace).

Lemma late_honest : honest_run (TV 5 0) late_state.
Proof.
  apply (grun_honest _ late_trace (start (TV 5 0))); [constructor| |vm_compute; reflexivity].
  repeat constructor.
Qed.

Definition late_timer : VirtualGlobalEventTimer := VGET (TV 0 0) 1 0.

(** The second process jumps to 30 s over the 10 s the first waits for. *)
Lemma gvirt_no_global_order_witness :
  exists et0, loc late_state !! 0%nat = Some (AtBarrier (TV 10 0), et0) /\
  exists s, gvirt_release (sh late_state) late_timer (TV 30 0) = Some s /\ curr_time s = TV 30 0.
Proof.
  destruct (gvirt_no_global_order (TV 5 0) late_state 1 late_timer (TV 30 0) late_honest eq_refl)
    as [(s & H1 & H2 & _) _].
  eexists. split; [reflexivity|]. exists s. split; [exact H1|exact H2].
Defined.

Lemma gvirt_mutual_exclusion_witness :
  loc late_state !! 1%nat = Some (Running, late_timer) /\ evt_mutex (sh late_state) = 0.
Proof.
  split; [reflexivity|].
  destruct (gvirt_mutual_exclusion (TV 5 0) late_state) as (_ & _ & H & _).
  - apply honest_reachable, late_honest.
  - apply (H 1%nat late_timer). reflexivity.
Defined.

Lemma gvirt_time_monotone_witness :
  exists c', gstep (start (TV 5 0)) (LJoin 101 0) = Some c' /\
    tv_le (curr_time (sh (start (TV 5 0)))) (curr_time (sh c')).
Proof.
  eexists. split; [reflexivity|].
  refine (proj1 (gvirt_time_monotone (TV 5 0) (start (TV 5 0)) (LJoin 101 0) _ _ _ _)).
  - constructor.
  - exact I.
  - reflexivity.
Defined.

(** A process that steals time is let back into its loop with the event
    mutex but without the [holds_mutex] mark: its requests to give the time
    back are ignored, and its next call to block fails the first assertion
    while it still keeps the mutex. *)
Theorem gvirt_thief_aborts :
  exists c, grun (start (TV 5 0))
      [LJoin 101 0; LPause 0 VIRT_CLK_STOLEN; LBlock 0 (TV 10 0); LStolen 0; LMutex 0;
       LPause 0 VIRT_CLK_ACTIVE] = Some c /\
    time_thief (sh c) = 101 /\
    (exists et, loc c !! 0%nat = Some (Running, et) /\
       ET_gvirt_block (sh c) et (Some (TV 20 0)) false = AssertFails) /\
    evt_mutex (sh c) = 0.
Proof. eexists. split; [vm_compute; reflexivity|]. vm_compute. eauto. Qed.

(** [n] processes join one after the other. *)
Definition crowd (n : nat) : list label :=
  concat ((fun i => [LJoin (101 + Z.of_nat i) 0; LBlock i (TV 10 0)]) <$> seq 0 n).

(** The slot index of a process that joins is not checked: after
    [MAX_PROCS] processes the next one writes past the array of slots. *)
Theorem gvirt_slots_overflow :
  exists c, grun (start (TV 5 0)) (crowd MAX_PROCS) = Some c /\ alive c = true /\
    setup_shared_state 400 (TV 0 0) VIRT_CLK_ACTIVE (Some (sh c)) = OutOfBounds.
Proof. eexists. split; [vm_compute; reflexivity|]. split; vm_compute; reflexivity. Qed.
