(* ===== verification/Sched.v ===== *)
(** * Timed events (the schedule of events.c)

    The scheduled callbacks of an event handler: the heap of [ScheduleCB]
    objects, the two priority queues that hold them (event-timer time and, for
    the debugger's own events, the kernel's monotonic time), and the
    operations that add, remove and move them.  The heap is the caller memory
    of the priority queues: the instance of [PQElem] below is the callbacks
    [get_pri], [set_pri], [get_pos], [set_pos] of events.c. *)

From stdpp Require Import base gmap list numbers sorting.
From Stdlib Require Import ZArith Lia.
From S2P Require Import Prelude PriorityQueue.
Open Scope Z_scope.

(** ** Data *)

Definition EVENT_REMOVE : Z := 2.
Definition EVENT_KEEP : Z := 1.

(** Which queue an event belongs to: [ctx->queue] or [ctx->dbg_queue]. *)
Inductive which := Main | Dbg.

#[export] Instance which_eq_dec : EqDecision which.
Proof. solve_decision. Defined.

(** [ScheduleCB]; callbacks and arguments are addresses; [pos] is [None] for
    [SIZE_MAX].  The name is not modelled. *)
Record ScheduleCB := SCB {
  scheduleTime : timeval;
  nextAwake : timeval;
  callback : Z;
  arg : Z;
  pos : option nat;
  timeStep : timeval;
  evt_queue : which;
  count : Z;
  breakpoint : bool;
  critical : bool;
  inCallback : Z
}.

#[export] Instance ScheduleCB_eq_dec : EqDecision ScheduleCB.
Proof. solve_decision. Defined.

Definition with_times (e : ScheduleCB) (st na : timeval) : ScheduleCB :=
  SCB st na (callback e) (arg e) (pos e) (timeStep e) (evt_queue e) (count e)
    (breakpoint e) (critical e) (inCallback e).
Definition with_pos (e : ScheduleCB) (v : option nat) : ScheduleCB :=
  SCB (scheduleTime e) (nextAwake e) (callback e) (arg e) v (timeStep e) (evt_queue e) (count e)
    (breakpoint e) (critical e) (inCallback e).
Definition with_step (e : ScheduleCB) (v : timeval) : ScheduleCB :=
  SCB (scheduleTime e) (nextAwake e) (callback e) (arg e) (pos e) v (evt_queue e) (count e)
    (breakpoint e) (critical e) (inCallback e).
Definition with_queue (e : ScheduleCB) (v : which) : ScheduleCB :=
  SCB (scheduleTime e) (nextAwake e) (callback e) (arg e) (pos e) (timeStep e) v (count e)
    (breakpoint e) (critical e) (inCallback e).
Definition with_count (e : ScheduleCB) (v : Z) : ScheduleCB :=
  SCB (scheduleTime e) (nextAwake e) (callback e) (arg e) (pos e) (timeStep e) (evt_queue e) v
    (breakpoint e) (critical e) (inCallback e).
Definition with_breakpoint (e : ScheduleCB) (v : bool) : ScheduleCB :=
  SCB (scheduleTime e) (nextAwake e) (callback e) (arg e) (pos e) (timeStep e) (evt_queue e) (count e)
    v (critical e) (inCallback e).
Definition with_critical (e : ScheduleCB) (v : bool) : ScheduleCB :=
  SCB (scheduleTime e) (nextAwake e) (callback e) (arg e) (pos e) (timeStep e) (evt_queue e) (count e)
    (breakpoint e) v (inCallback e).
Definition with_inCallback (e : ScheduleCB) (v : Z) : ScheduleCB :=
  SCB (scheduleTime e) (nextAwake e) (callback e) (arg e) (pos e) (timeStep e) (evt_queue e) (count e)
    (breakpoint e) (critical e) v.

(** ** The queue callbacks of events.c *)

Abbreviation sched_mem := (gmap ptr ScheduleCB).

Definition cmp_pri (next curr : timeval) : bool := timercmp Z.geb next curr.

Definition get_pri (m : sched_mem) (a : ptr) : timeval :=
  match m !! a with Some e => nextAwake e | None => TV 0 0 end.

Definition set_pri (m : sched_mem) (a : ptr) (pri : timeval) : sched_mem :=
  alter (fun e => with_times e (scheduleTime e) pri) a m.

Definition get_pos (m : sched_mem) (a : ptr) : nat :=
  match m !! a with Some e => default 0%nat (pos e) | None => 0%nat end.

Definition set_pos (m : sched_mem) (a : ptr) (n : nat) : sched_mem :=
  alter (fun e => with_pos e (Some n)) a m.

#[export] Instance sched_elem : PQElem sched_mem.
Proof.
  refine {| getpri := get_pri; setpri := set_pri; getpos := get_pos; setpos := set_pos;
            live := fun m p => is_Some (m !! p) |}.
  - intros m p n x. unfold get_pri, set_pos. rewrite lookup_alter.
    case_decide; [subst|done]. by destruct (m !! x).
  - intros m p t x. unfold get_pos, set_pri. rewrite lookup_alter.
    case_decide; [subst|done]. by destruct (m !! x).
  - intros m p n x Hne. unfold get_pos, set_pos. by rewrite lookup_alter_ne.
  - intros m p n x. unfold set_pos. by rewrite lookup_alter_is_Some.
  - intros m p t x. unfold set_pri. by rewrite lookup_alter_is_Some.
Defined.

#[export] Instance sched_pqpos : PQPos sched_mem.
Proof.
  split.
  - intros m p t x [e He]. simpl. unfold get_pri, set_pri. rewrite lookup_alter.
    repeat case_decide; try done; subst; by rewrite He.
  - intros m p n x [e He]. simpl. unfold get_pos, set_pos. rewrite lookup_alter.
    repeat case_decide; try done; subst; by rewrite He.
Qed.

#[export] Instance cmp_pri_spec : CmpSpec cmp_pri := geb_cmp.

(** ** The schedule of a handler *)

Record sched := Sched {
  heap : sched_mem;
  queue : ps_pqueue_t;
  dbg_queue : ps_pqueue_t;
  critical_sched_count : Z;
  next_timed_event : option ptr;
  null_evt : ptr
}.

Definition with_heap (s : sched) (m : sched_mem) : sched :=
  Sched m (queue s) (dbg_queue s) (critical_sched_count s) (next_timed_event s) (null_evt s).
Definition with_crit (s : sched) (v : Z) : sched :=
  Sched (heap s) (queue s) (dbg_queue s) v (next_timed_event s) (null_evt s).
Definition with_next (s : sched) (v : option ptr) : sched :=
  Sched (heap s) (queue s) (dbg_queue s) (critical_sched_count s) v (null_evt s).
Definition get_queue (s : sched) (w : which) : ps_pqueue_t :=
  match w with Main => queue s | Dbg => dbg_queue s end.
Definition put_queue (s : sched) (w : which) (m : sched_mem) (q : ps_pqueue_t) : sched :=
  match w with
  | Main => Sched m q (dbg_queue s) (critical_sched_count s) (next_timed_event s) (null_evt s)
  | Dbg => Sched m (queue s) q (critical_sched_count s) (next_timed_event s) (null_evt s)
  end.

(** The schedule part of [EVT_initWithSize]; [null] is the address of the
    embedded null event. *)
Definition sched_init (hashSize : nat) (ok_q ok_d ok_dq ok_dd : bool) (null : ptr) : option sched :=
  match ps_pqueue_init ok_q ok_d hashSize with
  | None => None
  | Some q =>
      match ps_pqueue_init ok_dq ok_dd hashSize with
      | None => None
      | Some dq =>
          Some (Sched {[null := SCB (TV 0 0) (TV 0 0) 0 0 (Some 0%nat) (TV 0 0) Main 0 false false 0]}
                  q dq 0 None null)
      end
  end.

(** ** Operations

    [now] is the reading of the handler's timer, [mono] that of
    [ET_default_monotonic]; [malloc] is the block malloc returned.  An event
    identifier that is not NULL must be live: [None] stands for NULL, and an
    identifier that is not in the heap is left alone. *)

Definition queue_insert (s : sched) (w : which) (realloc_ok : bool) (p : ptr) : Z * sched :=
  match ps_pqueue_insert cmp_pri realloc_ok (heap s) (Some (get_queue s w)) p with
  | (r, m, Some q) => (r, put_queue s w m q)
  | (r, m, None) => (r, with_heap s m)
  end.

Definition EVT_sched_add_with_timestep (s : sched) (now time timestep : timeval) (cb a : Z)
    (malloc : option ptr) (realloc_ok : bool) : option ptr * sched :=
  match malloc with
  | None => (None, s)
  | Some p =>
      let e := SCB now (timeradd now time) cb a (Some 0%nat) timestep Main 0 false true 0 in
      let '(r, s1) := queue_insert (with_heap s (<[p:=e]> (heap s))) Main realloc_ok p in
      if 0 =? r then (Some p, with_crit s1 (critical_sched_count s1 + 1))
      else (None, with_heap s1 (delete p (heap s1)))
  end.

Definition EVT_sched_add (s : sched) (now time : timeval) (cb a : Z)
    (malloc : option ptr) (realloc_ok : bool) : option ptr * sched :=
  match malloc with
  | None => (None, s)
  | Some p =>
      let e := SCB now (timeradd now time) cb a (Some 0%nat) time Main 0 false true 0 in
      let '(r, s1) := queue_insert (with_heap s (<[p:=e]> (heap s))) Main realloc_ok p in
      if 0 =? r then (Some p, with_crit s1 (critical_sched_count s1 + 1))
      else (None, with_heap s1 (delete p (heap s1)))
  end.

Definition EVT_sched_set_critical (s : sched) (eventId : option ptr) (crit : bool) : sched :=
  match eventId with
  | None => s
  | Some p =>
      match heap s !! p with
      | None => s
      | Some e =>
          let c := critical_sched_count s in
          let c' := if critical e && negb crit then c - 1
                    else if negb (critical e) && crit then c + 1 else c in
          with_crit (with_heap s (<[p:=with_critical e crit]> (heap s))) c'
      end
  end.

Definition free_evt (s : sched) (p : ptr) : sched :=
  if decide (p = null_evt s) then s else with_heap s (delete p (heap s)).

Definition EVT_sched_remove (s : sched) (eventId : option ptr) : option Z * sched :=
  match eventId with
  | None => (None, s)
  | Some p =>
      match heap s !! p with
      | None => (None, s)
      | Some e =>
          if negb (inCallback e =? 0) then (None, s)
          else
            let s1 := if critical e then with_crit s (critical_sched_count s - 1) else s in
            let s2 := if decide (next_timed_event s1 = Some p)
                      then with_next s1 (Some (null_evt s1)) else s1 in
            match pos e with
            | None => (Some (arg e), free_evt s2 p)
            | Some _ =>
                let '(r, m, q) :=
                  ps_pqueue_remove cmp_pri (heap s2) (get_queue s2 (evt_queue e)) p in
                let s3 := put_queue s2 (evt_queue e) m q in
                if 0 =? r then
                  (Some (arg e),
                   free_evt (with_heap s3 (alter (fun e => with_pos e None) p (heap s3))) p)
                else (None, s3)
            end
      end
  end.

(** The end of both updates: [ps_pqueue_change_priority] with the priority the
    event already has, or a mark for the running callback. *)
Definition sched_requeue (s : sched) (p : ptr) (e : ScheduleCB) : sched :=
  if inCallback e =? 0 then
    let '(m, q) :=
      ps_pqueue_change_priority cmp_pri (heap s) (get_queue s (evt_queue e)) (nextAwake e) p in
    put_queue s (evt_queue e) m q
  else with_heap s (<[p:=with_inCallback e 2]> (heap s)).

Definition EVT_sched_update (s : sched) (now mono : timeval) (eventId : option ptr) (time : timeval)
    : Z * sched :=
  match eventId with
  | None => (1, s)
  | Some p =>
      match heap s !! p with
      | None => (0, s)
      | Some e =>
          let st := match evt_queue e with Main => now | Dbg => mono end in
          let e' := with_step (with_times e st (timeradd st time)) time in
          (0, sched_requeue (with_heap s (<[p:=e']> (heap s))) p e')
      end
  end.

Definition EVT_sched_update_partial_credit (s : sched) (now0 mono : timeval)
    (eventId : option ptr) (time : timeval) : Z * sched :=
  match eventId with
  | None => (1, s)
  | Some p =>
      match heap s !! p with
      | None => (0, s)
      | Some e =>
          let na := timeradd (scheduleTime e) time in
          let now := match evt_queue e with Main => now0 | Dbg => mono end in
          let na' := if timercmp Z.leb na now then now else na in
          let e' := with_step (with_times e (scheduleTime e) na') time in
          (0, sched_requeue (with_heap s (<[p:=e']> (heap s))) p e')
      end
  end.

Definition EVT_sched_make_breakpoint (s : sched) (eventId : option ptr) : sched :=
  match eventId with
  | None => s
  | Some p => with_heap s (alter (fun e => with_breakpoint e true) p (heap s))
  end.

Definition EVT_sched_move_to_mono (s : sched) (mono : timeval) (eventId : option ptr)
    (realloc_ok : bool) : Z * sched :=
  match eventId with
  | None => (1, s)
  | Some p =>
      match heap s !! p with
      | None => (0, s)
      | Some e0 =>
          let '(_, m, q) := ps_pqueue_remove cmp_pri (heap s) (get_queue s (evt_queue e0)) p in
          let s1 := put_queue s (evt_queue e0) m q in
          let s2 := with_heap s1 (alter (fun e =>
            with_queue (with_times e mono (timeradd mono (timeStep e))) Dbg) p (heap s1)) in
          let s3 := (queue_insert s2 Dbg realloc_ok p).2 in
          let s4 := if critical e0 then with_crit s3 (critical_sched_count s3 - 1) else s3 in
          (0, with_heap s4 (alter (fun e => with_critical e false) p (heap s4)))
      end
  end.

Definition EVT_sched_remaining (s : sched) (now : timeval) (p : ptr) : option timeval :=
  match heap s !! p with
  | None => None
  | Some e => Some (timersub (nextAwake e) now)
  end.

(** [EVT_ms2tv]; C division truncates. *)
Definition EVT_ms2tv (ms : Z) : timeval :=
  let sec := Z.quot ms 1000 in TV sec ((ms - sec * 1000) * 1000).

(** [timeval_subtract] also changes its argument [y]: result code, difference
    and the new [y]; the difference is written only on the way out. *)
Definition timeval_subtract (x y : timeval) : Z * option timeval * timeval :=
  if tv_usec x <? 0 then (1, None, y)
  else if tv_usec y <? 0 then (1, None, y)
  else
    let y1 :=
      if tv_usec x <? tv_usec y then
        let nsec := Z.quot (tv_usec y - tv_usec x) 1000000 + 1 in
        TV (tv_sec y + nsec) (tv_usec y - 1000000 * nsec)
      else y in
    let y2 :=
      if 1000000 <? tv_usec x - tv_usec y1 then
        let nsec := Z.quot (tv_usec x - tv_usec y1) 1000000 in
        TV (tv_sec y1 - nsec) (tv_usec y1 + 1000000 * nsec)
      else y1 in
    (if tv_sec x <? tv_sec y2 then 1 else 0,
     Some (TV (tv_sec x - tv_sec y2) (tv_usec x - tv_usec y2)), y2).

(** ** Invariant *)

Definition b2z (b : bool) : Z := if b then 1 else 0.

(** The number of critical events in the heap. *)
Definition crit_count (m : sched_mem) : Z := map_fold (fun _ e n => b2z (critical e) + n) 0 m.

(** The two queues are heaps over the events, an event sits in the queue it is
    tagged with and never while its callback runs, the counter of critical
    events is exact, and neither the null event nor the event held by the
    debugger is queued. *)
Definition sched_wf (s : sched) : Prop :=
  (forall w, pq_wf (heap s) (get_queue s w)) /\
  (forall w p, p ∈ contents (get_queue s w) ->
     exists e, heap s !! p = Some e /\ evt_queue e = w /\ inCallback e = 0) /\
  critical_sched_count s = crit_count (heap s) /\
  (exists e, heap s !! null_evt s = Some e /\ critical e = false /\ inCallback e = 0) /\
  (forall w, null_evt s ∉ contents (get_queue s w)) /\
  (forall p, next_timed_event s = Some p ->
     is_Some (heap s !! p) /\ forall w, p ∉ contents (get_queue s w)).

(** ** Counting *)

Lemma crit_insert m p e : m !! p = None -> crit_count (<[p:=e]> m) = b2z (critical e) + crit_count m.
Proof.
  intros H. unfold crit_count. rewrite map_fold_insert_L; [done| |done].
  intros. lia.
Qed.

Lemma crit_delete m p e : m !! p = Some e -> crit_count (delete p m) = crit_count m - b2z (critical e).
Proof.
  intros H. rewrite <- (insert_delete_id m p e) at 2 by done.
  rewrite crit_insert by apply lookup_delete_eq. lia.
Qed.

Lemma crit_update m p e e' :
  m !! p = Some e -> crit_count (<[p:=e']> m) = crit_count m - b2z (critical e) + b2z (critical e').
Proof.
  intros H. rewrite <- insert_delete_eq, crit_insert by apply lookup_delete_eq.
  rewrite (crit_delete m p e) by done. lia.
Qed.

(** *** Memories that differ in positions only *)

Definition erase (m : sched_mem) : sched_mem := (fun e => with_pos e None) <$> m.

Lemma lookup_erase m x : erase m !! x = (fun e => with_pos e None) <$> m !! x.
Proof. apply lookup_fmap. Qed.

#[export] Instance erase_frame : PosFrame (fun m m' : sched_mem => erase m' = erase m).
Proof.
  split; [done|congruence|]. intros m p n. apply map_eq. intros x. simpl. unfold set_pos.
  rewrite !lookup_erase, lookup_alter. case_decide; [subst|done]. by destruct (m !! x).
Qed.

Lemma erase_Some m m' x e :
  erase m' = erase m -> m !! x = Some e -> exists n, m' !! x = Some (with_pos e n).
Proof.
  intros H Hx. assert (E : erase m' !! x = erase m !! x) by (by rewrite H).
  rewrite !lookup_erase, Hx in E. simpl in E. destruct (m' !! x) as [e'|]; [|done].
  simpl in E. injection E as E. exists (pos e'). f_equal.
  destruct e, e'. unfold with_pos in *. simpl in *. congruence.
Qed.

Lemma erase_None m m' x : erase m' = erase m -> m !! x = None -> m' !! x = None.
Proof.
  intros H Hx. destruct (m' !! x) as [e|] eqn:E; [|done].
  destruct (erase_Some m' m x e (eq_sym H) E) as [n Hn]. congruence.
Qed.

Lemma crit_erase m : crit_count (erase m) = crit_count m.
Proof.
  induction m as [|p e m Hp IH] using map_ind; [done|].
  unfold erase. rewrite fmap_insert. rewrite !crit_insert; [|done|by rewrite lookup_fmap, Hp].
  unfold erase in IH. by rewrite IH.
Qed.

Lemma crit_same m m' : erase m' = erase m -> crit_count m' = crit_count m.
Proof. intros H. by rewrite <- crit_erase, H, crit_erase. Qed.

(** *** Reading the invariant *)

Section Wf.
Context (s : sched) (Hwf : sched_wf s).

Lemma wf_queue w : pq_wf (heap s) (get_queue s w).
Proof. apply Hwf. Qed.

Lemma wf_event w p : p ∈ contents (get_queue s w) ->
  exists e, heap s !! p = Some e /\ evt_queue e = w /\ inCallback e = 0 /\ pos e <> None.
Proof.
  intros Hp. destruct Hwf as (H1 & H2 & _). destruct (H2 w p Hp) as (e & He & Hq & Hc).
  exists e. split_and!; try done. intros Hn.
  destruct (wf_position _ _ _ (H1 w) Hp) as (Hpos & _). simpl in Hpos.
  unfold get_pos in Hpos. rewrite He, Hn in Hpos. simpl in Hpos. lia.
Qed.

(** An event is in one queue only. *)
Lemma wf_tag w w' p e :
  p ∈ contents (get_queue s w) -> heap s !! p = Some e -> evt_queue e = w' -> w' = w.
Proof. intros Hp He Hq. destruct (wf_event w p Hp) as (e' & He' & Hq' & _). congruence. Qed.
End Wf.

(** What a step does to the queue [w] and to the events: the other queue is as
    before and its events differ in nothing. *)
Lemma wf_step s s' w :
  sched_wf s ->
  (forall w', w' <> w -> get_queue s' w' = get_queue s w') ->
  (forall w' x, w' <> w -> x ∈ contents (get_queue s w') -> heap s' !! x = heap s !! x) ->
  pq_wf (heap s') (get_queue s' w) ->
  (forall x, x ∈ contents (get_queue s' w) ->
     exists e, heap s' !! x = Some e /\ evt_queue e = w /\ inCallback e = 0) ->
  critical_sched_count s' = crit_count (heap s') ->
  null_evt s' = null_evt s ->
  (exists e, heap s' !! null_evt s = Some e /\ critical e = false /\ inCallback e = 0) ->
  null_evt s ∉ contents (get_queue s' w) ->
  (forall p, next_timed_event s' = Some p ->
     is_Some (heap s' !! p) /\ forall w, p ∉ contents (get_queue s' w)) ->
  sched_wf s'.
Proof.
  intros (W1 & W2 & W3 & W4 & W5 & W6) Hq Hx Hpq Htag Hc Hnull Hn Hnw Hnt.
  assert (Hother : forall w', w' <> w -> pq_wf (heap s') (get_queue s w')).
  { intros w' Hw. eapply pq_wf_untouched; [apply W1|]. intros x Hin. simpl.
    unfold get_pri, get_pos. rewrite (Hx w' x Hw Hin). by split_and!. }
  split_and!; try done.
  - intros w'. destruct (decide (w' = w)) as [->|Hw]; [done|]. rewrite Hq by done. auto.
  - intros w' p Hp. destruct (decide (w' = w)) as [->|Hw]; [auto|].
    rewrite Hq in Hp by done. rewrite (Hx w' p) by done. auto.
  - by rewrite Hnull.
  - intros w'. rewrite Hnull. destruct (decide (w' = w)) as [->|Hw]; [done|].
    rewrite Hq by done. apply W5.
Qed.

(** An element whose position is kept is kept as a whole. *)
Lemma same_entry (m m' : sched_mem) x :
  erase m' = erase m -> get_pos m' x = get_pos m x -> (1 <= get_pos m x)%nat -> m' !! x = m !! x.
Proof.
  intros He Hp H1. destruct (m !! x) as [e|] eqn:E; [|by apply (erase_None m)].
  destruct (erase_Some m m' x e He E) as [n Hn]. rewrite Hn. unfold get_pos in *.
  rewrite Hn, E in *. simpl in *. f_equal. destruct e as [? ? ? ? p0]. unfold with_pos. simpl in *.
  destruct n, p0; simpl in *; try lia; congruence.
Qed.

Lemma wf_pos_ge s w x : sched_wf s -> x ∈ contents (get_queue s w) -> (1 <= get_pos (heap s) x)%nat.
Proof. intros H Hx. destruct (wf_position _ _ _ (wf_queue s H w) Hx) as ((? & _) & _). done. Qed.

Lemma wf_disjoint s w w' x :
  sched_wf s -> w' <> w -> x ∈ contents (get_queue s w') -> x ∉ contents (get_queue s w).
Proof.
  intros Hwf Hw Hx Hin. destruct (wf_event s Hwf w' x Hx) as (e & E1 & E2 & _).
  destruct (wf_event s Hwf w x Hin) as (e' & E1' & E2' & _). congruence.
Qed.

(** An event of a queue whose position is kept is kept as a whole. *)
Lemma other_kept s m w x :
  sched_wf s -> x ∈ contents (get_queue s w) -> erase m = erase (heap s) ->
  get_pos m x = get_pos (heap s) x -> m !! x = heap s !! x.
Proof. intros Hwf Hx He Hp. apply same_entry; try done. by apply (wf_pos_ge s w). Qed.

(** Storing a queue. *)
Lemma put_queue_eq s w m q :
  let s' := put_queue s w m q in
  get_queue s' w = q /\ heap s' = m /\ critical_sched_count s' = critical_sched_count s /\
  next_timed_event s' = next_timed_event s /\ null_evt s' = null_evt s /\
  forall w', w' <> w -> get_queue s' w' = get_queue s w'.
Proof. destruct w; simpl; split_and!; try done; intros []; done. Qed.

(** *** Inserting *)

(** Inserting an event that is live, tagged and not queued keeps the
    invariant, whatever the event is. *)
Lemma queue_insert_wf s w ok p e s' :
  sched_wf s -> heap s !! p = Some e -> evt_queue e = w -> inCallback e = 0 ->
  (forall w', p ∉ contents (get_queue s w')) -> p <> null_evt s -> next_timed_event s <> Some p ->
  queue_insert s w ok p = (0, s') ->
  sched_wf s' /\ contents (get_queue s' w) ≡ₚ p :: contents (get_queue s w) /\
  erase (heap s') = erase (heap s) /\ critical_sched_count s' = critical_sched_count s /\
  next_timed_event s' = next_timed_event s /\ null_evt s' = null_evt s /\
  (forall w', w' <> w -> get_queue s' w' = get_queue s w').
Proof.
  intros Hwf Hp Htag Hcb Hnq Hnull Hnt. unfold queue_insert.
  destruct (ps_pqueue_insert _ _ _ _ _) as [[r m] [q|]] eqn:E; intros [= -> <-].
  2:{ rewrite insert_unfold in E. by destruct (_ && _). }
  pose proof (wf_queue s Hwf w) as Hq.
  destruct (insert_heap cmp_pri _ _ _ _ _ _ (proj1 Hq) (proj1 (proj2 Hq)) E)
    as (_ & _ & Hcon & _ & Hpri & _ & Hpos).
  assert (Hpq : pq_wf m q).
  { refine (insert_wf cmp_pri _ _ _ _ _ _ Hq _ (Hnq w) E). simpl. by rewrite Hp. }
  pose proof (insert_frame cmp_pri (fun m m' => erase m' = erase m) _ _ _ _ _ _ _ E) as Her.
  destruct (put_queue_eq s w m q) as (G1 & G2 & G3 & G4 & G5 & G6).
  assert (Hel : forall x, x ∈ contents q <-> x = p \/ x ∈ contents (get_queue s w))
    by (intros x; rewrite Hcon; apply elem_of_cons).
  split_and!; try congruence.
  pose proof Hwf as (W1 & W2 & W3 & (en & N1 & N2 & N3) & W5 & W6).
  apply (wf_step s _ w Hwf); rewrite ?G1, ?G2, ?G3, ?G4, ?G5; try done.
  - intros w' x Hw Hx. apply (other_kept s m w' x Hwf Hx Her). apply Hpos.
    + intros ->. by apply (Hnq w').
    + by apply (wf_disjoint s w w').
  - intros x Hx. apply Hel in Hx as [->|Hx].
    + destruct (erase_Some _ _ _ _ Her Hp) as [n Hn]. eauto.
    + destruct (W2 w x Hx) as (e1 & He1 & ? & ?). destruct (erase_Some _ _ _ _ Her He1) as [n Hn]. eauto.
  - by rewrite W3, (crit_same _ _ Her).
  - destruct (erase_Some _ _ _ _ Her N1) as [n Hn]. eauto.
  - rewrite Hel. intros [?|Hin]; [by subst|by apply (W5 w)].
  - intros y Hy. destruct (W6 y Hy) as [[ey Hy1] Hy2]. split.
    + destruct (erase_Some _ _ _ _ Her Hy1) as [n Hn]. eauto.
    + intros w'. destruct (decide (w' = w)) as [->|Hw]; [|by rewrite G6].
      rewrite G1, Hel. intros [->|Hin]; [done|by apply (Hy2 w)].
  - exact G6.
Qed.

(** Adding a fresh block to the heap disturbs nothing. *)
Lemma fresh_heap_wf s p e :
  sched_wf s -> heap s !! p = None ->
  let s1 := with_crit (with_heap s (<[p:=e]> (heap s))) (critical_sched_count s + b2z (critical e)) in
  sched_wf s1 /\ (forall w, p ∉ contents (get_queue s1 w)) /\ p <> null_evt s /\
  next_timed_event s <> Some p.
Proof.
  intros Hwf Hp s1. pose proof Hwf as (W1 & W2 & W3 & (en & N1 & N2 & N3) & W5 & W6).
  assert (Hnq : forall w, p ∉ contents (get_queue s w)).
  { intros w Hin. destruct (wf_event s Hwf w p Hin) as (e' & He' & _). congruence. }
  assert (Hg : forall w, get_queue s1 w = get_queue s w) by (by intros []).
  assert (Hne : forall x w, x ∈ contents (get_queue s w) -> heap s1 !! x = heap s !! x).
  { intros x w Hx. simpl. apply lookup_insert_ne. intros ->. by apply (Hnq w). }
  assert (Hnull : p <> null_evt s) by congruence.
  assert (Hnt : next_timed_event s <> Some p).
  { intros Hn. destruct (W6 p Hn) as [[? ?] _]. congruence. }
  split_and!; try done.
  apply (wf_step s s1 Main Hwf); try done.
  - intros w' x _. apply Hne.
  - rewrite Hg. eapply pq_wf_untouched; [apply W1|]. intros x Hx. simpl.
    unfold get_pri, get_pos. pose proof (Hne x Main Hx) as E. simpl in E. rewrite E. done.
  - intros x Hx. rewrite Hg in Hx. rewrite (Hne x Main Hx). by apply W2.
  - simpl. rewrite W3, crit_insert by done. lia.
  - simpl. rewrite lookup_insert_ne by congruence. eauto.
  - apply (W5 Main).
  - intros y Hy. destruct (W6 y Hy) as [Hy1 Hy2]. split; [|done].
    simpl in *. rewrite lookup_insert_ne by congruence. done.
Qed.

(** *** Adding *)

Lemma insert_code_queue s w ok p :
  (queue_insert s w ok p).1 = (if (avail (get_queue s w) <=? PriorityQueue.size (get_queue s w))%nat && negb ok
                               then 1 else 0).
Proof.
  unfold queue_insert. rewrite insert_unfold. by destruct (_ && _).
Qed.

Lemma insert_fail_heap s w ok p s' :
  queue_insert s w ok p = (1, s') -> s' = put_queue s w (heap s) (get_queue s w).
Proof.
  unfold queue_insert. rewrite insert_unfold. destruct (_ && _); [|done]. by intros [= <-].
Qed.

Lemma put_same s w : put_queue s w (heap s) (get_queue s w) = s.
Proof. by destruct s, w. Qed.

(** The common body of the two ways to add an event. *)
Lemma add_body s now time stp cb a p ok :
  sched_wf s -> heap s !! p = None ->
  let r := EVT_sched_add_with_timestep s now time stp cb a (Some p) ok in
  (r.1 = None /\ r.2 = s) \/
  (r.1 = Some p /\ sched_wf r.2 /\
   contents (queue r.2) ≡ₚ p :: contents (queue s) /\ dbg_queue r.2 = dbg_queue s /\
   critical_sched_count r.2 = critical_sched_count s + 1 /\
   erase (heap r.2) = erase (<[p:=SCB now (timeradd now time) cb a None stp Main 0 false true 0]> (heap s))).
Proof.
  intros Hwf Hp. unfold EVT_sched_add_with_timestep. cbv zeta.
  set (e := SCB now (timeradd now time) cb a (Some 0%nat) stp Main 0 false true 0).
  destruct (fresh_heap_wf s p e Hwf Hp) as (Hwf1 & Hnq & Hnull & Hnt).
  pose proof (insert_code_queue (with_heap s (<[p:=e]> (heap s))) Main ok p) as Hcode.
  destruct (queue_insert (with_heap s (<[p:=e]> (heap s))) Main ok p) as [r s1] eqn:E. simpl in Hcode.
  destruct (_ && _); subst r; cbn [Z.eqb].
  - left. apply insert_fail_heap in E. subst s1. simpl. split; [done|].
    rewrite delete_insert_id by done. by destruct s.
  - right.
    assert (E1 : queue_insert (with_crit (with_heap s (<[p:=e]> (heap s)))
                 (critical_sched_count s + b2z (critical e))) Main ok p
                 = (0, with_crit s1 (critical_sched_count s1 + 1))).
    { revert E. unfold queue_insert. cbn [heap with_crit with_heap get_queue queue].
      destruct (ps_pqueue_insert cmp_pri ok (<[p:=e]> (heap s)) (Some (queue s)) p)
        as [[? ?] [?|]]; intros [= -> <-]; done. }
    destruct (queue_insert_wf _ Main ok p e _ Hwf1 ltac:(simpl; apply lookup_insert_eq) eq_refl eq_refl
      Hnq Hnull Hnt E1) as (Q1 & Q2 & Q3 & Q4 & Q5 & Q6 & Q7).
    split_and!; try done.
    + apply (Q7 Dbg). done.
    + etransitivity; [exact Q3|]. cbn [with_heap with_crit heap]. unfold erase.
      rewrite !fmap_insert. done.
Qed.

Lemma sched_add_step s now time cb a p ok :
  EVT_sched_add s now time cb a p ok = EVT_sched_add_with_timestep s now time time cb a p ok.
Proof. done. Qed.

(** C9. Adding a timed event either fails and leaves the schedule as it was,
    or returns the new event, which is queued for the current time plus the
    given time and counted as critical, next to all the others; the schedule
    invariant is kept. *)
Theorem sched_add_correct s now time stp cb a p ok :
  sched_wf s -> heap s !! p = None ->
  let r := EVT_sched_add_with_timestep s now time stp cb a (Some p) ok in
  sched_wf r.2 /\
  ((r.1 = None /\ r.2 = s) \/
   (r.1 = Some p /\ contents (queue r.2) ≡ₚ p :: contents (queue s) /\
    contents (dbg_queue r.2) = contents (dbg_queue s) /\
    critical_sched_count r.2 = critical_sched_count s + 1 /\
    (exists n, heap r.2 !! p = Some (SCB now (timeradd now time) cb a n stp Main 0 false true 0)) /\
    (forall x e, x <> p -> heap s !! x = Some e -> exists n, heap r.2 !! x = Some (with_pos e n)))).
Proof.
  intros Hwf Hp. destruct (add_body s now time stp cb a p ok Hwf Hp)
    as [[E1 E2]|(E1 & E2 & E3 & E4 & E5 & E6)].
  - cbv zeta. rewrite E1, E2. split; [done|]. by left.
  - split; [done|]. right. split_and!; try done; [by rewrite E4| |].
    + destruct (erase_Some _ _ p _ E6 (lookup_insert_eq _ _ _)) as [n Hn]. by exists n.
    + intros x e Hne Hx. apply (erase_Some _ _ x e E6). by rewrite lookup_insert_ne.
Qed.

(** *** Removing *)

(** The hazard of [ps_pqueue_remove]: the event is in the last cell and its
    parent has the same wake-up time. *)
Definition tie (s : sched) (p : ptr) : Prop :=
  exists e, heap s !! p = Some e /\ ~ remove_safe cmp_pri (heap s) (get_queue s (evt_queue e)) p.

Lemma remove_ok (q : ps_pqueue_t) (m : sched_mem) p :
  (ps_pqueue_remove cmp_pri m q p).1.1 = 0.
Proof. by rewrite remove_unfold. Qed.

(** Dropping an event that is in no queue. *)
Lemma drop_wf s w s' p e m q :
  sched_wf s -> heap s !! p = Some e -> p <> null_evt s -> evt_queue e = w ->
  (forall w', w' <> w -> get_queue s' w' = get_queue s w') -> get_queue s' w = q ->
  erase m = erase (heap s) -> pq_wf m q ->
  (forall x, x ∈ contents q -> x ∈ contents (get_queue s w)) -> p ∉ contents q ->
  (forall y, y ∉ contents (get_queue s w) -> get_pos m y = get_pos (heap s) y) ->
  heap s' = delete p m ->
  critical_sched_count s' = critical_sched_count s - b2z (critical e) ->
  null_evt s' = null_evt s ->
  next_timed_event s' = (if decide (next_timed_event s = Some p) then Some (null_evt s) else next_timed_event s) ->
  sched_wf s'.
Proof.
  intros Hwf Hp Hnull Htag G6 G1 Her Hpq Hsub Hnin Hpos Hh Hc Hn Hnt.
  pose proof Hwf as (W1 & W2 & W3 & (en & N1 & N2 & N3) & W5 & W6).
  assert (Hm : forall x ex, x <> p -> heap s !! x = Some ex -> exists n, heap s' !! x = Some (with_pos ex n)).
  { intros x ex Hx Hex. rewrite Hh, lookup_delete_ne by congruence. by apply (erase_Some (heap s)). }
  assert (Hpo : forall w', w' <> w -> p ∉ contents (get_queue s w')).
  { intros w' Hw Hin. apply Hw. symmetry. by apply (wf_tag s Hwf w' w p e Hin Hp). }
  apply (wf_step s s' w Hwf); rewrite ?G1; try done.
  - intros w' x Hw Hx. rewrite Hh, lookup_delete_ne by (intros <-; by apply (Hpo w')).
    apply (other_kept s m w' x Hwf Hx Her). apply Hpos. by apply (wf_disjoint s w w').
  - rewrite Hh. eapply pq_wf_untouched; [exact Hpq|]. intros x Hx. simpl. unfold get_pri, get_pos.
    rewrite lookup_delete_ne by (intros <-; done). by split_and!.
  - intros x Hx. destruct (W2 w x (Hsub x Hx)) as (ex & E1 & E2 & E3).
    destruct (Hm x ex) as [n Hx']; [by intros ->|done|]. eauto.
  - destruct (erase_Some _ _ _ _ Her Hp) as [n Hn'].
    rewrite Hc, Hh, (crit_delete m p _ Hn'), W3, (crit_same _ _ Her). done.
  - destruct (Hm (null_evt s) en) as [n Hn']; [congruence|done|]. eauto.
  - intros Hin. by apply (W5 w), Hsub.
  - rewrite Hnt. intros y. case_decide as Ed.
    + intros [= <-]. split; [destruct (Hm (null_evt s) en); [congruence|done|eauto]|].
      intros w'. destruct (decide (w' = w)) as [->|Hw]; [rewrite G1; intros Hin; by apply (W5 w), Hsub|].
      rewrite G6 by done. apply W5.
    + intros Hy. destruct (W6 y Hy) as [[ey Hey] Hyq]. split.
      * destruct (Hm y ey) as [n Hn']; [congruence|done|eauto].
      * intros w'. destruct (decide (w' = w)) as [->|Hw]; [rewrite G1; intros Hin; by apply (Hyq w), Hsub|].
        rewrite G6 by done. apply Hyq.
Qed.

Lemma free_delete s p : p <> null_evt s -> free_evt s p = with_heap s (delete p (heap s)).
Proof. intros. unfold free_evt. by rewrite decide_False. Qed.

(** The part of [EVT_sched_remove] before the queue is touched: the counter of
    critical events and the event held by the debugger. *)
Definition remove_marks (s : sched) (p : ptr) (e : ScheduleCB) : sched :=
  let s1 := if critical e then with_crit s (critical_sched_count s - 1) else s in
  if decide (next_timed_event s1 = Some p) then with_next s1 (Some (null_evt s1)) else s1.

Lemma remove_marks_spec s p e :
  let s2 := remove_marks s p e in
  heap s2 = heap s /\ (forall w, get_queue s2 w = get_queue s w) /\ null_evt s2 = null_evt s /\
  critical_sched_count s2 = critical_sched_count s - b2z (critical e) /\
  next_timed_event s2 = (if decide (next_timed_event s = Some p) then Some (null_evt s) else next_timed_event s).
Proof.
  unfold remove_marks. destruct (critical e); simpl; case_decide; simpl;
    split_and!; try done; try lia; by intros [].
Qed.

(** What the removal of [p] leaves, given the queue [w] it was tagged with. *)
Definition removed (s s' : sched) (p : ptr) (e : ScheduleCB) : Prop :=
  let w := evt_queue e in
  sched_wf s' /\ heap s' !! p = None /\
  critical_sched_count s' = critical_sched_count s - b2z (critical e) /\
  (forall x, x ∈ contents (get_queue s w) <-> (x = p /\ p ∈ contents (get_queue s w)) \/
     x ∈ contents (get_queue s' w)) /\
  p ∉ contents (get_queue s' w) /\
  (forall x ex, x <> p -> heap s !! x = Some ex -> exists n, heap s' !! x = Some (with_pos ex n)) /\
  (next_timed_event s = Some p -> next_timed_event s' = Some (null_evt s)).

Lemma remove_queued s p e :
  sched_wf s -> heap s !! p = Some e -> p <> null_evt s -> inCallback e = 0 ->
  p ∈ contents (get_queue s (evt_queue e)) ->
  remove_safe cmp_pri (heap s) (get_queue s (evt_queue e)) p ->
  let r := EVT_sched_remove s (Some p) in r.1 = Some (arg e) /\ removed s r.2 p e /\
  (forall w, w <> evt_queue e -> get_queue r.2 w = get_queue s w) /\ null_evt r.2 = null_evt s /\
  next_timed_event r.2 = (if decide (next_timed_event s = Some p) then Some (null_evt s) else next_timed_event s).
Proof.
  intros Hwf Hp Hnull Hc Hin Hsafe. unfold EVT_sched_remove. rewrite Hp, Hc. cbn [Z.eqb negb].
  fold (remove_marks s p e). destruct (remove_marks_spec s p e) as (H2 & Q2 & N2 & C2 & T2).
  set (s2 := remove_marks s p e) in *. clearbody s2. set (w := evt_queue e) in *.
  destruct (wf_event s Hwf w p Hin) as (e' & He' & _ & _ & Hpos).
  rewrite Hp in He'. injection He' as <-. destruct (pos e) as [k|] eqn:Ek; [|done]. clear Hpos.
  rewrite H2, Q2. pose proof (remove_ok (get_queue s w) (heap s) p) as Hr0.
  destruct (ps_pqueue_remove cmp_pri (heap s) (get_queue s w) p) as [[r m] q] eqn:Er.
  simpl in Hr0. subst r. cbn [Z.eqb].
  destruct (remove_wf cmp_pri _ _ _ _ _ _ (wf_queue s Hwf w) Hin Hsafe Er) as (R1 & R2 & R3 & R4 & R5).
  pose proof (remove_frame cmp_pri (fun m m' : sched_mem => erase m' = erase m) _ _ _ _ _ _ Er) as Her.
  destruct (put_queue_eq s2 w m q) as (G1 & G2 & G3 & G4 & G5 & G6). rewrite G2.
  rewrite free_delete by (simpl; congruence). cbn [with_heap heap]. rewrite delete_alter_eq.
  assert (Hnin : p ∉ contents q).
  { pose proof (contents_NoDup _ _ (wf_queue s Hwf w)) as Hnd. rewrite R2 in Hnd.
    by apply NoDup_cons in Hnd as [? _]. }
  assert (Hq : forall w', get_queue (with_heap (with_heap (put_queue s2 w m q)
      (alter (fun e0 => with_pos e0 None) p m)) (delete p m)) w' = get_queue (put_queue s2 w m q) w')
    by (by intros []).
  cbn [fst snd]. unfold removed. fold w. rewrite Hq, G1. split_and!; try done.
  - eapply (drop_wf s w _ p e m q Hwf Hp Hnull eq_refl); try done.
    all: cbn [with_heap critical_sched_count null_evt next_timed_event]; try congruence.
    + intros w' Hw. rewrite Hq, G6 by done. apply Q2.
    + intros x Hx. rewrite R2. apply elem_of_cons. by right.
  - cbn [with_heap heap]. apply lookup_delete_eq.
  - exact (eq_trans G3 C2).
  - intros x. rewrite !R2, !elem_of_cons. clear. tauto.
  - intros x ex Hne Hx. cbn [with_heap heap]. rewrite lookup_delete_ne by done.
    by apply (erase_Some (heap s)).
  - intros Hn. cbn [with_heap next_timed_event]. rewrite G4, T2. by rewrite decide_True.
  - intros w' Hw. by rewrite Hq, G6, Q2.
  - cbn [with_heap null_evt]. congruence.
  - cbn [with_heap next_timed_event]. congruence.
Qed.

Lemma remove_unqueued s p e :
  sched_wf s -> heap s !! p = Some e -> p <> null_evt s -> inCallback e = 0 ->
  pos e = None -> p ∉ contents (get_queue s (evt_queue e)) ->
  let r := EVT_sched_remove s (Some p) in r.1 = Some (arg e) /\ removed s r.2 p e.
Proof.
  intros Hwf Hp Hnull Hc Hpos Hnin. unfold EVT_sched_remove. rewrite Hp, Hc. cbn [Z.eqb negb].
  fold (remove_marks s p e). destruct (remove_marks_spec s p e) as (H2 & Q2 & N2 & C2 & T2).
  set (s2 := remove_marks s p e) in *. clearbody s2. set (w := evt_queue e) in *.
  rewrite Hpos, free_delete by congruence.
  assert (Hq : forall w', get_queue (with_heap s2 (delete p (heap s2))) w' = get_queue s w')
    by (intros w'; rewrite <- Q2; by destruct w').
  cbn [fst snd]. unfold removed. fold w. rewrite Hq. split_and!; try done.
  - eapply (drop_wf s w _ p e (heap s) (get_queue s w) Hwf Hp Hnull eq_refl); try done.
    + apply (wf_queue s Hwf).
    + cbn [with_heap heap]. by rewrite H2.
  - cbn [with_heap heap]. apply lookup_delete_eq.
  - intros x. clear -Hnin. split; [by right|]. intros [[-> ?]|?]; done.
  - intros x ex Hne Hx. cbn [with_heap heap]. rewrite H2, lookup_delete_ne by done.
    exists (pos ex). rewrite Hx. by destruct ex.
  - intros Hn. cbn [with_heap next_timed_event]. rewrite T2. by rewrite decide_True.
Qed.

(** C10. Removing a timed event, in a well-formed schedule and not the null
    event. A callback that runs cannot be removed: NULL and nothing changes. A
    queued event whose removal is safe (it is not the last cell of its heap
    with a parent of equal time) leaves its queue, is freed and no longer
    counted, all the others stay, and its argument is the result, as events.h
    says (the comment in events.c promises 0); an event the debugger holds,
    which is in no queue, is freed in the same way and replaced by the null
    event. The schedule invariant is kept. *)
Theorem sched_remove_correct s p e :
  sched_wf s -> heap s !! p = Some e -> p <> null_evt s ->
  let w := evt_queue e in
  let r := EVT_sched_remove s (Some p) in
  (inCallback e <> 0 -> r = (None, s)) /\
  (inCallback e = 0 ->
   (p ∈ contents (get_queue s w) /\ remove_safe cmp_pri (heap s) (get_queue s w) p) \/
     (pos e = None /\ p ∉ contents (get_queue s w)) ->
   sched_wf r.2 /\ r.1 = Some (arg e) /\ heap r.2 !! p = None /\
   critical_sched_count r.2 = critical_sched_count s - b2z (critical e) /\
   (forall x, x ∈ contents (get_queue s w) <-> (x = p /\ p ∈ contents (get_queue s w)) \/
      x ∈ contents (get_queue r.2 w)) /\
   p ∉ contents (get_queue r.2 w) /\
   (forall x ex, x <> p -> heap s !! x = Some ex -> exists n, heap r.2 !! x = Some (with_pos ex n)) /\
   (next_timed_event s = Some p -> next_timed_event r.2 = Some (null_evt s))).
Proof.
  intros Hwf Hp Hnull w r. split.
  { intros Hc. subst r. unfold EVT_sched_remove. by rewrite Hp, (proj2 (Z.eqb_neq _ _) Hc). }
  intros Hc [[Hin Hsafe]|[Hpos Hnin]].
  - destruct (remove_queued s p e Hwf Hp Hnull Hc Hin Hsafe) as (R1 & (R2 & R) & _). by split; [|split].
  - destruct (remove_unqueued s p e Hwf Hp Hnull Hc Hpos Hnin) as [R1 [R2 R]]. by split; [|split].
Qed.

(** *** Updating *)

Section Requeue.
Context (s : sched) (Hwf : sched_wf s) (p : ptr) (e e' : ScheduleCB).
Context (Hp : heap s !! p = Some e).
Context (Hq' : evt_queue e' = evt_queue e) (Hc' : critical e' = critical e).
Context (Hcb' : inCallback e' = inCallback e) (Hpos' : pos e' = pos e).
Let w := evt_queue e.
Let m0 : sched_mem := <[p:=with_times e' (scheduleTime e') (nextAwake e)]> (heap s).
Let m1 : sched_mem := <[p:=e']> (heap s).

(** The event as the update has rewritten it, but with its old wake-up. *)
Lemma requeue_m0 : set_pri m0 p (nextAwake e') = m1.
Proof.
  unfold set_pri, m0, m1. rewrite alter_insert_eq. f_equal. by destruct e'.
Qed.

Lemma requeue_m1 : set_pri m1 p (nextAwake e') = m1.
Proof. unfold set_pri, m1. rewrite alter_insert_eq. f_equal. by destruct e'. Qed.

Lemma requeue_pos : get_pos m1 p = get_pos m0 p /\ get_pos m0 p = get_pos (heap s) p.
Proof.
  unfold get_pos, m0, m1. rewrite !lookup_insert_eq, Hp. simpl. by rewrite Hpos'.
Qed.

(** [ps_pqueue_change_priority] is called when the event already has its new
    time, so the comparison always chooses to move it up; that is what the
    queue would do for an event that moves to an earlier time. *)
Lemma requeue_as_change q :
  tv_le (nextAwake e') (nextAwake e) ->
  ps_pqueue_change_priority cmp_pri m1 q (nextAwake e') p
  = ps_pqueue_change_priority cmp_pri m0 q (nextAwake e') p.
Proof.
  intros Hle. unfold ps_pqueue_change_priority. simpl. rewrite requeue_m0, requeue_m1.
  assert (G1 : get_pri m1 p = nextAwake e') by (unfold get_pri, m1; by rewrite lookup_insert_eq).
  assert (G0 : get_pri m0 p = nextAwake e) by (unfold get_pri, m0; by rewrite lookup_insert_eq).
  rewrite G0, G1. unfold cmp_pri.
  rewrite (proj2 (timercmp_geb _ _) (tv_le_refl _)).
  by rewrite (proj2 (timercmp_geb _ _) Hle).
Qed.

Lemma requeue_always_up q :
  ps_pqueue_change_priority cmp_pri m1 q (nextAwake e') p = bubble_up cmp_pri m1 q (get_pos m1 p).
Proof.
  unfold ps_pqueue_change_priority. simpl. rewrite requeue_m1.
  assert (G1 : get_pri m1 p = nextAwake e') by (unfold get_pri, m1; by rewrite lookup_insert_eq).
  rewrite G1. unfold cmp_pri. by rewrite (proj2 (timercmp_geb _ _) (tv_le_refl _)).
Qed.

Lemma requeue_wf :
  p ∈ contents (get_queue s w) -> tv_le (nextAwake e') (nextAwake e) -> inCallback e = 0 ->
  let s' := sched_requeue (with_heap s m1) p e' in
  sched_wf s' /\ contents (get_queue s' w) ≡ₚ contents (get_queue s w) /\
  erase (heap s') = erase m1.
Proof.
  intros Hin Hle Hcb s'. unfold s', sched_requeue. rewrite Hcb', Hcb, Hq'. cbn [Z.eqb]. fold w.
  change (heap (with_heap s m1)) with m1.
  replace (get_queue (with_heap s m1) w) with (get_queue s w) by (by destruct w).
  destruct (ps_pqueue_change_priority cmp_pri m1 (get_queue s w) (nextAwake e') p) as [m q] eqn:E.
  assert (Her : erase m = erase m1).
  { rewrite requeue_always_up in E.
    pose proof (bubble_up_frame cmp_pri (fun m m' : sched_mem => erase m' = erase m)
      m1 (get_queue s w) (get_pos m1 p)) as H. by rewrite E in H. }
  rewrite requeue_as_change in E by done.
  pose proof Hwf as (W1 & W2 & W3 & (en & N1 & N2 & N3) & W5 & W6).
  assert (Hpq0 : pq_wf m0 (get_queue s w)).
  { eapply pq_wf_untouched; [apply W1|]. intros x Hx. simpl. unfold get_pri, get_pos, m0.
    rewrite lookup_insert. case_decide as Ex; [subst x; simpl; rewrite Hp, Hpos'; by split_and!|].
    by split_and!. }
  destruct (change_priority_wf cmp_pri _ _ _ _ _ _ Hpq0 Hin E) as (C1 & C2 & C3 & C4 & C5).
  destruct (put_queue_eq (with_heap s m1) w m q) as (G1 & G2 & G3 & G4 & G5 & G6).
  rewrite G1, G2. split_and!; try done.
  assert (Hent : forall x ex, heap s !! x = Some ex -> exists e1 n, m !! x = Some (with_pos e1 n) /\
            evt_queue e1 = evt_queue ex /\ critical e1 = critical ex /\ inCallback e1 = inCallback ex).
  { intros x ex Hx. destruct (decide (x = p)) as [->|Hne].
    - destruct (erase_Some m1 m p e' Her) as [n Hn]; [apply lookup_insert_eq|].
      exists e', n. rewrite Hp in Hx. injection Hx as <-. done.
    - destruct (erase_Some m1 m x ex Her) as [n Hn]; [unfold m1; by rewrite lookup_insert_ne|].
      exists ex, n. done. }
  apply (wf_step s _ w Hwf); rewrite ?G1, ?G2, ?G3, ?G4, ?G5; try done.
  - intros w' x Hw Hx.
    assert (Hxp : x <> p) by (intros ->; by apply (wf_disjoint s w w' p Hwf Hw Hx)).
    assert (Hx1 : m1 !! x = heap s !! x) by (unfold m1; by rewrite lookup_insert_ne).
    rewrite <- Hx1. apply same_entry; [done| |].
    + rewrite C5 by (by apply (wf_disjoint s w w')). simpl. unfold get_pos, m0, m1.
      by rewrite !lookup_insert_ne.
    + unfold get_pos. rewrite Hx1. apply (wf_pos_ge s w' x Hwf Hx).
  - intros x Hx. rewrite C2 in Hx. destruct (W2 w x Hx) as (ex & X1 & X2 & X3).
    destruct (Hent x ex X1) as (e1 & n & Y1 & Y2 & Y3 & Y4). exists (with_pos e1 n). simpl.
    split_and!; [done|congruence|congruence].
  - rewrite (crit_same _ _ Her). unfold m1. rewrite (crit_update _ _ e) by done.
    simpl. rewrite W3, Hc'. lia.
  - destruct (Hent (null_evt s) en N1) as (e1 & n & Y1 & Y2 & Y3 & Y4). exists (with_pos e1 n). simpl.
    split_and!; [done|congruence|congruence].
  - intros Hin'. rewrite C2 in Hin'. by apply (W5 w).
  - intros y Hy. destruct (W6 y Hy) as [[ey Hey] Hyq]. split.
    + destruct (Hent y ey Hey) as (e1 & n & Y1 & _). eauto.
    + intros w'. destruct (decide (w' = w)) as [->|Hw]; [rewrite G1, C2; apply Hyq|].
      rewrite G6 by done. destruct w'; apply (Hyq Main) || apply (Hyq Dbg).
Qed.
End Requeue.

(** [EVT_sched_update] on a queued event, when the new wake-up is not
    later than the old one: the event has the new time and step, every queue
    holds the same events, and the schedule invariant is kept.  From inside
    the event's own callback the new time is stored and marked, so that the
    loop does not add the step again. *)
Theorem sched_update_earlier s now mono p e time :
  sched_wf s -> heap s !! p = Some e ->
  let st := match evt_queue e with Main => now | Dbg => mono end in
  let e' := with_step (with_times e st (timeradd st time)) time in
  let r := EVT_sched_update s now mono (Some p) time in
  r.1 = 0 /\
  (inCallback e = 0 -> p ∈ contents (get_queue s (evt_queue e)) ->
   tv_le (timeradd st time) (nextAwake e) ->
   sched_wf r.2 /\
   contents (get_queue r.2 (evt_queue e)) ≡ₚ contents (get_queue s (evt_queue e)) /\
   (exists n, heap r.2 !! p = Some (with_pos e' n)) /\
   (forall x ex, x <> p -> heap s !! x = Some ex -> exists n, heap r.2 !! x = Some (with_pos ex n))) /\
  (inCallback e <> 0 -> heap r.2 !! p = Some (with_inCallback e' 2) /\ get_queue r.2 = get_queue s).
Proof.
  intros Hwf Hp st e' r. subst r. unfold EVT_sched_update. rewrite Hp. cbv zeta. fold st. fold e'.
  split; [done|]. split.
  - intros Hcb Hin Hle.
    destruct (requeue_wf s Hwf p e e' Hp eq_refl eq_refl eq_refl eq_refl Hin Hle Hcb) as (R1 & R2 & R3).
    split_and!; try done.
    + apply (erase_Some _ _ p e' R3). apply lookup_insert_eq.
    + intros x ex Hne Hx. apply (erase_Some _ _ x ex R3). by rewrite lookup_insert_ne.
  - intros Hcb. cbn [fst snd]. unfold sched_requeue.
    change (inCallback e') with (inCallback e).
    rewrite (proj2 (Z.eqb_neq _ _) Hcb). simpl. split; [by rewrite lookup_insert_eq|done].
Qed.

(** [EVT_sched_update_partial_credit] computes the wake-up from the time
    the event was scheduled, never before the present: the new wake-up is the
    later of the two, and when it is not later than the old one the invariant
    and the contents of the queues are kept. *)
Theorem sched_update_credit s now0 mono p e time :
  sched_wf s -> heap s !! p = Some e -> inCallback e = 0 ->
  p ∈ contents (get_queue s (evt_queue e)) ->
  let now := match evt_queue e with Main => now0 | Dbg => mono end in
  let r := EVT_sched_update_partial_credit s now0 mono (Some p) time in
  tv_le now (nextAwake e) -> tv_le (timeradd (scheduleTime e) time) (nextAwake e) ->
  r.1 = 0 /\ sched_wf r.2 /\
  contents (get_queue r.2 (evt_queue e)) ≡ₚ contents (get_queue s (evt_queue e)) /\
  exists na n, heap r.2 !! p = Some (with_pos (with_step (with_times e (scheduleTime e) na) time) n) /\
    tv_le now na /\ tv_le (timeradd (scheduleTime e) time) na /\
    (na = now \/ na = timeradd (scheduleTime e) time).
Proof.
  intros Hwf Hp Hcb Hin now r Hle1 Hle2. subst r. unfold EVT_sched_update_partial_credit.
  rewrite Hp. cbv zeta. fold now. split; [done|]. cbn [snd].
  set (na := if timercmp Z.leb (timeradd (scheduleTime e) time) now then now
             else timeradd (scheduleTime e) time).
  assert (Hna : tv_le now na /\ tv_le (timeradd (scheduleTime e) time) na /\ tv_le na (nextAwake e) /\
          (na = now \/ na = timeradd (scheduleTime e) time)).
  { unfold na. destruct (timercmp Z.leb _ now) eqn:E.
    - apply timercmp_leb in E. split_and!; auto using tv_le_refl.
    - assert (~ tv_le (timeradd (scheduleTime e) time) now).
      { intros H. apply timercmp_leb in H. congruence. }
      destruct (tv_le_total (timeradd (scheduleTime e) time) now); [done|].
      split_and!; auto using tv_le_refl. }
  destruct Hna as (A1 & A2 & A3 & A4).
  destruct (requeue_wf s Hwf p e (with_step (with_times e (scheduleTime e) na) time) Hp
    eq_refl eq_refl eq_refl eq_refl Hin A3 Hcb) as (R1 & R2 & R3).
  split_and!; try done.
  destruct (erase_Some _ _ p (with_step (with_times e (scheduleTime e) na) time) R3
    (lookup_insert_eq _ _ _)) as [n Hn]. exists na, n. done.
Qed.

(** [EVT_ms2tv] gives a normalised time of exactly that many milliseconds
    for every non-negative argument, and [timeval_subtract] gives the exact
    difference, with code 1 exactly when it is negative, for times with
    non-negative microseconds; the microseconds of the difference lie between
    0 and 1000000. *)
Theorem time_arithmetic ms x y :
  0 <= ms -> 0 <= tv_usec x -> 0 <= tv_usec y ->
  tv_norm (EVT_ms2tv ms) /\ tv_us (EVT_ms2tv ms) = ms * 1000 /\
  exists c diff y', timeval_subtract x y = (c, Some diff, y') /\
    tv_us diff = tv_us x - tv_us y /\ 0 <= tv_usec diff <= 1000000 /\
    (c = 1 <-> tv_sec diff < 0) /\ tv_us y' = tv_us y.
Proof.
  intros Hms Hx Hy. unfold EVT_ms2tv, tv_norm, tv_us. cbn [tv_sec tv_usec].
  rewrite Z.quot_div_nonneg by lia.
  pose proof (Z.div_mod ms 1000 ltac:(lia)). pose proof (Z.mod_pos_bound ms 1000 ltac:(lia)).
  split; [lia|]. split; [lia|]. unfold timeval_subtract.
  destruct (Z.ltb_spec (tv_usec x) 0); [lia|]. destruct (Z.ltb_spec (tv_usec y) 0); [lia|].
  eexists _, _, _. split; [reflexivity|].
  destruct (Z.ltb_spec (tv_usec x) (tv_usec y)) as [Hlt|Hge]; cbn [tv_sec tv_usec].
  - rewrite (Z.quot_div_nonneg (tv_usec y - tv_usec x)) by lia.
    pose proof (Z.div_mod (tv_usec y - tv_usec x) 1000000 ltac:(lia)).
    pose proof (Z.mod_pos_bound (tv_usec y - tv_usec x) 1000000 ltac:(lia)).
    set (k := (tv_usec y - tv_usec x) / 1000000) in *.
    destruct (Z.ltb_spec 1000000 (tv_usec x - (tv_usec y - 1000000 * (k + 1)))); [lia|].
    cbn [tv_sec tv_usec]. split_and!; try lia. destruct (Z.ltb_spec (tv_sec x) (tv_sec y + (k + 1))); lia.
  - destruct (Z.ltb_spec 1000000 (tv_usec x - tv_usec y)); cbn [tv_sec tv_usec].
    + rewrite (Z.quot_div_nonneg (tv_usec x - tv_usec y)) by lia.
      pose proof (Z.div_mod (tv_usec x - tv_usec y) 1000000 ltac:(lia)).
      pose proof (Z.mod_pos_bound (tv_usec x - tv_usec y) 1000000 ltac:(lia)).
      set (k := (tv_usec x - tv_usec y) / 1000000) in *. split_and!; try lia.
      destruct (Z.ltb_spec (tv_sec x) (tv_sec y - k)); lia.
    + split_and!; try lia. destruct (Z.ltb_spec (tv_sec x) (tv_sec y)); lia.
Qed.

(** *** A new handler *)

Lemma init_pq_wf (m : sched_mem) n q : ps_pqueue_init true true n = Some q -> pq_wf m q /\ contents q = [].
Proof.
  intros [= <-]. split; [|done]. split; [|split].
  - unfold pq_shape, pq_cells. cbn [PriorityQueue.size d avail step]. rewrite length_replicate. lia.
  - intros j H1 H2. cbn [PriorityQueue.size] in H2. lia.
  - intros j H1 H2. cbn [PriorityQueue.size] in H2. lia.
Qed.

Lemma sched_init_wf n null s : sched_init n true true true true null = Some s -> sched_wf s.
Proof.
  unfold sched_init. destruct (ps_pqueue_init true true n) as [q|] eqn:E; [|done].
  intros [= <-].
  set (m := {[null := SCB (TV 0 0) (TV 0 0) 0 0 (Some 0%nat) (TV 0 0) Main 0 false false 0]} : sched_mem).
  destruct (init_pq_wf m n q E) as [H1 H2].
  assert (Hc : forall w, contents (get_queue (Sched m q q 0 None null) w) = []) by (by intros []).
  split_and!.
  - by intros [].
  - intros w p. rewrite Hc. by intros ?%elem_of_nil.
  - simpl. unfold m. rewrite <- insert_empty. by rewrite crit_insert.
  - eexists. simpl. unfold m. by rewrite lookup_singleton_eq.
  - intros w. rewrite Hc. apply not_elem_of_nil.
  - done.
Qed.

Lemma add_wf s now time cb a p ok :
  sched_wf s -> heap s !! p = None -> sched_wf (EVT_sched_add s now time cb a (Some p) ok).2.
Proof.
  intros H Hp. rewrite sched_add_step.
  destruct (add_body s now time time cb a p ok H Hp) as [[_ ->]|(_ & Hw & _)]; done.
Qed.

(** ** Witnesses *)

Definition start0 : sched :=
  default (Sched ∅ (PQ 1 1 1 []) (PQ 1 1 1 []) 0 None 1%positive)
    (sched_init 3 true true true true 1%positive).

Definition add_evt (s : sched) (sec : Z) (p : ptr) : sched :=
  (EVT_sched_add s (TV 100 0) (TV sec 0) 7 8 (Some p) true).2.

(** Events 2, 3 and 4 at 105, 107 and 106 s. *)
Definition demo : sched := add_evt (add_evt (add_evt start0 5 2%positive) 7 3%positive) 6 4%positive.

Lemma start0_wf : sched_wf start0.
Proof. apply (sched_init_wf 3 1%positive). reflexivity. Qed.

Lemma demo_wf : sched_wf demo.
Proof.
  unfold demo, add_evt. apply add_wf; [|vm_compute; reflexivity].
  apply add_wf; [|vm_compute; reflexivity]. apply add_wf; [|vm_compute; reflexivity].
  apply start0_wf.
Qed.

Lemma sched_add_correct_witness :
  let r := EVT_sched_add_with_timestep demo (TV 100 0) (TV 1 0) (TV 9 0) 7 8 (Some 5%positive) true in
  sched_wf r.2 /\ r.1 = Some 5%positive.
Proof.
  cbv zeta.
  destruct (sched_add_correct demo (TV 100 0) (TV 1 0) (TV 9 0) 7 8 5%positive true) as [H1 H2].
  - apply demo_wf.
  - vm_compute. reflexivity.
  - split; [exact H1|vm_compute; reflexivity].
Defined.

Definition demo_evt (p : ptr) : ScheduleCB :=
  default (SCB (TV 0 0) (TV 0 0) 0 0 None (TV 0 0) Main 0 false false 0) (heap demo !! p).

Lemma sched_remove_correct_witness :
  sched_wf (EVT_sched_remove demo (Some 2%positive)).2 /\
  (EVT_sched_remove demo (Some 2%positive)).1 = Some 8.
Proof.
  destruct (sched_remove_correct demo 2%positive (demo_evt 2%positive)) as [_ H].
  - apply demo_wf.
  - vm_compute. reflexivity.
  - vm_compute. discriminate.
  - destruct H as (H1 & H2 & _).
    + vm_compute. reflexivity.
    + left. split; [vm_compute; by left|]. intros Hpos. vm_compute in Hpos. discriminate.
    + split; [exact H1|]. rewrite H2. vm_compute. reflexivity.
Defined.

Lemma sched_update_earlier_witness :
  sched_wf (EVT_sched_update demo (TV 101 0) (TV 0 0) (Some 3%positive) (TV 2 0)).2.
Proof.
  destruct (sched_update_earlier demo (TV 101 0) (TV 0 0) 3%positive (demo_evt 3%positive) (TV 2 0))
    as (_ & H & _).
  - apply demo_wf.
  - vm_compute. reflexivity.
  - apply H.
    + vm_compute. reflexivity.
    + apply (bool_decide_unpack _). vm_compute. reflexivity.
    + apply (bool_decide_unpack _). vm_compute. reflexivity.
Defined.

Lemma sched_update_credit_witness :
  sched_wf (EVT_sched_update_partial_credit demo (TV 101 0) (TV 0 0) (Some 3%positive) (TV 2 0)).2.
Proof.
  destruct (sched_update_credit demo (TV 101 0) (TV 0 0) 3%positive (demo_evt 3%positive) (TV 2 0))
    as (_ & H & _).
  - apply demo_wf.
  - vm_compute. reflexivity.
  - vm_compute. reflexivity.
  - apply (bool_decide_unpack _). vm_compute. reflexivity.
  - apply (bool_decide_unpack _). vm_compute. reflexivity.
  - apply (bool_decide_unpack _). vm_compute. reflexivity.
  - exact H.
Defined.

Lemma time_arithmetic_witness :
  tv_us (EVT_ms2tv 1500) = 1500000 /\
  timeval_subtract (TV 5 100) (TV 3 200) = (0, Some (TV 1 999900), TV 4 (-999800)).
Proof.
  destruct (time_arithmetic 1500 (TV 5 100) (TV 3 200)) as (_ & H & _);
    [lia|simpl; lia|simpl; lia|].
  split; [exact H|reflexivity].
Defined.

(** Moving a timed event to a later time breaks the schedule: with events
    at 105, 106 and 107 s, postponing the first to 110 s leaves it at the head
    of the queue, so that the event loop would next wait for 110 s. *)
Theorem sched_update_later_breaks :
  let s' := (EVT_sched_update demo (TV 100 0) (TV 0 0) (Some 2%positive) (TV 10 0)).2 in
  ps_pqueue_peek (Some (queue s')) = Some 2%positive /\
  get_pri (heap s') 2%positive = TV 110 0 /\
  4%positive ∈ contents (queue s') /\ get_pri (heap s') 4%positive = TV 106 0 /\
  ~ sched_wf s'.
Proof.
  cbv zeta. split_and!; [vm_compute; reflexivity|vm_compute; reflexivity| |vm_compute; reflexivity|].
  - apply (bool_decide_unpack _). vm_compute. reflexivity.
  - intros (W1 & _). destruct (W1 Main) as (_ & Ho & _).
    specialize (Ho 2%nat). revert Ho.
    match goal with |- (_ -> _ -> ?P) -> _ =>
      assert (Hf : bool_decide P = false) by (vm_compute; reflexivity) end.
    apply bool_decide_eq_false in Hf. intros Ho. apply Hf, Ho; [lia|].
    apply (bool_decide_unpack _). vm_compute. reflexivity.
Qed.
