(* ===== verification/FdEvents.v ===== *)
(** * File-descriptor events (the fd table of events.c)

    The callbacks registered for file descriptors: a table of chains hashed by
    descriptor, the descriptor sets handed to select, and the counters that
    bound them.  Callbacks and their arguments are addresses; the cleanup
    callbacks that the table calls are recorded in [calls], with their argument,
    and not run: what they do to the handler is not part of the model.
    Descriptors are not negative, and the sets have no upper bound
    (FD_SETSIZE). *)

From stdpp Require Import base gmap sets list numbers sorting.
From Stdlib Require Import ZArith Lia.
From S2P Require Import Prelude.
Open Scope Z_scope.

(** ** Data *)

(** [EVENT_FD_READ], [EVENT_FD_WRITE], [EVENT_FD_ERROR]; [EVENT_MAX] is 3. *)
Inductive fd_event := FdRead | FdWrite | FdError.

#[export] Instance fd_event_eq_dec : EqDecision fd_event.
Proof. solve_decision. Defined.

Definition all_events : list fd_event := [FdRead; FdWrite; FdError].

(** An array indexed by event. *)
Record per (A : Type) := Per { p_read : A; p_write : A; p_error : A }.
Arguments Per {A}.
Arguments p_read {A}.
Arguments p_write {A}.
Arguments p_error {A}.

Definition get {A} (p : per A) (e : fd_event) : A :=
  match e with FdRead => p_read p | FdWrite => p_write p | FdError => p_error p end.

Definition set {A} (p : per A) (e : fd_event) (v : A) : per A :=
  match e with
  | FdRead => Per v (p_write p) (p_error p)
  | FdWrite => Per (p_read p) v (p_error p)
  | FdError => Per (p_read p) (p_write p) v
  end.

Definition all {A} (v : A) : per A := Per v v v.

(** [struct EventCB] without its name; the chain is a list. *)
Record EventCB := ECB {
  cb : per (option Z);
  cleanup : per (option Z);
  earg : per Z;
  counts : per Z;
  ebreak : per bool;
  einCallback : per Z;
  pausable : bool;
  ecritical : bool;
  fd : Z
}.

(** The descriptor part of [struct EventState]. *)
Record fds := Fds {
  hashSize : Z;
  events : list (list EventCB);
  eventSet : per (gset Z);
  blockedSet : per (gset Z);
  maxFd : Z;
  maxFds : per Z;
  eventCnt : per Z;
  critical_fd_count : Z;
  calls : list (Z * fd_event * Z)
}.

Definition with_cb (n : EventCB) (e : fd_event) (c k : option Z) (a : Z) : EventCB :=
  ECB (set (cb n) e c) (set (cleanup n) e k) (set (earg n) e a) (counts n) (ebreak n)
    (einCallback n) (pausable n) (ecritical n) (fd n).
Definition with_ebreak (n : EventCB) (e : fd_event) (v : bool) : EventCB :=
  ECB (cb n) (cleanup n) (earg n) (counts n) (set (ebreak n) e v)
    (einCallback n) (pausable n) (ecritical n) (fd n).
Definition with_einCallback (n : EventCB) (e : fd_event) (v : Z) : EventCB :=
  ECB (cb n) (cleanup n) (earg n) (counts n) (ebreak n)
    (set (einCallback n) e v) (pausable n) (ecritical n) (fd n).
Definition with_pausable (n : EventCB) (v : bool) : EventCB :=
  ECB (cb n) (cleanup n) (earg n) (counts n) (ebreak n) (einCallback n) v (ecritical n) (fd n).
Definition with_ecritical (n : EventCB) (v : bool) : EventCB :=
  ECB (cb n) (cleanup n) (earg n) (counts n) (ebreak n) (einCallback n) (pausable n) v (fd n).

(** A new entry: [memset] to zero, critical and pausable. *)
Definition new_entry (f : Z) : EventCB :=
  ECB (all None) (all None) (all 0) (all 0) (all false) (all 0) true true f.

Definition is_set {A} (o : option A) : bool := match o with Some _ => true | None => false end.

(** ** Operations *)

Definition fds_init (hs : Z) : fds :=
  Fds hs (replicate (Z.to_nat hs) []) (all ∅) (all ∅) 0 (all 0) (all 0) 0 [].

Definition bucket_of (s : fds) (f : Z) : nat := Z.to_nat (f mod hashSize s).
Definition chain (s : fds) (f : Z) : list EventCB := default [] (events s !! bucket_of s f).
Definition set_chain (s : fds) (f : Z) (c : list EventCB) : fds :=
  Fds (hashSize s) (<[bucket_of s f:=c]> (events s)) (eventSet s) (blockedSet s) (maxFd s)
    (maxFds s) (eventCnt s) (critical_fd_count s) (calls s).

Definition max3 (p : per Z) : Z := Z.max (Z.max (p_read p) (p_write p)) (p_error p).

(** The loop that looks for the next highest descriptor below [f]. *)
Definition next_highest (st : gset Z) (f : Z) : Z :=
  fold_left (fun acc i => if decide (i ∈ st) then i else acc) (seqZ 1 (f - 1)) 0.

(** [EVT_remove_internal] on the entry [n]: the new table state without the
    chain, and what is left of the entry ([None] when it is freed). *)
Definition EVT_remove_internal (s : fds) (n : EventCB) (e : fd_event) : fds * option EventCB :=
  match get (cb n) e with
  | None => (s, Some n)
  | Some _ =>
      let calls' :=
        match get (cleanup n) e with
        | Some k => calls s ++ [(k, e, get (earg n) e)]
        | None => calls s
        end in
      let cnt := set (eventCnt s) e (get (eventCnt s) e - 1) in
      let n' := with_cb n e None None 0 in
      let es := set (eventSet s) e (get (eventSet s) e ∖ {[fd n]}) in
      let bs := set (blockedSet s) e (get (blockedSet s) e ∖ {[fd n]}) in
      let '(mf, mfs) :=
        if fd n =? get (maxFds s) e then
          let mfs0 := set (maxFds s) e 0 in
          if 0 <? get cnt e then
            let mfs1 := set mfs0 e (next_highest (get es e) (fd n)) in
            (max3 mfs1, mfs1)
          else (maxFd s, mfs0)
        else (maxFd s, maxFds s) in
      let deleteIt := negb (existsb (fun i => is_set (get (cb n') i)) all_events) in
      let crit :=
        if deleteIt && ecritical n then critical_fd_count s - 1 else critical_fd_count s in
      (Fds (hashSize s) (events s) es bs mf mfs cnt crit calls',
       if deleteIt then None else Some n')
  end.

(** The walk of [EVT_fd_remove]: every entry of the descriptor whose callback
    does not run. *)
Fixpoint fd_remove_chain (s : fds) (c : list EventCB) (f : Z) (e : fd_event)
    : fds * list EventCB :=
  match c with
  | [] => (s, [])
  | n :: c' =>
      if (fd n =? f) && (get (einCallback n) e =? 0) then
        let '(s1, o) := EVT_remove_internal s n e in
        let '(s2, c2) := fd_remove_chain s1 c' f e in
        (s2, match o with Some n' => n' :: c2 | None => c2 end)
      else
        let '(s2, c2) := fd_remove_chain s c' f e in (s2, n :: c2)
  end.

Definition EVT_fd_remove (s : fds) (f : Z) (e : fd_event) : fds :=
  let '(s', c) := fd_remove_chain s (chain s f) f e in set_chain s' f c.

(** [EVT_fd_force_remove] marks a running callback instead. *)
Fixpoint fd_force_remove_chain (s : fds) (c : list EventCB) (f : Z) (e : fd_event)
    : fds * list EventCB :=
  match c with
  | [] => (s, [])
  | n :: c' =>
      if (fd n =? f) && (get (einCallback n) e =? 0) then
        let '(s1, o) := EVT_remove_internal s n e in
        let '(s2, c2) := fd_force_remove_chain s1 c' f e in
        (s2, match o with Some n' => n' :: c2 | None => c2 end)
      else
        let n' := if (fd n =? f) && negb (get (einCallback n) e =? 0)
                  then with_einCallback n e 3 else n in
        let '(s2, c2) := fd_force_remove_chain s c' f e in (s2, n' :: c2)
  end.

Definition EVT_fd_force_remove (s : fds) (f : Z) (e : fd_event) : fds :=
  let '(s', c) := fd_force_remove_chain s (chain s f) f e in set_chain s' f c.

(** The first entry of a descriptor, with what is before and after it. *)
Fixpoint split_at_fd (c : list EventCB) (f : Z) : option (list EventCB * EventCB * list EventCB) :=
  match c with
  | [] => None
  | n :: c' =>
      if fd n =? f then Some ([], n, c')
      else match split_at_fd c' f with
           | Some (a, m, b) => Some (n :: a, m, b)
           | None => None
           end
  end.

(** [EVT_fd_add_with_cleanup]; [None] as the callback is NULL. *)
Definition EVT_fd_add_with_cleanup (s : fds) (f : Z) (e : fd_event) (c k : option Z) (p : Z)
    (malloc_ok : bool) : Z * fds :=
  match c with
  | None => (0, EVT_fd_remove s f e)
  | Some c0 =>
      let found := split_at_fd (chain s f) f in
      match found, malloc_ok with
      | None, false => (-1, s)
      | _, _ =>
          let '(before, n, after) :=
            match found with Some x => x | None => (chain s f, new_entry f, []) end in
          let crit := match found with Some _ => critical_fd_count s | None => critical_fd_count s + 1 end in
          let cnt := if is_set (get (cb n) e) then eventCnt s
                     else set (eventCnt s) e (get (eventCnt s) e + 1) in
          let calls' :=
            match get (cb n) e, get (cleanup n) e with
            | Some old, Some kk =>
                if (negb (old =? c0) || negb (get (earg n) e =? p)) && negb (get (earg n) e =? p)
                then calls s ++ [(kk, e, get (earg n) e)] else calls s
            | _, _ => calls s
            end in
          let n1 := with_cb n e (Some c0) k p in
          let '(n2, es, bs, mf, mfs) :=
            if negb (get (einCallback n1) e =? 0) then
              (with_einCallback n1 e 2, eventSet s, blockedSet s, maxFd s, maxFds s)
            else
              let es := set (eventSet s) e (get (eventSet s) e ∪ {[f]}) in
              let bs := if negb (pausable n1) || negb (get (ebreak n1) e)
                        then set (blockedSet s) e (get (blockedSet s) e ∪ {[f]}) else blockedSet s in
              let mfs := if get (maxFds s) e <? f then set (maxFds s) e f else maxFds s in
              (n1, es, bs, max3 mfs, mfs) in
          (1, set_chain (Fds (hashSize s) (events s) es bs mf mfs cnt crit calls') f
                (before ++ n2 :: after))
      end
  end.

Definition EVT_fd_add (s : fds) (f : Z) (e : fd_event) (c : option Z) (p : Z) (malloc_ok : bool)
    : Z * fds :=
  EVT_fd_add_with_cleanup s f e c None p malloc_ok.

(** [EVT_fd_set_critical] *)
Fixpoint set_critical_chain (cnt : Z) (c : list EventCB) (f : Z) (crit : bool) : Z * list EventCB :=
  match c with
  | [] => (cnt, [])
  | n :: c' =>
      if fd n =? f then
        let cnt' := if ecritical n && negb crit then cnt - 1
                    else if negb (ecritical n) && crit then cnt + 1 else cnt in
        let '(k, c2) := set_critical_chain cnt' c' f crit in (k, with_ecritical n crit :: c2)
      else
        let '(k, c2) := set_critical_chain cnt c' f crit in (k, n :: c2)
  end.

Definition EVT_fd_set_critical (s : fds) (f : Z) (crit : bool) : fds :=
  let '(k, c) := set_critical_chain (critical_fd_count s) (chain s f) f crit in
  set_chain (Fds (hashSize s) (events s) (eventSet s) (blockedSet s) (maxFd s) (maxFds s)
    (eventCnt s) k (calls s)) f c.

(** The inner loop of [evt_fd_set_pausable] and [evt_fd_set_paused]: the
    blocked sets follow the entry. *)
Definition block_one (n : EventCB) (bs : per (gset Z)) (e : fd_event) : per (gset Z) :=
  if is_set (get (cb n) e) && (negb (pausable n) || negb (get (ebreak n) e))
  then set bs e (get bs e ∪ {[fd n]}) else set bs e (get bs e ∖ {[fd n]}).

Definition refresh_blocked (n : EventCB) (bs : per (gset Z)) : per (gset Z) :=
  fold_left (block_one n) all_events bs.

Fixpoint pause_chain (upd : EventCB -> EventCB) (bs : per (gset Z)) (c : list EventCB) (f : Z)
    : per (gset Z) * list EventCB :=
  match c with
  | [] => (bs, [])
  | n :: c' =>
      if fd n =? f then
        let n' := upd n in
        let '(bs2, c2) := pause_chain upd (refresh_blocked n' bs) c' f in (bs2, n' :: c2)
      else
        let '(bs2, c2) := pause_chain upd bs c' f in (bs2, n :: c2)
  end.

Definition evt_fd_set_pausable (s : fds) (f : Z) (v : bool) : fds :=
  let '(bs, c) := pause_chain (fun n => with_pausable n v) (blockedSet s) (chain s f) f in
  set_chain (Fds (hashSize s) (events s) (eventSet s) bs (maxFd s) (maxFds s)
    (eventCnt s) (critical_fd_count s) (calls s)) f c.

Definition evt_fd_set_paused (s : fds) (f : Z) (v : bool) : fds :=
  let '(bs, c) :=
    pause_chain (fun n => fold_left (fun n e => with_ebreak n e v) all_events n)
      (blockedSet s) (chain s f) f in
  set_chain (Fds (hashSize s) (events s) (eventSet s) bs (maxFd s) (maxFds s)
    (eventCnt s) (critical_fd_count s) (calls s)) f c.

(** [EVT_clean_fdsets]; [ebadf f] is the poll of [f] failing with EBADF. *)
Definition fd_used (s : fds) (f : Z) : bool :=
  existsb (fun e => bool_decide (f ∈ get (eventSet s) e)) all_events.

Definition clean_one (ebadf : Z -> bool) (acc : fds * bool) (f : Z) : fds * bool :=
  let '(s, found) := acc in
  if fd_used s f && ebadf f
  then (EVT_fd_remove (EVT_fd_remove (EVT_fd_remove s f FdRead) f FdWrite) f FdError, true)
  else (s, found).

Definition EVT_clean_fdsets (ebadf : Z -> bool) (s : fds) : fds * bool :=
  fold_left (clean_one ebadf) (seqZ 0 (maxFd s + 1)) (s, false).

(** ** Invariant *)

Fixpoint find_fd (c : list EventCB) (f : Z) : option EventCB :=
  match c with
  | [] => None
  | n :: c' => if fd n =? f then Some n else find_fd c' f
  end.

Definition entry (s : fds) (f : Z) : option EventCB := find_fd (chain s f) f.

Definition has (o : option EventCB) (e : fd_event) : bool :=
  match o with Some n => is_set (get (cb n) e) | None => false end.

(** Registered, and to be watched while the debugger has stopped the program. *)
Definition blk (o : option EventCB) (e : fd_event) : bool :=
  match o with
  | Some n => is_set (get (cb n) e) && (negb (pausable n) || negb (get (ebreak n) e))
  | None => false
  end.

Definition crit (o : option EventCB) : bool :=
  match o with Some n => ecritical n | None => false end.

Fixpoint count_if (P : EventCB -> bool) (l : list EventCB) : Z :=
  match l with [] => 0 | n :: l' => Z.b2z (P n) + count_if P l' end.

(** An entry has a callback, and a callback that runs is registered. *)
Definition entry_ok (n : EventCB) : Prop :=
  (exists e, has (Some n) e = true) /\
  forall e, get (einCallback n) e <> 0 -> has (Some n) e = true.

(** Entries are hashed, unique and not empty; the sets given to select hold
    exactly the registered descriptors, the counters are exact, [maxFds] is for
    each event the highest registered descriptor, 0 if there is none, and
    [maxFd] is at least the highest of all (the code does not lower it when the
    last descriptor of an event goes). *)
Definition fd_wf (s : fds) : Prop :=
  (0 < hashSize s /\ length (events s) = Z.to_nat (hashSize s)) /\
  (forall i c, events s !! i = Some c ->
     Forall (fun n => 0 <= fd n /\ bucket_of s (fd n) = i /\ entry_ok n) c /\ NoDup (fd <$> c)) /\
  (forall e x, x ∈ get (eventSet s) e <-> 0 <= x /\ has (entry s x) e = true) /\
  (forall e x, x ∈ get (blockedSet s) e <-> 0 <= x /\ blk (entry s x) e = true) /\
  (forall e, get (eventCnt s) e = count_if (fun n => has (Some n) e) (concat (events s))) /\
  critical_fd_count s = count_if ecritical (concat (events s)) /\
  (forall e x, x ∈ get (eventSet s) e -> x <= get (maxFds s) e) /\
  (forall e, 0 <= get (maxFds s) e <= maxFd s) /\
  (forall e, get (maxFds s) e = 0 \/ get (maxFds s) e ∈ get (eventSet s) e).

(** ** Lemmas *)

Lemma get_set_eq {A} (p : per A) e v : get (set p e v) e = v.
Proof. by destruct e. Qed.

Lemma get_set_ne {A} (p : per A) e e' v : e <> e' -> get (set p e v) e' = get p e'.
Proof. by destruct e, e'. Qed.

Lemma get_set {A} (p : per A) e e' v :
  get (set p e v) e' = if decide (e = e') then v else get p e'.
Proof. case_decide; [subst; apply get_set_eq|by apply get_set_ne]. Qed.

Lemma count_app P l k : count_if P (l ++ k) = count_if P l + count_if P k.
Proof. induction l as [|n l IH]; simpl; [lia|]. rewrite IH. lia. Qed.

Lemma count_nonneg P l : 0 <= count_if P l.
Proof. induction l as [|n l IH]; simpl; [lia|]. destruct (P n); simpl; lia. Qed.

Lemma count_olist P (o : option EventCB) :
  count_if P (option_list o) = match o with Some n => Z.b2z (P n) | None => 0 end.
Proof. destruct o; simpl; lia. Qed.

Lemma find_fd_app c1 c2 f :
  find_fd (c1 ++ c2) f = match find_fd c1 f with Some n => Some n | None => find_fd c2 f end.
Proof. induction c1 as [|n c1 IH]; simpl; [done|]. destruct (fd n =? f); [done|]. apply IH. Qed.

Lemma find_fd_None c f : find_fd c f = None <-> f ∉ fd <$> c.
Proof.
  induction c as [|n c IH]; simpl; [set_solver|].
  destruct (Z.eqb_spec (fd n) f); set_solver.
Qed.

Lemma split_at_fd_spec c f :
  match split_at_fd c f with
  | None => find_fd c f = None
  | Some (a, n, b) => c = a ++ n :: b /\ fd n = f /\ f ∉ fd <$> a /\ find_fd c f = Some n
  end.
Proof.
  induction c as [|n c IH]; simpl; [done|].
  destruct (Z.eqb_spec (fd n) f) as [E|E]; [set_solver|].
  destruct (split_at_fd c f) as [[[a m] b]|]; [|done].
  destruct IH as (-> & ? & ? & ?). split_and!; try done. set_solver.
Qed.

Lemma bucket_lt s f : fd_wf s -> (bucket_of s f < length (events s))%nat.
Proof.
  intros ((Hs & ->) & _). unfold bucket_of. pose proof (Z.mod_pos_bound f (hashSize s) Hs). lia.
Qed.

Lemma chain_at s f : fd_wf s -> events s !! bucket_of s f = Some (chain s f).
Proof.
  intros H. unfold chain. destruct (lookup_lt_is_Some_2 _ _ (bucket_lt s f H)) as [c ->]. done.
Qed.

(** The chain of a descriptor around its entry. *)
Lemma chain_split s f :
  fd_wf s -> exists c1 c2, chain s f = c1 ++ option_list (entry s f) ++ c2 /\
    f ∉ fd <$> c1 /\ f ∉ fd <$> c2 /\
    (forall n, entry s f = Some n -> fd n = f /\ entry_ok n) /\
    split_at_fd (chain s f) f = (match entry s f with Some n => Some (c1, n, c2) | None => None end) /\
    (entry s f = None -> c2 = []).
Proof.
  intros Hwf. pose proof Hwf as (_ & H & _). destruct (H _ _ (chain_at s f Hwf)) as [Hf Hn].
  unfold entry. pose proof (split_at_fd_spec (chain s f) f) as Hs.
  destruct (split_at_fd (chain s f) f) as [[[a n] b]|].
  - destruct Hs as (E & E1 & E2 & E3). rewrite E3. exists a, b. split_and!; try done.
    + rewrite E, fmap_app in Hn. simpl in Hn. apply NoDup_app in Hn as (_ & _ & Hn).
      apply NoDup_cons in Hn as [Hn _]. by rewrite <- E1.
    + intros n' [= <-]. split; [done|]. rewrite E in Hf. apply Forall_app in Hf as [_ Hf].
      apply Forall_cons_1 in Hf as [(_ & _ & ?) _]. done.
  - rewrite Hs. exists (chain s f), []. simpl. rewrite app_nil_r. split_and!; try done.
    + by apply find_fd_None.
    + set_solver.
Qed.

Lemma concat_insert {A} (bs : list (list A)) i c c' (g : list A -> Z) :
  (forall l k, g (l ++ k) = g l + g k) -> g [] = 0 -> bs !! i = Some c ->
  g (concat (<[i:=c']> bs)) = g (concat bs) - g c + g c'.
Proof.
  intros Ha H0. revert i. induction bs as [|b bs IH]; intros [|i]; simpl; try done.
  - intros [= ->]. rewrite !Ha. lia.
  - intros H. rewrite !Ha, (IH i H). lia.
Qed.

(** Exchanging the entry of one descriptor, with the bookkeeping that goes with
    it, keeps the invariant. *)
Lemma fd_wf_replace s s' f new c1 c2 :
  fd_wf s -> 0 <= f ->
  chain s f = c1 ++ option_list (entry s f) ++ c2 -> f ∉ fd <$> c1 -> f ∉ fd <$> c2 ->
  (forall n, new = Some n -> fd n = f /\ entry_ok n) ->
  hashSize s' = hashSize s ->
  events s' = <[bucket_of s f := c1 ++ option_list new ++ c2]> (events s) ->
  (forall e x, x <> f -> (x ∈ get (eventSet s') e <-> x ∈ get (eventSet s) e)) ->
  (forall e, f ∈ get (eventSet s') e <-> has new e = true) ->
  (forall e x, x <> f -> (x ∈ get (blockedSet s') e <-> x ∈ get (blockedSet s) e)) ->
  (forall e, f ∈ get (blockedSet s') e <-> blk new e = true) ->
  (forall e, get (eventCnt s') e
     = get (eventCnt s) e - Z.b2z (has (entry s f) e) + Z.b2z (has new e)) ->
  critical_fd_count s' = critical_fd_count s - Z.b2z (crit (entry s f)) + Z.b2z (crit new) ->
  (forall e x, x ∈ get (eventSet s') e -> x <= get (maxFds s') e) ->
  (forall e, 0 <= get (maxFds s') e <= maxFd s') ->
  (forall e, get (maxFds s') e = 0 \/ get (maxFds s') e ∈ get (eventSet s') e) ->
  fd_wf s' /\ entry s' f = new /\ (forall x, x <> f -> entry s' x = entry s x).
Proof.
  intros Hwf Hf Hch Hc1 Hc2 Hnew Hhs Hev Hes1 Hes2 Hbs1 Hbs2 Hcnt Hcr Hmx Hmf Hme.
  pose proof Hwf as ((H1 & H2) & H3 & H4 & H5 & H6 & H7 & H8 & H9 & H10).
  pose proof (chain_at s f Hwf) as Hat. pose proof (bucket_lt s f Hwf) as Hlt.
  assert (Hbk : forall x, bucket_of s' x = bucket_of s x) by (intros; unfold bucket_of; by rewrite Hhs).
  assert (Hchain : forall x, chain s' x = if decide (bucket_of s x = bucket_of s f)
            then c1 ++ option_list new ++ c2 else chain s x).
  { intros x. unfold chain. rewrite Hbk, Hev. case_decide as E.
    - rewrite E, list_lookup_insert_eq by done. done.
    - by rewrite list_lookup_insert_ne. }
  assert (Hef : entry s' f = new).
  { unfold entry. rewrite Hchain, decide_True by done.
    rewrite !find_fd_app, (proj2 (find_fd_None c1 f) Hc1), (proj2 (find_fd_None c2 f) Hc2).
    destruct new as [n|]; [|done]. simpl. destruct (Hnew n eq_refl) as [-> _]. by rewrite Z.eqb_refl. }
  assert (Hskip : forall (o : option EventCB) x, x <> f -> (forall n, o = Some n -> fd n = f) ->
            find_fd (option_list o) x = None).
  { intros [n|] x Hx Ho; [|done]. simpl. rewrite (Ho n eq_refl).
    destruct (Z.eqb_spec f x); [congruence|done]. }
  assert (Hex : forall x, x <> f -> entry s' x = entry s x).
  { intros x Hx. unfold entry. rewrite Hchain. case_decide as E; [|done].
    assert (Hcx : chain s x = c1 ++ option_list (entry s f) ++ c2)
      by (rewrite <- Hch; unfold chain; by rewrite E).
    rewrite Hcx, !find_fd_app, !Hskip; [done|done| |done|].
    - intros n Hn. destruct (chain_split s f Hwf) as (_ & _ & _ & _ & _ & Hent & _).
      by apply Hent.
    - intros n Hn. by apply Hnew. }
  split; [|done]. split_and!.
  - by rewrite Hhs.
  - rewrite Hev, length_insert, Hhs. done.
  - intros i c Hi. rewrite Hev in Hi.
    assert (Hconv : forall l, Forall (fun n => 0 <= fd n /\ bucket_of s (fd n) = i /\ entry_ok n) l ->
              Forall (fun n => 0 <= fd n /\ bucket_of s' (fd n) = i /\ entry_ok n) l).
    { intros l Hl. eapply Forall_impl; [exact Hl|]. intros n. by rewrite Hbk. }
    apply list_lookup_insert_Some in Hi as [(<- & <- & _)|[_ Hi]].
    2:{ destruct (H3 i c Hi) as [F1 F2]. split; [by apply Hconv|done]. }
    destruct (H3 _ _ Hat) as [F1 F2]. rewrite Hch in F1, F2.
    rewrite !Forall_app in F1. destruct F1 as (F1a & F1b & F1c).
    rewrite !fmap_app in F2. apply NoDup_app in F2 as (N1 & N2 & N3).
    apply NoDup_app in N3 as (_ & N4 & N5). split.
    + rewrite !Forall_app. split_and!; try (by apply Hconv).
      destruct new as [n|]; simpl; [|constructor]. destruct (Hnew n eq_refl) as [E Hok].
      constructor; [|constructor]. rewrite Hbk, E. done.
    + rewrite !fmap_app. apply NoDup_app. split; [done|]. split.
      * intros x Hx Hin. apply elem_of_app in Hin as [Hin|Hin].
        -- destruct new as [n|]; simpl in Hin; [|by apply elem_of_nil in Hin].
           destruct (Hnew n eq_refl) as [E _]. rewrite E in Hin.
           apply list_elem_of_singleton in Hin. by subst x.
        -- apply (N2 x Hx). apply elem_of_app. by right.
      * apply NoDup_app. split; [destruct new; simpl; repeat constructor; set_solver|].
        split; [|done]. intros x Hx Hin. destruct new as [n|]; simpl in Hx; [|by apply elem_of_nil in Hx].
        destruct (Hnew n eq_refl) as [E _]. rewrite E in Hx.
        apply list_elem_of_singleton in Hx. by subst x.
  - intros e x. destruct (decide (x = f)) as [->|Hx].
    + rewrite Hes2, Hef. by split; [|intros [_ ?]].
    + rewrite Hes1, Hex by done. apply H4.
  - intros e x. destruct (decide (x = f)) as [->|Hx].
    + rewrite Hbs2, Hef. by split; [|intros [_ ?]].
    + rewrite Hbs1, Hex by done. apply H5.
  - intros e. rewrite Hev.
    rewrite (concat_insert _ _ _ _ (count_if _) (count_app _) eq_refl Hat), <- H6, Hcnt, Hch.
    rewrite !count_app, !count_olist. destruct (entry s f), new; simpl; lia.
  - rewrite Hev.
    rewrite (concat_insert _ _ _ _ (count_if _) (count_app _) eq_refl Hat), <- H7, Hcr, Hch.
    rewrite !count_app, !count_olist. destruct (entry s f), new; simpl; lia.
  - done.
  - done.
  - done.
Qed.

(** *** The largest descriptor *)

Lemma next_highest_spec st f :
  let r := next_highest st f in
  (r = 0 \/ 1 <= r < f /\ r ∈ st) /\ forall x, x ∈ st -> 1 <= x < f -> x <= r.
Proof.
  unfold next_highest. set (F := fun acc i => if decide (i ∈ st) then i else acc).
  assert (H : forall k, let r := fold_left F (seqZ 1 (Z.of_nat k)) 0 in
     (r = 0 \/ 1 <= r < 1 + Z.of_nat k /\ r ∈ st) /\ forall x, x ∈ st -> 1 <= x < 1 + Z.of_nat k -> x <= r).
  { induction k as [|k [IH1 IH2]]; [split; [by left|intros; lia]|]. cbv zeta.
    replace (Z.of_nat (S k)) with (Z.of_nat k + 1) by lia.
    rewrite seqZ_app by lia. rewrite fold_left_app.
    set (r := fold_left F (seqZ 1 (Z.of_nat k)) 0) in *.
    replace (seqZ (1 + Z.of_nat k) 1) with [1 + Z.of_nat k] by (rewrite seqZ_cons by lia; done).
    clearbody r. cbn [fold_left]. unfold F. case_decide as Ek.
    - split; [right; split; [lia|done]|]. intros; lia.
    - split; [destruct IH1 as [->|[? ?]]; [by left|right; split; [lia|done]]|]. intros x Hx Hr. destruct (decide (x = 1 + Z.of_nat k)) as [->|]; [done|].
      apply IH2; [done|lia]. }
  destruct (decide (1 <= f)) as [Hf|Hf].
  - specialize (H (Z.to_nat (f - 1))). rewrite Z2Nat.id in H by lia.
    replace (1 + (f - 1)) with f in H by lia. exact H.
  - rewrite seqZ_nil by lia. split; [by left|intros; lia].
Qed.

Lemma max3_spec p e : get p e <= max3 p.
Proof. unfold max3. destruct e; simpl; lia. Qed.

Lemma max3_nonneg p : (forall e, 0 <= get p e) -> 0 <= max3 p.
Proof. intros H. pose proof (H FdRead). simpl in *. unfold max3. lia. Qed.

Lemma max3_in p m : (forall e, get p e <= m) -> max3 p <= m.
Proof. intros H. pose proof (H FdRead). pose proof (H FdWrite). pose proof (H FdError). unfold max3. simpl in *. lia. Qed.

(** *** Removing *)

(** What is left of an entry without its callback for [e]. *)
Definition drop_event (n : EventCB) (e : fd_event) : option EventCB :=
  if has (Some n) e then
    let n' := with_cb n e None None 0 in
    if existsb (has (Some n')) all_events then Some n' else None
  else Some n.

Lemma has_with_cb n e c k a e' :
  has (Some (with_cb n e c k a)) e' = if decide (e = e') then is_set c else has (Some n) e'.
Proof. simpl. rewrite get_set. by case_decide. Qed.

Lemma drop_event_has n e e' :
  has (drop_event n e) e' = if decide (e = e') then false else has (Some n) e'.
Proof.
  unfold drop_event. destruct (has (Some n) e) eqn:Hh.
  - destruct (existsb _ all_events) eqn:Ex; [apply has_with_cb|].
    assert (Hno : forall i, has (Some (with_cb n e None None 0)) i = false).
    { intros i. apply not_true_iff_false. intros Hi.
      assert (Ht : existsb (has (Some (with_cb n e None None 0))) all_events = true).
      { apply existsb_exists. exists i. split; [destruct i; simpl; tauto|done]. }
      congruence. }
    specialize (Hno e'). rewrite has_with_cb in Hno. by destruct (decide (e = e')).
  - case_decide; [by subst|done].
Qed.

Lemma drop_event_fd n e n' : drop_event n e = Some n' -> fd n' = fd n.
Proof. unfold drop_event. repeat case_match; intros; by simplify_eq. Qed.

Lemma drop_event_ok n e n' :
  entry_ok n -> get (einCallback n) e = 0 -> drop_event n e = Some n' -> entry_ok n'.
Proof.
  intros [Ho Hc] H0 Hd. pose proof (drop_event_has n e) as Hh. rewrite Hd in Hh.
  assert (Hin : einCallback n' = einCallback n)
    by (unfold drop_event in Hd; repeat case_match; by simplify_eq).
  split.
  - unfold drop_event in Hd. destruct (has (Some n) e) eqn:E.
    + destruct (existsb _ all_events) eqn:Ex; [|done]. apply existsb_exists in Ex as (i & _ & Hi).
      exists i. congruence.
    + injection Hd as <-. done.
  - intros e' He'. rewrite Hin in He'. rewrite Hh. case_decide; [by subst|]. by apply Hc.
Qed.

Lemma drop_event_blk n e e' :
  blk (drop_event n e) e' = if decide (e = e') then false else blk (Some n) e'.
Proof.
  pose proof (drop_event_has n e e') as H. unfold blk, has in *.
  assert (Hsame : forall n', drop_event n e = Some n' -> pausable n' = pausable n /\ ebreak n' = ebreak n)
    by (unfold drop_event; intros; repeat case_match; by simplify_eq).
  destruct (drop_event n e) as [n'|].
  - destruct (Hsame n' eq_refl) as [-> ->]. rewrite H. by case_decide.
  - case_decide; [done|]. by rewrite <- H.
Qed.

Lemma remove_chain_skip s c f e : f ∉ fd <$> c -> fd_remove_chain s c f e = (s, c).
Proof.
  induction c as [|n c IH]; simpl; [done|]. intros Hn.
  destruct (Z.eqb_spec (fd n) f); [set_solver|]. simpl. rewrite IH by set_solver. done.
Qed.

Lemma remove_chain_at s c1 n c2 f e :
  f ∉ fd <$> c1 -> f ∉ fd <$> c2 -> fd n = f ->
  fd_remove_chain s (c1 ++ n :: c2) f e =
    if get (einCallback n) e =? 0 then
      ((EVT_remove_internal s n e).1, c1 ++ option_list (EVT_remove_internal s n e).2 ++ c2)
    else (s, c1 ++ n :: c2).
Proof.
  intros H1 H2 Hn. induction c1 as [|m c1 IH]; simpl.
  - rewrite Hn, Z.eqb_refl. simpl. destruct (get (einCallback n) e =? 0).
    + destruct (EVT_remove_internal s n e) as [s1 o]. rewrite remove_chain_skip by done.
      by destruct o.
    + by rewrite remove_chain_skip.
  - destruct (Z.eqb_spec (fd m) f); [set_solver|]. simpl.
    rewrite IH by set_solver. by destruct (get (einCallback n) e =? 0).
Qed.

Lemma entry_elem s x n : fd_wf s -> entry s x = Some n -> n ∈ concat (events s) /\ fd n = x.
Proof.
  intros Hwf He. destruct (chain_split s x Hwf) as (c1 & c2 & Hch & _ & _ & Hent & _).
  destruct (Hent n He) as [Hfd _]. split; [|done].
  rewrite list_elem_of_In, in_concat. exists (chain s x). split.
  - apply list_elem_of_In, list_elem_of_lookup_2 with (bucket_of s x). by apply chain_at.
  - apply list_elem_of_In. rewrite Hch, He. set_solver.
Qed.

Lemma count_one P a l : a ∈ l -> P a = true -> 1 <= count_if P l.
Proof.
  induction l as [|n l IH]; intros Hin Ha; [by apply elem_of_nil in Hin|].
  apply elem_of_cons in Hin as [<-|Hin]; simpl; [rewrite Ha; simpl; pose proof (count_nonneg P l); lia|].
  specialize (IH Hin Ha). destruct (P n); simpl; lia.
Qed.

Lemma count_two P a b l :
  a ∈ l -> b ∈ l -> fd a <> fd b -> P a = true -> P b = true -> 2 <= count_if P l.
Proof.
  induction l as [|n l IH]; intros Ha Hb Hne Pa Pb; [by apply elem_of_nil in Ha|].
  apply elem_of_cons in Ha as [<-|Ha]; apply elem_of_cons in Hb as [<-|Hb]; simpl; [done|..].
  - rewrite Pa. pose proof (count_one P b l Hb Pb). simpl. lia.
  - rewrite Pb. pose proof (count_one P a l Ha Pa). simpl. lia.
  - specialize (IH Ha Hb Hne Pa Pb). destruct (P n); simpl; lia.
Qed.

(** The bounds [EVT_remove_internal] computes for the sets without [f]. *)
Definition removed_max (s : fds) (f : Z) (e : fd_event) : Z * per Z :=
  if f =? get (maxFds s) e then
    let mfs0 := set (maxFds s) e 0 in
    if 0 <? get (eventCnt s) e - 1 then
      let mfs1 := set mfs0 e (next_highest (get (eventSet s) e ∖ {[f]}) f) in (max3 mfs1, mfs1)
    else (maxFd s, mfs0)
  else (maxFd s, maxFds s).

Lemma removed_max_ok s f e n :
  fd_wf s -> entry s f = Some n -> has (Some n) e = true ->
  (forall e' x, x ∈ get (eventSet s) e' -> (e' = e -> x <> f) -> x <= get (removed_max s f e).2 e') /\
  (forall e', 0 <= get (removed_max s f e).2 e' <= (removed_max s f e).1) /\
  (forall e', get (removed_max s f e).2 e' = 0 \/
     get (removed_max s f e).2 e' ∈ get (eventSet s) e' /\ (e' = e -> get (removed_max s f e).2 e' <> f)).
Proof.
  intros Hwf He Hn. pose proof Hwf as (_ & _ & H4 & _ & H6 & _ & H8 & H9 & H10). unfold removed_max.
  destruct (Z.eqb_spec f (get (maxFds s) e)) as [Em|Em]; [|split_and!; [intros; by apply H8|apply H9|]].
  2:{ intros e'. destruct (H10 e') as [H|H]; [by left|right]. split; [done|]. intros ->. cbn [snd]. congruence. }
  destruct (Z.ltb_spec 0 (get (eventCnt s) e - 1)) as [Hpos|Hz]; cbn [fst snd].
  - destruct (next_highest_spec (get (eventSet s) e ∖ {[f]}) f) as [R1 R2]. split_and!.
    + intros e' x Hx Hne. rewrite !get_set. case_decide as Ee; [|by apply H8].
      subst e'. pose proof (H8 e x Hx). apply H4 in Hx as [Hx0 Hx1].
      destruct (decide (x = 0)) as [->|]; [lia|]. apply R2; [|specialize (Hne eq_refl); lia].
      apply elem_of_difference. split; [by apply H4|set_solver].
    + intros e'. split; [|apply max3_spec]. rewrite !get_set. repeat case_decide; try lia. apply H9.
    + intros e'. rewrite !get_set. case_decide as Ee.
      * subst e'. destruct R1 as [R1|[R1 R3]]; [by left|right]. split; [set_solver|]. intros _. lia.
      * destruct (H10 e') as [H|H]; [by left|right]. split; [done|]. congruence.
  - split_and!.
    + intros e' x Hx Hne. rewrite get_set. case_decide as Ee; [|by apply H8]. subst e'. exfalso.
      apply H4 in Hx as [_ Hxe]. destruct (entry s x) as [nx|] eqn:Ex; [|done].
      destruct (entry_elem s x nx Hwf Ex) as [E1 E2]. destruct (entry_elem s f n Hwf He) as [E3 E4].
      pose proof (count_two (fun n => has (Some n) e) nx n _ E1 E3) as Hc.
      rewrite <- H6 in Hc. specialize (Hne eq_refl).
      assert (2 <= get (eventCnt s) e) by (apply Hc; [congruence|done|done]). lia.
    + intros e'. rewrite get_set. case_decide; [pose proof (H9 e); subst; lia|apply H9].
    + intros e'. rewrite get_set. case_decide as Ee; [by left|].
      destruct (H10 e') as [H|H]; [by left|right]. split; [done|]. congruence.
Qed.

Lemma remove_internal_eq s n e c0 :
  get (cb n) e = Some c0 ->
  EVT_remove_internal s n e =
    (Fds (hashSize s) (events s) (set (eventSet s) e (get (eventSet s) e ∖ {[fd n]}))
       (set (blockedSet s) e (get (blockedSet s) e ∖ {[fd n]}))
       (removed_max s (fd n) e).1 (removed_max s (fd n) e).2
       (set (eventCnt s) e (get (eventCnt s) e - 1))
       (critical_fd_count s - Z.b2z (ecritical n) + Z.b2z (crit (drop_event n e)))
       (match get (cleanup n) e with
        | Some k => calls s ++ [(k, e, get (earg n) e)] | None => calls s end),
     drop_event n e).
Proof.
  intros Hc. unfold EVT_remove_internal. rewrite Hc. unfold removed_max. rewrite !get_set_eq.
  assert (Hd : drop_event n e = if negb (existsb (fun i => is_set (get (cb (with_cb n e None None 0)) i))
             all_events) then None else Some (with_cb n e None None 0)).
  { unfold drop_event. simpl has at 1. rewrite Hc. cbn [is_set].
    change (existsb (has (Some (with_cb n e None None 0))) all_events) with
      (existsb (fun i => is_set (get (cb (with_cb n e None None 0)) i)) all_events).
    by destruct (existsb _ all_events). }
  rewrite Hd. destruct (negb _); cbn [andb crit with_cb ecritical];
    (destruct (fd n =? get (maxFds s) e); [destruct (0 <? get (eventCnt s) e - 1)|]);
    destruct (ecritical n); cbn [Z.b2z fst snd]; repeat f_equal; lia.
Qed.

(** The bookkeeping of [EVT_remove_internal]. *)
Lemma remove_internal_wf s f n e c1 c2 :
  fd_wf s -> 0 <= f -> entry s f = Some n -> get (einCallback n) e = 0 ->
  chain s f = c1 ++ n :: c2 -> f ∉ fd <$> c1 -> f ∉ fd <$> c2 ->
  let s' := set_chain (EVT_remove_internal s n e).1 f
              (c1 ++ option_list (EVT_remove_internal s n e).2 ++ c2) in
  fd_wf s' /\ entry s' f = drop_event n e /\ (forall x, x <> f -> entry s' x = entry s x).
Proof.
  intros Hwf Hf He H0 Hch Hc1 Hc2.
  destruct (chain_split s f Hwf) as (_ & _ & _ & _ & _ & Hent & _). destruct (Hent n He) as [Hfd Hok].
  pose proof Hwf as (_ & _ & H4 & H5 & _).
  destruct (get (cb n) e) as [c0|] eqn:Ecb.
  2:{ assert (Hd : drop_event n e = Some n) by (unfold drop_event; simpl; by rewrite Ecb).
      assert (Hs : set_chain s f (c1 ++ option_list (Some n) ++ c2) = s).
      { unfold set_chain. simpl. rewrite <- Hch, list_insert_id by (by apply chain_at). by destruct s. }
      unfold EVT_remove_internal. rewrite Ecb. cbn [fst snd]. rewrite Hs, Hd. done. }
  assert (Hhas : has (Some n) e = true) by (simpl; by rewrite Ecb).
  destruct (removed_max_ok s f e n Hwf He Hhas) as (M1 & M2 & M3).
  rewrite (remove_internal_eq s n e c0 Ecb), Hfd. cbn [fst snd].
  apply (fd_wf_replace s _ f (drop_event n e) c1 c2); try done.
  - by rewrite He.
  - intros n' Hn'. rewrite (drop_event_fd n e n' Hn'). split; [done|by eapply drop_event_ok].
  - intros e' x Hx. cbn [set_chain eventSet]. rewrite get_set. case_decide; [subst|done]. set_solver.
  - intros e'. cbn [set_chain eventSet]. rewrite get_set, drop_event_has. case_decide.
    + set_solver.
    + rewrite H4, He. by split; [intros [_ ?]|].
  - intros e' x Hx. cbn [set_chain blockedSet]. rewrite get_set. case_decide; [subst|done]. set_solver.
  - intros e'. cbn [set_chain blockedSet]. rewrite get_set, drop_event_blk. case_decide.
    + set_solver.
    + rewrite H5, He. by split; [intros [_ ?]|].
  - intros e'. cbn [set_chain eventCnt]. rewrite get_set, He, drop_event_has. case_decide.
    + subst e'. rewrite Hhas. simpl. lia.
    + lia.
  - by rewrite He.
  - intros e' x. cbn [set_chain eventSet maxFds]. rewrite get_set. case_decide; [subst|].
    + intros Hx. apply M1; set_solver.
    + intros Hx. apply M1; [done|congruence].
  - intros e'. cbn [set_chain eventSet maxFds]. destruct (M3 e') as [M|[M Mf]]; [by left|right].
    rewrite get_set. case_decide; [subst|done]. specialize (Mf eq_refl). set_solver.
Qed.

(** The entry [EVT_fd_remove] leaves. *)
Definition removed_entry (o : option EventCB) (e : fd_event) : option EventCB :=
  match o with
  | Some n => if get (einCallback n) e =? 0 then drop_event n e else Some n
  | None => None
  end.

Lemma set_chain_id s f : fd_wf s -> set_chain s f (chain s f) = s.
Proof.
  intros Hwf. unfold set_chain. rewrite list_insert_id by (by apply chain_at). by destruct s.
Qed.

Lemma fd_remove_wf s f e :
  fd_wf s -> 0 <= f ->
  let s' := EVT_fd_remove s f e in
  fd_wf s' /\ entry s' f = removed_entry (entry s f) e /\ (forall x, x <> f -> entry s' x = entry s x).
Proof.
  intros Hwf Hf. destruct (chain_split s f Hwf) as (c1 & c2 & Hch & H1 & H2 & Hent & _ & Hc2).
  unfold EVT_fd_remove. destruct (entry s f) as [n|] eqn:He; simpl in Hch |- *.
  - destruct (Hent n eq_refl) as [Hfd _]. rewrite Hch, remove_chain_at by done.
    destruct (Z.eqb_spec (get (einCallback n) e) 0) as [E0|E0].
    + by apply remove_internal_wf.
    + rewrite <- Hch, set_chain_id by done. done.
  - rewrite Hc2 in Hch by done. rewrite app_nil_r in Hch. subst c1.
    rewrite remove_chain_skip, set_chain_id by done. done.
Qed.

(** While another descriptor is left for the event, the counter says so. *)
Lemma removed_max_all s f e n :
  fd_wf s -> entry s f = Some n -> has (Some n) e = true -> f = get (maxFds s) e ->
  get (eventSet s) e ∖ {[f]} <> ∅ -> (removed_max s f e).1 = max3 (removed_max s f e).2.
Proof.
  intros Hwf He Hn Hm Hne. pose proof Hwf as (_ & _ & H4 & _ & H6 & _). unfold removed_max.
  rewrite (proj2 (Z.eqb_eq _ _) Hm). destruct (Z.ltb_spec 0 (get (eventCnt s) e - 1)) as [|Hz]; [done|].
  exfalso. apply set_choose_L in Hne as [x Hx]. apply elem_of_difference in Hx as [Hx Hxf].
  apply not_elem_of_singleton in Hxf. apply H4 in Hx as [_ Hx]. destruct (entry s x) as [nx|] eqn:Ex; [|done].
  destruct (entry_elem s x nx Hwf Ex) as [E1 E2]. destruct (entry_elem s f n Hwf He) as [E3 E4].
  pose proof (count_two (fun n => has (Some n) e) nx n _ E1 E3) as Hc. rewrite <- H6 in Hc.
  assert (2 <= get (eventCnt s) e) by (apply Hc; [congruence|done|done]). lia.
Qed.

(** C8. In a well-formed table, removing an event of a descriptor that is not
    negative leaves a well-formed table ([fd_wf]): the sets for select hold
    exactly the registered descriptors, the counters are exact, and for each
    event [maxFds] is the highest registered descriptor, found again below the
    one that goes; [maxFd] becomes the highest of the three when the
    descriptor was the highest of its event and another is left for that event.
    (When none is left the code keeps [maxFd], which is then only a bound.)
    While the callback of the event runs, nothing changes; otherwise the
    descriptor leaves the set of that event and stays in or out of the sets of
    its other events, its entry is freed exactly when it has no other callback,
    and the entries of all other descriptors stay as they are. *)
Theorem fd_remove_correct s f e :
  fd_wf s -> 0 <= f ->
  let s' := EVT_fd_remove s f e in
  fd_wf s' /\
  (forall n, entry s f = Some n -> get (einCallback n) e <> 0 -> s' = s) /\
  (forall n, entry s f = Some n -> get (einCallback n) e = 0 ->
     f ∉ get (eventSet s') e /\
     (forall e', e' <> e -> (f ∈ get (eventSet s') e' <-> f ∈ get (eventSet s) e')) /\
     (entry s' f = None <-> forall e', e' <> e -> has (entry s f) e' = false) /\
     (has (Some n) e = true -> f = get (maxFds s) e -> get (eventSet s') e <> ∅ ->
        maxFd s' = max3 (maxFds s'))) /\
  (forall e', (forall x, x ∈ get (eventSet s') e' -> x <= get (maxFds s') e') /\
     (get (maxFds s') e' ∈ get (eventSet s') e' \/ get (maxFds s') e' = 0) /\
     get (maxFds s') e' <= maxFd s') /\
  (forall x, x <> f -> entry s' x = entry s x).
Proof.
  intros Hwf Hf s'. destruct (fd_remove_wf s f e Hwf Hf) as (Hwf' & He' & Hx). fold s' in Hwf', He', Hx.
  split; [done|]. split; [|split; [|split; [|done]]].
  3:{ pose proof Hwf' as (_ & _ & _ & _ & _ & _ & H8 & H9 & H10). intros e'. split; [apply H8|].
      split; [destruct (H10 e'); auto|apply H9]. }
  - intros n Hn Hc. destruct (chain_split s f Hwf) as (c1 & c2 & Hch & H1 & H2 & Hent & _).
    rewrite Hn in Hch. destruct (Hent n Hn) as [Hfd _]. unfold s', EVT_fd_remove.
    simpl in Hch. rewrite Hch, remove_chain_at by done.
    rewrite (proj2 (Z.eqb_neq _ _) Hc), <- Hch. by apply set_chain_id.
  - intros n Hn Hc. rewrite Hn in He'. simpl in He'. rewrite Hc in He'. simpl in He'.
    pose proof Hwf as (_ & _ & H4 & _). pose proof Hwf' as (_ & _ & H4' & _).
    split; [|split; [|split]].
    4:{ intros Hh Hm Hne. destruct (chain_split s f Hwf) as (c1 & c2 & Hch & H1 & H2 & Hent & _).
        rewrite Hn in Hch. destruct (Hent n Hn) as [Hfd _]. destruct (get (cb n) e) as [c0|] eqn:Ec; [|by simpl in Hh; rewrite Ec in Hh].
        revert Hne. unfold s', EVT_fd_remove. simpl in Hch. rewrite Hch, remove_chain_at by done.
        rewrite Hc. cbn [Z.eqb]. rewrite (remove_internal_eq s n e c0 Ec), Hfd.
        cbn [fst snd set_chain maxFd maxFds eventSet]. rewrite get_set_eq. by apply (removed_max_all s f e n). }
    + rewrite H4', He', drop_event_has, decide_True by done. by intros [_ ?].
    + intros e' Hne. rewrite H4', H4, He', Hn, drop_event_has, decide_False by done. done.
    + rewrite He', Hn. pose proof (drop_event_has n e) as Hd. split.
      * intros Hz e' Hne. specialize (Hd e'). rewrite Hz, decide_False in Hd by done. done.
      * intros Hall. unfold drop_event.
        destruct (chain_split s f Hwf) as (_ & _ & _ & _ & _ & Hent & _).
        destruct (Hent n Hn) as [_ [[i Hi] _]].
        destruct (has (Some n) e) eqn:Eh.
        -- destruct (existsb _ all_events) eqn:Ex; [|done]. exfalso.
           apply existsb_exists in Ex as (j & _ & Hj). rewrite has_with_cb in Hj.
           destruct (decide (e = j)); [done|]. rewrite Hall in Hj; done.
        -- exfalso. destruct (decide (i = e)) as [->|Hne]; [congruence|].
           rewrite Hall in Hi; done.
Qed.

(** *** Adding *)

(** The entry a registration leaves. *)
Definition added_entry (o : option EventCB) (f : Z) (e : fd_event) (c : Z) (k : option Z) (p : Z)
    : EventCB :=
  let n := with_cb (default (new_entry f) o) e (Some c) k p in
  if get (einCallback n) e =? 0 then n else with_einCallback n e 2.

Lemma added_has o f e c k p e' :
  has (Some (added_entry o f e c k p)) e' = if decide (e = e') then true else has o e'.
Proof.
  unfold added_entry. assert (H : forall n, has (Some (with_cb n e (Some c) k p)) e'
    = if decide (e = e') then true else has (Some n) e') by (intros; apply has_with_cb).
  destruct o as [n|]; simpl default; destruct (_ =? 0);
    cbn [has with_einCallback cb] in *; rewrite H; case_decide; try done; by destruct e'.
Qed.

Lemma added_blk o f e c k p e' :
  let n := default (new_entry f) o in
  blk (Some (added_entry o f e c k p)) e'
    = if decide (e = e') then negb (pausable n) || negb (get (ebreak n) e) else blk o e'.
Proof.
  intros n. pose proof (added_has o f e c k p e') as H. unfold blk. simpl in H. rewrite H.
  assert (Hp : pausable (added_entry o f e c k p) = pausable n /\
               ebreak (added_entry o f e c k p) = ebreak n)
    by (unfold added_entry; fold n; by destruct (_ =? 0)).
  destruct Hp as [-> ->]. case_decide; [by subst|]. subst n. destruct o as [n|]; [done|].
  by destruct e'.
Qed.

Lemma added_fd o f e c k p :
  (forall n, o = Some n -> fd n = f) -> fd (added_entry o f e c k p) = f.
Proof.
  intros H. unfold added_entry. destruct o as [n|]; simpl default; destruct (_ =? 0); simpl; auto.
Qed.

Lemma added_ok o f e c k p :
  (forall n, o = Some n -> entry_ok n) -> entry_ok (added_entry o f e c k p).
Proof.
  intros H. split.
  - exists e. rewrite added_has. by rewrite decide_True.
  - intros e' He'. rewrite added_has. case_decide as Ed; [done|].
    assert (Hin : get (einCallback (default (new_entry f) o)) e' <> 0).
    { revert He'. unfold added_entry. destruct (_ =? 0); simpl; [done|]. by rewrite get_set_ne. }
    destruct o as [n|]; [by apply (H n eq_refl)|]. by destruct e'.
Qed.

Lemma added_crit o f e c k p :
  crit (Some (added_entry o f e c k p)) = match o with Some n => ecritical n | None => true end.
Proof. unfold added_entry. destruct o as [n|]; simpl default; by destruct (_ =? 0). Qed.

(** The state a registration builds, around the chain [c1], [c2]. *)
Definition added_state (s : fds) (f : Z) (e : fd_event) (c : Z) (k : option Z) (p : Z)
    (cl : list (Z * fd_event * Z)) (c1 c2 : list EventCB) : fds :=
  let o := entry s f in
  let n := default (new_entry f) o in
  let run := negb (get (einCallback n) e =? 0) in
  let mfs := if run then maxFds s
             else if get (maxFds s) e <? f then set (maxFds s) e f else maxFds s in
  set_chain
    (Fds (hashSize s) (events s)
       (if run then eventSet s else set (eventSet s) e (get (eventSet s) e ∪ {[f]}))
       (if run then blockedSet s
        else if negb (pausable n) || negb (get (ebreak n) e)
             then set (blockedSet s) e (get (blockedSet s) e ∪ {[f]}) else blockedSet s)
       (if run then maxFd s else max3 mfs) mfs
       (if has o e then eventCnt s else set (eventCnt s) e (get (eventCnt s) e + 1))
       (match o with Some _ => critical_fd_count s | None => critical_fd_count s + 1 end) cl)
    f (c1 ++ added_entry o f e c k p :: c2).

Lemma fd_add_unfold s f e c k p ok c1 c2 :
  split_at_fd (chain s f) f = (match entry s f with Some n => Some (c1, n, c2) | None => None end) ->
  (entry s f = None -> c1 = chain s f /\ c2 = []) ->
  (entry s f = None -> ok = true) ->
  exists cl, EVT_fd_add_with_cleanup s f e (Some c) k p ok = (1, added_state s f e c k p cl c1 c2).
Proof.
  intros Hs Hn Hok. unfold EVT_fd_add_with_cleanup. rewrite Hs.
  unfold added_state, added_entry. destruct (entry s f) as [n|] eqn:He.
  - change (default (new_entry f) (Some n)) with n.
    eexists. cbn [has with_cb einCallback pausable ebreak].
    destruct (get (einCallback n) e =? 0); cbn [negb]; reflexivity.
  - rewrite Hok by done. destruct (Hn eq_refl) as [-> ->].
    eexists. destruct e; simpl; reflexivity.
Qed.

Lemma fd_add_wf s f e c k p ok :
  fd_wf s -> 0 <= f -> (entry s f = None -> ok = true) ->
  let r := EVT_fd_add_with_cleanup s f e (Some c) k p ok in
  r.1 = 1 /\ fd_wf r.2 /\ entry r.2 f = Some (added_entry (entry s f) f e c k p) /\
  (forall x, x <> f -> entry r.2 x = entry s x).
Proof.
  intros Hwf Hf Hok. destruct (chain_split s f Hwf) as (c1 & c2 & Hch & H1 & H2 & Hent & Hsp & Hc2).
  destruct (fd_add_unfold s f e c k p ok c1 c2 Hsp) as [cl Heq]; [|done|].
  { intros Hn. specialize (Hc2 Hn). subst c2. rewrite Hn in Hch. simpl in Hch.
    by rewrite app_nil_r in Hch. }
  cbv zeta. rewrite Heq. cbn [fst snd]. split; [done|].
  pose proof Hwf as (_ & _ & H4 & H5 & _ & _ & H8 & H9 & H10). unfold added_state.
  set (o := entry s f) in *. set (n := default (new_entry f) o).
  (* a callback that runs is registered already *)
  assert (Hrun : get (einCallback n) e <> 0 -> has o e = true).
  { subst n. destruct o as [m|]; simpl; [apply (Hent m eq_refl)|]. by destruct e. }
  apply (fd_wf_replace s _ f (Some (added_entry o f e c k p)) c1 c2); try done.
  - intros m [= <-]. split; [apply added_fd; intros; by apply Hent|].
    apply added_ok. intros; by apply Hent.
  - intros e' x Hx. cbn [set_chain eventSet]. destruct (negb _); [done|].
    rewrite get_set. case_decide; [subst; set_solver|done].
  - intros e'. cbn [set_chain eventSet]. rewrite added_has.
    destruct (Z.eqb_spec (get (einCallback n) e) 0) as [E0|E0]; cbn [negb].
    + rewrite get_set. case_decide; [set_solver|]. rewrite H4. by split; [intros [_ ?]|].
    + rewrite H4. fold o. case_decide; [subst; rewrite Hrun by done|]; by split; [intros [_ ?]|].
  - intros e' x Hx. cbn [set_chain blockedSet]. destruct (negb _); [done|]. destruct (_ || _); [|done].
    rewrite get_set. case_decide; [subst; set_solver|done].
  - intros e'. cbn [set_chain blockedSet]. rewrite added_blk. fold n.
    destruct (Z.eqb_spec (get (einCallback n) e) 0) as [E0|E0]; cbn [negb].
    + destruct (negb (pausable n) || negb (get (ebreak n) e)) eqn:Eb.
      * rewrite get_set. case_decide; [set_solver|]. rewrite H5. by split; [intros [_ ?]|].
      * rewrite H5. fold o. case_decide; [|by split; [intros [_ ?]|]]. subst e'. split; [|done].
        intros [_ Hb]. subst n. destruct o as [m|]; [|done]. simpl in Hb, Eb.
        apply andb_true_iff in Hb as [_ Hb]. congruence.
    + rewrite H5. fold o. case_decide as Ee; [|by split; [intros [_ ?]|]]. subst e'.
      specialize (Hrun E0). subst n. destruct o as [m|]; [|done]. simpl in Hrun |- *. rewrite Hrun.
      by split; [intros [_ ?]|].
  - intros e'. cbn [set_chain eventCnt]. rewrite added_has. fold o.
    destruct (has o e) eqn:Eh; [case_decide; [subst; rewrite Eh; simpl; lia|lia]|].
    rewrite get_set. case_decide; [subst; rewrite Eh; simpl; lia|lia].
  - rewrite added_crit. cbn [set_chain critical_fd_count]. fold o.
    destruct o as [m|]; simpl; [destruct (ecritical m)|]; simpl; lia.
  - intros e' x. cbn [set_chain eventSet maxFds].
    destruct (negb _); [apply H8|]. rewrite get_set. intros Hx.
    destruct (Z.ltb_spec (get (maxFds s) e) f) as [Hlt|Hge].
    + rewrite get_set. case_decide as Ee; [|by apply H8]. subst e'.
      apply elem_of_union in Hx as [Hx|Hx]; [specialize (H8 e x Hx); lia|].
      apply elem_of_singleton in Hx. lia.
    + case_decide as Ee; [|by apply H8]. subst e'.
      apply elem_of_union in Hx as [Hx|Hx]; [by apply H8|]. apply elem_of_singleton in Hx. lia.
  - intros e'. cbn [set_chain maxFds maxFd]. destruct (negb _); [apply H9|].
    split; [|apply max3_spec]. destruct (Z.ltb_spec (get (maxFds s) e) f); [|apply H9].
    rewrite get_set. case_decide; [lia|apply H9].
  - intros e'. cbn [set_chain eventSet maxFds]. destruct (negb _); [apply H10|].
    destruct (Z.ltb_spec (get (maxFds s) e) f) as [Hlt|Hge]; rewrite !get_set; case_decide as Ee; try apply H10.
    + right. set_solver.
    + subst e'. destruct (H10 e) as [H|H]; [by left|right]. set_solver.
Qed.

(** Without memory for a new entry nothing changes. *)
Lemma add_fails s f e c p : fd_wf s -> entry s f = None -> EVT_fd_add s f e (Some c) p false = (-1, s).
Proof.
  intros Hwf He. destruct (chain_split s f Hwf) as (c1 & c2 & _ & _ & _ & _ & Hsp & _).
  unfold EVT_fd_add, EVT_fd_add_with_cleanup. cbv zeta. rewrite Hsp, He. done.
Qed.

(** C7. Registering an event of a descriptor that is not negative, in a
    well-formed table: without a callback it is a removal and the code is 0;
    with one, the code is 1 unless a new entry cannot be allocated, which gives
    -1 and changes nothing.  (The comments in events.h promise 1 and 0.)  On
    success the descriptor is in the set of that event, its entry has exactly
    the given callback, cleanup and argument for it, the descriptor is in the
    sets of the other events as before, and the entries of all other
    descriptors are as before.  In every case the table is well formed
    afterwards. *)
Theorem fd_add_correct s f e c k p ok :
  fd_wf s -> 0 <= f ->
  let r := EVT_fd_add_with_cleanup s f e c k p ok in
  fd_wf r.2 /\
  match c with
  | None => r = (0, EVT_fd_remove s f e)
  | Some c0 =>
      if is_set (entry s f) || ok then
        r.1 = 1 /\ f ∈ get (eventSet r.2) e /\
        (exists n, entry r.2 f = Some n /\ get (cb n) e = Some c0 /\ get (cleanup n) e = k /\
           get (earg n) e = p) /\
        (forall e', e' <> e -> (f ∈ get (eventSet r.2) e' <-> f ∈ get (eventSet s) e')) /\
        (forall x, x <> f -> entry r.2 x = entry s x)
      else r = (-1, s)
  end.
Proof.
  intros Hwf Hf. destruct c as [c0|].
  2:{ simpl. split; [|done]. by apply fd_remove_wf. }
  destruct (is_set (entry s f) || ok) eqn:Eo.
  - assert (Hok : entry s f = None -> ok = true) by (intros Hn; by rewrite Hn in Eo).
    destruct (fd_add_wf s f e c0 k p ok Hwf Hf Hok) as (R1 & R2 & R3 & R4).
    pose proof R2 as (_ & _ & H4' & _). pose proof Hwf as (_ & _ & H4 & _).
    split; [done|]. split_and!; try done.
    + apply H4'. rewrite R3, added_has. by rewrite decide_True.
    + eexists. split; [exact R3|]. unfold added_entry.
      destruct (_ =? 0); simpl; by rewrite !get_set_eq.
    + intros e' Hne. rewrite H4', R3, added_has, decide_False by done. by rewrite H4.
  - apply orb_false_iff in Eo as [E1 ->]. unfold EVT_fd_add_with_cleanup.
    destruct (chain_split s f Hwf) as (c1 & c2 & _ & _ & _ & _ & Hsp & _).
    cbv zeta. rewrite Hsp. destruct (entry s f); [done|]. done.
Qed.

(** *** Flags *)

(** Exchanging an entry for one with the same callbacks. *)
Lemma fd_wf_same_cb s s' f n n' c1 c2 :
  fd_wf s -> 0 <= f -> entry s f = Some n -> chain s f = c1 ++ n :: c2 ->
  f ∉ fd <$> c1 -> f ∉ fd <$> c2 -> fd n' = f -> cb n' = cb n -> entry_ok n' ->
  hashSize s' = hashSize s -> events s' = <[bucket_of s f := c1 ++ n' :: c2]> (events s) ->
  eventSet s' = eventSet s ->
  (forall e x, x <> f -> (x ∈ get (blockedSet s') e <-> x ∈ get (blockedSet s) e)) ->
  (forall e, f ∈ get (blockedSet s') e <-> blk (Some n') e = true) ->
  eventCnt s' = eventCnt s ->
  critical_fd_count s' = critical_fd_count s - Z.b2z (ecritical n) + Z.b2z (ecritical n') ->
  maxFd s' = maxFd s -> maxFds s' = maxFds s ->
  fd_wf s' /\ entry s' f = Some n' /\ (forall x, x <> f -> entry s' x = entry s x).
Proof.
  intros Hwf Hf He Hch H1 H2 Hfd Hcb Hok Hhs Hev Hes Hb1 Hb2 Hcnt Hcr Hmf Hmfs.
  pose proof Hwf as (_ & _ & H4 & _ & _ & _ & H8 & H9 & H10).
  assert (Hhas : forall e, has (Some n') e = has (Some n) e) by (intros; simpl; by rewrite Hcb).
  apply (fd_wf_replace s s' f (Some n') c1 c2); try done.
  - by rewrite He.
  - intros m [= <-]. done.
  - by rewrite Hes.
  - intros e. rewrite Hes, H4, He, Hhas. by split; [intros [_ ?]|].
  - intros e. rewrite Hcnt, He, Hhas. lia.
  - rewrite Hcr, He. done.
  - rewrite Hes, Hmfs. apply H8.
  - rewrite Hmf, Hmfs. apply H9.
  - rewrite Hes, Hmfs. apply H10.
Qed.

Lemma force_chain_skip s c f e : f ∉ fd <$> c -> fd_force_remove_chain s c f e = (s, c).
Proof.
  induction c as [|n c IH]; simpl; [done|]. intros Hn.
  destruct (Z.eqb_spec (fd n) f); [set_solver|]. simpl. rewrite IH by set_solver. done.
Qed.

Lemma force_chain_at s c1 n c2 f e :
  f ∉ fd <$> c1 -> f ∉ fd <$> c2 -> fd n = f ->
  fd_force_remove_chain s (c1 ++ n :: c2) f e =
    if get (einCallback n) e =? 0 then
      ((EVT_remove_internal s n e).1, c1 ++ option_list (EVT_remove_internal s n e).2 ++ c2)
    else (s, c1 ++ with_einCallback n e 3 :: c2).
Proof.
  intros H1 H2 Hn. induction c1 as [|m c1 IH]; simpl.
  - rewrite Hn, Z.eqb_refl. simpl. destruct (get (einCallback n) e =? 0); simpl.
    + destruct (EVT_remove_internal s n e) as [s1 o]. rewrite force_chain_skip by done.
      by destruct o.
    + by rewrite force_chain_skip.
  - destruct (Z.eqb_spec (fd m) f); [set_solver|]. simpl.
    rewrite IH by set_solver. by destruct (get (einCallback n) e =? 0).
Qed.

Lemma pause_chain_skip upd bs c f : f ∉ fd <$> c -> pause_chain upd bs c f = (bs, c).
Proof.
  revert bs. induction c as [|n c IH]; intros bs; simpl; [done|]. intros Hn.
  destruct (Z.eqb_spec (fd n) f); [set_solver|]. rewrite IH by set_solver. done.
Qed.

Lemma pause_chain_at upd bs c1 n c2 f :
  f ∉ fd <$> c1 -> f ∉ fd <$> c2 -> fd n = f ->
  pause_chain upd bs (c1 ++ n :: c2) f = (refresh_blocked (upd n) bs, c1 ++ upd n :: c2).
Proof.
  intros H1 H2 Hn. induction c1 as [|m c1 IH]; simpl.
  - rewrite Hn, Z.eqb_refl. by rewrite pause_chain_skip.
  - destruct (Z.eqb_spec (fd m) f); [set_solver|]. rewrite IH by set_solver. done.
Qed.

Lemma crit_chain_skip k c f b : f ∉ fd <$> c -> set_critical_chain k c f b = (k, c).
Proof.
  induction c as [|n c IH]; simpl; [done|]. intros Hn.
  destruct (Z.eqb_spec (fd n) f); [set_solver|]. rewrite IH by set_solver. done.
Qed.

Lemma crit_chain_at k c1 n c2 f b :
  f ∉ fd <$> c1 -> f ∉ fd <$> c2 -> fd n = f ->
  set_critical_chain k (c1 ++ n :: c2) f b =
    (k - Z.b2z (ecritical n) + Z.b2z b, c1 ++ with_ecritical n b :: c2).
Proof.
  intros H1 H2 Hn. induction c1 as [|m c1 IH]; simpl.
  - rewrite Hn, Z.eqb_refl, crit_chain_skip by done.
    destruct (ecritical n), b; simpl; f_equal; lia.
  - destruct (Z.eqb_spec (fd m) f); [set_solver|]. rewrite IH by set_solver. done.
Qed.

Lemma refresh_blocked_spec n bs e x :
  x ∈ get (refresh_blocked n bs) e <->
    (x <> fd n /\ x ∈ get bs e) \/ (x = fd n /\ blk (Some n) e = true).
Proof.
  unfold refresh_blocked, all_events. cbn [fold_left].
  assert (H : forall b e', x ∈ get (block_one n b e') e <->
     (e <> e' /\ x ∈ get b e) \/
     (e = e' /\ ((x <> fd n /\ x ∈ get b e) \/ (x = fd n /\ blk (Some n) e = true)))).
  { intros b e'. unfold block_one.
    change (is_set (get (cb n) e') && (negb (pausable n) || negb (get (ebreak n) e')))
      with (blk (Some n) e').
    destruct (decide (e = e')) as [<-|Hne].
    - destruct (blk (Some n) e) eqn:Eb; rewrite get_set_eq; destruct (decide (x = fd n)); set_solver.
    - destruct (blk (Some n) e'); rewrite get_set_ne by congruence; set_solver. }
  rewrite !H. destruct e; destruct (decide (x = fd n)) as [Hx|Hx];
    destruct (blk (Some n) _); split; intros; naive_solver.
Qed.

Lemma no_entry_chain s f c1 c2 :
  chain s f = c1 ++ option_list (entry s f) ++ c2 -> entry s f = None -> f ∉ fd <$> chain s f.
Proof. intros _ He. by apply find_fd_None. Qed.

Definition forced_entry (o : option EventCB) (e : fd_event) : option EventCB :=
  match o with
  | Some n => if get (einCallback n) e =? 0 then drop_event n e else Some (with_einCallback n e 3)
  | None => None
  end.

Lemma fd_force_remove_wf s f e :
  fd_wf s -> 0 <= f ->
  let s' := EVT_fd_force_remove s f e in
  fd_wf s' /\ entry s' f = forced_entry (entry s f) e /\ (forall x, x <> f -> entry s' x = entry s x).
Proof.
  intros Hwf Hf. destruct (chain_split s f Hwf) as (c1 & c2 & Hch & H1 & H2 & Hent & _).
  unfold EVT_fd_force_remove. destruct (entry s f) as [n|] eqn:He; simpl in Hch |- *.
  - destruct (Hent n eq_refl) as [Hfd Hok]. rewrite Hch, force_chain_at by done.
    destruct (Z.eqb_spec (get (einCallback n) e) 0) as [E0|E0]; [by apply remove_internal_wf|].
    pose proof Hwf as (_ & _ & _ & H5 & _).
    apply (fd_wf_same_cb s _ f n (with_einCallback n e 3) c1 c2); try done.
    + split; [apply Hok|]. intros e' He'. destruct (decide (e = e')) as [<-|Hne].
      * by apply Hok.
      * simpl in He'. rewrite get_set_ne in He' by done. by apply Hok.
    + intros e'. cbn [set_chain blockedSet]. rewrite H5, He. by split; [intros [_ ?]|].
    + simpl. lia.
  - rewrite force_chain_skip by (by apply find_fd_None). rewrite set_chain_id by done. done.
Qed.

(** The two ways to pause descriptors share their proof. *)
Lemma pause_wf s f upd :
  fd_wf s -> 0 <= f ->
  (forall n, fd (upd n) = fd n /\ cb (upd n) = cb n /\ ecritical (upd n) = ecritical n /\
     einCallback (upd n) = einCallback n) ->
  let r := pause_chain upd (blockedSet s) (chain s f) f in
  let s' := set_chain (Fds (hashSize s) (events s) (eventSet s) r.1 (maxFd s) (maxFds s)
              (eventCnt s) (critical_fd_count s) (calls s)) f r.2 in
  fd_wf s' /\ entry s' f = upd <$> entry s f /\ (forall x, x <> f -> entry s' x = entry s x).
Proof.
  intros Hwf Hf Hupd. destruct (chain_split s f Hwf) as (c1 & c2 & Hch & H1 & H2 & Hent & _).
  destruct (entry s f) as [n|] eqn:He; simpl in Hch.
  - destruct (Hent n eq_refl) as [Hfd Hok]. destruct (Hupd n) as (U1 & U2 & U3 & U4).
    cbv zeta. rewrite Hch, pause_chain_at by done. cbn [fst snd].
    apply (fd_wf_same_cb s _ f n (upd n) c1 c2); try done.
    + congruence.
    + unfold entry_ok, has in *. rewrite U2, U4. done.
    + intros e x Hx. cbn [set_chain blockedSet]. rewrite refresh_blocked_spec, U1, Hfd. tauto.
    + intros e. cbn [set_chain blockedSet]. rewrite refresh_blocked_spec, U1, Hfd. tauto.
    + cbn [set_chain critical_fd_count]. rewrite U3. lia.
  - cbv zeta. rewrite pause_chain_skip by (by apply find_fd_None). cbn [fst snd].
    assert (Hs : set_chain (Fds (hashSize s) (events s) (eventSet s) (blockedSet s) (maxFd s) (maxFds s)
              (eventCnt s) (critical_fd_count s) (calls s)) f (chain s f) = s).
    { etransitivity; [|exact (set_chain_id s f Hwf)]. unfold set_chain. done. }
    rewrite Hs, He. done.
Qed.

Lemma fd_set_pausable_wf s f v :
  fd_wf s -> 0 <= f ->
  let s' := evt_fd_set_pausable s f v in
  fd_wf s' /\ entry s' f = (fun n => with_pausable n v) <$> entry s f /\
  (forall x, x <> f -> entry s' x = entry s x).
Proof.
  intros Hwf Hf. unfold evt_fd_set_pausable.
  pose proof (pause_wf s f (fun n => with_pausable n v) Hwf Hf ltac:(by intros)) as H.
  by destruct (pause_chain _ _ _ _).
Qed.

Lemma fd_set_paused_wf s f v :
  fd_wf s -> 0 <= f ->
  let s' := evt_fd_set_paused s f v in
  fd_wf s' /\ entry s' f = (fun n => fold_left (fun n e => with_ebreak n e v) all_events n) <$> entry s f /\
  (forall x, x <> f -> entry s' x = entry s x).
Proof.
  intros Hwf Hf. unfold evt_fd_set_paused.
  pose proof (pause_wf s f (fun n => fold_left (fun n e => with_ebreak n e v) all_events n) Hwf Hf
    ltac:(by intros)) as H.
  by destruct (pause_chain _ _ _ _).
Qed.

Lemma fd_set_critical_wf s f b :
  fd_wf s -> 0 <= f ->
  let s' := EVT_fd_set_critical s f b in
  fd_wf s' /\ entry s' f = (fun n => with_ecritical n b) <$> entry s f /\
  (forall x, x <> f -> entry s' x = entry s x).
Proof.
  intros Hwf Hf. destruct (chain_split s f Hwf) as (c1 & c2 & Hch & H1 & H2 & Hent & _).
  unfold EVT_fd_set_critical. pose proof Hwf as (_ & _ & _ & H5 & _).
  destruct (entry s f) as [n|] eqn:He; simpl in Hch.
  - destruct (Hent n eq_refl) as [Hfd Hok]. rewrite Hch, crit_chain_at by done.
    apply (fd_wf_same_cb s _ f n (with_ecritical n b) c1 c2); try done.
    intros e. cbn [set_chain blockedSet]. rewrite H5, He. by split; [intros [_ ?]|].
  - rewrite crit_chain_skip by (by apply find_fd_None). 
    assert (Hs : set_chain (Fds (hashSize s) (events s) (eventSet s) (blockedSet s) (maxFd s) (maxFds s)
              (eventCnt s) (critical_fd_count s) (calls s)) f (chain s f) = s).
    { etransitivity; [|exact (set_chain_id s f Hwf)]. done. }
    cbv zeta. rewrite Hs, He. done.
Qed.

(** The flags of a descriptor: marking it critical keeps the counter
    exact, pausing it for the debugger keeps the set of descriptors that are
    watched while the program is stopped exact (an event stays in it unless
    the descriptor is pausable and has a breakpoint), and a forced removal from
    inside the callback only marks it; all of them keep the table
    invariant. *)
Theorem fd_flags_correct s f v e :
  fd_wf s -> 0 <= f ->
  (fd_wf (EVT_fd_set_critical s f v) /\
   critical_fd_count (EVT_fd_set_critical s f v)
     = count_if ecritical (concat (events (EVT_fd_set_critical s f v)))) /\
  (fd_wf (evt_fd_set_paused s f v) /\
   (f ∈ get (blockedSet (evt_fd_set_paused s f v)) e <->
    exists n, entry s f = Some n /\ has (Some n) e = true /\ (pausable n = false \/ v = false))) /\
  (fd_wf (evt_fd_set_pausable s f v) /\
   (f ∈ get (blockedSet (evt_fd_set_pausable s f v)) e <->
    exists n, entry s f = Some n /\ has (Some n) e = true /\ (v = false \/ get (ebreak n) e = false))) /\
  (fd_wf (EVT_fd_force_remove s f e) /\
   forall n, entry s f = Some n -> get (einCallback n) e <> 0 ->
     entry (EVT_fd_force_remove s f e) f = Some (with_einCallback n e 3)).
Proof.
  intros Hwf Hf.
  destruct (fd_set_critical_wf s f v Hwf Hf) as (A1 & _).
  destruct (fd_set_paused_wf s f v Hwf Hf) as (B1 & B2 & _).
  destruct (fd_set_pausable_wf s f v Hwf Hf) as (C1 & C2 & _).
  destruct (fd_force_remove_wf s f e Hwf Hf) as (D1 & D2 & _).
  split; [split; [done|apply A1]|]. split; [split; [done|]|split; [split; [done|]|split; [done|]]].
  - pose proof B1 as (_ & _ & _ & H5 & _). rewrite H5, B2.
    destruct (entry s f) as [n|]; [|simpl; naive_solver].
    assert (Hb : blk (Some (fold_left (fun n e => with_ebreak n e v) all_events n)) e
                 = has (Some n) e && (negb (pausable n) || negb v)) by (by destruct e).
    change (blk _ e) with (blk (Some (fold_left (fun n e => with_ebreak n e v) all_events n)) e).
    rewrite Hb, andb_true_iff, orb_true_iff, !negb_true_iff. naive_solver.
  - pose proof C1 as (_ & _ & _ & H5 & _). rewrite H5, C2. destruct (entry s f) as [n|]; simpl.
    + rewrite andb_true_iff, orb_true_iff, !negb_true_iff. naive_solver.
    + naive_solver.
  - intros n Hn Hc. rewrite D2, Hn. simpl. by rewrite (proj2 (Z.eqb_neq _ _) Hc).
Qed.

(** *** Cleaning up after EBADF *)

(** No callback of the descriptor runs. *)
Definition idle (o : option EventCB) : Prop :=
  forall n, o = Some n -> forall e, get (einCallback n) e = 0.

Lemma idle_drop n e : idle (Some n) -> idle (drop_event n e).
Proof.
  intros H n' Hn' e'. specialize (H n eq_refl e').
  unfold drop_event in Hn'. repeat case_match; by simplify_eq.
Qed.

Lemma remove_three_wf s f :
  fd_wf s -> 0 <= f ->
  let s' := EVT_fd_remove (EVT_fd_remove (EVT_fd_remove s f FdRead) f FdWrite) f FdError in
  fd_wf s' /\ (idle (entry s f) -> entry s' f = None) /\ (forall x, x <> f -> entry s' x = entry s x).
Proof.
  intros Hwf Hf.
  destruct (fd_remove_wf s f FdRead Hwf Hf) as (W1 & E1 & X1).
  destruct (fd_remove_wf _ f FdWrite W1 Hf) as (W2 & E2 & X2).
  destruct (fd_remove_wf _ f FdError W2 Hf) as (W3 & E3 & X3).
  split; [done|]. split; [|intros x Hx; rewrite X3, X2, X1 by done; done].
  intros Hid. rewrite E1 in E2. rewrite E2 in E3.
  assert (Hstep : forall o e, idle o -> idle (removed_entry o e) /\
            forall e', has (removed_entry o e) e' = if decide (e = e') then false else has o e').
  { intros [n|] e Ho; simpl.
    - rewrite (Ho n eq_refl e). simpl. split; [by apply idle_drop|]. intros. apply drop_event_has.
    - split; [done|]. intros. by case_decide. }
  destruct (Hstep _ FdRead Hid) as [I1 K1]. destruct (Hstep _ FdWrite I1) as [I2 K2].
  destruct (Hstep _ FdError I2) as [I3 K3].
  set (s3 := EVT_fd_remove (EVT_fd_remove (EVT_fd_remove s f FdRead) f FdWrite) f FdError) in *.
  destruct (entry s3 f) as [n|] eqn:En; [|done]. exfalso.
  destruct (chain_split s3 f W3) as (_ & _ & _ & _ & _ & Hent & _).
  destruct (Hent n En) as [_ [[e He] _]]. rewrite E3, K3, K2, K1 in He. by destruct e.
Qed.

Lemma fd_used_entry s f : fd_wf s -> 0 <= f -> fd_used s f = is_set (entry s f).
Proof.
  intros Hwf Hf. pose proof Hwf as (_ & _ & H4 & _). unfold fd_used.
  destruct (entry s f) as [n|] eqn:En; simpl.
  - destruct (chain_split s f Hwf) as (_ & _ & _ & _ & _ & Hent & _).
    destruct (Hent n En) as [_ [[e He] _]].
    assert (Hin : f ∈ get (eventSet s) e) by (apply H4; rewrite En; done).
    destruct e; simpl in *; rewrite (bool_decide_eq_true_2 _ Hin), ?orb_true_r; done.
  - assert (Hno : forall e, f ∉ get (eventSet s) e) by (intros e; rewrite H4, En; by intros [_ ?]).
    rewrite (bool_decide_eq_false_2 _ (Hno FdRead)), (bool_decide_eq_false_2 _ (Hno FdWrite)).
    by rewrite (bool_decide_eq_false_2 _ (Hno FdError)).
Qed.

Lemma clean_loop_spec ebadf l s found :
  fd_wf s -> NoDup l -> Forall (Z.le 0) l ->
  let r := fold_left (clean_one ebadf) l (s, found) in
  fd_wf r.1 /\
  (forall x, x ∉ l \/ ebadf x = false -> entry r.1 x = entry s x) /\
  (forall x, x ∈ l -> ebadf x = true -> idle (entry s x) -> entry r.1 x = None) /\
  r.2 = found || existsb (fun x => is_set (entry s x) && ebadf x) l.
Proof.
  revert s found. induction l as [|f l IH]; intros s found Hwf Hnd Hpos.
  - simpl. rewrite orb_false_r. split_and!; try done. intros x Hx. by apply elem_of_nil in Hx.
  - apply NoDup_cons in Hnd as [Hni Hnd]. apply Forall_cons_1 in Hpos as [Hf Hpos].
    cbv zeta. cbn [fold_left clean_one]. rewrite fd_used_entry by done.
    destruct (remove_three_wf s f Hwf Hf) as (W & E & X).
    destruct (is_set (entry s f) && ebadf f) eqn:Eb.
    + destruct (IH _ true W Hnd Hpos) as (I1 & I2 & I3 & I4). split_and!.
      * done.
      * intros x Hx. apply andb_true_iff in Eb as [_ Eb].
        assert (Hxf : x <> f) by (intros ->; destruct Hx as [Hx|Hx]; [set_solver|congruence]).
        rewrite I2, X by (done || set_solver). done.
      * intros x Hx Hb Hid. destruct (decide (x = f)) as [->|Hxf].
        -- rewrite I2 by (by left). by apply E.
        -- apply I3; [set_solver|done|]. by rewrite X.
      * rewrite I4. simpl. rewrite Eb. by rewrite !orb_true_r.
    + destruct (IH s found Hwf Hnd Hpos) as (I1 & I2 & I3 & I4). split_and!.
      * done.
      * intros x Hx. apply I2. set_solver.
      * intros x Hx Hb Hid. destruct (decide (x = f)) as [->|Hxf]; [|apply I3; set_solver].
        rewrite I2 by (by left). rewrite Hb, andb_true_r in Eb. by destruct (entry s f).
      * rewrite I4. simpl. by rewrite Eb.
Qed.

(** After select fails with EBADF, [EVT_clean_fdsets] drops every
    registered descriptor that polls as bad and whose callbacks do not run,
    keeps all others, reports whether there was one, and keeps the table
    invariant.  [maxFd] is large enough for the search to see them all. *)
Theorem fd_clean_correct ebadf s :
  fd_wf s ->
  let r := EVT_clean_fdsets ebadf s in
  fd_wf r.1 /\
  (forall x, ebadf x = false -> entry r.1 x = entry s x) /\
  (forall x, 0 <= x -> ebadf x = true -> idle (entry s x) -> entry r.1 x = None) /\
  (r.2 = true <-> exists x n, 0 <= x /\ entry s x = Some n /\ ebadf x = true).
Proof.
  intros Hwf. unfold EVT_clean_fdsets.
  pose proof Hwf as (_ & _ & H4 & _ & _ & _ & H8 & H9 & H10).
  assert (Hb : forall x n, 0 <= x -> entry s x = Some n -> x ∈ seqZ 0 (maxFd s + 1)).
  { intros x n Hx Hn. apply elem_of_seqZ. destruct (chain_split s x Hwf) as (_ & _ & _ & _ & _ & Hent & _).
    destruct (Hent n Hn) as [_ [[e He] _]].
    assert (Hin : x ∈ get (eventSet s) e) by (apply H4; rewrite Hn; done).
    specialize (H8 e x Hin). specialize (H9 e). lia. }
  destruct (clean_loop_spec ebadf (seqZ 0 (maxFd s + 1)) s false Hwf) as (I1 & I2 & I3 & I4).
  - apply NoDup_seqZ.
  - apply Forall_forall. intros x Hx. apply elem_of_seqZ in Hx. lia.
  - split_and!; try done.
    + intros x Hx. apply I2. by right.
    + intros x Hx Hbad Hid. destruct (decide (x ∈ seqZ 0 (maxFd s + 1))) as [Hin|Hin]; [by apply I3|].
      rewrite I2 by (by left). destruct (entry s x) as [n|] eqn:En; [|done].
      exfalso. apply Hin. by eapply Hb.
    + rewrite I4. simpl. rewrite existsb_exists. split.
      * intros (x & Hx & Hp). apply list_elem_of_In, elem_of_seqZ in Hx.
        apply andb_true_iff in Hp as [Hp1 Hp2]. destruct (entry s x) as [n|] eqn:En; [|done].
        exists x, n. split_and!; [lia|done|done].
      * intros (x & n & Hx & Hn & Hbad). exists x. split; [apply list_elem_of_In; by eapply Hb|].
        by rewrite Hn, Hbad.
Qed.

(** ** A new table, and witnesses *)

Lemma concat_replicate_nil {A} n : concat (replicate n ([] : list A)) = [].
Proof. induction n; simpl; done. Qed.

Lemma fds_init_wf hs : 0 < hs -> fd_wf (fds_init hs).
Proof.
  intros Hs. unfold fd_wf. cbn [fds_init hashSize events eventSet blockedSet eventCnt critical_fd_count
    maxFds maxFd].
  assert (Hch : forall x, entry (fds_init hs) x = None).
  { intros x. unfold entry, chain, fds_init. cbn [events].
    destruct (replicate (Z.to_nat hs) [] !! _) as [c|] eqn:E; [|done].
    apply lookup_replicate_1 in E as [-> _]. done. }
  rewrite concat_replicate_nil. split_and!; try done.
  - by rewrite length_replicate.
  - intros i c H. apply lookup_replicate_1 in H as [-> _]. split; simpl; constructor.
  - intros e x. rewrite Hch. simpl. destruct e; simpl; set_solver.
  - intros e x. rewrite Hch. simpl. destruct e; simpl; set_solver.
  - by intros [].
  - intros e x. destruct e; simpl; set_solver.
  - intros []; simpl; lia.
  - intros []; by left.
Qed.

(** Descriptors 5 (read) and 8 (write) in one bucket. *)
Definition demo_fds : fds :=
  (EVT_fd_add_with_cleanup
     (EVT_fd_add (fds_init 3) 5 FdRead (Some 70) 71 true).2 8 FdWrite (Some 72) (Some 73) 74 true).2.

Lemma demo_fds_wf : fd_wf demo_fds.
Proof.
  unfold demo_fds, EVT_fd_add. apply fd_add_wf; [|lia|done].
  apply fd_add_wf; [|lia|done]. apply fds_init_wf. lia.
Qed.

Lemma fd_remove_correct_witness :
  fd_wf (EVT_fd_remove demo_fds 8 FdWrite) /\ 8 ∉ get (eventSet (EVT_fd_remove demo_fds 8 FdWrite)) FdWrite.
Proof.
  destruct (fd_remove_correct demo_fds 8 FdWrite demo_fds_wf) as (H1 & _ & H2 & _); [lia|].
  split; [exact H1|]. edestruct H2 as [H3 _]; [vm_compute; reflexivity|vm_compute; reflexivity|exact H3].
Defined.

Lemma fd_add_correct_witness :
  let r := EVT_fd_add_with_cleanup demo_fds 5 FdError (Some 1) None 2 false in
  fd_wf r.2 /\ r.1 = 1.
Proof.
  destruct (fd_add_correct demo_fds 5 FdError (Some 1) None 2 false demo_fds_wf) as (H1 & H2); [lia|].
  cbv zeta. split; [exact H1|]. apply H2.
Defined.

Lemma fd_flags_correct_witness :
  fd_wf (evt_fd_set_paused demo_fds 5 true) /\ 5 ∉ get (blockedSet (evt_fd_set_paused demo_fds 5 true)) FdRead.
Proof.
  destruct (fd_flags_correct demo_fds 5 true FdRead demo_fds_wf) as (_ & (H1 & H2) & _); [lia|].
  split; [exact H1|]. rewrite H2. intros (n & Hn & _ & [Hp|Hv]); [|discriminate].
  vm_compute in Hn. injection Hn as <-. discriminate.
Defined.

Lemma fd_clean_correct_witness :
  entry (EVT_clean_fdsets (Z.eqb 5) demo_fds).1 5 = None /\
  (EVT_clean_fdsets (Z.eqb 5) demo_fds).2 = true.
Proof.
  destruct (fd_clean_correct (Z.eqb 5) demo_fds demo_fds_wf) as (_ & _ & H1 & H2). split.
  - apply H1; [lia|reflexivity|]. intros n Hn e. vm_compute in Hn. injection Hn as <-. by destruct e.
  - apply H2. eexists 5, _. split_and!; [lia|vm_compute; reflexivity|reflexivity].
Defined.
