(* ===== verification/EventLoop.v ===== *)
(** * The event loop (events.c)

    [EVT_start_loop_auto_exit] and what it calls: the processing of one timed
    event and of one descriptor event, the breakpoint logic of the debugger,
    deferred callbacks and the select callback.  The schedule and the
    descriptor table are those of Sched.v and FdEvents.v, the timer is a value
    of [EventTimerOps]; user callbacks, select and the pseudo threads act on
    the whole handler and on the world [W] and are parameters.  Reports sent to
    a debugger are output only and are left out. *)

From stdpp Require Import base gmap list numbers sorting.
From Stdlib Require Import ZArith Lia.
From S2P Require Import Prelude PriorityQueue EventTimer Sched FdEvents.
Open Scope Z_scope.

Definition EVT_NEVER_EXIT : Z := 0.
Definition EVT_EXIT_FD : Z := 1.
Definition EVT_EXIT_SCHED : Z := 2.

Inductive EVTDebuggerState := EDBG_DISABLED | EDBG_ENABLED | EDBG_STOPPED.

#[export] Instance EVTDebuggerState_eq_dec : EqDecision EVTDebuggerState.
Proof. solve_decision. Defined.

(** [struct DeferredEvent]: its address, callback (NULL once cancelled) and
    argument. *)
Record DeferredEvent := Def { def_id : ptr; def_cb : option Z; def_arg : Z }.

(** The descriptor sets handed to select; [None] is a NULL pointer. *)
Definition fd_sets : Type := per (option (gset Z)).

(** [struct EventState], with the timer state [T].  [next_fd_event] names the
    entry by its descriptor. *)
Record EventState (T : Type) := ES {
  sch : sched;
  fdt : fds;
  evt_timer : T;
  keepGoing : bool;
  in_loop : bool;
  initialDebuggerState : EVTDebuggerState;
  debuggerState : EVTDebuggerState;
  break_on_next : bool;
  steps_to_break : Z;
  dbg_step : bool;
  next_fd_event : option (Z * fd_event);
  dbg_reply_evt : option ptr;
  loop_counter : Z;
  timed_event_counter : Z;
  fd_event_counter : Z;
  deferred : list DeferredEvent
}.
Arguments ES {T}.
Arguments sch {T}.
Arguments fdt {T}.
Arguments evt_timer {T}.
Arguments keepGoing {T}.
Arguments in_loop {T}.
Arguments initialDebuggerState {T}.
Arguments debuggerState {T}.
Arguments break_on_next {T}.
Arguments steps_to_break {T}.
Arguments dbg_step {T}.
Arguments next_fd_event {T}.
Arguments dbg_reply_evt {T}.
Arguments loop_counter {T}.
Arguments timed_event_counter {T}.
Arguments fd_event_counter {T}.
Arguments deferred {T}.

Section Setters.
Context {T : Type}.
Implicit Types s : EventState T.

Definition upd_sched s (v : sched) : EventState T :=
  ES v (fdt s) (evt_timer s) (keepGoing s) (in_loop s) (initialDebuggerState s) (debuggerState s)
    (break_on_next s) (steps_to_break s) (dbg_step s) (next_fd_event s) (dbg_reply_evt s)
    (loop_counter s) (timed_event_counter s) (fd_event_counter s) (deferred s).
Definition upd_fds s (v : fds) : EventState T :=
  ES (sch s) v (evt_timer s) (keepGoing s) (in_loop s) (initialDebuggerState s) (debuggerState s)
    (break_on_next s) (steps_to_break s) (dbg_step s) (next_fd_event s) (dbg_reply_evt s)
    (loop_counter s) (timed_event_counter s) (fd_event_counter s) (deferred s).
Definition upd_timer s (v : T) : EventState T :=
  ES (sch s) (fdt s) v (keepGoing s) (in_loop s) (initialDebuggerState s) (debuggerState s)
    (break_on_next s) (steps_to_break s) (dbg_step s) (next_fd_event s) (dbg_reply_evt s)
    (loop_counter s) (timed_event_counter s) (fd_event_counter s) (deferred s).
Definition upd_loop s (going inl : bool) : EventState T :=
  ES (sch s) (fdt s) (evt_timer s) going inl (initialDebuggerState s) (debuggerState s)
    (break_on_next s) (steps_to_break s) (dbg_step s) (next_fd_event s) (dbg_reply_evt s)
    (loop_counter s) (timed_event_counter s) (fd_event_counter s) (deferred s).
Definition upd_dbg s (st : EVTDebuggerState) (brk : bool) (steps : Z) : EventState T :=
  ES (sch s) (fdt s) (evt_timer s) (keepGoing s) (in_loop s) (initialDebuggerState s) st
    brk steps (dbg_step s) (next_fd_event s) (dbg_reply_evt s)
    (loop_counter s) (timed_event_counter s) (fd_event_counter s) (deferred s).
Definition upd_step s (v : bool) : EventState T :=
  ES (sch s) (fdt s) (evt_timer s) (keepGoing s) (in_loop s) (initialDebuggerState s) (debuggerState s)
    (break_on_next s) (steps_to_break s) v (next_fd_event s) (dbg_reply_evt s)
    (loop_counter s) (timed_event_counter s) (fd_event_counter s) (deferred s).
Definition upd_next_fd s (v : option (Z * fd_event)) : EventState T :=
  ES (sch s) (fdt s) (evt_timer s) (keepGoing s) (in_loop s) (initialDebuggerState s) (debuggerState s)
    (break_on_next s) (steps_to_break s) (dbg_step s) v (dbg_reply_evt s)
    (loop_counter s) (timed_event_counter s) (fd_event_counter s) (deferred s).
Definition upd_reply s (v : option ptr) : EventState T :=
  ES (sch s) (fdt s) (evt_timer s) (keepGoing s) (in_loop s) (initialDebuggerState s) (debuggerState s)
    (break_on_next s) (steps_to_break s) (dbg_step s) (next_fd_event s) v
    (loop_counter s) (timed_event_counter s) (fd_event_counter s) (deferred s).
Definition upd_counters s (l t f : Z) : EventState T :=
  ES (sch s) (fdt s) (evt_timer s) (keepGoing s) (in_loop s) (initialDebuggerState s) (debuggerState s)
    (break_on_next s) (steps_to_break s) (dbg_step s) (next_fd_event s) (dbg_reply_evt s)
    l t f (deferred s).
Definition upd_deferred s (v : list DeferredEvent) : EventState T :=
  ES (sch s) (fdt s) (evt_timer s) (keepGoing s) (in_loop s) (initialDebuggerState s) (debuggerState s)
    (break_on_next s) (steps_to_break s) (dbg_step s) (next_fd_event s) (dbg_reply_evt s)
    (loop_counter s) (timed_event_counter s) (fd_event_counter s) v.
End Setters.

Section Loop.
Context {T W : Type}.
Context (ops : EventTimerOps T (W * fd_sets)).
(** [ET_default_monotonic]: the kernel's clock. *)
Context (mono : W -> timeval).
(** select: result, the sets it leaves and the world, which has errno. *)
Context (select : Z -> fd_sets -> option timeval -> W -> Z * fd_sets * W).
Context (errno : W -> Z).
(** [PT_run_all], the commands that wait for a reply, and the poll of one
    descriptor of [EVT_clean_fdsets]. *)
Context (PT_run_all : EventState T -> W -> EventState T * W).
Context (cmds_pending : option (EventState T -> W -> bool * EventState T * W)).
Context (ebadf : W -> Z -> bool).
(** The address malloc returns for a new event, and the code address of
    [edbg_response_timeout]. *)
Context (malloc : W -> option ptr) (edbg_response_timeout : Z).
(** Whether a full heap can be grown when an event is queued again. *)
Context (can_grow : W -> bool).
(** User callbacks, by address. *)
Context (sched_cb : Z -> Z -> EventState T -> W -> Z * EventState T * W).
Context (fd_cb : Z -> Z -> fd_event -> Z -> EventState T -> W -> Z * EventState T * W).
Implicit Types s : EventState T.

Definition no_sets : fd_sets := all None.

Definition EVT_get_monotonic_time (s : EventState T) (w : W) : timeval :=
  (et_get_monotonic_time ops (evt_timer s) (w, no_sets)).2.

Definition EVT_get_gmt_time (s : EventState T) (w : W) : Z * timeval :=
  et_get_gmt_time ops (evt_timer s) (w, no_sets).

Definition EVT_exit_loop (s : EventState T) : EventState T := upd_loop s false (in_loop s).

Definition EVT_set_initial_debugger_state (s : EventState T) (st : EVTDebuggerState) : EventState T :=
  ES (sch s) (fdt s) (evt_timer s) (keepGoing s) (in_loop s) st
    (if decide (st = EDBG_DISABLED) then debuggerState s else EDBG_ENABLED)
    (break_on_next s) (steps_to_break s) (dbg_step s) (next_fd_event s) (dbg_reply_evt s)
    (loop_counter s) (timed_event_counter s) (fd_event_counter s) (deferred s).

Definition edbg_breakpoint (s : EventState T) : EventState T :=
  upd_dbg s EDBG_STOPPED false (steps_to_break s).

(** ** Timed events *)

(** [evt_process_timed_event] on the event [p], which is in no queue; false is
    a stop at a breakpoint. *)
Definition evt_process_timed_event (realloc_ok : bool) (s0 : EventState T) (w : W) (p : ptr)
    (curTime : timeval) (stepping : bool) : bool * EventState T * W :=
  match heap (sch s0) !! p with
  | None => (true, s0, w)
  | Some e0 =>
      let brk := negb stepping && (break_on_next s0 || breakpoint e0) in
      let s1 := if brk then upd_dbg s0 (debuggerState s0) (break_on_next s0) (steps_to_break s0 - 1)
                else s0 in
      if brk && (steps_to_break s1 <=? 0) then
        (false, edbg_breakpoint (upd_sched s1 (with_next (sch s1) (Some p))), w)
      else
        let s2 := upd_counters s1 (loop_counter s1) (timed_event_counter s1 + 1) (fd_event_counter s1) in
        let e1 := with_inCallback (with_count e0 (count e0 + 1)) 1 in
        let s3 := upd_sched s2 (with_heap (sch s2) (<[p:=e1]> (heap (sch s2)))) in
        let '(r, s4, w4) := sched_cb (callback e1) (arg e1) s3 w in
        match heap (sch s4) !! p with
        | None => (true, s4, w4)
        | Some e2 =>
            if r =? EVENT_KEEP then
              let e3 := if inCallback e2 =? 1
                        then with_times e2 curTime (timeradd (nextAwake e2) (timeStep e2)) else e2 in
              let e4 := with_inCallback e3 0 in
              let c5 := with_heap (sch s4) (<[p:=e4]> (heap (sch s4))) in
              (true, upd_sched s4 (queue_insert c5 (evt_queue e4) realloc_ok p).2, w4)
            else
              let c5 := if critical e2 then with_crit (sch s4) (critical_sched_count (sch s4) - 1)
                        else sch s4 in
              (true, upd_sched s4 (free_evt c5 p), w4)
        end
  end.

(** Popping the head: [ps_pqueue_pop] and [pos = SIZE_MAX]. *)
Definition pop_event (c : sched) : option (ptr * sched) :=
  match ps_pqueue_pop cmp_pri (heap c) (Some (queue c)) with
  | (Some p, m, Some q) => Some (p, put_queue c Main (alter (fun e => with_pos e None) p m) q)
  | _ => None
  end.

(** In the debugger's queue the position is set before the pop, which may
    write it again. *)
Definition pop_dbg_event (c : sched) : option (ptr * sched) :=
  match ps_pqueue_peek (Some (dbg_queue c)) with
  | None => None
  | Some p0 =>
      match ps_pqueue_pop cmp_pri (alter (fun e => with_pos e None) p0 (heap c)) (Some (dbg_queue c)) with
      | (Some p, m, Some q) => Some (p, put_queue c Dbg m q)
      | _ => None
      end
  end.

(** The loop over the due events of the main queue: [None] when it has not
    ended within [fuel] turns; the first component is false after a stop at a
    breakpoint, the second whether an event ran. *)
Fixpoint timed_pass (fuel : nat) (s : EventState T) (w : W) (real : bool)
    : option (bool * bool * EventState T * W) :=
  match ps_pqueue_peek (Some (queue (sch s))) with
  | None => Some (true, real, s, w)
  | Some p =>
      let curTime := EVT_get_monotonic_time s w in
      if timercmp Z.gtb (get_pri (heap (sch s)) p) curTime then Some (true, real, s, w)
      else
        match fuel with
        | O => None
        | S fuel' =>
            match pop_event (sch s) with
            | None => Some (true, real, s, w)
            | Some (p', c) =>
                match evt_process_timed_event (can_grow w) (upd_sched s c) w p' curTime false with
                | (false, s', w') => Some (false, real, s', w')
                | (true, s', w') => timed_pass fuel' s' w' true
                end
            end
        end
  end.

(** The same for the debugger's queue, which runs on the kernel's clock and
    never stops at a breakpoint. *)
Fixpoint dbg_pass (fuel : nat) (s : EventState T) (w : W) : option (EventState T * W) :=
  match ps_pqueue_peek (Some (dbg_queue (sch s))) with
  | None => Some (s, w)
  | Some p =>
      let curTime := mono w in
      if timercmp Z.gtb (get_pri (heap (sch s)) p) curTime then Some (s, w)
      else
        match fuel with
        | O => None
        | S fuel' =>
            match pop_dbg_event (sch s) with
            | None => Some (s, w)
            | Some (p', c) =>
                let '(_, s', w') := evt_process_timed_event (can_grow w) (upd_sched s c) w p' curTime true in
                dbg_pass fuel' s' w'
            end
        end
  end.

(** ** Descriptor events *)

(** The entry of a descriptor put back after a change. *)
Definition put_entry (t : fds) (f : Z) (upd : EventCB -> EventCB) : fds :=
  match split_at_fd (chain t f) f with
  | Some (a, n, b) => set_chain t f (a ++ upd n :: b)
  | None => t
  end.

Definition count_entry (n : EventCB) (e : fd_event) : EventCB :=
  ECB (cb n) (cleanup n) (earg n) (set (counts n) e (get (counts n) e + 1)) (ebreak n)
    (set (einCallback n) e 1) (pausable n) (ecritical n) (fd n).

(** [EVT_remove_internal] through the link of the chain. *)
Definition remove_at (t : fds) (f : Z) (e : fd_event) : fds :=
  match split_at_fd (chain t f) f with
  | Some (a, n, b) =>
      let '(t1, o) := EVT_remove_internal t n e in set_chain t1 f (a ++ option_list o ++ b)
  | None => t
  end.

(** [EVT_remove_internal] through [ctx->next_fd_event], as a single step calls
    it: an entry that is freed is unlinked from [next_fd_event] only, and its
    memory stays linked in the chain. *)
Definition remove_stepped (t : fds) (f : Z) (e : fd_event) : fds :=
  match split_at_fd (chain t f) f with
  | Some (a, n, b) =>
      let '(t1, o) := EVT_remove_internal t n e in
      set_chain t1 f (a ++ default (with_cb n e None None 0) o :: b)
  | None => t
  end.

(** [evt_process_fd_event] on the entry of descriptor [f]; [stepping] is the
    call for [ctx->next_fd_event]. *)
Definition evt_process_fd_event (s0 : EventState T) (w : W) (f : Z) (e : fd_event) (stepping : bool)
    : bool * EventState T * W :=
  match entry (fdt s0) f with
  | None => (true, s0, w)
  | Some n0 =>
      let brk := negb stepping && pausable n0 && (break_on_next s0 || get (ebreak n0) e) in
      let s1 := if brk then upd_dbg s0 (debuggerState s0) (break_on_next s0) (steps_to_break s0 - 1)
                else s0 in
      if brk && (steps_to_break s1 <=? 0) then
        (false, edbg_breakpoint (upd_next_fd s1 (Some (f, e))), w)
      else
        let '(keep, s2, w2) :=
          match get (cb n0) e with
          | Some c =>
              let s1' := upd_fds s1 (put_entry (fdt s1) f (fun n => count_entry n e)) in
              let '(r, sa, wa) := fd_cb c f e (get (earg n0) e) s1' w in
              (r, upd_counters sa (loop_counter sa) (timed_event_counter sa) (fd_event_counter sa + 1), wa)
          | None => (EVENT_KEEP, s1, w)
          end in
        match entry (fdt s2) f with
        | None => (true, s2, w2)
        | Some n2 =>
            let ic := get (einCallback n2) e in
            let t0 := put_entry (fdt s2) f (fun n => with_einCallback n e 0) in
            if (ic =? 3) || ((keep =? EVENT_REMOVE) && (ic =? 1))
            then (true, upd_fds s2 (if stepping then remove_stepped t0 f e else remove_at t0 f e), w2)
            else (true, upd_fds s2 t0, w2)
        end
  end.

(** The inner do-while: descriptors in turn, while select's count lasts. *)
Fixpoint dispatch_fds (fs : list Z) (ready : gset Z) (e : fd_event) (retval : Z) (real : bool)
    (s : EventState T) (w : W) : bool * Z * bool * EventState T * W :=
  match fs with
  | [] => (true, retval, real, s, w)
  | f :: fs' =>
      let '(go, rv, rl, s', w') :=
        if decide (f ∈ ready) then
          match entry (fdt s) f with
          | Some _ =>
              let '(ok, sa, wa) := evt_process_fd_event s w f e false in
              (ok, retval - 1, if ok then true else real, sa, wa)
          | None => (true, retval - 1, real, s, w)
          end
        else (true, retval, real, s, w) in
      if negb go then (false, rv, rl, s', w')
      else if 0 <? rv then dispatch_fds fs' ready e rv rl s' w'
      else (true, rv, rl, s', w')
  end.

(** The outer do-while: the three kinds of events in turn. *)
Fixpoint dispatch_events (es : list fd_event) (fs : list Z) (sets : fd_sets) (retval : Z) (real : bool)
    (s : EventState T) (w : W) : bool * bool * EventState T * W :=
  match es with
  | [] => (true, real, s, w)
  | e :: es' =>
      let '(go, rv, rl, s', w') :=
        match get sets e with
        | Some ready => dispatch_fds fs ready e retval real s w
        | None => (true, retval, real, s, w)
        end in
      if negb go then (false, rl, s', w')
      else if 0 <? rv then dispatch_events es' fs sets rv rl s' w'
      else (true, rl, s', w')
  end.

(** All descriptors below [n], and all events, starting with a given one. *)
Definition rotate_fds (start n : Z) : list Z := seqZ start (n - start) ++ seqZ 0 start.

Definition rotate_events (start : fd_event) : list fd_event :=
  match start with
  | FdRead => [FdRead; FdWrite; FdError]
  | FdWrite => [FdWrite; FdError; FdRead]
  | FdError => [FdError; FdRead; FdWrite]
  end.

(** ** Deferred callbacks *)

Definition EVT_defer_add (s : EventState T) (w : W) (id : ptr) (c : Z) (a : Z)
    : option ptr * EventState T * W :=
  if in_loop s then (Some id, upd_deferred s (Def id (Some c) a :: deferred s), w)
  else let '(_, s', w') := sched_cb c a s w in (None, s', w').

Definition EVT_defer_cancel (s : EventState T) (id : option ptr) : EventState T :=
  match id with
  | None => s
  | Some p =>
      upd_deferred s ((fun x => if decide (def_id x = p) then Def (def_id x) None (def_arg x) else x)
        <$> deferred s)
  end.

Fixpoint run_deferred (fuel : nat) (s : EventState T) (w : W) : option (EventState T * W) :=
  match deferred s with
  | [] => Some (s, w)
  | x :: rest =>
      match fuel with
      | O => None
      | S fuel' =>
          let s1 := upd_deferred s rest in
          match def_cb x with
          | Some c => let '(_, s2, w2) := sched_cb c (def_arg x) s1 w in run_deferred fuel' s2 w2
          | None => run_deferred fuel' s1 w
          end
      end
  end.

(** ** Blocking *)

(** [select_event_loop_cb]: the earlier of the timer's limit and the next
    event of the debugger's queue. *)
Definition select_timeout (limit mono_to : option timeval) (now : timeval) : option timeval :=
  match mono_to with
  | None => limit
  | Some m =>
      let diff := if timercmp Z.geb now m then TV 0 0 else timersub m now in
      match limit with
      | None => Some diff
      | Some l => if timercmp Z.ltb diff l then Some diff else Some l
      end
  end.

Definition select_event_loop_cb (nfds : Z) (mono_to : option timeval)
    : ET_block_cb T (W * fd_sets) :=
  fun et nextAwake ws =>
    let '(w, sets) := ws in
    let '(r, sets', w') := select nfds sets (select_timeout nextAwake mono_to (mono w)) w in
    (r, et, (w', sets')).

(** The sets for select: those of the stopped program while the debugger or a
    reply is waited for. *)
Definition sets_for (t : fds) (paused : bool) : fd_sets :=
  let one e := if 0 <? get (eventCnt t) e
               then Some (get (if paused then blockedSet t else eventSet t) e) else None in
  Per (one FdRead) (one FdWrite) (one FdError).

Definition remaining_work (s : EventState T) : Z :=
  Z.lor (if 0 <? critical_sched_count (sch s) then EVT_EXIT_SCHED else 0)
        (if 0 <? critical_fd_count (fdt s) then EVT_EXIT_FD else 0).

Definition auto_exits (auto_exit : Z) (s : EventState T) : bool :=
  negb (auto_exit =? 0) && (Z.land auto_exit (remaining_work s) =? 0).
Definition EINTR : Z := 4.
Definition EBADF : Z := 9.
Definition RESP_WAIT_MS : Z := 300.

(** The single steps the debugger asked for. *)
Definition single_steps (s0 : EventState T) (w0 : W) : bool * EventState T * W :=
  let '(r1, s1, w1) :=
    match next_timed_event (sch s0) with
    | Some p =>
        if dbg_step s0 then
          let '(_, sa, wa) := evt_process_timed_event (can_grow w0) s0 w0 p (EVT_get_monotonic_time s0 w0) true in
          (true, upd_dbg (upd_sched sa (with_next (sch sa) None)) EDBG_ENABLED (break_on_next sa)
                   (steps_to_break sa), wa)
        else (false, s0, w0)
    | None => (false, s0, w0)
    end in
  let '(r2, s2, w2) :=
    match next_fd_event s1 with
    | Some (f, e) =>
        if dbg_step s1 then
          let '(_, sa, wa) := evt_process_fd_event s1 w1 f e true in
          (true, upd_dbg (upd_next_fd sa None) EDBG_ENABLED (break_on_next sa) (steps_to_break sa), wa)
        else (r1, s1, w1)
    | None => (r1, s1, w1)
    end in
  (r2, upd_step s2 false, w2).

(** The wait for replies to commands, with a virtual clock and a debugger. *)
Definition reply_wait (s : EventState T) (w : W) : EventState T * W :=
  match cmds_pending with
  | Some pending =>
      if bool_decide (debuggerState s <> EDBG_DISABLED) && is_set (et_virt_get_pause_p ops) then
        let '(waiting, s1, w1) := pending s w in
        if waiting then
          let s2 :=
            match dbg_reply_evt s1 with
            | Some _ => s1
            | None =>
                let '(id, c1) := EVT_sched_add (sch s1) (EVT_get_monotonic_time s1 w1)
                                   (EVT_ms2tv RESP_WAIT_MS) edbg_response_timeout 0 (malloc w1) true in
                let c2 := (EVT_sched_move_to_mono c1 (mono w1) id true).2 in
                upd_reply (upd_sched s1 (EVT_sched_set_critical c2 id false)) id
            end in
          (upd_step s2 false, w1)
        else
          match dbg_reply_evt s1 with
          | Some id => (upd_reply (upd_sched s1 (EVT_sched_remove (sch s1) (Some id)).2) None, w1)
          | None => (s1, w1)
          end
      else (s, w)
  | None => (s, w)
  end.

Inductive outcome :=
  | Again (startEvent : fd_event) (startFd : Z) (s : EventState T) (w : W)
  | Returns (code : Z) (s : EventState T) (w : W)
  | OutOfFuel.

(** From the label next_loop_iteration to the end of the loop body. *)
Definition next_loop_iteration (fuel : nat) (se : fd_event) (sf : Z) (s : EventState T) (w : W) : outcome :=
  match run_deferred fuel s w with
  | None => OutOfFuel
  | Some (s1, w1) =>
      let '(s2, w2) := reply_wait s1 w1 in
      Again se sf (upd_counters s2 (loop_counter s2 + 1) (timed_event_counter s2) (fd_event_counter s2)) w2
  end.

(** One turn of the loop of [EVT_start_loop_auto_exit]. *)
Definition loop_body (fuel : nat) (auto_exit : Z) (startEvent : fd_event) (startFd : Z)
    (s0 : EventState T) (w0 : W) : outcome :=
  let '(s1, w1) := PT_run_all s0 w0 in
  if negb (keepGoing s1) then Returns 0 (upd_loop s1 false false) w1
  else
    let '(real, s2, w2) := single_steps s1 w1 in
    let paused := is_set (next_timed_event (sch s2)) || is_set (next_fd_event s2)
                  || is_set (dbg_reply_evt s2) in
    let nfds := maxFd (fdt s2) + 1 in
    let nextAwake :=
      if paused then None
      else get_pri (heap (sch s2)) <$> ps_pqueue_peek (Some (queue (sch s2))) in
    let mono_to := get_pri (heap (sch s2)) <$> ps_pqueue_peek (Some (dbg_queue (sch s2))) in
    if auto_exits auto_exit s2 then Returns 0 (upd_loop s2 false false) w2
    else
      let '(retval, et, (w3, sets)) :=
        et_block ops (evt_timer s2) nextAwake paused (select_event_loop_cb nfds mono_to)
          (w2, sets_for (fdt s2) paused) in
      let s3 := upd_timer s2 et in
      match (if paused then Some (true, real, s3, w3) else timed_pass fuel s3 w3 real) with
      | None => OutOfFuel
      | Some (false, _, s4, w4) => next_loop_iteration fuel startEvent startFd s4 w4
      | Some (true, real4, s4, w4) =>
          match dbg_pass fuel s4 w4 with
          | None => OutOfFuel
          | Some (s5, w5) =>
              if 0 <? retval then
                let sf := Z.rem (startFd + 1) nfds in
                let '(go, _, s6, w6) :=
                  dispatch_events (rotate_events startEvent) (rotate_fds sf nfds) sets retval real4 s5 w5 in
                let se := if go then nth 1 (rotate_events startEvent) startEvent else startEvent in
                next_loop_iteration fuel se sf s6 w6
              else if retval =? -1 then
                if (errno w5 =? 0) || (errno w5 =? EINTR) then
                  Again startEvent startFd
                    (upd_counters s5 (loop_counter s5 + 1) (timed_event_counter s5) (fd_event_counter s5)) w5
                else if errno w5 =? EBADF then
                  let '(t, found) := EVT_clean_fdsets (ebadf w5) (fdt s5) in
                  if found then next_loop_iteration fuel startEvent startFd (upd_fds s5 t) w5
                  else Returns (-1) (upd_fds s5 t) w5
                else Returns (-1) s5 w5
              else next_loop_iteration fuel startEvent startFd s5 w5
          end
      end.

(** [EVT_start_loop_auto_exit]; [edbg_init] starts the debugger's server and
    may exchange the timer before the first turn, which is left to the
    caller. *)
Fixpoint loop_turns (n fuel : nat) (auto_exit : Z) (se : fd_event) (sf : Z) (s : EventState T) (w : W)
    : outcome :=
  match n with
  | O => OutOfFuel
  | S n' =>
      if negb (keepGoing s) then Returns 0 (upd_loop s (keepGoing s) false) w
      else match loop_body fuel auto_exit se sf s w with
           | Again se' sf' s' w' => loop_turns n' fuel auto_exit se' sf' s' w'
           | r => r
           end
  end.

Definition EVT_start_loop_auto_exit (n fuel : nat) (auto_exit : Z) (s : EventState T) (w : W) : outcome :=
  let s1 := upd_dbg (upd_loop s true true) (debuggerState s)
              (bool_decide (initialDebuggerState s = EDBG_STOPPED)) (steps_to_break s) in
  loop_turns n fuel auto_exit FdRead 0 s1 w.

Definition EVT_start_loop (n fuel : nat) (s : EventState T) (w : W) : outcome :=
  EVT_start_loop_auto_exit n fuel EVT_NEVER_EXIT s w.
End Loop.

(** ** Timed events keep the schedule well formed *)

(** The event whose callback runs: live, in no queue, marked. *)
Definition sched_held (c : sched) (p : ptr) : Prop :=
  (exists e, heap c !! p = Some e /\ inCallback e <> 0) /\
  (forall w, p ∉ contents (get_queue c w)) /\ p <> null_evt c /\ next_timed_event c <> Some p.

(** What the loop asks of scheduled callbacks: they use the operations of
    Sched.v, which keep the schedule well formed and refuse to free the event
    that runs. *)
Class SchedCallbacks {T W} (sched_cb : Z -> Z -> EventState T -> W -> Z * EventState T * W) := {
  sched_cb_ok : forall f a s w p,
    sched_wf (sch s) -> sched_held (sch s) p ->
    let '(r, s', w') := sched_cb f a s w in sched_wf (sch s') /\ sched_held (sch s') p
}.

Lemma unqueued_update_wf c p e e' :
  sched_wf c -> heap c !! p = Some e -> (forall w, p ∉ contents (get_queue c w)) ->
  p <> null_evt c -> critical e' = critical e ->
  sched_wf (with_heap c (<[p:=e']> (heap c))).
Proof.
  intros Hwf Hp Hnq Hnull Hc. pose proof Hwf as (W1 & W2 & W3 & (en & N1 & N2 & N3) & W5 & W6).
  set (c' := with_heap c (<[p:=e']> (heap c))).
  assert (Hg : forall w, get_queue c' w = get_queue c w) by (by intros []).
  assert (Hne : forall x w, x ∈ contents (get_queue c w) -> heap c' !! x = heap c !! x).
  { intros x w Hx. simpl. apply lookup_insert_ne. intros ->. by apply (Hnq w). }
  apply (wf_step c c' Main Hwf); try done.
  - intros w' x _. apply Hne.
  - rewrite Hg. eapply pq_wf_untouched; [apply W1|]. intros x Hx. simpl.
    unfold get_pri, get_pos. pose proof (Hne x Main Hx) as E. simpl in E. rewrite E. done.
  - intros x Hx. rewrite Hg in Hx. rewrite (Hne x Main Hx). by apply W2.
  - simpl. rewrite W3, (crit_update _ _ e) by done. rewrite Hc. lia.
  - simpl. rewrite lookup_insert_ne by congruence. eauto.
  - apply (W5 Main).
  - intros y Hy. destruct (W6 y Hy) as [Hy1 Hy2]. split; [|done].
    simpl in *. rewrite lookup_insert_is_Some. destruct (decide (p = y)); [by left|by right].
Qed.

Lemma pop_event_wf c p c' :
  sched_wf c -> pop_event c = Some (p, c') ->
  sched_wf c' /\ ps_pqueue_peek (Some (queue c)) = Some p /\
  contents (queue c) ≡ₚ p :: contents (queue c') /\ dbg_queue c' = dbg_queue c /\
  (exists e, heap c !! p = Some e /\ heap c' !! p = Some (with_pos e None) /\ inCallback e = 0) /\
  (forall w, p ∉ contents (get_queue c' w)) /\ p <> null_evt c' /\ next_timed_event c' <> Some p /\
  (forall x e, x <> p -> heap c !! x = Some e -> exists n, heap c' !! x = Some (with_pos e n)) /\
  critical_sched_count c' = critical_sched_count c.
Proof.
  intros Hwf. unfold pop_event.
  destruct (ps_pqueue_pop _ _ _) as [[[p0|] m] [q|]] eqn:E; try done. intros [= -> <-].
  pose proof Hwf as (W1 & W2 & W3 & (en & N1 & N2 & N3) & W5 & W6). pose proof (W1 Main) as Hq. simpl in Hq.
  destruct (pop_heap cmp_pri _ _ _ _ _ (wf_heap _ _ Hq) E) as (_ & P2 & P3 & _ & P5 & _).
  pose proof (pop_wf cmp_pri _ _ _ _ _ Hq E) as Hpq.
  pose proof (pop_frame cmp_pri (fun m m' : sched_mem => erase m' = erase m) _ _ _ _ _ E) as Her.
  simpl in Her. pose proof (contents_NoDup _ _ Hq) as Hnd. rewrite P2 in Hnd.
  apply NoDup_cons in Hnd as [Hnin _].
  assert (Hin : p ∈ contents (get_queue c Main)) by (simpl; rewrite P2; apply elem_of_cons; by left).
  destruct (wf_event c Hwf Main p Hin) as (e & He & Htag & Hcb & _).
  set (m' := alter (fun e => with_pos e None) p m).
  assert (Her' : erase m' = erase (heap c)).
  { rewrite <- Her. apply map_eq. intros x. rewrite !lookup_erase. unfold m'.
    rewrite lookup_alter. case_decide; [subst; by destruct (m !! x)|done]. }
  assert (Hnull : p <> null_evt c) by (intros ->; by apply (W5 Main)).
  assert (Hnt : next_timed_event c <> Some p).
  { intros Hn. by apply (proj2 (W6 p Hn) Main). }
  assert (Hwf' : sched_wf (put_queue c Main m' q)).
  { apply (wf_step c _ Main Hwf); cbn [put_queue get_queue heap critical_sched_count null_evt next_timed_event]; try done.
    - by intros [].
    - intros [] x Hw Hx; [done|]. unfold m'. rewrite lookup_alter_ne.
      2:{ intros <-. by apply (wf_disjoint c Main Dbg p Hwf) in Hx. }
      apply (other_kept c m Dbg x Hwf Hx Her). apply P5. by apply (wf_disjoint c Main Dbg).
    - eapply pq_wf_untouched; [exact Hpq|]. intros x Hx. simpl. unfold get_pri, get_pos, m'.
      rewrite lookup_alter_ne by (intros <-; done). by split_and!.
    - intros x Hx. destruct (W2 Main x) as (ex & E1 & E2 & E3).
      { simpl. rewrite P2. apply elem_of_cons. by right. }
      destruct (erase_Some _ _ _ _ Her' E1) as [n Hn]. eauto.
    - by rewrite W3, (crit_same _ _ Her').
    - destruct (erase_Some _ _ _ _ Her' N1) as [n Hn]. eauto.
    - intros Hx. apply (W5 Main). simpl. rewrite P2. apply elem_of_cons. by right.
    - intros y Hy. destruct (W6 y Hy) as [[ey Hey] Hyq]. split.
      + destruct (erase_Some _ _ _ _ Her' Hey) as [n Hn]. eauto.
      + intros []; simpl; [|apply (Hyq Dbg)]. intros Hx. apply (Hyq Main). simpl. rewrite P2.
        apply elem_of_cons. by right. }
  split_and!; try done.
  - unfold ps_pqueue_pop in E. unfold ps_pqueue_peek. destruct (size (queue c) =? 1)%nat; [done|].
    destruct (percolate_down _ _ _ _) as [? ?]. by simplify_eq.
  - exists e. split_and!; try done. simpl. unfold m'. rewrite lookup_alter_eq.
    destruct (erase_Some _ _ _ _ Her He) as [n ->]. done.
  - intros []; simpl; [done|]. intros Hx. by apply (wf_disjoint c Main Dbg p Hwf) in Hx.
  - intros x ex Hne Hx. apply (erase_Some _ _ _ _ Her' Hx).
Qed.

(** An event that was taken from its queue. *)
Definition sched_popped (c : sched) (p : ptr) : Prop :=
  is_Some (heap c !! p) /\ (forall w, p ∉ contents (get_queue c w)) /\ p <> null_evt c /\
  next_timed_event c <> Some p.

(** There is a cell for one more event, or the array can be grown. *)
Definition fits (ok : bool) (q : ps_pqueue_t) : bool := (size q <? avail q)%nat || ok.

(** Queueing again: an event for which there is no cell stays in no queue. *)
Lemma keep_insert_wf ok c p e :
  sched_wf c -> sched_popped c p -> heap c !! p = Some e -> inCallback e = 0 ->
  let c' := (queue_insert c (evt_queue e) ok p).2 in
  sched_wf c' /\ erase (heap c') = erase (heap c) /\
  (forall w, contents (get_queue c' w) ≡ₚ (if decide (w = evt_queue e) then if fits ok (get_queue c w) then [p] else [] else []) ++ contents (get_queue c w)).
Proof.
  intros Hwf (_ & Hnq & Hnull & Hnt) He Hcb c'. unfold c'.
  pose proof (insert_code_queue c (evt_queue e) ok p) as Hr.
  assert (Hf : (avail (get_queue c (evt_queue e)) <=? size (get_queue c (evt_queue e)))%nat && negb ok = negb (fits ok (get_queue c (evt_queue e)))).
  { unfold fits. destruct (Nat.leb_spec (avail (get_queue c (evt_queue e))) (size (get_queue c (evt_queue e)))),
      (Nat.ltb_spec (size (get_queue c (evt_queue e))) (avail (get_queue c (evt_queue e)))); try lia; by destruct ok. }
  rewrite Hf in Hr. destruct (queue_insert c (evt_queue e) ok p) as [r c1] eqn:E. cbn [fst snd] in *.
  destruct (fits ok (get_queue c (evt_queue e))) eqn:Hfit; cbn [negb] in Hr; subst r.
  - destruct (queue_insert_wf c (evt_queue e) ok p e c1 Hwf He eq_refl Hcb Hnq Hnull Hnt E) as (Q1 & Q2 & Q3 & Q4 & _).
    split_and!; try done. intros w. case_decide as Hw; [subst w; by rewrite Hfit, Q2|]. cbn [app].
    unfold queue_insert in E. destruct (ps_pqueue_insert _ _ _ _ _) as [[? ?] [?|]]; injection E as _ <-; [|done].
    by destruct (evt_queue e), w.
  - apply insert_fail_heap in E. subst c1.
    assert (Hsame : put_queue c (evt_queue e) (heap c) (get_queue c (evt_queue e)) = c) by (destruct c; by destruct (evt_queue e)).
    rewrite Hsame. split_and!; try done. intros w. case_decide as Hw; [subst w; by rewrite Hfit|done].
Qed.

Lemma free_popped_wf c p e :
  sched_wf c -> sched_popped c p -> heap c !! p = Some e ->
  let c5 := if critical e then with_crit c (critical_sched_count c - 1) else c in
  sched_wf (free_evt c5 p) /\ heap (free_evt c5 p) !! p = None.
Proof.
  intros Hwf (_ & Hnq & Hnull & Hnt) He c5.
  assert (E : free_evt c5 p = with_crit (with_heap c (delete p (heap c)))
                (critical_sched_count c - b2z (critical e))).
  { unfold c5. destruct (critical e); rewrite free_delete by done; [done|].
    unfold with_crit, with_heap. simpl. by rewrite Z.sub_0_r. }
  rewrite E. split; [|simpl; apply lookup_delete_eq].
  eapply (drop_wf c (evt_queue e) _ p e (heap c) (get_queue c (evt_queue e)) Hwf He Hnull eq_refl); try done.
  - apply (wf_queue c Hwf).
  - simpl. by rewrite decide_False.
Qed.

Section TimedFacts.
Context {T W : Type} (sched_cb : Z -> Z -> EventState T -> W -> Z * EventState T * W).
Context `{!SchedCallbacks sched_cb}.

(** The state in which the callback of [p] is called. *)
Definition called_state (s : EventState T) (p : ptr) (e : ScheduleCB) : EventState T :=
  let s2 := upd_counters s (loop_counter s) (timed_event_counter s + 1) (fd_event_counter s) in
  upd_sched s2 (with_heap (sch s2) (<[p:=with_inCallback (with_count e (count e + 1)) 1]> (heap (sch s2)))).

Lemma called_held s p e :
  sched_wf (sch s) -> sched_popped (sch s) p -> heap (sch s) !! p = Some e ->
  sched_wf (sch (called_state s p e)) /\ sched_held (sch (called_state s p e)) p.
Proof.
  intros Hwf (_ & Hnq & Hnull & Hnt) He. split.
  - by apply (unqueued_update_wf (sch s) p e).
  - split_and!; try done. eexists. simpl. rewrite lookup_insert_eq. by split.
Qed.

Lemma hold_wf c p : sched_wf c -> sched_popped c p -> sched_wf (with_next c (Some p)).
Proof.
  intros (W1 & W2 & W3 & W4 & W5 & W6) (Hl & Hnq & Hnull & Hnt).
  split; [exact W1|]. split; [exact W2|]. split; [exact W3|]. split; [exact W4|].
  split; [exact W5|]. intros y [= <-]. split; [done|exact Hnq].
Qed.

(** Whether the debugger stops before the event. *)
Definition stops (s : EventState T) (e : ScheduleCB) (stepping : bool) : bool :=
  negb stepping && (break_on_next s || breakpoint e) && (steps_to_break s <=? 1).

Definition count_step (s : EventState T) (e : ScheduleCB) (stepping : bool) : EventState T :=
  if negb stepping && (break_on_next s || breakpoint e)
  then upd_dbg s (debuggerState s) (break_on_next s) (steps_to_break s - 1) else s.

Lemma process_timed_unfold ok s w p e t stepping :
  heap (sch s) !! p = Some e ->
  evt_process_timed_event sched_cb ok s w p t stepping =
    if stops s e stepping
    then (false, edbg_breakpoint (upd_sched (count_step s e stepping) (with_next (sch s) (Some p))), w)
    else
      let '(r, s4, w4) := sched_cb (callback e) (arg e) (called_state (count_step s e stepping) p e) w in
      match heap (sch s4) !! p with
      | None => (true, s4, w4)
      | Some e2 =>
          if r =? EVENT_KEEP then
            let e4 := with_inCallback (if inCallback e2 =? 1
                        then with_times e2 t (timeradd (nextAwake e2) (timeStep e2)) else e2) 0 in
            (true, upd_sched s4 (queue_insert (with_heap (sch s4) (<[p:=e4]> (heap (sch s4))))
                                   (evt_queue e4) ok p).2, w4)
          else
            (true, upd_sched s4 (free_evt (if critical e2
               then with_crit (sch s4) (critical_sched_count (sch s4) - 1) else sch s4) p), w4)
      end.
Proof.
  intros He. unfold evt_process_timed_event. rewrite He. unfold stops, count_step.
  destruct (negb stepping && (break_on_next s || breakpoint e)); cbn [andb].
  - cbn [upd_dbg steps_to_break].
    replace (steps_to_break s - 1 <=? 0) with (steps_to_break s <=? 1)
      by (destruct (Z.leb_spec (steps_to_break s) 1), (Z.leb_spec (steps_to_break s - 1) 0); lia || done).
    by destruct (steps_to_break s <=? 1).
  - done.
Qed.

(** C5. Processing a timed event that was taken from its queue, with callbacks
    that keep the schedule well formed and do not free the event that runs (as
    the operations of the schedule do).  At a breakpoint whose countdown is over
    the event is handed to the debugger and its callback is not called.
    Otherwise the callback runs once; if it asks to be kept the event gets the
    time one step after its last wake-up, unless the callback rescheduled it,
    and it is queued again if its heap has a free cell or can be grown; if not
    even that, it stays allocated in no queue and will not run again (the code
    ignores the failure).  An event that is not kept is freed.  In all cases the
    schedule stays well formed. *)
Theorem timed_event_correct ok s w p e t stepping :
  sched_wf (sch s) -> sched_popped (sch s) p -> heap (sch s) !! p = Some e ->
  let '(go, s', w') := evt_process_timed_event sched_cb ok s w p t stepping in
  sched_wf (sch s') /\
  (go = negb (stops s e stepping)) /\
  (go = false -> next_timed_event (sch s') = Some p /\ debuggerState s' = EDBG_STOPPED /\ w' = w) /\
  (go = true ->
   let '(r, s4, w4) := sched_cb (callback e) (arg e) (called_state (count_step s e stepping) p e) w in
   w' = w4 /\ exists e2, heap (sch s4) !! p = Some e2 /\
   if r =? EVENT_KEEP then
     (if fits ok (get_queue (sch s4) (evt_queue e2)) then p ∈ contents (get_queue (sch s') (evt_queue e2))
      else forall q, p ∉ contents (get_queue (sch s') q)) /\
     exists e', heap (sch s') !! p = Some e' /\ inCallback e' = 0 /\ timeStep e' = timeStep e2 /\
       nextAwake e' = (if inCallback e2 =? 1 then timeradd (nextAwake e2) (timeStep e2) else nextAwake e2)
   else heap (sch s') !! p = None).
Proof.
  intros Hwf Hpop He. rewrite (process_timed_unfold ok s w p e t stepping He).
  assert (Hcs : sch (count_step s e stepping) = sch s) by (unfold count_step; by destruct (_ && _)).
  destruct (stops s e stepping).
  - split_and!; try done. by apply hold_wf.
  - rewrite <- Hcs in Hwf, Hpop, He.
    destruct (called_held _ p e Hwf Hpop He) as [Hwf3 Hheld].
    pose proof (sched_cb_ok (callback e) (arg e) _ w p Hwf3 Hheld) as Hcb.
    destruct (sched_cb _ _ _ w) as [[r s4] w4]. destruct Hcb as [Hwf4 ((e2 & He2 & _) & Hnq & Hnull & Hnt)].
    rewrite He2. destruct (r =? EVENT_KEEP).
    + set (e3 := if inCallback e2 =? 1 then _ else e2). set (e4 := with_inCallback e3 0).
      assert (Hc : critical e4 = critical e2 /\ evt_queue e4 = evt_queue e2 /\ timeStep e4 = timeStep e2)
        by (unfold e4, e3; by destruct (inCallback e2 =? 1)).
      destruct Hc as (Hc1 & Hc2 & Hc3).
      set (c5 := with_heap (sch s4) (<[p:=e4]> (heap (sch s4)))).
      assert (Hwf5 : sched_wf c5) by (by apply (unqueued_update_wf _ p e2)).
      assert (He5 : heap c5 !! p = Some e4) by (simpl; apply lookup_insert_eq).
      assert (Hq5 : forall q, get_queue c5 q = get_queue (sch s4) q) by (by intros []).
      destruct (keep_insert_wf ok c5 p e4 Hwf5) as (K1 & K3 & K2); try done.
      cbv zeta. fold c5. cbn [upd_sched sch] in *. split_and!; try done.
      intros _. split; [done|]. exists e2. split; [done|]. split.
      { rewrite <- Hc2, <- Hq5. destruct (fits ok (get_queue c5 (evt_queue e4))) eqn:Hfit.
        - rewrite K2, decide_True, Hfit by done. apply elem_of_cons. by left.
        - intros q. rewrite K2, Hq5. case_decide as Hq; [|apply Hnq]. rewrite Hq, <- Hq5, Hfit. apply Hnq. }
      destruct (erase_Some _ _ _ _ K3 He5) as [n Hn]. exists (with_pos e4 n).
      split_and!; try done. unfold e4, e3. by destruct (inCallback e2 =? 1).
    + destruct (free_popped_wf (sch s4) p e2 Hwf4) as [F1 F2]; try done.
      split_and!; try done. intros _. split; [done|]. by exists e2.
Qed.
End TimedFacts.

(** ** The pass over the due events ends *)

(** By how much the events of a list are late, in microseconds. *)
Definition late1 (now : timeval) (m : sched_mem) (x : ptr) : Z :=
  Z.max 0 (tv_us now - tv_us (get_pri m x) + 1).

Definition late (now : timeval) (m : sched_mem) (l : list ptr) : Z :=
  foldr (fun x acc => late1 now m x + acc) 0 l.

Lemma late_nonneg now m l : 0 <= late now m l.
Proof. induction l as [|x l IH]; simpl; [lia|]. unfold late1. lia. Qed.

Lemma late_cons now m x l : late now m (x :: l) = late1 now m x + late now m l.
Proof. done. Qed.

Lemma late_perm now m l k : l ≡ₚ k -> late now m l = late now m k.
Proof. induction 1; simpl; try lia; congruence. Qed.

Lemma late_ext now m m' l :
  (forall x, x ∈ l -> get_pri m' x = get_pri m x) -> late now m' l = late now m l.
Proof.
  induction l as [|x l IH]; intros H; simpl; [done|]. unfold late1.
  rewrite (H x), IH; [done| |apply elem_of_cons; by left].
  intros y Hy. apply H. apply elem_of_cons. by right.
Qed.

(** Events with normalised times and a positive step. *)
Definition steady1 (m : sched_mem) (x : ptr) : Prop :=
  exists e, m !! x = Some e /\ tv_norm (nextAwake e) /\ tv_norm (timeStep e) /\ 1 <= tv_us (timeStep e).

Definition steady (m : sched_mem) (l : list ptr) : Prop := forall x, x ∈ l -> steady1 m x.

Lemma erase_pri m m' x : erase m' = erase m -> get_pri m' x = get_pri m x.
Proof.
  intros H. unfold get_pri. destruct (m !! x) as [e|] eqn:E.
  - by destruct (erase_Some _ _ _ _ H E) as [n ->].
  - by rewrite (erase_None _ _ _ H E).
Qed.

Lemma erase_steady1 m m' x : erase m' = erase m -> steady1 m x -> steady1 m' x.
Proof.
  intros H (e & E & Hn). destruct (erase_Some _ _ _ _ H E) as [n Hn']. exists (with_pos e n). done.
Qed.

Section Pass.
Context {T W : Type} (ops : EventTimerOps T (W * fd_sets)) (can_grow : W -> bool).
Context (sched_cb : Z -> Z -> EventState T -> W -> Z * EventState T * W).
Abbreviation clock := (EVT_get_monotonic_time ops).

(** Callbacks that leave the schedule alone, under a clock that they do not
    move: the virtual timer during one pass. *)
Class QuietCallbacks := {
  quiet : forall f a s w, let '(r, s', w') := sched_cb f a s w in
    sch s' = sch s /\ clock s' w' = clock s w
}.
Context (HQ : QuietCallbacks).
Existing Instance HQ.

#[export] Instance quiet_sched : SchedCallbacks sched_cb.
Proof.
  split. intros f a s w p Hwf Hh. pose proof (quiet f a s w) as Hq.
  destruct (sched_cb f a s w) as [[r s'] w']. destruct Hq as [-> _]. done.
Qed.

(** A popped event queued again one step later: the schedule is less late. *)
Lemma kept_less_late ok c p e e4 now :
  sched_wf c -> sched_popped c p -> heap c !! p = Some e ->
  steady1 (heap c) p -> steady (heap c) (contents (queue c)) -> 1 <= late1 now (heap c) p ->
  evt_queue e4 = Main -> inCallback e4 = 0 -> critical e4 = critical e -> timeStep e4 = timeStep e ->
  nextAwake e4 = timeradd (nextAwake e) (timeStep e) ->
  let c6 := (queue_insert (with_heap c (<[p:=e4]> (heap c))) (evt_queue e4) ok p).2 in
  sched_wf c6 /\ steady (heap c6) (contents (queue c6)) /\
  late now (heap c6) (contents (queue c6)) < late1 now (heap c) p + late now (heap c) (contents (queue c)).
Proof.
  intros Hwf Hpop He (e0 & He0 & Hn1 & Hn2 & Hst) Hsteady Hlate Hm4 Hcb Hcr Hts Hna c6.
  rewrite He in He0. injection He0 as <-. pose proof Hpop as (_ & Hnq & Hnull & Hnt).
  set (c5 := with_heap c (<[p:=e4]> (heap c))) in *.
  assert (He5 : heap c5 !! p = Some e4) by apply lookup_insert_eq.
  assert (Hne : forall x, x ∈ contents (queue c) -> heap c5 !! x = heap c !! x).
  { intros x Hx. apply lookup_insert_ne. intros ->. by apply (Hnq Main). }
  destruct (keep_insert_wf ok c5 p e4) as (K1 & K3 & K2); try done.
  { by apply (unqueued_update_wf c p e). }
  unfold c6. rewrite Hm4 in *. set (c7 := (queue_insert c5 Main ok p).2) in *. specialize (K2 Main).
  change (contents (get_queue c7 Main)) with (contents (queue c7)) in K2.
  change (contents (get_queue c5 Main)) with (contents (queue c)) in K2. rewrite decide_True in K2 by done.
  assert (Hold : forall x, x ∈ contents (queue c) -> steady1 (heap c7) x).
  { intros x Hx. apply (erase_steady1 (heap c5)); [done|]. destruct (Hsteady x Hx) as (ex & Ex & Hex). exists ex. by rewrite Hne. }
  assert (Hkeep : late now (heap c7) (contents (queue c)) = late now (heap c) (contents (queue c))).
  { rewrite (late_ext now (heap c5)) by (intros; by apply erase_pri). apply late_ext. intros x Hx. unfold get_pri. by rewrite Hne. }
  destruct (fits ok _); cbn [app] in K2.
  - split_and!; [done|..].
    + intros x Hx. rewrite K2 in Hx. apply elem_of_cons in Hx as [->|Hx]; [|by apply Hold].
      apply (erase_steady1 (heap c5)); [done|]. exists e4. rewrite Hts, Hna. split_and!; try done. by apply timeradd_norm.
    + rewrite (late_perm _ _ _ _ K2), late_cons, Hkeep.
      assert (late1 now (heap c7) p < late1 now (heap c) p); [|lia].
      unfold late1 in *. rewrite (erase_pri _ _ p K3). unfold get_pri in *. rewrite He5, He in *. rewrite Hna, timeradd_us. lia.
  - split_and!; [done|..].
    + intros x Hx. rewrite K2 in Hx. by apply Hold.
    + rewrite (late_perm _ _ _ _ K2), Hkeep. lia.
Qed.

(** A popped event that is freed. *)
Definition freed (c : sched) (p : ptr) (e : ScheduleCB) : sched :=
  with_crit (with_heap c (delete p (heap c))) (critical_sched_count c - b2z (critical e)).

Lemma free_called c p e e1 :
  p <> null_evt c -> critical e1 = critical e ->
  let c1 := with_heap c (<[p:=e1]> (heap c)) in
  free_evt (if critical e1 then with_crit c1 (critical_sched_count c1 - 1) else c1) p = freed c p e.
Proof.
  intros Hnull Hc. cbv zeta. rewrite free_delete by (by destruct (critical e1)). unfold freed. rewrite Hc.
  destruct (critical e); simpl; unfold with_heap, with_crit; simpl; rewrite delete_insert_eq; [done|].
  by rewrite Z.sub_0_r.
Qed.

Lemma freed_wf c p e : sched_wf c -> sched_popped c p -> heap c !! p = Some e -> sched_wf (freed c p e).
Proof.
  intros Hwf Hpop He. destruct (free_popped_wf c p e Hwf Hpop He) as [F _]. cbv zeta in F.
  rewrite <- (free_called c p e e) by (done || apply Hpop).
  rewrite insert_id by done. by destruct c.
Qed.

Lemma freed_less_late c p e now :
  sched_popped c p -> steady (heap c) (contents (queue c)) -> 1 <= late1 now (heap c) p ->
  steady (heap (freed c p e)) (contents (queue (freed c p e))) /\
  late now (heap (freed c p e)) (contents (queue (freed c p e)))
    < late1 now (heap c) p + late now (heap c) (contents (queue c)).
Proof.
  intros (_ & Hnq & _) Hsteady Hlate. cbn [freed with_crit with_heap heap queue].
  assert (Hne : forall x, x ∈ contents (queue c) -> delete p (heap c) !! x = heap c !! x).
  { intros x Hx. apply lookup_delete_ne. intros ->. by apply (Hnq Main). }
  split.
  - intros x Hx. destruct (Hsteady x Hx) as (ex & Ex & Hex). exists ex. by rewrite Hne.
  - rewrite (late_ext now (heap c)); [lia|]. intros x Hx. unfold get_pri. by rewrite Hne.
Qed.

(** The state after one popped, due event was processed and not stopped. *)
Lemma pass_step ok s w c p e now s' w' :
  sched_wf c -> sched_popped c p -> heap c !! p = Some e -> evt_queue e = Main ->
  steady1 (heap c) p -> steady (heap c) (contents (queue c)) -> tv_norm now ->
  tv_le (nextAwake e) now ->
  evt_process_timed_event sched_cb ok (upd_sched s c) w p now false = (true, s', w') ->
  sched_wf (sch s') /\ steady (heap (sch s')) (contents (queue (sch s'))) /\
  late now (heap (sch s')) (contents (queue (sch s')))
    < late1 now (heap c) p + late now (heap c) (contents (queue c)) /\
  clock s' w' = clock s w.
Proof.
  intros Hwf Hpop He Hmain Hst1 Hsteady Hnow Hdue.
  rewrite (process_timed_unfold sched_cb ok (upd_sched s c) w p e now false He).
  destruct (stops _ _ _); [done|].
  assert (Hcs : sch (count_step (upd_sched s c) e false) = c /\
                clock (count_step (upd_sched s c) e false) w = clock s w)
    by (unfold count_step; by destruct (_ && _)).
  destruct Hcs as [Hcs Hclk]. set (s1 := count_step (upd_sched s c) e false) in *.
  pose proof (quiet (callback e) (arg e) (called_state s1 p e) w) as Hq.
  destruct (sched_cb _ _ _ w) as [[r s4] w4]. destruct Hq as [Hs4 Hw4].
  assert (Hck : clock s4 w4 = clock s w) by (rewrite Hw4; exact Hclk).
  set (e1 := with_inCallback (with_count e (count e + 1)) 1).
  assert (Hsch : sch s4 = with_heap c (<[p:=e1]> (heap c)))
    by (rewrite Hs4; unfold called_state; simpl; by rewrite Hcs).
  assert (Hp4 : heap (sch s4) !! p = Some e1) by (rewrite Hsch; apply lookup_insert_eq). rewrite Hp4, Hsch.
  assert (Hlate : 1 <= late1 now (heap c) p).
  { destruct Hst1 as (e0 & He0 & Hn1 & _). rewrite He in He0. injection He0 as <-.
    unfold late1, get_pri. rewrite He. apply tv_le_us in Hdue; [lia|done|done]. }
  destruct (r =? EVENT_KEEP).
  - cbn [with_heap heap]. rewrite insert_insert_eq. intros [= <- <-]. cbn [upd_sched sch]. cbv zeta.
    destruct (kept_less_late ok c p e (with_inCallback (with_times e1 now (timeradd (nextAwake e) (timeStep e))) 0)
      now) as (K1 & K2 & K3); try done.
  - rewrite (free_called c p e e1) by (done || apply Hpop). intros [= <- <-]. cbn [upd_sched sch].
    destruct (freed_less_late c p e now Hpop Hsteady Hlate) as [F1 F2]. split_and!; try done.
    by apply freed_wf.
Qed.

Lemma peek_pop c p :
  sched_wf c -> ps_pqueue_peek (Some (queue c)) = Some p -> exists c', pop_event c = Some (p, c').
Proof.
  intros _ Hp. unfold pop_event, ps_pqueue_pop, ps_pqueue_peek in *.
  destruct (size (queue c) =? 1)%nat; [done|]. injection Hp as <-.
  destruct (percolate_down _ _ _ _) as [m q]. eauto.
Qed.

Lemma pass_ends fuel s w real now :
  sched_wf (sch s) -> steady (heap (sch s)) (contents (queue (sch s))) -> tv_norm now ->
  clock s w = now -> late now (heap (sch s)) (contents (queue (sch s))) <= Z.of_nat fuel ->
  exists go real' s' w', timed_pass ops can_grow sched_cb fuel s w real = Some (go, real', s', w') /\
    sched_wf (sch s') /\
    (go = true -> clock s' w' = now /\
       forall x, x ∈ contents (queue (sch s')) -> ~ tv_le (get_pri (heap (sch s')) x) now).
Proof.
  revert s w real. induction fuel as [|fuel IH]; intros s w real Hwf Hst Hnow Hclk Hlate;
    cbn [timed_pass]; rewrite Hclk;
    (destruct (ps_pqueue_peek (Some (queue (sch s)))) as [p|] eqn:Hpk;
      [|exists true, real, s, w; split_and!; try done; intros _; split; [done|];
        intros x Hx; unfold ps_pqueue_peek in Hpk;
        destruct (Nat.eqb_spec (size (queue (sch s))) 1) as [E|]; [|done];
        unfold contents in Hx; rewrite E in Hx; by apply elem_of_nil in Hx]).
  all: pose proof (wf_queue (sch s) Hwf Main) as Hq; simpl in Hq;
    destruct (peek_min _ _ _ (wf_heap _ _ Hq) Hpk) as [Hin Hmin];
    destruct (timercmp Z.gtb (get_pri (heap (sch s)) p) now) eqn:Hdue;
    [exists true, real, s, w; split_and!; try done; intros _; split; [done|];
     intros x Hx Hle; assert (Hp : tv_le (get_pri (heap (sch s)) p) now)
       by (eapply tv_le_trans; [by apply Hmin|done]);
     apply timercmp_gtb in Hp; congruence|].
  all: apply timercmp_gtb in Hdue; destruct (Hst p Hin) as (e & He & Hn1 & Hn2 & Hs1).
  - exfalso. assert (Hl1 : 1 <= late1 now (heap (sch s)) p).
    { unfold late1, get_pri in *. rewrite He in *. apply tv_le_us in Hdue; [lia|done|done]. }
    apply elem_of_Permutation in Hin as [k Hk]. rewrite (late_perm _ _ _ _ Hk), late_cons in Hlate.
    pose proof (late_nonneg now (heap (sch s)) k). lia.
  - destruct (peek_pop (sch s) p Hwf Hpk) as [c Hc]. rewrite Hc.
    destruct (pop_event_wf (sch s) p c Hwf Hc)
      as (Hwfc & _ & Hperm & _ & (e' & He' & Hpc & Hcb) & Hnq & Hnull & Hnt & Hoth & _).
    rewrite He in He'. injection He' as <-.
    destruct (wf_event (sch s) Hwf Main p Hin) as (e'' & He'' & Htag & _).
    rewrite He in He''. injection He'' as <-.
    assert (Hpri : forall x, get_pri (heap c) x = get_pri (heap (sch s)) x \/ x ∉ contents (queue (sch s))).
    { intros x. destruct (decide (x ∈ contents (queue (sch s)))) as [Hx|]; [|by right]. left.
      unfold get_pri. destruct (decide (x = p)) as [->|Hne]; [by rewrite Hpc, He|].
      destruct (Hst x Hx) as (ex & Ex & _). destruct (Hoth x ex Hne Ex) as [n ->]. by rewrite Ex. }
    assert (Hstc : forall x, x ∈ contents (queue (sch s)) -> steady1 (heap c) x).
    { intros x Hx. destruct (Hst x Hx) as (ex & Ex & Hex). destruct (decide (x = p)) as [->|Hne].
      - exists (with_pos e None). rewrite He in Ex. injection Ex as <-. done.
      - destruct (Hoth x ex Hne Ex) as [n Hn]. exists (with_pos ex n). done. }
    assert (Hsub : forall x, x ∈ contents (queue c) -> x ∈ contents (queue (sch s)))
      by (intros x Hx; rewrite Hperm; apply elem_of_cons; by right).
    destruct (evt_process_timed_event sched_cb (can_grow w) (upd_sched s c) w p now false) as [[go s'] w'] eqn:Ep.
    destruct go.
    + assert (Hpopd : sched_popped c p) by (split; [rewrite Hpc; eauto|done]).
      assert (Hdue' : tv_le (nextAwake (with_pos e None)) now)
        by (unfold get_pri in Hdue; by rewrite He in Hdue).
      destruct (pass_step (can_grow w) s w c p (with_pos e None) now s' w' Hwfc Hpopd Hpc Htag (Hstc p Hin)
        (fun x Hx => Hstc x (Hsub x Hx)) Hnow Hdue' Ep) as (P1 & P2 & P3 & P4).
      apply IH; try done; [congruence|].
      rewrite (late_perm _ _ _ _ Hperm), late_cons in Hlate.
      rewrite (late_ext now (heap (sch s)) (heap c)) in P3
        by (intros x Hx; destruct (Hpri x); [done|exfalso; auto]).
      unfold late1 in P3, Hlate. destruct (Hpri p) as [Hpp|]; [|done]. rewrite Hpp in P3. lia.
    + exists false, real, s', w'. split_and!; try done.
      rewrite (process_timed_unfold sched_cb (can_grow w) (upd_sched s c) w p (with_pos e None) now false Hpc) in Ep.
      destruct (stops _ _ _).
      * injection Ep as <- <-. apply (hold_wf c p Hwfc). split; [rewrite Hpc; eauto|done].
      * destruct (sched_cb _ _ _ w) as [[? ?] ?]. repeat case_match; simplify_eq.
Qed.
End Pass.

(** C6. Under a clock that stands still during the pass, as the virtual timer
    does, and with callbacks that leave the schedule alone, the loop over the
    due events ends: each turn makes the schedule less late, because a kept
    event moves on by a positive step.  When it was not stopped at a breakpoint
    no due event is left in the queue. *)
Theorem timed_pass_ends {T W} (ops : EventTimerOps T (W * fd_sets)) (can_grow : W -> bool) sched_cb
    (HQ : QuietCallbacks ops sched_cb) (s : EventState T) (w : W) real :
  sched_wf (sch s) -> steady (heap (sch s)) (contents (queue (sch s))) ->
  tv_norm (EVT_get_monotonic_time ops s w) ->
  exists fuel go real' s' w', timed_pass ops can_grow sched_cb fuel s w real = Some (go, real', s', w') /\
    sched_wf (sch s') /\
    (go = true ->
       forall x, x ∈ contents (queue (sch s')) ->
         ~ tv_le (get_pri (heap (sch s')) x) (EVT_get_monotonic_time ops s' w')).
Proof.
  intros Hwf Hst Hn. set (now := EVT_get_monotonic_time ops s w) in *.
  pose proof (late_nonneg now (heap (sch s)) (contents (queue (sch s)))) as Hl.
  destruct (pass_ends ops can_grow sched_cb HQ (Z.to_nat (late now (heap (sch s)) (contents (queue (sch s)))))
    s w real now Hwf Hst Hn eq_refl) as (go & real' & s' & w' & H1 & H2 & H3); [lia|].
  eexists _, go, real', s', w'. split; [exact H1|]. split; [done|].
  intros Hgo. destruct (H3 Hgo) as [-> H4]. exact H4.
Qed.

(** ** Descriptor events *)

(** The descriptor event whose callback runs. *)
Definition fd_running (t : fds) (f : Z) (e : fd_event) : Prop :=
  exists n, entry t f = Some n /\ get (einCallback n) e <> 0.

(** What the loop asks of descriptor callbacks: they use the operations of
    FdEvents.v, which keep the table well formed and do not free the entry of
    a callback that runs. *)
Class FdCallbacks {T W} (fd_cb : Z -> Z -> fd_event -> Z -> EventState T -> W -> Z * EventState T * W) := {
  fd_cb_ok : forall c f e a s w,
    fd_wf (fdt s) -> 0 <= f -> fd_running (fdt s) f e ->
    let '(r, s', w') := fd_cb c f e a s w in fd_wf (fdt s') /\ fd_running (fdt s') f e
}.

(** A change of an entry that leaves its callbacks and flags alone. *)
Definition same_watch (n n' : EventCB) : Prop :=
  fd n' = fd n /\ cb n' = cb n /\ ebreak n' = ebreak n /\ pausable n' = pausable n /\
  ecritical n' = ecritical n /\ entry_ok n'.

Lemma split_entry t f n :
  fd_wf t -> entry t f = Some n ->
  exists c1 c2, split_at_fd (chain t f) f = Some (c1, n, c2) /\ chain t f = c1 ++ n :: c2 /\
    f ∉ fd <$> c1 /\ f ∉ fd <$> c2.
Proof.
  intros Hwf He. pose proof (split_at_fd_spec (chain t f) f) as Hs. unfold entry in He.
  pose proof Hwf as (_ & H & _). destruct (H _ _ (chain_at t f Hwf)) as [_ Hn].
  destruct (split_at_fd (chain t f) f) as [[[a m] b]|]; [|congruence].
  destruct Hs as (E & E1 & E2 & E3). assert (m = n) as -> by congruence.
  exists a, b. split_and!; try done. rewrite E, fmap_app in Hn. simpl in Hn.
  apply NoDup_app in Hn as (_ & _ & Hn). apply NoDup_cons in Hn as [Hn _]. by rewrite <- E1.
Qed.

Lemma put_entry_wf t f n upd :
  fd_wf t -> 0 <= f -> entry t f = Some n -> same_watch n (upd n) ->
  fd_wf (put_entry t f upd) /\ entry (put_entry t f upd) f = Some (upd n) /\
  (forall x, x <> f -> entry (put_entry t f upd) x = entry t x).
Proof.
  intros Hwf Hf He (S1 & S2 & S3 & S4 & S5 & S6).
  destruct (split_entry t f n Hwf He) as (c1 & c2 & Hsp & Hch & H1 & H2).
  destruct (chain_split t f Hwf) as (_ & _ & _ & _ & _ & Hent & _). destruct (Hent n He) as [Hfd _].
  unfold put_entry. rewrite Hsp. pose proof Hwf as (_ & _ & _ & H5 & _).
  apply (fd_wf_same_cb t _ f n (upd n) c1 c2); try done; try congruence.
  - intros e. cbn [set_chain blockedSet]. rewrite H5, He. unfold blk. rewrite S2, S3, S4.
    by split; [intros [_ ?]|].
  - cbn [set_chain critical_fd_count]. rewrite S5. lia.
Qed.

Lemma remove_at_wf t f n e :
  fd_wf t -> 0 <= f -> entry t f = Some n -> get (einCallback n) e = 0 ->
  fd_wf (remove_at t f e) /\ entry (remove_at t f e) f = drop_event n e /\
  (forall x, x <> f -> entry (remove_at t f e) x = entry t x).
Proof.
  intros Hwf Hf He H0. destruct (split_entry t f n Hwf He) as (c1 & c2 & Hsp & Hch & H1 & H2).
  pose proof (remove_internal_wf t f n e c1 c2 Hwf Hf He H0 Hch H1 H2) as Hr.
  unfold remove_at. rewrite Hsp. by destruct (EVT_remove_internal t n e) as [t1 o].
Qed.

Lemma entry_is_ok t f n : fd_wf t -> entry t f = Some n -> entry_ok n.
Proof.
  intros Hwf He. destruct (chain_split t f Hwf) as (_ & _ & _ & _ & _ & Hent & _). by destruct (Hent n He).
Qed.

(** The entry after the callback of [e] returned [r]. *)
Definition after_fd_callback (n : EventCB) (e : fd_event) (r : Z) : option EventCB :=
  let ic := get (einCallback n) e in
  let n' := with_einCallback n e 0 in
  if (ic =? 3) || ((r =? EVENT_REMOVE) && (ic =? 1)) then drop_event n' e else Some n'.

Section FdFacts.
Context {T W : Type}.
Context (fd_cb : Z -> Z -> fd_event -> Z -> EventState T -> W -> Z * EventState T * W).
Context `{!FdCallbacks fd_cb}.

(** The state in which the callback is called. *)
Definition fd_called (s : EventState T) (f : Z) (e : fd_event) (brk : bool) : EventState T :=
  let s1 := if brk then upd_dbg s (debuggerState s) (break_on_next s) (steps_to_break s - 1) else s in
  upd_fds s1 (put_entry (fdt s1) f (fun n => count_entry n e)).

Definition fd_breaks (s : EventState T) (n : EventCB) (e : fd_event) : bool :=
  pausable n && (break_on_next s || get (ebreak n) e).

(** The table after the callback. *)
Lemma fd_return_wf t f e n r :
  fd_wf t -> 0 <= f -> entry t f = Some n ->
  let t0 := put_entry t f (fun n => with_einCallback n e 0) in
  let t1 := if (get (einCallback n) e =? 3) || ((r =? EVENT_REMOVE) && (get (einCallback n) e =? 1))
            then remove_at t0 f e else t0 in
  fd_wf t1 /\ entry t1 f = after_fd_callback n e r /\ (forall x, x <> f -> entry t1 x = entry t x).
Proof.
  intros Hwf Hf He t0 t1. pose proof (entry_is_ok t f n Hwf He) as [Hone Hrun].
  destruct (put_entry_wf t f n (fun n => with_einCallback n e 0) Hwf Hf He) as (P1 & P2 & P3).
  { split_and!; try done. split; [exact Hone|]. intros e'. simpl. rewrite get_set.
    case_decide; [done|]. apply Hrun. }
  fold t0 in P1, P2, P3. unfold t1, after_fd_callback.
  destruct ((get (einCallback n) e =? 3) || _); [|done].
  destruct (remove_at_wf t0 f (with_einCallback n e 0) e P1 Hf P2) as (R1 & R2 & R3).
  { simpl. by rewrite get_set_eq. }
  split_and!; try done. intros x Hx. by rewrite R3, P3.
Qed.

Lemma process_fd_spec s w f e n c :
  fd_wf (fdt s) -> 0 <= f -> entry (fdt s) f = Some n -> get (cb n) e = Some c ->
  let '(go, s', w') := evt_process_fd_event fd_cb s w f e false in
  fd_wf (fdt s') /\
  go = negb (fd_breaks s n e && (steps_to_break s <=? 1)) /\
  (go = false -> fdt s' = fdt s /\ next_fd_event s' = Some (f, e) /\ debuggerState s' = EDBG_STOPPED /\ w' = w) /\
  (go = true ->
   let '(r, s2, w2) := fd_cb c f e (get (earg n) e) (fd_called s f e (fd_breaks s n e)) w in
   w' = w2 /\ fd_event_counter s' = fd_event_counter s2 + 1 /\
   exists n2, entry (fdt s2) f = Some n2 /\ entry (fdt s') f = after_fd_callback n2 e r /\
     forall x, x <> f -> entry (fdt s') x = entry (fdt s2) x).
Proof.
  intros Hwf Hf He Hcb. unfold evt_process_fd_event. rewrite He. simpl negb. rewrite andb_true_l.
  fold (fd_breaks s n e).
  replace (steps_to_break (if fd_breaks s n e then _ else s) <=? 0)
    with (if fd_breaks s n e then steps_to_break s <=? 1 else steps_to_break s <=? 0)
    by (destruct (fd_breaks s n e); [|done]; simpl;
        destruct (Z.leb_spec (steps_to_break s) 1), (Z.leb_spec (steps_to_break s - 1) 0); lia || done).
  set (s1 := if fd_breaks s n e then _ else s).
  assert (Hs1 : fdt s1 = fdt s) by (unfold s1; by destruct (fd_breaks s n e)).
  destruct (fd_breaks s n e && (if fd_breaks s n e then steps_to_break s <=? 1 else steps_to_break s <=? 0)) eqn:Hb.
  { assert (Hg : fd_breaks s n e && (steps_to_break s <=? 1) = true) by (destruct (fd_breaks s n e); done).
    rewrite Hg. cbn [edbg_breakpoint upd_dbg upd_next_fd fdt next_fd_event debuggerState]. rewrite Hs1. done. }
  assert (Hg : fd_breaks s n e && (steps_to_break s <=? 1) = false) by (destruct (fd_breaks s n e); done).
  rewrite Hg, Hcb.
  assert (Hcalled : upd_fds s1 (put_entry (fdt s1) f (fun n0 => count_entry n0 e)) = fd_called s f e (fd_breaks s n e))
    by done.
  rewrite Hcalled. pose proof (entry_is_ok _ f n Hwf He) as [Hone Hrun].
  destruct (put_entry_wf (fdt s) f n (fun n => count_entry n e) Hwf Hf He) as (P1 & P2 & _).
  { split_and!; try done. split; [exact Hone|]. intros e'. simpl. rewrite get_set.
    case_decide; [subst; intros _; by rewrite Hcb|]. apply Hrun. }
  assert (Hcf : fdt (fd_called s f e (fd_breaks s n e)) = put_entry (fdt s) f (fun n => count_entry n e))
    by (rewrite <- Hcalled; cbn [upd_fds fdt]; by rewrite Hs1).
  pose proof (fd_cb_ok c f e (get (earg n) e) (fd_called s f e (fd_breaks s n e)) w) as Hok.
  rewrite Hcf in Hok. specialize (Hok P1 Hf). destruct (fd_cb c f e _ _ w) as [[r s2] w2].
  destruct Hok as [Hwf2 (n2 & Hn2 & Hic)].
  { eexists. split; [exact P2|]. simpl. by rewrite get_set_eq. }
  cbn [upd_counters fdt]. rewrite Hn2.
  destruct (fd_return_wf (fdt s2) f e n2 r Hwf2 Hf Hn2) as (R1 & R2 & R3). cbv zeta in R1, R2, R3.
  destruct ((get (einCallback n2) e =? 3) || _); cbn [upd_fds fdt fd_event_counter]; split_and!; try done;
    intros _; split_and!; try done; by exists n2.
Qed.

(** Processing a descriptor event.  At a breakpoint whose countdown is
    over the event is handed to the debugger, its callback is not called and
    the table stays as it is.  Otherwise the registered callback runs once,
    marked as running; afterwards its entry is unmarked, and dropped for that
    event if the callback asked for it and did not register again, or if it was
    removed by force; the other descriptors are as the callback left them, and
    the table stays well formed. *)
Theorem fd_event_correct s w f e n c :
  fd_wf (fdt s) -> 0 <= f -> entry (fdt s) f = Some n -> get (cb n) e = Some c ->
  let '(go, s', w') := evt_process_fd_event fd_cb s w f e false in
  fd_wf (fdt s') /\
  go = negb (fd_breaks s n e && (steps_to_break s <=? 1)) /\
  (go = false -> fdt s' = fdt s /\ next_fd_event s' = Some (f, e) /\ debuggerState s' = EDBG_STOPPED /\ w' = w) /\
  (go = true ->
   let '(r, s2, w2) := fd_cb c f e (get (earg n) e) (fd_called s f e (fd_breaks s n e)) w in
   w' = w2 /\ fd_event_counter s' = fd_event_counter s2 + 1 /\
   exists n2, entry (fdt s2) f = Some n2 /\ entry (fdt s') f = after_fd_callback n2 e r /\
     forall x, x <> f -> entry (fdt s') x = entry (fdt s2) x).
Proof. exact (process_fd_spec s w f e n c). Qed.

(** *** One turn over the ready descriptors *)

Definition ready_fds (fs : list Z) (ready : gset Z) : list Z := filter (fun f => f ∈ ready) fs.

(** The events select reported, kind after kind and descriptor after
    descriptor. *)
Fixpoint ready_pairs (es : list fd_event) (fs : list Z) (sets : fd_sets) : list (fd_event * Z) :=
  match es with
  | [] => []
  | e :: es' =>
      match get sets e with Some ready => pair e <$> ready_fds fs ready | None => [] end
      ++ ready_pairs es' fs sets
  end.

(** The reference for the two nested loops: all of them in turn, up to a stop
    at a breakpoint; a descriptor that has no entry any more is passed over. *)
Fixpoint process_pairs (l : list (fd_event * Z)) (real : bool) (s : EventState T) (w : W)
    : bool * bool * EventState T * W :=
  match l with
  | [] => (true, real, s, w)
  | (e, f) :: l' =>
      match entry (fdt s) f with
      | None => process_pairs l' real s w
      | Some _ =>
          match evt_process_fd_event fd_cb s w f e false with
          | (true, s', w') => process_pairs l' true s' w'
          | (false, s', w') => (false, real, s', w')
          end
      end
  end.

Lemma process_pairs_app l1 l2 real s w :
  process_pairs (l1 ++ l2) real s w =
    match process_pairs l1 real s w with
    | (true, real', s', w') => process_pairs l2 real' s' w'
    | r => r
    end.
Proof.
  revert real s w. induction l1 as [|[e f] l1 IH]; intros real s w; simpl; [done|].
  destruct (entry (fdt s) f); [|apply IH].
  destruct (evt_process_fd_event fd_cb s w f e false) as [[[] s'] w']; [apply IH|done].
Qed.

Lemma dispatch_fds_all fs ready e rv real s w :
  0 < rv -> Z.of_nat (length (ready_fds fs ready)) <= rv ->
  exists rv', dispatch_fds fd_cb fs ready e rv real s w =
    (let '(go, real', s', w') := process_pairs (pair e <$> ready_fds fs ready) real s w in
     (go, rv', real', s', w')) /\
    ((process_pairs (pair e <$> ready_fds fs ready) real s w).1.1.1 = true ->
     rv' = rv - Z.of_nat (length (ready_fds fs ready))).
Proof.
  revert rv real s w. induction fs as [|f fs IH]; intros rv real s w Hpos Hle.
  { exists rv. simpl. split; [done|lia]. }
  unfold ready_fds in *. cbn [dispatch_fds]. rewrite filter_cons in Hle |- *.
  destruct (decide (f ∈ ready)) as [Hin|Hin].
  2:{ simpl negb. cbv iota. rewrite (proj2 (Z.ltb_lt 0 rv)) by done. by apply IH. }
  rewrite fmap_cons. cbn [length process_pairs] in Hle |- *.
  assert (Hend : forall real s w, 0 <? rv - 1 = false ->
    process_pairs (pair e <$> filter (fun f => f ∈ ready) fs) real s w = (true, real, s, w) /\
    rv - 1 = rv - Z.of_nat (S (length (filter (fun f => f ∈ ready) fs)))).
  { intros r0 s0 w0 Hz. apply Z.ltb_ge in Hz.
    destruct (filter (fun f => f ∈ ready) fs) as [|x l]; simpl in *; [split; [done|lia]|lia]. }
  assert (Hgo : forall real s w, exists rv',
    (if 0 <? rv - 1 then dispatch_fds fd_cb fs ready e (rv - 1) real s w else (true, rv - 1, real, s, w)) =
    (let '(go, real', s', w') := process_pairs (pair e <$> filter (fun f => f ∈ ready) fs) real s w in
     (go, rv', real', s', w')) /\
    ((process_pairs (pair e <$> filter (fun f => f ∈ ready) fs) real s w).1.1.1 = true ->
     rv' = rv - Z.of_nat (S (length (filter (fun f => f ∈ ready) fs))))).
  { intros r0 s0 w0. destruct (0 <? rv - 1) eqn:Hz.
    - apply Z.ltb_lt in Hz. destruct (IH (rv - 1) r0 s0 w0 Hz) as (rv' & E1 & E2); [lia|].
      exists rv'. split; [exact E1|]. intros H. rewrite (E2 H). lia.
    - destruct (Hend r0 s0 w0 eq_refl) as [E1 E2]. exists (rv - 1). rewrite E1. done. }
  destruct (entry (fdt s) f) as [n|].
  - destruct (evt_process_fd_event fd_cb s w f e false) as [[[] s'] w']; simpl negb; cbv iota.
    + apply Hgo.
    + by exists (rv - 1).
  - simpl negb. cbv iota. apply Hgo.
Qed.

Lemma dispatch_events_all es fs sets rv real s w :
  0 < rv -> Z.of_nat (length (ready_pairs es fs sets)) <= rv ->
  dispatch_events fd_cb es fs sets rv real s w = process_pairs (ready_pairs es fs sets) real s w.
Proof.
  revert rv real s w. induction es as [|e es IH]; intros rv real s w Hpos Hle; [done|].
  cbn [dispatch_events ready_pairs] in Hle |- *. rewrite length_app in Hle. rewrite process_pairs_app.
  destruct (get sets e) as [ready|].
  - rewrite length_fmap in Hle.
    destruct (dispatch_fds_all fs ready e rv real s w Hpos) as (rv' & -> & Hrv); [lia|].
    destruct (process_pairs (pair e <$> ready_fds fs ready) real s w) as [[[[] real'] s'] w'];
      simpl negb; cbv iota; [|done]. specialize (Hrv eq_refl).
    destruct (Z.ltb_spec 0 rv') as [Hp|Hp]; [apply IH; lia|].
    destruct (ready_pairs es fs sets); [done|]. simpl in Hle. lia.
  - simpl negb. cbv iota. simpl. rewrite (proj2 (Z.ltb_lt 0 rv)) by done. apply IH; simpl in Hle; lia.
Qed.

Lemma process_fd_wf s w f e n :
  fd_wf (fdt s) -> 0 <= f -> entry (fdt s) f = Some n ->
  let '(go, s', w') := evt_process_fd_event fd_cb s w f e false in fd_wf (fdt s').
Proof.
  intros Hwf Hf He. destruct (get (cb n) e) as [c|] eqn:Hcb.
  { pose proof (process_fd_spec s w f e n c Hwf Hf He Hcb) as H.
    destruct (evt_process_fd_event fd_cb s w f e false) as [[go s'] w']. by destruct H. }
  unfold evt_process_fd_event. rewrite He, Hcb.
  destruct (fd_return_wf (fdt s) f e n EVENT_KEEP Hwf Hf He) as (R1 & _). cbv zeta in R1.
  destruct (negb false && pausable n && _); cbn [andb upd_dbg fdt steps_to_break].
  1: destruct (_ <=? 0); [exact Hwf|].
  all: rewrite He; destruct ((get (einCallback n) e =? 3) || _); exact R1.
Qed.

Lemma process_pairs_wf (l : list (fd_event * Z)) real s w :
  fd_wf (fdt s) -> Forall (fun x => 0 <= x.2) l ->
  let '(go, real', s', w') := process_pairs l real s w in fd_wf (fdt s').
Proof.
  revert real s w. induction l as [|[e f] l IH]; intros real s w Hwf Hl; [done|].
  apply Forall_cons_1 in Hl as [Hf Hl]. simpl in Hf. cbn [process_pairs].
  destruct (entry (fdt s) f) as [n|] eqn:He; [|by apply IH].
  pose proof (process_fd_wf s w f e n Hwf Hf He) as Hp.
  destruct (evt_process_fd_event fd_cb s w f e false) as [[[] s'] w']; [by apply IH|done].
Qed.

Lemma rotate_fds_perm start n : 0 <= start < n -> rotate_fds start n ≡ₚ seqZ 0 n.
Proof.
  intros H. unfold rotate_fds. rewrite Permutation_app_comm.
  replace n with (start + (n - start)) at 2 by lia. rewrite seqZ_app by lia. done.
Qed.

Lemma rotate_events_perm start : rotate_events start ≡ₚ all_events.
Proof.
  destruct start; [done| |].
  - change (rotate_events FdWrite) with ([FdWrite; FdError] ++ [FdRead]). by rewrite Permutation_app_comm.
  - change (rotate_events FdError) with ([FdError] ++ [FdRead; FdWrite]). by rewrite Permutation_app_comm.
Qed.

Lemma elem_ready_pairs es fs sets e f :
  (e, f) ∈ ready_pairs es fs sets <-> e ∈ es /\ f ∈ fs /\ exists r, get sets e = Some r /\ f ∈ r.
Proof.
  induction es as [|e' es IH]; simpl; [rewrite !elem_of_nil; tauto|].
  rewrite elem_of_app, IH, elem_of_cons. destruct (get sets e') as [r|] eqn:Er.
  - rewrite list_elem_of_fmap. unfold ready_fds. split.
    + intros [(x & [= -> ->] & Hx)|(H1 & H2)]; [|tauto]. apply list_elem_of_filter in Hx as [Hx1 Hx2]. eauto 6.
    + intros ([->|H1] & H2 & r' & H3 & H4); [|eauto 6]. left. exists f. split; [done|].
      apply list_elem_of_filter. split; [congruence|done].
  - rewrite elem_of_nil. split; [tauto|]. intros ([->|H1] & H2 & r' & H3 & H4); [congruence|]. right. eauto.
Qed.

Lemma ready_pairs_NoDup es fs sets : NoDup es -> NoDup fs -> NoDup (ready_pairs es fs sets).
Proof.
  intros Hes Hfs. induction Hes as [|e es Hn Hes IH]; simpl; [constructor|]. apply NoDup_app. split_and!; [| |done].
  - destruct (get sets e) as [r|]; [|constructor]. apply (NoDup_fmap_2 _). by apply NoDup_filter.
  - intros [e' f] Hin Hin'. apply elem_ready_pairs in Hin' as (He & _).
    destruct (get sets e) as [r|]; [|by apply elem_of_nil in Hin].
    apply list_elem_of_fmap in Hin as (x & [= -> ->] & _). done.
Qed.

(** One turn over the ready descriptors.  When select's result is the
    number of bits it left set, the nested loops, which start at a descriptor
    and at a kind of event that move on from turn to turn and stop counting at
    zero, process every event that is ready exactly once, unless a breakpoint
    stops them; descriptors that lost their entry meanwhile are skipped; the
    table stays well formed. *)
Theorem dispatch_complete start sf nfds sets rv real s w :
  fd_wf (fdt s) -> 0 <= sf < nfds -> 0 < rv ->
  rv = Z.of_nat (length (ready_pairs (rotate_events start) (rotate_fds sf nfds) sets)) ->
  exists l, dispatch_events fd_cb (rotate_events start) (rotate_fds sf nfds) sets rv real s w
      = process_pairs l real s w /\
    NoDup l /\ (forall e f, (e, f) ∈ l <-> 0 <= f < nfds /\ exists r, get sets e = Some r /\ f ∈ r) /\
    let '(go, real', s', w') := process_pairs l real s w in fd_wf (fdt s').
Proof.
  intros Hwf Hsf Hpos Hrv. exists (ready_pairs (rotate_events start) (rotate_fds sf nfds) sets).
  assert (Hel : forall e f, (e, f) ∈ ready_pairs (rotate_events start) (rotate_fds sf nfds) sets <->
    0 <= f < nfds /\ exists r, get sets e = Some r /\ f ∈ r).
  { intros e f. rewrite elem_ready_pairs, rotate_events_perm, rotate_fds_perm by done.
    rewrite elem_of_seqZ. assert (e ∈ all_events) by (destruct e; set_solver). rewrite Z.add_0_l. tauto. }
  split_and!; try done.
  - apply dispatch_events_all; [done|lia].
  - apply ready_pairs_NoDup; [rewrite rotate_events_perm; repeat constructor; set_solver|].
    rewrite rotate_fds_perm by done. apply NoDup_seqZ.
  - apply process_pairs_wf; [done|]. apply list.Forall_forall. intros [e f] Hin. apply Hel in Hin. simpl. lia.
Qed.
End FdFacts.

(** ** Leaving the loop *)

Lemma crit_zero m : crit_count m <= 0 <-> forall p e, m !! p = Some e -> critical e = false.
Proof.
  assert (Hnn : forall m, 0 <= crit_count m).
  { intros m0. induction m0 as [|p e m0 Hp IH] using map_ind; [done|].
    rewrite crit_insert by done. destruct (critical e); simpl; lia. }
  split.
  - intros H p e Hp. pose proof (crit_delete m p e Hp) as Hd. pose proof (Hnn (delete p m)).
    destruct (critical e); [simpl in Hd; lia|done].
  - induction m as [|p e m Hp IH] using map_ind; intros H; [done|].
    rewrite crit_insert by done. rewrite (H p e) by apply lookup_insert_eq. simpl.
    apply IH. intros q e' Hq. apply (H q). rewrite lookup_insert_ne; [done|]. intros <-. congruence.
Qed.

Lemma count_if_zero P l : count_if P l <= 0 <-> forall n, n ∈ l -> P n = false.
Proof.
  split.
  - intros H n Hn. destruct (P n) eqn:E; [|done]. pose proof (count_one P n l Hn E). lia.
  - induction l as [|n l IH]; intros H; simpl; [lia|]. rewrite (H n) by (apply elem_of_cons; by left).
    simpl. apply IH. intros m Hm. apply H, elem_of_cons. by right.
Qed.

Lemma elem_entry t n : fd_wf t -> n ∈ concat (events t) -> entry t (fd n) = Some n /\ 0 <= fd n.
Proof.
  intros Hwf Hn. pose proof Hwf as (_ & H & _).
  apply list_elem_of_In, in_concat in Hn as (c & Hc & Hn). apply list_elem_of_In in Hc, Hn.
  apply list_elem_of_lookup in Hc as [i Hi]. destruct (H i c Hi) as [Hf Hnd].
  destruct (proj1 (list.Forall_forall _ _) Hf n Hn) as (H0 & Hb & _). split; [|done].
  unfold entry, chain. rewrite Hb, Hi. simpl. clear Hf Hi. induction c as [|m c IH]; [by apply elem_of_nil in Hn|].
  apply elem_of_cons in Hn as [->|Hn]; simpl; [by rewrite Z.eqb_refl|].
  rewrite fmap_cons in Hnd. apply NoDup_cons in Hnd as [Hm Hnd].
  destruct (Z.eqb_spec (fd m) (fd n)) as [E|E]; [|by apply IH].
  destruct Hm. rewrite E. by apply list_elem_of_fmap_2.
Qed.

(** The automatic end of the loop: asked to exit when it has nothing left
    to wait for (bit 0 for descriptors, bit 1 for timed events), the loop does
    so exactly when no event of the kinds asked for is critical; asked for
    neither it never does. *)
Theorem auto_exit_correct {T} (s : EventState T) auto :
  sched_wf (sch s) -> fd_wf (fdt s) -> 1 <= auto <= 3 ->
  auto_exits EVT_NEVER_EXIT s = false /\
  (auto_exits auto s = true <->
   (Z.testbit auto 1 = true -> forall p e, heap (sch s) !! p = Some e -> critical e = false) /\
   (Z.testbit auto 0 = true -> forall x n, entry (fdt s) x = Some n -> ecritical n = false)).
Proof.
  intros Hs Hf Ha. split; [done|].
  assert (H1 : 0 <? critical_sched_count (sch s) = false <->
    forall p e, heap (sch s) !! p = Some e -> critical e = false).
  { pose proof Hs as (_ & _ & -> & _). rewrite Z.ltb_ge. apply crit_zero. }
  assert (H2 : 0 <? critical_fd_count (fdt s) = false <->
    forall x n, entry (fdt s) x = Some n -> ecritical n = false).
  { pose proof Hf as (_ & _ & _ & _ & _ & -> & _). rewrite Z.ltb_ge, count_if_zero. split.
    - intros H x n Hn. apply H. by destruct (entry_elem (fdt s) x n Hf Hn).
    - intros H n Hn. by apply (H (fd n)), elem_entry. }
  rewrite <- H1, <- H2. unfold auto_exits, remaining_work.
  assert (auto = 1 \/ auto = 2 \/ auto = 3) as [ -> | [ -> | -> ] ] by lia;
    destruct (0 <? critical_sched_count (sch s)), (0 <? critical_fd_count (fdt s)); vm_compute; intuition congruence.
Qed.

(** ** Witnesses *)

(** A virtual timer, no world, and callbacks that keep their event when their
    argument says so. *)
Definition virt_ops : EventTimerOps VirtualEventTimer (unit * fd_sets) :=
  ETOps ET_virt_block et_virt_get_time et_virt_get_time
    (Some et_virt_inc_time) (Some et_virt_set_time) (Some et_virt_get_time)
    (Some et_virt_set_pause) (Some et_virt_get_pause).

Definition keep_cb (f a : Z) (s : EventState VirtualEventTimer) (w : unit)
    : Z * EventState VirtualEventTimer * unit :=
  (if a =? 0 then EVENT_REMOVE else EVENT_KEEP, s, w).

#[export] Instance keep_cb_quiet : QuietCallbacks virt_ops keep_cb.
Proof. by split. Qed.

(** The handler of the demonstration schedule at a given time. *)
Definition demo_state (c : sched) (now : timeval) : EventState VirtualEventTimer :=
  ES c (fds_init 17) (VET now VIRT_CLK_ACTIVE) true true EDBG_DISABLED EDBG_DISABLED
    false 0 false None None 0 0 0 [].

(** The first event of the schedule, taken from its queue. *)
Definition demo_popped : sched := match pop_event demo with Some (_, c) => c | None => demo end.

Lemma demo_popped_ok :
  sched_wf demo_popped /\ sched_popped demo_popped 2%positive /\
  heap demo_popped !! 2%positive = Some (with_pos (demo_evt 2%positive) None).
Proof.
  destruct (pop_event_wf demo 2%positive demo_popped demo_wf) as (H1 & _ & _ & _ & H2 & H3 & H4 & H5 & _).
  - vm_compute. reflexivity.
  - assert (H6 : heap demo_popped !! 2%positive = Some (with_pos (demo_evt 2%positive) None))
      by (vm_compute; reflexivity).
    split; [exact H1|]. split; [|exact H6]. split; [eauto|]. split; [exact H3|]. split; [exact H4|exact H5].
Qed.

Lemma timed_event_correct_witness :
  exists s', evt_process_timed_event keep_cb true (demo_state demo_popped (TV 105 0)) tt 2%positive
               (TV 105 0) false = (true, s', tt) /\
    sched_wf (sch s').
Proof.
  destruct demo_popped_ok as (H1 & H2 & H3).
  pose proof (@timed_event_correct _ _ keep_cb (quiet_sched virt_ops keep_cb keep_cb_quiet) true
    (demo_state demo_popped (TV 105 0)) tt 2%positive
    _ (TV 105 0) false H1 H2 H3) as H.
  destruct (evt_process_timed_event keep_cb true _ tt 2%positive _ false) as [[go s'] []] eqn:E.
  destruct H as (Hwf & Hgo & _). exists s'.
  assert (go = true) as -> by (rewrite Hgo; vm_compute; reflexivity).
  split; [reflexivity|exact Hwf].
Defined.

Lemma timed_pass_ends_witness :
  exists fuel go real s' w',
    timed_pass virt_ops (fun _ => false) keep_cb fuel (demo_state demo (TV 120 0)) tt false = Some (go, real, s', w') /\
    sched_wf (sch s').
Proof.
  destruct (timed_pass_ends virt_ops (fun _ => false) keep_cb keep_cb_quiet (demo_state demo (TV 120 0)) tt false)
    as (fuel & go & real & s' & w' & H1 & H2 & _).
  - apply demo_wf.
  - intros x Hx. assert (Hl : contents (queue (sch (demo_state demo (TV 120 0)))) = [2; 3; 4]%positive)
      by (vm_compute; reflexivity).
    rewrite Hl in Hx. repeat (apply elem_of_cons in Hx as [->|Hx];
      [eexists; split; [vm_compute; reflexivity|]; vm_compute; repeat split; congruence|]).
    by apply elem_of_nil in Hx.
  - vm_compute. repeat split; congruence.
  - exists fuel, go, real, s', w'. split; [exact H1|exact H2].
Defined.

(** Descriptor callbacks that keep their event and leave the handler alone. *)
Definition idle_fd_cb (c f : Z) (e : fd_event) (a : Z) (s : EventState VirtualEventTimer) (w : unit)
    : Z * EventState VirtualEventTimer * unit := (EVENT_KEEP, s, w).

#[export] Instance idle_fd_cb_ok : FdCallbacks idle_fd_cb.
Proof. by split. Qed.

(** The handler of the demonstration table. *)
Definition demo_fd_state : EventState VirtualEventTimer :=
  upd_fds (demo_state demo (TV 0 0)) demo_fds.

Lemma fd_event_correct_witness :
  exists s', evt_process_fd_event idle_fd_cb demo_fd_state tt 8 FdWrite false = (true, s', tt) /\
    fd_wf (fdt s') /\ fd_event_counter s' = 1.
Proof.
  assert (exists n c, entry (fdt demo_fd_state) 8 = Some n /\ get (cb n) FdWrite = Some c /\
    fd_breaks demo_fd_state n FdWrite = false) as (n & c & He & Hc & Hb).
  { eexists _, _. split; [vm_compute; reflexivity|]. split; vm_compute; reflexivity. }
  pose proof (fd_event_correct idle_fd_cb demo_fd_state tt 8 FdWrite n c demo_fds_wf ltac:(lia) He Hc) as H.
  destruct (evt_process_fd_event idle_fd_cb demo_fd_state tt 8 FdWrite false) as [[go s'] []].
  destruct H as (Hwf & Hgo & _ & H). rewrite Hb in Hgo. simpl in Hgo. subst go.
  destruct (H eq_refl) as (_ & Hcnt & _). exists s'. split; [reflexivity|]. split; [exact Hwf|].
  rewrite Hcnt, Hb. reflexivity.
Defined.

Lemma dispatch_complete_witness :
  let sets := Per (Some {[5]}) (Some {[8]}) None in
  exists l, dispatch_events idle_fd_cb (rotate_events FdWrite) (rotate_fds 3 9) sets 2 false demo_fd_state tt
      = process_pairs idle_fd_cb l false demo_fd_state tt /\
    (FdRead, 5) ∈ l /\ (FdWrite, 8) ∈ l.
Proof.
  intros sets.
  destruct (dispatch_complete idle_fd_cb FdWrite 3 9 sets 2 false demo_fd_state tt demo_fds_wf)
    as (l & H1 & _ & H2 & _); [lia|lia|vm_compute; reflexivity|].
  exists l. split; [exact H1|]. split; apply H2; (split; [lia|]); eexists; split; try reflexivity;
    by apply elem_of_singleton.
Defined.

Lemma auto_exit_correct_witness :
  auto_exits EVT_EXIT_SCHED demo_fd_state = false /\ auto_exits EVT_NEVER_EXIT demo_fd_state = false.
Proof.
  destruct (auto_exit_correct demo_fd_state EVT_EXIT_SCHED demo_wf demo_fds_wf ltac:(vm_compute; split; congruence))
    as [H1 [H2 _]].
  split; [|exact H1]. destruct (auto_exits EVT_EXIT_SCHED demo_fd_state) eqn:E; [|reflexivity].
  destruct (H2 eq_refl) as [H3 _].
  exact (H3 eq_refl 2%positive (demo_evt 2%positive) eq_refl).
Defined.
