(* ===== verification/LoopRun.v ===== *)
(** * A run of the event loop from start to end (events.c)

    The loop of EventLoop.v on the virtual clock of eventTimer.c, as a process
    under test runs it: nobody talks to the debugger, select reports nothing,
    and the scheduled callbacks run once.  The loop then is a discrete event
    simulation: it calls the events in the order of their times and returns when
    no critical one is left. *)

From stdpp Require Import base gmap list numbers sorting.
From Stdlib Require Import ZArith Lia.
From S2P Require Import Prelude PriorityQueue EventTimer Sched FdEvents EventLoop.
Open Scope Z_scope.

(** ** Events that leave the queue in order *)

(** The event [x] is due no later than [y]. *)
Definition due_before (m : sched_mem) (x y : ptr) : Prop := tv_le (get_pri m x) (get_pri m y).

Section Drain.
Context {W : Type} (act : Z -> Z -> W -> W).

(** The effect of the callback of event [p] on the world. *)
Definition run_event (m : sched_mem) (w : W) (p : ptr) : W :=
  match m !! p with Some e => act (callback e) (arg e) w | None => w end.

(** The schedule [c'] is [c] less the events of [l], which ran in this order
    and were due in this order, before all that is left. *)
Record drained (c : sched) (w : W) (l : list ptr) (c' : sched) (w' : W) : Prop := {
  drained_queue : contents (queue c) ≡ₚ l ++ contents (queue c');
  drained_sorted : StronglySorted (due_before (heap c)) l;
  drained_first : forall x y, x ∈ l -> y ∈ contents (queue c') -> due_before (heap c) x y;
  drained_world : w' = foldl (run_event (heap c)) w l;
  drained_freed : forall x, x ∈ l -> heap c' !! x = None;
  drained_kept : forall x, x ∉ l -> (fun e => with_pos e None) <$> heap c' !! x
                                   = (fun e => with_pos e None) <$> heap c !! x
}.

Lemma kept_pri (m m' : sched_mem) x :
  (fun e => with_pos e None) <$> m' !! x = (fun e => with_pos e None) <$> m !! x ->
  get_pri m' x = get_pri m x /\ forall w : W, run_event m' w x = run_event m w x.
Proof.
  unfold get_pri, run_event. destruct (m' !! x) as [e'|], (m !! x) as [e|]; simpl; try done.
  intros [= H1 H2 H3 H4 H5 H6 H7]. split; [done|]. intros w. by rewrite H3, H4.
Qed.

Lemma drained_nil c w : drained c w [] c w.
Proof. split; try done; [constructor|..]; intros; by apply elem_of_nil in H. Qed.

Lemma foldl_run_ext m m' l w :
  (forall x, x ∈ l -> forall w : W, run_event m' w x = run_event m w x) ->
  foldl (run_event m') w l = foldl (run_event m) w l.
Proof.
  revert w. induction l as [|x l IH]; intros w H; simpl; [done|].
  rewrite H by (apply elem_of_cons; by left). apply IH. intros y Hy. apply H, elem_of_cons. by right.
Qed.

Lemma StronglySorted_ext {A} (R R' : A -> A -> Prop) l :
  (forall x y, x ∈ l -> y ∈ l -> R x y -> R' x y) -> StronglySorted R l -> StronglySorted R' l.
Proof.
  intros H Hs. induction Hs as [|x l Hs IH Hf]; constructor.
  - apply IH. intros a b Ha Hb. apply H; apply elem_of_cons; by right.
  - apply list.Forall_forall. intros y Hy. apply H; [apply elem_of_cons; by left|apply elem_of_cons; by right|].
    by apply (proj1 (list.Forall_forall _ _) Hf).
Qed.

Lemma drained_trans c w l c' w' l' c'' w'' :
  NoDup (contents (queue c)) ->
  drained c w l c' w' -> drained c' w' l' c'' w'' -> drained c w (l ++ l') c'' w''.
Proof.
  intros Hnd [Q S F Wd Fr K] [Q' S' F' Wd' Fr' K'].
  assert (Hdj : forall x, x ∈ l' ++ contents (queue c'') -> x ∉ l).
  { intros x Hx Hl. rewrite Q in Hnd. apply NoDup_app in Hnd as (_ & Hd & _). apply (Hd x Hl). by rewrite Q'. }
  assert (Hsub : forall x, x ∈ l' ++ contents (queue c'') -> x ∈ contents (queue c')) by (intros x; by rewrite Q').
  assert (Hp : forall x, x ∈ l' ++ contents (queue c'') -> get_pri (heap c') x = get_pri (heap c) x)
    by (intros x Hx; by apply (kept_pri (heap c) (heap c') x), K, Hdj).
  assert (Hl' : forall x, x ∈ l' -> x ∈ l' ++ contents (queue c'')) by (intros; apply elem_of_app; by left).
  assert (Hq' : forall x, x ∈ contents (queue c'') -> x ∈ l' ++ contents (queue c''))
    by (intros; apply elem_of_app; by right).
  split.
  - by rewrite Q, Q', (assoc_L (++)).
  - apply StronglySorted_app. split_and!; try done.
    + intros x y Hx Hy. apply F; auto.
    + apply (StronglySorted_ext (due_before (heap c'))); [|done].
      intros x y Hx Hy. unfold due_before. by rewrite !Hp by auto.
  - intros x y [Hx|Hx]%elem_of_app Hy; [by apply F; auto|].
    specialize (F' x y Hx Hy). unfold due_before in *. by rewrite <- !Hp by auto.
  - rewrite foldl_app, Wd', Wd. apply foldl_run_ext. intros x Hx. apply kept_pri, K, Hdj. auto.
  - intros x [Hx|Hx]%elem_of_app; [|auto].
    assert (x ∉ l') by (intros Hx'; by apply (Hdj x); auto). pose proof (K' x H) as E.
    rewrite (Fr x Hx) in E. by destruct (heap c'' !! x).
  - intros x Hx. rewrite elem_of_app in Hx. rewrite K', K by tauto. done.
Qed.
End Drain.

(** ** The loop nobody interferes with *)

Definition virtual_ops {W} : EventTimerOps VirtualEventTimer (W * fd_sets) :=
  ETOps ET_virt_block et_virt_get_time et_virt_get_time
    (Some et_virt_inc_time) (Some et_virt_set_time) (Some et_virt_get_time)
    (Some et_virt_set_pause) (Some et_virt_get_pause).

(** A handler without a debugger, whose clock runs, and whose critical events
    all wait in the main queue. *)
Record unattended (s : EventState VirtualEventTimer) : Prop := {
  un_wf : sched_wf (sch s);
  un_dbgq : ps_pqueue_peek (Some (dbg_queue (sch s))) = None;
  un_next : next_timed_event (sch s) = None;
  un_next_fd : next_fd_event s = None;
  un_reply : dbg_reply_evt s = None;
  un_deferred : deferred s = [];
  un_break : break_on_next s = false;
  un_debug : debuggerState s = EDBG_DISABLED;
  un_clock : vet_paused (evt_timer s) = VIRT_CLK_ACTIVE;
  un_points : forall p e, heap (sch s) !! p = Some e -> breakpoint e = false;
  un_crit : forall p e, heap (sch s) !! p = Some e -> critical e = true -> p ∈ contents (queue (sch s))
}.

Section Run.
Context {W : Type} (act : Z -> Z -> W -> W) (can_grow : W -> bool).
Abbreviation ES' := (EventState VirtualEventTimer).

(** Callbacks that run once and act on the world. *)
Definition once (f a : Z) (s : ES') (w : W) : Z * ES' * W := (EVENT_REMOVE, s, act f a w).

Lemma queue_length c p c' :
  contents (queue c) ≡ₚ p :: contents (queue c') ->
  length (contents (queue c)) = S (length (contents (queue c'))).
Proof. by intros ->. Qed.

Lemma pop_event_frame c p c' :
  pop_event c = Some (p, c') ->
  erase (heap c') = erase (heap c) /\ next_timed_event c' = next_timed_event c.
Proof.
  unfold pop_event. destruct (ps_pqueue_pop _ _ _) as [[[p0|] m] [q|]] eqn:E; try done. intros [= -> <-].
  pose proof (pop_frame cmp_pri (fun m m' : sched_mem => erase m' = erase m) _ _ _ _ _ E) as Her.
  split; [|done]. simpl in *. rewrite <- Her. apply map_eq. intros x. rewrite !lookup_erase, lookup_alter.
  case_decide; [subst; by destruct (m !! x)|done].
Qed.

Lemma once_processed ok s w p c e t :
  unattended s -> sched_wf c -> sched_popped c p -> heap c !! p = Some e -> breakpoint e = false ->
  sched_wf (freed c p e) /\ 
  evt_process_timed_event once ok (upd_sched s c) w p t false
    = (true, upd_sched (called_state (upd_sched s c) p e) (freed c p e), act (callback e) (arg e) w).
Proof.
  intros Hu Hwf Hpop He Hb.
  split; [by apply freed_wf|].
  rewrite (process_timed_unfold once ok (upd_sched s c) w p e t false He).
  unfold stops, count_step. cbn [upd_sched break_on_next]. rewrite (un_break _ Hu), Hb. cbn [negb andb orb].
  unfold once. set (s1 := called_state (upd_sched s c) p e).
  assert (He1 : heap (sch s1) !! p = Some (with_inCallback (with_count e (count e + 1)) 1))
    by apply lookup_insert_eq.
  rewrite He1. change (EVENT_REMOVE =? EVENT_KEEP) with false.
  by rewrite <- (free_called c p e (with_inCallback (with_count e (count e + 1)) 1)) by (done || apply Hpop).
Qed.

(** One event that ran and was freed. *)
Lemma once_step ok s w p c t :
  unattended s -> pop_event (sch s) = Some (p, c) ->
  exists s', evt_process_timed_event once ok (upd_sched s c) w p t false
      = (true, s', run_event act (heap (sch s)) w p) /\
    drained act (sch s) w [p] (sch s') (run_event act (heap (sch s)) w p) /\
    unattended s' /\ evt_timer s' = evt_timer s /\ keepGoing s' = keepGoing s /\
    queue (sch s') = queue c.
Proof.
  intros Hu Hpop. pose proof Hu as [U1 U2 U3 U4 U5 U6 U7 U8 U9 U10 U11].
  destruct (pop_event_wf (sch s) p c U1 Hpop)
    as (Hwfc & Hpk & Hperm & Hdq & (e & He & Hpc & Hcb) & Hnq & Hnull & Hnt & Hoth & Hcc).
  destruct (pop_event_frame _ _ _ Hpop) as [Her Hnx].
  assert (Hpopd : sched_popped c p) by (split; [rewrite Hpc; eauto|done]).
  destruct (once_processed ok s w p c (with_pos e None) t) as [Hwf6 Hproc]; try done; [exact (U10 _ _ He)|].
  assert (Hrun : run_event act (heap (sch s)) w p = act (callback e) (arg e) w)
    by (unfold run_event; by rewrite He).
  assert (Hkept : forall x, x <> p -> (fun e => with_pos e None) <$> delete p (heap c) !! x
                                      = (fun e => with_pos e None) <$> heap (sch s) !! x).
  { intros x Hx. rewrite lookup_delete_ne by done. by rewrite <- !lookup_erase, Her. }
  assert (Hback : forall x ex, delete p (heap c) !! x = Some ex -> x <> p /\ exists n, heap (sch s) !! x = Some (with_pos ex n)).
  { intros x ex Hx. apply lookup_delete_Some in Hx as [Hne Hx]. split; [done|].
    destruct (erase_Some _ _ _ _ (eq_sym Her) Hx) as [n Hn]. eauto. }
  eexists. split; [rewrite Hrun; exact Hproc|]. rewrite Hrun.
  assert (Hmin : forall y, y ∈ contents (queue (sch s)) -> due_before (heap (sch s)) p y)
    by (apply (peek_min _ _ _ (wf_heap _ _ (wf_queue _ U1 Main)) Hpk)).
  split_and!; try done.
  - split; cbn [upd_sched sch freed with_crit with_heap queue heap]; try done.
    + repeat constructor.
    + intros x y ->%list_elem_of_singleton Hy. apply Hmin. rewrite Hperm. apply elem_of_cons. by right.
    + intros x ->%list_elem_of_singleton. apply lookup_delete_eq.
    + intros x Hx. apply Hkept. intros ->. by apply Hx, list_elem_of_singleton.
  - split; cbn [upd_sched sch freed with_crit with_heap queue heap dbg_queue next_timed_event]; try done.
    + by rewrite Hdq.
    + by rewrite Hnx.
    + intros x ex Hx. destruct (Hback x ex Hx) as [_ [n Hn]]. exact (U10 _ _ Hn).
    + intros x ex Hx Hc. destruct (Hback x ex Hx) as [Hne [n Hn]].
      pose proof (U11 _ _ Hn Hc) as Hq. rewrite Hperm in Hq. by apply elem_of_cons in Hq as [->|Hq].
Qed.

Lemma empty_queue c : ps_pqueue_peek (Some (queue c)) = None -> contents (queue c) = [].
Proof.
  unfold ps_pqueue_peek. destruct (Nat.eqb_spec (size (queue c)) 1) as [E|]; [|done].
  intros _. unfold contents. by rewrite E.
Qed.

(** The pass over the due events: all of them, in order, and nothing else. *)
Lemma once_pass fuel s w real :
  unattended s -> (length (contents (queue (sch s))) <= fuel)%nat ->
  exists l real' s' w', timed_pass virtual_ops can_grow once fuel s w real = Some (true, real', s', w') /\
    drained act (sch s) w l (sch s') w' /\ unattended s' /\
    evt_timer s' = evt_timer s /\ keepGoing s' = keepGoing s /\
    (forall y, y ∈ contents (queue (sch s')) -> ~ tv_le (get_pri (heap (sch s')) y) (vet_time (evt_timer s))).
Proof.
  revert s w real. induction fuel as [|fuel IH]; intros s w real Hu Hlen; cbn [timed_pass].
  - assert (E : contents (queue (sch s)) = []) by (destruct (contents (queue (sch s))); [done|simpl in Hlen; lia]).
    destruct (ps_pqueue_peek (Some (queue (sch s)))) as [p|] eqn:Hpk.
    + destruct (peek_min _ _ _ (wf_heap _ _ (wf_queue _ (un_wf _ Hu) Main)) Hpk) as [Hin _].
      simpl in Hin. rewrite E in Hin. by apply elem_of_nil in Hin.
    + exists [], real, s, w. split_and!; try done; [apply drained_nil|].
      intros y Hy. rewrite E in Hy. by apply elem_of_nil in Hy.
  - destruct (ps_pqueue_peek (Some (queue (sch s)))) as [p|] eqn:Hpk.
    2:{ exists [], real, s, w. split_and!; try done; [apply drained_nil|].
        intros y Hy. rewrite (empty_queue _ Hpk) in Hy. by apply elem_of_nil in Hy. }
    change (EVT_get_monotonic_time virtual_ops s w) with (vet_time (evt_timer s)).
    destruct (peek_min _ _ _ (wf_heap _ _ (wf_queue _ (un_wf _ Hu) Main)) Hpk) as [Hin Hmin].
    destruct (timercmp Z.gtb _ _) eqn:Hdue.
    + exists [], real, s, w. split_and!; try done; [apply drained_nil|].
      intros y Hy Hle. assert (tv_le (get_pri (heap (sch s)) p) (vet_time (evt_timer s))) as Hle'
        by (eapply tv_le_trans; [by apply Hmin|done]).
      apply timercmp_gtb in Hle'. congruence.
    + destruct (peek_pop (sch s) p (un_wf _ Hu) Hpk) as [c Hc]. rewrite Hc.
      destruct (once_step (can_grow w) s w p c (vet_time (evt_timer s)) Hu Hc) as (s1 & E1 & D1 & U1 & T1 & K1 & Q1).
      rewrite E1. destruct (IH s1 (run_event act (heap (sch s)) w p) true U1)
        as (l & real' & s' & w' & E2 & D2 & U2 & T2 & K2 & L2).
      { pose proof (drained_queue _ _ _ _ _ _ D1) as Hq. apply Permutation_length in Hq. simpl in Hq. lia. }
      exists (p :: l), real', s', w'. rewrite T2, T1, K2, K1 in *. split_and!; try done.
      apply (drained_trans act (sch s) w [p] (sch s1) (run_event act (heap (sch s)) w p) l (sch s') w'); try done.
      apply (contents_NoDup _ _ (wf_queue _ (un_wf _ Hu) Main)).
Qed.

(** *** Turns of the loop *)

Context (mono : W -> timeval) (errno : W -> Z) (ebadf : W -> Z -> bool).
Context (select : Z -> fd_sets -> option timeval -> W -> Z * fd_sets * W).
Context (PT_run_all : ES' -> W -> ES' * W).
Context (cmds_pending : option (ES' -> W -> bool * ES' * W)).
Context (malloc : W -> option ptr) (edbg_response_timeout : Z).
Context (fd_cb : Z -> Z -> fd_event -> Z -> ES' -> W -> Z * ES' * W).

Abbreviation body := (loop_body virtual_ops mono select errno PT_run_all cmds_pending ebadf malloc
  edbg_response_timeout can_grow once fd_cb).
Abbreviation turns := (loop_turns virtual_ops mono select errno PT_run_all cmds_pending ebadf malloc
  edbg_response_timeout can_grow once fd_cb).

(** Nothing but the schedule: select reports a timeout, and no pseudo thread
    is there to run. *)
Class Idle := {
  idle_select : forall n sets t w, let '(r, _, w') := select n sets t w in r = 0 /\ w' = w;
  idle_threads : forall s w, PT_run_all s w = (s, w)
}.
Context `{!Idle}.

Lemma unattended_step s b : unattended s -> unattended (upd_step s b).
Proof. intros []. by split. Qed.

Lemma unattended_time s t : unattended s -> unattended (upd_timer s (et_virt_set_time (evt_timer s) t)).
Proof. intros []. by split. Qed.

Lemma unattended_counters s l t f : unattended s -> unattended (upd_counters s l t f).
Proof. intros []. by split. Qed.

Lemma idle_next fuel se sf s w :
  unattended s ->
  next_loop_iteration virtual_ops mono cmds_pending malloc edbg_response_timeout once fuel se sf s w
    = Again se sf (upd_counters s (loop_counter s + 1) (timed_event_counter s) (fd_event_counter s)) w.
Proof.
  intros Hu. unfold next_loop_iteration.
  assert (run_deferred once fuel s w = Some (s, w)) as ->
    by (destruct fuel; cbn [run_deferred]; by rewrite (un_deferred _ Hu)).
  unfold reply_wait. rewrite (un_debug _ Hu). by destruct cmds_pending.
Qed.

(** While the loop does not exit there is a critical event, so a next one. *)
Lemma awaits s :
  unattended s -> auto_exits EVT_EXIT_SCHED s = false ->
  exists p, ps_pqueue_peek (Some (queue (sch s))) = Some p.
Proof.
  intros Hu Ha. destruct (ps_pqueue_peek (Some (queue (sch s)))) as [p|] eqn:Hpk; [eauto|]. exfalso.
  pose proof (un_wf _ Hu) as (_ & _ & Hc & _).
  assert (H0 : crit_count (heap (sch s)) <= 0).
  { apply crit_zero. intros p e Hp. destruct (critical e) eqn:E; [|done].
    pose proof (un_crit _ Hu p e Hp E) as Hin. rewrite (empty_queue _ Hpk) in Hin. by apply elem_of_nil in Hin. }
  unfold auto_exits, remaining_work in Ha. rewrite Hc, (proj2 (Z.ltb_ge _ _) H0) in Ha.
  by destruct (0 <? critical_fd_count (fdt s)).
Qed.

(** One turn of the loop. *)
Lemma idle_turn fuel se sf s w :
  unattended s -> keepGoing s = true -> (length (contents (queue (sch s))) <= fuel)%nat ->
  if auto_exits EVT_EXIT_SCHED s
  then body fuel EVT_EXIT_SCHED se sf s w = Returns 0 (upd_loop (upd_step s false) false false) w
  else exists l s' w', body fuel EVT_EXIT_SCHED se sf s w = Again se sf s' w' /\
    drained act (sch s) w l (sch s') w' /\ unattended s' /\ keepGoing s' = true /\ l <> [].
Proof.
  intros Hu Hk Hlen. unfold loop_body. rewrite idle_threads, Hk. cbn [negb].
  assert (Hss : single_steps virtual_ops can_grow once fd_cb s w = (false, upd_step s false, w)).
  { unfold single_steps. rewrite (un_next _ Hu). cbn [fst snd]. by rewrite (un_next_fd _ Hu). }
  rewrite Hss. set (s2 := upd_step s false). assert (Hu2 : unattended s2) by (by apply unattended_step).
  rewrite (un_next _ Hu2), (un_next_fd _ Hu2), (un_reply _ Hu2). cbn [is_set orb].
  change (auto_exits EVT_EXIT_SCHED s2) with (auto_exits EVT_EXIT_SCHED s).
  destruct (auto_exits EVT_EXIT_SCHED s) eqn:Ha; [done|].
  destruct (awaits s Hu Ha) as [p Hp]. change (queue (sch s2)) with (queue (sch s)). rewrite Hp, (un_dbgq _ Hu2).
  set (na := get_pri (heap (sch s2)) p). cbn [fmap option_fmap option_map virtual_ops et_block].
  unfold ET_virt_block. change (et_virt_get_pause (evt_timer s2)) with (vet_paused (evt_timer s2)).
  rewrite (un_clock _ Hu2), Z.eqb_refl. unfold select_event_loop_cb.
  pose proof (idle_select (maxFd (fdt s2) + 1) (sets_for (fdt s2) false)
    (select_timeout (Some (TV 0 0)) None (mono w)) w) as Hsel.
  destruct (select _ _ _ w) as [[r sets'] w']. destruct Hsel as [-> ->].
  set (s3 := upd_timer s2 _). assert (Hu3 : unattended s3) by (by apply unattended_time).
  destruct (once_pass fuel s3 w false Hu3 Hlen) as (l & real & s4 & w4 & E & D & Hu4 & Ht & Hk4 & Hl).
  rewrite E. assert (Hd : dbg_pass mono can_grow once fuel s4 w4 = Some (s4, w4))
    by (destruct fuel; cbn [dbg_pass]; by rewrite (un_dbgq _ Hu4)).
  rewrite Hd. change (0 <? 0) with false. change (0 =? -1) with false. cbn [andb].
  rewrite (idle_next fuel se sf s4 w4 Hu4). eexists l, _, w4. split; [reflexivity|].
  split_and!; try done; [by apply unattended_counters|by cbn [upd_counters keepGoing]; rewrite Hk4|].
  intros ->. destruct (peek_min _ _ _ (wf_heap _ _ (wf_queue _ (un_wf _ Hu) Main)) Hp) as [Hin _].
  pose proof (drained_queue _ _ _ _ _ _ D) as Hq. simpl in Hin, Hq. rewrite Hq in Hin.
  apply (Hl p Hin). destruct (kept_pri act _ _ p (drained_kept _ _ _ _ _ _ D p ltac:(apply not_elem_of_nil)))
    as [-> _]. apply tv_le_refl.
Qed.

Lemma idle_loop n fuel se sf s w :
  unattended s -> keepGoing s = true ->
  (length (contents (queue (sch s))) <= fuel)%nat -> (length (contents (queue (sch s))) < n)%nat ->
  exists l s' w', turns n fuel EVT_EXIT_SCHED se sf s w = Returns 0 s' w' /\
    drained act (sch s) w l (sch s') w' /\ sched_wf (sch s') /\
    auto_exits EVT_EXIT_SCHED s' = true /\ in_loop s' = false.
Proof.
  revert se sf s w. induction n as [|n IH]; intros se sf s w Hu Hk Hf Hn; [lia|].
  cbn [loop_turns]. rewrite Hk. cbn [negb]. pose proof (idle_turn fuel se sf s w Hu Hk Hf) as Ht.
  destruct (auto_exits EVT_EXIT_SCHED s) eqn:Ha.
  - rewrite Ht. eexists [], _, w. split; [reflexivity|]. split_and!; try done; [apply drained_nil|apply (un_wf _ Hu)].
  - destruct Ht as (l & s1 & w1 & -> & D1 & U1 & K1 & Hne).
    pose proof (drained_queue _ _ _ _ _ _ D1) as Hq. apply Permutation_length in Hq. rewrite length_app in Hq.
    assert (0 < length l)%nat by (destruct l; [done|simpl; lia]).
    destruct (IH se sf s1 w1 U1 K1) as (l' & s' & w' & E & D2 & R); [lia|lia|].
    exists (l ++ l'), s', w'. split_and!; try done; try apply R.
    apply (drained_trans act (sch s) w l (sch s1) w1 l' (sch s') w'); try done.
    apply (contents_NoDup _ _ (wf_queue _ (un_wf _ Hu) Main)).
Qed.

(** C29. A run of the loop to its end.  On the virtual clock, with callbacks
    that run once, nothing ready and no debugger, the loop that is asked to
    exit when no scheduled work is left returns 0 after at most one turn more
    than there are events: it called the callbacks of the events [l], each once
    and in the order of their times, all of them due before the events that are
    still queued, among which none is critical. *)
Theorem loop_runs_to_completion n fuel s w :
  unattended (upd_loop s true true) -> initialDebuggerState s <> EDBG_STOPPED ->
  (length (contents (queue (sch s))) <= fuel)%nat -> (length (contents (queue (sch s))) < n)%nat ->
  exists l s' w',
    EVT_start_loop_auto_exit virtual_ops mono select errno PT_run_all cmds_pending ebadf malloc
      edbg_response_timeout can_grow once fd_cb n fuel EVT_EXIT_SCHED s w = Returns 0 s' w' /\
    contents (queue (sch s)) ≡ₚ l ++ contents (queue (sch s')) /\
    w' = foldl (run_event act (heap (sch s))) w l /\
    StronglySorted (due_before (heap (sch s))) l /\
    (forall x y, x ∈ l -> y ∈ contents (queue (sch s')) -> due_before (heap (sch s)) x y) /\
    (forall x, x ∈ l -> heap (sch s') !! x = None) /\
    (forall p e, heap (sch s') !! p = Some e -> critical e = false) /\
    sched_wf (sch s') /\ in_loop s' = false.
Proof.
  intros Hu Hi Hf Hn. unfold EVT_start_loop_auto_exit. rewrite bool_decide_false by done.
  destruct (idle_loop n fuel FdRead 0 (upd_dbg (upd_loop s true true) (debuggerState s) false (steps_to_break s)) w)
    as (l & s' & w' & E & [Q S F Wd Fr K] & Hwf & Ha & Hil); try done.
  { destruct Hu. by split. }
  exists l, s', w'. split_and!; try done.
  assert (H0 : crit_count (heap (sch s')) <= 0).
  { destruct Hwf as (_ & _ & <- & _). unfold auto_exits, remaining_work in Ha.
    destruct (Z.ltb_spec 0 (critical_sched_count (sch s'))); [|done].
    by destruct (0 <? critical_fd_count (fdt s')). }
  by apply crit_zero.
Qed.
End Run.

(** ** Witness *)

(** The world is the list of callbacks called so far, with their arguments. *)
Definition log_act (f a : Z) (w : list (Z * Z)) : list (Z * Z) := w ++ [(f, a)].

Definition quiet_select (n : Z) (sets : fd_sets) (t : option timeval) (w : list (Z * Z))
    : Z * fd_sets * list (Z * Z) := (0, sets, w).

#[export] Instance quiet_idle : Idle quiet_select (fun (s : EventState VirtualEventTimer) w => (s, w)).
Proof. by split. Qed.

Lemma demo_unattended : unattended (upd_loop (demo_state demo (TV 0 0)) true true).
Proof.
  split; try reflexivity; [apply demo_wf|..].
  - apply (bool_decide_unpack (map_Forall (fun _ e => breakpoint e = false) (heap demo))).
    vm_compute. reflexivity.
  - apply (bool_decide_unpack (map_Forall
      (fun p e => critical e = true -> p ∈ contents (queue demo)) (heap demo))).
    vm_compute. reflexivity.
Qed.

Lemma loop_runs_to_completion_witness :
  exists l s' w',
    EVT_start_loop_auto_exit virtual_ops (fun _ => TV 0 0) quiet_select (fun _ => 0) (fun s w => (s, w)) None
      (fun _ _ => false) (fun _ => None) 0 (fun _ => true) (once log_act) (fun _ _ _ _ s w => (EVENT_KEEP, s, w))
      5 3 EVT_EXIT_SCHED (demo_state demo (TV 0 0)) [] = Returns 0 s' w' /\
    w' = foldl (run_event log_act (heap demo)) [] l /\ StronglySorted (due_before (heap demo)) l.
Proof.
  destruct (loop_runs_to_completion log_act (fun _ => true) (fun _ => TV 0 0) (fun _ => 0) (fun _ _ => false) quiet_select
    (fun s w => (s, w)) None (fun _ => None) 0 (fun _ _ _ _ s w => (EVENT_KEEP, s, w)) 5 3
    (demo_state demo (TV 0 0)) []) as (l & s' & w' & H1 & H2 & H3 & H4 & _).
  - apply demo_unattended.
  - discriminate.
  - apply (bool_decide_unpack _). vm_compute. reflexivity.
  - apply (bool_decide_unpack _). vm_compute. reflexivity.
  - exists l, s', w'. split; [exact H1|]. split; [exact H3|exact H4].
Defined.
