(* ===== verification/Timers.v ===== *)
(** * One-shot timers (events.h, as cmd.c and pseudo_threads.c use them)

    Two components ask the event loop to call them back once after some
    milliseconds.  [TimerOps] and [Timers] are what they rely on; the second
    part shows that the schedule of Sched.v, run by the loop of EventLoop.v,
    keeps these promises. *)

From stdpp Require Import base gmap list numbers sorting.
From Stdlib Require Import ZArith Lia.
From S2P Require Import Prelude Words PriorityQueue Sched EventTimer FdEvents EventLoop.
Open Scope Z_scope.

(** ** The interface to timed events

    [timer_add] schedules the timeout callback for an argument after some
    milliseconds, [timer_remove] is [EVT_sched_remove]; the event loop takes a
    due event from its queue ([timer_begin]), calls its callback and frees it
    ([timer_end]). *)

Class TimerOps (T : Type) := {
  timer_add : T -> Z -> Z -> option ptr * T;
  timer_remove : T -> ptr -> T;
  timer_begin : T -> option (ptr * Z * T);
  timer_end : T -> ptr -> T
}.

(** What the timers promise.  [armed t] maps the events whose callback is the
    timeout to their arguments; [timer_ok r t] is the invariant while the
    callback of the event [r] runs.  Removal has the side condition
    [removable], which the schedule needs. *)
Class Timers (T : Type) `{!TimerOps T} := {
  timer_ok : option ptr -> T -> Prop;
  armed : T -> gmap ptr Z;
  removable : T -> ptr -> Prop;
  timer_add_ok : forall r t ms a, timer_ok r t ->
    let '(o, t') := timer_add t ms a in
    timer_ok r t' /\
    match o with
    | None => armed t' = armed t
    | Some p => armed t !! p = None /\ armed t' = <[p:=a]> (armed t)
    end;
  timer_remove_ok : forall r t p, timer_ok r t -> is_Some (armed t !! p) -> removable t p ->
    timer_ok r (timer_remove t p) /\ armed (timer_remove t p) = delete p (armed t);
  timer_begin_ok : forall t p a t', timer_ok None t -> timer_begin t = Some (p, a, t') ->
    timer_ok (Some p) t' /\ armed t !! p = Some a /\ armed t' = delete p (armed t);
  timer_end_ok : forall p t, timer_ok (Some p) t ->
    timer_ok None (timer_end t p) /\ armed (timer_end t p) = armed t
}.

(** What malloc promises: blocks that are not in use. *)
Class Malloc (malloc : gset ptr -> option ptr) := {
  malloc_some : forall X, exists a, malloc X = Some a /\ a ∉ X
}.

(** ** The schedule as timers

    The clock and the schedule of a handler.  [evt_malloc] is malloc on the
    blocks in use, [realloc_ok] whether the queue can grow; an event is taken
    and freed as [evt_process_timed_event] does. *)

(** The address of the client's callback ([response_timeout_cb] or
    [timed_evt_cb]). *)
Definition TIMER_CB : Z := 1.

Record clocked := Clk { now : timeval; sc : sched }.

Definition running_evt (e : ScheduleCB) : ScheduleCB := with_inCallback (with_count e (count e + 1)) 1.

#[export] Instance sched_timer_ops (evt_malloc : gset ptr -> option ptr) (realloc_ok : bool) : TimerOps clocked := {
  timer_add t ms a :=
    let '(o, c) := EVT_sched_add (sc t) (now t) (EVT_ms2tv ms) TIMER_CB a
                     (evt_malloc (dom (heap (sc t)))) realloc_ok in
    (o, Clk (now t) c);
  timer_remove t p := Clk (now t) (EVT_sched_remove (sc t) (Some p)).2;
  timer_begin t :=
    match ps_pqueue_peek (Some (queue (sc t))), pop_event (sc t) with
    | Some p, Some (p', c) =>
        match heap c !! p' with
        | Some e =>
            if timercmp Z.gtb (get_pri (heap (sc t)) p) (now t) || negb (callback e =? TIMER_CB)
            then None
            else Some (p', arg e, Clk (now t) (with_heap c (<[p' := running_evt e]> (heap c))))
        | None => None
        end
    | _, _ => None
    end;
  timer_end t p :=
    match heap (sc t) !! p with
    | None => t
    | Some e => Clk (now t) (free_evt (if critical e then with_crit (sc t) (critical_sched_count (sc t) - 1)
                                       else sc t) p)
    end
}.

(** The queued timeouts. *)
Definition sched_armed (c : sched) : gmap ptr Z :=
  map_imap (fun p e => if decide (p ∈ contents (queue c) /\ callback e = TIMER_CB)
                       then Some (arg e) else None) (heap c).

Definition sched_ok (r : option ptr) (c : sched) : Prop :=
  sched_wf c /\ forall p, r = Some p -> sched_held c p.

Lemma armed_in c p e :
  heap c !! p = Some e -> p ∈ contents (queue c) ->
  sched_armed c !! p = if decide (callback e = TIMER_CB) then Some (arg e) else None.
Proof.
  intros He Hin. unfold sched_armed. rewrite map_lookup_imap, He. simpl.
  repeat case_decide; naive_solver.
Qed.

Lemma armed_out c p : p ∉ contents (queue c) -> sched_armed c !! p = None.
Proof.
  intros Hin. unfold sched_armed. rewrite map_lookup_imap. destruct (heap c !! p); [|done].
  simpl. by rewrite decide_False by tauto.
Qed.

Lemma armed_some c p a : sched_armed c !! p = Some a ->
  exists e, heap c !! p = Some e /\ p ∈ contents (queue c) /\ callback e = TIMER_CB /\ arg e = a.
Proof.
  unfold sched_armed. rewrite map_lookup_imap. destruct (heap c !! p) as [e|]; [|done]. simpl.
  case_decide as Hd; [|done]. intros [= <-]. destruct Hd. by exists e.
Qed.

(** Events that stay in the queue stay armed. *)
Lemma armed_other c c' x :
  sched_wf c -> (x ∈ contents (queue c') <-> x ∈ contents (queue c)) ->
  (forall e, x ∈ contents (queue c) -> heap c !! x = Some e -> exists n, heap c' !! x = Some (with_pos e n)) ->
  sched_armed c' !! x = sched_armed c !! x.
Proof.
  intros Hwf Hin Hh. destruct (decide (x ∈ contents (queue c))) as [Hx|Hx].
  - destruct (wf_event c Hwf Main x Hx) as (e & He & _). destruct (Hh e Hx He) as [n Hn].
    rewrite (armed_in c' x _ Hn) by (by apply Hin). by rewrite (armed_in c x e He).
  - rewrite !armed_out; tauto.
Qed.

Lemma add_frame c t time cb a p ok :
  let r := EVT_sched_add c t time cb a p ok in
  null_evt r.2 = null_evt c /\ next_timed_event r.2 = next_timed_event c.
Proof.
  unfold EVT_sched_add, queue_insert. destruct p as [p|]; [|done].
  destruct (ps_pqueue_insert _ _ _ _ _) as [[r m] [q|]]; by destruct (0 =? r).
Qed.

Lemma sched_add_timer c t ms a p ok r :
  sched_ok r c -> heap c !! p = None ->
  let '(o, c') := EVT_sched_add c t (EVT_ms2tv ms) TIMER_CB a (Some p) ok in
  sched_ok r c' /\
  match o with
  | None => sched_armed c' = sched_armed c
  | Some q => sched_armed c !! q = None /\ sched_armed c' = <[q:=a]> (sched_armed c)
  end.
Proof.
  intros [Hwf Hr] Hp.
  pose proof (add_frame c t (EVT_ms2tv ms) TIMER_CB a (Some p) ok) as [F1 F2].
  rewrite sched_add_step in *.
  destruct (add_body c t (EVT_ms2tv ms) (EVT_ms2tv ms) TIMER_CB a p ok Hwf Hp)
    as [[E1 E2]|(E1 & E2 & E3 & E4 & E5 & E6)];
  destruct (EVT_sched_add_with_timestep _ _ _ _ _ _ _ _) as [o c']; simpl in *; subst; [done|].
  assert (Hother : forall x e, x <> p -> heap c !! x = Some e -> exists n, heap c' !! x = Some (with_pos e n)).
  { intros x e Hne Hx. apply (erase_Some _ _ x e E6). by rewrite lookup_insert_ne. }
  assert (Hpc : p ∉ contents (queue c)).
  { intros Hin. destruct (wf_event c Hwf Main p Hin) as (e & He & _). congruence. }
  split_and!; [split; [done|]| |].
  - intros x ->. destruct (Hr x eq_refl) as ((e & He & Hcb) & Hq & Hnull & Hnt).
    assert (Hxp : x <> p) by congruence. destruct (Hother x e Hxp He) as [n Hn].
    split_and!; [by exists (with_pos e n)| |congruence..]. intros []; simpl.
    + rewrite E3, elem_of_cons. intros [->|Hx]; [done|by apply (Hq Main)].
    + rewrite E4. apply (Hq Dbg).
  - by apply armed_out.
  - apply map_eq. intros x. destruct (decide (x = p)) as [->|Hne].
    + destruct (erase_Some _ _ p _ E6 (lookup_insert_eq _ _ _)) as [n Hn].
      rewrite (armed_in c' p _ Hn) by (rewrite E3; by left). by rewrite lookup_insert_eq.
    + rewrite lookup_insert_ne by done. apply armed_other; [done| |by intros; apply Hother].
      rewrite E3, elem_of_cons. naive_solver.
Qed.

Lemma sched_remove_timer c p r :
  sched_ok r c -> is_Some (sched_armed c !! p) -> remove_safe cmp_pri (heap c) (queue c) p ->
  let c' := (EVT_sched_remove c (Some p)).2 in
  sched_ok r c' /\ sched_armed c' = delete p (sched_armed c).
Proof.
  intros [Hwf Hr] [a Ha] Hsafe. apply armed_some in Ha as (e & He & Hin & Hcb & <-).
  destruct (wf_event c Hwf Main p Hin) as (e' & He' & Hq & Hic & _). rewrite He in He'. injection He' as <-.
  assert (Hnull : p <> null_evt c) by (intros ->; by apply (proj1 (proj2 (proj2 (proj2 (proj2 Hwf)))) Main)).
  destruct (remove_queued c p e Hwf He Hnull Hic) as (_ & R & R6 & R7 & R8); [by rewrite Hq..|].
  destruct R as (R1 & R2 & _ & R3 & R4 & R5 & _). rewrite Hq in *. simpl in R3, R4.
  cbv zeta. set (c' := (EVT_sched_remove c (Some p)).2) in *. split; [split; [done|]|].
  - intros x ->. destruct (Hr x eq_refl) as ((ex & Hx & Hcx) & Hqx & Hnx & Hnt).
    assert (Hne : x <> p) by (intros ->; by apply (Hqx Main)).
    destruct (R5 x ex Hne Hx) as [n Hn]. split_and!; [by exists (with_pos ex n)| |congruence|].
    + intros [].
      * intros C. apply (Hqx Main). apply R3. by right.
      * rewrite (R6 Dbg) by done. apply (Hqx Dbg).
    + rewrite R8. case_decide; congruence.
  - apply map_eq. intros x. destruct (decide (x = p)) as [->|Hne].
    + rewrite lookup_delete_eq. by apply armed_out.
    + rewrite lookup_delete_ne by done. apply armed_other; [done| |by intros; apply R5].
      rewrite (R3 x). naive_solver.
Qed.

Lemma sched_begin_timer c p c1 e :
  sched_ok None c -> pop_event c = Some (p, c1) -> heap c1 !! p = Some e -> callback e = TIMER_CB ->
  let c' := with_heap c1 (<[p := running_evt e]> (heap c1)) in
  sched_ok (Some p) c' /\ sched_armed c !! p = Some (arg e) /\ sched_armed c' = delete p (sched_armed c).
Proof.
  intros [Hwf _] Hpop He Hcb.
  destruct (pop_event_wf c p c1 Hwf Hpop)
    as (W1 & _ & W3 & _ & (e0 & He0 & He1 & _) & W5 & W6 & W7 & W8 & _).
  rewrite He in He1. injection He1 as ->.
  assert (Hin : p ∈ contents (queue c)) by (rewrite W3; by left).
  cbv zeta. split_and!.
  - split; [by apply (unqueued_update_wf c1 p (with_pos e0 None))|].
    intros ? [= <-]. split_and!; try done. eexists. simpl. by rewrite lookup_insert_eq.
  - rewrite (armed_in c p e0 He0 Hin). by rewrite decide_True.
  - apply map_eq. intros x. destruct (decide (x = p)) as [->|Hne].
    + rewrite lookup_delete_eq. apply armed_out. apply (W5 Main).
    + rewrite lookup_delete_ne by done. apply armed_other; [done| |].
      * simpl. rewrite W3, elem_of_cons. naive_solver.
      * intros ex _ Hx. simpl. rewrite lookup_insert_ne by done. by apply W8.
Qed.

Lemma sched_end_timer c p e :
  sched_ok (Some p) c -> heap c !! p = Some e ->
  let c' := free_evt (if critical e then with_crit c (critical_sched_count c - 1) else c) p in
  sched_ok None c' /\ sched_armed c' = sched_armed c.
Proof.
  intros [Hwf Hr] He. destruct (Hr p eq_refl) as (_ & Hq & Hnull & Hnt).
  destruct (free_popped_wf c p e Hwf) as [F1 _]; [split_and!; try done; by eexists|done|].
  cbv zeta. split; [by split|]. rewrite free_delete by (by destruct (critical e)).
  apply map_eq. intros x. apply armed_other; [done|by destruct (critical e)|].
  intros ex Hx Hex. exists (pos ex). assert (Hne : p <> x) by (intros ->; by apply (Hq Main)).
  destruct (critical e); simpl; rewrite lookup_delete_ne, Hex by done; by destruct ex.
Qed.

#[export] Instance sched_timers (evt_malloc : gset ptr -> option ptr) (realloc_ok : bool)
    (Hm : forall X p, evt_malloc X = Some p -> p ∉ X) : @Timers clocked (sched_timer_ops evt_malloc realloc_ok).
Proof.
  refine {| timer_ok r t := sched_ok r (sc t); armed t := sched_armed (sc t);
            removable t p := remove_safe cmp_pri (heap (sc t)) (queue (sc t)) p |}.
  - intros r t ms a Hok. simpl. destruct (evt_malloc (dom (heap (sc t)))) as [p|] eqn:Ep; [|done].
    apply Hm, not_elem_of_dom in Ep.
    pose proof (sched_add_timer (sc t) (now t) ms a p realloc_ok r Hok Ep) as H.
    by destruct (EVT_sched_add _ _ _ _ _ _ _) as [o c'].
  - intros r t p Hok Ha Hs. by apply sched_remove_timer.
  - intros t p a t' Hok. cbn [timer_begin sched_timer_ops].
    destruct (ps_pqueue_peek _) as [p0|]; [|done]. destruct (pop_event (sc t)) as [[p1 c1]|] eqn:Epop; [|done].
    destruct (heap c1 !! p1) as [e|] eqn:He; [|done].
    destruct (timercmp _ _ _); [done|]. destruct (Z.eqb_spec (callback e) TIMER_CB); [|done].
    intros [= -> <- <-]. by apply (sched_begin_timer (sc t) p c1 e).
  - intros p t Hok. simpl. destruct (heap (sc t) !! p) as [e|] eqn:He.
    + by apply sched_end_timer.
    + destruct (proj2 Hok p eq_refl) as ((e & He' & _) & _). congruence.
Defined.

(** The loop of EventLoop.v runs a timeout as [timer_begin], the callback and
    [timer_end]. *)
Lemma process_is_begin_end {U V} (sched_cb : Z -> Z -> EventState U -> V -> Z * EventState U * V)
    s w p c e t s4 w4 e4 :
  heap c !! p = Some e -> stops (upd_sched s c) e false = false ->
  sched_cb (callback e) (arg e) (called_state (count_step (upd_sched s c) e false) p e) w
    = (EVENT_REMOVE, s4, w4) ->
  heap (sch s4) !! p = Some e4 ->
  sch (called_state (count_step (upd_sched s c) e false) p e) = with_heap c (<[p := running_evt e]> (heap c)) /\
  evt_process_timed_event sched_cb true (upd_sched s c) w p t false
    = (true, upd_sched s4 (sc (@timer_end _ (sched_timer_ops (fun _ => None) true) (Clk t (sch s4)) p)), w4).
Proof.
  intros He Hst Hcb He4. split.
  - unfold count_step. by destruct (_ && _).
  - rewrite (process_timed_unfold sched_cb true (upd_sched s c) w p e t false He), Hst, Hcb, He4.
    simpl. by rewrite He4.
Qed.

(** With memory left, a timer is always granted. *)
Lemma timer_add_some (evt_malloc : gset ptr -> option ptr) (t : clocked) ms a :
  (forall X, evt_malloc X <> None) -> (@timer_add _ (sched_timer_ops evt_malloc true) t ms a).1 <> None.
Proof.
  intros Hm. cbn. unfold EVT_sched_add. specialize (Hm (dom (heap (sc t)))).
  destruct (evt_malloc _) as [p|]; [|done]. unfold queue_insert, ps_pqueue_insert. rewrite andb_false_r.
  cbn [get_queue with_heap]. destruct (bubble_up _ _ _) as [m q]. done.
Qed.
