(* ===== verification/XdrCodec.v ===== *)
(** * XDR encoders and decoders (xdr.c)

    The external data representation of libproc: every field type has a
    decoder and an encoder of one shape, and arrays, structures and
    dictionaries call them through function pointers.  This file holds the
    memory model, the codecs of the integer types, floats, strings and byte
    arrays, and the generic array codec; XdrStruct.v and XdrDict.v build on the
    [Codec] interface.

    Memory.  The destination of an encoder is a buffer and a pointer into it,
    or an offset from NULL, which is not NULL itself once it was advanced; a
    store outside the buffer or through such a pointer is a fault.  A source is
    NULL, a pointer to an object, or wild.  Decoders read from the bytes that
    follow their source pointer, and reading past them is a fault.  The host is
    little endian; [size_t] has 64 bits. *)

From stdpp Require Import base list numbers.
From Stdlib Require Import ZArith Lia.
From S2P Require Import Prelude Words CStr.
Open Scope Z_scope.

(** ** Memory *)

Inductive sptr (A : Type) := SNull | SWild | SObj (a : A).
Arguments SNull {A}.
Arguments SWild {A}.
Arguments SObj {A} a.

Inductive dptr := DNull (k : Z) | DBuf (off : Z).

Definition dst_null (d : dptr) : bool := match d with DNull k => k =? 0 | DBuf _ => false end.

Definition dadd (d : dptr) (n : Z) : dptr :=
  match d with DNull k => DNull (k + n) | DBuf off => DBuf (off + n) end.

(** [memcpy] into the destination; copying nothing touches no memory. *)
Definition store (buf : list Z) (d : dptr) (data : list Z) : option (list Z) :=
  match data with
  | [] => Some buf
  | _ :: _ =>
      match d with
      | DNull _ => None
      | DBuf off =>
          if (0 <=? off) && (off + zlen data <=? zlen buf) then Some (splice buf off data) else None
      end
  end.

(** Reading [n] bytes of an object. *)
Definition load (src : list Z) (n : Z) : option (list Z) :=
  if n <=? zlen src then Some (take (Z.to_nat n) src) else None.

(** A call of an encoder faults, or returns a code, the size in [*used], and
    the buffer. *)
Inductive eres := EFault | ERet (rc used : Z) (buf : list Z).

Definition estore (rc used : Z) (buf : list Z) (d : dptr) (data : list Z) : eres :=
  match store buf d data with Some b => ERet rc used b | None => EFault end.

(** A call of a decoder faults, returns a code and no value, or returns 0 with
    the size used and the decoded value. *)
Inductive dres (A : Type) := DFault | DErr (rc : Z) | DOk (used : Z) (v : A).
Arguments DFault {A}.
Arguments DErr {A} rc.
Arguments DOk {A} used v.

(** [XDR_Encoder (src, dst, used, max, len)], with the buffer. *)
Definition Encoder (A : Type) : Type := sptr A -> dptr -> Z -> sptr Z -> list Z -> eres.

(** [XDR_Decoder (src, dst, inc, max, len)]: the bytes at [src]; [dst] is NULL
    or an object with its present value. *)
Definition Decoder (A : Type) : Type := list Z -> option A -> Z -> sptr Z -> dres A.

Definition dstore {A} (used : Z) (dst : option A) (v : A) : dres A :=
  match dst with Some _ => DOk used v | None => DFault end.

(** ** Integers *)

Definition XDR_encode_uint32 : Encoder Z := fun src dst max _ buf =>
  if dst_null dst then ERet 0 4 buf
  else match src with
       | SNull => ERet (-1) 4 buf
       | _ =>
           if max <? 4 then ERet (-2) 4 buf
           else match src with
                | SObj v => estore 0 4 buf dst (le_bytes 4 (htonl v))
                | _ => EFault
                end
       end.

Definition XDR_encode_int32 : Encoder Z := fun src dst max _ buf =>
  if dst_null dst then ERet 0 4 buf
  else match src with
       | SNull => ERet (-1) 4 buf
       | _ =>
           if max <? 4 then ERet (-2) 4 buf
           else match src with
                | SObj v => estore 0 4 buf dst (le_bytes 4 (htonl v))
                | _ => EFault
                end
       end.

Definition XDR_decode_uint32 : Decoder Z := fun src dst max _ =>
  if max <? 4 then DErr (-1)
  else match load src 4 with
       | Some net => dstore 4 dst (ntohl (le_value net))
       | None => DFault
       end.

Definition XDR_decode_int32 : Decoder Z := fun src dst max _ =>
  if max <? 4 then DErr (-1)
  else match load src 4 with
       | Some net => dstore 4 dst (s32 (ntohl (le_value net)))
       | None => DFault
       end.

(** The two halves of a 64-bit encoder. *)
Definition encode_halves (enc_hi : Encoder Z) (hi low : Z) (dst : dptr) (max : Z) (buf : list Z) : eres :=
  match enc_hi (SObj hi) dst max SNull buf with
  | EFault => EFault
  | ERet rc len b1 =>
      if rc <? 0 then ERet (-1) 8 b1
      else match XDR_encode_uint32 (SObj low) (dadd dst len) (u64 (max - len)) SNull b1 with
           | EFault => EFault
           | ERet rc2 _ b2 => if rc2 <? 0 then ERet (-1) 8 b2 else ERet 0 8 b2
           end
  end.

Definition XDR_encode_int64 : Encoder Z := fun src dst max _ buf =>
  if dst_null dst then ERet 0 8 buf
  else match src with
       | SNull => ERet (-1) 8 buf
       | _ =>
           if max <? 8 then ERet (-1) 8 buf
           else match src with
                | SObj v =>
                    encode_halves XDR_encode_int32 (Z.shiftr v 32) (Z.land v 0xFFFFFFFF) dst max buf
                | _ => EFault
                end
       end.

Definition XDR_encode_uint64 : Encoder Z := fun src dst max _ buf =>
  if dst_null dst then ERet 0 8 buf
  else match src with
       | SNull => ERet (-1) 8 buf
       | _ =>
           if max <? 8 then ERet (-1) 8 buf
           else match src with
                | SObj v =>
                    encode_halves XDR_encode_uint32 (Z.shiftr v 32) (Z.land v 0xFFFFFFFF) dst max buf
                | _ => EFault
                end
       end.

Definition decode_halves (dec_hi : Decoder Z) (src : list Z) (dst : option Z) (max : Z) : dres Z :=
  match dec_hi src (Some 0) max SNull with
  | DFault => DFault
  | DErr _ => DErr (-1)
  | DOk used hi =>
      match XDR_decode_uint32 (drop (Z.to_nat used) src) (Some 0) (u64 (max - used)) SNull with
      | DFault => DFault
      | DErr _ => DErr (-1)
      | DOk _ low => dstore 8 dst (Z.lor (Z.shiftl hi 32) low)
      end
  end.

Definition XDR_decode_int64 : Decoder Z := fun src dst max _ =>
  if max <? 8 then DErr (-1) else decode_halves XDR_decode_int32 src dst max.

Definition XDR_decode_uint64 : Decoder Z := fun src dst max _ =>
  if max <? 8 then DErr (-1) else decode_halves XDR_decode_uint32 src dst max.

(** ** Floats: copied in host order *)

Definition encode_raw (size : Z) : Encoder (list Z) := fun src dst max _ buf =>
  if max <? size then ERet (-1) size buf
  else match src with
       | SObj bs =>
           match load bs size with Some data => estore 0 size buf dst data | None => EFault end
       | _ => EFault
       end.

Definition decode_raw (size : Z) : Decoder (list Z) := fun src dst max _ =>
  if max <? size then DErr (-1)
  else match load src size with
       | Some bs => dstore size dst bs
       | None => DFault
       end.

Definition XDR_encode_float : Encoder (list Z) := encode_raw 4.
Definition XDR_encode_double : Encoder (list Z) := encode_raw 8.
Definition XDR_decode_float : Decoder (list Z) := decode_raw 4.
Definition XDR_decode_double : Decoder (list Z) := decode_raw 8.

(** ** Strings

    A [char *] is NULL or a block of bytes that holds a C string. *)

Definition pad4 (n : Z) : Z := (4 - n mod 4) mod 4.

Definition XDR_encode_string_array : Encoder (option (list Z)) := fun src_ptr dst max _ buf =>
  match src_ptr with
  | SWild => EFault
  | _ =>
      let src := match src_ptr with SObj p => p | _ => None end in
      let str_len := match src with Some s => u32 (zlen (cstr s)) | None => 0 end in
      let padding := pad4 str_len in
      match XDR_encode_uint32 (SObj str_len) dst max SNull buf with
      | EFault => EFault
      | ERet res used0 b0 =>
          let dst1 := dadd dst used0 in
          let used := u64 (used0 + u32 (str_len + padding)) in
          if res <? 0 then ERet res used b0
          else if max <? used then ERet (-2) used b0
          else
            match store b0 dst1 (match src with Some s => take (Z.to_nat str_len) (cstr s) | None => [] end) with
            | None => EFault
            | Some b1 => estore 0 used b1 (dadd dst1 str_len) (replicate (Z.to_nat padding) 0)
            end
      end
  end.

(** [XDR_encode_string] and [XDR_decode_string] are [assert(0)]. *)
Definition XDR_encode_string : Encoder (list Z) := fun _ _ _ _ _ => EFault.
Definition XDR_decode_string : Decoder (option (list Z)) := fun _ _ _ _ => DFault.

Section Allocating.
(** Whether an allocation of a size succeeds. *)
Context (malloc : Z -> bool).

Definition XDR_decode_string_array : Decoder (option (list Z)) := fun src dst max _ =>
  match XDR_decode_uint32 src (Some 0) max SNull with
  | DFault => DFault
  | DErr _ => DErr (-1)
  | DOk used str_len =>
      let padding := pad4 str_len in
      if max <? u64 (used + str_len + padding) then DErr (-1)
      else
        let size := u32 (str_len + 1) in
        match load (drop (Z.to_nat used) src) str_len with
        | Some bs =>
            if malloc size && (str_len <? size)
            then dstore (u64 (used + u32 (str_len + padding))) dst (Some bs) else DFault
        | None => DFault
        end
  end.

(** ** Byte arrays, whose length is in another field *)

Definition byte_padding (byte_len : Z) : Z := Z.rem (4 - Z.rem byte_len 4) 4.

Definition XDR_encode_byte_array : Encoder (option (list Z)) := fun src dst max lenptr buf =>
  match lenptr with
  | SObj byte_len =>
      let padding := byte_padding byte_len in
      let used := u64 (s32 (byte_len + padding)) in
      if dst_null dst then ERet (-1) used buf
      else match src with
           | SNull | SObj None => ERet (-1) used buf
           | SWild => EFault
           | SObj (Some block) =>
               if max <=? used then ERet (-1) used buf
               else
                 match load block (u64 byte_len) with
                 | None => EFault
                 | Some data =>
                     match store buf dst data with
                     | None => EFault
                     | Some b1 => estore 0 used b1 (dadd dst byte_len) (replicate (Z.to_nat padding) 0)
                     end
                 end
           end
  | _ => EFault
  end.

Definition XDR_decode_byte_array : Decoder (option (list Z)) := fun src dst max lenptr =>
  match lenptr with
  | SObj byte_len =>
      let padding := byte_padding byte_len in
      let used := u64 (s32 (byte_len + padding)) in
      match dst with
      | None => DErr (-1)
      | Some _ =>
          if max <=? used then DErr (-1)
          else
            match load src (u64 byte_len) with
            | Some data => if malloc (u64 byte_len) then DOk used (Some data) else DFault
            | None => DFault
            end
      end
  | _ => DFault
  end.

(** ** Arrays of [increment] bytes per element, with a length given apart *)

Section Arrays.
(** [junk] is what fresh memory holds. *)
Context {A : Type} (junk : A).

(** [src + i*increment]. *)
Definition element (src : option (list A)) (i : nat) : sptr A :=
  match src with
  | None => if (i =? 0)%nat then SNull else SWild
  | Some l => match l !! i with Some a => SObj a | None => SWild end
  end.

Fixpoint array_encode_loop (enc : Encoder A) (src : option (list A)) (max : Z) (n i : nat)
    (dst : dptr) (res enc_len : Z) (buf : list Z) : eres :=
  match n with
  | O => ERet res enc_len buf
  | S n' =>
      let call := negb (dst_null dst) && (0 <=? res) in
      match enc (element src i) (if call then dadd dst enc_len else DNull 0)
              (u64 (max - enc_len)) SNull buf with
      | EFault => EFault
      | ERet rc sz b =>
          let res' := if call then rc else res in
          let dst' := if res' <? 0 then DNull 0 else dst in
          array_encode_loop enc src max n' (S i) dst' res' (u64 (enc_len + sz)) b
      end
  end.

Definition XDR_array_encoder (src_ptr : sptr (option (list A))) (dst : dptr) (max len : Z)
    (enc : Encoder A) (buf : list Z) : eres :=
  match src_ptr with
  | SWild => EFault
  | _ =>
      let src := match src_ptr with SObj p => p | _ => None end in
      array_encode_loop enc src max (Z.to_nat len) 0 dst 0 0 buf
  end.

Fixpoint array_decode_loop (dec : Decoder A) (src : list Z) (max : Z) (n : nat) (dec_len : Z)
    (out : list A) : dres (option (list A)) :=
  match n with
  | O => DOk dec_len (Some out)
  | S n' =>
      match dec (drop (Z.to_nat dec_len) src) (Some junk) (u64 (max - dec_len)) SNull with
      | DFault => DFault
      | DErr rc => DErr rc
      | DOk sz v => array_decode_loop dec src max n' (u64 (dec_len + sz)) (out ++ [v])
      end
  end.

Definition XDR_array_decoder (src : list Z) (dst : option (option (list A)))
    (max len increment : Z) (dec : Decoder A) : dres (option (list A)) :=
  if negb (malloc (u64 (len * increment))) then DErr (-1)
  else match dst with
       | None => DErr (-2)
       | Some _ => array_decode_loop dec src max (Z.to_nat len) 0 []
       end.

(** The array functions of the types: [len] may be NULL, and points to an
    [int32_t] otherwise. *)
Definition encode_array_of (enc : Encoder A) : Encoder (option (list A)) := fun src dst max len buf =>
  match len with
  | SNull => ERet 0 0 buf
  | SWild => EFault
  | SObj n => XDR_array_encoder src dst max n enc buf
  end.

Definition decode_array_of (increment : Z) (dec : Decoder A) : Decoder (option (list A)) :=
  fun src dst max len =>
  match len with
  | SNull => match dst with Some old => DOk 0 old | None => DErr 0 end
  | SWild => DFault
  | SObj n => XDR_array_decoder src dst max n increment dec
  end.
End Arrays.

Definition XDR_encode_int32_array := encode_array_of XDR_encode_int32.
Definition XDR_encode_uint32_array := encode_array_of XDR_encode_uint32.
Definition XDR_encode_int64_array := encode_array_of XDR_encode_int64.
Definition XDR_encode_uint64_array := encode_array_of XDR_encode_uint64.
Definition XDR_encode_float_array := encode_array_of XDR_encode_float.
(** As in the code, the elements of an array of doubles go through
    [XDR_encode_float]. *)
Definition XDR_encode_double_array := encode_array_of XDR_encode_float.
Definition XDR_decode_int32_array := decode_array_of 0 4 XDR_decode_int32.
Definition XDR_decode_uint32_array := decode_array_of 0 4 XDR_decode_uint32.
Definition XDR_decode_int64_array := decode_array_of 0 8 XDR_decode_int64.
Definition XDR_decode_uint64_array := decode_array_of 0 8 XDR_decode_uint64.
Definition XDR_decode_float_array := decode_array_of [] 4 XDR_decode_float.
Definition XDR_decode_double_array := decode_array_of [] 8 XDR_decode_double.
End Allocating.

(** ** Facts about buffers *)

Lemma store_fits buf off data :
  0 <= off -> off + zlen data <= zlen buf -> store buf (DBuf off) data = Some (splice buf off data).
Proof.
  intros H1 H2. unfold store. destruct data as [|b data]; [by rewrite splice_nil by (simpl in *; lia)|].
  rewrite (proj2 (Z.leb_le 0 off) H1), (proj2 (Z.leb_le _ _) H2). done.
Qed.

Lemma estore_fits rc used buf off data :
  0 <= off -> off + zlen data <= zlen buf ->
  estore rc used buf (DBuf off) data = ERet rc used (splice buf off data).
Proof. intros H1 H2. unfold estore. by rewrite store_fits. Qed.

Lemma load_app bs rest : load (bs ++ rest) (zlen bs) = Some bs.
Proof.
  unfold load. rewrite (proj2 (Z.leb_le _ _)) by (rewrite length_app; lia).
  rewrite Nat2Z.id, take_app_length. done.
Qed.

Lemma load_all bs : load bs (zlen bs) = Some bs.
Proof. rewrite <- (app_nil_r bs) at 1. apply load_app. Qed.

Lemma load_app4 bs rest : length bs = 4%nat -> load (bs ++ rest) 4 = Some bs.
Proof. intros H. change 4 with (Z.of_nat 4). rewrite <- H. apply load_app. Qed.

(** ** The interface of a codec

    [wire] is what the encoder of a valid value writes; the encoder needs
    [slack] bytes of room beyond it.  [valid] may depend on the length the
    code passes along. *)
Class Encodes {A} (e : Encoder A) (wire : A -> list Z) (slack : Z) (valid : sptr Z -> A -> Prop) := {
  slack_nonneg : 0 <= slack;
  enc_ok : forall a off max len buf,
    valid len a -> 0 <= off -> off + max <= zlen buf -> zlen (wire a) + slack <= max -> max < 2 ^ 64 ->
    e (SObj a) (DBuf off) max len buf = ERet 0 (zlen (wire a)) (splice buf off (wire a))
}.

Class Codec {A} (e : Encoder A) (d : Decoder A) (wire : A -> list Z) (slack : Z)
    (valid : sptr Z -> A -> Prop) := {
  codec_encodes :: Encodes e wire slack valid;
  dec_ok : forall a old max len rest,
    valid len a -> zlen (wire a) + slack <= max -> max < 2 ^ 64 ->
    d (wire a ++ rest) (Some old) max len = DOk (zlen (wire a)) a
}.

#[export] Typeclasses Opaque XDR_encode_uint32 XDR_encode_int32 XDR_encode_uint64 XDR_encode_int64.
#[export] Typeclasses Opaque XDR_encode_float XDR_encode_double XDR_decode_float XDR_decode_double.
#[export] Hint Mode Encodes + + - - - : typeclass_instances.
#[export] Hint Mode Codec + + - - - - : typeclass_instances.
#[export] Hint Mode Codec + - + - - - : typeclass_instances.

(** Bytes outside [max] bytes from [off] on are as before. *)
Definition untouched (off max : Z) (buf buf' : list Z) : Prop :=
  length buf' = length buf /\ take (Z.to_nat off) buf' = take (Z.to_nat off) buf /\
  drop (Z.to_nat (off + max)) buf' = drop (Z.to_nat (off + max)) buf.

(** An encoder that can be given any room: it reports the size of the encoding
    whether it fits or not, also for a NULL destination, and stays inside its
    room. *)
Class SizedEncoder {A} (e : Encoder A) (wire : A -> list Z) (slack : Z)
    (valid : sptr Z -> A -> Prop) := {
  enc_short : forall a off max len buf,
    valid len a -> 0 <= off -> 0 <= max < zlen (wire a) + slack -> off + max <= zlen buf ->
    exists rc buf', e (SObj a) (DBuf off) max len buf = ERet rc (zlen (wire a)) buf' /\
      rc < 0 /\ untouched off max buf buf';
  enc_size : forall a max len buf,
    valid len a -> 0 <= max < 2 ^ 64 ->
    exists rc, e (SObj a) (DNull 0) max len buf = ERet rc (zlen (wire a)) buf
}.

Lemma untouched_refl off max buf : untouched off max buf buf.
Proof. done. Qed.

Lemma untouched_splice off max buf data :
  0 <= off -> zlen data <= max -> off + max <= zlen buf -> untouched off max buf (splice buf off data).
Proof.
  intros H1 H2 H3. unfold untouched. rewrite splice_length by lia. split_and!; [done| |].
  - unfold splice. rewrite take_app_le by (rewrite length_take; lia). rewrite take_take. f_equal. lia.
  - unfold splice. rewrite app_assoc, drop_app_ge by (rewrite length_app, length_take; lia).
    rewrite length_app, length_take, drop_drop. f_equal. lia.
Qed.

Lemma drop_more {B} (a b : nat) (l l' : list B) :
  (a <= b)%nat -> drop a l' = drop a l -> drop b l' = drop b l.
Proof.
  intros H E. replace b with (a + (b - a))%nat by lia. by rewrite <- !drop_drop, E.
Qed.

Lemma take_less {B} (a b : nat) (l l' : list B) :
  (a <= b)%nat -> take b l' = take b l -> take a l' = take a l.
Proof.
  intros H E. rewrite <- (Nat.min_l a b) by done. by rewrite <- !take_take, E.
Qed.

(** A later write into the rest of the room. *)
Lemma untouched_trans off off' max max' buf1 buf2 buf3 :
  0 <= off <= off' -> 0 <= max' -> off' + max' <= off + max ->
  untouched off max buf1 buf2 -> untouched off' max' buf2 buf3 -> untouched off max buf1 buf3.
Proof.
  intros H1 H2 H3 (A1 & A2 & A3) (B1 & B2 & B3). split_and!; [congruence| |].
  - rewrite <- A2. eapply take_less; [|exact B2]. lia.
  - rewrite <- A3. eapply drop_more; [|exact B3]. lia.
Qed.

(** *** Integers *)

Definition int_valid (lo hi : Z) (_ : sptr Z) (z : Z) : Prop := lo <= z < hi.
Definition be64 (z : Z) : list Z := be32 (Z.shiftr z 32) ++ be32 (Z.land z 0xFFFFFFFF).

Lemma u64_small z : 0 <= z < 2 ^ 64 -> u64 z = z.
Proof. apply Z.mod_small. Qed.

Lemma s32_u32 z : - 2 ^ 31 <= z < 2 ^ 31 -> s32 (u32 z) = z.
Proof.
  intros H. unfold s32, u32. rewrite Zplus_mod_idemp_l. rewrite Z.mod_small by lia. lia.
Qed.

Lemma encode_uint32_ok v off max len buf :
  0 <= off -> off + max <= zlen buf -> 4 <= max ->
  XDR_encode_uint32 (SObj v) (DBuf off) max len buf = ERet 0 4 (splice buf off (be32 v)).
Proof.
  intros H1 H2 H3. unfold XDR_encode_uint32. simpl dst_null. cbv iota.
  rewrite (proj2 (Z.ltb_ge _ _)) by lia. rewrite htonl_bytes.
  apply estore_fits; [done|]. rewrite be32_length. lia.
Qed.

Lemma decode_uint32_ok v old max len rest :
  4 <= max -> XDR_decode_uint32 (be32 v ++ rest) (Some old) max len = DOk 4 (u32 v).
Proof.
  intros H. unfold XDR_decode_uint32. rewrite (proj2 (Z.ltb_ge _ _)) by lia.
  rewrite load_app4 by apply be32_length. unfold dstore. by rewrite ntohl_be32.
Qed.

Lemma decode_int32_ok v old max len rest :
  4 <= max -> XDR_decode_int32 (be32 v ++ rest) (Some old) max len = DOk 4 (s32 (u32 v)).
Proof.
  intros H. unfold XDR_decode_int32. rewrite (proj2 (Z.ltb_ge _ _)) by lia.
  rewrite load_app4 by apply be32_length. unfold dstore. by rewrite ntohl_be32.
Qed.

#[export] Instance uint32_codec :
  Codec XDR_encode_uint32 XDR_decode_uint32 be32 0 (int_valid 0 (2 ^ 32)).
Proof.
  split; [split; [lia|]|]; intros a *; unfold int_valid; rewrite be32_length; intros.
  - apply encode_uint32_ok; lia.
  - rewrite decode_uint32_ok by lia. rewrite u32_small by lia. done.
Qed.

#[export] Instance int32_codec :
  Codec XDR_encode_int32 XDR_decode_int32 be32 0 (int_valid (- 2 ^ 31) (2 ^ 31)).
Proof.
  split; [split; [lia|]|]; intros a *; unfold int_valid; rewrite be32_length; intros.
  - apply encode_uint32_ok; lia.
  - rewrite decode_int32_ok by lia. rewrite s32_u32 by lia. done.
Qed.

#[export] Instance uint32_sized lo hi : SizedEncoder XDR_encode_uint32 be32 0 (int_valid lo hi).
Proof.
  split; intros a *; rewrite be32_length; intros; [|by exists 0].
  exists (-2), buf. split; [|split; [lia|apply untouched_refl]].
  unfold XDR_encode_uint32. simpl dst_null. cbv iota.
  by rewrite (proj2 (Z.ltb_lt _ _)) by lia.
Qed.

#[export] Instance int32_sized lo hi : SizedEncoder XDR_encode_int32 be32 0 (int_valid lo hi).
Proof. exact (uint32_sized lo hi). Qed.

Lemma be64_length z : length (be64 z) = 8%nat.
Proof. unfold be64. by rewrite length_app, !be32_length. Qed.

(** Both 64-bit encoders. *)
Lemma encode_halves_ok hi low off max buf :
  0 <= off -> off + max <= zlen buf -> 8 <= max < 2 ^ 64 ->
  encode_halves XDR_encode_uint32 hi low (DBuf off) max buf
    = ERet 0 8 (splice buf off (be32 hi ++ be32 low)).
Proof.
  intros H1 H2 H3. unfold encode_halves. rewrite encode_uint32_ok by lia. simpl (0 <? 0). cbv iota.
  simpl dadd. rewrite u64_small by lia. rewrite encode_uint32_ok; [|lia| |lia].
  - simpl (0 <? 0). cbv iota. f_equal. change 4 with (Z.of_nat 4). rewrite <- (be32_length hi).
    apply splice_splice; rewrite ?be32_length; lia.
  - rewrite splice_length by (rewrite ?be32_length; lia). lia.
Qed.

Lemma lor_halves v : Z.lor (Z.shiftl (Z.shiftr v 32) 32) (Z.land v 0xFFFFFFFF) = v.
Proof.
  change 0xFFFFFFFF with (Z.ones 32). apply Z.bits_inj'. intros n Hn.
  rewrite Z.lor_spec, Z.land_spec, Z.ones_spec_iff || rewrite Z.lor_spec, Z.land_spec.
  destruct (Z.ltb_spec n 32) as [Hl|Hl].
  - rewrite Z.shiftl_spec_low by lia. rewrite Z.ones_spec_low by lia. by rewrite andb_true_r.
  - rewrite Z.shiftl_spec_high by lia. rewrite Z.shiftr_spec by lia. rewrite Z.ones_spec_high by lia.
    rewrite andb_false_r, orb_false_r. f_equal. lia.
Qed.

Lemma low_u32 v : u32 (Z.land v 0xFFFFFFFF) = Z.land v 0xFFFFFFFF.
Proof.
  change 0xFFFFFFFF with (Z.ones 32). rewrite Z.land_ones by lia. unfold u32. by rewrite Z.mod_mod by lia.
Qed.

Lemma be64_drop v rest :
  drop (Z.to_nat 4) (be64 v ++ rest) = be32 (Z.land v 0xFFFFFFFF) ++ rest.
Proof.
  unfold be64. rewrite <- app_assoc. rewrite drop_app_length'; [done|by rewrite be32_length].
Qed.

#[export] Instance uint64_codec :
  Codec XDR_encode_uint64 XDR_decode_uint64 be64 0 (int_valid 0 (2 ^ 64)).
Proof.
  split; [split; [lia|]|]; intros a *; unfold int_valid; rewrite be64_length; intros.
  - unfold XDR_encode_uint64. simpl dst_null. cbv iota. rewrite (proj2 (Z.ltb_ge _ _)) by lia.
    rewrite encode_halves_ok by lia. done.
  - unfold XDR_decode_uint64, decode_halves. rewrite (proj2 (Z.ltb_ge _ _)) by lia.
    unfold be64 at 1. rewrite <- app_assoc, decode_uint32_ok by lia. cbv iota.
    rewrite be64_drop, decode_uint32_ok by (rewrite u64_small; lia). cbv iota. unfold dstore. rewrite low_u32.
    rewrite u32_small by (rewrite Z.shiftr_div_pow2 by lia; split; [apply Z.div_pos; lia|apply Z.div_lt_upper_bound; lia]).
    by rewrite lor_halves.
Qed.

#[export] Instance int64_codec :
  Codec XDR_encode_int64 XDR_decode_int64 be64 0 (int_valid (- 2 ^ 63) (2 ^ 63)).
Proof.
  split; [split; [lia|]|]; intros a *; unfold int_valid; rewrite be64_length; intros.
  - unfold XDR_encode_int64. simpl dst_null. cbv iota. rewrite (proj2 (Z.ltb_ge _ _)) by lia.
    change XDR_encode_int32 with XDR_encode_uint32. rewrite encode_halves_ok by lia. done.
  - unfold XDR_decode_int64, decode_halves. rewrite (proj2 (Z.ltb_ge _ _)) by lia.
    unfold be64 at 1. rewrite <- app_assoc, decode_int32_ok by lia. cbv iota.
    rewrite be64_drop, decode_uint32_ok by (rewrite u64_small; lia). cbv iota. unfold dstore. rewrite low_u32.
    rewrite s32_u32 by (rewrite Z.shiftr_div_pow2 by lia; split; [apply Z.div_le_lower_bound; lia|apply Z.div_lt_upper_bound; lia]).
    by rewrite lor_halves.
Qed.

#[export] Instance uint64_sized lo hi : SizedEncoder XDR_encode_uint64 be64 0 (int_valid lo hi).
Proof.
  split; intros a *; rewrite be64_length; intros; [|by exists 0].
  exists (-1), buf. split; [|split; [lia|apply untouched_refl]].
  unfold XDR_encode_uint64. simpl dst_null. cbv iota.
  by rewrite (proj2 (Z.ltb_lt _ _)) by lia.
Qed.

#[export] Instance int64_sized lo hi : SizedEncoder XDR_encode_int64 be64 0 (int_valid lo hi).
Proof.
  split; intros a *; rewrite be64_length; intros; [|by exists 0].
  exists (-1), buf. split; [|split; [lia|apply untouched_refl]].
  unfold XDR_encode_int64. simpl dst_null. cbv iota.
  by rewrite (proj2 (Z.ltb_lt _ _)) by lia.
Qed.

(** *** Floats and doubles *)

Definition raw_valid (size : Z) (_ : sptr Z) (bs : list Z) : Prop := zlen bs = size.

Lemma raw_codec size : 0 <= size -> Codec (encode_raw size) (decode_raw size) (fun bs => bs) 0 (raw_valid size).
Proof.
  intros Hs. split; [split; [lia|]|]; intros a *; unfold raw_valid; intros Hv; intros.
  - unfold encode_raw. rewrite (proj2 (Z.ltb_ge _ _)) by lia.
    rewrite <- Hv, load_all. apply estore_fits; lia.
  - unfold decode_raw. rewrite (proj2 (Z.ltb_ge _ _)) by lia. rewrite <- Hv, load_app. done.
Qed.

#[export] Instance float_codec : Codec XDR_encode_float XDR_decode_float (fun bs => bs) 0 (raw_valid 4).
Proof. apply raw_codec. lia. Qed.

#[export] Instance double_codec : Codec XDR_encode_double XDR_decode_double (fun bs => bs) 0 (raw_valid 8).
Proof. apply raw_codec. lia. Qed.

(** *** Strings *)

Definition zeros (n : Z) : list Z := replicate (Z.to_nat n) 0.

Definition string_wire (p : option (list Z)) : list Z :=
  let s := match p with Some s => cstr s | None => [] end in
  be32 (zlen s) ++ s ++ zeros (pad4 (zlen s)).

Lemma pad4_range n : 0 <= pad4 n < 4.
Proof. unfold pad4. apply Z.mod_pos_bound. lia. Qed.

Lemma zeros_length n : 0 <= n -> zlen (zeros n) = n.
Proof. intros. unfold zeros. rewrite length_replicate. lia. Qed.

Lemma string_wire_length s :
  zlen (string_wire (Some s)) = 4 + zlen (cstr s) + pad4 (zlen (cstr s)).
Proof.
  unfold string_wire. rewrite !length_app, !Nat2Z.inj_add, be32_length.
  pose proof (pad4_range (zlen (cstr s))). rewrite zeros_length by lia. lia.
Qed.

(** The two writes of an encoder of data and padding. *)
Lemma store_padded rc used buf off data n :
  0 <= off -> 0 <= n -> off + zlen data + n <= zlen buf ->
  match store buf (DBuf off) data with
  | None => EFault
  | Some b1 => estore rc used b1 (dadd (DBuf off) (zlen data)) (replicate (Z.to_nat n) 0)
  end = ERet rc used (splice buf off (data ++ zeros n)).
Proof.
  intros H1 H2 H3. rewrite store_fits by lia. simpl dadd. fold (zeros n).
  rewrite estore_fits; [|lia|rewrite splice_length by lia; rewrite zeros_length; lia].
  f_equal. apply splice_splice; rewrite ?zeros_length by done; lia.
Qed.

Section AllocatingCodecs.
Context (malloc : Z -> bool).

Definition string_valid (_ : sptr Z) (p : option (list Z)) : Prop :=
  match p with
  | Some s => cstr s = s /\ zlen s + 8 < 2 ^ 32 /\ malloc (zlen s + 1) = true
  | None => False
  end.

Lemma encode_string_ok s off max len buf :
  zlen (cstr s) + 8 < 2 ^ 32 -> 0 <= off -> off + max <= zlen buf ->
  zlen (string_wire (Some s)) <= max ->
  XDR_encode_string_array (SObj (Some s)) (DBuf off) max len buf
    = ERet 0 (zlen (string_wire (Some s))) (splice buf off (string_wire (Some s))).
Proof.
  intros Hs Ho Hb Hm. pose proof (pad4_range (zlen (cstr s))) as Hp.
  pose proof (string_wire_length s) as Hw. unfold XDR_encode_string_array. cbv iota zeta.
  rewrite (u32_small (zlen (cstr s))) by lia. rewrite encode_uint32_ok by lia. cbv iota.
  rewrite (u32_small (_ + _)) by lia. rewrite u64_small by lia.
  change (0 <? 0) with false. cbv iota. rewrite (proj2 (Z.ltb_ge _ _)) by lia.
  rewrite Nat2Z.id, take_ge by done. simpl dadd at 1. simpl dadd at 2.
  change (DBuf (off + 4 + zlen (cstr s))) with (dadd (DBuf (off + 4)) (zlen (cstr s))).
  rewrite (store_padded 0 _ _ (off + 4)).
  - rewrite Hw, Z.add_assoc. f_equal. change 4 with (Z.of_nat 4) at 1.
    rewrite <- (be32_length (zlen (cstr s))) at 1. rewrite splice_splice; [done|done|].
    rewrite be32_length, length_app, Nat2Z.inj_add, zeros_length by lia. lia.
  - lia.
  - lia.
  - rewrite splice_length by (rewrite ?be32_length; lia). lia.
Qed.

#[export] Instance string_codec :
  Codec XDR_encode_string_array (XDR_decode_string_array malloc) string_wire 0 string_valid.
Proof.
  split; [split; [lia|]|]; intros [s|] * Hv; try done; destruct Hv as (Hs & Hl & Hm); intros.
  - apply encode_string_ok; try lia. by rewrite Hs.
  - pose proof (pad4_range (zlen s)) as Hp. pose proof (string_wire_length s) as Hw. rewrite Hs in Hw.
    unfold XDR_decode_string_array. unfold string_wire at 1. rewrite Hs, <- !app_assoc.
    rewrite decode_uint32_ok by lia. cbv iota zeta. rewrite (u32_small (zlen s)) by lia.
    rewrite (u64_small (4 + zlen s + _)) by lia. rewrite (proj2 (Z.ltb_ge _ _)) by lia.
    rewrite (u32_small (zlen s + 1)) by lia. unfold string_wire at 1. rewrite Hs, <- !app_assoc.
    rewrite drop_app_length' by (by rewrite be32_length). rewrite load_app, Hm.
    rewrite (proj2 (Z.ltb_lt _ _)) by lia. simpl andb. cbv iota.
    unfold dstore. rewrite (u32_small (zlen s + _)) by lia. rewrite u64_small by lia.
    f_equal. rewrite Hw. lia.
Qed.

(** *** Byte arrays *)

Definition bytes_wire (p : option (list Z)) : list Z :=
  match p with Some l => l ++ zeros (pad4 (zlen l)) | None => [] end.

Definition bytes_valid (len : sptr Z) (p : option (list Z)) : Prop :=
  match p with
  | Some l => len = SObj (zlen l) /\ zlen l + 4 < 2 ^ 31 /\ malloc (zlen l) = true
  | None => False
  end.

Lemma byte_padding_pad4 n : 0 <= n -> byte_padding n = pad4 n.
Proof.
  intros H. unfold byte_padding, pad4. rewrite (Z.rem_mod_nonneg n) by lia.
  pose proof (Z.mod_pos_bound n 4). rewrite Z.rem_mod_nonneg by lia. done.
Qed.

Lemma bytes_used n : 0 <= n -> n + 4 < 2 ^ 31 -> u64 (s32 (n + byte_padding n)) = n + pad4 n.
Proof.
  intros H1 H2. rewrite byte_padding_pad4 by done. pose proof (pad4_range n).
  unfold s32. rewrite Z.mod_small by lia. rewrite u64_small by lia. lia.
Qed.

Lemma bytes_wire_length l : zlen (bytes_wire (Some l)) = zlen l + pad4 (zlen l).
Proof.
  unfold bytes_wire. rewrite length_app, Nat2Z.inj_add. pose proof (pad4_range (zlen l)).
  by rewrite zeros_length by lia.
Qed.

#[export] Instance bytes_codec :
  Codec XDR_encode_byte_array (XDR_decode_byte_array malloc) bytes_wire 1 bytes_valid.
Proof.
  split; [split; [lia|]|]; intros [l|] * Hv; try done; destruct Hv as (-> & Hl & Hm); rewrite bytes_wire_length; intros.
  all: pose proof (pad4_range (zlen l)) as Hp.
  - unfold XDR_encode_byte_array. cbv zeta. rewrite bytes_used by lia. simpl dst_null. cbv iota.
    rewrite (proj2 (Z.leb_gt _ _)) by lia. rewrite u64_small by lia.
    rewrite load_all, byte_padding_pad4 by lia.
    rewrite store_padded by lia. done.
  - unfold XDR_decode_byte_array. cbv zeta. rewrite bytes_used by lia.
    rewrite (proj2 (Z.leb_gt _ _)) by lia. rewrite u64_small by lia.
    unfold bytes_wire. rewrite <- app_assoc, load_app, Hm. done.
Qed.

#[export] Instance bytes_sized : SizedEncoder XDR_encode_byte_array bytes_wire 1 bytes_valid.
Proof.
  split; intros [l|] * Hv; try done; destruct Hv as (-> & Hl & Hm); rewrite bytes_wire_length; intros.
  all: pose proof (pad4_range (zlen l)) as Hp; exists (-1).
  - exists buf. split; [|split; [lia|apply untouched_refl]].
    unfold XDR_encode_byte_array. cbv zeta. rewrite bytes_used by lia. simpl dst_null. cbv iota.
    by rewrite (proj2 (Z.leb_le _ _)) by lia.
  - unfold XDR_encode_byte_array. cbv zeta. rewrite bytes_used by lia. done.
Qed.
End AllocatingCodecs.

(** *** Arrays of a codec *)

Definition array_wire {A} (wire : A -> list Z) (p : option (list A)) : list Z :=
  match p with Some l => concat (wire <$> l) | None => [] end.

Lemma u64_range z : 0 <= u64 z < 2 ^ 64.
Proof. apply Z.mod_pos_bound. lia. Qed.

Section ArrayCodec.
Context {A : Type} {e : Encoder A} {d : Decoder A} {wire : A -> list Z} {slack : Z}.
Context {valid : sptr Z -> A -> Prop}.
Context (malloc : Z -> bool) (junk : A) (increment : Z).
Abbreviation wires l := (concat (fmap (M:=list) wire l)).

Lemma wires_app l1 l2 : wires (l1 ++ l2) = wires l1 ++ wires l2.
Proof. by rewrite fmap_app, concat_app. Qed.

Lemma wires_mid l1 a l2 : zlen (wires (l1 ++ a :: l2)) = zlen (wires l1) + zlen (wire a) + zlen (wires l2).
Proof. rewrite wires_app, fmap_cons. cbn [concat]. rewrite !length_app. lia. Qed.

Lemma wires_snoc l a : wires (l ++ [a]) = wires l ++ wire a.
Proof. rewrite wires_app. simpl. by rewrite app_nil_r. Qed.

Definition array_valid (len : sptr Z) (p : option (list A)) : Prop :=
  match p with
  | Some l => len = SObj (zlen l) /\ zlen l < 2 ^ 31 /\ Forall (valid SNull) l /\
              malloc (u64 (zlen l * increment)) = true /\ zlen (wires l) < 2 ^ 63
  | None => False
  end.

Lemma element_mid (pre : list A) a post : element (Some (pre ++ a :: post)) (length pre) = SObj a.
Proof. unfold element. by rewrite list_lookup_middle. Qed.

Section ArrayEncodes.
Context `{!Encodes e wire slack valid}.

Lemma array_encode_loop_ok post pre max off buf :
  Forall (valid SNull) post -> 0 <= off -> off + max <= zlen buf -> max < 2 ^ 64 ->
  zlen (wires (pre ++ post)) + slack <= max ->
  array_encode_loop e (Some (pre ++ post)) max (length post) (length pre) (DBuf off) 0
    (zlen (wires pre)) (splice buf off (wires pre))
  = ERet 0 (zlen (wires (pre ++ post))) (splice buf off (wires (pre ++ post))).
Proof.
  pose proof (slack_nonneg (e := e)) as Hsl. revert pre. induction post as [|a post IH]; intros pre Hv Ho Hb Hm Hfit.
  { simpl. by rewrite app_nil_r. }
  apply Forall_cons_1 in Hv as [Hva Hv]. cbn [length array_encode_loop].
  rewrite element_mid. change (negb (dst_null (DBuf off)) && (0 <=? 0)) with true. cbv iota zeta.
  pose proof (wires_mid pre a post : zlen (wires (pre ++ a :: post)) = _) as Hlen.
  rewrite u64_small by lia. simpl dadd.
  rewrite (enc_ok a (off + zlen (wires pre))); [|done|lia| |lia|lia].
  2:{ rewrite splice_length by lia. lia. }
  change (0 <? 0) with false. cbv iota. rewrite u64_small by lia.
  rewrite splice_splice by lia. rewrite <- wires_snoc.
  replace (zlen (wires pre) + zlen (wire a)) with (zlen (wires (pre ++ [a])))
    by (rewrite wires_snoc, length_app; lia).
  replace (S (length pre)) with (length (pre ++ [a])) by (rewrite length_app; simpl; lia).
  replace (pre ++ a :: post) with ((pre ++ [a]) ++ post) by (by rewrite <- app_assoc).
  apply IH; try done. rewrite <- app_assoc. simpl app. lia.
Qed.

#[export] Instance array_encodes : Encodes (encode_array_of e) (array_wire wire) slack array_valid.
Proof.
  pose proof (slack_nonneg (e := e)) as Hsl.
  split; [done|]; intros [l|] * Hv; try done; destruct Hv as (-> & Hn & Hv & Hm & Hw); simpl array_wire; intros.
  unfold encode_array_of, XDR_array_encoder. rewrite Nat2Z.id. cbv iota zeta.
  pose proof (array_encode_loop_ok l [] max off buf Hv) as E.
  change (wires []) with (@nil Z) in E. rewrite splice_nil in E by lia. apply E; simpl app; lia.
Qed.
End ArrayEncodes.

Context `{!Codec e d wire slack valid}.

Lemma array_decode_loop_ok post pre max rest :
  Forall (valid SNull) post -> max < 2 ^ 64 -> zlen (wires (pre ++ post)) + slack <= max ->
  array_decode_loop junk d (wires (pre ++ post) ++ rest) max (length post) (zlen (wires pre)) pre
  = DOk (zlen (wires (pre ++ post))) (Some (pre ++ post)).
Proof.
  pose proof (slack_nonneg (e := e)) as Hsl. revert pre. induction post as [|a post IH]; intros pre Hv Hm Hfit.
  { simpl. by rewrite app_nil_r. }
  apply Forall_cons_1 in Hv as [Hva Hv]. cbn [length array_decode_loop].
  pose proof (wires_mid pre a post : zlen (wires (pre ++ a :: post)) = _) as Hlen.
  replace (drop (Z.to_nat (zlen (wires pre))) (wires (pre ++ a :: post) ++ rest))
    with (wire a ++ wires post ++ rest)
    by (rewrite wires_app, fmap_cons; cbn [concat];
        by rewrite <- !app_assoc, Nat2Z.id, drop_app_length).
  rewrite (u64_small (max - _)) by lia. rewrite dec_ok by (done || lia).
  rewrite u64_small by lia.
  replace (zlen (wires pre) + zlen (wire a)) with (zlen (wires (pre ++ [a])))
    by (rewrite wires_snoc, length_app; lia).
  replace (pre ++ a :: post) with ((pre ++ [a]) ++ post) by (by rewrite <- app_assoc).
  apply IH; [done|done|]. rewrite <- app_assoc. simpl app. lia.
Qed.

#[export] Instance array_codec :
  Codec (encode_array_of e) (decode_array_of malloc junk increment d) (array_wire wire) slack array_valid.
Proof.
  split; [apply _|]; intros [l|] * Hv; try done; destruct Hv as (-> & Hn & Hv & Hm & Hw); simpl array_wire; intros.
  unfold decode_array_of, XDR_array_decoder. rewrite Hm, Nat2Z.id. simpl negb. cbv iota.
  by apply (array_decode_loop_ok l [] max rest).
Qed.
End ArrayCodec.

Section ArrayShort.
Context {A : Type} {e : Encoder A} {wire : A -> list Z} {slack : Z}.
Context {valid : sptr Z -> A -> Prop}.
Context `{HC : !Encodes e wire slack valid} `{HS : !SizedEncoder e wire slack valid}.
Abbreviation wires l := (concat (fmap (M:=list) wire l)).

(** With a NULL destination the loop only adds up. *)
Lemma array_size_loop post pre max res buf :
  Forall (valid SNull) post -> zlen (wires (pre ++ post)) < 2 ^ 64 ->
  array_encode_loop e (Some (pre ++ post)) max (length post) (length pre) (DNull 0) res
    (zlen (wires pre)) buf
  = ERet res (zlen (wires (pre ++ post))) buf.
Proof.
  revert pre. induction post as [|a post IH]; intros pre Hv Hw.
  { simpl. by rewrite app_nil_r. }
  apply Forall_cons_1 in Hv as [Hva Hv]. cbn [length array_encode_loop]. rewrite element_mid.
  simpl (negb _ && _). cbv iota zeta.
  destruct (enc_size a (u64 (max - zlen (wires pre))) SNull buf Hva (u64_range _)) as [rc ->].
  replace (if res <? 0 then DNull 0 else DNull 0) with (DNull 0) by (by destruct (res <? 0)).
  pose proof (wires_mid pre a post : zlen (wires (pre ++ a :: post)) = _) as Hlen.
  rewrite u64_small by lia.
  replace (zlen (wires pre) + zlen (wire a)) with (zlen (wires (pre ++ [a])))
    by (rewrite wires_snoc, length_app; lia).
  replace (S (length pre)) with (length (pre ++ [a])) by (rewrite length_app; simpl; lia).
  replace (pre ++ a :: post) with ((pre ++ [a]) ++ post) in * by (by rewrite <- app_assoc).
  apply IH; done.
Qed.

Lemma array_short_loop post pre max off buf :
  Forall (valid SNull) post -> 0 <= off -> off + max <= zlen buf ->
  zlen (wires (pre ++ post)) + slack < 2 ^ 64 -> post <> [] \/ slack = 0 ->
  zlen (wires pre) <= max < zlen (wires (pre ++ post)) + slack ->
  exists rc buf',
    array_encode_loop e (Some (pre ++ post)) max (length post) (length pre) (DBuf off) 0
      (zlen (wires pre)) (splice buf off (wires pre))
    = ERet rc (zlen (wires (pre ++ post))) buf' /\ rc < 0 /\ untouched off max buf buf'.
Proof.
  pose proof (slack_nonneg (e := e)) as Hsl. revert pre.
  induction post as [|a post IH]; intros pre Hv Ho Hb Hw Hne Hfit.
  { rewrite app_nil_r in Hfit. destruct Hne; [done|lia]. }
  apply Forall_cons_1 in Hv as [Hva Hv]. cbn [length array_encode_loop].
  rewrite element_mid. change (negb (dst_null (DBuf off)) && (0 <=? 0)) with true. cbv iota zeta.
  pose proof (wires_mid pre a post : zlen (wires (pre ++ a :: post)) = _) as Hlen.
  rewrite u64_small by lia. simpl dadd.
  assert (Hb2 : off + zlen (wires pre) + (max - zlen (wires pre)) <= zlen (splice buf off (wires pre)))
    by (rewrite splice_length by lia; lia).
  assert (Hsnoc : zlen (wires pre) + zlen (wire a) = zlen (wires (pre ++ [a])))
    by (rewrite wires_snoc, length_app; lia).
  assert (Happ : pre ++ a :: post = (pre ++ [a]) ++ post) by (by rewrite <- app_assoc).
  assert (HS' : S (length pre) = length (pre ++ [a])) by (rewrite length_app; simpl; lia).
  destruct (decide (zlen (wire a) + slack <= max - zlen (wires pre))) as [Hl|Hl].
  - rewrite (enc_ok a (off + zlen (wires pre))) by (done || lia).
    change (0 <? 0) with false. cbv iota. rewrite u64_small by lia.
    rewrite splice_splice by lia. rewrite <- wires_snoc, Hsnoc, HS', Happ.
    assert (Hne' : post <> [] \/ slack = 0) by (destruct post; [right; simpl in Hlen; lia|by left]).
    apply IH; rewrite <- ?Happ, <- ?Hsnoc; done || lia.
  - destruct (enc_short a (off + zlen (wires pre)) (max - zlen (wires pre)) SNull
      (splice buf off (wires pre)) Hva) as (rc & buf' & -> & Hrc & Hun); [lia|lia|lia|].
    rewrite (proj2 (Z.ltb_lt rc 0)) by done. rewrite u64_small by lia.
    rewrite Hsnoc, HS', Happ, array_size_loop by (done || rewrite <- Happ; lia).
    eexists _, _. split; [done|]. split; [done|].
    eapply (untouched_trans off (off + zlen (wires pre)) max (max - zlen (wires pre))); [lia|lia|lia| |exact Hun].
    apply untouched_splice; lia.
Qed.

End ArrayShort.

Section ArraySized.
Context {A : Type} {e : Encoder A} {wire : A -> list Z}.
Context {valid : sptr Z -> A -> Prop} (malloc : Z -> bool) (increment : Z).
Context `{HC : !Encodes e wire 0 valid} `{HS : !SizedEncoder e wire 0 valid}.
Abbreviation wires l := (concat (fmap (M:=list) wire l)).

#[export] Instance array_sized :
  SizedEncoder (encode_array_of e) (array_wire wire) 0
    (array_valid (wire := wire) (valid := valid) malloc increment).
Proof.
  split; intros [l|] * Hv; try done; destruct Hv as (-> & Hn & Hv & Hm & Hw); simpl array_wire; intros.
  - unfold encode_array_of, XDR_array_encoder. rewrite Nat2Z.id. cbv iota zeta.
    destruct (array_short_loop l [] max off buf Hv) as (rc & buf' & E & H');
      [done|done|simpl app; lia|by right|simpl; lia|].
    change (wires []) with (@nil Z) in E. rewrite splice_nil in E by lia. exists rc, buf'. by split.
  - unfold encode_array_of, XDR_array_encoder. rewrite Nat2Z.id. cbv iota zeta. exists 0.
    apply (array_size_loop l [] max 0 buf Hv). simpl app. lia.
Qed.
End ArraySized.

(** ** Decoders stay inside their source *)

(** On any bytes, with [max] of them there: no fault, and no more than [max]
    bytes used. *)
Definition dec_in {A} (max : Z) (r : dres A) : Prop :=
  match r with DFault => False | DErr rc => rc < 0 | DOk used _ => 0 <= used <= max end.

Class SafeDecoder {A} (d : Decoder A) (lenok : sptr Z -> Prop) := {
  dec_safe : forall src old max len,
    lenok len -> 0 <= max <= zlen src -> max < 2 ^ 32 -> dec_in max (d src (Some old) max len)
}.

Definition any_len (_ : sptr Z) : Prop := True.

Lemma load_in src n : 0 <= n <= zlen src -> exists bs, load src n = Some bs /\ zlen bs = n.
Proof.
  intros H. unfold load. rewrite (proj2 (Z.leb_le _ _)) by lia. eexists. split; [done|].
  rewrite length_take. lia.
Qed.

Lemma decode_uint32_in src old max len :
  0 <= max <= zlen src ->
  match XDR_decode_uint32 src (Some old) max len with
  | DFault => False | DErr rc => rc = -1 /\ max < 4 | DOk used v => used = 4 /\ 4 <= max /\ 0 <= v < 2 ^ 32
  end.
Proof.
  intros H. unfold XDR_decode_uint32. destruct (Z.ltb_spec max 4) as [Hm|Hm]; [lia|].
  destruct (load_in src 4) as (bs & -> & _); [lia|]. simpl dstore. cbv iota.
  pose proof (htonl_range (le_value bs)). lia.
Qed.

Lemma decode_int32_in src old max len :
  0 <= max <= zlen src ->
  match XDR_decode_int32 src (Some old) max len with
  | DFault => False | DErr rc => rc = -1 /\ max < 4 | DOk used v => used = 4 /\ 4 <= max
  end.
Proof.
  intros H. unfold XDR_decode_int32. destruct (Z.ltb_spec max 4) as [Hm|Hm]; [lia|].
  destruct (load_in src 4) as (bs & -> & _); [lia|]. simpl dstore. cbv iota. lia.
Qed.

#[export] Instance uint32_safe : SafeDecoder XDR_decode_uint32 any_len.
Proof.
  split. intros src old max len _ H Hm. pose proof (decode_uint32_in src old max len H) as Hd.
  destruct (XDR_decode_uint32 _ _ _ _); simpl; lia.
Qed.

#[export] Instance int32_safe : SafeDecoder XDR_decode_int32 any_len.
Proof.
  split. intros src old max len _ H Hm. pose proof (decode_int32_in src old max len H) as Hd.
  destruct (XDR_decode_int32 _ _ _ _); simpl; lia.
Qed.

Lemma halves_in dec_hi src old max :
  8 <= max <= zlen src -> max < 2 ^ 64 ->
  match dec_hi src (Some 0) max SNull with
  | DFault => False | DErr rc => rc = -1 /\ max < 4 | DOk used v => used = 4 /\ 4 <= max
  end -> dec_in max (decode_halves dec_hi src (Some old) max).
Proof.
  intros H Hm Hd. unfold decode_halves. destruct (dec_hi _ _ _ _) as [|rc|used hi]; [done|simpl; lia|].
  destruct Hd as [-> _]. rewrite u64_small by lia.
  pose proof (decode_uint32_in (drop (Z.to_nat 4) src) 0 (max - 4) SNull) as Hl.
  rewrite length_drop in Hl. specialize (Hl ltac:(lia)).
  destruct (XDR_decode_uint32 _ _ _ _); [done|simpl; lia|simpl; lia].
Qed.

#[export] Instance uint64_safe : SafeDecoder XDR_decode_uint64 any_len.
Proof.
  split. intros src old max len _ H Hm. unfold XDR_decode_uint64.
  destruct (Z.ltb_spec max 8); [simpl; lia|]. apply halves_in; [lia|lia|].
  pose proof (decode_uint32_in src 0 max SNull H) as Hd.
  destruct (XDR_decode_uint32 _ _ _ _); tauto.
Qed.

#[export] Instance int64_safe : SafeDecoder XDR_decode_int64 any_len.
Proof.
  split. intros src old max len _ H Hm. unfold XDR_decode_int64.
  destruct (Z.ltb_spec max 8); [simpl; lia|]. apply halves_in; [lia|lia|].
  exact (decode_int32_in src 0 max SNull H).
Qed.

Lemma raw_safe size : 0 <= size -> SafeDecoder (decode_raw size) any_len.
Proof.
  intros Hs. split. intros src old max len _ H Hm. unfold decode_raw.
  destruct (Z.ltb_spec max size); [simpl; lia|].
  destruct (load_in src size) as (bs & -> & _); [lia|]. simpl. lia.
Qed.

#[export] Instance float_safe : SafeDecoder XDR_decode_float any_len.
Proof. apply raw_safe. lia. Qed.

#[export] Instance double_safe : SafeDecoder XDR_decode_double any_len.
Proof. apply raw_safe. lia. Qed.

(** The decoders of strings and byte arrays do not look at what malloc
    returns. *)
Definition malloc_works (malloc : Z -> bool) : Prop := forall n, 0 <= n < 2 ^ 32 -> malloc n = true.

Definition int_len (len : sptr Z) : Prop := exists n, len = SObj n /\ - 2 ^ 31 <= n < 2 ^ 31.

(** Lengths a byte array can be decoded with. *)
Definition byte_len_ok (len : sptr Z) : Prop :=
  exists n, len = SObj n /\ - 2 ^ 31 <= n < 2 ^ 31 /\ ~ (-4 < n < 0).

Lemma rem_range a : -4 < Z.rem a 4 < 4 /\ (0 <= a -> 0 <= Z.rem a 4) /\ (a <= 0 -> Z.rem a 4 <= 0) /\
  exists k, a = 4 * k + Z.rem a 4.
Proof.
  pose proof (Z.quot_rem' a 4). pose proof (Z.rem_bound_abs a 4). pose proof (Z.rem_nonneg a 4).
  pose proof (Z.rem_nonpos a 4). split_and!; try lia. exists (a ÷ 4). lia.
Qed.

(** A negative length that survives the check is one of three. *)
Lemma byte_sum n : - 2 ^ 31 <= n < 2 ^ 31 -> n < 0 -> 
  (u64 (s32 (n + byte_padding n)) = 0 /\ -4 < n) \/ 2 ^ 63 <= u64 (s32 (n + byte_padding n)).
Proof.
  intros H Hn. destruct (rem_range n) as (R1 & _ & R2 & k & R3).
  assert (Hp : 0 <= byte_padding n < 4 /\ exists j, n + byte_padding n = 4 * j).
  { unfold byte_padding. set (x := 4 - Z.rem n 4) in *. destruct (rem_range x) as (X1 & X2 & _ & j & X3).
    split; [lia|]. exists (k + 1 - j). lia. }
  destruct Hp as [Hp [j Hj]]. unfold s32. rewrite Z.mod_small by lia.
  destruct (decide (-4 < n)) as [H4|H4].
  - left. assert (n + byte_padding n = 0) as -> by lia. done.
  - right. unfold u64. replace (n + byte_padding n + 2 ^ 31 - 2 ^ 31) with (4 * j) by lia.
    rewrite <- (Z.mod_add _ 1), Z.mod_small by lia. lia.
Qed.

Section AllocatingSafe.
Context (malloc : Z -> bool) (Hmalloc : malloc_works malloc).

Lemma string_safe : SafeDecoder (XDR_decode_string_array malloc) any_len.
Proof.
  split. intros src old max len _ H Hm. unfold XDR_decode_string_array.
  pose proof (decode_uint32_in src 0 max SNull H) as Hd.
  destruct (XDR_decode_uint32 _ _ _ _) as [|rc|used n]; [done|simpl; lia|].
  destruct Hd as (-> & H4 & Hn). pose proof (pad4_range n). cbv zeta.
  rewrite (u64_small (4 + n + _)) by lia.
  destruct (Z.ltb_spec max (4 + n + pad4 n)); [simpl; lia|].
  destruct (load_in (drop (Z.to_nat 4) src) n) as (bs & -> & _); [rewrite length_drop; lia|].
  rewrite (u32_small (n + 1)) by lia. rewrite Hmalloc by lia.
  rewrite (proj2 (Z.ltb_lt _ _)) by lia. simpl andb. cbv iota. unfold dstore.
  rewrite u32_small by lia. rewrite u64_small by lia. simpl. lia.
Qed.

Lemma bytes_safe : SafeDecoder (XDR_decode_byte_array malloc) byte_len_ok.
Proof.
  split. intros src old max len (n & -> & Hn & Hneg) H Hm. unfold XDR_decode_byte_array. cbv zeta.
  destruct (decide (n < 0)) as [Hlt|Hge].
  { destruct (byte_sum n Hn Hlt) as [[_ ?]|Hbig]; [lia|].
    rewrite (proj2 (Z.leb_le _ _)) by lia. simpl. lia. }
  pose proof (pad4_range n) as Hp. rewrite (byte_padding_pad4 n) by lia.
  destruct (decide (n + pad4 n < 2 ^ 31)) as [Hs|Hs].
  - assert (Hu : u64 (s32 (n + pad4 n)) = n + pad4 n)
      by (unfold s32; rewrite Z.mod_small by lia; rewrite u64_small; lia).
    rewrite Hu. destruct (Z.leb_spec max (n + pad4 n)); [simpl; lia|].
    rewrite u64_small by lia. destruct (load_in src n) as (bs & -> & _); [lia|].
    rewrite Hmalloc by lia. simpl. lia.
  - assert (Hu : 2 ^ 63 <= u64 (s32 (n + pad4 n))).
    { unfold s32. rewrite <- (Z.mod_add _ (-1)), Z.mod_small by lia.
      unfold u64. rewrite <- (Z.mod_add _ 1), Z.mod_small by lia. lia. }
    rewrite (proj2 (Z.leb_le _ _)) by lia. simpl. lia.
Qed.
End AllocatingSafe.

Lemma array_decode_in {A} (d : Decoder A) junk n src max dec_len out :
  (forall src' max', 0 <= max' <= zlen src' -> max' < 2 ^ 32 -> dec_in max' (d src' (Some junk) max' SNull)) ->
  0 <= dec_len <= max -> max <= zlen src -> max < 2 ^ 32 ->
  dec_in max (array_decode_loop junk d src max n dec_len out).
Proof.
  intros Hd. revert dec_len out. induction n as [|n IH]; intros dec_len out H1 H2 H3; [simpl; lia|].
  cbn [array_decode_loop]. rewrite u64_small by lia.
  pose proof (Hd (drop (Z.to_nat dec_len) src) (max - dec_len)) as He.
  rewrite length_drop in He. specialize (He ltac:(lia) ltac:(lia)).
  destruct (d _ _ _ _) as [|rc|sz v]; simpl in He; [done|simpl; lia|].
  rewrite u64_small by lia. apply IH; lia.
Qed.

#[export] Instance array_safe {A} (d : Decoder A) malloc junk increment `{HS : !SafeDecoder d any_len} :
  SafeDecoder (decode_array_of malloc junk increment d) int_len.
Proof.
  split. intros src old max len (n & -> & Hn) H Hm. unfold decode_array_of, XDR_array_decoder.
  destruct (malloc _); simpl negb; cbv iota; [|simpl; lia].
  apply array_decode_in; try lia. intros. by apply dec_safe.
Qed.

(** ** Theorems *)

(** Encoding [a] at [off] succeeds with [n] bytes, changes only those, and
    decoding from there gives [a] back. *)
Definition roundtrips {A} (e : Encoder A) (d : Decoder A) (n : Z) (a : A) (off max : Z) (len : sptr Z)
    (buf : list Z) : Prop :=
  exists buf', e (SObj a) (DBuf off) max len buf = ERet 0 n buf' /\ untouched off n buf buf' /\
    forall old, d (drop (Z.to_nat off) buf') (Some old) max len = DOk n a.

Lemma codec_roundtrip {A} {e : Encoder A} {d wire slack valid} `{!Codec e d wire slack valid} a off max len buf :
  valid len a -> 0 <= off -> off + max <= zlen buf -> zlen (wire a) + slack <= max -> max < 2 ^ 64 ->
  roundtrips e d (zlen (wire a)) a off max len buf.
Proof.
  intros Hv Ho Hb Hf Hm. pose proof (slack_nonneg (e := e)) as Hsl. exists (splice buf off (wire a)). split_and!.
  - by apply enc_ok.
  - apply untouched_splice; lia.
  - intros old. unfold splice. rewrite drop_app_length' by (rewrite length_take; lia).
    by apply dec_ok.
Qed.

Section Claims.
Context (malloc : Z -> bool).

(** Round trip of the scalar types: every value of its range, encoded
    anywhere in a buffer with room for it, takes 4 or 8 bytes, leaves the rest
    of the buffer alone, and is decoded to itself. *)
Theorem xdr_scalar_roundtrip off max len buf v :
  0 <= off -> off + max <= zlen buf -> max < 2 ^ 64 ->
  (0 <= v < 2 ^ 32 -> 4 <= max ->
     roundtrips XDR_encode_uint32 XDR_decode_uint32 4 v off max len buf) /\
  (- 2 ^ 31 <= v < 2 ^ 31 -> 4 <= max ->
     roundtrips XDR_encode_int32 XDR_decode_int32 4 v off max len buf) /\
  (0 <= v < 2 ^ 64 -> 8 <= max ->
     roundtrips XDR_encode_uint64 XDR_decode_uint64 8 v off max len buf) /\
  (- 2 ^ 63 <= v < 2 ^ 63 -> 8 <= max ->
     roundtrips XDR_encode_int64 XDR_decode_int64 8 v off max len buf) /\
  (forall x, zlen x = 4 -> 4 <= max ->
     roundtrips XDR_encode_float XDR_decode_float 4 x off max len buf) /\
  (forall x, zlen x = 8 -> 8 <= max ->
     roundtrips XDR_encode_double XDR_decode_double 8 x off max len buf).
Proof.
  intros Ho Hb Hm.
  assert (H4 : zlen (be32 v) = 4) by (by rewrite be32_length).
  assert (H8 : zlen (be64 v) = 8) by (by rewrite be64_length).
  split_and!; intros.
  1,2: rewrite <- H4; apply (codec_roundtrip v); try done; lia.
  1,2: rewrite <- H8; apply (codec_roundtrip v); try done; lia.
  all: rewrite <- H; apply (codec_roundtrip (wire := fun bs => bs) x); try done; lia.
Qed.

(** Round trip of strings and byte arrays: padded to four bytes with
    zeros, and decoded to themselves.  A byte array needs one byte of room more
    than its encoding takes. *)
Theorem xdr_string_roundtrip off max len buf s :
  0 <= off -> off + max <= zlen buf -> max < 2 ^ 64 ->
  (cstr s = s -> zlen s + 8 < 2 ^ 32 -> malloc (zlen s + 1) = true -> 4 + zlen s + pad4 (zlen s) <= max ->
     roundtrips XDR_encode_string_array (XDR_decode_string_array malloc) (4 + zlen s + pad4 (zlen s))
       (Some s) off max len buf) /\
  (zlen s + 4 < 2 ^ 31 -> malloc (zlen s) = true -> zlen s + pad4 (zlen s) < max ->
     roundtrips XDR_encode_byte_array (XDR_decode_byte_array malloc) (zlen s + pad4 (zlen s))
       (Some s) off max (SObj (zlen s)) buf) /\
  (zlen s + 4 < 2 ^ 31 -> max = zlen s + pad4 (zlen s) ->
     XDR_encode_byte_array (SObj (Some s)) (DBuf off) max (SObj (zlen s)) buf = ERet (-1) max buf).
Proof.
  intros Ho Hb Hm. pose proof (pad4_range (zlen s)). split_and!.
  - intros Hs Hl Hal Hfit. pose proof (string_wire_length s) as Hw. rewrite Hs in Hw. rewrite <- Hw.
    apply (codec_roundtrip (valid := string_valid malloc) (Some s)); try done; lia.
  - intros Hl Hal Hfit. pose proof (bytes_wire_length s) as Hw. rewrite <- Hw.
    apply (codec_roundtrip (valid := bytes_valid malloc) (Some s)); try done; lia.
  - intros Hl ->. unfold XDR_encode_byte_array. cbv zeta. rewrite bytes_used by lia. simpl dst_null.
    cbv iota. by rewrite (proj2 (Z.leb_le _ _)) by lia.
Qed.

Lemma wires_const {A} (wire : A -> list Z) k l :
  (forall a, length (wire a) = k) -> zlen (concat (wire <$> l)) = Z.of_nat k * zlen l.
Proof.
  intros Hk. induction l as [|a l IH]; [simpl; lia|]. rewrite fmap_cons. cbn [concat length].
  rewrite length_app, Hk. lia.
Qed.

(** Round trip of arrays of integers: the elements one after the other,
    each in its own encoding, and the decoder, told the same length, gives the
    array back. *)
Theorem xdr_array_roundtrip off max buf l :
  0 <= off -> off + max <= zlen buf -> max < 2 ^ 63 -> zlen l < 2 ^ 31 ->
  (Forall (fun v => 0 <= v < 2 ^ 32) l -> malloc (4 * zlen l) = true -> 4 * zlen l <= max ->
     roundtrips XDR_encode_uint32_array (XDR_decode_uint32_array malloc) (4 * zlen l) (Some l)
       off max (SObj (zlen l)) buf) /\
  (Forall (fun v => - 2 ^ 31 <= v < 2 ^ 31) l -> malloc (4 * zlen l) = true -> 4 * zlen l <= max ->
     roundtrips XDR_encode_int32_array (XDR_decode_int32_array malloc) (4 * zlen l) (Some l)
       off max (SObj (zlen l)) buf) /\
  (Forall (fun v => 0 <= v < 2 ^ 64) l -> malloc (8 * zlen l) = true -> 8 * zlen l <= max ->
     roundtrips XDR_encode_uint64_array (XDR_decode_uint64_array malloc) (8 * zlen l) (Some l)
       off max (SObj (zlen l)) buf) /\
  (Forall (fun v => - 2 ^ 63 <= v < 2 ^ 63) l -> malloc (8 * zlen l) = true -> 8 * zlen l <= max ->
     roundtrips XDR_encode_int64_array (XDR_decode_int64_array malloc) (8 * zlen l) (Some l)
       off max (SObj (zlen l)) buf).
Proof.
  intros Ho Hb Hm Hn.
  assert (H4 : zlen (concat (be32 <$> l)) = 4 * zlen l) by exact (wires_const be32 4 l be32_length).
  assert (H8 : zlen (concat (be64 <$> l)) = 8 * zlen l) by exact (wires_const be64 8 l be64_length).
  split_and!; intros Hf Hal Hfit.
  1,2: rewrite <- H4.
  3,4: rewrite <- H8.
  all: apply (codec_roundtrip (Codec0 := array_codec malloc _ _) (Some l)); try done; try lia.
  all: first [simpl array_wire; lia | cbn [array_valid]; split_and!; try done; try lia].
  all: rewrite u64_small by lia; rewrite Z.mul_comm; exact Hal.
Qed.

(** Room that is too small: the encoders of integer arrays return an
    error and the size the encoding needs, and write nothing outside the room;
    with a NULL destination they return 0 and that size. *)
Theorem xdr_array_short off max buf l :
  0 <= off -> 0 <= max < 2 ^ 64 -> off + max <= zlen buf -> zlen l < 2 ^ 31 ->
  (Forall (fun v => 0 <= v < 2 ^ 32) l ->
     XDR_encode_uint32_array (SObj (Some l)) (DNull 0) max (SObj (zlen l)) buf = ERet 0 (4 * zlen l) buf /\
     (max < 4 * zlen l -> exists rc buf',
        XDR_encode_uint32_array (SObj (Some l)) (DBuf off) max (SObj (zlen l)) buf
          = ERet rc (4 * zlen l) buf' /\ rc < 0 /\ untouched off max buf buf')) /\
  (Forall (fun v => - 2 ^ 63 <= v < 2 ^ 63) l ->
     XDR_encode_int64_array (SObj (Some l)) (DNull 0) max (SObj (zlen l)) buf = ERet 0 (8 * zlen l) buf /\
     (max < 8 * zlen l -> exists rc buf',
        XDR_encode_int64_array (SObj (Some l)) (DBuf off) max (SObj (zlen l)) buf
          = ERet rc (8 * zlen l) buf' /\ rc < 0 /\ untouched off max buf buf')).
Proof.
  intros Ho Hm Hb Hn.
  assert (H4 : zlen (concat (be32 <$> l)) = 4 * zlen l) by exact (wires_const be32 4 l be32_length).
  assert (H8 : zlen (concat (be64 <$> l)) = 8 * zlen l) by exact (wires_const be64 8 l be64_length).
  split; intros Hf; [rewrite <- H4|rewrite <- H8]; split; intros.
  1,3: unfold XDR_encode_uint32_array, XDR_encode_int64_array, encode_array_of, XDR_array_encoder;
    rewrite Nat2Z.id; cbv iota zeta; apply (array_size_loop l [] max 0 buf Hf); simpl app; lia.
  all: apply (enc_short (SizedEncoder := array_sized (fun _ => true) 1) (Some l)); try done; [|cbn [array_wire]; lia].
  all: split_and!; done || lia.
Qed.

(** C32. The decoders are safe on any input of less than 4 GiB: with [max]
    bytes there, whatever they hold and whatever length another field gives,
    they do not read past them, and report no more than [max] bytes used,
    provided that malloc succeeds for sizes below 4 GiB (the decoders of
    strings and byte arrays use its result untested). A byte array is safe for
    every length except -1, -2 and -3. *)
Theorem xdr_decoders_safe src max n :
  malloc_works malloc -> 0 <= max <= zlen src -> max < 2 ^ 32 -> - 2 ^ 31 <= n < 2 ^ 31 ->
  (forall v, dec_in max (XDR_decode_uint32 src (Some v) max (SObj n)) /\
     dec_in max (XDR_decode_int32 src (Some v) max (SObj n)) /\
     dec_in max (XDR_decode_uint64 src (Some v) max (SObj n)) /\
     dec_in max (XDR_decode_int64 src (Some v) max (SObj n))) /\
  (forall p, dec_in max (XDR_decode_string_array malloc src (Some p) max (SObj n)) /\
     (~ (-4 < n < 0) -> dec_in max (XDR_decode_byte_array malloc src (Some p) max (SObj n))) /\
     dec_in max (XDR_decode_uint32_array malloc src (Some p) max (SObj n)) /\
     dec_in max (XDR_decode_int64_array malloc src (Some p) max (SObj n))) /\
  (forall p, dec_in max (XDR_decode_float_array malloc src (Some p) max (SObj n)) /\
     dec_in max (XDR_decode_double_array malloc src (Some p) max (SObj n))).
Proof.
  intros Hal Hm Hlt Hn. pose proof (string_safe malloc Hal) as Hstr.
  pose proof (bytes_safe malloc Hal) as Hby.
  assert (Hlen : int_len (SObj n)) by (by exists n).
  split_and!; intros p; split_and!; intros; try (by apply dec_safe).
  apply dec_safe; [|done|done]. by exists n.
Qed.

(** A length of -1, -2 or -3 for a byte array passes the check of the
    decoder, whatever the room, and faults. *)
Theorem xdr_byte_len_faults src old max n :
  -4 < n < 0 -> 0 < max -> zlen src < 2 ^ 63 ->
  XDR_decode_byte_array malloc src (Some old) max (SObj n) = DFault.
Proof.
  intros Hn Hm Hs. unfold XDR_decode_byte_array. cbv zeta.
  destruct (byte_sum n) as [[Hu _]|Hu]; [lia|lia| |].
  - rewrite Hu, (proj2 (Z.leb_gt _ _)) by lia.
    assert (2 ^ 63 <= u64 n) by (unfold u64; rewrite <- (Z.mod_add _ 1), Z.mod_small by lia; lia).
    unfold load. by rewrite (proj2 (Z.leb_gt _ _)) by lia.
  - assert (n = -1 \/ n = -2 \/ n = -3) as [ -> | [ -> | -> ] ] by lia; vm_compute in Hu; congruence.
Qed.
End Claims.

(** What the encoder of floats does to a double. *)
Lemma float_of_double : Encodes XDR_encode_float (take 4) 0 (raw_valid 8).
Proof.
  split; [lia|]. unfold raw_valid. intros a * Hv Ho Hb Hf Hm.
  assert (H4 : zlen (take 4 a) = 4) by (rewrite length_take; lia). rewrite H4 in Hf.
  unfold XDR_encode_float, encode_raw. rewrite (proj2 (Z.ltb_ge _ _)) by lia.
  unfold load. rewrite (proj2 (Z.leb_le _ _)) by lia. rewrite H4. apply estore_fits; [lia|].
  change (Z.to_nat 4) with 4%nat. lia.
Qed.

(** The encoder of an array of doubles writes the first four bytes of each
    element only and reports half the size of the array. *)
Theorem xdr_double_array_truncates off max buf (l : list (list Z)) :
  0 <= off -> off + max <= zlen buf -> max < 2 ^ 63 -> zlen l < 2 ^ 31 ->
  Forall (fun x => zlen x = 8) l -> 4 * zlen l <= max ->
  XDR_encode_double_array (SObj (Some l)) (DBuf off) max (SObj (zlen l)) buf
    = ERet 0 (4 * zlen l) (splice buf off (concat (take 4 <$> l))).
Proof.
  intros Ho Hb Hm Hn Hf Hfit.
  assert (Hw : zlen (concat (take 4 <$> l)) = 4 * zlen l).
  { clear -Hf. induction Hf as [|x l Hx Hf IH]; [done|]. rewrite fmap_cons. cbn [concat length].
    rewrite length_app, length_take. lia. }
  rewrite <- Hw. pose proof float_of_double as HE.
  apply (enc_ok (Encodes := array_encodes (fun _ => true) 1) (Some l)); try done; cbn [array_wire]; try lia.
  split_and!; done || lia.
Qed.

(** The size of an array of floats cannot be asked for: with a NULL
    destination and no room, as the callers ask, the second element is copied
    to NULL, because the room that is left has wrapped around. *)
Theorem xdr_float_sizing_faults (x y : list Z) l buf :
  zlen x = 4 -> zlen y = 4 -> zlen l < 2 ^ 31 - 2 ->
  XDR_encode_float_array (SObj (Some (x :: y :: l))) (DNull 0) 0 (SObj (zlen (x :: y :: l))) buf = EFault.
Proof.
  intros Hx Hy Hl. unfold XDR_encode_float_array, encode_array_of, XDR_array_encoder.
  rewrite Nat2Z.id. cbv iota zeta. cbn [length array_encode_loop element].
  change ((x :: y :: l) !! 0%nat) with (Some x). change ((x :: y :: l) !! 1%nat) with (Some y).
  cbv iota beta. change (XDR_encode_float (SObj x) _ (u64 (0 - 0)) SNull buf) with (ERet (-1) 4 buf).
  cbv iota zeta. change (u64 (0 - u64 (0 + 4))) with (2 ^ 64 - 4).
  unfold XDR_encode_float, encode_raw. change (2 ^ 64 - 4 <? 4) with false. cbv iota.
  rewrite <- Hy, load_all. destruct y as [|b y]; [done|]. done.
Qed.

(** ** Witnesses *)

Definition demo_buf : list Z := replicate 32 7.

Lemma xdr_scalar_roundtrip_witness :
  roundtrips XDR_encode_int32 XDR_decode_int32 4 (-5) 3 20 SNull demo_buf /\
  roundtrips XDR_encode_uint64 XDR_decode_uint64 8 258 3 20 SNull demo_buf.
Proof.
  split.
  - apply (xdr_scalar_roundtrip 3 20 SNull demo_buf (-5)); [lia|vm_compute; congruence|lia|lia|lia].
  - apply (xdr_scalar_roundtrip 3 20 SNull demo_buf 258); [lia|vm_compute; congruence|lia|lia|lia].
Defined.

Lemma xdr_string_roundtrip_witness :
  roundtrips XDR_encode_string_array (XDR_decode_string_array (fun _ => true)) 12 (Some [104; 101; 108; 108; 111])
    3 20 SNull demo_buf.
Proof.
  apply (xdr_string_roundtrip (fun _ => true) 3 20 SNull demo_buf [104; 101; 108; 108; 111]);
    [lia|vm_compute; congruence|lia|reflexivity|reflexivity|reflexivity|vm_compute; congruence].
Defined.

Lemma xdr_array_roundtrip_witness :
  roundtrips XDR_encode_int32_array (XDR_decode_int32_array (fun _ => true)) 12 (Some [1; -2; 3])
    3 20 (SObj 3) demo_buf.
Proof.
  apply (xdr_array_roundtrip (fun _ => true) 3 20 demo_buf [1; -2; 3]);
    [lia|vm_compute; congruence|lia|reflexivity| |reflexivity|vm_compute; congruence].
  repeat constructor; lia.
Defined.

Lemma xdr_array_short_witness :
  exists rc buf', XDR_encode_uint32_array (SObj (Some [1; 2; 3])) (DBuf 3) 9 (SObj 3) demo_buf
    = ERet rc 12 buf' /\ rc < 0 /\ untouched 3 9 demo_buf buf'.
Proof.
  apply (xdr_array_short 3 9 demo_buf [1; 2; 3]); [lia|lia|vm_compute; congruence|reflexivity| |reflexivity].
  repeat constructor; lia.
Defined.

Lemma xdr_decoders_safe_witness :
  dec_in 6 (XDR_decode_string_array (fun _ => true) [0; 0; 0; 9; 1; 2] (Some None) 6 (SObj 0)).
Proof.
  apply (xdr_decoders_safe (fun _ => true) [0; 0; 0; 9; 1; 2] 6 0);
    [by intros|vm_compute; split; congruence|lia|lia].
Defined.

Lemma xdr_byte_len_faults_witness :
  XDR_decode_byte_array (fun _ => true) demo_buf (Some None) 20 (SObj (-1)) = DFault.
Proof. apply (xdr_byte_len_faults (fun _ => true)); [lia|lia|vm_compute; reflexivity]. Defined.

Lemma xdr_double_array_truncates_witness :
  exists buf', XDR_encode_double_array (SObj (Some [[1; 2; 3; 4; 5; 6; 7; 8]])) (DBuf 0) 16 (SObj 1) demo_buf
    = ERet 0 4 buf'.
Proof.
  eexists. apply (xdr_double_array_truncates 0 16 demo_buf [[1; 2; 3; 4; 5; 6; 7; 8]]);
    [lia|vm_compute; congruence|lia|reflexivity| |vm_compute; congruence].
  repeat constructor.
Defined.

Lemma xdr_float_sizing_faults_witness :
  XDR_encode_float_array (SObj (Some [[0; 0; 0; 1]; [0; 0; 0; 2]])) (DNull 0) 0 (SObj 2) [] = EFault.
Proof. apply (xdr_float_sizing_faults [0; 0; 0; 1] [0; 0; 0; 2] [] []); reflexivity. Defined.
