(* ===== verification/XdrStruct.v ===== *)
(** * XDR structures, bit fields, unions and the type registry (xdr.c)

    A structure is described by a table of fields; its encoder and decoder
    walk the table and call the functions of each field's type.  The
    structures of a program are the values of a type [Obj]; a field reads and
    writes a part of such a value.  A union is a type number and a pointer to a
    structure, whose definition is found in a hash table of registered
    definitions. *)

From stdpp Require Import base gmap list numbers.
From Stdlib Require Import ZArith Lia.
From S2P Require Import Prelude HashTable Words CStr XdrCodec.
Open Scope Z_scope.

(** ** Field tables *)

(** [struct XDR_FieldDefinition]: the decoder and encoder of [funcs], the
    offsets, and the access to the parts of a structure at [offset] and, for
    the length, at [len_offset].  For a bit field [struct_id] and [len_offset]
    are its position and width. *)
Record FieldDefinition (Obj : Type) := FD {
  f_type : Type;
  f_decoder : Decoder f_type;
  f_encoder : Encoder f_type;
  offset : Z;
  len_offset : Z;
  struct_id : Z;
  f_get : Obj -> f_type;
  f_set : Obj -> f_type -> Obj;
  f_len : Obj -> Z
}.
Arguments FD {Obj}.
Arguments f_type {Obj}.
Arguments f_decoder {Obj}.
Arguments f_encoder {Obj}.
Arguments offset {Obj}.
Arguments len_offset {Obj}.
Arguments struct_id {Obj}.
Arguments f_get {Obj}.
Arguments f_set {Obj}.
Arguments f_len {Obj}.

(** [(1 << width) - 1]; the processor takes the shift count modulo 32. *)
Definition bf_mask (width : Z) : Z := Z.shiftl 1 (width mod 32) - 1.

Definition XDR_encodebf_uint32 : Encoder Z := fun src dst max _ buf =>
  match src with
  | SObj v => estore 0 0 buf dst (le_bytes 4 (Z.land v (bf_mask max)))
  | _ => EFault
  end.

Definition XDR_decodebf_uint32 : Decoder Z := fun src dst max _ =>
  match load src 4 with
  | Some bs => dstore 0 dst (Z.land (le_value bs) (bf_mask max))
  | None => DFault
  end.

Definition XDR_decodebf_int32 : Decoder Z := fun src dst max _ =>
  match load src 4 with
  | Some bs =>
      let x := le_value bs in
      let neg := negb (Z.land (Z.shiftl 1 ((max - 1) mod 32)) x =? 0) in
      let res := if neg then Z.land (-1) (Z.lnot (bf_mask max)) else 0 in
      dstore 0 dst (s32 (Z.lor res (Z.land x (bf_mask max))))
  | None => DFault
  end.

Section Structs.
Context {Obj : Type}.

(** [src + field->offset] and [src + field->len_offset]. *)
Definition field_ptr (f : FieldDefinition Obj) (src : sptr Obj) : sptr (f_type f) :=
  match src with
  | SObj o => SObj (f_get f o)
  | SNull => if offset f =? 0 then SNull else SWild
  | SWild => SWild
  end.

Definition len_ptr (f : FieldDefinition Obj) (src : sptr Obj) : sptr Z :=
  match src with
  | SObj o => SObj (f_len f o)
  | SNull => if len_offset f =? 0 then SNull else SWild
  | SWild => SWild
  end.

Fixpoint struct_decode_loop (fields : list (FieldDefinition Obj)) (src : list Z) (max used : Z) (dst : Obj)
    : dres Obj :=
  match fields with
  | [] => DOk used dst
  | f :: fields' =>
      match f_decoder f (drop (Z.to_nat used) src) (Some (f_get f dst)) (u64 (max - used))
              (SObj (f_len f dst)) with
      | DFault => DFault
      | DErr _ => DErr (-1)
      | DOk len v => struct_decode_loop fields' src max (u64 (used + len)) (f_set f dst v)
      end
  end.

(** The field table ends at its sentinel, and may be NULL. *)
Definition XDR_struct_decoder (arg : option (list (FieldDefinition Obj))) (src : list Z) (dst : Obj) (max : Z)
    : dres Obj :=
  match arg with
  | None => DErr (-1)
  | Some fields => struct_decode_loop fields src max 0 dst
  end.

Fixpoint struct_encode_loop (fields : list (FieldDefinition Obj)) (src : sptr Obj) (dst : dptr)
    (max used res : Z) (buf : list Z) : eres :=
  match fields with
  | [] => ERet res used buf
  | f :: fields' =>
      if dst_null dst || (res <? 0) then
        match f_encoder f (field_ptr f src) (DNull 0) max (len_ptr f src) buf with
        | EFault => EFault
        | ERet _ len b => struct_encode_loop fields' src dst max (u64 (used + len)) res b
        end
      else
        match f_encoder f (field_ptr f src) (dadd dst used) (u64 (max - used)) (len_ptr f src) buf with
        | EFault => EFault
        | ERet rc len b => struct_encode_loop fields' src dst max (u64 (used + len)) rc b
        end
  end.

Definition XDR_struct_encoder (arg : option (list (FieldDefinition Obj))) (src : sptr Obj) (dst : dptr) (max : Z)
    (buf : list Z) : eres :=
  match arg with
  | None => ERet 0 0 buf
  | Some fields => struct_encode_loop fields src dst max 0 0 buf
  end.

(** ** Bit fields: one 32-bit word for the whole structure *)

(** The fields are decoded from a local copy of their bits. *)
Fixpoint bf_decode_loop (fields : list (FieldDefinition Obj)) (val : Z) (inc : Z) (dst : Obj) : dres Obj :=
  match fields with
  | [] => DOk inc dst
  | f :: fields' =>
      let tmp := Z.land (Z.shiftr val (struct_id f mod 32)) (bf_mask (len_offset f)) in
      match f_decoder f (le_bytes 4 tmp) (Some (f_get f dst)) (len_offset f) SNull with
      | DFault => DFault
      | DErr _ => DErr (-1)
      | DOk _ v => bf_decode_loop fields' val inc (f_set f dst v)
      end
  end.

Definition XDR_bitfield_struct_decoder (arg : option (list (FieldDefinition Obj))) (src : list Z) (dst : Obj)
    (max : Z) : dres Obj :=
  match XDR_decode_uint32 src (Some 0) max SNull with
  | DFault => DFault
  | DErr _ => DErr (-1)
  | DOk inc val =>
      match arg with
      | None => DErr (-1)
      | Some fields => bf_decode_loop fields val inc dst
      end
  end.

(** Each field is encoded into the local word [tmp], which is zero before. *)
Fixpoint bf_encode_loop (fields : list (FieldDefinition Obj)) (src : sptr Obj) (val : Z) : option Z :=
  match fields with
  | [] => Some val
  | f :: fields' =>
      match f_encoder f (field_ptr f src) (DBuf 0) (len_offset f) SNull (le_bytes 4 0) with
      | EFault => None
      | ERet _ _ word =>
          let tmp := Z.land (le_value word) (bf_mask (len_offset f)) in
          bf_encode_loop fields' src (Z.lor val (u32 (Z.shiftl tmp (struct_id f mod 32))))
      end
  end.

Definition XDR_bitfield_struct_encoder (arg : option (list (FieldDefinition Obj))) (src : sptr Obj) (dst : dptr)
    (max : Z) (buf : list Z) : eres :=
  match arg with
  | None => ERet 0 0 buf
  | Some fields =>
      match bf_encode_loop fields src 0 with
      | None => EFault
      | Some val => XDR_encode_uint32 (SObj val) dst max SNull buf
      end
  end.

(** ** Definitions of structures, and unions *)

(** [struct XDR_StructDefinition]: the encoder and decoder, which may be NULL,
    with [arg] applied; the result of the allocator; the populator, its
    argument and the print function by address. *)
Record StructDefinition := SD {
  sd_type : Z;
  in_memory_size : Z;
  sd_encoder : option (sptr Obj -> dptr -> Z -> list Z -> eres);
  sd_decoder : option (list Z -> Obj -> Z -> dres Obj);
  sd_allocator : option Obj;
  print_func : option Z;
  populate : option Z;
  populate_arg : Z
}.

(** [XDR_malloc_allocator]: zeroed memory of the size of the structure. *)
Definition XDR_malloc_allocator (malloc : Z -> bool) (zeroed : Z -> Obj) (in_memory_size : Z) : option Obj :=
  if in_memory_size =? 0 then None
  else if malloc in_memory_size then Some (zeroed in_memory_size) else None.

Record XDR_Union := XUnion { u_type : Z; u_data : sptr Obj }.

Section Unions.
Context (XDR_definition_for_type : Z -> option StructDefinition).

Definition XDR_encode_union : Encoder XDR_Union := fun src dst max _ buf =>
  match src with
  | SObj u =>
      match XDR_encode_uint32 (SObj (u_type u)) dst max SNull buf with
      | EFault => EFault
      | ERet res used b =>
          match XDR_definition_for_type (u_type u) ≫= sd_encoder with
          | None => ERet (-1) used b
          | Some enc =>
              let go := negb (dst_null dst) && (0 <=? res) in
              match enc (u_data u) (if go then dadd dst used else DNull 0)
                      (if go then u64 (max - used) else max) b with
              | EFault => EFault
              | ERet res2 used2 b2 =>
                  ERet (if (res <? 0) || (res2 <? 0) then -1 else 0) (u64 (used + used2)) b2
              end
          end
      end
  | _ => EFault
  end.

Definition XDR_decode_union : Decoder XDR_Union := fun src dst max _ =>
  match dst with
  | None => DFault
  | Some _ =>
      match XDR_decode_uint32 src (Some 0) max SNull with
      | DFault => DFault
      | DErr _ => DErr (-1)
      | DOk used type =>
          match XDR_definition_for_type type with
          | None => DErr (-1)
          | Some def =>
              match sd_decoder def with
              | None => DErr (-1)
              | Some dec =>
                  match sd_allocator def with
                  | None => DErr (-1)
                  | Some o =>
                      match dec (drop (Z.to_nat used) src) o (u64 (max - used)) with
                      | DFault => DFault
                      | DErr _ => DErr (-1)
                      | DOk used2 v => DOk (u64 (used + used2)) (XUnion type (SObj v))
                      end
                  end
              end
          end
      end
  end.

Definition XDR_encode_union_array := encode_array_of XDR_encode_union.
Definition XDR_decode_union_array (malloc : Z -> bool) (junk : XDR_Union) :=
  decode_array_of malloc junk 16 XDR_decode_union.
End Unions.

(** ** The registry *)

(** The definitions in memory, and [structHash], a table of pointers to them
    that is made at the first registration. *)
Record registry := Reg { defs : gmap ptr StructDefinition; structHash : option (HashTable Z ptr) }.

Definition xdr_struct_hash_func (key : Z) : Z := key.

Definition xdr_struct_key_for_data (defs : gmap ptr StructDefinition) (data : ptr) : Z :=
  match defs !! data with Some def => sd_type def | None => 0 end.

Definition xdr_struct_cmp_key (key1 key2 : Z) : bool := key1 =? key2.

Definition with_hash (r : registry) (t : option (HashTable Z ptr)) : registry := Reg (defs r) t.

Definition XDR_cleanup (r : registry) : registry := with_hash r None.

(** The two allocations may fail. *)
Definition XDR_register_struct (table_ok node_ok : bool) (r : registry) (def : option ptr) : registry :=
  match def with
  | None => r
  | Some p =>
      let r1 := match structHash r with
                | Some _ => r
                | None => with_hash r (HASH_create_table table_ok 37)
                end in
      match structHash r1 with
      | None => r1
      | Some t =>
          with_hash r1 (Some (HASH_add_data xdr_struct_hash_func xdr_struct_cmp_key
            (xdr_struct_key_for_data (defs r1)) node_ok t (Some p)).2)
      end
  end.

Definition complete (r : registry) (p : ptr) : bool :=
  match defs r !! p with
  | Some def => negb (sd_type def =? 0) && bool_decide (is_Some (sd_encoder def))
                && bool_decide (is_Some (sd_decoder def))
  | None => false
  end.

(** The table of definitions is read up to the first incomplete one. *)
Fixpoint XDR_register_structs (r : registry) (structs : list ptr) : registry :=
  match structs with
  | [] => r
  | p :: rest =>
      if complete r p then XDR_register_structs (XDR_register_struct true true r (Some p)) rest else r
  end.

Definition definition_ptr (r : registry) (type : Z) : option ptr :=
  HASH_find_key xdr_struct_hash_func xdr_struct_cmp_key (structHash r) type.

Definition XDR_definition_for_type (r : registry) (type : Z) : option StructDefinition :=
  p ← definition_ptr r type; defs r !! p.

Definition with_populate (d : StructDefinition) (cb : option Z) (arg : Z) : StructDefinition :=
  SD (sd_type d) (in_memory_size d) (sd_encoder d) (sd_decoder d) (sd_allocator d) (print_func d) cb arg.

Definition with_print (d : StructDefinition) (func : option Z) : StructDefinition :=
  SD (sd_type d) (in_memory_size d) (sd_encoder d) (sd_decoder d) (sd_allocator d) func (populate d) (populate_arg d).

Definition XDR_register_populator (r : registry) (cb : option Z) (arg : Z) (type : Z) : registry :=
  match definition_ptr r type with
  | None => r
  | Some p => Reg (alter (fun d => with_populate d cb arg) p (defs r)) (structHash r)
  end.

(** Returns what [cbOut] and [argOut] receive. *)
Definition XDR_replace_populator (r : registry) (cb : option Z) (arg : Z) (type : Z)
    : (option Z * Z) * registry :=
  match definition_ptr r type ≫= fun p => (fun d => (p, d)) <$> defs r !! p with
  | None => ((None, 0), r)
  | Some (p, d) =>
      ((populate d, populate_arg d), Reg (<[p := with_populate d cb arg]> (defs r)) (structHash r))
  end.

Definition XDR_set_struct_print_function (r : registry) (func : option Z) (type : Z) : registry :=
  match definition_ptr r type with
  | None => r
  | Some p => Reg (alter (fun d => with_print d func) p (defs r)) (structHash r)
  end.
End Structs.
Arguments StructDefinition : clear implicits.
Arguments XDR_Union : clear implicits.
Arguments registry : clear implicits.

(** ** Structures of codecs *)

Section StructCodec.
Context {Obj : Type} (slack : Z).

(** A field with the codec of its type. *)
Record FieldSpec := FS {
  fs_field : FieldDefinition Obj;
  fs_wire : f_type fs_field -> list Z;
  fs_valid : sptr Z -> f_type fs_field -> Prop;
  fs_codec : Codec (f_encoder fs_field) (f_decoder fs_field) fs_wire slack fs_valid
}.

Definition fget (x : FieldSpec) (o : Obj) : f_type (fs_field x) := f_get (fs_field x) o.
Definition field_wire (o : Obj) (x : FieldSpec) : list Z := fs_wire x (fget x o).
Definition struct_wire (l : list FieldSpec) (o : Obj) : list Z := concat (field_wire o <$> l).
Definition field_valid (o : Obj) (x : FieldSpec) : Prop :=
  fs_valid x (SObj (f_len (fs_field x) o)) (fget x o).
Definition agree (l : list FieldSpec) (o o' : Obj) : Prop := forall x, x ∈ l -> fget x o' = fget x o.

(** The layout of a structure: a field reads back what was stored in it,
    storing it keeps the fields before it, and the length it is decoded with
    is among the fields before it, if its encoding depends on one. *)
Definition layout_ok (l : list FieldSpec) : Prop :=
  forall pre x post, l = pre ++ x :: post ->
    (forall o v, fget x (f_set (fs_field x) o v) = v) /\
    (forall y o v, y ∈ pre -> fget y (f_set (fs_field x) o v) = fget y o) /\
    (forall o o', agree pre o o' -> field_valid o x ->
       fs_valid x (SObj (f_len (fs_field x) o')) (fget x o)).

Lemma struct_wire_mid l1 x l2 o :
  zlen (struct_wire (l1 ++ x :: l2) o)
    = zlen (struct_wire l1 o) + zlen (field_wire o x) + zlen (struct_wire l2 o).
Proof.
  unfold struct_wire. rewrite fmap_app, fmap_cons, concat_app. cbn [concat]. rewrite !length_app. lia.
Qed.

Lemma struct_wire_snoc l x o : struct_wire (l ++ [x]) o = struct_wire l o ++ field_wire o x.
Proof. unfold struct_wire. rewrite fmap_app, concat_app. simpl. by rewrite app_nil_r. Qed.

Lemma fs_slack (x : FieldSpec) : 0 <= slack.
Proof. destruct x as [f w v H]. apply (slack_nonneg (e := f_encoder f)). Qed.

Lemma struct_encode_loop_ok post pre o max off buf :
  Forall (field_valid o) post -> 0 <= off -> off + max <= zlen buf -> max < 2 ^ 64 ->
  zlen (struct_wire (pre ++ post) o) + slack <= max ->
  struct_encode_loop (fs_field <$> post) (SObj o) (DBuf off) max (zlen (struct_wire pre o)) 0
    (splice buf off (struct_wire pre o))
  = ERet 0 (zlen (struct_wire (pre ++ post) o)) (splice buf off (struct_wire (pre ++ post) o)).
Proof.
  revert pre. induction post as [|x post IH]; intros pre Hv Ho Hb Hm Hfit.
  { simpl. by rewrite app_nil_r. }
  apply Forall_cons_1 in Hv as [Hx Hv]. pose proof (fs_slack x) as Hsl.
  pose proof (struct_wire_mid pre x post o) as Hlen. rewrite fmap_cons. cbn [struct_encode_loop].
  simpl (dst_null _ || _). cbv iota. rewrite u64_small by lia. simpl dadd. simpl field_ptr. simpl len_ptr.
  rewrite (enc_ok (Encodes := codec_encodes (Codec := fs_codec x)) (f_get (fs_field x) o));
    [|exact Hx|lia| |fold (fget x o); fold (field_wire o x); lia|lia].
  2:{ rewrite splice_length by lia. lia. }
  fold (fget x o). fold (field_wire o x). rewrite u64_small by lia. rewrite splice_splice by lia.
  rewrite <- struct_wire_snoc.
  replace (zlen (struct_wire pre o) + zlen (field_wire o x)) with (zlen (struct_wire (pre ++ [x]) o))
    by (rewrite struct_wire_snoc, length_app; lia).
  replace (pre ++ x :: post) with ((pre ++ [x]) ++ post) in * by (by rewrite <- app_assoc).
  by apply IH.
Qed.

Lemma struct_decode_loop_ok post pre o o' max rest :
  layout_ok (pre ++ post) -> agree pre o o' -> Forall (field_valid o) post -> max < 2 ^ 64 ->
  zlen (struct_wire (pre ++ post) o) + slack <= max ->
  exists o2, struct_decode_loop (fs_field <$> post) (struct_wire (pre ++ post) o ++ rest) max
    (zlen (struct_wire pre o)) o' = DOk (zlen (struct_wire (pre ++ post) o)) o2 /\ agree (pre ++ post) o o2.
Proof.
  revert pre o'. induction post as [|x post IH]; intros pre o' Hlay Hag Hv Hm Hfit.
  { exists o'. rewrite app_nil_r. done. }
  apply Forall_cons_1 in Hv as [Hx Hv]. pose proof (fs_slack x) as Hsl.
  pose proof (struct_wire_mid pre x post o) as Hlen. rewrite fmap_cons. cbn [struct_decode_loop].
  destruct (Hlay pre x post eq_refl) as (L1 & L2 & L3).
  replace (drop (Z.to_nat (zlen (struct_wire pre o))) (struct_wire (pre ++ x :: post) o ++ rest))
    with (field_wire o x ++ struct_wire post o ++ rest)
    by (unfold struct_wire; rewrite fmap_app, fmap_cons, concat_app; cbn [concat];
        by rewrite <- !app_assoc, Nat2Z.id, drop_app_length).
  rewrite (u64_small (max - _)) by lia.
  rewrite (dec_ok (Codec := fs_codec x) (fget x o)); [|by apply L3|fold (field_wire o x); lia|lia].
  fold (field_wire o x). rewrite u64_small by lia.
  replace (zlen (struct_wire pre o) + zlen (field_wire o x)) with (zlen (struct_wire (pre ++ [x]) o))
    by (rewrite struct_wire_snoc, length_app; lia).
  replace (pre ++ x :: post) with ((pre ++ [x]) ++ post) in * by (by rewrite <- app_assoc).
  apply IH; try done. intros y Hy. apply elem_of_app in Hy as [Hy|Hy].
  - rewrite L2 by done. by apply Hag.
  - apply elem_of_cons in Hy as [->|Hy]; [|by apply elem_of_nil in Hy]. apply L1.
Qed.

(** What a structure's pair of functions promises to a union. *)
Class StructCodec (enc : sptr Obj -> dptr -> Z -> list Z -> eres) (dec : list Z -> Obj -> Z -> dres Obj)
    (wire : Obj -> list Z) (valid : Obj -> Prop) (same : Obj -> Obj -> Prop) := {
  struct_slack : 0 <= slack;
  struct_enc_ok : forall o off max buf,
    valid o -> 0 <= off -> off + max <= zlen buf -> zlen (wire o) + slack <= max -> max < 2 ^ 64 ->
    enc (SObj o) (DBuf off) max buf = ERet 0 (zlen (wire o)) (splice buf off (wire o));
  struct_dec_ok : forall o o0 max rest,
    valid o -> zlen (wire o) + slack <= max -> max < 2 ^ 64 ->
    exists o', dec (wire o ++ rest) o0 max = DOk (zlen (wire o)) o' /\ same o o'
}.

Lemma struct_codec l :
  0 <= slack -> layout_ok l ->
  StructCodec (XDR_struct_encoder (Some (fs_field <$> l))) (XDR_struct_decoder (Some (fs_field <$> l)))
    (struct_wire l) (fun o => Forall (field_valid o) l) (agree l).
Proof.
  intros Hsl Hlay. split; [done| |].
  - intros o off max buf Hv Ho Hb Hf Hm. simpl.
    pose proof (struct_encode_loop_ok l [] o max off buf Hv Ho Hb Hm Hf) as E.
    change (struct_wire [] o) with (@nil Z) in E. rewrite splice_nil in E by lia. exact E.
  - intros o o0 max rest Hv Hf Hm. simpl.
    destruct (struct_decode_loop_ok l [] o o0 max rest Hlay) as (o2 & E & Ha); try done.
    { intros y Hy. by apply elem_of_nil in Hy. }
    exists o2. by split.
Qed.

(** C1. Round trip of structures: with fields whose types have codecs and a
    layout in which lengths come before what they describe, the encoder writes
    the encodings of the fields one after the other, and decoding them into
    any structure gives one whose fields are equal. *)
Theorem xdr_struct_roundtrip l o off max buf :
  0 <= slack -> layout_ok l -> Forall (field_valid o) l ->
  0 <= off -> off + max <= zlen buf -> zlen (struct_wire l o) + slack <= max -> max < 2 ^ 64 ->
  exists buf', XDR_struct_encoder (Some (fs_field <$> l)) (SObj o) (DBuf off) max buf
      = ERet 0 (zlen (struct_wire l o)) buf' /\ untouched off (zlen (struct_wire l o)) buf buf' /\
    forall o0, exists o', XDR_struct_decoder (Some (fs_field <$> l)) (drop (Z.to_nat off) buf') o0 max
      = DOk (zlen (struct_wire l o)) o' /\ agree l o o'.
Proof.
  intros Hsl Hlay Hv Ho Hb Hf Hm. pose proof (struct_codec l Hsl Hlay) as HS.
  exists (splice buf off (struct_wire l o)). split_and!.
  - by apply struct_enc_ok.
  - apply untouched_splice; lia.
  - intros o0. unfold splice. rewrite drop_app_length' by (rewrite length_take; lia).
    by apply struct_dec_ok.
Qed.

(** Round trip of unions: a union whose type is registered with a working
    pair of functions is written as its type and the structure, and decoded to
    a union of the same type with an equal structure.  A type that is not
    registered is refused by both. *)
Theorem xdr_union_roundtrip deft t (o : Obj) off max len buf def enc dec wire valid same fresh :
  StructCodec enc dec wire valid same ->
  deft t = Some def -> sd_encoder def = Some enc -> sd_decoder def = Some dec -> sd_allocator def = Some fresh ->
  valid o -> 0 <= t < 2 ^ 32 ->
  0 <= off -> off + max <= zlen buf -> 4 + zlen (wire o) + slack <= max -> max < 2 ^ 64 ->
  exists buf', XDR_encode_union deft (SObj (XUnion t (SObj o))) (DBuf off) max len buf
      = ERet 0 (4 + zlen (wire o)) buf' /\
    forall old, exists o', XDR_decode_union deft (drop (Z.to_nat off) buf') (Some old) max len
      = DOk (4 + zlen (wire o)) (XUnion t (SObj o')) /\ same o o'.
Proof.
  intros HS Hdef He Hd Ha Hv Ht Ho Hb Hf Hm. pose proof (struct_slack (enc := enc) (dec := dec)) as Hsl.
  exists (splice buf off (be32 t ++ wire o)). split.
  - unfold XDR_encode_union. cbn [u_type u_data]. rewrite encode_uint32_ok by lia. rewrite Hdef. simpl mbind.
    rewrite He. simpl (negb _ && _). cbv iota zeta. rewrite u64_small by lia. simpl dadd.
    change (0 <=? 0) with true. cbv iota.
    rewrite (struct_enc_ok (enc := enc) (dec := dec) o); try done; try lia.
    2:{ rewrite splice_length by (rewrite ?be32_length; lia). lia. }
    change ((0 <? 0) || (0 <? 0)) with false. cbv iota. rewrite u64_small by lia. f_equal.
    change 4 with (Z.of_nat 4). rewrite <- (be32_length t). apply splice_splice; rewrite ?be32_length; lia.
  - intros old. unfold splice. rewrite drop_app_length' by (rewrite length_take; lia).
    unfold XDR_decode_union. rewrite <- !app_assoc, decode_uint32_ok by lia. cbv iota.
    rewrite u32_small, Hdef, Hd, Ha by done. rewrite drop_app_length' by (by rewrite be32_length).
    rewrite (u64_small (max - 4)) by lia.
    destruct (struct_dec_ok (enc := enc) (dec := dec) o fresh (max - 4)
      (drop (Z.to_nat off + length (be32 t ++ wire o)) buf)) as (o' & E & Hs); try done; try lia.
    rewrite E. exists o'. rewrite u64_small by lia. done.
Qed.
End StructCodec.

(** ** Structures that do not fit *)

Section StructShort.
Context {Obj : Type} (slack : Z).
Implicit Types x : FieldSpec (Obj := Obj) slack.

Definition field_sized x : Prop :=
  SizedEncoder (f_encoder (fs_field _ x)) (fs_wire _ x) slack (fs_valid _ x).

Lemma struct_size_loop (post : list (FieldSpec slack)) pre o max dst res buf :
  Forall (field_valid slack o) post -> Forall field_sized post -> 0 <= max < 2 ^ 64 ->
  dst_null dst || (res <? 0) = true -> zlen (struct_wire slack (pre ++ post) o) < 2 ^ 64 ->
  struct_encode_loop (fs_field slack <$> post) (SObj o) dst max (zlen (struct_wire slack pre o)) res buf
  = ERet res (zlen (struct_wire slack (pre ++ post) o)) buf.
Proof.
  revert pre. induction post as [|x post IH]; intros pre Hv Hs Hm Hd Hw.
  { simpl. by rewrite app_nil_r. }
  apply Forall_cons_1 in Hv as [Hx Hv]. apply Forall_cons_1 in Hs as [Hsx Hs].
  pose proof (struct_wire_mid slack pre x post o) as Hlen. rewrite fmap_cons. cbn [struct_encode_loop].
  rewrite Hd. simpl field_ptr. simpl len_ptr.
  destruct (enc_size (SizedEncoder := Hsx) (f_get (fs_field _ x) o) max _ buf Hx Hm) as [rc ->].
  change (fs_wire _ x (f_get (fs_field _ x) o)) with (field_wire slack o x). rewrite u64_small by lia.
  replace (zlen (struct_wire slack pre o) + zlen (field_wire slack o x))
    with (zlen (struct_wire slack (pre ++ [x]) o)) by (rewrite struct_wire_snoc, length_app; lia).
  replace (pre ++ x :: post) with ((pre ++ [x]) ++ post) in * by (by rewrite <- app_assoc).
  by apply IH.
Qed.

Lemma struct_short_loop (post : list (FieldSpec slack)) pre o max off buf :
  Forall (field_valid slack o) post -> Forall field_sized post -> 0 <= off -> off + max <= zlen buf ->
  zlen (struct_wire slack (pre ++ post) o) < 2 ^ 63 ->
  zlen (struct_wire slack pre o) <= max < zlen (struct_wire slack (pre ++ post) o) ->
  exists rc buf',
    struct_encode_loop (fs_field slack <$> post) (SObj o) (DBuf off) max (zlen (struct_wire slack pre o)) 0
      (splice buf off (struct_wire slack pre o))
    = ERet rc (zlen (struct_wire slack (pre ++ post) o)) buf' /\ rc < 0 /\ untouched off max buf buf'.
Proof.
  revert pre. induction post as [|x post IH]; intros pre Hv Hs Ho Hb Hw Hfit.
  { rewrite app_nil_r in Hfit. lia. }
  apply Forall_cons_1 in Hv as [Hx Hv]. apply Forall_cons_1 in Hs as [Hsx Hs].
  pose proof (fs_slack slack x) as Hsl. pose proof (struct_wire_mid slack pre x post o) as Hlen.
  rewrite fmap_cons. cbn [struct_encode_loop]. simpl (dst_null _ || _). cbv iota.
  rewrite u64_small by lia. simpl dadd. simpl field_ptr. simpl len_ptr.
  assert (Hb2 : off + zlen (struct_wire slack pre o) + (max - zlen (struct_wire slack pre o))
      <= zlen (splice buf off (struct_wire slack pre o))) by (rewrite splice_length by lia; lia).
  assert (Hsnoc : zlen (struct_wire slack pre o) + zlen (field_wire slack o x)
      = zlen (struct_wire slack (pre ++ [x]) o)) by (rewrite struct_wire_snoc, length_app; lia).
  assert (Happ : pre ++ x :: post = (pre ++ [x]) ++ post) by (by rewrite <- app_assoc).
  change (f_get (fs_field slack x) o) with (fget slack x o).
  assert (Hfw : fs_wire slack x (fget slack x o) = field_wire slack o x) by done.
  destruct (decide (zlen (field_wire slack o x) + slack <= max - zlen (struct_wire slack pre o))) as [Hl|Hl].
  - rewrite (enc_ok (Encodes := codec_encodes (Codec := fs_codec _ x)) (fget slack x o))
      by (done || rewrite ?Hfw; lia).
    rewrite Hfw, u64_small by lia. rewrite splice_splice by lia.
    rewrite <- struct_wire_snoc, Hsnoc, Happ. apply IH; rewrite <- ?Happ, <- ?Hsnoc; done || lia.
  - destruct (enc_short (SizedEncoder := Hsx) (fget slack x o) (off + zlen (struct_wire slack pre o))
      (max - zlen (struct_wire slack pre o)) (SObj (f_len (fs_field slack x) o))
      (splice buf off (struct_wire slack pre o)) Hx) as (rc & buf' & -> & Hrc & Hun);
      [lia|rewrite Hfw; lia|lia|].
    rewrite Hfw, u64_small, Hsnoc, Happ by lia.
    rewrite struct_size_loop; [|done|done|lia| |rewrite <- Happ; lia].
    2:{ simpl. by apply Z.ltb_lt. }
    exists rc, buf'. split; [done|]. split; [done|].
    eapply (untouched_trans off (off + zlen (struct_wire slack pre o)) max
      (max - zlen (struct_wire slack pre o))); [lia|lia|lia| |exact Hun].
    apply untouched_splice; lia.
Qed.

(** A structure that does not fit, with fields whose encoders can be asked
    for their size (integers, arrays of them, byte arrays): the encoder returns
    an error and the size the whole encoding needs, and writes nothing outside
    its room; asked with a NULL destination it returns 0 and that size. *)
Theorem xdr_struct_short (l : list (FieldSpec slack)) o off max buf :
  Forall (field_valid slack o) l -> Forall field_sized l -> zlen (struct_wire slack l o) < 2 ^ 63 ->
  0 <= max < 2 ^ 64 ->
  XDR_struct_encoder (Some (fs_field slack <$> l)) (SObj o) (DNull 0) max buf
    = ERet 0 (zlen (struct_wire slack l o)) buf /\
  (0 <= off -> off + max <= zlen buf -> max < zlen (struct_wire slack l o) ->
   exists rc buf', XDR_struct_encoder (Some (fs_field slack <$> l)) (SObj o) (DBuf off) max buf
     = ERet rc (zlen (struct_wire slack l o)) buf' /\ rc < 0 /\ untouched off max buf buf').
Proof.
  intros Hv Hs Hw Hm. split.
  - apply (struct_size_loop l [] o max (DNull 0) 0 buf); try done. simpl app. lia.
  - intros Ho Hb Hlt. cbn [XDR_struct_encoder].
    destruct (struct_short_loop l [] o max off buf Hv Hs Ho Hb Hw) as (rc & buf' & E & H'); [simpl app; simpl; lia|].
    change (struct_wire slack [] o) with (@nil Z) in E. rewrite splice_nil in E by lia.
    exists rc, buf'. by split.
Qed.
End StructShort.

(** ** Bit fields *)

Section BitFields.
Context {Obj : Type}.

(** A field of [xdr_uint32_bitfield_functions] or
    [xdr_int32_bitfield_functions]. *)
Record BitField := BF { bf_signed : bool; bf_pos : Z; bf_width : Z; bf_off : Z;
  bf_get : Obj -> Z; bf_set : Obj -> Z -> Obj }.

Definition bf_field (b : BitField) : FieldDefinition Obj :=
  FD Z (if bf_signed b then XDR_decodebf_int32 else XDR_decodebf_uint32) XDR_encodebf_uint32
    (bf_off b) (bf_width b) (bf_pos b) (bf_get b) (bf_set b) (fun _ => 0).

Definition bf_range (b : BitField) : Prop := 0 <= bf_pos b /\ 0 < bf_width b < 32 /\ bf_pos b + bf_width b <= 32.

Definition bf_value_ok (b : BitField) (v : Z) : Prop :=
  if bf_signed b then - 2 ^ (bf_width b - 1) <= v < 2 ^ (bf_width b - 1) else 0 <= v < 2 ^ bf_width b.

(** The bits of a field do not overlap with those of another. *)
Definition bf_apart (a b : BitField) : Prop :=
  bf_pos a + bf_width a <= bf_pos b \/ bf_pos b + bf_width b <= bf_pos a.

Lemma bf_mask_ones w : 0 <= w < 32 -> bf_mask w = Z.ones w.
Proof.
  intros H. unfold bf_mask. rewrite Z.mod_small by lia. rewrite Z.ones_equiv, Z.shiftl_1_l. lia.
Qed.

Lemma land_ones_range v w : 0 <= w -> 0 <= Z.land v (Z.ones w) < 2 ^ w.
Proof. intros H. rewrite Z.land_ones by lia. apply Z.mod_pos_bound. lia. Qed.

Lemma pow_le_32 w : 0 <= w < 32 -> 2 ^ w <= 2 ^ 31.
Proof. intros H. apply Z.pow_le_mono_r; lia. Qed.

Lemma word_value v : 0 <= v < 2 ^ 32 -> le_value (le_bytes 4 v) = v.
Proof. intros H. rewrite le_value_bytes. by apply Z.mod_small. Qed.

Lemma load_word v : load (le_bytes 4 v) 4 = Some (le_bytes 4 v).
Proof. apply (load_all (le_bytes 4 v)). Qed.

(** The word a list of fields is packed into. *)
Definition bf_word (l : list BitField) (o : Obj) : Z :=
  foldl (fun val b => Z.lor val (Z.shiftl (Z.land (bf_get b o) (Z.ones (bf_width b))) (bf_pos b))) 0 l.

Lemma bf_encode_loop_ok l o val :
  Forall bf_range l ->
  bf_encode_loop (bf_field <$> l) (SObj o) val
    = Some (foldl (fun val b => Z.lor val (Z.shiftl (Z.land (bf_get b o) (Z.ones (bf_width b))) (bf_pos b))) val l).
Proof.
  revert val. induction l as [|b l IH]; intros val Hr; [done|].
  apply Forall_cons_1 in Hr as [(H1 & H2 & H3) Hr]. rewrite fmap_cons. cbn [bf_encode_loop foldl].
  set (t := Z.land (bf_get b o) (Z.ones (bf_width b))).
  pose proof (land_ones_range (bf_get b o) (bf_width b)) as Ht. specialize (Ht ltac:(lia)). fold t in Ht.
  pose proof (pow_le_32 (bf_width b)) as Hp. specialize (Hp ltac:(lia)).
  assert (E : f_encoder (bf_field b) (field_ptr (bf_field b) (SObj o)) (DBuf 0) (len_offset (bf_field b)) SNull
                (le_bytes 4 0) = ERet 0 0 (le_bytes 4 t)).
  { change (XDR_encodebf_uint32 (SObj (bf_get b o)) (DBuf 0) (bf_width b) SNull (le_bytes 4 0)
            = ERet 0 0 (le_bytes 4 t)). unfold XDR_encodebf_uint32.
    rewrite bf_mask_ones by lia. fold t. rewrite estore_fits; [|lia|rewrite !le_bytes_length; lia].
    unfold splice. change (Z.to_nat 0) with 0%nat. rewrite le_bytes_length. change (drop (0 + 4) (le_bytes 4 0)) with (@nil Z).
    by rewrite app_nil_r. }
  rewrite E. cbn [len_offset struct_id bf_field]. rewrite bf_mask_ones, word_value by lia.
  rewrite (Z.mod_small (bf_pos b)) by lia.
  replace (Z.land t (Z.ones (bf_width b))) with t
    by (unfold t; rewrite <- Z.land_assoc, Z.land_diag; done).
  rewrite u32_small; [by apply IH|].
  rewrite Z.shiftl_mul_pow2 by lia. split; [apply Z.mul_nonneg_nonneg; lia|].
  apply Z.lt_le_trans with (2 ^ bf_width b * 2 ^ bf_pos b); [apply Zmult_lt_compat_r; lia|].
  rewrite <- Z.pow_add_r by lia. apply Z.pow_le_mono_r; lia.
Qed.

Lemma shifted_bit v w p n :
  0 <= w -> 0 <= p -> 0 <= n ->
  Z.testbit (Z.shiftl (Z.land v (Z.ones w)) p) n = (p <=? n) && (n <? p + w) && Z.testbit v (n - p).
Proof.
  intros Hw Hp Hn. destruct (Z.leb_spec p n) as [H1|H1]; [|by rewrite Z.shiftl_spec_low by lia].
  rewrite Z.shiftl_spec_high by lia. rewrite Z.land_spec.
  destruct (Z.ltb_spec n (p + w)) as [H2|H2].
  - rewrite Z.ones_spec_low by lia. by rewrite andb_true_r.
  - rewrite Z.ones_spec_high by lia. by rewrite andb_false_r.
Qed.

Lemma foldl_bits l o val n :
  Forall bf_range l -> 0 <= n ->
  Z.testbit (foldl (fun val b => Z.lor val (Z.shiftl (Z.land (bf_get b o) (Z.ones (bf_width b))) (bf_pos b))) val l) n
    = Z.testbit val n || existsb (fun b => (bf_pos b <=? n) && (n <? bf_pos b + bf_width b)
                                            && Z.testbit (bf_get b o) (n - bf_pos b)) l.
Proof.
  revert val. induction l as [|b l IH]; intros val Hr Hn; simpl; [by rewrite orb_false_r|].
  apply Forall_cons_1 in Hr as [(H1 & H2 & H3) Hr]. rewrite IH by done. rewrite Z.lor_spec.
  rewrite shifted_bit by lia. by rewrite orb_assoc.
Qed.

(** The bits of a field in the word are its own. *)
Lemma bf_word_bits l o b :
  Forall bf_range l -> b ∈ l -> (forall c, c ∈ l -> c = b \/ bf_apart b c) ->
  Z.land (Z.shiftr (bf_word l o) (bf_pos b)) (Z.ones (bf_width b)) = Z.land (bf_get b o) (Z.ones (bf_width b)).
Proof.
  intros Hr Hb Hap. pose proof (proj1 (list.Forall_forall _ _) Hr b Hb) as (H1 & H2 & H3).
  apply Z.bits_inj'. intros n Hn. rewrite !Z.land_spec. destruct (Z.ltb_spec n (bf_width b)) as [Hl|Hl].
  2:{ by rewrite Z.ones_spec_high, !andb_false_r by lia. }
  rewrite Z.ones_spec_low by lia. rewrite !andb_true_r, Z.shiftr_spec by lia.
  unfold bf_word. rewrite foldl_bits by (done || lia). rewrite Z.bits_0, orb_false_l.
  apply eq_true_iff_eq. rewrite existsb_exists. split.
  - intros (c & Hc & Hbit). apply list_elem_of_In in Hc. apply andb_true_iff in Hbit as [Hin Hbit].
    apply andb_true_iff in Hin as [Hl1 Hl2]. apply Z.leb_le in Hl1. apply Z.ltb_lt in Hl2.
    destruct (Hap c Hc) as [->|Hd]; [|unfold bf_apart in Hd; lia].
    by replace (n + bf_pos b - bf_pos b) with n in Hbit by lia.
  - intros Hbit. exists b. split; [by apply list_elem_of_In|].
    replace (n + bf_pos b - bf_pos b) with n by lia. rewrite Hbit.
    rewrite (proj2 (Z.leb_le _ _)), (proj2 (Z.ltb_lt _ _)) by lia. done.
Qed.

(** Sign extension of a field. *)
Lemma decodebf_int32_ok v w old len :
  0 < w < 32 -> - 2 ^ (w - 1) <= v < 2 ^ (w - 1) ->
  XDR_decodebf_int32 (le_bytes 4 (Z.land v (Z.ones w))) (Some old) w len = DOk 0 v.
Proof.
  intros Hw Hv. pose proof (land_ones_range v w) as Ht. specialize (Ht ltac:(lia)).
  pose proof (pow_le_32 w) as Hp. specialize (Hp ltac:(lia)).
  assert (Hw1 : 2 ^ w = 2 * 2 ^ (w - 1)) by (rewrite <- Z.pow_succ_r by lia; f_equal; lia).
  unfold XDR_decodebf_int32.
  rewrite load_word.
  cbv zeta. rewrite word_value by lia. rewrite bf_mask_ones by lia. unfold dstore. f_equal.
  rewrite (Z.mod_small (w - 1)) by lia. rewrite Z.shiftl_1_l.
  assert (Hneg : Z.land (2 ^ (w - 1)) (Z.land v (Z.ones w)) =? 0 = (0 <=? v)).
  { rewrite Z.land_assoc, (Z.land_comm (2 ^ (w - 1))), <- Z.land_assoc.
    replace (Z.land (2 ^ (w - 1)) (Z.ones w)) with (2 ^ (w - 1)).
    2:{ rewrite Z.land_ones by lia. symmetry. apply Z.mod_small. split; [lia|]. apply Z.pow_lt_mono_r; lia. }
    rewrite Z.land_comm. destruct (Z.leb_spec 0 v) as [H0|H0].
    - apply Z.eqb_eq, Z.bits_inj'. intros n Hn. rewrite Z.land_spec, Z.bits_0, Z.pow2_bits_eqb by lia.
      destruct (Z.eqb_spec (w - 1) n) as [<-|]; [|done]. simpl.
      rewrite <- (Z.mod_small v (2 ^ (w - 1))) by lia. apply Z.mod_pow2_bits_high. lia.
    - apply Z.eqb_neq. intros E. assert (Hb : Z.testbit (Z.land (2 ^ (w - 1)) v) (w - 1) = true).
      { rewrite Z.land_spec, Z.pow2_bits_true by lia. simpl.
        rewrite <- (Z.lnot_involutive v), Z.lnot_spec by lia.
        rewrite <- (Z.mod_small (Z.lnot v) (2 ^ (w - 1))) by (unfold Z.lnot; lia).
        by rewrite Z.mod_pow2_bits_high by lia. }
      rewrite E, Z.bits_0 in Hb. done. }
  rewrite Hneg. destruct (Z.leb_spec 0 v) as [H0|H0]; simpl negb; cbv iota.
  - rewrite Z.lor_0_l, <- Z.land_assoc, Z.land_diag, Z.land_ones, Z.mod_small by lia.
    unfold s32. rewrite Z.mod_small by lia. lia.
  - assert (E : Z.lor (Z.land (-1) (Z.lnot (Z.ones w))) (Z.land (Z.land v (Z.ones w)) (Z.ones w)) = v).
    { rewrite Z.land_m1_l, <- Z.land_assoc, Z.land_diag. apply Z.bits_inj'. intros n Hn.
      rewrite Z.lor_spec, Z.lnot_spec, Z.land_spec by lia. destruct (Z.ltb_spec n w) as [Hl|Hl].
      - rewrite Z.ones_spec_low by lia. simpl. by rewrite andb_true_r.
      - rewrite Z.ones_spec_high by lia. simpl.
        rewrite <- (Z.lnot_involutive v), Z.lnot_spec by lia.
        rewrite <- (Z.mod_small (Z.lnot v) (2 ^ w)) by (unfold Z.lnot; lia).
        by rewrite Z.mod_pow2_bits_high by lia. }
    rewrite E. unfold s32. rewrite Z.mod_small by lia. lia.
Qed.

Definition bf_same (l : list BitField) (o o' : Obj) : Prop := forall b, b ∈ l -> bf_get b o' = bf_get b o.

(** The fields lie inside the word and apart; a field reads back what was
    stored in it and storing it keeps the others. *)
Definition bf_layout (l : list BitField) : Prop :=
  Forall bf_range l /\
  forall pre b post, l = pre ++ b :: post ->
    (forall o v, bf_get b (bf_set b o v) = v) /\
    (forall c o v, c ∈ pre -> bf_get c (bf_set b o v) = bf_get c o) /\
    (forall c, c ∈ pre \/ c ∈ post -> bf_apart b c).

Lemma bf_decode_one b v old :
  bf_range b -> bf_value_ok b v ->
  f_decoder (bf_field b) (le_bytes 4 (Z.land v (Z.ones (bf_width b)))) (Some old) (bf_width b) SNull = DOk 0 v.
Proof.
  intros (H1 & H2 & H3) Hv. unfold bf_value_ok in Hv. cbn [f_decoder bf_field].
  destruct (bf_signed b); [by apply decodebf_int32_ok|].
  unfold XDR_decodebf_uint32.
  pose proof (land_ones_range v (bf_width b)) as Ht. specialize (Ht ltac:(lia)).
  pose proof (pow_le_32 (bf_width b)) as Hp. specialize (Hp ltac:(lia)).
  rewrite load_word.
  rewrite word_value, bf_mask_ones by lia. rewrite <- Z.land_assoc, Z.land_diag, Z.land_ones, Z.mod_small by lia.
  done.
Qed.

Lemma bf_decode_loop_ok post pre o o' inc :
  bf_layout (pre ++ post) -> Forall (fun b => bf_value_ok b (bf_get b o)) post -> bf_same pre o o' ->
  exists o2, bf_decode_loop (bf_field <$> post) (bf_word (pre ++ post) o) inc o' = DOk inc o2 /\
    bf_same (pre ++ post) o o2.
Proof.
  revert pre o'. induction post as [|b post IH]; intros pre o' Hlay Hv Hs.
  { exists o'. by rewrite app_nil_r. }
  apply Forall_cons_1 in Hv as [Hb Hv]. pose proof Hlay as [Hr Hl].
  destruct (Hl pre b post eq_refl) as (L1 & L2 & L3). rewrite fmap_cons. cbn [bf_decode_loop].
  pose proof (proj1 (list.Forall_forall _ _) Hr b ltac:(apply elem_of_app; right; apply elem_of_cons; by left)) as Hrb.
  cbn [struct_id len_offset bf_field]. destruct (Hrb) as (H1 & H2 & H3).
  rewrite (Z.mod_small (bf_pos b)), bf_mask_ones by lia. rewrite bf_word_bits; [|done| |].
  2:{ apply elem_of_app. right. apply elem_of_cons. by left. }
  2:{ intros c Hc. apply elem_of_app in Hc as [Hc|Hc]; [right; apply L3; by left|].
      apply elem_of_cons in Hc as [->|Hc]; [by left|right; apply L3; by right]. }
  fold (bf_field b). rewrite bf_decode_one by done.
  replace (pre ++ b :: post) with ((pre ++ [b]) ++ post) in * by (by rewrite <- app_assoc).
  apply IH; try done. intros c Hc. apply elem_of_app in Hc as [Hc|Hc].
  - change (bf_get c (bf_set b o' (bf_get b o)) = bf_get c o). rewrite L2 by done. by apply Hs.
  - apply elem_of_cons in Hc as [->|Hc]; [|by apply elem_of_nil in Hc]. apply L1.
Qed.

Lemma bf_word_range l o : Forall bf_range l -> 0 <= bf_word l o < 2 ^ 32.
Proof.
  intros Hr. unfold bf_word.
  assert (G : forall val, 0 <= val < 2 ^ 32 -> Forall bf_range l -> 0 <= foldl (fun val b =>
    Z.lor val (Z.shiftl (Z.land (bf_get b o) (Z.ones (bf_width b))) (bf_pos b))) val l < 2 ^ 32).
  { clear Hr. induction l as [|b l IH]; intros val Hval Hr; [done|].
    apply Forall_cons_1 in Hr as [(H1 & H2 & H3) Hr]. simpl. apply IH; [|done].
    pose proof (land_ones_range (bf_get b o) (bf_width b)) as Ht. specialize (Ht ltac:(lia)).
    assert (Hs : 0 <= Z.shiftl (Z.land (bf_get b o) (Z.ones (bf_width b))) (bf_pos b))
      by (apply Z.shiftl_nonneg; lia).
    split; [apply Z.lor_nonneg; lia|].
    rewrite <- (Z.mod_small val (2 ^ 32)) by done.
    set (x := Z.lor _ _). assert (Hx : x = x mod 2 ^ 32).
    { apply Z.bits_inj'. intros n Hn. destruct (Z.ltb_spec n 32) as [Hl|Hl].
      - by rewrite Z.mod_pow2_bits_low by lia.
      - rewrite Z.mod_pow2_bits_high by lia. unfold x. rewrite Z.lor_spec, Z.mod_pow2_bits_high by lia.
        rewrite shifted_bit by lia. rewrite (proj2 (Z.ltb_ge n _)) by lia. by rewrite andb_false_r. }
    rewrite Hx. apply Z.mod_pos_bound. lia. }
  apply G; [lia|done].
Qed.

(** Round trip of bit fields: fields of up to 31 bits that lie apart in
    the word, with values in range, signed ones too, are packed into one 32-bit
    word and unpacked to the same values, negative ones sign-extended. *)
Theorem xdr_bitfield_roundtrip l o off max buf :
  bf_layout l -> Forall (fun b => bf_value_ok b (bf_get b o)) l ->
  0 <= off -> off + max <= zlen buf -> 4 <= max ->
  exists buf', XDR_bitfield_struct_encoder (Some (bf_field <$> l)) (SObj o) (DBuf off) max buf = ERet 0 4 buf' /\
    untouched off 4 buf buf' /\
    forall o0, exists o', XDR_bitfield_struct_decoder (Some (bf_field <$> l)) (drop (Z.to_nat off) buf') o0 max
      = DOk 4 o' /\ bf_same l o o'.
Proof.
  intros Hlay Hv Ho Hb Hm. pose proof (proj1 Hlay) as Hr.
  exists (splice buf off (be32 (bf_word l o))). split_and!.
  - unfold XDR_bitfield_struct_encoder. rewrite bf_encode_loop_ok by done. by apply encode_uint32_ok.
  - apply untouched_splice; rewrite ?be32_length; lia.
  - intros o0. unfold splice. rewrite drop_app_length' by (rewrite length_take; lia).
    unfold XDR_bitfield_struct_decoder. rewrite decode_uint32_ok by lia. cbv iota.
    rewrite u32_small by (by apply bf_word_range).
    apply (bf_decode_loop_ok l [] o o0 4 Hlay Hv). intros b Hin. by apply elem_of_nil in Hin.
Qed.
End BitFields.

(** ** The registry *)

#[export] Instance xdr_cmp_KeySpec : KeySpec xdr_struct_cmp_key.
Proof. split. apply Z.eqb_eq. Qed.

Section RegistryFacts.
Context {Obj : Type}.
Implicit Types r : registry Obj.

(** The table is well formed, and holds pointers to definitions. *)
Definition reg_ok r : Prop :=
  match structHash r with
  | None => True
  | Some t => ht_wf xdr_struct_hash_func (xdr_struct_key_for_data (defs r)) t
  end.

(** The first definition of a type among those up to the first incomplete
    one. *)
Fixpoint first_def r (structs : list ptr) (type : Z) : option ptr :=
  match structs with
  | [] => None
  | p :: rest =>
      if complete r p then
        if xdr_struct_key_for_data (defs r) p =? type then Some p else first_def r rest type
      else None
  end.

Lemma find_key_type (key : ptr -> Z) (t : HashTable Z ptr) k p :
  ht_wf xdr_struct_hash_func key t ->
  HASH_find_key xdr_struct_hash_func xdr_struct_cmp_key (Some t) k = Some p -> key p = k.
Proof.
  intros Hw. pose proof (bucket_ok xdr_struct_hash_func key t (bucket_ix t (xdr_struct_hash_func k)) Hw) as [Hf _].
  simpl. induction Hf as [|n c Hn Hf IH]; simpl; [done|].
  destruct (xdr_struct_cmp_key (hn_key n) k) eqn:E; [|exact IH].
  intros [= <-]. apply keyCmp_spec in E. destruct Hn as (Hk & _). congruence.
Qed.

Lemma register_defs a b r p : defs (XDR_register_struct a b r p) = defs r.
Proof.
  unfold XDR_register_struct. destruct p as [p|]; [|done]. destruct (structHash r) eqn:E; simpl.
  - by rewrite E.
  - by destruct a.
Qed.

Lemma register_struct_ok r p :
  reg_ok r -> let r' := XDR_register_struct true true r (Some p) in
  reg_ok r' /\
  forall k, definition_ptr r' k =
    match definition_ptr r k with
    | Some q => Some q
    | None => if xdr_struct_key_for_data (defs r) p =? k then Some p else None
    end.
Proof.
  intros Hr r'. set (key := xdr_struct_key_for_data (defs r)).
  assert (Ht : exists t, structHash r' = Some (HASH_add_data xdr_struct_hash_func xdr_struct_cmp_key key true t (Some p)).2 /\
    ht_wf xdr_struct_hash_func key t /\
    forall k, HASH_find_key xdr_struct_hash_func xdr_struct_cmp_key (Some t) k = definition_ptr r k).
  { unfold r', XDR_register_struct, reg_ok, definition_ptr in *. destruct (structHash r) as [t|] eqn:E.
    - exists t. rewrite E. done.
    - destruct (create_wf xdr_struct_hash_func xdr_struct_cmp_key key 37 (HT 37 (replicate (Z.to_nat 37) []))) as [Hw Hm];
        [lia|done|]. simpl. eexists. split; [done|]. split; [exact Hw|exact Hm]. }
  destruct Ht as (t & Et & Hw & Hm). pose proof (register_defs true true r (Some p)) as Hd. fold r' in Hd.
  assert (Hold : HASH_find_key xdr_struct_hash_func xdr_struct_cmp_key (Some t) (key p) = definition_ptr r (key p))
    by apply Hm.
  unfold reg_ok. unfold definition_ptr at 1. rewrite Et, Hd. unfold HASH_add_data. rewrite Hold.
  destruct (definition_ptr r (key p)) as [q|] eqn:Eq.
  - simpl snd. split; [exact Hw|]. intros k. rewrite Hm.
    destruct (definition_ptr r k) eqn:Ek; [done|]. destruct (Z.eqb_spec (key p) k); [congruence|done].
  - simpl negb. cbv iota. cbn [snd].
    destruct (add_new xdr_struct_hash_func xdr_struct_cmp_key key t _ p Hw (fun k => Hm k) Eq) as [Hw' Hm'].
    split; [exact Hw'|]. intros k. rewrite (Hm' k). unfold map_set.
    destruct (xdr_struct_cmp_key (key p) k) eqn:Ec.
    + apply keyCmp_spec in Ec. fold (key p). rewrite Ec, Z.eqb_refl, <- Ec, Eq. done.
    + unfold xdr_struct_cmp_key in Ec. rewrite Ec. by destruct (definition_ptr r k).
Qed.

Lemma first_def_ext r r' structs type : defs r' = defs r -> first_def r' structs type = first_def r structs type.
Proof.
  intros E. induction structs as [|p rest IH]; simpl; [done|]. unfold complete. rewrite E, IH. done.
Qed.

(** The registry: after a table of definitions was registered, a type is
    found if it was known before, with its old definition, or else with the
    first definition of that type in the table before its end mark; a
    definition that is found has the type that was asked for. *)
Theorem xdr_registry_correct r structs type :
  reg_ok r ->
  reg_ok (XDR_register_structs r structs) /\
  definition_ptr (XDR_register_structs r structs) type =
    match definition_ptr r type with Some p => Some p | None => first_def r structs type end /\
  (forall p, definition_ptr (XDR_register_structs r structs) type = Some p ->
     xdr_struct_key_for_data (defs r) p = type).
Proof.
  assert (G : forall r0, reg_ok r0 ->
    reg_ok (XDR_register_structs r0 structs) /\ defs (XDR_register_structs r0 structs) = defs r0 /\
    definition_ptr (XDR_register_structs r0 structs) type =
      match definition_ptr r0 type with Some p => Some p | None => first_def r0 structs type end).
  { induction structs as [|p rest IH]; intros r0 Hr; cbn [XDR_register_structs first_def]; [split_and!; try done; by destruct (definition_ptr r0 type)|].
    destruct (complete r0 p); [|split_and!; try done; by destruct (definition_ptr r0 type)].
    destruct (register_struct_ok r0 p Hr) as [Hr' Hf].
    destruct (IH _ Hr') as (I1 & I2 & I3). rewrite I2, register_defs, I3, Hf. split_and!; try done.
    destruct (definition_ptr r0 type); [done|]. destruct (_ =? type); [done|].
    apply first_def_ext, register_defs. }
  intros Hr. destruct (G r Hr) as (G1 & G2 & G3). split_and!; [done|done|].
  intros p Hp. rewrite <- G2. unfold definition_ptr, reg_ok in *.
  destruct (structHash (XDR_register_structs r structs)) as [t|]; [|done].
  exact (find_key_type _ t type p G1 Hp).
Qed.

Lemma key_alter (f : StructDefinition Obj -> StructDefinition Obj) ds p q :
  (forall d, sd_type (f d) = sd_type d) ->
  xdr_struct_key_for_data (alter f p ds) q = xdr_struct_key_for_data ds q.
Proof.
  intros Hf. unfold xdr_struct_key_for_data. destruct (decide (p = q)) as [->|Hne].
  - rewrite lookup_alter_eq. destruct (ds !! q); simpl; [apply Hf|done].
  - by rewrite lookup_alter_ne by done.
Qed.

Lemma alter_found (f : StructDefinition Obj -> StructDefinition Obj) r p type type' :
  (forall d, sd_type (f d) = sd_type d) -> reg_ok r -> definition_ptr r type = Some p ->
  XDR_definition_for_type (Reg (alter f p (defs r)) (structHash r)) type' =
    if type' =? type then f <$> XDR_definition_for_type r type' else XDR_definition_for_type r type'.
Proof.
  intros Hf Hr Hp. unfold XDR_definition_for_type.
  change (definition_ptr (Reg (alter f p (defs r)) (structHash r)) type') with (definition_ptr r type').
  destruct (Z.eqb_spec type' type) as [->|Hne].
  - rewrite Hp. simpl. rewrite lookup_alter_eq. by destruct (defs r !! p).
  - destruct (definition_ptr r type') as [q|] eqn:Eq; simpl; [|done].
    rewrite lookup_alter_ne; [done|]. intros ->. unfold definition_ptr, reg_ok in *.
    destruct (structHash r) as [t|]; [|done].
    apply Hne. rewrite <- (find_key_type _ t type' q Hr Eq), <- (find_key_type _ t type q Hr Hp). done.
Qed.

(** Setting a populator or a print function changes the definition of
    that type only, if there is one, and nothing else of it; replacing a
    populator returns the one that was there. *)
Theorem xdr_populator_correct r cb arg func type type' :
  reg_ok r ->
  XDR_definition_for_type (XDR_register_populator r cb arg type) type' =
    (if type' =? type then (fun d => with_populate d cb arg) <$> XDR_definition_for_type r type'
     else XDR_definition_for_type r type') /\
  XDR_definition_for_type (XDR_set_struct_print_function r func type) type' =
    (if type' =? type then (fun d => with_print d func) <$> XDR_definition_for_type r type'
     else XDR_definition_for_type r type') /\
  XDR_replace_populator r cb arg type =
    (match XDR_definition_for_type r type with Some d => (populate d, populate_arg d) | None => (None, 0) end,
     match XDR_definition_for_type r type with Some _ => XDR_register_populator r cb arg type | None => r end).
Proof.
  intros Hr. unfold XDR_register_populator, XDR_set_struct_print_function, XDR_replace_populator.
  destruct (definition_ptr r type) as [p|] eqn:Ep.
  - split_and!; [by apply alter_found|by apply alter_found|].
    unfold XDR_definition_for_type. rewrite Ep. simpl. destruct (defs r !! p) as [d|] eqn:Ed; simpl; [|done].
    do 2 f_equal. apply map_eq. intros q. destruct (decide (p = q)) as [->|Hne].
    + by rewrite lookup_insert_eq, lookup_alter_eq, Ed.
    + by rewrite lookup_insert_ne, lookup_alter_ne by done.
  - unfold XDR_definition_for_type. rewrite Ep. simpl. split_and!; [| |done].
    all: destruct (Z.eqb_spec type' type) as [->|]; [by rewrite Ep|done].
Qed.
End RegistryFacts.

(** ** Witnesses *)

(** A structure with a count, an array of that length, and an identifier. *)
Record sample := Sample { s_count : Z; s_data : option (list Z); s_id : Z; s_name : option (list Z) }.

Definition all_ok (_ : Z) : bool := true.

Definition count_field : FieldDefinition sample :=
  FD Z XDR_decode_int32 XDR_encode_int32 0 0 0 s_count
    (fun o v => Sample v (s_data o) (s_id o) (s_name o)) s_count.
Definition data_field : FieldDefinition sample :=
  FD (option (list Z)) (XDR_decode_int32_array all_ok) XDR_encode_int32_array 8 0 0 s_data
    (fun o v => Sample (s_count o) v (s_id o) (s_name o)) s_count.
Definition id_field : FieldDefinition sample :=
  FD Z XDR_decode_uint64 XDR_encode_uint64 16 0 0 s_id
    (fun o v => Sample (s_count o) (s_data o) v (s_name o)) s_count.
Definition name_field : FieldDefinition sample :=
  FD (option (list Z)) (XDR_decode_string_array all_ok) XDR_encode_string_array 24 0 0 s_name
    (fun o v => Sample (s_count o) (s_data o) (s_id o) v) s_count.

Definition sample_fields : list (FieldSpec (Obj := sample) 0) :=
  [ FS 0 count_field be32 (int_valid (- 2 ^ 31) (2 ^ 31)) int32_codec;
    FS 0 data_field (array_wire be32)
      (array_valid (wire := be32) (valid := int_valid (- 2 ^ 31) (2 ^ 31)) all_ok 4)
      (array_codec (Codec0 := int32_codec) all_ok 0 4);
    FS 0 id_field be64 (int_valid 0 (2 ^ 64)) uint64_codec ].

Definition sample1 : sample := Sample 2 (Some [10; -11]) 77 None.

Lemma sample_layout : layout_ok 0 sample_fields.
Proof.
  intros pre x post E. destruct pre as [|y1 pre]; [injection E as <- <-|].
  { split_and!; try done. intros y o v Hy. by apply elem_of_nil in Hy. }
  injection E as <- E. destruct pre as [|y2 pre]; [injection E as <- <-|].
  { split_and!; try done.
    - intros y o v Hy. apply elem_of_cons in Hy as [->|Hy]; [done|by apply elem_of_nil in Hy].
    - intros o o' Hag Hv. pose proof (Hag _ (list_elem_of_here _ _)) as Hc. unfold fget in Hc. simpl in Hc.
      unfold field_valid in Hv. cbn [fs_valid fs_field f_len data_field] in *. by rewrite Hc. }
  injection E as <- E. destruct pre as [|y3 pre]; [injection E as <- <-|].
  { split_and!; try done. intros y o v Hy.
    apply elem_of_cons in Hy as [->|Hy]; [done|]. apply elem_of_cons in Hy as [->|Hy]; [done|].
    by apply elem_of_nil in Hy. }
  injection E as <- E. by destruct pre.
Qed.

Lemma sample1_valid : Forall (field_valid 0 sample1) sample_fields.
Proof.
  constructor; [vm_compute; split; congruence|]. constructor.
  - unfold field_valid. cbn. split_and!; try done. repeat constructor; unfold int_valid; lia.
  - constructor; [vm_compute; split; congruence|constructor].
Qed.

Lemma xdr_struct_roundtrip_witness :
  exists buf', XDR_struct_encoder (Some (fs_field 0 <$> sample_fields)) (SObj sample1) (DBuf 3) 25 demo_buf
      = ERet 0 20 buf' /\ untouched 3 20 demo_buf buf' /\
    forall o0, exists o', XDR_struct_decoder (Some (fs_field 0 <$> sample_fields)) (drop 3 buf') o0 25
      = DOk 20 o' /\ agree 0 sample_fields sample1 o'.
Proof.
  apply (xdr_struct_roundtrip 0 sample_fields sample1 3 25 demo_buf);
    [lia|exact sample_layout|exact sample1_valid|lia|vm_compute; congruence|vm_compute; congruence|lia].
Defined.

Definition sample_def : StructDefinition sample :=
  SD 5 24 (Some (XDR_struct_encoder (Some (fs_field 0 <$> sample_fields))))
    (Some (XDR_struct_decoder (Some (fs_field 0 <$> sample_fields))))
    (Some (Sample 0 None 0 None)) None None 0.

Lemma xdr_union_roundtrip_witness :
  exists buf', XDR_encode_union (fun t => if t =? 5 then Some sample_def else None)
      (SObj (XUnion 5 (SObj sample1))) (DBuf 3) 25 SNull demo_buf = ERet 0 24 buf'.
Proof.
  destruct (xdr_union_roundtrip 0 (fun t => if t =? 5 then Some sample_def else None) 5 sample1 3 25 SNull demo_buf
    sample_def _ _ _ _ _ (Sample 0 None 0 None) (struct_codec 0 sample_fields (Z.le_refl 0) sample_layout))
    as (buf' & E & _); try reflexivity; try lia.
  - exact sample1_valid.
  - vm_compute. congruence.
  - vm_compute. congruence.
  - exists buf'. exact E.
Defined.

Lemma sample_sized : Forall (field_sized 0) sample_fields.
Proof.
  constructor; [exact (int32_sized _ _)|]. constructor; [|constructor; [exact (uint64_sized _ _)|constructor]].
  exact (array_sized (HC := codec_encodes (Codec := int32_codec)) (HS := int32_sized _ _) all_ok 4).
Qed.

Lemma xdr_struct_short_witness :
  exists rc buf', XDR_struct_encoder (Some (fs_field 0 <$> sample_fields)) (SObj sample1) (DBuf 3) 9 demo_buf
    = ERet rc 20 buf' /\ rc < 0 /\ untouched 3 9 demo_buf buf'.
Proof.
  apply (xdr_struct_short 0 sample_fields sample1 3 9 demo_buf);
    [exact sample1_valid|exact sample_sized|vm_compute; reflexivity|lia|lia|vm_compute; congruence|vm_compute; reflexivity].
Defined.

(** A structure with a string that does not fit may fault: once a field
    failed the string is asked for its size with a NULL destination and the
    whole room, finds that it fits, and copies to an address next to NULL. *)
Theorem xdr_struct_string_faults :
  XDR_struct_encoder (Some [id_field; count_field; name_field])
    (SObj (Sample 1 None 2 (Some [65]))) (DBuf 0) 10 (replicate 10 0) = EFault.
Proof. vm_compute. reflexivity. Qed.

(** Two flags and a signed counter in one word. *)
Definition flags : list (BitField (Obj := sample)) :=
  [ BF false 0 4 0 s_count (fun o v => Sample v (s_data o) (s_id o) (s_name o));
    BF true 4 12 16 s_id (fun o v => Sample (s_count o) (s_data o) v (s_name o)) ].

Lemma flags_layout : bf_layout flags.
Proof.
  split; [repeat constructor; simpl; lia|].
  intros pre b post E. destruct pre as [|y1 pre]; [injection E as <- <-|].
  { split_and!; try done.
    - intros c o v Hc. by apply elem_of_nil in Hc.
    - intros c [Hc|Hc]; [by apply elem_of_nil in Hc|].
      apply elem_of_cons in Hc as [->|Hc]; [left; simpl; lia|by apply elem_of_nil in Hc]. }
  injection E as <- E. destruct pre as [|y2 pre]; [injection E as <- <-|].
  { split_and!; try done.
    - intros c o v Hc. apply elem_of_cons in Hc as [->|Hc]; [done|by apply elem_of_nil in Hc].
    - intros c [Hc|Hc]; [|by apply elem_of_nil in Hc].
      apply elem_of_cons in Hc as [->|Hc]; [right; simpl; lia|by apply elem_of_nil in Hc]. }
  injection E as <- E. by destruct pre.
Qed.

Lemma xdr_bitfield_roundtrip_witness :
  exists buf', XDR_bitfield_struct_encoder (Some (bf_field <$> flags)) (SObj (Sample 9 None (-100) None)) (DBuf 3) 8 demo_buf
      = ERet 0 4 buf' /\ untouched 3 4 demo_buf buf' /\
    forall o0, exists o', XDR_bitfield_struct_decoder (Some (bf_field <$> flags)) (drop 3 buf') o0 8
      = DOk 4 o' /\ bf_same flags (Sample 9 None (-100) None) o'.
Proof.
  apply (xdr_bitfield_roundtrip flags (Sample 9 None (-100) None) 3 8 demo_buf);
    [exact flags_layout| |lia|vm_compute; congruence|lia].
  repeat constructor; vm_compute; congruence.
Defined.

Definition sample_reg : registry sample := Reg (<[3%positive := sample_def]> ∅) None.

Lemma xdr_registry_correct_witness :
  definition_ptr (XDR_register_structs sample_reg [3%positive; 4%positive]) 5 = Some 3%positive.
Proof.
  destruct (xdr_registry_correct sample_reg [3%positive; 4%positive] 5) as (_ & -> & _); [exact I|].
  vm_compute. reflexivity.
Defined.

Lemma xdr_populator_correct_witness :
  XDR_definition_for_type (XDR_register_populator sample_reg (Some 9) 1 5) 6 = None.
Proof.
  destruct (xdr_populator_correct sample_reg (Some 9) 1 None 5 6) as (-> & _ & _); [exact I|].
  vm_compute. reflexivity.
Defined.
