(* ===== verification/XdrDict.v ===== *)
(** * XDR dictionaries (xdr.c)

    A dictionary is a table of 29 chains of nodes with a string key, hashed
    with MurmurOAAT32; chains are kept sorted so that equal dictionaries have
    equal encodings.  This file holds the table, its encoder and decoder on top
    of the codecs of XdrCodec.v, and the refinement of a partial map. *)

From stdpp Require Import base list numbers sorting.
From Stdlib Require Import ZArith Lia.
From S2P Require Import Prelude Words CStr XdrCodec.
Open Scope Z_scope.

Definition XDR_HASH_LEN : Z := 29.

(** ** Keys *)

(** [char] is signed. *)
Definition schar (b : Z) : Z := if b <? 128 then b else b - 256.

Definition murmur_step (h b : Z) : Z :=
  let h1 := Z.lxor h (u32 (schar b)) in
  let h2 := u32 (h1 * 0x5bd1e995) in
  Z.lxor h2 (Z.shiftr h2 15).

Definition XDR_dict_bucket (key : list Z) : Z :=
  foldl murmur_step 3323198485 (cstr key) mod XDR_HASH_LEN.

(** [strcmp], of which only the sign matters. *)
Fixpoint strcmp_bytes (a b : list Z) : Z :=
  match a, b with
  | [], [] => 0
  | [], _ :: _ => -1
  | _ :: _, [] => 1
  | x :: a', y :: b' => if x =? y then strcmp_bytes a' b' else x - y
  end.

Definition strcmp (a b : list Z) : Z := strcmp_bytes (cstr a) (cstr b).

(** ** The table *)

Section Dict.
Context {V : Type}.

(** [struct XDR_Dictnode]; [data] is a pointer and may be NULL. *)
Record XDR_Dictnode := DNode { dn_key : list Z; dn_data : option V }.

Record XDR_Dictionary := Dict { d_length : Z; d_node : list (list XDR_Dictnode) }.

Definition dict_zero : XDR_Dictionary := Dict 0 (replicate (Z.to_nat XDR_HASH_LEN) []).

Definition d_bucket (table : XDR_Dictionary) (key : list Z) : nat := Z.to_nat (XDR_dict_bucket key).
Definition d_chain (table : XDR_Dictionary) (key : list Z) : list XDR_Dictnode :=
  default [] (d_node table !! d_bucket table key).

Fixpoint find_node (c : list XDR_Dictnode) (key : list Z) : option nat :=
  match c with
  | [] => None
  | n :: c' => if strcmp (dn_key n) key =? 0 then Some 0%nat else S <$> find_node c' key
  end.

(** The link to the node, as its position in the chain of the key. *)
Definition XDR_dict_lookup_node (table : XDR_Dictionary) (key : option (list Z)) : option nat :=
  match key with
  | None => None
  | Some k => find_node (d_chain table k) k
  end.

Definition node_at (table : XDR_Dictionary) (key : option (list Z)) : option XDR_Dictnode :=
  match key with
  | None => None
  | Some k => XDR_dict_lookup_node table key ≫= fun j => d_chain table k !! j
  end.

Definition XDR_dict_lookup (table : XDR_Dictionary) (key : option (list Z)) : option V :=
  node_at table key ≫= dn_data.

(** The walk to the place of a new node. *)
Fixpoint insert_sorted (node : XDR_Dictnode) (c : list XDR_Dictnode) : list XDR_Dictnode :=
  match c with
  | [] => [node]
  | n :: c' => if strcmp (dn_key node) (dn_key n) <? 0 then node :: c else n :: insert_sorted node c'
  end.

Definition set_node (table : XDR_Dictionary) (i : nat) (c : list XDR_Dictnode) (len : Z) : XDR_Dictionary :=
  Dict len (<[i := c]> (d_node table)).

Definition XDR_dict_add (malloc_ok : bool) (table : XDR_Dictionary) (key : list Z) (value : option V)
    : Z * XDR_Dictionary :=
  match XDR_dict_lookup_node table (Some key) with
  | Some _ => (-1, table)
  | None =>
      if negb malloc_ok then (-2, table)
      else
        let node := DNode (cstr key) value in
        let bucket := d_bucket table (dn_key node) in
        (0, set_node table bucket (insert_sorted node (default [] (d_node table !! bucket)))
              (u32 (d_length table + 1)))
  end.

Definition XDR_dict_remove (table : XDR_Dictionary) (key : option (list Z)) : option V * XDR_Dictionary :=
  match key, XDR_dict_lookup_node table key with
  | Some k, Some j =>
      let c := d_chain table k in
      (c !! j ≫= dn_data,
       set_node table (d_bucket table k) (take j c ++ drop (S j) c) (u32 (d_length table - 1)))
  | _, _ => (None, table)
  end.

Section Walks.
Context {St : Type} (cb : St -> list Z -> option V -> St * Z).

(** The callbacks of [XDR_dict_remove_all] in order; its result is the table
    with empty chains. *)
Fixpoint free_chain (s : St) (c : list XDR_Dictnode) : St :=
  match c with
  | [] => s
  | n :: c' => free_chain (cb s (dn_key n) (dn_data n)).1 c'
  end.

Fixpoint free_chains (s : St) (bs : list (list XDR_Dictnode)) : St :=
  match bs with [] => s | c :: bs' => free_chains (free_chain s c) bs' end.

Definition XDR_dict_remove_all (table : option XDR_Dictionary) (arg : St) : Z * St * option XDR_Dictionary :=
  match table with
  | None => (-1, arg, None)
  | Some t => (0, free_chains arg (d_node t), Some (Dict 0 (replicate (length (d_node t)) [])))
  end.

(** A negative result of the callback ends the walk of the chain, not of the
    table. *)
Fixpoint iterate_nodes (s : St) (c : list XDR_Dictnode) : St :=
  match c with
  | [] => s
  | n :: c' =>
      let '(s1, rc) := cb s (dn_key n) (dn_data n) in
      if rc <? 0 then s1 else iterate_nodes s1 c'
  end.

Fixpoint iterate_chains (s : St) (bs : list (list XDR_Dictnode)) : St :=
  match bs with [] => s | c :: bs' => iterate_chains (iterate_nodes s c) bs' end.

Definition XDR_dict_iterate (table : option XDR_Dictionary) (arg : St) : St :=
  match table with None => arg | Some t => iterate_chains arg (d_node t) end.
End Walks.

(** [same] compares pointers. *)
Definition XDR_dict_lookup_value (same : option V -> bool) (table : option XDR_Dictionary) : option (list Z) :=
  match table with
  | None => None
  | Some t => dn_key <$> List.find (fun n => same (dn_data n)) (concat (d_node t))
  end.

(** ** Encoding *)

(** [struct XDR_dictionary_params], with the buffer. *)
Record params := Params { p_enc_len : Z; p_dst : dptr; p_max : Z; p_res : Z; p_buf : list Z }.

(** A part of an entry, written if nothing failed before. *)
Definition put_part (p : params) (rc sz : Z) (b : list Z) : params :=
  if rc <? 0 then Params (u64 (p_enc_len p + sz)) (DNull 0) (p_max p) rc b
  else Params (u64 (p_enc_len p + sz)) (dadd (p_dst p) sz) (u64 (p_max p - sz)) rc b.

Definition value_ptr (value : option V) : sptr V := match value with Some v => SObj v | None => SNull end.

(** [None] after a fault. *)
Definition XDR_dictionary_encoder_itr (enc : Encoder V) (st : option params) (key : list Z) (value : option V)
    : option params * Z :=
  match st with
  | None => (None, 0)
  | Some p =>
      let writing q := negb (dst_null (p_dst q)) && (0 <=? p_res q) in
      let after_key :=
        if writing p then
          match XDR_encode_string_array (SObj (Some key)) (p_dst p) (p_max p) SNull (p_buf p) with
          | EFault => None
          | ERet rc sz b => Some (put_part p rc sz b)
          end
        else match XDR_encode_string (SObj key) (DNull 0) (p_max p) SNull (p_buf p) with
             | EFault => None
             | ERet _ sz b => Some (Params (u64 (p_enc_len p + sz)) (p_dst p) (p_max p) (p_res p) b)
             end in
      match after_key with
      | None => (None, 0)
      | Some q =>
          (if writing q then
             match enc (value_ptr value) (p_dst q) (p_max q) SNull (p_buf q) with
             | EFault => None
             | ERet rc sz b => Some (put_part q rc sz b)
             end
           else
             match enc (value_ptr value) (DNull 0) (p_max q) SNull (p_buf q) with
             | EFault => None
             | ERet _ sz b => Some (Params (u64 (p_enc_len q + sz)) (p_dst q) (p_max q) (p_res q) b)
             end, 0)
      end
  end.

Definition XDR_dictionary_encoder (table : option XDR_Dictionary) (dst : dptr) (max : Z) (enc : Encoder V)
    (buf : list Z) : eres :=
  match table with
  | None => ERet 0 0 buf
  | Some t =>
      match XDR_encode_uint32 (SObj (d_length t)) dst max SNull buf with
      | EFault => EFault
      | ERet rc sz b =>
          match XDR_dict_iterate (XDR_dictionary_encoder_itr enc) table
                  (Some (put_part (Params 0 dst max 0 b) rc sz b)) with
          | None => EFault
          | Some p => ERet (p_res p) (p_enc_len p) (p_buf p)
          end
      end
  end.

(** ** Decoding *)

(** The values are allocated with a size and zeroed ([ent_size > 0]), or made
    by the decoder, which gets the address of the pointer. *)
Inductive entries := Sized (ent_size : Z) (zero : V) (dec : Decoder V) | Pointers (dec : Decoder (option V)).

Definition decode_value (malloc : Z -> bool) (e : entries) (src : list Z) (max : Z) : dres (option V) :=
  match e with
  | Sized ent_size zero dec =>
      if negb (malloc ent_size) then DErr (-3)
      else match dec src (Some zero) max SNull with
           | DFault => DFault
           | DErr rc => DErr rc
           | DOk sz v => DOk sz (Some v)
           end
  | Pointers dec => dec src (Some None) max SNull
  end.

Fixpoint dict_decode_loop (malloc : Z -> bool) (e : entries) (src : list Z) (max : Z) (n : nat) (dec_len : Z)
    (table : XDR_Dictionary) : dres XDR_Dictionary :=
  match n with
  | O => DOk dec_len table
  | S n' =>
      match XDR_decode_string_array malloc (drop (Z.to_nat dec_len) src) (Some None) (u64 (max - dec_len)) SNull with
      | DFault => DFault
      | DErr rc => DErr rc
      | DOk sz key =>
          let dec_len1 := u64 (dec_len + sz) in
          match decode_value malloc e (drop (Z.to_nat dec_len1) src) (u64 (max - dec_len1)) with
          | DFault => DFault
          | DErr rc => DErr rc
          | DOk sz2 value =>
              let table' := match key with
                            | Some k => (XDR_dict_add (malloc (32 + zlen (cstr k))) table k value).2
                            | None => table
                            end in
              dict_decode_loop malloc e src max n' (u64 (dec_len1 + sz2)) table'
          end
      end
  end.

Definition XDR_dictionary_decoder (malloc : Z -> bool) (e : option entries) (src : list Z)
    (table : option XDR_Dictionary) (max : Z) : dres XDR_Dictionary :=
  match table, e with
  | None, _ => DErr (-1)
  | _, None => DErr (-2)
  | Some t, Some en =>
      match XDR_decode_uint32 src (Some 0) max SNull with
      | DFault => DFault
      | DErr rc => DErr rc
      | DOk sz entries => dict_decode_loop malloc en src max (Z.to_nat entries) sz t
      end
  end.
End Dict.
Arguments XDR_Dictnode : clear implicits.
Arguments XDR_Dictionary : clear implicits.
Arguments entries : clear implicits.

(** ** The dictionary functions of the types *)

Section TypeFunctions.
Context (malloc : Z -> bool).

Definition encode_dict {V} (enc : Encoder V) : Encoder (XDR_Dictionary V) := fun src dst max _ buf =>
  match src with
  | SWild => EFault
  | SNull => XDR_dictionary_encoder None dst max enc buf
  | SObj t => XDR_dictionary_encoder (Some t) dst max enc buf
  end.

Definition decode_dict {V} (e : entries V) : Decoder (XDR_Dictionary V) := fun src dst max _ =>
  XDR_dictionary_decoder malloc (Some e) src dst max.

Definition XDR_encode_int32_dictionary := encode_dict XDR_encode_int32.
Definition XDR_encode_int64_dictionary := encode_dict XDR_encode_int64.
Definition XDR_encode_uint64_dictionary := encode_dict XDR_encode_uint64.
Definition XDR_encode_float_dictionary := encode_dict XDR_encode_float.
Definition XDR_encode_double_dictionary := encode_dict XDR_encode_double.
Definition XDR_decode_int32_dictionary := decode_dict (Sized 4 0 XDR_decode_int32).
Definition XDR_decode_uint32_dictionary := decode_dict (Sized 4 0 XDR_decode_uint32).
Definition XDR_decode_int64_dictionary := decode_dict (Sized 8 0 XDR_decode_int64).
Definition XDR_decode_uint64_dictionary := decode_dict (Sized 8 0 XDR_decode_uint64).
Definition XDR_decode_float_dictionary := decode_dict (Sized 4 (replicate 4 0) XDR_decode_float).
Definition XDR_decode_double_dictionary := decode_dict (Sized 8 (replicate 8 0) XDR_decode_double).
Definition XDR_decode_string_arr_dictionary := decode_dict (Pointers (XDR_decode_string_array malloc)).
Definition XDR_decode_byte_arr_dictionary := decode_dict (Pointers (XDR_decode_byte_array malloc)).

(** [XDR_encode_uint32_dictionary] passes the decoder as the encoder: it reads
    the word at the value and stores it, in host order, at the destination. *)
Definition decode_uint32_as_encoder : Encoder Z := fun src dst max _ buf =>
  match src with
  | SObj v =>
      match XDR_decode_uint32 (le_bytes 4 v) (Some 0) max SNull with
      | DFault => EFault
      | DErr rc => ERet rc 0 buf
      | DOk inc x => estore 0 inc buf dst (le_bytes 4 x)
      end
  | _ => if max <? 4 then ERet (-1) 0 buf else EFault
  end.

Definition XDR_encode_uint32_dictionary := encode_dict decode_uint32_as_encoder.
End TypeFunctions.

(** ** The order of keys *)

Lemma strcmp_eq a b : strcmp_bytes a b = 0 <-> a = b.
Proof.
  revert b. induction a as [|x a IH]; intros [|y b]; simpl; try done.
  destruct (Z.eqb_spec x y) as [->|Hne]; [rewrite IH; split; congruence|].
  split; [lia|congruence].
Qed.

Lemma strcmp_trans a b c : strcmp_bytes a b < 0 -> strcmp_bytes b c < 0 -> strcmp_bytes a c < 0.
Proof.
  revert b c. induction a as [|x a IH]; intros [|y b] [|z c]; simpl; try lia.
  destruct (Z.eqb_spec x y), (Z.eqb_spec y z), (Z.eqb_spec x z); subst; try lia. apply IH.
Qed.

Lemma strcmp_sym a b : strcmp_bytes a b < 0 <-> 0 < strcmp_bytes b a.
Proof.
  revert b. induction a as [|x a IH]; intros [|y b]; simpl; try lia.
  destruct (Z.eqb_spec x y), (Z.eqb_spec y x); subst; try lia. apply IH.
Qed.

Lemma strcmp_refl a : strcmp_bytes a a = 0.
Proof. by apply strcmp_eq. Qed.

Lemma bucket_cstr k : XDR_dict_bucket (cstr k) = XDR_dict_bucket k.
Proof. unfold XDR_dict_bucket. by rewrite cstr_idem. Qed.

Lemma bucket_range k : 0 <= XDR_dict_bucket k < XDR_HASH_LEN.
Proof. apply Z.mod_pos_bound. done. Qed.

(** ** Invariant and contents *)

Section DictFacts.
Context {V : Type}.
Implicit Types (t : XDR_Dictionary V) (c : list (XDR_Dictnode V)) (n : XDR_Dictnode V) (k : list Z).

Definition nlt n n' : Prop := strcmp_bytes (dn_key n) (dn_key n') < 0.

Definition node_ok (i : nat) n : Prop :=
  cstr (dn_key n) = dn_key n /\ Z.to_nat (XDR_dict_bucket (dn_key n)) = i.

Definition chain_ok (i : nat) c : Prop := Forall (node_ok i) c /\ StronglySorted nlt c.

Definition dict_wf t : Prop :=
  length (d_node t) = 29%nat /\ (forall i c, d_node t !! i = Some c -> chain_ok i c) /\
  d_length t = zlen (concat (d_node t)) /\ d_length t < 2 ^ 32.

Definition ents t : list (XDR_Dictnode V) := concat (d_node t).

(** The entry of a key: [None] if there is none. *)
Definition dget t k : option (option V) := dn_data <$> node_at t (Some k).

Lemma nlt_irrefl n : ~ nlt n n.
Proof. unfold nlt. rewrite strcmp_refl. lia. Qed.

Lemma nlt_trans n1 n2 n3 : nlt n1 n2 -> nlt n2 n3 -> nlt n1 n3.
Proof. apply strcmp_trans. Qed.

Lemma sorted_NoDup c : StronglySorted nlt c -> NoDup c.
Proof.
  induction 1 as [|n c Hs IH Hf]; constructor; [|done]. intros Hin.
  apply (nlt_irrefl n). exact (proj1 (list.Forall_forall _ _) Hf n Hin).
Qed.

(** Two nodes of a chain with the same key are the same. *)
Lemma sorted_key c n n' : StronglySorted nlt c -> n ∈ c -> n' ∈ c -> dn_key n = dn_key n' -> n = n'.
Proof.
  induction 1 as [|m c Hs IH Hf]; intros H1 H2 E; [by apply elem_of_nil in H1|].
  rewrite list.Forall_forall in Hf. apply elem_of_cons in H1 as [->|H1]; apply elem_of_cons in H2 as [->|H2]; try done.
  - pose proof (Hf _ H2) as Hl. unfold nlt in Hl. rewrite E, strcmp_refl in Hl. lia.
  - pose proof (Hf _ H1) as Hl. unfold nlt in Hl. rewrite E, strcmp_refl in Hl. lia.
  - by apply IH.
Qed.

Lemma elem_ents t n : n ∈ ents t <-> exists i c, d_node t !! i = Some c /\ n ∈ c.
Proof.
  unfold ents. rewrite list_elem_of_In, in_concat. split.
  - intros (c & Hc & Hn). apply list_elem_of_In, list_elem_of_lookup in Hc as [i Hi].
    exists i, c. split; [done|by apply list_elem_of_In].
  - intros (i & c & Hi & Hn). exists c. split; [|by apply list_elem_of_In].
    apply list_elem_of_In. by eapply list_elem_of_lookup_2.
Qed.

Lemma chain_of t k : dict_wf t -> d_node t !! d_bucket t k = Some (d_chain t k).
Proof.
  intros (Hl & _). unfold d_chain. pose proof (bucket_range k) as Hr. unfold XDR_HASH_LEN in Hr.
  destruct (lookup_lt_is_Some_2 (d_node t) (d_bucket t k)) as [c Hc]; [unfold d_bucket; lia|].
  by rewrite Hc.
Qed.

Lemma elem_chain t n k : dict_wf t -> n ∈ ents t -> dn_key n = cstr k -> n ∈ d_chain t k.
Proof.
  intros Hw Hn Hk. apply elem_ents in Hn as (i & c & Hi & Hn).
  pose proof Hw as (_ & Hc & _). destruct (Hc i c Hi) as [Hf _].
  destruct (proj1 (list.Forall_forall _ _) Hf n Hn) as [_ Hb]. rewrite Hk, bucket_cstr in Hb.
  pose proof (chain_of t k Hw) as Hch. unfold d_bucket in Hch. rewrite Hb, Hi in Hch. by injection Hch as <-.
Qed.

Lemma find_node_spec c k :
  Forall (fun n => cstr (dn_key n) = dn_key n) c ->
  match find_node c k with
  | Some j => exists n, c !! j = Some n /\ dn_key n = cstr k
  | None => forall n, n ∈ c -> dn_key n <> cstr k
  end.
Proof.
  induction 1 as [|n c Hn Hf IH]; simpl.
  - intros n Hn. by apply elem_of_nil in Hn.
  - unfold strcmp. rewrite Hn. destruct (Z.eqb_spec (strcmp_bytes (dn_key n) (cstr k)) 0) as [E|E].
    + exists n. split; [done|]. by apply strcmp_eq.
    + destruct (find_node c k) as [j|]; simpl; [exact IH|].
      intros m Hm. apply elem_of_cons in Hm as [->|Hm]; [|by apply IH].
      intros Ek. apply E. by apply strcmp_eq.
Qed.

Lemma chain_keys t k : dict_wf t -> Forall (fun n => cstr (dn_key n) = dn_key n) (d_chain t k).
Proof.
  intros Hw. destruct (proj1 (proj2 Hw) _ _ (chain_of t k Hw)) as [Hf _].
  eapply Forall_impl; [exact Hf|]. by intros n [H _].
Qed.

Lemma node_at_Some t k n : dict_wf t -> node_at t (Some k) = Some n -> n ∈ ents t /\ dn_key n = cstr k.
Proof.
  intros Hw. unfold node_at, XDR_dict_lookup_node. pose proof (find_node_spec _ k (chain_keys t k Hw)) as Hs.
  destruct (find_node (d_chain t k) k) as [j|]; [|done]. simpl. destruct Hs as (n' & Hj & Hk). rewrite Hj.
  intros [= <-]. split; [|done]. apply elem_ents. exists (d_bucket t k), (d_chain t k).
  split; [by apply chain_of|by eapply list_elem_of_lookup_2].
Qed.

(** The entry of a key, as a member of the table. *)
Lemma dget_elem t k v : dict_wf t -> dget t k = Some v <-> DNode (cstr k) v ∈ ents t.
Proof.
  intros Hw. unfold dget. split.
  - destruct (node_at t (Some k)) as [n|] eqn:E; [|done]. intros [= <-].
    destruct (node_at_Some t k n Hw E) as [Hin Hk]. rewrite <- Hk. by destruct n.
  - intros Hin. pose proof (elem_chain t _ k Hw Hin eq_refl) as Hc.
    destruct (proj1 (proj2 Hw) _ _ (chain_of t k Hw)) as [_ Hs].
    unfold node_at, XDR_dict_lookup_node. pose proof (find_node_spec _ k (chain_keys t k Hw)) as Hf.
    destruct (find_node (d_chain t k) k) as [j|]; [|by destruct (Hf _ Hc)].
    destruct Hf as (n & Hj & Hk). simpl. rewrite Hj. simpl.
    apply (list_elem_of_lookup_2 _ _ _) in Hj.
    by rewrite (sorted_key _ n (DNode (cstr k) v) Hs Hj Hc Hk).
Qed.

(** Tables with the same entries are equal: the order of a chain leaves no
    choice. *)
Lemma dict_ext t1 t2 :
  dict_wf t1 -> dict_wf t2 -> (forall n, n ∈ ents t1 <-> n ∈ ents t2) -> t1 = t2.
Proof.
  intros W1 W2 Hm. pose proof W1 as (L1 & C1 & N1 & _). pose proof W2 as (L2 & C2 & N2 & _).
  assert (Hn : d_node t1 = d_node t2).
  { apply list_eq. intros i. destruct (d_node t1 !! i) as [c1|] eqn:E1.
    2:{ apply lookup_ge_None in E1. symmetry. apply lookup_ge_None. lia. }
    destruct (lookup_lt_is_Some_2 (d_node t2) i) as [c2 E2].
    { apply lookup_lt_Some in E1. lia. }
    rewrite E2. f_equal. destruct (C1 i c1 E1) as [F1 S1]. destruct (C2 i c2 E2) as [F2 S2].
    apply (StronglySorted_unique_strong nlt); try done.
    - intros x y _ _ Hxy Hyx. destruct (nlt_irrefl x). by eapply nlt_trans.
    - apply NoDup_Permutation; [by apply sorted_NoDup|by apply sorted_NoDup|].
      assert (G : forall t t' c c', dict_wf t -> dict_wf t' -> (forall n, n ∈ ents t -> n ∈ ents t') ->
        d_node t !! i = Some c -> d_node t' !! i = Some c' -> forall x, x ∈ c -> x ∈ c').
      { intros t t' c c' W W' Hs E E' x Hx. destruct (proj1 (proj2 W) i c E) as [F _].
        destruct (proj1 (list.Forall_forall _ _) F x Hx) as [Hk Hb].
        assert (Hin : x ∈ ents t') by (apply Hs, elem_ents; eauto).
        pose proof (elem_chain t' x (dn_key x) W' Hin (eq_sym Hk)) as Hc.
        pose proof (chain_of t' (dn_key x) W') as Hch. unfold d_bucket in Hch. rewrite Hb, E' in Hch.
        by injection Hch as ->. }
      intros x. split; [apply (G t1 t2)|apply (G t2 t1)]; try done; intros; by apply Hm. }
  destruct t1 as [l1 b1], t2 as [l2 b2]. simpl in *. subst b2. by rewrite N1, N2.
Qed.

(** ** Changing a chain *)

Lemma concat_set_length {A} (bs : list (list A)) (i : nat) (c c' : list A) :
  bs !! i = Some c -> zlen (concat (<[i := c']> bs)) = zlen (concat bs) - zlen c + zlen c'.
Proof.
  revert i. induction bs as [|b bs IH]; intros [|i] H; try done; simpl in *.
  - injection H as ->. rewrite !length_app. lia.
  - rewrite !length_app, !Nat2Z.inj_add, (IH i H). lia.
Qed.

(** A chain replaced by another one with other entries. *)
Lemma set_node_wf t i c c' len :
  dict_wf t -> d_node t !! i = Some c -> chain_ok i c' ->
  len = d_length t - zlen c + zlen c' -> len < 2 ^ 32 ->
  dict_wf (set_node t i c' len) /\
  forall n, n ∈ ents (set_node t i c' len) <-> n ∈ c' \/ (n ∈ ents t /\ Z.to_nat (XDR_dict_bucket (dn_key n)) <> i).
Proof.
  intros Hw Hi Hc' Hlen Hlt. pose proof Hw as (L & C & N & M). pose proof (lookup_lt_Some _ _ _ Hi) as Hil. split.
  - split; [simpl; by rewrite length_insert|]. split; [|split; [|done]].
    + intros j b. simpl. destruct (decide (i = j)) as [<-|Hne].
      * rewrite list_lookup_insert_eq by done. by intros [= <-].
      * rewrite list_lookup_insert_ne by done. apply C.
    + cbn [set_node d_length d_node]. by rewrite (concat_set_length _ i c), Hlen, N.
  - intros n. rewrite elem_ents. simpl. split.
    + intros (j & b & Hj & Hn). destruct (decide (i = j)) as [<-|Hne].
      * rewrite list_lookup_insert_eq in Hj by done. injection Hj as <-. by left.
      * rewrite list_lookup_insert_ne in Hj by done. right. split; [apply elem_ents; eauto|].
        destruct (C j b Hj) as [F _]. destruct (proj1 (list.Forall_forall _ _) F n Hn) as [_ ->]. congruence.
    + intros [Hn|[Hn Hb]].
      * exists i, c'. by rewrite list_lookup_insert_eq.
      * apply elem_ents in Hn as (j & b & Hj & Hn). exists j, b. split; [|done].
        rewrite list_lookup_insert_ne; [done|]. intros <-. apply Hb.
        destruct (C i b Hj) as [F _]. by destruct (proj1 (list.Forall_forall _ _) F n Hn).
Qed.

Lemma elem_insert_sorted n c m : m ∈ insert_sorted n c <-> m = n \/ m ∈ c.
Proof.
  induction c as [|x c IH]; simpl; [rewrite elem_of_cons, elem_of_nil; tauto|].
  destruct (_ <? 0); [by rewrite elem_of_cons|]. rewrite !elem_of_cons, IH. tauto.
Qed.

Lemma insert_sorted_length n c : length (insert_sorted n c) = S (length c).
Proof. induction c as [|x c IH]; simpl; [done|]. destruct (_ <? 0); simpl; [done|by rewrite IH]. Qed.

Lemma insert_sorted_ok i n c :
  chain_ok i c -> node_ok i n -> (forall m, m ∈ c -> dn_key m <> dn_key n) -> chain_ok i (insert_sorted n c).
Proof.
  intros [F S] Hn Hne. split.
  - apply list.Forall_forall. intros m Hm. apply elem_insert_sorted in Hm as [->|Hm]; [done|].
    exact (proj1 (list.Forall_forall _ _) F m Hm).
  - assert (Fk : Forall (fun m => cstr (dn_key m) = dn_key m) c)
      by (eapply Forall_impl; [exact F|]; by intros m []).
    clear F. destruct Hn as [Hk _]. induction S as [|x c S IH Hf]; simpl; [repeat constructor|].
    apply Forall_cons_1 in Fk as [Hx Fk]. unfold strcmp. rewrite Hk, Hx.
    destruct (Z.ltb_spec (strcmp_bytes (dn_key n) (dn_key x)) 0) as [Hlt|Hge].
    + constructor; [by constructor|]. constructor; [done|].
      eapply Forall_impl; [exact Hf|]. intros m Hm. by eapply nlt_trans.
    + constructor; [apply IH; [intros m Hm; apply Hne; apply elem_of_cons; by right|done]|].
      apply list.Forall_forall. intros m Hm. apply elem_insert_sorted in Hm as [->|Hm].
      * unfold nlt. apply strcmp_sym.
        assert (strcmp_bytes (dn_key n) (dn_key x) <> 0); [|lia].
        rewrite strcmp_eq. intros E. apply (Hne x); [apply elem_of_cons; by left|done].
      * exact (proj1 (list.Forall_forall _ _) Hf m Hm).
Qed.

Lemma dict_zero_wf : dict_wf dict_zero /\ forall n, ~ n ∈ ents dict_zero.
Proof.
  split.
  - split; [done|]. split; [|done]. intros i c H. apply lookup_replicate_1 in H as [-> _]. split; constructor.
  - intros n Hn. apply elem_ents in Hn as (i & c & Hi & Hn).
    apply lookup_replicate_1 in Hi as [-> _]. by apply elem_of_nil in Hn.
Qed.

Lemma dget_None t k : dict_wf t -> dget t k = None -> XDR_dict_lookup_node t (Some k) = None.
Proof.
  intros Hw Hk. unfold dget, node_at in Hk.
  destruct (XDR_dict_lookup_node t (Some k)) as [j|] eqn:E; [|done].
  unfold XDR_dict_lookup_node in E. pose proof (find_node_spec _ k (chain_keys t k Hw)) as Hf.
  rewrite E in Hf. destruct Hf as (n & Hj & _). simpl in Hk. by rewrite Hj in Hk.
Qed.

(** Adding a key that is not there. *)
Lemma dict_add_new t k v :
  dict_wf t -> dget t k = None -> d_length t + 1 < 2 ^ 32 ->
  exists t', XDR_dict_add true t k v = (0, t') /\ dict_wf t' /\ d_length t' = d_length t + 1 /\
    forall n, n ∈ ents t' <-> n = DNode (cstr k) v \/ n ∈ ents t.
Proof.
  intros Hw Hk Hl. pose proof Hw as (L & C & N & M).
  pose proof (dget_None t k Hw Hk) as Hnone.
  assert (Hfresh : forall m, m ∈ d_chain t k -> dn_key m <> cstr k).
  { unfold XDR_dict_lookup_node in Hnone. pose proof (find_node_spec _ k (chain_keys t k Hw)) as Hf.
    by rewrite Hnone in Hf. }
  unfold XDR_dict_add. rewrite Hnone. simpl negb. cbv iota zeta. cbn [dn_key].
  assert (Hb : d_bucket t (cstr k) = d_bucket t k) by (unfold d_bucket; by rewrite bucket_cstr).
  rewrite Hb, (chain_of t k Hw). simpl default. eexists. split; [done|].
  assert (Hnok : node_ok (d_bucket t k) (DNode (cstr k) v)).
  { split; simpl; [apply cstr_idem|]. by rewrite bucket_cstr. }
  assert (Hu : u32 (d_length t + 1) = d_length t + 1) by (apply u32_small; lia). rewrite Hu.
  destruct (set_node_wf t (d_bucket t k) (d_chain t k) (insert_sorted (DNode (cstr k) v) (d_chain t k))
    (d_length t + 1) Hw (chain_of t k Hw)) as [Hw' Hin].
  - by apply insert_sorted_ok; [apply C, chain_of| |].
  - rewrite insert_sorted_length. lia.
  - done.
  - split; [exact Hw'|]. split; [done|]. intros n. rewrite Hin, elem_insert_sorted. split.
    + intros [[->|Hn]|[Hn _]]; [by left| |by right]. right. apply elem_ents.
      exists (d_bucket t k), (d_chain t k). split; [by apply chain_of|done].
    + intros [->|Hn]; [left; by left|].
      destruct (decide (Z.to_nat (XDR_dict_bucket (dn_key n)) = d_bucket t k)) as [Hb'|Hb'].
      * left. right. pose proof Hn as Hn0. apply elem_ents in Hn0 as (i & c & Hi & Hc).
        destruct (proj1 (list.Forall_forall _ _) (proj1 (C i c Hi)) n Hc) as [_ Hi'].
        rewrite Hb' in Hi'. subst i. rewrite (chain_of t k Hw) in Hi. by injection Hi as ->.
      * right. by split.
Qed.

(** Adding to a dictionary: a key that is present is refused with -1, a
    failed allocation with -2, and the table stays as it is; otherwise the
    result is 0, the key has the value, every other key is as before, and the
    invariant holds: 29 chains, each with the keys of its hash in strictly
    increasing order, and the length is the number of entries. *)
Theorem dict_add_correct t k v malloc_ok :
  dict_wf t -> d_length t + 1 < 2 ^ 32 ->
  let '(r, t') := XDR_dict_add malloc_ok t k v in
  dict_wf t' /\
  match dget t k, malloc_ok with
  | Some _, _ => r = -1 /\ t' = t
  | None, false => r = -2 /\ t' = t
  | None, true =>
      r = 0 /\ d_length t' = d_length t + 1 /\
      forall k', dget t' k' = if decide (cstr k' = cstr k) then Some v else dget t k'
  end.
Proof.
  intros Hw Hl. destruct (dget t k) as [v0|] eqn:Ek.
  - assert (Hs : is_Some (XDR_dict_lookup_node t (Some k))).
    { unfold dget, node_at in Ek. by destruct (XDR_dict_lookup_node t (Some k)). }
    unfold XDR_dict_add. by destruct Hs as [j ->].
  - destruct malloc_ok.
    + destruct (dict_add_new t k v Hw Ek Hl) as (t' & -> & Hw' & Hlen & Hin). split_and!; try done.
      intros k'. apply option_eq. intros x. rewrite (dget_elem t' k' x Hw'), Hin.
      case_decide as Hc.
      * rewrite Hc. split; [|intros [= <-]; by left].
        intros [[= <-]|Hn]; [done|]. apply (dget_elem t k x Hw) in Hn. congruence.
      * rewrite (dget_elem t k' x Hw). split; [|by right]. intros [[= E _]|Hn]; [done|exact Hn].
    + unfold XDR_dict_add. by rewrite (dget_None t k Hw Ek).
Qed.

Lemma sorted_drop_mid l1 n l2 : StronglySorted nlt (l1 ++ n :: l2) -> StronglySorted nlt (l1 ++ l2).
Proof.
  induction l1 as [|m l1 IH]; simpl; intros H; apply StronglySorted_inv in H as [H Hf]; [done|].
  constructor; [by apply IH|]. apply Forall_app in Hf as [F1 F2]. apply Forall_cons_1 in F2 as [_ F2].
  apply Forall_app. by split.
Qed.

(** Removing from a dictionary returns the value of the key and takes
    exactly that entry out; a key that is not there, or NULL, changes
    nothing. *)
Theorem dict_remove_correct t k :
  dict_wf t ->
  XDR_dict_remove t None = (None, t) /\
  let '(v, t') := XDR_dict_remove t (Some k) in
  dict_wf t' /\
  match dget t k with
  | None => v = None /\ t' = t
  | Some v0 =>
      v = v0 /\ d_length t' = d_length t - 1 /\
      forall k', dget t' k' = if decide (cstr k' = cstr k) then None else dget t k'
  end.
Proof.
  intros Hw. split; [done|]. pose proof Hw as (L & C & N & M).
  destruct (dget t k) as [v0|] eqn:Ek.
  2:{ unfold XDR_dict_remove. by rewrite (dget_None t k Hw Ek). }
  pose proof (find_node_spec _ k (chain_keys t k Hw)) as Hf.
  assert (Hj : exists j, XDR_dict_lookup_node t (Some k) = Some j /\ dn_data <$> d_chain t k !! j = Some v0).
  { unfold dget, node_at in Ek. destruct (XDR_dict_lookup_node t (Some k)) as [j|]; [|done]. simpl in Ek. eauto. }
  destruct Hj as (j & Hj & Hv). unfold XDR_dict_remove. rewrite Hj.
  unfold XDR_dict_lookup_node in Hj. rewrite Hj in Hf. destruct Hf as (n & Hn & Hk).
  rewrite Hn in Hv |- *. simpl in Hv. injection Hv as Hv. simpl mbind.
  set (c := d_chain t k) in *. pose proof (take_drop_middle c j n Hn) as Hsplit.
  destruct (C _ _ (chain_of t k Hw)) as [HF HS]. fold c in HF, HS.
  assert (Hpos : 0 < zlen c /\ zlen c <= d_length t).
  { rewrite N. pose proof (lookup_lt_Some _ _ _ Hn). split; [lia|].
    pose proof (concat_set_length (d_node t) (d_bucket t k) c [] (chain_of t k Hw)). simpl in *. lia. }
  rewrite u32_small by lia.
  assert (Hel : forall m, m ∈ take j c ++ drop (S j) c <-> m ∈ c /\ m <> n).
  { intros m. pose proof (sorted_NoDup c HS) as Hnd. rewrite <- Hsplit in Hnd.
    rewrite <- Hsplit at 3. rewrite !elem_of_app, elem_of_cons.
    apply NoDup_app in Hnd as (_ & Hd & Hnd). apply NoDup_cons in Hnd as [Hnn _].
    split; [intros [H|H]; split; try tauto|intros [[H|[H|H]] Hne]; tauto].
    - intros ->. apply (Hd n H). apply elem_of_cons. by left.
    - by intros ->. }
  destruct (set_node_wf t (d_bucket t k) c (take j c ++ drop (S j) c) (d_length t - 1) Hw (chain_of t k Hw))
    as [Hw' Hin].
  - split.
    + apply list.Forall_forall. intros m Hm. apply Hel in Hm as [Hm _].
      exact (proj1 (list.Forall_forall _ _) HF m Hm).
    + apply (sorted_drop_mid _ n). by rewrite Hsplit.
  - assert (Hlen : length c = S (length (take j c ++ drop (S j) c)))
      by (rewrite <- Hsplit at 1; rewrite !length_app; simpl; lia). lia.
  - lia.
  - split; [exact Hw'|]. split_and!; try done.
    intros k'. apply option_eq. intros x. rewrite (dget_elem _ k' x Hw'), Hin, Hel.
    assert (Hbk : d_bucket t k = Z.to_nat (XDR_dict_bucket k)) by done.
    case_decide as Hc.
    + split; [|done]. rewrite Hc. intros [[Hc1 Hne]|[_ Hb]].
      * destruct Hne. apply (sorted_key c); try done. by eapply list_elem_of_lookup_2.
      * simpl in Hb. by rewrite bucket_cstr in Hb.
    + rewrite (dget_elem t k' x Hw). split.
      * intros [[Hc1 _]|[Hn1 _]]; [|done]. apply elem_ents. exists (d_bucket t k), c.
        split; [by apply chain_of|done].
      * intros Hn1. destruct (decide (Z.to_nat (XDR_dict_bucket (cstr k')) = d_bucket t k)) as [Hb|Hb].
        -- left. split; [|intros <-; simpl in Hk; congruence].
           apply elem_ents in Hn1 as (i & c0 & Hi & Hc0).
           destruct (proj1 (list.Forall_forall _ _) (proj1 (C i c0 Hi)) _ Hc0) as [_ Hi'].
           simpl in Hi'. rewrite Hb in Hi'. subst i. rewrite (chain_of t k Hw) in Hi. by injection Hi as <-.
        -- right. by split.
Qed.

(** The canonical form: two dictionaries with the same entries are the
    same table, so they are also encoded to the same bytes, in whatever order
    the entries were added. *)
Theorem dict_canonical t1 t2 :
  dict_wf t1 -> dict_wf t2 -> (forall k, dget t1 k = dget t2 k) ->
  t1 = t2 /\ forall dst max (enc : Encoder V) buf,
    XDR_dictionary_encoder (Some t1) dst max enc buf = XDR_dictionary_encoder (Some t2) dst max enc buf.
Proof.
  intros W1 W2 Hg. assert (t1 = t2) as ->; [|done]. apply dict_ext; try done.
  assert (G : forall t t', dict_wf t -> dict_wf t' -> (forall k, dget t k = dget t' k) ->
    forall n, n ∈ ents t -> n ∈ ents t').
  { intros t t' W W' H n Hn. destruct n as [k v].
    assert (Hk : cstr k = k).
    { apply elem_ents in Hn as (i & c & Hi & Hc).
      by destruct (proj1 (list.Forall_forall _ _) (proj1 (proj1 (proj2 W) i c Hi)) _ Hc). }
    rewrite <- Hk in Hn |- *. apply (dget_elem t' k v W'). rewrite <- H. by apply (dget_elem t k v W). }
  intros n. split; [by apply (G t1 t2)|]. apply (G t2 t1); try done.
Qed.

(** The walk with a callback that does not ask to stop visits the entries in
    order. *)
Lemma iterate_all {St} (cb : St -> list Z -> option V -> St * Z) t s :
  (forall s k v, 0 <= (cb s k v).2) ->
  XDR_dict_iterate cb (Some t) s = foldl (fun s n => (cb s (dn_key n) (dn_data n)).1) s (ents t).
Proof.
  intros Hcb. unfold ents. simpl. generalize (d_node t) as bs. intros bs. revert s.
  assert (G : forall c s, iterate_nodes cb s c = foldl (fun s n => (cb s (dn_key n) (dn_data n)).1) s c).
  { induction c as [|n c IH]; intros s; simpl; [done|]. pose proof (Hcb s (dn_key n) (dn_data n)) as H.
    destruct (cb s (dn_key n) (dn_data n)) as [s1 rc]. simpl in *.
    rewrite (proj2 (Z.ltb_ge rc 0)) by done. apply IH. }
  induction bs as [|c bs IH]; intros s; simpl; [done|]. by rewrite IH, G, foldl_app.
Qed.

Lemma concat_chains_NoDup (bs : list (list (XDR_Dictnode V))) i0 :
  (forall j c, bs !! j = Some c -> chain_ok (i0 + j) c) -> NoDup (concat bs).
Proof.
  revert i0. induction bs as [|c bs IH]; intros i0 H; simpl; [constructor|].
  apply NoDup_app. split_and!.
  - apply sorted_NoDup. exact (proj2 (H 0%nat c eq_refl)).
  - intros n Hn Hin. apply list_elem_of_In, in_concat in Hin as (b & Hb & Hnb).
    apply list_elem_of_In, list_elem_of_lookup in Hb as [j Hj]. apply list_elem_of_In in Hnb.
    destruct (proj1 (list.Forall_forall _ _) (proj1 (H 0%nat c eq_refl)) n Hn) as [_ E1].
    destruct (proj1 (list.Forall_forall _ _) (proj1 (H (S j) b Hj)) n Hnb) as [_ E2]. lia.
  - apply (IH (S i0)). intros j b Hj. replace (S i0 + j)%nat with (i0 + S j)%nat by lia. by apply H.
Qed.

Lemma ents_keys_NoDup t : dict_wf t -> NoDup (dn_key <$> ents t).
Proof.
  intros Hw. pose proof Hw as (_ & C & _).
  apply NoDup_fmap_2_strong; [|by apply (concat_chains_NoDup _ 0)].
  intros n n' Hn Hn' E. assert (Hk : cstr (dn_key n) = dn_key n).
  { apply elem_ents in Hn as (i & c & Hi & Hc).
    by destruct (proj1 (list.Forall_forall _ _) (proj1 (C i c Hi)) _ Hc). }
  destruct (C _ _ (chain_of t (dn_key n) Hw)) as [_ Hs].
  apply (sorted_key _ n n' Hs); try done.
  - by apply elem_chain.
  - apply elem_chain; try done. congruence.
Qed.
End DictFacts.

(** ** Encoding and decoding *)

Section DictCodec.
Context {V : Type} {e : Encoder V} {d : Decoder V} {wire : V -> list Z} {slack : Z}.
Context {valid : sptr Z -> V -> Prop}.
Implicit Types (t : XDR_Dictionary V) (n : XDR_Dictnode V) (l : list (XDR_Dictnode V)).

Definition entry_wire n : list Z :=
  string_wire (Some (dn_key n)) ++ match dn_data n with Some v => wire v | None => [] end.

Definition entries_wire l : list Z := concat (entry_wire <$> l).

Definition dict_wire t : list Z := be32 (d_length t) ++ entries_wire (ents t).

(** An entry with a value, and a key that is not too long. *)
Definition entry_valid n : Prop :=
  cstr (dn_key n) = dn_key n /\ zlen (dn_key n) + 40 < 2 ^ 32 /\
  exists v, dn_data n = Some v /\ valid SNull v.

Lemma entries_wire_cons n l : entries_wire (n :: l) = entry_wire n ++ entries_wire l.
Proof. done. Qed.

Lemma put_part_ok len off max b0 sz b :
  0 <= len -> 0 <= sz <= max -> len + max < 2 ^ 64 ->
  put_part (Params len (DBuf off) max 0 b0) 0 sz b = Params (len + sz) (DBuf (off + sz)) (max - sz) 0 b.
Proof. intros. unfold put_part. simpl. by rewrite !u64_small by lia. Qed.

Section Encode.
Context `{HE : !Encodes e wire slack valid}.

Lemma encoder_itr_ok n len off max buf :
  entry_valid n -> 0 <= len -> 0 <= off -> off + max <= zlen buf -> len + max < 2 ^ 64 ->
  zlen (entry_wire n) + slack <= max ->
  XDR_dictionary_encoder_itr e (Some (Params len (DBuf off) max 0 buf)) (dn_key n) (dn_data n)
  = (Some (Params (len + zlen (entry_wire n)) (DBuf (off + zlen (entry_wire n))) (max - zlen (entry_wire n)) 0
       (splice buf off (entry_wire n))), 0).
Proof.
  intros (Hk & Hl & v & Hd & Hv) Hlen Ho Hb Hm Hf. pose proof (slack_nonneg (e := e)) as Hsl.
  unfold entry_wire in *. rewrite Hd in *. rewrite length_app, Nat2Z.inj_add in *.
  set (kw := string_wire (Some (dn_key n))) in *.
  unfold XDR_dictionary_encoder_itr. cbn [p_dst p_res p_max p_buf p_enc_len].
  change (negb (dst_null (DBuf off)) && (0 <=? 0)) with true. cbv iota zeta.
  rewrite encode_string_ok; [|rewrite Hk; lia|lia|lia|fold kw; lia]. fold kw.
  rewrite put_part_ok by lia. cbn [p_dst p_res p_max p_buf p_enc_len value_ptr].
  change (negb (dst_null (DBuf (off + zlen kw))) && (0 <=? 0)) with true. cbv iota.
  rewrite (enc_ok v (off + zlen kw)); [|done|lia| |lia|lia].
  2:{ rewrite splice_length by lia. lia. }
  rewrite put_part_ok by lia. rewrite splice_splice by lia.
  do 2 f_equal. f_equal; [lia|f_equal; lia|lia].
Qed.

Lemma encoder_fold_ok l len off max buf :
  Forall entry_valid l -> 0 <= len -> 0 <= off -> off + max <= zlen buf -> len + max < 2 ^ 64 ->
  zlen (entries_wire l) + slack <= max ->
  foldl (fun s n => (XDR_dictionary_encoder_itr e s (dn_key n) (dn_data n)).1)
    (Some (Params len (DBuf off) max 0 buf)) l
  = Some (Params (len + zlen (entries_wire l)) (DBuf (off + zlen (entries_wire l)))
            (max - zlen (entries_wire l)) 0 (splice buf off (entries_wire l))).
Proof.
  pose proof (slack_nonneg (e := e)) as Hsl.
  revert len off max buf. induction l as [|n l IH]; intros len off max buf Hv Hlen Ho Hb Hm Hf.
  { simpl. rewrite splice_nil by (simpl in Hf; lia). rewrite !Z.add_0_r, Z.sub_0_r. done. }
  apply Forall_cons_1 in Hv as [Hn Hv]. rewrite entries_wire_cons in Hf |- *.
  rewrite length_app, Nat2Z.inj_add in Hf |- *.
  cbn [foldl]. rewrite encoder_itr_ok by (done || lia). cbn [fst].
  rewrite IH; [|done|lia|lia| |lia|lia].
  2:{ rewrite splice_length by lia. lia. }
  rewrite splice_splice by lia. do 2 f_equal; [lia|f_equal; lia|lia].
Qed.

Lemma dict_encode_ok t off max len buf :
  dict_wf t -> Forall entry_valid (ents t) -> 0 <= off -> off + max <= zlen buf -> max < 2 ^ 64 ->
  zlen (dict_wire t) + slack <= max ->
  encode_dict e (SObj t) (DBuf off) max len buf = ERet 0 (zlen (dict_wire t)) (splice buf off (dict_wire t)).
Proof.
  intros Hw Hv Ho Hb Hm Hf. pose proof (slack_nonneg (e := e)) as Hsl.
  unfold dict_wire in *. rewrite length_app, be32_length in *.
  unfold encode_dict, XDR_dictionary_encoder. rewrite encode_uint32_ok by lia.
  rewrite iterate_all.
  2:{ intros [p|] k v; simpl; [|lia]. by repeat case_match. }
  rewrite put_part_ok, Z.add_0_l by lia.
  rewrite encoder_fold_ok; [|done|lia|lia| |lia|lia].
  2:{ rewrite splice_length by (rewrite ?be32_length; lia). lia. }
  cbn [p_dst p_res p_max p_buf p_enc_len]. f_equal; [lia|].
  change 4 with (Z.of_nat 4). rewrite <- (be32_length (d_length t)).
  apply splice_splice; rewrite ?be32_length; lia.
Qed.
End Encode.

Context `{HC : !Codec e d wire slack valid}.
Context (malloc : Z -> bool) (Hmalloc : malloc_works malloc) (ent_size : Z) (zero : V).
Context (Hsize : 0 <= ent_size < 2 ^ 32).

Lemma dict_decode_loop_ok post w0 t max rest :
  dict_wf t -> Forall entry_valid post -> NoDup (dn_key <$> post) ->
  (forall n, n ∈ post -> dget t (dn_key n) = None) -> d_length t + zlen post < 2 ^ 32 -> max < 2 ^ 64 ->
  zlen w0 + zlen (entries_wire post) + slack <= max ->
  exists t', dict_decode_loop malloc (Sized ent_size zero d) (w0 ++ entries_wire post ++ rest) max (length post)
      (zlen w0) t = DOk (zlen w0 + zlen (entries_wire post)) t' /\ dict_wf t' /\
    (forall n, n ∈ ents t' <-> n ∈ ents t \/ n ∈ post).
Proof.
  pose proof (slack_nonneg (e := e)) as Hsl.
  revert w0 t. induction post as [|n post IH]; intros w0 t Hw Hv Hnd Hnew Hlen Hm Hf.
  { exists t. simpl. rewrite Z.add_0_r. split_and!; try done. intros n. rewrite elem_of_nil. tauto. }
  apply Forall_cons_1 in Hv as [(Hk & Hl & v & Hd & Hval) Hv].
  rewrite fmap_cons in Hnd. apply NoDup_cons in Hnd as [Hnin Hnd].
  rewrite entries_wire_cons in Hf |- *. rewrite length_app, Nat2Z.inj_add in Hf.
  assert (Hent : entry_wire n = string_wire (Some (dn_key n)) ++ wire v) by (unfold entry_wire; by rewrite Hd).
  set (kw := string_wire (Some (dn_key n))) in *.
  rewrite Hent in Hf |- *. rewrite length_app, Nat2Z.inj_add in Hf.
  cbn [length dict_decode_loop]. rewrite Nat2Z.id, drop_app_length. rewrite (u64_small (max - _)) by lia.
  rewrite <- !app_assoc.
  rewrite (dec_ok (Codec := string_codec malloc) (Some (dn_key n))); fold kw; [| |lia|lia].
  2:{ split; [done|]. split; [lia|]. apply Hmalloc. lia. }
  cbv zeta. rewrite (u64_small (zlen w0 + _)) by lia.
  replace (drop (Z.to_nat (zlen w0 + zlen kw)) (w0 ++ kw ++ wire v ++ entries_wire post ++ rest))
    with (wire v ++ entries_wire post ++ rest)
    by (rewrite (app_assoc w0); rewrite drop_app_length'; [done|rewrite length_app; lia]).
  unfold decode_value. rewrite Hmalloc by done. simpl negb. cbv iota.
  rewrite (u64_small (max - _)) by lia. rewrite (dec_ok v); [|done|lia|lia].
  rewrite u64_small by lia. rewrite Hmalloc by (rewrite Hk; lia).
  destruct (dict_add_new t (dn_key n) (Some v) Hw) as (t1 & -> & Hw1 & Hl1 & Hin1).
  { apply Hnew, elem_of_cons. by left. }
  { simpl in Hlen. lia. }
  cbn [snd]. destruct (IH (w0 ++ kw ++ wire v) t1) as (t' & E & Hw' & Hin'); try done.
  - intros m Hm1. destruct (dget t1 (dn_key m)) as [x|] eqn:Ex; [|done].
    apply (dget_elem t1 _ _ Hw1), Hin1 in Ex as [Ex|Ex].
    + injection Ex as Ex _. rewrite Hk in Ex.
      assert (Hmk : cstr (dn_key m) = dn_key m) by (by destruct (proj1 (list.Forall_forall _ _) Hv m Hm1)).
      rewrite Hmk in Ex. destruct Hnin. rewrite <- Ex. by apply list_elem_of_fmap_2.
    + apply (dget_elem t _ _ Hw) in Ex. rewrite Hnew in Ex; [done|]. apply elem_of_cons. by right.
  - simpl in Hlen. lia.
  - rewrite !length_app. lia.
  - exists t'. rewrite !length_app, !Nat2Z.inj_add in E. rewrite <- !app_assoc in E.
    rewrite Z.add_assoc in E. rewrite E. split; [f_equal; rewrite !length_app; lia|]. split; [done|].
    intros m. rewrite Hin', Hin1, elem_of_cons, Hk.
    replace (DNode (dn_key n) (Some v)) with n by (destruct n; simpl in *; congruence). tauto.
Qed.

(** C31. Round trip of dictionaries: a well-formed dictionary whose values have
    a codec is written as its length and its entries in order, and decoding
    that into an empty dictionary gives the same dictionary. *)
Theorem xdr_dict_roundtrip t off max len buf :
  dict_wf t -> Forall entry_valid (ents t) -> 0 <= off -> off + max <= zlen buf -> max < 2 ^ 64 ->
  zlen (dict_wire t) + slack <= max ->
  exists buf', encode_dict e (SObj t) (DBuf off) max len buf = ERet 0 (zlen (dict_wire t)) buf' /\
    untouched off (zlen (dict_wire t)) buf buf' /\
    decode_dict malloc (Sized ent_size zero d) (drop (Z.to_nat off) buf') (Some dict_zero) max len
      = DOk (zlen (dict_wire t)) t.
Proof.
  intros Hw Hv Ho Hb Hm Hf. pose proof (slack_nonneg (e := e)) as Hsl.
  exists (splice buf off (dict_wire t)). split_and!; [by apply dict_encode_ok|apply untouched_splice; lia|].
  pose proof Hw as (_ & _ & N & M). destruct (dict_zero_wf (V := V)) as [Hz Hze].
  unfold splice. rewrite drop_app_length' by (rewrite length_take; lia).
  unfold decode_dict, XDR_dictionary_decoder. unfold dict_wire in *.
  rewrite length_app, be32_length in Hf. rewrite <- !app_assoc, decode_uint32_ok by lia.
  rewrite (u32_small (d_length t)) by (rewrite N in M |- *; lia).
  set (rest := drop _ buf).
  destruct (dict_decode_loop_ok (ents t) (be32 (d_length t)) dict_zero max rest) as (t' & E & Hw' & Hin); try done.
  - by apply ents_keys_NoDup.
  - intros n Hn. destruct (dget dict_zero (dn_key n)) as [x|] eqn:Ex; [|done].
    apply (dget_elem _ _ _ Hz) in Ex. by destruct (Hze _ Ex).
  - change (d_length dict_zero) with 0. unfold ents. lia.
  - rewrite be32_length. lia.
  - rewrite be32_length in E. replace (Z.to_nat (d_length t)) with (length (ents t)) by (unfold ents; lia).
    change (Z.of_nat 4) with 4 in E. rewrite E. rewrite length_app, be32_length, Nat2Z.inj_add. f_equal.
    apply dict_ext; try done. intros n. rewrite Hin. split; [|by right]. intros [Hn|Hn]; [by destruct (Hze n)|done].
Qed.
End DictCodec.

(** Passing the decoder of [uint32_t] as an encoder works, since reversing the
    bytes is its own inverse. *)
#[export] Instance uint32_swapped_codec :
  Codec decode_uint32_as_encoder XDR_decode_uint32 be32 0 (int_valid 0 (2 ^ 32)).
Proof.
  split; [split; [lia|]|exact (dec_ok (Codec := uint32_codec))].
  intros a *; unfold int_valid; rewrite be32_length; intros.
  unfold decode_uint32_as_encoder, XDR_decode_uint32. rewrite (proj2 (Z.ltb_ge _ _)) by lia.
  rewrite <- (app_nil_r (le_bytes 4 a)), load_app4 by apply le_bytes_length.
  unfold dstore. rewrite htonl_bytes.
  replace (le_value (le_bytes 4 a)) with a by (rewrite le_value_bytes; symmetry; by apply Z.mod_small).
  apply estore_fits; [lia|]. rewrite be32_length. lia.
Qed.

(** ** Theorems on what goes wrong, and witnesses *)

Definition add1 {V} (t : XDR_Dictionary V) (k : list Z) (v : V) : XDR_Dictionary V :=
  (XDR_dict_add true t k (Some v)).2.

(** Keys "a", "b" and "ab". *)
Definition demo_dict : XDR_Dictionary Z :=
  add1 (add1 (add1 dict_zero [97] 1) [98] 2) [97; 98] 3.

Lemma add1_wf {V} (t : XDR_Dictionary V) k v :
  dict_wf t -> dget t k = None -> d_length t + 1 < 2 ^ 32 -> dict_wf (add1 t k v).
Proof.
  intros H1 H2 H3. unfold add1. by destruct (dict_add_new t k (Some v) H1 H2 H3) as (t' & -> & Hw & _).
Qed.

Lemma demo_dict_wf : dict_wf demo_dict.
Proof.
  unfold demo_dict. apply add1_wf; [|vm_compute; reflexivity|vm_compute; reflexivity].
  apply add1_wf; [|vm_compute; reflexivity|vm_compute; reflexivity].
  apply add1_wf; [apply dict_zero_wf|vm_compute; reflexivity|vm_compute; reflexivity].
Qed.

(** Three ways a dictionary fails: the size of a dictionary with an entry
    cannot be asked for with a NULL destination; a dictionary of byte arrays
    with an entry cannot be decoded, since the decoder of its values is given
    no length; and a callback that asks to stop only stops the walk of one
    chain. *)
Theorem xdr_dict_faults :
  XDR_encode_int32_dictionary (SObj demo_dict) (DNull 0) 0 SNull [] = EFault /\
  XDR_decode_byte_arr_dictionary (fun _ => true) ([0; 0; 0; 1; 0; 0; 0; 1; 97; 0; 0; 0] ++ replicate 20 0)
    (Some dict_zero) 32 SNull = DFault /\
  XDR_dict_iterate (fun (n : nat) _ _ => (S n, -1)) (Some demo_dict) 0%nat = 3%nat.
Proof. vm_compute. repeat split; reflexivity. Qed.

Lemma dict_add_correct_witness :
  dict_wf (XDR_dict_add true demo_dict [99] (Some 4)).2 /\
  dget (XDR_dict_add true demo_dict [99] (Some 4)).2 [98] = Some (Some 2).
Proof.
  pose proof (dict_add_correct demo_dict [99] (Some 4) true demo_dict_wf) as H.
  destruct (XDR_dict_add true demo_dict [99] (Some 4)) as [r t'] eqn:E.
  destruct H as [Hw H]; [vm_compute; reflexivity|]. split; [exact Hw|].
  assert (Hn : dget demo_dict [99] = None) by (vm_compute; reflexivity). rewrite Hn in H.
  destruct H as (_ & _ & H). cbn [snd]. rewrite H. vm_compute. reflexivity.
Defined.

Lemma dict_remove_correct_witness :
  dict_wf (XDR_dict_remove demo_dict (Some [98])).2 /\
  dget (XDR_dict_remove demo_dict (Some [98])).2 [98] = None.
Proof.
  pose proof (dict_remove_correct demo_dict [98] demo_dict_wf) as [_ H].
  destruct (XDR_dict_remove demo_dict (Some [98])) as [v t'].
  destruct H as [Hw H]. split; [exact Hw|].
  assert (Hn : dget demo_dict [98] = Some (Some 2)) by (vm_compute; reflexivity). rewrite Hn in H.
  destruct H as (_ & _ & H). cbn [snd]. rewrite H. vm_compute. reflexivity.
Defined.

(** The same entries added in another order. *)
Lemma dict_canonical_witness :
  demo_dict = add1 (add1 (add1 dict_zero [97; 98] 3) [98] 2) [97] 1.
Proof.
  apply (dict_canonical demo_dict (add1 (add1 (add1 dict_zero [97; 98] 3) [98] 2) [97] 1)).
  - apply demo_dict_wf.
  - apply add1_wf; [|vm_compute; reflexivity|vm_compute; reflexivity].
    apply add1_wf; [|vm_compute; reflexivity|vm_compute; reflexivity].
    apply add1_wf; [apply dict_zero_wf|vm_compute; reflexivity|vm_compute; reflexivity].
  - intros k. assert (E : demo_dict = add1 (add1 (add1 dict_zero [97; 98] 3) [98] 2) [97] 1) by (vm_compute; reflexivity).
    by rewrite <- E.
Defined.

Lemma demo_entries : Forall (entry_valid (valid := int_valid 0 (2 ^ 32))) (ents demo_dict).
Proof.
  assert (E : ents demo_dict = [DNode [97] (Some 1); DNode [98] (Some 2); DNode [97; 98] (Some 3)])
    by (vm_compute; reflexivity).
  rewrite E. repeat (apply List.Forall_cons; [split; [reflexivity|split; [reflexivity|]];
    eexists; split; [reflexivity|unfold int_valid; lia]|]). apply List.Forall_nil.
Qed.

Lemma xdr_dict_roundtrip_witness :
  exists buf', XDR_encode_uint32_dictionary (SObj demo_dict) (DBuf 1) 60 SNull (replicate 64 7)
      = ERet 0 40 buf' /\ untouched 1 40 (replicate 64 7) buf' /\
    XDR_decode_uint32_dictionary (fun _ => true) (drop 1 buf') (Some dict_zero) 60 SNull = DOk 40 demo_dict.
Proof.
  apply (xdr_dict_roundtrip (HC := uint32_swapped_codec) (fun _ => true) (fun _ _ => eq_refl) 4 0
    (conj (Pos2Z.is_nonneg 4) (eq_refl : 4 < 2 ^ 32)) demo_dict 1 60 SNull (replicate 64 7)).
  - apply demo_dict_wf.
  - exact demo_entries.
  - lia.
  - vm_compute. congruence.
  - lia.
  - vm_compute. congruence.
Defined.
