(* ===== verification/XdrText.v ===== *)
(** * Text of XDR structures (xdr.c)

    Each type of field has a printer and a scanner: structures are printed for
    a reader, as [key=value] lines or as comma separated values, and the
    parameters of commands are scanned from text.  Values and pointers are those
    of XdrCodec.v; output is the list of bytes written, and a result [None] is a
    failed assertion or a write past a block.  Text of floats is left out.  Conversions of units work on
    doubles, which are not modelled: a conversion is the text or the number that
    it gives. *)

From stdpp Require Import base list numbers.
From Stdlib Require Import ZArith Lia.
From S2P Require Import Prelude Words CStr XdrCodec XdrStruct XdrDict.
Open Scope Z_scope.

Abbreviation str := (list Z).

Inductive XDR_PRINT_STYLE := XDR_PRINT_HUMAN | XDR_PRINT_KVP | XDR_PRINT_CSV_HEADER | XDR_PRINT_CSV_DATA.

#[export] Instance XDR_PRINT_STYLE_eq_dec : EqDecision XDR_PRINT_STYLE.
Proof. solve_decision. Defined.

(** The parts of [struct XDR_FieldDefinition] that text is made with. *)
Record field_info := FI {
  fkey : option str;
  fname : option str;
  funit : option str;
  conversion : option (Z -> str);
  inverse_conv : option (str -> Z)
}.

(** ** Printing *)

(** [%d] and the like. *)
Definition decimal (v : Z) : str := if v <? 0 then 45 :: numeral 20 (- v) else numeral 20 v.
Definition hex_digit (d : Z) : Z := if d <? 10 then 48 + d else 55 + d.
(** [%02X] of a byte. *)
Definition hex2 (b : Z) : str := [hex_digit (b / 16); hex_digit (b mod 16)].
(** A field of a width, with blanks or zeros. *)
Definition pad_left (c : Z) (width : Z) (s : str) : str := replicate (Z.to_nat (width - zlen s)) c ++ s.
Definition pad_right (width : Z) (s : str) : str := s ++ replicate (Z.to_nat (Z.abs width - zlen s)) 32.

(** The text, and the number of the next line; [None] is a NULL pointer to
    it. *)
Definition format_output_line (unit : option str) (style : XDR_PRINT_STYLE) (name : str) (line : option Z) (level : Z)
    (text : str) : str * option Z :=
  match style with
  | XDR_PRINT_CSV_DATA => (text ++ [44], line)
  | XDR_PRINT_CSV_HEADER => (name ++ [44], line)
  | XDR_PRINT_KVP => (name ++ [61] ++ text ++ [10], line)
  | XDR_PRINT_HUMAN =>
      (pad_left 48 3 (decimal (default 0 line)) ++ [58; 32] ++ pad_left 32 (1 + 3 * level) [32] ++ pad_right (32 - 3 * level) name
         ++ text ++ match unit with Some u => [32; 32; 32; 32; 91] ++ u ++ [93; 10] | None => [10] end,
       (fun l => l + 1) <$> line)
  end.

(** A printer, on the value [data] points to and the length of an array. *)
Definition Printer (A : Type) : Type :=
  option A -> field_info -> XDR_PRINT_STYLE -> str -> option Z -> option Z -> Z -> option (str * option Z).

Definition print_number (text : Z -> str) : Printer Z := fun data field style parent _ line level =>
  match data with
  | None => Some ([], line)
  | Some v =>
      let t := match style, conversion field with XDR_PRINT_HUMAN, Some conv => conv v | _, _ => text v end in
      Some (format_output_line (funit field) style parent line level t)
  end.

Definition XDR_print_field_int32 : Printer Z := print_number decimal.
Definition XDR_print_field_uint32 : Printer Z := print_number decimal.
Definition XDR_print_field_int64 : Printer Z := print_number decimal.
Definition XDR_print_field_uint64 : Printer Z := print_number decimal.

Definition XDR_print_field_char : Printer Z := fun data field style parent _ line level =>
  match data with
  | None => Some ([], line)
  | Some v => Some (format_output_line (funit field) style parent line level [v mod 256])
  end.

Definition XDR_print_field_string_array : Printer (option str) := fun data field style parent _ line level =>
  match data with
  | None => Some ([], line)
  | Some s => Some (format_output_line (funit field) style parent line level (cstr (default [] s)))
  end.

Definition XDR_print_field_string : Printer (option str) := fun _ _ _ _ _ _ _ => None.

(** Only the digits. *)
Definition XDR_print_field_byte_array : Printer (option str) := fun data _ _ _ len line _ =>
  match len, data with
  | Some n, Some (Some bs) =>
      if n <=? zlen bs then Some (concat (hex2 <$> take (Z.to_nat n) bs), line) else None
  | _, _ => Some ([], line)
  end.

(** The elements, with commas between them. *)
Fixpoint print_elements {A} (print : Printer A) (l : list A) (first : bool) (field : field_info) (style : XDR_PRINT_STYLE)
    (parent : str) (line : option Z) (level : Z) : option (str * option Z) :=
  match l with
  | [] => Some ([], line)
  | a :: l' =>
      '(t, line1) ← print (Some a) field style parent None line level;
      '(rest, line2) ← print_elements print l' false field style parent line1 level;
      Some ((if first then [] else [44]) ++ t ++ rest, line2)
  end.

Definition XDR_array_field_printer {A} (print : Printer A) : Printer (option (list A)) :=
  fun data field style parent len line level =>
  match data, len with
  | Some (Some l), Some n =>
      if n <=? zlen l then print_elements print (take (Z.to_nat n) l) true field style parent line level else None
  | _, _ => Some ([], line)
  end.

(** One entry of a dictionary; the state is the text so far and the line.  A key
    is copied to a buffer of 1024 bytes. *)
Definition XDR_dictionary_printer_itr {V} (print : Printer V) (field : field_info) (style : XDR_PRINT_STYLE) (parent : str) (level : Z)
    (st : option (str * option Z)) (key : list Z) (value : option V) : option (str * option Z) * Z :=
  let r :=
    '(out, line) ← st;
    let k := cstr key in
    key_buff ← match parent with
               | [] => if zlen k <? 1024 then Some k else None
               | _ => Some (take 1023 (parent ++ [95] ++ k))
               end;
    match style with
    | XDR_PRINT_KVP => '(t, line1) ← print value field style key_buff None line (level + 1); Some (out ++ t, line1)
    | XDR_PRINT_HUMAN =>
        if negb (zlen k <? 1024) then None
        else '(t, line1) ← print value field style k None (Some (default 0 line)) (level + 1);
             Some (out ++ t, match line with Some _ => line1 | None => None end)
    | XDR_PRINT_CSV_HEADER => Some (out ++ key_buff ++ [44], line)
    | XDR_PRINT_CSV_DATA => '(t, _) ← print value field style key_buff None None 0; Some (out ++ t, line)
    end in
  (r, 0).

Definition XDR_dictionary_field_printer {V} (print : Printer V) : Printer (XDR_Dictionary V) :=
  fun data field style parent _ line level =>
  let start :=
    match parent, style with
    | _ :: _, XDR_PRINT_HUMAN => format_output_line None style parent line level []
    | _, _ => ([], line)
    end in
  XDR_dict_iterate (XDR_dictionary_printer_itr print field style parent level) data (Some start).

(** The dictionary of [int32_t] is the one that is printed; the other printers
    and the scanners of dictionaries fail. *)
Definition XDR_print_field_int32_dictionary : Printer (XDR_Dictionary Z) := XDR_dictionary_field_printer XDR_print_field_int32.
Definition fail_printer {A} : Printer A := fun _ _ _ _ _ _ _ => None.
Definition XDR_print_field_uint32_dictionary : Printer (XDR_Dictionary Z) := fail_printer.
Definition XDR_print_field_int64_dictionary : Printer (XDR_Dictionary Z) := fail_printer.
Definition XDR_print_field_uint64_dictionary : Printer (XDR_Dictionary Z) := fail_printer.
Definition XDR_print_field_string_arr_dictionary : Printer (XDR_Dictionary (option str)) := fail_printer.
Definition XDR_print_field_byte_arr_dictionary : Printer (XDR_Dictionary (option str)) := fail_printer.

Definition XDR_print_field_int32_array : Printer (option (list Z)) := XDR_array_field_printer XDR_print_field_int32.
Definition XDR_print_field_uint32_array : Printer (option (list Z)) := XDR_array_field_printer XDR_print_field_uint32.
Definition XDR_print_field_int64_array : Printer (option (list Z)) := XDR_array_field_printer XDR_print_field_int64.
Definition XDR_print_field_uint64_array : Printer (option (list Z)) := XDR_array_field_printer XDR_print_field_uint64.
Definition XDR_print_field_char_array : Printer (option (list Z)) := XDR_array_field_printer XDR_print_field_char.

(** ** Scanning *)

(** [sscanf] with [%i] (base 0) and [%ld] (base 10): the number within 64 bits,
    or nothing. *)
Definition scan_number (base : Z) (s : str) : option Z :=
  let '(neg, r) := signed (after_spaces (cstr s)) in
  let '(b, r) := prefixed base r in
  match r with
  | c :: _ => if digit c <? b then Some (strtol s base).1 else None
  | [] => None
  end.

(** [%lu]. *)
Definition scan_unsigned (s : str) : option Z :=
  let '(neg, r) := signed (after_spaces (cstr s)) in
  match r with
  | c :: _ =>
      if digit c <? 10 then
        let v := digits 10 r 0 in
        Some (if 2 ^ 64 <=? v then 2 ^ 64 - 1 else if neg then u64 (- v) else v)
      else None
  | [] => None
  end.

(** A scanner, on the text and what is in the field before: the field after,
    and the length it sets, if it sets one. *)
Definition Scanner (A : Type) : Type := str -> A -> option (str -> Z) -> option (A * option Z).

Definition scan_int (wrap : Z -> Z) (scan : str -> option Z) : Scanner Z := fun s old conv =>
  match conv with
  | Some c => Some (wrap (c s), None)
  | None => Some (match scan s with Some v => wrap v | None => old end, None)
  end.

Definition XDR_scan_int32 : Scanner Z := scan_int s32 (scan_number 0).
Definition XDR_scan_uint32 : Scanner Z := scan_int u32 (scan_number 0).
Definition XDR_scan_int64 : Scanner Z := scan_int s64 (scan_number 10).
Definition XDR_scan_uint64 : Scanner Z := scan_int u64 scan_unsigned.

(** Without a character the local variable is not set. *)
Definition XDR_scan_char : Scanner Z := fun s _ _ =>
  match cstr s with
  | c :: _ => Some (if 127 <? c then c - 256 else c, None)
  | [] => None
  end.

(** A string that is there already is written over. *)
Definition XDR_scan_string_array : Scanner (option str) := fun s old _ =>
  match old with
  | None => Some (Some (cstr s), None)
  | Some b => if zlen (cstr s) <=? zlen b then Some (Some (cstr s), None) else None
  end.
Definition XDR_scan_string : Scanner (option str) := XDR_scan_string_array.

Definition ASCII2HEX (c : Z) : Z :=
  if (48 <=? c) && (c <=? 57) then c - 48
  else if (65 <=? c) && (c <=? 70) then c - 55
  else if (97 <=? c) && (c <=? 102) then c - 87 else 0.

Fixpoint scan_bytes (s : str) : list Z :=
  match s with
  | a :: b :: s' => Z.lor (Z.shiftl (ASCII2HEX a) 4) (ASCII2HEX b) :: scan_bytes s'
  | [a] => [Z.lor (Z.shiftl (ASCII2HEX a) 4) (ASCII2HEX 0)]
  | [] => []
  end.

Definition XDR_scan_byte : Scanner Z := fun s old _ =>
  match cstr s with
  | [] => Some (old, None)
  | a :: r => Some (Z.lor (Z.shiftl (ASCII2HEX a) 4) (ASCII2HEX (hd 0 r)), None)
  end.

Definition XDR_scan_byte_array : Scanner (option str) := fun s _ _ =>
  Some (Some (scan_bytes (cstr s)), Some ((zlen (cstr s) + 1) / 2)).

(** The pieces between commas; [fuel] is one more than the bytes. *)
Fixpoint pieces (fuel : nat) (s : str) : list str :=
  match fuel with
  | O => []
  | S fuel' => match strchr 44 s with (p, Some r) => p :: pieces fuel' r | (p, None) => [p] end
  end.

(** Each piece into an element that is zero. *)
Fixpoint scan_pieces {A} (scan : Scanner A) (zero : A) (conv : option (str -> Z)) (ps : list str) : option (list A) :=
  match ps with
  | [] => Some []
  | p :: ps' => '(a, _) ← scan p zero conv; l ← scan_pieces scan zero conv ps'; Some (a :: l)
  end.

Definition XDR_array_field_scanner {A} (scan : Scanner A) (zero : A) : Scanner (option (list A)) := fun s _ conv =>
  match cstr s with
  | [] => Some (None, Some 0)
  | s' => l ← scan_pieces scan zero conv (pieces (S (length s')) s'); Some (Some l, Some (zlen l))
  end.

Definition XDR_scan_int32_array : Scanner (option (list Z)) := XDR_array_field_scanner XDR_scan_int32 0.
Definition XDR_scan_uint32_array : Scanner (option (list Z)) := XDR_array_field_scanner XDR_scan_uint32 0.
Definition XDR_scan_int64_array : Scanner (option (list Z)) := XDR_array_field_scanner XDR_scan_int64 0.
Definition XDR_scan_uint64_array : Scanner (option (list Z)) := XDR_array_field_scanner XDR_scan_uint64 0.
Definition XDR_scan_char_array : Scanner (option (list Z)) := XDR_array_field_scanner XDR_scan_char 0.

(** ** Structures *)

(** A field with its text functions; the length of an array is another part of
    the structure. *)
Record text_field (Obj : Type) := TF {
  tf_type : Type;
  tf_info : field_info;
  tf_printer : option (Printer tf_type);
  tf_scanner : option (Scanner tf_type);
  tf_get : Obj -> tf_type;
  tf_set : Obj -> tf_type -> Obj;
  tf_len : Obj -> Z;
  tf_set_len : Obj -> Z -> Obj
}.
Arguments TF {Obj}.
Arguments tf_type {Obj}.
Arguments tf_info {Obj}.
Arguments tf_printer {Obj}.
Arguments tf_scanner {Obj}.
Arguments tf_get {Obj}.
Arguments tf_set {Obj}.
Arguments tf_len {Obj}.
Arguments tf_set_len {Obj}.

Section Structures.
Context {Obj : Type}.

(** The key of a field below its parents, in 1024 bytes. *)
Definition field_key (parents : str) (k : option str) : option str :=
  match k with
  | None => Some []
  | Some k => match parents with
              | [] => if zlen k <? 1024 then Some k else None
              | _ => Some (take 1023 (parents ++ [95] ++ k))
              end
  end.

Fixpoint print_fields (fields : list (text_field Obj)) (data : Obj) (parents : str) (style : XDR_PRINT_STYLE)
    (line : option Z) (level : Z) : option (str * option Z) :=
  match fields with
  | [] => Some ([], line)
  | f :: fields' =>
      match tf_printer f with
      | None => print_fields fields' data parents style line level
      | Some printer =>
          key ← field_key parents (fkey (tf_info f));
          let print parent l lv := printer (Some (tf_get f data)) (tf_info f) style parent (Some (tf_len f data)) l lv in
          '(t, line1) ←
            match style, fkey (tf_info f), fname (tf_info f) with
            | XDR_PRINT_HUMAN, None, None => Some ([], line)
            | XDR_PRINT_HUMAN, _, name => print (default key name) line (level + 1)
            | _, Some _, _ => '(t, _) ← print key None 0; Some (t, line)
            | _, None, _ => Some ([], line)
            end;
          '(rest, line2) ← print_fields fields' data parents style line1 level;
          Some (t ++ rest, line2)
      end
  end.

Definition XDR_print_fields_func (fields : list (text_field Obj)) (data : Obj) (parents_key : option str)
    (style : XDR_PRINT_STYLE) (line : option Z) (level : Z) : option (str * option Z) :=
  let line := Some (default 0 line) in
  let parents := default [] parents_key in
  let '(t0, line1) :=
    match parents, style with
    | _ :: _, XDR_PRINT_HUMAN => format_output_line None style parents line level []
    | _, _ => ([], line)
    end in
  '(t, line2) ← print_fields fields data parents style line1 level; Some (t0 ++ t, line2).

(** Printers of other structures, by the number in their definitions. *)
Context (XDR_definition_for_type : Z -> option (StructDefinition Obj)).
Context (run_print : Z -> sptr Obj -> str -> XDR_PRINT_STYLE -> option Z -> Z -> option (str * option Z)).

Definition print_typed (type : Z) (data : sptr Obj) (parent : str) (style : XDR_PRINT_STYLE) (line : option Z) (level : Z)
    : option (str * option Z) :=
  match XDR_definition_for_type type ≫= print_func with
  | Some pf => run_print pf data parent style line level
  | None => Some ([], line)
  end.

Definition XDR_print_field_union : Printer (XDR_Union Obj) := fun data _ style parent _ line level =>
  match data with
  | None => Some ([], line)
  | Some u => print_typed (u_type u) (u_data u) parent style line level
  end.
Definition XDR_print_field_union_array : Printer (option (list (XDR_Union Obj))) := XDR_array_field_printer XDR_print_field_union.

(** The field's [struct_id] is an argument. *)
Definition XDR_print_field_structure (struct_id : Z) : Printer Obj := fun data _ style parent _ line level =>
  match data with
  | None => Some ([], line)
  | Some o => if struct_id =? 0 then Some ([], line) else print_typed struct_id (SObj o) parent style line level
  end.

Fixpoint print_structures (struct_id : Z) (l : list Obj) (field : field_info) (style : XDR_PRINT_STYLE) (parent : str)
    (line : option Z) (level : Z) : option (str * option Z) :=
  match l with
  | [] => Some ([], line)
  | o :: l' =>
      '(t, line1) ← XDR_print_field_structure struct_id (Some o) field style parent None line (level + 1);
      '(rest, line2) ← print_structures struct_id l' field style parent line1 level;
      Some (t ++ rest, line2)
  end.

Definition XDR_print_field_structure_array (struct_id : Z) : Printer (option (list Obj)) :=
  fun data field style parent len line level =>
  match data, len with
  | Some (Some l), Some n =>
      if n <=? zlen l then print_structures struct_id (take (Z.to_nat n) l) field style parent line level else None
  | _, _ => Some ([], line)
  end.

(** A structure in a buffer, decoded and printed; [deallocator] tells whether
    the definition has one. *)
Definition XDR_print_structure (def : option (StructDefinition Obj)) (deallocator : bool) (buff : list Z) (len : Z)
    (style : XDR_PRINT_STYLE) (parent : str) : option str :=
  match def with
  | None => Some []
  | Some d =>
      match print_func d, sd_allocator d, deallocator with
      | Some pf, Some o, true =>
          match sd_decoder d with
          | None => None
          | Some dec =>
              match dec buff o len with
              | DFault => None
              | DErr _ => Some []
              | DOk _ o' => fst <$> run_print pf (SObj o') parent style (Some 0) 0
              end
          end
      | _, _, _ => Some []
      end
  end.
End Structures.

(** ** Numbers *)

Lemma numeral_20 v : 0 <= v < 2 ^ 64 -> 0 <= v < 10 ^ Z.of_nat 20.
Proof. intros H. assert (2 ^ 64 < 10 ^ Z.of_nat 20) by done. lia. Qed.

Lemma decimal_digit v : 0 <= v < 2 ^ 64 -> Forall (fun c => 48 <= c <= 57) (numeral 20 v) /\ digits 10 (numeral 20 v) 0 = v.
Proof. intros H. apply numeral_digits. by apply numeral_20. Qed.

(** A number starts with a digit, which is 0 only for 0. *)
Lemma numeral_start v : 0 <= v < 2 ^ 64 -> v = 0 \/ exists c r, numeral 20 v = c :: r /\ 49 <= c <= 57.
Proof.
  intros H. destruct (decide (v = 0)) as [->|Hv]; [by left|]. right.
  apply numeral_head; [|done]. pose proof (numeral_20 v H). lia.
Qed.

Lemma digit_plain c : 48 <= c <= 57 -> digit c = c - 48 /\ isspace c = false.
Proof.
  intros H. unfold digit, isspace. rewrite (proj2 (Z.leb_le _ _)), (proj2 (Z.leb_le _ _)) by lia. split; [done|].
  apply orb_false_iff. split; [apply andb_false_iff; right; apply Z.leb_gt; lia|apply Z.eqb_neq; lia].
Qed.

Lemma decimal_plain v : - 2 ^ 64 < v < 2 ^ 64 -> Forall (fun c => c = 45 \/ 48 <= c <= 57) (decimal v).
Proof.
  intros H. unfold decimal. destruct (Z.ltb_spec v 0).
  - constructor; [by left|]. eapply list.Forall_impl; [apply decimal_digit; lia|]. by right.
  - eapply list.Forall_impl; [apply decimal_digit; lia|]. by right.
Qed.

(** The sign and the digits of a number. *)
Lemma decimal_signed v :
  - 2 ^ 64 < v < 2 ^ 64 -> signed (after_spaces (cstr (decimal v))) = (v <? 0, numeral 20 (Z.abs v)).
Proof.
  intros H. rewrite cstr_plain.
  2:{ eapply list.Forall_impl; [by apply decimal_plain|]. cbn beta. lia. }
  unfold decimal. destruct (Z.ltb_spec v 0) as [Hn|Hn].
  - rewrite Z.abs_neq by lia. done.
  - rewrite Z.abs_eq by lia. destruct (decimal_digit v ltac:(lia)) as [F _]. destruct (numeral 20 v) as [|c r] eqn:E; [done|].
    apply list.Forall_cons in F as [F _]. cbn [after_spaces]. rewrite (proj2 (digit_plain c F)). cbn [signed].
    rewrite (proj2 (Z.eqb_neq c 45)), (proj2 (Z.eqb_neq c 43)) by lia. done.
Qed.

(** With base 0 or 10 the digits are read to base 10; that of 0 in any base. *)
Lemma decimal_prefixed base v :
  base = 0 \/ base = 10 -> 0 <= v < 2 ^ 64 ->
  exists b c r, prefixed base (numeral 20 v) = (b, c :: r) /\ digit c < b /\ digits b (c :: r) 0 = v.
Proof.
  intros Hb H. destruct (numeral_start v H) as [->|(c & r & E & Hc)].
  - destruct Hb as [->| ->]; [exists 8, 48, []|exists 10, 48, []]; done.
  - destruct (decimal_digit v H) as [_ V]. rewrite E in *. exists 10, c, r. split_and!; [|rewrite (proj1 (digit_plain c ltac:(lia))); lia|done].
    unfold prefixed. rewrite (proj2 (Z.eqb_neq c 48)) by lia.
    destruct Hb as [->| ->]; destruct r as [|x [|y r]]; cbn [Z.eqb orb andb]; rewrite ?andb_false_r; done.
Qed.

Lemma strtol_decimal base v : base = 0 \/ base = 10 -> - 2 ^ 63 <= v < 2 ^ 63 -> strtol (decimal v) base = (v, false).
Proof.
  intros Hb H. unfold strtol. rewrite (decimal_signed v) by lia.
  destruct (decimal_prefixed base (Z.abs v) Hb ltac:(lia)) as (b & c & r & -> & Hc & V). rewrite V.
  destruct (Z.ltb_spec v 0) as [Hn|Hn]; rewrite (proj2 (Z.ltb_ge _ _)) by lia; rewrite (proj2 (Z.ltb_ge _ _)) by lia; f_equal; lia.
Qed.

Lemma scan_decimal base v :
  base = 0 \/ base = 10 -> - 2 ^ 63 <= v < 2 ^ 63 -> scan_number base (decimal v) = Some v.
Proof.
  intros Hb H. unfold scan_number. rewrite (decimal_signed v) by lia.
  destruct (decimal_prefixed base (Z.abs v) Hb ltac:(lia)) as (b & c & r & -> & Hc & V).
  by rewrite (proj2 (Z.ltb_lt _ _) Hc), strtol_decimal.
Qed.

Lemma decimal_short v : (length (decimal v) <= 21)%nat.
Proof.
  assert (H : forall f n, (length (numeral f n) <= f)%nat).
  { induction f as [|f IH]; intros n; [done|]. cbn [numeral]. rewrite length_app. destruct (n <? 10); cbn [length]; [lia|].
    specialize (IH (n / 10)). lia. }
  unfold decimal. destruct (v <? 0); cbn [length]; [specialize (H 20%nat (- v))|specialize (H 20%nat v)]; lia.
Qed.

Lemma scan_unsigned_decimal v : 0 <= v < 2 ^ 64 -> scan_unsigned (decimal v) = Some v.
Proof.
  intros H. unfold scan_unsigned. rewrite (decimal_signed v) by lia. rewrite (proj2 (Z.ltb_ge v 0)), Z.abs_eq by lia.
  destruct (decimal_digit v H) as [F V]. destruct (numeral 20 v) as [|c r] eqn:E; [destruct (numeral_start v H) as [->|(c & r & E' & _)]; [done|congruence]|].
  apply list.Forall_cons in F as [F _]. rewrite (proj1 (digit_plain c F)), (proj2 (Z.ltb_lt _ _)) by lia. rewrite V.
  by rewrite (proj2 (Z.leb_gt _ _)) by lia.
Qed.

(** ** Text that is read back *)

(** What a printer and the scanner of its type promise to a structure: a value
    is printed as [key=text] and a line end, and its text, which has neither
    line end nor comma, is scanned to the value, wherever the field starts at
    [zero]. *)
Class TextCodec {A} (p : Printer A) (s : Scanner A) (text : A -> str) (zero : A) (valid : A -> Prop) := {
  print_kvp : forall a f parent len line level, valid a ->
    p (Some a) f XDR_PRINT_KVP parent len line level = Some (parent ++ [61] ++ text a ++ [10], line);
  scan_text : forall a, valid a -> s (text a) zero None = Some (a, None);
  text_plain : forall a, valid a -> Forall (fun c => c <> 10 /\ c <> 0) (text a)
}.

Definition in_range (lo hi v : Z) : Prop := lo <= v < hi.

Lemma number_codec (s : Scanner Z) lo hi :
  - 2 ^ 64 < lo -> hi <= 2 ^ 64 -> (forall v old, in_range lo hi v -> s (decimal v) old None = Some (v, None)) ->
  TextCodec (print_number decimal) s decimal 0 (in_range lo hi).
Proof.
  intros Hlo Hhi Hs. split.
  - done.
  - intros a Ha. by apply Hs.
  - intros a Ha. unfold in_range in Ha. eapply list.Forall_impl; [apply (decimal_plain a); lia|]. cbn beta. lia.
Qed.

Lemma s32_small v : - 2 ^ 31 <= v < 2 ^ 31 -> s32 v = v.
Proof. intros H. unfold s32. rewrite Z.mod_small; lia. Qed.
Lemma s64_small v : - 2 ^ 63 <= v < 2 ^ 63 -> s64 v = v.
Proof. intros H. unfold s64. rewrite Z.mod_small; lia. Qed.

#[export] Instance int32_text : TextCodec XDR_print_field_int32 XDR_scan_int32 decimal 0 (in_range (- 2 ^ 31) (2 ^ 31)).
Proof.
  apply number_codec; [lia..|]. intros v old H. unfold in_range in H. unfold XDR_scan_int32, scan_int.
  rewrite scan_decimal by (auto || lia). by rewrite s32_small.
Qed.

#[export] Instance uint32_text : TextCodec XDR_print_field_uint32 XDR_scan_uint32 decimal 0 (in_range 0 (2 ^ 32)).
Proof.
  apply number_codec; [lia..|]. intros v old H. unfold in_range in H. unfold XDR_scan_uint32, scan_int.
  rewrite scan_decimal by (auto || lia). by rewrite u32_small.
Qed.

#[export] Instance int64_text : TextCodec XDR_print_field_int64 XDR_scan_int64 decimal 0 (in_range (- 2 ^ 63) (2 ^ 63)).
Proof.
  apply number_codec; [lia..|]. intros v old H. unfold in_range in H. unfold XDR_scan_int64, scan_int.
  rewrite scan_decimal by (auto || lia). by rewrite s64_small.
Qed.

#[export] Instance uint64_text : TextCodec XDR_print_field_uint64 XDR_scan_uint64 decimal 0 (in_range 0 (2 ^ 64)).
Proof.
  apply number_codec; [lia..|]. intros v old H. unfold in_range in H. unfold XDR_scan_uint64, scan_int.
  rewrite scan_unsigned_decimal by lia. by rewrite u64_small.
Qed.

(** A character other than the line end and zero. *)
Definition char_ok (v : Z) : Prop := -128 <= v < 128 /\ v <> 0 /\ v <> 10.

#[export] Instance char_text : TextCodec XDR_print_field_char XDR_scan_char (fun v => [v mod 256]) 0 char_ok.
Proof.
  split; [done| |].
  - intros v (H1 & H2 & H3). unfold XDR_scan_char. cbn [cstr].
    assert (Hm : v mod 256 = if v <? 0 then v + 256 else v).
    { destruct (Z.ltb_spec v 0); [symmetry; apply (Z.mod_unique _ _ (-1)); lia|apply Z.mod_small; lia]. }
    rewrite Hm. destruct (Z.ltb_spec v 0).
    + rewrite (proj2 (Z.eqb_neq _ _)), (proj2 (Z.ltb_lt _ _)) by lia. do 2 f_equal. lia.
    + rewrite (proj2 (Z.eqb_neq _ _)), (proj2 (Z.ltb_ge _ _)) by lia. done.
  - intros v (H1 & H2 & H3). constructor; [|constructor]. split; intros E.
    + assert (v mod 256 = 10) by done. pose proof (Z.div_mod v 256 ltac:(lia)). lia.
    + pose proof (Z.div_mod v 256 ltac:(lia)). lia.
Qed.

(** A string, into a field that has none. *)
Definition string_ok (s : option str) : Prop := exists t, s = Some t /\ Forall (fun c => c <> 10 /\ c <> 0) t.

Lemma plain_cstr t : Forall (fun c => c <> 10 /\ c <> 0) t -> cstr t = t.
Proof. intros H. apply cstr_plain. eapply list.Forall_impl; [exact H|]. by intros c [_ ?]. Qed.

#[export] Instance string_text : TextCodec XDR_print_field_string_array XDR_scan_string_array (default []) None string_ok.
Proof.
  split.
  - intros a f parent len line level (t & -> & H). cbn. by rewrite plain_cstr.
  - intros a (t & -> & H). cbn. by rewrite plain_cstr.
  - by intros a (t & -> & H).
Qed.

(** ** Arrays and bytes *)

Definition commas (ps : list str) : str := match ps with [] => [] | p :: ps => p ++ concat ((fun q => 44 :: q) <$> ps) end.

Lemma pieces_commas ps fuel :
  ps <> [] -> Forall (fun p => 44 ∉ p) ps -> (length ps <= fuel)%nat -> pieces fuel (commas ps) = ps.
Proof.
  revert ps. induction fuel as [|fuel IH]; intros [|p ps] Hne HF Hf; try done; [cbn in Hf; lia|].
  apply list.Forall_cons in HF as [Hp HF]. cbn [pieces commas]. destruct ps as [|q ps].
  - cbn [fmap list_fmap concat]. rewrite app_nil_r. by rewrite strchr_none.
  - rewrite fmap_cons. cbn [concat app]. rewrite strchr_app by done. f_equal. apply (IH (q :: ps)); [done|done|cbn in *; lia].
Qed.

Lemma commas_length ps : ps <> [] -> (length ps <= S (length (commas ps)))%nat.
Proof.
  destruct ps as [|p ps]; [done|]. intros _. cbn [commas length]. rewrite length_app.
  assert (H : (length ps <= length (concat ((fun q => 44%Z :: q) <$> ps)))%nat).
  { induction ps as [|q ps IH]; [done|]. rewrite fmap_cons. cbn [concat]. rewrite length_app. cbn [length]. lia. }
  lia.
Qed.

Lemma scan_pieces_text {A} (p : Printer A) s text zero valid `{!TextCodec p s text zero valid} l :
  Forall valid l -> scan_pieces s zero None (text <$> l) = Some l.
Proof.
  induction 1 as [|a l Ha _ IH]; [done|]. rewrite fmap_cons. cbn [scan_pieces]. rewrite (scan_text a Ha). cbn [mbind option_bind].
  by rewrite IH.
Qed.

(** Numbers, characters and strings that are printed as [key=value] are
    scanned back to themselves, each type over its whole range; an array is
    scanned from the texts of its elements between commas, with its length, and
    an empty text is an empty array. *)
Theorem text_array_roundtrip {A} (p : Printer A) s text zero valid `{!TextCodec p s text zero valid} (l : list A) old :
  Forall valid l -> Forall (fun a => 44 ∉ text a) l -> (forall a, a ∈ l -> text a <> []) ->
  (forall a f parent len line level, a ∈ l ->
     p (Some a) f XDR_PRINT_KVP parent len line level = Some (parent ++ [61] ++ text a ++ [10], line) /\
     s (text a) zero None = Some (a, None)) /\
  XDR_array_field_scanner s zero (commas (text <$> l)) old None =
  Some (match l with [] => None | _ => Some l end, Some (zlen l)).
Proof.
  intros Hv Hc Hne. split.
  { intros a f parent len line level Ha. rewrite list.Forall_forall in Hv. split; [by apply print_kvp, Hv|by apply scan_text, Hv]. }
  destruct l as [|a l]; [done|]. unfold XDR_array_field_scanner.
  assert (Hplain : Forall (fun c => c <> 0) (commas (text <$> a :: l))).
  { assert (Ht : forall x, valid x -> Forall (fun c => c <> 0) (text x)).
    { intros x Hx. eapply list.Forall_impl; [by apply text_plain|]. by intros c [_ ?]. }
    rewrite fmap_cons. cbn [commas]. apply list.Forall_cons in Hv as [Ha Hv]. apply list.Forall_app. split; [by apply Ht|].
    clear Hc Hne Ha. induction Hv as [|b l Hb _ IH]; [constructor|]. rewrite !fmap_cons. cbn [concat app]. constructor; [done|].
    apply list.Forall_app. split; [by apply Ht|exact IH]. }
  rewrite cstr_plain by done. set (t := commas _) in *.
  assert (Ht : t <> []).
  { unfold t. rewrite fmap_cons. cbn [commas]. specialize (Hne a ltac:(left)). by destruct (text a). }
  assert (E : pieces (S (length t)) t = text <$> a :: l).
  { unfold t. apply pieces_commas; [done|by apply Forall_fmap|by apply commas_length]. }
  clearbody t. destruct t as [|c t']; [done|]. rewrite E, (scan_pieces_text p s text zero valid) by done. done.
Qed.

Lemma hex_digit_read d : 0 <= d < 16 -> ASCII2HEX (hex_digit d) = d /\ hex_digit d <> 0.
Proof.
  intros Hd. assert (E : d ∈ [0;1;2;3;4;5;6;7;8;9;10;11;12;13;14;15]) by (rewrite !elem_of_cons; lia).
  rewrite !elem_of_cons in E. repeat (destruct E as [->|E]; [by split|]). by apply elem_of_nil in E.
Qed.

(** A byte is its two halves. *)
Lemma byte_halves b : is_byte b -> 0 <= b / 16 < 16 /\ 0 <= b mod 16 < 16 /\ Z.lor (Z.shiftl (b / 16) 4) (b mod 16) = b.
Proof.
  intros Hb. unfold is_byte in Hb. split; [split; [apply Z.div_pos; lia|apply Z.div_lt_upper_bound; lia]|].
  split; [apply Z.mod_pos_bound; lia|]. rewrite Z.shiftl_mul_pow2 by lia. rewrite <- Z.add_nocarry_lor.
  - pose proof (Z.div_mod b 16 ltac:(lia)). change (2 ^ 4) with 16. lia.
  - apply Z.bits_inj'. intros n Hn. rewrite Z.land_spec, Z.bits_0. destruct (Z.ltb_spec n 4).
    + change 16 with (2 ^ 4) at 1. rewrite Z.mul_pow2_bits_low by lia. done.
    + change 16 with (2 ^ 4). rewrite Z.mod_pow2_bits_high by lia. apply andb_false_r.
Qed.

Lemma hex_plain bs : Forall is_byte bs -> Forall (fun c => c <> 0) (concat (hex2 <$> bs)).
Proof.
  induction 1 as [|b bs Hb _ IH]; [constructor|]. rewrite fmap_cons. cbn [concat hex2 app].
  destruct (byte_halves b Hb) as (H1 & H2 & _). by repeat (constructor; [by apply hex_digit_read|]).
Qed.

Lemma scan_hex bs : Forall is_byte bs -> scan_bytes (concat (hex2 <$> bs)) = bs.
Proof.
  induction 1 as [|b bs Hb _ IH]; [done|]. rewrite fmap_cons. cbn [concat hex2 app scan_bytes].
  destruct (byte_halves b Hb) as (H1 & H2 & H3). by rewrite (proj1 (hex_digit_read _ H1)), (proj1 (hex_digit_read _ H2)), H3, IH.
Qed.

Lemma hex_length bs : zlen (concat (hex2 <$> bs)) = 2 * zlen bs.
Proof. induction bs as [|b bs IH]; [done|]. rewrite fmap_cons. cbn [concat]. rewrite length_app. cbn [length hex2]. lia. Qed.

(** The digits of a byte array are scanned back to its bytes and their
    number. *)
Theorem text_bytes_roundtrip bs f style parent line level old conv :
  Forall is_byte bs ->
  XDR_print_field_byte_array (Some (Some bs)) f style parent (Some (zlen bs)) line level = Some (concat (hex2 <$> bs), line) /\
  XDR_scan_byte_array (concat (hex2 <$> bs)) old conv = Some (Some bs, Some (zlen bs)).
Proof.
  intros H. split.
  - unfold XDR_print_field_byte_array. by rewrite Z.leb_refl, Nat2Z.id, firstn_all.
  - unfold XDR_scan_byte_array. rewrite cstr_plain by (by apply hex_plain). rewrite scan_hex, hex_length by done. do 3 f_equal.
    by rewrite (Z.add_comm (2 * zlen bs)), Z.mul_comm, Z.div_add by lia.
Qed.

Lemma text_bytes_roundtrip_witness :
  XDR_scan_byte_array [48; 65; 70; 70] None None = Some (Some [10; 255], Some 2).
Proof.
  apply (text_bytes_roundtrip [10; 255] (FI None None None None None) XDR_PRINT_KVP [] None 0).
  repeat constructor; vm_compute; congruence.
Defined.

Lemma text_array_roundtrip_witness :
  XDR_scan_int32_array [45; 49; 44; 55] None None = Some (Some [-1; 7], Some 2).
Proof.
  apply (text_array_roundtrip XDR_print_field_int32 XDR_scan_int32 decimal 0 (in_range (- 2 ^ 31) (2 ^ 31)) [-1; 7] None).
  - repeat constructor; vm_compute; congruence.
  - repeat constructor; vm_compute; intros H; repeat (apply elem_of_cons in H as [H|H]; [discriminate H|]); by apply elem_of_nil in H.
  - intros a Ha. apply elem_of_cons in Ha as [->|Ha]; [vm_compute; congruence|]. apply list_elem_of_singleton in Ha as ->. vm_compute. congruence.
Defined.

(** ** Dictionaries *)

(** The key of an entry below [parent]. *)
Definition entry_key (parent key : str) : str := match parent with [] => key | _ => parent ++ [95] ++ key end.

Definition entry_line {V} (text : V -> str) (parent : str) (n : XDR_Dictnode V) : str :=
  match dn_data n with Some v => entry_key parent (dn_key n) ++ [61] ++ text v ++ [10] | None => [] end.

(** The callback on one entry, with a key that fits. *)
Lemma entry_printed parent (field : field_info) level out line (n : XDR_Dictnode Z) :
  cstr (dn_key n) = dn_key n -> zlen (entry_key parent (dn_key n)) < 1024 ->
  XDR_dictionary_printer_itr XDR_print_field_int32 field XDR_PRINT_KVP parent level (Some (out, line)) (dn_key n) (dn_data n)
  = (Some (out ++ entry_line decimal parent n, line), 0).
Proof.
  intros Hk Hl. unfold XDR_dictionary_printer_itr. cbn [mbind option_bind]. rewrite Hk.
  assert (E : match parent with [] => if zlen (dn_key n) <? 1024 then Some (dn_key n) else None | _ => Some (take 1023 (parent ++ [95] ++ dn_key n)) end
              = Some (entry_key parent (dn_key n))).
  { unfold entry_key in *. destruct parent as [|c parent]; [by rewrite (proj2 (Z.ltb_lt _ _) Hl)|]. rewrite take_ge by lia. done. }
  rewrite E. cbn [mbind option_bind]. unfold entry_line. destruct (dn_data n); cbn; by rewrite ?app_nil_r.
Qed.

(** A dictionary of numbers is printed as one [key=value] line for each of
    its keys, below the key of the dictionary: every entry that can be looked up
    is printed, once, and nothing else is. *)
Theorem dictionary_printed (t : XDR_Dictionary Z) field parent len line level :
  dict_wf t -> Forall (fun n => zlen (entry_key parent (dn_key n)) < 1024) (ents t) ->
  XDR_print_field_int32_dictionary (Some t) field XDR_PRINT_KVP parent len line level
    = Some (concat (entry_line decimal parent <$> ents t), line) /\
  NoDup (dn_key <$> ents t) /\
  forall k v, cstr k = k -> XDR_dict_lookup t (Some k) = Some v <-> DNode k (Some v) ∈ ents t.
Proof.
  intros Hw Hf. split_and!.
  - unfold XDR_print_field_int32_dictionary, XDR_dictionary_field_printer. rewrite iterate_all by (cbn; lia).
    assert (Hk : Forall (fun n => cstr (dn_key n) = dn_key n) (ents t)).
    { apply list.Forall_forall. intros n Hn. apply elem_ents in Hn as (i & c & Hi & Hc).
      by destruct (proj1 (list.Forall_forall _ _) (proj1 (proj1 (proj2 Hw) i c Hi)) _ Hc). }
    assert (G : forall l out, Forall (fun n => zlen (entry_key parent (dn_key n)) < 1024) l -> Forall (fun n => cstr (dn_key n) = dn_key n) l ->
      foldl (fun s n => (XDR_dictionary_printer_itr XDR_print_field_int32 field XDR_PRINT_KVP parent level s (dn_key n) (dn_data n)).1)
        (Some (out, line)) l = Some (out ++ concat (entry_line decimal parent <$> l), line)).
    { induction l as [|n l IH]; intros out H1 H2; [by rewrite app_nil_r|]. apply list.Forall_cons in H1 as [H1 H1'], H2 as [H2 H2'].
      cbn [foldl]. rewrite entry_printed by done. cbn [fst]. rewrite IH by done. rewrite fmap_cons. cbn [concat]. by rewrite app_assoc. }
    destruct parent; by apply (G _ []).
  - by apply ents_keys_NoDup.
  - intros k v Hk. rewrite <- Hk at 2. rewrite <- (dget_elem t k (Some v) Hw). unfold XDR_dict_lookup, dget.
    destruct (node_at t (Some k)) as [n|]; cbn; [|done]. split; [by intros ->|by intros [= ->]].
Qed.

Lemma dictionary_printed_witness :
  XDR_print_field_int32_dictionary (Some demo_dict) (FI None None None None None) XDR_PRINT_KVP [100] None None 0
  = Some ([100; 95; 97; 61; 49; 10; 100; 95; 98; 61; 50; 10; 100; 95; 97; 98; 61; 51; 10], None).
Proof.
  etransitivity; [apply (dictionary_printed demo_dict (FI None None None None None) [100] None None 0 demo_dict_wf)|vm_compute; reflexivity].
  assert (E : ents demo_dict = [DNode [97] (Some 1); DNode [98] (Some 2); DNode [97; 98] (Some 3)]) by (vm_compute; reflexivity).
  rewrite E. repeat constructor.
Defined.

(** ** Text that is not read back

    An array is printed with the key and the line end in each element, so that
    its lines are no pairs, and with two commas between elements as comma
    separated values; a byte array has neither key nor line end. *)
Lemma array_text_garbled :
  XDR_print_field_int32_array (Some (Some [1; 2])) (FI None None None None None) XDR_PRINT_KVP [107] (Some 2) None 0
    = Some ([107; 61; 49; 10; 44; 107; 61; 50; 10], None) /\
  XDR_print_field_int32_array (Some (Some [1; 2])) (FI None None None None None) XDR_PRINT_CSV_DATA [107] (Some 2) None 0
    = Some ([49; 44; 44; 50; 44], None) /\
  XDR_print_field_byte_array (Some (Some [1; 2])) (FI None None None None None) XDR_PRINT_KVP [107] (Some 2) None 0
    = Some ([48; 49; 48; 50], None).
Proof. vm_compute. done. Qed.
