(* ===== verification/Md5.v ===== *)
(** * MD5 message digests (md5.c)

    The context, the block transformation and the three operations of md5.c
    (RFC 1321, src/rfc1321.txt): the critical state is guarded by these digests.
    A word is an integer below 2^32, a byte array a list of bytes; the buffer of
    a new context holds whatever was in memory.  The digest of a message that is
    fed in pieces is proved equal to the one of the standard. *)

From stdpp Require Import base list numbers.
From Stdlib Require Import ZArith Lia.
From S2P Require Import Prelude Words.
Open Scope Z_scope.

Module MD5.

(** ** The basic functions *)

Definition lnot32 (x : Z) : Z := u32 (Z.lnot x).

Definition F (x y z : Z) : Z := Z.lor (Z.land x y) (Z.land (lnot32 x) z).
Definition G (x y z : Z) : Z := Z.lor (Z.land x z) (Z.land y (lnot32 z)).
Definition H (x y z : Z) : Z := Z.lxor (Z.lxor x y) z.
Definition I (x y z : Z) : Z := Z.lxor y (Z.lor x (lnot32 z)).

Definition ROTATE_LEFT (x n : Z) : Z := Z.lor (u32 (Z.shiftl x n)) (Z.shiftr x (32 - n)).

(** The macros FF, GG, HH and II: what they assign to their first argument. *)
Definition mix (f : Z -> Z -> Z -> Z) (a b c d x s ac : Z) : Z :=
  u32 (ROTATE_LEFT (u32 (a + u32 (f b c d + x + ac))) s + b).

(** The four words of the state, and the variables a, b, c, d. *)
Record words4 := W4 { wa : Z; wb : Z; wc : Z; wd : Z }.

Inductive var := A | B | C | D.

Definition read_var (r : words4) (v : var) : Z :=
  match v with A => wa r | B => wb r | C => wc r | D => wd r end.

Definition write_var (r : words4) (v : var) (z : Z) : words4 :=
  match v with
  | A => W4 z (wb r) (wc r) (wd r)
  | B => W4 (wa r) z (wc r) (wd r)
  | C => W4 (wa r) (wb r) z (wd r)
  | D => W4 (wa r) (wb r) (wc r) z
  end.

(** One line of MD5Transform: the macro, its variables, the index into [x], the
    shift and the constant. *)
Record line := Line {
  l_f : Z -> Z -> Z -> Z; l_a : var; l_b : var; l_c : var; l_d : var;
  l_k : nat; l_s : Z; l_ac : Z
}.

Abbreviation FF := (Line F).
Abbreviation GG := (Line G).
Abbreviation HH := (Line H).
Abbreviation II := (Line I).

Abbreviation S11 := 7.
Abbreviation S12 := 12.
Abbreviation S13 := 17.
Abbreviation S14 := 22.
Abbreviation S21 := 5.
Abbreviation S22 := 9.
Abbreviation S23 := 14.
Abbreviation S24 := 20.
Abbreviation S31 := 4.
Abbreviation S32 := 11.
Abbreviation S33 := 16.
Abbreviation S34 := 23.
Abbreviation S41 := 6.
Abbreviation S42 := 10.
Abbreviation S43 := 15.
Abbreviation S44 := 21.

Definition transform_lines : list line := [
   FF A B C D 0 S11 0xd76aa478; FF D A B C 1 S12 0xe8c7b756;
   FF C D A B 2 S13 0x242070db; FF B C D A 3 S14 0xc1bdceee;
   FF A B C D 4 S11 0xf57c0faf; FF D A B C 5 S12 0x4787c62a;
   FF C D A B 6 S13 0xa8304613; FF B C D A 7 S14 0xfd469501;
   FF A B C D 8 S11 0x698098d8; FF D A B C 9 S12 0x8b44f7af;
   FF C D A B 10 S13 0xffff5bb1; FF B C D A 11 S14 0x895cd7be;
   FF A B C D 12 S11 0x6b901122; FF D A B C 13 S12 0xfd987193;
   FF C D A B 14 S13 0xa679438e; FF B C D A 15 S14 0x49b40821;
   GG A B C D 1 S21 0xf61e2562; GG D A B C 6 S22 0xc040b340;
   GG C D A B 11 S23 0x265e5a51; GG B C D A 0 S24 0xe9b6c7aa;
   GG A B C D 5 S21 0xd62f105d; GG D A B C 10 S22 0x2441453;
   GG C D A B 15 S23 0xd8a1e681; GG B C D A 4 S24 0xe7d3fbc8;
   GG A B C D 9 S21 0x21e1cde6; GG D A B C 14 S22 0xc33707d6;
   GG C D A B 3 S23 0xf4d50d87; GG B C D A 8 S24 0x455a14ed;
   GG A B C D 13 S21 0xa9e3e905; GG D A B C 2 S22 0xfcefa3f8;
   GG C D A B 7 S23 0x676f02d9; GG B C D A 12 S24 0x8d2a4c8a;
   HH A B C D 5 S31 0xfffa3942; HH D A B C 8 S32 0x8771f681;
   HH C D A B 11 S33 0x6d9d6122; HH B C D A 14 S34 0xfde5380c;
   HH A B C D 1 S31 0xa4beea44; HH D A B C 4 S32 0x4bdecfa9;
   HH C D A B 7 S33 0xf6bb4b60; HH B C D A 10 S34 0xbebfbc70;
   HH A B C D 13 S31 0x289b7ec6; HH D A B C 0 S32 0xeaa127fa;
   HH C D A B 3 S33 0xd4ef3085; HH B C D A 6 S34 0x4881d05;
   HH A B C D 9 S31 0xd9d4d039; HH D A B C 12 S32 0xe6db99e5;
   HH C D A B 15 S33 0x1fa27cf8; HH B C D A 2 S34 0xc4ac5665;
   II A B C D 0 S41 0xf4292244; II D A B C 7 S42 0x432aff97;
   II C D A B 14 S43 0xab9423a7; II B C D A 5 S44 0xfc93a039;
   II A B C D 12 S41 0x655b59c3; II D A B C 3 S42 0x8f0ccc92;
   II C D A B 10 S43 0xffeff47d; II B C D A 1 S44 0x85845dd1;
   II A B C D 8 S41 0x6fa87e4f; II D A B C 15 S42 0xfe2ce6e0;
   II C D A B 6 S43 0xa3014314; II B C D A 13 S44 0x4e0811a1;
   II A B C D 4 S41 0xf7537e82; II D A B C 11 S42 0xbd3af235;
   II C D A B 2 S43 0x2ad7d2bb; II B C D A 9 S44 0xeb86d391].

(** ** Words and bytes *)

(** [Encode]: four bytes of each word, the least significant first. *)
Fixpoint Encode (input : list Z) : list Z :=
  match input with
  | [] => []
  | w :: input' =>
      [Z.land w 0xff; Z.land (Z.shiftr w 8) 0xff; Z.land (Z.shiftr w 16) 0xff; Z.land (Z.shiftr w 24) 0xff]
      ++ Encode input'
  end.

(** [Decode], on a multiple of four bytes. *)
Fixpoint Decode (input : list Z) : list Z :=
  match input with
  | b0 :: b1 :: b2 :: b3 :: input' =>
      Z.lor (Z.lor (Z.lor b0 (u32 (Z.shiftl b1 8))) (u32 (Z.shiftl b2 16))) (u32 (Z.shiftl b3 24))
      :: Decode input'
  | _ => []
  end.

(** ** The block transformation *)

Definition run_line (x : list Z) (r : words4) (l : line) : words4 :=
  write_var r (l_a l)
    (mix (l_f l) (read_var r (l_a l)) (read_var r (l_b l)) (read_var r (l_c l)) (read_var r (l_d l))
       (nth (l_k l) x 0) (l_s l) (l_ac l)).

Definition add4 (r q : words4) : words4 :=
  W4 (u32 (wa r + wa q)) (u32 (wb r + wb q)) (u32 (wc r + wc q)) (u32 (wd r + wd q)).

Definition MD5Transform (state : words4) (block : list Z) : words4 :=
  let x := Decode block in add4 state (foldl (run_line x) state transform_lines).

(** ** The operations *)

Record MD5_CTX := Ctx { state : words4; count0 : Z; count1 : Z; buffer : list Z }.

Definition PADDING : list Z := 0x80 :: replicate 63 0.

Definition MD5Init (mem : list Z) : MD5_CTX :=
  Ctx (W4 0x67452301 0xefcdab89 0x98badcfe 0x10325476) 0 0 mem.

(** The loop over whole blocks of the input, from [i] on: the state and the
    last [i].  [inputLen / 64 + 1] turns are enough. *)
Fixpoint update_blocks (fuel : nat) (input : list Z) (i : Z) (st : words4) : words4 * Z :=
  match fuel with
  | O => (st, i)
  | S fuel' =>
      if u32 (i + 63) <? zlen input
      then update_blocks fuel' input (u32 (i + 64)) (MD5Transform st (take 64 (drop (Z.to_nat i) input)))
      else (st, i)
  end.

Definition MD5Update (context : MD5_CTX) (input : list Z) : MD5_CTX :=
  let inputLen := zlen input in
  let index := Z.land (Z.shiftr (count0 context) 3) 0x3F in
  let c0 := u32 (count0 context + u32 (Z.shiftl inputLen 3)) in
  let c1 := if c0 <? u32 (Z.shiftl inputLen 3) then u32 (count1 context + 1) else count1 context in
  let c1 := u32 (c1 + Z.shiftr inputLen 29) in
  let partLen := 64 - index in
  if partLen <=? inputLen then
    let buff := splice (buffer context) index (take (Z.to_nat partLen) input) in
    let st := MD5Transform (state context) buff in
    let '(st, i) := update_blocks (Z.to_nat (inputLen / 64 + 1)) input partLen st in
    Ctx st c0 c1 (splice buff 0 (drop (Z.to_nat i) input))
  else Ctx (state context) c0 c1 (splice (buffer context) index input).

(** The digest and the context, which is set to zero. *)
Definition MD5Final (context : MD5_CTX) : list Z * MD5_CTX :=
  let bits := Encode [count0 context; count1 context] in
  let index := Z.land (Z.shiftr (count0 context) 3) 0x3f in
  let padLen := if index <? 56 then 56 - index else 120 - index in
  let context := MD5Update context (take (Z.to_nat padLen) PADDING) in
  let context := MD5Update context bits in
  let st := state context in
  (Encode [wa st; wb st; wc st; wd st], Ctx (W4 0 0 0 0) 0 0 (replicate 64 0)).

(** ** The standard (RFC 1321, section 3) *)

(** The sine by its power series, in fixed point with 192 fractional bits; 120
    terms are exact to far more than 32 bits up to 64. *)
Definition fix_one : Z := 2 ^ 192.

Fixpoint sine_terms (n : nat) (k x2 term : Z) : Z :=
  match n with
  | O => 0
  | S n' => term + sine_terms n' (k + 2) x2 (- (term * x2 / (k * (k + 1))))
  end.

Definition sine (i : Z) : Z := sine_terms 120 2 (i * i) (i * fix_one).

(** "Let T[i] denote the i-th element of the table, which is equal to the
    integer part of 4294967296 times abs(sin(i)), where i is in radians." *)
Definition T (i : nat) : Z := 2 ^ 32 * Z.abs (sine (Z.of_nat i + 1)) / fix_one.

(** The function, the word, and the shift of step [i]. *)
Definition rfc_f (i : nat) : Z -> Z -> Z -> Z :=
  nth (i / 16) [F; G; H; I] F.

Definition rfc_k (i : nat) : nat :=
  nth (i / 16) [i; 5 * i + 1; 3 * i + 5; 7 * i]%nat 0%nat mod 16.

Definition rfc_s (i : nat) : Z :=
  nth (i mod 4) (nth (i / 16) [[7; 12; 17; 22]; [5; 9; 14; 20]; [4; 11; 16; 23]; [6; 10; 15; 21]] []) 0.

(** a = b + ((a + F(b,c,d) + X[k] + T[i]) <<< s), the roles moving on. *)
Definition rfc_step (x : list Z) (r : words4) (i : nat) : words4 :=
  W4 (wd r)
     (u32 (wb r + ROTATE_LEFT (u32 (wa r + rfc_f i (wb r) (wc r) (wd r) + nth (rfc_k i) x 0 + T i)) (rfc_s i)))
     (wb r) (wc r).

(** The [n] first blocks of [size] elements of a list. *)
Fixpoint blocks {E} (size n : nat) (l : list E) : list (list E) :=
  match n with O => [] | S n' => take size l :: blocks size n' (drop size l) end.

Definition rfc_block (r : words4) (block : list Z) : words4 :=
  let x := le_value <$> blocks 4 16 block in add4 r (foldl (rfc_step x) r (seq 0 64)).

(** The padded message, and its digest. *)
Definition rfc_padded (m : list Z) : list Z :=
  m ++ 0x80 :: replicate (Z.to_nat ((55 - zlen m) mod 64)) 0 ++ le_bytes 8 (8 * zlen m).

Definition rfc_init : words4 := W4 0x67452301 0xefcdab89 0x98badcfe 0x10325476.

Definition all_blocks (m : list Z) : list (list Z) := blocks 64 (length m / 64) m.

Definition rfc_md5 (m : list Z) : list Z :=
  let r := foldl rfc_block rfc_init (all_blocks (rfc_padded m)) in
  le_bytes 4 (wa r) ++ le_bytes 4 (wb r) ++ le_bytes 4 (wc r) ++ le_bytes 4 (wd r).

(** ** The transformation is the one of the standard *)

(** The table of the code. *)
Definition table (i : nat) : Z := nth i (l_ac <$> transform_lines) 0.

Lemma T_table i : (i < 64)%nat -> T i = table i.
Proof.
  intros Hi. assert (Ht : T <$> seq 0 64 = l_ac <$> transform_lines) by (vm_compute; reflexivity).
  unfold table. rewrite <- Ht. rewrite nth_lookup, list_lookup_fmap, lookup_seq_lt by lia. done.
Qed.

(** Four lines, after which the variables have their roles again. *)
Definition group (t : nat -> Z) (g : nat) : list line :=
  let i j := (j + 4 * g)%nat in
  let at_step j := (fun a b c d => Line (rfc_f (i j)) a b c d (rfc_k (i j)) (rfc_s (i j)) (t (i j))) in
  [at_step 0%nat A B C D; at_step 1%nat D A B C; at_step 2%nat C D A B; at_step 3%nat B C D A].

Lemma lines_groups : transform_lines = flat_map (group T) (seq 0 16).
Proof.
  transitivity (flat_map (group table) (seq 0 16)); [reflexivity|].
  assert (Hg : forall l, Forall (fun g => (g < 16)%nat) l -> flat_map (group table) l = flat_map (group T) l).
  { induction 1 as [|g l Hg _ IH]; [done|]. cbn [flat_map]. rewrite IH. unfold group.
    by rewrite !T_table by lia. }
  apply Hg, Forall_seq. lia.
Qed.

Lemma run_group x r g : foldl (run_line x) r (group T g) = foldl (rfc_step x) r (seq (4 * g) 4).
Proof.
  assert (Hmix : forall i a b c d, mix (rfc_f i) a b c d (nth (rfc_k i) x 0) (rfc_s i) (T i)
    = u32 (b + ROTATE_LEFT (u32 (a + rfc_f i b c d + nth (rfc_k i) x 0 + T i)) (rfc_s i))).
  { intros. unfold mix. rewrite u32_add_r. rewrite Z.add_comm. do 4 f_equal. lia. }
  destruct r as [a b c d].
  unfold group. cbn [seq Nat.add foldl run_line read_var write_var l_a l_b l_c l_d l_f l_k l_s l_ac wa wb wc wd].
  rewrite !Hmix. reflexivity.
Qed.

Lemma run_groups x r g n :
  foldl (run_line x) r (flat_map (group T) (seq g n)) = foldl (rfc_step x) r (seq (4 * g) (4 * n)).
Proof.
  revert r g. induction n as [|n IH]; intros r g; [done|].
  cbn [seq flat_map]. rewrite foldl_app, run_group, IH.
  replace (4 * S n)%nat with (4 + 4 * n)%nat by lia. rewrite seq_app, foldl_app. do 2 f_equal. lia.
Qed.

Lemma Decode_words n l :
  Forall is_byte l -> length l = (4 * n)%nat -> Decode l = le_value <$> blocks 4 n l.
Proof.
  revert l. induction n as [|n IH]; intros l Hb Hl; [by destruct l|].
  destruct l as [|b0 [|b1 [|b2 [|b3 l]]]]; simpl in Hl; try lia.
  apply Forall_cons_1 in Hb as [H0 Hb]. apply Forall_cons_1 in Hb as [H1 Hb].
  apply Forall_cons_1 in Hb as [H2 Hb]. apply Forall_cons_1 in Hb as [H3 Hb]. unfold is_byte in H0, H1, H2, H3.
  cbn [Decode blocks take drop fmap list_fmap le_value]. rewrite (IH l) by (done || lia). f_equal.
  rewrite !(u32_small (Z.shiftl _ _)) by (rewrite Z.shiftl_mul_pow2 by lia; lia).
  rewrite (lor_shiftl b0 b1 8) by lia. change (2 ^ 8) with 256.
  rewrite (lor_shiftl _ b2 16) by lia. change (2 ^ 16) with 65536.
  rewrite (lor_shiftl _ b3 24) by (change (2 ^ 24) with 16777216; lia). change (2 ^ 24) with 16777216.
  change (le_value (take 0 l)) with 0. lia.
Qed.

Lemma MD5Transform_rfc st block :
  Forall is_byte block -> length block = 64%nat -> MD5Transform st block = rfc_block st block.
Proof.
  intros Hb Hl. unfold MD5Transform, rfc_block. rewrite (Decode_words 16) by done.
  rewrite lines_groups, run_groups. done.
Qed.

Lemma Encode_bytes ws : Forall (fun w => 0 <= w < 2 ^ 32) ws -> Encode ws = concat (le_bytes 4 <$> ws).
Proof.
  induction 1 as [|w ws Hw _ IH]; [done|]. cbn [Encode fmap list_fmap concat]. rewrite IH. f_equal.
  change 0xff with (2 ^ 8 - 1). rewrite !land_ones_mod, !Z.shiftr_div_pow2 by lia.
  cbn [le_bytes]. rewrite !Z.div_div by lia. reflexivity.
Qed.

(** ** Blocks of a message *)

Lemma blocks_length {E} size n (l : list E) : length (blocks size n l) = n.
Proof. revert l. induction n as [|n IH]; intros l; simpl; [done|]. by rewrite IH. Qed.

Lemma blocks_app {E} size n k (l1 l2 : list E) :
  length l1 = (size * n)%nat -> blocks size (n + k) (l1 ++ l2) = blocks size n l1 ++ blocks size k l2.
Proof.
  revert l1. induction n as [|n IH]; intros l1 Hl.
  - destruct l1; [done|simpl in Hl; lia].
  - cbn [Nat.add blocks]. rewrite take_app_le, drop_app_le by lia. cbn [app]. f_equal.
    apply IH. rewrite length_drop. lia.
Qed.

Lemma all_blocks_app m1 m2 n :
  length m1 = (64 * n)%nat -> all_blocks (m1 ++ m2) = all_blocks m1 ++ all_blocks m2.
Proof.
  intros Hl. unfold all_blocks. rewrite length_app, Hl.
  replace ((64 * n + length m2) / 64)%nat with (n + length m2 / 64)%nat
    by (rewrite Nat.mul_comm, Nat.div_add_l; lia).
  replace (64 * n / 64)%nat with n by (rewrite Nat.mul_comm, Nat.div_mul; lia).
  by apply blocks_app.
Qed.

Lemma all_blocks_one m : length m = 64%nat -> all_blocks m = [m].
Proof. intros Hl. unfold all_blocks. rewrite Hl. simpl. by rewrite take_ge by lia. Qed.

Lemma all_blocks_short m : (length m < 64)%nat -> all_blocks m = [].
Proof. intros Hl. unfold all_blocks. by rewrite Nat.div_small. Qed.

(** ** Hashing in pieces *)

(** The whole blocks of a message, and what is left. *)
Definition whole (m : list Z) : list Z := take (64 * (length m / 64)) m.
Definition rest (m : list Z) : list Z := drop (64 * (length m / 64)) m.

Lemma rest_length m : length (rest m) = (length m mod 64)%nat.
Proof. unfold rest. rewrite length_drop. pose proof (Nat.div_mod_eq (length m) 64). lia. Qed.

Lemma whole_rest m : m = whole m ++ rest m.
Proof. symmetry. apply take_drop. Qed.

Lemma whole_length m : length (whole m) = (64 * (length m / 64))%nat.
Proof. unfold whole. rewrite length_take. pose proof (Nat.div_mod_eq (length m) 64). lia. Qed.

Lemma all_blocks_whole m : all_blocks (whole m) = all_blocks m.
Proof.
  rewrite (whole_rest m) at 2. rewrite (all_blocks_app _ _ _ (whole_length m)).
  rewrite (all_blocks_short (rest m)); [by rewrite app_nil_r|]. rewrite rest_length.
  apply Nat.mod_upper_bound. lia.
Qed.

(** Appending to a message only touches its last block. *)
Lemma all_blocks_step m d : all_blocks (m ++ d) = all_blocks m ++ all_blocks (rest m ++ d).
Proof.
  rewrite (whole_rest m) at 1. rewrite <- app_assoc, (all_blocks_app _ _ _ (whole_length m)).
  by rewrite all_blocks_whole.
Qed.

Lemma rest_drop m1 m2 n : length m1 = (64 * n)%nat -> rest (m1 ++ m2) = rest m2.
Proof.
  intros Hl. unfold rest. rewrite length_app, Hl.
  replace ((64 * n + length m2) / 64)%nat with (n + length m2 / 64)%nat
    by (rewrite (Nat.mul_comm 64 n), Nat.div_add_l; lia).
  rewrite drop_app_ge by lia. f_equal. lia.
Qed.

Lemma rest_step m d : rest (m ++ d) = rest (rest m ++ d).
Proof. rewrite (whole_rest m) at 1. rewrite <- app_assoc. by rewrite (rest_drop _ _ _ (whole_length m)). Qed.

Lemma rest_short m : (length m < 64)%nat -> rest m = m.
Proof. intros Hl. unfold rest. by rewrite Nat.div_small. Qed.

(** The context after the message [m]: the bits counted modulo 2^64, the state
    after the whole blocks, and the rest in the buffer. *)
Record hashed (c : MD5_CTX) (m : list Z) : Prop := {
  hashed_low : 0 <= count0 c < 2 ^ 32;
  hashed_high : 0 <= count1 c < 2 ^ 32;
  hashed_count : count0 c + 2 ^ 32 * count1 c = (8 * zlen m) mod 2 ^ 64;
  hashed_state : state c = foldl rfc_block rfc_init (all_blocks m);
  hashed_buffer : length (buffer c) = 64%nat;
  hashed_rest : take (length (rest m)) (buffer c) = rest m
}.

Lemma init_hashed mem : length mem = 64%nat -> hashed (MD5Init mem) [].
Proof. intros. split; try done; simpl; lia. Qed.

(** The index into the buffer. *)
Lemma index_rest c m : hashed c m -> Z.land (Z.shiftr (count0 c) 3) 0x3F = zlen (rest m).
Proof.
  intros [Hl Hh Hc _ _ _]. change 0x3F with (2 ^ 6 - 1).
  rewrite land_ones_mod, Z.shiftr_div_pow2 by lia. rewrite rest_length, Nat2Z.inj_mod.
  change (2 ^ 3) with 8. change (2 ^ 6) with 64. change (Z.of_nat 64) with 64.
  change (2 ^ 32) with 4294967296 in *. change (2 ^ 64) with 18446744073709551616 in *.
  Z.to_euclidean_division_equations; lia.
Qed.

Lemma count_add c0 c1 len n :
  0 <= c0 < 2 ^ 32 -> 0 <= c1 < 2 ^ 32 -> 0 <= len < 2 ^ 32 -> c0 + 2 ^ 32 * c1 = (8 * n) mod 2 ^ 64 ->
  let x := u32 (Z.shiftl len 3) in
  let c0' := u32 (c0 + x) in
  let c1' := u32 ((if c0' <? x then u32 (c1 + 1) else c1) + Z.shiftr len 29) in
  c0' + 2 ^ 32 * c1' = (8 * (n + len)) mod 2 ^ 64.
Proof.
  intros H0 H1 Hl Hc. rewrite Z.shiftl_mul_pow2, Z.shiftr_div_pow2 by lia. unfold u32. cbv zeta.
  change (2 ^ 3) with 8. change (2 ^ 29) with 536870912.
  change (2 ^ 32) with 4294967296 in *. change (2 ^ 64) with 18446744073709551616 in *.
  destruct (Z.ltb_spec ((c0 + len * 8 mod 4294967296) mod 4294967296) (len * 8 mod 4294967296));
    Z.to_euclidean_division_equations; lia.
Qed.

(** Whole blocks straight from the input. *)
Lemma update_blocks_spec fuel input i st :
  Forall is_byte input -> zlen input <= 2 ^ 32 - 64 -> (i <= length input)%nat ->
  ((length input - i) / 64 < fuel)%nat ->
  update_blocks fuel input (Z.of_nat i) st
    = (foldl rfc_block st (all_blocks (drop i input)),
       Z.of_nat (i + 64 * ((length input - i) / 64))).
Proof.
  revert i st. induction fuel as [|fuel IH]; intros i st Hb Hl Hi Hf; [lia|].
  cbn [update_blocks]. rewrite u32_small by lia. destruct (Z.ltb_spec (Z.of_nat i + 63) (zlen input)) as [Hlt|Hge].
  - assert (Hd : ((length input - i) / 64 = S ((length input - (i + 64)) / 64))%nat).
    { replace (length input - i)%nat with (1 * 64 + (length input - (i + 64)))%nat by lia.
      rewrite Nat.div_add_l by lia. lia. }
    rewrite u32_small by lia. replace (Z.of_nat i + 64) with (Z.of_nat (i + 64)) by lia.
    rewrite IH by (done || lia). rewrite Nat2Z.id. f_equal; [|lia].
    assert (Hk : length (take 64 (drop i input)) = 64%nat) by (rewrite length_take, length_drop; lia).
    rewrite <- (take_drop 64 (drop i input)) at 2. rewrite (all_blocks_app _ _ 1) by done.
    rewrite (all_blocks_one (take _ _)) by done. rewrite foldl_app, drop_drop. cbn [foldl].
    rewrite MD5Transform_rfc; [done| |done]. by apply Forall_take, Forall_drop.
  - rewrite Nat.div_small by lia. rewrite all_blocks_short by (rewrite length_drop; lia).
    f_equal. lia.
Qed.

(** Data appended to what the buffer holds. *)
Lemma update_short c m d :
  hashed c m -> (length (rest m) + length d < 64)%nat ->
  let c' := splice (buffer c) (zlen (rest m)) d in
  all_blocks (m ++ d) = all_blocks m /\ length c' = 64%nat /\ take (length (rest (m ++ d))) c' = rest (m ++ d).
Proof.
  intros Hh Hs. pose proof (hashed_buffer _ _ Hh) as Hb. cbv zeta. split_and!.
  - rewrite all_blocks_step, (all_blocks_short (rest m ++ d)) by (rewrite length_app; lia). apply app_nil_r.
  - by rewrite splice_length by lia.
  - rewrite rest_step, rest_short by (rewrite length_app; lia). rewrite length_app, splice_take by lia.
    by rewrite (hashed_rest _ _ Hh).
Qed.

(** The block that is completed in the buffer, and what follows it. *)
Lemma update_long c m d :
  hashed c m -> (64 <= length (rest m) + length d)%nat ->
  let part := (64 - length (rest m))%nat in
  let buff := splice (buffer c) (zlen (rest m)) (take part d) in
  buff = rest m ++ take part d /\ length buff = 64%nat /\
  all_blocks (m ++ d) = all_blocks m ++ buff :: all_blocks (drop part d) /\
  rest (m ++ d) = rest (drop part d).
Proof.
  intros Hh Hs part buff. pose proof (hashed_buffer _ _ Hh) as Hb.
  assert (Hr : (length (rest m) < 64)%nat) by (rewrite rest_length; apply Nat.mod_upper_bound; lia).
  assert (Hp : length (take part d) = part) by (rewrite length_take; lia).
  assert (E : buff = rest m ++ take part d).
  { rewrite <- (hashed_rest _ _ Hh) at 1. rewrite <- splice_take by lia. fold buff.
    rewrite take_ge; [done|]. unfold buff. rewrite splice_length; lia. }
  assert (Hl : length buff = 64%nat) by (rewrite E, length_app; lia).
  assert (Es : rest m ++ d = buff ++ drop part d) by (by rewrite E, <- app_assoc, take_drop).
  split_and!; try done.
  - rewrite all_blocks_step, Es, (all_blocks_app _ _ 1) by done. by rewrite (all_blocks_one buff).
  - by rewrite rest_step, Es, (rest_drop _ _ 1).
Qed.

Lemma update_hashed c m d :
  hashed c m -> Forall is_byte m -> Forall is_byte d -> zlen d <= 2 ^ 32 - 64 -> hashed (MD5Update c d) (m ++ d).
Proof.
  intros Hh Hm Hd Hl. pose proof Hh as [H0 H1 H2 H3 H4 H5]. unfold MD5Update. rewrite (index_rest c m Hh).
  assert (Hr : (length (rest m) < 64)%nat) by (rewrite rest_length; apply Nat.mod_upper_bound; lia).
  pose proof (count_add (count0 c) (count1 c) (zlen d) (zlen m) H0 H1 ltac:(lia) H2) as Hc.
  cbv zeta in Hc |- *. rewrite <- Nat2Z.inj_add, <- length_app in Hc.
  destruct (Z.leb_spec (64 - zlen (rest m)) (zlen d)) as [Hge|Hlt].
  - destruct (update_long c m d Hh) as (E & L & Hbl & Hre); [lia|].
    set (part := (64 - length (rest m))%nat) in *.
    replace (64 - zlen (rest m)) with (Z.of_nat part) by lia. rewrite Nat2Z.id.
    set (buff := splice (buffer c) (zlen (rest m)) (take part d)) in *.
    replace (Z.to_nat (zlen d / 64 + 1)) with (S (length d / 64))
      by (change 64 with (Z.of_nat 64); rewrite <- Nat2Z.inj_div; lia).
    rewrite update_blocks_spec; [|done|done|lia|].
    2:{ apply Nat.lt_succ_r, Nat.Div0.div_le_mono. lia. }
    assert (Hrest : drop (part + 64 * ((length d - part) / 64)) d = rest (drop part d))
      by (unfold rest; by rewrite length_drop, drop_drop).
    rewrite Nat2Z.id, Hrest, <- Hre.
    assert (Hlr : (length (rest (m ++ d)) < 64)%nat) by (rewrite rest_length; apply Nat.mod_upper_bound; lia).
    split; cbn [count0 count1 state buffer]; try apply u32_range; try done.
    + rewrite Hbl, foldl_app. cbn [foldl]. rewrite <- H3, MD5Transform_rfc; [done| |done].
      rewrite E. apply Forall_app. split; [by apply Forall_drop|by apply Forall_take].
    + rewrite splice_length; lia.
    + exact (splice_take buff 0 (rest (m ++ d)) ltac:(lia)).
  - destruct (update_short c m d Hh) as (E & L & Hre); [lia|].
    split; cbn [count0 count1 state buffer]; try apply u32_range; try done. by rewrite E.
Qed.

Lemma pieces_hashed c m pieces :
  hashed c m -> Forall is_byte m -> Forall (Forall is_byte) pieces ->
  Forall (fun d => zlen d <= 2 ^ 32 - 64) pieces -> hashed (foldl MD5Update c pieces) (m ++ concat pieces).
Proof.
  intros Hh Hm Hb Hl. revert c m Hh Hm. induction pieces as [|d pieces IH]; intros c m Hh Hm; simpl.
  - by rewrite app_nil_r.
  - apply Forall_cons_1 in Hb as [Hb1 Hb], Hl as [Hl1 Hl]. rewrite app_assoc. apply IH; try done.
    + by apply update_hashed.
    + by apply Forall_app.
Qed.

(** The two updates of [MD5Final] pad the message as the standard does. *)
Lemma final_padded c m :
  hashed c m ->
  let index := Z.land (Z.shiftr (count0 c) 3) 0x3f in
  let padLen := if index <? 56 then 56 - index else 120 - index in
  (m ++ take (Z.to_nat padLen) PADDING) ++ Encode [count0 c; count1 c] = rfc_padded m /\
  Forall is_byte (take (Z.to_nat padLen) PADDING) /\ Forall is_byte (Encode [count0 c; count1 c]).
Proof.
  intros Hh. pose proof Hh as [H0 H1 H2 _ _ _]. cbv zeta. rewrite (index_rest c m Hh).
  set (padLen := if _ <? 56 then _ else _).
  assert (Hr : zlen (rest m) = zlen m mod 64) by (rewrite rest_length; apply Nat2Z.inj_mod).
  assert (Hp : padLen = (55 - zlen m) mod 64 + 1).
  { unfold padLen. rewrite Hr. destruct (Z.ltb_spec (zlen m mod 64) 56); Z.to_euclidean_division_equations; lia. }
  assert (He : Encode [count0 c; count1 c] = le_bytes 8 (8 * zlen m)).
  { rewrite Encode_bytes by (repeat constructor; lia). cbn [fmap list_fmap concat]. rewrite app_nil_r.
    rewrite <- (le_bytes_mod 8). change (256 ^ Z.of_nat 8) with (2 ^ 64). rewrite <- H2.
    rewrite (le_bytes_app 4 4). rewrite <- (le_bytes_mod 4 (count0 c + _)).
    change (256 ^ Z.of_nat 4) with (2 ^ 32). rewrite (Z.mul_comm (2 ^ 32)), Z.mod_add, Z.div_add by lia.
    by rewrite Z.mod_small, Z.div_small, Z.add_0_l by lia. }
  rewrite He. split_and!.
  - unfold rfc_padded. rewrite <- app_assoc. f_equal. rewrite Hp.
    pose proof (Z.mod_pos_bound (55 - zlen m) 64 ltac:(lia)).
    replace (Z.to_nat ((55 - zlen m) mod 64 + 1)) with (S (Z.to_nat ((55 - zlen m) mod 64))) by lia.
    unfold PADDING. cbn [take app]. rewrite take_replicate, Nat.min_l by lia. done.
  - apply Forall_take. unfold PADDING. constructor; [unfold is_byte; lia|]. by apply Forall_replicate.
  - apply le_bytes_bytes.
Qed.

Lemma rfc_words r block : let r' := rfc_block r block in
  Forall (fun w => 0 <= w < 2 ^ 32) [wa r'; wb r'; wc r'; wd r'].
Proof. repeat constructor; apply u32_range. Qed.

Lemma fold_words r bs :
  Forall (fun w => 0 <= w < 2 ^ 32) [wa r; wb r; wc r; wd r] ->
  let r' := foldl rfc_block r bs in Forall (fun w => 0 <= w < 2 ^ 32) [wa r'; wb r'; wc r'; wd r'].
Proof. revert r. induction bs as [|b bs IH]; intros r Hr; [done|]. apply IH, rfc_words. Qed.

Lemma init_words : Forall (fun w => 0 <= w < 2 ^ 32) [wa rfc_init; wb rfc_init; wc rfc_init; wd rfc_init].
Proof. repeat (apply Forall_cons_2; [by split|]). apply Forall_nil_2. Qed.

(** Where the offset of the first whole block is 1 (63 bytes are buffered) and
    the input has 2^32 - 1 bytes, the offset wraps around before it can be seen
    to be too large: however often the loop is taken, it goes on. *)
Lemma update_never_ends input st fuel : zlen input = 2 ^ 32 - 1 ->
  let i := (update_blocks fuel input 1 st).2 in i = u32 (1 + 64 * Z.of_nat fuel) /\ (u32 (i + 63) <? zlen input) = true.
Proof.
  intros Hl. assert (Hwrap : forall k, 0 <= k -> u32 (u32 (1 + 64 * k) + 63) <= 2 ^ 32 - 64).
  { intros k Hk. unfold u32. rewrite Zplus_mod_idemp_l. replace (1 + 64 * k + 63) with ((k + 1) * 64) by lia.
    change (2 ^ 32) with (2 ^ 26 * 64). rewrite Zmult_mod_distr_r. pose proof (Z.mod_pos_bound (k + 1) (2 ^ 26)). lia. }
  assert (H : forall n k st0, 0 <= k -> (update_blocks n input (u32 (1 + 64 * k)) st0).2 = u32 (1 + 64 * (k + Z.of_nat n))).
  { induction n as [|n IH]; intros k st0 Hk; cbn [update_blocks snd].
    - do 2 f_equal. lia.
    - rewrite (proj2 (Z.ltb_lt _ _)) by (specialize (Hwrap k Hk); lia).
      replace (u32 (u32 (1 + 64 * k) + 64)) with (u32 (1 + 64 * (k + 1))) by (unfold u32; rewrite Zplus_mod_idemp_l; f_equal; lia).
      rewrite IH by lia. do 2 f_equal. lia. }
  specialize (H fuel 0 st ltac:(lia)). change (u32 (1 + 64 * 0)) with 1 in H. cbv zeta. rewrite H. rewrite Z.add_0_l.
  split; [done|]. apply Z.ltb_lt. specialize (Hwrap (Z.of_nat fuel) ltac:(lia)). lia.
Qed.

(** C13. Message digests: a message of bytes that is hashed in pieces of at
    most 2^32 - 64 bytes each gives the MD5 digest the standard defines for
    the whole message (padding to a multiple of 64 bytes with the length in
    bits, 64 steps for each block with constants from the sine function),
    whatever memory the context was in; finishing leaves a context of zeros.
    For longer pieces the loop of [MD5Update] need not end
    ([update_never_ends]). *)
Theorem md5_correct mem pieces :
  length mem = 64%nat -> Forall (Forall is_byte) pieces -> Forall (fun d => zlen d <= 2 ^ 32 - 64) pieces ->
  MD5Final (foldl MD5Update (MD5Init mem) pieces)
    = (rfc_md5 (concat pieces), Ctx (W4 0 0 0 0) 0 0 (replicate 64 0)).
Proof.
  intros Hmem Hb Hl. set (m := concat pieces).
  assert (Hm : Forall is_byte m) by (by apply Forall_concat).
  pose proof (pieces_hashed _ _ _ (init_hashed mem Hmem) (Forall_nil_2 _) Hb Hl) as Hh. rewrite app_nil_l in Hh.
  fold m in Hh. set (c := foldl MD5Update (MD5Init mem) pieces) in *.
  destruct (final_padded c m Hh) as (Hpad & Hb1 & Hb2). unfold MD5Final. cbv zeta in *.
  set (pad := take _ PADDING) in *. set (bits := Encode [count0 c; count1 c]) in *.
  assert (Hs1 : zlen pad <= 64) by (unfold pad; rewrite length_take; simpl; lia).
  pose proof (update_hashed c m pad Hh Hm Hb1 ltac:(lia)) as Hh1.
  pose proof (update_hashed _ _ bits Hh1 ltac:(by apply Forall_app) Hb2 ltac:(done)) as Hh2.
  rewrite (hashed_state _ _ Hh2), Hpad. f_equal.
  rewrite Encode_bytes by apply fold_words, init_words.
  unfold rfc_md5. cbn [fmap list_fmap concat]. by rewrite app_nil_r.
Qed.
(** Three digests of the test suite of the standard (appendix A.5): of nothing,
    of "abc", and of the digits 1 to 0 eight times, in one piece and in two. *)
Definition digits : list Z := concat (replicate 8 [49; 50; 51; 52; 53; 54; 55; 56; 57; 48]).

Example md5_test_suite :
  let digest pieces := (MD5Final (foldl MD5Update (MD5Init (replicate 64 7)) pieces)).1 in
  digest [] =
    [0xd4; 0x1d; 0x8c; 0xd9; 0x8f; 0x00; 0xb2; 0x04; 0xe9; 0x80; 0x09; 0x98; 0xec; 0xf8; 0x42; 0x7e] /\
  digest [[97; 98; 99]] =
    [0x90; 0x01; 0x50; 0x98; 0x3c; 0xd2; 0x4f; 0xb0; 0xd6; 0x96; 0x3f; 0x7d; 0x28; 0xe1; 0x7f; 0x72] /\
  digest [digits] = digest [take 61 digits; drop 61 digits] /\
  digest [digits] =
    [0x57; 0xed; 0xf4; 0xa2; 0x2b; 0xe3; 0xc9; 0x55; 0xac; 0x49; 0xda; 0x2e; 0x21; 0x07; 0xb6; 0x7a].
Proof. vm_compute. repeat split. Qed.

Lemma md5_correct_witness :
  (MD5Final (foldl MD5Update (MD5Init (replicate 64 7)) [[97]; [98; 99]])).1 = rfc_md5 [97; 98; 99].
Proof.
  rewrite (md5_correct (replicate 64 7) [[97]; [98; 99]]).
  - reflexivity.
  - reflexivity.
  - repeat constructor; discriminate.
  - repeat constructor; discriminate.
Defined.
End MD5.
