(* ===== verification/IpcBuffer.v ===== *)
(** * Byte buffers (ipc.c)

    The growing buffer that sockets are read into and written from: the debugger
    and the ZMQ framing of Zmqlite.v are its clients.  A block of memory is the
    list of its bytes; fresh memory holds an arbitrary byte.  An access outside
    the block, and a call that does not return, are [None]. *)

From stdpp Require Import base list numbers.
From Stdlib Require Import ZArith Lia.
From S2P Require Import Prelude Words.
Open Scope Z_scope.

Record IPCBuffer := Buf { allocLen : Z; dataLen : Z; data : option (list Z) }.

(** ** Memory *)

(** Which requests succeed, and what fresh memory holds. *)
Record memory := Mem { has_room : Z -> bool; junk : Z }.

Definition malloc (m : memory) (n : Z) : option (list Z) :=
  if has_room m n then Some (replicate (Z.to_nat n) (junk m)) else None.

Definition realloc (m : memory) (d : list Z) (n : Z) : option (list Z) :=
  if has_room m n
  then Some (take (Z.to_nat n) d ++ replicate (Z.to_nat n - length d) (junk m)) else None.

(** [memcpy] into a block. *)
Definition copy_to (d : list Z) (off : Z) (bytes : list Z) : option (list Z) :=
  if (0 <=? off) && (off + zlen bytes <=? zlen d) then Some (splice d off bytes) else None.

(** ** Operations *)

Definition ipc_alloc_buffer (malloc_ok : bool) : option IPCBuffer :=
  if malloc_ok then Some (Buf 0 0 None) else None.

Definition ipc_reset_buffer (b : IPCBuffer) : IPCBuffer := Buf (allocLen b) 0 (data b).

Definition ipc_buffer_size (b : option IPCBuffer) : Z :=
  match b with Some b => dataLen b | None => 0 end.

(** The loop that doubles the size; 64 turns are enough for any request that
    can be met. *)
Fixpoint grow (fuel : nat) (len alloc dlen : Z) : option Z :=
  if u64 (alloc - dlen) <=? len then
    match fuel with O => None | S fuel' => grow fuel' len (u64 (alloc * 2)) dlen end
  else Some alloc.

(** The first block of a buffer: [false] when there is no memory. *)
Definition first_block (m : memory) (b : IPCBuffer) : bool * IPCBuffer :=
  match data b with
  | Some _ => (true, b)
  | None =>
      match malloc m 1024 with
      | Some d => (true, Buf 1024 (dataLen b) (Some d))
      | None => (false, Buf 1024 (dataLen b) None)
      end
  end.

(** A larger block: [realloc] of the data, whose old block is lost when it
    fails. *)
Definition enlarge (m : memory) (b : IPCBuffer) (len : Z) : option (bool * IPCBuffer) :=
  match grow 64 len (allocLen b) (dataLen b), data b with
  | Some alloc, Some d =>
      match realloc m d alloc with
      | Some d' => Some (true, Buf alloc (dataLen b) (Some d'))
      | None => Some (false, Buf 0 (dataLen b) None)
      end
  | _, _ => None
  end.

(** [ipc_append_buffer] with [len = zlen bytes]. *)
Definition ipc_append_buffer (m : memory) (buffer : option IPCBuffer) (bytes : list Z)
    : option (Z * option IPCBuffer) :=
  let len := zlen bytes in
  match buffer with
  | None => Some (0, None)
  | Some b0 =>
      if len <=? 0 then Some (0, Some b0)
      else
        match first_block m b0 with
        | (false, b1) => Some (-1, Some b1)
        | (true, b1) =>
            let room b := u64 (allocLen b - dataLen b) in
            match (if room b1 <=? len then enlarge m b1 len else Some (true, b1)) with
            | None => None
            | Some (false, b2) => Some (-1, Some b2)
            | Some (true, b2) =>
                if room b2 <=? len then Some (-1, Some b2)
                else
                  match data b2 with
                  | Some d =>
                      match copy_to d (dataLen b2) bytes with
                      | Some d' => Some (len, Some (Buf (allocLen b2) (dataLen b2 + len) (Some d')))
                      | None => None
                      end
                  | None => None
                  end
            end
        end
  end.

(** [vsnprintf] of a text into [n] bytes at an offset: as much as fits, and a
    terminating zero. *)
Definition vsnprintf (d : list Z) (off n : Z) (text : list Z) : option (list Z) :=
  if n <=? 0 then Some d else copy_to d off (take (Z.to_nat (n - 1)) text ++ [0]).

(** [ipc_printf_buffer]: the formatted text, or [None] when formatting fails. *)
Definition ipc_printf_buffer (m : memory) (buffer : option IPCBuffer) (formatted : option (list Z))
    : option (Z * option IPCBuffer) :=
  match buffer with
  | None => Some (0, None)
  | Some b0 =>
      match first_block m b0 with
      | (false, b1) => Some (-1, Some b1)
      | (true, b1) =>
          let room b := u64 (allocLen b - dataLen b) in
          match formatted, data b1 with
          | None, _ => Some (-1, Some b1)
          | Some _, None => None
          | Some text, Some d1 =>
              let len := zlen text in
              match vsnprintf d1 (dataLen b1) (room b1) text with
              | None => None
              | Some d2 =>
                  let b2 := Buf (allocLen b1) (dataLen b1) (Some d2) in
                  if len =? 0 then Some (0, Some b2)
                  else if len <? room b2 then Some (len, Some (Buf (allocLen b2) (dataLen b2 + len) (Some d2)))
                  else
                    match enlarge m b2 len with
                    | None => None
                    | Some (false, b3) => Some (-1, Some b3)
                    | Some (true, b3) =>
                        match data b3 with
                        | None => None
                        | Some d3 =>
                            match vsnprintf d3 (dataLen b3) (room b3) text with
                            | None => None
                            | Some d4 =>
                                if room b3 <=? len then Some (-1, Some (Buf (allocLen b3) (dataLen b3) (Some d4)))
                                else Some (len, Some (Buf (allocLen b3) (dataLen b3 + len) (Some d4)))
                            end
                        end
                    end
              end
          end
      end
  end.

Section Process.
Context {S : Type}.
(** The callback: how many of the bytes it used, and its state. *)
Context (cb : list Z -> S -> Z * S).

(** The do-while: the bytes from [consumed] on, until the callback uses none.
    A callback that claims more bytes than there are is a fault. *)
Fixpoint process_loop (fuel : nat) (bytes : list Z) (consumed : Z) (s : S) : option (Z * S) :=
  match fuel with
  | O => None
  | Datatypes.S fuel' =>
      let '(len, s') := cb (drop (Z.to_nat consumed) bytes) s in
      if len <=? 0 then Some (consumed, s')
      else if zlen bytes <? consumed + len then None
      else process_loop fuel' bytes (consumed + len) s'
  end.

(** The copy that closes the gap, byte after byte. *)
Fixpoint shift_down (n i : nat) (consumed : nat) (d : list Z) : list Z :=
  match n with
  | O => d
  | Datatypes.S n' => shift_down n' (i + 1) consumed (<[i := d !!! (i + consumed)%nat]> d)
  end.

Definition ipc_process_buffer (buffer : option IPCBuffer) (s : S) : option (Z * option IPCBuffer * S) :=
  match buffer with
  | None => Some (0, None, s)
  | Some b =>
      match data b with
      | None => Some (0, Some b, s)
      | Some d =>
          if dataLen b =? 0 then Some (0, Some b, s)
          else
            let bytes := take (Z.to_nat (dataLen b)) d in
            match process_loop (length bytes + 1) bytes 0 s with
            | None => None
            | Some (consumed, s') =>
                if consumed <=? 0 then Some (consumed, Some b, s')
                else if consumed =? dataLen b then Some (consumed, Some (ipc_reset_buffer b), s')
                else
                  let d' := shift_down (Z.to_nat (dataLen b - consumed)) 0 (Z.to_nat consumed) d in
                  Some (consumed, Some (Buf (allocLen b) (dataLen b - consumed) (Some d')), s')
            end
      end
  end.
End Process.

Section WriteSync.
Context {W : Type}.
(** write: its result, errno, and the world. *)
Context (write : list Z -> W -> Z * Z * W).
Definition EAGAIN : Z := 11.

(** [ipc_write_buffer_sync], in at most [fuel] calls of write. *)
Fixpoint write_loop (fuel : nat) (bytes : list Z) (sent : Z) (w : W) : option (Z * W) :=
  if zlen bytes <=? sent then Some (0, w)
  else
    match fuel with
    | O => None
    | S fuel' =>
        let '(written, errno, w') := write (drop (Z.to_nat sent) bytes) w in
        if (written <? 0) && negb (errno =? EAGAIN) then Some (-1, w')
        else if 0 <? written then write_loop fuel' bytes (sent + written) w'
        else write_loop fuel' bytes sent w'
    end.

Definition ipc_write_buffer_sync (fuel : nat) (buffer : option IPCBuffer) (w : W) : option (Z * W) :=
  match buffer with
  | Some (Buf _ dlen (Some d)) =>
      if dlen =? 0 then Some (0, w) else write_loop fuel (take (Z.to_nat dlen) d) 0 w
  | _ => Some (0, w)
  end.
End WriteSync.

(** ** Invariant *)

(** What is in the buffer. *)
Definition content (b : IPCBuffer) : list Z :=
  match data b with Some d => take (Z.to_nat (dataLen b)) d | None => [] end.

(** A buffer with a block has room for at least one more byte. *)
Definition buf_wf (b : IPCBuffer) : Prop :=
  match data b with
  | None => dataLen b = 0
  | Some d => zlen d = allocLen b /\ 0 <= dataLen b < allocLen b /\ 1024 <= allocLen b < 2 ^ 63
  end.

Lemma content_length b : buf_wf b -> zlen (content b) = dataLen b.
Proof.
  unfold buf_wf, content. destruct (data b) as [d|]; [|by intros ->].
  intros (H1 & H2 & H3). rewrite length_take. lia.
Qed.

Lemma room_small a d : 0 <= d <= a -> a < 2 ^ 63 -> u64 (a - d) = a - d.
Proof. intros. apply Z.mod_small. lia. Qed.

Lemma room_left b :
  buf_wf b -> data b <> None -> u64 (allocLen b - dataLen b) = allocLen b - dataLen b.
Proof. unfold buf_wf. destruct (data b); [|done]. intros (_ & H1 & H2) _. apply room_small; lia. Qed.

(** ** Growing *)

Lemma grow_enough fuel len alloc dlen :
  0 <= dlen <= alloc -> 1 <= alloc < 2 ^ 63 -> 0 <= len -> dlen + len < 2 ^ 62 ->
  dlen + len < alloc * 2 ^ Z.of_nat fuel ->
  exists a, grow fuel len alloc dlen = Some a /\ alloc <= a < 2 ^ 63 /\ dlen + len < a /\
    a <= Z.max alloc (2 * (dlen + len)).
Proof.
  revert alloc. induction fuel as [|fuel IH]; intros alloc Hd Ha Hl Hs Hf; cbn [grow];
    rewrite room_small by lia; destruct (Z.leb_spec (alloc - dlen) len) as [Hle|Hgt];
    [exfalso; simpl in Hf; lia|exists alloc; split_and!; lia || done| |exists alloc; split_and!; lia || done].
  unfold u64. rewrite Z.mod_small by lia.
  destruct (IH (alloc * 2)) as (a & E & H1 & H2 & H3); try lia.
  - rewrite Nat2Z.inj_succ, Z.pow_succ_r in Hf by lia. lia.
  - exists a. split_and!; lia || done.
Qed.

Lemma realloc_spec m d n d' :
  realloc m d n = Some d' -> zlen d <= n -> zlen d' = n /\ take (length d) d' = d.
Proof.
  unfold realloc. destruct (has_room m n); [|done]. intros [= <-] Hn.
  rewrite (take_ge d) by lia. split; [rewrite length_app, length_replicate; lia|].
  by rewrite take_app_length.
Qed.

Lemma first_block_spec m b :
  buf_wf b ->
  match first_block m b with
  | (true, b') => buf_wf b' /\ content b' = content b /\ dataLen b' = dataLen b /\ data b' <> None
  | (false, b') => buf_wf b' /\ content b' = content b /\ data b' = None /\ has_room m 1024 = false
  end.
Proof.
  unfold first_block, malloc. destruct (data b) as [d|] eqn:Ed; [by rewrite Ed|].
  unfold buf_wf at 1. rewrite Ed. intros Hd. unfold buf_wf, content. rewrite Ed, Hd.
  destruct (has_room m 1024); [|done]. cbn [data dataLen allocLen]. rewrite length_replicate. split_and!; done.
Qed.

Lemma enlarge_spec m b len :
  buf_wf b -> data b <> None -> 0 <= len -> dataLen b + len < 2 ^ 62 ->
  exists ok b', enlarge m b len = Some (ok, b') /\
  if ok : bool then
    buf_wf b' /\ content b' = content b /\ dataLen b' = dataLen b /\ dataLen b + len < allocLen b' /\
    data b' <> None
  else data b' = None /\ dataLen b' = dataLen b /\ exists n, has_room m n = false.
Proof.
  unfold buf_wf, enlarge, content. destruct (data b) as [d|]; [|done]. intros (H1 & H2 & H3) _ Hl Hs.
  destruct (grow_enough 64 len (allocLen b) (dataLen b)) as (a & -> & G1 & G2 & _); try lia.
  destruct (realloc m d a) as [d'|] eqn:Er.
  - eexists true, _. split; [reflexivity|]. cbn [data dataLen allocLen].
    destruct (realloc_spec _ _ _ _ Er) as [R1 R2]; [lia|]. split_and!; try done; try lia.
    rewrite <- R2. rewrite take_take, Nat.min_l by lia. done.
  - eexists false, _. split; [reflexivity|]. split_and!; try done. exists a.
    unfold realloc in Er. by destruct (has_room m a).
Qed.

(** Bytes written after the content. *)
Lemma copy_content b d bytes extra :
  buf_wf b -> data b = Some d -> dataLen b + zlen bytes + zlen extra <= allocLen b -> 
  dataLen b + zlen bytes < allocLen b ->
  exists d', copy_to d (dataLen b) (bytes ++ extra) = Some d' /\
    buf_wf (Buf (allocLen b) (dataLen b + zlen bytes) (Some d')) /\
    content (Buf (allocLen b) (dataLen b + zlen bytes) (Some d')) = content b ++ bytes /\
    content (Buf (allocLen b) (dataLen b) (Some d')) = content b /\ zlen d' = zlen d.
Proof.
  unfold buf_wf, content. intros Hwf Hd Hfit Hlt. rewrite Hd in *. destruct Hwf as (H1 & H2 & H3).
  unfold copy_to. rewrite length_app. rewrite (proj2 (Z.leb_le 0 (dataLen b))) by lia.
  rewrite (proj2 (Z.leb_le _ _)) by lia. eexists. split; [reflexivity|]. cbn [data dataLen allocLen].
  assert (Hlen : length (splice d (dataLen b) (bytes ++ extra)) = length d)
    by (apply splice_length; [lia|rewrite length_app; lia]).
  rewrite Hlen. split_and!; try done; try lia; unfold splice.
  - replace (Z.to_nat (dataLen b + zlen bytes)) with (Z.to_nat (dataLen b) + length bytes)%nat by lia.
    rewrite <- (app_assoc bytes), app_assoc.
    rewrite take_app_le by (rewrite length_app, length_take; lia). rewrite take_ge; [done|].
    rewrite length_app, length_take. lia.
  - rewrite take_app_le by (rewrite length_take; lia). rewrite take_ge; [done|]. rewrite length_take. lia.
Qed.

(** ** Appending *)

(** What an append of [bytes] may do: all of them, or nothing for want of
    memory, which loses the block. *)
Definition appended (m : memory) (b : IPCBuffer) (bytes : list Z) (r : option (Z * option IPCBuffer)) : Prop :=
  exists rc b', r = Some (rc, Some b') /\
  ((rc = zlen bytes /\ buf_wf b' /\ content b' = content b ++ bytes) \/
   (rc = -1 /\ data b' = None /\ exists n, has_room m n = false)).

Lemma append_room b bytes :
  buf_wf b -> data b <> None -> dataLen b + zlen bytes < allocLen b ->
  exists d d', data b = Some d /\ copy_to d (dataLen b) bytes = Some d' /\
    buf_wf (Buf (allocLen b) (dataLen b + zlen bytes) (Some d')) /\
    content (Buf (allocLen b) (dataLen b + zlen bytes) (Some d')) = content b ++ bytes.
Proof.
  intros Hwf Hd Hlt. destruct (data b) as [d|] eqn:Ed; [|done].
  destruct (copy_content b d bytes [] Hwf Ed) as (d' & E & H1 & H2 & _); [simpl; lia|done|].
  rewrite app_nil_r in E. eauto 8.
Qed.

(** Appending to a buffer: below 2^62 bytes either all bytes are added
    after those already there, the block having been allocated or doubled as
    often as needed, and their number is returned; or memory ran out and the
    result is -1.  No byte is written outside the block. *)
Theorem ipc_append_correct m b bytes :
  buf_wf b -> dataLen b + zlen bytes < 2 ^ 62 ->
  appended m b bytes (ipc_append_buffer m (Some b) bytes).
Proof.
  intros Hwf Hs. unfold ipc_append_buffer, appended. destruct (Z.leb_spec (zlen bytes) 0) as [H0|Hpos].
  { destruct bytes; [|simpl in *; lia]. eexists _, b. split; [reflexivity|]. left. by rewrite app_nil_r. }
  pose proof (first_block_spec m b Hwf) as Hfb. destruct (first_block m b) as [[|] b1].
  2:{ destruct Hfb as (W1 & C1 & D1 & R1). eexists _, b1. split; [reflexivity|]. right. eauto. }
  destruct Hfb as (W1 & C1 & L1 & D1).
  rewrite (room_left b1) by done. destruct (Z.leb_spec (allocLen b1 - dataLen b1) (zlen bytes)) as [Hle|Hgt].
  - destruct (enlarge_spec m b1 (zlen bytes) W1 D1) as (ok & b2 & -> & He); [lia..|]. destruct ok.
    + destruct He as (W2 & C2 & L2 & A2 & D2). rewrite (room_left b2) by done.
      rewrite (proj2 (Z.leb_gt _ _)) by lia.
      destruct (append_room b2 bytes W2 D2) as (d & d' & Ed & Ec & W3 & C3); [lia|].
      rewrite Ed, Ec. eexists _, _. split; [reflexivity|]. left. by rewrite C3, C2, C1.
    + destruct He as (D2 & _ & R2). eexists _, b2. split; [reflexivity|]. by right.
  - rewrite (room_left b1) by done. rewrite (proj2 (Z.leb_gt _ _)) by lia.
    destruct (append_room b1 bytes W1 D1) as (d & d' & Ed & Ec & W3 & C3); [lia|].
    rewrite Ed, Ec. eexists _, _. split; [reflexivity|]. left. by rewrite C3, C1.
Qed.

(** Formatting into the room that is left keeps the content. *)
Lemma vsnprintf_spec b d text :
  buf_wf b -> data b = Some d ->
  exists d', vsnprintf d (dataLen b) (allocLen b - dataLen b) text = Some d' /\
    buf_wf (Buf (allocLen b) (dataLen b) (Some d')) /\ content (Buf (allocLen b) (dataLen b) (Some d')) = content b /\
    (dataLen b + zlen text < allocLen b ->
     buf_wf (Buf (allocLen b) (dataLen b + zlen text) (Some d')) /\
     content (Buf (allocLen b) (dataLen b + zlen text) (Some d')) = content b ++ text).
Proof.
  intros Hwf Hd. pose proof Hwf as Hwf'. unfold buf_wf in Hwf'. rewrite Hd in Hwf'. destruct Hwf' as (H1 & H2 & H3).
  unfold vsnprintf. rewrite (proj2 (Z.leb_gt _ _)) by lia.
  set (t := take (Z.to_nat (allocLen b - dataLen b - 1)) text).
  assert (Ht : zlen t <= allocLen b - dataLen b - 1) by (unfold t; rewrite length_take; lia).
  destruct (copy_content b d t [0] Hwf Hd) as (d' & E & C1 & C2 & C3 & C4); [simpl; lia|lia|].
  exists d'. split_and!; try done.
  - unfold buf_wf. cbn [data dataLen allocLen]. lia.
  - intros Hfit. assert (Et : t = text) by (unfold t; apply take_ge; lia). rewrite Et in C1, C2. done.
Qed.

(** Formatted appending: the text is added like [ipc_append_buffer] does,
    whether it fits at once or only into an enlarged block; when formatting
    fails the content stays and the result is -1. *)
Theorem ipc_printf_correct m b text :
  buf_wf b -> dataLen b + zlen text < 2 ^ 62 ->
  appended m b text (ipc_printf_buffer m (Some b) (Some text)) /\
  (exists b', ipc_printf_buffer m (Some b) None = Some (-1, Some b') /\ buf_wf b' /\ content b' = content b).
Proof.
  intros Hwf Hs. unfold ipc_printf_buffer, appended.
  pose proof (first_block_spec m b Hwf) as Hfb. destruct (first_block m b) as [[|] b1].
  2:{ destruct Hfb as (W1 & C1 & D1 & R1). split; [|eauto].
      eexists _, b1. split; [reflexivity|]. right. eauto. }
  destruct Hfb as (W1 & C1 & L1 & D1). split; [|eauto].
  rewrite (room_left b1) by done. destruct (data b1) as [d1|] eqn:Ed1; [|done].
  destruct (vsnprintf_spec b1 d1 text W1 Ed1) as (d2 & -> & W2 & C2 & F2). cbn [allocLen dataLen].
  rewrite (room_left b1) by (done || by rewrite Ed1).
  destruct (Z.eqb_spec (zlen text) 0) as [H0|Hne].
  { destruct text; [|done]. eexists _, _. split; [reflexivity|]. left. split_and!; try done.
    by rewrite C2, C1, app_nil_r. }
  destruct (Z.ltb_spec (zlen text) (allocLen b1 - dataLen b1)) as [Hlt|Hge].
  { eexists _, _. split; [reflexivity|]. left. destruct F2 as [W3 C3]; [lia|]. by rewrite C3, C1. }
  destruct (enlarge_spec m (Buf (allocLen b1) (dataLen b1) (Some d2)) (zlen text) W2 ltac:(done))
    as (ok & b3 & -> & He); [lia|cbn [dataLen]; lia|]. cbn [dataLen] in He. destruct ok.
  - destruct He as (W3 & C3 & L3 & A3 & D3). rewrite (room_left b3) by done.
    destruct (data b3) as [d3|] eqn:Ed3; [|done].
    destruct (vsnprintf_spec b3 d3 text W3 Ed3) as (d4 & -> & _ & _ & F4).
    rewrite (proj2 (Z.leb_gt _ _)) by lia. destruct F4 as [W4 C4]; [lia|].
    eexists _, _. split; [reflexivity|]. left. by rewrite C4, C3, C2, C1.
  - destruct He as (D3 & _ & R3). eexists _, b3. split; [reflexivity|]. by right.
Qed.

(** A failed enlargement forgets the block but not its length: when memory is
    available again, the next append copies past the end of a new block. *)
Theorem ipc_append_after_failure m b bytes :
  data b = None -> 1024 < dataLen b < 2 ^ 63 -> 0 < zlen bytes < 2 ^ 31 -> has_room m 1024 = true ->
  ipc_append_buffer m (Some b) bytes = None.
Proof.
  intros Hd Hl Hb Hm. unfold ipc_append_buffer, first_block, malloc. rewrite Hd, Hm.
  rewrite (proj2 (Z.leb_gt _ _)) by lia. cbn [allocLen dataLen data].
  assert (Hu : u64 (1024 - dataLen b) = 2 ^ 64 + (1024 - dataLen b)).
  { unfold u64. rewrite <- (Z.mod_add _ 1) by lia. rewrite Z.mod_small; lia. }
  rewrite Hu, (proj2 (Z.leb_gt _ _)) by lia. cbn [allocLen dataLen data]. rewrite Hu, (proj2 (Z.leb_gt _ _)) by lia.
  unfold copy_to. rewrite length_replicate. rewrite (proj2 (Z.leb_gt (_ + _) _)) by lia.
  by rewrite andb_false_r.
Qed.

(** ** Processing *)

Section ProcessFacts.
Context {S : Type} (cb : list Z -> S -> Z * S).

(** A callback that uses no more than what it is given. *)
Class Consumer := {
  consumer_bound : forall bytes s, 0 <= (cb bytes s).1 <= zlen bytes
}.

(** The calls of the callback on [bytes], until it uses nothing: the number of
    bytes used in all, and its last state. *)
Inductive consumes : list Z -> S -> Z -> S -> Prop :=
  | consumes_stop bytes s s' : cb bytes s = (0, s') -> consumes bytes s 0 s'
  | consumes_step bytes s len s1 n s2 :
      cb bytes s = (len, s1) -> 0 < len <= zlen bytes ->
      consumes (drop (Z.to_nat len) bytes) s1 n s2 -> consumes bytes s (len + n) s2.

Lemma consumes_bound bytes s n s' : consumes bytes s n s' -> 0 <= n <= zlen bytes.
Proof. induction 1 as [|bytes s len s1 n s2 E Hl _ IH]; [lia|]. rewrite length_drop in IH. lia. Qed.

Lemma consumes_det bytes s n s1 k s2 : consumes bytes s n s1 -> consumes bytes s k s2 -> n = k /\ s1 = s2.
Proof.
  intros H. revert k s2. induction H as [bytes s s1 E|bytes s len s1 n s1' E Hl _ IH]; intros k s2 H2;
    inversion H2; subst;
    match goal with H : cb bytes s = _ |- _ => rewrite E in H; simplify_eq end; try lia; [done|].
  match goal with H3 : consumes (drop _ _) _ _ s2 |- _ => by destruct (IH _ _ H3) as [-> ->] end.
Qed.

(** The calls of a consumer end. *)
Lemma consumer_ends `{!Consumer} bytes s : exists n s', consumes bytes s n s'.
Proof.
  remember (length bytes) as k eqn:Hk. revert bytes s Hk.
  induction k as [k IH] using lt_wf_ind. intros bytes s ->.
  pose proof (consumer_bound bytes s) as Hb. destruct (cb bytes s) as [len s1] eqn:E. cbn [fst] in Hb.
  destruct (decide (len = 0)) as [->|Hne]; [exists 0, s1; by constructor|].
  destruct (IH (length (drop (Z.to_nat len) bytes)) ltac:(rewrite length_drop; lia)
    (drop (Z.to_nat len) bytes) s1 eq_refl) as (n & s' & Hrec).
  exists (len + n), s'. apply (consumes_step _ _ len s1); [done|lia|done].
Qed.

Lemma process_loop_consumes fuel bytes consumed s n s' :
  consumes (drop (Z.to_nat consumed) bytes) s n s' ->
  0 <= consumed <= zlen bytes -> (Z.to_nat (zlen bytes - consumed) < fuel)%nat ->
  process_loop cb fuel bytes consumed s = Some (consumed + n, s').
Proof.
  revert consumed s n. induction fuel as [|fuel IH]; intros consumed s n H Hc Hf; [lia|]. cbn [process_loop].
  inversion H as [? ? ? E|? ? len s1 k ? E Hl H2]; subst; rewrite E.
  - by rewrite Z.add_0_r.
  - rewrite length_drop in Hl. rewrite (proj2 (Z.leb_gt _ _)), (proj2 (Z.ltb_ge _ _)) by lia.
    rewrite (IH (consumed + len) s1 k); [f_equal; f_equal; lia| |lia|lia].
    rewrite drop_drop in H2. by replace (Z.to_nat (consumed + len)) with (Z.to_nat consumed + Z.to_nat len)%nat by lia.
Qed.

Lemma shift_down_spec n i c d :
  (i + n + c <= length d)%nat -> shift_down n i c d = take i d ++ take n (drop (i + c) d) ++ drop (i + n) d.
Proof.
  revert i d. induction n as [|n IH]; intros i d Hl; cbn [shift_down].
  - rewrite Nat.add_0_r, take_0, app_nil_l. by rewrite take_drop.
  - destruct (lookup_lt_is_Some_2 d (i + c)) as [x Hx]; [lia|].
    rewrite (list_lookup_total_correct _ _ _ Hx). rewrite IH by (rewrite length_insert; lia).
    replace (i + 1)%nat with (Datatypes.S i) by lia.
    rewrite (take_S_r _ _ x) by (apply list_lookup_insert_eq; lia). rewrite take_insert_ge by lia.
    rewrite !drop_insert_lt by lia. rewrite (drop_S d x (i + c)) by done.
    replace (i + Datatypes.S n)%nat with (Datatypes.S i + n)%nat by lia. by rewrite <- app_assoc.
Qed.

(** The buffer after the callback used [n] bytes. *)
Lemma process_runs b s n s' :
  buf_wf b -> content b <> [] -> consumes (content b) s n s' ->
  exists b', ipc_process_buffer cb (Some b) s = Some (n, Some b', s') /\ buf_wf b' /\
    content b' = drop (Z.to_nat n) (content b).
Proof.
  intros Hwf Hne Hc. pose proof (content_length b Hwf) as Hlen. unfold ipc_process_buffer.
  destruct (data b) as [d|] eqn:Ed; [|unfold content in Hne; by rewrite Ed in Hne].
  rewrite (proj2 (Z.eqb_neq _ _)) by (intros H0; destruct (content b); [done|simpl in Hlen; lia]).
  assert (Hcont : take (Z.to_nat (dataLen b)) d = content b) by (unfold content; by rewrite Ed). rewrite Hcont.
  rewrite (process_loop_consumes _ _ 0 s n s') by (lia || done). rewrite Z.add_0_l.
  pose proof (consumes_bound _ _ _ _ Hc) as Hb.
  pose proof Hwf as Hwf'. unfold buf_wf in Hwf'. rewrite Ed in Hwf'. destruct Hwf' as (H1 & H2 & H3).
  destruct (Z.leb_spec n 0) as [Hz|Hpos].
  { exists b. assert (n = 0) as -> by lia. done. }
  destruct (Z.eqb_spec n (dataLen b)) as [->|Hn].
  { eexists. split; [reflexivity|]. unfold buf_wf, content at 1. cbn [ipc_reset_buffer data dataLen allocLen].
    rewrite Ed. split_and!; try lia; try done. symmetry. apply drop_ge. lia. }
  eexists. split; [reflexivity|]. rewrite shift_down_spec by lia.
  unfold buf_wf, content at 1. cbn [data dataLen allocLen]. split_and!; try lia.
  - rewrite !length_app, length_take, length_take, !length_drop. lia.
  - rewrite take_0, app_nil_l, Nat.add_0_l. rewrite take_app_le by (rewrite length_take, length_drop; lia).
    rewrite take_take, Nat.min_id. rewrite <- Hcont, take_drop_commute. f_equal. f_equal. lia.
Qed.

(** Processing a buffer: the callback is called on what is left of the
    content until it uses nothing, which ends because it never claims more
    bytes than it is given; the bytes it used are removed from the front, the
    others stay in order, and their number is the result. *)
Theorem ipc_process_correct `{!Consumer} b s :
  buf_wf b ->
  exists n b' s', ipc_process_buffer cb (Some b) s = Some (n, Some b', s') /\ buf_wf b' /\
    content b' = drop (Z.to_nat n) (content b) /\
    (if decide (content b = []) then n = 0 /\ s' = s else consumes (content b) s n s').
Proof.
  intros Hwf. destruct (decide (content b = [])) as [Hn|Hn].
  - exists 0, b, s. rewrite Hn. split_and!; try done. pose proof (content_length b Hwf) as Hlen.
    rewrite Hn in Hlen. unfold ipc_process_buffer. rewrite <- Hlen. by destruct (data b).
  - destruct (consumer_ends (content b) s) as (n & s' & Hc).
    destruct (process_runs b s n s' Hwf Hn Hc) as (b' & H1 & H2 & H3). exists n, b', s'. done.
Qed.
End ProcessFacts.

(** ** Reading a stream

    What arrives on a descriptor is appended in chunks of any size and
    processed after each of them. *)

Section Streams.
Context {S : Type} (cb : list Z -> S -> Z * S) (m : memory).

Definition receive (st : option (IPCBuffer * S)) (chunk : list Z) : option (IPCBuffer * S) :=
  match st with
  | None => None
  | Some (b, s) =>
      match ipc_append_buffer m (Some b) chunk with
      | Some (_, b1) =>
          match ipc_process_buffer cb b1 s with
          | Some (_, Some b2, s2) => Some (b2, s2)
          | _ => None
          end
      | None => None
      end
  end.

(** A stream of items which the callback takes one at a time, moving from one
    state to the next; it waits while an item is incomplete. *)
Context (items : list (list Z)) (after : nat -> S).
Class Items := {
  item_done : forall k item rest,
    items !! k = Some item -> cb (item ++ rest) (after k) = (zlen item, after (Datatypes.S k));
  item_wait : forall k p q, items !! k = Some (p ++ q) -> q <> [] -> cb p (after k) = (0, after k);
  items_end : cb [] (after (length items)) = (0, after (length items));
  item_nonempty : forall k item, items !! k = Some item -> item <> []
}.
Context `{!Items}.

Lemma stream_consumes r k bytes future :
  (k + r = length items)%nat -> bytes ++ future = concat (drop k items) ->
  exists j n, (j <= length items)%nat /\ consumes cb bytes (after k) n (after j) /\
    drop (Z.to_nat n) bytes ++ future = concat (drop j items) /\ (future = [] -> j = length items).
Proof.
  revert k bytes. induction r as [|r IH]; intros k bytes Hk Hb.
  - rewrite drop_ge in Hb by lia. simpl in Hb. apply app_nil in Hb as [-> ->].
    assert (k = length items) as -> by lia. exists (length items), 0.
    split_and!; [lia|constructor; apply items_end| |done]. by rewrite (drop_ge items).
  - destruct (lookup_lt_is_Some_2 items k) as [item Hi]; [lia|].
    rewrite (drop_S _ _ _ Hi) in Hb. cbn [concat] in Hb. apply List.app_eq_app in Hb as (q & [[-> E]|[-> E]]).
    + destruct (IH (Datatypes.S k) q) as (j & n & Hj & Hc & Hd & He); [lia|by rewrite E|].
      pose proof (item_nonempty k item Hi). exists j, (zlen item + n). split_and!; [done| | |done].
      * apply (consumes_step cb _ _ (zlen item) (after (Datatypes.S k))); [by apply item_done| |].
        { rewrite length_app. destruct item; [done|simpl; lia]. }
        by rewrite Nat2Z.id, drop_app_length.
      * pose proof (consumes_bound _ _ _ _ _ Hc). rewrite Z2Nat.inj_add, Nat2Z.id by lia.
        by rewrite <- drop_drop, drop_app_length.
    + destruct (decide (q = [])) as [->|Hq].
      * rewrite app_nil_r in Hi. simpl in E. destruct (IH (Datatypes.S k) []) as (j & n & Hj & Hc & Hd & He); [lia|by rewrite E|].
        pose proof (item_nonempty k bytes Hi). exists j, (zlen bytes + n). split_and!; [done| | |done].
        -- apply (consumes_step cb _ _ (zlen bytes) (after (Datatypes.S k))).
           { rewrite <- (app_nil_r bytes) at 1. by apply item_done. }
           { destruct bytes; [done|simpl; lia]. }
           by rewrite Nat2Z.id, drop_ge.
        -- pose proof (consumes_bound _ _ _ _ _ Hc). rewrite drop_ge by lia. by rewrite drop_nil in Hd.
      * exists k, 0. split_and!; [lia|constructor; by apply (item_wait k _ q)| |].
        -- rewrite drop_0. rewrite (drop_S _ _ _ Hi). cbn [concat]. by rewrite E, app_assoc.
        -- intros ->. symmetry in E. by apply app_nil in E as [-> _].
Qed.

(** However the stream is cut into chunks, all items are processed. *)
Lemma stream_received chunks b k :
  (forall n, has_room m n = true) -> buf_wf b -> (k <= length items)%nat ->
  Forall (fun c => c <> []) chunks -> zlen (concat items) < 2 ^ 62 ->
  content b ++ concat chunks = concat (drop k items) -> (chunks = [] -> k = length items) ->
  exists b', foldl receive (Some (b, after k)) chunks = Some (b', after (length items)) /\
    buf_wf b' /\ content b' = [].
Proof.
  intros Hm Hwf Hk Hne Hs. revert b k Hwf Hk.
  induction Hne as [|c chunks Hc _ IH]; intros b k Hwf Hk Hb Hend.
  { rewrite (Hend eq_refl), drop_ge, app_nil_r in * by lia. exists b. done. }
  cbn [foldl concat] in *.
  assert (Hsize : (length (content b) + length c <= length (concat items))%nat).
  { rewrite <- (take_drop k items), concat_app, <- Hb, !length_app. lia. }
  pose proof (content_length b Hwf) as Hlen.
  assert (Hrec : exists b1 j, receive (Some (b, after k)) c = Some (b1, after j) /\ buf_wf b1 /\
    (j <= length items)%nat /\ content b1 ++ concat chunks = concat (drop j items) /\
    (concat chunks = [] -> j = length items)).
  { unfold receive. destruct (ipc_append_correct m b c Hwf) as (rc & b1 & -> & [(-> & W1 & C1)|(_ & _ & n & Hn)]);
      [lia| |by rewrite Hm in Hn].
    destruct (stream_consumes (length items - k) k (content b1) (concat chunks)) as (j & n & Hj & Hcs & Hd & He);
      [lia|by rewrite C1, <- app_assoc|].
    destruct (process_runs cb b1 (after k) n (after j) W1) as (b2 & -> & W2 & C2); [|done|].
    { rewrite C1. destruct (content b); [done|discriminate]. }
    exists b2, j. rewrite C2. done. }
  destruct Hrec as (b1 & j & -> & W1 & Hj & Hb1 & He). apply IH; try done. intros ->. by apply He.
Qed.
End Streams.

(** ** Writing *)

Section WriteFacts.
Context {W : Type} (write : list Z -> W -> Z * Z * W).

(** A descriptor that takes at least one byte of what it is given and appends
    it to its output, or refuses for now, a bounded number of times. *)
Class Sink (out : W -> list Z) (refusals : W -> nat) := {
  sink_write : forall bytes w, bytes <> [] ->
    let '(r, e, w') := write bytes w in
    (1 <= r <= zlen bytes /\ out w' = out w ++ take (Z.to_nat r) bytes /\ (refusals w' <= refusals w)%nat) \/
    (r < 0 /\ e = EAGAIN /\ out w' = out w /\ (refusals w' < refusals w)%nat)
}.
Context (out : W -> list Z) (refusals : W -> nat) `{!Sink out refusals}.

Lemma write_loop_spec fuel bytes sent w :
  0 <= sent <= zlen bytes -> (Z.to_nat (zlen bytes - sent) + refusals w <= fuel)%nat ->
  exists w', write_loop write fuel bytes sent w = Some (0, w') /\ out w' = out w ++ drop (Z.to_nat sent) bytes.
Proof.
  revert sent w. induction fuel as [|fuel IH]; intros sent w Hs Hf; cbn [write_loop];
    (destruct (Z.leb_spec (zlen bytes) sent) as [Hle|Hgt];
     [exists w; split; [done|]; rewrite drop_ge by lia; by rewrite app_nil_r|]); [lia|].
  pose proof (sink_write (drop (Z.to_nat sent) bytes) w) as Hw.
  destruct (write _ w) as [[r e] w1]. rewrite length_drop in Hw.
  destruct Hw as [(Hr & Ho & Hn)|(Hr & -> & Ho & Hn)].
  { intros E. apply (f_equal length) in E. rewrite length_drop in E. simpl in E. lia. }
  - rewrite (proj2 (Z.ltb_ge r 0)), (proj2 (Z.ltb_lt 0 r)) by lia. cbn [andb].
    destruct (IH (sent + r) w1) as (w' & E & Ho'); [lia|lia|]. exists w'. split; [done|].
    rewrite Ho', Ho, <- app_assoc. f_equal.
    replace (Z.to_nat (sent + r)) with (Z.to_nat sent + Z.to_nat r)%nat by lia.
    by rewrite <- drop_drop, take_drop.
  - rewrite (proj2 (Z.ltb_lt r 0)), (proj2 (Z.ltb_ge 0 r)) by lia. cbn [andb negb Z.eqb EAGAIN].
    destruct (IH sent w1) as (w' & E & Ho'); [lia|lia|]. exists w'. split; [exact E|]. by rewrite Ho', Ho.
Qed.

(** Writing a buffer out: to a descriptor that makes progress the loop
    ends with 0, and the bytes it wrote are the content, complete and in
    order; refused calls are repeated. *)
Theorem ipc_write_correct fuel b w :
  buf_wf b -> (Z.to_nat (dataLen b) + refusals w <= fuel)%nat ->
  exists w', ipc_write_buffer_sync write fuel (Some b) w = Some (0, w') /\ out w' = out w ++ content b.
Proof.
  intros Hwf Hf. pose proof (content_length b Hwf) as Hlen. unfold ipc_write_buffer_sync, content in *.
  destruct b as [al dl [d|]]; cbn [data dataLen] in *; [|exists w; by rewrite app_nil_r].
  destruct (Z.eqb_spec dl 0) as [->|Hne]; [exists w; by rewrite app_nil_r|].
  destruct (write_loop_spec fuel (take (Z.to_nat dl) d) 0 w) as (w' & -> & Ho); [lia|lia|].
  exists w'. split; [done|]. by rewrite Ho, drop_0.
Qed.
End WriteFacts.

(** ** Witnesses *)

Definition plenty : memory := Mem (fun _ => true) 7.

Definition demo_buffer : IPCBuffer :=
  match ipc_append_buffer plenty (Some (Buf 0 0 None)) [104; 105; 33] with
  | Some (_, Some b) => b
  | _ => Buf 0 0 None
  end.

Lemma demo_buffer_ok : buf_wf demo_buffer /\ content demo_buffer = [104; 105; 33].
Proof.
  assert (E : exists d, data demo_buffer = Some d /\ zlen d = 1024 /\ take 3 d = [104; 105; 33])
    by (eexists; vm_compute; repeat split).
  destruct E as (d & E & Hl & Ht). unfold buf_wf, content. rewrite E, Hl.
  split; [vm_compute; repeat split; congruence|exact Ht].
Qed.

Lemma ipc_append_correct_witness :
  appended plenty demo_buffer [10] (ipc_append_buffer plenty (Some demo_buffer) [10]).
Proof. apply (ipc_append_correct plenty demo_buffer [10]); [apply demo_buffer_ok|vm_compute; reflexivity]. Defined.

Lemma ipc_printf_correct_witness :
  appended plenty demo_buffer [52; 50] (ipc_printf_buffer plenty (Some demo_buffer) (Some [52; 50])).
Proof.
  destruct (ipc_printf_correct plenty demo_buffer [52; 50]) as [H _];
    [apply demo_buffer_ok|vm_compute; reflexivity|exact H].
Defined.

(** A callback that takes two bytes at a time and counts its calls. *)
Definition pairs_cb (bytes : list Z) (n : nat) : Z * nat :=
  (if (length bytes <? 2)%nat then 0 else 2, S n).

#[export] Instance pairs_consumer : Consumer pairs_cb.
Proof. split. intros bytes n. unfold pairs_cb. destruct (Nat.ltb_spec (length bytes) 2); simpl; lia. Qed.

Lemma ipc_process_correct_witness :
  exists n b' s', ipc_process_buffer pairs_cb (Some demo_buffer) 0%nat = Some (n, Some b', s') /\
    content b' = drop (Z.to_nat n) [104; 105; 33].
Proof.
  destruct demo_buffer_ok as [Hwf Hc].
  destruct (ipc_process_correct pairs_cb demo_buffer 0%nat Hwf) as (n & b' & s' & E & _ & Hb & _).
  exists n, b', s'. split; [exact E|]. rewrite <- Hc. exact Hb.
Defined.

(** A descriptor that takes one byte at a time. *)
Definition slow_write (bytes : list Z) (w : list Z) : Z * Z * list Z := (1, 0, w ++ take 1 bytes).

#[export] Instance slow_sink : Sink slow_write (fun w => w) (fun _ => 0%nat).
Proof. split. intros bytes w Hb. left. destruct bytes; [done|]. simpl. split_and!; lia || done. Qed.

Lemma ipc_write_correct_witness :
  exists w', ipc_write_buffer_sync slow_write 3 (Some demo_buffer) [] = Some (0, w') /\ w' = [104; 105; 33].
Proof.
  destruct demo_buffer_ok as [Hwf Hc].
  destruct (ipc_write_correct slow_write (fun w => w) (fun _ => 0%nat) 3 demo_buffer [] Hwf) as (w' & E & Ho).
  - vm_compute. lia.
  - exists w'. split; [exact E|]. rewrite Ho, Hc. reflexivity.
Defined.

Lemma ipc_append_after_failure_witness :
  ipc_append_buffer plenty (Some (Buf 0 2000 None)) [1] = None.
Proof. apply (ipc_append_after_failure plenty (Buf 0 2000 None) [1]); vm_compute; try split; congruence. Defined.
