(* ===== verification/Zmqlite.v ===== *)
(** * The ZMQ server of the debugger (zmqlite.c)

    A server for the ZMQ transport protocol over TCP: each client goes through
    the handshake (signature, version, authentication) and then sends frames.
    The parser [zmql_client_process] is the callback of [ipc_process_buffer];
    clients are watched through the descriptor events of FdEvents.v.  What a
    client is sent and which user callbacks run is a trace of effects.  Whether
    the type char is signed, which the language leaves open, is a parameter. *)

From stdpp Require Import base gmap list numbers sorting.
From Stdlib Require Import ZArith Lia.
From S2P Require Import Prelude Words Sched FdEvents IpcBuffer.
Open Scope Z_scope.

Inductive ZMQLState := ZMQL_SIGNATURE | ZMQL_VERS1 | ZMQL_AUTH | ZMQL_DATA.

#[export] Instance ZMQLState_eq_dec : EqDecision ZMQLState.
Proof. solve_decision. Defined.

Definition ZMQ_SIGNATURE_DATA : list Z := [0xFF; 0; 0; 0; 0; 0; 0; 0; 1; 0x7F].
Definition ZMQ_VERS_DATA : list Z := [3].
Definition ZMQ_AUTH_DATA : list Z := [0; 78; 85; 76; 76] ++ replicate 48 0.
Definition ZMQ_HANDSHAKE_DATA : list Z :=
  [0x04; 0x1A; 0x05; 82; 69; 65; 68; 89; 0x0B; 83; 111; 99; 107; 101; 116; 45;
   84; 121; 112; 101; 0; 0; 0; 0x04; 80; 65; 73; 82].

Definition ZMQ_LONG_SIZE : Z := 2.
Definition ZMQ_COMMAND : Z := 4.

(** The macros [htonll] and [ntohll] on a little endian host. *)
Definition htonll (x : Z) : Z :=
  Z.lor (Z.shiftl (htonl (Z.land x 0xFFFFFFFF)) 32) (htonl (u32 (Z.shiftr x 32))).
Abbreviation ntohll := htonll.

(** A byte read as a char. *)
Definition char_value (char_signed : bool) (b : Z) : Z :=
  if char_signed && (128 <=? b) then b - 256 else b.

(** [struct ZMQLClient] without its buffer. *)
Record ZMQLClient := Client {
  socket : Z;
  cl_state : ZMQLState;
  closeFlag : bool;
  msgCb : option Z;
  connectCb : option Z;
  disconnectCb : option Z
}.

Definition with_state (c : ZMQLClient) (st : ZMQLState) : ZMQLClient :=
  Client (socket c) st (closeFlag c) (msgCb c) (connectCb c) (disconnectCb c).
Definition with_close (c : ZMQLClient) (f : bool) : ZMQLClient :=
  Client (socket c) (cl_state c) f (msgCb c) (connectCb c) (disconnectCb c).

(** Bytes handed to write, and calls of the user's callbacks; a message is
    [None] when its length goes beyond the bytes that were received. *)
Inductive effect :=
  | Wrote (sock : Z) (bytes : list Z)
  | Connected (cb : Z)
  | Disconnected (cb : Z)
  | Message (cb : Z) (payload : option (list Z)).

Definition zmql_client_raw_write (c : ZMQLClient) (bytes : list Z) (log : list effect) : list effect :=
  log ++ [Wrote (socket c) bytes].

(** ** Parsing *)

(** A step of the handshake: the bytes expected, or the connection is given
    up. *)
Definition handshake_step (c : ZMQLClient) (log : list effect) (bytes expected : list Z)
    (accepted : ZMQLClient * list effect) : Z * (ZMQLClient * list effect) :=
  if zlen bytes <? zlen expected then (0, (c, log))
  else if bool_decide (take (length expected) bytes = expected) then (zlen expected, accepted)
  else (0, (with_close c true, log)).

Definition zmql_client_process (char_signed : bool) (bytes : list Z) (s : ZMQLClient * list effect)
    : Z * (ZMQLClient * list effect) :=
  let '(c, log) := s in
  match cl_state c with
  | ZMQL_SIGNATURE =>
      handshake_step c log bytes ZMQ_SIGNATURE_DATA
        (with_state c ZMQL_VERS1, zmql_client_raw_write c ZMQ_VERS_DATA log)
  | ZMQL_VERS1 =>
      handshake_step c log bytes ZMQ_VERS_DATA
        (with_state c ZMQL_AUTH, zmql_client_raw_write c ZMQ_AUTH_DATA log)
  | ZMQL_AUTH =>
      handshake_step c log bytes ZMQ_AUTH_DATA
        (with_state c ZMQL_DATA,
         zmql_client_raw_write c ZMQ_HANDSHAKE_DATA log
         ++ match connectCb c with Some f => [Connected f] | None => [] end)
  | ZMQL_DATA =>
      match bytes with
      | [] => (0, s)
      | flags :: _ =>
          let long := negb (Z.land flags ZMQ_LONG_SIZE =? 0) in
          let dataOffset := if long then 9 else 2 in
          if zlen bytes <? dataOffset then (0, s)
          else
            let payloadLen :=
              if long then ntohll (le_value (take 8 (drop 1 bytes)))
              else u64 (char_value char_signed (nth 1 bytes 0)) in
            if zlen bytes <? u64 (dataOffset + payloadLen) then (0, s)
            else
              let payload :=
                if dataOffset + payloadLen <=? zlen bytes
                then Some (take (Z.to_nat payloadLen) (drop (Z.to_nat dataOffset) bytes)) else None in
              (u64 (dataOffset + payloadLen),
               (c, log ++ if Z.land flags ZMQ_COMMAND =? 0
                          then match msgCb c with Some f => [Message f payload] | None => [] end else []))
      end
  end.

(** ** Sending *)

(** [zmql_write_buffer]: the header and the content of the buffer, once the
    handshake is done. *)
Definition frame_header (len : Z) : list Z :=
  if len <=? 255 then [0; len] else ZMQ_LONG_SIZE :: le_bytes 8 (htonll len).

Definition zmql_write_buffer (c : ZMQLClient) (msg : IPCBuffer) (log : list effect) : list effect :=
  if decide (cl_state c = ZMQL_DATA) then
    zmql_client_raw_write c (frame_header (ipc_buffer_size (Some msg))) log
    ++ (if dataLen msg =? 0 then [] else [Wrote (socket c) (content msg)])
  else log.

(** ** Frames *)

(** A frame as [zmql_write_buffer] sends it. *)
Definition frame (m : list Z) : list Z := frame_header (zlen m) ++ m.

(** A frame with its flags: 0 for a message, [ZMQ_COMMAND] for a command. *)
Definition gframe (flags : Z) (m : list Z) : list Z :=
  (if zlen m <=? 255 then [flags; zlen m] else (flags + ZMQ_LONG_SIZE) :: le_bytes 8 (htonll (zlen m))) ++ m.

Lemma frame_message m : frame m = gframe 0 m.
Proof. done. Qed.

Lemma handshake_command : ZMQ_HANDSHAKE_DATA = gframe ZMQ_COMMAND (drop 2 ZMQ_HANDSHAKE_DATA).
Proof. reflexivity. Qed.

Lemma htonl_involutive x : 0 <= x < 2 ^ 32 -> htonl (htonl x) = x.
Proof. intros Hx. change (htonl x) with (le_value (be32 x)). rewrite ntohl_be32. by apply u32_small. Qed.

Lemma htonll_halves hi lo :
  0 <= hi < 2 ^ 32 -> 0 <= lo < 2 ^ 32 -> htonll (lo + 2 ^ 32 * hi) = htonl hi + 2 ^ 32 * htonl lo.
Proof.
  intros Hh Hl. unfold htonll. change 0xFFFFFFFF with (2 ^ 32 - 1).
  rewrite land_ones_mod, Z.shiftr_div_pow2 by lia. rewrite (Z.mul_comm (2 ^ 32) hi).
  rewrite Z.mod_add, Z.div_add, Z.mod_small, Z.div_small, Z.add_0_l by lia. rewrite u32_small by done.
  rewrite Z.lor_comm. apply lor_shiftl; [lia|apply htonl_range].
Qed.

Lemma htonll_involutive x : 0 <= x < 2 ^ 64 -> htonll (htonll x) = x.
Proof.
  intros Hx. assert (Hd : 0 <= x / 2 ^ 32 < 2 ^ 32)
    by (split; [apply Z.div_pos; lia|apply Z.div_lt_upper_bound; lia]).
  pose proof (Z.mod_pos_bound x (2 ^ 32) ltac:(lia)) as Hm.
  rewrite (Z.div_mod x (2 ^ 32)) by lia. rewrite (Z.add_comm (_ * _)).
  rewrite htonll_halves by done. rewrite htonll_halves by apply htonl_range.
  by rewrite !htonl_involutive.
Qed.

Lemma htonll_range x : 0 <= x < 2 ^ 64 -> 0 <= htonll x < 2 ^ 64.
Proof.
  intros Hx. unfold htonll. rewrite Z.lor_comm, lor_shiftl by (lia || apply htonl_range).
  pose proof (htonl_range (Z.land x 0xFFFFFFFF)). pose proof (htonl_range (u32 (Z.shiftr x 32))).
  change (2 ^ 64) with (2 ^ 32 * 2 ^ 32). change (2 ^ 32) with 4294967296 in *. lia.
Qed.

(** The messages the parser gets right: lengths from 128 to 255 need an
    unsigned char. *)
Definition readable (char_signed : bool) (m : list Z) : Prop :=
  zlen m < 2 ^ 62 /\ (char_signed = true -> zlen m < 128 \/ 255 < zlen m).

Definition offset (m : list Z) : Z := if zlen m <=? 255 then 2 else 9.

Lemma gframe_length flags m : zlen (gframe flags m) = offset m + zlen m.
Proof.
  unfold gframe, offset. rewrite length_app. destruct (zlen m <=? 255); cbn [length]; [lia|].
  rewrite le_bytes_length. lia.
Qed.

(** The first bytes of a frame, whatever part of it has arrived. *)
Lemma gframe_head sg flags m bytes tail rest :
  flags = 0 \/ flags = ZMQ_COMMAND -> readable sg m -> bytes ++ tail = gframe flags m ++ rest -> offset m <= zlen bytes ->
  exists f body, bytes = f :: body /\
    negb (Z.land f ZMQ_LONG_SIZE =? 0) = negb (zlen m <=? 255) /\
    (Z.land f ZMQ_COMMAND =? 0) = (flags =? 0) /\
    (if zlen m <=? 255 then u64 (char_value sg (nth 1 bytes 0))
     else ntohll (le_value (take 8 (drop 1 bytes)))) = zlen m.
Proof.
  intros Hf [Hs Hc] Hb Ho. unfold gframe, offset in *. destruct (Z.leb_spec (zlen m) 255) as [Hle|Hgt].
  - destruct bytes as [|f [|l body]]; simpl in Ho; try lia. simpl in Hb. injection Hb as -> -> Hb.
    exists flags, (zlen m :: body). split; [done|]. split; [by destruct Hf as [-> | ->]|].
    split; [by destruct Hf as [-> | ->]|]. cbn [nth]. unfold char_value.
    assert (Hz : sg && (128 <=? zlen m) = false).
    { destruct sg; [|done]. destruct (Hc eq_refl); [|lia]. cbn [andb]. apply Z.leb_gt. lia. }
    rewrite Hz. apply Z.mod_small. lia.
  - remember (le_bytes 8 (htonll (zlen m))) as lb eqn:Elb.
    assert (Hlb : length lb = 8%nat) by (by rewrite Elb, le_bytes_length).
    destruct bytes as [|f body]; [simpl in Ho; lia|]. cbn [app length] in Hb, Ho. injection Hb as -> Hb.
    exists (flags + ZMQ_LONG_SIZE), body. split; [done|]. split; [by destruct Hf as [-> | ->]|].
    split; [by destruct Hf as [-> | ->]|].
    assert (Hd : drop 1 ((flags + ZMQ_LONG_SIZE) :: body) = body) by done.
    assert (Ht : take 8 body = lb).
    { apply (f_equal (take 8)) in Hb. rewrite take_app_le in Hb by lia. rewrite Hb.
      rewrite <- app_assoc, take_app_le, take_ge by lia. done. }
    rewrite Hd, Ht, Elb, le_value_bytes. change (256 ^ Z.of_nat 8) with (2 ^ 64).
    rewrite Z.mod_small by (apply htonll_range; lia). apply htonll_involutive. lia.
Qed.

(** What a complete frame does to the trace. *)
Definition delivers (c : ZMQLClient) (flags : Z) (m : list Z) : list effect :=
  if flags =? 0 then match msgCb c with Some f => [Message f (Some m)] | None => [] end else [].

Lemma gframe_done sg flags m rest c log :
  flags = 0 \/ flags = ZMQ_COMMAND -> readable sg m -> cl_state c = ZMQL_DATA ->
  zmql_client_process sg (gframe flags m ++ rest) (c, log)
    = (zlen (gframe flags m), (c, log ++ delivers c flags m)).
Proof.
  intros Hf Hr Hc. pose proof (gframe_length flags m) as Hl. pose proof Hr as [Hs _].
  destruct (gframe_head sg flags m (gframe flags m ++ rest) [] rest Hf Hr) as (f & body & Hb & H1 & H2 & H3);
    [by rewrite app_nil_r|rewrite length_app; lia|].
  assert (Ho : (if negb (zlen m <=? 255) then 9 else 2) = offset m) by (unfold offset; by destruct (zlen m <=? 255)).
  assert (Hp : (if negb (zlen m <=? 255) then ntohll (le_value (take 8 (drop 1 (f :: body))))
                else u64 (char_value sg (nth 1 (f :: body) 0))) = zlen m)
    by (rewrite <- Hb; by destruct (zlen m <=? 255)).
  assert (Hlen : zlen (f :: body) = offset m + zlen m + zlen rest) by (rewrite <- Hb, length_app; lia).
  assert (Hoff : 2 <= offset m <= 9) by (unfold offset; destruct (zlen m <=? 255); lia).
  unfold zmql_client_process. rewrite Hc, Hb, H1, H2, Ho, Hp, Hlen, Hl.
  assert (Hu : u64 (offset m + zlen m) = offset m + zlen m) by (apply Z.mod_small; lia). rewrite Hu.
  rewrite (proj2 (Z.ltb_ge _ _)), (proj2 (Z.ltb_ge _ _)), (proj2 (Z.leb_le _ _)) by lia.
  unfold delivers. do 3 f_equal. destruct (flags =? 0); [|done]. destruct (msgCb c) as [g|]; [|done].
  do 3 f_equal. rewrite <- Hb. unfold gframe, offset.
  destruct (zlen m <=? 255); rewrite Nat2Z.id.
  - change (drop (Z.to_nat 2) _) with (m ++ rest). by rewrite take_app_length.
  - remember (le_bytes 8 (htonll (zlen m))) as lb.
    change (drop (Z.to_nat 9) _) with (drop 8 ((lb ++ m) ++ rest)). rewrite <- app_assoc.
    assert (Hlb : length lb = 8%nat) by (subst; apply le_bytes_length). rewrite <- Hlb.
    by rewrite drop_app_length, take_app_length.
Qed.

Lemma gframe_wait sg flags m p q c log :
  flags = 0 \/ flags = ZMQ_COMMAND -> readable sg m -> cl_state c = ZMQL_DATA ->
  p ++ q = gframe flags m -> q <> [] -> zmql_client_process sg p (c, log) = (0, (c, log)).
Proof.
  intros Hf Hr Hc Hpq Hq. pose proof Hr as [Hs _]. pose proof (gframe_length flags m) as Hl.
  assert (Hlt : zlen p < offset m + zlen m) by (rewrite <- Hl, <- Hpq, length_app; destruct q; [done|simpl; lia]).
  unfold zmql_client_process. rewrite Hc. destruct p as [|f p]; [done|].
  assert (Hoff : 2 <= offset m <= 9) by (unfold offset; destruct (zlen m <=? 255); lia).
  assert (Hlong : negb (Z.land f ZMQ_LONG_SIZE =? 0) = negb (zlen m <=? 255)).
  { unfold gframe in Hpq. destruct (zlen m <=? 255); cbn [app] in Hpq; injection Hpq as -> _;
      by destruct Hf as [-> | ->]. }
  rewrite Hlong.
  assert (Ho : (if negb (zlen m <=? 255) then 9 else 2) = offset m) by (unfold offset; by destruct (zlen m <=? 255)).
  rewrite Ho. destruct (Z.ltb_spec (zlen (f :: p)) (offset m)) as [|Hge]; [done|].
  destruct (gframe_head sg flags m (f :: p) q [] Hf Hr) as (f' & body & Hb & H1 & H2 & H3);
    [by rewrite app_nil_r|done|].
  assert (Hp : (if negb (zlen m <=? 255) then ntohll (le_value (take 8 (drop 1 (f :: p))))
                else u64 (char_value sg (nth 1 (f :: p) 0))) = zlen m) by (by destruct (zlen m <=? 255)).
  rewrite Hp. assert (Hu : u64 (offset m + zlen m) = offset m + zlen m) by (apply Z.mod_small; lia).
  rewrite Hu, (proj2 (Z.ltb_lt _ _)) by lia. done.
Qed.

Lemma handshake_done c log expected accepted rest :
  handshake_step c log (expected ++ rest) expected accepted = (zlen expected, accepted).
Proof.
  unfold handshake_step. rewrite (proj2 (Z.ltb_ge _ _)) by (rewrite length_app; lia).
  by rewrite take_app_length, bool_decide_true.
Qed.

Lemma handshake_wait c log expected accepted p q :
  p ++ q = expected -> q <> [] -> handshake_step c log p expected accepted = (0, (c, log)).
Proof.
  intros <- Hq. unfold handshake_step. rewrite (proj2 (Z.ltb_lt _ _)); [done|].
  rewrite length_app. destruct q; [done|simpl; lia].
Qed.

(** ** A whole connection *)

(** What a peer sends: the handshake, its READY command, and messages. *)
Definition script (msgs : list (list Z)) : list (list Z) :=
  [ZMQ_SIGNATURE_DATA; ZMQ_VERS_DATA; ZMQ_AUTH_DATA; ZMQ_HANDSHAKE_DATA] ++ (frame <$> msgs).

(** The client after [k] of these. *)
Definition client_after (c : ZMQLClient) (msgs : list (list Z)) (k : nat) : ZMQLClient * list effect :=
  let w := Wrote (socket c) in
  let ready := [w ZMQ_VERS_DATA; w ZMQ_AUTH_DATA; w ZMQ_HANDSHAKE_DATA]
               ++ match connectCb c with Some f => [Connected f] | None => [] end in
  match k with
  | 0%nat => (with_state c ZMQL_SIGNATURE, [])
  | 1%nat => (with_state c ZMQL_VERS1, [w ZMQ_VERS_DATA])
  | 2%nat => (with_state c ZMQL_AUTH, [w ZMQ_VERS_DATA; w ZMQ_AUTH_DATA])
  | 3%nat => (with_state c ZMQL_DATA, ready)
  | S (S (S (S n))) => (with_state c ZMQL_DATA, ready ++ concat (delivers c 0 <$> take n msgs))
  end.

Section Connection.
Context (sg : bool) (c : ZMQLClient) (msgs : list (list Z)).
Context (Hmsgs : Forall (readable sg) msgs).

Lemma script_lookup k item :
  script msgs !! k = Some item ->
  (k = 0%nat /\ item = ZMQ_SIGNATURE_DATA) \/ (k = 1%nat /\ item = ZMQ_VERS_DATA) \/
  (k = 2%nat /\ item = ZMQ_AUTH_DATA) \/ (k = 3%nat /\ item = ZMQ_HANDSHAKE_DATA) \/
  (exists n m, k = S (S (S (S n))) /\ msgs !! n = Some m /\ item = frame m /\ readable sg m).
Proof.
  destruct k as [|[|[|[|n]]]]; cbn [script app lookup list_lookup]; try (intros [= <-]; tauto).
  intros H. change ((frame <$> msgs) !! n = Some item) in H. apply list_lookup_fmap_Some in H as (m & -> & Hm).
  do 4 right. exists n, m. split; [done|]. split; [done|]. split; [done|].
  exact (proj1 (Forall_lookup _ _) Hmsgs n m Hm).
Qed.

#[export] Instance script_items : Items (zmql_client_process sg) (script msgs) (client_after c msgs).
Proof.
  assert (Hready : readable sg (drop 2 ZMQ_HANDSHAKE_DATA)) by (split; [done|by left]).
  split.
  - intros k item rest Hk.
    destruct (script_lookup k item Hk) as [[-> ->]|[[-> ->]|[[-> ->]|[[-> ->]|(n & m & -> & Hm & -> & Hr)]]]].
    + exact (handshake_done _ _ ZMQ_SIGNATURE_DATA _ rest).
    + exact (handshake_done _ _ ZMQ_VERS_DATA _ rest).
    + exact (handshake_done _ _ ZMQ_AUTH_DATA _ rest).
    + cbn [client_after]. rewrite handshake_command, gframe_done by (tauto || done).
      reflexivity.
    + rewrite frame_message. cbn [client_after]. rewrite gframe_done by (tauto || done).
      rewrite (take_S_r _ _ _ Hm), fmap_app, concat_app. cbn [fmap list_fmap concat]. by rewrite app_nil_r, app_assoc.
  - intros k p q Hk Hq. assert (exists item, item = p ++ q) as [item Hi] by eauto. rewrite <- Hi in Hk.
    symmetry in Hi.
    destruct (script_lookup k item Hk) as [[-> ->]|[[-> ->]|[[-> ->]|[[-> ->]|(n & m & -> & Hm & -> & Hr)]]]];
      cbn [client_after].
    + exact (handshake_wait _ _ ZMQ_SIGNATURE_DATA _ p q Hi Hq).
    + exact (handshake_wait _ _ ZMQ_VERS_DATA _ p q Hi Hq).
    + exact (handshake_wait _ _ ZMQ_AUTH_DATA _ p q Hi Hq).
    + by apply (gframe_wait sg ZMQ_COMMAND (drop 2 ZMQ_HANDSHAKE_DATA) p q); try tauto.
    + by apply (gframe_wait sg 0 m p q); try tauto.
  - unfold script. rewrite length_app, length_fmap. reflexivity.
  - intros k item Hk.
    destruct (script_lookup k item Hk) as [[-> ->]|[[-> ->]|[[-> ->]|[[-> ->]|(n & m & -> & Hm & -> & Hr)]]]];
      try discriminate.
    unfold frame, frame_header. by destruct (zlen m <=? 255).
Qed.

(** C12. A connection from end to end, while there is memory for the buffer
    and the whole stream is shorter than 2^62 bytes: whatever non-empty chunks
    the peer's bytes arrive in, the buffer and the parser together answer the
    handshake in order, call the connection callback once after it, and then
    deliver exactly the messages that [zmql_write_buffer] framed, in order and
    unchanged; nothing is left in the buffer and the connection is not given
    up. The messages are of lengths the parser can read ([readable]): where
    char is signed, none has 128 to 255 bytes, whose length byte is taken for
    a negative number. *)
Theorem zmql_stream_correct m chunks :
  (forall n, has_room m n = true) -> Forall (fun ch => ch <> []) chunks ->
  zlen (concat (script msgs)) < 2 ^ 62 -> concat chunks = concat (script msgs) ->
  exists b, foldl (receive (zmql_client_process sg) m)
              (Some (Buf 0 0 None, (with_state c ZMQL_SIGNATURE, []))) chunks
    = Some (b, (with_state c ZMQL_DATA,
        [Wrote (socket c) ZMQ_VERS_DATA; Wrote (socket c) ZMQ_AUTH_DATA; Wrote (socket c) ZMQ_HANDSHAKE_DATA]
        ++ match connectCb c with Some f => [Connected f] | None => [] end
        ++ concat ((fun msg => match msgCb c with Some f => [Message f (Some msg)] | None => [] end) <$> msgs))) /\
    buf_wf b /\ content b = [].
Proof.
  intros Hm Hne Hs Hc.
  destruct (stream_received (zmql_client_process sg) m (script msgs) (client_after c msgs) chunks
    (Buf 0 0 None) 0) as (b & E & Hwf & Hb); try done; [lia|intros ->; by apply (f_equal length) in Hc|].
  exists b. split; [|done]. etransitivity; [exact E|]. unfold script.
  rewrite length_app, length_fmap. cbn [length Nat.add client_after]. rewrite take_ge by done.
  by rewrite app_assoc.
Qed.
End Connection.

(** The bytes [zmql_write_buffer] writes are a frame of the content; before the
    handshake is over it writes nothing. *)
Theorem zmql_write_correct c b log :
  buf_wf b ->
  (cl_state c = ZMQL_DATA ->
   exists ws, zmql_write_buffer c b log = log ++ (Wrote (socket c) <$> ws) /\ concat ws = frame (content b)) /\
  (cl_state c <> ZMQL_DATA -> zmql_write_buffer c b log = log).
Proof.
  intros Hwf. pose proof (content_length b Hwf) as Hlen. unfold zmql_write_buffer, zmql_client_raw_write. split.
  - intros Hc. rewrite decide_True by done. cbn [ipc_buffer_size]. unfold frame. rewrite Hlen.
    destruct (Z.eqb_spec (dataLen b) 0) as [H0|Hne].
    + exists [frame_header (dataLen b)]. rewrite app_nil_r. split; [done|]. cbn [concat].
      destruct (content b); [done|simpl in Hlen; lia].
    + exists [frame_header (dataLen b); content b]. rewrite <- app_assoc. split; [done|]. cbn [concat].
      by rewrite app_nil_r.
  - intros Hc. by rewrite decide_False.
Qed.

(** The length of a frame comes from the peer and is added without a check for
    overflow: a long frame of 2^64 - 9 bytes is taken as complete at once, its
    callback is given more bytes than there are, and nothing is consumed; where
    char is signed, so is a short frame of 255 bytes, of which one is
    consumed. *)
Theorem zmql_length_overflow sg c log f rest :
  cl_state c = ZMQL_DATA -> msgCb c = Some f -> zlen rest < 2 ^ 62 ->
  zmql_client_process sg ([2; 255; 255; 255; 255; 255; 255; 255; 247] ++ rest) (c, log)
    = (0, (c, log ++ [Message f None])) /\
  zmql_client_process true ([0; 255] ++ rest) (c, log) = (1, (c, log ++ [Message f None])).
Proof.
  intros Hc Hf Hr. unfold zmql_client_process. rewrite Hc, Hf. split.
  - cbn [app]. set (bytes := 2 :: _). assert (Hl : zlen bytes = 9 + zlen rest) by (unfold bytes; cbn [length]; lia).
    change (negb (Z.land 2 ZMQ_LONG_SIZE =? 0)) with true. cbn iota.
    change (ntohll (le_value (take 8 (drop 1 bytes)))) with (2 ^ 64 - 9). change (u64 (9 + (2 ^ 64 - 9))) with 0.
    rewrite (proj2 (Z.ltb_ge _ 9)), (proj2 (Z.ltb_ge _ 0)), (proj2 (Z.leb_gt _ _)) by lia. done.
  - cbn [app]. set (bytes := 0 :: _). assert (Hl : zlen bytes = 2 + zlen rest) by (unfold bytes; cbn [length]; lia).
    change (negb (Z.land 0 ZMQ_LONG_SIZE =? 0)) with false. cbn iota.
    change (u64 (char_value true (nth 1 bytes 0))) with (2 ^ 64 - 1). change (u64 (2 + (2 ^ 64 - 1))) with 1.
    rewrite (proj2 (Z.ltb_ge _ 2)), (proj2 (Z.ltb_ge _ 1)), (proj2 (Z.leb_gt _ _)) by lia. done.
Qed.

(** ** The server and its clients *)

Record ZMQLServer := Server { sv_socket : Z; clientCount : Z; clients : list ptr }.

(** The server, the clients in memory with their buffers, the descriptor events
    of the handler, the descriptors closed so far, and the trace. *)
Record zworld := ZW {
  server : ZMQLServer;
  pool : gmap ptr (ZMQLClient * option IPCBuffer);
  table : fds;
  closed : list Z;
  trace : list effect
}.

(** The code address of [zmql_client_read_cb] and the callbacks the server was
    created with. *)
Record zconfig := ZC { read_cb : Z; cfg_msg : option Z; cfg_connect : option Z; cfg_disconnect : option Z }.

(** Unlinking the first occurrence. *)
Fixpoint unlink (p : ptr) (l : list ptr) : list ptr :=
  match l with [] => [] | q :: l' => if decide (q = p) then l' else q :: unlink p l' end.

Definition zmql_destroy_client (w : zworld) (p : ptr) : zworld :=
  match pool w !! p with
  | None => w
  | Some (c, _) =>
      let t := if closeFlag c then table w else EVT_fd_remove (table w) (socket c) FdRead in
      let tr := if decide (cl_state c = ZMQL_DATA)
                then match disconnectCb c with Some f => trace w ++ [Disconnected f] | None => trace w end
                else trace w in
      let sv := server w in
      ZW (Server (sv_socket sv) (clientCount sv - 1) (unlink p (clients sv)))
        (delete p (pool w)) t (closed w ++ [socket c]) tr
  end.

(** [zmql_accept_cb]: the memory for the client, the result of accept, the
    memory for its buffer and for its descriptor entry. *)
Definition zmql_accept_cb (cfg : zconfig) (w : zworld) (mem : option ptr) (sock : Z) (buf_ok entry_ok : bool)
    : zworld :=
  match mem with
  | None => w
  | Some p =>
      if sock =? -1 then w
      else
        let c := Client sock ZMQL_SIGNATURE false (cfg_msg cfg) (cfg_connect cfg) (cfg_disconnect cfg) in
        let t1 := (EVT_fd_add (table w) sock FdRead (Some (read_cb cfg)) (Z.pos p) entry_ok).2 in
        let t2 := EVT_fd_set_critical t1 sock false in
        let sv := server w in
        ZW (Server (sv_socket sv) (clientCount sv + 1) (p :: clients sv))
          (<[p := (c, ipc_alloc_buffer buf_ok)]> (pool w)) t2 (closed w)
          (zmql_client_raw_write c ZMQ_SIGNATURE_DATA (trace w))
  end.

(** What read returns: an error, or the bytes (none at the end of file). *)
Inductive read_result := ReadErr (errno : Z) | ReadBytes (bytes : list Z).

(** [zmql_client_read_cb]: what the event loop is told, and the world; [None] is
    a fault in the buffer. *)
Definition zmql_client_read_cb (sg : bool) (m : memory) (w : zworld) (p : ptr) (rd : read_result)
    : option (Z * zworld) :=
  match pool w !! p with
  | None => None
  | Some (c0, b) =>
      let c := with_close c0 false in
      let put c b tr := ZW (server w) (<[p := (c, b)]> (pool w)) (table w) (closed w) tr in
      let dropped := Some (EVENT_REMOVE, zmql_destroy_client (put (with_close c true) b (trace w)) p) in
      match rd with
      | ReadErr e => if e =? EAGAIN then Some (EVENT_KEEP, put c b (trace w)) else dropped
      | ReadBytes [] => dropped
      | ReadBytes bytes =>
          match ipc_append_buffer m b bytes with
          | None => None
          | Some (_, b1) =>
              match ipc_process_buffer (zmql_client_process sg) b1 (c, trace w) with
              | None => None
              | Some (_, b2, (c2, tr)) =>
                  let w2 := put c2 b2 tr in
                  if closeFlag c2 then Some (EVENT_REMOVE, zmql_destroy_client w2 p)
                  else Some (EVENT_KEEP, w2)
              end
          end
      end
  end.

(** [zmql_destroy_tcp_server]: the loop takes the head of the list each time. *)
Fixpoint destroy_clients (fuel : nat) (w : zworld) : zworld :=
  match fuel, clients (server w) with
  | S fuel', p :: _ => destroy_clients fuel' (zmql_destroy_client w p)
  | _, _ => w
  end.

Definition zmql_destroy_tcp_server (w : zworld) : zworld :=
  let s := sv_socket (server w) in
  let w1 := if 0 <? s
            then ZW (server w) (pool w) (EVT_fd_remove (table w) s FdRead) (closed w ++ [s]) (trace w) else w in
  destroy_clients (length (clients (server w))) w1.

(** [zmql_broadcast_buffer] *)
Definition zmql_broadcast_buffer (w : zworld) (msg : IPCBuffer) : list effect :=
  foldl (fun tr p => match pool w !! p with Some (c, _) => zmql_write_buffer c msg tr | None => tr end)
    (trace w) (clients (server w)).

(** *** Invariant *)

(** The descriptor is watched for the client. *)
Definition watched (cfg : zconfig) (t : fds) (p : ptr) (c : ZMQLClient) : Prop :=
  exists n, entry t (socket c) = Some n /\ get (cb n) FdRead = Some (read_cb cfg) /\
    get (earg n) FdRead = Z.pos p /\ get (einCallback n) FdRead = 0.

(** The count and the list are the clients in memory; each has a descriptor of
    its own, which is watched. *)
Record zw_wf (cfg : zconfig) (w : zworld) : Prop := {
  zw_count : clientCount (server w) = zlen (clients (server w));
  zw_nodup : NoDup (clients (server w));
  zw_pool : forall p, p ∈ clients (server w) <-> is_Some (pool w !! p);
  zw_socket : forall p c b, pool w !! p = Some (c, b) -> 0 <= socket c;
  zw_apart : forall p q c d b b', pool w !! p = Some (c, b) -> pool w !! q = Some (d, b') ->
    socket c = socket d -> p = q;
  zw_table : fd_wf (table w);
  zw_watch : forall p c b, pool w !! p = Some (c, b) -> watched cfg (table w) p c
}.

Lemma unlink_spec p l : NoDup l -> p ∈ l -> l ≡ₚ p :: unlink p l.
Proof.
  intros Hn. induction Hn as [|q l Hq Hn IH]; intros Hp; [by apply elem_of_nil in Hp|]. simpl.
  case_decide as E; [by subst|]. apply elem_of_cons in Hp as [->|Hp]; [done|].
  rewrite Permutation_swap. by rewrite <- IH.
Qed.

(** Changes of one descriptor leave the other clients watched. *)
Lemma watched_other cfg t t' p c f :
  (forall x, x <> f -> entry t' x = entry t x) -> socket c <> f -> watched cfg t p c -> watched cfg t' p c.
Proof. intros H Hne (n & Hn). exists n. by rewrite H. Qed.

Lemma destroy_wf cfg w p c b :
  zw_wf cfg w -> pool w !! p = Some (c, b) ->
  zw_wf cfg (zmql_destroy_client w p) /\
  clients (server w) ≡ₚ p :: clients (server (zmql_destroy_client w p)) /\
  pool (zmql_destroy_client w p) = delete p (pool w) /\
  closed (zmql_destroy_client w p) = closed w ++ [socket c] /\
  (closeFlag c = false -> socket c ∉ get (eventSet (table (zmql_destroy_client w p))) FdRead) /\
  (forall x, x <> socket c -> entry (table (zmql_destroy_client w p)) x = entry (table w) x).
Proof.
  intros [Z1 Z2 Z3 Z4 Z5 Z6 Z7] Hp. unfold zmql_destroy_client. rewrite Hp.
  cbn [server clients pool closed table clientCount].
  assert (Hin : p ∈ clients (server w)) by (apply Z3; eauto).
  pose proof (unlink_spec _ _ Z2 Hin) as Hu. pose proof Z2 as Hnd. rewrite Hu in Hnd.
  apply NoDup_cons in Hnd as [Hni Hnd].
  set (t := if closeFlag c then table w else _).
  assert (Ht : fd_wf t /\ (forall x, x <> socket c -> entry t x = entry (table w) x)).
  { unfold t. destruct (closeFlag c); [done|].
    destruct (fd_remove_wf (table w) (socket c) FdRead Z6 (Z4 _ _ _ Hp)) as (R1 & _ & R3). done. }
  destruct Ht as [Ht1 Ht2].
  split_and!; try done.
  - split; cbn [server clients pool closed table clientCount]; try done.
    + rewrite Z1. apply Permutation_length in Hu. simpl in Hu. lia.
    + intros q. rewrite lookup_delete_is_Some, <- Z3. assert (Hq : q ∈ clients (server w) <-> q = p \/ q ∈ unlink p (clients (server w)))
        by (rewrite <- elem_of_cons; by rewrite Hu at 1). rewrite Hq. naive_solver.
    + intros q d b' Hq. apply lookup_delete_Some in Hq as [_ Hq]. by apply (Z4 q d b').
    + intros q r d1 d2 b1 b2 Hq Hr. apply lookup_delete_Some in Hq as [_ Hq], Hr as [_ Hr]. by eapply Z5.
    + intros q d b' Hq. apply lookup_delete_Some in Hq as [Hne Hq].
      apply (watched_other cfg (table w) t q d (socket c) Ht2); [|by eapply Z7].
      intros E. apply Hne. symmetry. by eapply Z5.
  - intros Hcl. unfold t. rewrite Hcl.
    destruct (fd_remove_wf (table w) (socket c) FdRead Z6 (Z4 _ _ _ Hp)) as (R1 & R2 & _).
    destruct (Z7 _ _ _ Hp) as (n & Hn & _ & _ & Hi). rewrite Hn in R2. unfold removed_entry in R2. rewrite Hi in R2.
    pose proof R1 as (_ & _ & H4 & _).
    rewrite H4, R2. cbn [Z.eqb]. rewrite drop_event_has, decide_True by done. by intros [_ ?].
Qed.

Lemma accept_wf cfg w p sock buf_ok :
  zw_wf cfg w -> pool w !! p = None -> 0 <= sock -> entry (table w) sock = None ->
  let w' := zmql_accept_cb cfg w (Some p) sock buf_ok true in
  zw_wf cfg w' /\ clients (server w') = p :: clients (server w) /\ 
  trace w' = trace w ++ [Wrote sock ZMQ_SIGNATURE_DATA] /\ closed w' = closed w.
Proof.
  intros [Z1 Z2 Z3 Z4 Z5 Z6 Z7] Hp Hs He w'. unfold w', zmql_accept_cb.
  rewrite (proj2 (Z.eqb_neq _ _)) by lia. split_and!; try done.
  assert (Hni : p ∉ clients (server w)) by (rewrite Z3, Hp; by intros [? ?]).
  destruct (fd_add_wf (table w) sock FdRead (read_cb cfg) None (Z.pos p) true Z6 Hs ltac:(done))
    as (_ & A1 & A2 & A3).
  fold (EVT_fd_add (table w) sock FdRead (Some (read_cb cfg)) (Z.pos p) true) in A1, A2, A3.
  set (t1 := (EVT_fd_add _ _ _ _ _ _).2) in *.
  destruct (fd_set_critical_wf t1 sock false A1 Hs) as (B1 & B2 & B3).
  set (t2 := EVT_fd_set_critical t1 sock false) in *.
  assert (Hother : forall x, x <> sock -> entry t2 x = entry (table w) x) by (intros; by rewrite B3, A3).
  assert (Hdiff : forall q d b, pool w !! q = Some (d, b) -> socket d <> sock).
  { intros q d b Hq E. destruct (Z7 _ _ _ Hq) as (n & Hn & _). congruence. }
  assert (Hnew : forall q d b, <[p := (Client sock ZMQL_SIGNATURE false (cfg_msg cfg) (cfg_connect cfg)
      (cfg_disconnect cfg), ipc_alloc_buffer buf_ok)]> (pool w) !! q = Some (d, b) ->
      (q = p /\ socket d = sock) \/ (q <> p /\ pool w !! q = Some (d, b))).
  { intros q d b Hq. destruct (decide (q = p)) as [->|Hne].
    - rewrite lookup_insert_eq in Hq. injection Hq as <- <-. by left.
    - rewrite lookup_insert_ne in Hq by done. by right. }
  split; cbn [server clients pool table clientCount]; try done.
  - rewrite Z1. cbn [length]. lia.
  - by apply NoDup_cons.
  - intros q. rewrite elem_of_cons, lookup_insert_is_Some, Z3. naive_solver.
  - intros q d b Hq. destruct (Hnew q d b Hq) as [[_ ->]|[_ Hq']]; [done|by eapply Z4].
  - intros q r d1 d2 b1 b2 Hq Hr E.
    destruct (Hnew _ _ _ Hq) as [[-> E1]|[_ Hq']], (Hnew _ _ _ Hr) as [[-> E2]|[_ Hr']]; try done.
    + exfalso. apply (Hdiff _ _ _ Hr'). congruence.
    + exfalso. apply (Hdiff _ _ _ Hq'). congruence.
    + by eapply Z5.
  - intros q d b Hq. destruct (Hnew q d b Hq) as [[-> Esock]|[_ Hq']].
    + unfold watched. rewrite Esock, B2, A2, He. eexists. split; [reflexivity|]. done.
    + apply (watched_other cfg (table w) t2 q d sock Hother); [by eapply Hdiff|by eapply Z7].
Qed.

(** A descriptor that was closed and is not watched any more. *)
Definition retired (w : zworld) (x : Z) : Prop :=
  x ∈ closed w /\ x ∉ get (eventSet (table w)) FdRead.

Lemma destroy_retires cfg w p c b x :
  zw_wf cfg w -> pool w !! p = Some (c, b) -> closeFlag c = false ->
  x = socket c \/ retired w x -> retired (zmql_destroy_client w p) x.
Proof.
  intros Hwf Hp Hcl Hx. destruct (destroy_wf cfg w p c b Hwf Hp) as (W1 & _ & _ & Hc & Hw & Ho).
  unfold retired. rewrite Hc. destruct (decide (x = socket c)) as [->|Hne].
  - split; [apply elem_of_app; right; by apply list_elem_of_singleton|by apply Hw].
  - destruct Hx as [->|[Hx1 Hx2]]; [done|]. split; [apply elem_of_app; by left|].
    pose proof (zw_table _ _ Hwf) as (_ & _ & H4 & _). pose proof (zw_table _ _ W1) as (_ & _ & H4' & _).
    rewrite H4', Ho by done. by rewrite <- H4.
Qed.

(** The loop empties the list of clients. *)
Lemma destroy_clients_spec cfg fuel w :
  zw_wf cfg w -> (forall p c b, pool w !! p = Some (c, b) -> closeFlag c = false) ->
  (length (clients (server w)) <= fuel)%nat ->
  let w' := destroy_clients fuel w in
  zw_wf cfg w' /\ clients (server w') = [] /\ pool w' = ∅ /\
  (forall p c b, pool w !! p = Some (c, b) -> retired w' (socket c)) /\ (forall x, retired w x -> retired w' x).
Proof.
  revert w. induction fuel as [|fuel IH]; intros w Hwf Hopen Hf.
  all: destruct (clients (server w)) as [|p l] eqn:El; [|simpl in Hf].
  1,3: assert (Hnone : forall p, pool w !! p = None)
    by (intros p; destruct (pool w !! p) eqn:E; [|done];
        exfalso; assert (Hin : p ∈ clients (server w)) by (apply (zw_pool _ _ Hwf); eauto);
        rewrite El in Hin; by apply elem_of_nil in Hin).
  1,2: cbn [destroy_clients]; rewrite ?El; cbv zeta; split_and!; try done;
    [apply map_eq; intros p; by rewrite Hnone, lookup_empty|intros p c b Hp; by rewrite Hnone in Hp].
  - lia.
  - cbn [destroy_clients]. rewrite El. destruct (pool w !! p) as [[c b]|] eqn:Hp.
    2:{ exfalso. assert (is_Some (pool w !! p)) as [? ?]; [|congruence].
        apply (zw_pool _ _ Hwf). rewrite El. apply elem_of_cons. by left. }
    destruct (destroy_wf cfg w p c b Hwf Hp) as (W1 & P1 & D1 & _). set (w1 := zmql_destroy_client w p) in *.
    assert (Hopen1 : forall q d e, pool w1 !! q = Some (d, e) -> closeFlag d = false).
    { intros q d e Hq. rewrite D1 in Hq. apply lookup_delete_Some in Hq as [_ Hq]. by eapply Hopen. }
    destruct (IH w1 W1 Hopen1) as (W2 & C2 & E2 & R2 & K2).
    { rewrite El in P1. apply Permutation_length in P1. simpl in P1. lia. }
    assert (Hret : forall x, x = socket c \/ retired w x -> retired (destroy_clients fuel w1) x)
      by (intros x Hx; apply K2; by apply (destroy_retires cfg w p c b x Hwf Hp (Hopen _ _ _ Hp))).
    split_and!; try done; [|intros x Hx; apply Hret; by right].
    intros q d e Hq. destruct (decide (q = p)) as [->|Hne].
    + rewrite Hp in Hq. injection Hq as <- <-. apply Hret. by left.
    + apply (R2 q d e). rewrite D1, lookup_delete_ne; done.
Qed.

(** The server's own descriptor is watched, and belongs to no client. *)
Definition listening (w : zworld) : Prop :=
  let s := sv_socket (server w) in
  0 < s /\ is_Some (entry (table w) s) /\ (forall p c b, pool w !! p = Some (c, b) -> socket c <> s).

Lemma accept_listening cfg w p sock buf_ok :
  zw_wf cfg w -> listening w -> 0 <= sock -> entry (table w) sock = None ->
  listening (zmql_accept_cb cfg w (Some p) sock buf_ok true).
Proof.
  intros Hwf (H1 & [n Hn] & H3) Hs He. unfold zmql_accept_cb. rewrite (proj2 (Z.eqb_neq _ _)) by lia.
  unfold listening. cbn [server sv_socket table pool].
  assert (Hne : sv_socket (server w) <> sock) by (intros E; rewrite E in Hn; congruence).
  destruct (fd_add_wf (table w) sock FdRead (read_cb cfg) None (Z.pos p) true (zw_table _ _ Hwf) Hs ltac:(done))
    as (_ & A1 & _ & A3).
  destruct (fd_set_critical_wf _ sock false A1 Hs) as (_ & _ & B3).
  split; [done|]. split.
  - unfold EVT_fd_add. rewrite B3, A3 by done. eauto.
  - intros q d b Hq. apply lookup_insert_Some in Hq as [[_ [= <- _]]|[_ Hq]]; [by simpl|by eapply H3].
Qed.

Lemma destroy_listening cfg w p c b :
  zw_wf cfg w -> listening w -> pool w !! p = Some (c, b) -> listening (zmql_destroy_client w p).
Proof.
  intros Hwf (H1 & H2 & H3) Hp. destruct (destroy_wf cfg w p c b Hwf Hp) as (_ & _ & D & _ & _ & Ho).
  assert (Es : sv_socket (server (zmql_destroy_client w p)) = sv_socket (server w))
    by (unfold zmql_destroy_client; by rewrite Hp).
  unfold listening. rewrite Es, Ho, D by (intros E; by eapply H3). split_and!; try done.
  intros q d e Hq. apply lookup_delete_Some in Hq as [_ Hq]. by eapply H3.
Qed.

(** The server stops listening. *)
Lemma unlisten_wf cfg w :
  zw_wf cfg w -> listening w ->
  let s := sv_socket (server w) in
  zw_wf cfg (ZW (server w) (pool w) (EVT_fd_remove (table w) s FdRead) (closed w ++ [s]) (trace w)).
Proof.
  intros [Z1 Z2 Z3 Z4 Z5 Z6 Z7] (H1 & _ & H3). cbv zeta.
  destruct (fd_remove_wf (table w) (sv_socket (server w)) FdRead Z6 ltac:(lia)) as (R1 & _ & R3).
  split; try done. intros p c b Hp.
  apply (watched_other cfg (table w) _ p c (sv_socket (server w)) R3); [by eapply H3|by eapply Z7].
Qed.

(** The server's book-keeping.  Accepting a client on a new descriptor
    links it, counts it, watches its descriptor and greets it; destroying a
    client unlinks it, closes its descriptor and stops watching it; both keep
    the list, the count and the descriptor events in agreement.  Destroying the
    server destroys every client: none is left in memory, and all their
    descriptors are closed and not watched. *)
Theorem zmql_server_correct cfg w :
  zw_wf cfg w -> listening w ->
  (forall p sock buf_ok, pool w !! p = None -> 0 <= sock -> entry (table w) sock = None ->
     let w' := zmql_accept_cb cfg w (Some p) sock buf_ok true in
     zw_wf cfg w' /\ listening w' /\ clientCount (server w') = clientCount (server w) + 1 /\
     trace w' = trace w ++ [Wrote sock ZMQ_SIGNATURE_DATA]) /\
  (forall p c b, pool w !! p = Some (c, b) ->
     let w' := zmql_destroy_client w p in
     zw_wf cfg w' /\ listening w' /\ pool w' !! p = None /\
     clientCount (server w') = clientCount (server w) - 1 /\
     (closeFlag c = false -> retired w' (socket c))) /\
  ((forall p c b, pool w !! p = Some (c, b) -> closeFlag c = false) ->
   let w' := zmql_destroy_tcp_server w in
   pool w' = ∅ /\ clientCount (server w') = 0 /\
   (forall p c b, pool w !! p = Some (c, b) -> retired w' (socket c))).
Proof.
  intros Hwf Hls. split_and!.
  - intros p sock buf_ok Hp Hs He w'. destruct (accept_wf cfg w p sock buf_ok Hwf Hp Hs He) as (A1 & A2 & A3 & _).
    fold w' in A1, A2, A3. split_and!; try done; [by apply accept_listening|].
    rewrite (zw_count _ _ A1), (zw_count _ _ Hwf), A2. cbn [length]. lia.
  - intros p c b Hp w'. destruct (destroy_wf cfg w p c b Hwf Hp) as (D1 & D2 & D3 & _). fold w' in D1, D2, D3.
    split_and!; try done.
    + by eapply destroy_listening.
    + rewrite D3. apply lookup_delete_eq.
    + rewrite (zw_count _ _ D1), (zw_count _ _ Hwf). apply Permutation_length in D2. cbn [length] in D2. lia.
    + intros Hcl. apply (destroy_retires cfg w p c b); try done. by left.
  - intros Hopen w'. unfold w', zmql_destroy_tcp_server. pose proof Hls as (H1 & _).
    rewrite (proj2 (Z.ltb_lt _ _)) by done. pose proof (unlisten_wf cfg w Hwf Hls) as Hwf1. cbv zeta in Hwf1.
    destruct (destroy_clients_spec cfg (length (clients (server w))) _ Hwf1 Hopen) as (W2 & C2 & E2 & R2 & _); [done|].
    split_and!; try done. rewrite (zw_count _ _ W2), C2. done.
Qed.

(** ** Witnesses *)

Definition demo_client : ZMQLClient := Client 9 ZMQL_SIGNATURE false (Some 1) (Some 2) (Some 3).

(** The bytes of a connection that sends two messages, in chunks that cut
    through the signature and through a frame. *)
Definition demo_chunks : list (list Z) :=
  let bytes := concat (script [[104; 105]; []]) in
  [take 4 bytes; take 80 (drop 4 bytes); take 10 (drop 84 bytes); drop 94 bytes].

Lemma zmql_stream_correct_witness :
  exists b, foldl (receive (zmql_client_process true) plenty)
      (Some (Buf 0 0 None, (with_state demo_client ZMQL_SIGNATURE, []))) demo_chunks
    = Some (b, (with_state demo_client ZMQL_DATA,
        [Wrote 9 ZMQ_VERS_DATA; Wrote 9 ZMQ_AUTH_DATA; Wrote 9 ZMQ_HANDSHAKE_DATA; Connected 2;
         Message 1 (Some [104; 105]); Message 1 (Some [])])) /\ content b = [].
Proof.
  destruct (zmql_stream_correct true demo_client [[104; 105]; []]
    ltac:(repeat constructor; vm_compute; tauto) plenty demo_chunks) as (b & H1 & _ & H2).
  - reflexivity.
  - repeat constructor; vm_compute; discriminate.
  - vm_compute. reflexivity.
  - vm_compute. reflexivity.
  - exists b. split; [exact H1|exact H2].
Defined.

Definition demo_zconfig : zconfig := ZC 50 (Some 1) (Some 2) (Some 3).

(** A server on descriptor 7 without clients. *)
Definition demo_server : zworld :=
  ZW (Server 7 0 []) ∅ (EVT_fd_add (fds_init 3) 7 FdRead (Some 51) 0 true).2 [] [].

Lemma demo_server_ok : zw_wf demo_zconfig demo_server /\ listening demo_server.
Proof.
  destruct (fd_add_wf (fds_init 3) 7 FdRead 51 None 0 true (fds_init_wf 3 ltac:(lia)) ltac:(lia) ltac:(done))
    as (_ & H1 & H2 & _).
  split; [split; try done|split; [done|split; [|done]]].
  - constructor.
  - intros p. cbn [demo_server server clients pool]. rewrite lookup_empty, elem_of_nil. split; [done|by intros [? ?]].
  - unfold demo_server. cbn [server sv_socket table]. unfold EVT_fd_add. rewrite H2. eauto.
Qed.

Lemma zmql_server_correct_witness :
  let w := zmql_accept_cb demo_zconfig demo_server (Some 5%positive) 9 true true in
  zw_wf demo_zconfig w /\ clientCount (server w) = 1.
Proof.
  destruct demo_server_ok as [H1 H2].
  destruct (zmql_server_correct demo_zconfig demo_server H1 H2) as [Ha _].
  destruct (Ha 5%positive 9 true) as (W & _ & C & _); [reflexivity|lia|vm_compute; reflexivity|].
  split; [exact W|exact C].
Defined.

Lemma zmql_length_overflow_witness :
  zmql_client_process true [0; 255] (with_state demo_client ZMQL_DATA, [])
    = (1, (with_state demo_client ZMQL_DATA, [Message 1 None])).
Proof.
  destruct (zmql_length_overflow true (with_state demo_client ZMQL_DATA) [] 1 []) as [_ H];
    [reflexivity|reflexivity|reflexivity|exact H].
Defined.
