(* ===== verification/Critical.v ===== *)
(** * Critical state (critical.c)

    A process may save up to 224 bytes that survive a restart.  Each save
    writes a new file for each of two prefixes, with four copies of an entry
    that carries a version and an MD5 digest; loading reads all files with the
    prefixes and keeps the entry of the highest version that checks.  The
    directory is a map from file names to bytes, kept with every state it has
    been in, down to single bytes written: these are the states a power failure
    may leave (the file system is taken to keep the order of the operations,
    the code never syncs).  The order in which the directory is read, failing
    system calls and the random part of new file names are parameters.  The
    digest is a class, which Md5.v implements.  The directory is always
    [CS_FILE_DIRECTORY], so a path is the name in it; strdup succeeds. *)

From stdpp Require Import base gmap list numbers sorting strings.
From Stdlib Require Import ZArith Lia.
From Stdlib Require String Ascii.
From S2P Require Import Prelude Words Md5.
Open Scope Z_scope.

(** ** Digests *)

Class Digest (md5 : list Z -> list Z) := { digest_length : forall bytes, length (md5 bytes) = 16%nat }.

(** The three calls of md5.c, with a context in uninitialised memory. *)
Definition md5_of (mem : list Z) (bytes : list Z) : list Z :=
  (MD5.MD5Final (MD5.MD5Update (MD5.MD5Init mem) bytes)).1.

#[export] Instance md5_digest mem : Digest (md5_of mem).
Proof. split. intros bytes. reflexivity. Qed.

Definition CRITICAL_STATE_MAX_LEN : Z := 224.
Definition NUM_COPIES : nat := 4.
Definition CLEANUP_INTERVAL : Z := 6.
Definition CS_FILE_PREFIX : string := "crit-state".

(** ** Data *)

Record CSFileState := FileState { fs_prefix : string; curr_file : option string; generation : Z }.

(** [struct CSState]; the array of two file states is a pair. *)
Record CSState := CS {
  state_version : Z;
  cs_name : string;
  dirty : bool;
  file_a : CSFileState;
  file_b : CSFileState;
  cs_state : list Z;
  cs_md5 : list Z
}.

Definition with_files (cs : CSState) (a b : CSFileState) : CSState :=
  CS (state_version cs) (cs_name cs) (dirty cs) a b (cs_state cs) (cs_md5 cs).
Definition with_version (cs : CSState) (v : Z) : CSState :=
  CS v (cs_name cs) (dirty cs) (file_a cs) (file_b cs) (cs_state cs) (cs_md5 cs).
Definition with_dirty (cs : CSState) (d : bool) : CSState :=
  CS (state_version cs) (cs_name cs) d (file_a cs) (file_b cs) (cs_state cs) (cs_md5 cs).

(** The part of [ProcessData] used here: whether [wdMode] is [WD_NOTSAT]. *)
Record ProcessData := Process { wd_notsat : bool; criticalState : CSState }.

Definition proc_get_cs_state (proc : option ProcessData) : option CSState :=
  match proc with
  | None => None
  | Some p => if wd_notsat p then None else Some (criticalState p)
  end.

(** The directory, and its file system with all states since some start. *)
Abbreviation disk := (gmap string (list Z)).
Record fsys := FS { now : disk; history : list disk }.

Definition fs_set (w : fsys) (d : disk) : fsys := FS d (d :: history w).
Definition fs_start (d : disk) : fsys := FS d [d].
Definition fs_unlink (w : fsys) (file : string) : fsys := fs_set w (delete file (now w)).

(** Writing [bytes] at the end of a file, byte after byte. *)
Definition fs_write (w : fsys) (file : string) (bytes : list Z) : fsys :=
  foldl (fun w b => fs_set w (<[file := default [] (now w !! file) ++ [b]]> (now w))) w bytes.

(** How reading a file goes: all of it, not at all, or an error after some
    entries. *)
Inductive read_outcome := ReadOk | OpenFails | ReadFails (entries : nat).

(** What the system does: the order of readdir, the names of mkstemp, and which
    calls fail. *)
Record system := Sys {
  readdir : disk -> list string;
  mkstemp : disk -> string -> option string;
  opendir_ok : bool;
  reading : string -> read_outcome;
  unlink_ok : string -> bool
}.

(** The names the files of one prefix start with: [CS_FILE_PREFIX-name.prefix.] *)
Definition name_prefix (proc_name : string) (fs : CSFileState) : string :=
  CS_FILE_PREFIX +:+ "-" +:+ proc_name +:+ "." +:+ fs_prefix fs +:+ ".".

Definition matches (proc_name : string) (fs : CSFileState) (file : string) : bool :=
  String.prefix (name_prefix proc_name fs) file.

(** ** Entries *)

(** The size of [struct CriticalEntry] and of its part before the digest. *)
Definition ENTRY_LEN : nat := 256.
Definition BODY_LEN : nat := 240.

Section Critical.
Context (md5 : list Z -> list Z).

(** The entry of a version and a state of 224 bytes. *)
Definition entry_body (version : Z) (st : list Z) : list Z :=
  le_bytes 4 (htonl (Z.land (Z.shiftr version 32) 0xFFFFFFFF)) ++
  le_bytes 4 (htonl (Z.land version 0xFFFFFFFF)) ++ replicate 8 0 ++ st.

Definition entry_bytes (version : Z) (st : list Z) : list Z :=
  entry_body version st ++ md5 (entry_body version st).

Definition entry_seq (ent : list Z) : Z :=
  Z.lor (u64 (Z.shiftl (ntohl (le_value (take 4 ent))) 32)) (ntohl (le_value (take 4 (drop 4 ent)))).

Definition entry_state (ent : list Z) : list Z := take 224 (drop 16 ent).

Definition process_critical_entry (cs : CSState) (ent : list Z) : bool * CSState :=
  if negb (bool_decide (drop BODY_LEN ent = md5 (take BODY_LEN ent))) then (false, cs)
  else
    let seq := entry_seq ent in
    if seq <? state_version cs then (false, cs)
    else if seq =? state_version cs then (true, cs)
    else (true, CS seq (cs_name cs) (dirty cs) (file_a cs) (file_b cs) (entry_state ent) (md5 (entry_state ent))).

(** ** Loading *)

(** The read loop, on what is left of the file; [errs] entries before a failing
    read. *)
Fixpoint load_entries (fuel : nat) (errs : option nat) (cs : CSState) (bytes : list Z) (res : Z) : Z * CSState :=
  match fuel with
  | O => (res, cs)
  | S fuel' =>
      match errs with
      | Some O => (-1, cs)
      | _ =>
          if (length bytes <? ENTRY_LEN)%nat then (res, cs)
          else
            let '(ok, cs') := process_critical_entry cs (take ENTRY_LEN bytes) in
            load_entries fuel' (pred <$> errs) cs' (drop ENTRY_LEN bytes) (if ok then 1 else res)
      end
  end.

Definition load_critical_state_file (sys : system) (d : disk) (cs : CSState) (file : string) : Z * CSState :=
  match d !! file, reading sys file with
  | None, _ | _, OpenFails => (-1, cs)
  | Some bytes, ReadOk => load_entries (length bytes + 1) None cs bytes 0
  | Some bytes, ReadFails n => load_entries (length bytes + 1) (Some n) cs bytes 0
  end.

(** [load_critical_state_directory]: the current file is the last one that had
    an entry at least as new as all before. *)
Definition load_critical_state_directory (sys : system) (d : disk) (cs : CSState) (fs : CSFileState)
    : CSState * CSFileState :=
  if opendir_ok sys then
    foldl (fun '(cs, fs) file =>
             if matches (cs_name cs) fs file then
               let '(res, cs') := load_critical_state_file sys d cs file in
               (cs', if 0 <? res then FileState (fs_prefix fs) (Some file) (generation fs) else fs)
             else (cs, fs))
          (cs, fs) (readdir sys d)
  else (cs, fs).

Definition load_critical_state (sys : system) (d : disk) (cs : CSState) : CSState :=
  let cs0 := with_version cs 0 in
  let '(cs1, a) := load_critical_state_directory sys d cs0 (file_a cs0) in
  let '(cs2, b) := load_critical_state_directory sys d cs1 (file_b cs0) in
  with_dirty (with_files cs2 a b) false.

(** [cleanup_old_state]: the files of the prefix other than the current one. *)
Definition cleanup_list (sys : system) (d : disk) (proc_name : string) (fs : CSFileState) : list string :=
  foldl (fun head file => if matches proc_name fs file && negb (bool_decide (Some file = curr_file fs))
                          then file :: head else head) [] (readdir sys d).

Definition cleanup_old_state (sys : system) (w : fsys) (proc_name : string) (fs : CSFileState)
    : fsys * CSFileState :=
  match curr_file fs with
  | None => (w, fs)
  | Some _ =>
      if opendir_ok sys then
        (foldl (fun w file => if unlink_ok sys file then fs_unlink w file else w) w
               (cleanup_list sys (now w) proc_name fs),
         FileState (fs_prefix fs) (curr_file fs) 0)
      else (w, fs)
  end.

Definition critical_state_init (sys : system) (w : fsys) (name : string) : CSState * fsys :=
  let cs := CS 0 name false (FileState "a" None 0) (FileState "b" None 0) (replicate 224 0) (replicate 16 0) in
  let cs1 := load_critical_state sys (now w) cs in
  let '(w1, a) := cleanup_old_state sys w name (file_a cs1) in
  let '(w2, b) := cleanup_old_state sys w1 name (file_b cs1) in
  (with_files cs1 a b, w2).

(** [critical_state_cleanup], which forgets the current files. *)
Definition critical_state_cleanup (sys : system) (w : fsys) (cs : CSState) : CSState * fsys :=
  let '(w1, a) := cleanup_old_state sys w (cs_name cs) (file_a cs) in
  let '(w2, b) := cleanup_old_state sys w1 (cs_name cs) (file_b cs) in
  (with_files cs (FileState (fs_prefix a) None (generation a)) (FileState (fs_prefix b) None (generation b)), w2).

(** ** Saving *)

(** [write_cs_file]; of the four writes [written] bytes reach the file before
    one fails or is short. *)
Definition write_cs_file (sys : system) (w : fsys) (fs : CSFileState) (proc_name : string) (ent : list Z)
    (written : nat) : Z * fsys * CSFileState :=
  match mkstemp sys (now w) (name_prefix proc_name fs) with
  | None => (-1, w, fs)
  | Some suffix =>
      let file := name_prefix proc_name fs +:+ suffix in
      let copies := concat (replicate NUM_COPIES ent) in
      let w1 := fs_write (fs_set w (<[file := []]> (now w))) file (take written copies) in
      if (written <? length copies)%nat then
        (-2, if unlink_ok sys file then fs_unlink w1 file else w1, fs)
      else
        let fs1 := FileState (fs_prefix fs) (Some file) (generation fs + 1) in
        if CLEANUP_INTERVAL <? generation fs1 then
          let '(w2, fs2) := cleanup_old_state sys w1 proc_name fs1 in (0, w2, fs2)
        else (0, w1, fs1)
  end.

(** The state as the entry holds it: 224 bytes, the rest zero. *)
Definition padded (state : list Z) (len : Z) : list Z :=
  take (Z.to_nat len) state ++ replicate (Z.to_nat (CRITICAL_STATE_MAX_LEN - len)) 0.

Definition PROC_save_critical_state (sys : system) (w : fsys) (proc : option ProcessData) (state : list Z) (len : Z)
    (written_a written_b : nat) : Z * fsys * option ProcessData :=
  if (CRITICAL_STATE_MAX_LEN <? u64 len) || (len <=? 0) then (-1, w, proc)
  else
    match proc, proc_get_cs_state proc with
    | None, _ => (-2, w, proc)
    | _, None => (-10, w, proc)
    | Some p, Some cs =>
        let v := u64 (state_version cs + 1) in
        let ent := entry_bytes v (padded state len) in
        let '(ra, w1, a) := write_cs_file sys w (file_a cs) (cs_name cs) ent written_a in
        if ra <? 0 then (-3, w1, Some (Process (wd_notsat p) (with_version (with_files cs a (file_b cs)) v)))
        else
          let '(rb, w2, b) := write_cs_file sys w1 (file_b cs) (cs_name cs) ent written_b in
          (len, w2, Some (Process (wd_notsat p)
             (CS v (cs_name cs) (if rb <? 0 then true else dirty cs) a b (padded state len) (md5 (padded state len)))))
    end.

(** The end of [PROC_read_critical_state]. *)
Definition copy_out (cs : CSState) (len : Z) : option (Z * list Z) :=
  let n := if CRITICAL_STATE_MAX_LEN <? len then CRITICAL_STATE_MAX_LEN else len in
  if n <? 0 then None else Some (n, take (Z.to_nat n) (cs_state cs)).

(** [PROC_read_critical_state]: the code and the bytes copied; [None] is a copy
    of a negative length.  A load always clears [dirty] and returns 0, so the
    codes -1, -2 and -3 are unreachable. *)
Definition PROC_read_critical_state (sys : system) (d : disk) (proc : option ProcessData) (len : Z)
    : option (Z * list Z) * option ProcessData :=
  match proc, proc_get_cs_state proc with
  | Some p, Some cs0 =>
      let cs1 := if dirty cs0 then load_critical_state sys d cs0 else cs0 in
      let good cs := bool_decide (md5 (cs_state cs) = cs_md5 cs) in
      let cs2 := if good cs1 then cs1 else load_critical_state sys d cs1 in
      let p2 := Some (Process (wd_notsat p) cs2) in
      if negb (good cs2) then (Some (-4, []), p2)
      else (copy_out cs2 len, p2)
  | _, _ => (Some (-10, []), proc)
  end.
End Critical.

(** ** What is stored

    The register the component implements: the entry of the highest version
    among those on the disk that check, if any has a positive version. *)

Section Stored.
Context (md5 : list Z -> list Z).

Definition verifies (ent : list Z) : Prop := drop BODY_LEN ent = md5 (take BODY_LEN ent).
Definition entry_at (bytes : list Z) (i : nat) : list Z := take ENTRY_LEN (drop (ENTRY_LEN * i) bytes).

Definition has_entry (bytes : list Z) (v : Z) (st : list Z) : Prop :=
  exists i, (ENTRY_LEN * (i + 1) <= length bytes)%nat /\ verifies (entry_at bytes i) /\
            entry_seq (entry_at bytes i) = v /\ entry_state (entry_at bytes i) = st.

(** The files of a process with prefix [p], and the entries in them. *)
Definition of_prefix (name p file : string) : bool := matches name (FileState p None 0) file.

Definition in_prefix (d : disk) (name p : string) (v : Z) (st : list Z) : Prop :=
  exists file bytes, d !! file = Some bytes /\ of_prefix name p file = true /\ has_entry bytes v st.

Definition on_disk (d : disk) (name : string) (v : Z) (st : list Z) : Prop :=
  in_prefix d name "a" v st \/ in_prefix d name "b" v st.

Definition stored (d : disk) (name : string) (r : option (Z * list Z)) : Prop :=
  match r with
  | None => forall v st, on_disk d name v st -> v <= 0
  | Some (v, st) =>
      0 < v /\ on_disk d name v st /\ forall v' st', on_disk d name v' st' -> v' < v \/ (v' = v /\ st' = st)
  end.

Definition stored_version (r : option (Z * list Z)) : Z := default 0 (fst <$> r).

(** [cs'] is [cs] after the entries of [P] were looked at. *)
Definition absorbs (P : Z -> list Z -> Prop) (cs cs' : CSState) : Prop :=
  (forall v st, P v st -> v <= state_version cs') /\
  (cs' = cs \/ exists v st, P v st /\ state_version cs < v /\
     cs' = CS v (cs_name cs) (dirty cs) (file_a cs) (file_b cs) st (md5 st)).

Lemma absorbs_le P cs cs' : absorbs P cs cs' -> state_version cs <= state_version cs'.
Proof. intros [_ [-> |(v & st & _ & ? & ->)]]; simpl; lia. Qed.

Lemma absorbs_other P cs cs' :
  absorbs P cs cs' -> cs_name cs' = cs_name cs /\ file_a cs' = file_a cs /\ file_b cs' = file_b cs.
Proof. by intros [_ [-> |(v & st & _ & _ & ->)]]. Qed.

Lemma absorbs_weaken P Q cs cs' : (forall v st, P v st <-> Q v st) -> absorbs P cs cs' -> absorbs Q cs cs'.
Proof.
  intros HPQ [H1 H2]. split; [intros v st Hq; by apply (H1 v st), HPQ|].
  destruct H2 as [-> |(v & st & Hp & H2)]; [by left|right]. exists v, st. by rewrite <- HPQ.
Qed.

Lemma absorbs_none cs (P : Z -> list Z -> Prop) : (forall v st, ~ P v st) -> absorbs P cs cs.
Proof. intros HP. split; [|by left]. intros v st H. by destruct (HP v st). Qed.

Lemma absorbs_trans P Q cs cs1 cs2 :
  absorbs P cs cs1 -> absorbs Q cs1 cs2 -> absorbs (fun v st => P v st \/ Q v st) cs cs2.
Proof.
  intros H1 H2. pose proof (absorbs_le _ _ _ H1) as L1. pose proof (absorbs_le _ _ _ H2) as L2.
  destruct H1 as [M1 E1], H2 as [M2 E2]. split.
  - intros v st [Hp|Hq]; [apply M1 in Hp; lia|by apply (M2 v st)].
  - destruct E2 as [-> |(v & st & Hq & Hv & ->)].
    + destruct E1 as [-> |(v & st & Hp & E1)]; [by left|right; exists v, st; tauto].
    + right. exists v, st. destruct (absorbs_other P cs cs1 (conj M1 E1)) as (-> & -> & ->).
      split_and!; [by right|lia|]. f_equal.
      by destruct E1 as [-> |(? & ? & _ & _ & ->)].
Qed.

(** ** Reading one file *)

Lemma has_entry_short bytes v st : (length bytes < ENTRY_LEN)%nat -> ~ has_entry bytes v st.
Proof. intros H (i & Hi & _). lia. Qed.

Lemma entry_at_S bytes i : entry_at bytes (S i) = entry_at (drop ENTRY_LEN bytes) i.
Proof. unfold entry_at. rewrite drop_drop. do 2 f_equal. lia. Qed.

Lemma has_entry_cons bytes v st :
  (ENTRY_LEN <= length bytes)%nat ->
  has_entry bytes v st <->
  (verifies (take ENTRY_LEN bytes) /\ entry_seq (take ENTRY_LEN bytes) = v /\ entry_state (take ENTRY_LEN bytes) = st)
  \/ has_entry (drop ENTRY_LEN bytes) v st.
Proof.
  intros Hl. split.
  - intros (i & Hi & H). destruct i as [|i]; [left; exact H|right]. rewrite entry_at_S in H.
    exists i. split; [rewrite length_drop; lia|exact H].
  - intros [H|(i & Hi & H)]; [exists 0%nat; split; [lia|exact H]|].
    exists (S i). rewrite entry_at_S. rewrite length_drop in Hi. split; [lia|exact H].
Qed.

Lemma process_entry_absorbs cs ent ok cs' :
  process_critical_entry md5 cs ent = (ok, cs') ->
  absorbs (fun v st => verifies ent /\ entry_seq ent = v /\ entry_state ent = st) cs cs' /\
  (ok = true <-> verifies ent /\ entry_seq ent = state_version cs').
Proof.
  unfold process_critical_entry. case_bool_decide as Hv; simpl.
  2:{ intros [= <- <-]. split; [apply absorbs_none; by intros v st []|]. split; [done|by intros []]. }
  destruct (Z.ltb_spec (entry_seq ent) (state_version cs)).
  { intros [= <- <-]. split; [|split; [done|lia]]. split; [intros v st (_ & <- & _); lia|by left]. }
  destruct (Z.eqb_spec (entry_seq ent) (state_version cs)) as [He|He]; intros [= <- <-].
  - split; [|done]. split; [intros v st (_ & <- & _); lia|by left].
  - split; [|done]. split; [intros v st (_ & <- & _); simpl; lia|right].
    exists (entry_seq ent), (entry_state ent). split_and!; [done..|lia|done].
Qed.

Lemma load_entries_absorbs fuel bytes : forall cs res res' cs',
  (length bytes < fuel)%nat ->
  load_entries md5 fuel None cs bytes res = (res', cs') ->
  absorbs (has_entry bytes) cs cs' /\ (res' = 1 \/ res' = res) /\
  ((exists st, has_entry bytes (state_version cs') st) -> res' = 1) /\
  (res' = 1 -> res <> 1 -> exists st, has_entry bytes (state_version cs') st).
Proof.
  revert bytes. induction fuel as [|fuel IH]; intros bytes cs res res' cs' Hf; [lia|]. cbn [load_entries].
  destruct (Nat.ltb_spec (length bytes) ENTRY_LEN) as [Hs|Hs].
  { intros [= <- <-]. assert (Hn : forall v st, ~ has_entry bytes v st) by (intros; by apply has_entry_short).
    split_and!; [by apply absorbs_none|by right|intros [st H]; by apply Hn in H|done]. }
  destruct (process_critical_entry md5 cs (take ENTRY_LEN bytes)) as [ok cs1] eqn:Ep.
  apply process_entry_absorbs in Ep as [A1 Hok]. intros El.
  assert (Hd : (length (drop ENTRY_LEN bytes) < fuel)%nat) by (rewrite length_drop; unfold ENTRY_LEN in *; lia).
  apply IH in El as (A2 & Hr & Hin & Hout); [|exact Hd]. clear IH.
  pose proof (absorbs_le _ _ _ A2) as L2. split_and!.
  - eapply absorbs_weaken; [|exact (absorbs_trans _ _ _ _ _ A1 A2)]. intros v st. symmetry. by apply has_entry_cons.
  - destruct ok; tauto.
  - intros [st H]. apply has_entry_cons in H as [(Hv & Hq & _)|H]; [|by apply Hin; exists st|exact Hs].
    destruct ok; [destruct Hr; congruence|]. exfalso.
    assert (M1 := proj1 A1 _ _ (conj Hv (conj Hq eq_refl))).
    assert (state_version cs1 = state_version cs') by lia.
    enough (false = true) by done. apply Hok. split; [done|lia].
  - intros Hr1 Hr0. destruct ok.
    + destruct (proj1 Hok eq_refl) as [Hv Hq].
      destruct (proj2 A2) as [-> |(v & st & He & _ & ->)].
      * exists (entry_state (take ENTRY_LEN bytes)). apply has_entry_cons; [exact Hs|by left].
      * exists st. apply has_entry_cons; [exact Hs|by right].
    + destruct (Hout Hr1 Hr0) as [st H]. exists st. apply has_entry_cons; [exact Hs|by right].
Qed.

(** ** Reading the directory *)

(** A system on which reading works: nothing fails and readdir lists the
    directory. *)
Class Reads (sys : system) := {
  reads_dir : opendir_ok sys = true;
  reads_file : forall file, reading sys file = ReadOk;
  reads_list : forall d file, file ∈ readdir sys d <-> is_Some (d !! file)
}.

(** The entries of the prefix in the listed files. *)
Definition listed (d : disk) (name p : string) (files : list string) (v : Z) (st : list Z) : Prop :=
  exists file bytes, file ∈ files /\ d !! file = Some bytes /\ of_prefix name p file = true /\ has_entry bytes v st.

(** A file of the prefix with an entry of version [v]. *)
Definition newest (d : disk) (name p : string) (v : Z) (file : string) : Prop :=
  exists bytes st, d !! file = Some bytes /\ of_prefix name p file = true /\ has_entry bytes v st.

Definition load_step (sys : system) (d : disk) : CSState * CSFileState -> string -> CSState * CSFileState :=
  fun '(cs, fs) file =>
    if matches (cs_name cs) fs file then
      let '(res, cs') := load_critical_state_file md5 sys d cs file in
      (cs', if 0 <? res then FileState (fs_prefix fs) (Some file) (generation fs) else fs)
    else (cs, fs).

Lemma listed_cons d name p file files v st :
  listed d name p (file :: files) v st <-> listed d name p [file] v st \/ listed d name p files v st.
Proof.
  unfold listed. split.
  - intros (f & bytes & [Hf|Hf]%elem_of_cons & H); [left|right]; exists f, bytes; split; set_solver.
  - intros [(f & bytes & Hf & H)|(f & bytes & Hf & H)]; exists f, bytes; split; set_solver.
Qed.

Lemma listed_one d name p file v st :
  listed d name p [file] v st <->
  exists bytes, d !! file = Some bytes /\ of_prefix name p file = true /\ has_entry bytes v st.
Proof.
  unfold listed. split; [intros (f & bytes & ->%list_elem_of_singleton & H); by exists bytes|].
  intros [bytes H]. exists file, bytes. split; [set_solver|exact H].
Qed.

(** What one step does to the current file: it is set to a file that holds the
    version reached, and it is set whenever the file does. *)
Definition tracks (d : disk) (name p : string) (files : list string) (cs cs' : CSState) (fs fs' : CSFileState) : Prop :=
  fs_prefix fs' = fs_prefix fs /\
  (fs' = fs \/ exists v file, curr_file fs' = Some file /\ newest d name p v file /\
     state_version cs <= v <= state_version cs') /\
  (forall st, listed d name p files (state_version cs') st ->
     exists file, curr_file fs' = Some file /\ newest d name p (state_version cs') file).

Lemma load_step_spec sys d cs fs file cs' fs' (HR : Reads sys) :
  load_step sys d (cs, fs) file = (cs', fs') ->
  absorbs (listed d (cs_name cs) (fs_prefix fs) [file]) cs cs' /\
  tracks d (cs_name cs) (fs_prefix fs) [file] cs cs' fs fs'.
Proof.
  unfold load_step, load_critical_state_file. rewrite reads_file. intros E.
  assert (Em : matches (cs_name cs) fs file = of_prefix (cs_name cs) (fs_prefix fs) file) by done. rewrite Em in E.
  destruct (of_prefix (cs_name cs) (fs_prefix fs) file) eqn:Ef.
  2:{ injection E as <- <-.
      assert (Hn : forall v st, ~ listed d (cs_name cs) (fs_prefix fs) [file] v st).
      { intros v st (bytes & _ & Hc & _)%listed_one. congruence. }
      split; [by apply absorbs_none|]. split; [done|]. split; [by left|intros st H; by destruct (Hn _ _ H)]. }
  destruct (d !! file) as [bytes|] eqn:Ed.
  2:{ injection E as <- <-.
      assert (Hn : forall v st, ~ listed d (cs_name cs) (fs_prefix fs) [file] v st).
      { intros v st (bytes & Hc & _)%listed_one. congruence. }
      split; [by apply absorbs_none|]. split; [done|]. split; [by left|intros st H; by destruct (Hn _ _ H)]. }
  destruct (load_entries md5 (length bytes + 1) None cs bytes 0) as [res cs1] eqn:El.
  injection E as <- <-. apply load_entries_absorbs in El as (A & Hr & Hin & Hout); [|lia].
  assert (HL : forall v st, has_entry bytes v st <-> listed d (cs_name cs) (fs_prefix fs) [file] v st).
  { intros v st. rewrite listed_one. split; [by exists bytes|]. by intros (bytes' & [= <-]%(eq_trans (eq_sym Ed)) & _ & H). }
  pose proof (absorbs_le _ _ _ A) as HL'.
  split; [by eapply absorbs_weaken, A|]. split; [by case_match|]. split.
  - destruct Hr as [-> | ->]; [|by left]. right.
    destruct (Hout eq_refl) as [st Hst]; [done|]. exists (state_version cs1), file. simpl.
    split; [done|]. split; [by exists bytes, st|lia].
  - intros st Hst%HL. rewrite (Hin (ex_intro _ st Hst)). exists file. split; [done|]. by exists bytes, st.
Qed.

Lemma tracks_trans d name p file files cs cs1 cs' fs fs1 fs' :
  absorbs (listed d name p [file]) cs cs1 -> absorbs (listed d name p files) cs1 cs' ->
  tracks d name p [file] cs cs1 fs fs1 -> tracks d name p files cs1 cs' fs1 fs' ->
  tracks d name p (file :: files) cs cs' fs fs'.
Proof.
  intros A1 A2 (P1 & C1 & N1) (P2 & C2 & N2).
  pose proof (absorbs_le _ _ _ A1) as L1. pose proof (absorbs_le _ _ _ A2) as L2. split; [congruence|]. split.
  - destruct C2 as [-> |(v & f & ? & ? & ?)]; [|right; exists v, f; split_and!; [done..|lia|lia]].
    destruct C1 as [-> |(v & f & ? & ? & ?)]; [by left|]. right. exists v, f. split_and!; [done..|lia|lia].
  - intros st [H|H]%listed_cons; [|by apply (N2 st)].
    assert (Ev : state_version cs1 = state_version cs') by (apply (proj1 A1) in H; lia).
    destruct C2 as [-> |(v & f & Hc & Hn & Hv)].
    + rewrite <- Ev in H |- *. by apply (N1 st).
    + exists f. replace (state_version cs') with v by lia. done.
Qed.

Lemma load_fold sys d files (HR : Reads sys) : forall cs fs cs' fs',
  foldl (load_step sys d) (cs, fs) files = (cs', fs') ->
  absorbs (listed d (cs_name cs) (fs_prefix fs) files) cs cs' /\
  tracks d (cs_name cs) (fs_prefix fs) files cs cs' fs fs'.
Proof.
  induction files as [|file files IH]; intros cs fs cs' fs'; cbn [foldl].
  - intros [= <- <-]. assert (Hn : forall v st, ~ listed d (cs_name cs) (fs_prefix fs) [] v st).
    { intros v st (f & bytes & Hf & _). set_solver. }
    split; [by apply absorbs_none|]. split; [done|]. split; [by left|intros st H; by destruct (Hn _ _ H)].
  - destruct (load_step sys d (cs, fs) file) as [cs1 fs1] eqn:E1. intros E2.
    apply (load_step_spec _ _ _ _ _ _ _ HR) in E1 as [A1 T1]. apply IH in E2 as [A2 T2].
    rewrite (proj1 (absorbs_other _ _ _ A1)), (proj1 T1) in A2, T2.
    split; [|by eapply tracks_trans].
    eapply absorbs_weaken; [|exact (absorbs_trans _ _ _ _ _ A1 A2)]. intros v st. symmetry. apply listed_cons.
Qed.

Lemma listed_all sys d name p (HR : Reads sys) v st :
  listed d name p (readdir sys d) v st <-> in_prefix d name p v st.
Proof.
  split; [intros (f & bytes & _ & H); by exists f, bytes|].
  intros (f & bytes & Hd & H). exists f, bytes. split; [|done]. apply reads_list. by exists bytes.
Qed.

(** The current file of a prefix is one of the newest, if any is. *)
Definition tracked (d : disk) (name p : string) (v : Z) (fs : CSFileState) : Prop :=
  fs_prefix fs = p /\
  forall st, in_prefix d name p v st -> exists file, curr_file fs = Some file /\ newest d name p v file.

Lemma load_directory_spec sys d cs fs cs' fs' (HR : Reads sys) :
  load_critical_state_directory md5 sys d cs fs = (cs', fs') ->
  absorbs (in_prefix d (cs_name cs) (fs_prefix fs)) cs cs' /\
  (forall v, state_version cs' <= v -> tracked d (cs_name cs) (fs_prefix fs) v fs').
Proof.
  unfold load_critical_state_directory. rewrite reads_dir. intros E.
  apply (load_fold _ _ _ HR) in E as [A (P & _ & N)].
  assert (HA : absorbs (in_prefix d (cs_name cs) (fs_prefix fs)) cs cs').
  { eapply absorbs_weaken, A. intros. by apply listed_all. }
  split; [exact HA|]. intros v Hv. split; [exact P|]. intros st Hst.
  replace v with (state_version cs') in * by (apply (proj1 HA) in Hst; lia).
  apply (N st). by apply listed_all.
Qed.

(** Loading finds the entry of the highest version. *)
Lemma load_spec sys d cs r (HR : Reads sys) :
  fs_prefix (file_a cs) = "a" -> fs_prefix (file_b cs) = "b" -> stored d (cs_name cs) r ->
  exists a b,
    load_critical_state md5 sys d cs =
      CS (stored_version r) (cs_name cs) false a b
         (from_option snd (cs_state cs) r) (from_option (md5 ∘ snd) (cs_md5 cs) r) /\
    tracked d (cs_name cs) "a" (stored_version r) a /\ tracked d (cs_name cs) "b" (stored_version r) b.
Proof.
  intros Ha Hb Hr. unfold load_critical_state. cbn [with_version file_a file_b].
  destruct (load_critical_state_directory md5 sys d (with_version cs 0) (file_a cs)) as [cs1 a] eqn:E1.
  destruct (load_critical_state_directory md5 sys d cs1 (file_b cs)) as [cs2 b] eqn:E2.
  apply (load_directory_spec _ _ _ _ _ _ HR) in E1 as [A1 T1], E2 as [A2 T2].
  rewrite (proj1 (absorbs_other _ _ _ A1)), Hb in A2, T2. rewrite Ha in A1, T1.
  change (cs_name (with_version cs 0)) with (cs_name cs) in *.
  pose proof (absorbs_le _ _ _ A2) as L2.
  assert (A : absorbs (on_disk d (cs_name cs)) (with_version cs 0) cs2) by exact (absorbs_trans _ _ _ _ _ A1 A2).
  assert (Ev : state_version cs2 = stored_version r /\ with_dirty (with_files cs2 a b) false =
      CS (stored_version r) (cs_name cs) false a b
         (from_option snd (cs_state cs) r) (from_option (md5 ∘ snd) (cs_md5 cs) r)).
  { destruct A as [M [-> |(v & st & Hp & Hv & ->)]], r as [[v0 st0]|]; cbn; try done.
    - destruct Hr as (H1 & H2 & _). apply M in H2. simpl in H2. lia.
    - destruct Hr as (H1 & H2 & H3). apply M in H2. simpl in H2. by destruct (H3 v st Hp) as [|[-> ->]]; [lia|].
    - apply Hr in Hp. simpl in Hv. lia. }
  destruct Ev as [Ev Ec]. exists a, b. split; [exact Ec|]. split; [apply T1; lia|apply T2; lia].
Qed.

(** ** Names *)

Lemma append_assoc (u v w : string) : u +:+ v +:+ w = (u +:+ v) +:+ w.
Proof.
  induction u as [|c u IH]; [done|]. change (String.String c (u +:+ v +:+ w) = String.String c ((u +:+ v) +:+ w)).
  by rewrite IH.
Qed.

Lemma prefix_append_head u c1 r1 c2 r2 file :
  String.prefix (u +:+ String.String c1 r1) file = true -> String.prefix (u +:+ String.String c2 r2) file = true -> c1 = c2.
Proof.
  revert file. induction u as [|c u IH]; intros [|x file] H1 H2; try done; cbv [String.append] in *; fold String.append in *.
  - cbn in H1, H2. destruct (Ascii.ascii_dec c1 x), (Ascii.ascii_dec c2 x); congruence.
  - cbn in H1, H2. destruct (Ascii.ascii_dec c x); [exact (IH _ H1 H2)|done].
Qed.

Lemma of_prefix_disjoint name file : of_prefix name "a" file = true -> of_prefix name "b" file = true -> False.
Proof.
  unfold of_prefix, matches, name_prefix. cbn [fs_prefix]. rewrite !append_assoc, <- !(append_assoc _ _ ".").
  intros Ha Hb. discriminate (prefix_append_head _ _ _ _ _ _ Ha Hb).
Qed.

Lemma prefix_append u r : String.prefix u (u +:+ r) = true.
Proof.
  induction u as [|c u IH]; [by destruct r|]. change (String.String c u +:+ r) with (String.String c (u +:+ r)).
  cbn. by case_match.
Qed.

Lemma of_prefix_new name fs suffix : of_prefix name (fs_prefix fs) (name_prefix name fs +:+ suffix) = true.
Proof. apply prefix_append. Qed.

(** The two prefixes of a process. *)
Definition own_prefix (p : string) : Prop := p = "a" \/ p = "b".

Lemma of_prefix_other name p q file :
  own_prefix p -> own_prefix q -> p <> q -> of_prefix name p file = true -> of_prefix name q file = false.
Proof.
  intros [-> | ->] [-> | ->] Hn H; try done; apply not_true_iff_false; intros H'; by eapply of_prefix_disjoint.
Qed.

Lemma on_disk_prefix d name v st : on_disk d name v st <-> exists p, own_prefix p /\ in_prefix d name p v st.
Proof.
  split; [intros [H|H]; [exists "a"; split; [by left|done]|exists "b"; split; [by right|done]]|].
  intros (p & [-> | ->] & H); [by left|by right].
Qed.

(** ** Steps of the file system *)

(** All states of [w'] since [w] satisfy [P]. *)
Definition within (P : disk -> Prop) (w w' : fsys) : Prop :=
  P (now w') /\ forall d, d ∈ history w' -> d ∈ history w \/ P d.

Lemma within_refl (P : disk -> Prop) w : P (now w) -> within P w w.
Proof. intros H. split; [exact H|by left]. Qed.

Lemma within_set (P : disk -> Prop) w d : P d -> within P w (fs_set w d).
Proof. intros H. split; [exact H|]. intros d' [-> |H']%elem_of_cons; [by right|by left]. Qed.

Lemma within_trans P Q (R : disk -> Prop) w w1 w2 :
  within P w w1 -> within Q w1 w2 -> (forall d, P d -> R d) -> (forall d, Q d -> R d) -> within R w w2.
Proof.
  intros [P1 H1] [Q2 H2] HP HQ. split; [by apply HQ|]. intros d Hd.
  destruct (H2 d Hd) as [H|H]; [|right; by apply HQ]. destruct (H1 d H) as [H'|H']; [by left|right; by apply HP].
Qed.

Lemma within_weaken P (R : disk -> Prop) w w' : within P w w' -> (forall d, P d -> R d) -> within R w w'.
Proof. intros H HP. exact (within_trans P P R w w' w' H (within_refl P w' (proj1 H)) HP HP). Qed.

(** Some files of the prefix other than [cur] are gone. *)
Definition prunes (name p cur : string) (d d' : disk) : Prop :=
  d' ⊆ d /\ forall file, of_prefix name p file = false \/ file = cur -> d' !! file = d !! file.

Lemma prunes_refl name p cur d : prunes name p cur d d.
Proof. done. Qed.

Lemma prunes_delete name p cur d d' file :
  of_prefix name p file = true -> file <> cur -> prunes name p cur d d' -> prunes name p cur d (delete file d').
Proof.
  intros Hp Hc [H1 H2]. split; [etrans; [apply delete_subseteq|exact H1]|].
  intros f Hf. rewrite lookup_delete_ne; [by apply H2|]. intros <-. destruct Hf; congruence.
Qed.

Lemma prune_fold sys name p cur d files : forall w,
  Forall (fun file => of_prefix name p file = true /\ file <> cur) files ->
  prunes name p cur d (now w) ->
  within (prunes name p cur d) w (foldl (fun w file => if unlink_ok sys file then fs_unlink w file else w) w files).
Proof.
  induction files as [|file files IH]; intros w HF Hw; cbn [foldl]; [by apply within_refl|].
  inversion_clear HF as [|? ? [Hp Hc] HF']. destruct (unlink_ok sys file); [|by apply IH].
  assert (Hd : prunes name p cur d (delete file (now w))) by by apply prunes_delete.
  eapply within_trans; [exact (within_set _ w _ Hd)|by apply IH|done..].
Qed.

Lemma cleanup_list_spec sys d name fs cur :
  curr_file fs = Some cur ->
  Forall (fun file => of_prefix name (fs_prefix fs) file = true /\ file <> cur) (cleanup_list sys d name fs).
Proof.
  intros Hc. unfold cleanup_list. rewrite Hc.
  assert (HI : Forall (fun file => of_prefix name (fs_prefix fs) file = true /\ file <> cur) []) by constructor.
  revert HI. generalize (@nil string). induction (readdir sys d) as [|file files IH]; intros l HI; [exact HI|].
  cbn [foldl]. apply IH. destruct (matches name fs file) eqn:Em; cbn [andb]; [|exact HI].
  case_bool_decide as He; cbn [negb]; [exact HI|]. constructor; [|exact HI]. split; [exact Em|congruence].
Qed.

Lemma cleanup_spec sys w name fs w' fs' cur :
  curr_file fs = Some cur -> cleanup_old_state sys w name fs = (w', fs') ->
  fs_prefix fs' = fs_prefix fs /\ curr_file fs' = Some cur /\
  within (prunes name (fs_prefix fs) cur (now w)) w w'.
Proof.
  intros Hc. unfold cleanup_old_state. rewrite Hc. destruct (opendir_ok sys); intros [= <- <-].
  - split; [done|]. split; [done|]. apply prune_fold; [by apply cleanup_list_spec|apply prunes_refl].
  - split; [done|]. split; [done|]. apply within_refl, prunes_refl.
Qed.

(** Cleaning one prefix keeps what is stored: the current file is one of the
    newest, and the other prefix is not touched. *)
Lemma prunes_in_prefix name p cur d d' q v st :
  prunes name p cur d d' -> in_prefix d' name q v st -> in_prefix d name q v st.
Proof.
  intros [H1 _] (f & bytes & Hd & H). exists f, bytes. split; [|exact H]. by eapply lookup_weaken.
Qed.

Lemma prunes_newest name p q cur d d' v file :
  own_prefix p -> own_prefix q -> (p = q -> file = cur) ->
  prunes name p cur d d' -> newest d name q v file -> newest d' name q v file.
Proof.
  intros Hp Hq Hc [_ H2] (bytes & st & Hd & Hf & He). exists bytes, st. split; [|done].
  rewrite H2; [done|]. destruct (decide (p = q)) as [E|E]; [right; by apply Hc|left].
  by eapply of_prefix_other, Hf.
Qed.

Lemma prunes_stored name p cur d d' fs r :
  own_prefix p -> tracked d name p (stored_version r) fs -> curr_file fs = Some cur ->
  prunes name p cur d d' -> stored d name r -> stored d' name r.
Proof.
  intros Hp [_ HT] Hc Hpr.
  assert (Hle : forall v st, on_disk d' name v st -> on_disk d name v st).
  { intros v st. rewrite !on_disk_prefix. intros (q & Hq & H). exists q. split; [exact Hq|]. by eapply prunes_in_prefix. }
  destruct r as [[v st]|]; [|intros H v st Ho; by apply (H v st), Hle].
  intros (Hv & Hon & Hmax). split; [exact Hv|]. split; [|intros v' st' Ho; by apply Hmax, Hle].
  apply on_disk_prefix in Hon as (q & Hq & f & bytes & Hd & Hf & He). apply on_disk_prefix.
  destruct (decide (p = q)) as [<-|E].
  - destruct (HT st) as (f' & Hf' & Hn); [by exists f, bytes|]. cbn in Hn.
    destruct (prunes_newest _ p p cur _ d' _ f' Hp Hp ltac:(congruence) Hpr Hn) as (bytes' & st' & Hd' & Hp' & He').
    exists p. split; [exact Hp|]. exists f', bytes'. split; [done|]. split; [done|].
    destruct (Hmax v st') as [|[_ <-]]; [|lia|done]. apply Hle, on_disk_prefix. exists p. split; [done|]. by exists f', bytes'.
  - destruct (prunes_newest name p q cur d d' v f Hp Hq ltac:(congruence) Hpr) as (bytes' & st' & Hd' & _ & _).
    { by exists bytes, st. }
    exists q. split; [exact Hq|]. exists f, bytes. split; [|done].
    rewrite (proj2 Hpr); [done|left; by eapply of_prefix_other, Hf].
Qed.

Lemma prunes_tracked name p q cur d d' v fs :
  own_prefix p -> own_prefix q -> (p = q -> curr_file fs = Some cur) ->
  prunes name p cur d d' -> tracked d name q v fs -> tracked d' name q v fs.
Proof.
  intros Hp Hq Hc Hpr [H1 H2]. split; [exact H1|]. intros st Hst.
  destruct (H2 st) as (f & Hf & Hn); [by eapply prunes_in_prefix|]. exists f. split; [exact Hf|].
  apply (prunes_newest name p q cur d d' v f Hp Hq); [|done..]. intros E. specialize (Hc E). congruence.
Qed.

(** ** Adding a file *)

(** A new file whose entries are all [v] and [st]; [full] if it has one. *)
Definition adds (name p file : string) (v : Z) (st : list Z) (full : bool) (d d' : disk) : Prop :=
  d !! file = None /\ of_prefix name p file = true /\
  exists bytes, d' = <[file := bytes]> d /\
    forall v' st', has_entry bytes v' st' <-> full = true /\ v' = v /\ st' = st.

Lemma adds_on_disk name p file v st full d d' v' st' :
  own_prefix p -> adds name p file v st full d d' ->
  on_disk d' name v' st' <-> on_disk d name v' st' \/ (full = true /\ v' = v /\ st' = st).
Proof.
  intros Hp (Hn & Hf & bytes & -> & He). rewrite !on_disk_prefix. split.
  - intros (q & Hq & f & b & Hd & Hfq & H).
    apply lookup_insert_Some in Hd as [[<- <-]|[Hne Hd]]; [by right; apply He|left].
    exists q. split; [exact Hq|]. by exists f, b.
  - intros [(q & Hq & f & b & Hd & H)|H].
    + exists q. split; [exact Hq|]. exists f, b. split; [|exact H]. rewrite lookup_insert_ne; [done|]. congruence.
    + exists p. split; [exact Hp|]. exists file, bytes. rewrite lookup_insert_eq, He. done.
Qed.

(** A version that may be written over what is stored. *)
Definition supersedes (v : Z) (st : list Z) (r : option (Z * list Z)) : Prop :=
  0 < v /\ (stored_version r < v \/ r = Some (v, st)).

Lemma stored_below d name r v st v' st' :
  supersedes v st r -> stored d name r -> on_disk d name v' st' -> v' < v \/ (v' = v /\ st' = st).
Proof.
  intros [Hv [Hr| ->]] Hs Ho; [left|by apply (proj2 (proj2 Hs))].
  destruct r as [[v0 st0]|]; cbn in Hr; [|apply (Hs v' st') in Ho; lia].
  apply (proj2 (proj2 Hs)) in Ho as [?|[-> _]]; lia.
Qed.

Lemma adds_stored name p file v st full d d' r :
  own_prefix p -> adds name p file v st full d d' -> supersedes v st r -> stored d name r ->
  stored d' name (if full then Some (v, st) else r).
Proof.
  intros Hp HA Hr Hs.
  assert (Heq : forall v' st', on_disk d' name v' st' <-> on_disk d name v' st' \/ (full = true /\ v' = v /\ st' = st)).
  { intros v' st'. by apply (adds_on_disk name p file). }
  destruct full.
  - split; [apply Hr|]. split; [apply Heq; by right|]. intros v' st' [H|H]%Heq; [|right; by destruct H as [_ H]].
    by apply (stored_below d name r).
  - assert (Hsame : forall v' st', on_disk d' name v' st' <-> on_disk d name v' st').
    { intros v' st'. rewrite Heq. split; [by intros [?|[? _]]|by left]. }
    destruct r as [[v0 st0]|].
    + destruct Hs as (H0 & H1 & H2). split; [done|]. split; [by apply Hsame|]. intros v' st' H%Hsame. by apply H2.
    + intros v' st' H%Hsame. by apply (Hs v' st').
Qed.

Lemma adds_in_prefix name p file v st d d' :
  adds name p file v st true d d' -> newest d' name p v file.
Proof.
  intros (_ & Hf & bytes & -> & He). exists bytes, st. rewrite lookup_insert_eq. split; [done|]. split; [done|]. by apply He.
Qed.

(** ** Entries as written *)

Context `{HD : !Digest md5}.

Lemma entry_body_length v st : length st = 224%nat -> length (entry_body v st) = BODY_LEN.
Proof. intros H. unfold entry_body. rewrite !length_app, !le_bytes_length, length_replicate, H. done. Qed.

Lemma entry_length v st : length st = 224%nat -> length (entry_bytes md5 v st) = ENTRY_LEN.
Proof. intros H. unfold entry_bytes. by rewrite length_app, (digest_length (md5 := md5)), entry_body_length. Qed.

Lemma entry_verifies v st : length st = 224%nat -> verifies (entry_bytes md5 v st).
Proof.
  intros H. apply (entry_body_length v) in H. unfold verifies, entry_bytes.
  rewrite <- H, drop_app_length, take_app_length. done.
Qed.

(** The two halves of the version, in network order. *)
Lemma entry_version v st : 0 <= v < 2 ^ 64 -> entry_seq (entry_bytes md5 v st) = v.
Proof.
  intros Hv. unfold entry_seq, entry_bytes, entry_body. rewrite !htonl_bytes, <- !app_assoc.
  rewrite (take_app_length' (be32 _)), (drop_app_length' (be32 _)), (take_app_length' (be32 _)) by (by rewrite be32_length).
  rewrite !ntohl_be32. change 0xFFFFFFFF with (2 ^ 32 - 1). rewrite !land_ones_mod by lia.
  rewrite Z.shiftr_div_pow2 by lia.
  assert (Hhi : 0 <= v / 2 ^ 32 < 2 ^ 32) by (Z.to_euclidean_division_equations; lia).
  assert (Hlo : 0 <= v mod 2 ^ 32 < 2 ^ 32) by (apply Z.mod_pos_bound; lia).
  rewrite (Z.mod_small (v / 2 ^ 32)), !u32_small by done.
  unfold u64. rewrite Z.mod_small by (rewrite Z.shiftl_mul_pow2; lia).
  rewrite Z.lor_comm, lor_shiftl by lia. Z.to_euclidean_division_equations; lia.
Qed.

Lemma entry_holds v st : length st = 224%nat -> entry_state (entry_bytes md5 v st) = st.
Proof.
  intros H. unfold entry_state, entry_bytes, entry_body. rewrite <- !app_assoc, !htonl_bytes.
  rewrite !(drop_app_ge (be32 _)), drop_app_length' by (rewrite ?length_replicate, ?be32_length; lia).
  by rewrite take_app_length'.
Qed.

(** Any part of the copies has whole entries only at their places. *)
Lemma copies_length n (ent : list Z) : length ent = ENTRY_LEN -> length (concat (replicate n ent)) = (ENTRY_LEN * n)%nat.
Proof. intros H. induction n as [|n IH]; cbn [replicate concat]; [simpl; lia|]. rewrite length_app, IH, H. lia. Qed.

Lemma copies_at k n (ent : list Z) i :
  length ent = ENTRY_LEN -> (ENTRY_LEN * (i + 1) <= length (take n (concat (replicate k ent))))%nat ->
  entry_at (take n (concat (replicate k ent))) i = ent.
Proof.
  intros He. rewrite length_take, copies_length by done. intros Hi.
  unfold entry_at.
  revert n i Hi. induction k as [|k IH]; intros n i Hi; [unfold ENTRY_LEN in *; lia|].
  cbn [replicate concat]. destruct i as [|i].
  - rewrite Nat.mul_0_r, drop_0, take_take, Nat.min_l by lia. by apply take_app_length'.
  - rewrite take_app_ge by lia. rewrite drop_app_ge by lia.
    replace (ENTRY_LEN * S i - length ent)%nat with (ENTRY_LEN * i)%nat by lia. apply IH. lia.
Qed.

Lemma copies_entries n v st v' st' :
  0 <= v < 2 ^ 64 -> length st = 224%nat ->
  has_entry (take n (concat (replicate NUM_COPIES (entry_bytes md5 v st)))) v' st' <->
  (ENTRY_LEN <=? n)%nat = true /\ v' = v /\ st' = st.
Proof.
  intros Hv Hst. pose proof (entry_length v st Hst) as Hl. rewrite Nat.leb_le.
  assert (Hlen : length (take n (concat (replicate NUM_COPIES (entry_bytes md5 v st)))) = (n `min` (ENTRY_LEN * 4))%nat).
  { by rewrite length_take, copies_length. }
  split.
  - intros (i & Hi & _ & Hs & Ht). rewrite copies_at in Hs, Ht by done.
    rewrite entry_version in Hs by done. rewrite entry_holds in Ht by done.
    split; [rewrite Hlen in Hi; unfold ENTRY_LEN in *; lia|done].
  - intros (Hn & -> & ->). exists 0%nat. rewrite Hlen. split; [unfold ENTRY_LEN in *; lia|].
    rewrite copies_at by (try done; rewrite Hlen; unfold ENTRY_LEN in *; lia).
    split; [by apply entry_verifies|]. by rewrite entry_version, entry_holds.
Qed.

(** ** Writing a file *)

(** mkstemp makes a name that is not in use. *)
Class Fresh (sys : system) := {
  mkstemp_fresh : forall d template suffix, mkstemp sys d template = Some suffix -> d !! (template +:+ suffix) = None
}.

Lemma fs_write_spec file bytes : forall w old,
  now w !! file = Some old ->
  now (fs_write w file bytes) = <[file := old ++ bytes]> (now w) /\
  within (fun d => exists n, d = <[file := old ++ take n bytes]> (now w)) w (fs_write w file bytes).
Proof.
  induction bytes as [|b bytes IH]; intros w old Hw.
  - rewrite app_nil_r, insert_id by done. split; [done|]. apply within_refl.
    exists 0%nat. by rewrite take_nil, app_nil_r, insert_id.
  - unfold fs_write. cbn [foldl]. fold (fs_write (fs_set w (<[file := default [] (now w !! file) ++ [b]]> (now w))) file bytes).
    rewrite Hw. cbn [default].
    set (w1 := fs_set w (<[file := old ++ [b]]> (now w))).
    destruct (IH w1 (old ++ [b])) as [E HW]; [unfold w1; simpl; by rewrite lookup_insert_eq|].
    assert (E1 : now w1 = <[file := old ++ [b]]> (now w)) by done. rewrite E1 in E, HW.
    rewrite insert_insert_eq, <- app_assoc in E. split; [exact E|].
    eapply within_trans; [apply (within_set (fun d => d = <[file := old ++ [b]]> (now w))); done|exact HW|..].
    + intros d ->. exists 1%nat. done.
    + intros d [n ->]. exists (S n). rewrite insert_insert_eq, <- app_assoc. done.
Qed.

(** Creating a file with the first [written] bytes of the copies. *)
Lemma new_file_spec w name p file v st written :
  now w !! file = None -> of_prefix name p file = true -> 0 <= v < 2 ^ 64 -> length st = 224%nat ->
  let copies := concat (replicate NUM_COPIES (entry_bytes md5 v st)) in
  let w1 := fs_write (fs_set w (<[file := []]> (now w))) file (take written copies) in
  adds name p file v st (ENTRY_LEN <=? written)%nat (now w) (now w1) /\
  delete file (now w1) = now w /\
  within (fun d => exists full, adds name p file v st full (now w) d) w w1.
Proof.
  intros Hn Hp Hv Hst copies w1.
  assert (HA : forall n, adds name p file v st (ENTRY_LEN <=? n)%nat (now w) (<[file := take n copies]> (now w))).
  { intros n. split; [exact Hn|]. split; [exact Hp|]. eexists. split; [done|]. intros v' st'. by apply copies_entries. }
  destruct (fs_write_spec file (take written copies) (fs_set w (<[file := []]> (now w))) []) as [E HW].
  { simpl. by rewrite lookup_insert_eq. }
  fold w1 in E, HW. cbn [now fs_set app] in E, HW. rewrite insert_insert_eq in E. split_and!.
  - rewrite E. apply HA.
  - rewrite E, delete_insert_id; done.
  - eapply within_trans; [apply (within_set (fun d => d = <[file := []]> (now w))); done|exact HW|..].
    + intros d ->. eexists. apply (HA 0%nat).
    + intros d [n ->]. rewrite insert_insert_eq, take_take. eexists. apply HA.
Qed.

(** The newest files of the other prefix stay. *)
Definition keeps_other (name p : string) (d d' : disk) : Prop :=
  forall q v file, own_prefix q -> q <> p -> newest d name q v file -> newest d' name q v file.

Lemma adds_keeps_other name p file v st full d d' : adds name p file v st full d d' -> keeps_other name p d d'.
Proof.
  intros (Hn & _ & bytes & -> & _) q v' f Hq Hne (b & st' & Hd & H). exists b, st'.
  rewrite lookup_insert_ne by congruence. done.
Qed.

Lemma prunes_keeps_other name p cur d d' : own_prefix p -> prunes name p cur d d' -> keeps_other name p d d'.
Proof. intros Hp Hpr q v f Hq Hne. by apply (prunes_newest name p q cur). Qed.

(** The cleanup after a file was written. *)
Lemma cleanup_after_write sys w name fs file v st w' fs' :
  own_prefix (fs_prefix fs) -> curr_file fs = Some file -> newest (now w) name (fs_prefix fs) v file ->
  stored (now w) name (Some (v, st)) -> cleanup_old_state sys w name fs = (w', fs') ->
  fs_prefix fs' = fs_prefix fs /\ within (fun d => stored d name (Some (v, st))) w w' /\
  (stored (now w') name (Some (v, st)) /\
   (exists file, curr_file fs' = Some file /\ newest (now w') name (fs_prefix fs) v file)) /\
  keeps_other name (fs_prefix fs) (now w) (now w').
Proof.
  intros Hp Hc Hn Hs Ec. apply (cleanup_spec _ _ _ _ _ _ file Hc) in Ec as (Hp2 & Hc2 & HW2).
  assert (HT : tracked (now w) name (fs_prefix fs) (stored_version (Some (v, st))) fs).
  { split; [done|]. intros st' _. by exists file. }
  assert (HS2 : forall d, prunes name (fs_prefix fs) file (now w) d -> stored d name (Some (v, st))).
  { intros d Hd. by apply (prunes_stored _ _ _ _ _ _ _ Hp HT Hc Hd). }
  split; [exact Hp2|]. split; [by apply (within_weaken _ _ _ _ HW2)|].
  split; [|eapply prunes_keeps_other; [exact Hp|exact (proj1 HW2)]].
  split; [apply HS2, HW2|]. exists file. split; [exact Hc2|].
  exact (prunes_newest name _ _ file _ _ v file Hp Hp (fun _ => eq_refl) (proj1 HW2) Hn).
Qed.

(** What one call leaves: old and new states of the register only; the new one
    after success, with the current file one of the newest. *)
Lemma write_cs_file_spec sys w fs name v st written r res w' fs' (HF : Fresh sys) :
  own_prefix (fs_prefix fs) -> 0 <= v < 2 ^ 64 -> length st = 224%nat ->
  supersedes v st r -> stored (now w) name r ->
  write_cs_file sys w fs name (entry_bytes md5 v st) written = (res, w', fs') ->
  fs_prefix fs' = fs_prefix fs /\
  within (fun d => stored d name r \/ stored d name (Some (v, st))) w w' /\
  (res = 0 /\ stored (now w') name (Some (v, st)) /\
     (exists file, curr_file fs' = Some file /\ newest (now w') name (fs_prefix fs) v file) /\
     keeps_other name (fs_prefix fs) (now w) (now w') \/
   res < 0 /\ fs' = fs /\ ((forall file, unlink_ok sys file = true) -> now w' = now w)).
Proof.
  intros Hp Hv Hst Hsup Hs. unfold write_cs_file.
  destruct (mkstemp sys (now w) (name_prefix name fs)) as [suffix|] eqn:Em.
  2:{ intros [= <- <- <-]. split; [done|]. split; [by apply within_refl; left|by right]. }
  apply mkstemp_fresh in Em. set (file := name_prefix name fs +:+ suffix) in *.
  destruct (new_file_spec w name (fs_prefix fs) file v st written Em (of_prefix_new _ _ _) Hv Hst) as (HA & HDel & HW).
  set (w1 := fs_write _ _ _) in *. rewrite copies_length by by apply entry_length.
  assert (HW1 : within (fun d => stored d name r \/ stored d name (Some (v, st))) w w1).
  { apply (within_weaken _ _ _ _ HW). intros d [full Ha].
    pose proof (adds_stored _ _ _ _ _ _ _ _ _ Hp Ha Hsup Hs) as Hd. destruct full; [by right|by left]. }
  destruct (Nat.ltb_spec written (ENTRY_LEN * NUM_COPIES)) as [Hw|Hw].
  { intros [= <- <- <-]. split; [done|]. destruct (unlink_ok sys file) eqn:Eu.
    - split; [|right; by split_and!]. eapply within_trans; [exact HW1|apply (within_set (fun d => stored d name r))|done|by left].
      by rewrite HDel.
    - split; [exact HW1|]. right. split_and!; [lia|done|]. intros Hu. by rewrite Hu in Eu. }
  destruct (Nat.leb_spec ENTRY_LEN written) as [_|Hx]; [|unfold ENTRY_LEN, NUM_COPIES in *; lia].
  pose proof (adds_stored _ _ _ _ _ _ _ _ _ Hp HA Hsup Hs) as Hs1. cbn in Hs1.
  pose proof (adds_in_prefix _ _ _ _ _ _ _ HA) as Hn1.
  destruct (CLEANUP_INTERVAL <? _).
  2:{ intros [= <- <- <-]. split; [done|]. split; [exact HW1|]. left. split; [done|]. split; [done|].
      split; [by exists file|by eapply adds_keeps_other]. }
  destruct (cleanup_old_state sys w1 name _) as [w2 fs2] eqn:Ec. intros [= <- <- <-].
  eapply cleanup_after_write in Ec as (Hp2 & HW2 & Hs2 & HK2); [|done..].
  split; [exact Hp2|]. split; [eapply within_trans; [exact HW1|exact HW2|done|by right]|]. left.
  split; [done|]. split; [apply Hs2|]. split; [apply Hs2|].
  intros q v' f Hq Hne Hf. apply HK2; [done..|]. by eapply adds_keeps_other.
Qed.

(** ** The component *)

(** The memory of a process and what the disk stores: no version on the disk is
    ahead of the one in memory. *)
Definition in_step (d : disk) (cs : CSState) (r : option (Z * list Z)) : Prop :=
  fs_prefix (file_a cs) = "a" /\ fs_prefix (file_b cs) = "b" /\ stored d (cs_name cs) r /\
  stored_version r <= state_version cs < 2 ^ 64.

Lemma stored_version_nonneg d name r : stored d name r -> 0 <= stored_version r.
Proof. destruct r as [[v st]|]; cbn; [intros [H _]; lia|lia]. Qed.

Lemma padded_length state len : 0 < len <= 224 -> len <= zlen state -> length (padded state len) = 224%nat.
Proof.
  intros H1 H2. unfold padded, CRITICAL_STATE_MAX_LEN. rewrite length_app, length_take, length_replicate. lia.
Qed.

Lemma newest_stored d name p v st file :
  own_prefix p -> stored d name (Some (v, st)) -> newest d name p v file -> in_prefix d name p v st.
Proof.
  intros Hp (_ & _ & Hmax) (bytes & st' & Hd & Hf & He).
  assert (Hi : in_prefix d name p v st') by by exists file, bytes.
  destruct (Hmax v st') as [|[_ <-]]; [|lia|done]. apply on_disk_prefix. by exists p.
Qed.

(** The two files of a save. *)
Lemma write_both_spec sys w cs v st wa wb r ra w1 a rb w2 b (HF : Fresh sys) :
  in_step (now w) cs r -> state_version cs < v < 2 ^ 64 -> length st = 224%nat ->
  write_cs_file sys w (file_a cs) (cs_name cs) (entry_bytes md5 v st) wa = (ra, w1, a) ->
  write_cs_file sys w1 (file_b cs) (cs_name cs) (entry_bytes md5 v st) wb = (rb, w2, b) -> ra = 0 ->
  within (fun d => stored d (cs_name cs) r \/ stored d (cs_name cs) (Some (v, st))) w w2 /\
  stored (now w2) (cs_name cs) (Some (v, st)) /\ fs_prefix a = "a" /\ fs_prefix b = "b" /\
  (rb < 0 \/ rb = 0 /\ in_prefix (now w2) (cs_name cs) "a" v st /\ in_prefix (now w2) (cs_name cs) "b" v st).
Proof.
  intros (Ha & Hb & Hs & Hv0) Hv Hst E1 E2 ->. pose proof (stored_version_nonneg _ _ _ Hs) as H0.
  apply (write_cs_file_spec _ _ _ _ _ _ _ r _ _ _ HF) in E1 as (Pa & W1 & C1);
    [|rewrite Ha; by left|lia|done|split; [lia|left; lia]|done]. rewrite Ha in Pa, C1.
  destruct C1 as [(_ & S1 & (fa & Ca & Na) & _)|(? & _)]; [|lia].
  apply (write_cs_file_spec _ _ _ _ _ _ _ (Some (v, st)) _ _ _ HF) in E2 as (Pb & W2 & C2);
    [|rewrite Hb; by right|lia|done|split; [lia|by right]|done]. rewrite Hb in Pb, C2.
  assert (HS : stored (now w2) (cs_name cs) (Some (v, st))) by (destruct (proj1 W2); done).
  split; [eapply within_trans; [exact W1|exact W2|done|by intros d [H|H]; right]|].
  split; [exact HS|]. split; [exact Pa|]. split; [exact Pb|].
  destruct C2 as [(-> & _ & (fb & Cb & Nb) & K)|(? & _)]; [right|by left]. split; [done|].
  apply (K "a" v fa) in Na; [|by left|done].
  split; eapply newest_stored; try done; [by left|by right].
Qed.

(** What a save leaves in the process: [cs'] from [cs]. *)
Definition saved (cs cs' : CSState) (v : Z) (st : list Z) : Prop :=
  cs_name cs' = cs_name cs /\ state_version cs' = v /\ cs_state cs' = st /\ cs_md5 cs' = md5 st.

(** A save that takes place on a process with a critical state. *)
Definition may_save (p : ProcessData) (d : disk) (state : list Z) (len : Z) (r : option (Z * list Z)) : Prop :=
  wd_notsat p = false /\ in_step d (criticalState p) r /\ state_version (criticalState p) + 1 < 2 ^ 64 /\
  0 < len <= 224 /\ len <= zlen state.

Definition save_result (p : ProcessData) (state : list Z) (len : Z) : Z * list Z :=
  (state_version (criticalState p) + 1, padded state len).

Lemma save_spec sys w p state len wa wb r code w' p' (HF : Fresh sys) :
  may_save p (now w) state len r ->
  PROC_save_critical_state md5 sys w (Some p) state len wa wb = (code, w', p') ->
  let cs := criticalState p in
  let '(v, st) := save_result p state len in
  within (fun d => stored d (cs_name cs) r \/ stored d (cs_name cs) (Some (v, st))) w w' /\
  exists cs', p' = Some (Process false cs') /\
  (code = len /\ saved cs cs' v st /\ in_step (now w') cs' (Some (v, st)) /\
     (dirty cs' = false -> in_prefix (now w') (cs_name cs) "a" v st /\ in_prefix (now w') (cs_name cs) "b" v st) \/
   code = -3 /\ cs_name cs' = cs_name cs /\ cs_state cs' = cs_state cs /\ cs_md5 cs' = cs_md5 cs /\
     (exists r', (r' = r \/ r' = Some (v, st)) /\ in_step (now w') cs' r') /\
     ((forall file, unlink_ok sys file = true) -> in_step (now w') cs' r)).
Proof.
  intros (Hwd & HI & Hmax & Hlen & Hst). unfold PROC_save_critical_state, proc_get_cs_state, save_result. rewrite Hwd.
  set (cs := criticalState p) in *. pose proof HI as (Ha & Hb & Hs & Hv). pose proof (stored_version_nonneg _ _ _ Hs) as H0.
  assert (Eu : u64 len = len) by (apply Z.mod_small; lia). rewrite Eu.
  destruct (Z.ltb_spec CRITICAL_STATE_MAX_LEN len) as [?|_]; [unfold CRITICAL_STATE_MAX_LEN in *; lia|].
  destruct (Z.leb_spec len 0) as [?|_]; [lia|]. cbn [orb].
  assert (Ev : u64 (state_version cs + 1) = state_version cs + 1) by (apply Z.mod_small; lia). rewrite Ev.
  set (v := state_version cs + 1) in *. set (st := padded state len).
  assert (Hl : length st = 224%nat) by by apply padded_length.
  destruct (write_cs_file sys w (file_a cs) _ _ wa) as [[ra w1] a] eqn:E1.
  pose proof E1 as (Pa & W1 & C1)%(write_cs_file_spec _ _ _ _ _ _ _ r _ _ _ HF);
    [|rewrite Ha; by left|lia|done|split; [lia|left; lia]|done].
  destruct C1 as [(-> & _)|(Hra & -> & Hu)].
  - change (0 <? 0) with false. cbn iota.
    destruct (write_cs_file sys w1 (file_b cs) _ _ wb) as [[rb w2] b] eqn:E2. intros [= <- <- <-].
    assert (Hvv : state_version cs < v < 2 ^ 64) by lia.
    destruct (write_both_spec _ _ _ _ _ _ _ r _ _ _ _ _ _ HF HI Hvv Hl E1 E2 eq_refl) as (W & S & Pa' & Pb & C).
    split; [exact W|]. eexists. split; [done|]. left. split; [done|]. split; [done|].
    split; [split_and!; [done..| |]; cbn; lia|]. cbn [dirty].
    destruct C as [C|(-> & C)]; [|done]. destruct (Z.ltb_spec rb 0); [done|lia].
  - destruct (Z.ltb_spec ra 0); [|lia]. intros [= <- <- <-]. split; [exact W1|]. eexists. split; [done|]. right.
    assert (HI' : forall d r', (r' = r \/ r' = Some (v, st)) -> stored d (cs_name cs) r' ->
              in_step d (with_version (with_files cs (file_a cs) (file_b cs)) v) r').
    { intros d r' Hr' Hd. split_and!; [done..| |]; cbn [state_version with_version]; [|lia]. destruct Hr' as [-> | ->]; [lia|cbn; lia]. }
    split_and!; [done..| |].
    + destruct (proj1 W1) as [H1|H1]; [exists r|exists (Some (v, st))]; (split; [tauto|apply HI'; tauto]).
    + intros Hk. apply HI'; [by left|]. by rewrite (Hu Hk).
Qed.

(** ** Restart *)

Lemma entry_seq_range ent : 0 <= entry_seq ent < 2 ^ 64.
Proof.
  unfold entry_seq. generalize (htonl_range (le_value (take 4 ent))), (htonl_range (le_value (take 4 (drop 4 ent)))).
  generalize (htonl (le_value (take 4 ent))), (htonl (le_value (take 4 (drop 4 ent)))). intros hi lo Hhi Hlo.
  unfold u64. rewrite Z.mod_small by (rewrite Z.shiftl_mul_pow2; lia). rewrite Z.lor_comm, lor_shiftl by lia. lia.
Qed.

Lemma stored_version_range d name r : stored d name r -> 0 <= stored_version r < 2 ^ 64.
Proof.
  destruct r as [[v st]|]; [|cbn; lia]. cbn [stored stored_version fmap option_fmap option_map default fst].
  intros (_ & H & _). apply on_disk_prefix in H as (p & _ & f & bytes & _ & _ & i & _ & _ & <- & _). apply entry_seq_range.
Qed.

Lemma cleanup_tracked sys w name fs r w' fs' :
  own_prefix (fs_prefix fs) -> tracked (now w) name (fs_prefix fs) (stored_version r) fs ->
  stored (now w) name r -> cleanup_old_state sys w name fs = (w', fs') ->
  fs_prefix fs' = fs_prefix fs /\
  within (fun d => stored d name r /\
    forall q fs2, own_prefix q -> q <> fs_prefix fs -> tracked (now w) name q (stored_version r) fs2 ->
                  tracked d name q (stored_version r) fs2) w w'.
Proof.
  intros Hp HT Hs. destruct (curr_file fs) as [cur|] eqn:Hc.
  - intros (Hp2 & _ & HW)%(cleanup_spec _ _ _ _ _ _ cur Hc). split; [exact Hp2|].
    apply (within_weaken _ _ _ _ HW). intros d Hd. split; [by eapply prunes_stored|].
    intros q fs2 Hq Hne. by apply (prunes_tracked name (fs_prefix fs) q cur).
  - unfold cleanup_old_state. rewrite Hc. intros [= <- <-]. split; [done|]. by apply within_refl.
Qed.

Lemma init_spec sys w name r cs w' (HR : Reads sys) :
  stored (now w) name r -> critical_state_init md5 sys w name = (cs, w') ->
  within (fun d => stored d name r) w w' /\
  in_step (now w') cs r /\ cs_name cs = name /\ dirty cs = false /\
  cs_state cs = from_option snd (replicate 224 0) r /\ cs_md5 cs = from_option (md5 ∘ snd) (replicate 16 0) r.
Proof.
  intros Hs. unfold critical_state_init.
  match goal with |- context [load_critical_state md5 sys (now w) ?c] => set (cs0 := c) end.
  destruct (load_spec sys (now w) cs0 r HR eq_refl eq_refl Hs) as (a & b & -> & Ta & Tb). cbn [file_a file_b].
  change (cs_name cs0) with name in *. pose proof (stored_version_range _ _ _ Hs) as Hv.
  destruct (cleanup_old_state sys w name a) as [w1 a'] eqn:E1.
  destruct (cleanup_old_state sys w1 name b) as [w2 b'] eqn:E2. intros [= <- <-].
  pose proof (proj1 Ta) as Pa. pose proof (proj1 Tb) as Pb. rewrite <- Pa in Ta. rewrite <- Pb in Tb.
  apply (cleanup_tracked _ _ _ _ r) in E1 as (Pa' & W1); [|rewrite Pa; by left|done|done].
  pose proof (proj1 W1) as [S1 K1].
  apply (cleanup_tracked _ _ _ _ r) in E2 as (Pb' & W2); [|rewrite Pb; by right| |done].
  2:{ apply K1; [rewrite Pb; by right|by rewrite Pa, Pb|done]. }
  split; [eapply within_trans; [exact W1|exact W2|by intros d []..]|].
  split; [|done]. split; [cbn; congruence|]. split; [cbn; congruence|]. split; [apply W2|]. cbn [state_version with_files]. lia.
Qed.

(** ** Reading back *)

Definition read_back (len : Z) (st : list Z) : option (Z * list Z) :=
  Some (Z.min len 224, take (Z.to_nat (Z.min len 224)) st).

Lemma copy_out_spec cs len : 0 <= len -> copy_out cs len = read_back len (cs_state cs).
Proof.
  intros Hl. unfold copy_out, read_back, CRITICAL_STATE_MAX_LEN. destruct (Z.ltb_spec 224 len).
  - by rewrite Z.min_r by lia.
  - rewrite Z.min_l by lia. destruct (Z.ltb_spec len 0); [lia|done].
Qed.

(** Memory that is clean and checks is what is read; else what is stored is. *)
Lemma read_spec sys d cs len r (HR : Reads sys) :
  0 <= len -> in_step d cs r ->
  (PROC_read_critical_state md5 sys d (Some (Process false cs)) len).1 =
  match dirty cs, bool_decide (md5 (cs_state cs) = cs_md5 cs), r with
  | false, true, _ => read_back len (cs_state cs)
  | _, _, Some (_, st) => read_back len st
  | _, true, None => read_back len (cs_state cs)
  | _, false, None => Some (-4, [])
  end.
Proof.
  intros Hl (Ha & Hb & Hs & _). unfold PROC_read_critical_state, proc_get_cs_state. cbn [wd_notsat criticalState].
  destruct (load_spec sys d cs r HR Ha Hb Hs) as (a & b & El & [Ta _] & [Tb _]). rewrite El.
  match type of El with _ = ?c => destruct (load_spec sys d c r HR Ta Tb Hs) as (a' & b' & El' & _) end.
  destruct (dirty cs), r as [[v st]|], (bool_decide (md5 (cs_state cs) = cs_md5 cs)) eqn:E;
    repeat (cbn [from_option cs_state cs_md5 compose snd negb fst] in *;
            rewrite ?E, ?El', ?El, ?(bool_decide_eq_true_2 _ (eq_refl (md5 st)))); try done;
    by rewrite copy_out_spec.
Qed.

Lemma load_in_step sys d cs r (HR : Reads sys) : in_step d cs r ->
  in_step d (load_critical_state md5 sys d cs) r /\ cs_name (load_critical_state md5 sys d cs) = cs_name cs.
Proof.
  intros (Ha & Hb & Hs & _). destruct (load_spec sys d cs r HR Ha Hb Hs) as (a & b & -> & [Ta _] & [Tb _]).
  pose proof (stored_version_range _ _ _ Hs). split; [|done]. split_and!; [done..| |]; cbn [state_version]; lia.
Qed.

Lemma read_in_step sys d cs len r (HR : Reads sys) : in_step d cs r ->
  exists cs', (PROC_read_critical_state md5 sys d (Some (Process false cs)) len).2 = Some (Process false cs') /\
              in_step d cs' r /\ cs_name cs' = cs_name cs.
Proof.
  intros HI. unfold PROC_read_critical_state, proc_get_cs_state. cbn [wd_notsat criticalState].
  set (cs1 := if dirty cs then _ else cs).
  assert (H1 : in_step d cs1 r /\ cs_name cs1 = cs_name cs).
  { unfold cs1. destruct (dirty cs); [by apply load_in_step|done]. }
  set (cs2 := if bool_decide (md5 (cs_state cs1) = _) then cs1 else _).
  assert (H2 : in_step d cs2 r /\ cs_name cs2 = cs_name cs).
  { unfold cs2. destruct (bool_decide _); [done|]. rewrite <- (proj2 H1). by apply load_in_step, H1. }
  exists cs2. by destruct (negb _).
Qed.

(** ** A life with power failures

    All histories of a process on one directory: saves that are acknowledged or
    fail, reads, restarts, and power failures at any point of a save.  [acked]
    is the last acknowledged save, [tried] the saves after it that were not. *)
Inductive life (name : string) : fsys -> CSState -> option (Z * list Z) -> list (Z * list Z) -> Prop :=
| life_first sys cs w' : Reads sys ->
    critical_state_init md5 sys (fs_start ∅) name = (cs, w') -> life name w' cs None []
| life_restart sys w cs acked tried cs' w' : life name w cs acked tried -> Reads sys ->
    critical_state_init md5 sys (fs_start (now w)) name = (cs', w') -> life name w' cs' acked tried
| life_read sys w cs acked tried len out cs' : life name w cs acked tried -> Reads sys ->
    PROC_read_critical_state md5 sys (now w) (Some (Process false cs)) len = (out, Some (Process false cs')) ->
    life name w cs' acked tried
| life_saved sys w cs acked tried state len wa wb w' cs' : life name w cs acked tried -> Fresh sys ->
    state_version cs + 1 < 2 ^ 64 -> 0 < len <= 224 -> len <= zlen state ->
    PROC_save_critical_state md5 sys w (Some (Process false cs)) state len wa wb = (len, w', Some (Process false cs')) ->
    life name w' cs' (Some (save_result (Process false cs) state len)) []
| life_failed sys w cs acked tried state len wa wb w' cs' : life name w cs acked tried -> Fresh sys ->
    state_version cs + 1 < 2 ^ 64 -> 0 < len <= 224 -> len <= zlen state ->
    PROC_save_critical_state md5 sys w (Some (Process false cs)) state len wa wb = (-3, w', Some (Process false cs')) ->
    life name w' cs' acked (save_result (Process false cs) state len :: tried)
| life_power sys sys' w cs acked tried state len wa wb code w1 proc d cs' w' : life name w cs acked tried ->
    Fresh sys -> Reads sys' -> state_version cs + 1 < 2 ^ 64 -> 0 < len <= 224 -> len <= zlen state ->
    PROC_save_critical_state md5 sys (fs_start (now w)) (Some (Process false cs)) state len wa wb = (code, w1, proc) ->
    d ∈ history w1 -> critical_state_init md5 sys' (fs_start d) name = (cs', w') ->
    life name w' cs' acked (save_result (Process false cs) state len :: tried).

Lemma tried_or_acked (r acked : option (Z * list Z)) (tried : list (Z * list Z)) r' (new : Z * list Z) :
  (r = acked \/ exists x, x ∈ tried /\ r = Some x) -> r' = r \/ r' = Some new ->
  r' = acked \/ exists x, x ∈ new :: tried /\ r' = Some x.
Proof.
  intros H [-> | ->]; [|right; exists new; split; [by left|done]].
  destruct H as [H|(x & Hx & H)]; [by left|right]. exists x. split; [by right|done].
Qed.

Lemma may_save_intro cs d state len r :
  in_step d cs r -> state_version cs + 1 < 2 ^ 64 -> 0 < len <= 224 -> len <= zlen state ->
  may_save (Process false cs) d state len r.
Proof. by intros. Qed.

(** What is stored in a life: the last acknowledged save or one tried since. *)
Lemma life_stored name w cs acked tried : life name w cs acked tried ->
  exists r, (r = acked \/ exists x, x ∈ tried /\ r = Some x) /\ in_step (now w) cs r /\ cs_name cs = name.
Proof.
  induction 1 as
    [sys cs w' HR E
    |sys w cs acked tried cs' w' _ (r & Hr & HI & Hn) HR E
    |sys w cs acked tried len out cs' _ (r & Hr & HI & Hn) HR E
    |sys w cs acked tried state len wa wb w' cs' _ (r & Hr & HI & Hn) HF Hv Hl Hs E
    |sys w cs acked tried state len wa wb w' cs' _ (r & Hr & HI & Hn) HF Hv Hl Hs E
    |sys sys' w cs acked tried state len wa wb code w1 proc d cs' w' _ (r & Hr & HI & Hn) HF HR Hv Hl Hs E Hd Ei].
  - exists None. split; [by left|]. apply (init_spec _ _ _ None _ _ HR) in E as (_ & HI & Hn & _); [done|].
    intros v st [(f & b & Hb & _)|(f & b & Hb & _)]; cbn in Hb; by rewrite lookup_empty in Hb.
  - exists r. split; [exact Hr|]. apply (init_spec _ _ _ r _ _ HR) in E as (_ & HI' & Hn' & _); [done|].
    rewrite <- Hn. apply HI.
  - exists r. split; [exact Hr|]. destruct (read_in_step sys (now w) cs len r HR HI) as (cs2 & E2 & HI2 & Hn2).
    rewrite E in E2. injection E2 as ->. split; [done|congruence].
  - apply (save_spec _ _ _ _ _ _ _ r _ _ _ HF) in E as (_ & cs2 & [= <-] & C); [|by apply may_save_intro].
    destruct C as [(_ & HS & HI' & _)|(? & _)]; [|lia]. eexists. split; [by left|]. split; [exact HI'|].
    by rewrite (proj1 HS).
  - apply (save_spec _ _ _ _ _ _ _ r _ _ _ HF) in E as (_ & cs2 & [= <-] & C); [|by apply may_save_intro].
    destruct C as [(? & _)|(_ & Hn' & _ & _ & (r' & Hr' & HI') & _)]; [lia|]. exists r'. split; [|split; [done|by rewrite Hn']].
    apply (tried_or_acked r acked tried); [exact Hr|exact Hr'].
  - apply (save_spec _ _ _ _ _ _ _ r _ _ _ HF) in E as ([_ HW] & _); [|by apply may_save_intro].
    assert (Hd' : exists r', (r' = r \/ r' = Some (save_result (Process false cs) state len)) /\ stored d name r').
    { destruct (HW d Hd) as [[-> |[]%not_elem_of_nil]%elem_of_cons|[H|H]]; rewrite <- Hn.
      - exists r. split; [by left|apply HI].
      - exists r. by split; [left|].
      - eexists. by split; [right|]. }
    destruct Hd' as (r' & Hr' & Hs'). exists r'. split; [by apply (tried_or_acked r acked tried)|].
    apply (init_spec _ _ _ r' _ _ HR) in Ei as (_ & HI' & Hn' & _); done.
Qed.

(** The digest of no state is not what a process starts with. *)
Definition zero_fails : Prop := md5 (replicate 224 0) <> replicate 16 0.

Lemma restart_reads sys d name r cs w' n (HR : Reads sys) :
  stored d name r -> 0 <= n -> zero_fails -> critical_state_init md5 sys (fs_start d) name = (cs, w') ->
  (PROC_read_critical_state md5 sys (now w') (Some (Process false cs)) n).1 =
  from_option (read_back n ∘ snd) (Some (-4, [])) r.
Proof.
  intros Hs Hn Hz E. apply (init_spec _ _ _ r _ _ HR) in E as (_ & HI & _ & Hd & Hc & Hm); [|exact Hs].
  rewrite (read_spec _ _ _ _ r HR Hn HI), Hd, Hc, Hm. destruct r as [[v st]|]; cbn [from_option compose snd].
  - by rewrite (bool_decide_eq_true_2 _ eq_refl).
  - by rewrite bool_decide_eq_false_2.
Qed.

(** C11. Saved state survives. The histories are those of one process on its
    own directory, which starts empty and which nothing else writes to
    ([life]): saves of 1 to 224 bytes that are acknowledged or fail, with any
    short write, reads, restarts, and power failures at any byte of a save;
    reading the directory and the files always works ([Reads]), in the history
    and afterwards, and the version stays below 2^64. After such a history a
    restart, with a request for at least 0 bytes, reads the last acknowledged
    state or one whose save was tried after it. With a digest that is not zero
    on 224 zero bytes, as that of md5.c, and none acknowledged or tried, there
    is nothing to read (-4). That reads work is needed: where one fails
    between two saves an acknowledged save is lost ([critical_lost_update]).
    *)
Theorem critical_durable name w cs acked tried sys cs' w' n :
  life name w cs acked tried -> Reads sys -> 0 <= n -> zero_fails ->
  critical_state_init md5 sys (fs_start (now w)) name = (cs', w') ->
  exists r, (r = acked \/ exists x, x ∈ tried /\ r = Some x) /\
    (PROC_read_critical_state md5 sys (now w') (Some (Process false cs')) n).1 =
    from_option (read_back n ∘ snd) (Some (-4, [])) r.
Proof.
  intros HL HR Hn Hz E. destruct (life_stored _ _ _ _ _ HL) as (r & Hr & HI & Hname).
  exists r. split; [exact Hr|]. eapply restart_reads; try done. rewrite <- Hname. apply HI.
Qed.

(** One file lost or damaged beyond its digests. *)
Definition damaged (d d' : disk) (file : string) : Prop :=
  (forall f, f <> file -> d' !! f = d !! f) /\
  (forall bytes v st, d' !! file = Some bytes -> ~ has_entry bytes v st).

Lemma damaged_in_prefix d d' file name p v st :
  damaged d d' file -> in_prefix d' name p v st -> in_prefix d name p v st.
Proof.
  intros [H1 H2] (f & b & Hd & Hf & He). destruct (decide (f = file)) as [-> |Hne]; [by destruct (H2 b v st)|].
  exists f, b. by rewrite <- H1.
Qed.

Lemma damaged_stored d d' file name v st :
  damaged d d' file -> stored d name (Some (v, st)) ->
  in_prefix d name "a" v st -> in_prefix d name "b" v st -> stored d' name (Some (v, st)).
Proof.
  intros HD' (Hv & _ & Hmax) (fa & ba & Hda & Hfa & Hea) (fb & bb & Hdb & Hfb & Heb).
  split; [exact Hv|]. split.
  - destruct (decide (fa = file)) as [<-|Hne].
    + right. exists fb, bb. rewrite (proj1 HD'); [done|]. intros ->. by eapply of_prefix_disjoint.
    + left. exists fa, ba. by rewrite (proj1 HD').
  - intros v' st' [H|H]; apply Hmax; [left|right]; by eapply damaged_in_prefix.
Qed.

(** After a save that wrote both files, the loss of or damage to any one
    file of the directory does not lose the state: a restart reads the bytes
    saved. *)
Theorem critical_redundant sys sys' w p state len wa wb r w' cs' file d cs2 w2 :
  Fresh sys -> Reads sys' -> zero_fails -> may_save p (now w) state len r ->
  PROC_save_critical_state md5 sys w (Some p) state len wa wb = (len, w', Some (Process false cs')) ->
  dirty cs' = false -> damaged (now w') d file ->
  critical_state_init md5 sys' (fs_start d) (cs_name (criticalState p)) = (cs2, w2) ->
  (PROC_read_critical_state md5 sys' (now w2) (Some (Process false cs2)) len).1 =
  Some (len, take (Z.to_nat len) state).
Proof.
  intros HF HR Hz HM E Hc Hd Ei. pose proof HM as (_ & _ & _ & Hl & Hs).
  apply (save_spec _ _ _ _ _ _ _ r _ _ _ HF HM) in E as (_ & cs3 & [= <-] & C).
  destruct C as [(_ & HS & HI & HB)|(? & _)]; [|lia]. destruct (HB Hc) as [Ba Bb].
  assert (Hst : stored d (cs_name (criticalState p)) (Some (save_result p state len))).
  { eapply damaged_stored; try done. rewrite <- (proj1 HS). apply HI. }
  rewrite (restart_reads sys' _ _ _ _ _ len HR Hst ltac:(lia) Hz Ei). cbn [from_option compose snd save_result].
  unfold read_back, padded. rewrite Z.min_l by lia. do 2 f_equal.
  rewrite take_app_le by (rewrite length_take; lia). rewrite take_take. f_equal. lia.
Qed.

(** The error codes: a length that is not of 1 to 224, a NULL process and
    one without a watchdog fail with their code and change nothing; so does
    reading for a process without critical state. *)
Theorem critical_errors sys w proc state len wa wb :
  - 2 ^ 31 <= len < 2 ^ 31 ->
  (len <= 0 \/ 224 < len -> PROC_save_critical_state md5 sys w proc state len wa wb = (-1, w, proc)) /\
  (0 < len <= 224 -> PROC_save_critical_state md5 sys w None state len wa wb = (-2, w, None)) /\
  (0 < len <= 224 -> proc <> None -> proc_get_cs_state proc = None ->
     PROC_save_critical_state md5 sys w proc state len wa wb = (-10, w, proc)) /\
  (proc_get_cs_state proc = None ->
     PROC_read_critical_state md5 sys (now w) proc len = (Some (-10, []), proc)).
Proof.
  intros Hr. unfold PROC_save_critical_state, PROC_read_critical_state, CRITICAL_STATE_MAX_LEN, u64. split_and!.
  - intros [H|H].
    + assert (Hb : (len <=? 0) = true) by lia. by rewrite Hb, orb_true_r.
    + rewrite Z.mod_small by lia. by assert (Hb : (224 <? len) = true) by lia; rewrite Hb.
  - intros H. rewrite Z.mod_small by lia. by replace ((224 <? len) || (len <=? 0)) with false by lia.
  - intros H Hp Hg. rewrite Z.mod_small by lia. replace ((224 <? len) || (len <=? 0)) with false by lia.
    destruct proc as [q|]; [by rewrite Hg|done].
  - intros Hg. destruct proc as [q|]; [by rewrite Hg|done].
Qed.
End Stored.

(** ** A system *)

(** Reads that work unless [dir_ok] is false; new names end in a digit. *)
Definition plain_system (dir_ok : bool) : system := {|
  readdir d := (map_to_list d).*1;
  mkstemp d template :=
    find (fun suffix => bool_decide (d !! (template +:+ suffix) = None)) ["0"; "1"; "2"; "3"; "4"; "5"; "6"; "7"];
  opendir_ok := dir_ok;
  reading _ := ReadOk;
  unlink_ok _ := true
|}.

#[export] Instance plain_reads : Reads (plain_system true).
Proof.
  split; [done|done|]. intros d file. cbn. rewrite list_elem_of_fmap. split.
  - intros ([f b] & -> & H%elem_of_map_to_list). by exists b.
  - intros [b H]. exists (file, b). by rewrite elem_of_map_to_list.
Qed.

#[export] Instance plain_fresh ok : Fresh (plain_system ok).
Proof. split. intros d template suffix H. apply find_some in H as [_ H]. by apply bool_decide_eq_true_1 in H. Qed.

(** The digest of md5.c, and a first start and a save of three bytes. *)
Definition md5_c : list Z -> list Z := md5_of (replicate 64 0).
Definition first_start (name : string) : CSState * fsys :=
  critical_state_init md5_c (plain_system true) (fs_start ∅) name.
Definition save3 (wb : nat) (w : fsys) (cs : CSState) (state : list Z) : Z * fsys * option ProcessData :=
  PROC_save_critical_state md5_c (plain_system true) w (Some (Process false cs)) state 3 1024 wb.

Definition cs_of (p : option ProcessData) (cs : CSState) : CSState := from_option criticalState cs p.

Definition saved_once (name : string) : Z * fsys * CSState :=
  let '(cs, w) := first_start name in
  let '(code, w1, p) := save3 1024 (fs_start (now w)) cs [1; 2; 3] in (code, fs_start (now w1), cs_of p cs).

Definition restart_read (name : string) (d : disk) : option (Z * list Z) :=
  let '(cs, w) := critical_state_init md5_c (plain_system true) (fs_start d) name in
  (PROC_read_critical_state md5_c (plain_system true) (now w) (Some (Process false cs)) 3).1.

(** A read that cannot open the directory, after a save that left the process
    dirty, resets the version: the next save is acknowledged, yet a restart
    reads the one before. *)
Example critical_lost_update :
  let '(_, w0, cs0) := saved_once "p" in
  let '(code1, w1, p1) := save3 0 w0 cs0 [4; 5; 6] in
  let '(_, p2) := PROC_read_critical_state md5_c (plain_system false) (now w1) p1 3 in
  let '(code2, w2, _) := save3 1024 w1 (cs_of p2 cs0) [7; 8; 9] in
  code1 = 3 /\ code2 = 3 /\ restart_read "p" (now w2) = Some (3, [4; 5; 6]).
Proof. vm_compute. done. Qed.

(** The files of a process [p.a] have the prefix of a process [p], which reads
    them as its own. *)
Example critical_name_clash :
  let '(code, w, _) := saved_once "p.a" in code = 3 /\ restart_read "p" (now w) = Some (3, [1; 2; 3]).
Proof. vm_compute. done. Qed.

(** ** Witnesses *)

Definition start_p : CSState * fsys := first_start "p".
Definition save_p : Z * fsys * option ProcessData := save3 1024 start_p.2 start_p.1 [1; 2; 3].
Definition cs_p : CSState := cs_of save_p.2 start_p.1.

Lemma save_p_runs :
  PROC_save_critical_state md5_c (plain_system true) start_p.2 (Some (Process false start_p.1)) [1; 2; 3] 3 1024 1024 =
  (3, save_p.1.2, Some (Process false cs_p)).
Proof.
  assert (H1 : save_p.1.1 = 3) by (vm_compute; reflexivity).
  assert (H2 : save_p.2 = Some (Process false cs_p)) by (vm_compute; reflexivity).
  change (save_p = (3, save_p.1.2, Some (Process false cs_p))). rewrite <- H2, <- H1.
  generalize save_p. by intros [[c w] q].
Qed.

Lemma start_p_name : cs_name start_p.1 = "p".
Proof. vm_compute. reflexivity. Qed.

Lemma zero_fails_md5 : zero_fails md5_c.
Proof. vm_compute. discriminate. Qed.

Lemma start_p_step : in_step md5_c (now start_p.2) start_p.1 None.
Proof.
  pose proof (surjective_pairing start_p) as E. unfold start_p at 1, first_start in E.
  eapply init_spec in E; [|typeclasses eauto|]; [by destruct E as (_ & H & _)|].
  intros v st [(f & b & Hb & _)|(f & b & Hb & _)]; cbn in Hb; by rewrite lookup_empty in Hb.
Qed.

Lemma critical_durable_witness :
  let restarted := critical_state_init md5_c (plain_system true) (fs_start (now save_p.1.2)) "p" in
  exists r, (r = Some (save_result (Process false start_p.1) [1; 2; 3] 3) \/ exists x, x ∈ [] /\ r = Some x) /\
    (PROC_read_critical_state md5_c (plain_system true) (now restarted.2) (Some (Process false restarted.1)) 3).1 =
    from_option (read_back 3 ∘ snd) (Some (-4, [])) r.
Proof.
  intros restarted.
  apply (critical_durable md5_c "p" save_p.1.2 cs_p (Some (save_result (Process false start_p.1) [1; 2; 3] 3)) []
           (plain_system true) restarted.1 restarted.2 3); [|typeclasses eauto|lia|exact zero_fails_md5|apply surjective_pairing].
  apply (life_saved md5_c "p" (plain_system true) start_p.2 start_p.1 None [] [1; 2; 3] 3 1024 1024);
    [|typeclasses eauto|vm_compute; done|lia|simpl; lia|exact save_p_runs].
  apply (life_first md5_c "p" (plain_system true)); [typeclasses eauto|]. exact (surjective_pairing start_p).
Defined.

Lemma critical_redundant_witness :
  let damaged_disk := delete "crit-state-p.a.0" (now save_p.1.2) in
  let restarted := critical_state_init md5_c (plain_system true) (fs_start damaged_disk) "p" in
  (PROC_read_critical_state md5_c (plain_system true) (now restarted.2) (Some (Process false restarted.1)) 3).1 =
  Some (3, take (Z.to_nat 3) [1; 2; 3]).
Proof.
  intros damaged_disk restarted.
  apply (critical_redundant md5_c (plain_system true) (plain_system true) start_p.2 (Process false start_p.1) [1; 2; 3] 3
           1024 1024 None save_p.1.2 cs_p "crit-state-p.a.0" damaged_disk restarted.1 restarted.2);
    [typeclasses eauto|typeclasses eauto|exact zero_fails_md5| |exact save_p_runs|by vm_compute| |].
  - apply may_save_intro; [exact start_p_step|vm_compute; done|lia|simpl; lia].
  - split; [intros f Hf; unfold damaged_disk; by rewrite lookup_delete_ne|].
    intros bytes v st H. unfold damaged_disk in H. by rewrite lookup_delete_eq in H.
  - cbn [criticalState]. rewrite start_p_name. apply surjective_pairing.
Defined.

Lemma critical_errors_witness :
  PROC_save_critical_state md5_c (plain_system true) start_p.2 None [1] 225 0 0 = (-1, start_p.2, None).
Proof.
  apply (critical_errors md5_c (plain_system true) start_p.2 None [1] 225 0 0); [lia|right; lia].
Defined.
