(* ===== verification/ProcParse.v ===== *)
(** * Command lines of child processes (proclib.c)

    [next_param] and [parse_cmd] split the command of [PROC_fork_child_fd] in
    place into the arguments of execvp.  The command is a buffer of bytes that
    ends in 0, a pointer into it is an offset, and reading or writing outside of
    it is a fault ([None]).  The malloc of the array of arguments succeeds. *)

From stdpp Require Import base list numbers sorting.
From Stdlib Require Import ZArith Lia.
From S2P Require Import Prelude Words CStr.
Open Scope Z_scope.

(** ** Characters *)

Definition SQUOTE : Z := 39.
Definition DQUOTE : Z := 34.

(** [inQuote]: none, single or double. *)
Definition toggle (inQuote c : Z) : Z :=
  if c =? SQUOTE then (if inQuote =? 0 then 1 else if inQuote =? 1 then 0 else inQuote)
  else if c =? DQUOTE then (if inQuote =? 0 then 2 else if inQuote =? 2 then 0 else inQuote)
  else inQuote.

(** ** next_param *)

Fixpoint skip_space (rest : list Z) (pos : nat) : option nat :=
  match rest with
  | [] => None
  | c :: rest' => if isspace c then skip_space rest' (S pos) else Some pos
  end.

(** The scan for the end of a parameter: the offset of its last character. *)
Fixpoint scan_param (rest : list Z) (pos : nat) (inQuote : Z) : option nat :=
  match rest with
  | [] => None
  | c :: rest' =>
      if (c =? 0) || (isspace c && (inQuote =? 0)) then Some (pos - 1)%nat
      else scan_param rest' (S pos) (toggle inQuote c)
  end.

(** The result with [*start] and [*end]. *)
Definition next_param (buf : list Z) (str : option nat) : option (bool * option nat * option nat) :=
  match str with
  | None => Some (false, None, None)
  | Some p =>
      c ← buf !! p;
      if c =? 0 then Some (false, Some p, Some p)
      else
        start ← skip_space (drop p buf) p;
        c0 ← buf !! start;
        if c0 =? 0 then Some (false, Some start, Some start)
        else
          let q := if c0 =? SQUOTE then 1 else if c0 =? DQUOTE then 2 else 0 in
          e ← scan_param (drop (S start) buf) (S start) q;
          Some (true, Some start, Some e)
  end.

(** ** parse_cmd *)

(** The first loop: how many parameters there are. *)
Fixpoint count_params (fuel : nat) (buf : list Z) (start : nat) (cnt : nat) : option nat :=
  match fuel with
  | O => None
  | S fuel' =>
      match next_param buf (Some start) with
      | Some (true, Some _, Some e) =>
          c ← buf !! S e;
          count_params fuel' buf (if c =? 0 then S e else S (S e)) (S cnt)
      | Some (false, _, _) => Some cnt
      | _ => None
      end
  end.

(** The C string at an offset. *)
Fixpoint upto0 (l : list Z) : list Z :=
  match l with [] => [] | c :: l' => if c =? 0 then [] else c :: upto0 l' end.

Definition put_at (buf : list Z) (p : nat) (c : Z) : option (list Z) :=
  if decide (p < length buf)%nat then Some (<[p := c]> buf) else None.

(** Removing the quotes around one argument. *)
Definition unquote (buf : list Z) (arg : nat) : option (list Z * nat) :=
  c0 ← buf !! arg;
  if (c0 =? DQUOTE) || (c0 =? SQUOTE) then
    let len := (length (upto0 (drop arg buf)) - 1)%nat in
    c1 ← buf !! (arg + len)%nat;
    if c0 =? c1 then buf' ← put_at buf (arg + len) 0; Some (buf', S arg) else Some (buf, arg)
  else Some (buf, arg).

(** The second loop: the arguments so far and the cells of [argv] left. *)
Fixpoint fill_params (fuel : nat) (buf : list Z) (start : nat) (argv : list nat) (room : nat)
    : option (list Z * list nat) :=
  match fuel with
  | O => None
  | S fuel' =>
      match next_param buf (Some start) with
      | Some (true, Some st, Some e) =>
          match room with
          | O => None
          | S room' =>
              c ← buf !! S e;
              buf1 ← (if c =? 0 then Some buf else put_at buf (S e) 0);
              '(buf2, arg) ← unquote buf1 st;
              fill_params fuel' buf2 (if c =? 0 then S e else S (S e)) (argv ++ [arg]) room'
          end
      | Some (false, _, _) => Some (buf, argv)
      | _ => None
      end
  end.

(** [parse_cmd]; the array has a cell for each parameter and one for NULL. *)
Definition parse_cmd (buf : list Z) : option (list Z * list nat) :=
  cnt ← count_params (S (length buf)) buf 0 0;
  fill_params (S (length buf)) buf 0 [] (cnt + 1).

(** An argument as execvp sees it. *)
Definition arg_string (buf : list Z) (arg : nat) : option (list Z) :=
  if decide (arg < length buf)%nat then Some (upto0 (drop arg buf)) else None.

(** ** Specification *)

(** The words of a line: separated by white space outside of quotes. *)
Fixpoint words_from (s : list Z) (q : Z) (word : option (list Z)) : list (list Z) :=
  match s with
  | [] => option_list word
  | c :: s' =>
      if isspace c && (q =? 0) then option_list word ++ words_from s' 0 None
      else words_from s' (toggle q c) (Some (default [] word ++ [c]))
  end.

Definition words (s : list Z) : list (list Z) := words_from s 0 None.

(** A word without the quotes around it. *)
Definition strip (w : list Z) : list Z :=
  match w with
  | c :: m => if ((c =? DQUOTE) || (c =? SQUOTE)) && bool_decide (last w = Some c) then take (length m - 1) m else w
  | [] => w
  end.

Example parse_demo :
  let line := [32; 97; 98; 32; 34; 99; 32; 100; 34; 32; 101; 39; 32; 39] in
  words line = [[97; 98]; [34; 99; 32; 100; 34]; [101; 39; 32; 39]] /\
  (strip <$> words line) = [[97; 98]; [99; 32; 100]; [101; 39; 32; 39]] /\
  ('(buf, argv) ← parse_cmd (line ++ [0]); mapM (arg_string buf) argv) = Some (strip <$> words line).
Proof. vm_compute. done. Qed.

(** ** Words *)

(** The rest of a word, and what follows it. *)
Fixpoint token (s : list Z) (q : Z) : list Z * list Z :=
  match s with
  | [] => ([], [])
  | c :: s' => if isspace c && (q =? 0) then ([], s) else let '(w, t) := token s' (toggle q c) in (c :: w, t)
  end.

Lemma token_app s : forall q, s = (token s q).1 ++ (token s q).2.
Proof.
  induction s as [|c s IH]; intros q; [done|]. cbn [token]. destruct (isspace c && (q =? 0)); [done|].
  specialize (IH (toggle q c)). destruct (token s (toggle q c)) as [w t]. cbn in *. by rewrite <- IH.
Qed.

Lemma words_token s : forall q w,
  words_from s q (Some w) = (w ++ (token s q).1) :: words_from (tail (token s q).2) 0 None.
Proof.
  induction s as [|c s IH]; intros q w; cbn [words_from token]; [by rewrite app_nil_r|].
  destruct (isspace c && (q =? 0)); cbn; [by rewrite app_nil_r|].
  rewrite IH. destruct (token s (toggle q c)) as [w' t]. cbn. by rewrite <- app_assoc.
Qed.

(** What [scan_param] finds. *)
Lemma scan_token s r : forall pos q, Forall (fun c => c <> 0) s ->
  scan_param (s ++ 0 :: r) pos q = Some (pos + length (token s q).1 - 1)%nat.
Proof.
  induction s as [|c s IH]; intros pos q HF; cbn [app scan_param token]; [simpl; f_equal; lia|].
  inversion_clear HF as [|? ? Hc HF']. apply Z.eqb_neq in Hc as ->. cbn [orb].
  destruct (isspace c && (q =? 0)); [simpl; f_equal; lia|].
  rewrite IH by done. destruct (token s (toggle q c)) as [w t]. cbn. f_equal. lia.
Qed.

Lemma skip_spaces sp c r pos :
  Forall (fun c => isspace c = true) sp -> isspace c = false -> skip_space (sp ++ c :: r) pos = Some (pos + length sp)%nat.
Proof.
  intros HF Hc. revert pos. induction HF as [|x sp Hx HF IH]; intros pos; cbn [app skip_space].
  - rewrite Hc. f_equal. simpl. lia.
  - rewrite Hx, IH. f_equal. simpl. lia.
Qed.

Lemma words_spaces sp s : Forall (fun c => isspace c = true) sp -> words (sp ++ s) = words s.
Proof. induction 1 as [|c sp Hc HF IH]; [done|]. unfold words in *. cbn [app words_from]. rewrite Hc. exact IH. Qed.

(** A line is blank or starts with a word. *)
Inductive line_view : list Z -> Prop :=
| view_blank sp : Forall (fun c => isspace c = true) sp -> line_view sp
| view_word sp c s : Forall (fun c => isspace c = true) sp -> isspace c = false -> line_view (sp ++ c :: s).

Lemma line_viewP s : line_view s.
Proof.
  induction s as [|c s IH]; [by apply view_blank|]. destruct (isspace c) eqn:E.
  - destruct IH as [sp HF|sp c' s HF Hc]; [by apply view_blank; constructor|].
    apply (view_word (c :: sp)); [by constructor|done].
  - by apply (view_word []).
Qed.

Lemma words_blank sp : Forall (fun c => isspace c = true) sp -> words sp = [].
Proof. intros H. rewrite <- (app_nil_r sp). by rewrite words_spaces. Qed.

Lemma words_word sp c s :
  Forall (fun c => isspace c = true) sp -> isspace c = false ->
  words (sp ++ c :: s) = (c :: (token s (toggle 0 c)).1) :: words (tail (token s (toggle 0 c)).2).
Proof.
  intros HF Hc. rewrite words_spaces by done. unfold words at 1. cbn [words_from]. rewrite Hc. cbn [andb].
  rewrite words_token. done.
Qed.

(** ** The loops *)

Lemma lookup_at (pre : list Z) x r : (pre ++ x :: r) !! length pre = Some x.
Proof. by apply list_lookup_middle. Qed.

Lemma isspace_0 c : isspace c = true -> c <> 0.
Proof. unfold isspace. intros H ->. done. Qed.

(** [next_param] at the rest [s] of the line. *)
Lemma next_param_blank pre sp r :
  Forall (fun c => isspace c = true) sp ->
  exists p q, next_param (pre ++ sp ++ 0 :: r) (Some (length pre)) = Some (false, p, q).
Proof.
  intros HF. unfold next_param. destruct sp as [|c sp].
  - cbn [app]. rewrite lookup_at. by eauto.
  - inversion HF as [|? ? Hc HF']; subst. cbn [app]. rewrite lookup_at. cbn [mbind option_bind].
    pose proof (isspace_0 c Hc) as H0. apply Z.eqb_neq in H0 as ->. rewrite drop_app_length.
    change (c :: sp ++ 0 :: r) with ((c :: sp) ++ 0 :: r). rewrite skip_spaces by done. cbn [mbind option_bind].
    rewrite lookup_app_r by lia. rewrite Nat.add_comm, Nat.add_sub.
    rewrite lookup_at. cbn. by eauto.
Qed.

Lemma next_param_word pre sp c s r :
  Forall (fun c => isspace c = true) sp -> isspace c = false -> Forall (fun c => c <> 0) (c :: s) ->
  next_param (pre ++ (sp ++ c :: s) ++ 0 :: r) (Some (length pre)) =
  Some (true, Some (length pre + length sp)%nat,
        Some (length pre + length sp + length (token s (toggle 0 c)).1)%nat).
Proof.
  intros HF Hc HN. inversion_clear HN as [|? ? Hc0 HN']. unfold next_param.
  assert (E1 : exists x, (pre ++ (sp ++ c :: s) ++ 0 :: r) !! length pre = Some x /\ x <> 0).
  { destruct sp as [|x sp]; cbn [app]; rewrite lookup_at; eexists; split; [done|done|done|].
    inversion HF; subst. by apply isspace_0. }
  destruct E1 as (x & -> & Hx). cbn [mbind option_bind]. apply Z.eqb_neq in Hx as ->.
  rewrite drop_app_length, <- app_assoc. cbn [app]. rewrite skip_spaces by done. cbn [mbind option_bind].
  rewrite app_assoc, <- length_app, lookup_at. cbn [mbind option_bind]. pose proof Hc0 as Hc1. apply Z.eqb_neq in Hc1 as ->.
  replace (drop (S (length (pre ++ sp))) ((pre ++ sp) ++ c :: s ++ 0 :: r)) with (s ++ 0 :: r).
  2:{ change (c :: s ++ 0 :: r) with ([c] ++ (s ++ 0 :: r)). rewrite app_assoc, drop_app_length'; [done|].
      rewrite (length_app (pre ++ sp)). simpl. lia. }
  assert (Eq : (if c =? SQUOTE then 1 else if c =? DQUOTE then 2 else 0) = toggle 0 c).
  { unfold toggle. repeat case_match; done. }
  rewrite Eq, scan_token by done. cbn. repeat f_equal. lia.
Qed.

(** The cell after a word, and where the next search starts. *)
Lemma after_word pre w t r :
  Forall (fun c => c <> 0) t ->
  exists x, (pre ++ (w ++ t) ++ 0 :: r) !! (length pre + length w)%nat = Some x /\
    (x = 0 /\ t = [] \/ x <> 0 /\ exists t', t = x :: t') /\
    (if x =? 0 then (length pre + length w)%nat else S (length pre + length w)) = length (pre ++ w ++ take 1 t) /\
    pre ++ (w ++ t) ++ 0 :: r = (pre ++ w ++ take 1 t) ++ tail t ++ 0 :: r.
Proof.
  intros HF. destruct t as [|x t].
  - exists 0. rewrite !app_nil_r, app_assoc, <- length_app, lookup_at. split_and!; [done|by left|done|done].
  - inversion_clear HF as [|? ? Hx HF']. exists x. rewrite <- app_assoc, app_assoc, <- length_app.
    cbn [app]. rewrite lookup_at. apply Z.eqb_neq in Hx as Hx'. rewrite Hx'. split_and!; [done|right; eauto| |].
    + cbn [take]. rewrite take_0, !length_app. simpl. lia.
    + cbn [take tail]. rewrite take_0. by rewrite <- !app_assoc.
Qed.

Lemma count_params_spec r fuel : forall s pre cnt,
  (length s < fuel)%nat -> Forall (fun c => c <> 0) s ->
  count_params fuel (pre ++ s ++ 0 :: r) (length pre) cnt = Some (cnt + length (words s))%nat.
Proof.
  induction fuel as [|fuel IH]; intros s pre cnt Hf HN; [lia|]. cbn [count_params].
  destruct (line_viewP s) as [sp HF|sp c s HF Hc].
  - destruct (next_param_blank pre sp r HF) as (p & q & ->). rewrite words_blank by done. f_equal. simpl. lia.
  - apply Forall_app in HN as [_ HN]. rewrite next_param_word, words_word by done.
    inversion HN as [|? ? Hc0 HN']; subst. pose proof (token_app s (toggle 0 c)) as Es.
    destruct (token s (toggle 0 c)) as [w t]. cbn [fst snd] in *. rewrite Es in HN'. apply Forall_app in HN' as [_ Ht].
    destruct (after_word pre (sp ++ c :: w) t r Ht) as (x & Hx & _ & Hn & Hb).
    replace (length pre + length (sp ++ c :: w))%nat with (S (length pre + length sp + length w)) in * by (rewrite length_app; simpl; lia).
    replace (sp ++ c :: s) with ((sp ++ c :: w) ++ t) by (by rewrite Es, <- app_assoc).
    rewrite Hx. cbn [mbind option_bind]. rewrite Hn, Hb, IH; [f_equal; simpl; lia| |].
    + rewrite length_app in Hf. simpl in Hf. rewrite Es, length_app in Hf. destruct t; simpl in *; lia.
    + destruct t; [constructor|by inversion Ht].
Qed.

(** Removing the quotes writes at most the last character of the word. *)
Lemma unquote_spec pre w r :
  w <> [] -> Forall (fun c => c <> 0) w ->
  exists w' arg, unquote (pre ++ w ++ 0 :: r) (length pre) = Some (pre ++ w' ++ 0 :: r, arg) /\
    length w' = length w /\
    forall r', arg_string (pre ++ w' ++ 0 :: r') arg = Some (strip w).
Proof.
  intros Hne HN. destruct w as [|c m]; [done|]. unfold unquote. cbn [app]. rewrite lookup_at. cbn [mbind option_bind strip].
  assert (Hup : forall l r', Forall (fun c => c <> 0) l -> upto0 (l ++ 0 :: r') = l).
  { clear. intros l r'. induction 1 as [|x l Hx HF IH]; [done|]. cbn. apply Z.eqb_neq in Hx as ->. by rewrite IH. }
  assert (Hself : forall r', arg_string (pre ++ (c :: m) ++ 0 :: r') (length pre) = Some (c :: m)).
  { intros r'. unfold arg_string. rewrite decide_True by (rewrite !length_app; simpl; lia).
    by rewrite drop_app_length, Hup. }
  destruct ((c =? DQUOTE) || (c =? SQUOTE)) eqn:Eq; cbn [andb].
  2:{ exists (c :: m), (length pre). split; [done|]. split; [done|exact Hself]. }
  rewrite drop_app_length. change (c :: m ++ 0 :: r) with ((c :: m) ++ 0 :: r). rewrite Hup by done.
  destruct (exists_last (l := c :: m)) as (u & z & Eu); [done|]. rewrite Eu.
  rewrite length_app. replace (length u + length [z] - 1)%nat with (length u) by (simpl; lia).
  replace ((pre ++ (u ++ [z]) ++ 0 :: r) !! (length pre + length u)%nat) with (Some z).
  2:{ rewrite <- app_assoc, app_assoc, <- length_app. cbn [app]. by rewrite lookup_at. }
  cbn [mbind option_bind]. rewrite last_snoc.
  destruct (Z.eqb_spec c z) as [<-|Hcz].
  - rewrite bool_decide_eq_true_2 by done. unfold put_at.
    rewrite decide_True by (rewrite !length_app; simpl; lia). cbn [mbind option_bind].
    exists (u ++ [0]), (S (length pre)). split.
    { do 2 f_equal. rewrite <- !app_assoc, insert_app_r. f_equal. cbn [app].
      rewrite <- (Nat.add_0_r (length u)), insert_app_r. done. }
    split; [rewrite !length_app; done|]. intros r'. unfold arg_string.
    rewrite decide_True by (rewrite !length_app; simpl; lia). f_equal.
    rewrite <- Nat.add_1_r, <- drop_drop, drop_app_length.
    destruct u as [|c' u]; cbn [app] in Eu; simplify_eq; [done|].
    cbn [app drop]. rewrite drop_0, <- app_assoc. cbn [app].
    rewrite Hup by (inversion HN as [|? ? _ HN']; subst; by apply Forall_app in HN' as [? _]).
    rewrite length_app. simpl length. replace (length u + 1 - 1)%nat with (length u) by lia.
    by rewrite take_app_length.
  - rewrite bool_decide_eq_false_2 by congruence. exists (u ++ [z]), (length pre). rewrite <- Eu.
    split; [done|]. split; [by rewrite Eu, length_app|exact Hself].
Qed.

(** The rest of the buffer once a word has been ended by 0. *)
Lemma end_word pre w t :
  let buf := pre ++ (w ++ t) ++ [0] in
  forall x, buf !! (length pre + length w)%nat = Some x -> (x = 0 /\ t = [] \/ x <> 0 /\ exists t', t = x :: t') ->
  (if x =? 0 then Some buf else put_at buf (length pre + length w) 0) =
  Some (pre ++ w ++ 0 :: (if x =? 0 then [] else tail t ++ [0])).
Proof.
  intros buf x Hx [[-> ->]|[H0 [t' ->]]]; unfold buf.
  - cbn. by rewrite app_nil_r.
  - apply Z.eqb_neq in H0 as ->. unfold put_at. rewrite decide_True by (rewrite !length_app; simpl; lia).
    f_equal. rewrite insert_app_r. f_equal. rewrite <- app_assoc.
    rewrite <- (Nat.add_0_r (length w)), insert_app_r. done.
Qed.

Lemma fill_params_spec fuel : forall s pre argv room,
  (length s < fuel)%nat -> Forall (fun c => c <> 0) s -> (length (words s) <= room)%nat ->
  exists mid args,
    fill_params fuel (pre ++ s ++ [0]) (length pre) argv room = Some (pre ++ mid ++ [0], argv ++ args) /\
    length mid = length s /\
    Forall2 (fun arg w => arg_string (pre ++ mid ++ [0]) arg = Some (strip w)) args (words s).
Proof.
  induction fuel as [|fuel IH]; intros s pre argv room Hf HN Hroom; [lia|]. cbn [fill_params].
  destruct (line_viewP s) as [sp HF|sp c s HF Hc].
  { destruct (next_param_blank pre sp [] HF) as (p & q & ->). exists sp, []. rewrite words_blank, app_nil_r by done.
    split; [done|]. split; [done|constructor]. }
  apply Forall_app in HN as [_ HN]. rewrite next_param_word by done. rewrite words_word in Hroom |- * by done.
  inversion HN as [|? ? Hc0 HN']; subst. pose proof (token_app s (toggle 0 c)) as Es.
  destruct (token s (toggle 0 c)) as [w t]. cbn [fst snd] in *. rewrite Es in HN'. apply Forall_app in HN' as [Hw Ht].
  destruct room as [|room]; [simpl in Hroom; lia|].
  destruct (after_word pre (sp ++ c :: w) t [] Ht) as (x & Hx & Hxt & Hn & _).
  replace (sp ++ c :: s) with ((sp ++ c :: w) ++ t) in * by (by rewrite Es, <- app_assoc).
  pose proof (end_word pre (sp ++ c :: w) t x Hx Hxt) as Eb.
  replace (length pre + length (sp ++ c :: w))%nat with (S (length pre + length sp + length w)) in * by (rewrite length_app; simpl; lia).
  rewrite Hx. cbn [mbind option_bind]. rewrite Eb. cbn [mbind option_bind].
  set (r := if x =? 0 then [] else tail t ++ [0]) in *.
  destruct (unquote_spec (pre ++ sp) (c :: w) r) as (w' & arg & Eu & Lw & Harg); [done|by constructor|].
  rewrite length_app in Eu. rewrite <- !app_assoc in Eu |- *. rewrite Eu. cbn [mbind option_bind]. rewrite Hn.
  assert (Hlen : (length (tail t) < fuel)%nat).
  { rewrite !length_app in Hf. simpl in Hf. destruct t; simpl in *; lia. }
  assert (HFt : Forall (fun c => c <> 0) (tail t)) by (destruct t; [constructor|by inversion Ht]).
  simpl in Hroom. set (z := match t with [] => [] | _ => [0] end).
  assert (Er : w' ++ 0 :: r = (w' ++ z) ++ tail t ++ [0]).
  { rewrite <- app_assoc. f_equal. unfold r, z. destruct Hxt as [[-> ->]|[H0 [t' ->]]]; [done|].
    by apply Z.eqb_neq in H0 as ->. }
  assert (El : length (pre ++ (sp ++ c :: w) ++ take 1 t) = length (pre ++ sp ++ w' ++ z)).
  { rewrite !length_app. unfold z. destruct t; simpl in *; lia. }
  rewrite El, Er.
  destruct (IH (tail t) (pre ++ sp ++ w' ++ z) (argv ++ [arg]) room Hlen HFt) as (mid & args & E & Lm & HA); [lia|].
  repeat rewrite <- app_assoc in E. repeat rewrite <- app_assoc in HA. exists (sp ++ w' ++ z ++ mid), (arg :: args).
  repeat rewrite <- app_assoc.
  split; [exact E|]. split.
  { rewrite !length_app in *. unfold z. destruct t; simpl in *; lia. }
  constructor; [|exact HA]. unfold z in *. destruct t as [|x' t'].
  - destruct mid; [|done]. cbn [app]. rewrite <- (Harg []). by rewrite <- app_assoc.
  - cbn [app]. rewrite <- (Harg (mid ++ [0])). by rewrite <- app_assoc.
Qed.

(** [parse_cmd] on any C string ends, stays inside the buffer and its array,
    and leaves the arguments that the words of the line are: split at white
    space outside of quotes, without the quotes around a word. *)
Theorem parse_cmd_words s :
  Forall (fun c => c <> 0) s ->
  exists buf argv, parse_cmd (s ++ [0]) = Some (buf, argv) /\ length buf = length (s ++ [0]) /\
    mapM (arg_string buf) argv = Some (strip <$> words s).
Proof.
  intros HN. unfold parse_cmd.
  pose proof (count_params_spec [] (S (length (s ++ [0]))) s [] 0) as Hc. cbn [app length] in Hc. rewrite Hc; [|rewrite length_app; lia|done].
  cbn [mbind option_bind].
  destruct (fill_params_spec (S (length (s ++ [0]))) s [] [] (0 + length (words s) + 1)) as (mid & args & E & Lm & HA);
    [rewrite length_app; lia|done|lia|].
  cbn [app length] in E, HA. rewrite E. exists (mid ++ [0]), args. split; [done|]. split; [by rewrite !length_app, Lm|].
  apply mapM_Some. clear - HA. induction HA; constructor; done.
Qed.

Lemma parse_cmd_words_witness :
  exists buf argv, parse_cmd ([97; 32; 34; 98; 32; 34] ++ [0]) = Some (buf, argv) /\
    length buf = length ([97; 32; 34; 98; 32; 34] ++ [0]) /\
    mapM (arg_string buf) argv = Some (strip <$> words [97; 32; 34; 98; 32; 34]).
Proof. apply (parse_cmd_words [97; 32; 34; 98; 32; 34]). repeat constructor; lia. Defined.
