(* ===== verification/ProcWrite.v ===== *)
(** * The queue of non-blocking writes (proclib.c)

    [PROC_nonblocking_write_callback] appends to one list for all descriptors
    and registers the write event of a descriptor with its first entry;
    [write_event_callback] performs the first write of a descriptor and asks the
    event loop to keep the event while more are queued.  A write callback may
    queue more writes; it is given by the requests it makes.  Callbacks and
    their arguments are addresses.  The list is a client of FdEvents. *)

From stdpp Require Import base gmap list numbers sorting.
From Stdlib Require Import ZArith Lia.
From S2P Require Import Prelude Words Sched FdEvents.
Open Scope Z_scope.

(** ** Data *)

Definition FREE_DATA_AFTER_WRITE : Z := 1.
Definition COPY_DATA_TO_WRITE : Z := 2.
Definition IGNORE_DATA_AFTER_WRITE : Z := 3.

(** [struct ProcWriteNode]; [None] is NULL. *)
Record ProcWriteNode := WNode {
  wn_data : option (list Z);
  wn_len : Z;
  wn_fd : Z;
  freeMem : bool;
  wn_cb : Z;
  wn_arg : Z
}.

(** The part of [ProcessData] used here, and the calls of write callbacks. *)
Record wproc := WP {
  writeList : list ProcWriteNode;
  wtable : fds;
  performed : list ProcWriteNode
}.

(** One call of [PROC_nonblocking_write_callback], with the allocations that
    succeed: the node, the copy, the descriptor's entry. *)
Record request := Req {
  rq_fd : Z;
  rq_data : list Z;
  rq_cb : Z;
  rq_arg : Z;
  rq_options : Z;
  rq_node_ok : bool;
  rq_copy_ok : bool;
  rq_entry_ok : bool
}.

(** The address of [write_event_callback] and of the process. *)
Record wconfig := WC { write_cb_addr : Z; proc_addr : Z }.

Definition pending (l : list ProcWriteNode) (f : Z) : list ProcWriteNode :=
  filter (fun n => wn_fd n = f) l.

(** ** Operations *)

Definition new_node (r : request) : ProcWriteNode :=
  let copy := rq_options r =? COPY_DATA_TO_WRITE in
  WNode (if copy then Some (rq_data r) else None) (if copy then zlen (rq_data r) else 0) (rq_fd r)
    (negb (rq_options r =? IGNORE_DATA_AFTER_WRITE)) (rq_cb r) (rq_arg r).

Definition PROC_nonblocking_write_callback (cfg : wconfig) (w : wproc) (r : request) : Z * wproc :=
  if negb (rq_node_ok r) then (-1, w)
  else if (rq_options r =? COPY_DATA_TO_WRITE) && negb (rq_copy_ok r) then (-1, w)
  else
    let n := new_node r in
    let writePending := bool_decide (pending (writeList w) (rq_fd r) <> []) in
    let l := writeList w ++ [n] in
    if writePending then (0, WP l (wtable w) (performed w))
    else
      let '(res, t) := EVT_fd_add (wtable w) (rq_fd r) FdWrite (Some (write_cb_addr cfg)) (proc_addr cfg) (rq_entry_ok r) in
      if res <? 0 then (-1, WP (writeList w) t (performed w)) else (0, WP l t (performed w)).

(** [PROC_nonblocking_write]; the callback writes the bytes. *)
Definition PROC_nonblocking_write (cfg : wconfig) (proc_write_callback : Z) (w : wproc) (f : Z) (data : list Z)
    (memoryOptions : Z) (node_ok copy_ok entry_ok : bool) : Z * wproc :=
  PROC_nonblocking_write_callback cfg w
    (Req f data proc_write_callback 0 memoryOptions node_ok copy_ok entry_ok).

(** The list before the first node of the descriptor, the node, and the rest. *)
Fixpoint split_node (l : list ProcWriteNode) (f : Z)
    : option (list ProcWriteNode * ProcWriteNode * list ProcWriteNode) :=
  match l with
  | [] => None
  | n :: l' =>
      if wn_fd n =? f then Some ([], n, l')
      else match split_node l' f with
           | Some (a, m, b) => Some (n :: a, m, b)
           | None => None
           end
  end.

(** [write_event_callback]; [issues] is what a write callback queues.  The node
    is still in the list while its callback runs. *)
Definition write_event_callback (cfg : wconfig) (issues : ProcWriteNode -> list request) (w : wproc) (f : Z)
    : Z * wproc :=
  match split_node (writeList w) f with
  | None => (EVENT_REMOVE, w)
  | Some (before, tx, _) =>
      let w1 := foldl (fun w r => (PROC_nonblocking_write_callback cfg w r).2)
                  (WP (writeList w) (wtable w) (performed w ++ [tx])) (issues tx) in
      let rest := drop (S (length before)) (writeList w1) in
      (if bool_decide (pending rest f <> []) then EVENT_KEEP else EVENT_REMOVE,
       WP (before ++ rest) (wtable w1) (performed w1))
  end.

(** The descriptor becomes writable: the loop calls the callback and removes
    the event when told so. *)
Definition writable (cfg : wconfig) (issues : ProcWriteNode -> list request) (w : wproc) (f : Z) : wproc :=
  let '(ret, w') := write_event_callback cfg issues w f in
  if ret =? EVENT_REMOVE then WP (writeList w') (EVT_fd_remove (wtable w') f FdWrite) (performed w') else w'.

(** ** Invariant *)

(** The write event of the descriptor is registered for the queue. *)
Definition armed (cfg : wconfig) (t : fds) (f : Z) : Prop :=
  exists n, entry t f = Some n /\ get (cb n) FdWrite = Some (write_cb_addr cfg) /\
    get (earg n) FdWrite = proc_addr cfg.

(** Every descriptor with queued writes is armed.  No callback is marked as
    running: the descriptor table is the one between two events. *)
Record wq_wf (cfg : wconfig) (w : wproc) : Prop := {
  wq_table : fd_wf (wtable w);
  wq_fds : forall n, n ∈ writeList w -> 0 <= wn_fd n;
  wq_armed : forall n, n ∈ writeList w -> armed cfg (wtable w) (wn_fd n);
  wq_idle : forall f n, entry (wtable w) f = Some n -> get (einCallback n) FdWrite = 0
}.

Lemma pending_app l k f : pending (l ++ k) f = pending l f ++ pending k f.
Proof. apply filter_app. Qed.

Lemma pending_elem l f n : n ∈ pending l f <-> wn_fd n = f /\ n ∈ l.
Proof. unfold pending. by rewrite list_elem_of_filter. Qed.

Lemma pending_none l f : pending l f = [] <-> forall n, n ∈ l -> wn_fd n <> f.
Proof.
  split.
  - intros H n Hn E. assert (Hp : n ∈ pending l f) by by apply pending_elem. rewrite H in Hp. by apply elem_of_nil in Hp.
  - intros H. destruct (pending l f) as [|n k] eqn:E; [done|]. exfalso.
    assert (Hp : n ∈ pending l f) by (rewrite E; by left). apply pending_elem in Hp as [H1 H2]. by eapply H.
Qed.

Lemma split_node_spec l f :
  match split_node l f with
  | Some (a, n, b) => l = a ++ n :: b /\ wn_fd n = f /\ pending a f = []
  | None => pending l f = []
  end.
Proof.
  induction l as [|n l IH]; [done|]. cbn [split_node].
  destruct (Z.eqb_spec (wn_fd n) f) as [E|E]; [done|].
  destruct (split_node l f) as [[[a m] b]|].
  - destruct IH as (-> & Hm & Ha). split; [done|]. split; [done|].
    change (n :: a) with ([n] ++ a). rewrite pending_app, Ha, app_nil_r. unfold pending. by rewrite filter_cons_False.
  - change (n :: l) with ([n] ++ l). rewrite pending_app, IH, app_nil_r. unfold pending. by rewrite filter_cons_False.
Qed.

(** ** Queueing *)

Lemma added_write o f c p :
  get (einCallback (default (new_entry f) o)) FdWrite = 0 ->
  let n := added_entry o f FdWrite c None p in
  get (cb n) FdWrite = Some c /\ get (earg n) FdWrite = p /\ get (einCallback n) FdWrite = 0.
Proof. intros H. unfold added_entry. cbn in *. by rewrite H. Qed.

(** The write event after it was added. *)
Lemma add_armed cfg t f ok :
  fd_wf t -> 0 <= f -> (forall x n, entry t x = Some n -> get (einCallback n) FdWrite = 0) ->
  let '(res, t') := EVT_fd_add t f FdWrite (Some (write_cb_addr cfg)) (proc_addr cfg) ok in
  (res = 1 /\ fd_wf t' /\ armed cfg t' f /\ (forall x, armed cfg t x -> armed cfg t' x) /\
     (forall x n, entry t' x = Some n -> get (einCallback n) FdWrite = 0) /\ (entry t f = None -> ok = true)) \/
  (res = -1 /\ t' = t /\ entry t f = None /\ ok = false).
Proof.
  intros Hwf Hf Hidle. destruct (decide (entry t f = None /\ ok = false)) as [[He ->]|Hok].
  { rewrite add_fails by done. by right. }
  destruct (fd_add_wf t f FdWrite (write_cb_addr cfg) None (proc_addr cfg) ok Hwf Hf) as (R1 & R2 & R3 & R4).
  { intros He. destruct ok; [done|]. by destruct Hok. }
  fold (EVT_fd_add t f FdWrite (Some (write_cb_addr cfg)) (proc_addr cfg) ok) in R1, R2, R3, R4.
  destruct (EVT_fd_add t f FdWrite (Some (write_cb_addr cfg)) (proc_addr cfg) ok) as [res t'].
  cbn [fst snd] in *. left.
  assert (Hz : get (einCallback (default (new_entry f) (entry t f))) FdWrite = 0).
  { destruct (entry t f) as [n|] eqn:E; [by apply (Hidle f)|done]. }
  pose proof (added_write (entry t f) f (write_cb_addr cfg) (proc_addr cfg) Hz) as (A1 & A2 & A3).
  assert (HA : armed cfg t' f) by (eexists; split; [exact R3|done]).
  split_and!; [done..| | |].
  - intros x Hx. destruct (decide (x = f)) as [-> |Hne]; [done|]. destruct Hx as (n & Hn). exists n. by rewrite R4.
  - intros x n Hn. destruct (decide (x = f)) as [-> |Hne]; [rewrite R3 in Hn; by injection Hn as <-|].
    rewrite R4 in Hn by done. by apply (Hidle x).
  - intros He. destruct ok; [done|]. by destruct Hok.
Qed.

(** Whether a request finds the memory it needs. *)
Definition granted (w : wproc) (r : request) : Prop :=
  rq_node_ok r = true /\ (rq_options r = COPY_DATA_TO_WRITE -> rq_copy_ok r = true) /\
  (pending (writeList w) (rq_fd r) = [] -> entry (wtable w) (rq_fd r) = None -> rq_entry_ok r = true).

Lemma request_spec cfg w r :
  wq_wf cfg w -> 0 <= rq_fd r ->
  let '(res, w') := PROC_nonblocking_write_callback cfg w r in
  wq_wf cfg w' /\ performed w' = performed w /\ (forall f, armed cfg (wtable w) f -> armed cfg (wtable w') f) /\
  (granted w r /\ res = 0 /\ writeList w' = writeList w ++ [new_node r] \/
   ~ granted w r /\ res = -1 /\ w' = w).
Proof.
  intros Hwf Hf. unfold PROC_nonblocking_write_callback, granted.
  destruct (rq_node_ok r); cbn [negb]; [|split_and!; [done..|right; split; [by intros [? _]|done]]].
  destruct ((rq_options r =? COPY_DATA_TO_WRITE) && negb (rq_copy_ok r)) eqn:Ec.
  { split_and!; [done..|right]. apply andb_true_iff in Ec as [E1%Z.eqb_eq E2%negb_true_iff]. split; [|done].
    intros (_ & H & _). rewrite H in E2; done. }
  assert (Hcopy : rq_options r = COPY_DATA_TO_WRITE -> rq_copy_ok r = true).
  { intros E. rewrite E in Ec. by destruct (rq_copy_ok r). }
  case_bool_decide as Hp.
  - split; [|split; [done|split; [done|left; split; [done|done]]]].
    destruct Hwf as [W1 W2 W3 W4]. split; cbn [writeList wtable]; [done| | |done].
    + intros n [Hn| ->%list_elem_of_singleton]%elem_of_app; [by apply W2|done].
    + intros n [Hn| ->%list_elem_of_singleton]%elem_of_app; [by apply W3|].
      destruct (pending (writeList w) (rq_fd r)) as [|m k] eqn:E; [done|].
      assert (Hm : m ∈ pending (writeList w) (rq_fd r)) by (rewrite E; by left).
      apply pending_elem in Hm as [Hm1 Hm2]. change (wn_fd (new_node r)) with (rq_fd r). rewrite <- Hm1. by apply W3.
  - pose proof (add_armed cfg (wtable w) (rq_fd r) (rq_entry_ok r) (wq_table _ _ Hwf) Hf (wq_idle _ _ Hwf)) as HA.
    assert (Hp0 : pending (writeList w) (rq_fd r) = []) by (destruct (pending _ _); [done|by destruct Hp]).
    destruct (EVT_fd_add _ _ _ _ _ _) as [res t]. destruct HA as [(-> & H1 & H2 & H3 & H4 & H5)|(-> & -> & He & Hok)].
    + change (1 <? 0) with false. cbn iota. split.
      { split; cbn [writeList wtable]; [done| | |done].
        - intros n [Hn| ->%list_elem_of_singleton]%elem_of_app; [by apply (wq_fds _ _ Hwf)|done].
        - intros n [Hn| ->%list_elem_of_singleton]%elem_of_app; [by apply H3, (wq_armed _ _ Hwf)|done]. }
      split; [done|]. split; [exact H3|]. left. split; [|done]. split; [done|]. split; [exact Hcopy|done].
    + change (-1 <? 0) with true. cbn iota. destruct w as [l t pf]. split_and!; [done..|].
      right. split; [|done]. intros (_ & _ & Hg). rewrite Hg in Hok; done.
Qed.

(** Several requests in a row, with enough memory. *)
Definition ample (r : request) : Prop :=
  0 <= rq_fd r /\ rq_node_ok r = true /\ rq_copy_ok r = true /\ rq_entry_ok r = true.

Lemma requests_spec cfg rs : forall w, wq_wf cfg w -> Forall ample rs ->
  let w' := foldl (fun w r => (PROC_nonblocking_write_callback cfg w r).2) w rs in
  wq_wf cfg w' /\ performed w' = performed w /\ (forall f, armed cfg (wtable w) f -> armed cfg (wtable w') f) /\
  writeList w' = writeList w ++ (new_node <$> rs).
Proof.
  induction rs as [|r rs IH]; intros w Hwf HF; cbn [foldl fmap list_fmap]; [by rewrite app_nil_r|].
  apply Forall_cons_1 in HF as [(Hf & H1 & H2 & H3) HF']. pose proof (request_spec cfg w r Hwf Hf) as HR.
  destruct (PROC_nonblocking_write_callback cfg w r) as [res w1]. cbn [snd]. destruct HR as (Hwf1 & HP & HA & HC).
  destruct HC as [(_ & _ & HL)|(Hn & _)]; [|by destruct Hn].
  destruct (IH w1 Hwf1 HF') as (W & P & A & L). split; [exact W|]. split; [congruence|]. split; [by auto|].
  by rewrite L, HL, <- app_assoc.
Qed.

(** ** Writing *)

Lemma drop_event_idle n e m : drop_event n e = Some m -> einCallback m = einCallback n.
Proof. unfold drop_event. repeat case_match; intros; simplify_eq; done. Qed.

(** Removing the write event of a descriptor without queued writes. *)
Lemma disarm_wf cfg w f :
  wq_wf cfg w -> 0 <= f -> pending (writeList w) f = [] ->
  wq_wf cfg (WP (writeList w) (EVT_fd_remove (wtable w) f FdWrite) (performed w)) /\
  f ∉ get (eventSet (EVT_fd_remove (wtable w) f FdWrite)) FdWrite.
Proof.
  intros [W1 W2 W3 W4] Hf Hp. destruct (fd_remove_wf (wtable w) f FdWrite W1 Hf) as (R1 & R2 & R3).
  assert (Hne : forall n, n ∈ writeList w -> wn_fd n <> f) by by apply pending_none.
  split.
  - split; cbn [writeList wtable]; [done|done| |].
    + intros n Hn. destruct (W3 n Hn) as (m & Hm & H). exists m. split; [|done]. rewrite R3; [done|by apply Hne].
    + intros x n Hn. destruct (decide (x = f)) as [-> |Hx]; [|rewrite R3 in Hn by done; by apply (W4 x)].
      rewrite R2 in Hn. unfold removed_entry in Hn. destruct (entry (wtable w) f) as [m|] eqn:Em; [|done].
      rewrite (W4 f m Em) in Hn. apply drop_event_idle in Hn as ->. by apply (W4 f m).
  - pose proof R1 as (_ & _ & H4 & _). rewrite H4, R2. intros [_ H]. unfold removed_entry in H.
    destruct (entry (wtable w) f) as [m|] eqn:Em; [|done]. rewrite (W4 f m Em) in H. cbn [Z.eqb] in H.
    rewrite drop_event_has, decide_True in H by done. done.
Qed.

Lemma armed_watched cfg t f : fd_wf t -> 0 <= f -> armed cfg t f -> f ∈ get (eventSet t) FdWrite.
Proof.
  intros Hwf Hf (n & Hn & Hc & _). pose proof Hwf as (_ & _ & H4 & _). rewrite H4, Hn. split; [done|].
  unfold has. by rewrite Hc.
Qed.

(** The queue after the head of [f] was taken. *)
Definition taken (l : list ProcWriteNode) (f g : Z) : list ProcWriteNode :=
  if decide (g = f) then tail (pending l f) else pending l g.

Lemma writable_spec cfg issues w f tx rest :
  wq_wf cfg w -> pending (writeList w) f = tx :: rest -> Forall ample (issues tx) ->
  let w' := writable cfg issues w f in
  wq_wf cfg w' /\ performed w' = performed w ++ [tx] /\
  (forall g, pending (writeList w') g = taken (writeList w) f g ++ pending (new_node <$> issues tx) g) /\
  (f ∈ get (eventSet (wtable w')) FdWrite <-> pending (writeList w') f <> []).
Proof.
  intros Hwf Hp HF. unfold writable, write_event_callback.
  pose proof (split_node_spec (writeList w) f) as Hs.
  destruct (split_node (writeList w) f) as [[[before tx'] after]|]; [|congruence].
  destruct Hs as (Hl & Hfd & Hb). assert (Hpl : pending (writeList w) f = tx' :: pending after f).
  { rewrite Hl, pending_app, Hb. cbn [app]. unfold pending. by rewrite filter_cons_True. }
  rewrite Hp in Hpl. injection Hpl as <- ->.
  assert (Hf : 0 <= f) by (rewrite <- Hfd; apply (wq_fds _ _ Hwf); rewrite Hl; apply elem_of_app; right; by left).
  set (w0 := WP (writeList w) (wtable w) (performed w ++ [tx])).
  assert (Hwf0 : wq_wf cfg w0) by (destruct Hwf as [W1 W2 W3 W4]; split; done).
  destruct (requests_spec cfg (issues tx) w0 Hwf0 HF) as (W & P & A & L).
  set (w1 := foldl _ w0 (issues tx)) in *. cbn [writeList w0] in L. set (new := new_node <$> issues tx) in *.
  assert (Hd : drop (S (length before)) (writeList w1) = after ++ new).
  { rewrite L, Hl, <- app_assoc. change (tx :: after) with ([tx] ++ after). rewrite <- app_assoc, app_assoc.
    rewrite drop_app_length'; [done|]. rewrite length_app. simpl. lia. }
  rewrite Hd. set (w2 := WP (before ++ after ++ new) (wtable w1) (performed w1)).
  assert (Hsub : forall n, n ∈ before ++ after ++ new -> n ∈ writeList w1).
  { intros n. rewrite L, Hl, !elem_of_app, elem_of_cons. tauto. }
  assert (Hwf2 : wq_wf cfg w2).
  { destruct W as [W1 W2 W3 W4]. split; cbn [w2 writeList wtable]; auto. }
  assert (Hpend : forall g, pending (writeList w2) g = taken (writeList w) f g ++ pending new g).
  { intros g. cbn [w2 writeList]. rewrite !pending_app, app_assoc. f_equal. unfold taken. case_decide as E.
    - subst g. by rewrite Hb, Hp.
    - rewrite Hl, pending_app. f_equal. unfold pending. by rewrite filter_cons_False by congruence. }
  assert (Hpf : pending (after ++ new) f = pending (writeList w2) f).
  { cbn [w2 writeList]. rewrite (pending_app before), Hb. done. }
  rewrite Hpf. case_bool_decide as Hmore.
  - change (EVENT_KEEP =? EVENT_REMOVE) with false. cbn iota. split; [exact Hwf2|]. split; [exact P|]. split; [exact Hpend|].
    split; [done|]. intros _. apply (armed_watched cfg); [apply Hwf2|done|].
    destruct (pending (writeList w2) f) as [|m k] eqn:E; [done|].
    assert (Hm : m ∈ pending (writeList w2) f) by (rewrite E; by left). apply pending_elem in Hm as [<- Hm].
    by apply (wq_armed _ _ Hwf2).
  - change (EVENT_REMOVE =? EVENT_REMOVE) with true. cbn iota.
    assert (Hnone : pending (writeList w2) f = []) by (destruct (pending (writeList w2) f); [done|by destruct Hmore]).
    destruct (disarm_wf cfg w2 f Hwf2 Hf Hnone) as [D1 D2]. cbn [w2 writeList wtable performed] in *.
    split; [exact D1|]. split; [exact P|]. split; [exact Hpend|]. split; [intros H; by destruct D2|by rewrite Hnone].
Qed.

(** A descriptor that becomes writable again and again. *)
Lemma drain_queue cfg w f :
  wq_wf cfg w ->
  let w' := Nat.iter (length (pending (writeList w) f)) (fun w => writable cfg (fun _ => []) w f) w in
  wq_wf cfg w' /\ performed w' = performed w ++ pending (writeList w) f /\ pending (writeList w') f = [] /\
  (forall g, g <> f -> pending (writeList w') g = pending (writeList w) g).
Proof.
  remember (pending (writeList w) f) as l eqn:El. revert w El.
  induction l as [|tx l IH]; intros w El Hwf; cbn [length]; [by rewrite app_nil_r|].
  rewrite Nat.iter_succ_r.
  destruct (writable_spec cfg (fun _ => []) w f tx l Hwf (eq_sym El)) as (W & P & Q & _); [constructor|].
  set (w1 := writable cfg (fun _ => []) w f) in *. cbn [fmap list_fmap] in Q.
  assert (Ef : l = pending (writeList w1) f).
  { rewrite Q. unfold taken. rewrite decide_True by done. rewrite <- El. by rewrite app_nil_r. }
  destruct (IH w1 Ef W) as (W2 & P2 & N2 & O2). split; [exact W2|]. split; [by rewrite P2, P, <- app_assoc|].
  split; [exact N2|]. intros g Hg. rewrite O2, Q by done. unfold taken. rewrite decide_False by done. apply app_nil_r.
Qed.

(** C15. The queue of writes.  A request with the memory it needs is appended
    and its descriptor watched; any other leaves everything as it is.  When a
    descriptor becomes writable its oldest write is performed, in order, also
    when the callback queues more writes; the queues of other descriptors stay,
    and the descriptor is watched exactly as long as writes are queued for it,
    so that a descriptor that stays writable performs all of them. *)
Theorem write_queue_correct cfg issues w :
  wq_wf cfg w ->
  (forall r, 0 <= rq_fd r ->
     let '(res, w') := PROC_nonblocking_write_callback cfg w r in
     wq_wf cfg w' /\
     (granted w r /\ res = 0 /\ writeList w' = writeList w ++ [new_node r] /\ performed w' = performed w /\
        rq_fd r ∈ get (eventSet (wtable w')) FdWrite \/
      ~ granted w r /\ res = -1 /\ w' = w)) /\
  (forall f tx rest, pending (writeList w) f = tx :: rest -> Forall ample (issues tx) ->
     let w' := writable cfg issues w f in
     wq_wf cfg w' /\ performed w' = performed w ++ [tx] /\
     (forall g, pending (writeList w') g = taken (writeList w) f g ++ pending (new_node <$> issues tx) g) /\
     (f ∈ get (eventSet (wtable w')) FdWrite <-> pending (writeList w') f <> [])) /\
  (forall f,
     let w' := Nat.iter (length (pending (writeList w) f)) (fun w => writable cfg (fun _ => []) w f) w in
     performed w' = performed w ++ pending (writeList w) f /\ pending (writeList w') f = []).
Proof.
  intros Hwf. split_and!.
  - intros r Hf. pose proof (request_spec cfg w r Hwf Hf) as HR.
    destruct (PROC_nonblocking_write_callback cfg w r) as [res w1]. destruct HR as (W & P & A & C).
    split; [exact W|]. destruct C as [(G & R & L)|C]; [left|by right]. split_and!; [done..|].
    assert (Hin : new_node r ∈ writeList w1) by (rewrite L; apply elem_of_app; right; by left).
    apply (armed_watched cfg); [apply W|done|]. exact (wq_armed _ _ W _ Hin).
  - intros f tx rest Hp HF. by apply writable_spec with (rest := rest).
  - intros f. by destruct (drain_queue cfg w f Hwf) as (_ & P & N & _).
Qed.

(** Only [COPY_DATA_TO_WRITE] keeps the data: with the other options the node
    has no data and the length 0, so that nothing is written. *)
Theorem write_without_copy r : rq_options r <> COPY_DATA_TO_WRITE -> wn_data (new_node r) = None /\ wn_len (new_node r) = 0.
Proof. intros H. unfold new_node. by apply Z.eqb_neq in H as ->. Qed.

(** ** Witnesses *)

Definition demo_wconfig : wconfig := WC 70 71.
Definition demo_request (f : Z) (data : list Z) : request := Req f data 72 0 COPY_DATA_TO_WRITE true true true.
Definition empty_queue : wproc := WP [] (fds_init 3) [].

Lemma empty_queue_wf : wq_wf demo_wconfig empty_queue.
Proof.
  split; cbn [empty_queue writeList wtable].
  - by apply fds_init_wf.
  - intros n H. by apply elem_of_nil in H.
  - intros n H. by apply elem_of_nil in H.
  - intros f n H. unfold entry, chain in H. cbn [events fds_init] in H.
    destruct (replicate (Z.to_nat 3) [] !! bucket_of (fds_init 3) f) as [c|] eqn:E; [|done].
    apply lookup_replicate_1 in E as [-> _]. done.
Qed.

Definition two_queued : wproc :=
  foldl (fun w r => (PROC_nonblocking_write_callback demo_wconfig w r).2) empty_queue
    [demo_request 5 [1]; demo_request 5 [2]].

Lemma two_queued_wf : wq_wf demo_wconfig two_queued.
Proof. by apply (requests_spec demo_wconfig [demo_request 5 [1]; demo_request 5 [2]] empty_queue empty_queue_wf); repeat constructor. Qed.

(** The first write queues a third one. *)
Lemma write_queue_correct_witness :
  let w' := writable demo_wconfig (fun _ => [demo_request 5 [3]]) two_queued 5 in
  performed w' = [new_node (demo_request 5 [1])] /\ wn_data <$> pending (writeList w') 5 = [Some [2]; Some [3]].
Proof.
  destruct (write_queue_correct demo_wconfig (fun _ => [demo_request 5 [3]]) two_queued two_queued_wf) as (_ & H & _).
  destruct (H 5 (new_node (demo_request 5 [1])) [new_node (demo_request 5 [2])]) as (_ & P & Q & _).
  - vm_compute. reflexivity.
  - repeat constructor; vm_compute; discriminate.
  - split; [rewrite P; vm_compute; reflexivity|rewrite Q; vm_compute; reflexivity].
Defined.
