(* ===== verification/ProcChild.v ===== *)
(** * Child processes (proclib.c)

    The buffered reader of a child's output ([drain_buffer],
    [child_read_data]) and the life of the children of a process, from the fork
    to the report of their death ([validate_pipe_flush], [sigchld_handler],
    [CHLD_close_fd]).  The reader's callback works on a state of its own; bytes
    it takes are recorded.  A callback that returns a negative number other than
    the two codes, or memory that runs out (the code exits), is a fault
    ([None]).  The pipes, fork and wait4 are parameters: what read and wait4
    return.  Death callbacks are recorded and do not change the children. *)

From stdpp Require Import base gmap list numbers sorting.
From Stdlib Require Import ZArith Lia.
From S2P Require Import Prelude Words Sched IpcBuffer.
Open Scope Z_scope.

(** ** Buffered streams *)

Definition READ_BUFF_MIN : Z := 4096.
Definition READ_BUFF_MAX : Z := READ_BUFF_MIN * 4.
Definition CHILD_BUFF_ERR : Z := -2.
Definition CHILD_BUFF_STEAL_BUFF : Z := -3.
Definition CHILD_BUFF_NORM : Z := 0.
Definition CHILD_BUFF_CLOSING : Z := 1.
Definition CHILD_BUFF_NOROOM : Z := 2.

(** [BufferedStreamState] without its callback, which is a parameter below;
    [sbuff] is the allocated block. *)
Record BufferedStreamState := Stream { sbuff : option (list Z); buffLen : Z; buffCap : Z }.

Definition stream_init : BufferedStreamState := Stream None 0 0.

(** The buffered bytes. *)
Definition buffered (s : BufferedStreamState) : list Z := take (Z.to_nat (buffLen s)) (default [] (sbuff s)).

Section Reader.
Context {S : Type}.
(** What the callback returns for the urgency and the bytes. *)
Context (cb : Z -> list Z -> S -> Z * S).

(** [drain_buffer] with a callback set; [taken] are the bytes it took. *)
Fixpoint drain_buffer (fuel : nat) (urgent : Z) (st : BufferedStreamState) (s : S) (taken : list Z)
    : option (BufferedStreamState * S * list Z) :=
  match fuel with
  | O => None
  | Datatypes.S fuel' =>
      if buffLen st <=? 0 then Some (st, s, taken)
      else
        match sbuff st with
        | None => None
        | Some b =>
            let '(drainLen, s') := cb urgent (buffered st) s in
            if drainLen =? CHILD_BUFF_ERR then Some (st, s', taken)
            else if drainLen =? CHILD_BUFF_STEAL_BUFF then Some (Stream None 0 0, s', taken ++ buffered st)
            else if buffLen st <=? drainLen then Some (Stream (sbuff st) 0 (buffCap st), s', taken ++ buffered st)
            else if drainLen <? 0 then None
            else
              let len := buffLen st - drainLen in
              let st' := Stream (Some (shift_down (Z.to_nat len) 0 (Z.to_nat drainLen) b)) len (buffCap st) in
              let taken' := taken ++ take (Z.to_nat drainLen) (buffered st) in
              if drainLen =? 0 then Some (st', s', taken') else drain_buffer fuel' urgent st' s' taken'
        end
  end.

Definition drain (urgent : Z) (st : BufferedStreamState) (s : S) (taken : list Z) :=
  drain_buffer (Datatypes.S (Z.to_nat (buffLen st))) urgent st s taken.

(** A full buffer of the largest size; the last component is what was dropped. *)
Definition drain_full (st : BufferedStreamState) (s : S) (taken : list Z)
    : option (BufferedStreamState * S * list Z * list Z) :=
  if READ_BUFF_MAX <=? buffCap st then
    match drain CHILD_BUFF_NOROOM st s taken with
    | None => None
    | Some (st1, s1, t1) =>
        if buffCap st1 <=? buffLen st1
        then Some (Stream (sbuff st1) 0 (buffCap st1), s1, t1, buffered st1)
        else Some (st1, s1, t1, [])
    end
  else Some (st, s, taken, []).

(** Making room before a read. *)
Definition make_room (m : memory) (st : BufferedStreamState) (s : S) (taken : list Z)
    : option (BufferedStreamState * S * list Z * list Z) :=
  if buffCap st <=? buffLen st then
    match drain_full st s taken with
    | None => None
    | Some (st1, s1, t1, dropped) =>
        match sbuff st1 with
        | None =>
            match malloc m READ_BUFF_MIN with
            | None => None
            | Some b => Some (Stream (Some b) 0 READ_BUFF_MIN, s1, t1, dropped)
            end
        | Some b =>
            if (buffCap st1 <=? buffLen st1) && (buffCap st1 <? READ_BUFF_MAX) then
              let cap := Z.min (buffCap st1 * 2) READ_BUFF_MAX in
              match realloc m b cap with
              | None => None
              | Some b' => Some (Stream (Some b') (buffLen st1) cap, s1, t1, dropped)
              end
            else Some (st1, s1, t1, dropped)
        end
    end
  else Some (st, s, taken, []).

(** What read returns: an error, the end of the file, or bytes. *)
Inductive read_out := RdErr (again : bool) | RdEof | RdData (bytes : list Z).

(** [child_read_data] on a stream: whether the event is kept, whether the
    descriptor is closed, the bytes taken and those dropped.  The assertion that
    there is room is a fault if it fails, as is a read of more than the room. *)
Definition child_read_data (m : memory) (st : BufferedStreamState) (s : S) (rd : Z -> read_out)
    : option (bool * BufferedStreamState * S * list Z * list Z) :=
  match make_room m st s [] with
  | None => None
  | Some (st1, s1, t1, dropped) =>
      if negb (buffLen st1 <? buffCap st1) then None
      else
        match rd (buffCap st1 - buffLen st1), sbuff st1 with
        | RdData bytes, Some b =>
            match copy_to b (buffLen st1) bytes with
            | None => None
            | Some b' =>
                match drain CHILD_BUFF_NORM (Stream (Some b') (buffLen st1 + zlen bytes) (buffCap st1)) s1 t1 with
                | None => None
                | Some (st2, s2, t2) => Some (true, st2, s2, t2, dropped)
                end
            end
        | RdEof, _ =>
            match drain CHILD_BUFF_CLOSING st1 s1 t1 with
            | None => None
            | Some (st2, s2, t2) =>
                Some (false, match sbuff st2 with Some _ => stream_init | None => st2 end, s2, t2, dropped ++ buffered st2)
            end
        | RdErr again, _ => Some (again, st1, s1, t1, dropped)
        | RdData _, None => None
        end
  end.
End Reader.

(** *** Invariant *)

(** No block, or a block of the size recorded, of at most the maximum. *)
Definition stream_wf (s : BufferedStreamState) : Prop :=
  match sbuff s with
  | None => buffLen s = 0 /\ buffCap s = 0
  | Some b => zlen b = buffCap s /\ 0 <= buffLen s <= buffCap s /\
      (buffCap s = READ_BUFF_MIN \/ buffCap s = 2 * READ_BUFF_MIN \/ buffCap s = READ_BUFF_MAX)
  end.

(** What a callback may return. *)
Class Reader {S} (cb : Z -> list Z -> S -> Z * S) := {
  reader_code : forall u l s, (cb u l s).1 = CHILD_BUFF_ERR \/ (cb u l s).1 = CHILD_BUFF_STEAL_BUFF \/ 0 <= (cb u l s).1
}.

(** Enough memory for the blocks used. *)
Definition ample_memory (m : memory) : Prop := forall n, n <= READ_BUFF_MAX -> has_room m n = true.

Lemma buffered_length s : stream_wf s -> zlen (buffered s) = buffLen s.
Proof.
  unfold stream_wf, buffered. destruct (sbuff s) as [b|]; cbn [from_option id]; [|intros [-> _]; done].
  intros (H1 & H2 & _). rewrite length_take. lia.
Qed.

Section ReaderSpec.
Context {S : Type} (cb : Z -> list Z -> S -> Z * S) {HRd : Reader cb}.

(** The callback took something. *)
Definition took (r : Z * S) : Prop := r.1 = CHILD_BUFF_STEAL_BUFF \/ 0 < r.1.

(** One round of the loop: the bytes kept move to the front. *)
Lemma compress_spec st b n :
  stream_wf st -> sbuff st = Some b -> 0 <= n < buffLen st ->
  let st' := Stream (Some (shift_down (Z.to_nat (buffLen st - n)) 0 (Z.to_nat n) b)) (buffLen st - n) (buffCap st) in
  stream_wf st' /\ take (Z.to_nat n) (buffered st) ++ buffered st' = buffered st.
Proof.
  unfold stream_wf, buffered. intros Hwf Hb Hn. rewrite Hb in *. cbn [sbuff buffLen buffCap from_option id].
  destruct Hwf as (H1 & H2 & H3). rewrite shift_down_spec by lia. cbn [take app Nat.add]. rewrite take_0. cbn [app].
  split.
  - rewrite length_app, length_take, !length_drop. split; [lia|]. split; [lia|done].
  - rewrite take_app_length' by (rewrite length_take, length_drop; lia).
    rewrite take_take, Nat.min_l by lia. rewrite take_take_drop. f_equal. lia.
Qed.

(** Draining ends and only moves bytes from the buffer to those taken. *)
Lemma drain_spec u fuel : forall st s taken,
  stream_wf st -> (Z.to_nat (buffLen st) < fuel)%nat ->
  exists st' s' more, drain_buffer cb fuel u st s taken = Some (st', s', taken ++ more) /\
    stream_wf st' /\ more ++ buffered st' = buffered st /\
    (sbuff st' = None \/ buffCap st' = buffCap st) /\ buffLen st' = buffLen st - zlen more /\
    (0 < buffLen st -> took (cb u (buffered st) s) -> more <> []).
Proof.
  induction fuel as [|fuel IH]; intros st s taken Hwf Hf; [lia|]. cbn [drain_buffer].
  pose proof (buffered_length st Hwf) as HL.
  destruct (Z.leb_spec (buffLen st) 0) as [H0|H0].
  { exists st, s, []. rewrite app_nil_r. split_and!; [done..|by right|simpl; lia|lia]. }
  pose proof Hwf as Hwf'. unfold stream_wf in Hwf'. destruct (sbuff st) as [b|] eqn:Eb; [|lia]. destruct Hwf' as (H1 & H2 & H3).
  pose proof (reader_code u (buffered st) s) as Hc. destruct (cb u (buffered st) s) as [n s1]. cbn [fst] in Hc.
  assert (Hne : buffered st <> []) by (intros E; rewrite E in HL; simpl in HL; lia).
  unfold took. cbn [fst].
  destruct (Z.eqb_spec n CHILD_BUFF_ERR) as [E1|E1].
  { exists st, s1, []. rewrite app_nil_r. split_and!; [done..|by right|simpl; lia|]. intros _. unfold CHILD_BUFF_ERR, CHILD_BUFF_STEAL_BUFF in *. lia. }
  destruct (Z.eqb_spec n CHILD_BUFF_STEAL_BUFF) as [_|E2].
  { exists (Stream None 0 0), s1, (buffered st). split_and!; [done|done|by rewrite app_nil_r|by left|cbn [buffLen]; lia|done]. }
  destruct (Z.leb_spec (buffLen st) n) as [Hn|Hn].
  { exists (Stream (Some b) 0 (buffCap st)), s1, (buffered st).
    split_and!; [done|unfold stream_wf; cbn; split; [done|split; [lia|done]]|by rewrite app_nil_r|by right|cbn [buffLen]; lia|done]. }
  assert (Hn0 : 0 <= n) by (destruct Hc as [?|[?|?]]; done). destruct (Z.ltb_spec n 0) as [?|_]; [lia|].
  destruct (compress_spec st b n Hwf Eb ltac:(lia)) as [W C]. set (st' := Stream _ _ _) in *.
  assert (Ht : zlen (take (Z.to_nat n) (buffered st)) = n) by (rewrite length_take; lia).
  destruct (Z.eqb_spec n 0) as [-> |Hnz].
  { exists st', s1, (take (Z.to_nat 0) (buffered st)). split_and!; [done|done|done|by right|rewrite Ht; done|]. intros _. unfold CHILD_BUFF_STEAL_BUFF. lia. }
  destruct (IH st' s1 (taken ++ take (Z.to_nat n) (buffered st)) W) as (st2 & s2 & more & E & W2 & C2 & P2 & L2 & _).
  { cbn [st' buffLen]. lia. }
  exists st2, s2, (take (Z.to_nat n) (buffered st) ++ more). rewrite E, <- app_assoc.
  split_and!; [done|done|by rewrite <- app_assoc, C2|exact P2| |].
  - rewrite L2, length_app, Nat2Z.inj_add, Ht. cbn [st' buffLen]. lia.
  - intros _ _ [E0 _]%app_eq_nil. rewrite E0 in Ht. simpl in Ht. lia.
Qed.

Lemma drain_full_spec st s :
  stream_wf st -> buffCap st <= buffLen st ->
  exists st1 s1 t dropped, drain_full cb st s [] = Some (st1, s1, t, dropped) /\
    stream_wf st1 /\ t ++ dropped ++ buffered st1 = buffered st /\
    (dropped <> [] -> t = [] /\ buffLen st = READ_BUFF_MAX /\ ~ took (cb CHILD_BUFF_NOROOM (buffered st) s)) /\
    (sbuff st1 = None \/ buffLen st1 < buffCap st1 \/ buffCap st1 < READ_BUFF_MAX).
Proof.
  intros Hwf Hfull. unfold drain_full. unfold stream_wf in Hwf. destruct (Z.leb_spec READ_BUFF_MAX (buffCap st)) as [Hmax|Hmax].
  2:{ exists st, s, [], []. split_and!; [done..|right; right; lia]. }
  destruct (drain_spec CHILD_BUFF_NOROOM (Datatypes.S (Z.to_nat (buffLen st))) st s []) as (st1 & s1 & more & E & W & C & P & L & N);
    [done|lia|]. unfold drain. rewrite E. cbn [app]. pose proof (buffered_length st1 W) as HL1.
  assert (Hsz : buffLen st = READ_BUFF_MAX).
  { destruct (sbuff st); [|unfold READ_BUFF_MAX, READ_BUFF_MIN in *; lia].
    destruct Hwf as (_ & ? & Hc). unfold READ_BUFF_MAX, READ_BUFF_MIN in *. destruct Hc as [?|[?|?]]; lia. }
  destruct (Z.leb_spec (buffCap st1) (buffLen st1)) as [Hf1|Hf1].
  - eexists _, s1, more, (buffered st1). split; [done|]. unfold stream_wf in W |- *. cbn [sbuff buffLen buffCap].
    split_and!.
    + destruct (sbuff st1); [|by destruct W]. destruct W as (? & ? & ?). split; [done|]. split; [lia|done].
    + unfold buffered at 2. cbn [buffLen]. cbn [Z.to_nat]. rewrite take_0, app_nil_r. exact C.
    + intros Hd. destruct P as [P|P].
      * exfalso. apply Hd. unfold buffered. rewrite P. cbn [from_option]. apply take_nil.
      * assert (Hm : more = []) by (destruct more; [done|]; exfalso; simpl length in L; lia).
        split; [done|]. split; [done|]. intros Ht. apply N in Ht; [done|]. unfold READ_BUFF_MAX, READ_BUFF_MIN in *. lia.
    + destruct P as [P|P]; [by left|right; left]. unfold READ_BUFF_MAX, READ_BUFF_MIN in *. lia.
  - exists st1, s1, more, []. split_and!; [done..|right; by left].
Qed.

(** Making room: bytes are dropped only from a full buffer of the largest size
    of which the callback took nothing. *)
Lemma make_room_spec m st s :
  stream_wf st -> ample_memory m ->
  exists st1 s1 t dropped, make_room cb m st s [] = Some (st1, s1, t, dropped) /\
    stream_wf st1 /\ is_Some (sbuff st1) /\ buffLen st1 < buffCap st1 /\
    t ++ dropped ++ buffered st1 = buffered st /\
    (dropped <> [] -> t = [] /\ buffLen st = READ_BUFF_MAX /\ ~ took (cb CHILD_BUFF_NOROOM (buffered st) s)).
Proof.
  intros Hwf Hm. unfold make_room. destruct (Z.leb_spec (buffCap st) (buffLen st)) as [Hfull|Hroom].
  2:{ exists st, s, [], []. split_and!; [done|done| |done|done|done].
      unfold stream_wf in Hwf. destruct (sbuff st); [done|]. lia. }
  destruct (drain_full_spec st s Hwf Hfull) as (st1 & s1 & t & dropped & -> & W1 & B1 & D1 & C1).
  unfold stream_wf in W1. destruct (sbuff st1) as [b|] eqn:Eb.
  - destruct W1 as (Z1 & Z2 & Z3).
    destruct (Z.leb_spec (buffCap st1) (buffLen st1)) as [Hf1|Hf1]; cbn [andb].
    + destruct C1 as [?|[?|C1]]; [done|lia|]. destruct (Z.ltb_spec (buffCap st1) READ_BUFF_MAX) as [_|?]; [|lia].
      set (cap := Z.min _ _). assert (Hcap : buffCap st1 < cap <= READ_BUFF_MAX /\ (cap = 2 * READ_BUFF_MIN \/ cap = READ_BUFF_MAX)).
      { unfold cap, READ_BUFF_MAX, READ_BUFF_MIN in *. destruct Z3 as [E|[E|E]]; rewrite E in *; lia. }
      destruct (realloc m b cap) as [b'|] eqn:Er.
      2:{ unfold realloc in Er. rewrite Hm in Er by lia. done. }
      destruct (realloc_spec _ _ _ _ Er) as [R1 R2]; [lia|].
      eexists _, s1, t, dropped. split; [done|]. cbn [sbuff buffLen buffCap].
      split; [unfold stream_wf; cbn; split; [done|split; [lia|tauto]]|]. split; [done|]. split; [lia|]. split; [|done].
      rewrite <- B1. do 2 f_equal. unfold buffered. rewrite Eb. cbn [sbuff buffLen from_option id].
      assert (E : take (Z.to_nat (buffLen st1)) b = take (Z.to_nat (buffLen st1)) b').
      { rewrite <- R2 at 1. rewrite take_take. f_equal. lia. }
      done.
    + exists st1, s1, t, dropped. split; [done|]. split; [unfold stream_wf; by rewrite Eb|]. rewrite Eb. done.
  - unfold malloc. rewrite Hm by (unfold READ_BUFF_MAX, READ_BUFF_MIN; lia).
    eexists _, s1, t, dropped. split; [done|]. split.
    { unfold stream_wf. cbn. rewrite length_replicate. unfold READ_BUFF_MIN. split; [lia|]. split; [lia|by left]. }
    split; [done|]. split; [done|]. split; [|done]. rewrite <- B1. do 2 f_equal. unfold buffered. rewrite Eb. cbn [from_option]. by rewrite take_nil.
Qed.

(** What read may return: at most as many bytes as asked for. *)
Definition read_ok (rd : Z -> read_out) : Prop :=
  forall room, match rd room with RdData bytes => zlen bytes <= room | _ => True end.

(** The bytes one call read, if any. *)
Definition read_bytes (m : memory) (st : BufferedStreamState) (s : S) (rd : Z -> read_out) : list Z :=
  match make_room cb m st s [] with
  | Some (st1, _, _, _) => match rd (buffCap st1 - buffLen st1) with RdData bytes => bytes | _ => [] end
  | None => []
  end.

Lemma put_bytes st b bytes :
  stream_wf st -> sbuff st = Some b -> zlen bytes <= buffCap st - buffLen st ->
  exists b', copy_to b (buffLen st) bytes = Some b' /\
    let st' := Stream (Some b') (buffLen st + zlen bytes) (buffCap st) in
    stream_wf st' /\ buffered st' = buffered st ++ bytes.
Proof.
  unfold stream_wf, buffered. intros Hwf Hb Hn. rewrite Hb in *. cbn [from_option id]. destruct Hwf as (H1 & H2 & H3).
  unfold copy_to. rewrite (proj2 (Z.leb_le 0 (buffLen st))), (proj2 (Z.leb_le (buffLen st + zlen bytes) (zlen b))) by lia.
  eexists. split; [done|]. cbn [sbuff buffLen buffCap]. split.
  - rewrite splice_length by lia. split; [done|]. split; [lia|done].
  - cbn [from_option id]. unfold splice. rewrite app_assoc, take_app_length'; [done|]. rewrite length_app, length_take. lia.
Qed.

(** One call of [child_read_data]. *)
Lemma read_data_spec m st s rd :
  stream_wf st -> ample_memory m -> read_ok rd ->
  exists keep st' s' t1 t2 dropped lost,
    child_read_data cb m st s rd = Some (keep, st', s', t1 ++ t2, dropped ++ lost) /\ stream_wf st' /\
    t1 ++ dropped ++ t2 ++ lost ++ buffered st' = buffered st ++ read_bytes m st s rd /\
    (dropped <> [] -> t1 = [] /\ buffLen st = READ_BUFF_MAX /\ ~ took (cb CHILD_BUFF_NOROOM (buffered st) s)) /\ (keep = true -> lost = []).
Proof.
  intros Hwf Hm Hrd. unfold child_read_data, read_bytes.
  destruct (make_room_spec m st s Hwf Hm) as (st1 & s1 & t & dropped & -> & W1 & [b Eb] & L1 & B1 & D1).
  destruct (Z.ltb_spec (buffLen st1) (buffCap st1)) as [_|?]; [|lia]. cbn [negb]. rewrite Eb.
  specialize (Hrd (buffCap st1 - buffLen st1)). destruct (rd (buffCap st1 - buffLen st1)) as [again| |bytes].
  - exists again, st1, s1, t, [], dropped, []. rewrite !app_nil_r. split_and!; done.
  - destruct (drain_spec CHILD_BUFF_CLOSING (Datatypes.S (Z.to_nat (buffLen st1))) st1 s1 t W1) as (st2 & s2 & more & E & W & C & _); [lia|].
    unfold drain. rewrite E. eexists false, _, s2, t, more, dropped, (buffered st2). split; [done|]. split.
    { destruct (sbuff st2); [done|exact W]. }
    split; [|split; [done|done]].
    replace (buffered (match sbuff st2 with Some _ => stream_init | None => st2 end)) with (@nil Z).
    2:{ destruct (sbuff st2) eqn:E2; [done|]. unfold buffered. rewrite E2. cbn [from_option]. by rewrite take_nil. }
    rewrite !app_nil_r, C. exact B1.
  - destruct (put_bytes st1 b bytes W1 Eb Hrd) as (b' & -> & W' & B'). cbv zeta in W', B'. set (st1' := Stream _ _ _) in *.
    destruct (drain_spec CHILD_BUFF_NORM (Datatypes.S (Z.to_nat (buffLen st1'))) st1' s1 t W') as (st2 & s2 & more & E & W & C & _); [lia|].
    unfold drain. rewrite E. eexists true, _, s2, t, more, dropped, []. rewrite app_nil_r. split; [done|]. split; [exact W|].
    split; [|done]. cbn [app]. rewrite C, B', !app_assoc. f_equal. rewrite <- app_assoc. exact B1.
Qed.

(** A stream read until its end: whether it is still open, the stream, the
    bytes taken, those lost and those read. *)
Fixpoint read_stream (m : memory) (rds : list (Z -> read_out)) (st : BufferedStreamState) (s : S)
    (taken lost got : list Z) : option (bool * BufferedStreamState * S * list Z * list Z * list Z) :=
  match rds with
  | [] => Some (true, st, s, taken, lost, got)
  | rd :: rds' =>
      match child_read_data cb m st s rd with
      | None => None
      | Some (keep, st', s', t, l) =>
          let got' := got ++ read_bytes m st s rd in
          if keep then read_stream m rds' st' s' (taken ++ t) (lost ++ l) got'
          else Some (false, st', s', taken ++ t, lost ++ l, got')
      end
  end.

(** C16. The buffered reader of a child's output.  Whatever read returns, the
    room it asserts is there, the buffer stays within its block and the block
    within 16384 bytes; and with a callback that takes something when the buffer
    is full, the bytes taken, in order, are those read, but for what the
    callback left in the buffer, or left at the end of the file. *)
Theorem child_stream_correct m rds s :
  ample_memory m -> Forall read_ok rds ->
  exists open st' s' taken lost got,
    read_stream m rds stream_init s [] [] [] = Some (open, st', s', taken, lost, got) /\
    stream_wf st' /\ 0 <= buffLen st' <= 16384 /\
    ((forall l s, took (cb CHILD_BUFF_NOROOM l s)) ->
       taken ++ lost ++ buffered st' = got /\ (open = true -> lost = [])).
Proof.
  intros Hm HF.
  assert (H : forall st s taken got, stream_wf st -> exists open st' s' t lost got',
    (forall l0, read_stream m rds st s taken l0 got = Some (open, st', s', taken ++ t, l0 ++ lost, got ++ got')) /\
    stream_wf st' /\ ((forall l s, took (cb CHILD_BUFF_NOROOM l s)) ->
      t ++ lost ++ buffered st' = buffered st ++ got' /\ (open = true -> lost = []))).
  { clear s. induction HF as [|rd rds Hrd HF IH]; intros st s taken got Hwf; cbn [read_stream].
    - exists true, st, s, [], [], []. split; [intros l0; by rewrite !app_nil_r|]. split; [done|]. intros _. by rewrite app_nil_r.
    - destruct (read_data_spec m st s rd Hwf Hm Hrd) as (keep & st1 & s1 & t1 & t2 & dropped & lost & -> & W & B & D & K).
      assert (Hd : (forall l s, took (cb CHILD_BUFF_NOROOM l s)) -> dropped = []).
      { intros Hp. destruct dropped; [done|]. destruct D as (_ & _ & D); [done|]. by destruct (D (Hp _ _)). }
      destruct keep.
      + destruct (IH st1 s1 (taken ++ t1 ++ t2) (got ++ read_bytes m st s rd) W) as (op & st' & s' & t & lo & got' & E & W' & P).
        exists op, st', s', ((t1 ++ t2) ++ t), ((dropped ++ lost) ++ lo), (read_bytes m st s rd ++ got').
        split; [intros l0; rewrite E; by rewrite <- !app_assoc|]. split; [exact W'|]. intros Hp.
        specialize (P Hp) as [P1 P2]. rewrite (Hd Hp), K in * by done. cbn [app] in *. split; [|exact P2].
        rewrite <- app_assoc, P1, !app_assoc. f_equal. rewrite <- app_assoc. exact B.
      + exists false, st1, s1, (t1 ++ t2), (dropped ++ lost), (read_bytes m st s rd). split; [done|]. split; [exact W|].
        intros Hp. rewrite (Hd Hp) in *. cbn [app] in *. split; [|done]. rewrite <- app_assoc. exact B. }
  destruct (H stream_init s [] []) as (op & st' & s' & t & lo & got & E & W & P); [done|].
  exists op, st', s', t, lo, got. split; [exact (E [])|]. split; [exact W|]. split; [|exact P].
  unfold stream_wf, READ_BUFF_MAX, READ_BUFF_MIN in W. destruct (sbuff st'); lia.
Qed.
End ReaderSpec.

(** A callback that takes lines: up to the last byte 10, everything at need. *)
Definition line_reader (u : Z) (l : list Z) (lines : list (list Z)) : Z * list (list Z) :=
  if u =? CHILD_BUFF_NORM then
    match list_find (fun c => c = 10) l with
    | Some (i, _) => (Z.of_nat i + 1, lines ++ [take i l])
    | None => (0, lines)
    end
  else (CHILD_BUFF_STEAL_BUFF, lines ++ [l]).

#[export] Instance line_reader_ok : Reader line_reader.
Proof.
  split. intros u l s. unfold line_reader. destruct (u =? CHILD_BUFF_NORM); [|by right; left].
  destruct (list_find _ l) as [[i x]|]; right; right; cbn; lia.
Qed.

Definition demo_read (bytes : list Z) (room : Z) : read_out := if zlen bytes <=? room then RdData bytes else RdErr true.

Lemma demo_read_ok bytes : read_ok (demo_read bytes).
Proof. intros room. unfold demo_read. destruct (Z.leb_spec (zlen bytes) room); done. Qed.

(** Two reads that cut through a line. *)
Lemma child_stream_correct_witness :
  exists open st' taken lost got,
    read_stream line_reader plenty [demo_read [97; 10; 98]; demo_read [99; 10]] stream_init [] [] [] []
      = Some (open, st', [[97]; [98; 99]], taken, lost, got) /\
    taken ++ lost ++ buffered st' = got.
Proof.
  destruct (child_stream_correct line_reader plenty [demo_read [97; 10; 98]; demo_read [99; 10]] [])
    as (open & st' & s' & taken & lost & got & E & _ & _ & P).
  - intros n _. reflexivity.
  - repeat constructor; apply demo_read_ok.
  - exists open, st', taken, lost, got. split.
    + assert (Es : (fun r => r.1.1.1.2) <$> read_stream line_reader plenty [demo_read [97; 10; 98]; demo_read [99; 10]]
                    stream_init [] [] [] [] = Some [[97]; [98; 99]]) by (vm_compute; reflexivity).
      rewrite E in Es |- *. cbn in Es. injection Es as ->. reflexivity.
    + apply P. intros l s. by left.
Defined.

(** ** Children *)

(** [CHILD_STATE_INIT] to [CHILD_STATE_DONE]; nothing sets the second. *)
Inductive child_state := CHILD_STATE_INIT | CHILD_STATE_RUNNING | CHILD_STATE_FLUSH_PIPES | CHILD_STATE_DONE.

#[export] Instance child_state_eq_dec : EqDecision child_state.
Proof. solve_decision. Defined.

(** [struct ProcChild] without usage and streams. *)
Record ProcChild := Child {
  procId : Z;
  exitStatus : Z;
  ch_state : child_state;
  stdin_fd : Z;
  stdout_fd : Z;
  stderr_fd : Z;
  deathCb : option Z
}.

(** The children in memory, the list of the process, the calls of death
    callbacks (callback, child, status) and the descriptors closed. *)
Record family := Fam {
  kids : gmap positive ProcChild;
  childHead : list positive;
  deaths : list (Z * positive * Z);
  shut : list Z
}.

Definition put_kid (f : family) (p : positive) (c : ProcChild) : family :=
  Fam (<[p := c]> (kids f)) (childHead f) (deaths f) (shut f).

Definition with_child_state (c : ProcChild) (s : child_state) : ProcChild :=
  Child (procId c) (exitStatus c) s (stdin_fd c) (stdout_fd c) (stderr_fd c) (deathCb c).

(** The end of [PROC_fork_child_fd]: a new child at [p]. *)
Definition add_child (f : family) (p : positive) (pid in_fd out_fd err_fd : Z) : family :=
  Fam (<[p := Child pid 0 CHILD_STATE_INIT in_fd out_fd err_fd None]> (kids f)) (p :: childHead f) (deaths f) (shut f).

Definition CHLD_death_notice (f : family) (p : positive) (cb : option Z) : family :=
  match kids f !! p with
  | None => f
  | Some c => put_kid f p (Child (procId c) (exitStatus c) (ch_state c) (stdin_fd c) (stdout_fd c) (stderr_fd c) cb)
  end.

Fixpoint unlink_child (p : positive) (l : list positive) : option (list positive) :=
  match l with
  | [] => None
  | q :: l' => if decide (q = p) then Some l' else cons q <$> unlink_child p l'
  end.

Definition validate_pipe_flush (f : family) (p : positive) : family :=
  match kids f !! p with
  | None => f
  | Some c =>
      if negb (bool_decide (ch_state c = CHILD_STATE_FLUSH_PIPES)) then f
      else if negb (stdin_fd c =? -1) || negb (stdout_fd c =? -1) || negb (stderr_fd c =? -1) then f
      else
        let d := match deathCb c with Some cb => deaths f ++ [(cb, p, exitStatus c)] | None => deaths f end in
        match unlink_child p (childHead f) with
        | Some l => Fam (delete p (kids f)) l d (shut f)
        | None => Fam (<[p := with_child_state c CHILD_STATE_DONE]> (kids f)) (childHead f) d (shut f)
        end
  end.

(** One child in the loop of [sigchld_handler]. *)
Definition reap_one (pid status : Z) (f : family) (p : positive) : family :=
  match kids f !! p with
  | None => f
  | Some c =>
      if negb (procId c =? pid) || bool_decide (ch_state c = CHILD_STATE_DONE) then f
      else validate_pipe_flush
             (put_kid f p (Child (procId c) status CHILD_STATE_FLUSH_PIPES (stdin_fd c) (stdout_fd c) (stderr_fd c) (deathCb c))) p
  end.

(** [sigchld_handler]: the children wait4 returns, then none. *)
Definition sigchld_handler (f : family) (waited : list (Z * Z)) : family :=
  foldl (fun f '(pid, status) => foldl (reap_one pid status) f (childHead f)) f waited.

Definition CHLD_close_fd (f : family) (p : positive) (x : Z) : family :=
  match kids f !! p with
  | None => f
  | Some c =>
      if x <? 0 then f
      else if (x =? stdin_fd c) || (x =? stdout_fd c) || (x =? stderr_fd c) then
        let gone y := if x =? y then -1 else y in
        let c' := Child (procId c) (exitStatus c) (ch_state c) (gone (stdin_fd c)) (gone (stdout_fd c))
                    (gone (stderr_fd c)) (deathCb c) in
        validate_pipe_flush (Fam (<[p := c']> (kids f)) (childHead f) (deaths f) (shut f ++ [x])) p
      else f
  end.

Definition CHLD_close_stdin (f : family) (p : positive) : family :=
  match kids f !! p with None => f | Some c => CHLD_close_fd f p (stdin_fd c) end.

(** *** Specification *)

(** A child is over when its exit was seen and its pipes are closed. *)
Definition over (c : ProcChild) : bool :=
  bool_decide (ch_state c = CHILD_STATE_FLUSH_PIPES) && (stdin_fd c =? -1) && (stdout_fd c =? -1) && (stderr_fd c =? -1).

Definition report (p : positive) (c : ProcChild) : list (Z * positive * Z) :=
  match deathCb c with Some cb => [(cb, p, exitStatus c)] | None => [] end.

(** The list is the children in memory, and none of them is over or done. *)
Record fam_wf (f : family) : Prop := {
  fam_nodup : NoDup (childHead f);
  fam_list : forall p, p ∈ childHead f <-> is_Some (kids f !! p);
  fam_live : forall p c, kids f !! p = Some c -> over c = false /\ ch_state c <> CHILD_STATE_DONE
}.

(** What becomes of a family when the child [p] turns into [c]. *)
Definition becomes (f : family) (p : positive) (c : ProcChild) (f' : family) : Prop :=
  fam_wf f' /\
  (forall q, q <> p -> kids f' !! q = kids f !! q) /\
  (if over c then kids f' !! p = None /\ deaths f' = deaths f ++ report p c /\ childHead f ≡ₚ p :: childHead f'
   else kids f' !! p = Some c /\ deaths f' = deaths f /\ childHead f' = childHead f).

Lemma unlink_child_spec p l : p ∈ l -> exists k, unlink_child p l = Some k /\ l ≡ₚ p :: k.
Proof.
  induction l as [|q l IH]; intros Hp; [by apply elem_of_nil in Hp|]. cbn [unlink_child].
  case_decide as E; [subst; by exists l|]. apply elem_of_cons in Hp as [Hp|Hp]; [congruence|].
  destruct (IH Hp) as (k & -> & Hk). exists (q :: k). split; [done|]. rewrite Hk. apply Permutation_swap.
Qed.

(** [validate_pipe_flush] after the child was changed to [c]. *)
Lemma validate_spec f p c s :
  fam_wf f -> is_Some (kids f !! p) -> ch_state c <> CHILD_STATE_DONE ->
  becomes f p c (validate_pipe_flush (Fam (<[p := c]> (kids f)) (childHead f) (deaths f) s) p).
Proof.
  intros [F1 F2 F3] Hp Hd. unfold validate_pipe_flush, becomes, over. cbn [kids childHead deaths shut]. rewrite lookup_insert_eq.
  assert (Hin : p ∈ childHead f) by by apply F2.
  assert (Hbig : forall q, q ∈ childHead f <-> is_Some (<[p := c]> (kids f) !! q)).
  { intros q. rewrite lookup_insert_is_Some, F2. destruct (decide (p = q)); naive_solver. }
  destruct (bool_decide (ch_state c = CHILD_STATE_FLUSH_PIPES) && (stdin_fd c =? -1) && (stdout_fd c =? -1) && (stderr_fd c =? -1)) eqn:Eo.
  - apply andb_true_iff in Eo as [Eo E4]. apply andb_true_iff in Eo as [Eo E3]. apply andb_true_iff in Eo as [E1 E2].
    rewrite E1, E2, E3, E4. cbn [negb orb].
    destruct (unlink_child_spec p (childHead f) Hin) as (k & -> & Hk). cbn [kids childHead deaths].
    assert (Hnd : NoDup (p :: k)) by by rewrite <- Hk. apply NoDup_cons in Hnd as [Hpk Hnd].
    split; [|split; [|split_and!]].
    + split; cbn [kids childHead]; [done| |].
      * intros q. rewrite lookup_delete_is_Some, <- Hbig. rewrite Hk at 1. rewrite elem_of_cons. naive_solver.
      * intros q c' Hq. apply lookup_delete_Some in Hq as [Hne Hq]. rewrite lookup_insert_ne in Hq by done. by apply (F3 q).
    + intros q Hq. by rewrite lookup_delete_ne, lookup_insert_ne.
    + apply lookup_delete_eq.
    + unfold report. destruct (deathCb c); [done|by rewrite app_nil_r].
    + done.
  - assert (HF : fam_wf (Fam (<[p := c]> (kids f)) (childHead f) (deaths f) s)).
    { split; cbn [kids childHead]; [done|exact Hbig|]. intros q c' Hq.
      apply lookup_insert_Some in Hq as [[<- <-]|[_ Hq]]; [by split|by apply (F3 q)]. }
    assert (HR : fam_wf (Fam (<[p := c]> (kids f)) (childHead f) (deaths f) s) /\
      (forall q, q <> p -> <[p := c]> (kids f) !! q = kids f !! q) /\
      <[p := c]> (kids f) !! p = Some c /\ deaths f = deaths f /\ childHead f = childHead f).
    { split; [exact HF|]. split; [intros q Hq; by rewrite lookup_insert_ne|]. by rewrite lookup_insert_eq. }
    destruct (bool_decide (ch_state c = CHILD_STATE_FLUSH_PIPES)), (stdin_fd c =? -1), (stdout_fd c =? -1),
      (stderr_fd c =? -1); cbn [negb orb andb] in *; done.
Qed.

(** A child after its exit was seen, and after one of its pipes was closed. *)
Definition reaped (c : ProcChild) (status : Z) : ProcChild :=
  Child (procId c) status CHILD_STATE_FLUSH_PIPES (stdin_fd c) (stdout_fd c) (stderr_fd c) (deathCb c).

Definition pipe_closed (c : ProcChild) (x : Z) : ProcChild :=
  let gone y := if x =? y then -1 else y in
  Child (procId c) (exitStatus c) (ch_state c) (gone (stdin_fd c)) (gone (stdout_fd c)) (gone (stderr_fd c)) (deathCb c).

Definition has_pipe (c : ProcChild) (x : Z) : bool := (x =? stdin_fd c) || (x =? stdout_fd c) || (x =? stderr_fd c).

Lemma close_spec f p c x :
  fam_wf f -> kids f !! p = Some c -> 0 <= x -> has_pipe c x = true -> becomes f p (pipe_closed c x) (CHLD_close_fd f p x).
Proof.
  intros Hwf Hp Hx Hh. unfold CHLD_close_fd. rewrite Hp. destruct (Z.ltb_spec x 0); [lia|].
  unfold has_pipe in Hh. rewrite Hh. apply validate_spec; [done|by exists c|]. exact (proj2 (fam_live _ Hwf p c Hp)).
Qed.

Lemma close_other f p c x :
  kids f !! p = Some c -> x < 0 \/ has_pipe c x = false -> CHLD_close_fd f p x = f.
Proof.
  intros Hp H. unfold CHLD_close_fd. rewrite Hp. destruct (Z.ltb_spec x 0) as [_|Hx]; [done|].
  destruct H as [H|H]; [lia|]. unfold has_pipe in H. by rewrite H.
Qed.

Lemma reap_one_spec pid status f p c :
  fam_wf f -> kids f !! p = Some c ->
  if procId c =? pid then becomes f p (reaped c status) (reap_one pid status f p) else reap_one pid status f p = f.
Proof.
  intros Hwf Hp. unfold reap_one. rewrite Hp. pose proof (proj2 (fam_live _ Hwf p c Hp)) as Hd.
  rewrite (bool_decide_eq_false_2 (ch_state c = CHILD_STATE_DONE)) by done.
  destruct (procId c =? pid); cbn [negb orb]; [|done]. apply validate_spec; [done|by exists c|done].
Qed.

(** What a reaped process does to one child, and the reports about it. *)
Definition reap_child (pid status : Z) (c : ProcChild) : option ProcChild :=
  if procId c =? pid then if over (reaped c status) then None else Some (reaped c status) else Some c.

Definition reap_report (pid status : Z) (p : positive) (c : ProcChild) : list (Z * positive * Z) :=
  if (procId c =? pid) && over (reaped c status) then report p (reaped c status) else [].

(** The reports about one child. *)
Definition about (p : positive) (l : list (Z * positive * Z)) : list (Z * positive * Z) := filter (fun d => d.1.2 = p) l.

Lemma about_app p l k : about p (l ++ k) = about p l ++ about p k.
Proof. apply filter_app. Qed.

Lemma about_report p q c : about p (report q c) = if decide (q = p) then report q c else [].
Proof. unfold about, report. destruct (deathCb c); [|by case_decide]. rewrite filter_cons. cbn. by case_decide. Qed.

Lemma becomes_about f p c f' q :
  becomes f p c f' ->
  about q (deaths f') = about q (deaths f) ++ (if decide (q = p) then if over c then report p c else [] else []).
Proof.
  intros (_ & _ & H). destruct (over c).
  - destruct H as (_ & -> & _). rewrite about_app, about_report. f_equal. by repeat case_decide.
  - destruct H as (_ & -> & _). case_decide; by rewrite app_nil_r.
Qed.

(** The loop over the children, from any point on. *)
Lemma reap_loop_spec pid status l : forall f,
  fam_wf f -> NoDup l ->
  let f' := foldl (reap_one pid status) f l in
  fam_wf f' /\
  (forall p, kids f' !! p = (if decide (p ∈ l) then kids f !! p ≫= reap_child pid status else kids f !! p)) /\
  (forall p, about p (deaths f') = about p (deaths f) ++
     (if decide (p ∈ l) then from_option (reap_report pid status p) [] (kids f !! p) else [])).
Proof.
  induction l as [|q l IH]; intros f Hwf Hnd; cbn [foldl].
  { split; [done|]. split; intros p; case_decide as E; [by apply elem_of_nil in E|done|by apply elem_of_nil in E|by rewrite app_nil_r]. }
  apply NoDup_cons in Hnd as [Hq Hnd].
  assert (H1 : fam_wf (reap_one pid status f q) /\
    (forall p, kids (reap_one pid status f q) !! p = if decide (p = q) then kids f !! q ≫= reap_child pid status else kids f !! p) /\
    (forall p, about p (deaths (reap_one pid status f q)) =
       about p (deaths f) ++ if decide (p = q) then from_option (reap_report pid status q) [] (kids f !! q) else [])).
  { destruct (kids f !! q) as [c|] eqn:Eq.
    - pose proof (reap_one_spec pid status f q c Hwf Eq) as HR. cbn [mbind option_bind from_option].
      unfold reap_child, reap_report. destruct (procId c =? pid); cbn [andb].
      + pose proof HR as (W & O & K). split; [exact W|]. split; intros p.
        * case_decide as E; [subst|by apply O]. destruct (over (reaped c status)); apply K.
        * exact (becomes_about _ _ _ _ p HR).
      + rewrite HR. split; [done|]. split; intros p; case_decide as E; [by subst|done|by rewrite app_nil_r|by rewrite app_nil_r].
    - unfold reap_one. rewrite Eq. split; [done|]. split; intros p; case_decide as E; [by subst|done|by rewrite app_nil_r|by rewrite app_nil_r]. }
  destruct H1 as (W1 & K1 & A1). destruct (IH _ W1 Hnd) as (W & K & A). split; [exact W|]. split; intros p.
  - rewrite K, K1. destruct (decide (p = q)) as [-> |Hne].
    + rewrite decide_False by done. by rewrite decide_True by (by left).
    + destruct (decide (p ∈ l)) as [Hl|Hl].
      * by rewrite decide_True by (by right).
      * rewrite decide_False; [done|]. by intros [?|?]%elem_of_cons.
  - rewrite A, A1, K1, <- app_assoc. f_equal. destruct (decide (p = q)) as [-> |Hne].
    + rewrite (decide_False (P := q ∈ l)) by done. rewrite app_nil_r. by rewrite decide_True by (by left).
    + destruct (decide (p ∈ l)) as [Hl|Hl].
      * by rewrite decide_True by (by right).
      * rewrite decide_False; [done|]. by intros [?|?]%elem_of_cons.
Qed.

Lemma wait_spec f pid status :
  fam_wf f ->
  let f' := sigchld_handler f [(pid, status)] in
  fam_wf f' /\ (forall p, kids f' !! p = kids f !! p ≫= reap_child pid status) /\
  (forall p, about p (deaths f') = about p (deaths f) ++ from_option (reap_report pid status p) [] (kids f !! p)).
Proof.
  intros Hwf. cbn [sigchld_handler foldl].
  destruct (reap_loop_spec pid status (childHead f) f Hwf (fam_nodup _ Hwf)) as (W & K & A).
  split; [exact W|]. split; intros p; [rewrite K|rewrite A]; (case_decide as E; [done|]);
    (destruct (kids f !! p) eqn:Ek; [|done]); exfalso; apply E, (fam_list _ Hwf); by eauto.
Qed.

(** *** Histories *)

Inductive child_op :=
| OpFork (p : positive) (pid in_fd out_fd err_fd : Z)
| OpNotice (p : positive) (cb : option Z)
| OpClose (p : positive) (x : Z)
| OpWait (pid status : Z).

Definition apply_op (f : family) (o : child_op) : family :=
  match o with
  | OpFork p pid i out e => add_child f p pid i out e
  | OpNotice p cb => CHLD_death_notice f p cb
  | OpClose p x => CHLD_close_fd f p x
  | OpWait pid status => sigchld_handler f [(pid, status)]
  end.

(** New children are at addresses that are not in use. *)
Fixpoint valid_ops (f : family) (ops : list child_op) : Prop :=
  match ops with
  | [] => True
  | o :: ops' => (match o with OpFork p _ _ _ _ => kids f !! p = None | _ => True end) /\ valid_ops (apply_op f o) ops'
  end.

(** Operations that do not fork or change the callback of the child at [p]. *)
Definition leaves_alone (p : positive) (o : child_op) : Prop :=
  match o with OpFork q _ _ _ _ | OpNotice q _ => q <> p | _ => True end.

(** What an operation does to the child at [p] alone. *)
Definition op_child (p : positive) (o : child_op) (c : ProcChild) : ProcChild :=
  match o with
  | OpClose q x => if decide (q = p) then if (0 <=? x) && has_pipe c x then pipe_closed c x else c else c
  | OpWait pid status => if procId c =? pid then reaped c status else c
  | _ => c
  end.

Lemma add_child_wf f p pid i o e : fam_wf f -> kids f !! p = None -> fam_wf (add_child f p pid i o e).
Proof.
  intros [F1 F2 F3] Hp. split; cbn [add_child kids childHead].
  - apply NoDup_cons. split; [|done]. rewrite F2, Hp. by intros [? ?].
  - intros q. rewrite elem_of_cons, lookup_insert_is_Some, F2. split.
    + intros [-> |H]; [by left|]. destruct (decide (p = q)); [by left|by right].
    + intros [-> |[_ H]]; [by left|by right].
  - intros q c Hq. apply lookup_insert_Some in Hq as [[_ <-]|[_ Hq]]; [done|by apply (F3 q)].
Qed.

Lemma notice_wf f p cb : fam_wf f -> fam_wf (CHLD_death_notice f p cb).
Proof.
  intros Hwf. unfold CHLD_death_notice. destruct (kids f !! p) as [c|] eqn:Ep; [|done]. destruct Hwf as [F1 F2 F3].
  split; cbn [put_kid kids childHead]; [done| |].
  - intros q. rewrite lookup_insert_is_Some, F2. destruct (decide (p = q)) as [<-|Hne].
    + rewrite Ep. split; [by left|by eauto].
    + split; [by right|by intros [?|[_ ?]]].
  - intros q c' Hq. apply lookup_insert_Some in Hq as [[_ <-]|[_ Hq]]; [exact (F3 p c Ep)|by apply (F3 q)].
Qed.

(** Every operation keeps the invariant and acts on each child by itself: the
    child goes, with its report, when it is over. *)
Lemma op_spec f o p :
  fam_wf f -> valid_ops f [o] -> leaves_alone p o ->
  let f' := apply_op f o in
  fam_wf f' /\
  match kids f !! p with
  | None => kids f' !! p = None /\ about p (deaths f') = about p (deaths f)
  | Some c => let c' := op_child p o c in
      kids f' !! p = (if over c' then None else Some c') /\
      about p (deaths f') = about p (deaths f) ++ (if over c' then report p c' else [])
  end.
Proof.
  intros Hwf [Hv _] Hl. assert (Hstay : forall c, kids f !! p = Some c -> over c = false) by (intros c Hc; exact (proj1 (fam_live _ Hwf p c Hc))).
  destruct o as [q pid i out e|q cb|q x|pid status]; cbn [apply_op op_child leaves_alone] in *; cbv zeta.
  - split; [by apply add_child_wf|]. cbn [add_child kids deaths]. rewrite lookup_insert_ne by done.
    destruct (kids f !! p) as [c|] eqn:Ep; [|done]. rewrite (Hstay c eq_refl). by rewrite app_nil_r.
  - split; [by apply notice_wf|]. unfold CHLD_death_notice. destruct (kids f !! q) as [c|] eqn:Eq; cbn [put_kid kids deaths].
    + rewrite lookup_insert_ne by done. destruct (kids f !! p) as [c'|] eqn:Ep; [|done]. rewrite (Hstay c' eq_refl). by rewrite app_nil_r.
    + destruct (kids f !! p) as [c'|] eqn:Ep; [|done]. rewrite (Hstay c' eq_refl). by rewrite app_nil_r.
  - destruct (kids f !! q) as [c|] eqn:Eq.
    2:{ unfold CHLD_close_fd. rewrite Eq. split; [done|]. destruct (kids f !! p) as [c'|] eqn:Ep; [|done].
        rewrite decide_False by congruence. rewrite (Hstay c' eq_refl). by rewrite app_nil_r. }
    destruct ((0 <=? x) && has_pipe c x) eqn:Eh.
    2:{ rewrite (close_other f q c x Eq) by (apply andb_false_iff in Eh as [E%Z.leb_gt|E]; [by left|by right]).
        split; [done|]. destruct (kids f !! p) as [c'|] eqn:Ep; [|done].
        replace (if decide (q = p) then _ else c') with c'; [rewrite (Hstay c' eq_refl); by rewrite app_nil_r|].
        case_decide as E; [|done]. subst q. rewrite Eq in Ep. injection Ep as <-. by rewrite Eh. }
    apply andb_true_iff in Eh as [Hx%Z.leb_le Hh]. pose proof (close_spec f q c x Hwf Eq Hx Hh) as HB.
    pose proof HB as (W & O & K). split; [exact W|]. pose proof (becomes_about _ _ _ _ p HB) as HA.
    destruct (decide (p = q)) as [-> |Hne].
    + rewrite Eq, decide_True by done. rewrite (proj2 (Z.leb_le 0 x)), Hh by done. cbn [andb]. split; [|exact HA].
      destruct (over (pipe_closed c x)); apply K.
    + rewrite O, HA, app_nil_r by done. destruct (kids f !! p) as [c'|] eqn:Ep; [|done].
      rewrite decide_False by done. rewrite (Hstay c' eq_refl). by rewrite app_nil_r.
  - destruct (wait_spec f pid status Hwf) as (W & K & A). split; [exact W|]. rewrite K, A.
    destruct (kids f !! p) as [c|] eqn:Ep; cbn [mbind option_bind from_option]; [|by rewrite app_nil_r].
    unfold reap_child, reap_report. destruct (procId c =? pid); cbn [andb]; [done|]. rewrite (Hstay c eq_refl). done.
Qed.

Definition pipes (c : ProcChild) : list Z := [stdin_fd c; stdout_fd c; stderr_fd c].
Definition pipes_ok (c : ProcChild) : Prop := forall x, x ∈ pipes c -> x = -1 \/ 0 <= x.

(** The exit of the child is seen and all its open pipes are closed. *)
Definition finished (p : positive) (c : ProcChild) (ops : list child_op) : Prop :=
  (ch_state c = CHILD_STATE_FLUSH_PIPES \/ exists status, OpWait (procId c) status ∈ ops) /\
  (forall x, x ∈ pipes c -> x <> -1 -> OpClose p x ∈ ops).

Lemma over_finished p c : over c = true <-> finished p c [].
Proof.
  unfold over, finished, pipes. rewrite !andb_true_iff, bool_decide_eq_true, !Z.eqb_eq. split.
  - intros [[[H1 H2] H3] H4]. split; [by left|]. intros x Hx Hn. exfalso. apply Hn. set_solver.
  - intros [[H|[st H]] Hx]; [|by apply elem_of_nil in H].
    assert (Hy : forall x, x ∈ pipes c -> x = -1).
    { intros x Hp. destruct (decide (x = -1)) as [E|E]; [done|]. specialize (Hx x Hp E). by apply elem_of_nil in Hx. }
    unfold pipes in Hy. split_and!; [done|apply Hy; set_solver..].
Qed.

Lemma has_pipe_elem c x : has_pipe c x = true <-> x ∈ pipes c.
Proof. unfold has_pipe, pipes. rewrite !orb_true_iff, !Z.eqb_eq. set_solver. Qed.

Lemma closed_pipes c x y : x <> -1 -> y <> -1 -> y ∈ pipes (pipe_closed c x) <-> y ∈ pipes c /\ y <> x.
Proof.
  intros Hx Hy. unfold pipes, pipe_closed. cbn [stdin_fd stdout_fd stderr_fd].
  rewrite !elem_of_cons, elem_of_nil. repeat case_match; rewrite ?Z.eqb_eq, ?Z.eqb_neq in *; lia.
Qed.

(** One operation brings the child closer. *)
Lemma finished_cons p c o ops :
  pipes_ok c -> finished p c (o :: ops) <-> finished p (op_child p o c) ops.
Proof.
  intros Hok. unfold finished.
  assert (Hst : (ch_state c = CHILD_STATE_FLUSH_PIPES \/ (exists status, OpWait (procId c) status ∈ o :: ops)) <->
    (ch_state (op_child p o c) = CHILD_STATE_FLUSH_PIPES \/ (exists status, OpWait (procId (op_child p o c)) status ∈ ops))).
  { destruct o as [q pid i out e|q cb|q x|pid status]; cbn [op_child]; try set_solver.
    - assert (E : forall (b d : bool), let c' := if b then if d then pipe_closed c x else c else c in
        ch_state c' = ch_state c /\ procId c' = procId c) by (intros [] []; done).
      destruct (decide (q = p)); cbv zeta; [destruct (E true ((0 <=? x) && has_pipe c x)) as [-> ->]|]; set_solver.
    - destruct (Z.eqb_spec (procId c) pid) as [<-|Hne]; cbn [ch_state reaped procId]; [|set_solver].
      split; [by left|]. intros _. right. exists status. by left. }
  rewrite Hst. apply and_iff_compat_l.
  assert (Hsame : pipes (op_child p o c) = pipes c -> (forall x, x ∈ pipes c -> x <> -1 -> OpClose p x <> o) ->
    (forall x, x ∈ pipes c -> x <> -1 -> OpClose p x ∈ o :: ops) <->
    (forall x, x ∈ pipes (op_child p o c) -> x <> -1 -> OpClose p x ∈ ops)).
  { intros -> Hno. split; intros H x Hx Hn; specialize (H x Hx Hn); [|by right].
    apply elem_of_cons in H as [H|H]; [by destruct (Hno x Hx Hn)|done]. }
  destruct o as [q pid i out e|q cb|q x|pid status]; try (apply Hsame; [done|by intros]).
  2:{ apply Hsame; [|by intros]. cbn [op_child]. by destruct (procId c =? pid). }
  cbn [op_child] in *. destruct (decide (q = p)) as [-> |Hq]; [|apply Hsame; [done|congruence]].
  destruct ((0 <=? x) && has_pipe c x) eqn:Eh.
  - apply andb_true_iff in Eh as [Hx%Z.leb_le Hh]. clear Hsame. split.
    + intros H y Hy0 Hn. apply closed_pipes in Hy0 as [Hy Hyx]; [|lia|done]. specialize (H y Hy Hn). apply elem_of_cons in H as [[= E]|H]; done.
    + intros H y Hy Hn. destruct (decide (y = x)) as [-> |Hyx]; [by left|]. right. apply H; [|done]. apply closed_pipes; [lia|done|done].
  - apply Hsame; [done|]. intros y Hy Hn [= <-]. apply andb_false_iff in Eh as [E%Z.leb_gt|E].
    + destruct (Hok y Hy); lia.
    + apply has_pipe_elem in Hy. congruence.
Qed.

Lemma op_child_ok p o c : pipes_ok c -> pipes_ok (op_child p o c) /\ deathCb (op_child p o c) = deathCb c /\ procId (op_child p o c) = procId c.
Proof.
  intros Hok. destruct o as [q pid i out e|q cb|q x|pid status]; cbn [op_child]; try done.
  - destruct (decide (q = p)); [|done]. destruct ((0 <=? x) && has_pipe c x) eqn:Eh; [|done]. split; [|done].
    apply andb_true_iff in Eh as [Hx%Z.leb_le _]. intros y Hy. destruct (decide (y = -1)) as [E|E]; [by left|].
    apply closed_pipes in Hy as [Hy _]; [by apply Hok|lia|done].
  - by destruct (procId c =? pid).
Qed.

(** A child that is gone stays gone. *)
Lemma gone_stays p ops : forall f,
  fam_wf f -> kids f !! p = None -> valid_ops f ops -> Forall (leaves_alone p) ops ->
  let f' := foldl apply_op f ops in
  fam_wf f' /\ kids f' !! p = None /\ about p (deaths f') = about p (deaths f).
Proof.
  induction ops as [|o ops IH]; intros f Hwf Hp Hv HF; cbn [foldl]; [done|].
  apply Forall_cons_1 in HF as [Ho HF]. destruct Hv as [Hv1 Hv2].
  destruct (op_spec f o p Hwf (conj Hv1 I) Ho) as [W H]. rewrite Hp in H. destruct H as [K A].
  destruct (IH _ W K Hv2 HF) as (W' & K' & A'). split_and!; [done..|]. by rewrite A', A.
Qed.

(** The status a report carries. *)
Definition status_of (c : ProcChild) (ops : list child_op) (st : Z) : Prop :=
  OpWait (procId c) st ∈ ops \/ (ch_state c = CHILD_STATE_FLUSH_PIPES /\ st = exitStatus c).

Lemma status_cons p c o ops st : status_of (op_child p o c) ops st -> status_of c (o :: ops) st.
Proof.
  unfold status_of. destruct o as [q pid i out e|q cb|q x|pid status]; cbn [op_child]; try set_solver.
  - destruct (decide (q = p)); [|set_solver]. destruct ((0 <=? x) && has_pipe c x); cbn [pipe_closed procId ch_state exitStatus]; set_solver.
  - destruct (Z.eqb_spec (procId c) pid) as [<-|Hne]; [|set_solver]. cbn [reaped procId ch_state exitStatus].
    intros [H|[_ ->]]; [left; by right|left; by left].
Qed.

(** C14. Whatever else happens to the family, in any order, the death of a child
    is reported exactly once, with a status its exit was seen with, when its
    exit has been seen and all its pipes are closed, and it is then unlinked and
    freed; before, it is not reported and stays in memory. *)
Theorem child_reported_once p ops : forall f c cb,
  fam_wf f -> kids f !! p = Some c -> deathCb c = Some cb -> pipes_ok c ->
  valid_ops f ops -> Forall (leaves_alone p) ops ->
  let f' := foldl apply_op f ops in
  fam_wf f' /\
  (finished p c ops /\ kids f' !! p = None /\ p ∉ childHead f' /\
     (exists st, about p (deaths f') = about p (deaths f) ++ [(cb, p, st)] /\ status_of c ops st) \/
   ~ finished p c ops /\ is_Some (kids f' !! p) /\ p ∈ childHead f' /\ about p (deaths f') = about p (deaths f)).
Proof.
  induction ops as [|o ops IH]; intros f c cb Hwf Hp Hcb Hok Hv HF; cbn [foldl].
  { split; [done|]. right. split; [|split; [by exists c|split; [apply (fam_list _ Hwf); by exists c|done]]].
    rewrite <- over_finished. rewrite (proj1 (fam_live _ Hwf p c Hp)). done. }
  apply Forall_cons_1 in HF as [Ho HF]. destruct Hv as [Hv1 Hv2].
  destruct (op_spec f o p Hwf (conj Hv1 I) Ho) as [W H]. rewrite Hp in H. cbv zeta in H.
  destruct (op_child_ok p o c Hok) as (Hok' & Hcb' & Hpid). rewrite Hcb in Hcb'. rewrite finished_cons by done.
  set (c' := op_child p o c) in *. destruct (over c') eqn:Eo; destruct H as [K A].
  - destruct (gone_stays p ops _ W K Hv2 HF) as (W' & K' & A'). split; [exact W'|]. left.
    assert (Hf : finished p c' ops).
    { apply over_finished with (p := p) in Eo as [[E|[st E]] Hx]; [|by apply elem_of_nil in E].
      split; [by left|]. intros x Hx1 Hx2. specialize (Hx x Hx1 Hx2). by apply elem_of_nil in Hx. }
    split; [exact Hf|]. split; [exact K'|]. split; [rewrite (fam_list _ W'), K'; by intros [? ?]|].
    exists (exitStatus c'). rewrite A', A. unfold report. rewrite Hcb'. split; [done|].
    apply (status_cons p). fold c'. right. split; [|done].
    unfold over in Eo. rewrite !andb_true_iff in Eo. destruct Eo as [[[Eo _] _] _]. by apply bool_decide_eq_true in Eo.
  - rewrite app_nil_r in A. destruct (IH _ c' cb W K Hcb' Hok' Hv2 HF) as [W' [(F & K' & L & st & A' & S)|(F & K' & L & A')]].
    + split; [exact W'|]. left. split_and!; [done..|]. exists st. rewrite A', A. split; [done|by apply (status_cons p)].
    + split; [exact W'|]. right. split_and!; [done..|]. by rewrite A', A.
Qed.

(** A child that waits for its pipes has its status replaced when a later
    process with the same number ends. *)
Theorem child_pid_reuse f p c status :
  fam_wf f -> kids f !! p = Some c -> ch_state c = CHILD_STATE_FLUSH_PIPES ->
  kids (sigchld_handler f [(procId c, status)]) !! p = Some (reaped c status).
Proof.
  intros Hwf Hp Hs. destruct (wait_spec f (procId c) status Hwf) as (_ & K & _). rewrite K, Hp. cbn [mbind option_bind].
  unfold reap_child. rewrite Z.eqb_refl. replace (over (reaped c status)) with false; [done|].
  symmetry. rewrite <- (proj1 (fam_live _ Hwf p c Hp)). unfold over, reaped. cbn. by rewrite Hs.
Qed.

Definition demo_family : family := CHLD_death_notice (add_child (Fam ∅ [] [] []) 3 100 11 12 13) 3 (Some 55).

Lemma demo_family_wf : fam_wf demo_family.
Proof.
  apply notice_wf, add_child_wf; [|done].
  split; cbn [kids childHead]; [constructor| |].
  - intros p. rewrite lookup_empty, elem_of_nil. split; [done|by intros [? ?]].
  - intros p c H. by rewrite lookup_empty in H.
Qed.

(** Two pipes are closed before the exit and one after it, while another child
    is forked. *)
Lemma child_reported_once_witness :
  let f' := foldl apply_op demo_family [OpClose 3 12; OpFork 4 101 14 15 16; OpClose 3 13; OpWait 100 7; OpClose 3 11] in
  kids f' !! 3%positive = None /\ about 3 (deaths f') = [(55, 3%positive, 7)].
Proof.
  destruct (child_reported_once 3 [OpClose 3 12; OpFork 4 101 14 15 16; OpClose 3 13; OpWait 100 7; OpClose 3 11]
    demo_family (Child 100 0 CHILD_STATE_INIT 11 12 13 (Some 55)) 55 demo_family_wf) as [_ [(_ & K & _ & _)|(F & _)]].
  - reflexivity.
  - reflexivity.
  - intros x Hx. right. unfold pipes in Hx. cbn in Hx. rewrite !elem_of_cons, elem_of_nil in Hx. lia.
  - repeat split.
  - repeat constructor; discriminate.
  - split; [exact K|vm_compute; reflexivity].
  - exfalso. apply F. split; [right; exists 7; set_solver|]. intros x Hx _. unfold pipes in Hx. cbn in Hx. set_solver.
Defined.
