(* ===== verification/CmdResponse.v ===== *)
(** * Requests and their replies (cmd.c, ipc.c)

    A process that sends a command registers a callback for its reply
    ([CMD_add_response_cb], called by [IPC_command]).  The callback is called
    by the reply ([cmd_handle_xdr_response]) or, when there is a time limit, by
    a timed event ([response_timeout_cb]).  This file models the list of
    pending requests, the memory of its nodes and the timed events behind it,
    and shows that each request is answered exactly once: a reply cancels the
    timeout, a timeout makes the request deaf to later replies, and no callback
    uses a node that was freed.

    The timed events are the interface [Timers]; the schedule of Sched.v is its
    instance.  The packet codecs are generated code and the callback is the
    user's: both are parameters. *)

From stdpp Require Import base gmap list numbers sorting.
From Stdlib Require Import ZArith Lia.
From S2P Require Import Prelude Words PriorityQueue Sched EventTimer FdEvents EventLoop Timers.
Open Scope Z_scope.

(** ** Data *)

Definition IPC_CMDS_RESPONSE : Z := 256.

Inductive IPC_CB_TYPE := IPC_CB_TYPE_RAW | IPC_CB_TYPE_COOKED.

#[export] Instance IPC_CB_TYPE_eq_dec : EqDecision IPC_CB_TYPE.
Proof. solve_decision. Defined.

(** The two fields of [struct sockaddr_in] that are compared. *)
Record sockaddr_in := SA { sin_port : Z; sin_addr : Z }.

#[export] Instance sockaddr_in_eq_dec : EqDecision sockaddr_in.
Proof. solve_decision. Defined.

Record IPC_ResponseHeader := RespHdr { hdr_cmd : Z; hdr_ipcref : Z; hdr_result : Z }.

(** [proc] is the one process; [next] is the list of [CommandCbArg]. *)
Record CMDResponseCb := RCB {
  rid : Z;
  rhost : sockaddr_in;
  rcb : option Z;
  rarg : Z;
  rcb_type : IPC_CB_TYPE;
  to_evt : option ptr
}.

#[export] Instance CMDResponseCb_eq_dec : EqDecision CMDResponseCb.
Proof. solve_decision. Defined.

Definition with_to_evt (n : CMDResponseCb) (v : option ptr) : CMDResponseCb :=
  RCB (rid n) (rhost n) (rcb n) (rarg n) (rcb_type n) v.

(** ** Operations *)

(** The arguments of [IPC_command]; [P] is the type of the command and its
    parameters. *)
Record request (P : Type) := Req {
  q_params : P;
  q_dest : sockaddr_in;
  q_cb : option Z;
  q_arg : Z;
  q_type : IPC_CB_TYPE;
  q_timeout : Z
}.
Arguments Req {_}.
Arguments q_params {_}.
Arguments q_dest {_}.
Arguments q_cb {_}.
Arguments q_arg {_}.
Arguments q_type {_}.
Arguments q_timeout {_}.

(** What happened, for the statements: a request registered at an address, its
    callback called with the timeout flag, or its reply dropped. *)
Inductive event :=
  | Sent (a : ptr) (n : CMDResponseCb)
  | Called (a : ptr) (f : Z) (arg : Z) (timeout : bool)
  | Dropped (a : ptr).

(** The process: the nodes in memory, the list in [proc->cmds] ([None] before
    [cmd_handler_init]), the next reference, the timed events, and the rest of
    the world. *)
Record proc (T W : Type) := Proc {
  nodes : gmap ptr CMDResponseCb;
  resp : option (list ptr);
  next_cmd_ref : Z;
  timers : T;
  world : W;
  trace : list event
}.
Arguments Proc {_ _}.
Arguments nodes {_ _}.
Arguments resp {_ _}.
Arguments next_cmd_ref {_ _}.
Arguments timers {_ _}.
Arguments world {_ _}.
Arguments trace {_ _}.

Section Ops.
Context {T W P R : Type} `{!TimerOps T}.
Variable malloc : gset ptr -> option ptr.
(** [malloc] of a larger transmit buffer. *)
Variable malloc_buff : Z -> bool.
(** [IPC_Command_encode] into a buffer of the given size: the packet, or the
    size it needs. *)
Variable encode : P -> Z -> Z -> list Z + Z.
(** [IPC_ResponseHeader_decode], and the decoder of [IPC_TYPES_RESPONSE]. *)
Variable hdr_decode : list Z -> option IPC_ResponseHeader.
Variable resp_decode : list Z -> option R.
(** [PROC_cmd_raw_sockaddr]. *)
Variable transmit : list Z -> sockaddr_in -> W -> W.
(** A callback: the requests it sends. *)
Variable user : Z -> bool -> Z -> option (list Z + R) -> W -> list (request P) * W.

Implicit Types s : proc T W.

Definition with_resp s (v : list ptr) : proc T W :=
  Proc (nodes s) (Some v) (next_cmd_ref s) (timers s) (world s) (trace s).
Definition with_ref s (v : Z) : proc T W :=
  Proc (nodes s) (resp s) v (timers s) (world s) (trace s).
Definition with_timers s (v : T) : proc T W :=
  Proc (nodes s) (resp s) (next_cmd_ref s) v (world s) (trace s).
Definition with_world s (v : W) : proc T W :=
  Proc (nodes s) (resp s) (next_cmd_ref s) (timers s) v (trace s).
Definition with_nodes s (v : gmap ptr CMDResponseCb) : proc T W :=
  Proc v (resp s) (next_cmd_ref s) (timers s) (world s) (trace s).
Definition log s (e : event) : proc T W :=
  Proc (nodes s) (resp s) (next_cmd_ref s) (timers s) (world s) (trace s ++ [e]).

(** The operations return [None] where the code goes through a NULL or freed
    pointer. *)
Definition CMD_add_response_cb s (id : Z) (host : sockaddr_in) (cb : option Z) (arg : Z)
    (cb_type : IPC_CB_TYPE) (timeout : Z) : option (proc T W) :=
  match resp s with
  | None => Some s
  | Some l =>
      match malloc (dom (nodes s)) with
      | None => None
      | Some a =>
          let n := RCB id host cb arg cb_type None in
          let '(ev, t) := if timeout =? 0 then (None, timers s)
                          else timer_add (timers s) timeout (Zpos a) in
          let n' := with_to_evt n ev in
          Some (log (with_timers (with_nodes (with_resp s (a :: l)) (<[a := n']> (nodes s))) t) (Sent a n'))
      end
  end.

(** [IPC_command_internal] for a process that is not NULL; the first buffer is
    taken to be allocated. *)
Definition send_encoded s (ref : Z) (q : request P) (pkt : list Z) : option (Z * proc T W) :=
  let s1 := with_world s (transmit pkt (q_dest q) (world s)) in
  match q_cb q with
  | None => Some (0, s1)
  | Some f =>
      match CMD_add_response_cb s1 ref (q_dest q) (Some f) (q_arg q) (q_type q) (q_timeout q) with
      | None => None
      | Some s2 => Some (0, s2)
      end
  end.

Definition IPC_command_internal s (q : request P) : option (Z * proc T W) :=
  let ref := next_cmd_ref s in
  let s1 := with_ref s (u32 (ref + 1)) in
  let buff_len := 1024 in
  match encode (q_params q) ref buff_len with
  | inl pkt => send_encoded s1 ref q pkt
  | inr len =>
      if buff_len <? len then
        if malloc_buff len then
          match encode (q_params q) ref len with
          | inl pkt => send_encoded s1 ref q pkt
          | inr _ => Some (-1, s1)
          end
        else Some (-1, s1)
      else Some (-1, s1)
  end.

Definition IPC_command (s : option (proc T W)) (q : request P) : option (Z * option (proc T W)) :=
  match s with
  | None => Some (-1, None)
  | Some s => match IPC_command_internal s q with
              | None => None
              | Some (r, s') => Some (r, Some s')
              end
  end.

(** The requests a callback sends. *)
Fixpoint send_all s (qs : list (request P)) : option (proc T W) :=
  match qs with
  | [] => Some s
  | q :: qs =>
      match IPC_command_internal s q with
      | None => None
      | Some (_, s') => send_all s' qs
      end
  end.

(** The call of the callback of the node at [a]. *)
Definition call_back s (a : ptr) (f : Z) (timeout : bool) (arg : Z) (data : option (list Z + R))
    : option (proc T W) :=
  let '(qs, w) := user f timeout arg data (world s) in
  send_all (with_world (log s (Called a f arg timeout)) w) qs.

Definition CMD_resolve_callback s (a : ptr) (cb : option Z) (arg : Z) (cb_type : IPC_CB_TYPE)
    (rxbuff : list Z) : option (proc T W) :=
  match cb with
  | None => Some (log s (Dropped a))
  | Some f =>
      match cb_type with
      | IPC_CB_TYPE_RAW => call_back s a f false arg (Some (inl rxbuff))
      | IPC_CB_TYPE_COOKED =>
          match resp_decode rxbuff with
          | None => Some (log s (Dropped a))
          | Some r => call_back s a f false arg (Some (inr r))
          end
      end
  end.

(** The search of [cmd_handle_xdr_response]: the first node that matches, and
    the list without it. *)
Definition resp_matches (h : IPC_ResponseHeader) (src : sockaddr_in) (n : CMDResponseCb) : bool :=
  (rid n =? hdr_ipcref h) && (sin_port (rhost n) =? sin_port src)
  && (sin_addr (rhost n) =? sin_addr src).

Fixpoint find_resp (m : gmap ptr CMDResponseCb) (l : list ptr) (h : IPC_ResponseHeader)
    (src : sockaddr_in) : option (option (ptr * CMDResponseCb * list ptr)) :=
  match l with
  | [] => Some None
  | a :: l' =>
      match m !! a with
      | None => None
      | Some n =>
          if resp_matches h src n then Some (Some (a, n, l'))
          else match find_resp m l' h src with
               | None => None
               | Some None => Some None
               | Some (Some (b, n', l'')) => Some (Some (b, n', a :: l''))
               end
      end
  end.

(** The end of [cmd_handle_xdr_response], after the callback: the timeout is
    cancelled and the node freed. *)
Definition finish_response s (a : ptr) : option (proc T W) :=
  match nodes s !! a with
  | None => None
  | Some n =>
      let s1 := match to_evt n with
                | None => s
                | Some p => with_timers s (timer_remove (timers s) p)
                end in
      Some (with_nodes s1 (delete a (nodes s1)))
  end.

Definition cmd_handle_xdr_response s (data : list Z) (src : sockaddr_in) : option (proc T W) :=
  match hdr_decode data with
  | None => Some s
  | Some h =>
      if negb (hdr_cmd h =? IPC_CMDS_RESPONSE) then Some s
      else
        match resp s with
        | None => None
        | Some l =>
            match find_resp (nodes s) l h src with
            | None => None
            | Some None => Some s
            | Some (Some (a, n, l')) =>
                match CMD_resolve_callback (with_resp s l') a (rcb n) (rarg n) (rcb_type n) data with
                | None => None
                | Some s2 => finish_response s2 a
                end
            end
        end
  end.

Fixpoint remove_one (a : ptr) (l : list ptr) : list ptr :=
  match l with
  | [] => []
  | b :: l' => if decide (b = a) then l' else b :: remove_one a l'
  end.

Definition response_timeout_cb s (arg : Z) : option (Z * proc T W) :=
  if arg =? 0 then Some (EVENT_REMOVE, s)
  else
    let a := Z.to_pos arg in
    match nodes s !! a, resp s with
    | Some n, Some l =>
        let s1 := with_resp s (remove_one a l) in
        match rcb n with
        | None => None
        | Some f =>
            match call_back s1 a f true (rarg n) None with
            | None => None
            | Some s2 => Some (EVENT_REMOVE, with_nodes s2 (delete a (nodes s2)))
            end
        end
    | _, _ => None
    end.

(** The event loop calls the timeout of a due event and frees the event. *)
Definition expire s : option (proc T W) :=
  match timer_begin (timers s) with
  | None => Some s
  | Some (p, arg, t) =>
      match response_timeout_cb (with_timers s t) arg with
      | None => None
      | Some (_, s2) => Some (with_timers s2 (timer_end (timers s2) p))
      end
  end.

Definition CMD_pending_responses s : option bool :=
  match resp s with
  | None => None
  | Some l => Some (negb (bool_decide (l = [])))
  end.
End Ops.

(** ** Specification

    The requests that are pending after a trace.  A trace is in order when a
    request is registered at an address without a pending one, when a callback
    is that of a pending request, with its argument, and by timeout only if the
    request has a time limit, and when a reply is dropped only if it had to be
    decoded; each of the three ends the request. *)

Definition replay1 (m : gmap ptr CMDResponseCb) (e : event) : option (gmap ptr CMDResponseCb) :=
  match e with
  | Sent a n => if decide (m !! a = None) then Some (<[a:=n]> m) else None
  | Called a f arg timeout =>
      match m !! a with
      | Some n => if decide (rcb n = Some f /\ rarg n = arg /\ (timeout = true -> is_Some (to_evt n)))
                  then Some (delete a m) else None
      | None => None
      end
  | Dropped a =>
      match m !! a with
      | Some n => if decide (rcb_type n = IPC_CB_TYPE_COOKED) then Some (delete a m) else None
      | None => None
      end
  end.

Definition replay (tr : list event) : option (gmap ptr CMDResponseCb) :=
  foldl (fun o e => o ≫= fun m => replay1 m e) (Some ∅) tr.

Lemma replay_snoc tr e : replay (tr ++ [e]) = replay tr ≫= fun m => replay1 m e.
Proof. unfold replay. by rewrite foldl_app. Qed.

Section Facts.
Context {T W P R : Type} `{!TimerOps T, !Timers T}.
Context (malloc : gset ptr -> option ptr) `{!Malloc malloc}.
Context (malloc_buff : Z -> bool) (encode : P -> Z -> Z -> list Z + Z).
Context (hdr_decode : list Z -> option IPC_ResponseHeader) (resp_decode : list Z -> option R).
Context (transmit : list Z -> sockaddr_in -> W -> W).
Context (user : Z -> bool -> Z -> option (list Z + R) -> W -> list (request P) * W).
Implicit Types s : proc T W.

(** Between operations no node is in use ([Idle]); in an operation one node is
    unlinked and still allocated. *)
Inductive mode := Idle | Replying (a : ptr) | TimingOut (a : ptr).

Definition busy (md : mode) (a : ptr) : Prop :=
  match md with Idle => False | Replying b | TimingOut b => b = a end.

(** The invariant: the list holds exactly the pending requests, the memory
    those and the node in use, and the timed events are those of the requests
    with a time limit. *)
Record inv (r : option ptr) (md : mode) (s : proc T W) (l : list ptr) (m : gmap ptr CMDResponseCb) : Prop := {
  inv_timer : timer_ok r (timers s);
  inv_resp : resp s = Some l;
  inv_nodup : NoDup l;
  inv_trace : replay (trace s) = Some m;
  inv_pending : forall a, a ∈ l <-> is_Some (m !! a);
  inv_nodes : m ⊆ nodes s;
  inv_cb : forall a n, m !! a = Some n -> rcb n <> None;
  inv_dom : forall a, is_Some (nodes s !! a) <-> a ∈ l \/ busy md a;
  inv_busy : forall a, busy md a -> a ∉ l;
  inv_armed : forall p z, armed (timers s) !! p = Some z <->
    exists a n, z = Zpos a /\ nodes s !! a = Some n /\ to_evt n = Some p /\ md <> TimingOut a
}.

(** What the requests of a callback leave: more pending requests, in front. *)
Definition extends s s' : Prop :=
  exists k es, resp s' = (fun l => k ++ l) <$> resp s /\ nodes s ⊆ nodes s' /\
    trace s' = trace s ++ es /\ Forall (fun e => exists a n, e = Sent a n) es.

Lemma extends_refl s : extends s s.
Proof. exists [], []. rewrite app_nil_r. split_and!; try done. by destruct (resp s). Qed.

Lemma extends_trans s1 s2 s3 : extends s1 s2 -> extends s2 s3 -> extends s1 s3.
Proof.
  intros (k1 & e1 & R1 & N1 & T1 & F1) (k2 & e2 & R2 & N2 & T2 & F2).
  exists (k2 ++ k1), (e1 ++ e2). rewrite R2, R1, T2, T1, app_assoc. split_and!; try done.
  - destruct (resp s1); simpl; [by rewrite app_assoc|done].
  - by etransitivity.
  - by apply Forall_app.
Qed.

(** Only the list, the nodes, the timers and the trace matter. *)
Lemma inv_frame r md s s' l m :
  resp s' = resp s -> nodes s' = nodes s -> timers s' = timers s -> trace s' = trace s ->
  inv r md s l m -> inv r md s' l m.
Proof. intros E1 E2 E3 E4 []. split; rewrite ?E1, ?E2, ?E3, ?E4; done. Qed.

(** A new node and its timer. *)
Lemma armed_insert r md s l m a n t :
  inv r md s l m -> nodes s !! a = None -> md <> TimingOut a ->
  match to_evt n with
  | None => armed t = armed (timers s)
  | Some p => armed (timers s) !! p = None /\ armed t = <[p:=Zpos a]> (armed (timers s))
  end ->
  forall p z, armed t !! p = Some z <->
    exists b nb, z = Zpos b /\ <[a:=n]> (nodes s) !! b = Some nb /\ to_evt nb = Some p /\ md <> TimingOut b.
Proof.
  intros H Ha Hmd Ht p z. pose proof (inv_armed _ _ _ _ _ H) as Hold.
  assert (Hne : forall b nb, nodes s !! b = Some nb -> a <> b) by congruence.
  destruct (to_evt n) as [p0|] eqn:Ep; [destruct Ht as [Hp0 ->]|rewrite Ht].
  - rewrite lookup_insert_Some. split.
    + intros [[<- <-]|[_ (b & nb & -> & Hb & ?)%Hold]]; [exists a, n|exists b, nb].
      * by rewrite lookup_insert_eq.
      * rewrite lookup_insert_ne by eauto. done.
    + intros (b & nb & -> & Hb & Hto & ?). apply lookup_insert_Some in Hb as [[<- <-]|[_ Hb]].
      * left. by simplify_eq.
      * assert (Ho : armed (timers s) !! p = Some (Zpos b)) by (apply Hold; by exists b, nb).
        right. split; [congruence|done].
  - rewrite Hold. split; intros (b & nb & -> & Hb & Hto & ?); exists b, nb.
    + rewrite lookup_insert_ne by eauto. done.
    + apply lookup_insert_Some in Hb as [[<- <-]|[_ Hb]]; [congruence|done].
Qed.

Lemma add_inv r md s l m id host f arg ty to :
  inv r md s l m ->
  exists s' l' m', CMD_add_response_cb malloc s id host (Some f) arg ty to = Some s' /\
    inv r md s' l' m' /\ extends s s'.
Proof.
  intros H. unfold CMD_add_response_cb. rewrite (inv_resp _ _ _ _ _ H).
  destruct (malloc_some (dom (nodes s))) as (a & -> & Ha). apply not_elem_of_dom in Ha.
  assert (Hfresh : a ∉ l /\ ~ busy md a).
  { split; intros C; (assert (is_Some (nodes s !! a)) as [? E] by (apply (inv_dom _ _ _ _ _ H); auto));
      congruence. }
  destruct Hfresh as [Hl Hb].
  assert (Hm : m !! a = None).
  { apply eq_None_not_Some. by rewrite <- (inv_pending _ _ _ _ _ H). }
  assert (Ht : let '(ev, t) := if to =? 0 then (None, timers s) else timer_add (timers s) to (Zpos a) in
    timer_ok r t /\ match ev with
    | None => armed t = armed (timers s)
    | Some p => armed (timers s) !! p = None /\ armed t = <[p:=Zpos a]> (armed (timers s)) end).
  { destruct (to =? 0); [by split; [apply (inv_timer _ _ _ _ _ H)|]|].
    apply timer_add_ok, (inv_timer _ _ _ _ _ H). }
  destruct (if to =? 0 then _ else _) as [ev t]. destruct Ht as [Ht1 Ht2].
  set (n := with_to_evt _ ev). eexists _, (a :: l), (<[a:=n]> m). split; [done|].
  split.
  - assert (Hmd : md <> TimingOut a) by (intros ->; by apply Hb).
    pose proof H as []. split; simpl; try done.
    + by constructor.
    + rewrite replay_snoc, inv_trace0. simpl. by rewrite decide_True.
    + intros b. rewrite elem_of_cons, lookup_insert_is_Some, inv_pending0.
      destruct (decide (a = b)); naive_solver.
    + by apply insert_mono.
    + intros b n' Hn'. apply lookup_insert_Some in Hn' as [[<- <-]|[_ ?]]; [done|by eapply inv_cb0].
    + intros b. rewrite lookup_insert_is_Some, elem_of_cons, inv_dom0.
      destruct (decide (a = b)); naive_solver.
    + intros b Hbb. rewrite elem_of_cons. intros [->|C]; [done|by eapply inv_busy0].
    + by apply (armed_insert r md s l m).
  - exists [a], [Sent a n]. simpl. rewrite (inv_resp _ _ _ _ _ H). split_and!; try done.
    + by apply insert_subseteq.
    + constructor; eauto.
Qed.

Lemma command_inv r md s l m q :
  inv r md s l m ->
  exists c s' l' m', IPC_command_internal malloc malloc_buff encode transmit s q = Some (c, s') /\
    inv r md s' l' m' /\ extends s s'.
Proof.
  intros H. unfold IPC_command_internal.
  set (s1 := with_ref s _).
  assert (H1 : inv r md s1 l m) by (by apply (inv_frame r md s)).
  assert (E1 : extends s s1) by apply (extends_refl s).
  assert (Hfail : exists c s' l' m', Some (-1, s1) = Some (c, s') /\ inv r md s' l' m' /\ extends s s')
    by (exists (-1), s1, l, m; done).
  assert (Hsend : forall pkt, exists c s' l' m',
    send_encoded malloc transmit s1 (next_cmd_ref s) q pkt = Some (c, s') /\
    inv r md s' l' m' /\ extends s s').
  { intros pkt. unfold send_encoded. set (s2 := with_world s1 _).
    assert (H2 : inv r md s2 l m) by (by apply (inv_frame r md s)).
    destruct (q_cb q) as [f|]; [|exists 0, s2, l, m; done].
    destruct (add_inv r md s2 l m (next_cmd_ref s) (q_dest q) f (q_arg q) (q_type q) (q_timeout q) H2)
      as (s' & l' & m' & -> & Hi & He). exists 0, s', l', m'. done. }
  destruct (encode _ _ 1024) as [pkt|len]; [apply Hsend|].
  destruct (1024 <? len); [|done]. destruct (malloc_buff len); [|done].
  destruct (encode _ _ len) as [pkt|]; [apply Hsend|done].
Qed.

Lemma send_all_inv r md qs s l m :
  inv r md s l m ->
  exists s' l' m', send_all malloc malloc_buff encode transmit s qs = Some s' /\
    inv r md s' l' m' /\ extends s s'.
Proof.
  revert s l m. induction qs as [|q qs IH]; intros s l m H; simpl.
  { exists s, l, m. split_and!; [done..|apply extends_refl]. }
  destruct (command_inv r md s l m q H) as (c & s1 & l1 & m1 & -> & H1 & E1).
  destruct (IH s1 l1 m1 H1) as (s2 & l2 & m2 & -> & H2 & E2).
  exists s2, l2, m2. split_and!; try done. by eapply extends_trans.
Qed.

Lemma call_inv r md s l m a f arg to data :
  inv r md (log s (Called a f arg to)) l m ->
  exists s' l' m', call_back malloc malloc_buff encode transmit user s a f to arg data = Some s' /\
    inv r md s' l' m' /\ extends (log s (Called a f arg to)) s'.
Proof.
  intros H. unfold call_back. destruct (user f to arg data (world s)) as [qs w].
  set (s1 := with_world _ w).
  apply (send_all_inv r md qs s1 l m). by apply (inv_frame r md (log s (Called a f arg to))).
Qed.

Lemma remove_one_perm a l : a ∈ l -> l ≡ₚ a :: remove_one a l.
Proof.
  induction l as [|b l IH]; [by intros ?%elem_of_nil|].
  intros [->|Hin]%elem_of_cons; simpl; [by rewrite decide_True|].
  case_decide; [by subst|]. rewrite (IH Hin) at 1. apply Permutation_swap.
Qed.

(** The timer of the node in use is gone, by removal or because it fired. *)
Lemma armed_drop r md s l m a n p t :
  inv r md s l m -> (forall b, md <> TimingOut b) ->
  nodes s !! a = Some n -> to_evt n = Some p -> armed t = delete p (armed (timers s)) ->
  forall p' z, armed t !! p' = Some z <->
    exists b nb, z = Zpos b /\ nodes s !! b = Some nb /\ to_evt nb = Some p' /\ TimingOut a <> TimingOut b.
Proof.
  intros [] Hmd Hn Hp Hd p' z. rewrite Hd, lookup_delete_Some, inv_armed0.
  assert (Ha : armed (timers s) !! p = Some (Zpos a)) by (apply inv_armed0; by exists a, n).
  split.
  - intros [Hne (b & nb & -> & Hb & Hto & _)]. exists b, nb. split_and!; try done.
    intros [= <-]. congruence.
  - intros (b & nb & -> & Hb & Hto & Hne). split; [|by exists b, nb].
    intros ->. assert (armed (timers s) !! p' = Some (Zpos b)) by (apply inv_armed0; by exists b, nb).
    congruence.
Qed.

(** A request ends: its node is unlinked and in use, and the trace says how. *)
Section Unlink.
Context (s : proc T W) (l l' : list ptr) (m : gmap ptr CMDResponseCb) (a : ptr) (n : CMDResponseCb) (e : event).
Context (H : inv None Idle s l m) (Hl : l ≡ₚ a :: l') (Hn : m !! a = Some n).
Context (He : replay1 m e = Some (delete a m)).

Lemma unlink_list : NoDup l' /\ a ∉ l' /\ (forall b, b ∈ l' <-> is_Some (delete a m !! b)).
Proof.
  destruct H. rewrite Hl in inv_nodup0. apply NoDup_cons in inv_nodup0 as [Ha Hnd].
  split_and!; try done. intros b. rewrite lookup_delete_is_Some, <- inv_pending0, Hl, elem_of_cons.
  split; [|naive_solver]. intros Hb. split; [by intros <-|by right].
Qed.

Lemma unlink_replying : inv None (Replying a) (log (with_resp s l') e) l' (delete a m).
Proof.
  destruct unlink_list as (U1 & U2 & U3). destruct H. split; simpl; try done.
  - by rewrite replay_snoc, inv_trace0.
  - etransitivity; [apply delete_subseteq|done].
  - intros b nb Hb. apply lookup_delete_Some in Hb as [_ Hb]. by eapply inv_cb0.
  - intros b. rewrite inv_dom0, Hl, elem_of_cons. simpl. naive_solver.
  - by intros b ->.
  - intros p z. rewrite inv_armed0. naive_solver.
Qed.

Lemma unlink_timing_out p t : to_evt n = Some p -> timer_ok (Some p) t ->
  armed t = delete p (armed (timers s)) ->
  inv (Some p) (TimingOut a) (log (with_resp (with_timers s t) l') e) l' (delete a m).
Proof.
  intros Hp Ht Hd. destruct unlink_list as (U1 & U2 & U3). pose proof H as [].
  split; simpl; try done.
  - by rewrite replay_snoc, inv_trace0.
  - etransitivity; [apply delete_subseteq|done].
  - intros b nb Hb. apply lookup_delete_Some in Hb as [_ Hb]. by eapply inv_cb0.
  - intros b. rewrite inv_dom0, Hl, elem_of_cons. simpl. naive_solver.
  - by intros b ->.
  - apply (armed_drop None Idle s l m a n p t); try done. by eapply lookup_weaken.
Qed.
End Unlink.

(** The node in use is freed. *)
Lemma free_timing_out r s l m a :
  inv r (TimingOut a) s l m -> inv r Idle (with_nodes s (delete a (nodes s))) l m.
Proof.
  intros []. assert (Ha : a ∉ l) by (by apply inv_busy0).
  split; simpl; try done.
  - apply map_subseteq_spec. intros b nb Hb. apply lookup_delete_Some.
    split; [intros <-; apply Ha, inv_pending0; eauto|by eapply lookup_weaken].
  - intros b. rewrite lookup_delete_is_Some, inv_dom0. simpl. naive_solver.
  - intros p z. rewrite inv_armed0. split; intros (b & nb & -> & Hb & Hto & Hmd); exists b, nb.
    + split_and!; try done. apply lookup_delete_Some. split; [congruence|done].
    + apply lookup_delete_Some in Hb as [Hne Hb]. split_and!; try done. by intros [= <-].
Qed.

Lemma finish_inv s l m a :
  inv None (Replying a) s l m ->
  (forall n p, nodes s !! a = Some n -> to_evt n = Some p -> removable (timers s) p) ->
  exists s', finish_response s a = Some s' /\ inv None Idle s' l m /\
    resp s' = resp s /\ trace s' = trace s /\ nodes s' = delete a (nodes s) /\
    (forall n p, nodes s !! a = Some n -> to_evt n = Some p -> armed (timers s') !! p = None).
Proof.
  intros H Hrem. unfold finish_response.
  destruct (proj2 (inv_dom _ _ _ _ _ H a) (or_intror eq_refl)) as [n Hn]. rewrite Hn.
  assert (Hcase : exists t, inv None (TimingOut a) (with_timers s t) l m /\
    (forall p, to_evt n = Some p -> armed t !! p = None) /\
    match to_evt n with None => s | Some p => with_timers s (timer_remove (timers s) p) end
      = with_timers s t).
  { destruct (to_evt n) as [p|] eqn:Ep.
    - exists (timer_remove (timers s) p).
      assert (Hp : armed (timers s) !! p = Some (Zpos a))
        by (apply (inv_armed _ _ _ _ _ H); by exists a, n).
      destruct (timer_remove_ok None (timers s) p) as [R1 R2]; [apply H|by eexists|by eapply Hrem|].
      split_and!; [|intros ? [= <-]; rewrite R2; apply lookup_delete_eq|done].
      pose proof (armed_drop None (Replying a) s l m a n p (timer_remove (timers s) p) H) as Harm.
      destruct H. split; simpl; try done. by apply Harm.
    - exists (timers s). split_and!; [|done|by destruct s].
      destruct H. split; simpl; try done.
      intros p' z. rewrite inv_armed0. split; intros (b & nb & -> & Hb & Hto & Hmd); exists b, nb;
        split_and!; try done. intros [= <-]. congruence. }
  destruct Hcase as (t & Hi & Harm & ->). eexists. split; [done|].
  split_and!; try done; [by apply free_timing_out|].
  intros n' p Hn'. simplify_eq. apply Harm.
Qed.

Lemma find_resp_spec md s l m h src :
  inv None md s l m ->
  (find_resp (nodes s) l h src = Some None /\
   forall a n, a ∈ l -> nodes s !! a = Some n -> resp_matches h src n = false) \/
  (exists l1 a l2 n, find_resp (nodes s) l h src = Some (Some (a, n, l1 ++ l2)) /\
   l = l1 ++ a :: l2 /\ m !! a = Some n /\ resp_matches h src n = true /\
   (forall b nb, b ∈ l1 -> nodes s !! b = Some nb -> resp_matches h src nb = false)).
Proof.
  intros H.
  assert (Hall : forall a, a ∈ l -> exists n, m !! a = Some n /\ nodes s !! a = Some n).
  { intros a Ha. apply (inv_pending _ _ _ _ _ H) in Ha as [n Hn]. exists n. split; [done|].
    by eapply lookup_weaken, (inv_nodes _ _ _ _ _ H). }
  clear H. induction l as [|a l IH]; simpl.
  { left. split; [done|]. by intros a n ?%elem_of_nil. }
  destruct (Hall a) as (n & Hm & ->); [by left|].
  destruct (resp_matches h src n) eqn:Em.
  { right. exists [], a, l, n. split_and!; try done. by intros b nb ?%elem_of_nil. }
  destruct IH as [[-> Hno]|(l1 & b & l2 & nb & -> & -> & Hb & Hmb & Hno)].
  - intros b Hb. apply Hall. by right.
  - left. split; [done|]. intros b nb [->|Hb]%elem_of_cons Hnb; [|by eapply Hno].
    destruct (Hall a) as (n' & Hm' & Hn'); [by left|]. congruence.
  - right. exists (a :: l1), b, l2, nb. split_and!; try done.
    intros c nc [->|Hc]%elem_of_cons Hnc; [|by eapply Hno].
    destruct (Hall a) as (n' & Hm' & Hn'); [by left|]. congruence.
Qed.

(** How a reply ends the request [n] at [a]. *)
Definition answer (a : ptr) (n : CMDResponseCb) (data : list Z) : event :=
  match rcb_type n, resp_decode data with
  | IPC_CB_TYPE_COOKED, None => Dropped a
  | _, _ => Called a (default 0 (rcb n)) (rarg n) false
  end.

Lemma answer_ends m a n data : m !! a = Some n -> rcb n <> None ->
  replay1 m (answer a n data) = Some (delete a m).
Proof.
  intros Hn Hf. unfold answer. destruct (rcb n) as [f|] eqn:Ef; [|done].
  destruct (rcb_type n) eqn:Et, (resp_decode data); simpl; rewrite Hn, decide_True; done.
Qed.

Lemma resolve_inv s l m l1 a l2 n data :
  inv None Idle s l m -> l = l1 ++ a :: l2 -> m !! a = Some n ->
  exists s' l' m', CMD_resolve_callback malloc malloc_buff encode resp_decode transmit user
      (with_resp s (l1 ++ l2)) a (rcb n) (rarg n) (rcb_type n) data = Some s' /\
    inv None (Replying a) s' l' m' /\ extends (log (with_resp s (l1 ++ l2)) (answer a n data)) s'.
Proof.
  intros H Hl Hn. pose proof (inv_cb _ _ _ _ _ H a n Hn) as Hf.
  assert (Hu : inv None (Replying a) (log (with_resp s (l1 ++ l2)) (answer a n data)) (l1 ++ l2) (delete a m)).
  { apply (unlink_replying s l (l1 ++ l2) m a n); try done.
    - by rewrite Hl, Permutation_middle.
    - by apply answer_ends. }
  revert Hu. unfold CMD_resolve_callback, answer.
  destruct (rcb n) as [f|]; [|done]. cbn [from_option id].
  destruct (rcb_type n); [intros Hu; by eapply call_inv|].
  destruct (resp_decode data); intros Hu; [by eapply call_inv|].
  eexists _, _, _. split_and!; [done|exact Hu|apply extends_refl].
Qed.

(** ** Runs

    The steps of a process: sending a command, receiving a packet, the timeout
    of the next due event, and a change of the schedule by other parts of the
    process. *)

Inductive op := Command (q : request P) | Packet (data : list Z) (src : sockaddr_in) | Expire | Others (t : T).

Abbreviation handle := (cmd_handle_xdr_response malloc malloc_buff encode hdr_decode resp_decode transmit user).

Definition do_op s (o : op) : option (proc T W) :=
  match o with
  | Command q => snd <$> IPC_command_internal malloc malloc_buff encode transmit s q
  | Packet data src => handle s data src
  | Expire => expire malloc malloc_buff encode transmit user s
  | Others t => Some (with_timers s t)
  end.

(** The timer of the request that a packet answers can be removed. *)
Definition safe_packet s (data : list Z) (src : sockaddr_in) : Prop :=
  forall h l a n l' s2 p,
    hdr_decode data = Some h -> resp s = Some l ->
    find_resp (nodes s) l h src = Some (Some (a, n, l')) ->
    CMD_resolve_callback malloc malloc_buff encode resp_decode transmit user
      (with_resp s l') a (rcb n) (rarg n) (rcb_type n) data = Some s2 ->
    to_evt n = Some p -> removable (timers s2) p.

(** Other parts leave the timeouts alone. *)
Definition safe_op s (o : op) : Prop :=
  match o with
  | Packet data src => safe_packet s data src
  | Others t => timer_ok None t /\ armed t = armed (timers s)
  | _ => True
  end.

Fixpoint run s (os : list op) : option (proc T W) :=
  match os with
  | [] => Some s
  | o :: os => match do_op s o with Some s' => run s' os | None => None end
  end.

Fixpoint safe_run s (os : list op) : Prop :=
  match os with
  | [] => True
  | o :: os => safe_op s o /\ forall s', do_op s o = Some s' -> safe_run s' os
  end.

Lemma handle_inv s l m data src :
  inv None Idle s l m -> safe_packet s data src ->
  exists s' l' m', handle s data src = Some s' /\ inv None Idle s' l' m' /\
    (forall h, hdr_decode data = Some h -> hdr_cmd h = IPC_CMDS_RESPONSE ->
     (s' = s /\ forall a n, a ∈ l -> nodes s !! a = Some n -> resp_matches h src n = false) \/
     (exists l1 a l2 n es k, l = l1 ++ a :: l2 /\ nodes s !! a = Some n /\ resp_matches h src n = true /\
        (forall b nb, b ∈ l1 -> nodes s !! b = Some nb -> resp_matches h src nb = false) /\
        trace s' = trace s ++ answer a n data :: es /\ Forall (fun e => exists b nb, e = Sent b nb) es /\
        resp s' = Some (k ++ l1 ++ l2) /\ nodes s' !! a = None /\
        (forall p, to_evt n = Some p -> armed (timers s') !! p = None))).
Proof.
  intros H Hsafe. unfold cmd_handle_xdr_response, safe_packet in *.
  destruct (hdr_decode data) as [h|]; [|by exists s, l, m].
  destruct (Z.eqb_spec (hdr_cmd h) IPC_CMDS_RESPONSE) as [Ec|Ec]; cbn [negb].
  2:{ exists s, l, m. split_and!; try done. by intros h' [= <-]. }
  rewrite (inv_resp _ _ _ _ _ H) in *.
  destruct (find_resp_spec Idle s l m h src H) as [[Ef Hno]|(l1 & a & l2 & n & Ef & Hl & Hn & Hm & Hno)];
    rewrite Ef in *.
  { exists s, l, m. split_and!; try done. intros h' [= <-] _. by left. }
  destruct (resolve_inv s l m l1 a l2 n data H Hl Hn) as (s2 & l' & m' & E2 & H2 & (k & es & X1 & X2 & X3 & X4)).
  rewrite E2. assert (Hna : nodes s !! a = Some n) by (by eapply lookup_weaken, (inv_nodes _ _ _ _ _ H)).
  assert (Hn2 : nodes s2 !! a = Some n) by (by eapply lookup_weaken).
  destruct (finish_inv s2 l' m' a H2) as (s' & -> & H' & F1 & F2 & F3 & F4).
  { intros n' p Hn' Hp. simplify_eq. by eapply Hsafe. }
  exists s', l', m'. split_and!; try done. intros h' [= <-] _. right.
  exists l1, a, l2, n, es, k. split_and!; try done.
  - rewrite F2, X3. simpl. by rewrite <- app_assoc.
  - by rewrite F1, X1.
  - rewrite F3. apply lookup_delete_eq.
  - intros p Hp. by eapply F4.
Qed.

Lemma expire_inv s l m :
  inv None Idle s l m ->
  exists s' l' m', expire malloc malloc_buff encode transmit user s = Some s' /\ inv None Idle s' l' m' /\
    (forall p z t, timer_begin (timers s) = Some (p, z, t) ->
     exists a n f es k, z = Zpos a /\ a ∈ l /\ nodes s !! a = Some n /\ to_evt n = Some p /\ rcb n = Some f /\
       trace s' = trace s ++ Called a f (rarg n) true :: es /\ Forall (fun e => exists b nb, e = Sent b nb) es /\
       resp s' = Some (k ++ remove_one a l) /\ nodes s' !! a = None).
Proof.
  intros H. unfold expire. destruct (timer_begin (timers s)) as [[[p z] t]|] eqn:Eb.
  2:{ exists s, l, m. by split_and!. }
  destruct (timer_begin_ok _ p z t (inv_timer _ _ _ _ _ H) Eb) as (B1 & B2 & B3).
  apply (inv_armed _ _ _ _ _ H) in B2 as (a & n & -> & Hna & Hto & _).
  destruct (proj1 (inv_dom _ _ _ _ _ H a)) as [Ha|[]]; [by eexists|].
  pose proof (proj1 (inv_pending _ _ _ _ _ H a) Ha) as [n' Hn].
  assert (n' = n) as ->.
  { pose proof (lookup_weaken _ _ _ _ Hn (inv_nodes _ _ _ _ _ H)). congruence. }
  pose proof (inv_cb _ _ _ _ _ H a n Hn) as Hf. destruct (rcb n) as [f|] eqn:Ef; [|done].
  unfold response_timeout_cb. cbn [Z.eqb Z.to_pos with_timers nodes resp].
  rewrite Hna, (inv_resp _ _ _ _ _ H), Ef.
  set (s1 := with_resp _ _).
  assert (Hu : inv (Some p) (TimingOut a) (log s1 (Called a f (rarg n) true)) (remove_one a l) (delete a m)).
  { apply (unlink_timing_out s l _ m a n); try done; [by apply remove_one_perm|].
    simpl. rewrite Hn, decide_True; [done|]. split_and!; [done|done|by eexists]. }
  destruct (call_inv _ _ _ _ _ a f (rarg n) true None Hu) as (s2 & l2 & m2 & -> & H2 & (k & es & X1 & X2 & X3 & X4)).
  apply free_timing_out in H2. set (s3 := with_nodes s2 _) in *.
  pose proof (timer_end_ok p (timers s3) (inv_timer _ _ _ _ _ H2)) as [E1 E2].
  eexists _, l2, m2. split; [done|]. split.
  - destruct H2. split; simpl in *; try done. by rewrite E2.
  - intros p' z' t' [= <- <- <-]. exists a, n, f, es, k. split_and!; try done.
    + simpl. rewrite X3. simpl. by rewrite <- app_assoc.
    + simpl. apply lookup_delete_eq.
Qed.

Lemma do_op_inv s l m o : inv None Idle s l m -> safe_op s o ->
  exists s' l' m', do_op s o = Some s' /\ inv None Idle s' l' m'.
Proof.
  intros H Hs. destruct o as [q|data src| |t]; simpl in *.
  - destruct (command_inv None Idle s l m q H) as (c & s' & l' & m' & -> & H' & _). by exists s', l', m'.
  - destruct (handle_inv s l m data src H Hs) as (s' & l' & m' & -> & H' & _). by exists s', l', m'.
  - destruct (expire_inv s l m H) as (s' & l' & m' & -> & H' & _). by exists s', l', m'.
  - eexists _, l, m. split; [done|]. destruct Hs as [S1 S2]. destruct H. split; simpl; try done.
    by rewrite S2.
Qed.

Lemma run_inv os s l m : inv None Idle s l m -> safe_run s os ->
  exists s' l' m', run s os = Some s' /\ inv None Idle s' l' m'.
Proof.
  revert s l m. induction os as [|o os IH]; intros s l m H; simpl; [by exists s, l, m|].
  intros [Hs Hr]. destruct (do_op_inv s l m o H Hs) as (s1 & l1 & m1 & E & H1).
  rewrite E. apply (IH s1 l1 m1 H1). by apply Hr.
Qed.

(** A process that has sent nothing. *)
Definition started s : Prop :=
  resp s = Some [] /\ nodes s = ∅ /\ trace s = [] /\ timer_ok None (timers s) /\ armed (timers s) = ∅.

Lemma started_inv s : started s -> inv None Idle s [] ∅.
Proof.
  intros (E1 & E2 & E3 & E4 & E5). split; try done.
  - constructor.
  - by rewrite E3.
  - intros a. rewrite lookup_empty. split; [by intros ?%elem_of_nil|by intros [? ?]].
  - by rewrite E2.
  - intros a. rewrite E2, lookup_empty. split; [by intros [? ?]|]. by intros [?%elem_of_nil|[]].
  - intros p z. rewrite E5, E2, lookup_empty. split; [done|]. intros (a & n & _ & Hn & _).
    by rewrite lookup_empty in Hn.
Qed.

(** C17. Every request ends exactly once. Commands are sent (also by the
    callbacks), packets arrive, timeouts fire and other events are scheduled
    in any order, with two conditions: there is memory for the nodes of the
    requests, and the timeout that a reply cancels can be removed from the
    queue when it does ([safe_run]: it is not the last cell with a parent of
    equal time, see [response_tie_lost]). Then no operation goes through a
    freed node, and the trace is in order: each callback is that of a pending
    request, with its argument, ends it, and is a timeout only for a request
    with a time limit; a reply that a request with a decoded callback cannot
    decode ends it with no callback. The list and the memory hold exactly the
    pending requests, and the armed timeouts are exactly those of pending
    requests with a time limit; so a timeout never follows a reply, and
    nothing is left behind when the last request ends. *)
Theorem response_exactly_once s os :
  started s -> safe_run s os ->
  exists s' l m, run s os = Some s' /\ replay (trace s') = Some m /\
    resp s' = Some l /\ NoDup l /\ (forall a, a ∈ l <-> is_Some (m !! a)) /\ nodes s' = m /\
    (forall p z, armed (timers s') !! p = Some z <->
       exists a n, z = Zpos a /\ m !! a = Some n /\ to_evt n = Some p).
Proof.
  intros Hs Hr. destruct (run_inv os s [] ∅ (started_inv s Hs) Hr) as (s' & l & m & E & H).
  exists s', l, m. destruct H. assert (Hm : nodes s' = m).
  { apply map_eq. intros a. destruct (m !! a) as [n|] eqn:En; [by eapply lookup_weaken|].
    apply eq_None_not_Some. rewrite inv_dom0, inv_pending0, En. by intros [[? ?]|[]]. }
  split_and!; try done. intros p z. rewrite inv_armed0, Hm. naive_solver.
Qed.

(** Delivery.  A reply goes to the most recent pending request with its
    reference and sender: its callback is called with the packet (or, cooked,
    with the decoded reply, and not at all when that fails), the request is no
    longer pending and its timeout is cancelled; the other requests stay, in
    order, behind those the callback sent.  Any other packet changes nothing.
    A due timeout calls the callback of its request, which is pending, with the
    timeout flag, and ends it in the same way. *)
Theorem response_delivered s0 os s l data src h :
  started s0 -> safe_run s0 os -> run s0 os = Some s -> resp s = Some l ->
  safe_packet s data src -> hdr_decode data = Some h -> hdr_cmd h = IPC_CMDS_RESPONSE ->
  (exists s', handle s data src = Some s' /\
    ((s' = s /\ forall a n, a ∈ l -> nodes s !! a = Some n -> resp_matches h src n = false) \/
     (exists l1 a l2 n es k, l = l1 ++ a :: l2 /\ nodes s !! a = Some n /\ resp_matches h src n = true /\
        (forall b nb, b ∈ l1 -> nodes s !! b = Some nb -> resp_matches h src nb = false) /\
        trace s' = trace s ++ answer a n data :: es /\ Forall (fun e => exists b nb, e = Sent b nb) es /\
        resp s' = Some (k ++ l1 ++ l2) /\ nodes s' !! a = None /\
        (forall p, to_evt n = Some p -> armed (timers s') !! p = None)))) /\
  (exists s', expire malloc malloc_buff encode transmit user s = Some s' /\
    forall p z t, timer_begin (timers s) = Some (p, z, t) ->
     exists a n f es k, z = Zpos a /\ a ∈ l /\ nodes s !! a = Some n /\ to_evt n = Some p /\ rcb n = Some f /\
       trace s' = trace s ++ Called a f (rarg n) true :: es /\ Forall (fun e => exists b nb, e = Sent b nb) es /\
       resp s' = Some (k ++ remove_one a l) /\ nodes s' !! a = None).
Proof.
  intros Hs Hr E Hl Hsafe Hh Hc.
  destruct (run_inv os s0 [] ∅ (started_inv s0 Hs) Hr) as (s' & l' & m & E' & H).
  rewrite E in E'. injection E' as <-. pose proof (inv_resp _ _ _ _ _ H) as Hl'.
  rewrite Hl in Hl'. injection Hl' as <-. split.
  - destruct (handle_inv s l m data src H Hsafe) as (s' & l' & m' & -> & _ & Hd). eauto.
  - destruct (expire_inv s l m H) as (s' & l' & m' & -> & _ & Hd). eauto.
Qed.
End Facts.

(** ** A process on the schedule

    Two requests: the reply to the first, whose callback 7 sends a third, then
    the timeout of the second. *)

Module Demo.

Definition malloc (X : gset ptr) : option ptr := Some (fresh X).

#[global] Instance malloc_ok : Malloc malloc.
Proof. split. intros X. exists (fresh X). split; [done|apply is_fresh]. Qed.

Lemma malloc_fresh (X : gset ptr) p : malloc X = Some p -> p ∉ X.
Proof. intros [= <-]. apply is_fresh. Qed.

#[global] Instance demo_ops : TimerOps clocked := sched_timer_ops malloc true.
#[global] Instance demo_timers : Timers clocked := sched_timers malloc true malloc_fresh.

Definition encode (_ : unit) (ref _ : Z) : list Z + Z := inl [ref].
Definition hdr_decode (data : list Z) : option IPC_ResponseHeader :=
  match data with [c; i; r] => Some (RespHdr c i r) | _ => None end.
Definition resp_decode (_ : list Z) : option unit := None.
Definition transmit (pkt : list Z) (_ : sockaddr_in) (w : list (list Z)) : list (list Z) := w ++ [pkt].
Definition host : sockaddr_in := SA 2000 5.
Definition ask (f timeout : Z) : request unit := Req tt host (Some f) 40 IPC_CB_TYPE_RAW timeout.
Definition user (f : Z) (to : bool) (_ : Z) (_ : option (list Z + unit)) (w : list (list Z))
    : list (request unit) * list (list Z) :=
  (if f =? 7 then [ask 9 500] else [], w).

Abbreviation state := (proc clocked (list (list Z))).
Abbreviation step := (do_op malloc (fun _ => true) encode hdr_decode resp_decode transmit user).
Abbreviation go := (run malloc (fun _ => true) encode hdr_decode resp_decode transmit user).
Abbreviation safe := (safe_run malloc (fun _ => true) encode hdr_decode resp_decode transmit user).

Definition s0 : state := Proc ∅ (Some []) 1 (Clk (TV 100 0) start0) [] [].

(** Whether the timer of the answered request can be removed, by computation. *)
Definition safe_packet_b (s : state) (data : list Z) (src : sockaddr_in) : bool :=
  match hdr_decode data, resp s with
  | Some h, Some l =>
      match find_resp (nodes s) l h src with
      | Some (Some (a, n, l')) =>
          match CMD_resolve_callback malloc (fun _ => true) encode resp_decode transmit user
                  (with_resp s l') a (rcb n) (rarg n) (rcb_type n) data, to_evt n with
          | Some s2, Some p =>
              let c := sc (timers s2) in
              negb (get_pos (heap c) p =? size (queue c) - 1)%nat || (size (queue c) =? 2)%nat
              || negb (cmp_pri (get_pri (heap c) (d (queue c) !!! parent (size (queue c) - 1)%nat))
                               (get_pri (heap c) p))
          | _, _ => true
          end
      | _ => true
      end
  | _, _ => true
  end.

Lemma safe_packet_true s data src : safe_packet_b s data src = true ->
  safe_packet malloc (fun _ => true) encode hdr_decode resp_decode transmit user s data src.
Proof.
  unfold safe_packet_b. intros H h l a n l' s2 p Eh El Ef Er Ep.
  rewrite Eh, El, Ef, Er, Ep in H. simpl. unfold remove_safe. simpl. intros Hpos Hsz.
  left. rewrite Hpos, Nat.eqb_refl in H. rewrite (proj2 (Nat.eqb_neq _ _) Hsz) in H. simpl in H.
  by apply negb_true_iff in H.
Qed.

Lemma started_s0 : started s0.
Proof.
  split_and!; try done.
  - split; [apply start0_wf|done].
Qed.

Definition first_ops : list (op (T:=clocked) (P:=unit)) :=
  [Command (ask 7 1000); Command (ask 8 2000); Packet [256; 1; 0] host].
Definition s3 : state := default s0 (go s0 first_ops).
Definition later : clocked := Clk (TV 103 0) (sc (timers s3)).
Definition all_ops : list (op (T:=clocked) (P:=unit)) := first_ops ++ [Others later; Expire; Packet [256; 2; 0] host].


Lemma safe_first : safe s0 first_ops.
Proof.
  simpl. split; [done|]. intros s1 E1. split; [done|]. intros s2 E2. split; [|done].
  apply safe_packet_true. vm_compute in E1. apply Some_inj in E1. subst s1.
  vm_compute in E2. apply Some_inj in E2. subst s2.
  by vm_compute.
Qed.

Lemma run_first : go s0 first_ops = Some s3.
Proof. by vm_compute. Qed.

Lemma second_pending :
  nodes s3 !! 2%positive = Some (RCB 2 host (Some 8) 40 IPC_CB_TYPE_RAW (Some 3%positive)).
Proof. by vm_compute. Qed.

#[local] Opaque s3.

Lemma later_ok : timer_ok None later.
Proof.
  destruct (run_inv malloc (fun _ => true) encode hdr_decode resp_decode transmit user first_ops s0 [] ∅
    (started_inv s0 started_s0) safe_first) as (s' & l & m & E & H).
  rewrite run_first in E. apply Some_inj in E. rewrite <- E in H.
  exact (inv_timer _ _ _ _ _ H : sched_ok None (sc (timers s3))).
Qed.

Lemma safe_run_app s os os' :
  safe s os -> (forall s', go s os = Some s' -> safe s' os') -> safe s (os ++ os').
Proof.
  revert s. induction os as [|o os IH]; intros s; simpl; [by intros _ H; apply H|].
  intros [H1 H2] H3. split; [done|]. intros s' E. apply IH; [by apply H2|]. intros s'' E'.
  apply H3. by rewrite E.
Qed.

Lemma safe_all : safe s0 all_ops.
Proof.
  apply safe_run_app; [apply safe_first|]. rewrite run_first. intros s' <-%Some_inj.
  split; [split; [apply later_ok|done]|]. intros s4 E4. split; [done|]. intros s5 E5. split; [|done].
  apply safe_packet_true. apply Some_inj in E4. subst s4. vm_compute in E5. apply Some_inj in E5. subst s5. by vm_compute.
Qed.
End Demo.

Lemma response_exactly_once_witness :
  exists s' l m, Demo.go Demo.s0 Demo.all_ops = Some s' /\ replay (trace s') = Some m /\
    resp s' = Some l /\ NoDup l /\ (forall a, a ∈ l <-> is_Some (m !! a)) /\ nodes s' = m /\
    (forall p z, armed (timers s') !! p = Some z <->
       exists a n, z = Zpos a /\ m !! a = Some n /\ to_evt n = Some p).
Proof.
  apply (response_exactly_once Demo.malloc (fun _ => true) Demo.encode Demo.hdr_decode Demo.resp_decode
    Demo.transmit Demo.user Demo.s0 Demo.all_ops).
  - apply Demo.started_s0.
  - apply Demo.safe_all.
Defined.

(** In that run the first request is answered by its reply, the third by its
    timeout and the second by its reply. *)
Example demo_trace :
  (fun s => (omap (fun e => match e with Called a f _ to => Some (a, f, to) | _ => None end) (trace s), resp s))
    <$> Demo.go Demo.s0 Demo.all_ops
  = Some ([(1%positive, 7, false); (3%positive, 9, true); (2%positive, 8, false)], Some []).
Proof. by vm_compute. Qed.

Lemma response_delivered_witness :
  exists s', do_op Demo.malloc (fun _ => true) Demo.encode Demo.hdr_decode Demo.resp_decode
    Demo.transmit Demo.user Demo.s3 (Packet [256; 2; 0] Demo.host) = Some s' /\ s' <> Demo.s3.
Proof.
  destruct (response_delivered Demo.malloc (fun _ => true) Demo.encode Demo.hdr_decode Demo.resp_decode
    Demo.transmit Demo.user Demo.s0 Demo.first_ops Demo.s3 [3%positive; 2%positive] [256; 2; 0] Demo.host
    (RespHdr 256 2 0)) as [(s' & E & H) _].
  - apply Demo.started_s0.
  - apply Demo.safe_first.
  - apply Demo.run_first.
  - by vm_compute.
  - apply Demo.safe_packet_true. by vm_compute.
  - done.
  - done.
  - exists s'. split; [exact E|]. destruct H as [[-> H]|(l1 & a & l2 & n & es & k & _ & _ & _ & _ & Ht & _)].
    + exfalso. assert (Hin : 2%positive ∈ [3%positive; 2%positive]) by (right; left).
      pose proof (H _ _ Hin Demo.second_pending) as C. by vm_compute in C.
    + intros ->. apply (f_equal length) in Ht. rewrite length_app, length_cons in Ht. revert Ht.
      generalize (length (trace Demo.s3)). lia.
Defined.

(** The side condition is needed.  Two requests are sent at the same time with
    the same time limit.  The reply to the first frees its event, which stays in
    the queue ([ps_pqueue_remove] with equal priorities), and throws the event
    of the second out of it: the loop will use the freed event, and the second
    request, still pending, never times out. *)
Definition tie_ops : list (op (T:=clocked) (P:=unit)) :=
  [Command (Demo.ask 8 1000); Command (Demo.ask 8 1000); Packet [256; 1; 0] Demo.host].

Definition tied : proc clocked (list (list Z)) := default Demo.s0 (Demo.go Demo.s0 tie_ops).

Theorem response_tie_lost :
  contents (queue (sc (timers tied))) = [2%positive] /\ heap (sc (timers tied)) !! 2%positive = None /\
  resp tied = Some [2%positive] /\ (to_evt <$> nodes tied !! 2%positive) = Some (Some 3%positive).
Proof. split_and!; by vm_compute. Qed.
