(* ===== verification/CmdRegistry.v ===== *)
(** * The tables of commands and errors (cmd.c)

    Commands are described by static records that programs register; a
    command with a number goes to a hash table (HashTable.v), a request for
    telemetry, which has no number but a list of types, to a list.  Error codes
    have a second table.  The records stay in the caller's memory: the tables
    hold pointers, and registering a command writes its parameter definition
    into its record. *)

From stdpp Require Import base gmap list numbers sorting.
From Stdlib Require Import ZArith Lia.
From S2P Require Import Prelude Words CStr HashTable.
Open Scope Z_scope.

(** ** Data *)

(** A C string without its end mark. *)
Abbreviation cstring := (list Z) (only parsing).

(** [struct CMD_XDRCommandInfo]; [types] is the list before its zero. *)
Record CMD_XDRCommandInfo := CI {
  command : Z;
  params : Z;
  ci_name : option cstring;
  types : option (list Z);
  parameter : option ptr;
  handler : option Z;
  harg : Z
}.

Definition with_parameter (c : CMD_XDRCommandInfo) (v : option ptr) : CMD_XDRCommandInfo :=
  CI (command c) (params c) (ci_name c) (types c) v (handler c) (harg c).
Definition with_handler (c : CMD_XDRCommandInfo) (cb : option Z) (arg : Z) : CMD_XDRCommandInfo :=
  CI (command c) (params c) (ci_name c) (types c) (parameter c) cb arg.

Record CMD_ErrorInfo := EI { err_id : Z; err_name : option cstring; description : option cstring }.

(** The records in memory and the static variables of cmd.c. *)
Record tables := Tabs {
  infos : gmap ptr CMD_XDRCommandInfo;
  xdrCommandHash : option (HashTable Z ptr);
  xdrDatareqList : list ptr;
  errs : gmap ptr CMD_ErrorInfo;
  xdrErrorHash : option (HashTable Z ptr);
  cleanup_reg : bool
}.

Definition with_infos (t : tables) (v : gmap ptr CMD_XDRCommandInfo) : tables :=
  Tabs v (xdrCommandHash t) (xdrDatareqList t) (errs t) (xdrErrorHash t) (cleanup_reg t).
Definition with_commands (t : tables) (v : option (HashTable Z ptr)) : tables :=
  Tabs (infos t) v (xdrDatareqList t) (errs t) (xdrErrorHash t) (cleanup_reg t).
Definition with_datareq (t : tables) (v : list ptr) : tables :=
  Tabs (infos t) (xdrCommandHash t) v (errs t) (xdrErrorHash t) (cleanup_reg t).
Definition with_errors (t : tables) (v : option (HashTable Z ptr)) : tables :=
  Tabs (infos t) (xdrCommandHash t) (xdrDatareqList t) (errs t) v (cleanup_reg t).
Definition with_cleanup (t : tables) (v : bool) : tables :=
  Tabs (infos t) (xdrCommandHash t) (xdrDatareqList t) (errs t) (xdrErrorHash t) v.

(** ** Operations *)

Definition xdr_cmd_hash_func (key : Z) : Z := key.
Definition xdr_cmd_cmp_key (key1 key2 : Z) : bool := key1 =? key2.
Definition xdr_cmd_key_for_data (m : gmap ptr CMD_XDRCommandInfo) (data : ptr) : Z :=
  match m !! data with Some c => command c | None => 0 end.
Definition xdr_err_key_for_data (m : gmap ptr CMD_ErrorInfo) (data : ptr) : Z :=
  match m !! data with Some e => err_id e | None => 0 end.
Definition null_key (k : Z) : bool := k =? 0.

Definition CMD_hash_cleanup (t : tables) : tables :=
  Tabs (infos t) None [] (errs t) None false.

Definition CMD_xdr_cmd_by_number (t : tables) (num : Z) : option ptr :=
  HASH_find_key xdr_cmd_hash_func xdr_cmd_cmp_key (xdrCommandHash t) num.

Section Register.
(** [XDR_definition_for_type]: the registry of XdrStruct.v. *)
Variable definition_for_type : Z -> option ptr.

Definition set_parameter (t : tables) (p : ptr) (c : CMD_XDRCommandInfo) : tables :=
  if negb (params c =? 0)
  then with_infos t (<[p := with_parameter c (definition_for_type (params c))]> (infos t)) else t.

(** [table_ok], [node_ok]: whether malloc gives the table, a node. *)
Definition CMD_register_command (table_ok node_ok : bool) (t : tables) (cmd : option ptr) (override : bool)
    : tables :=
  match cmd with
  | None => t
  | Some p =>
      match infos t !! p with
      | None => t
      | Some c =>
          if negb (command c =? 0) then
            let t1 := match xdrCommandHash t with
                      | Some _ => t
                      | None => with_commands (with_cleanup t true) (HASH_create_table table_ok 37)
                      end in
            match xdrCommandHash t1 with
            | None => t1
            | Some _ =>
                let t2 := set_parameter t1 p c in
                match xdrCommandHash t2 with
                | None => t2
                | Some h =>
                    let key := xdr_cmd_key_for_data (infos t2) in
                    match HASH_find_key xdr_cmd_hash_func xdr_cmd_cmp_key (Some h) (command c) with
                    | Some _ =>
                        if override then
                          let h1 := (HASH_remove_key_internal xdr_cmd_hash_func xdr_cmd_cmp_key null_key h (command c)).2 in
                          with_commands t2 (Some (HASH_add_data xdr_cmd_hash_func xdr_cmd_cmp_key key node_ok h1 (Some p)).2)
                        else t2
                    | None =>
                        with_commands t2 (Some (HASH_add_data xdr_cmd_hash_func xdr_cmd_cmp_key key node_ok h (Some p)).2)
                    end
                end
            end
          else if bool_decide (is_Some (types c)) then
            let t1 := with_cleanup t true in
            if node_ok then set_parameter (with_datareq t1 (p :: xdrDatareqList t1)) p c else t1
          else t
      end
  end.

(** The table of commands ends at an entry with neither number nor types; the
    allocations of its entries are taken to succeed. *)
Definition is_command (t : tables) (p : ptr) : bool :=
  match infos t !! p with
  | Some c => negb (command c =? 0) || bool_decide (is_Some (types c))
  | None => false
  end.

Fixpoint CMD_register_commands (t : tables) (cmds : list ptr) (override : bool) : tables :=
  match cmds with
  | [] => t
  | p :: rest =>
      if is_command t p then CMD_register_commands (CMD_register_command true true t (Some p) override) rest override
      else t
  end.
End Register.

Definition CMD_set_xdr_cmd_handler (t : tables) (num : Z) (cb : option Z) (arg : Z) : tables :=
  match CMD_xdr_cmd_by_number t num with
  | None => t
  | Some p => with_infos t (alter (fun c => with_handler c cb arg) p (infos t))
  end.

(** *** Names *)

(** The iterator keeps the last command with the name. *)
Definition cmd_hash_by_name (m : gmap ptr CMD_XDRCommandInfo) (name : cstring) (result : option ptr) (data : ptr)
    : option ptr * bool :=
  match m !! data ≫= ci_name with
  | Some n => (if same_name n name then Some data else result, false)
  | None => (result, false)
  end.

(** The loop over the telemetry requests; [None] is a comparison with a name
    that is NULL. *)
Fixpoint datareq_by_name (m : gmap ptr CMD_XDRCommandInfo) (name : cstring) (result : option ptr) (l : list ptr)
    : option (option ptr) :=
  match l, result with
  | [], _ => Some result
  | _, Some _ => Some result
  | p :: l', None =>
      match m !! p ≫= ci_name with
      | None => None
      | Some n => datareq_by_name m name (if same_name n name then Some p else None) l'
      end
  end.

Definition CMD_xdr_cmd_by_name (t : tables) (name : cstring) : option (option ptr) :=
  let r := match xdrCommandHash t with
           | None => None
           | Some _ => (HASH_iterate_arg_table (cmd_hash_by_name (infos t) name) (xdrCommandHash t) None).1
           end in
  datareq_by_name (infos t) name r (xdrDatareqList t).

(** [struct CMD_MulticallInfo], up to the first entry without a function. *)
Record CMD_MulticallInfo := MC { mc_func : option Z; mc_name : option cstring }.

Fixpoint CMD_mc_cmd_by_name (name : cstring) (mc : list CMD_MulticallInfo) : option CMD_MulticallInfo :=
  match mc with
  | [] => None
  | c :: rest =>
      match mc_func c with
      | None => None
      | Some _ =>
          match mc_name c with
          | Some n => if same_name n name then Some c else CMD_mc_cmd_by_name name rest
          | None => CMD_mc_cmd_by_name name rest
          end
      end
  end.

(** *** Errors *)

Definition CMD_register_error (table_ok node_ok : bool) (t : tables) (err : option ptr) : tables :=
  match err with
  | None => t
  | Some p =>
      let t1 := match xdrErrorHash t with
                | Some _ => t
                | None => with_errors (with_cleanup t true) (HASH_create_table table_ok 37)
                end in
      match xdrErrorHash t1 with
      | None => t1
      | Some h =>
          with_errors t1 (Some (HASH_add_data xdr_cmd_hash_func xdr_cmd_cmp_key
            (xdr_err_key_for_data (errs t1)) node_ok h (Some p)).2)
      end
  end.

Fixpoint CMD_register_errors (t : tables) (l : list ptr) : tables :=
  match l with
  | [] => t
  | p :: rest =>
      match errs t !! p with
      | Some e => if 0 <? err_id e then CMD_register_errors (CMD_register_error true true t (Some p)) rest else t
      | None => t
      end
  end.

Definition CMD_error_message (t : tables) (id : Z) : cstring :=
  match HASH_find_key xdr_cmd_hash_func xdr_cmd_cmp_key (xdrErrorHash t) id ≫= fun p => errs t !! p with
  | None => []
  | Some e =>
      match description e, err_name e with
      | Some d, _ => d
      | None, Some n => n
      | None, None => []
      end
  end.

(** ** Specification

    The commands as a map from numbers to records: a number that is taken is
    kept, unless the new registration overrides it. *)

Definition register_spec (m : gmap Z ptr) (num : Z) (p : ptr) (override : bool) : gmap Z ptr :=
  if override || bool_decide (m !! num = None) then <[num := p]> m else m.

Definition numbered (t : tables) (p : ptr) : option Z :=
  match infos t !! p with
  | Some c => if command c =? 0 then None else Some (command c)
  | None => None
  end.

(** The effect of a table of commands, up to its end mark. *)
Fixpoint register_all_spec (t : tables) (m : gmap Z ptr) (cmds : list ptr) (override : bool) : gmap Z ptr :=
  match cmds with
  | [] => m
  | p :: rest =>
      if is_command t p then
        register_all_spec t (match numbered t p with
                             | Some num => register_spec m num p override
                             | None => m end) rest override
      else m
  end.

(** Its entries. *)
Fixpoint entries (t : tables) (cmds : list ptr) : list ptr :=
  match cmds with
  | [] => []
  | p :: rest => if is_command t p then p :: entries t rest else []
  end.

(** Its telemetry requests, latest first. *)
Fixpoint requests_of (t : tables) (cmds : list ptr) : list ptr :=
  match cmds with
  | [] => []
  | p :: rest =>
      if is_command t p then
        match numbered t p with
        | Some _ => requests_of t rest
        | None => requests_of t rest ++ [p]
        end
      else []
  end.

#[export] Instance xdr_cmd_cmp_KeySpec : KeySpec xdr_cmd_cmp_key.
Proof. split. apply Z.eqb_eq. Qed.

(** A table of pointers stands for a map. *)
Definition stands_for (h : option (HashTable Z ptr)) (key : ptr -> Z) (m : gmap Z ptr) : Prop :=
  match h with
  | None => m = ∅
  | Some t => ht_wf xdr_cmd_hash_func key t /\ represents xdr_cmd_hash_func xdr_cmd_cmp_key t (fun k => m !! k)
  end.

Definition reg_wf (t : tables) (m : gmap Z ptr) : Prop :=
  stands_for (xdrCommandHash t) (xdr_cmd_key_for_data (infos t)) m.

(** ** Tables of pointers *)

Lemma ht_wf_ext {K D} (hash : K -> Z) (key key' : D -> K) (t : HashTable K D) :
  (forall x, key x = key' x) -> ht_wf hash key t -> ht_wf hash key' t.
Proof.
  intros E (H1 & H2 & H3). split; [done|]. split; [done|]. intros i c Hc.
  destruct (H3 i c Hc) as [Hf Hn]. split; [|done]. eapply Forall_impl; [exact Hf|].
  intros n (N1 & N2 & N3). split_and!; try done. by rewrite <- E.
Qed.

Section Stands.
Context (key : ptr -> Z).

Lemma stands_ext h key' m : (forall x, key x = key' x) -> stands_for h key m -> stands_for h key' m.
Proof. destruct h; [|done]. intros E [H1 H2]. split; [by eapply ht_wf_ext|done]. Qed.

Lemma stands_find h m k : stands_for h key m -> HASH_find_key xdr_cmd_hash_func xdr_cmd_cmp_key h k = m !! k.
Proof. destruct h; simpl; [intros [_ H]; apply H|intros ->; done]. Qed.

(** The table that is made at the first registration. *)
Lemma stands_create h m :
  stands_for h key m ->
  exists t, match h with Some _ => h | None => HASH_create_table true 37 end = Some t /\ stands_for (Some t) key m.
Proof.
  destruct h as [t|]; [by exists t|]. intros ->. eexists. split; [done|].
  apply (create_wf xdr_cmd_hash_func xdr_cmd_cmp_key key 37); [lia|done].
Qed.

Lemma stands_add t m p :
  stands_for (Some t) key m ->
  stands_for (Some (HASH_add_data xdr_cmd_hash_func xdr_cmd_cmp_key key true t (Some p)).2) key
    (if decide (m !! key p = None) then <[key p := p]> m else m).
Proof.
  intros [Hw Hm]. unfold HASH_add_data. rewrite (Hm (key p)). case_decide as E.
  - rewrite E. cbn [negb snd].
    destruct (add_new xdr_cmd_hash_func xdr_cmd_cmp_key key t _ p Hw Hm E) as [Hw' Hm'].
    split; [exact Hw'|]. intros k. rewrite (Hm' k). unfold map_set, xdr_cmd_cmp_key.
    destruct (Z.eqb_spec (key p) k) as [->|Hne]; [by rewrite lookup_insert_eq|by rewrite lookup_insert_ne].
  - by destruct (m !! key p).
Qed.

Lemma stands_remove t m k :
  stands_for (Some t) key m -> k <> 0 ->
  stands_for (Some (HASH_remove_key_internal xdr_cmd_hash_func xdr_cmd_cmp_key null_key t k).2) key (delete k m).
Proof.
  intros [Hw Hm] Hk.
  destruct (remove_found xdr_cmd_hash_func xdr_cmd_cmp_key key null_key t _ k Hw Hm) as (_ & Hw' & Hm').
  { unfold null_key. by apply Z.eqb_neq. }
  split; [done|]. intros k'. rewrite (Hm' k'). unfold map_set, xdr_cmd_cmp_key.
  destruct (Z.eqb_spec k k') as [->|Hne]; [by rewrite lookup_delete_eq|by rewrite lookup_delete_ne].
Qed.
End Stands.

(** ** Registration *)

(** The records up to the parameter definitions. *)
Definition plain (m : gmap ptr CMD_XDRCommandInfo) : gmap ptr CMD_XDRCommandInfo :=
  (fun c => with_parameter c None) <$> m.

Section RegisterFacts.
Context (definition_for_type : Z -> option ptr).
Abbreviation set_par := (set_parameter definition_for_type).

Definition resolved (c : CMD_XDRCommandInfo) : CMD_XDRCommandInfo :=
  if params c =? 0 then c else with_parameter c (definition_for_type (params c)).

Lemma set_parameter_infos t p c :
  infos t !! p = Some c -> infos (set_par t p c) = <[p := resolved c]> (infos t).
Proof.
  intros Hp. unfold set_parameter, resolved. destruct (params c =? 0); simpl; [by rewrite insert_id|done].
Qed.

Lemma plain_resolved m p c : m !! p = Some c -> plain (<[p := resolved c]> m) = plain m.
Proof.
  intros Hp. unfold plain. rewrite fmap_insert. apply insert_id. rewrite lookup_fmap, Hp. simpl.
  unfold resolved. by destruct (params c =? 0).
Qed.

Lemma plain_key m m' x : plain m = plain m' -> xdr_cmd_key_for_data m x = xdr_cmd_key_for_data m' x.
Proof.
  intros E. apply (f_equal (fun m => command <$> m !! x)) in E. unfold plain in E.
  rewrite !lookup_fmap in E. unfold xdr_cmd_key_for_data.
  destruct (m !! x), (m' !! x); simpl in E; congruence.
Qed.

Lemma plain_command t t' p : plain (infos t) = plain (infos t') ->
  is_command t p = is_command t' p /\ numbered t p = numbered t' p.
Proof.
  intros E. apply (f_equal (fun m => m !! p)) in E. unfold plain in E. rewrite !lookup_fmap in E.
  unfold is_command, numbered. destruct (infos t !! p) as [[]|], (infos t' !! p) as [[]|]; simpl in *; try done.
  injection E as -> -> -> -> -> ->. done.
Qed.

Lemma register_one t m p c override :
  reg_wf t m -> infos t !! p = Some c -> is_command t p = true ->
  let t' := CMD_register_command definition_for_type true true t (Some p) override in
  reg_wf t' (match numbered t p with Some num => register_spec m num p override | None => m end) /\
  infos t' = <[p := resolved c]> (infos t) /\
  xdrDatareqList t' = (match numbered t p with Some _ => [] | None => [p] end) ++ xdrDatareqList t /\
  errs t' = errs t /\ xdrErrorHash t' = xdrErrorHash t.
Proof.
  intros Hwf Hp Hcmd. unfold CMD_register_command, is_command, numbered in *. rewrite Hp in *.
  assert (Hkey : forall x, xdr_cmd_key_for_data (infos t) x
                          = xdr_cmd_key_for_data (<[p := resolved c]> (infos t)) x).
  { intros x. apply plain_key. symmetry. by apply plain_resolved. }
  destruct (Z.eqb_spec (command c) 0) as [E0|E0]; cbn [negb orb] in *.
  - rewrite Hcmd. set (t1 := with_datareq _ _).
    assert (Hp1 : infos t1 !! p = Some c) by done.
    assert (Hrest : xdrCommandHash (set_par t1 p c) = xdrCommandHash t /\
                    xdrDatareqList (set_par t1 p c) = p :: xdrDatareqList t /\
                    errs (set_par t1 p c) = errs t /\ xdrErrorHash (set_par t1 p c) = xdrErrorHash t)
      by (unfold set_parameter; by destruct (negb _)).
    destruct Hrest as (R1 & R2 & R3 & R4). unfold reg_wf. rewrite R1, R2, (set_parameter_infos t1 p c Hp1).
    split_and!; try done. by eapply stands_ext.
  - set (t1 := match xdrCommandHash t with Some _ => t | None => _ end).
    destruct (stands_create _ _ _ Hwf) as (h & Eh & Hh).
    assert (E1 : xdrCommandHash t1 = Some h /\ infos t1 = infos t /\ xdrDatareqList t1 = xdrDatareqList t /\
                 errs t1 = errs t /\ xdrErrorHash t1 = xdrErrorHash t)
      by (unfold t1; destruct (xdrCommandHash t) eqn:Et; split_and!; cbn [with_commands with_cleanup xdrCommandHash infos xdrDatareqList errs xdrErrorHash]; congruence).
    clearbody t1. destruct E1 as (E1 & E2 & E3 & E4 & E5). rewrite E1.
    assert (Hp1 : infos t1 !! p = Some c) by (by rewrite E2).
    assert (R : xdrCommandHash (set_par t1 p c) = Some h /\ xdrDatareqList (set_par t1 p c) = xdrDatareqList t /\
                errs (set_par t1 p c) = errs t /\ xdrErrorHash (set_par t1 p c) = xdrErrorHash t)
      by (unfold set_parameter; by destruct (negb _)).
    pose proof (set_parameter_infos t1 p c Hp1) as R5. rewrite E2 in R5.
    destruct R as (R1 & R2 & R3 & R4). set (t2 := set_par t1 p c) in *. clearbody t2. rewrite R1.
    apply (stands_ext _ _ _ _ Hkey) in Hh. rewrite <- R5 in Hh. set (key := xdr_cmd_key_for_data (infos t2)) in *.
    assert (Hkp : key p = command c).
    { unfold key, xdr_cmd_key_for_data. rewrite R5, lookup_insert_eq. unfold resolved. by destruct (params c =? 0). }
    rewrite (stands_find key (Some h) m (command c) Hh). unfold register_spec, reg_wf.
    destruct (m !! command c) as [q|] eqn:Em.
    + rewrite bool_decide_eq_false_2 by done. rewrite orb_false_r.
      destruct override; cbn [with_commands xdrCommandHash infos xdrDatareqList errs xdrErrorHash app]; split_and!; try done.
      * pose proof (stands_add key _ _ p (stands_remove key h m (command c) Hh E0)) as Ha.
        rewrite Hkp, lookup_delete_eq, decide_True, insert_delete_eq in Ha by done. exact Ha.
      * by rewrite R1.
    + rewrite bool_decide_eq_true_2 by done. rewrite orb_true_r. cbn [with_commands xdrCommandHash infos xdrDatareqList errs xdrErrorHash app].
      split_and!; try done.
      pose proof (stands_add key h m p Hh) as Ha. rewrite Hkp, decide_True in Ha by done. exact Ha.
Qed.

(** From any tables with the same records. *)
Lemma register_all t t0 m cmds override :
  plain (infos t0) = plain (infos t) -> reg_wf t0 m ->
  let t' := CMD_register_commands definition_for_type t0 cmds override in
  reg_wf t' (register_all_spec t m cmds override) /\
  xdrDatareqList t' = requests_of t cmds ++ xdrDatareqList t0 /\
  (forall p, infos t' !! p = (fun c => if decide (p ∈ entries t cmds) then resolved c else c) <$> infos t0 !! p) /\
  xdrErrorHash t' = xdrErrorHash t0 /\ errs t' = errs t0.
Proof.
  revert t0 m. induction cmds as [|p cmds IH]; intros t0 m Ht0 Hwf;
    cbn [CMD_register_commands register_all_spec requests_of entries].
  { split_and!; try done. intros q. destruct (infos t0 !! q); [|done]. simpl.
    by repeat case_decide. }
  destruct (plain_command t0 t p Ht0) as [C1 C2]. rewrite C1. destruct (is_command t p) eqn:Ec.
  2:{ split_and!; try done. intros q. destruct (infos t0 !! q); [|done]. simpl.
    by repeat case_decide. }
  destruct (infos t0 !! p) as [c|] eqn:Hp; [|unfold is_command in C1; by rewrite Hp in C1].
  destruct (register_one t0 m p c override Hwf Hp C1) as (R1 & R2 & R3 & R4 & R5). rewrite C2 in *.
  assert (Hpl : plain (infos (CMD_register_command definition_for_type true true t0 (Some p) override))
                = plain (infos t)) by (by rewrite R2, plain_resolved).
  destruct (IH _ _ Hpl R1) as (I1 & I2 & I3 & I4 & I5).
  rewrite I2, I4, I5, R3, R4, R5. split_and!; try done.
  - destruct (numbered t p); simpl; [done|]. by rewrite <- app_assoc.
  - intros q. rewrite I3, R2. destruct (decide (q = p)) as [->|Hne].
    + rewrite lookup_insert_eq, Hp. simpl. f_equal.
      destruct (decide (p ∈ p :: entries t cmds)) as [_|[]]; [|left].
      case_decide; [|done]. unfold resolved. destruct (params c =? 0) eqn:Ep; [by rewrite Ep|]. simpl. by rewrite Ep.
    + rewrite lookup_insert_ne by done. destruct (infos t0 !! q); [|done]. simpl. f_equal.
      destruct (decide (q ∈ entries t cmds)); [rewrite decide_True by (by right); done|].
      rewrite decide_False; [done|]. rewrite elem_of_cons. tauto.
Qed.

(** Registering a table of commands.  Afterwards the tables stand for the
    map of the specification: an entry before the end mark takes its number if
    that is free or if it overrides; by number the commands are found as in the
    map; requests without a number are put in front of the list; and each
    entry's parameter definition is looked up. *)
Theorem cmd_registry_correct t m cmds override :
  reg_wf t m ->
  let t' := CMD_register_commands definition_for_type t cmds override in
  let m' := register_all_spec t m cmds override in
  reg_wf t' m' /\ (forall num, CMD_xdr_cmd_by_number t' num = m' !! num) /\
  xdrDatareqList t' = requests_of t cmds ++ xdrDatareqList t /\
  (forall p, infos t' !! p = (fun c => if decide (p ∈ entries t cmds) then resolved c else c) <$> infos t !! p) /\
  xdrErrorHash t' = xdrErrorHash t /\ errs t' = errs t.
Proof.
  intros Hwf. cbv zeta.
  destruct (register_all t t m cmds override eq_refl Hwf) as (G1 & G2 & G3 & G4 & G5). split_and!; try done.
  intros num. unfold CMD_xdr_cmd_by_number. by eapply stands_find.
Qed.
End RegisterFacts.

(** ** Names *)

Lemma find_chain_In (key : ptr -> Z) (t : HashTable Z ptr) (c : list (HashNode Z ptr)) i n :
  chain_ok xdr_cmd_hash_func key t i c -> n ∈ c ->
  find_chain xdr_cmd_cmp_key c (hn_key n) = Some (hn_data n).
Proof.
  intros [_ Hn] Hin. induction c as [|n' c IH]; [by apply elem_of_nil in Hin|]. simpl in *.
  apply NoDup_cons in Hn as [Hk Hn]. unfold xdr_cmd_cmp_key at 1.
  destruct (Z.eqb_spec (hn_key n') (hn_key n)) as [E|E].
  - apply elem_of_cons in Hin as [->|Hin]; [done|]. exfalso. apply Hk. rewrite E.
    apply list_elem_of_fmap. by exists n.
  - apply elem_of_cons in Hin as [->|Hin]; [done|by apply IH].
Qed.

Lemma find_chain_Some (c : list (HashNode Z ptr)) k p :
  find_chain xdr_cmd_cmp_key c k = Some p -> exists n, n ∈ c /\ hn_data n = p.
Proof.
  induction c as [|n c IH]; simpl; [done|]. destruct (xdr_cmd_cmp_key (hn_key n) k).
  - intros [= <-]. exists n. split; [left|done].
  - intros (n' & ? & ?)%IH. exists n'. split; [by right|done].
Qed.

(** The entries of a table are the values of its map. *)
Lemma stands_entries key t m p :
  stands_for (Some t) key m -> (exists n, n ∈ nodes t /\ hn_data n = p) <-> exists k, m !! k = Some p.
Proof.
  intros [Hw Hm]. split.
  - intros (n & Hin & <-). exists (hn_key n). rewrite <- (Hm (hn_key n)).
    apply elem_of_nodes in Hin as (i & _ & Hin).
    pose proof (bucket_ok xdr_cmd_hash_func key t i Hw) as Hok. pose proof Hok as [Hf _].
    rewrite Forall_forall in Hf. destruct (Hf n Hin) as (_ & H2 & H3).
    simpl. rewrite <- H2, H3. by eapply find_chain_In.
  - intros (k & Hk). rewrite <- (Hm k) in Hk. simpl in Hk. apply find_chain_Some in Hk as (n & Hin & Hn).
    exists n. split; [|done]. apply elem_of_nodes. eexists. split; [|exact Hin].
    by eapply bucket_ix_lt.
Qed.

Definition named (m : gmap ptr CMD_XDRCommandInfo) (name : cstring) (p : ptr) : Prop :=
  exists n, m !! p ≫= ci_name = Some n /\ same_name n name = true.

Lemma walk_by_name m name r (l : list (HashNode Z ptr)) :
  match (walk (cmd_hash_by_name m name) r l).1 with
  | Some p => (exists n, n ∈ l /\ hn_data n = p /\ named m name p) \/ r = Some p
  | None => r = None /\ forall n, n ∈ l -> ~ named m name (hn_data n)
  end.
Proof.
  revert r. induction l as [|n l IH]; intros r; simpl.
  { destruct r; [by right|]. split; [done|]. by intros n ?%elem_of_nil. }
  specialize (IH (cmd_hash_by_name m name r (hn_data n)).1).
  assert (Hn : (named m name (hn_data n) /\ (cmd_hash_by_name m name r (hn_data n)).1 = Some (hn_data n)) \/
               (~ named m name (hn_data n) /\ (cmd_hash_by_name m name r (hn_data n)).1 = r)).
  { unfold cmd_hash_by_name, named. destruct (m !! hn_data n ≫= ci_name) as [nm|]; simpl.
    - destruct (same_name nm name) eqn:E; [left; eauto|right]. split; [|done]. intros (x & [= <-] & ?). congruence.
    - right. split; [|done]. by intros (x & ? & ?). }
  destruct (walk _ _ l).1 as [p|].
  - destruct IH as [(x & Hx & ?)|E]; [left; exists x; split; [by right|done]|].
    destruct Hn as [[Hn E']|[_ E']]; rewrite E' in E; [|by right].
    injection E as <-. left. exists n. split; [left|done].
  - destruct IH as [E Hno], Hn as [[_ E']|[Hn E']]; rewrite E' in E; [done|]. split; [done|].
    intros x [->|Hx]%elem_of_cons; [done|by apply Hno].
Qed.

Lemma datareq_by_name_spec m name r l :
  Forall (fun p => is_Some (m !! p ≫= ci_name)) l ->
  exists r', datareq_by_name m name r l = Some r' /\
    match r' with
    | Some p => r = Some p \/ (p ∈ l /\ named m name p)
    | None => r = None /\ forall p, p ∈ l -> ~ named m name p
    end.
Proof.
  intros Hl. revert r. induction Hl as [|p l [nm Hp] Hl IH]; intros r; simpl.
  { exists r. split; [done|]. destruct r; [by left|]. split; [done|]. by intros p ?%elem_of_nil. }
  destruct r as [q|]; [exists (Some q); split; [done|by left]|]. rewrite Hp.
  destruct (same_name nm name) eqn:E.
  - destruct (IH (Some p)) as (r' & -> & Hr). exists r'. split; [done|]. destruct r' as [q|]; [|by destruct Hr].
    right. destruct Hr as [[= <-]|[Hin Hn]]; [split; [left|by exists nm]|split; [by right|done]].
  - destruct (IH None) as (r' & -> & Hr). exists r'. split; [done|]. destruct r' as [q|].
    + right. destruct Hr as [?|[Hin Hn]]; [done|]. split; [by right|done].
    + split; [done|]. intros q [->|Hq]%elem_of_cons; [|by apply Hr]. intros (x & Hx & ?). congruence.
Qed.

(** Looking a command up by its name, whatever the case of its letters:
    the result is a command of the tables with that name, numbered or not, and
    there is none only if no command has the name.  The telemetry requests need
    names, which the code does not test for. *)
Theorem cmd_by_name_correct t m name :
  reg_wf t m -> Forall (fun p => is_Some (infos t !! p ≫= ci_name)) (xdrDatareqList t) ->
  exists r, CMD_xdr_cmd_by_name t name = Some r /\
    match r with
    | Some p => named (infos t) name p /\ ((exists k, m !! k = Some p) \/ p ∈ xdrDatareqList t)
    | None => forall p, (exists k, m !! k = Some p) \/ p ∈ xdrDatareqList t -> ~ named (infos t) name p
    end.
Proof.
  intros Hwf Hl. unfold CMD_xdr_cmd_by_name, reg_wf in *.
  set (r0 := match xdrCommandHash t with Some _ => _ | None => None end).
  assert (H0 : match r0 with
    | Some p => named (infos t) name p /\ exists k, m !! k = Some p
    | None => forall p, (exists k, m !! k = Some p) -> ~ named (infos t) name p end).
  { unfold r0. destruct (xdrCommandHash t) as [h|]; simpl in Hwf.
    - destruct (iterate_buckets_walk (cmd_hash_by_name (infos t) name) None (buckets h)) as [E _].
      unfold HASH_iterate_arg_table. destruct (iterate_buckets _ _ _) as [r1 bs]. simpl in *. subst r1.
      pose proof (walk_by_name (infos t) name None (nodes h)) as Hwk. fold (nodes h).
      destruct (walk _ _ (nodes h)).1 as [p|].
      + destruct Hwk as [(n & Hin & <- & Hn)|?]; [|done]. split; [done|].
        apply (stands_entries _ h m _ Hwf). by exists n.
      + intros p Hp. apply (stands_entries _ h m _ Hwf) in Hp as (n & Hin & <-). by apply Hwk.
    - subst m. intros p (k & Hk). by rewrite lookup_empty in Hk. }
  destruct (datareq_by_name_spec (infos t) name r0 (xdrDatareqList t) Hl) as (r & -> & Hr).
  exists r. split; [done|]. destruct r as [p|].
  - destruct Hr as [->|[? ?]]; [destruct H0; auto|auto].
  - destruct Hr as [-> Hr]. intros p [Hp|Hp]; [by apply H0|by apply Hr].
Qed.

(** ** Errors *)

(** The text of an error: its description, else its name. *)
Definition error_text (e : CMD_ErrorInfo) : cstring :=
  match description e with Some d => d | None => default [] (err_name e) end.

(** A table of errors ends at an identifier that is zero; the first error with
    an identifier is kept. *)
Fixpoint errors_spec (es : gmap ptr CMD_ErrorInfo) (m : gmap Z ptr) (l : list ptr) : gmap Z ptr :=
  match l with
  | [] => m
  | p :: rest =>
      match es !! p with
      | Some e => if 0 <? err_id e
                  then errors_spec es (if decide (m !! err_id e = None) then <[err_id e := p]> m else m) rest
                  else m
      | None => m
      end
  end.

Definition err_wf (t : tables) (m : gmap Z ptr) : Prop :=
  stands_for (xdrErrorHash t) (xdr_err_key_for_data (errs t)) m.

Lemma register_error_ok t m p e :
  err_wf t m -> errs t !! p = Some e ->
  let t' := CMD_register_error true true t (Some p) in
  err_wf t' (if decide (m !! err_id e = None) then <[err_id e := p]> m else m) /\
  errs t' = errs t /\ infos t' = infos t /\ xdrCommandHash t' = xdrCommandHash t.
Proof.
  intros Hwf Hp. unfold CMD_register_error.
  destruct (stands_create _ _ _ Hwf) as (h & Eh & Hh).
  set (t1 := match xdrErrorHash t with Some _ => t | None => _ end).
  assert (E1 : xdrErrorHash t1 = Some h /\ errs t1 = errs t /\ infos t1 = infos t /\
               xdrCommandHash t1 = xdrCommandHash t)
    by (unfold t1; destruct (xdrErrorHash t) eqn:Et; split_and!;
        cbn [with_errors with_cleanup xdrCommandHash infos errs xdrErrorHash]; congruence).
  clearbody t1. destruct E1 as (E1 & E2 & E3 & E4). rewrite E1. unfold err_wf.
  cbn [with_errors errs xdrErrorHash infos xdrCommandHash]. rewrite E2. split_and!; try done.
  assert (Hk : xdr_err_key_for_data (errs t) p = err_id e) by (unfold xdr_err_key_for_data; by rewrite Hp).
  pose proof (stands_add _ h m p Hh) as Ha. by rewrite Hk in Ha.
Qed.

(** Error messages.  After a table of errors was registered, the message
    of an identifier is the description, or failing that the name, of the first
    error with it, and empty if there is none. *)
Theorem cmd_errors_correct t m l :
  err_wf t m ->
  let t' := CMD_register_errors t l in
  let m' := errors_spec (errs t) m l in
  err_wf t' m' /\
  (forall id, CMD_error_message t' id = default [] (error_text <$> (m' !! id ≫= fun p => errs t !! p))) /\
  infos t' = infos t /\ xdrCommandHash t' = xdrCommandHash t.
Proof.
  intros Hwf. cbv zeta.
  assert (H : err_wf (CMD_register_errors t l) (errors_spec (errs t) m l) /\
    errs (CMD_register_errors t l) = errs t /\ infos (CMD_register_errors t l) = infos t /\
    xdrCommandHash (CMD_register_errors t l) = xdrCommandHash t).
  { revert t m Hwf. induction l as [|p l IH]; intros t m Hwf; cbn [CMD_register_errors errors_spec]; [done|].
    destruct (errs t !! p) as [e|] eqn:Hp; [|done]. destruct (0 <? err_id e); [|done].
    destruct (register_error_ok t m p e Hwf Hp) as (R1 & R2 & R3 & R4).
    destruct (IH _ _ R1) as (I1 & I2 & I3 & I4). rewrite R2 in I1. split_and!; congruence. }
  destruct H as (H1 & H2 & H3 & H4). split_and!; try done. intros id.
  unfold CMD_error_message. rewrite (stands_find _ _ _ id H1), H2.
  destruct (errors_spec (errs t) m l !! id) as [p|]; simpl; [|done].
  destruct (errs t !! p) as [e|]; simpl; [|done]. unfold error_text.
  by destruct (description e), (err_name e).
Qed.

(** ** Examples *)

(** Two commands with one number, a telemetry request, the end mark. *)
Definition demo_tables : tables :=
  Tabs (<[1%positive := CI 257 16777473 (Some [83; 116]) None None None 0]>
       (<[2%positive := CI 257 0 (Some [120]) None None None 0]>
       (<[3%positive := CI 0 16777477 (Some [104; 98]) (Some [16777479]) None None 0]>
       {[4%positive := CI 0 0 None None None None 0]})))
    None []
    (<[1%positive := EI 33554689 (Some [69]) None]> {[2%positive := EI 33554689 None (Some [70])]})
    None false.
Definition demo_definition (ty : Z) : option ptr := if ty =? 16777473 then Some 9%positive else None.
Definition demo_registered : tables :=
  CMD_register_commands demo_definition demo_tables [1; 2; 3; 4; 2]%positive false.

Lemma cmd_registry_correct_witness :
  reg_wf demo_registered (register_all_spec demo_tables ∅ [1; 2; 3; 4; 2]%positive false) /\
  CMD_xdr_cmd_by_number demo_registered 257 = Some 1%positive /\ xdrDatareqList demo_registered = [3%positive].
Proof.
  destruct (cmd_registry_correct demo_definition demo_tables ∅ [1; 2; 3; 4; 2]%positive false) as (H1 & H2 & H3 & _).
  - done.
  - split; [exact H1|]. split; [by rewrite H2|exact H3].
Defined.

Lemma cmd_by_name_correct_witness :
  CMD_xdr_cmd_by_name demo_registered [72; 66] = Some (Some 3%positive) /\
  exists r, CMD_xdr_cmd_by_name demo_registered [72; 67] = Some r /\ r = None.
Proof.
  split; [by vm_compute|].
  destruct (cmd_by_name_correct demo_registered
    (register_all_spec demo_tables ∅ [1; 2; 3; 4; 2]%positive false) [72; 67]) as (r & E & _).
  - apply (register_all demo_definition demo_tables demo_tables ∅ [1; 2; 3; 4; 2]%positive false); done.
  - vm_compute. repeat constructor; by eexists.
  - exists r. split; [done|]. vm_compute in E. congruence.
Defined.

Lemma cmd_errors_correct_witness :
  CMD_error_message (CMD_register_errors demo_tables [1; 2]%positive) 33554689 = [69] /\
  err_wf (CMD_register_errors demo_tables [1; 2]%positive)
    (errors_spec (errs demo_tables) ∅ [1; 2]%positive).
Proof.
  destruct (cmd_errors_correct demo_tables ∅ [1; 2]%positive) as (H1 & H2 & _).
  - done.
  - split; [|exact H1]. rewrite H2. by vm_compute.
Defined.
