(* ===== verification/CmdTelemetry.v ===== *)
(** * Telemetry requests (cmd.c)

    A process answers a telemetry request with the structures its populators
    produce, each encoded with its type into an opaque block; the receiver
    walks the blocks.  This file models both ends: [cmd_handle_data_req] with
    [data_req_populate_cb] and [CMD_struct_to_opaque_struct] on one side, over
    the unions of XdrStruct.v, and [CMD_iterate_structs] on the other. *)

From stdpp Require Import base gmap list numbers.
From Stdlib Require Import ZArith Lia.
From S2P Require Import Prelude HashTable Words CStr XdrCodec XdrStruct.
Open Scope Z_scope.

Definition IPC_TYPES_VOID : Z := 0.
Definition IPC_TYPES_OPAQUE_STRUCT_ARR : Z := 16777474.
Definition IPC_TYPES_DATAREQ : Z := 16777477.
Definition IPC_TYPES_POPULATOR_ERROR : Z := 16777480.
Definition IPC_RESULTCODE_SUCCESS : Z := 33554688.
Definition IPC_RESULTCODE_INCORRECT_PARAMETER_TYPE : Z := 33554689.
Definition IPC_RESULTCODE_ALLOCATION_ERR : Z := 33554691.

(** ** Walking the structures of a response *)

Section Iterate.
Context {St : Type}.
(** [itr_cb] on the type, the bytes from [src] on and the length. *)
Variable itr_cb : St -> Z -> list Z -> Z -> St.

(** Going through memory behind the packet, or a result with the state of the
    callback. *)
Inductive ires := IFault | IRet (rc : Z) (st : St).

(** A structure at [src], or the rest of the loop over the entries of an
    array. *)
Inductive work := WStruct (src : list Z) (len : Z) | WEntries (src : list Z) (len : Z) (todo : Z).

(** [src += used; len -= used]; [src] is the memory from there on. *)
Fixpoint iterate (fuel : nat) (w : work) (st : St) : option ires :=
  match fuel with
  | O => None
  | S fuel' =>
      match w with
      | WStruct src len =>
          match XDR_decode_uint32 src (Some 0) len SNull with
          | DFault => Some IFault
          | DErr _ => Some (IRet (-1) st)
          | DOk used type =>
              let src1 := drop (Z.to_nat used) src in
              let len1 := u64 (len - used) in
              if negb (type =? IPC_TYPES_OPAQUE_STRUCT_ARR) then Some (IRet 0 (itr_cb st type src1 len1))
              else
                match XDR_decode_uint32 src1 (Some 0) len1 SNull with
                | DFault => Some IFault
                | DErr _ => Some (IRet (-1) st)
                | DOk used2 arr_ents =>
                    iterate fuel' (WEntries (drop (Z.to_nat used2) src1) (u64 (len1 - used2)) arr_ents) st
                end
          end
      | WEntries src len todo =>
          if todo =? 0 then Some (IRet 0 st)
          else
            match XDR_decode_uint32 src (Some 0) len SNull with
            | DFault => Some IFault
            | DErr _ => Some (IRet (-2) st)
            | DOk used byte_len =>
                let src1 := drop (Z.to_nat used) src in
                let len1 := u64 (len - used) in
                match iterate fuel' (WStruct src1 byte_len) st with
                | None => None
                | Some IFault => Some IFault
                | Some (IRet rc st1) =>
                    if rc <? 0 then Some (IRet (-3) st1)
                    else iterate fuel' (WEntries (drop (Z.to_nat byte_len) src1) (u64 (len1 - byte_len)) (todo - 1)) st1
                end
            end
      end
  end.

Definition CMD_iterate_structs (fuel : nat) (src : list Z) (len : Z) (st : St) : option ires :=
  iterate fuel (WStruct src len) st.
End Iterate.
Arguments ires : clear implicits.

(** ** Answering a request *)

Section DataReq.
Context {Obj : Type}.
Variable XDR_definition_for_type : Z -> option (StructDefinition Obj).
(** The bytes of a block that malloc returns; allocations succeed here. *)
Variable malloc : Z -> list Z.

(** [struct IPC_OpaqueStruct]: the length and the block. *)
Record IPC_OpaqueStruct := Opaque { op_length : Z; op_data : option (list Z) }.

(** The blocks are kept up to their used length; [None] is a fault of the
    encoder. *)
Definition CMD_struct_to_opaque_struct (src : option Obj) (type : Z) : option IPC_OpaqueStruct :=
  match src with
  | None => Some (Opaque 0 None)
  | Some o =>
      let un := XUnion type (SObj o) in
      let dlen := 256 in
      match XDR_encode_union XDR_definition_for_type (SObj un) (DBuf 0) dlen SNull (malloc dlen) with
      | EFault => None
      | ERet rc needed buf =>
          if rc <? 0 then
            if needed <=? dlen then Some (Opaque 0 None)
            else
              let dlen := u64 (needed + 16) in
              match XDR_encode_union XDR_definition_for_type (SObj un) (DBuf 0) dlen SNull (malloc dlen) with
              | EFault => None
              | ERet rc2 needed2 buf2 =>
                  if rc2 <? 0 then Some (Opaque 0 None) else Some (Opaque (s32 needed2) (Some (take (Z.to_nat needed2) buf2)))
              end
          else Some (Opaque (s32 needed) (Some (take (Z.to_nat needed) buf)))
      end
  end.

(** What the process sends: [IPC_response] with nothing, with a structure or
    with the array of blocks, or [IPC_error]. *)
Inductive sent := SentVoid | SentError (code : Z) | SentStruct (type : Z) (o : Obj) | SentArray (l : list IPC_OpaqueStruct).

(** A populator is a function and its argument; it calls back with data, which
    may be NULL, and a result code, any number of times. *)
Variable call : Z -> Z -> list (option Obj * Z).
(** The [struct IPC_PopulatorError] of a type and a result code. *)
Variable populator_error : Z -> Z -> Obj.

(** [data_req_populate_cb]: the packets sent and [*params->dest]. *)
Definition data_req_populate_cb (direct_resp : bool) (type : Z) (st : list sent * IPC_OpaqueStruct)
    (c : option Obj * Z) : option (list sent * IPC_OpaqueStruct) :=
  match c.1 with
  | None => Some st
  | Some o =>
      if direct_resp then
        Some (st.1 ++ [if negb (c.2 =? IPC_RESULTCODE_SUCCESS) then SentError c.2 else SentStruct type o], st.2)
      else
        match (if negb (c.2 =? IPC_RESULTCODE_SUCCESS)
               then CMD_struct_to_opaque_struct (Some (populator_error type c.2)) IPC_TYPES_POPULATOR_ERROR
               else CMD_struct_to_opaque_struct (Some o) type) with
        | None => None
        | Some d => Some (st.1, d)
        end
  end.

Fixpoint populate_all (direct_resp : bool) (type : Z) (st : list sent * IPC_OpaqueStruct)
    (cs : list (option Obj * Z)) : option (list sent * IPC_OpaqueStruct) :=
  match cs with
  | [] => Some st
  | c :: cs =>
      match data_req_populate_cb direct_resp type st c with
      | None => None
      | Some st' => populate_all direct_resp type st' cs
      end
  end.

(** The loop over the types; [out] are the packets sent and [resp] the blocks
    so far; the next block is empty until a populator fills it. *)
Fixpoint data_req_loop (single : bool) (reqs : list Z) (direct_resp : bool) (out : list sent)
    (resp : list IPC_OpaqueStruct) : option (bool * list sent * list IPC_OpaqueStruct) :=
  match reqs with
  | [] => Some (direct_resp, out, resp)
  | type :: rest =>
      match XDR_definition_for_type type with
      | None => data_req_loop single rest direct_resp out resp
      | Some def =>
          match populate def with
          | None => data_req_loop single rest direct_resp out resp
          | Some f =>
              let direct := direct_resp || single in
              match populate_all direct type (out, Opaque 0 None) (call f (populate_arg def)) with
              | None => None
              | Some (out', dest) =>
                  data_req_loop single rest direct out'
                    (if bool_decide (op_data dest = None) then resp else resp ++ [dest])
              end
          end
      end
  end.

(** [cmd_handle_data_req] on the type of the parameters and the request, whose
    array has [length] entries; [alloc_ok] is malloc of the blocks: the code
    goes on after reporting that it failed, and clears memory at NULL. *)
Definition cmd_handle_data_req (alloc_ok : bool) (param_type : Z) (req : option (option (list Z)))
    : option (list sent) :=
  if negb (param_type =? IPC_TYPES_DATAREQ) then Some [SentError IPC_RESULTCODE_INCORRECT_PARAMETER_TYPE]
  else
    match req with
    | Some (Some reqs) =>
        let length := Z.of_nat (length reqs) in
        if (length <=? 0) || (1024 <? length) then Some [SentVoid]
        else if negb alloc_ok then None
        else
          match data_req_loop (length =? 1) reqs false [] [] with
          | None => None
          | Some (direct_resp, out, resp) => Some (if direct_resp then out else out ++ [SentArray resp])
          end
    | _ => Some [SentVoid]
    end.
End DataReq.
Arguments sent : clear implicits.

(** ** The packets

    The field tables of the generated code, as docs/cmd-pkt.c shows them, and
    [IPC_response] of ipc.c, which encodes with them. *)

Section Tables.
(** malloc of the decoders. *)
Variable malloc : Z -> bool.

Definition opaque_length : FieldDefinition IPC_OpaqueStruct :=
  FD Z XDR_decode_int32 XDR_encode_int32 0 0 0 op_length (fun o v => Opaque v (op_data o)) op_length.
Definition opaque_data : FieldDefinition IPC_OpaqueStruct :=
  FD (option (list Z)) (XDR_decode_byte_array malloc) XDR_encode_byte_array 8 0 0
    op_data (fun o v => Opaque (op_length o) v) op_length.
Definition IPC_OpaqueStruct_Fields : list (FieldDefinition IPC_OpaqueStruct) := [opaque_length; opaque_data].

Definition IPC_OpaqueStruct_encode : Encoder IPC_OpaqueStruct := fun src dst max _ buf =>
  XDR_struct_encoder (Some IPC_OpaqueStruct_Fields) src dst max buf.
Definition IPC_OpaqueStruct_decode : Decoder IPC_OpaqueStruct := fun src dst max _ =>
  match dst with
  | Some o => XDR_struct_decoder (Some IPC_OpaqueStruct_Fields) src o max
  | None => DFault
  end.

Record IPC_OpaqueStructArr := OpArr { arr_length : Z; arr_structs : option (list IPC_OpaqueStruct) }.

Definition array_length : FieldDefinition IPC_OpaqueStructArr :=
  FD Z XDR_decode_int32 XDR_encode_int32 0 0 0 arr_length (fun o v => OpArr v (arr_structs o)) arr_length.
Definition array_structs : FieldDefinition IPC_OpaqueStructArr :=
  FD (option (list IPC_OpaqueStruct)) (decode_array_of malloc (Opaque 0 None) 16 IPC_OpaqueStruct_decode)
    (encode_array_of IPC_OpaqueStruct_encode) 8 0 0
    arr_structs (fun o v => OpArr (arr_length o) v) arr_length.
Definition IPC_OpaqueStructArr_Fields : list (FieldDefinition IPC_OpaqueStructArr) := [array_length; array_structs].
End Tables.

Section Response.
Context {Obj : Type}.
Variable XDR_definition_for_type : Z -> option (StructDefinition Obj).
Variable malloc : Z -> list Z.

Record IPC_Response := Resp { rs_cmd : Z; rs_ipcref : Z; rs_result : Z; rs_data : XDR_Union Obj }.

Definition response_cmd : FieldDefinition IPC_Response :=
  FD Z XDR_decode_uint32 XDR_encode_uint32 0 0 0 rs_cmd
    (fun r v => Resp v (rs_ipcref r) (rs_result r) (rs_data r)) (fun _ => 0).
Definition response_ipcref : FieldDefinition IPC_Response :=
  FD Z XDR_decode_uint32 XDR_encode_uint32 4 0 0 rs_ipcref
    (fun r v => Resp (rs_cmd r) v (rs_result r) (rs_data r)) (fun _ => 0).
Definition response_result : FieldDefinition IPC_Response :=
  FD Z XDR_decode_uint32 XDR_encode_uint32 8 0 0 rs_result
    (fun r v => Resp (rs_cmd r) (rs_ipcref r) v (rs_data r)) (fun _ => 0).
Definition response_data : FieldDefinition IPC_Response :=
  FD (XDR_Union Obj) (XDR_decode_union XDR_definition_for_type) (XDR_encode_union XDR_definition_for_type) 16 0 0
    rs_data (fun r v => Resp (rs_cmd r) (rs_ipcref r) (rs_result r) v) (fun _ => 0).
Definition IPC_Response_Fields : list (FieldDefinition IPC_Response) :=
  [response_cmd; response_ipcref; response_result; response_data].

Definition IPC_CMDS_RESPONSE : Z := 256.

(** [IPC_response]: the packet given to [PROC_cmd_raw_sockaddr], if any; [None]
    outside is a fault. *)
Definition IPC_response (ipcref param_type : Z) (params : sptr Obj) : option (option (list Z)) :=
  let resp := Resp IPC_CMDS_RESPONSE ipcref IPC_RESULTCODE_SUCCESS (XUnion param_type params) in
  let buff_len := 1024 in
  match XDR_struct_encoder (Some IPC_Response_Fields) (SObj resp) (DBuf 0) buff_len (malloc buff_len) with
  | EFault => None
  | ERet rc len buff =>
      if rc <? 0 then
        if buff_len <? len then
          match XDR_struct_encoder (Some IPC_Response_Fields) (SObj resp) (DBuf 0) len (malloc len) with
          | EFault => None
          | ERet rc2 len2 buff2 =>
              if rc2 <? 0 then Some None else Some (Some (take (Z.to_nat len2) buff2))
          end
        else Some None
      else Some (Some (take (Z.to_nat len) buff))
  end.
End Response.
Arguments IPC_Response : clear implicits.

(** ** Structures whose last field needs room beyond its encoding

    A byte array that exactly fits is refused, so the tables below encode with
    one byte to spare, and report their size whenever they do not fit. *)

Section LoopSized.
Context {Obj : Type}.
Implicit Types fs : list (FieldDefinition Obj).

(** The loop over the fields [fs] of [o]: it writes [w] if there is room for it
    and [e] bytes more, and otherwise fails with the size of [w] and stays in
    its room; without a destination it adds up. *)
Record loop_sized fs (o : Obj) (w : list Z) (e : Z) : Prop := {
  ls_fit : forall off max used buf,
    0 <= off -> off + max <= zlen buf -> 0 <= used -> used + zlen w + e <= max -> max < 2 ^ 64 ->
    struct_encode_loop fs (SObj o) (DBuf off) max used 0 buf = ERet 0 (used + zlen w) (splice buf (off + used) w);
  ls_short : forall off max used buf,
    0 <= off -> off + max <= zlen buf -> 0 <= used <= max -> max < used + zlen w + e ->
    used + zlen w + e < 2 ^ 64 ->
    exists rc buf', struct_encode_loop fs (SObj o) (DBuf off) max used 0 buf = ERet rc (used + zlen w) buf' /\
      rc < 0 /\ untouched off max buf buf';
  ls_size : forall dst max used res buf,
    dst_null dst || (res <? 0) = true -> 0 <= max < 2 ^ 64 -> 0 <= used -> used + zlen w < 2 ^ 64 ->
    struct_encode_loop fs (SObj o) dst max used res buf = ERet res (used + zlen w) buf
}.

Section Field.
Context (f : FieldDefinition Obj) (fw : f_type f -> list Z) (s : Z) (fv : sptr Z -> f_type f -> Prop).
Context `{HE : !Encodes (f_encoder f) fw s fv} `{HS : !SizedEncoder (f_encoder f) fw s fv}.
Context (o : Obj) (Hv : fv (SObj (f_len f o)) (f_get f o)).

Lemma loop_last : loop_sized [f] o (fw (f_get f o)) s.
Proof.
  pose proof (slack_nonneg (e := f_encoder f)) as Hs. split.
  - intros off max used buf Ho Hb Hu Hfit Hm. simpl. rewrite u64_small by lia.
    rewrite (enc_ok (f_get f o) (off + used)) by (done || lia). by rewrite u64_small by lia.
  - intros off max used buf Ho Hb Hu Hfit Hm. simpl. rewrite u64_small by lia.
    destruct (enc_short (f_get f o) (off + used) (max - used) (SObj (f_len f o)) buf Hv) as (rc & buf' & -> & Hrc & Hun);
      [lia..|]. rewrite u64_small by lia. exists rc, buf'. split_and!; try done.
    eapply (untouched_trans off (off + used) max (max - used)); [lia..| |exact Hun]. apply untouched_refl.
  - intros dst max used res buf Hd Hm Hu Hw. cbn [struct_encode_loop field_ptr len_ptr]. rewrite Hd.
    destruct (enc_size (f_get f o) max (SObj (f_len f o)) buf Hv Hm) as [rc ->]. by rewrite u64_small by lia.
Qed.

Lemma loop_cons fs w e :
  loop_sized fs o w e -> 0 <= e -> s <= zlen w + e -> loop_sized (f :: fs) o (fw (f_get f o) ++ w) e.
Proof.
  intros [L1 L2 L3] He Hse. pose proof (slack_nonneg (e := f_encoder f)) as Hs.
  set (w1 := fw (f_get f o)). assert (Hlen : zlen (w1 ++ w) = zlen w1 + zlen w) by (rewrite length_app; lia).
  split.
  - intros off max used buf Ho Hb Hu Hfit Hm. cbn [struct_encode_loop field_ptr len_ptr dst_null orb dadd].
    change (0 <? 0) with false. cbv iota. rewrite u64_small by lia.
    rewrite (enc_ok (f_get f o) (off + used)) by (done || fold w1; lia). fold w1. rewrite u64_small by lia.
    rewrite L1 by (rewrite ?splice_length; lia). f_equal; [lia|].
    rewrite Z.add_assoc. apply splice_splice; lia.
  - intros off max used buf Ho Hb Hu Hfit Hm. cbn [struct_encode_loop field_ptr len_ptr dst_null orb dadd].
    change (0 <? 0) with false. cbv iota. rewrite u64_small by lia.
    destruct (decide (used + zlen w1 + s <= max)) as [Hf|Hf].
    + rewrite (enc_ok (f_get f o) (off + used)) by (done || fold w1; lia). fold w1. rewrite u64_small by lia.
      destruct (L2 off max (used + zlen w1) (splice buf (off + used) w1)) as (rc & buf' & -> & Hrc & Hun);
        [lia|rewrite splice_length by lia; lia|lia..|].
      exists rc, buf'. split; [f_equal; lia|]. split; [done|].
      eapply (untouched_trans off off max max); [lia..| |exact Hun].
      eapply (untouched_trans off (off + used) max (max - used)); [lia..|apply untouched_refl|].
      apply untouched_splice; lia.
    + destruct (enc_short (f_get f o) (off + used) (max - used) (SObj (f_len f o)) buf Hv) as (rc & buf' & -> & Hrc & Hun);
        [lia|fold w1; lia|lia|]. fold w1. rewrite u64_small by lia.
      rewrite (L3 (DBuf off) max (used + zlen w1) rc buf') by (simpl; lia || (apply Z.ltb_lt in Hrc; by rewrite Hrc)).
      exists rc, buf'. split; [f_equal; lia|]. split; [done|].
      eapply (untouched_trans off (off + used) max (max - used)); [lia..| |exact Hun]. apply untouched_refl.
  - intros dst max used res buf Hd Hm Hu Hw. cbn [struct_encode_loop field_ptr len_ptr]. rewrite Hd.
    destruct (enc_size (f_get f o) max (SObj (f_len f o)) buf Hv Hm) as [rc ->]. fold w1. rewrite u64_small by lia.
    rewrite L3 by (done || lia). f_equal. lia.
Qed.
End Field.
End LoopSized.

(** *** Unions of structures that can be sized *)

(** A structure's encoder on the object [o], with encoding [w] and [e] bytes to
    spare. *)
Record struct_sized {Obj} (enc : sptr Obj -> dptr -> Z -> list Z -> eres) (o : Obj) (w : list Z) (e : Z) : Prop := {
  ss_fit : forall off max buf,
    0 <= off -> off + max <= zlen buf -> zlen w + e <= max -> max < 2 ^ 64 ->
    enc (SObj o) (DBuf off) max buf = ERet 0 (zlen w) (splice buf off w);
  ss_short : forall off max buf,
    0 <= off -> off + max <= zlen buf -> 0 <= max < zlen w + e ->
    exists rc buf', enc (SObj o) (DBuf off) max buf = ERet rc (zlen w) buf' /\ rc < 0 /\ untouched off max buf buf';
  ss_size : forall max buf, 0 <= max < 2 ^ 64 -> exists rc, enc (SObj o) (DNull 0) max buf = ERet rc (zlen w) buf
}.

Lemma loop_struct_sized {Obj} (fs : list (FieldDefinition Obj)) o w e :
  loop_sized fs o w e -> 0 <= e -> zlen w + e < 2 ^ 64 -> struct_sized (XDR_struct_encoder (Some fs)) o w e.
Proof.
  intros [L1 L2 L3] He Hw. split; cbn [XDR_struct_encoder].
  - intros off max buf Ho Hb Hf Hm. rewrite L1 by lia. f_equal. f_equal. lia.
  - intros off max buf Ho Hb Hf. apply (L2 off max 0 buf); lia.
  - intros max buf Hm. exists 0. by rewrite L3 by (done || lia).
Qed.

Section Unions.
Context {Obj : Type} (deft : Z -> option (StructDefinition Obj)).
(** The encoding of a structure of a type, and the room to spare. *)
Context (body : Z -> Obj -> list Z) (e : Z) (He : 0 <= e).

Definition union_wire (u : XDR_Union Obj) : list Z :=
  be32 (u_type u) ++ match u_data u with SObj o => body (u_type u) o | _ => [] end.

Definition union_valid (_ : sptr Z) (u : XDR_Union Obj) : Prop :=
  exists def enc o, deft (u_type u) = Some def /\ sd_encoder def = Some enc /\ u_data u = SObj o /\
    0 <= u_type u < 2 ^ 32 /\ struct_sized enc o (body (u_type u) o) e /\ zlen (body (u_type u) o) + e + 4 < 2 ^ 64.

Lemma union_wire_length t o : zlen (union_wire (XUnion t (SObj o))) = 4 + zlen (body t o).
Proof. unfold union_wire. rewrite length_app, be32_length. simpl. lia. Qed.

#[export] Instance union_encodes : Encodes (XDR_encode_union deft) union_wire e union_valid.
Proof using He.
  split; [done|]. intros [t d] off max len buf (def & enc & o & Hd & Henc & Hu & Ht & [S1 _ _] & Hb) Ho Hbuf Hfit Hm.
  cbn [u_type u_data] in *. subst d. rewrite union_wire_length in Hfit |- *.
  unfold XDR_encode_union. cbn [u_type u_data]. rewrite encode_uint32_ok by lia. rewrite Hd. simpl mbind. rewrite Henc.
  change (negb (dst_null (DBuf off)) && (0 <=? 0)) with true. cbv iota zeta. rewrite u64_small by lia. simpl dadd.
  rewrite S1 by (rewrite ?splice_length; rewrite ?be32_length; lia).
  change ((0 <? 0) || (0 <? 0)) with false. cbv iota. rewrite u64_small by lia. f_equal.
  change 4 with (Z.of_nat 4). rewrite <- (be32_length t). apply splice_splice; rewrite ?be32_length; lia.
Qed.

#[export] Instance union_sized : SizedEncoder (XDR_encode_union deft) union_wire e union_valid.
Proof using He.
  split; intros [t d] * (def & enc & o & Hd & Henc & Hu & Ht & [S1 S2 S3] & Hb); cbn [u_type u_data] in *; subst d;
    rewrite union_wire_length; unfold XDR_encode_union; cbn [u_type u_data]; rewrite Hd; simpl mbind; rewrite Henc.
  - intros Ho Hfit Hbuf. destruct (decide (4 <= max)) as [H4|H4].
    + rewrite encode_uint32_ok by lia. change (negb (dst_null (DBuf off)) && (0 <=? 0)) with true.
      cbv iota zeta. rewrite u64_small by lia. simpl dadd.
      destruct (S2 (off + 4) (max - 4) (splice buf off (be32 t))) as (rc & buf' & -> & Hrc & Hun);
        [lia|rewrite splice_length; rewrite ?be32_length; lia|lia|].
      rewrite (proj2 (Z.ltb_lt _ _) Hrc), orb_true_r, u64_small by lia. exists (-1), buf'. split_and!; [done|lia|].
      eapply (untouched_trans off (off + 4) max (max - 4)); [lia..| |exact Hun].
      apply untouched_splice; rewrite ?be32_length; lia.
    + destruct (enc_short (e := XDR_encode_uint32) (SizedEncoder := uint32_sized 0 (2 ^ 32)) t off max SNull buf)
        as (rc & buf' & -> & Hrc & Hun); [done|done|rewrite be32_length; lia|lia|].
      rewrite be32_length. rewrite (proj2 (Z.leb_gt 0 rc)) by lia. rewrite andb_false_r. cbv iota zeta.
      destruct (S3 max buf') as [rc2 ->]; [lia|]. rewrite (proj2 (Z.ltb_lt _ _) Hrc). cbn [orb].
      rewrite u64_small by lia. exists (-1), buf'. split_and!; [f_equal; lia|lia|done].
  - intros Hm. destruct (enc_size (e := XDR_encode_uint32) (SizedEncoder := uint32_sized 0 (2 ^ 32)) t max SNull buf)
      as (rc & ->); [done|lia|]. rewrite be32_length. cbn [dst_null negb andb]. change (0 =? 0) with true.
    cbn [negb andb]. cbv iota zeta. destruct (S3 max buf) as [rc2 ->]; [lia|].
    rewrite u64_small by lia. eexists. done.
Qed.
End Unions.

(** *** The tables *)

Section TableFacts.
Context (malloc : Z -> bool) (Hmalloc : malloc_works malloc).

Definition opaque_wire (o : IPC_OpaqueStruct) : list Z := be32 (op_length o) ++ bytes_wire (op_data o).

(** A block with its length. *)
Definition opaque_valid (_ : sptr Z) (o : IPC_OpaqueStruct) : Prop :=
  exists l, o = Opaque (zlen l) (Some l) /\ zlen l + 4 < 2 ^ 31.

Lemma opaque_loop len o : opaque_valid len o ->
  loop_sized (IPC_OpaqueStruct_Fields malloc) o (opaque_wire o) 1.
Proof using Hmalloc.
  intros (l & -> & Hl). 
  apply (loop_cons opaque_length be32 0 (int_valid (- 2 ^ 31) (2 ^ 31))
    (HE := codec_encodes (Codec := int32_codec)) (HS := int32_sized _ _)); [| |lia|].
  - unfold int_valid. simpl. lia.
  - apply (loop_last (opaque_data malloc) bytes_wire 1 (bytes_valid malloc)
      (HE := codec_encodes (Codec := bytes_codec malloc)) (HS := bytes_sized malloc)).
    split_and!; [done|done|]. apply Hmalloc. lia.
  - cbn [f_get opaque_data op_data]. rewrite bytes_wire_length. pose proof (pad4_range (zlen l)). lia.
Qed.

Lemma opaque_struct_sized len o : opaque_valid len o ->
  struct_sized (XDR_struct_encoder (Some (IPC_OpaqueStruct_Fields malloc))) o (opaque_wire o) 1.
Proof using Hmalloc.
  intros Hv. apply loop_struct_sized; [by eapply opaque_loop|lia|]. destruct Hv as (l & -> & Hl).
  unfold opaque_wire. rewrite length_app, be32_length. cbn [op_data]. pose proof (pad4_range (zlen l)).
  pose proof (bytes_wire_length l). lia.
Qed.

#[local] Instance opaque_encodes : Encodes (IPC_OpaqueStruct_encode malloc) opaque_wire 1 opaque_valid.
Proof using Hmalloc.
  split; [lia|]. intros o off max len buf Hv. apply (ss_fit _ _ _ _ (opaque_struct_sized len o Hv)).
Qed.

#[local] Instance opaque_sized : SizedEncoder (IPC_OpaqueStruct_encode malloc) opaque_wire 1 opaque_valid.
Proof using Hmalloc.
  split.
  - intros o off max len buf Hv Ho Hf Hb. by apply (ss_short _ _ _ _ (opaque_struct_sized len o Hv)).
  - intros o max len buf Hv. apply (ss_size _ _ _ _ (opaque_struct_sized len o Hv)).
Qed.

(** The array field, which is not empty. *)
Definition blocks_valid (len : sptr Z) (p : option (list IPC_OpaqueStruct)) : Prop :=
  exists l, p = Some l /\ l <> [] /\ len = SObj (zlen l) /\ zlen l < 2 ^ 27 /\ Forall (opaque_valid SNull) l /\
    zlen (concat (opaque_wire <$> l)) < 2 ^ 63.

Lemma blocks_array len p : blocks_valid len p ->
  array_valid (wire := opaque_wire) (valid := opaque_valid) malloc 16 len p.
Proof using Hmalloc.
  intros (l & -> & _ & -> & Hl & Hv & Hw). split_and!; try done; [lia|]. rewrite u64_small by lia.
  apply Hmalloc. lia.
Qed.

#[local] Instance blocks_encodes :
  Encodes (encode_array_of (IPC_OpaqueStruct_encode malloc)) (array_wire opaque_wire) 1 blocks_valid.
Proof using Hmalloc.
  split; [lia|]. intros p off max len buf Hv.
  apply (enc_ok (Encodes := array_encodes (valid := opaque_valid) malloc 16)). by apply blocks_array.
Qed.

#[local] Instance blocks_sized :
  SizedEncoder (encode_array_of (IPC_OpaqueStruct_encode malloc)) (array_wire opaque_wire) 1 blocks_valid.
Proof using Hmalloc.
  split; intros p * (l & -> & Hne & -> & Hl & Hv & Hw); simpl array_wire; intros;
    unfold encode_array_of, XDR_array_encoder; rewrite Nat2Z.id; cbv iota zeta.
  - destruct (array_short_loop (e := IPC_OpaqueStruct_encode malloc) l [] max off buf Hv) as (rc & buf' & E & H');
      [done|done|simpl app; lia|by left|simpl; lia|].
    change (concat (opaque_wire <$> [])) with (@nil Z) in E. rewrite splice_nil in E by lia. exists rc, buf'. by split.
  - exists 0. apply (array_size_loop (e := IPC_OpaqueStruct_encode malloc) l [] max 0 buf Hv). simpl app. lia.
Qed.

Definition arr_wire (a : IPC_OpaqueStructArr) : list Z :=
  be32 (arr_length a) ++ array_wire opaque_wire (arr_structs a).

Lemma arr_struct_sized l :
  blocks_valid (SObj (zlen l)) (Some l) ->
  struct_sized (XDR_struct_encoder (Some (IPC_OpaqueStructArr_Fields malloc))) (OpArr (zlen l) (Some l))
    (arr_wire (OpArr (zlen l) (Some l))) 1.
Proof using Hmalloc.
  intros Hv. pose proof Hv as (l' & [= <-] & Hne & _ & Hl & Hf & Hw).
  apply loop_struct_sized; [|lia|].
  - apply (loop_cons (array_length) be32 0 (int_valid (- 2 ^ 31) (2 ^ 31))
      (HE := codec_encodes (Codec := int32_codec)) (HS := int32_sized _ _)); [| |lia|lia].
    + unfold int_valid. simpl. lia.
    + by apply (loop_last (array_structs malloc) (array_wire opaque_wire) 1 blocks_valid
        (HE := blocks_encodes) (HS := blocks_sized)).
  - unfold arr_wire. rewrite length_app, be32_length. simpl array_wire. lia.
Qed.
End TableFacts.

(** *** Blocks *)

Section Blocks.
Context {Obj : Type} (deft : Z -> option (StructDefinition Obj)).
Context (body : Z -> Obj -> list Z) (e : Z) (He : 0 <= e <= 16).
Context (malloc : Z -> list Z) (Hmalloc : forall n, 0 <= n -> zlen (malloc n) = n).

Lemma take_splice buf w : zlen w <= zlen buf -> take (Z.to_nat (zlen w)) (splice buf 0 w) = w.
Proof.
  clear. intros H. unfold splice. simpl. by rewrite Nat2Z.id, take_app_length.
Qed.

(** A structure becomes a block with its type and its encoding, whatever its
    size, except in a window of [e] bytes below the first buffer, where it is
    left out. *)
Lemma struct_to_opaque t o :
  union_valid deft body e SNull (XUnion t (SObj o)) -> 4 + zlen (body t o) + 16 < 2 ^ 31 ->
  let w := be32 t ++ body t o in
  (4 + zlen (body t o) + e <= 256 \/ 256 < 4 + zlen (body t o) ->
   CMD_struct_to_opaque_struct deft malloc (Some o) t = Some (Opaque (zlen w) (Some w))) /\
  (256 < 4 + zlen (body t o) + e /\ 4 + zlen (body t o) <= 256 ->
   CMD_struct_to_opaque_struct deft malloc (Some o) t = Some (Opaque 0 None)).
Proof using He Hmalloc.
  intros Hv Hlen w. pose proof (union_encodes deft body e (proj1 He)) as HE.
  pose proof (union_sized deft body e (proj1 He)) as HS.
  pose proof (union_wire_length body t o) as Hw.
  assert (Hww : union_wire body (XUnion t (SObj o)) = w) by done. rewrite Hww in Hw.
  assert (Hs32 : s32 (zlen w) = zlen w) by (unfold s32; rewrite Z.mod_small; lia).
  unfold CMD_struct_to_opaque_struct. split.
  - intros [Hfit|Hbig].
    + rewrite (enc_ok (Encodes := HE) (XUnion t (SObj o)) 0 256 SNull (malloc 256) Hv)
        by (rewrite ?Hmalloc, ?Hww; lia).
      rewrite Hww. change (0 <? 0) with false. cbv iota. rewrite take_splice by (rewrite Hmalloc; lia). by rewrite Hs32.
    + destruct (enc_short (SizedEncoder := HS) (XUnion t (SObj o)) 0 256 SNull (malloc 256) Hv)
        as (rc & buf' & -> & Hrc & _); [lia|rewrite Hww; lia|rewrite Hmalloc; lia|].
      rewrite (proj2 (Z.ltb_lt _ _) Hrc), Hww, (proj2 (Z.leb_gt _ _)) by lia. cbv zeta. rewrite u64_small by lia.
      rewrite (enc_ok (Encodes := HE) (XUnion t (SObj o)) 0 (zlen w + 16) SNull _ Hv)
        by (rewrite ?Hmalloc, ?Hww; lia).
      rewrite Hww. change (0 <? 0) with false. cbv iota. rewrite take_splice by (rewrite Hmalloc; lia). by rewrite Hs32.
  - intros [H1 H2]. destruct (enc_short (SizedEncoder := HS) (XUnion t (SObj o)) 0 256 SNull (malloc 256) Hv)
        as (rc & buf' & -> & Hrc & _); [lia|rewrite Hww; lia|rewrite Hmalloc; lia|].
    by rewrite (proj2 (Z.ltb_lt _ _) Hrc), Hww, (proj2 (Z.leb_le _ _)) by lia.
Qed.
End Blocks.

(** ** Walking *)

Lemma decode_uint32_used src len used v :
  XDR_decode_uint32 src (Some 0) len SNull = DOk used v -> used = 4 /\ (4 <= length src)%nat.
Proof.
  unfold XDR_decode_uint32. destruct (len <? 4); [done|]. unfold load.
  case_match eqn:E; [|done]. case_match; [|done]. simplify_eq. intros [= <- <-].
  split; [done|lia].
Qed.

Section Walk.
Context {St : Type} (itr_cb : St -> Z -> list Z -> Z -> St).

Definition memory (w : work) : list Z := match w with WStruct src _ | WEntries src _ _ => src end.

(** The walk ends on any bytes: each step reads a word further on in the
    memory behind the packet, so one more step than there are bytes is enough,
    also for nested arrays and for lengths that lie. *)
Theorem iterate_terminates fuel w st :
  (length (memory w) < fuel)%nat -> is_Some (iterate itr_cb fuel w st).
Proof.
  revert w st. induction fuel as [|fuel IH]; intros w st Hf; [lia|].
  destruct w as [src len|src len todo]; simpl in *.
  - destruct (XDR_decode_uint32 src _ _ _) as [| |used type] eqn:E; [by eexists..|].
    apply decode_uint32_used in E as [-> H4]. destruct (negb _); [by eexists|].
    destruct (XDR_decode_uint32 (drop _ src) _ _ _) as [| |used2 n] eqn:E2; [by eexists..|].
    apply decode_uint32_used in E2 as [-> H8]. rewrite length_drop in H8. apply IH. simpl.
    rewrite !length_drop. lia.
  - destruct (todo =? 0); [by eexists|].
    destruct (XDR_decode_uint32 src _ _ _) as [| |used n] eqn:E; [by eexists..|].
    apply decode_uint32_used in E as [-> H4].
    destruct (IH (WStruct (drop (Z.to_nat 4) src) n) st) as [[|rc st1] ->]; [simpl; rewrite length_drop; lia|by eexists|].
    destruct (rc <? 0); [by eexists|]. apply IH. simpl. rewrite !length_drop. lia.
Qed.

(** The callback reads no more than the length it is given. *)
Context (Hlocal : forall st t b rest, itr_cb st t (b ++ rest) (zlen b) = itr_cb st t b (zlen b)).

(** A block: its length, its type, its bytes. *)
Definition block_wire (b : Z * list Z) : list Z := be32 (4 + zlen b.2) ++ be32 b.1 ++ b.2.
Definition block_ok (b : Z * list Z) : Prop :=
  0 <= b.1 < 2 ^ 32 /\ b.1 <> IPC_TYPES_OPAQUE_STRUCT_ARR /\ 4 + zlen b.2 < 2 ^ 32.
Definition visit (st : St) (b : Z * list Z) : St := itr_cb st b.1 b.2 (zlen b.2).

Lemma block_wire_length b : zlen (block_wire b) = 8 + zlen b.2.
Proof. unfold block_wire. rewrite !length_app, !be32_length. lia. Qed.

Lemma walk_block fuel t b rest st :
  block_ok (t, b) ->
  iterate itr_cb (S fuel) (WStruct (be32 t ++ b ++ rest) (4 + zlen b)) st = Some (IRet 0 (visit st (t, b))).
Proof using Hlocal.
  intros (Ht & Hne & Hl). simpl in Ht, Hne, Hl. cbn [iterate]. rewrite decode_uint32_ok by lia. rewrite u32_small by lia.
  rewrite (proj2 (Z.eqb_neq _ _) Hne). cbn [negb]. cbv iota.
  rewrite drop_app_length' by (by rewrite be32_length). rewrite u64_small by lia.
  replace (4 + zlen b - 4) with (zlen b) by lia. by rewrite Hlocal.
Qed.

Lemma walk_entries l fuel len rest st :
  Forall block_ok l -> (length l < fuel)%nat -> zlen (concat (block_wire <$> l)) <= len < 2 ^ 64 ->
  iterate itr_cb (S fuel) (WEntries (concat (block_wire <$> l) ++ rest) len (zlen l)) st
  = Some (IRet 0 (foldl visit st l)).
Proof using Hlocal.
  revert fuel len st. induction l as [|[t b] l IH]; intros fuel len st Hok Hf Hlen; [done|].
  apply Forall_cons_1 in Hok as [Hb Hok]. pose proof Hb as (Ht & Hne & Hl). simpl in Ht, Hne, Hl.
  assert (Hw : zlen (concat (block_wire <$> (t, b) :: l)) = 8 + zlen b + zlen (concat (block_wire <$> l))).
  { rewrite fmap_cons. cbn [concat]. rewrite length_app, Nat2Z.inj_add, block_wire_length. simpl. lia. }
  cbn [iterate]. rewrite (proj2 (Z.eqb_neq (zlen ((t, b) :: l)) 0)) by (simpl; lia).
  rewrite fmap_cons. cbn [concat].
  change (block_wire (t, b)) with (be32 (4 + zlen b) ++ be32 t ++ b). rewrite <- !app_assoc.
  rewrite decode_uint32_ok by lia. rewrite u32_small by lia. cbv zeta.
  rewrite drop_app_length' by (by rewrite be32_length).
  destruct fuel as [|fuel]; [simpl in Hf; lia|].
  rewrite walk_block by done. change (0 <? 0) with false. cbv iota.
  replace (drop (Z.to_nat (4 + zlen b)) (be32 t ++ b ++ concat (block_wire <$> l) ++ rest))
    with (concat (block_wire <$> l) ++ rest).
  2:{ rewrite app_assoc. rewrite drop_app_length' by (rewrite length_app, be32_length; lia). done. }
  rewrite !u64_small by (rewrite ?u64_small; lia).
  replace (zlen ((t, b) :: l) - 1) with (zlen l) by (simpl; lia).
  simpl foldl. apply IH; [done|simpl in Hf; lia|lia].
Qed.

(** The whole array. *)
Lemma walk_array l fuel len rest st :
  Forall block_ok l -> zlen l < 2 ^ 32 -> (length l + 2 < fuel)%nat ->
  8 + zlen (concat (block_wire <$> l)) <= len < 2 ^ 64 ->
  CMD_iterate_structs itr_cb fuel
    (be32 IPC_TYPES_OPAQUE_STRUCT_ARR ++ be32 (zlen l) ++ concat (block_wire <$> l) ++ rest) len st
  = Some (IRet 0 (foldl visit st l)).
Proof using Hlocal.
  intros Hok Hn Hf Hlen. destruct fuel as [|fuel]; [lia|]. unfold CMD_iterate_structs. cbn [iterate].
  rewrite decode_uint32_ok by lia. rewrite u32_small by done. change (negb _) with false. cbv iota zeta.
  rewrite drop_app_length' by (by rewrite be32_length). rewrite u64_small by lia.
  rewrite decode_uint32_ok by lia. rewrite u32_small by lia.
  rewrite drop_app_length' by (by rewrite be32_length). rewrite u64_small by lia.
  destruct fuel as [|fuel]; [lia|]. apply walk_entries; [done|lia|lia].
Qed.
End Walk.

(** ** Requests, responses and the walk together *)

Section Telemetry.
Context {Obj St : Type} (deft : Z -> option (StructDefinition Obj)).
(** The encoding of the structures of each type. *)
Context (body : Z -> Obj -> list Z).
(** malloc: blocks of the size asked for; and for the decoders. *)
Context (malloc : Z -> list Z) (Hmalloc : forall n, 0 <= n -> zlen (malloc n) = n).
Context (dmalloc : Z -> bool) (Hdmalloc : malloc_works dmalloc).
Context (call : Z -> Z -> list (option Obj * Z)) (populator_error : Z -> Z -> Obj).
(** The array of blocks among the structures, registered with its table. *)
Context (arr_obj : IPC_OpaqueStructArr -> Obj).
Context (arr_def : StructDefinition Obj) (arr_enc : sptr Obj -> dptr -> Z -> list Z -> eres).
Context (Harr : deft IPC_TYPES_OPAQUE_STRUCT_ARR = Some arr_def) (Henc : sd_encoder arr_def = Some arr_enc).
Context (Harr_enc : forall a dst max buf,
  arr_enc (SObj (arr_obj a)) dst max buf
  = XDR_struct_encoder (Some (IPC_OpaqueStructArr_Fields dmalloc)) (SObj a) dst max buf).
Context (Hbody : forall a, body IPC_TYPES_OPAQUE_STRUCT_ARR (arr_obj a) = arr_wire a).
Context (itr_cb : St -> Z -> list Z -> Z -> St).
Context (Hlocal : forall st t b rest, itr_cb st t (b ++ rest) (zlen b) = itr_cb st t b (zlen b)).

(** A structure that can be sent: its encoding is whole words and, if it needs
    [e] bytes to spare, not in the window below the 256 bytes of the first
    buffer. *)
Definition obj_ok (t : Z) (o : Obj) : Prop :=
  (exists e, 0 <= e <= 16 /\ union_valid deft body e SNull (XUnion t (SObj o)) /\
     (4 + zlen (body t o) + e <= 256 \/ 256 < 4 + zlen (body t o))) /\
  t <> IPC_TYPES_OPAQUE_STRUCT_ARR /\ zlen (body t o) mod 4 = 0 /\ zlen (body t o) < 2 ^ 30.

(** What a call of a populator puts in the response. *)
Definition answer_of (t : Z) (o : Obj) (c : Z) : Z * Obj :=
  if c =? IPC_RESULTCODE_SUCCESS then (t, o) else (IPC_TYPES_POPULATOR_ERROR, populator_error t c).

(** The answer to one requested type: none if there is no populator. *)
Definition produced (t : Z) : option (Z * Obj) :=
  match deft t with
  | Some def =>
      match populate def with
      | Some f =>
          match call f (populate_arg def) with
          | [(Some o, c)] => Some (answer_of t o c)
          | _ => None
          end
      | None => None
      end
  | None => None
  end.

(** A populator calls back once. *)
Definition req_ok (t : Z) : Prop :=
  forall def f, deft t = Some def -> populate def = Some f ->
    exists o c, call f (populate_arg def) = [(Some o, c)] /\ obj_ok (answer_of t o c).1 (answer_of t o c).2.

Definition block_of (x : Z * Obj) : IPC_OpaqueStruct :=
  Opaque (4 + zlen (body x.1 x.2)) (Some (be32 x.1 ++ body x.1 x.2)).
Definition encoded (x : Z * Obj) : Z * list Z := (x.1, body x.1 x.2).

Lemma obj_block t o : obj_ok t o ->
  CMD_struct_to_opaque_struct deft malloc (Some o) t = Some (block_of (t, o)).
Proof using Hmalloc.
  intros ((e & He & Hv & Hwin) & _ & Hm & Hl).
  destruct (struct_to_opaque deft body e He malloc Hmalloc t o Hv) as [H _]; [lia|].
  rewrite H by done. unfold block_of. rewrite length_app, be32_length. cbn [fst snd]. do 2 f_equal. lia.
Qed.

Lemma data_req_loop_ok reqs resp :
  Forall req_ok reqs ->
  data_req_loop deft malloc call populator_error false reqs false [] resp
  = Some (false, [], resp ++ (block_of <$> omap produced reqs)).
Proof using Hmalloc.
  intros Hok. revert resp. induction Hok as [|t reqs Ht Hok IH]; intros resp; simpl; [by rewrite app_nil_r|].
  unfold produced at 1. unfold req_ok in Ht.
  destruct (deft t) as [def|] eqn:Ed; [|apply IH]. destruct (populate def) as [f|] eqn:Ep; [|apply IH].
  destruct (Ht def f eq_refl Ep) as (o & c & -> & Ho). cbn [populate_all].
  assert (E : data_req_populate_cb deft malloc populator_error false t ([], Opaque 0 None) (Some o, c)
              = Some ([], block_of (answer_of t o c))).
  { unfold data_req_populate_cb, answer_of in *. cbn [fst snd].
    destruct (c =? IPC_RESULTCODE_SUCCESS); cbn [negb fst snd] in *; by rewrite obj_block. }
  rewrite E. cbn [orb]. rewrite bool_decide_eq_false_2 by done. rewrite IH. simpl. by rewrite <- app_assoc.
Qed.

Lemma expected_ok reqs : Forall req_ok reqs -> Forall (fun x => obj_ok x.1 x.2) (omap produced reqs).
Proof using.
  intros Hok. apply Forall_forall. intros x Hx. apply list_elem_of_In, list_elem_of_omap in Hx as (t & Ht & Hp).
  rewrite Forall_forall in Hok. apply list_elem_of_In in Ht. specialize (Hok t Ht). unfold produced, req_ok in *.
  destruct (deft t) as [def|]; [|done]. destruct (populate def) as [f|] eqn:Ep; [|done].
  destruct (Hok def f eq_refl Ep) as (o & c & E & Ho). rewrite E in Hp. by injection Hp as <-.
Qed.

Lemma block_of_ok x : obj_ok x.1 x.2 ->
  opaque_valid SNull (block_of x) /\ opaque_wire (block_of x) = block_wire (encoded x) /\ block_ok (encoded x).
Proof using.
  intros ((e & _ & (def & enc & o & _ & _ & [= <-] & Ht & _ & _) & _) & Hne & Hm & Hl). cbn [u_type] in Ht.
  assert (Hz : zlen (be32 x.1 ++ body x.1 x.2) = 4 + zlen (body x.1 x.2)) by (rewrite length_app, be32_length; lia).
  split_and!.
  - exists (be32 x.1 ++ body x.1 x.2). rewrite Hz. split; [done|lia].
  - unfold opaque_wire, block_wire, block_of, bytes_wire. cbn [op_length op_data encoded fst snd].
    rewrite Hz. replace (pad4 (4 + zlen (body x.1 x.2))) with 0.
    2:{ unfold pad4. rewrite <- Z.add_mod_idemp_r, Hm by lia. done. }
    unfold zeros. simpl. by rewrite app_nil_r.
  - split_and!; cbn [encoded fst snd]; [lia|lia|done|lia].
Qed.

Lemma blocks_wire xs : Forall (fun x => obj_ok x.1 x.2) xs ->
  concat (opaque_wire <$> (block_of <$> xs)) = concat (block_wire <$> (encoded <$> xs)) /\
  Forall (opaque_valid SNull) (block_of <$> xs) /\ Forall block_ok (encoded <$> xs).
Proof using.
  induction 1 as [|x xs Hx Hxs (IH1 & IH2 & IH3)]; [by repeat constructor|].
  destruct (block_of_ok x Hx) as (B1 & B2 & B3). rewrite !fmap_cons. cbn [concat]. rewrite IH1, B2.
  split_and!; [done|by constructor|by constructor].
Qed.

(** The encoding of the response. *)
Definition response_wire (ref : Z) (bs : list (Z * list Z)) : list Z :=
  be32 IPC_CMDS_RESPONSE ++ be32 ref ++ be32 IPC_RESULTCODE_SUCCESS ++
  be32 IPC_TYPES_OPAQUE_STRUCT_ARR ++ be32 (zlen bs) ++ concat (block_wire <$> bs).

Lemma response_sized ref xs :
  Forall (fun x => obj_ok x.1 x.2) xs -> xs <> [] -> 0 <= ref < 2 ^ 32 -> zlen xs <= 1024 ->
  zlen (concat (block_wire <$> (encoded <$> xs))) < 2 ^ 62 ->
  struct_sized (XDR_struct_encoder (Some (IPC_Response_Fields deft)))
    (Resp IPC_CMDS_RESPONSE ref IPC_RESULTCODE_SUCCESS
      (XUnion IPC_TYPES_OPAQUE_STRUCT_ARR (SObj (arr_obj (OpArr (zlen (block_of <$> xs)) (Some (block_of <$> xs)))))))
    (response_wire ref (encoded <$> xs)) 1.
Proof using Hdmalloc Harr Henc Harr_enc Hbody.
  intros Hok Hne Href Hlen Hw. destruct (blocks_wire xs Hok) as (W1 & W2 & W3).
  set (bs := block_of <$> xs) in *. set (a := OpArr (zlen bs) (Some bs)).
  assert (Hbs : zlen bs = zlen (encoded <$> xs) /\ zlen bs = zlen xs) by (unfold bs; rewrite !length_fmap; done).
  destruct Hbs as [Hbs Hxs].
  assert (Hv : blocks_valid (SObj (zlen bs)) (Some bs)).
  { exists bs. split_and!; try done; [|lia|rewrite W1; lia]. intros E. apply Hne. by apply fmap_nil_inv in E. }
  pose proof (arr_struct_sized dmalloc Hdmalloc bs Hv) as HA. fold a in HA.
  assert (Hwire : arr_wire a = be32 (zlen (encoded <$> xs)) ++ concat (block_wire <$> (encoded <$> xs))).
  { unfold arr_wire, a. cbn [arr_length arr_structs array_wire]. by rewrite W1, Hbs. }
  assert (HU : union_valid deft body 1 SNull (XUnion IPC_TYPES_OPAQUE_STRUCT_ARR (SObj (arr_obj a)))).
  { exists arr_def, arr_enc, (arr_obj a). cbn [u_type u_data]. rewrite Hbody. split_and!; try done.
    - destruct HA as [A1 A2 A3]. split; intros *; rewrite Harr_enc; [apply A1|apply A2|apply A3].
    - rewrite Hwire, length_app, be32_length. lia. }
  set (r := Resp IPC_CMDS_RESPONSE ref IPC_RESULTCODE_SUCCESS _).
  assert (HL : loop_sized (IPC_Response_Fields deft) r (response_wire ref (encoded <$> xs)) 1).
  { unfold response_wire. rewrite <- Hwire, <- Hbody.
    change (be32 IPC_TYPES_OPAQUE_STRUCT_ARR ++ body IPC_TYPES_OPAQUE_STRUCT_ARR (arr_obj a))
      with (union_wire body (f_get (response_data deft) r)).
    assert (HW : forall z : Z, 0 <= z < 2 ^ 32 -> int_valid 0 (2 ^ 32) (SObj 0) z) by done.
    pose proof (codec_encodes (Codec := uint32_codec)) as HE. pose proof (uint32_sized 0 (2 ^ 32)) as HS.
    apply (loop_cons response_cmd be32 0 (int_valid 0 (2 ^ 32)) (HE := HE) (HS := HS)); [by apply HW| |lia|lia].
    apply (loop_cons response_ipcref be32 0 (int_valid 0 (2 ^ 32)) (HE := HE) (HS := HS)); [by apply HW| |lia|lia].
    apply (loop_cons response_result be32 0 (int_valid 0 (2 ^ 32)) (HE := HE) (HS := HS)); [by apply HW| |lia|lia].
    apply (loop_last (response_data deft) (union_wire body) 1 (union_valid deft body 1)
      (HE := union_encodes deft body 1 ltac:(lia)) (HS := union_sized deft body 1 ltac:(lia))). exact HU. }
  apply loop_struct_sized; [exact HL|lia|]. unfold response_wire. rewrite !length_app, !be32_length. lia.
Qed.

(** The answer to a request of several types. *)
Lemma data_req_answer reqs :
  (2 <= length reqs <= 1024)%nat -> Forall req_ok reqs ->
  cmd_handle_data_req deft malloc call populator_error true IPC_TYPES_DATAREQ (Some (Some reqs))
  = Some [SentArray (block_of <$> omap produced reqs)].
Proof using Hmalloc.
  intros Hn Hok. unfold cmd_handle_data_req. change (negb _) with false. cbv iota zeta.
  rewrite (proj2 (Z.leb_gt (zlen reqs) 0)), (proj2 (Z.ltb_ge 1024 (zlen reqs))) by lia. cbn [orb negb].
  rewrite (proj2 (Z.eqb_neq (zlen reqs) 1)) by lia. by rewrite data_req_loop_ok.
Qed.

Lemma expected_length reqs : (length (omap produced reqs) <= length reqs)%nat.
Proof using.
  induction reqs as [|t reqs IH]; [done|].
  change (omap produced (t :: reqs)) with
    (match produced t with Some x => x :: omap produced reqs | None => omap produced reqs end).
  destruct (produced t); simpl length; lia.
Qed.

Lemma response_wire_length ref bs : zlen (response_wire ref bs) = 20 + zlen (concat (block_wire <$> bs)).
Proof using. unfold response_wire. rewrite !length_app, !be32_length. lia. Qed.

(** The packet, as the room decides. *)
Lemma response_packet ref reqs :
  (2 <= length reqs <= 1024)%nat -> Forall req_ok reqs -> omap produced reqs <> [] -> 0 <= ref < 2 ^ 32 ->
  let l := block_of <$> omap produced reqs in
  let w := response_wire ref (encoded <$> omap produced reqs) in
  zlen w < 2 ^ 62 ->
  IPC_response deft malloc ref IPC_TYPES_OPAQUE_STRUCT_ARR (SObj (arr_obj (OpArr (zlen l) (Some l))))
  = Some (if zlen w <? 1024 then Some w else None).
Proof using Hmalloc Hdmalloc Harr Henc Harr_enc Hbody.
  intros Hn Hok Hne Href l w Hw. pose proof (expected_length reqs) as Hel.
  pose proof (response_wire_length ref (encoded <$> omap produced reqs)) as Hwl. fold w in Hwl.
  destruct (response_sized ref (omap produced reqs) (expected_ok reqs Hok) Hne Href) as [S1 S2 _]; [lia|lia|].
  fold l in S1, S2. fold w in S1, S2. unfold IPC_response.
  destruct (Z.ltb_spec (zlen w) 1024) as [Hlt|Hge].
  - rewrite S1 by (rewrite ?Hmalloc; lia). change (0 <? 0) with false. cbv iota.
    by rewrite take_splice by (rewrite Hmalloc; lia).
  - destruct (S2 0 1024 (malloc 1024)) as (rc & buf & -> & Hrc & _); [lia|rewrite Hmalloc; lia|lia|].
    rewrite (proj2 (Z.ltb_lt _ _) Hrc). destruct (Z.ltb_spec 1024 (zlen w)); [|done].
    destruct (S2 0 (zlen w) (malloc (zlen w))) as (rc2 & buf2 & -> & Hrc2 & _); [lia|rewrite Hmalloc; lia|lia|].
    by rewrite (proj2 (Z.ltb_lt _ _) Hrc2).
Qed.

(** C18. Telemetry, end to end. A request for 2 to 1024 types is answered with
    the structures of those types that have a populator, in the order of the
    request, a populator's failure as an error structure; if the response is
    shorter than 1024 bytes it is sent, with the reference of the command, and
    the walk over it on the other side calls back once per structure with its
    type and exactly its encoding. Conditions: allocations succeed; the arrays
    of blocks are registered with the table of the library; at least one of
    the types has a populator; each populator calls back once and with a
    structure, also when it fails (NULL data is left out by the code), and
    that structure encodes to whole words (at most 2^30 bytes), in 256 bytes
    with its slack to spare or in more than 256 ([req_ok]; in between the code
    drops it); the callback of the walk looks only at the bytes of its
    structure. *)
Theorem telemetry_roundtrip reqs ref st :
  (2 <= length reqs <= 1024)%nat -> Forall req_ok reqs -> omap produced reqs <> [] -> 0 <= ref < 2 ^ 32 ->
  zlen (response_wire ref (encoded <$> omap produced reqs)) < 1024 ->
  exists l pkt,
    cmd_handle_data_req deft malloc call populator_error true IPC_TYPES_DATAREQ (Some (Some reqs)) = Some [SentArray l] /\
    IPC_response deft malloc ref IPC_TYPES_OPAQUE_STRUCT_ARR (SObj (arr_obj (OpArr (zlen l) (Some l)))) = Some (Some pkt) /\
    take 12 pkt = be32 IPC_CMDS_RESPONSE ++ be32 ref ++ be32 IPC_RESULTCODE_SUCCESS /\
    CMD_iterate_structs itr_cb (S (length pkt)) (drop 12 pkt) (zlen pkt - 12) st
      = Some (IRet 0 (foldl (visit itr_cb) st (encoded <$> omap produced reqs))).
Proof using Hmalloc Hdmalloc Harr Henc Harr_enc Hbody Hlocal.
  intros Hn Hok Hne Href Hw. set (bs := encoded <$> omap produced reqs) in *.
  exists (block_of <$> omap produced reqs), (response_wire ref bs). split; [by apply data_req_answer|].
  split.
  { rewrite (response_packet ref reqs Hn Hok Hne Href) by (fold bs; lia). fold bs.
    by rewrite (proj2 (Z.ltb_lt _ _) Hw). }
  pose proof (response_wire_length ref bs) as Hl.
  assert (Hsplit : response_wire ref bs = (be32 IPC_CMDS_RESPONSE ++ be32 ref ++ be32 IPC_RESULTCODE_SUCCESS) ++
    (be32 IPC_TYPES_OPAQUE_STRUCT_ARR ++ be32 (zlen bs) ++ concat (block_wire <$> bs)))
    by (unfold response_wire; by rewrite <- !app_assoc).
  assert (H12 : length (be32 IPC_CMDS_RESPONSE ++ be32 ref ++ be32 IPC_RESULTCODE_SUCCESS) = 12%nat)
    by (rewrite !length_app, !be32_length; lia).
  destruct (blocks_wire _ (expected_ok reqs Hok)) as (_ & _ & Hb). fold bs in Hb.
  pose proof (expected_length reqs) as Hel. assert (Hbl : length bs = length (omap produced reqs)) by apply length_fmap.
  assert (Hnb : (length bs <= length (concat (block_wire <$> bs)))%nat).
  { clear. induction bs as [|b bs IH]; [done|]. rewrite fmap_cons. cbn [concat]. rewrite length_app.
    pose proof (block_wire_length b). simpl length. lia. }
  split.
  - rewrite Hsplit, take_app_length' by lia. done.
  - rewrite Hsplit at 2. rewrite drop_app_length' by lia.
    rewrite <- (app_nil_r (concat (block_wire <$> bs))).
    apply walk_array; [done|done|lia|lia|lia].
Qed.

(** Large telemetry is lost.  A response of 1024 bytes or more is never
    sent: [IPC_response] encodes it a second time into a buffer of exactly the
    size it asked for, and the byte array at its end is refused because it
    exactly fits. *)
Theorem telemetry_lost reqs ref :
  (2 <= length reqs <= 1024)%nat -> Forall req_ok reqs -> omap produced reqs <> [] -> 0 <= ref < 2 ^ 32 ->
  1024 <= zlen (response_wire ref (encoded <$> omap produced reqs)) < 2 ^ 62 ->
  exists l,
    cmd_handle_data_req deft malloc call populator_error true IPC_TYPES_DATAREQ (Some (Some reqs)) = Some [SentArray l] /\
    IPC_response deft malloc ref IPC_TYPES_OPAQUE_STRUCT_ARR (SObj (arr_obj (OpArr (zlen l) (Some l)))) = Some None.
Proof using Hmalloc Hdmalloc Harr Henc Harr_enc Hbody.
  intros Hn Hok Hne Href Hw. exists (block_of <$> omap produced reqs). split; [by apply data_req_answer|].
  rewrite (response_packet ref reqs Hn Hok Hne Href) by lia. by rewrite (proj2 (Z.ltb_ge _ _)) by lia.
Qed.
End Telemetry.

(** ** A process with two telemetry items *)

(** A number, an error structure, or the array of blocks. *)
Inductive tobj := TNum (v : Z) | TErr (t c : Z) | TArr (a : IPC_OpaqueStructArr).

Definition num_field : FieldDefinition tobj :=
  FD Z XDR_decode_uint32 XDR_encode_uint32 0 0 0 (fun o => match o with TNum v => v | _ => 0 end)
    (fun _ v => TNum v) (fun _ => 0).
Definition num_enc := XDR_struct_encoder (Some [num_field]).
Definition all_mem (_ : Z) : bool := true.
Definition tarr_enc (src : sptr tobj) (dst : dptr) (max : Z) (buf : list Z) : eres :=
  match src with
  | SObj (TArr a) => XDR_struct_encoder (Some (IPC_OpaqueStructArr_Fields all_mem)) (SObj a) dst max buf
  | _ => EFault
  end.

Definition num_def : StructDefinition tobj := SD 100 4 (Some num_enc) None None None (Some 1) 7.
Definition arr_def0 : StructDefinition tobj :=
  SD IPC_TYPES_OPAQUE_STRUCT_ARR 16 (Some tarr_enc) None None None None 0.
Definition tdeft (t : Z) : option (StructDefinition tobj) :=
  if t =? 100 then Some num_def
  else if t =? IPC_TYPES_OPAQUE_STRUCT_ARR then Some arr_def0 else None.

Definition tbody (t : Z) (o : tobj) : list Z :=
  match o with TNum v => be32 v | TArr a => arr_wire a | TErr _ _ => [] end.
Definition tcall (f arg : Z) : list (option tobj * Z) := [(Some (TNum arg), IPC_RESULTCODE_SUCCESS)].
Definition tmalloc (n : Z) : list Z := replicate (Z.to_nat n) 0.

Lemma tmalloc_ok n : 0 <= n -> zlen (tmalloc n) = n.
Proof. intros H. unfold tmalloc. rewrite length_replicate. lia. Qed.

Lemma num_sized v : 0 <= v < 2 ^ 32 -> struct_sized num_enc (TNum v) (be32 v) 0.
Proof.
  intros Hv. apply loop_struct_sized; [|lia|rewrite be32_length; lia].
  apply (loop_last num_field be32 0 (int_valid 0 (2 ^ 32)) (HE := codec_encodes (Codec := uint32_codec))
    (HS := uint32_sized _ _) (TNum v)). exact Hv.
Qed.

Lemma treq_ok t : req_ok tdeft tbody tcall TErr t.
Proof.
  intros def f. unfold tdeft. destruct (Z.eqb_spec t 100) as [->|_].
  - intros [= <-] [= <-]. eexists _, _. split; [done|]. split_and!; [|done|done|done].
    exists 0. split; [lia|]. split; [|left; done].
    exists num_def, num_enc, (TNum 7). split_and!; try done. by apply num_sized.
  - destruct (t =? IPC_TYPES_OPAQUE_STRUCT_ARR); [|done]. by intros [= <-].
Qed.

(** The callback collects what it sees. *)
Definition collect (st : list (Z * list Z)) (t : Z) (b : list Z) (len : Z) : list (Z * list Z) :=
  st ++ [(t, take (Z.to_nat len) b)].

Lemma collect_local st t b rest : collect st t (b ++ rest) (zlen b) = collect st t b (zlen b).
Proof. unfold collect. rewrite Nat2Z.id, take_app_length, (take_ge b) by lia. done. Qed.

Lemma telemetry_roundtrip_witness :
  exists pkt, IPC_response tdeft tmalloc 5 IPC_TYPES_OPAQUE_STRUCT_ARR
      (SObj (TArr (OpArr 2 (Some [Opaque 8 (Some (be32 100 ++ be32 7)); Opaque 8 (Some (be32 100 ++ be32 7))]))))
      = Some (Some pkt) /\
    CMD_iterate_structs collect 60 (drop 12 pkt) (zlen pkt - 12) []
      = Some (IRet 0 [(100, be32 7); (100, be32 7)]).
Proof.
  destruct (telemetry_roundtrip tdeft tbody tmalloc tmalloc_ok all_mem ltac:(done) tcall TErr TArr arr_def0 tarr_enc
    eq_refl eq_refl ltac:(done) ltac:(done) collect collect_local [100; 99; 100] 5 []) as (l & pkt & H1 & H2 & H3 & H4).
  - simpl. lia.
  - repeat constructor; apply treq_ok.
  - done.
  - lia.
  - by vm_compute.
  - vm_compute in H1. injection H1 as <-. exists pkt. split; [exact H2|].
    vm_compute in H2. injection H2 as <-. by vm_compute.
Defined.

Lemma telemetry_lost_witness :
  exists l, cmd_handle_data_req tdeft tmalloc tcall TErr true IPC_TYPES_DATAREQ (Some (Some (replicate 90 100)))
      = Some [SentArray l] /\
    IPC_response tdeft tmalloc 5 IPC_TYPES_OPAQUE_STRUCT_ARR (SObj (TArr (OpArr (zlen l) (Some l)))) = Some None.
Proof.
  apply (telemetry_lost tdeft tbody tmalloc tmalloc_ok all_mem ltac:(done) tcall TErr TArr arr_def0 tarr_enc
    eq_refl eq_refl ltac:(done) ltac:(done) (replicate 90 100) 5).
  - rewrite length_replicate. lia.
  - apply Forall_forall. intros t _. apply treq_ok.
  - done.
  - lia.
  - by vm_compute.
Defined.

Lemma iterate_terminates_witness :
  is_Some (iterate collect 9 (WEntries [0; 0; 0; 9; 1; 2; 3; 4] 8 1) []).
Proof. apply (iterate_terminates collect 9). simpl. lia. Defined.

(** The length of an entry is not compared with what is left of the packet: a
    block that claims 100 bytes leaves the walk with almost [2^64] bytes, and
    it goes on behind the packet. *)
Example iterate_overrun :
  CMD_iterate_structs collect 60
    (be32 IPC_TYPES_OPAQUE_STRUCT_ARR ++ be32 2 ++ be32 100 ++ be32 5) 16 [] = Some IFault.
Proof. by vm_compute. Qed.

(** The same on the way in: an array whose last block ends the packet is not
    decoded, so a cooked callback never sees telemetry. *)
Example array_not_decoded :
  let l := [Opaque 8 (Some (be32 100 ++ be32 7))] in
  XDR_struct_decoder (Some (IPC_OpaqueStructArr_Fields all_mem)) (arr_wire (OpArr 1 (Some l))) (OpArr 0 None) 16
    = DErr (-1) /\
  XDR_struct_decoder (Some (IPC_OpaqueStructArr_Fields all_mem)) (arr_wire (OpArr 1 (Some l)) ++ [0]) (OpArr 0 None) 17
    = DOk 16 (OpArr 1 (Some l)).
Proof. split; by vm_compute. Qed.
