(* ===== verification/CmdMulticast.v ===== *)
(** * Multicast subscriptions (cmd.c)

    A process subscribes to the packets another service multicasts: the first
    handler for a service opens a socket, joins its group and watches the
    socket in the event loop; the last one to go leaves the group and closes
    it.  This file models the lists of sockets and handlers with the table of
    descriptor events of FdEvents.v behind them, and shows that each service
    has one socket, which is watched exactly as long as it has handlers. *)

From stdpp Require Import base gmap list numbers.
From Stdlib Require Import ZArith Lia.
From S2P Require Import Prelude Words Sched FdEvents.
Open Scope Z_scope.

(** ** Data *)

Record MulticastCommand := MCmd { mc_cmdNum : Z; mc_callback : Z; mc_param : Z }.

#[export] Instance MulticastCommand_eq_dec : EqDecision MulticastCommand.
Proof. solve_decision. Defined.

(** [ms_id] is the address of the state, the argument of its callback. *)
Record McastCommandState := MState {
  ms_id : ptr;
  srcAddr : Z;
  ms_port : Z;
  ms_fd : Z;
  ms_cmds : list MulticastCommand
}.

Definition with_cmds (s : McastCommandState) (v : list MulticastCommand) : McastCommandState :=
  MState (ms_id s) (srcAddr s) (ms_port s) (ms_fd s) v.
Definition with_fd (s : McastCommandState) (v : Z) : McastCommandState :=
  MState (ms_id s) (srcAddr s) (ms_port s) v (ms_cmds s).

(** The list of [CommandCbArg], the events of the loop, the memberships
    (socket and group) and the sockets that were closed. *)
Record mworld := MW {
  mcast : list McastCommandState;
  mtable : fds;
  joined : list (Z * Z);
  mclosed : list Z
}.

(** The address of [multicast_cmd_handler_cb]. *)
Definition MULTICAST_CB : Z := 3.

Definition htons (p : Z) : Z := (p mod 256) * 256 + (p / 256) mod 256.

(** ** Operations *)

Definition same_group (addr port : Z) (s : McastCommandState) : bool :=
  (ms_port s =? port) && (srcAddr s =? addr).

Fixpoint find_state (l : list McastCommandState) (addr port : Z) : option McastCommandState :=
  match l with
  | [] => None
  | s :: l' => if same_group addr port s then Some s else find_state l' addr port
  end.

Definition find_mcast_state (w : mworld) (addr port : Z) : option McastCommandState :=
  find_state (mcast w) addr (htons port).

(** A change of the state a pointer leads to. *)
Definition put_state (l : list McastCommandState) (s : McastCommandState) : list McastCommandState :=
  (fun x => if decide (ms_id x = ms_id s) then s else x) <$> l.

(** [addr] and [port] are what the service name stands for, 0 if nothing;
    [mem] is the new state's address, [sock] the result of [socket_init],
    [join_ok] that of [setsockopt], [entry_ok] an allocation of the loop.  The
    allocations of cmd.c are taken to succeed. *)
Definition cmd_set_multicast_handler (w : mworld) (addr port cmdNum handler arg : Z)
    (mem : ptr) (sock : Z) (join_ok entry_ok : bool) : mworld :=
  if (addr =? 0) || (port =? 0) then w
  else
    let cmd := MCmd cmdNum handler arg in
    match find_mcast_state w addr port with
    | Some s => MW (put_state (mcast w) (with_cmds s (cmd :: ms_cmds s))) (mtable w) (joined w) (mclosed w)
    | None =>
        if sock <=? 0 then w
        else if negb join_ok then w
        else
          let t1 := (EVT_fd_add (mtable w) sock FdRead (Some MULTICAST_CB) (Zpos mem) entry_ok).2 in
          let t2 := EVT_fd_set_critical t1 sock false in
          MW (MState mem addr (htons port) sock [cmd] :: mcast w) t2 ((sock, addr) :: joined w) (mclosed w)
    end.

(** Leaving the group and closing the socket of a state. *)
Definition drop_socket (w : mworld) (fd addr : Z) : mworld :=
  MW (mcast w) (EVT_fd_remove (mtable w) fd FdRead) (filter (fun x => x <> (fd, addr)) (joined w))
    (mclosed w ++ [fd]).

(** All handlers of the number go; the states without a socket are swept. *)
Definition cmd_remove_multicast_handler (w : mworld) (addr port cmdNum : Z) : mworld :=
  match find_mcast_state w addr port with
  | None => w
  | Some s =>
      let s1 := with_cmds s (filter (fun c => mc_cmdNum c <> cmdNum) (ms_cmds s)) in
      let w1 := MW (put_state (mcast w) s1) (mtable w) (joined w) (mclosed w) in
      if bool_decide (ms_cmds s1 = []) then
        let w2 := if 0 <? ms_fd s1 then drop_socket w1 (ms_fd s1) addr else w1 in
        MW (filter (fun x => ms_fd x <> 0) (put_state (mcast w2) (with_fd s1 0))) (mtable w2) (joined w2) (mclosed w2)
      else w1
  end.

Fixpoint cleanup_states (w : mworld) (l : list McastCommandState) : mworld :=
  match l with
  | [] => w
  | s :: l' =>
      let w1 := if 0 <? ms_fd s then drop_socket w (ms_fd s) (srcAddr s) else w in
      cleanup_states (MW l' (mtable w1) (joined w1) (mclosed w1)) l'
  end.

Definition cmd_cleanup_cb_state (w : mworld) : mworld := cleanup_states w (mcast w).

(** [multicast_cmd_handler_cb] on a packet: the calls, with the command byte,
    the data behind it and its length; handlers are taken not to change the
    list while it is walked. *)
Definition multicast_cmd_handler_cb (s : McastCommandState) (is_read : bool) (data : list Z)
    : Z * list (Z * Z * Z * list Z) :=
  (EVENT_KEEP,
   if is_read then
     match data with
     | [] => []
     | b :: rest =>
         (fun c => (mc_callback c, mc_param c, b, rest)) <$>
           filter (fun c => mc_cmdNum c < 0 \/ mc_cmdNum c = b) (ms_cmds s)
     end
   else []).

(** ** Invariant *)

(** The socket is watched for the state, and does not keep the process alive. *)
Definition mwatched (t : fds) (s : McastCommandState) : Prop :=
  exists n, entry t (ms_fd s) = Some n /\ get (cb n) FdRead = Some MULTICAST_CB /\
    get (earg n) FdRead = Zpos (ms_id s) /\ get (einCallback n) FdRead = 0 /\ ecritical n = false.

Definition group (s : McastCommandState) : Z * Z := (srcAddr s, ms_port s).

Record mw_wf (w : mworld) : Prop := {
  mw_ids : NoDup (ms_id <$> mcast w);
  mw_groups : NoDup (group <$> mcast w);
  mw_fds : NoDup (ms_fd <$> mcast w);
  mw_table : fd_wf (mtable w);
  mw_live : Forall (fun s => 0 < ms_fd s /\ ms_cmds s <> [] /\ mwatched (mtable w) s) (mcast w);
  mw_joined : joined w ≡ₚ (fun s => (ms_fd s, srcAddr s)) <$> mcast w
}.

(** The handlers of a group. *)
Definition handlers (w : mworld) (addr port : Z) : list MulticastCommand :=
  match find_state (mcast w) addr port with Some s => ms_cmds s | None => [] end.

(** ** Lists of subscriptions *)

Lemma same_group_spec addr port s : same_group addr port s = true <-> group s = (addr, port).
Proof.
  unfold same_group, group. rewrite andb_true_iff, !Z.eqb_eq. split; [intros [-> ->]; done|by intros [= -> ->]].
Qed.

Lemma find_state_Some l addr port s :
  find_state l addr port = Some s -> exists l1 l2, l = l1 ++ s :: l2 /\ group s = (addr, port).
Proof.
  induction l as [|x l IH]; [done|]. cbn [find_state]. destruct (same_group addr port x) eqn:E.
  - intros [= ->]. apply same_group_spec in E. by exists [], l.
  - intros H. destruct (IH H) as (l1 & l2 & -> & Hg). by exists (x :: l1), l2.
Qed.

Lemma find_state_None l addr port :
  find_state l addr port = None -> (addr, port) ∉ group <$> l.
Proof.
  induction l as [|x l IH]; [intros _; apply not_elem_of_nil|]. cbn [find_state].
  destruct (same_group addr port x) eqn:E; [done|]. intros H. rewrite fmap_cons, not_elem_of_cons.
  split; [|by apply IH]. intros Hg. symmetry in Hg. apply same_group_spec in Hg. congruence.
Qed.

(** A group has one state, so the search finds it wherever it is. *)
Lemma find_state_at l addr port s :
  NoDup (group <$> l) -> s ∈ l -> group s = (addr, port) -> find_state l addr port = Some s.
Proof.
  intros Hnd Hin Hg. destruct (find_state l addr port) as [x|] eqn:E.
  - apply find_state_Some in E as (l1 & l2 & -> & Hx). f_equal.
    apply list_elem_of_lookup in Hin as [i Hi].
    assert (Hj : (group <$> l1 ++ x :: l2) !! length l1 = Some (addr, port))
      by (by rewrite list_lookup_fmap, list_lookup_middle, <- Hx).
    assert (i = length l1) as ->.
    { apply (NoDup_lookup _ _ _ (addr, port) Hnd); [|done]. by rewrite list_lookup_fmap, Hi, <- Hg. }
    rewrite list_lookup_middle in Hi by done. congruence.
  - apply find_state_None in E. contradict E. apply list_elem_of_fmap. by exists s.
Qed.

Lemma find_state_skip l1 l2 s addr port :
  group s <> (addr, port) -> find_state (l1 ++ s :: l2) addr port = find_state (l1 ++ l2) addr port.
Proof.
  intros Hg. induction l1 as [|x l1 IH]; cbn [app find_state].
  - destruct (same_group addr port s) eqn:E; [|done]. by apply same_group_spec in E.
  - by rewrite IH.
Qed.

Lemma put_state_at l1 l2 s s' :
  NoDup (ms_id <$> l1 ++ s :: l2) -> ms_id s' = ms_id s -> put_state (l1 ++ s :: l2) s' = l1 ++ s' :: l2.
Proof.
  intros Hnd Hid. unfold put_state. rewrite Hid, fmap_app, fmap_cons, decide_True by done.
  rewrite fmap_app, fmap_cons in Hnd. apply list.NoDup_app in Hnd as (_ & H1 & Hnd).
  apply list.NoDup_cons in Hnd as [H2 _].
  assert (Hskip : forall l : list McastCommandState, ms_id s ∉ ms_id <$> l ->
      (fun x => if decide (ms_id x = ms_id s) then s' else x) <$> l = l).
  { induction l as [|x l IH]; [done|]. rewrite fmap_cons, not_elem_of_cons. intros [Hx Hl].
    by rewrite fmap_cons, decide_False, IH by done. }
  rewrite !Hskip; [done|done|]. intros Hin. apply (H1 _ Hin). apply elem_of_cons. by left.
Qed.

Lemma nodup_middle {A B} (f : A -> B) l1 l2 x :
  NoDup (f <$> l1 ++ x :: l2) -> f x ∉ f <$> l1 ++ l2 /\ NoDup (f <$> l1 ++ l2).
Proof. intros H. apply list.NoDup_cons. by rewrite <- fmap_cons, Permutation_middle. Qed.

(** ** The invariant is kept *)

Definition unwatched (t : fds) (f : Z) : Prop := has (entry t f) FdRead = false.

Lemma mwatched_other t t' s f :
  (forall x, x <> f -> entry t' x = entry t x) -> ms_fd s <> f -> mwatched t s -> mwatched t' s.
Proof. intros Ho Hne (n & Hn & H). exists n. by rewrite Ho. Qed.

(** The handlers of a state change. *)
Lemma replace_wf l1 l2 s cmds t j c :
  mw_wf (MW (l1 ++ s :: l2) t j c) -> cmds <> [] -> mw_wf (MW (l1 ++ with_cmds s cmds :: l2) t j c).
Proof.
  intros [M1 M2 M3 M4 M5 M6] Hc. cbn [mcast mtable joined] in *.
  split; cbn [mcast mtable joined]; rewrite ?fmap_app, ?fmap_cons in *; try done.
  rewrite list.Forall_app, list.Forall_cons in M5 |- *. destruct M5 as (L1 & (F & _ & W) & L2). done.
Qed.

(** The socket of a state goes with it. *)
Lemma drop_group_wf l1 l2 s t j c :
  mw_wf (MW (l1 ++ s :: l2) t j c) ->
  let w' := drop_socket (MW (l1 ++ l2) t j c) (ms_fd s) (srcAddr s) in
  mw_wf w' /\ unwatched (mtable w') (ms_fd s) /\
  (forall x, x <> ms_fd s -> entry (mtable w') x = entry t x).
Proof.
  intros [M1 M2 M3 M4 M5 M6] w'. cbn [mcast mtable joined] in *.
  rewrite list.Forall_app, list.Forall_cons in M5. destruct M5 as (L1 & (F & _ & n & N1 & N2 & N3 & N4 & N5) & L2).
  destruct (fd_remove_wf t (ms_fd s) FdRead M4 ltac:(lia)) as (R1 & R2 & R3).
  unfold w', drop_socket. cbn [mcast mtable joined mclosed].
  apply nodup_middle in M1 as [_ M1], M2 as [_ M2], M3 as [Hfd M3].
  assert (Hne : Forall (fun x => ms_fd x <> ms_fd s) (l1 ++ l2)).
  { apply list.Forall_forall. intros x Hx E. apply Hfd. apply list_elem_of_fmap. by exists x. }
  split; [|split; [|exact R3]].
  - split; cbn [mcast mtable joined]; try tauto.
    + assert (L : Forall (fun x => 0 < ms_fd x /\ ms_cmds x <> [] /\ mwatched t x) (l1 ++ l2))
        by (by apply list.Forall_app).
      rewrite list.Forall_forall in L, Hne |- *. intros x Hx. destruct (L x Hx) as (X1 & X2 & X3).
      split_and!; try done. apply (mwatched_other t _ x (ms_fd s)); [done|by apply Hne|done].
    + rewrite M6, fmap_app, fmap_cons, <- Permutation_middle, filter_cons_False, <- fmap_app by naive_solver.
      clear -Hne. induction Hne as [|x l Hx _ IH]; [done|].
      rewrite fmap_cons, filter_cons_True, IH by congruence. done.
  - unfold unwatched. rewrite R2, N1. cbn [removed_entry]. rewrite N4. change (0 =? 0) with true. cbv iota.
    by rewrite drop_event_has, decide_True.
Qed.

(** A new state, with its socket. *)
Lemma join_wf w s c :
  mw_wf w -> 0 < ms_fd s -> ms_id s ∉ ms_id <$> mcast w -> group s ∉ group <$> mcast w ->
  entry (mtable w) (ms_fd s) = None -> ms_cmds s = [c] ->
  mw_wf (MW (s :: mcast w)
    (EVT_fd_set_critical (EVT_fd_add (mtable w) (ms_fd s) FdRead (Some MULTICAST_CB) (Zpos (ms_id s)) true).2
       (ms_fd s) false) ((ms_fd s, srcAddr s) :: joined w) (mclosed w)).
Proof.
  intros [M1 M2 M3 M4 M5 M6] Hf Hi Hg He Hc.
  destruct (fd_add_wf (mtable w) (ms_fd s) FdRead MULTICAST_CB None (Zpos (ms_id s)) true M4 ltac:(lia) ltac:(done))
    as (_ & A1 & A2 & A3).
  fold (EVT_fd_add (mtable w) (ms_fd s) FdRead (Some MULTICAST_CB) (Zpos (ms_id s)) true) in A1, A2, A3.
  set (t1 := (EVT_fd_add _ _ _ _ _ _).2) in *.
  destruct (fd_set_critical_wf t1 (ms_fd s) false A1 ltac:(lia)) as (B1 & B2 & B3).
  set (t2 := EVT_fd_set_critical t1 (ms_fd s) false) in *.
  assert (Hne : forall x, x ∈ mcast w -> ms_fd x <> ms_fd s).
  { intros x Hx E. rewrite list.Forall_forall in M5. destruct (M5 x Hx) as (_ & _ & n & Hn & _). congruence. }
  split; cbn [mcast mtable joined]; rewrite ?fmap_cons; try (apply list.NoDup_cons; done); try done.
  - apply list.NoDup_cons. split; [|done]. intros Hin. apply list_elem_of_fmap in Hin as (x & E & Hx).
    by apply (Hne x Hx).
  - apply list.Forall_cons. split.
    + split_and!; [done|by rewrite Hc|]. unfold mwatched. rewrite B2, A2, He. by eexists.
    + rewrite list.Forall_forall in M5 |- *. intros x Hx. destruct (M5 x Hx) as (X1 & X2 & X3).
      split_and!; try done. apply (mwatched_other (mtable w) _ x (ms_fd s)); [|by apply Hne|done].
      intros y Hy. by rewrite B3, A3.
  - by rewrite M6.
Qed.

Lemma handlers_at w s addr port :
  mw_wf w -> s ∈ mcast w -> group s = (addr, port) -> handlers w addr port = ms_cmds s.
Proof. intros Hwf Hin Hg. unfold handlers. by rewrite (find_state_at _ _ _ s (mw_groups _ Hwf) Hin Hg). Qed.

(** A group is found exactly when it has handlers. *)
Lemma find_handlers w addr port :
  mw_wf w -> handlers w addr port = [] <-> find_state (mcast w) addr port = None.
Proof.
  intros Hwf. unfold handlers. destruct (find_state _ _ _) as [s|] eqn:E; [|done]. split; [|done].
  apply find_state_Some in E as (l1 & l2 & E & _). pose proof (mw_live _ Hwf) as L. rewrite E in L.
  apply list.Forall_app in L as [_ L]. apply list.Forall_cons in L as [(_ & L & _) _]. done.
Qed.

(** What subscribing does. *)
Lemma set_handler_spec w addr port num h arg mem sock :
  mw_wf w -> addr <> 0 -> port <> 0 -> 0 < sock -> mem ∉ ms_id <$> mcast w -> entry (mtable w) sock = None ->
  let w' := cmd_set_multicast_handler w addr port num h arg mem sock true true in
  mw_wf w' /\ handlers w' addr (htons port) = MCmd num h arg :: handlers w addr (htons port) /\
  (forall a p, (a, p) <> (addr, htons port) -> handlers w' a p = handlers w a p) /\
  joined w' = (if bool_decide (handlers w addr (htons port) = []) then [(sock, addr)] else []) ++ joined w /\
  mclosed w' = mclosed w.
Proof.
  intros Hwf Ha Hp Hs Hm He w'. unfold w', cmd_set_multicast_handler, find_mcast_state.
  rewrite (proj2 (Z.eqb_neq _ _) Ha), (proj2 (Z.eqb_neq _ _) Hp). cbn [orb].
  pose proof (find_handlers w addr (htons port) Hwf) as Hh.
  destruct (find_state (mcast w) addr (htons port)) as [s|] eqn:E.
  - rewrite bool_decide_eq_false_2 by (rewrite Hh; done).
    apply find_state_Some in E as (l1 & l2 & E & Hg). destruct w as [l t j c]. cbn [mcast mtable joined mclosed] in *.
    subst l. rewrite (put_state_at l1 l2 s) by (done || apply (mw_ids _ Hwf)).
    set (cmds := MCmd num h arg :: ms_cmds s).
    assert (Hwf' : mw_wf (MW (l1 ++ with_cmds s cmds :: l2) t j c)) by (by apply replace_wf).
    split_and!; try done.
    + rewrite (handlers_at _ (with_cmds s cmds) _ _ Hwf') by (set_solver || done).
      rewrite (handlers_at _ s _ _ Hwf) by (set_solver || done). done.
    + intros a p Hne. unfold handlers. cbn [mcast]. rewrite !find_state_skip; [done| |]; cbn; unfold group in *;
        cbn; congruence.
  - rewrite bool_decide_eq_true_2 by (by apply Hh). apply find_state_None in E as Hg.
    rewrite (proj2 (Z.leb_gt _ _) Hs). cbn [negb].
    set (s := MState mem addr (htons port) sock [MCmd num h arg]).
    pose proof (join_wf w s (MCmd num h arg) Hwf Hs Hm Hg He eq_refl) as Hwf'. cbn [ms_fd ms_id srcAddr s] in Hwf'.
    split_and!; try done.
    + rewrite (handlers_at _ s _ _ Hwf') by (set_solver || done). unfold handlers. by rewrite E.
    + intros a p Hne. unfold handlers. cbn [mcast]. cbn [find_state].
      destruct (same_group a p s) eqn:Eg; [|done]. apply same_group_spec in Eg. unfold group, s in Eg. cbn in Eg.
      congruence.
Qed.

(** Unsubscribing from a group that is there: the sweep takes the state and
    no other. *)
Lemma remove_eq l1 l2 s t j c addr port num :
  mw_wf (MW (l1 ++ s :: l2) t j c) -> group s = (addr, htons port) ->
  let cmds := filter (fun c => mc_cmdNum c <> num) (ms_cmds s) in
  cmd_remove_multicast_handler (MW (l1 ++ s :: l2) t j c) addr port num =
  if bool_decide (cmds = []) then drop_socket (MW (l1 ++ l2) t j c) (ms_fd s) addr
  else MW (l1 ++ with_cmds s cmds :: l2) t j c.
Proof.
  intros Hwf Hg cmds. unfold cmd_remove_multicast_handler, find_mcast_state. cbn [mcast mtable joined mclosed].
  pose proof (mw_ids _ Hwf) as Hid. pose proof (mw_live _ Hwf) as L. cbn [mcast mtable] in Hid, L.
  rewrite (find_state_at _ _ _ s (mw_groups _ Hwf)) by (cbn; set_solver || done).
  fold cmds. rewrite (put_state_at l1 l2 s) by done. cbn [with_cmds ms_cmds ms_fd].
  destruct (bool_decide_reflect (cmds = [])) as [Ec|Ec]; [|done].
  rewrite list.Forall_app, list.Forall_cons in L. destruct L as (L1 & (Hf & _) & L2).
  rewrite (proj2 (Z.ltb_lt _ _) Hf). cbn [drop_socket mcast mtable joined mclosed].
  rewrite (put_state_at l1 l2) by (first [done|rewrite fmap_app, fmap_cons in Hid |- *; exact Hid]).
  assert (Hkeep : forall l, Forall (fun x => 0 < ms_fd x /\ ms_cmds x <> [] /\ mwatched t x) l ->
    filter (fun x => ms_fd x <> 0) l = l).
  { intros l Hl. induction Hl as [|x l Hx _ IH]; [done|]. by rewrite filter_cons_True, IH by lia. }
  rewrite list.filter_app, filter_cons_False, !Hkeep by (cbn; done || naive_solver). done.
Qed.

(** Groups other than that of [s] do not depend on it. *)
Lemma handlers_other l1 l2 s m t t' j j' c c' a p :
  group s <> (a, p) -> m = l1 ++ l2 \/ (exists x, group x = group s /\ m = l1 ++ x :: l2) ->
  handlers (MW m t' j' c') a p = handlers (MW (l1 ++ s :: l2) t j c) a p.
Proof.
  intros Hne Hm. unfold handlers. cbn [mcast]. rewrite (find_state_skip l1 l2 s) by done.
  destruct Hm as [->|(x & Hx & ->)]; [done|]. by rewrite find_state_skip by congruence.
Qed.

Lemma group_unique w s x g :
  mw_wf w -> s ∈ mcast w -> x ∈ mcast w -> group s = g -> group x = g -> x = s.
Proof.
  destruct g as [a p]. intros Hwf Hs Hx Gs Gx.
  pose proof (find_state_at _ _ _ _ (mw_groups _ Hwf) Hs Gs).
  pose proof (find_state_at _ _ _ _ (mw_groups _ Hwf) Hx Gx). congruence.
Qed.

(** What unsubscribing does; the last handler of a group takes the socket
    with it. *)
Lemma remove_handler_spec w addr port num :
  mw_wf w ->
  let w' := cmd_remove_multicast_handler w addr port num in
  let left := filter (fun c => mc_cmdNum c <> num) (handlers w addr (htons port)) in
  mw_wf w' /\ handlers w' addr (htons port) = left /\
  (forall a p, (a, p) <> (addr, htons port) -> handlers w' a p = handlers w a p) /\
  (forall s, s ∈ mcast w -> group s = (addr, htons port) -> left = [] ->
     mclosed w' = mclosed w ++ [ms_fd s] /\ unwatched (mtable w') (ms_fd s) /\
     (forall x, x <> ms_fd s -> entry (mtable w') x = entry (mtable w) x)) /\
  (left <> [] \/ handlers w addr (htons port) = [] -> mclosed w' = mclosed w /\ mtable w' = mtable w).
Proof.
  intros Hwf w' left. pose proof (find_handlers w addr (htons port) Hwf) as Hh.
  destruct (find_state (mcast w) addr (htons port)) as [s|] eqn:E.
  2:{ unfold w', left, cmd_remove_multicast_handler, find_mcast_state. rewrite E, (proj2 Hh eq_refl).
      split_and!; try done. intros s Hin Hg. apply find_state_None in E.
      contradict E. apply list_elem_of_fmap. by exists s. }
  apply find_state_Some in E as (l1 & l2 & E & Hg). destruct w as [l t j c]. cbn [mcast mtable joined mclosed] in *.
  subst l. assert (Hin : s ∈ l1 ++ s :: l2) by set_solver.
  unfold w'. rewrite (remove_eq l1 l2 s t j c addr port num Hwf Hg).
  assert (El : left = filter (fun c => mc_cmdNum c <> num) (ms_cmds s))
    by (unfold left; by rewrite (handlers_at _ s _ _ Hwf Hin Hg)).
  rewrite <- El. destruct (bool_decide_reflect (left = [])) as [Ec|Ec].
  - destruct (drop_group_wf l1 l2 s t j c Hwf) as (D1 & D2 & D3).
    assert (Ea : srcAddr s = addr) by (unfold group in Hg; congruence). rewrite Ea in D1, D2, D3.
    split_and!; try done.
    + rewrite Ec. apply (find_handlers _ _ _ D1). cbn [drop_socket mcast].
      destruct (find_state (l1 ++ l2) addr (htons port)) as [x|] eqn:Ex; [|done]. exfalso.
      apply find_state_Some in Ex as (k1 & k2 & Ek & Hx).
      destruct (nodup_middle _ _ _ _ (mw_groups _ Hwf)) as [Hng _]. apply Hng.
      apply list_elem_of_fmap. exists x. rewrite Ek. split; [congruence|set_solver].
    + intros a p Hne. apply handlers_other; [congruence|by left].
    + intros x Hx Gx _. by rewrite (group_unique _ s x _ Hwf Hin Hx Hg Gx).
    + intros [Hn|Hn]; [done|]. exfalso. apply Hh in Hn. done.
  - assert (Hwf' : mw_wf (MW (l1 ++ with_cmds s left :: l2) t j c)) by (by apply replace_wf).
    split_and!; try done.
    + by rewrite (handlers_at _ (with_cmds s left) _ _ Hwf') by (set_solver || done).
    + intros a p Hne. apply handlers_other; [congruence|right; by exists (with_cmds s left)].
Qed.

(** Cleaning up takes every state and its socket, in the order of the list. *)
Lemma cleanup_states_spec l t j c :
  mw_wf (MW l t j c) ->
  let w' := cmd_cleanup_cb_state (MW l t j c) in
  mw_wf w' /\ mcast w' = [] /\ joined w' = [] /\ mclosed w' = c ++ (ms_fd <$> l) /\
  (forall x, x ∈ ms_fd <$> l -> unwatched (mtable w') x) /\
  (forall x, x ∉ ms_fd <$> l -> entry (mtable w') x = entry t x).
Proof.
  unfold cmd_cleanup_cb_state. cbn [mcast]. revert t j c. induction l as [|s l IH]; intros t j c Hwf.
  - cbn. rewrite app_nil_r. split_and!; try done; [|set_solver].
    pose proof (mw_joined _ Hwf) as J. cbn in J. by apply Permutation_nil_r in J.
  - destruct (drop_group_wf [] l s t j c Hwf) as (D1 & D2 & D3). cbn [app] in D1, D2, D3.
    pose proof (mw_live _ Hwf) as L. cbn [mcast] in L. apply list.Forall_cons in L as [[Hf _] _].
    pose proof (nodup_middle ms_fd [] l s (mw_fds _ Hwf)) as [Hnew _]. cbn [app] in Hnew.
    cbn [cleanup_states]. rewrite (proj2 (Z.ltb_lt _ _) Hf). unfold drop_socket in *.
    cbn [mcast mtable joined mclosed] in *.
    destruct (IH _ _ _ D1) as (I1 & I2 & I3 & I4 & I5 & I6). split_and!; try done.
    + by rewrite I4, fmap_cons, <- app_assoc.
    + intros x. rewrite fmap_cons, elem_of_cons. intros [->|Hx]; [|by apply I5].
      unfold unwatched. by rewrite I6.
    + intros x. rewrite fmap_cons, not_elem_of_cons. intros [Hx1 Hx2]. by rewrite I6, D3.
Qed.

Lemma cleanup_all w :
  mw_wf w ->
  let w' := cmd_cleanup_cb_state w in
  mw_wf w' /\ mcast w' = [] /\ joined w' = [] /\ mclosed w' = mclosed w ++ (ms_fd <$> mcast w) /\
  (forall x, x ∈ ms_fd <$> mcast w -> unwatched (mtable w') x).
Proof. destruct w as [l t j c]. intros Hwf. destruct (cleanup_states_spec l t j c Hwf) as (?&?&?&?&?&_). done. Qed.

(** Subscriptions to multicast packets: each service that has handlers
    has one socket, which is joined to its group and watched for reading
    without keeping the process alive, and no other.  Subscribing puts the
    handler first and opens a socket for the first one only; unsubscribing
    takes all handlers of the number and, with the last, leaves the group,
    stops watching and closes; neither touches another service.  Cleaning up
    closes every socket once.  A packet reaches exactly the handlers of its
    command number and those for all numbers, newest first. *)
Theorem multicast_correct w addr port num h arg mem sock :
  mw_wf w -> addr <> 0 -> port <> 0 -> 0 < sock -> mem ∉ ms_id <$> mcast w -> entry (mtable w) sock = None ->
  let here := handlers w addr (htons port) in
  let left := filter (fun c => mc_cmdNum c <> num) here in
  let w1 := cmd_set_multicast_handler w addr port num h arg mem sock true true in
  let w2 := cmd_remove_multicast_handler w addr port num in
  let w3 := cmd_cleanup_cb_state w in
  (mw_wf w1 /\ handlers w1 addr (htons port) = MCmd num h arg :: here /\
   joined w1 = (if bool_decide (here = []) then [(sock, addr)] else []) ++ joined w /\ mclosed w1 = mclosed w) /\
  (mw_wf w2 /\ handlers w2 addr (htons port) = left /\
   (left <> [] \/ here = [] -> mclosed w2 = mclosed w /\ mtable w2 = mtable w) /\
   (forall s, s ∈ mcast w -> group s = (addr, htons port) -> left = [] ->
      mclosed w2 = mclosed w ++ [ms_fd s] /\ unwatched (mtable w2) (ms_fd s) /\
      (forall x, x <> ms_fd s -> entry (mtable w2) x = entry (mtable w) x))) /\
  (forall a p, (a, p) <> (addr, htons port) ->
     handlers w1 a p = handlers w a p /\ handlers w2 a p = handlers w a p) /\
  (mw_wf w3 /\ mcast w3 = [] /\ joined w3 = [] /\ mclosed w3 = mclosed w ++ (ms_fd <$> mcast w) /\
   forall x, x ∈ ms_fd <$> mcast w -> unwatched (mtable w3) x) /\
  (forall s b data, s ∈ mcast w ->
     (multicast_cmd_handler_cb s true (b :: data)).2 =
       (fun c => (mc_callback c, mc_param c, b, data)) <$>
         filter (fun c => mc_cmdNum c < 0 \/ mc_cmdNum c = b) (handlers w (srcAddr s) (ms_port s))).
Proof.
  intros Hwf Ha Hp Hs Hm He here left w1 w2 w3.
  destruct (set_handler_spec w addr port num h arg mem sock Hwf Ha Hp Hs Hm He) as (S1 & S2 & S3 & S4 & S5).
  destruct (remove_handler_spec w addr port num Hwf) as (R1 & R2 & R3 & R4 & R5).
  destruct (cleanup_all w Hwf) as (C1 & C2 & C3 & C4 & C5). split_and!; try done.
  - intros a p Hne. split; [by apply S3|by apply R3].
  - intros s b data Hin. cbn [multicast_cmd_handler_cb snd]. by rewrite (handlers_at w s _ _ Hwf Hin eq_refl).
Qed.

(** ** Witness *)

Definition demo_mw : mworld := MW [] (fds_init 19) [] [].

Lemma demo_mw_wf : mw_wf demo_mw.
Proof. split; first [by apply fds_init_wf|constructor]. Qed.

(** The first subscription to 224.0.0.1, port 53, on socket 5. *)
Lemma multicast_correct_witness :
  handlers (cmd_set_multicast_handler demo_mw 16777440 53 7 100 200 1 5 true true) 16777440 (htons 53)
  = [MCmd 7 100 200].
Proof.
  destruct (multicast_correct demo_mw 16777440 53 7 100 200 1 5) as ((_ & H & _) & _);
    [apply demo_mw_wf|done..|apply not_elem_of_nil|reflexivity|exact H].
Defined.

(** Two handlers, a packet for one of them, and the end of both. *)
Example multicast_demo :
  let w1 := cmd_set_multicast_handler demo_mw 16777440 53 7 100 200 1 5 true true in
  let w2 := cmd_set_multicast_handler w1 16777440 53 8 101 201 2 6 true true in
  (fun s => multicast_cmd_handler_cb s true [8; 42]) <$> mcast w2 = [(EVENT_KEEP, [(101, 201, 8, [42])])] /\
  mclosed (cmd_remove_multicast_handler (cmd_remove_multicast_handler w2 16777440 53 7) 16777440 53 8) = [5].
Proof. vm_compute. done. Qed.
