(* ===== verification/Json.v ===== *)
(** * The JSON reader (json.c)

    The debugger of the event loop is sent commands as flat JSON objects.
    json.c scans them with one state machine, which calls back for each
    property, and three functions that pick a property of a name.  The text is
    a list of bytes and a pointer into it an offset; a read outside the text is
    a fault ([None]).  The buffers of [json_setup_cb] hold the strings they
    are filled with, a zero follows. *)

From stdpp Require Import base list sets numbers.
From Stdlib Require Import ZArith Lia.
From S2P Require Import Prelude Words CStr.
Open Scope Z_scope.

(** ** Data *)

Inductive JSONParserMode :=
  START_OBJ | END_OBJ | START_PROP | END_PROP | END_JSON | KEY_QUOTED_ACCUM | VAL_QUOTED_ACCUM | KVP_SEP
| START_VAL | VAL_ACCUM.

Inductive JSONParserResult :=
  PARSE_GOOD | PARSE_NO_ROOT_OBJ | PARSE_STRAY_OBJ | PARSE_UNKNOWN_ERR | PARSE_STRAY_END_OBJ | PARSE_STRAY_QUOTE
| PARSE_STRAY_COLIN.

#[export] Instance JSONParserMode_eq_dec : EqDecision JSONParserMode.
Proof. solve_decision. Defined.

Definition result_code (r : JSONParserResult) : Z :=
  match r with
  | PARSE_GOOD => 0 | PARSE_NO_ROOT_OBJ => 1 | PARSE_STRAY_OBJ => 2 | PARSE_UNKNOWN_ERR => 3
  | PARSE_STRAY_END_OBJ => 4 | PARSE_STRAY_QUOTE => 5 | PARSE_STRAY_COLIN => 6
  end.

(** The local variables of [json_iterate_props]. *)
Record scanner := Scan {
  mode : JSONParserMode;
  key_start : option Z;
  key_end : option Z;
  val_start : option Z;
  val_end : option Z
}.

Definition with_mode (s : scanner) (m : JSONParserMode) : scanner :=
  Scan m (key_start s) (key_end s) (val_start s) (val_end s).

Definition QUOTE : Z := 34.
Definition is_ws (c : Z) : bool := (c =? 32) || (c =? 9) || (c =? 13) || (c =? 10).

(** ** Operations *)

(** [len] bytes from offset [p]. *)
Definition read_at (json : list Z) (p len : Z) : option (list Z) :=
  if (0 <=? p) && (0 <=? len) && (p + len <=? zlen json) then Some (take (Z.to_nat len) (drop (Z.to_nat p) json))
  else None.

(** [memcpy] of [len] bytes to a buffer of [room]; the comparison of the int
    with a [sizeof] is one of 64-bit unsigned numbers. *)
Definition copy_limited (json : list Z) (p len room : Z) : option (list Z) :=
  read_at json p (if room <=? u64 len then room - 1 else len).

Definition json_setup_cb (json : list Z) (s : scanner) : option (list Z * list Z) :=
  ks ← key_start s; ke ← key_end s; vs ← val_start s; ve ← val_end s;
  key ← copy_limited json (ks + 1) (ke - ks - 1) 512;
  c ← json !! Z.to_nat vs;
  val ← (if c =? QUOTE then copy_limited json (vs + 1) (ve - vs - 1) 2048
         else copy_limited json vs (ve - vs + 1) 2048);
  Some (key, val).

Section Scan.
Context {A : Type} (itr : A -> list Z -> list Z -> A).

(** A value without quotes ends before [i]. *)
Definition end_bare (json : list Z) (i : Z) (s : scanner) (a : A) : option (scanner * A) :=
  if decide (mode s = VAL_ACCUM) then
    let s' := Scan END_PROP (key_start s) (key_end s) (val_start s) (Some (i - 1)) in
    kv ← json_setup_cb json s'; Some (s', itr a kv.1 kv.2)
  else Some (s, a).

Definition quoted (s : scanner) : bool :=
  bool_decide (mode s = KEY_QUOTED_ACCUM) || bool_decide (mode s = VAL_QUOTED_ACCUM).

(** One character, at offset [i]: an error or the next state. *)
Definition json_char (json : list Z) (i c : Z) (s : scanner) (a : A) : option (JSONParserResult * A + scanner * A) :=
  if is_ws c then
    r ← end_bare json i s a; Some (inr r)
  else if c =? 123 (* { *) then
    Some (if decide (mode s = START_OBJ) then inr (with_mode s START_PROP, a)
          else if quoted s then inr (s, a) else inl (PARSE_STRAY_OBJ, a))
  else if c =? 125 (* } *) then
    '(s, a) ← end_bare json i s a;
    Some (if decide (mode s = START_PROP \/ mode s = END_PROP) then inr (with_mode s END_JSON, a)
          else if quoted s then inr (s, a) else inl (PARSE_STRAY_END_OBJ, a))
  else if c =? QUOTE then
    match mode s with
    | START_PROP => Some (inr (Scan KEY_QUOTED_ACCUM (Some i) None None None, a))
    | KEY_QUOTED_ACCUM => Some (inr (Scan KVP_SEP (key_start s) (Some i) (val_start s) (val_end s), a))
    | START_VAL => Some (inr (Scan VAL_QUOTED_ACCUM (key_start s) (key_end s) (Some i) (val_end s), a))
    | VAL_QUOTED_ACCUM =>
        let s' := Scan END_PROP (key_start s) (key_end s) (val_start s) (Some i) in
        kv ← json_setup_cb json s'; Some (inr (s', itr a kv.1 kv.2))
    | _ => Some (inl (PARSE_STRAY_QUOTE, a))
    end
  else if c =? 44 (* , *) then
    '(s, a) ← end_bare json i s a;
    Some (inr (if decide (mode s = END_PROP) then with_mode s START_PROP else s, a))
  else if c =? 58 (* : *) then
    Some (if decide (mode s = KVP_SEP) then inr (with_mode s START_VAL, a)
          else if quoted s then inr (s, a) else inl (PARSE_STRAY_COLIN, a))
  else
    Some (inr (if decide (mode s = START_VAL) then Scan VAL_ACCUM (key_start s) (key_end s) (Some i) (val_end s) else s, a)).

Fixpoint scan_props (json : list Z) (i : Z) (rest : list Z) (s : scanner) (a : A) : option (JSONParserResult * A) :=
  match rest with
  | [] => Some (match mode s with END_JSON => PARSE_GOOD | START_OBJ => PARSE_NO_ROOT_OBJ | _ => PARSE_UNKNOWN_ERR end, a)
  | c :: rest' =>
      r ← json_char json i c s a;
      match r with
      | inl e => Some e
      | inr (s', a') => scan_props json (i + 1) rest' s' a'
      end
  end.

Definition json_iterate_props (json : list Z) (a : A) : option (JSONParserResult * A) :=
  scan_props json 0 json (Scan START_OBJ None None None None) a.

End Scan.

(** [!strcmp(prop, name)] *)
Definition same_prop (prop name : list Z) : bool := bool_decide (cstr prop = cstr name).

(** The iterators keep the value and whether one was found. *)
Definition json_int_itr_cb (prop : list Z) (st : Z * bool) (name val : list Z) : Z * bool :=
  if same_prop prop name then (s32 (atol val), true) else st.

Definition json_ptr_itr_cb (prop : list Z) (st : Z * bool) (name val : list Z) : Z * bool :=
  if same_prop prop name then ((strtol val 0).1, true) else st.

Definition json_str_itr_cb (prop : list Z) (st : option (list Z)) (name val : list Z) : option (list Z) :=
  if same_prop prop name then Some (cstr val) else st.

(** The getters return the code and what they store; NULL arguments are
    [None], and [out] says whether there is a place for the result. *)
Definition json_get_string_prop (json : option (list Z)) (prop : option (list Z)) (out : bool)
    : option (Z * option (option (list Z))) :=
  match json, prop, out with
  | Some j, Some p, true =>
      '(err, val) ← json_iterate_props (json_str_itr_cb p) j None;
      Some (match err with PARSE_GOOD => (0, Some val) | _ => (- result_code err, None) end)
  | _, _, _ => Some (-1, None)
  end.

Definition json_get_int_prop (json : option (list Z)) (prop : option (list Z)) (out : bool) : option (Z * option Z) :=
  match json, prop, out with
  | Some j, Some p, true =>
      '(err, (val, found)) ← json_iterate_props (json_int_itr_cb p) j (0, false);
      Some (match err with
            | PARSE_GOOD => if (found : bool) then (0, Some val) else (-2, None)
            | _ => (- result_code err, None)
            end)
  | _, _, _ => Some (-1, None)
  end.

Definition json_get_ptr_prop (json : option (list Z)) (prop : option (list Z)) (out : bool) : option (Z * option Z) :=
  match json, prop, out with
  | Some j, Some p, true =>
      '(err, (val, found)) ← json_iterate_props (json_ptr_itr_cb p) j (0, false);
      Some (match err with
            | PARSE_GOOD => if (found : bool) then (0, Some val) else (-2, None)
            | _ => (- result_code err, None)
            end)
  | _, _, _ => Some (-1, None)
  end.

(** ** Flat objects

    The texts the reader is for: members with a quoted or a bare value, and
    white space between the tokens. *)

Inductive value := Quoted (s : list Z) | Bare (s : list Z).

Record member := Member { m_key : list Z; m_val : value; sp1 : list Z; sp2 : list Z; sp3 : list Z; sp4 : list Z }.

Definition value_bytes (v : value) : list Z := match v with Quoted s => s | Bare s => s end.
Definition value_text (v : value) : list Z := match v with Quoted s => QUOTE :: s ++ [QUOTE] | Bare s => s end.

Definition member_text (m : member) : list Z :=
  sp1 m ++ QUOTE :: m_key m ++ QUOTE :: sp2 m ++ 58 :: sp3 m ++ value_text (m_val m) ++ sp4 m.

Fixpoint members_text (ms : list member) : list Z :=
  match ms with
  | [] => []
  | [m] => member_text m
  | m :: ms' => member_text m ++ 44 :: members_text ms'
  end.

Definition object_text (before inside after : list Z) (ms : list member) : list Z :=
  before ++ 123 :: members_text ms ++ inside ++ 125 :: after.

(** A character with no meaning of its own. *)
Definition plain (c : Z) : bool :=
  negb (is_ws c) && negb (c =? 123) && negb (c =? 125) && negb (c =? QUOTE) && negb (c =? 44) && negb (c =? 58).

Definition spaces (w : list Z) : Prop := Forall (fun c => is_ws c = true) w.

Definition member_ok (m : member) : Prop :=
  QUOTE ∉ m_key m /\ spaces (sp1 m) /\ spaces (sp2 m) /\ spaces (sp3 m) /\ spaces (sp4 m) /\
  match m_val m with
  | Quoted s => QUOTE ∉ s
  | Bare s => s <> [] /\ Forall (fun c => plain c = true) s
  end.

(** ** Scanning *)

Section Scanning.
Context {A : Type} (itr : A -> list Z -> list Z -> A).

(** The scanner with [pre] behind it and [t] ahead. *)
Definition scan_at (pre t : list Z) (s : scanner) (a : A) : option (JSONParserResult * A) :=
  scan_props itr (pre ++ t) (zlen pre) t s a.

Definition member_call (a : A) (m : member) : A := itr a (take 511 (m_key m)) (take 2047 (value_bytes (m_val m))).

Lemma scan_one pre c t s a s' a' :
  json_char itr (pre ++ c :: t) (zlen pre) c s a = Some (inr (s', a')) ->
  scan_at pre (c :: t) s a = scan_at (pre ++ [c]) t s' a'.
Proof.
  intros H. unfold scan_at. cbn [scan_props]. rewrite H. cbn [mbind option_bind].
  rewrite <- app_assoc, length_app. cbn [app length]. f_equal. lia.
Qed.

(** Characters that leave the state as it is. *)
Lemma scan_skip pre w t s a :
  (forall c json i, c ∈ w -> json_char itr json i c s a = Some (inr (s, a))) ->
  scan_at pre (w ++ t) s a = scan_at (pre ++ w) t s a.
Proof.
  revert pre. induction w as [|c w IH]; intros pre H; [by rewrite app_nil_r|]. cbn [app].
  rewrite (scan_one pre c (w ++ t) s a s a) by (apply H, elem_of_cons; by left).
  rewrite IH by (intros d json i Hd; apply H, elem_of_cons; by right). by rewrite <- app_assoc.
Qed.

Lemma end_bare_other json i s a : mode s <> VAL_ACCUM -> end_bare itr json i s a = Some (s, a).
Proof. intros H. unfold end_bare. by rewrite decide_False. Qed.

Lemma scan_spaces pre w t s a :
  spaces w -> mode s <> VAL_ACCUM -> scan_at pre (w ++ t) s a = scan_at (pre ++ w) t s a.
Proof.
  intros Hw Hm. apply scan_skip. intros c json i Hc. unfold spaces in Hw. rewrite list.Forall_forall in Hw.
  unfold json_char. rewrite (Hw c Hc), end_bare_other by done. done.
Qed.

Lemma scan_string pre w t s a :
  QUOTE ∉ w -> quoted s = true -> scan_at pre (w ++ t) s a = scan_at (pre ++ w) t s a.
Proof.
  intros Hw Hq. apply scan_skip. intros c json i Hc. assert (Hne : c <> QUOTE) by (intros ->; done).
  assert (Hm : mode s = KEY_QUOTED_ACCUM \/ mode s = VAL_QUOTED_ACCUM)
    by (unfold quoted in Hq; apply orb_true_iff in Hq as [H|H]; apply bool_decide_eq_true in H; auto).
  unfold json_char. rewrite end_bare_other, (proj2 (Z.eqb_neq _ _) Hne), Hq by (destruct Hm; congruence).
  cbn [mbind option_bind]. rewrite !decide_False by (destruct Hm; naive_solver congruence).
  by repeat case_match.
Qed.

Lemma scan_bare pre w t s a :
  Forall (fun c => plain c = true) w -> mode s = VAL_ACCUM -> scan_at pre (w ++ t) s a = scan_at (pre ++ w) t s a.
Proof.
  intros Hw Hm. apply scan_skip. intros c json i Hc. rewrite list.Forall_forall in Hw. specialize (Hw c Hc).
  unfold plain in Hw. rewrite !andb_true_iff, !negb_true_iff in Hw. destruct Hw as (((((H1 & H2) & H3) & H4) & H5) & H6).
  unfold json_char. rewrite H1, H2, H3, H4, H5, H6, Hm. done.
Qed.

Lemma copy_middle pre k t room :
  0 < room < 2 ^ 31 -> zlen (pre ++ k ++ t) < 2 ^ 31 ->
  copy_limited (pre ++ k ++ t) (zlen pre) (zlen k) room = Some (take (Z.to_nat (room - 1)) k).
Proof.
  intros Hr Hl. rewrite !length_app in Hl. unfold copy_limited. unfold u64. rewrite Z.mod_small by lia.
  assert (H : forall n, 0 <= n <= zlen k -> read_at (pre ++ k ++ t) (zlen pre) n = Some (take (Z.to_nat n) k)).
  { intros n Hn. unfold read_at. rewrite !length_app.
    rewrite !(proj2 (Z.leb_le _ _)) by lia. cbn [andb].
    rewrite Nat2Z.id, drop_app_length, take_app_le by lia. done. }
  destruct (Z.leb_spec room (zlen k)); rewrite H by lia; [done|]. by rewrite Nat2Z.id, !take_ge by lia.
Qed.

(** The copies for a member with its key at [pre]. *)
Lemma setup_value pre k mid v t s :
  let vt := value_text v in
  let json := pre ++ QUOTE :: k ++ QUOTE :: mid ++ vt ++ t in
  let vs := zlen pre + 1 + zlen k + 1 + zlen mid in
  zlen json < 2 ^ 31 ->
  (match v with Bare s => s <> [] /\ Forall (fun c => plain c = true) s | Quoted _ => True end) ->
  key_start s = Some (zlen pre) -> key_end s = Some (zlen pre + 1 + zlen k) ->
  val_start s = Some vs -> val_end s = Some (vs + zlen vt - 1) ->
  json_setup_cb json s = Some (take 511 k, take 2047 (value_bytes v)).
Proof.
  intros vt json vs Hl Hv E1 E2 E3 E4. unfold json_setup_cb. rewrite E1, E2, E3, E4. cbn [mbind option_bind].
  assert (J1 : json = (pre ++ [QUOTE]) ++ k ++ (QUOTE :: mid ++ vt ++ t)) by (unfold json; by rewrite <- app_assoc).
  set (pv := pre ++ QUOTE :: k ++ QUOTE :: mid).
  assert (J2 : json = pv ++ vt ++ t) by (unfold json, pv; repeat (rewrite <- app_assoc; cbn [app]); done).
  assert (Hpv : zlen pv = vs) by (unfold pv, vs; rewrite length_app; cbn [length]; rewrite length_app; cbn [length]; lia).
  replace (zlen pre + 1) with (zlen (pre ++ [QUOTE])) by (rewrite length_app; cbn [length]; lia).
  replace (zlen (pre ++ [QUOTE]) + zlen k - zlen pre - 1) with (zlen k) by (rewrite length_app; cbn [length]; lia).
  rewrite J1 at 1. rewrite copy_middle by (rewrite <- ?J1; lia). cbn [mbind option_bind].
  rewrite <- Hpv, Nat2Z.id. rewrite J2 at 1. rewrite lookup_app_r, Nat.sub_diag by lia.
  assert (L0 : forall (x : Z) l, (x :: l) !! 0%nat = Some x) by done.
  rewrite J2 in Hl |- *. clear J1 J2 json E3 E4 Hpv vs. subst vt. destruct v as [q|q]; cbn [value_text value_bytes app].
  - rewrite L0. cbn [mbind option_bind]. change (QUOTE =? QUOTE) with true. cbv iota.
    replace (zlen pv + 1) with (zlen (pv ++ [QUOTE])) by (rewrite length_app; cbn [length]; lia).
    replace (zlen pv + zlen (QUOTE :: q ++ [QUOTE]) - 1 - zlen pv - 1) with (zlen q)
      by (cbn [length]; rewrite length_app; cbn [length]; lia).
    assert (J : pv ++ QUOTE :: (q ++ [QUOTE]) ++ t = (pv ++ [QUOTE]) ++ q ++ (QUOTE :: t)) by (by rewrite <- !app_assoc).
    cbn [value_text app] in Hl. rewrite J in Hl |- *. by rewrite copy_middle.
  - destruct Hv as [Hne Hp]. destruct q as [|c q]; [done|]. cbn [app].
    apply list.Forall_cons in Hp as [Hc _]. unfold plain in Hc. rewrite !andb_true_iff, !negb_true_iff in Hc.
    destruct Hc as (((_ & Hq) & _) & _). rewrite L0. cbn [mbind option_bind]. rewrite Hq.
    replace (zlen pv + zlen (c :: q) - 1 - zlen pv + 1) with (zlen (c :: q)) by lia.
    change (c :: q ++ t) with ((c :: q) ++ t). by rewrite copy_middle.
Qed.

(** What ends a bare value. *)
Definition delim (t : list Z) : Prop :=
  exists d t', t = d :: t' /\ (is_ws d = true \/ d = 44 \/ d = 125).

(** A bare value that ends here has the effect of one that has ended. *)
Lemma end_bare_here pre t s a s' key val :
  delim t -> mode s = VAL_ACCUM -> s' = Scan END_PROP (key_start s) (key_end s) (val_start s) (Some (zlen pre - 1)) ->
  json_setup_cb (pre ++ t) s' = Some (key, val) ->
  scan_at pre t s a = scan_at pre t s' (itr a key val).
Proof.
  intros (d & t' & -> & Hd) Hm Es Hk. unfold scan_at. cbn [scan_props].
  assert (E1 : end_bare itr (pre ++ d :: t') (zlen pre) s a = Some (s', itr a key val)).
  { unfold end_bare. rewrite decide_True by done. rewrite <- Es, Hk. done. }
  assert (E2 : end_bare itr (pre ++ d :: t') (zlen pre) s' (itr a key val) = Some (s', itr a key val))
    by (apply end_bare_other; by rewrite Es).
  unfold json_char. rewrite E1, E2. destruct Hd as [->|[->| ->]]; reflexivity.
Qed.

Definition value_ok (v : value) : Prop :=
  match v with Quoted s => QUOTE ∉ s | Bare s => s <> [] /\ Forall (fun c => plain c = true) s end.

Lemma plain_first c json i s a :
  plain c = true -> mode s = START_VAL ->
  json_char itr json i c s a = Some (inr (Scan VAL_ACCUM (key_start s) (key_end s) (Some i) (val_end s), a)).
Proof.
  unfold plain. rewrite !andb_true_iff, !negb_true_iff. intros (((((H1 & H2) & H3) & H4) & H5) & H6) Hm.
  unfold json_char. by rewrite H1, H2, H3, H4, H5, H6, decide_True.
Qed.

Lemma scan_value pre k mid v t s a :
  let before := pre ++ QUOTE :: k ++ QUOTE :: mid in
  zlen (before ++ value_text v ++ t) < 2 ^ 31 -> value_ok v -> delim t -> mode s = START_VAL ->
  key_start s = Some (zlen pre) -> key_end s = Some (zlen pre + 1 + zlen k) ->
  exists s', mode s' = END_PROP /\
    scan_at before (value_text v ++ t) s a =
    scan_at (before ++ value_text v) t s' (itr a (take 511 k) (take 2047 (value_bytes v))).
Proof.
  intros before Hl Hv Hd Hm E1 E2.
  assert (Hb : zlen before = zlen pre + 1 + zlen k + 1 + zlen mid)
    by (unfold before; rewrite length_app; cbn [length]; rewrite length_app; cbn [length]; lia).
  assert (Hj : before ++ value_text v ++ t = pre ++ QUOTE :: k ++ QUOTE :: mid ++ value_text v ++ t)
    by (unfold before; repeat (rewrite <- app_assoc; cbn [app]); done).
  pose proof (setup_value pre k mid v t) as Hset. cbv zeta in Hset. rewrite <- Hj in Hset.
  set (s' := Scan END_PROP (key_start s) (key_end s) (Some (zlen before)) (Some (zlen before + zlen (value_text v) - 1))).
  specialize (Hset s' Hl ltac:(destruct v; done) E1 E2 ltac:(by rewrite <- Hb) ltac:(by rewrite <- Hb)).
  exists s'. split; [done|]. clear Hj Hb. destruct v as [q|q]; cbn [value_text value_ok value_bytes] in *.
  - cbn [app]. rewrite <- app_assoc. cbn [app].
    rewrite (scan_one _ _ _ _ _ (Scan VAL_QUOTED_ACCUM (key_start s) (key_end s) (Some (zlen before)) (val_end s)) a)
      by (unfold json_char; by rewrite Hm).
    rewrite scan_string by done.
    rewrite (scan_one _ _ _ _ _ s' (itr a (take 511 k) (take 2047 q))); [by rewrite <- !app_assoc|].
    unfold json_char. cbn [mode key_start key_end val_start val_end].
    replace (zlen ((before ++ [QUOTE]) ++ q)) with (zlen before + zlen (QUOTE :: q ++ [QUOTE]) - 1)
      by (rewrite !length_app; cbn [length]; rewrite length_app; cbn [length]; lia).
    replace (((before ++ [QUOTE]) ++ q) ++ QUOTE :: t) with (before ++ (QUOTE :: q ++ [QUOTE]) ++ t)
      by (repeat (rewrite <- app_assoc; cbn [app]); done).
    fold s'. rewrite Hset. done.
  - destruct Hv as [Hne Hp]. destruct q as [|c q]; [done|]. apply list.Forall_cons in Hp as [Hc Hp]. cbn [app].
    rewrite (scan_one _ _ _ _ _ _ _ (plain_first c _ _ _ _ Hc Hm)). rewrite scan_bare by done.
    assert (Eb : (before ++ [c]) ++ q = before ++ c :: q) by (by rewrite <- app_assoc). rewrite Eb.
    apply end_bare_here; [done|done| |].
    + unfold s'. cbn [key_start key_end val_start]. do 2 f_equal. rewrite length_app. cbn [length]. lia.
    + by rewrite <- app_assoc.
Qed.

Lemma scan_key pre k t s a :
  QUOTE ∉ k -> mode s = START_PROP ->
  scan_at pre (QUOTE :: k ++ QUOTE :: t) s a =
  scan_at (pre ++ QUOTE :: k ++ [QUOTE]) t (Scan KVP_SEP (Some (zlen pre)) (Some (zlen pre + 1 + zlen k)) None None) a.
Proof.
  intros Hk Hm. rewrite (scan_one _ _ _ _ _ (Scan KEY_QUOTED_ACCUM (Some (zlen pre)) None None None) a)
    by (unfold json_char; by rewrite Hm).
  rewrite scan_string by done.
  rewrite (scan_one _ _ _ _ _ (Scan KVP_SEP (Some (zlen pre)) (Some (zlen pre + 1 + zlen k)) None None) a).
  - by rewrite <- !app_assoc.
  - unfold json_char. cbn [mode key_start key_end val_start val_end is_ws].
    do 6 f_equal. rewrite !length_app. cbn [length]. lia.
Qed.

Lemma delim_spaces w t : spaces w -> delim t -> delim (w ++ t).
Proof.
  intros Hw Hd. destruct w as [|c w]; [done|]. apply list.Forall_cons in Hw as [Hc _]. exists c, (w ++ t). auto.
Qed.

Lemma scan_member pre m t s a :
  zlen (pre ++ member_text m ++ t) < 2 ^ 31 -> member_ok m -> delim t -> mode s = START_PROP ->
  exists s', mode s' = END_PROP /\
    scan_at pre (member_text m ++ t) s a = scan_at (pre ++ member_text m) t s' (member_call a m).
Proof.
  intros Hl (Hk & H1 & H2 & H3 & H4 & Hv) Hd Hm. set (p1 := pre ++ sp1 m).
  set (mid := sp2 m ++ 58 :: sp3 m). set (before := p1 ++ QUOTE :: m_key m ++ QUOTE :: mid).
  assert (Etext : member_text m ++ t = sp1 m ++ QUOTE :: m_key m ++ QUOTE :: sp2 m ++ 58 :: sp3 m ++
      value_text (m_val m) ++ sp4 m ++ t) by (unfold member_text; repeat (rewrite <- app_assoc; cbn [app]); done).
  assert (Epre : pre ++ member_text m = (before ++ value_text (m_val m)) ++ sp4 m)
    by (unfold before, mid, p1, member_text; repeat (rewrite <- app_assoc; cbn [app]); done).
  set (s1 := Scan START_VAL (Some (zlen p1)) (Some (zlen p1 + 1 + zlen (m_key m))) None None).
  destruct (scan_value p1 (m_key m) mid (m_val m) (sp4 m ++ t) s1 a) as (s' & Hs' & E); try done.
  { fold before. rewrite app_assoc, app_assoc, <- Epre, <- app_assoc. done. }
  { by apply delim_spaces. }
  exists s'. split; [done|]. fold before in E. rewrite Etext, Epre, scan_spaces by (done || congruence).
  fold p1. rewrite scan_key, scan_spaces by done.
  rewrite (scan_one _ _ _ _ _ s1 a) by done. rewrite scan_spaces by done.
  replace ((((p1 ++ QUOTE :: m_key m ++ [QUOTE]) ++ sp2 m) ++ [58]) ++ sp3 m) with before
    by (unfold before, mid; repeat (rewrite <- app_assoc; cbn [app]); done).
  rewrite E, scan_spaces by (done || congruence). done.
Qed.

Lemma close_char json i s a :
  mode s = START_PROP \/ mode s = END_PROP ->
  json_char itr json i 125 s a = Some (inr (with_mode s END_JSON, a)).
Proof.
  intros Hm. transitivity ('(s, a) ← end_bare itr json i s a;
    Some (if decide (mode s = START_PROP \/ mode s = END_PROP) then inr (with_mode s END_JSON, a)
          else if quoted s then inr (s, a) else inl (PARSE_STRAY_END_OBJ, a))); [done|].
  rewrite end_bare_other by (destruct Hm; congruence). cbn [mbind option_bind]. by rewrite decide_True.
Qed.

Lemma comma_char json i s a :
  mode s = END_PROP -> json_char itr json i 44 s a = Some (inr (with_mode s START_PROP, a)).
Proof.
  intros Hm. transitivity ('(s, a) ← end_bare itr json i s a;
    Some (inr (A := JSONParserResult * A) (if decide (mode s = END_PROP) then with_mode s START_PROP else s, a))); [done|].
  rewrite end_bare_other by congruence. cbn [mbind option_bind]. by rewrite decide_True.
Qed.

Lemma scan_end pre inside after s a :
  spaces inside -> spaces after -> mode s = START_PROP \/ mode s = END_PROP ->
  scan_at pre (inside ++ 125 :: after) s a = Some (PARSE_GOOD, a).
Proof.
  intros Hi Ha Hm. rewrite scan_spaces by (done || destruct Hm; congruence).
  rewrite (scan_one _ _ _ _ _ _ _ (close_char _ _ s a Hm)).
  rewrite <- (app_nil_r after), scan_spaces by done. done.
Qed.

Lemma scan_members pre ms inside after s a :
  zlen (pre ++ members_text ms ++ inside ++ 125 :: after) < 2 ^ 31 -> Forall member_ok ms ->
  spaces inside -> spaces after -> mode s = START_PROP ->
  scan_at pre (members_text ms ++ inside ++ 125 :: after) s a = Some (PARSE_GOOD, foldl member_call a ms).
Proof.
  intros Hl Hms Hi Ha. revert pre s a Hl. induction Hms as [|m ms Hok Hms IH]; intros pre s a Hl Hm.
  - apply scan_end; auto.
  - assert (De : delim (inside ++ 125 :: after)) by (apply delim_spaces; [done|]; exists 125, after; auto).
    destruct ms as [|m' ms].
    + cbn [members_text foldl]. destruct (scan_member pre m (inside ++ 125 :: after) s a) as (s' & Hs' & ->); try done.
      apply scan_end; auto.
    + change (members_text (m :: m' :: ms)) with (member_text m ++ 44 :: members_text (m' :: ms)) in Hl |- *.
      rewrite <- app_assoc in Hl |- *. cbn [app] in Hl |- *. cbn [foldl].
      destruct (scan_member pre m (44 :: members_text (m' :: ms) ++ inside ++ 125 :: after) s a) as (s' & Hs' & ->);
        try done; [by eexists _, _; auto|].
      rewrite (scan_one _ _ _ _ _ _ _ (comma_char _ _ s' _ Hs')).
      apply IH; [|done]. rewrite <- !app_assoc. done.
Qed.

Lemma iterate_object before inside after ms a :
  let text := object_text before inside after ms in
  zlen text < 2 ^ 31 -> Forall member_ok ms -> spaces before -> spaces inside -> spaces after ->
  json_iterate_props itr text a = Some (PARSE_GOOD, foldl member_call a ms).
Proof.
  intros text Hl Hms Hb Hi Ha. unfold json_iterate_props.
  change (scan_at [] text (Scan START_OBJ None None None None) a = Some (PARSE_GOOD, foldl member_call a ms)).
  unfold text, object_text in *. rewrite scan_spaces by done.
  rewrite (scan_one _ _ _ _ _ (Scan START_PROP None None None None) a) by done.
  apply scan_members; try done. rewrite <- !app_assoc. done.
Qed.

End Scanning.

(** ** What the getters return *)

(** The value of the last member with the name. *)
Definition last_member (prop : list Z) (ms : list member) : option (list Z) :=
  foldl (fun o m => if same_prop prop (take 511 (m_key m)) then Some (take 2047 (value_bytes (m_val m))) else o) None ms.

Lemma last_member_fold {B} (g : B -> list Z -> list Z -> B) (enc : option (list Z) -> B) prop ms :
  (forall o k v, g (enc o) k v = enc (if same_prop prop k then Some v else o)) ->
  foldl (member_call g) (enc None) ms = enc (last_member prop ms).
Proof.
  intros H. unfold last_member. generalize (@None (list Z)). induction ms as [|m ms IH]; intros o; [done|].
  cbn [foldl]. unfold member_call at 2. by rewrite H, IH.
Qed.

Definition found_as (f : list Z -> Z) (o : option (list Z)) : Z * bool :=
  match o with Some v => (f v, true) | None => (0, false) end.

(** The getters, on the text of an object. *)
Lemma getters_object before inside after ms prop :
  let text := object_text before inside after ms in
  zlen text < 2 ^ 31 -> Forall member_ok ms -> spaces before -> spaces inside -> spaces after ->
  json_get_int_prop (Some text) (Some prop) true = Some
    (match last_member prop ms with Some v => (0, Some (s32 (atol v))) | None => (-2, None) end) /\
  json_get_ptr_prop (Some text) (Some prop) true = Some
    (match last_member prop ms with Some v => (0, Some (strtol v 0).1) | None => (-2, None) end) /\
  json_get_string_prop (Some text) (Some prop) true = Some (0, Some (cstr <$> last_member prop ms)).
Proof.
  intros text Hl Hms Hb Hi Ha.
  pose proof (last_member_fold (json_int_itr_cb prop) (found_as (fun v => s32 (atol v))) prop ms
    ltac:(intros o k v; unfold json_int_itr_cb; by destruct (same_prop prop k))) as Fi.
  pose proof (last_member_fold (json_ptr_itr_cb prop) (found_as (fun v => (strtol v 0).1)) prop ms
    ltac:(intros o k v; unfold json_ptr_itr_cb; by destruct (same_prop prop k))) as Fp.
  pose proof (last_member_fold (json_str_itr_cb prop) (fmap cstr) prop ms
    ltac:(intros o k v; unfold json_str_itr_cb; by destruct (same_prop prop k))) as Fs.
  cbn [found_as fmap option_fmap option_map] in Fi, Fp, Fs.
  unfold json_get_int_prop, json_get_ptr_prop, json_get_string_prop.
  rewrite !(iterate_object _ before inside after ms), Fi, Fp, Fs by done.
  split_and!; try done; by destruct (last_member prop ms).
Qed.

(** C27. Reading a flat JSON object of less than 2^31 bytes, whose keys and
    quoted values have no quote in them (so no escaped one, which the code
    takes for the end: [json_lenient]) and whose other values are plain
    characters: the iterator is called once per member, in order, with the key
    and the value (with or without quotes) cut to 511 and 2047 bytes, whatever
    white space stands between the tokens; the getters return the value of the
    last member of the name, and -2 when there is none (for strings: success
    and NULL). *)
Theorem json_object_correct {A} (itr : A -> list Z -> list Z -> A) (a : A) before inside after ms prop :
  let text := object_text before inside after ms in
  zlen text < 2 ^ 31 -> Forall member_ok ms -> spaces before -> spaces inside -> spaces after ->
  json_iterate_props itr text a = Some (PARSE_GOOD, foldl (member_call itr) a ms) /\
  json_get_int_prop (Some text) (Some prop) true = Some
    (match last_member prop ms with Some v => (0, Some (s32 (atol v))) | None => (-2, None) end) /\
  json_get_ptr_prop (Some text) (Some prop) true = Some
    (match last_member prop ms with Some v => (0, Some (strtol v 0).1) | None => (-2, None) end) /\
  json_get_string_prop (Some text) (Some prop) true = Some (0, Some (cstr <$> last_member prop ms)).
Proof.
  intros text Hl Hms Hb Hi Ha. split; [by apply iterate_object|by apply getters_object].
Qed.

(** ** Any text *)

(** Where the pointers of a state lead, at offset [i]. *)
Definition inside (json : list Z) (i : Z) (s : scanner) : Prop :=
  match mode s with
  | KEY_QUOTED_ACCUM => exists ks, key_start s = Some ks /\ 0 <= ks < i
  | KVP_SEP | START_VAL => exists ks ke, key_start s = Some ks /\ key_end s = Some ke /\ 0 <= ks < ke /\ ke < i
  | VAL_QUOTED_ACCUM | VAL_ACCUM =>
      exists ks ke vs c, key_start s = Some ks /\ key_end s = Some ke /\ val_start s = Some vs /\
        0 <= ks < ke /\ ke < vs < i /\ json !! Z.to_nat vs = Some c /\ (c = QUOTE <-> mode s = VAL_QUOTED_ACCUM)
  | _ => True
  end.

Lemma copy_safe json p len room :
  zlen json < 2 ^ 31 -> 0 < room < 2 ^ 31 -> 0 <= p -> 0 <= len -> p + len <= zlen json ->
  exists r, copy_limited json p len room = Some r /\ zlen r < room.
Proof.
  intros Hl Hr Hp Hn Hb. unfold copy_limited, read_at, u64. rewrite Z.mod_small by lia.
  destruct (Z.leb_spec room len); rewrite !(proj2 (Z.leb_le _ _)) by lia; eexists; (split; [reflexivity|]);
    rewrite length_take; lia.
Qed.

(** The strings given to an iterator. *)
Definition short (k v : list Z) : Prop := zlen k < 512 /\ zlen v < 2048.

(** Ending the value at [e]: the closing quote, or the last byte. *)
Lemma setup_safe json i s e :
  zlen json < 2 ^ 31 -> 0 <= i < zlen json -> inside json i s -> mode s = VAL_QUOTED_ACCUM \/ mode s = VAL_ACCUM ->
  e = (if decide (mode s = VAL_ACCUM) then i - 1 else i) ->
  exists k v, json_setup_cb json (Scan END_PROP (key_start s) (key_end s) (val_start s) (Some e)) = Some (k, v) /\ short k v.
Proof.
  intros Hl Hi Hin Hm He. unfold inside in Hin.
  assert (H : exists ks ke vs c, key_start s = Some ks /\ key_end s = Some ke /\ val_start s = Some vs /\
        0 <= ks < ke /\ ke < vs < i /\ json !! Z.to_nat vs = Some c /\ (c = QUOTE <-> mode s = VAL_QUOTED_ACCUM))
    by (destruct Hm as [Hm|Hm]; rewrite Hm in *; done).
  clear Hin. destruct H as (ks & ke & vs & c & E1 & E2 & E3 & B1 & B2 & Hc & Hq).
  unfold json_setup_cb. cbn [key_start key_end val_start val_end]. rewrite E1, E2, E3. cbn [mbind option_bind].
  destruct (copy_safe json (ks + 1) (ke - ks - 1) 512) as (k & -> & Lk); try lia. cbn [mbind option_bind].
  rewrite Hc. cbn [mbind option_bind].
  destruct (Z.eqb_spec c QUOTE) as [Eq|Eq]; destruct (decide (mode s = VAL_ACCUM)) as [Ea|Ea]; subst e.
  1: apply Hq in Eq; congruence.
  3: destruct Hm; [|done]; exfalso; tauto.
  - destruct (copy_safe json (vs + 1) (i - vs - 1) 2048) as (v & -> & Lv); try lia. by exists k, v.
  - destruct (copy_safe json vs (i - 1 - vs + 1) 2048) as (v & -> & Lv); try lia. by exists k, v.
Qed.

Section Safe.
Context {A : Type} (itr : A -> list Z -> list Z -> A) (P : A -> Prop).
Hypothesis itr_ok : forall a k v, P a -> short k v -> P (itr a k v).

Lemma inside_next json i s : inside json i s -> inside json (i + 1) s.
Proof. unfold inside. destruct (mode s); naive_solver lia. Qed.

Lemma inside_free json i s : mode s ∈ [START_OBJ; END_OBJ; START_PROP; END_PROP; END_JSON] -> inside json i s.
Proof. unfold inside. intros H. repeat (apply elem_of_cons in H as [->|H]; [done|]). by apply elem_of_nil in H. Qed.

Lemma end_bare_safe json i s a :
  zlen json < 2 ^ 31 -> 0 <= i < zlen json -> inside json i s -> P a ->
  exists s' a', end_bare itr json i s a = Some (s', a') /\ P a' /\ mode s' <> VAL_ACCUM /\
    inside json (i + 1) s' /\ (mode s <> VAL_ACCUM -> s' = s).
Proof.
  intros Hl Hi Hin Ha. unfold end_bare. destruct (decide (mode s = VAL_ACCUM)) as [E|E].
  - destruct (setup_safe json i s (i - 1)) as (k & v & -> & Hs); auto; [by rewrite decide_True|].
    eexists _, _. split; [reflexivity|]. split_and!; [by apply itr_ok|done|done|done].
  - exists s, a. split_and!; try done. by apply inside_next.
Qed.

Lemma json_char_safe json i c s a :
  zlen json < 2 ^ 31 -> 0 <= i < zlen json -> json !! Z.to_nat i = Some c -> inside json i s -> P a ->
  exists r, json_char itr json i c s a = Some r /\
    match r with inl (_, a') => P a' | inr (s', a') => P a' /\ inside json (i + 1) s' end.
Proof.
  intros Hl Hi Hc Hin Ha. pose proof (inside_next json i s Hin) as Hn.
  destruct (end_bare_safe json i s a Hl Hi Hin Ha) as (s' & a' & Hb & Ha' & _ & Hin' & _).
  unfold json_char. rewrite Hb. cbn [mbind option_bind].
  destruct (is_ws c); [by eexists|].
  destruct (c =? 123); [eexists; split; [done|]; repeat case_match; simplify_eq; auto; split; [done|]; apply inside_free; cbn; set_solver|].
  destruct (c =? 125); [eexists; split; [done|]; repeat case_match; simplify_eq; auto; split; [done|]; apply inside_free; cbn; set_solver|].
  destruct (Z.eqb_spec c QUOTE) as [->|Hq].
  - unfold inside in Hin. destruct (mode s) eqn:Hm; try (eexists; split; [done|]; done).
    + eexists; split; [done|]. split; [done|]. exists i. split; [done|lia].
    + destruct Hin as (ks & E & B). eexists; split; [done|]. split; [done|]. exists ks, i. split_and!; cbn; done || lia.
    + destruct (setup_safe json i s i) as (k & v & -> & Hs); auto;
        [unfold inside; by rewrite Hm|rewrite decide_False; congruence|].
      eexists; split; [done|]. split; [by apply itr_ok|done].
    + destruct Hin as (ks & ke & E1 & E2 & B1 & B2). eexists; split; [done|]. split; [done|].
      exists ks, ke, i, QUOTE. cbn. split_and!; done || lia.
  - destruct (c =? 44).
    + eexists; split; [done|]. split; [done|]. case_decide; [apply inside_free; set_solver|done].
    + destruct (c =? 58).
      * eexists; split; [done|]. repeat case_match; simplify_eq; auto. split; [done|].
        unfold inside in *. cbn [mode with_mode key_start key_end]. match goal with H : mode s = _ |- _ => rewrite H in Hn end. done.
      * eexists; split; [done|]. split; [done|]. case_decide as Hm; [|done].
        unfold inside in *. rewrite Hm in Hin. destruct Hin as (ks & ke & E1 & E2 & B1 & B2).
        exists ks, ke, i, c. cbn. split_and!; done || lia.
Qed.

Lemma scan_props_safe json pre rest s a :
  zlen json < 2 ^ 31 -> json = pre ++ rest -> inside json (zlen pre) s -> P a ->
  exists r a', scan_props itr json (zlen pre) rest s a = Some (r, a') /\ P a'.
Proof.
  intros Hl. revert pre s a. induction rest as [|c rest IH]; intros pre s a Hj Hin Ha; [by eexists _, _|].
  cbn [scan_props]. assert (Hlen : zlen json = zlen pre + 1 + zlen rest) by (rewrite Hj, length_app; cbn [length]; lia).
  destruct (json_char_safe json (zlen pre) c s a) as (r & -> & Hr); try done; [lia| |].
  { rewrite Hj, Nat2Z.id. by rewrite list_lookup_middle. }
  cbn [mbind option_bind]. destruct r as [[e a']|[s' a']]; [by exists e, a'|]. destruct Hr as [Ha' Hin'].
  replace (zlen pre + 1) with (zlen (pre ++ [c])) in * by (rewrite length_app; cbn [length]; lia).
  apply IH; try done. by rewrite <- app_assoc.
Qed.

Lemma iterate_safe json a :
  zlen json < 2 ^ 31 -> P a -> exists r a', json_iterate_props itr json a = Some (r, a') /\ P a'.
Proof. intros Hl Ha. by apply (scan_props_safe json [] json). Qed.

End Safe.

Definition code_ok {B} (r : option (Z * option B)) : Prop :=
  exists code out, r = Some (code, out) /\ -6 <= code <= 0 /\ (code = 0 <-> out <> None).

(** The JSON reader on any bytes: no read leaves the text, the copies of
    keys and values fit their buffers with their final zero, and each getter
    returns 0 with a result or an error between -6 and -1 without one. *)
Theorem json_safe json prop out :
  zlen json < 2 ^ 31 ->
  (exists r calls, json_iterate_props (fun l k v => l ++ [(k, v)]) json [] = Some (r, calls) /\
     Forall (fun kv => short kv.1 kv.2) calls) /\
  code_ok (json_get_int_prop (Some json) prop out) /\
  code_ok (json_get_ptr_prop (Some json) prop out) /\
  code_ok (json_get_string_prop (Some json) prop out).
Proof.
  intros Hl. split; [|split; [|split]].
  - apply (iterate_safe _ (Forall (fun kv => short kv.1 kv.2))); [|done|constructor].
    intros a k v Ha Hs. apply list.Forall_app. split; [done|]. by constructor.
  - unfold code_ok, json_get_int_prop. destruct prop as [p|], out; try (eexists _, _; split; [done|]; naive_solver lia).
    destruct (iterate_safe (json_int_itr_cb p) (fun _ => True) ltac:(done) json (0, false) Hl I) as (r & [v f] & -> & _).
    cbn. destruct r, f; eexists _, _; (split; [done|]); naive_solver lia.
  - unfold code_ok, json_get_ptr_prop. destruct prop as [p|], out; try (eexists _, _; split; [done|]; naive_solver lia).
    destruct (iterate_safe (json_ptr_itr_cb p) (fun _ => True) ltac:(done) json (0, false) Hl I) as (r & [v f] & -> & _).
    cbn. destruct r, f; eexists _, _; (split; [done|]); naive_solver lia.
  - unfold code_ok, json_get_string_prop. destruct prop as [p|], out; try (eexists _, _; split; [done|]; naive_solver lia).
    destruct (iterate_safe (json_str_itr_cb p) (fun _ => True) ltac:(done) json None Hl I) as (r & v & -> & _).
    cbn. destruct r; eexists _, _; (split; [done|]); naive_solver lia.
Qed.

(** ** Witnesses *)

(** [ {"ms" : 250, "id":"0x1f"} ] *)
Definition demo_members : list member :=
  [Member [109; 115] (Bare [50; 53; 48]) [] [32] [32] []; Member [105; 100] (Quoted [48; 120; 49; 102]) [32] [] [] []].

Lemma demo_members_ok : Forall member_ok demo_members.
Proof.
  repeat constructor; try discriminate; cbn [m_key]; by apply (bool_decide_unpack _).
Qed.

Lemma json_object_correct_witness :
  json_get_int_prop (Some (object_text [] [] [10] demo_members)) (Some [109; 115]) true = Some (0, Some 250) /\
  json_get_ptr_prop (Some (object_text [] [] [10] demo_members)) (Some [105; 100]) true = Some (0, Some 31).
Proof.
  destruct (json_object_correct (fun (n : nat) _ _ => S n) O [] [] [10] demo_members [109; 115]) as (_ & H1 & _ & _);
    [reflexivity|exact demo_members_ok|repeat constructor..|].
  destruct (json_object_correct (fun (n : nat) _ _ => S n) O [] [] [10] demo_members [105; 100]) as (_ & _ & H2 & _);
    [reflexivity|exact demo_members_ok|repeat constructor..|].
  rewrite H1, H2. split; reflexivity.
Defined.

Lemma json_safe_witness : code_ok (json_get_int_prop (Some [123; 34; 97]) (Some [97]) true).
Proof. apply (json_safe [123; 34; 97] (Some [97]) true). vm_compute. reflexivity. Defined.

(** Not JSON, and read without an error: characters after the object, stray
    commas, and a backslash that does not keep a quote from ending a string
    ([{"a":"\"}]). *)
Example json_lenient :
  json_get_int_prop (Some [123; 44; 44; 34; 97; 34; 120; 58; 55; 125; 120]) (Some [97]) true = Some (0, Some 7) /\
  json_get_string_prop (Some [123; 34; 97; 34; 58; 34; 92; 34; 125]) (Some [97]) true = Some (0, Some (Some [92])).
Proof. split; reflexivity. Qed.
