(* ===== verification/EventDebug.v ===== *)
(** * The debugger of the event loop (events.c)

    A debugger connects to a process and sends it commands as flat JSON objects:
    run, stop, single steps, breakpoints, and reports of the state, which are
    sent back as JSON.  This file models the commands ([edbg_client_msg]) over
    the state of EventLoop.v and the reader of Json.v, the two timed events the
    debugger itself schedules, and the text of the reports.

    The server that frames the messages is that of Zmqlite.v; here it is the
    number of its clients and the list of the reports that were broadcast. *)

From stdpp Require Import base gmap list sets numbers.
From Stdlib Require Import ZArith Lia.
From Stdlib Require String Ascii.
From S2P Require Import Prelude Words CStr PriorityQueue EventTimer Sched FdEvents EventLoop XdrCodec XdrText Json.
Open Scope Z_scope.

(** ** Text *)

Import String.StringSyntax.

(** The bytes of a literal, with a quote for each apostrophe. *)
Definition lit (s : String.string) : str :=
  (fun c => let b := Z.of_nat (Ascii.nat_of_ascii c) in if b =? 39 then QUOTE else b) <$> String.list_ascii_of_string s.
Arguments lit s%_string_scope.

(** [!strcasecmp(cmd, name)] *)
Definition named (cmd : str) (name : String.string) : bool := same_name cmd (lit name).
Arguments named cmd name%_string_scope.

(** [%ld.%06ld] *)
Definition time_text (t : timeval) : str := decimal (tv_sec t) ++ [46] ++ pad_left 48 6 (decimal (tv_usec t)).

(** ** State *)

(** The debugger's part of [struct EventState]: its two timed events, the
    format of reports, the names of timed events, the server ([None] without
    one) with its clients, and what it has broadcast. *)
Record debugger (T : Type) := DS {
  ctx : EventState T;
  breakpoint_evt : option ptr;
  dump_evt : option ptr;
  dump_every_loop : bool;
  full_dump_format : bool;
  names : gmap ptr str;
  dbgServer : option Z;
  dbgPort : Z;
  sent : list str
}.
Arguments DS {_}.
Arguments ctx {_}.
Arguments breakpoint_evt {_}.
Arguments dump_evt {_}.
Arguments dump_every_loop {_}.
Arguments full_dump_format {_}.
Arguments names {_}.
Arguments dbgServer {_}.
Arguments dbgPort {_}.
Arguments sent {_}.

(** The addresses of the callbacks of the two events. *)
Definition EDBG_BREAKPOINT_CB : Z := -1.
Definition EDBG_DUMP_CB : Z := -2.

Section Debugger.
Context {T W : Type}.
Context (ops : EventTimerOps T (W * fd_sets)).
Context (mono : W -> timeval).
(** The block that malloc returns for an event, whether queues can grow, and the
    functions of a name and of an address. *)
Context (malloc : EventState T -> option ptr) (realloc_ok : bool).
Context (dlsym : str -> option Z) (function_name : Z -> str).
(** For the reports: the file of a descriptor, the name of its event, the
    addresses of the event and of its arguments, and the program's own text. *)
Context (fd_file : Z -> option str) (fd_name : Z -> str) (fd_addr fd_arg_addr : Z -> Z).
Context (state_text : option (EventState T -> str)).
Implicit Types d : debugger T.

Definition with_ctx d (v : EventState T) : debugger T :=
  DS v (breakpoint_evt d) (dump_evt d) (dump_every_loop d) (full_dump_format d) (names d) (dbgServer d) (dbgPort d) (sent d).
Definition with_sch d (c : sched) : debugger T := with_ctx d (upd_sched (ctx d) c).
Definition with_bp d (v : option ptr) : debugger T :=
  DS (ctx d) v (dump_evt d) (dump_every_loop d) (full_dump_format d) (names d) (dbgServer d) (dbgPort d) (sent d).
Definition with_dump d (v : option ptr) : debugger T :=
  DS (ctx d) (breakpoint_evt d) v (dump_every_loop d) (full_dump_format d) (names d) (dbgServer d) (dbgPort d) (sent d).
Definition with_every d (v : bool) : debugger T :=
  DS (ctx d) (breakpoint_evt d) (dump_evt d) v (full_dump_format d) (names d) (dbgServer d) (dbgPort d) (sent d).
Definition with_names d (v : gmap ptr str) : debugger T :=
  DS (ctx d) (breakpoint_evt d) (dump_evt d) (dump_every_loop d) (full_dump_format d) v (dbgServer d) (dbgPort d) (sent d).
Definition broadcast d (text : str) : debugger T :=
  DS (ctx d) (breakpoint_evt d) (dump_evt d) (dump_every_loop d) (full_dump_format d) (names d) (dbgServer d) (dbgPort d) (sent d ++ [text]).

(** ** Reports *)

Definition json_bool (b : bool) : str := if b then lit "true" else lit "false".

Definition edbg_report_timed_event (ns : gmap ptr str) (p : ptr) (e : ScheduleCB) (cur_time : timeval) (first : bool) : str :=
  let '(rem_sign, remain) :=
    if timercmp Z.geb (nextAwake e) cur_time then ([], timersub (nextAwake e) cur_time)
    else ([45], timersub cur_time (nextAwake e)) in
  let name := default [] (ns !! p) in
  (if first then [] else [44; 10]) ++
  lit "    {" ++ [10] ++
  lit "      'id':" ++ decimal (Z.pos p) ++ [44; 10] ++
  lit "      'name':'" ++ (match name with [] => function_name (callback e) | _ => name end) ++ lit "'," ++ [10] ++
  lit "      'function':'" ++ function_name (callback e) ++ lit "'," ++ [10] ++
  lit "      'critical':" ++ decimal (b2z (critical e)) ++ [44; 10] ++
  lit "      'time_remaining':" ++ rem_sign ++ time_text remain ++ [44; 10] ++
  lit "      'awake_time':" ++ time_text (nextAwake e) ++ [44; 10] ++
  lit "      'scheduled_time':" ++ time_text (scheduleTime e) ++ [44; 10] ++
  lit "      'event_length':" ++ time_text (timeStep e) ++ [44; 10] ++
  lit "      'arg_pointer':" ++ decimal (arg e) ++ [44; 10] ++
  lit "      'event_count':" ++ decimal (u32 (count e)) ++ [10] ++
  lit "    }".

(** The events of a list; an address without an event is a fault. *)
Fixpoint report_events (ns : gmap ptr str) (m : sched_mem) (l : list ptr) (cur_time : timeval) (first : bool) : option str :=
  match l with
  | [] => Some []
  | p :: l' =>
      e ← m !! p;
      rest ← report_events ns m l' cur_time false;
      Some (edbg_report_timed_event ns p e cur_time first ++ rest)
  end.

Definition edbg_report_timed_events d (cur_time : timeval) : option str :=
  let c := sch (ctx d) in
  t ← report_events (names d) (heap c) (option_list (next_timed_event c) ++ contents (queue c)) cur_time true;
  Some (lit "  'timed_events': [" ++ [10] ++ t ++ [10] ++ lit "  ]," ++ [10]).

Definition handler_text (label : str) (h : option Z) : str :=
  match h with None => [] | Some f => lit "      '" ++ label ++ lit "':'" ++ function_name f ++ lit "'," ++ [10] end.

Definition edbg_report_fd_event (n : EventCB) (first : bool) : str :=
  match fd_file (fd n) with
  | None => []
  | Some filename =>
      (if first then [] else [44; 10]) ++
      lit "    {" ++ [10] ++
      lit "      'id':" ++ decimal (fd_addr (fd n)) ++ [44; 10] ++
      lit "      'name':'" ++ (match fd_name (fd n) with [] => filename | s => s end) ++ lit "'," ++ [10] ++
      lit "      'filename':'" ++ filename ++ lit "'," ++ [10] ++
      lit "      'arg_pointer':" ++ decimal (fd_arg_addr (fd n)) ++ [44; 10] ++
      handler_text (lit "read_handler") (p_read (cb n)) ++
      handler_text (lit "write_handler") (p_write (cb n)) ++
      handler_text (lit "error_handler") (p_error (cb n)) ++
      lit "      'pausable':" ++ json_bool (pausable n) ++ [44; 10] ++
      lit "      'critical':" ++ decimal (b2z (ecritical n)) ++ [44; 10] ++
      lit "      'read_breakpoint':" ++ json_bool (p_read (ebreak n)) ++ [44; 10] ++
      lit "      'write_breakpoint':" ++ json_bool (p_write (ebreak n)) ++ [44; 10] ++
      lit "      'error_breakpoint':" ++ json_bool (p_error (ebreak n)) ++ [44; 10] ++
      lit "      'read_count':" ++ decimal (u32 (p_read (counts n))) ++ [44; 10] ++
      lit "      'write_count':" ++ decimal (u32 (p_write (counts n))) ++ [44; 10] ++
      lit "      'error_count':" ++ decimal (u32 (p_error (counts n))) ++ [44; 10] ++
      lit "      'fd':" ++ decimal (fd n) ++ [10] ++
      lit "    }"
  end.

(** The first entry is the first one of the table, whether it is printed or
    not. *)
Fixpoint report_fds (l : list EventCB) (first : bool) : str :=
  match l with
  | [] => if first then [] else [10]
  | n :: l' => edbg_report_fd_event n first ++ report_fds l' false
  end.

Definition edbg_report_fd_events (t : fds) : str :=
  lit "  'fd_events': [" ++ [10] ++ report_fds (concat (events t)) true ++ lit "  ]," ++ [10].

Definition report_head d : str :=
  let s := ctx d in
  [123; 10] ++ lit "  'loop_steps': " ++ decimal (u64 (loop_counter s)) ++ [44; 10] ++
  lit "  'dbg_state': '" ++ (if decide (debuggerState s = EDBG_STOPPED) then lit "stopped" else lit "running") ++ lit "'," ++ [10] ++
  lit "  'port':" ++ decimal (u32 (dbgPort d)) ++ [44; 10] ++
  lit "  'timed_events':" ++ decimal (u64 (timed_event_counter s)) ++ [44; 10] ++
  lit "  'fd_events':" ++ decimal (u64 (fd_event_counter s)) ++ [44; 10] ++
  lit "  'critical_sched_count':" ++ decimal (critical_sched_count (sch s)) ++ lit ",  " ++
  lit "'critical_fd_count':" ++ decimal (critical_fd_count (fdt s)) ++ [44; 10].

Definition report_next d : str :=
  let s := ctx d in
  if decide (debuggerState s = EDBG_STOPPED) then
    match next_timed_event (sch s), next_fd_event s with
    | Some p, _ => lit "  'next_step' : { 'type':'Timed Event', 'id':" ++ decimal (Z.pos p) ++ lit " }," ++ [10]
    | None, Some (f, _) => lit "  'next_step' : { 'type':'FD Event', 'id':" ++ decimal (fd_addr f) ++ lit " }," ++ [10]
    | None, None => []
    end
  else [].

Definition edbg_report_state d (w : W) (full_format : bool) : option (debugger T) :=
  match dbgServer d with
  | None => Some d
  | Some n =>
      if n =? 0 then Some d
      else
        let curr_time := EVT_get_monotonic_time ops (ctx d) w in
        lists ← (if full_format then
                   t ← edbg_report_timed_events d curr_time; Some (t ++ edbg_report_fd_events (fdt (ctx d)))
                 else Some []);
        Some (broadcast d (report_head d ++ match state_text with Some f => f (ctx d) | None => [] end ++ report_next d ++ lists ++
                lit "  'current_time': " ++ time_text curr_time ++ [10; 125]))
  end.

(** ** Commands *)

(** A name of at most 127 bytes; through NULL it is a fault. *)
Definition EVT_sched_set_name d (id : option ptr) (name : str) : option (debugger T) :=
  match id with None => None | Some p => Some (with_names d (<[p := take 127 name]> (names d))) end.

Definition remove_evt d (id : option ptr) : debugger T :=
  match id with None => d | Some p => with_sch d (EVT_sched_remove (sch (ctx d)) (Some p)).2 end.

(** The breakpoint of [run]. *)
Definition add_breakpoint d (w : W) (ms : Z) : option (debugger T) :=
  let '(id, c1) := EVT_sched_add (sch (ctx d)) (EVT_get_monotonic_time ops (ctx d) w) (EVT_ms2tv ms) EDBG_BREAKPOINT_CB 0
                     (malloc (ctx d)) realloc_ok in
  let c2 := EVT_sched_make_breakpoint c1 id in
  d' ← EVT_sched_set_name (with_bp (with_sch d c2) id) id (lit "Debug Breakpoint");
  Some (with_sch d' (EVT_sched_set_critical c2 id false)).

(** The periodic report, on the kernel's clock. *)
Definition add_dump d (w : W) (ms : Z) : option (debugger T) :=
  let '(id, c1) := EVT_sched_add (sch (ctx d)) (EVT_get_monotonic_time ops (ctx d) w) (EVT_ms2tv ms) EDBG_DUMP_CB 0
                     (malloc (ctx d)) realloc_ok in
  let c2 := (EVT_sched_move_to_mono c1 (mono w) id realloc_ok).2 in
  d' ← EVT_sched_set_name (with_dump (with_sch d c2) id) id (lit "Debug State Dump");
  Some (with_sch d' (EVT_sched_set_critical c2 id false)).

(** The first queued event with a property. *)
Definition find_queued (c : sched) (P : ptr -> bool) : option ptr := List.find P (contents (queue c)).

Definition has_callback (m : sched_mem) (f : Z) (p : ptr) : bool :=
  match m !! p with Some e => callback e =? f | None => false end.

(** The event that a message names by address or by function. *)
Definition named_event (c : sched) (msg : list Z) : option (option ptr) :=
  r ← json_get_ptr_prop (Some msg) (Some (lit "id")) true;
  match r with
  | (_, Some id) => Some (find_queued c (fun p => Z.pos p =? id))
  | (_, None) =>
      r ← json_get_string_prop (Some msg) (Some (lit "function")) true;
      Some (match r with
            | (_, Some (Some func)) => match dlsym func with None => None | Some f => find_queued c (has_callback (heap c) f) end
            | _ => None
            end)
  end.

Definition set_evt_breakpoint d (id : option ptr) (v : bool) : debugger T :=
  match id with
  | None => d
  | Some p => let c := sch (ctx d) in with_sch d (with_heap c (alter (fun e => with_breakpoint e v) p (heap c)))
  end.

(** The number of a property, or what the variable holds. *)
Definition int_prop (msg : list Z) (prop : str) (old : Z) : option Z :=
  r ← json_get_int_prop (Some msg) (Some prop) true; Some (default old r.2).

(** [edbg_client_msg]; [None] is a fault.  [junk] is what is in [steps] when a
    command does not set it first. *)
Definition edbg_client_msg d (w : W) (junk : Z) (msg : list Z) : option (debugger T) :=
  r ← json_get_string_prop (Some msg) (Some (lit "command")) true;
  match r with
  | (_, None) => Some d
  | (_, Some None) => None
  | (_, Some (Some cmd)) =>
      let s := ctx d in
      if named cmd "run" then
        let d1 := with_bp (remove_evt (with_ctx d (upd_step (upd_dbg s (debuggerState s) false (steps_to_break s)) true))
                             (breakpoint_evt d)) None in
        steps ← int_prop msg (lit "ms") junk;
        if 0 <? steps then add_breakpoint d1 w steps else Some d1
      else if named cmd "stop" then Some (with_ctx d (upd_dbg s (debuggerState s) true 1))
      else if named cmd "next" then
        steps ← int_prop msg (lit "steps") 1;
        Some (with_ctx d (upd_step (upd_dbg s (debuggerState s) true steps) true))
      else if named cmd "start_dumping_every_loop" then Some (with_every d true)
      else if named cmd "stop_dumping_every_loop" then Some (with_every d false)
      else if named cmd "dump_now" then edbg_report_state d w true
      else if named cmd "periodic_dump" then
        steps ← int_prop msg (lit "ms") 0;
        let d1 := with_dump (remove_evt d (dump_evt d)) None in
        if 500 <=? steps then add_dump d1 w steps else Some d1
      else if named cmd "set_fd_breakpoint" || named cmd "clear_fd_breakpoint" then
        steps ← int_prop msg (lit "fd") 0;
        Some (if 2 <? steps then with_ctx d (upd_fds s (evt_fd_set_paused (fdt s) steps (named cmd "set_fd_breakpoint"))) else d)
      else if named cmd "set_timed_breakpoint" || named cmd "clear_timed_breakpoint" then
        evt ← named_event (sch s) msg;
        Some (set_evt_breakpoint d evt (named cmd "set_timed_breakpoint"))
      else Some d
  end.

(** The callbacks of the two events: what they return and the state after. *)
Definition edbg_breakpoint_cb d : Z * debugger T := (EVENT_REMOVE, with_bp d None).
Definition edbg_dump_cb d (w : W) : option (Z * debugger T) :=
  d' ← edbg_report_state d w (full_dump_format d); Some (EVENT_KEEP, d').

(** A debugger connects, and goes; the server has been told. *)
Definition edbg_debugger_connect d (w : W) : option (debugger T) := edbg_report_state d w (full_dump_format d).
Definition edbg_debugger_disconnect d : debugger T :=
  if bool_decide (dbgServer d = Some 0) then with_dump (remove_evt d (dump_evt d)) None else d.
End Debugger.

(** ** Flags and queues of timed events *)

Lemma alter_at {A} (f : A -> A) (p : ptr) (m : gmap ptr A) x : m !! p = Some x -> alter f p m = <[p := f x]> m.
Proof.
  intros H. apply map_eq. intros y. destruct (decide (y = p)) as [->|Hy].
  - by rewrite lookup_alter_eq, lookup_insert_eq, H.
  - by rewrite lookup_alter_ne, lookup_insert_ne.
Qed.

(** A change of an event that its queue does not see. *)
Lemma flag_wf c p e e' :
  sched_wf c -> heap c !! p = Some e -> p <> null_evt c ->
  nextAwake e' = nextAwake e -> pos e' = pos e -> evt_queue e' = evt_queue e -> inCallback e' = inCallback e ->
  sched_wf (with_crit (with_heap c (<[p:=e']> (heap c))) (critical_sched_count c - b2z (critical e) + b2z (critical e'))).
Proof.
  intros Hwf Hp Hnull E1 E2 E3 E4. pose proof Hwf as (W1 & W2 & W3 & (en & N1 & N2 & N3) & W5 & W6).
  set (c' := with_crit _ _). assert (Hg : forall w, get_queue c' w = get_queue c w) by (by intros []).
  assert (Hh : heap c' = <[p:=e']> (heap c)) by done.
  assert (Hx : forall x, get_pri (heap c') x = get_pri (heap c) x /\ get_pos (heap c') x = get_pos (heap c) x /\ (is_Some (heap c' !! x) <-> is_Some (heap c !! x))).
  { intros x. rewrite Hh. unfold get_pri, get_pos. destruct (decide (x = p)) as [->|Hne].
    - rewrite lookup_insert_eq, Hp. cbn. rewrite E1, E2. by split_and!.
    - by rewrite lookup_insert_ne by done. }
  split_and!.
  - intros w. rewrite Hg. eapply pq_wf_untouched; [apply W1|]. intros x _. destruct (Hx x) as (H1 & H2 & H3). split; [exact H1|]. split; [exact (proj2 H3)|exact H2].
  - intros w x. rewrite Hg. intros Hin. destruct (W2 w x Hin) as (ex & F1 & F2 & F3). rewrite Hh.
    destruct (decide (x = p)) as [->|Hne]; [|rewrite lookup_insert_ne by done; eauto].
    rewrite lookup_insert_eq. rewrite Hp in F1. injection F1 as <-. exists e'. by rewrite E3, E4.
  - cbn. by rewrite (crit_update _ _ e), W3 by done.
  - exists en. cbn. by rewrite lookup_insert_ne by done.
  - intros w. rewrite Hg. apply W5.
  - intros y Hy. destruct (W6 y Hy) as [Hy1 Hy2]. split; [by apply Hx|]. intros w. rewrite Hg. apply Hy2.
Qed.

(** An event whose wake-up time no other event of its queue has. *)
Definition alone (c : sched) (w : which) (p : ptr) (t : timeval) : Prop :=
  forall x, x ∈ contents (get_queue c w) -> x <> p -> get_pri (heap c) x <> t.

Lemma alone_safe c w p :
  sched_wf c -> p ∈ contents (get_queue c w) -> alone c w p (get_pri (heap c) p) ->
  remove_safe cmp_pri (heap c) (get_queue c w) p.
Proof.
  intros Hwf Hin Hal Hpos Hsz. left. destruct (cmp_pri _ _) eqn:E; [|done]. exfalso. unfold cmp_pri in E. apply timercmp_geb in E.
  pose proof (wf_queue c Hwf w) as ((Hs & _) & Ho & Hpk). pose proof (cells_bounds _ Hs) as Hb.
  destruct (wf_position _ _ _ (wf_queue c Hwf w) Hin) as (Hp & Hd & _). rewrite Hpos in Hp, Hd.
  set (q := get_queue c w) in *. assert (H2 : (2 < size q)%nat) by lia. pose proof (parent_lt (size q - 1) ltac:(lia)) as Hlt.
  assert (H1 : (1 <= parent (size q - 1))%nat) by (apply parent_pos; lia).
  destruct (Hpk (parent (size q - 1)) ltac:(lia) ltac:(lia)) as [_ Hpp].
  pose proof (Ho (size q - 1)%nat ltac:(lia) ltac:(lia)) as Hle. rewrite Hd in Hle.
  apply (Hal (d q !!! parent (size q - 1))).
  - apply (elem_of_cells (size q) (d q)); [lia|]. exists (parent (size q - 1)). split; [lia|done].
  - intros Hx. rewrite Hx in Hpp. lia.
  - by apply tv_le_antisym.
Qed.

(** Taking an event out of its queue. *)
Lemma dequeue_wf c p e r m q :
  sched_wf c -> heap c !! p = Some e -> p ∈ contents (get_queue c (evt_queue e)) ->
  remove_safe cmp_pri (heap c) (get_queue c (evt_queue e)) p ->
  ps_pqueue_remove cmp_pri (heap c) (get_queue c (evt_queue e)) p = (r, m, q) ->
  let c' := put_queue c (evt_queue e) m q in
  sched_wf c' /\ erase (heap c') = erase (heap c) /\
  contents (get_queue c (evt_queue e)) ≡ₚ p :: contents (get_queue c' (evt_queue e)) /\
  (forall w, p ∉ contents (get_queue c' w)) /\ (forall w, w <> evt_queue e -> get_queue c' w = get_queue c w).
Proof.
  intros Hwf Hp Hin Hsafe Er. set (w := evt_queue e) in *.
  destruct (remove_wf cmp_pri _ _ _ _ _ _ (wf_queue c Hwf w) Hin Hsafe Er) as (R1 & R2 & R3 & R4 & R5).
  pose proof (remove_frame cmp_pri (fun m m' : sched_mem => erase m' = erase m) _ _ _ _ _ _ Er) as Her.
  destruct (put_queue_eq c w m q) as (G1 & G2 & G3 & G4 & G5 & G6). set (c' := put_queue c w m q) in *.
  assert (Hnin : p ∉ contents q).
  { pose proof (contents_NoDup _ _ (wf_queue c Hwf w)) as Hnd. rewrite R2 in Hnd. by apply list.NoDup_cons in Hnd as [? _]. }
  assert (Hsub : forall x, x ∈ contents q -> x ∈ contents (get_queue c w)) by (intros x Hx; rewrite R2; by right).
  pose proof Hwf as (W1 & W2 & W3 & (en & N1 & N2 & N3) & W5 & W6).
  split_and!; [|by rewrite G2|by rewrite G1| |done].
  - apply (wf_step c c' w Hwf); rewrite ?G1, ?G2, ?G3, ?G4, ?G5; try done.
    + intros w' x Hw Hx. apply (other_kept c m w' x Hwf Hx Her). apply R5. by apply (wf_disjoint c w w').
    + intros x Hx. destruct (W2 w x (Hsub x Hx)) as (ex & F1 & F2 & F3). destruct (erase_Some _ _ _ _ Her F1) as [n Hn]. eauto.
    + by rewrite W3, (crit_same _ _ Her).
    + destruct (erase_Some _ _ _ _ Her N1) as [n Hn]. eauto.
    + intros Hx. by apply (W5 w), Hsub.
    + intros y Hy. destruct (W6 y Hy) as [[ey Hey] Hy2]. split; [destruct (erase_Some _ _ _ _ Her Hey) as [n Hn]; eauto|].
      intros w'. destruct (decide (w' = w)) as [->|Hw]; [|by rewrite G6]. rewrite G1. intros Hx. by apply (Hy2 w), Hsub.
  - intros w'. destruct (decide (w' = w)) as [->|Hw]; [by rewrite G1|]. rewrite G6 by done.
    intros Hx. by apply (wf_disjoint c w w' p Hwf Hw Hx).
Qed.

(** ** The debugger's events *)

(** An event of the debugger: live, not critical, not running. *)
Definition own (c : sched) (w : which) (f : Z) (p : ptr) : Prop :=
  exists e, heap c !! p = Some e /\ p <> null_evt c /\ callback e = f /\ critical e = false /\ evt_queue e = w /\ inCallback e = 0.

(** The side condition of removal: the event is queued at a time of its own, or
    held by the debugger. *)
Definition evt_removable (c : sched) (p : ptr) : Prop :=
  exists e, heap c !! p = Some e /\
    ((p ∈ contents (get_queue c (evt_queue e)) /\ alone c (evt_queue e) p (nextAwake e)) \/
     (pos e = None /\ p ∉ contents (get_queue c (evt_queue e)))).

(** Events outside [X] keep everything but their place in the heap and their
    breakpoint, and the number of critical events is the same. *)
Definition kept (X : gset ptr) (c c' : sched) : Prop :=
  (forall x e, x ∉ X -> heap c !! x = Some e -> exists n b, heap c' !! x = Some (with_breakpoint (with_pos e n) b)) /\
  null_evt c' = null_evt c /\ critical_sched_count c' = critical_sched_count c.

Lemma kept_refl X c : kept X c c.
Proof. split; [|done]. intros x e _ Hx. exists (pos e), (breakpoint e). rewrite Hx. by destruct e. Qed.

Lemma kept_trans X Y c1 c2 c3 : kept X c1 c2 -> kept Y c2 c3 -> kept (X ∪ Y) c1 c3.
Proof.
  intros (K1 & N1 & C1) (K2 & N2 & C2). split; [|by rewrite N2, C2].
  intros x e Hx He. destruct (K1 x e) as (n & b & H); [set_solver|done|]. destruct (K2 x _ ltac:(set_solver) H) as (n' & b' & H').
  exists n', b'. by rewrite H'.
Qed.

Lemma kept_own X c c' w f p : kept X c c' -> p ∉ X -> own c w f p -> own c' w f p.
Proof.
  intros (K & N & _) Hp (e & He & H1 & H2 & H3 & H4 & H5). destruct (K p e Hp He) as (n & b & H). eexists. split; [exact H|]. by rewrite N.
Qed.

(** Removing an event of the debugger. *)
Lemma remove_own c w f p :
  sched_wf c -> own c w f p -> evt_removable c p ->
  let c' := (EVT_sched_remove c (Some p)).2 in
  sched_wf c' /\ heap c' !! p = None /\ kept {[p]} c c' /\
  (forall v x, x ∈ contents (get_queue c' v) -> x ∈ contents (get_queue c v)).
Proof.
  intros Hwf (e & He & Hnull & _ & Hcr & Hq & Hic) (e' & He' & Hcase). rewrite He in He'. injection He' as <-.
  assert (Hk : forall c', (forall x ex, x <> p -> heap c !! x = Some ex -> exists n, heap c' !! x = Some (with_pos ex n)) ->
    null_evt c' = null_evt c -> critical_sched_count c' = critical_sched_count c - b2z (critical e) -> kept {[p]} c c').
  { intros c' H1 H2 H3. split_and!; [|done|rewrite H3, Hcr; cbn; lia]. intros x ex Hx Hex. apply not_elem_of_singleton in Hx.
    destruct (H1 x ex Hx Hex) as [n Hn]. exists n, (breakpoint ex). rewrite Hn. by destruct ex. }
  destruct Hcase as [[Hin Hal]|[Hpos Hnin]]; cbv zeta.
  - assert (Hsafe : remove_safe cmp_pri (heap c) (get_queue c (evt_queue e)) p).
    { apply alone_safe; try done. unfold get_pri. by rewrite He. }
    destruct (remove_queued c p e Hwf He Hnull Hic Hin Hsafe) as (_ & (R1 & R2 & R3 & R4 & R5 & R6 & _) & R7 & R8 & _).
    split_and!; [done|done|by apply Hk|]. intros v x Hx. destruct (decide (v = evt_queue e)) as [->|Hv]; [apply R4; by right|].
    by rewrite R7 in Hx.
  - destruct (remove_unqueued c p e Hwf He Hnull Hic Hpos Hnin) as (_ & R1 & R2 & R3 & R4 & R5 & R6 & _).
    assert (E : (EVT_sched_remove c (Some p)).2 = with_heap (remove_marks c p e) (delete p (heap (remove_marks c p e)))).
    { unfold EVT_sched_remove. rewrite He, Hic. cbn [Z.eqb negb]. fold (remove_marks c p e). rewrite Hpos. cbn [snd].
      apply free_delete. destruct (remove_marks_spec c p e) as (_ & _ & N & _). by rewrite N. }
    destruct (remove_marks_spec c p e) as (_ & Q & N & _).
    split_and!; [done|done|apply Hk; [done| |done]|].
    + rewrite E. cbn. exact N.
    + intros v x. rewrite E. replace (get_queue _ v) with (get_queue c v); [done|]. rewrite <- Q. by destruct v.
Qed.

(** A fresh event, added, marked and not critical. *)
Lemma added_own c now time f p :
  sched_wf c -> heap c !! p = None ->
  let '(id, c1) := EVT_sched_add c now time f 0 (Some p) true in
  id = Some p /\ sched_wf c1 /\ contents (queue c1) ≡ₚ p :: contents (queue c) /\ dbg_queue c1 = dbg_queue c /\
  null_evt c1 = null_evt c /\ p <> null_evt c /\
  critical_sched_count c1 = critical_sched_count c + 1 /\
  (exists n, heap c1 !! p = Some (SCB now (timeradd now time) f 0 n time Main 0 false true 0)) /\
  (forall x e, x <> p -> heap c !! x = Some e -> exists n, heap c1 !! x = Some (with_pos e n)).
Proof.
  intros Hwf Hp. rewrite sched_add_step. destruct (add_body c now time time f 0 p true Hwf Hp) as [[E1 E2]|(E1 & E2 & E3 & E4 & E5 & E6)].
  { exfalso. revert E1. unfold EVT_sched_add_with_timestep.
    pose proof (insert_code_queue (with_heap c (<[p:=SCB now (timeradd now time) f 0 (Some 0%nat) time Main 0 false true 0]> (heap c))) Main true p) as H.
    destruct (queue_insert _ _ _ _) as [r s1]. cbn in H. rewrite andb_false_r in H. by subst r. }
  assert (Hn : null_evt (EVT_sched_add_with_timestep c now time time f 0 (Some p) true).2 = null_evt c).
  { unfold EVT_sched_add_with_timestep. destruct (queue_insert _ _ _ _) as [r s1] eqn:E.
    assert (N : null_evt s1 = null_evt c).
    { unfold queue_insert in E. destruct (ps_pqueue_insert _ _ _ _ _) as [[? ?] [?|]]; injection E as _ <-; done. }
    by destruct (0 =? r). }
  assert (Hpn : p <> null_evt c) by (intros ->; destruct Hwf as (_ & _ & _ & (en & N1 & _) & _); congruence).
  destruct (EVT_sched_add_with_timestep _ _ _ _ _ _ _ _) as [id c1]. cbn [fst snd] in *.
  split_and!; try done.
  - destruct (erase_Some _ _ p _ E6 (lookup_insert_eq _ _ _)) as [n H]. by exists n.
  - intros x e Hne Hx. apply (erase_Some _ _ x e E6). by rewrite lookup_insert_ne.
Qed.

Lemma set_critical_wf c p e v :
  sched_wf c -> heap c !! p = Some e -> p <> null_evt c ->
  let c' := EVT_sched_set_critical c (Some p) v in
  sched_wf c' /\ heap c' = <[p := with_critical e v]> (heap c) /\ (forall w, get_queue c' w = get_queue c w) /\
  null_evt c' = null_evt c /\ critical_sched_count c' = critical_sched_count c - b2z (critical e) + b2z v.
Proof.
  intros Hwf He Hn. pose proof (flag_wf c p e (with_critical e v) Hwf He Hn eq_refl eq_refl eq_refl eq_refl) as H.
  cbn [critical with_critical] in H. cbv zeta. unfold EVT_sched_set_critical. rewrite He.
  replace (if critical e && negb v then _ else _) with (critical_sched_count c - b2z (critical e) + b2z v)
    by (destruct (critical e), v; cbn; lia).
  split_and!; try done.
Qed.

Lemma set_breakpoint_wf c p e v :
  sched_wf c -> heap c !! p = Some e -> p <> null_evt c ->
  let c' := with_heap c (alter (fun e => with_breakpoint e v) p (heap c)) in
  sched_wf c' /\ heap c' = <[p := with_breakpoint e v]> (heap c) /\ (forall w, get_queue c' w = get_queue c w).
Proof.
  intros Hwf He Hn. pose proof (flag_wf c p e (with_breakpoint e v) Hwf He Hn eq_refl eq_refl eq_refl eq_refl) as H.
  cbv zeta. rewrite (alter_at _ p _ e He). split_and!; [|done|by intros []].
  replace (with_heap c _) with (with_crit (with_heap c (<[p := with_breakpoint e v]> (heap c)))
    (critical_sched_count c - b2z (critical e) + b2z (critical (with_breakpoint e v)))); [done|].
  unfold with_crit, with_heap. cbn. f_equal. lia.
Qed.

(** Moving a queued event to the kernel's clock. *)
Lemma move_to_mono_wf c p e mono :
  sched_wf c -> heap c !! p = Some e -> p <> null_evt c -> evt_queue e = Main -> inCallback e = 0 ->
  p ∈ contents (queue c) -> alone c Main p (nextAwake e) ->
  let c' := (EVT_sched_move_to_mono c mono (Some p) true).2 in
  sched_wf c' /\ contents (queue c) ≡ₚ p :: contents (queue c') /\ contents (dbg_queue c') ≡ₚ p :: contents (dbg_queue c) /\
  null_evt c' = null_evt c /\ critical_sched_count c' = critical_sched_count c - b2z (critical e) /\
  (exists n, heap c' !! p = Some (with_critical (with_queue (with_times (with_pos e n) mono (timeradd mono (timeStep e))) Dbg) false)) /\
  (forall x ex, x <> p -> heap c !! x = Some ex -> exists n, heap c' !! x = Some (with_pos ex n)).
Proof.
  intros Hwf He Hnull Hq Hic Hin Hal. cbv zeta. unfold EVT_sched_move_to_mono. rewrite He.
  assert (Hin' : p ∈ contents (get_queue c (evt_queue e))) by (by rewrite Hq).
  assert (Hsafe : remove_safe cmp_pri (heap c) (get_queue c (evt_queue e)) p).
  { apply alone_safe; try done. rewrite Hq. unfold get_pri. by rewrite He. }
  destruct (ps_pqueue_remove _ _ _ _) as [[r m] q] eqn:Er.
  destruct (dequeue_wf c p e r m q Hwf He Hin' Hsafe Er) as (D1 & D2 & D3 & D4 & D5).
  rewrite Hq in *. set (c1 := put_queue c Main m q) in *.
  destruct (put_queue_eq c Main m q) as (_ & G2 & G3 & G4 & G5 & _). fold c1 in G2, G3, G4, G5.
  destruct (erase_Some _ _ _ _ D2 He) as [n He1]. set (e1 := with_pos e n) in *.
  set (e2 := with_queue (with_times e1 mono (timeradd mono (timeStep e1))) Dbg).
  rewrite (alter_at _ p _ e1 He1). fold e2. set (c2 := with_heap c1 (<[p := e2]> (heap c1))).
  assert (Hwf2 : sched_wf c2) by (apply (unqueued_update_wf c1 p e1 e2); try done; by rewrite G5).
  assert (Hg2 : forall w, get_queue c2 w = get_queue c1 w) by (by intros []).
  pose proof (insert_code_queue c2 Dbg true p) as Hcode. rewrite andb_false_r in Hcode.
  destruct (queue_insert c2 Dbg true p) as [r3 c3] eqn:E3. cbn [fst snd] in *. subst r3.
  assert (He2 : heap c2 !! p = Some e2) by (cbn; apply lookup_insert_eq).
  assert (Hnt : next_timed_event c2 <> Some p).
  { change (next_timed_event c2) with (next_timed_event c1). rewrite G4. intros Hy. pose proof Hwf as (_ & _ & _ & _ & _ & W6).
    by apply (proj2 (W6 p Hy) Main). }
  destruct (queue_insert_wf c2 Dbg true p e2 c3 Hwf2 He2 eq_refl Hic ltac:(intros w; rewrite Hg2; apply D4)
    ltac:(change (null_evt c2) with (null_evt c1); by rewrite G5) Hnt E3) as (Q1 & Q2 & Q3 & Q4 & Q5 & Q6 & Q7).
  destruct (erase_Some _ _ _ _ Q3 He2) as [k He3]. assert (Hn3 : null_evt c3 = null_evt c) by (rewrite Q6; exact G5).
  set (c4 := if critical e then _ else _).
  assert (F : with_heap c4 (alter (fun e => with_critical e false) p (heap c4)) = EVT_sched_set_critical c3 (Some p) false).
  { unfold EVT_sched_set_critical. rewrite He3. cbn [critical with_pos e2 with_queue with_times e1].
    unfold c4. destruct (critical e); cbn [andb negb heap with_crit with_heap]; rewrite (alter_at _ p _ _ He3); [done|]. by destruct c3. }
  rewrite F. destruct (set_critical_wf c3 p _ false Q1 He3 ltac:(by rewrite Hn3)) as (S1 & S2 & S3 & S4 & S5).
  cbn [critical with_pos e2 with_queue with_times e1] in S5. split_and!.
  - exact S1.
  - change (contents (get_queue c Main) ≡ₚ p :: contents (get_queue (EVT_sched_set_critical c3 (Some p) false) Main)).
    rewrite S3, (Q7 Main), Hg2 by done. exact D3.
  - change (contents (get_queue (EVT_sched_set_critical c3 (Some p) false) Dbg) ≡ₚ p :: contents (get_queue c Dbg)).
    rewrite S3, Q2, Hg2, (D5 Dbg) by done. done.
  - by rewrite S4.
  - rewrite S5, Q4. change (critical_sched_count c2) with (critical_sched_count c1). rewrite G3. cbn [b2z]. lia.
  - exists k. rewrite S2, lookup_insert_eq. done.
  - intros x ex Hx Hex. rewrite S2, lookup_insert_ne by done. destruct (erase_Some _ _ _ _ D2 Hex) as [n1 H1].
    assert (H2 : heap c2 !! x = Some (with_pos ex n1)) by (cbn; by rewrite lookup_insert_ne).
    destruct (erase_Some _ _ _ _ Q3 H2) as [n2 H3]. by exists n2.
Qed.

(** ** Commands keep the program as it is *)

Section Facts.
Context {T W : Type} (ops : EventTimerOps T (W * fd_sets)) (mono : W -> timeval).
Context (malloc : EventState T -> option ptr) (Hmalloc : forall s, exists p, malloc s = Some p /\ heap (sch s) !! p = None).
Context (dlsym : str -> option Z) (function_name : Z -> str).
Context (fd_file : Z -> option str) (fd_name : Z -> str) (fd_addr fd_arg_addr : Z -> Z).
Context (state_text : option (EventState T -> str)).
Implicit Types d : debugger T.

Abbreviation client_msg :=
  (edbg_client_msg ops mono malloc true dlsym function_name fd_file fd_name fd_addr fd_arg_addr state_text).
Abbreviation report_state := (edbg_report_state ops function_name fd_file fd_name fd_addr fd_arg_addr state_text).

(** The tables are well formed and the debugger's events are live, not critical
    and those it scheduled. *)
Definition dbg_ok d : Prop :=
  sched_wf (sch (ctx d)) /\ fd_wf (fdt (ctx d)) /\
  (forall p, breakpoint_evt d = Some p -> own (sch (ctx d)) Main EDBG_BREAKPOINT_CB p) /\
  (forall p, dump_evt d = Some p -> own (sch (ctx d)) Dbg EDBG_DUMP_CB p).

(** The debugger's own events. *)
Definition dbg_evts d : gset ptr := list_to_set (option_list (breakpoint_evt d) ++ option_list (dump_evt d)).

(** What a command may need: its events can be removed, and a report is not to
    come at the very time of an event of the program. *)
Definition calm d (w : W) (msg : list Z) : Prop :=
  (forall p, breakpoint_evt d = Some p \/ dump_evt d = Some p -> evt_removable (sch (ctx d)) p) /\
  (forall ms x, int_prop msg (lit "ms") 0 = Some ms -> x ∈ contents (queue (sch (ctx d))) ->
     get_pri (heap (sch (ctx d))) x <> timeradd (EVT_get_monotonic_time ops (ctx d) w) (EVT_ms2tv ms)).

(** The program is as before: its timed events but for breakpoints, its
    descriptor events but for breakpoints, and whether the loop goes on. *)
Definition same_fd (n n' : EventCB) : Prop :=
  cb n' = cb n /\ cleanup n' = cleanup n /\ earg n' = earg n /\ counts n' = counts n /\ einCallback n' = einCallback n /\
  pausable n' = pausable n /\ ecritical n' = ecritical n /\ fd n' = fd n.

Definition same_program d d' : Prop :=
  kept (dbg_evts d) (sch (ctx d)) (sch (ctx d')) /\
  (forall f, 0 <= f -> option_Forall2 same_fd (entry (fdt (ctx d)) f) (entry (fdt (ctx d')) f)) /\
  keepGoing (ctx d') = keepGoing (ctx d) /\ in_loop (ctx d') = in_loop (ctx d) /\ deferred (ctx d') = deferred (ctx d) /\
  evt_timer (ctx d') = evt_timer (ctx d).

Lemma same_fd_refl n : same_fd n n.
Proof. done. Qed.

Lemma same_sch d d' :
  kept (dbg_evts d) (sch (ctx d)) (sch (ctx d')) -> fdt (ctx d') = fdt (ctx d) -> keepGoing (ctx d') = keepGoing (ctx d) ->
  in_loop (ctx d') = in_loop (ctx d) -> deferred (ctx d') = deferred (ctx d) -> evt_timer (ctx d') = evt_timer (ctx d) ->
  same_program d d'.
Proof.
  intros H1 H2 H3 H4 H5 H6. split_and!; try done. intros f _. rewrite H2. destruct (entry _ _); constructor. apply same_fd_refl.
Qed.

Lemma same_state d d' :
  sch (ctx d') = sch (ctx d) -> fdt (ctx d') = fdt (ctx d) -> keepGoing (ctx d') = keepGoing (ctx d) ->
  in_loop (ctx d') = in_loop (ctx d) -> deferred (ctx d') = deferred (ctx d) -> evt_timer (ctx d') = evt_timer (ctx d) ->
  breakpoint_evt d' = breakpoint_evt d -> dump_evt d' = dump_evt d -> dbg_ok d -> dbg_ok d' /\ same_program d d'.
Proof.
  intros H1 H2 H3 H4 H5 H6 H7 H8 Hok. split; [unfold dbg_ok in *; by rewrite H1, H2, H7, H8|].
  apply same_sch; try done. rewrite H1. apply kept_refl.
Qed.

Lemma int_prop_some msg prop old : zlen msg < 2 ^ 31 -> exists v, int_prop msg prop old = Some v.
Proof.
  intros Hl. destruct (json_safe msg (Some prop) true Hl) as (_ & (code & out & E & _) & _). unfold int_prop. rewrite E.
  by eexists.
Qed.

Lemma named_some c msg :
  zlen msg < 2 ^ 31 -> sched_wf c -> exists o, named_event dlsym c msg = Some o /\ forall p, o = Some p -> p ∈ contents (queue c).
Proof.
  intros Hl Hwf.
  destruct (json_safe msg (Some (lit "id")) true Hl) as (_ & _ & (c1 & o1 & E1 & _) & _).
  destruct (json_safe msg (Some (lit "function")) true Hl) as (_ & _ & _ & (c2 & o2 & E2 & _)).
  assert (Hf : forall P p, find_queued c P = Some p -> p ∈ contents (queue c)).
  { intros P p H. apply List.find_some in H as [H _]. by apply list_elem_of_In. }
  unfold named_event. rewrite E1. cbn [mbind option_bind]. destruct o1 as [id|]; [eexists; split; [done|]; apply Hf|].
  rewrite E2. cbn [mbind option_bind]. eexists. split; [done|]. intros p.
  destruct o2 as [[func|]|]; try done. destruct (dlsym func); [apply Hf|done].
Qed.

(** Reports change nothing but what was sent. *)
Lemma report_ok d w full :
  dbg_ok d -> exists d', report_state d w full = Some d' /\ (d' = d \/ exists text, d' = broadcast d text).
Proof.
  intros (Hwf & _). pose proof Hwf as (_ & W2 & _ & _ & _ & W6). unfold edbg_report_state.
  destruct (dbgServer d) as [n|]; [|by eexists; split; [|left]]. destruct (n =? 0); [by eexists; split; [|left]|].
  assert (H : forall l t first, (forall p, p ∈ l -> is_Some (heap (sch (ctx d)) !! p)) ->
    exists txt, report_events function_name (names d) (heap (sch (ctx d))) l t first = Some txt).
  { induction l as [|p l IH]; intros t first Hl; [by eexists|]. cbn [report_events]. destruct (Hl p (list_elem_of_here _ _)) as [e He].
    rewrite He. cbn [mbind option_bind]. destruct (IH t false) as [txt ->]; [intros q Hq; apply Hl; by right|]. by eexists. }
  destruct full.
  - unfold edbg_report_timed_events. edestruct H as [txt ->].
    { intros p Hp. apply elem_of_app in Hp as [Hp|Hp].
      - destruct (next_timed_event (sch (ctx d))) as [q|] eqn:E; [|by apply elem_of_nil in Hp].
        apply list_elem_of_singleton in Hp as ->. by apply W6.
      - destruct (W2 Main p Hp) as (e & He & _). by eexists. }
    eexists. split; [reflexivity|]. right. by eexists.
  - eexists. split; [reflexivity|]. right. by eexists.
Qed.

(** Removing an event that may not be there. *)
Lemma drop_evt d o w f :
  sched_wf (sch (ctx d)) -> (forall p, o = Some p -> own (sch (ctx d)) w f p /\ evt_removable (sch (ctx d)) p) ->
  let c' := sch (ctx (remove_evt d o)) in
  sched_wf c' /\ kept (list_to_set (option_list o)) (sch (ctx d)) c' /\
  (forall v x, x ∈ contents (get_queue c' v) -> x ∈ contents (get_queue (sch (ctx d)) v)) /\
  (forall p, o = Some p -> heap c' !! p = None).
Proof.
  intros Hwf Ho. destruct o as [p|]; cbn [remove_evt option_list].
  - destruct (Ho p eq_refl) as [H1 H2]. destruct (remove_own _ w f p Hwf H1 H2) as (R1 & R2 & R3 & R4).
    cbn [ctx with_sch with_ctx sch upd_sched]. split_and!; try done; [|by intros q [= <-]].
    by replace (list_to_set [p]) with ({[p]} : gset ptr) by set_solver.
  - split_and!; try done. apply kept_refl.
Qed.

(** Scheduling the breakpoint of [run]. *)
Lemma add_breakpoint_ok d w ms :
  sched_wf (sch (ctx d)) ->
  exists p d', add_breakpoint ops malloc true d w ms = Some d' /\ sched_wf (sch (ctx d')) /\
    heap (sch (ctx d)) !! p = None /\ breakpoint_evt d' = Some p /\ dump_evt d' = dump_evt d /\
    own (sch (ctx d')) Main EDBG_BREAKPOINT_CB p /\ kept ∅ (sch (ctx d)) (sch (ctx d')) /\
    p ∈ contents (queue (sch (ctx d'))) /\ ctx d' = upd_sched (ctx d) (sch (ctx d')) /\
    exists e, heap (sch (ctx d')) !! p = Some e /\ breakpoint e = true /\
      nextAwake e = timeradd (EVT_get_monotonic_time ops (ctx d) w) (EVT_ms2tv ms).
Proof.
  intros Hwf. destruct (Hmalloc (ctx d)) as (p & Em & Hp). unfold add_breakpoint. rewrite Em.
  pose proof (added_own (sch (ctx d)) (EVT_get_monotonic_time ops (ctx d) w) (EVT_ms2tv ms) EDBG_BREAKPOINT_CB p Hwf Hp) as HA.
  destruct (EVT_sched_add _ _ _ _ _ _ _) as [id c1]. destruct HA as (-> & A1 & A2 & A3 & A4 & A5 & A6 & (n & A7) & A8).
  cbn [EVT_sched_make_breakpoint]. rewrite <- A4 in A5.
  destruct (set_breakpoint_wf c1 p _ true A1 A7 A5) as (B1 & B2 & B3). set (c2 := with_heap c1 _) in *.
  assert (He2 : heap c2 !! p = Some (with_breakpoint (SCB (EVT_get_monotonic_time ops (ctx d) w)
    (timeradd (EVT_get_monotonic_time ops (ctx d) w) (EVT_ms2tv ms)) EDBG_BREAKPOINT_CB 0 n (EVT_ms2tv ms) Main 0 false true 0) true))
    by (rewrite B2; apply lookup_insert_eq).
  destruct (set_critical_wf c2 p _ false B1 He2 A5) as (C1 & C2 & C3 & C4 & C5).
  cbn [EVT_sched_set_name mbind option_bind]. eexists p, _. split; [reflexivity|].
  cbn [ctx sch upd_sched with_sch with_ctx with_names with_bp breakpoint_evt dump_evt].
  set (c3 := EVT_sched_set_critical c2 (Some p) false) in *. split_and!; try done.
  - eexists. split; [rewrite C2; apply lookup_insert_eq|]. split_and!; try done. by rewrite C4.
  - split_and!; [|by rewrite C4|].
    + intros x e _ Hx. assert (Hne : x <> p) by congruence. destruct (A8 x e Hne Hx) as [k Hk]. exists k, (breakpoint e).
      rewrite C2, lookup_insert_ne, B2, lookup_insert_ne, Hk by done. by destruct e.
    + rewrite C5. change (critical_sched_count c2) with (critical_sched_count c1). rewrite A6. cbn. lia.
  - change (p ∈ contents (get_queue c3 Main)). rewrite C3, B3. cbn. rewrite A2. left.
  - eexists. split; [rewrite C2; apply lookup_insert_eq|]. done.
Qed.

(** Scheduling the periodic report. *)
Lemma add_dump_ok d w ms :
  sched_wf (sch (ctx d)) ->
  (forall x, x ∈ contents (queue (sch (ctx d))) ->
     get_pri (heap (sch (ctx d))) x <> timeradd (EVT_get_monotonic_time ops (ctx d) w) (EVT_ms2tv ms)) ->
  exists p d', add_dump ops mono malloc true d w ms = Some d' /\ sched_wf (sch (ctx d')) /\
    heap (sch (ctx d)) !! p = None /\ dump_evt d' = Some p /\ breakpoint_evt d' = breakpoint_evt d /\
    own (sch (ctx d')) Dbg EDBG_DUMP_CB p /\ kept ∅ (sch (ctx d)) (sch (ctx d')) /\
    p ∈ contents (dbg_queue (sch (ctx d'))) /\ ctx d' = upd_sched (ctx d) (sch (ctx d')).
Proof.
  intros Hwf Hfree. destruct (Hmalloc (ctx d)) as (p & Em & Hp). unfold add_dump. rewrite Em.
  pose proof (added_own (sch (ctx d)) (EVT_get_monotonic_time ops (ctx d) w) (EVT_ms2tv ms) EDBG_DUMP_CB p Hwf Hp) as HA.
  destruct (EVT_sched_add _ _ _ _ _ _ _) as [id c1]. destruct HA as (-> & A1 & A2 & A3 & A4 & A5 & A6 & (n & A7) & A8).
  rewrite <- A4 in A5.
  assert (Hal : alone c1 Main p (timeradd (EVT_get_monotonic_time ops (ctx d) w) (EVT_ms2tv ms))).
  { intros x Hx Hne. cbn in Hx. rewrite A2, elem_of_cons in Hx. destruct Hx as [->|Hx]; [done|]. intros E. apply (Hfree x Hx). rewrite <- E.
    destruct (wf_event _ Hwf Main x Hx) as (e & He & _). destruct (A8 x e Hne He) as [k Hk]. unfold get_pri. by rewrite He, Hk. }
  destruct (move_to_mono_wf c1 p _ (mono w) A1 A7 A5 eq_refl eq_refl ltac:(rewrite A2; left) Hal) as (M1 & M2 & M3 & M4 & M5 & (k & M6) & M7).
  set (c2 := (EVT_sched_move_to_mono c1 (mono w) (Some p) true).2) in *. rewrite <- M4 in A5.
  destruct (set_critical_wf c2 p _ false M1 M6 A5) as (C1 & C2 & C3 & C4 & C5).
  cbn [EVT_sched_set_name mbind option_bind]. eexists p, _. split; [reflexivity|].
  cbn [ctx sch upd_sched with_sch with_ctx with_names with_dump breakpoint_evt dump_evt].
  set (c3 := EVT_sched_set_critical c2 (Some p) false) in *. split_and!; try done.
  - eexists. split; [rewrite C2; apply lookup_insert_eq|]. split_and!; try done. by rewrite C4.
  - split_and!; [|by rewrite C4, M4|].
    + intros x e _ Hx. assert (Hne : x <> p) by congruence. destruct (A8 x e Hne Hx) as [j Hj]. destruct (M7 x _ Hne Hj) as [j' Hj'].
      exists j', (breakpoint e). rewrite C2, lookup_insert_ne, Hj' by done. by destruct e.
    + rewrite C5, M5, A6. cbn. lia.
  - change (p ∈ contents (get_queue c3 Dbg)). rewrite C3. cbn. rewrite M3. left.
Qed.

(** [run], and [periodic_dump]: the debugger's event goes, and a new one may
    come. *)
Lemma run_ok d w steps :
  dbg_ok d -> (forall p, breakpoint_evt d = Some p -> evt_removable (sch (ctx d)) p) ->
  let s1 := upd_step (upd_dbg (ctx d) (debuggerState (ctx d)) false (steps_to_break (ctx d))) true in
  let d1 := with_bp (remove_evt (with_ctx d s1) (breakpoint_evt d)) None in
  exists d', (if 0 <? steps then add_breakpoint ops malloc true d1 w steps else Some d1) = Some d' /\
    dbg_ok d' /\ same_program d d' /\ break_on_next (ctx d') = false /\ dbg_step (ctx d') = true.
Proof.
  intros (Hwf & Hfd & Hb & Hd) Hrem s1 d1.
  destruct (drop_evt (with_ctx d s1) (breakpoint_evt d) Main EDBG_BREAKPOINT_CB Hwf) as (D1 & D2 & D3 & D4); [auto|].
  assert (Hd1 : sch (ctx d1) = sch (ctx (remove_evt (with_ctx d s1) (breakpoint_evt d)))) by done.
  rewrite <- Hd1 in D1, D2. change (sch (ctx (with_ctx d s1))) with (sch (ctx d)) in D2.
  assert (Hf1 : fdt (ctx d1) = fdt (ctx d) /\ dump_evt d1 = dump_evt d /\ keepGoing (ctx d1) = keepGoing (ctx d) /\
    in_loop (ctx d1) = in_loop (ctx d) /\ deferred (ctx d1) = deferred (ctx d) /\ evt_timer (ctx d1) = evt_timer (ctx d) /\
    break_on_next (ctx d1) = false /\ dbg_step (ctx d1) = true) by (unfold d1; by destruct (breakpoint_evt d)).
  destruct Hf1 as (F1 & F2 & F3 & F4 & F5 & F6 & F7 & F8).
  assert (Hdump : forall p, dump_evt d = Some p -> own (sch (ctx d1)) Dbg EDBG_DUMP_CB p).
  { intros p Hp. apply (kept_own _ _ _ _ _ _ D2); [|by apply Hd]. intros Hx. apply elem_of_list_to_set in Hx.
    destruct (breakpoint_evt d) as [q|] eqn:E; [|by apply elem_of_nil in Hx]. apply list_elem_of_singleton in Hx as ->.
    destruct (Hb q eq_refl) as (e & He & _ & Hc & _), (Hd q Hp) as (e' & He' & _ & Hc' & _). rewrite He in He'. injection He' as <-.
    rewrite Hc in Hc'. discriminate. }
  assert (Hkeep : forall c, kept ∅ (sch (ctx d1)) c -> kept (dbg_evts d) (sch (ctx d)) c).
  { intros c Hc. destruct (kept_trans _ _ _ _ _ D2 Hc) as [K K']. split; [|done]. intros x e Hx. apply K. unfold dbg_evts in Hx. set_solver. }
  destruct (0 <? steps).
  - destruct (add_breakpoint_ok d1 w steps D1) as (p & d' & E & A1 & A2 & A3 & A4 & A5 & A6 & _ & A7 & _).
    exists d'. split; [exact E|]. split_and!.
    + split_and!; [done|rewrite A7; change (fd_wf (fdt (ctx d1))); by rewrite F1| |].
      * intros q Hq. rewrite A3 in Hq. injection Hq as <-. exact A5.
      * intros q Hq. rewrite A4, F2 in Hq. apply (kept_own _ _ _ _ _ _ A6); [set_solver|by apply Hdump].
    + apply same_sch; [by apply Hkeep|rewrite A7; first [exact F1|exact F3|exact F4|exact F5|exact F6]..].
    + rewrite A7. exact F7.
    + rewrite A7. exact F8.
  - exists d1. split; [done|]. split_and!; try done.
    + split_and!; [done|by rewrite F1|done|]. intros q Hq. rewrite F2 in Hq. by apply Hdump.
    + apply same_sch; try done. apply Hkeep, kept_refl.
Qed.

Lemma periodic_ok d w steps :
  dbg_ok d -> (forall p, dump_evt d = Some p -> evt_removable (sch (ctx d)) p) ->
  (forall x, x ∈ contents (queue (sch (ctx d))) ->
     get_pri (heap (sch (ctx d))) x <> timeradd (EVT_get_monotonic_time ops (ctx d) w) (EVT_ms2tv steps)) ->
  let d1 := with_dump (remove_evt d (dump_evt d)) None in
  exists d', (if 500 <=? steps then add_dump ops mono malloc true d1 w steps else Some d1) = Some d' /\
    dbg_ok d' /\ same_program d d'.
Proof.
  intros (Hwf & Hfd & Hb & Hd) Hrem Hfree d1.
  destruct (drop_evt d (dump_evt d) Dbg EDBG_DUMP_CB Hwf) as (D1 & D2 & D3 & D4); [auto|].
  assert (Hd1 : sch (ctx d1) = sch (ctx (remove_evt d (dump_evt d)))) by done. rewrite <- Hd1 in D1, D2, D3.
  assert (Hf1 : fdt (ctx d1) = fdt (ctx d) /\ breakpoint_evt d1 = breakpoint_evt d /\ keepGoing (ctx d1) = keepGoing (ctx d) /\
    in_loop (ctx d1) = in_loop (ctx d) /\ deferred (ctx d1) = deferred (ctx d) /\ evt_timer (ctx d1) = evt_timer (ctx d))
    by (unfold d1; by destruct (dump_evt d)).
  destruct Hf1 as (F1 & F2 & F3 & F4 & F5 & F6).
  assert (Hbp : forall p, breakpoint_evt d = Some p -> own (sch (ctx d1)) Main EDBG_BREAKPOINT_CB p).
  { intros p Hp. apply (kept_own _ _ _ _ _ _ D2); [|by apply Hb]. intros Hx. apply elem_of_list_to_set in Hx.
    destruct (dump_evt d) as [q|] eqn:E; [|by apply elem_of_nil in Hx]. apply list_elem_of_singleton in Hx as ->.
    destruct (Hd q eq_refl) as (e & He & _ & Hc & _), (Hb q Hp) as (e' & He' & _ & Hc' & _). rewrite He in He'. injection He' as <-.
    rewrite Hc in Hc'. discriminate. }
  assert (Hkeep : forall c, kept ∅ (sch (ctx d1)) c -> kept (dbg_evts d) (sch (ctx d)) c).
  { intros c Hc. destruct (kept_trans _ _ _ _ _ D2 Hc) as [K K']. split; [|done]. intros x e Hx. apply K. unfold dbg_evts in Hx. set_solver. }
  destruct (500 <=? steps).
  - assert (Hpri : forall x, x ∈ contents (queue (sch (ctx d1))) ->
      get_pri (heap (sch (ctx d1))) x <> timeradd (EVT_get_monotonic_time ops (ctx d1) w) (EVT_ms2tv steps)).
    { intros x Hx. pose proof (D3 Main x Hx) as Hx0. assert (Ht : EVT_get_monotonic_time ops (ctx d1) w = EVT_get_monotonic_time ops (ctx d) w)
        by (unfold EVT_get_monotonic_time; by rewrite F6). rewrite Ht. intros E. apply (Hfree x Hx0). rewrite <- E.
      destruct (wf_event _ Hwf Main x Hx0) as (e & He & Hq & _). assert (Hne : x ∉ (list_to_set (option_list (dump_evt d)) : gset ptr)).
      { intros C. apply elem_of_list_to_set in C. destruct (dump_evt d) as [q|] eqn:Eq; [|by apply elem_of_nil in C].
        apply list_elem_of_singleton in C as ->. destruct (Hd q eq_refl) as (e' & He' & _ & _ & _ & Hq' & _).
        rewrite He in He'. injection He' as <-. congruence. }
      destruct (proj1 D2 x e Hne He) as (n & b & H). unfold get_pri. by rewrite He, H. }
    destruct (add_dump_ok d1 w steps D1 Hpri) as (p & d' & E & A1 & A2 & A3 & A4 & A5 & A6 & _ & A7).
    exists d'. split; [exact E|]. split.
    + split_and!; [done|rewrite A7; change (fd_wf (fdt (ctx d1))); by rewrite F1| |].
      * intros q Hq. rewrite A4, F2 in Hq. apply (kept_own _ _ _ _ _ _ A6); [set_solver|by apply Hbp].
      * intros q Hq. rewrite A3 in Hq. injection Hq as <-. exact A5.
    + apply same_sch; [by apply Hkeep|rewrite A7; first [exact F1|exact F3|exact F4|exact F5|exact F6]..].
  - exists d1. split; [done|]. split.
    + split_and!; [done|by rewrite F1| |done]. intros q Hq. rewrite F2 in Hq. by apply Hbp.
    + apply same_sch; try done. apply Hkeep, kept_refl.
Qed.

Lemma fd_breakpoint_ok d f v :
  dbg_ok d -> 0 <= f ->
  let d' := with_ctx d (upd_fds (ctx d) (evt_fd_set_paused (fdt (ctx d)) f v)) in dbg_ok d' /\ same_program d d'.
Proof.
  intros (Hwf & Hfd & Hb & Hd) Hf d'. destruct (fd_set_paused_wf (fdt (ctx d)) f v Hfd Hf) as (P1 & P2 & P3).
  split; [done|]. split; [apply kept_refl|]. split; [|done]. intros g Hg. cbn [ctx d' with_ctx fdt upd_fds].
  destruct (decide (g = f)) as [->|Hne].
  - rewrite P2. destruct (entry (fdt (ctx d)) f); constructor. done.
  - rewrite P3 by done. destruct (entry (fdt (ctx d)) g); constructor. done.
Qed.

Lemma evt_breakpoint_ok d o v :
  dbg_ok d -> (forall p, o = Some p -> p ∈ contents (queue (sch (ctx d)))) ->
  dbg_ok (set_evt_breakpoint d o v) /\ same_program d (set_evt_breakpoint d o v).
Proof.
  intros Hok Ho. destruct o as [p|]; [|by apply same_state]. pose proof Hok as (Hwf & Hfd & Hb & Hd). specialize (Ho p eq_refl).
  destruct (wf_event _ Hwf Main p Ho) as (e & He & _).
  assert (Hn : p <> null_evt (sch (ctx d))) by (intros ->; destruct Hwf as (_ & _ & _ & _ & W5 & _); by apply (W5 Main)).
  destruct (set_breakpoint_wf _ p e v Hwf He Hn) as (B1 & B2 & B3). cbn [set_evt_breakpoint].
  set (c' := with_heap (sch (ctx d)) _) in *.
  assert (Hk : kept ∅ (sch (ctx d)) c').
  { split; [|done]. intros x ex _ Hx. rewrite B2. destruct (decide (x = p)) as [->|Hne].
    - rewrite He in Hx. injection Hx as <-. exists (pos e), v. rewrite lookup_insert_eq. by destruct e.
    - exists (pos ex), (breakpoint ex). rewrite lookup_insert_ne, Hx by done. by destruct ex. }
  split.
  - split_and!; try done; intros q Hq; (eapply kept_own; [exact Hk|set_solver|]); [by apply Hb|by apply Hd].
  - apply same_sch; try done. destruct Hk as [K K']. split; [|done]. intros x ex _. apply K. set_solver.
Qed.

(** C28. A message of a debugger that has a command and less than 2^31 bytes
    leaves the process in order and the program as it was: the tables stay
    well formed and the debugger's own events live and not critical; the
    program's events keep their times, callbacks and place among the critical
    ones, and only breakpoints, the stepping state and the debugger's two
    events change. Conditions: malloc and the growth of the queue succeed
    (without memory the code writes through NULL, [Demo.no_memory_faults]),
    and the process is calm ([calm]): the debugger's own events can be removed
    from the queue (no tie with their parent in the heap), and a time limit in
    the message does not fall on the very time of an event of the program. *)
Theorem debugger_transparent d w junk msg code cmd :
  dbg_ok d -> calm d w msg -> zlen msg < 2 ^ 31 ->
  json_get_string_prop (Some msg) (Some (lit "command")) true = Some (code, cmd) -> cmd <> Some None ->
  exists d', client_msg d w junk msg = Some d' /\ dbg_ok d' /\ same_program d d'.
Proof.
  intros Hok [Hrem Hfree] Hl Ecmd Hcmd. unfold edbg_client_msg. rewrite Ecmd. cbn [mbind option_bind].
  destruct cmd as [[cmd|]|]; [|done|by exists d; split; [|apply same_state]].
  destruct (named cmd "run").
  { destruct (int_prop_some msg (lit "ms") junk Hl) as [v ->]. cbn [mbind option_bind].
    destruct (run_ok d w v Hok) as (d' & E & H1 & H2 & _); [auto|]. by exists d'. }
  destruct (named cmd "stop"); [eexists; split; [reflexivity|by apply same_state]|].
  destruct (named cmd "next").
  { destruct (int_prop_some msg (lit "steps") 1 Hl) as [v ->]. eexists. split; [reflexivity|by apply same_state]. }
  destruct (named cmd "start_dumping_every_loop"); [eexists; split; [reflexivity|by apply same_state]|].
  destruct (named cmd "stop_dumping_every_loop"); [eexists; split; [reflexivity|by apply same_state]|].
  destruct (named cmd "dump_now").
  { destruct (report_ok d w true Hok) as (d' & -> & [->|[t ->]]); eexists; (split; [reflexivity|by apply same_state]). }
  destruct (named cmd "periodic_dump").
  { destruct (int_prop_some msg (lit "ms") 0 Hl) as [v E]. rewrite E. cbn [mbind option_bind]. apply periodic_ok; auto. }
  destruct (named cmd "set_fd_breakpoint" || named cmd "clear_fd_breakpoint").
  { destruct (int_prop_some msg (lit "fd") 0 Hl) as [v ->]. cbn [mbind option_bind]. eexists. split; [reflexivity|].
    destruct (Z.ltb_spec 2 v); [apply fd_breakpoint_ok; [done|lia]|by apply same_state]. }
  destruct (named cmd "set_timed_breakpoint" || named cmd "clear_timed_breakpoint").
  { destruct (named_some (sch (ctx d)) msg Hl) as (o & -> & Ho); [apply Hok|]. cbn [mbind option_bind]. eexists. split; [reflexivity|].
    by apply evt_breakpoint_ok. }
  eexists. split; [reflexivity|by apply same_state].
Qed.
End Facts.

(** ** Single steps *)

(** What the debugger relies on: callbacks of the program leave the stepping
    state and the counter of timed events alone. *)
Class Undebugged {T W} (sched_cb : Z -> Z -> EventState T -> W -> Z * EventState T * W) := {
  undebugged : forall f a s w,
    let '(_, s', _) := sched_cb f a s w in
    break_on_next s' = break_on_next s /\ steps_to_break s' = steps_to_break s /\
    timed_event_counter s' = timed_event_counter s
}.

Section Steps.
Context {T W : Type} (ops : EventTimerOps T (W * fd_sets)) (can_grow : W -> bool).
Context (sched_cb : Z -> Z -> EventState T -> W -> Z * EventState T * W) `{!SchedCallbacks sched_cb, !Undebugged sched_cb}.

(** One due event while steps are counted: the last step stops before it. *)
Lemma step_event ok s w p e t :
  sched_wf (sch s) -> sched_popped (sch s) p -> heap (sch s) !! p = Some e -> break_on_next s = true ->
  exists go s' w', evt_process_timed_event sched_cb ok s w p t false = (go, s', w') /\ sched_wf (sch s') /\
    go = negb (steps_to_break s <=? 1) /\ steps_to_break s' = steps_to_break s - 1 /\
    if go then break_on_next s' = true /\ timed_event_counter s' = timed_event_counter s + 1
    else timed_event_counter s' = timed_event_counter s /\ debuggerState s' = EDBG_STOPPED /\
         next_timed_event (sch s') = Some p /\ w' = w.
Proof.
  intros Hwf Hpop He Hb. rewrite (process_timed_unfold sched_cb ok s w p e t false He).
  assert (Hst : stops s e false = (steps_to_break s <=? 1)) by (unfold stops; by rewrite Hb). rewrite Hst.
  set (s1 := count_step s e false).
  assert (Hs1 : sch s1 = sch s /\ steps_to_break s1 = steps_to_break s - 1 /\ break_on_next s1 = true /\
    timed_event_counter s1 = timed_event_counter s) by (unfold s1, count_step; by rewrite Hb).
  destruct Hs1 as (S1 & S2 & S3 & S4). destruct (steps_to_break s <=? 1).
  - eexists _, _, _. split; [reflexivity|]. cbn [negb]. split_and!; try done. by apply hold_wf.
  - rewrite <- S1 in Hwf, Hpop, He. destruct (called_held s1 p e Hwf Hpop He) as [Hwf3 Hheld].
    pose proof (sched_cb_ok (callback e) (arg e) _ w p Hwf3 Hheld) as Hcb.
    pose proof (undebugged (callback e) (arg e) (called_state s1 p e) w) as Hu.
    destruct (sched_cb _ _ _ w) as [[r s4] w4]. destruct Hcb as [Hwf4 ((e2 & He2 & _) & Hnq & Hnull & Hnt)].
    destruct Hu as (U1 & U2 & U3). rewrite He2.
    assert (Hend : forall c, sched_wf c -> exists go s' w', (true, upd_sched s4 c, w4) = (go, s', w') /\ sched_wf (sch s') /\
      go = true /\ steps_to_break s' = steps_to_break s - 1 /\
      if (go : bool) then break_on_next s' = true /\ timed_event_counter s' = timed_event_counter s + 1 else
        timed_event_counter s' = timed_event_counter s /\ debuggerState s' = EDBG_STOPPED /\ next_timed_event (sch s') = Some p /\ w' = w).
    { intros c Hc. exists true, (upd_sched s4 c), w4. split_and!; try done.
      - cbn. rewrite U2. exact S2.
      - cbn. rewrite U1. exact S3.
      - cbn. rewrite U3. cbn. by rewrite S4. }
    destruct (r =? EVENT_KEEP); apply Hend.
    + set (e4 := with_inCallback _ 0). assert (Hc4 : critical e4 = critical e2) by (unfold e4; by destruct (inCallback e2 =? 1)).
      set (c5 := with_heap (sch s4) (<[p:=e4]> (heap (sch s4)))).
      assert (Hwf5 : sched_wf c5) by (by apply (unqueued_update_wf _ p e2)).
      assert (He5 : heap c5 !! p = Some e4) by (cbn; apply lookup_insert_eq).
      apply (keep_insert_wf ok c5 p e4); try done.
    + by apply (free_popped_wf (sch s4) p e2).
Qed.

(** The pass over the due events, with [n] steps to the break. *)
Lemma step_pass fuel s w real :
  sched_wf (sch s) -> break_on_next s = true -> 1 <= steps_to_break s <= Z.of_nat fuel ->
  exists go real' s' w', timed_pass ops can_grow sched_cb fuel s w real = Some (go, real', s', w') /\ sched_wf (sch s') /\
    if go then break_on_next s' = true /\ 1 <= steps_to_break s' /\
               timed_event_counter s' + steps_to_break s' = timed_event_counter s + steps_to_break s
    else timed_event_counter s' = timed_event_counter s + steps_to_break s - 1 /\ debuggerState s' = EDBG_STOPPED /\
         is_Some (next_timed_event (sch s')).
Proof.
  revert s w real. induction fuel as [|fuel IH]; intros s w real Hwf Hb Hn; [lia|]. cbn [timed_pass].
  destruct (ps_pqueue_peek (Some (queue (sch s)))) as [p|] eqn:Hpk; [|exists true, real, s, w; split_and!; try done; lia].
  destruct (timercmp Z.gtb _ _); [exists true, real, s, w; split_and!; try done; lia|].
  destruct (peek_pop (sch s) p Hwf Hpk) as [c Hc]. rewrite Hc.
  destruct (pop_event_wf (sch s) p c Hwf Hc) as (Hwfc & _ & _ & _ & (e & _ & Hpc & _) & Hnq & Hnull & Hnt & _).
  destruct (step_event (can_grow w) (upd_sched s c) w p _ (EVT_get_monotonic_time ops s w) Hwfc
    (conj (mk_is_Some _ _ Hpc) (conj Hnq (conj Hnull Hnt))) Hpc Hb) as (go & s' & w' & -> & P1 & P2 & P3 & P4).
  change (steps_to_break (upd_sched s c)) with (steps_to_break s) in P2, P3.
  change (timed_event_counter (upd_sched s c)) with (timed_event_counter s) in P4.
  destruct (Z.leb_spec (steps_to_break s) 1) as [Hle|Hgt]; cbn [negb] in P2; subst go.
  - destruct P4 as (P4 & P5 & P6 & _). exists false, real, s', w'. split; [done|]. split; [exact P1|].
    split; [lia|]. split; [exact P5|]. rewrite P6. by eexists.
  - destruct P4 as (P4 & P5). destruct (IH s' w' true P1 P4 ltac:(lia)) as (go & real' & s2 & w2 & E & Q1 & Q2).
    exists go, real', s2, w2. split; [exact E|]. split; [exact Q1|].
    destruct go; destruct Q2 as (Q2 & Q3 & Q4); split_and!; try done; lia.
Qed.
End Steps.

(** ** Messages and reports *)

Lemma same_name_trans a b c : same_name a b = true -> same_name a c = true -> same_name b c = true.
Proof.
  revert b c. induction a as [|x a IH]; intros [|y b] [|z c]; try done. cbn. rewrite !andb_true_iff, !Z.eqb_eq.
  intros [H1 H2] [H3 H4]. split; [congruence|by apply IH].
Qed.

Lemma named_other cmd (x y : String.string) : named cmd x = true -> same_name (lit x) (lit y) = false -> named cmd y = false.
Proof.
  unfold named. intros H1 H2. destruct (same_name cmd (lit y)) eqn:E; [|done]. by rewrite (same_name_trans cmd _ _ H1 E) in H2.
Qed.

Arguments named_other cmd x%_string_scope y%_string_scope.

Section Messages.
Context {T W : Type} (ops : EventTimerOps T (W * fd_sets)) (can_grow : W -> bool) (mono : W -> timeval).
Context (malloc : EventState T -> option ptr) (realloc_ok : bool).
Context (dlsym : str -> option Z) (function_name : Z -> str).
Context (fd_file : Z -> option str) (fd_name : Z -> str) (fd_addr fd_arg_addr : Z -> Z).
Context (state_text : option (EventState T -> str)).
Context (sched_cb : Z -> Z -> EventState T -> W -> Z * EventState T * W) `{!SchedCallbacks sched_cb, !Undebugged sched_cb}.
Implicit Types d : debugger T.

Abbreviation client_msg :=
  (edbg_client_msg ops mono malloc realloc_ok dlsym function_name fd_file fd_name fd_addr fd_arg_addr state_text).

(** The number of steps that the members of a message ask for. *)
Definition steps_of (ms : list member) : Z :=
  match last_member (lit "steps") ms with Some v => s32 (atol v) | None => 1 end.

(** Single stepping: after the command [next] with [n] steps (one when it
    does not say), however the message is laid out, the held event runs in the
    next turn and then at most [n - 1] of the events that are due, and the loop
    stops, with the next one held, exactly after [n - 1] of them; when fewer are
    due the steps that are left are counted on.  The pass ends within [n]
    turns. *)
Theorem debugger_next d w junk before inside after ms cmd fuel :
  let msg := object_text before inside after ms in
  let n := steps_of ms in
  zlen msg < 2 ^ 31 -> Forall member_ok ms -> spaces before -> spaces inside -> spaces after ->
  cstr <$> last_member (lit "command") ms = Some cmd -> named cmd "next" = true ->
  sched_wf (sch (ctx d)) -> 1 <= n <= Z.of_nat fuel ->
  exists d', client_msg d w junk msg = Some d' /\ dbg_step (ctx d') = true /\ sch (ctx d') = sch (ctx d) /\
  exists go real s' w', timed_pass ops can_grow sched_cb fuel (ctx d') w false = Some (go, real, s', w') /\ sched_wf (sch s') /\
    let ran := timed_event_counter s' - timed_event_counter (ctx d) in
    if go then ran < n /\ break_on_next s' = true /\ steps_to_break s' = n - ran
    else ran = n - 1 /\ debuggerState s' = EDBG_STOPPED /\ is_Some (next_timed_event (sch s')).
Proof.
  intros msg n Hl Hms Hb Hi Ha Hcmd Hnext Hwf Hn.
  destruct (getters_object before inside after ms (lit "command") Hl Hms Hb Hi Ha) as (_ & _ & Gc).
  destruct (getters_object before inside after ms (lit "steps") Hl Hms Hb Hi Ha) as (Gs & _ & _).
  fold msg in Gc, Gs. rewrite Hcmd in Gc.
  set (s1 := upd_step (upd_dbg (ctx d) (debuggerState (ctx d)) true n) true).
  exists (with_ctx d s1). split.
  { unfold edbg_client_msg. rewrite Gc. cbn [mbind option_bind]. rewrite (named_other cmd "next" "run" Hnext eq_refl),
      (named_other cmd "next" "stop" Hnext eq_refl), Hnext. unfold int_prop. rewrite Gs. cbn [mbind option_bind].
    replace (default 1 _) with n; [done|]. unfold n, steps_of. by destruct (last_member (lit "steps") ms). }
  split; [done|]. split; [done|].
  destruct (step_pass ops can_grow sched_cb fuel s1 w false Hwf eq_refl Hn) as (go & real & s' & w' & E & H1 & H2).
  exists go, real, s', w'. split; [exact E|]. split; [exact H1|]. cbv zeta.
  change (steps_to_break s1) with n in H2. change (timed_event_counter s1) with (timed_event_counter (ctx d)) in H2.
  destruct go; destruct H2 as (H2 & H3 & H4); split_and!; try done; lia.
Qed.
End Messages.

Section Reports.
Context {T W : Type} (ops : EventTimerOps T (W * fd_sets)).
Context (function_name : Z -> str) (fd_file : Z -> option str) (fd_name : Z -> str) (fd_addr fd_arg_addr : Z -> Z).
Implicit Types d : debugger T.

Abbreviation report_state := (edbg_report_state ops function_name fd_file fd_name fd_addr fd_arg_addr None).

(** The members of a short report. *)
Definition report_members d (now : timeval) : list member :=
  let nl := [10; 32; 32] in
  [Member (lit "loop_steps") (Bare (decimal (u64 (loop_counter (ctx d))))) nl [] [32] [];
   Member (lit "dbg_state") (Quoted (lit "running")) nl [] [32] [];
   Member (lit "port") (Bare (decimal (u32 (dbgPort d)))) nl [] [] [];
   Member (lit "timed_events") (Bare (decimal (u64 (timed_event_counter (ctx d))))) nl [] [] [];
   Member (lit "fd_events") (Bare (decimal (u64 (fd_event_counter (ctx d))))) nl [] [] [];
   Member (lit "critical_sched_count") (Bare (decimal (critical_sched_count (sch (ctx d))))) nl [] [] [];
   Member (lit "critical_fd_count") (Bare (decimal (critical_fd_count (fdt (ctx d))))) [32; 32] [] [] [];
   Member (lit "current_time") (Bare (time_text now)) nl [] [32] [10]].

Lemma short_report d w n :
  dbgServer d = Some n -> n <> 0 -> debuggerState (ctx d) <> EDBG_STOPPED ->
  report_state d w false = Some (broadcast d (object_text [] [] [] (report_members d (EVT_get_monotonic_time ops (ctx d) w)))).
Proof.
  intros Hs Hn Hst. unfold edbg_report_state. rewrite Hs, (proj2 (Z.eqb_neq _ _) Hn). cbn [mbind option_bind].
  do 2 f_equal. unfold report_next, report_head, object_text, report_members. rewrite !decide_False by done.
  cbv [members_text member_text m_key m_val sp1 sp2 sp3 sp4 value_text].
  generalize (decimal (u64 (loop_counter (ctx d)))), (decimal (u32 (dbgPort d))), (decimal (u64 (timed_event_counter (ctx d)))),
    (decimal (u64 (fd_event_counter (ctx d)))), (decimal (critical_sched_count (sch (ctx d)))), (decimal (critical_fd_count (fdt (ctx d)))),
    (time_text (EVT_get_monotonic_time ops (ctx d) w)). intros l1 l2 l3 l4 l5 l6 l7.
  repeat (rewrite <- ?app_assoc; progress cbn [app]). vm_compute. reflexivity.
Qed.

Lemma decimal_member v : - 2 ^ 64 < v < 2 ^ 64 -> decimal v <> [] /\ Forall (fun c => plain c = true) (decimal v).
Proof.
  intros H. split.
  - unfold decimal. destruct (Z.ltb_spec v 0); [done|]. destruct (numeral_start v ltac:(lia)) as [->|(c & r & -> & _)]; done.
  - eapply list.Forall_impl; [by apply decimal_plain|]. intros c [->|Hc]; [done|]. unfold plain, is_ws, QUOTE.
    rewrite !andb_true_iff, !negb_true_iff, !orb_false_iff, !Z.eqb_neq. lia.
Qed.

Lemma time_member t :
  0 <= tv_sec t < 2 ^ 64 -> 0 <= tv_usec t < 1000000 ->
  time_text t <> [] /\ Forall (fun c => plain c = true) (time_text t) /\ (length (time_text t) <= 64)%nat.
Proof.
  intros H1 H2. unfold time_text, pad_left. destruct (decimal_member (tv_sec t) ltac:(lia)) as [D1 D2].
  destruct (decimal_member (tv_usec t) ltac:(lia)) as [_ D3]. pose proof (decimal_short (tv_sec t)) as L1. pose proof (decimal_short (tv_usec t)) as L2.
  split_and!; [by destruct (decimal (tv_sec t))| |].
  - rewrite !list.Forall_app. split_and!; [done|by repeat constructor| |done]. by apply Forall_replicate.
  - rewrite !length_app, length_replicate. cbn [length]. lia.
Qed.

(** The counters fit the [int] that the reader has for them. *)
Definition report_fits d (now : timeval) : Prop :=
  0 <= loop_counter (ctx d) < 2 ^ 31 /\ 0 <= timed_event_counter (ctx d) < 2 ^ 31 /\ 0 <= fd_event_counter (ctx d) < 2 ^ 31 /\
  0 <= dbgPort d < 2 ^ 31 /\ 0 <= critical_sched_count (sch (ctx d)) < 2 ^ 31 /\ 0 <= critical_fd_count (fdt (ctx d)) < 2 ^ 31 /\
  0 <= tv_sec now < 2 ^ 64 /\ 0 <= tv_usec now < 1000000.

Lemma report_object d now :
  report_fits d now -> let text := object_text [] [] [] (report_members d now) in zlen text < 2 ^ 31 /\ Forall member_ok (report_members d now).
Proof.
  intros (H1 & H2 & H3 & H4 & H5 & H6 & H7 & H8). destruct (time_member now H7 H8) as (T1 & T2 & T3).
  unfold report_members. rewrite !(u64_small (_ (ctx d))), (u32_small (dbgPort d)) by lia. split.
  - cbv [object_text members_text member_text m_key m_val sp1 sp2 sp3 sp4 value_text].
    pose proof (decimal_short (loop_counter (ctx d))). pose proof (decimal_short (timed_event_counter (ctx d))).
    pose proof (decimal_short (fd_event_counter (ctx d))). pose proof (decimal_short (dbgPort d)).
    pose proof (decimal_short (critical_sched_count (sch (ctx d)))). pose proof (decimal_short (critical_fd_count (fdt (ctx d)))).
    repeat (rewrite ?length_app; cbn [length app]). 
    assert (L : forall s, length (lit s) = String.length s).
    { intros s. unfold lit. rewrite length_fmap. induction s; cbn; congruence. }
    rewrite !L. cbn [String.length]. lia.
  - assert (K : forall s : String.string, forallb (fun c => negb (c =? QUOTE)) (lit s) = true -> QUOTE ∉ lit s).
    { intros s Hs Hin. rewrite forallb_forall in Hs. apply list_elem_of_In, Hs in Hin. done. }
    assert (Hsp : spaces [] /\ spaces [32] /\ spaces [32; 32] /\ spaces [10] /\ spaces [10; 32; 32]) by (repeat split; repeat constructor).
    destruct Hsp as (S0 & S1 & S2 & S3 & S4).
    repeat apply list.Forall_cons_2; try apply list.Forall_nil_2; (split; [by apply K|]); cbn [sp1 sp2 sp3 sp4 m_val];
      (split_and!; try done; try (apply decimal_member; lia)). by apply K.
Qed.

(** A short report of a running process is a JSON object that the reader
    of this library reads back: the counters of turns, of timed and descriptor
    events and of critical ones have the values of the event loop. *)
Theorem report_readable d w n :
  let now := EVT_get_monotonic_time ops (ctx d) w in
  dbgServer d = Some n -> n <> 0 -> debuggerState (ctx d) <> EDBG_STOPPED -> report_fits d now ->
  exists text, report_state d w false = Some (broadcast d text) /\
    json_get_int_prop (Some text) (Some (lit "loop_steps")) true = Some (0, Some (loop_counter (ctx d))) /\
    json_get_int_prop (Some text) (Some (lit "timed_events")) true = Some (0, Some (timed_event_counter (ctx d))) /\
    json_get_int_prop (Some text) (Some (lit "fd_events")) true = Some (0, Some (fd_event_counter (ctx d))) /\
    json_get_int_prop (Some text) (Some (lit "critical_sched_count")) true = Some (0, Some (critical_sched_count (sch (ctx d)))) /\
    json_get_int_prop (Some text) (Some (lit "critical_fd_count")) true = Some (0, Some (critical_fd_count (fdt (ctx d)))) /\
    json_get_string_prop (Some text) (Some (lit "dbg_state")) true = Some (0, Some (Some (lit "running"))).
Proof.
  intros now Hs Hn Hst Hfit. destruct (report_object d now Hfit) as [Hl Hm].
  exists (object_text [] [] [] (report_members d now)). split; [by apply (short_report d w n)|].
  destruct Hfit as (H1 & H2 & H3 & H4 & H5 & H6 & H7 & H8).
  assert (G : forall prop v, - 2 ^ 31 <= v < 2 ^ 31 -> last_member prop (report_members d now) = Some (take 2047 (decimal v)) ->
    json_get_int_prop (Some (object_text [] [] [] (report_members d now))) (Some prop) true = Some (0, Some v)).
  { intros prop v Hv E. destruct (getters_object [] [] [] (report_members d now) prop Hl Hm) as (-> & _ & _); try by constructor.
    rewrite E, take_ge by (pose proof (decimal_short v); lia). unfold atol. rewrite strtol_decimal by (auto || lia). cbn [fst]. by rewrite s32_small. }
  split_and!; try (apply G; [lia|]; unfold report_members; rewrite ?(u64_small (_ (ctx d))) by lia; reflexivity).
  destruct (getters_object [] [] [] (report_members d now) (lit "dbg_state") Hl Hm) as (_ & _ & ->); try by constructor.
Qed.
End Reports.

(** ** Examples *)

Module Demo.

Definition malloc (s : EventState VirtualEventTimer) : option ptr := Some (fresh (dom (heap (sch s)))).

Lemma malloc_ok s : exists p, malloc s = Some p /\ heap (sch s) !! p = None.
Proof. eexists. split; [done|]. apply not_elem_of_dom, is_fresh. Qed.

Definition mono (_ : unit) : timeval := TV 900 0.
Definition dlsym (_ : str) : option Z := None.
Definition function_name (_ : Z) : str := lit "f".
(** Only descriptor 9 has a file. *)
Definition fd_file (f : Z) : option str := if f =? 9 then Some (lit "tty") else None.

(** A handler at time 120 with three due events and one client. *)
Definition d0 : debugger VirtualEventTimer :=
  DS (upd_fds (demo_state demo (TV 120 0)) demo_fds) None None false true ∅ (Some 1) 4000 [].

Abbreviation message := (edbg_client_msg virt_ops mono malloc true dlsym function_name fd_file (fun _ => []) (fun f => f) (fun f => f) None).

Lemma d0_ok : dbg_ok d0.
Proof. split_and!; [apply demo_wf|apply demo_fds_wf|done|done]. Qed.

(** [ {"command":"next","steps":2} ] *)
Definition next2 : list member :=
  [Member (lit "command") (Quoted (lit "NEXT")) [] [] [] []; Member (lit "steps") (Bare (lit "2")) [] [] [] []].

(** [ {"command":"periodic_dump","ms":500} ] *)
Definition dump500 : list member :=
  [Member (lit "command") (Quoted (lit "periodic_dump")) [] [] [] []; Member (lit "ms") (Bare (lit "500")) [] [] [] []].

Lemma next2_ok : Forall member_ok next2.
Proof. repeat constructor; try discriminate; by apply (bool_decide_unpack _). Qed.

#[export] Instance keep_cb_undebugged : Undebugged keep_cb.
Proof. by split. Qed.

(** An object without a command is read through a NULL pointer. *)
Lemma no_command_faults : message d0 tt 0 (object_text [] [] [] []) = None.
Proof. vm_compute. reflexivity. Qed.

(** [run] without [ms] goes by what is in an unset variable: with nothing there
    is no breakpoint, with another value one is scheduled. *)
Lemma run_unset :
  let run := object_text [] [] [] [Member (lit "command") (Quoted (lit "run")) [] [] [] []] in
  breakpoint_evt <$> message d0 tt 0 run = Some None /\
  breakpoint_evt <$> message d0 tt 1000 run = Some (Some (fresh (dom (heap demo)))).
Proof. vm_compute. done. Qed.

(** A report that cannot be scheduled is named through a NULL pointer. *)
Lemma no_memory_faults :
  edbg_client_msg virt_ops mono (fun _ => None) true dlsym function_name fd_file (fun _ => []) (fun f => f) (fun f => f) None
    d0 tt 0 (object_text [] [] [] dump500) = None.
Proof. vm_compute. reflexivity. Qed.

(** The entry whose file is not found comes first: the list starts with a
    comma. *)
Lemma report_stray_comma :
  take 4 (report_fds function_name fd_file (fun _ => []) (fun f => f) (fun f => f) [new_entry 8; new_entry 9] true) = [44; 10; 32; 32].
Proof. vm_compute. reflexivity. Qed.

End Demo.

Lemma debugger_transparent_witness :
  exists d', Demo.message Demo.d0 tt 0 (object_text [] [] [] Demo.dump500) = Some d' /\ dbg_ok d' /\ same_program Demo.d0 d'.
Proof.
  apply (debugger_transparent virt_ops Demo.mono Demo.malloc Demo.malloc_ok Demo.dlsym Demo.function_name Demo.fd_file (fun _ => [])
    (fun f => f) (fun f => f) None Demo.d0 tt 0 (object_text [] [] [] Demo.dump500) 0 (Some (Some (lit "periodic_dump")))).
  - exact Demo.d0_ok.
  - split.
    + intros p [H|H]; discriminate H.
    + intros ms x Hms Hx. vm_compute in Hms. injection Hms as <-.
      assert (Hl : contents (queue (sch (ctx Demo.d0))) = [2; 3; 4]%positive) by (vm_compute; reflexivity). rewrite Hl in Hx.
      repeat (apply elem_of_cons in Hx as [->|Hx]; [vm_compute; congruence|]). by apply elem_of_nil in Hx.
  - vm_compute. reflexivity.
  - vm_compute. reflexivity.
  - congruence.
Defined.

Lemma debugger_next_witness :
  exists d', Demo.message Demo.d0 tt 0 (object_text [] [] [] Demo.next2) = Some d' /\
  exists go real s' w', timed_pass virt_ops (fun _ => true) keep_cb 2 (ctx d') tt false = Some (go, real, s', w') /\
    (if go then timed_event_counter s' < 2 else timed_event_counter s' = 1 /\ debuggerState s' = EDBG_STOPPED).
Proof.
  destruct (@debugger_next _ _ virt_ops (fun _ => true) Demo.mono Demo.malloc true Demo.dlsym Demo.function_name Demo.fd_file (fun _ => [])
    (fun f => f) (fun f => f) None keep_cb (quiet_sched virt_ops keep_cb keep_cb_quiet) Demo.keep_cb_undebugged
    Demo.d0 tt 0 [] [] [] Demo.next2 (lit "NEXT") 2%nat) as (d' & E1 & _ & _ & go & real & s' & w' & E2 & _ & H).
  - vm_compute. reflexivity.
  - exact Demo.next2_ok.
  - constructor.
  - constructor.
  - constructor.
  - vm_compute. reflexivity.
  - vm_compute. reflexivity.
  - exact (proj1 Demo.d0_ok).
  - vm_compute. split; congruence.
  - exists d'. split; [exact E1|]. exists go, real, s', w'. split; [exact E2|].
    assert (E : steps_of Demo.next2 = 2) by (vm_compute; reflexivity). rewrite E in H.
    assert (E0 : timed_event_counter (ctx Demo.d0) = 0) by (vm_compute; reflexivity). rewrite E0 in H.
    destruct go; destruct H as (H1 & H2 & H3); [lia|]. split; [lia|exact H2].
Defined.

Lemma report_readable_witness :
  exists text, edbg_report_state virt_ops Demo.function_name Demo.fd_file (fun _ => []) (fun f => f) (fun f => f) None Demo.d0 tt false
      = Some (broadcast Demo.d0 text) /\
    json_get_int_prop (Some text) (Some (lit "critical_sched_count")) true = Some (0, Some 3).
Proof.
  destruct (report_readable virt_ops Demo.function_name Demo.fd_file (fun _ => []) (fun f => f) (fun f => f) Demo.d0 tt 1)
    as (text & E & _ & _ & _ & H & _).
  - reflexivity.
  - congruence.
  - vm_compute. congruence.
  - vm_compute. repeat split; congruence.
  - exists text. split; [exact E|]. rewrite H. vm_compute. reflexivity.
Defined.
