(* ===== verification/PseudoThreads.v ===== *)
(** * Pseudo threads (pseudo_threads.c)

    Coroutines on the event loop: a thread runs until it waits, blocks, reads,
    writes or ends; the loop calls [PT_run_all], which runs the ready threads
    one after the other until none is left.  A thread is its memory ([PThread])
    and the place where its context was saved ([cont]); the code of the threads
    is a parameter, a state and the next call it makes, so that a thread may run
    for ever.  [swapcontext] gives control to the main context or to a thread:
    [running] says who has it.  Each step is one call of the library, or one
    callback of the event loop.

    Timed events are the interface [Timers]; descriptor events are the table of
    FdEvents.v.  The code never tests the results of malloc, [EVT_sched_add] and
    [EVT_fd_add], which are taken to succeed, and is built with contexts (not for
    uClibc). *)

From stdpp Require Import base gmap list sets numbers.
From Stdlib Require Import ZArith Lia.
From S2P Require Import Prelude Words Sched FdEvents Timers.
Open Scope Z_scope.

(** ** Data *)

(** The list a thread's [head] points to. *)
Inductive queue_id := QCurr | QReady | QBlocked.

#[export] Instance queue_id_eq_dec : EqDecision queue_id.
Proof. solve_decision. Defined.

(** The calls a thread makes, with the code after them; pointers are
    [option], NULL is [None]. *)
Inductive call (U : Type) :=
  | CExit
  | CWait (msecs : Z) (k : U)
  | CBlock (p : option ptr) (k : Z -> U)
  | CRw (fd timeout : Z) (write : bool) (k : Z -> U)
  | CUnblock (p : option ptr) (k : Z -> U)
  | CCreate (entry : U) (k : ptr -> U)
  | CDestroy (p : option ptr) (k : U).
Arguments CExit {_}.
Arguments CWait {_}.
Arguments CBlock {_}.
Arguments CRw {_}.
Arguments CUnblock {_}.
Arguments CCreate {_}.
Arguments CDestroy {_}.

(** Where the context of a thread was saved. *)
Inductive cont (U : Type) :=
  | AtEntry (u : U)
  | AfterBlock (k : Z -> U)
  | AfterWait (k : U)
  | AfterRw (fd timeout : Z) (write : bool) (k : Z -> U)
  | AfterDestroy (k : U).
Arguments AtEntry {_}.
Arguments AfterBlock {_}.
Arguments AfterWait {_}.
Arguments AfterRw {_}.
Arguments AfterDestroy {_}.

Record PThread (U : Type) := Thr { ctx : cont U; head : option queue_id; sched_evt : option ptr }.
Arguments Thr {_}.
Arguments ctx {_}.
Arguments head {_}.
Arguments sched_evt {_}.

(** [ran] is the list of the threads control was given to, for the
    statements. *)
Record PseudoThreadState (T W U : Type) := PTS {
  curr : list ptr;
  ready : list ptr;
  blocked : list ptr;
  goner : option ptr;
  threads : gmap ptr (PThread U);
  timers : T;
  evts : fds;
  world : W;
  running : option (ptr * U);
  ran : list ptr
}.
Arguments PTS {_ _ _}.
Arguments curr {_ _ _}.
Arguments ready {_ _ _}.
Arguments blocked {_ _ _}.
Arguments goner {_ _ _}.
Arguments threads {_ _ _}.
Arguments timers {_ _ _}.
Arguments evts {_ _ _}.
Arguments world {_ _ _}.
Arguments running {_ _ _}.
Arguments ran {_ _ _}.

(** The address of [fd_evt_cb]. *)
Definition FD_EVT_CB : Z := 4.

Section Ops.
Context {T W U : Type} `{!TimerOps T}.
Variable malloc : gmap ptr (PThread U) -> ptr.
(** The code of the threads. *)
Variable code : U -> call U.
(** [read] or [write] on a descriptor: the result, and whether it is -1 with
    EWOULDBLOCK. *)
Variable io : Z -> bool -> W -> Z * bool * W.

Abbreviation state := (PseudoThreadState T W U).
Implicit Types s : state.

Definition get_q s (q : queue_id) : list ptr :=
  match q with QCurr => curr s | QReady => ready s | QBlocked => blocked s end.

Definition set_q s (q : queue_id) (l : list ptr) : state :=
  match q with
  | QCurr => PTS l (ready s) (blocked s) (goner s) (threads s) (timers s) (evts s) (world s) (running s) (ran s)
  | QReady => PTS (curr s) l (blocked s) (goner s) (threads s) (timers s) (evts s) (world s) (running s) (ran s)
  | QBlocked => PTS (curr s) (ready s) l (goner s) (threads s) (timers s) (evts s) (world s) (running s) (ran s)
  end.

Definition set_goner s (v : option ptr) : state :=
  PTS (curr s) (ready s) (blocked s) v (threads s) (timers s) (evts s) (world s) (running s) (ran s).
Definition set_threads s (v : gmap ptr (PThread U)) : state :=
  PTS (curr s) (ready s) (blocked s) (goner s) v (timers s) (evts s) (world s) (running s) (ran s).
Definition set_timers s (v : T) : state :=
  PTS (curr s) (ready s) (blocked s) (goner s) (threads s) v (evts s) (world s) (running s) (ran s).
Definition set_evts s (v : fds) : state :=
  PTS (curr s) (ready s) (blocked s) (goner s) (threads s) (timers s) v (world s) (running s) (ran s).
Definition set_world s (v : W) : state :=
  PTS (curr s) (ready s) (blocked s) (goner s) (threads s) (timers s) (evts s) v (running s) (ran s).
Definition set_running s (v : option (ptr * U)) : state :=
  PTS (curr s) (ready s) (blocked s) (goner s) (threads s) (timers s) (evts s) (world s) v (ran s).
Definition log_ran s (p : ptr) : state :=
  PTS (curr s) (ready s) (blocked s) (goner s) (threads s) (timers s) (evts s) (world s) (running s) (ran s ++ [p]).

Definition set_head (t : PThread U) (v : option queue_id) : PThread U := Thr (ctx t) v (sched_evt t).
Definition set_ctx (t : PThread U) (v : cont U) : PThread U := Thr v (head t) (sched_evt t).
Definition set_evt (t : PThread U) (v : option ptr) : PThread U := Thr (ctx t) (head t) v.

(** A write to the memory of a thread; a freed one is a fault. *)
Definition upd s (p : ptr) (f : PThread U -> PThread U) : option state :=
  t ← threads s !! p; Some (set_threads s (<[p := f t]> (threads s))).

Fixpoint unlink (p : ptr) (l : list ptr) : list ptr :=
  match l with
  | [] => []
  | x :: l' => if decide (x = p) then l' else x :: unlink p l'
  end.

Definition dequeue_thread s (p : ptr) : option state :=
  t ← threads s !! p;
  match head t with
  | None => Some s
  | Some q =>
      if decide (p ∈ get_q s q) then upd (set_q s q (unlink p (get_q s q))) p (fun t => set_head t None) else Some s
  end.

Definition enqueue_thread s (p : ptr) (q : queue_id) : option state :=
  s1 ← upd s p (fun t => set_head t (Some q)); Some (set_q s1 q (p :: get_q s1 q)).

Definition move s (p : ptr) (q : queue_id) : option state := s1 ← dequeue_thread s p; enqueue_thread s1 p q.

Definition PT_init (t : T) (e : fds) (w : W) : state := PTS [] [] [] None ∅ t e w None [].

Definition PT_unblock s (arg : option ptr) : option (Z * state) :=
  match arg with
  | None => Some (-1, s)
  | Some p => s1 ← move s p QReady; Some (0, s1)
  end.

Definition timed_evt_cb s (p : ptr) : option state :=
  s1 ← upd s p (fun t => set_evt t None); move s1 p QReady.

Definition fd_evt_cb s (p : ptr) : option state := move s p QReady.

(** [swapcontext] from a thread to the main context. *)
Definition switch_main s (p : ptr) (c : cont U) : option state :=
  s1 ← upd s p (fun t => set_ctx t c); Some (set_running s1 None).

(** Control stays with the thread. *)
Definition stay s (p : ptr) (u : U) : state := set_running s (Some (p, u)).

Definition remove_timer s (p : ptr) : option state :=
  t ← threads s !! p;
  match sched_evt t with
  | None => Some s
  | Some e => upd (set_timers s (timer_remove (timers s) e)) p (fun t => set_evt t None)
  end.

(** The timed event of [PT_wait] and of a read with a time limit; an event that
    is still pending is a failed assertion. *)
Definition add_timer s (p : ptr) (msecs : Z) : option state :=
  t ← threads s !! p;
  match sched_evt t with
  | Some _ => None
  | None =>
      let '(o, tm) := timer_add (timers s) msecs (Zpos p) in
      upd (set_timers s tm) p (fun t => set_evt t o)
  end.

(** [self] has control in all calls of threads. *)
Definition PT_block s (self : ptr) (arg : option ptr) (k : Z -> U) : option state :=
  if decide (arg = hd_error (curr s)) then
    p ← arg; s1 ← move s p QBlocked; switch_main s1 p (AfterBlock k)
  else Some (stay s self (k (-1))).

Definition PT_wait s (self : ptr) (msecs : Z) (k : U) : option state :=
  match hd_error (curr s) with
  | None => Some (stay s self k)
  | Some p =>
      if msecs =? 0 then Some (stay s self k)
      else s1 ← add_timer s p msecs; s2 ← move s1 p QBlocked; switch_main s2 p (AfterWait k)
  end.

(** The body of the loop of [pt_rw_int], up to [swapcontext]; the read event
    is used for writing too. *)
Definition rw_wait s (p : ptr) (fd timeout : Z) (write : bool) (k : Z -> U) : option state :=
  let s1 := set_evts s (EVT_fd_add (evts s) fd FdRead (Some FD_EVT_CB) (Zpos p) true).2 in
  s2 ← move s1 p QBlocked; switch_main s2 p (AfterRw fd timeout write k).

Definition pt_rw_int s (self : ptr) (fd timeout : Z) (write : bool) (k : Z -> U) : option state :=
  match hd_error (curr s) with
  | None => Some (stay s self (k (-1)))
  | Some p =>
      if fd <? 0 then Some (stay s self (k (-1)))
      else s1 ← (if 0 <? timeout then add_timer s p timeout else Some s); rw_wait s1 p fd timeout write k
  end.

(** The rest of the loop, after [swapcontext]. *)
Definition rw_resume s (p : ptr) (fd timeout : Z) (write : bool) (k : Z -> U) : option state :=
  if decide (hd_error (curr s) = Some p) then
    t ← threads s !! p;
    if (0 <? timeout) && bool_decide (sched_evt t = None) then Some (stay s p (k (-2)))
    else
      s1 ← remove_timer s p;
      let '(res, again, w) := io fd write (world s1) in
      let s2 := set_world s1 w in
      if (again : bool) then rw_wait s2 p fd timeout write k else Some (stay s2 p (k res))
  else None.

(** The end of [tmain_wrapper]; the context ends and the main one goes on. *)
Definition tmain_end s (self : ptr) : option state :=
  s1 ← dequeue_thread s self;
  s2 ← remove_timer (set_goner s1 (Some self)) self;
  Some (set_running s2 None).

Definition PT_create s (entry : U) : ptr * option state :=
  let p := malloc (threads s) in
  (p, enqueue_thread (set_threads s (<[p := Thr (AtEntry entry) None None]> (threads s))) p QReady).

(** [me] is the thread that has control; it cannot free its own stack. *)
Definition destroy_other s (p : ptr) (me : option ptr) : option state :=
  if decide (me = Some p) then None
  else s1 ← dequeue_thread s p; Some (set_threads s1 (delete p (threads s1))).

Definition PT_destroy s (self : ptr) (arg : option ptr) (k : U) : option state :=
  match arg with
  | None => Some (stay s self k)
  | Some p =>
      s1 ← remove_timer s p;
      if decide (hd_error (curr s1) = Some p) then
        s2 ← dequeue_thread s1 p; switch_main (set_goner s2 (Some p)) p (AfterDestroy k)
      else s2 ← destroy_other s1 p (Some self); Some (stay s2 self k)
  end.

(** The next call of the thread that has control. *)
Definition do_call s (self : ptr) (u : U) : option state :=
  match code u with
  | CExit => tmain_end s self
  | CWait msecs k => PT_wait s self msecs k
  | CBlock p k => PT_block s self p k
  | CRw fd timeout write k => pt_rw_int s self fd timeout write k
  | CUnblock p k => '(r, s1) ← PT_unblock s p; Some (stay s1 self (k r))
  | CCreate entry k => let '(p, o) := PT_create s entry in s1 ← o; Some (stay s1 self (k p))
  | CDestroy p k => PT_destroy s self p k
  end.

(** [swapcontext] to a thread. *)
Definition resume s (p : ptr) : option state :=
  t ← threads s !! p;
  let s := log_ran s p in
  match ctx t with
  | AtEntry u => Some (stay s p u)
  | AfterBlock k => Some (stay s p (k 0))
  | AfterWait k => if decide (hd_error (curr s) = Some p) then Some (stay s p k) else None
  | AfterRw fd timeout write k => rw_resume s p fd timeout write k
  | AfterDestroy k => Some (stay s p k)
  end.

(** [PT_run_all]: what follows a [swapcontext] that came back. *)
Definition reap s : option state :=
  if decide (curr s = []) then
    match goner s with
    | None => Some s
    | Some p => Some (set_goner (set_threads s (delete p (threads s))) None)
    end
  else None.

Definition back s : option state := match running s with None => reap s | Some _ => Some s end.

(** One turn: the next call of the thread that runs, or the next ready
    thread. *)
Definition turn s : option state :=
  match running s with
  | Some (p, u) => do_call s p u ≫= back
  | None =>
      match ready s with
      | [] => Some s
      | p :: _ => s1 ← move s p QCurr; resume s1 p ≫= back
      end
  end.

(** The loop; [fuel] bounds the turns.  [None] is a fault, [Some None] says
    that the fuel did not suffice. *)
Fixpoint PT_run_all (fuel : nat) s : option (option state) :=
  if decide (running s = None /\ ready s = []) then Some (Some s)
  else match fuel with
       | O => Some None
       | S fuel' => s1 ← turn s; PT_run_all fuel' s1
       end.

(** What the event loop and the rest of the program do between two runs: the
    callback of a due timed event and of a ready descriptor, which return
    [EVENT_REMOVE], and calls from the main context. *)
Inductive label :=
  | LTurn
  | LTimer
  | LFd (fd : Z)
  | LCreate (entry : U)
  | LUnblock (p : ptr)
  | LDestroy (p : ptr).

Definition step s (l : label) : option state :=
  match l with
  | LTurn => turn s
  | LTimer =>
      match timer_begin (timers s) with
      | Some (e, Zpos p, tm) => s1 ← timed_evt_cb (set_timers s tm) p; Some (set_timers s1 (timer_end (timers s1) e))
      | Some _ => None
      | None => Some s
      end
  | LFd fd =>
      match entry (evts s) fd with
      | None => Some s
      | Some n =>
          match get (cb n) FdRead, get (earg n) FdRead with
          | Some c, Zpos p =>
              if c =? FD_EVT_CB then s1 ← fd_evt_cb s p; Some (set_evts s1 (EVT_fd_remove (evts s1) fd FdRead))
              else Some s
          | _, _ => Some s
          end
      end
  | LCreate entry => (PT_create s entry).2
  | LUnblock p => '(_, s1) ← PT_unblock s (Some p); Some s1
  | LDestroy p => s1 ← remove_timer s p; destroy_other s1 p None
  end.

Fixpoint run s (ls : list label) : option state :=
  match ls with
  | [] => Some s
  | l :: ls' => s1 ← step s l; run s1 ls'
  end.
End Ops.

(** ** The queues *)

Section Queues.
Context {T W U : Type}.
Implicit Types s : PseudoThreadState T W U.

Definition head_of s (p : ptr) : option queue_id := threads s !! p ≫= head.

(** A thread is in the queue its [head] names, once, and in no other. *)
Definition q_ok s : Prop :=
  (forall q, NoDup (get_q s q)) /\ (forall p q, p ∈ get_q s q <-> head_of s p = Some q).

(** The parts that moving a thread does not touch. *)
Definition same_rest s s' : Prop :=
  goner s' = goner s /\ timers s' = timers s /\ evts s' = evts s /\ world s' = world s /\ running s' = running s /\
  ran s' = ran s.

Lemma same_rest_trans s1 s2 s3 : same_rest s1 s2 -> same_rest s2 s3 -> same_rest s1 s3.
Proof. intros (?&?&?&?&?&?) (?&?&?&?&?&?). repeat split; congruence. Qed.

Lemma unlink_out p l : p ∉ l -> unlink p l = l.
Proof.
  induction l as [|x l IH]; [done|]. rewrite not_elem_of_cons. intros [H1 H2]. cbn.
  by rewrite decide_False, IH by congruence.
Qed.

Lemma elem_of_unlink p x l : NoDup l -> x ∈ unlink p l <-> x ∈ l /\ x <> p.
Proof.
  induction 1 as [|y l Hy Hl IH]; [cbn; set_solver|]. cbn. case_decide as E; [subst; set_solver|].
  rewrite !elem_of_cons, IH. naive_solver.
Qed.

Lemma NoDup_unlink p l : NoDup l -> NoDup (unlink p l).
Proof.
  intros H. induction H as [|y l Hy Hl IH]; [constructor|]. cbn. case_decide; [done|].
  apply list.NoDup_cons. rewrite elem_of_unlink by done. naive_solver.
Qed.

Lemma get_set_q s q q' l : get_q (set_q s q l) q' = if decide (q' = q) then l else get_q s q'.
Proof. by destruct q, q'. Qed.

Lemma set_q_frame s q l :
  same_rest s (set_q s q l) /\ threads (set_q s q l) = threads s.
Proof. by destruct q. Qed.

Lemma q_ok_ext s s' :
  q_ok s -> (forall q, get_q s' q = get_q s q) -> (forall x, head_of s' x = head_of s x) -> q_ok s'.
Proof. intros [N1 N2] Eq Eh. split; [intros q; by rewrite Eq|]. intros x q. by rewrite Eq, Eh. Qed.

Lemma head_of_insert s s' p t t' :
  threads s !! p = Some t -> threads s' = <[p := t']> (threads s) -> head t' = head t ->
  forall x, head_of s' x = head_of s x.
Proof.
  intros Ht Et Eh x. unfold head_of. rewrite Et. destruct (decide (x = p)) as [->|Hx].
  - rewrite lookup_insert_eq, Ht. exact Eh.
  - by rewrite lookup_insert_ne.
Qed.

Lemma dequeue_spec s p t :
  q_ok s -> threads s !! p = Some t ->
  exists s', dequeue_thread s p = Some s' /\ same_rest s s' /\
    threads s' = <[p := set_head t None]> (threads s) /\ forall q, get_q s' q = unlink p (get_q s q).
Proof.
  intros [Hn Hh] Ht. unfold dequeue_thread. rewrite Ht. cbn [mbind option_bind].
  assert (Hin : forall q, p ∈ get_q s q <-> head t = Some q) by (intros q; rewrite Hh; unfold head_of; by rewrite Ht).
  destruct (head t) as [q|] eqn:Eh.
  - rewrite decide_True by (by apply Hin). destruct (set_q_frame s q (unlink p (get_q s q))) as [F1 F2].
    unfold upd. rewrite F2, Ht. cbn [mbind option_bind]. eexists. split; [done|]. split_and!; try done.
    intros q'. transitivity (get_q (set_q s q (unlink p (get_q s q))) q'); [by destruct q, q'|].
    rewrite get_set_q. case_decide as E; [by subst|]. rewrite unlink_out; [done|]. rewrite Hin. congruence.
  - exists s. split_and!; try done.
    + rewrite insert_id; [done|]. rewrite Ht. f_equal. destruct t. cbn in Eh. by subst.
    + intros q. rewrite unlink_out; [done|]. by rewrite Hin.
Qed.

Lemma enqueue_spec s p t q :
  threads s !! p = Some t ->
  exists s', enqueue_thread s p q = Some s' /\ same_rest s s' /\
    threads s' = <[p := set_head t (Some q)]> (threads s) /\
    forall q', get_q s' q' = if decide (q' = q) then p :: get_q s q' else get_q s q'.
Proof.
  intros Ht. unfold enqueue_thread, upd. rewrite Ht. cbn [mbind option_bind].
  eexists. split; [done|]. destruct (set_q_frame (set_threads s (<[p:=set_head t (Some q)]> (threads s))) q
    (p :: get_q (set_threads s (<[p:=set_head t (Some q)]> (threads s))) q)) as [F1 F2].
  rewrite F2. split_and!; [by eapply same_rest_trans|done|].
  intros q'. rewrite get_set_q. case_decide as E; [subst; by destruct q|by destruct q'].
Qed.

Lemma q_ok_unlinked s s' p t :
  q_ok s -> threads s' = <[p := set_head t None]> (threads s) -> threads s !! p = Some t ->
  (forall q, get_q s' q = unlink p (get_q s q)) -> q_ok s'.
Proof.
  intros [Hn Hh] Et Ht Eq. split; [intros q; rewrite Eq; by apply NoDup_unlink|].
  intros x q. rewrite Eq, elem_of_unlink, Hh by done. unfold head_of. rewrite Et.
  destruct (decide (x = p)) as [->|Hne].
  - rewrite lookup_insert_eq. cbn. naive_solver.
  - rewrite lookup_insert_ne by done. naive_solver.
Qed.

(** A thread leaves its queue for the front of [q]. *)
Lemma move_spec s p t q :
  q_ok s -> threads s !! p = Some t ->
  exists s', move s p q = Some s' /\ q_ok s' /\ same_rest s s' /\
    threads s' = <[p := set_head t (Some q)]> (threads s) /\
    forall q', get_q s' q' = if decide (q' = q) then p :: unlink p (get_q s q') else unlink p (get_q s q').
Proof.
  intros Hq Ht. destruct (dequeue_spec s p t Hq Ht) as (s1 & D1 & D2 & D3 & D4).
  assert (Ht1 : threads s1 !! p = Some (set_head t None)) by (rewrite D3; apply lookup_insert_eq).
  destruct (enqueue_spec s1 p _ q Ht1) as (s' & E1 & E2 & E3 & E4).
  unfold move. rewrite D1. cbn [mbind option_bind]. exists s'. split; [done|].
  assert (Et : threads s' = <[p := set_head t (Some q)]> (threads s)) by (rewrite E3, D3; apply insert_insert_eq).
  assert (Eq : forall q', get_q s' q' = if decide (q' = q) then p :: unlink p (get_q s q') else unlink p (get_q s q'))
    by (intros q'; rewrite E4, D4; done).
  split; [|split; [by eapply same_rest_trans|done]]. destruct Hq as [Hn Hh]. split.
  - intros q'. rewrite Eq. case_decide; [|by apply NoDup_unlink].
    apply list.NoDup_cons. rewrite elem_of_unlink by done. split; [naive_solver|by apply NoDup_unlink].
  - intros x q'. rewrite Eq. unfold head_of. rewrite Et. destruct (decide (x = p)) as [->|Hne].
    + rewrite lookup_insert_eq. cbn. case_decide; [subst; set_solver|]. rewrite elem_of_unlink by done. naive_solver.
    + rewrite lookup_insert_ne by done. fold (head_of s x). rewrite <- Hh.
      case_decide; rewrite ?elem_of_cons, elem_of_unlink by done; naive_solver.
Qed.

End Queues.

(** ** The invariant *)

(** The read callback of a descriptor and its argument. *)
Definition reader (ev : fds) (fd : Z) : option (Z * Z) :=
  n ← entry ev fd; c ← get (cb n) FdRead; Some (c, get (earg n) FdRead).

Definition quiet (ev : fds) : Prop := forall fd n, entry ev fd = Some n -> get (einCallback n) FdRead = 0.

Section Inv.
Context {T W U : Type} `{!TimerOps T, !Timers T}.
Implicit Types s : PseudoThreadState T W U.
Implicit Types t : PThread U.

(** What holds of a thread: a timed event is pending exactly while it waits in
    [PT_wait]; while it is blocked on a descriptor, its read event is
    registered. *)
Record thread_ok (tm : T) (ev : fds) (p : ptr) t : Prop := {
  to_head : head t <> None;
  to_sched : sched_evt t <> None <-> head t = Some QBlocked /\ exists k, ctx t = AfterWait k;
  to_armed : forall e, sched_evt t = Some e -> armed tm !! e = Some (Zpos p);
  to_rw : forall fd to w k, ctx t = AfterRw fd to w k -> head t <> Some QCurr ->
    to = 0 /\ 0 <= fd /\
    reader ev fd = if decide (head t = Some QBlocked) then Some (FD_EVT_CB, Zpos p) else None
}.

(** The thread is in a read or write of the descriptor. *)
Definition in_rw (m : gmap ptr (PThread U)) (p : ptr) (fd : Z) : Prop :=
  exists t to w k, m !! p = Some t /\ ctx t = AfterRw fd to w k /\ head t <> Some QCurr.

Record pt_inv s : Prop := {
  pi_q : q_ok s;
  pi_curr : curr s = match running s with Some (p, _) => [p] | None => [] end;
  pi_goner : goner s = None;
  pi_timer : timer_ok None (timers s);
  pi_fds : fd_wf (evts s);
  pi_quiet : quiet (evts s);
  pi_threads : forall p t, threads s !! p = Some t -> thread_ok (timers s) (evts s) p t;
  pi_armed : forall e z, armed (timers s) !! e = Some z ->
    exists p t, z = Zpos p /\ threads s !! p = Some t /\ sched_evt t = Some e;
  pi_readers : forall fd z, reader (evts s) fd = Some (FD_EVT_CB, z) ->
    exists p t to w k, z = Zpos p /\ threads s !! p = Some t /\ ctx t = AfterRw fd to w k /\ head t = Some QBlocked;
  pi_rw : forall p x fd, in_rw (threads s) p fd -> in_rw (threads s) x fd -> p = x
}.

(** Control and the queues agree. *)
Lemma running_thread s p u :
  pt_inv s -> running s = Some (p, u) ->
  exists t, threads s !! p = Some t /\ head t = Some QCurr /\ sched_evt t = None /\ hd_error (curr s) = Some p.
Proof.
  intros H Hr. pose proof (pi_curr _ H) as Hc. rewrite Hr in Hc.
  assert (Hh : head_of s p = Some QCurr) by (apply (pi_q _ H); cbn; rewrite Hc; set_solver).
  unfold head_of in Hh. destruct (threads s !! p) as [t|] eqn:Ht; [|done]. cbn in Hh. exists t. split_and!; try done.
  - destruct (sched_evt t) eqn:E; [|done]. destruct (to_sched _ _ _ _ (pi_threads _ H p t Ht)) as [H1 _].
    destruct H1 as [H1 _]; [congruence|congruence].
  - by rewrite Hc.
Qed.

(** The thread [p] changes to [t'], or is created, with its events. *)
Lemma inv_update s s' p t' :
  pt_inv s -> q_ok s' -> curr s' = match running s' with Some (p, _) => [p] | None => [] end -> goner s' = None ->
  timer_ok None (timers s') -> fd_wf (evts s') -> quiet (evts s') -> threads s' = <[p := t']> (threads s) ->
  (forall e z, z <> Zpos p -> armed (timers s') !! e = Some z <-> armed (timers s) !! e = Some z) ->
  (forall e, armed (timers s') !! e = Some (Zpos p) -> sched_evt t' = Some e) ->
  (forall fd x, x <> p -> in_rw (threads s) x fd -> reader (evts s') fd = reader (evts s) fd) ->
  (forall fd z, reader (evts s') fd = Some (FD_EVT_CB, z) ->
     (z = Zpos p /\ exists to w k, ctx t' = AfterRw fd to w k /\ head t' = Some QBlocked) \/
     (z <> Zpos p /\ reader (evts s) fd = Some (FD_EVT_CB, z))) ->
  thread_ok (timers s') (evts s') p t' ->
  (forall fd to w k, ctx t' = AfterRw fd to w k -> head t' <> Some QCurr ->
     forall x, x <> p -> ~ in_rw (threads s) x fd) ->
  pt_inv s'.
Proof.
  intros H Hq Hc Hg Htm Hfd Hqu Et HA1 HA2 HR1 HR2 Hp HU.
  assert (Hold : forall x t, x <> p -> threads s' !! x = Some t <-> threads s !! x = Some t)
    by (intros x t Hx; rewrite Et, lookup_insert_ne by done; done).
  assert (Hrw : forall x fd, x <> p -> in_rw (threads s') x fd <-> in_rw (threads s) x fd).
  { intros x fd Hx. unfold in_rw. setoid_rewrite (Hold x); done. }
  assert (Hrwp : forall fd, in_rw (threads s') p fd -> exists to w k, ctx t' = AfterRw fd to w k /\ head t' <> Some QCurr).
  { intros fd (t & to & w & k & Ht & Hx). rewrite Et, lookup_insert_eq in Ht. injection Ht as <-. eauto. }
  split; try done.
  - intros x t Ht. destruct (decide (x = p)) as [->|Hx].
    + rewrite Et, lookup_insert_eq in Ht. by injection Ht as <-.
    + apply (Hold x t Hx) in Ht. destruct (pi_threads _ H x t Ht) as [O1 O2 O3 O4]. split; try done.
      * intros e He. apply HA1; [congruence|]. by apply O3.
      * intros fd to w k Hk Hh. rewrite (HR1 fd x Hx); [by apply (O4 fd to w k)|]. by exists t, to, w, k.
  - intros e z Hz. destruct (decide (z = Zpos p)) as [->|Hne].
    + exists p, t'. rewrite Et, lookup_insert_eq. auto.
    + apply HA1 in Hz; [|done]. destruct (pi_armed _ H e z Hz) as (x & t & -> & Ht & He).
      assert (Hx : x <> p) by congruence. exists x, t. by rewrite (Hold x t Hx).
  - intros fd z Hz. destruct (HR2 fd z Hz) as [(-> & to & w & k & Hk & Hh)|[Hne Hr]].
    + exists p, t', to, w, k. by rewrite Et, lookup_insert_eq.
    + destruct (pi_readers _ H fd z Hr) as (x & t & to & w & k & -> & Ht & Hk & Hh).
      assert (Hx : x <> p) by congruence. exists x, t, to, w, k. by rewrite (Hold x t Hx).
  - intros x y fd Hx Hy. destruct (decide (x = p)) as [->|Nx], (decide (y = p)) as [->|Ny]; try done.
    + destruct (Hrwp fd Hx) as (to & w & k & Hk & Hh). apply (Hrw y fd Ny) in Hy. by destruct (HU fd to w k Hk Hh y Ny).
    + destruct (Hrwp fd Hy) as (to & w & k & Hk & Hh). apply (Hrw x fd Nx) in Hx. by destruct (HU fd to w k Hk Hh x Nx).
    + apply (Hrw x fd Nx) in Hx. apply (Hrw y fd Ny) in Hy. by apply (pi_rw _ H x y fd).
Qed.

(** The thread [p], which waits for no descriptor, is freed. *)
Lemma inv_delete s s' p t :
  pt_inv s -> threads s !! p = Some t -> (forall fd, ~ in_rw (threads s) p fd) ->
  q_ok s' -> curr s' = match running s' with Some (p, _) => [p] | None => [] end -> goner s' = None ->
  timer_ok None (timers s') -> evts s' = evts s -> threads s' = delete p (threads s) ->
  (forall e z, armed (timers s') !! e = Some z <-> armed (timers s) !! e = Some z /\ sched_evt t <> Some e) ->
  pt_inv s'.
Proof.
  intros H Ht Hrw Hq Hc Hg Htm Ee Et HA.
  assert (Hold : forall x tx, threads s' !! x = Some tx <-> x <> p /\ threads s !! x = Some tx)
    by (intros x tx; rewrite Et, lookup_delete_Some; naive_solver).
  split; rewrite ?Ee; try done.
  - apply (pi_fds _ H).
  - apply (pi_quiet _ H).
  - intros x tx Hx. apply Hold in Hx as [Nx Hx]. destruct (pi_threads _ H x tx Hx) as [O1 O2 O3 O4]. split; try done.
    intros e He. apply HA. split; [by apply O3|]. intros He'.
    pose proof (to_armed _ _ _ _ (pi_threads _ H p t Ht) e He') as A1. specialize (O3 e He). congruence.
  - intros e z Hz. apply HA in Hz as [Hz Hne]. destruct (pi_armed _ H e z Hz) as (x & tx & -> & Hx & He).
    exists x, tx. split_and!; try done. apply Hold. split; [|done]. intros ->. congruence.
  - intros fd z Hz. destruct (pi_readers _ H fd z Hz) as (x & tx & to & w & k & -> & Hx & Hk & Hh).
    exists x, tx, to, w, k. split_and!; try done. apply Hold. split; [|done]. intros ->.
    apply (Hrw fd). exists tx, to, w, k. split_and!; try done. congruence.
  - intros x y fd Hx Hy. apply (pi_rw _ H x y fd).
    + destruct Hx as (tx & to & w & k & Hx & ?). apply Hold in Hx as [_ Hx]. by exists tx, to, w, k.
    + destruct Hy as (tx & to & w & k & Hy & ?). apply Hold in Hy as [_ Hy]. by exists tx, to, w, k.
Qed.

End Inv.

(** ** Descriptor events of threads *)

Lemma add_reader ev fd c a :
  fd_wf ev -> quiet ev -> 0 <= fd ->
  let ev' := (EVT_fd_add ev fd FdRead (Some c) a true).2 in
  fd_wf ev' /\ quiet ev' /\ forall x, reader ev' x = if decide (x = fd) then Some (c, a) else reader ev x.
Proof.
  intros Hwf Hq Hfd ev'. destruct (fd_add_wf ev fd FdRead c None a true Hwf Hfd ltac:(done)) as (_ & A1 & A2 & A3).
  fold (EVT_fd_add ev fd FdRead (Some c) a true) in A1, A2, A3. fold ev' in A1, A2, A3. split_and!; [done| |].
  - intros x n Hn. destruct (decide (x = fd)) as [->|Hne].
    + rewrite A2 in Hn. injection Hn as <-. unfold added_entry. destruct (entry ev fd) as [m|] eqn:E; [|done].
      cbn [from_option]. unfold id. change (einCallback (with_cb m FdRead (Some c) None a)) with (einCallback m).
      rewrite (Hq fd m E). by apply (Hq fd m E).
    + rewrite A3 in Hn by done. by apply (Hq x n Hn).
  - intros x. unfold reader. case_decide as E; [subst x; rewrite A2|by rewrite A3].
    unfold added_entry. cbv zeta. by case_match.
Qed.

Lemma remove_reader ev fd :
  fd_wf ev -> quiet ev -> 0 <= fd ->
  let ev' := EVT_fd_remove ev fd FdRead in
  fd_wf ev' /\ quiet ev' /\ forall x, reader ev' x = if decide (x = fd) then None else reader ev x.
Proof.
  intros Hwf Hq Hfd ev'. destruct (fd_remove_wf ev fd FdRead Hwf Hfd) as (R1 & R2 & R3).
  fold ev' in R1, R2, R3. split_and!; [done| |].
  - intros x n Hn. destruct (decide (x = fd)) as [->|Hne]; [|rewrite R3 in Hn by done; by apply (Hq x n Hn)].
    rewrite R2 in Hn. destruct (entry ev fd) as [m|] eqn:E; [|done]. pose proof (Hq fd m E) as Hm.
    cbn [removed_entry] in Hn. rewrite Hm in Hn. change (0 =? 0) with true in Hn. unfold drop_event in Hn. repeat case_match; simplify_eq; done.
  - intros x. unfold reader. case_decide as E; [subst x|by rewrite R3]. rewrite R2.
    destruct (entry ev fd) as [m|] eqn:E; [|done]. cbn [removed_entry]. rewrite (Hq fd m E). change (0 =? 0) with true.
    cbv iota. pose proof (drop_event_has m FdRead FdRead) as Hd. rewrite decide_True in Hd by done.
    destruct (drop_event m FdRead) as [n|]; [|done]. cbn [mbind option_bind]. unfold has in Hd.
    by destruct (get (cb n) FdRead).
Qed.

(** ** Every step keeps the invariant *)

Section Steps.
Context {T W U : Type} `{!TimerOps T, !Timers T}.
Variable malloc : gmap ptr (PThread U) -> ptr.
Variable code : U -> call U.
Variable io : Z -> bool -> W -> Z * bool * W.
Hypothesis malloc_free : forall m, m !! malloc m = None.
Hypothesis timers_left : forall r t ms a, timer_ok r t -> (timer_add t ms a).1 <> None.
Implicit Types s : PseudoThreadState T W U.
Implicit Types t : PThread U.

(** A thread without a pending event, and not blocked on a descriptor, moves
    without starting to wait for one. *)
Lemma inv_requeue s s' p t t' :
  pt_inv s -> q_ok s' -> curr s' = match running s' with Some (p, _) => [p] | None => [] end -> goner s' = None ->
  timers s' = timers s -> evts s' = evts s -> threads s !! p = Some t -> threads s' = <[p := t']> (threads s) ->
  sched_evt t = None -> sched_evt t' = None -> head t' <> None ->
  (head t' = Some QBlocked -> exists k, ctx t' = AfterBlock k) ->
  (forall fd to w k, ctx t = AfterRw fd to w k -> head t <> Some QBlocked) ->
  (forall fd to w k, ctx t' = AfterRw fd to w k -> head t' = Some QCurr) ->
  pt_inv s'.
Proof.
  intros H Hq Hc Hg Etm Eev Ht Et S1 S2 Hh Hb Hw Hr.
  assert (HA : forall e, armed (timers s) !! e <> Some (Zpos p)).
  { intros e He. destruct (pi_armed _ H e _ He) as (x & tx & [= <-] & Hx & Hs). congruence. }
  apply (inv_update s s' p t'); rewrite ?Etm, ?Eev; try done.
  - apply (pi_timer _ H).
  - apply (pi_fds _ H).
  - apply (pi_quiet _ H).
  - intros e He. by destruct (HA e).
  - intros fd z Hz. right. split; [|done]. intros ->.
    destruct (pi_readers _ H fd _ Hz) as (x & tx & to & w & k & [= <-] & Hx & Hk & Hhx).
    rewrite Ht in Hx. injection Hx as <-. by destruct (Hw fd to w k Hk).
  - split; try done; [|congruence|].
    + split; [congruence|]. intros [Hbl [k Hk]]. destruct (Hb Hbl) as [k' Hk']. congruence.
    + intros fd to w k Hk Hne. by destruct (Hr fd to w k Hk).
  - intros fd to w k Hk Hne. by destruct (Hr fd to w k Hk).
Qed.

(** The code of the running thread, the world and the log do not matter. *)
Lemma inv_stay s p u v (w : W) l :
  pt_inv (stay s p u) ->
  pt_inv (PTS (curr s) (ready s) (blocked s) (goner s) (threads s) (timers s) (evts s) w (Some (p, v)) l).
Proof. intros [I1 I2 I3 I4 I5 I6 I7 I8 I9 I10]. split; done. Qed.

Lemma stay_same s p u : running s = Some (p, u) -> stay s p u = s.
Proof. intros H. destruct s. cbn in *. by subst. Qed.

(** The running thread gives control to the main context and is blocked. *)
Lemma park_spec s p t c :
  q_ok s -> threads s !! p = Some t -> head t = Some QCurr ->
  exists s2, (s1 ← move s p QBlocked; switch_main s1 p c) = Some s2 /\ q_ok s2 /\
    threads s2 = <[p := Thr c (Some QBlocked) (sched_evt t)]> (threads s) /\
    goner s2 = goner s /\ timers s2 = timers s /\ evts s2 = evts s /\ world s2 = world s /\ ran s2 = ran s /\
    running s2 = None /\ curr s2 = unlink p (curr s) /\ ready s2 = ready s /\ blocked s2 = p :: blocked s.
Proof.
  intros Hq Ht Hh. destruct (move_spec s p t QBlocked Hq Ht) as (s1 & M1 & M2 & (G1 & G2 & G3 & G4 & G5 & G6) & M4 & M5).
  rewrite M1. cbn [mbind option_bind]. unfold switch_main, upd. rewrite M4, lookup_insert_eq. cbn [mbind option_bind].
  eexists. split; [done|]. cbn.
  assert (Hout : forall q, q <> QCurr -> p ∉ get_q s q).
  { intros q Hne Hin. apply Hq in Hin. unfold head_of in Hin. rewrite Ht in Hin. cbn in Hin. congruence. }
  pose proof (M5 QCurr) as C1. pose proof (M5 QReady) as C2. pose proof (M5 QBlocked) as C3. cbn in C1, C2, C3.
  pose proof (Hout QReady ltac:(done)) as O2. pose proof (Hout QBlocked ltac:(done)) as O3. cbn in O2, O3.
  rewrite unlink_out in C2, C3 by done. rewrite insert_insert_eq. split_and!; try done.
  split; [intros q; pose proof (proj1 M2 q) as N; by destruct q|].
  intros x q. pose proof (proj2 M2 x q) as N. unfold head_of in N |- *. cbn. rewrite M4 in N.
  destruct (decide (x = p)) as [->|Hx].
  - rewrite lookup_insert_eq in N |- *. by destruct q.
  - rewrite lookup_insert_ne in N |- * by done. by destruct q.
Qed.

Lemma parked_curr s p u : pt_inv (stay s p u) -> unlink p (curr s) = [].
Proof. intros H. pose proof (pi_curr _ H) as Hc. cbn in Hc. rewrite Hc. cbn. by rewrite decide_True. Qed.

(** [PT_block] of the running thread. *)
Lemma block_inv s p u t k :
  pt_inv (stay s p u) -> threads s !! p = Some t -> head t = Some QCurr -> sched_evt t = None ->
  exists s2, (s1 ← move s p QBlocked; switch_main s1 p (AfterBlock k)) = Some s2 /\ pt_inv s2 /\
    running s2 = None /\ ready s2 = ready s.
Proof.
  intros H Ht Hh Hs. destruct (park_spec s p t (AfterBlock k) (pi_q _ H) Ht Hh)
    as (s2 & P1 & P2 & P3 & P4 & P5 & P6 & P7 & P8 & P9 & P10 & P11 & P12).
  exists s2. split_and!; try done. rewrite Hs in P3.
  apply (inv_requeue (stay s p u) s2 p t (Thr (AfterBlock k) (Some QBlocked) None)); try done.
  - rewrite P9, P10. by eapply parked_curr.
  - rewrite P4. apply (pi_goner _ H).
  - intros _. by exists k.
  - intros fd to w k' _. congruence.
Qed.

(** [PT_wait] of the running thread. *)
Lemma wait_inv s p u t ms k :
  pt_inv (stay s p u) -> threads s !! p = Some t -> head t = Some QCurr -> sched_evt t = None ->
  exists s3, (s1 ← add_timer s p ms; s2 ← move s1 p QBlocked; switch_main s2 p (AfterWait k)) = Some s3 /\
    pt_inv s3 /\ running s3 = None /\ ready s3 = ready s /\ ran s3 = ran s.
Proof.
  intros H Ht Hh Hs. unfold add_timer. rewrite Ht. cbn [mbind option_bind]. rewrite Hs.
  pose proof (timer_add_ok None (timers s) ms (Zpos p) (pi_timer _ H)) as Ha.
  pose proof (timers_left None (timers s) ms (Zpos p) (pi_timer _ H)) as Hl.
  destruct (timer_add (timers s) ms (Zpos p)) as [[e|] tm]; [|done]. destruct Ha as (A1 & A2 & A3). clear Hl.
  unfold upd. cbn [threads set_timers]. rewrite Ht. cbn [mbind option_bind].
  set (s1 := set_threads (set_timers s tm) (<[p:=set_evt t (Some e)]> (threads s))).
  assert (Hq1 : q_ok s1)
    by (apply (q_ok_ext s _ (pi_q _ H)); [intros q; by destruct q|by apply (head_of_insert s s1 p t (set_evt t (Some e)))]).
  destruct (park_spec s1 p (set_evt t (Some e)) (AfterWait k) Hq1)
    as (s3 & P1 & P2 & P3 & P4 & P5 & P6 & P7 & P8 & P9 & P10 & P11 & P12); [apply lookup_insert_eq|done|].
  exists s3. cbn in *. rewrite insert_insert_eq in P3. split_and!; try done.
  assert (Hnone : forall e', armed (timers s) !! e' <> Some (Zpos p)).
  { intros e' He. destruct (pi_armed _ H e' _ He) as (x & tx & [= <-] & Hx & Hse). cbn in Hx. congruence. }
  apply (inv_update (stay s p u) s3 p (Thr (AfterWait k) (Some QBlocked) (Some e))); try done.
  - rewrite P9, P10. by eapply parked_curr.
  - rewrite P4. apply (pi_goner _ H).
  - by rewrite P5.
  - rewrite P6. apply (pi_fds _ H).
  - rewrite P6. apply (pi_quiet _ H).
  - intros e' z Hz. rewrite P5, A3. cbn. rewrite lookup_insert_Some. split; [|naive_solver].
    intros [[_ E]|[_ E]]; [congruence|done].
  - intros e'. rewrite P5, A3, lookup_insert_Some. intros [[-> _]|[_ E]]; [done|]. by destruct (Hnone e').
  - intros fd x Hx Hin. by rewrite P6.
  - intros fd z. rewrite P6. intros Hz. right. split; [|done]. intros ->.
    destruct (pi_readers _ H fd _ Hz) as (x & tx & to & w & k' & [= <-] & Hx & Hk & Hhx). cbn in Hx. congruence.
  - split; cbn; try done.
    + split; [|done]. intros _. split; [done|]. by exists k.
    + intros e' [= <-]. rewrite P5, A3. apply lookup_insert_eq.
Qed.

(** A read or write without a time limit, on a descriptor no other thread
    uses. *)
Lemma rw_wait_inv s p u t fd write k :
  pt_inv (stay s p u) -> threads s !! p = Some t -> head t = Some QCurr -> sched_evt t = None -> 0 <= fd ->
  reader (evts s) fd = None -> (forall x, ~ in_rw (threads s) x fd) ->
  exists s2, rw_wait s p fd 0 write k = Some s2 /\ pt_inv s2 /\ running s2 = None /\ ready s2 = ready s /\ ran s2 = ran s.
Proof.
  intros H Ht Hh Hs Hfd Hrd Huse. unfold rw_wait.
  destruct (add_reader (evts s) fd FD_EVT_CB (Zpos p) (pi_fds _ H) (pi_quiet _ H) Hfd) as (A1 & A2 & A3).
  set (ev' := (EVT_fd_add _ _ _ _ _ _).2) in *. set (s1 := set_evts s ev').
  assert (Hq1 : q_ok s1) by (apply (q_ok_ext s _ (pi_q _ H)); [intros q; by destruct q|done]).
  destruct (park_spec s1 p t (AfterRw fd 0 write k) Hq1 Ht Hh)
    as (s2 & P1 & P2 & P3 & P4 & P5 & P6 & P7 & P8 & P9 & P10 & P11 & P12).
  exists s2. cbn in *. rewrite Hs in P3. split_and!; try done.
  assert (Hnone : forall e', armed (timers s) !! e' <> Some (Zpos p)).
  { intros e' He. destruct (pi_armed _ H e' _ He) as (x & tx & [= <-] & Hx & Hse). cbn in Hx. congruence. }
  apply (inv_update (stay s p u) s2 p (Thr (AfterRw fd 0 write k) (Some QBlocked) None)); rewrite ?P4, ?P5, ?P6; try done.
  - rewrite P9, P10. by eapply parked_curr.
  - apply (pi_goner _ H).
  - apply (pi_timer _ H).
  - intros e' He. by destruct (Hnone e').
  - intros fd' x Hx Hin. rewrite A3. case_decide as E; [|done]. subst fd'. by destruct (Huse x).
  - intros fd' z. rewrite A3. case_decide as E.
    + intros [= <-]. left. split; [done|]. subst fd'. by eexists _, _, _.
    + intros Hz. right. split; [|done]. intros ->.
      destruct (pi_readers _ H fd' _ Hz) as (x & tx & to & w & k' & [= <-] & Hx & Hk & Hhx). cbn in Hx. congruence.
  - split; cbn; try done.
    + split; [done|]. intros [_ [k' Hk']]. done.
    + intros fd' to w k' [= <- <- <- <-] _. split_and!; try done. rewrite A3. by rewrite !decide_True.
  - intros fd' to w k' [= <- <- <- <-] _ x _. apply Huse.
Qed.

(** Making a thread ready that is in [PT_block], or was never run. *)
Definition may_unblock s (p : ptr) : Prop :=
  exists t, threads s !! p = Some t /\ head t <> Some QCurr /\ ((exists k, ctx t = AfterBlock k) \/ exists u, ctx t = AtEntry u).

Lemma unblock_inv s p :
  pt_inv s -> may_unblock s p ->
  exists s', PT_unblock s (Some p) = Some (0, s') /\ pt_inv s' /\ running s' = running s /\ ready s' = p :: unlink p (ready s).
Proof.
  intros H (t & Ht & Hh & Hk). destruct (move_spec s p t QReady (pi_q _ H) Ht) as (s' & M1 & M2 & (G1 & G2 & G3 & G4 & G5 & G6) & M4 & M5).
  unfold PT_unblock. rewrite M1. cbn [mbind option_bind]. exists s'. split_and!; try done; [|apply (M5 QReady)].
  assert (Hs : sched_evt t = None).
  { destruct (sched_evt t) eqn:E; [|done]. destruct (to_sched _ _ _ _ (pi_threads _ H p t Ht)) as [Hw _].
    destruct Hw as [_ [k' Hk']]; [congruence|]. destruct Hk as [[? ?]|[? ?]]; congruence. }
  apply (inv_requeue s s' p t (set_head t (Some QReady))); try done.
  - rewrite G5. pose proof (M5 QCurr) as C. cbn in C. rewrite C, unlink_out; [apply (pi_curr _ H)|].
    intros Hin. apply (proj2 (pi_q _ H) p QCurr) in Hin. unfold head_of in Hin. rewrite Ht in Hin. done.
  - rewrite G1. apply (pi_goner _ H).
  - intros fd to w k' Hk'. destruct Hk as [[? ?]|[? ?]]; congruence.
  - cbn. intros fd to w k' Hk'. destruct Hk as [[? ?]|[? ?]]; congruence.
Qed.

(** Creating a thread. *)
Lemma create_inv s entry :
  pt_inv s ->
  exists s', (PT_create malloc s entry).2 = Some s' /\ pt_inv s' /\ running s' = running s /\
    ready s' = malloc (threads s) :: ready s /\ threads s !! malloc (threads s) = None.
Proof.
  intros H. set (p := malloc (threads s)). assert (Hp : threads s !! p = None) by apply malloc_free.
  unfold PT_create. fold p. cbn [snd]. set (s0 := set_threads s _).
  destruct (enqueue_spec s0 p (Thr (AtEntry entry) None None) QReady) as (s' & E1 & (G1 & G2 & G3 & G4 & G5 & G6) & E3 & E4);
    [apply lookup_insert_eq|]. exists s'. cbn in *. rewrite insert_insert_eq in E3.
  assert (Hnot : forall q, p ∉ get_q s q).
  { intros q Hin. apply (pi_q _ H) in Hin. unfold head_of in Hin. by rewrite Hp in Hin. }
  assert (Eq : forall q, get_q s' q = if decide (q = QReady) then p :: get_q s q else get_q s q)
    by (intros q; rewrite E4; by destruct q).
  split_and!; try done; [|apply (Eq QReady)].
  apply (inv_update s s' p (set_head (Thr (AtEntry entry) None None) (Some QReady))); rewrite ?G1, ?G2, ?G3, ?G5; try done.
  - destruct (pi_q _ H) as [N1 N2]. split.
    + intros q. rewrite Eq. case_decide; [apply list.NoDup_cons; auto|done].
    + intros x q. rewrite Eq. unfold head_of. rewrite E3. destruct (decide (x = p)) as [->|Hx].
      * rewrite lookup_insert_eq. cbn. case_decide; [subst; set_solver|]. specialize (Hnot q). naive_solver.
      * rewrite lookup_insert_ne by done. fold (head_of s x). rewrite <- N2. case_decide; [set_solver|done].
  - rewrite (Eq QCurr : curr s' = curr s). apply (pi_curr _ H).
  - apply (pi_goner _ H).
  - apply (pi_timer _ H).
  - apply (pi_fds _ H).
  - apply (pi_quiet _ H).
  - intros e He. destruct (pi_armed _ H e _ He) as (x & tx & [= <-] & Hx & _). congruence.
  - intros fd z Hz. right. split; [|done]. intros ->.
    destruct (pi_readers _ H fd _ Hz) as (x & tx & to & w & k & [= <-] & Hx & _). congruence.
  - split; cbn; try done. split; [done|]. intros [? _]. done.
Qed.

Lemma q_ok_deleted s s' p :
  q_ok s -> threads s' = delete p (threads s) -> (forall q, get_q s' q = unlink p (get_q s q)) -> q_ok s'.
Proof.
  intros [Hn Hh] Et Eq. split; [intros q; rewrite Eq; by apply NoDup_unlink|].
  intros x q. rewrite Eq, elem_of_unlink, Hh by done. unfold head_of. rewrite Et. destruct (decide (x = p)) as [->|Hx].
  - rewrite lookup_delete_eq. cbn. naive_solver.
  - rewrite lookup_delete_ne by done. naive_solver.
Qed.

(** The running thread has ended and is freed by the main context. *)
Lemma gone_inv s p u t x s2 :
  pt_inv (stay s p u) -> threads s !! p = Some t -> head t = Some QCurr -> sched_evt t = None ->
  running s2 = None -> goner s2 = Some p -> threads s2 = <[p := x]> (threads s) -> timers s2 = timers s ->
  evts s2 = evts s -> (forall q, get_q s2 q = unlink p (get_q s q)) ->
  exists s3, back s2 = Some s3 /\ pt_inv s3 /\ running s3 = None /\ ready s3 = ready s /\ ran s3 = ran s2.
Proof.
  intros H Ht Hh Hs Hr Hg Et Etm Eev Eq. unfold back, reap. rewrite Hr.
  pose proof (Eq QCurr) as C1. cbn in C1. rewrite (parked_curr s p u H) in C1. rewrite decide_True, Hg by done.
  eexists. split; [done|]. split_and!; [|done| |done].
  - apply (inv_delete (stay s p u) _ p t); cbn; try done.
    + intros fd (t' & to & w & k & Ht' & _ & Hc). cbn in Ht'. congruence.
    + apply (q_ok_deleted s _ p (pi_q _ H)); cbn; [by rewrite Et, delete_insert_eq|].
      intros q. rewrite <- Eq. by destruct q.
    + by rewrite Hr, C1.
    + rewrite Etm. apply (pi_timer _ H).
    + by rewrite Et, delete_insert_eq.
    + intros e z. rewrite Etm, Hs. split; [auto|by intros [? _]].
  - pose proof (Eq QReady) as C2. cbn in C2 |- *. rewrite C2. apply unlink_out. intros Hin.
    apply (proj2 (pi_q _ H) p QReady) in Hin. unfold head_of in Hin. cbn in Hin. rewrite Ht in Hin. cbn in Hin. congruence.
Qed.

Lemma exit_inv s p u t :
  pt_inv (stay s p u) -> threads s !! p = Some t -> head t = Some QCurr -> sched_evt t = None ->
  exists s3, tmain_end s p ≫= back = Some s3 /\ pt_inv s3 /\ running s3 = None /\ ready s3 = ready s /\ ran s3 = ran s.
Proof.
  intros H Ht Hh Hs. destruct (dequeue_spec s p t (pi_q _ H) Ht) as (s1 & D1 & (G1 & G2 & G3 & G4 & G5 & G6) & D3 & D4).
  unfold tmain_end, remove_timer. rewrite D1. cbn [mbind option_bind threads set_goner].
  rewrite D3, lookup_insert_eq. cbn [mbind option_bind sched_evt set_head]. rewrite Hs.
  destruct (gone_inv s p u t (set_head t None) (set_running (set_goner s1 (Some p)) None)) as (s3 & E & I & R & L & N); try done.
  exists s3. split_and!; try done. rewrite N. exact G6.
Qed.

(** Freeing a thread that waits for no descriptor; its timed event goes. *)
Definition may_destroy s (p : ptr) : Prop :=
  exists t, threads s !! p = Some t /\ (forall fd, ~ in_rw (threads s) p fd) /\
    (forall e, sched_evt t = Some e -> removable (timers s) e).

Lemma remove_timer_spec s p t :
  pt_inv s -> threads s !! p = Some t -> (forall e, sched_evt t = Some e -> removable (timers s) e) ->
  exists s', remove_timer s p = Some s' /\ threads s' = <[p := set_evt t None]> (threads s) /\
    (forall q, get_q s' q = get_q s q) /\ goner s' = goner s /\ evts s' = evts s /\ running s' = running s /\
    ran s' = ran s /\ timer_ok None (timers s') /\
    (forall e z, armed (timers s') !! e = Some z <-> armed (timers s) !! e = Some z /\ sched_evt t <> Some e).
Proof.
  intros H Ht Hr. unfold remove_timer. rewrite Ht. cbn [mbind option_bind]. destruct (sched_evt t) as [e|] eqn:Es.
  - pose proof (to_armed _ _ _ _ (pi_threads _ H p t Ht) e Es) as Ha.
    destruct (timer_remove_ok None (timers s) e (pi_timer _ H) ltac:(eauto) (Hr e eq_refl)) as [R1 R2].
    unfold upd. cbn [threads set_timers]. rewrite Ht. cbn [mbind option_bind]. eexists. split; [done|].
    split_and!; try done; try (intros q; by destruct q).
    intros e' z. cbn. rewrite R2, lookup_delete_Some. naive_solver.
  - exists s. split_and!; try done; [|apply (pi_timer _ H)|naive_solver].
    rewrite insert_id; [done|]. rewrite Ht. f_equal. destruct t. cbn in Es. by subst.
Qed.

Lemma destroy_inv s p me :
  pt_inv s -> may_destroy s p -> me <> Some p -> (forall u, running s <> Some (p, u)) ->
  exists s2, (s1 ← remove_timer s p; destroy_other s1 p me) = Some s2 /\ pt_inv s2 /\ running s2 = running s /\
    ready s2 = unlink p (ready s).
Proof.
  intros H (t & Ht & Hrw & Hr) Hme Hrun.
  destruct (remove_timer_spec s p t H Ht Hr) as (s1 & R1 & R2 & R3 & R4 & R5 & R6 & R7 & R8 & R9).
  rewrite R1. cbn [mbind option_bind]. unfold destroy_other. rewrite decide_False by done.
  assert (Hq1 : q_ok s1) by (apply (q_ok_ext s _ (pi_q _ H) R3); by apply (head_of_insert s s1 p t (set_evt t None))).
  destruct (dequeue_spec s1 p (set_evt t None) Hq1) as (s2 & D1 & (G1 & G2 & G3 & G4 & G5 & G6) & D3 & D4);
    [rewrite R2; apply lookup_insert_eq|].
  rewrite D1. cbn [mbind option_bind]. eexists. split; [done|].
  assert (Et : delete p (threads s2) = delete p (threads s)) by (by rewrite D3, R2, insert_insert_eq, delete_insert_eq).
  assert (Eq : forall q, get_q s2 q = unlink p (get_q s q)) by (intros q; by rewrite D4, R3).
  split_and!; [|cbn; congruence|apply (Eq QReady)].
  apply (inv_delete s _ p t); cbn; rewrite ?G1, ?G2, ?G3, ?G5; try done.
  - apply (q_ok_deleted s _ p (pi_q _ H)); [done|]. intros q. rewrite <- Eq. by destruct q.
  - rewrite R6, (Eq QCurr : curr s2 = _). pose proof (pi_curr _ H) as Hc. cbn. rewrite unlink_out; [done|].
    rewrite Hc. destruct (running s) as [[x v]|]; [|set_solver]. intros Hin. apply list_elem_of_singleton in Hin as ->.
    by apply (Hrun v).
  - rewrite R4. apply (pi_goner _ H).
Qed.

(** A timed event is due: the thread that waits for it is ready. *)
Lemma timer_inv s e z tm :
  pt_inv s -> running s = None -> timer_begin (timers s) = Some (e, z, tm) ->
  exists p t k s', z = Zpos p /\ threads s !! p = Some t /\ sched_evt t = Some e /\ ctx t = AfterWait k /\
    step malloc code io s LTimer = Some s' /\ pt_inv s' /\ running s' = None /\ ready s' = p :: ready s.
Proof.
  intros H Hrun Hb. destruct (timer_begin_ok (timers s) e z tm (pi_timer _ H) Hb) as (B1 & B2 & B3).
  destruct (pi_armed _ H e z B2) as (p & t & -> & Ht & Hs).
  destruct (to_sched _ _ _ _ (pi_threads _ H p t Ht)) as [Hw _]. destruct Hw as [Hh [k Hk]]; [congruence|].
  unfold step, timed_evt_cb, upd. rewrite Hb. cbn [threads set_timers]. rewrite Ht. cbn [mbind option_bind].
  set (s0 := set_threads (set_timers s tm) (<[p:=set_evt t None]> (threads s))).
  assert (Hq0 : q_ok s0)
    by (apply (q_ok_ext s _ (pi_q _ H)); [intros q; by destruct q|by apply (head_of_insert s s0 p t (set_evt t None))]).
  destruct (move_spec s0 p (set_evt t None) QReady Hq0) as (s1 & M1 & M2 & (G1 & G2 & G3 & G4 & G5 & G6) & M4 & M5);
    [apply lookup_insert_eq|].
  rewrite M1. cbn [mbind option_bind]. rewrite G2. cbn [timers s0 set_threads set_timers].
  destruct (timer_end_ok e tm B1) as [E1 E2]. cbn in M4. rewrite insert_insert_eq in M4.
  assert (Hout : forall q, q <> QBlocked -> p ∉ get_q s q).
  { intros q Hne Hin. apply (pi_q _ H) in Hin. unfold head_of in Hin. rewrite Ht in Hin. cbn in Hin. congruence. }
  pose proof (M5 QReady) as C2. pose proof (M5 QCurr) as C1. cbn in C1, C2.
  rewrite unlink_out in C1 by (by apply (Hout QCurr)). rewrite unlink_out in C2 by (by apply (Hout QReady)).
  exists p, t, k. eexists. split_and!; try done; [|cbn; by rewrite G5].
  apply (inv_update s _ p (Thr (AfterWait k) (Some QReady) None)); cbn; rewrite ?G1, ?G3, ?G5; try done.
  - cbn. rewrite C1. apply (pi_curr _ H).
  - apply (pi_goner _ H).
  - apply (pi_fds _ H).
  - apply (pi_quiet _ H).
  - rewrite M4. f_equal. unfold set_head, set_evt. cbn. by rewrite Hk.
  - intros e' z Hz. rewrite E2, B3, lookup_delete_Some. split; [by intros [_ ?]|]. intros He'. split; [|done]. intros <-.
    congruence.
  - intros e'. rewrite E2, B3, lookup_delete_Some. intros [Hne He'].
    destruct (pi_armed _ H e' _ He') as (x & tx & [= <-] & Hx & Hs'). congruence.
  - intros fd z Hz. right. split; [|done]. intros ->.
    destruct (pi_readers _ H fd _ Hz) as (x & tx & to & w & k' & [= <-] & Hx & Hk' & _). congruence.
  - split; cbn; try done. split; [done|]. by intros [? _].
Qed.

(** A descriptor is ready: the thread that reads it is ready. *)
Lemma fd_inv s fd :
  pt_inv s -> running s = None ->
  exists s', step malloc code io s (LFd fd) = Some s' /\ pt_inv s' /\ running s' = None /\
    (forall p, reader (evts s) fd = Some (FD_EVT_CB, Zpos p) -> ready s' = p :: ready s) /\
    ((forall z, reader (evts s) fd <> Some (FD_EVT_CB, z)) -> s' = s).
Proof.
  intros H Hrun. unfold step.
  destruct (reader (evts s) fd) as [[c z]|] eqn:Er; unfold reader in Er; destruct (entry (evts s) fd) as [n|] eqn:En;
    cbn [mbind option_bind] in Er; try done.
  2: destruct (get (cb n) FdRead); try done; exists s; split_and!; done.
  2: exists s; split_and!; done.
  destruct (get (cb n) FdRead) as [c'|] eqn:Ec; cbn [mbind option_bind] in Er; [|done]. assert (Ez : get (earg n) FdRead = z) by congruence.
  assert (c' = c) as -> by congruence. clear Er.
  assert (Er : reader (evts s) fd = Some (c, z)) by (unfold reader; rewrite En; cbn [mbind option_bind]; rewrite Ec; cbn [mbind option_bind]; by rewrite Ez).
  rewrite Ez. destruct (Z.eqb_spec c FD_EVT_CB) as [->|Hc].
  2:{ exists s. split_and!; try done; [by destruct z|congruence]. }
  destruct (pi_readers _ H fd z Er) as (p & t & to & w & k & -> & Ht & Hk & Hh).
  destruct (to_rw _ _ _ _ (pi_threads _ H p t Ht) fd to w k Hk) as (-> & Hfd & _); [congruence|].
  unfold fd_evt_cb. destruct (move_spec s p t QReady (pi_q _ H) Ht) as (s1 & M1 & M2 & (G1 & G2 & G3 & G4 & G5 & G6) & M4 & M5).
  rewrite M1. cbn [mbind option_bind]. rewrite G3.
  destruct (remove_reader (evts s) fd (pi_fds _ H) (pi_quiet _ H) Hfd) as (R1 & R2 & R3).
  set (ev' := EVT_fd_remove (evts s) fd FdRead) in *.
  assert (Hout : forall q, q <> QBlocked -> p ∉ get_q s q).
  { intros q Hne Hin. apply (pi_q _ H) in Hin. unfold head_of in Hin. rewrite Ht in Hin. cbn in Hin. congruence. }
  pose proof (M5 QReady) as C2. pose proof (M5 QCurr) as C1. cbn in C1, C2.
  rewrite unlink_out in C1 by (by apply (Hout QCurr)). rewrite unlink_out in C2 by (by apply (Hout QReady)).
  eexists. split_and!; [done| |cbn; congruence|intros p' [= <-]; exact C2|intros Hn; by destruct (Hn (Zpos p))].
  apply (inv_update s _ p (set_head t (Some QReady))); cbn; rewrite ?G1, ?G2, ?G5; try done.
  - cbn. rewrite C1. apply (pi_curr _ H).
  - apply (pi_goner _ H).
  - apply (pi_timer _ H).
  - intros e He. destruct (pi_armed _ H e _ He) as (x & tx & [= <-] & Hx & Hs'). congruence.
  - intros fd' x Hx Hin. rewrite R3. destruct (decide (fd' = fd)) as [E|E]; [|done]. subst fd'.
    assert (x = p); [|done]. apply (pi_rw _ H x p fd Hin). exists t, 0, w, k. split_and!; try done. congruence.
  - intros fd' z. rewrite R3. destruct (decide (fd' = fd)) as [E|E]; [done|]. intros Hz. right. split; [|done]. intros ->.
    destruct (pi_readers _ H fd' _ Hz) as (x & tx & to & w' & k' & [= <-] & Hx & Hk' & _). congruence.
  - split; cbn; try done.
    + split; [|by intros [? _]]. intros Hs. exfalso.
      destruct (to_sched _ _ _ _ (pi_threads _ H p t Ht)) as [Hw _]. destruct (Hw Hs) as [_ [k' Hk']]. congruence.
    + intros e He. by apply (to_armed _ _ _ _ (pi_threads _ H p t Ht)).
    + intros fd' to w' k' Hk' _. rewrite Hk in Hk'. injection Hk' as <- <- <- <-. rewrite R3, decide_True by done. done.
  - intros fd' to w' k' Hk' _ x Hx Hin. cbn in Hk'. rewrite Hk in Hk'. injection Hk' as <- <- <- <-.
    apply Hx, (pi_rw _ H x p fd Hin). exists t, 0, w, k. split_and!; try done. congruence.
Qed.

(** *** Turns *)

Lemma back_main s : pt_inv s -> back s = Some s.
Proof.
  intros H. unfold back, reap. pose proof (pi_curr _ H) as Hc. destruct (running s) as [[p u]|]; [done|].
  rewrite decide_True by done. by rewrite (pi_goner _ H).
Qed.

(** The calls a program may make: reads and writes without a time limit on a
    descriptor that nobody else watches, and operations on other threads that
    do not wait for an event they would be deaf to. *)
Definition polite_call s (c : call U) : Prop :=
  match c with
  | CRw fd timeout _ _ =>
      timeout = 0 /\ (0 <= fd -> reader (evts s) fd = None /\ forall x, ~ in_rw (threads s) x fd)
  | CUnblock (Some p) _ => may_unblock s p
  | CDestroy (Some p) _ => may_destroy s p
  | _ => True
  end.

Definition inv_next (o : option (PseudoThreadState T W U)) : Prop := exists s', o = Some s' /\ pt_inv s'.

Lemma next_back o : inv_next o -> inv_next (o ≫= back).
Proof. intros (s' & -> & H). exists s'. split; [by apply back_main|done]. Qed.

Lemma destroy_self_inv s p u t k :
  pt_inv (stay s p u) -> threads s !! p = Some t -> head t = Some QCurr -> sched_evt t = None ->
  hd_error (curr s) = Some p -> inv_next (PT_destroy s p (Some p) k ≫= back).
Proof.
  intros H Ht Hh Hs Hc. unfold PT_destroy, remove_timer. rewrite Ht. cbn [mbind option_bind]. rewrite Hs.
  cbn [mbind option_bind]. rewrite decide_True by done.
  destruct (dequeue_spec s p t (pi_q _ H) Ht) as (s1 & D1 & (G1 & G2 & G3 & G4 & G5 & G6) & D3 & D4).
  rewrite D1. cbn [mbind option_bind]. unfold switch_main, upd. cbn [threads set_goner].
  rewrite D3, lookup_insert_eq. cbn [mbind option_bind].
  destruct (gone_inv s p u t (set_ctx (set_head t None) (AfterDestroy k))
    (set_running (set_threads (set_goner s1 (Some p)) (<[p:=set_ctx (set_head t None) (AfterDestroy k)]>
       (<[p:=set_head t None]> (threads s)))) None)) as (s3 & E & I & _); try done.
  { cbn. by rewrite insert_insert_eq. }
  by exists s3.
Qed.

Lemma stay_next s p u v : pt_inv s -> running s = Some (p, u) -> inv_next (Some (stay s p v)).
Proof.
  intros H Hr. eexists. split; [done|]. apply (inv_stay s p u v (world s) (ran s)). by rewrite stay_same.
Qed.

Lemma pt_call_inv s p u :
  pt_inv s -> running s = Some (p, u) -> polite_call s (code u) -> inv_next (do_call malloc code s p u ≫= back).
Proof.
  intros H Hr Hp. destruct (running_thread s p u H Hr) as (t & Ht & Hh & Hs & Hc).
  assert (Hst : pt_inv (stay s p u)) by (by rewrite stay_same).
  unfold do_call. destruct (code u) as [|ms k|arg k|fd to w k|arg k|en k|arg k]; cbn [polite_call] in Hp.
  - destruct (exit_inv s p u t Hst Ht Hh Hs) as (s3 & E & I & _). by exists s3.
  - apply next_back. unfold PT_wait. rewrite Hc. destruct (ms =? 0); [by eapply stay_next|].
    destruct (wait_inv s p u t ms k Hst Ht Hh Hs) as (s3 & E & I & _). by exists s3.
  - apply next_back. unfold PT_block. rewrite Hc. case_decide as E; [|by eapply stay_next]. subst arg.
    cbn [mbind option_bind]. destruct (block_inv s p u t k Hst Ht Hh Hs) as (s3 & E & I & _). by exists s3.
  - apply next_back. unfold pt_rw_int. rewrite Hc. destruct Hp as [-> Hp].
    destruct (Z.ltb_spec fd 0) as [Hn|Hn]; [by eapply stay_next|]. destruct (Hp Hn) as [Hrd Huse]. cbn [mbind option_bind].
    change (0 <? 0) with false. cbv iota.
    destruct (rw_wait_inv s p u t fd w k Hst Ht Hh Hs Hn Hrd Huse) as (s3 & E & I & _). by exists s3.
  - apply next_back. destruct arg as [x|]; cbn [mbind option_bind PT_unblock]; [|by eapply stay_next].
    destruct (unblock_inv s x H Hp) as (s' & E & I & R & _). unfold PT_unblock in E. rewrite E.
    cbn [mbind option_bind]. eapply stay_next; [done|by rewrite R].
  - apply next_back. destruct (create_inv s en H) as (s' & E & I & R & _).
    destruct (PT_create malloc s en) as [x o]. cbn in E. subst o. cbn [mbind option_bind].
    eapply stay_next; [done|by rewrite R].
  - destruct arg as [x|]; [|apply next_back; by eapply stay_next].
    destruct (decide (x = p)) as [->|Hx]; [by eapply destroy_self_inv|]. apply next_back.
    destruct (destroy_inv s x (Some p) H Hp) as (s2 & E & I & R & _); [congruence|congruence|].
    unfold PT_destroy. destruct (remove_timer s x) as [s1|] eqn:E1; [|done]. cbn [mbind option_bind] in E |- *.
    assert (Hc1 : curr s1 = curr s).
    { unfold remove_timer, upd in E1. destruct (threads s !! x) as [tx|] eqn:Hx'; [|done]. cbn [mbind option_bind] in E1.
      destruct (sched_evt tx); [|by simplify_eq]. cbn in E1. rewrite Hx' in E1. cbn in E1. by simplify_eq. }
    rewrite Hc1, Hc, decide_False by congruence. rewrite E. cbn [mbind option_bind].
    eapply stay_next; [done|by rewrite R].
Qed.

(** The next ready thread gets control. *)
Lemma resume_spec s p :
  pt_inv s -> running s = None -> p ∈ ready s ->
  exists s', (s1 ← move s p QCurr; resume io s1 p ≫= back) = Some s' /\ pt_inv s' /\
    ready s' = unlink p (ready s) /\ ran s' = ran s ++ [p] /\ (running s' = None \/ exists u, running s' = Some (p, u)).
Proof.
  intros H Hrun Hin. apply (proj2 (pi_q _ H) p QReady) in Hin. unfold head_of in Hin.
  destruct (threads s !! p) as [t|] eqn:Ht; [|done]. cbn in Hin.
  pose proof (pi_threads _ H p t Ht) as Hok.
  assert (Hs : sched_evt t = None).
  { destruct (sched_evt t) eqn:E; [|done]. destruct (to_sched _ _ _ _ Hok) as [Hw _].
    destruct Hw as [Hw _]; [congruence|congruence]. }
  destruct (move_spec s p t QCurr (pi_q _ H) Ht) as (s1 & M1 & M2 & (G1 & G2 & G3 & G4 & G5 & G6) & M4 & M5).
  rewrite M1. cbn [mbind option_bind]. pose proof (M5 QCurr) as Hc. cbn in Hc.
  rewrite (pi_curr _ H), Hrun in Hc. cbn in Hc.
  assert (Hst : forall u, pt_inv (stay s1 p u)).
  { intros u. apply (inv_requeue s _ p t (set_head t (Some QCurr))); cbn; rewrite ?G1, ?G2, ?G3; try done.
    - apply (pi_goner _ H).
    - intros fd to w k _. congruence. }
  assert (Hrd1 : ready s1 = unlink p (ready s)) by exact (M5 QReady).
  pose (sn (u : U) (w : W) := PTS (curr s1) (ready s1) (blocked s1) (goner s1) (threads s1) (timers s1) (evts s1) w
    (Some (p, u)) (ran s1 ++ [p])).
  assert (Hnext : forall u w, exists s', Some (sn u w) ≫= back = Some s' /\ pt_inv s' /\
    ready s' = unlink p (ready s) /\ ran s' = ran s ++ [p] /\ (running s' = None \/ exists u, running s' = Some (p, u))).
  { intros u w. assert (I : pt_inv (sn u w)) by (by apply (inv_stay s1 p u)). exists (sn u w).
    cbn [mbind option_bind]. split_and!; [by apply back_main|done|done|cbn; by rewrite G6|right; by exists u]. }
  unfold resume. rewrite M4, lookup_insert_eq. cbn [mbind option_bind].
  destruct (ctx (set_head t (Some QCurr))) as [u|k|k|fd to w k|k] eqn:Ek; cbn in Ek.
  - apply (Hnext u (world s1)).
  - apply (Hnext (k 0) (world s1)).
  - rewrite decide_True by (cbn; by rewrite Hc). apply (Hnext k (world s1)).
  - destruct (to_rw _ _ _ _ Hok fd to w k Ek) as (-> & Hfd & Hrd); [congruence|]. rewrite decide_False in Hrd by congruence.
    unfold rw_resume. rewrite decide_True by (cbn; by rewrite Hc). cbn [threads log_ran]. rewrite M4, lookup_insert_eq.
    cbn [mbind option_bind]. change (0 <? 0) with false. cbn [andb]. unfold remove_timer. cbn [threads log_ran].
    rewrite M4, lookup_insert_eq. cbn [mbind option_bind sched_evt set_head]. rewrite Hs. cbn [mbind option_bind].
    destruct (io fd w _) as [[res [|]] w'] eqn:Eio; [|apply (Hnext (k res) w')].
    destruct (rw_wait_inv (set_world (log_ran s1 p) w') p (k 0) (set_head t (Some QCurr)) fd w k)
      as (s3 & E & I & R & L & N); cbn; try done.
    + apply (inv_stay s1 p (k 0) (k 0) w' (ran s1 ++ [p])), Hst.
    + rewrite M4. apply lookup_insert_eq.
    + by rewrite G3.
    + intros x (tx & to & w2 & k2 & Hx & Hk2 & Hh2). cbn in Hx. rewrite M4 in Hx. destruct (decide (x = p)) as [->|Hne].
      * rewrite lookup_insert_eq in Hx. injection Hx as <-. done.
      * rewrite lookup_insert_ne in Hx by done. apply Hne, (pi_rw _ H x p fd).
        -- by exists tx, to, w2, k2.
        -- exists t, 0, w, k. split_and!; try done. congruence.
    + rewrite E. cbn [mbind option_bind]. exists s3. rewrite (back_main s3 I). cbn in L, N.
      split_and!; try done; [congruence|rewrite N; by rewrite G6|by left].
  - apply (Hnext k (world s1)).
Qed.

(** ** Runs *)

Definition polite s (l : label (U := U)) : Prop :=
  match l with
  | LTurn => match running s with Some (_, u) => polite_call s (code u) | None => True end
  | LUnblock p => running s = None /\ may_unblock s p
  | LDestroy p => running s = None /\ may_destroy s p
  | _ => running s = None
  end.

Fixpoint polite_run s (ls : list (label (U := U))) : Prop :=
  match ls with
  | [] => True
  | l :: ls' => polite s l /\ forall s1, step malloc code io s l = Some s1 -> polite_run s1 ls'
  end.

Lemma pt_step_inv s l : pt_inv s -> polite s l -> inv_next (step malloc code io s l).
Proof.
  intros H Hp. destruct l as [| |fd|en|p|p]; cbn [polite] in Hp.
  - cbn [step]. unfold turn. destruct (running s) as [[p u]|] eqn:Hr; [by apply pt_call_inv|].
    destruct (ready s) as [|p l] eqn:Hl; [by exists s|].
    destruct (resume_spec s p H Hr) as (s' & E & I & _); [rewrite Hl; set_solver|]. by exists s'.
  - destruct (timer_begin (timers s)) as [[[e z] tm]|] eqn:Hb; [|cbn [step]; rewrite Hb; by exists s].
    destruct (timer_inv s e z tm H Hp Hb) as (p & t & k & s' & _ & _ & _ & _ & E & I & _). by exists s'.
  - destruct (fd_inv s fd H Hp) as (s' & E & I & _). by exists s'.
  - destruct (create_inv s en H) as (s' & E & I & _). by exists s'.
  - destruct Hp as [Hr Hp]. destruct (unblock_inv s p H Hp) as (s' & E & I & _).
    cbn [step]. rewrite E. by exists s'.
  - destruct Hp as [Hr Hp]. destruct (destroy_inv s p None H Hp) as (s2 & E & I & _); [done|congruence|]. by exists s2.
Qed.

Lemma pt_run_inv ls s : pt_inv s -> polite_run s ls -> inv_next (run malloc code io s ls).
Proof.
  revert s. induction ls as [|l ls IH]; intros s H Hp; [by exists s|]. cbn [run]. destruct Hp as [Hp Hn].
  destruct (pt_step_inv s l H Hp) as (s1 & E & I). rewrite E. cbn [mbind option_bind]. apply IH; auto.
Qed.

Lemma init_inv tm ev w :
  timer_ok None tm -> armed tm = ∅ -> fd_wf ev -> quiet ev -> (forall fd z, reader ev fd <> Some (FD_EVT_CB, z)) ->
  pt_inv (PT_init (U := U) tm ev (w : W)).
Proof.
  intros Ht Ha Hf Hq Hr. split; cbn; try done.
  - split; [intros []; constructor|]. intros x q. unfold head_of. cbn. rewrite lookup_empty. cbn.
    split; [destruct q; cbn; intros Hx; by apply elem_of_nil in Hx|done].
  - intros e z. by rewrite Ha, lookup_empty.
  - intros fd z Hz. by destruct (Hr fd z).
  - intros p x fd (t & to & w' & k & Ht' & _). by rewrite lookup_empty in Ht'.
Qed.

(** More fuel does not change the result. *)
Lemma run_all_more fuel s s' :
  PT_run_all malloc code io fuel s = Some (Some s') -> PT_run_all malloc code io (S fuel) s = Some (Some s').
Proof.
  revert s. induction fuel as [|fuel IH]; intros s.
  - cbn. by destruct (decide _).
  - cbn [PT_run_all]. destruct (decide _); [done|].
    destruct (turn malloc code io s) as [s1|]; cbn [mbind option_bind]; [|done]. intros E. apply IH in E. exact E.
Qed.

(** C26. Pseudo threads, in any sequence of turns, timed events, ready
    descriptors and calls from the program that follow the rules of [polite],
    and as long as malloc, [EVT_sched_add] and [EVT_fd_add] succeed: no
    assertion fails and no freed thread is used. Each live thread is in one of
    the three queues, once; a thread runs exactly when it is the current one;
    a timed event is pending exactly for the threads in [PT_wait], and a
    descriptor event calls back exactly the thread that is blocked on it. The
    rules: reads and writes have no time limit and are on descriptors that
    nothing else watches; only threads that are in [PT_block] or have not run
    are unblocked; a thread that is destroyed waits for no descriptor, and its
    timer can be removed from the queue. The examples at the end show what
    happens without them ([pt_timeout_leaves_event],
    [pt_unblock_waiting_aborts]). *)
Theorem pt_threads_safe tm ev (w : W) ls :
  timer_ok None tm -> armed tm = ∅ -> fd_wf ev -> quiet ev -> (forall fd z, reader ev fd <> Some (FD_EVT_CB, z)) ->
  polite_run (PT_init tm ev w) ls ->
  exists s, run malloc code io (PT_init tm ev w) ls = Some s /\
    NoDup (curr s ++ ready s ++ blocked s) /\
    (forall p, is_Some (threads s !! p) <-> p ∈ curr s ++ ready s ++ blocked s) /\
    curr s = match running s with Some (p, _) => [p] | None => [] end /\
    (forall e z, armed (timers s) !! e = Some z <->
       exists p t, z = Zpos p /\ threads s !! p = Some t /\ sched_evt t = Some e) /\
    (forall p t, threads s !! p = Some t ->
       (sched_evt t <> None <-> p ∈ blocked s /\ exists k, ctx t = AfterWait k)) /\
    (forall fd z, reader (evts s) fd = Some (FD_EVT_CB, z) <->
       exists p t to w k, z = Zpos p /\ threads s !! p = Some t /\ ctx t = AfterRw fd to w k /\ p ∈ blocked s).
Proof.
  intros Ht Ha Hf Hq Hr Hp. destruct (pt_run_inv ls _ (init_inv tm ev w Ht Ha Hf Hq Hr) Hp) as (s & E & I).
  exists s. destruct (pi_q _ I) as [N1 N2]. split; [done|].
  assert (Hhead : forall p t, threads s !! p = Some t -> forall q, p ∈ get_q s q <-> head t = Some q)
    by (intros p t Hpt q; rewrite N2; unfold head_of; by rewrite Hpt).
  assert (Hdis : forall p q q', p ∈ get_q s q -> p ∈ get_q s q' -> q = q')
    by (intros p q q'; rewrite !N2; congruence).
  split_and!.
  - pose proof (N1 QCurr) as D1. pose proof (N1 QReady) as D2. pose proof (N1 QBlocked) as D3. cbn in D1, D2, D3.
    apply list.NoDup_app. split_and!; [done| |apply list.NoDup_app; split_and!; [done| |done]].
    + intros x Hx. rewrite elem_of_app. intros [Hy|Hy];
        [discriminate (Hdis x QCurr QReady Hx Hy)|discriminate (Hdis x QCurr QBlocked Hx Hy)].
    + intros x Hx Hy. discriminate (Hdis x QReady QBlocked Hx Hy).
  - intros p. rewrite !elem_of_app. split.
    + intros [t Hpt]. pose proof (Hhead p t Hpt) as Hq'. destruct (head t) as [[]|] eqn:Eh.
      * left. by apply (Hq' QCurr).
      * right. left. by apply (Hq' QReady).
      * right. right. by apply (Hq' QBlocked).
      * by destruct (to_head _ _ _ _ (pi_threads _ I p t Hpt)).
    + assert (Hl : forall q, p ∈ get_q s q -> is_Some (threads s !! p))
        by (intros q; rewrite N2; unfold head_of; destruct (threads s !! p); [eauto|done]).
      intros [Hx|[Hx|Hx]]; [by apply (Hl QCurr)|by apply (Hl QReady)|by apply (Hl QBlocked)].
  - apply (pi_curr _ I).
  - intros e z. split; [apply (pi_armed _ I)|]. intros (p & t & -> & Hpt & He).
    by apply (to_armed _ _ _ _ (pi_threads _ I p t Hpt)).
  - intros p t Hpt. rewrite (to_sched _ _ _ _ (pi_threads _ I p t Hpt)). by rewrite (Hhead p t Hpt QBlocked).
  - intros fd z. split.
    + intros Hz. destruct (pi_readers _ I fd z Hz) as (p & t & to & w' & k & -> & Hpt & Hk & Hh).
      exists p, t, to, w', k. split_and!; try done. by apply (Hhead p t Hpt QBlocked).
    + intros (p & t & to & w' & k & -> & Hpt & Hk & Hb). apply (Hhead p t Hpt QBlocked) in Hb.
      destruct (to_rw _ _ _ _ (pi_threads _ I p t Hpt) fd to w' k Hk) as (_ & _ & Hrd); [congruence|].
      by rewrite decide_True in Hrd by done.
Qed.

(** A thread that gives up control with each call. *)
Definition yields (c : call U) : Prop :=
  match c with CExit => True | CWait ms _ => ms <> 0 | _ => False end.

Lemma yield_turn s p u :
  pt_inv s -> running s = Some (p, u) -> yields (code u) ->
  exists s', turn malloc code io s = Some s' /\ pt_inv s' /\ running s' = None /\ ready s' = ready s /\ ran s' = ran s.
Proof.
  intros H Hr Hy. destruct (running_thread s p u H Hr) as (t & Ht & Hh & Hs & Hc).
  assert (Hst : pt_inv (stay s p u)) by (by rewrite stay_same).
  unfold turn, do_call. rewrite Hr. destruct (code u) as [|ms k|?|?|?|?|?]; cbn [yields] in Hy; try done.
  - destruct (exit_inv s p u t Hst Ht Hh Hs) as (s3 & E & I). exists s3. done.
  - unfold PT_wait. rewrite Hc. apply Z.eqb_neq in Hy as ->.
    destruct (wait_inv s p u t ms k Hst Ht Hh Hs) as (s3 & E & I & R). exists s3. rewrite E. cbn [mbind option_bind].
    by rewrite (back_main s3 I).
Qed.

Lemma ready_turns s p l :
  pt_inv s -> running s = None -> ready s = p :: l -> (forall u, yields (code u)) ->
  exists s1, turn malloc code io s = Some s1 /\ ready s1 = l /\ ran s1 = ran s ++ [p] /\ pt_inv s1 /\
    (running s1 = None \/ exists s2, turn malloc code io s1 = Some s2 /\ (exists u, running s1 = Some (p, u)) /\
       pt_inv s2 /\ running s2 = None /\ ready s2 = l /\ ran s2 = ran s ++ [p]).
Proof.
  intros H Hr Hl Hy. destruct (resume_spec s p H Hr) as (s1 & E & I & L & N & R); [rewrite Hl; set_solver|].
  assert (L' : ready s1 = l) by (rewrite L, Hl; cbn; by rewrite decide_True).
  exists s1. split_and!; try done; [unfold turn; by rewrite Hr, Hl|].
  destruct R as [R|[u R]]; [by left|]. right.
  destruct (yield_turn s1 p u I R (Hy u)) as (s2 & E2 & I2 & R2 & L2 & N2). exists s2. split_and!; try done; [by exists u| |];
    congruence.
Qed.

(** [PT_run_all] with threads that give up control after each step
    returns: every thread that was ready has had control exactly once, in the
    order of the queue (the last one made ready first), and none is ready or
    running. *)
Theorem pt_run_all_correct s :
  pt_inv s -> running s = None -> (forall u, yields (code u)) ->
  exists s', PT_run_all malloc code io (2 * length (ready s)) s = Some (Some s') /\
    ran s' = ran s ++ ready s /\ running s' = None /\ ready s' = [] /\ pt_inv s'.
Proof.
  intros H Hr Hy. remember (ready s) as l eqn:Hl. symmetry in Hl. revert s H Hr Hl.
  induction l as [|p l IH]; intros s H Hr Hl.
  - exists s. rewrite app_nil_r. split_and!; try done. cbn. by rewrite decide_True.
  - destruct (ready_turns s p l H Hr Hl Hy) as (s1 & E1 & L1 & N1 & I1 & R1).
    replace (2 * length (p :: l))%nat with (S (S (2 * length l))) by (cbn [length]; lia).
    cbn [PT_run_all]. rewrite decide_False by (intros [_ ?]; congruence). rewrite E1. cbn [mbind option_bind].
    destruct R1 as [R1|(s2 & E2 & [u R1] & I2 & R2 & L2 & N2)].
    + destruct (IH s1 I1 R1 L1) as (s' & E & N & R & L & I). exists s'. split_and!; try done.
      * apply run_all_more in E. exact E.
      * rewrite N, N1. by rewrite <- app_assoc.
    + rewrite decide_False by (intros [? _]; congruence). rewrite E2. cbn [mbind option_bind].
      destruct (IH s2 I2 R2 L2) as (s' & E & N & R & L & I). exists s'. split_and!; try done.
      rewrite N, N2. by rewrite <- app_assoc.
Qed.

End Steps.

(** ** Witnesses *)

Module Demo.

Definition evt_malloc (X : gset ptr) : option ptr := Some (fresh X).

Lemma evt_malloc_fresh (X : gset ptr) p : evt_malloc X = Some p -> p ∉ X.
Proof. intros [= <-]. apply is_fresh. Qed.

#[global] Instance ops : TimerOps clocked := sched_timer_ops evt_malloc true.
#[global] Instance laws : Timers clocked := sched_timers evt_malloc true evt_malloc_fresh.

Definition malloc (m : gmap ptr (PThread Z)) : ptr := fresh (dom m : gset ptr).

Lemma malloc_free m : m !! malloc m = None.
Proof. apply (not_elem_of_dom (D := gset ptr)). exact (is_fresh (dom m : gset ptr)). Qed.

(** A thread that waits 50 ms as often as its state says. *)
Definition code (u : Z) : call Z := if u <=? 0 then CExit else CWait 50 (u - 1).
Definition io (fd : Z) (write : bool) (w : unit) : Z * bool * unit := (0, false, w).

Lemma timers_left r (t : clocked) ms a : timer_ok r t -> (timer_add t ms a).1 <> None.
Proof. intros _. by apply timer_add_some. Qed.

Definition start_evts : fds := fds_init 19.
Definition start_timers : clocked := Clk (TV 100 0) start0.

Lemma entries_none fd : entry start_evts fd = None.
Proof.
  unfold entry, chain, start_evts. cbn [events fds_init]. destruct (_ !! _) as [c|] eqn:E; [|done].
  apply lookup_replicate in E as [-> _]. done.
Qed.

Lemma start_ok :
  timer_ok None start_timers /\ armed start_timers = ∅ /\ fd_wf start_evts /\ quiet start_evts /\
  (forall fd z, reader start_evts fd <> Some (FD_EVT_CB, z)).
Proof.
  split_and!; [split; [apply start0_wf|done]|done|by apply fds_init_wf| |].
  - intros fd n. by rewrite entries_none.
  - intros fd z. unfold reader. by rewrite entries_none.
Qed.

Abbreviation start := (PT_init (U := Z) start_timers start_evts tt).

Lemma polite_two : polite_run malloc code io start [LCreate 1; LCreate 2].
Proof. split; [done|]. intros s1 [= <-]. by split. Qed.

End Demo.

Lemma demo_started :
  exists s, run Demo.malloc Demo.code Demo.io Demo.start [LCreate 1; LCreate 2] = Some s /\
    pt_inv (Timers0 := Demo.laws) s /\ running s = None /\ length (ready s) = 2%nat /\ ran s = [].
Proof.
  destruct Demo.start_ok as (H1 & H2 & H3 & H4 & H5).
  destruct (pt_run_inv (Timers0 := Demo.laws) Demo.malloc Demo.code Demo.io Demo.malloc_free Demo.timers_left [LCreate 1; LCreate 2] Demo.start
    (init_inv _ _ _ H1 H2 H3 H4 H5) Demo.polite_two) as (s & E & I).
  exists s. split_and!; try done.
  - assert (R : running <$> run Demo.malloc Demo.code Demo.io Demo.start [LCreate 1; LCreate 2] = Some None) by reflexivity.
    rewrite E in R. by injection R.
  - assert (R : length ∘ ready <$> run Demo.malloc Demo.code Demo.io Demo.start [LCreate 1; LCreate 2] = Some 2%nat) by reflexivity.
    rewrite E in R. by injection R.
  - assert (R : ran <$> run Demo.malloc Demo.code Demo.io Demo.start [LCreate 1; LCreate 2] = Some []) by reflexivity.
    rewrite E in R. by injection R.
Qed.

(** Two threads run once each. *)
Lemma pt_run_all_correct_witness :
  exists s s', run Demo.malloc Demo.code Demo.io Demo.start [LCreate 1; LCreate 2] = Some s /\
    PT_run_all Demo.malloc Demo.code Demo.io 4 s = Some (Some s') /\ ran s' = ready s.
Proof.
  destruct demo_started as (s & E & I & R & L & N).
  destruct (pt_run_all_correct Demo.malloc Demo.code Demo.io Demo.malloc_free Demo.timers_left s I R) as (s' & E' & N' & _).
  - intros u. unfold Demo.code. destruct (u <=? 0); [exact Logic.I|discriminate].
  - exists s, s'. rewrite L in E'. rewrite N in N'. split; [exact E|]. split; [exact E'|exact N'].
Defined.

(** ** Timers that may be due at any time

    The oldest is first. *)

Module Due.

#[global] Instance list_timers : TimerOps (list (ptr * Z)) := {
  timer_add t _ a := let p := fresh (list_to_set (t.*1) : gset ptr) in (Some p, t ++ [(p, a)]);
  timer_remove t p := filter (fun x => x.1 <> p) t;
  timer_begin t := match t with [] => None | (p, a) :: t' => Some (p, a, t') end;
  timer_end t _ := t
}.

Lemma map_filter (t : list (ptr * Z)) p :
  list_to_map (filter (fun x => x.1 <> p) t) = delete p (list_to_map t : gmap ptr Z).
Proof.
  induction t as [|[q a] t IH]; [symmetry; apply delete_empty|]. rewrite filter_cons. cbn [fst]. case_decide as E.
  - rewrite !list_to_map_cons, IH. by rewrite delete_insert_ne.
  - subst q. rewrite IH, list_to_map_cons. by rewrite delete_insert_eq.
Qed.

Lemma map_snoc (t : list (ptr * Z)) p a :
  p ∉ t.*1 -> list_to_map (t ++ [(p, a)]) = <[p := a]> (list_to_map t : gmap ptr Z).
Proof.
  intros Hp. assert (Hn : (list_to_map t : gmap ptr Z) !! p = None) by (by apply not_elem_of_list_to_map_1).
  rewrite list_to_map_app. cbn. rewrite insert_empty. symmetry. apply map_eq. intros q.
  destruct (decide (q = p)) as [->|Hq]; [by rewrite lookup_insert_eq, lookup_union_r, lookup_singleton_eq|].
  rewrite lookup_insert_ne by done. by rewrite lookup_union_l by (by rewrite lookup_singleton_ne).
Qed.

#[global, refine] Instance list_laws : Timers (list (ptr * Z)) := {
  timer_ok _ t := NoDup t.*1;
  armed t := list_to_map t;
  removable _ _ := True
}.
Proof.
  - intros r t ms a Ht. cbn -[fresh]. set (p := fresh _).
    assert (Hp : p ∉ t.*1) by (intros H; apply (is_fresh (list_to_set (t.*1) : gset ptr)), elem_of_list_to_set, H).
    split_and!; [|by apply not_elem_of_list_to_map_1|by apply map_snoc].
    rewrite fmap_app. apply list.NoDup_app. split_and!; [done| |apply NoDup_singleton].
    intros x Hx Hy. apply list_elem_of_singleton in Hy as ->. done.
  - intros r t p Ht _ _. split; [|apply map_filter]. cbn. induction t as [|[q a] t IH]; [constructor|].
    rewrite fmap_cons in Ht. apply list.NoDup_cons in Ht as [Hq Ht]. rewrite filter_cons. cbn [fst]. case_decide; [|by apply IH].
    rewrite fmap_cons. apply list.NoDup_cons. split; [|by apply IH]. intros Hin. apply Hq.
    apply list_elem_of_fmap in Hin as (x & -> & Hx). apply list_elem_of_filter in Hx as [_ Hx]. apply list_elem_of_fmap. by exists x.
  - intros t p a t' Ht E. destruct t as [|[q b] t]; [done|]. cbn in E. injection E as -> -> ->.
    rewrite fmap_cons in Ht. apply list.NoDup_cons in Ht as [Hq Ht]. split_and!; [done|rewrite list_to_map_cons; apply lookup_insert_eq|].
    rewrite list_to_map_cons, delete_insert_id; [done|]. by apply not_elem_of_list_to_map_1.
  - done.
Defined.

(** State 1 waits, state 2 reads descriptor 3 and then waits; both end. *)
Definition code (u : Z) : call Z :=
  if u =? 1 then CWait 50 0 else if u =? 2 then CRw 3 0 false (fun _ => 1) else CExit.

Abbreviation start := (PT_init (U := Z) ([] : list (ptr * Z)) Demo.start_evts tt).

(** Two threads run in turn: the second reads, the first waits; the timer of the
    first fires and it ends, the descriptor becomes readable, and the second
    goes on to wait and to end. *)
Definition labels : list (label (U := Z)) :=
  [LCreate 1; LCreate 2; LTurn; LTurn; LTurn; LTurn; LTimer; LTurn; LTurn; LFd 3; LTurn; LTurn; LTimer; LTurn; LTurn].

Lemma no_rw (m : gmap ptr (PThread Z)) fd :
  forallb (fun x => match ctx x.2 with AfterRw f _ _ _ => negb (f =? fd) | _ => true end) (map_to_list m) = true ->
  forall x, ~ in_rw m x fd.
Proof.
  rewrite forallb_forall. intros H x (t & to & w & k & Ht & Hc & _). apply elem_of_map_to_list in Ht.
  specialize (H (x, t) (proj1 (list_elem_of_In _ _) Ht)). cbn in H. by rewrite Hc, Z.eqb_refl in H.
Qed.

Lemma polite_labels : polite_run Demo.malloc code Demo.io start labels.
Proof.
  repeat (split; [first [by vm_compute|split; [reflexivity|]; intros _; split; [by vm_compute|apply no_rw; by vm_compute]]|let s1 := fresh "s" in let E := fresh "E" in intros s1 E; vm_compute in E; injection E as <-]).
  exact I.
Qed.

Lemma due_left r (t : list (ptr * Z)) ms a : timer_ok r t -> (timer_add t ms a).1 <> None.
Proof. done. Qed.

End Due.

Lemma pt_threads_safe_witness :
  exists s, run Demo.malloc Due.code Demo.io Due.start Due.labels = Some s /\
    ran s = [2; 1; 1; 2; 2]%positive /\ threads s = ∅ /\ NoDup (curr s ++ ready s ++ blocked s) /\
    (forall fd z, reader (evts s) fd = Some (FD_EVT_CB, z) <->
       exists p t to w k, z = Zpos p /\ threads s !! p = Some t /\ ctx t = AfterRw fd to w k /\ p ∈ blocked s).
Proof.
  destruct Demo.start_ok as (_ & _ & H3 & H4 & H5).
  destruct (pt_threads_safe (T := list (ptr * Z)) Demo.malloc Due.code Demo.io Demo.malloc_free Due.due_left [] Demo.start_evts tt
    Due.labels ltac:(constructor) eq_refl H3 H4 H5 Due.polite_labels) as (s & E & N & _ & _ & _ & _ & R).
  exists s. split; [exact E|]. split; [|split; [|split; [exact N|exact R]]]; vm_compute in E; by injection E as <-.
Defined.


(** ** Where the rules are needed *)

Module Impolite.
Export Due.

(** State 0 reads descriptor 5 for at most 50 ms, state 1 waits twice; a
    result [r] of the read is state [100 + r]. *)
Definition code (u : Z) : call Z :=
  if u =? 0 then CRw 5 50 false (fun r => 100 + r)
  else if u =? 1 then CWait 50 2
  else if u =? 2 then CWait 50 3
  else CExit.

(** The world counts the reads that would block. *)
Definition io (fd : Z) (write : bool) (w : Z) : Z * bool * Z := if 0 <? w then (-1, true, w - 1) else (8, false, w).

Abbreviation start w := (PT_init (U := Z) ([] : list (ptr * Z)) Demo.start_evts w).
Abbreviation go w ls := (run Demo.malloc code io (start w) ls).

End Impolite.

(** The time limit of a read leaves the descriptor event registered: the thread
    ends, and the descriptor's callback uses the freed thread. *)
Example pt_timeout_leaves_event :
  is_Some (Impolite.go 0 [LCreate 0; LTurn; LTurn; LTimer; LTurn; LTurn]) /\
  Impolite.go 0 [LCreate 0; LTurn; LTurn; LTimer; LTurn; LTurn; LFd 5] = None.
Proof. split; [by eexists; vm_compute|by vm_compute]. Qed.

(** A read that would block again is reported as a time-out, although the timer
    was cancelled: its state is -2 behind 100. *)
Example pt_retry_times_out :
  running <$> Impolite.go 1 [LCreate 0; LTurn; LTurn; LFd 5; LTurn; LFd 5; LTurn] = Some (Some (1%positive, 98)).
Proof. by vm_compute. Qed.

(** [PT_unblock] of a thread in [PT_wait] leaves its timer: the next [PT_wait]
    fails an assertion. *)
Example pt_unblock_waiting_aborts :
  is_Some (Impolite.go 0 [LCreate 1; LTurn; LTurn; LUnblock 1%positive; LTurn]) /\
  Impolite.go 0 [LCreate 1; LTurn; LTurn; LUnblock 1%positive; LTurn; LTurn] = None.
Proof. split; [by eexists; vm_compute|by vm_compute]. Qed.
