(* ===== verification/Config.v ===== *)
(** * Configuration files (config.c)

    A configuration file holds lines [key=value] and nested objects
    [<name params> ... </name>].  config.c walks it with tables that name the
    keys of an object and the callbacks for them; an object whose table is not
    known yet is kept as text and parsed when it is asked for.  The tables, the
    lookups and the callbacks are the program's: tables are records, a lookup or
    callback is a number that the environment interprets, on data pointers and
    on a world [W].  Memory runs out nowhere (the code tests only some of its
    allocations); a write past a buffer is [Overrun], a loop that does not end
    is [NoEnd]. *)

From stdpp Require Import base list sets numbers.
From Stdlib Require Import ZArith Lia.
From Stdlib Require String Ascii.
Import String.StringSyntax.
From S2P Require Import Prelude Words CStr.
Open Scope Z_scope.

(** ** Results *)

Inductive outcome (A : Type) := Done (a : A) | Overrun | NoEnd.
Arguments Done {_}.
Arguments Overrun {_}.
Arguments NoEnd {_}.

Definition and_then {A B} (o : outcome A) (k : A -> outcome B) : outcome B :=
  match o with Done a => k a | Overrun => Overrun | NoEnd => NoEnd end.

Declare Scope outcome_scope.
Notation "'let*' x ':=' e 'in' k" := (and_then e (fun x => k))
  (at level 200, x pattern, right associativity) : outcome_scope.
Open Scope outcome_scope.

(** ** Data *)

Abbreviation str := (list Z).

(** The callback of [CFG_cfg_for_object_buffer], or one of the program's, with
    its parameters. *)
Inductive cbref := UserCb (z : Z) | PtrCpy.

Record CFG_ParseValue := PValue { v_name : str; lookup_cb : option Z; v_cb : option cbref }.
Record CFG_ParseObj := PObj { initCb : option cbref; finiCb : option cbref; keys : list CFG_ParseValue }.

(** A [void *] of the parser: NULL, the program's, a [CFG_buffered_obj] with
    what it points to, or the address of a pointer, with what is stored
    there. *)
Inductive data :=
  | Null
  | User (z : Z)
  | Buffered (parsed_cfg : data) (obj_text : option str) (val : CFG_ParseValue)
  | Cell (stored : data).

(** The value given to a callback: text, or the data of an object. *)
Inductive cb_arg := Text (s : option str) | Object (d : data).

(** Where lines come from: what is left of the file, or of the text of a
    buffered object. *)
Record source := Src { file : option str; replay : option str; stop : bool; lineNum : Z }.

(** The accumulated text and the size of its block. *)
Record accum := Acc { a_text : str; a_len : Z }.

Record CFG_Context := Ctx { src : source; acc : option accum; allow_buffering : bool; buff : str }.

Definition with_src (c : CFG_Context) (v : source) : CFG_Context := Ctx v (acc c) (allow_buffering c) (buff c).
Definition with_acc (c : CFG_Context) (v : option accum) : CFG_Context := Ctx (src c) v (allow_buffering c) (buff c).
Definition with_allow (c : CFG_Context) (v : bool) : CFG_Context := Ctx (src c) (acc c) v (buff c).
Definition with_buff (c : CFG_Context) (v : str) : CFG_Context := Ctx (src c) (acc c) (allow_buffering c) v.

Definition BUFF_SIZE : nat := 4096.
Definition LT : Z := 60.
Definition GT : Z := 62.

(** The string ends in [c]. *)
Fixpoint ends_in (c : Z) (b : str) : bool :=
  match b with
  | [] => false
  | [x] => x =? c
  | _ :: b' => ends_in c b'
  end.

Definition is_open (b : str) : bool := match b with a :: _ => a =? LT | [] => false end.
Definition is_close (b : str) : bool := match b with a :: c :: _ => (a =? LT) && (c =? 47) | _ => false end.

(** ** Lines *)

(** [fgets]: up to a newline, [n] bytes at most. *)
Fixpoint take_line (n : nat) (f : str) : str * str :=
  match n, f with
  | O, _ => ([], f)
  | _, [] => ([], [])
  | S n', c :: f' => if c =? 10 then ([10], f') else let '(a, r) := take_line n' f' in (c :: a, r)
  end.

Definition is_eol (c : Z) : bool := (c =? 10) || (c =? 13).

(** The newlines and carriage returns at the end go. *)
Fixpoint strip_end (b : str) : str :=
  match b with
  | [] => []
  | c :: b' => match strip_end b' with
               | [] => if is_eol c then [] else [c]
               | r => c :: r
               end
  end.

Fixpoint skip_blank (b : str) : str :=
  match b with
  | c :: b' => if isblank c then skip_blank b' else b
  | [] => []
  end.

Definition comment (b : str) : bool :=
  match b with [] => true | c :: _ => (c =? 35) || (c =? 59) end.

(** The loop of [NextLine] over the file; [fuel] is one more than its bytes. *)
Fixpoint file_line (fuel : nat) (f : str) (n : Z) (skipFlag : bool) : option (str * str * Z) :=
  match fuel with
  | O => None
  | S fuel' =>
      match f with
      | [] => None
      | _ =>
          let '(chunk, rest) := take_line (BUFF_SIZE - 1) f in
          let b := cstr chunk in
          match b with
          | [] => file_line fuel' rest (n + 1) skipFlag
          | _ =>
              if negb (ends_in 10 b) || skipFlag then file_line fuel' rest (n + 1) (negb skipFlag)
              else
                let b := skip_blank (strip_end b) in
                if comment b then file_line fuel' rest (n + 1) skipFlag else Some (b, rest, n + 1)
          end
      end
  end.

(** [None] is the end of the file. *)
Definition NextLine (c : CFG_Context) : outcome (option CFG_Context) :=
  let s := src c in
  match replay s with
  | Some r =>
      let '(line, rest) := strchr 10 (cstr r) in
      Done (Some (with_buff (with_src c (Src (file s) rest (stop s || negb (bool_decide (is_Some rest))) (lineNum s + 1)))
                   (take (BUFF_SIZE - 1) line)))
  | None =>
      if stop s then Done (Some c)
      else match file s with
           | None => Overrun
           | Some f =>
               match file_line (S (length f)) f (lineNum s) false with
               | None => Done None
               | Some (b, rest, n) => Done (Some (with_buff (with_src c (Src (Some rest) None false n)) b))
               end
           end
  end.

Definition accumulate_line (c : CFG_Context) : outcome CFG_Context :=
  let len := zlen (buff c) in
  let a := match acc c with
           | Some a => if a_len a =? 0 then Acc [] 1024 else a
           | None => Acc [] 1024
           end in
  let used := zlen (a_text a) in
  let cap := if u64 (a_len a - used - 3) <=? len then a_len a * 2 else a_len a in
  if used + len + 2 <=? cap then Done (with_acc c (Some (Acc (a_text a ++ buff c ++ [10]) cap))) else Overrun.

(** ** Objects *)

Section Parse.
Context {W : Type}.
(** The tables, by address; a lookup callback, with its argument: the table
    for the parameters and the new value of [buffer_obj]; a callback. *)
Variable objs : Z -> CFG_ParseObj.
Variable lookup : Z -> str -> bool -> option Z * bool.
Variable call : Z -> str -> cb_arg -> data -> W -> data * W.

(** [CFG_PtrCpyCB] stores the value where [data] points. *)
Definition CFG_PtrCpyCB (arg : cb_arg) (d : data) : data :=
  match arg, d with Object v, Cell _ => Cell v | _, _ => d end.

Definition call_cb (o : option cbref) (key : str) (arg : cb_arg) (d : data) (w : W) : data * W :=
  match o with
  | None => (d, w)
  | Some PtrCpy => (CFG_PtrCpyCB arg d, w)
  | Some (UserCb z) => call z key arg d w
  end.

Fixpoint find_value (ks : list CFG_ParseValue) (name : str) : option CFG_ParseValue :=
  match ks with
  | [] => None
  | v :: ks' => if same_name (v_name v) name then Some v else find_value ks' name
  end.

Definition processKeyValueLine (c : CFG_Context) (ks : option (list CFG_ParseValue)) (d : data) (w : W)
    : data * CFG_Context * W :=
  let '(key, value) := strchr 61 (buff c) in
  let c' := with_buff c key in
  match ks ≫= fun l => find_value l key with
  | Some v =>
      match lookup_cb v with
      | Some _ => (d, c', w)
      | None => let '(d', w') := call_cb (v_cb v) key (Text value) d w in (d', c', w')
      end
  | None => (d, c', w)
  end.

(** [__type_<name>], in 256 bytes. *)
Definition type_key (name : str) : str := take 255 ([95; 95; 116; 121; 112; 101; 95] ++ name).
Definition TYPE_KEY : str := [95; 95; 116; 121; 112; 101].

(** The callback for the type of an object; its result is dropped. *)
Definition call_type (ks : option (list CFG_ParseValue)) (key params : str) (d : data) (w : W) : W :=
  match ks ≫= fun l => find_value l key with
  | Some v => (call_cb (v_cb v) key (Text (Some params)) d w).2
  | None => w
  end.

(** The entry of a sub-object in the table of its parent. *)
Definition sub_value (ks : option (list CFG_ParseValue)) (name : str) : option CFG_ParseValue :=
  v ← ks ≫= fun l => find_value l name; match lookup_cb v with Some _ => Some v | None => None end.

Definition child_keys (child : option Z) : option (list CFG_ParseValue) := (fun i => keys (objs i)) <$> child.

(** The lookup of a sub-object: its table and, if it is to be buffered, its
    entry. *)
Definition find_child (curr : option CFG_ParseValue) (params : str) (allow : bool) : option Z * option CFG_ParseValue :=
  match curr with
  | Some v =>
      match lookup_cb v with
      | Some l => let '(child, buffer_obj) := lookup l params allow in (child, if (buffer_obj : bool) then Some v else None)
      | None => (None, None)
      end
  | None => (None, None)
  end.

(** The lines of an object, up to its end; [parse] is [ParseObject]. *)
Fixpoint object_lines (parse : CFG_Context -> option (list CFG_ParseValue) -> data -> W -> outcome (data * CFG_Context * W))
    (fuel : nat) (c : CFG_Context) (child : option Z) (name : str) (d : data) (w : W)
    : outcome (data * CFG_Context * W) :=
  match fuel with
  | O => NoEnd
  | S fuel' =>
      let* more := NextLine c in
      match more with
      | None => Done (d, c, w)
      | Some c1 =>
          if is_close (buff c1) then
            let* c2 := if bool_decide (is_Some (acc c1)) then accumulate_line c1 else Done c1 in
            let obj := removelast (buff c2) in
            let c3 := with_buff c2 obj in
            if (zlen obj <? 3) || negb (same_name (drop 2 obj) name) then object_lines parse fuel' c3 child name d w
            else Done (d, c3, w)
          else if is_open (buff c1) then
            let* (d1, c2, w1) := parse (with_allow c1 true) (child_keys child) d w in
            object_lines parse fuel' (with_allow c2 (allow_buffering c1)) child name d1 w1
          else
            match acc c1 with
            | None =>
                let '(d1, c2, w1) := processKeyValueLine c1 (child_keys child) d w in
                object_lines parse fuel' c2 child name d1 w1
            | Some _ => let* c2 := accumulate_line c1 in object_lines parse fuel' c2 child name d w
            end
      end
  end.

Fixpoint ParseObject (fuel : nat) (c : CFG_Context) (par : option (list CFG_ParseValue)) (parData : data) (w : W)
    : outcome (data * CFG_Context * W) :=
  match fuel with
  | O => NoEnd
  | S fuel' =>
      if negb (ends_in GT (buff c)) then Done (Null, c, w)
      else
        let '(name, params) := strchr 32 (removelast (tail (buff c))) in
        let paramsLcl := default [] params in
        let curr := match acc c with None => sub_value par name | Some _ => None end in
        let '(child, obj_buff) := find_child curr paramsLcl (allow_buffering c) in
        let* c1 := if bool_decide (is_Some (acc c)) || (bool_decide (child = None) && bool_decide (is_Some obj_buff))
                   then accumulate_line c else Done c in
        let c1 := with_buff c1 (LT :: name) in
        let '(data0, w1) :=
          match child with
          | Some i => call_cb (initCb (objs i)) name (Text (Some paramsLcl)) Null w
          | None => (Null, w)
          end in
        let tkey := match curr with Some _ => type_key name | None => [] end in
        let w2 := call_type par tkey paramsLcl parData w1 in
        let w3 := call_type (child_keys child) TYPE_KEY paramsLcl data0 w2 in
        let* (data1, c2, w4) := object_lines (ParseObject fuel') fuel' c1 child name data0 w3 in
        let '(data2, w5) :=
          match child with
          | Some i => call_cb (finiCb (objs i)) name (Text (Some paramsLcl)) data1 w4
          | None => (data1, w4)
          end in
        let '(data3, c3) :=
          match obj_buff with
          | Some v =>
              match child with
              | Some _ => (Buffered data2 None v, c2)
              | None => (Buffered Null (a_text <$> acc c2) v, with_acc c2 None)
              end
          | None => (data2, c2)
          end in
        match curr with
        | Some v =>
            match v_cb v with
            | Some cb => let '(d, w6) := call_cb (Some cb) (v_name v) (Object data3) parData w5 in Done (d, c3, w6)
            | None => Done (parData, c3, w5)
            end
        | None => Done (parData, c3, w5)
        end
  end.

(** The text of a buffered object is parsed when its data is asked for, once:
    the data, and what becomes of the object. *)
Definition CFG_cfg_for_object_buffer (fuel : nat) (obj : data) (w : W) : outcome (data * data * W) :=
  match obj with
  | Buffered Null text v =>
      let root := [PValue (v_name v) (lookup_cb v) (Some PtrCpy)] in
      let c := Ctx (Src None text false 0) None false [] in
      let* more := NextLine c in
      match more with
      | None => Done (Null, Buffered Null None v, w)
      | Some c1 =>
          let* (d, _, w1) := ParseObject fuel c1 (Some root) (Cell Null) w in
          let parsed := match d with Cell p => p | _ => Null end in
          Done (parsed, Buffered parsed None v, w1)
      end
  | Buffered parsed _ _ => Done (parsed, obj, w)
  | _ => Done (Null, obj, w)
  end.

Fixpoint top_lines (fuel : nat) (c : CFG_Context) (ks : list CFG_ParseValue) (d : data) (w : W)
    : outcome (data * W) :=
  match fuel with
  | O => NoEnd
  | S fuel' =>
      let* more := NextLine c in
      match more with
      | None => Done (d, w)
      | Some c1 =>
          if is_open (buff c1) then
            let* (d1, c2, w1) := ParseObject fuel' c1 (Some ks) d w in top_lines fuel' c2 ks d1 w1
          else let '(d1, c2, w1) := processKeyValueLine c1 (Some ks) d w in top_lines fuel' c2 ks d1 w1
      end
  end.

(** [content] is what [fopen] gives. *)
Definition CFG_parseFileAtPath (fuel : nat) (rootObj : option Z) (content : option str) (w : W)
    : outcome (data * W) :=
  match content with
  | None => Done (Null, w)
  | Some f =>
      let* (d, w1) :=
        match rootObj with
        | Some r =>
            match initCb (objs r) with
            | Some _ =>
                let '(d0, w0) := call_cb (initCb (objs r)) [] (Text (Some [])) Null w in
                top_lines fuel (Ctx (Src (Some f) None false 0) None true []) (keys (objs r)) d0 w0
            | None => Done (Null, w)
            end
        | None => Done (Null, w)
        end in
      match rootObj with
      | Some r => Done (call_cb (finiCb (objs r)) [] (Text (Some [])) d w1)
      | None => Done (d, w1)
      end
  end.
End Parse.

(** ** Callbacks for values

    What the callbacks store in the field of the program's structure, and
    whether they return the structure (or NULL, after ERANGE). *)

Definition CFG_uint32_CB (value : str) : Z * bool := let '(v, erange) := strtol value 0 in (u32 v, negb erange).
Definition CFG_uint16_CB (value : str) : Z * bool := let '(v, erange) := strtol value 0 in (v mod 2 ^ 16, negb erange).
Definition CFG_int32_CB (value : str) : Z * bool := let '(v, erange) := strtol value 0 in (s32 v, negb erange).
Definition CFG_int16_CB (value : str) : Z * bool :=
  let '(v, erange) := strtol value 0 in ((v + 2 ^ 15) mod 2 ^ 16 - 2 ^ 15, negb erange).
Definition CFG_StrdupCB (value : str) : str := cstr value.

(** An array of pointers; [cells] is the block it points to. *)
Record CFG_Array := Arr { len : Z; capacity : Z; cells : list data }.

(** The array, and whether [data] is returned; [malloc_ok] is the allocation of
    a larger block. *)
Definition CFG_PtrArrayAppendCB (dest : CFG_Array) (value : data) (malloc_ok : bool) : outcome (CFG_Array * bool) :=
  let* (dest, ok) :=
    if len dest =? capacity dest then
      let cap := capacity dest + 5 in
      if malloc_ok then Done (Arr (len dest) cap (take (Z.to_nat (len dest)) (cells dest)
                                ++ replicate (Z.to_nat (cap - len dest)) Null), true)
      else Done (Arr (len dest) cap (cells dest), false)
    else Done (dest, true) in
  if negb ok then Done (dest, false)
  else if len dest <? zlen (cells dest)
       then Done (Arr (len dest + 1) (capacity dest) (<[Z.to_nat (len dest) := value]> (cells dest)), true)
       else Overrun.

(** The objects [freeCb] is called for, and the array that is left. *)
Definition CFG_freeArray (arr : CFG_Array) : list data * CFG_Array :=
  match cells arr with
  | [] => ([], arr)
  | _ => (take (Z.to_nat (len arr)) (cells arr), Arr 0 0 [])
  end.

(** The two lookups the library offers; a table in the list has a subtype. *)
Definition CFG_static_obj (arg : Z) (params : str) (buffer_obj : bool) : option Z * bool := (Some arg, false).

Fixpoint CFG_static_arr_obj (itr : list (str * Z)) (params : str) (buffer_obj : bool) : option Z * bool :=
  match itr with
  | [] => (None, false)
  | (subtype, obj) :: itr' => if same_name subtype params then (Some obj, false) else CFG_static_arr_obj itr' params buffer_obj
  end.

(** The places a configuration file is looked for; [exists_at] is [stat]. *)
Definition config_places (name : str) (home : option str) : list str :=
  [name] ++ (match home with Some h => [h ++ [47; 46] ++ name] | None => [] end) ++
  [[47; 101; 116; 99; 47] ++ name; [47; 117; 115; 114; 47; 108; 111; 99; 97; 108; 47; 101; 116; 99; 47] ++ name].

(** [path] is [gConfigPath]; a path that does not fit is a fault. *)
Fixpoint locate (exists_at : str -> bool) (places : list str) (path : str) : outcome (Z * str) :=
  match places with
  | [] => Done (0, path)
  | p :: ps => if zlen p <=? 4096 then if exists_at p then Done (1, p) else locate exists_at ps path else Overrun
  end.

Definition CFG_locateConfigFile (exists_at : str -> bool) (home : option str) (name path : str) : outcome (Z * str) :=
  locate exists_at (config_places name home) path.

(** ** Documents

    What a configuration file says, and its lines. *)

Inductive item :=
  | Key (k : str) (v : option str)
  | Sub (name : str) (params : option str) (items : list item).

Definition key_line (k : str) (v : option str) : str := k ++ match v with Some v => 61 :: v | None => [] end.
Definition open_line (name : str) (params : option str) : str :=
  LT :: name ++ match params with Some p => 32 :: p | None => [] end ++ [GT].
Definition close_line (name : str) : str := LT :: 47 :: name ++ [GT].

Fixpoint item_lines (it : item) : list str :=
  match it with
  | Key k v => [key_line k v]
  | Sub name params items =>
      open_line name params :: (fix go l := match l with [] => [] | x :: l' => item_lines x ++ go l' end) items
        ++ [close_line name]
  end.

Definition items_lines (l : list item) : list str := concat (item_lines <$> l).

(** The text of a buffered object. *)
Definition text_of (ls : list str) : str := concat ((fun l => l ++ [10]) <$> ls).

(** The meaning of a document: the calls of the callbacks, item by item. *)
Section Meaning.
Context {W : Type}.
Variable objs : Z -> CFG_ParseObj.
Variable lookup : Z -> str -> bool -> option Z * bool.
Variable call : Z -> str -> cb_arg -> data -> W -> data * W.

Definition key_meaning (ks : option (list CFG_ParseValue)) (k : str) (v : option str) (d : data) (w : W) : data * W :=
  match ks ≫= fun l => find_value l k with
  | Some pv => match lookup_cb pv with Some _ => (d, w) | None => call_cb call (v_cb pv) k (Text v) d w end
  | None => (d, w)
  end.

(** The data of an object with a table [child]: its callbacks before the
    items, the items, and the callback after them. *)
Definition object_meaning (body : option (list CFG_ParseValue) -> data -> W -> data * W)
    (par : option (list CFG_ParseValue)) (curr : option CFG_ParseValue) (child : option Z) (name params : str)
    (parData : data) (w : W) : data * W :=
  let '(data0, w1) :=
    match child with Some i => call_cb call (initCb (objs i)) name (Text (Some params)) Null w | None => (Null, w) end in
  let w2 := call_type call par (match curr with Some _ => type_key name | None => [] end) params parData w1 in
  let w3 := call_type call (child_keys objs child) TYPE_KEY params data0 w2 in
  let '(data1, w4) := body (child_keys objs child) data0 w3 in
  match child with Some i => call_cb call (finiCb (objs i)) name (Text (Some params)) data1 w4 | None => (data1, w4) end.

Definition finish (curr : option CFG_ParseValue) (d parData : data) (w : W) : data * W :=
  match curr with
  | Some v => match v_cb v with Some cb => call_cb call (Some cb) (v_name v) (Object d) parData w | None => (parData, w) end
  | None => (parData, w)
  end.

Fixpoint meaning (allow : bool) (par : option (list CFG_ParseValue)) (it : item) (d : data) (w : W) : data * W :=
  match it with
  | Key k v => key_meaning par k v d w
  | Sub name params items =>
      let p := default [] params in
      let curr := sub_value par name in
      let '(child, obj_buff) := find_child lookup curr p allow in
      match child, obj_buff with
      | None, Some v =>
          let w1 := call_type call par (type_key name) p d w in
          finish curr (Buffered Null (Some (text_of (item_lines it))) v) d w1
      | _, _ =>
          let '(d1, w1) :=
            object_meaning
              (fun ks d0 w0 =>
                 (fix go l d w := match l with [] => (d, w) | x :: l' => let '(d, w) := meaning true ks x d w in go l' d w end)
                   items d0 w0) par curr child name p d w in
          finish curr (match obj_buff with Some v => Buffered d1 None v | None => d1 end) d w1
      end
  end.

Fixpoint meanings (ks : option (list CFG_ParseValue)) (l : list item) (d : data) (w : W) : data * W :=
  match l with
  | [] => (d, w)
  | x :: l' => let '(d, w) := meaning true ks x d w in meanings ks l' d w
  end.
End Meaning.

(** Lines that the reader keeps as they are: no newline and no zero byte, no
    blank or comment character in front, no carriage return at the end, and
    short enough for the buffers. *)
Definition line_ok (l : str) : Prop :=
  Forall (fun c => c <> 10 /\ c <> 0) l /\ comment l = false /\ isblank (hd 0 l) = false /\ ends_in 13 l = false /\
  zlen l <= 1020.

(** A name of an object: no blank, and not empty. *)
Definition name_ok (n : str) : Prop := n <> [] /\ 32 ∉ n /\ hd 0 n <> 47.

Fixpoint item_ok (it : item) : Prop :=
  match it with
  | Key k v => 61 ∉ k /\ is_open k = false /\ line_ok (key_line k v)
  | Sub name params items =>
      name_ok name /\ line_ok (open_line name params) /\ line_ok (close_line name) /\
      (fix go l := match l with [] => True | x :: l' => item_ok x /\ go l' end) items
  end.

(** ** Documents as lists of lines *)

Section ItemInd.
Variable P : item -> Prop.
Hypothesis PKey : forall k v, P (Key k v).
Hypothesis PSub : forall name params items, Forall P items -> P (Sub name params items).

Fixpoint item_rect' (it : item) : P it :=
  match it with
  | Key k v => PKey k v
  | Sub name params items =>
      PSub name params items
        ((fix go l : Forall P l :=
            match l with [] => @List.Forall_nil _ P | x :: l' => @List.Forall_cons _ P x l' (item_rect' x) (go l') end) items)
  end.
End ItemInd.

Lemma sub_lines name params items :
  item_lines (Sub name params items) = open_line name params :: items_lines items ++ [close_line name].
Proof.
  cbn [item_lines]. do 2 f_equal. unfold items_lines. induction items as [|x l IH]; [done|].
  rewrite fmap_cons. cbn [concat]. by rewrite IH.
Qed.

Lemma sub_ok name params items :
  item_ok (Sub name params items) <->
  name_ok name /\ line_ok (open_line name params) /\ line_ok (close_line name) /\ Forall item_ok items.
Proof.
  cbn [item_ok]. assert (H : forall l, (fix go l := match l with [] => True | x :: l' => item_ok x /\ go l' end) l
    <-> Forall item_ok l).
  { induction l as [|x l IH]; [split; [constructor|done]|]. by rewrite list.Forall_cons, IH. }
  by rewrite H.
Qed.

Lemma items_lines_cons x l : items_lines (x :: l) = item_lines x ++ items_lines l.
Proof. done. Qed.

Lemma text_of_app a b : text_of (a ++ b) = text_of a ++ text_of b.
Proof. unfold text_of. by rewrite fmap_app, concat_app. Qed.

Lemma text_of_cons l ls : text_of (l :: ls) = l ++ [10] ++ text_of ls.
Proof. unfold text_of. rewrite fmap_cons. cbn [concat]. by rewrite <- app_assoc. Qed.

(** ** The lines of objects *)

Lemma ends_in_snoc c b x : ends_in c (b ++ [x]) = (x =? c).
Proof. induction b as [|y b IH]; [done|]. cbn [app ends_in]. destruct (b ++ [x]) eqn:E; [by destruct b|exact IH]. Qed.

Lemma removelast_snoc (b : str) x : removelast (b ++ [x]) = b.
Proof. apply List.removelast_last. Qed.

Lemma open_line_spec name params :
  name_ok name ->
  ends_in GT (open_line name params) = true /\ is_open (open_line name params) = true /\
  is_close (open_line name params) = false /\
  strchr 32 (removelast (tail (open_line name params))) = (name, params).
Proof.
  intros (Hn & Hb & Hs). unfold open_line. set (r := name ++ _).
  assert (E : LT :: name ++ match params with Some p => 32 :: p | None => [] end ++ [GT] =
    (LT :: name ++ match params with Some p => 32 :: p | None => [] end) ++ [GT])
    by (cbn [app]; by rewrite <- app_assoc).
  split_and!.
  - unfold r. rewrite E. apply ends_in_snoc.
  - done.
  - unfold r, is_close. destruct name as [|x name]; [done|]. cbn [app]. cbn [hd] in Hs.
    change (LT =? LT) with true. by apply Z.eqb_neq in Hs as ->.
  - cbn [tail]. unfold r. rewrite app_assoc, removelast_snoc. destruct params as [p|]; [by apply strchr_app|].
    rewrite app_nil_r. by apply strchr_none.
Qed.

Lemma close_line_spec name :
  name_ok name ->
  is_close (close_line name) = true /\ removelast (close_line name) = LT :: 47 :: name /\
  ((zlen (LT :: 47 :: name) <? 3) || negb (same_name (drop 2 (LT :: 47 :: name)) name)) = false.
Proof.
  intros (Hn & _ & _). split_and!; [done| |].
  - exact (removelast_snoc (LT :: 47 :: name) GT).
  - cbn [drop]. rewrite same_name_refl. destruct name; [done|]. cbn [length negb orb]. rewrite orb_false_r.
    apply Z.ltb_ge. lia.
Qed.

Lemma key_line_spec k v :
  61 ∉ k -> is_open k = false -> comment (key_line k v) = false ->
  is_open (key_line k v) = false /\ is_close (key_line k v) = false /\ strchr 61 (key_line k v) = (k, v).
Proof.
  intros Hk Ho Hc. unfold key_line in *.
  assert (H : is_open (k ++ match v with Some v => 61 :: v | None => [] end) = false).
  { destruct k as [|x k]; [|exact Ho]. by destruct v. }
  split_and!; [done| |].
  - unfold is_close. unfold is_open in H. destruct (k ++ _) as [|a [|b r]]; try done. by rewrite H.
  - destruct v as [v|]; [by apply strchr_app|]. rewrite app_nil_r. by apply strchr_none.
Qed.

(** ** Sources of lines *)

(** Reading a line from [s] gives [l] and leaves [s']. *)
Definition next_src (s : source) (l : str) (s' : source) : Prop :=
  forall c, src c = s -> NextLine c = Done (Some (with_buff (with_src c s') l)).

Inductive feeds : source -> list str -> source -> Prop :=
  | feeds_nil s : feeds s [] s
  | feeds_cons s l s1 ls s2 : next_src s l s1 -> feeds s1 ls s2 -> feeds s (l :: ls) s2.

Lemma feeds_app s a b s' : feeds s (a ++ b) s' <-> exists s1, feeds s a s1 /\ feeds s1 b s'.
Proof.
  split.
  - revert s. induction a as [|l a IH]; intros s H.
    + exists s. split; [constructor|done].
    + inversion H as [|? ? s1 ? ? H1 H2]; subst. destruct (IH s1 H2) as (s2 & F1 & F2).
      exists s2. split; [by econstructor|done].
  - intros (s1 & F1 & F2). induction F1; [done|]. cbn. econstructor; [done|]. by apply IHF1.
Qed.

(** ** Accumulating text *)

Definition acc_ok (a : accum) : Prop := zlen (a_text a) + 3 <= a_len a /\ 1024 <= a_len a <= 2 * zlen (a_text a) + 2048.

Lemma accumulate_ok c a :
  acc_ok a -> acc c = Some a \/ (acc c = None /\ a = Acc [] 1024) -> zlen (buff c) <= 1020 ->
  zlen (a_text a) < 2 ^ 61 ->
  exists a', accumulate_line c = Done (with_acc c (Some a')) /\ acc_ok a' /\ a_text a' = a_text a ++ buff c ++ [10].
Proof.
  intros [H1 H2] Ha Hb Hs. unfold accumulate_line.
  assert (E : (match acc c with Some a => if a_len a =? 0 then Acc [] 1024 else a | None => Acc [] 1024 end) = a).
  { destruct Ha as [->|[-> ->]]; [|done]. by rewrite (proj2 (Z.eqb_neq _ _)) by lia. }
  rewrite E. unfold u64. rewrite Z.mod_small by lia.
  set (cap := if _ <=? zlen (buff c) then _ else _).
  assert (Hcap : zlen (a_text a) + zlen (buff c) + 4 <= cap /\
    1024 <= cap <= 2 * (zlen (a_text a) + zlen (buff c) + 1) + 2048).
  { unfold cap. destruct (Z.leb_spec (a_len a - zlen (a_text a) - 3) (zlen (buff c))); lia. }
  rewrite (proj2 (Z.leb_le _ _)) by lia. eexists. split; [done|]. cbn. split; [|done].
  unfold acc_ok. cbn. rewrite !length_app. cbn [length]. lia.
Qed.

(** ** Parsing is the meaning *)

Section Correct.
Context {W : Type}.
Variable objs : Z -> CFG_ParseObj.
Variable lookup : Z -> str -> bool -> option Z * bool.
Variable call : Z -> str -> cb_arg -> data -> W -> data * W.

Abbreviation parse := (ParseObject objs lookup call).
Abbreviation body fuel := (object_lines objs call (parse fuel)).

Lemma next_buff c s l s' :
  next_src s l s' -> src c = s ->
  exists c1, NextLine c = Done (Some c1) /\ buff c1 = l /\ src c1 = s' /\ acc c1 = acc c /\
    allow_buffering c1 = allow_buffering c.
Proof. intros H E. rewrite (H c E). by eexists. Qed.

(** Inside a buffered object an item is kept as text. *)
Definition kept (it : item) : Prop :=
  match it with
  | Key _ _ => True
  | Sub name params items =>
      forall fuel c s' a d w,
        (length (item_lines it) <= fuel)%nat -> buff c = open_line name params ->
        feeds (src c) (items_lines items ++ [close_line name]) s' -> acc c = Some a -> acc_ok a ->
        zlen (a_text a) + zlen (text_of (item_lines it)) < 2 ^ 61 ->
        exists c' a', parse fuel c None d w = Done (d, c', w) /\ src c' = s' /\ allow_buffering c' = allow_buffering c /\
          acc c' = Some a' /\ acc_ok a' /\ a_text a' = a_text a ++ text_of (item_lines it)
  end.

Lemma zlen_text l ls : zlen (text_of (l :: ls)) = zlen l + 1 + zlen (text_of ls).
Proof. rewrite text_of_cons, !length_app. cbn [length]. lia. Qed.

Lemma line_short l : line_ok l -> zlen l <= 1020.
Proof. by intros (_ & _ & _ & _ & ?). Qed.

(** A line of text is kept. *)
Lemma keep_line c a :
  acc c = Some a -> acc_ok a -> line_ok (buff c) -> zlen (a_text a) < 2 ^ 61 ->
  exists c' a', accumulate_line c = Done c' /\ src c' = src c /\ buff c' = buff c /\
    allow_buffering c' = allow_buffering c /\ acc c' = Some a' /\ acc_ok a' /\ a_text a' = a_text a ++ buff c ++ [10].
Proof.
  intros Ha Hok Hl Hs. destruct (accumulate_ok c a Hok (or_introl Ha) (line_short _ Hl) Hs) as (a' & -> & O & T).
  eexists _, a'. split; [done|]. done.
Qed.

Lemma kept_lines items :
  Forall kept items -> Forall item_ok items ->
  forall depth fuel c s' a name d w,
    (length (items_lines items) <= depth)%nat -> name_ok name -> line_ok (close_line name) -> (length (items_lines items) < fuel)%nat ->
    feeds (src c) (items_lines items ++ [close_line name]) s' -> acc c = Some a -> acc_ok a ->
    zlen (a_text a) + zlen (text_of (items_lines items ++ [close_line name])) < 2 ^ 61 ->
    exists c' a', body depth fuel c None name d w = Done (d, c', w) /\ src c' = s' /\
      allow_buffering c' = allow_buffering c /\ acc c' = Some a' /\ acc_ok a' /\
      a_text a' = a_text a ++ text_of (items_lines items ++ [close_line name]).
Proof.
  induction 1 as [|it items Hit _ IH]; intros Hok depth fuel c s' a name d w Hdepth Hname Hcl Hfuel Hf Ha Hao Hsz.
  - cbn [items_lines fmap list_fmap concat app] in *. destruct fuel as [|fuel]; [cbn in Hfuel; lia|].
    inversion Hf as [|? ? s1 ? ? Hnext Hrest]; subst. inversion Hrest; subst.
    destruct (next_buff c _ _ _ Hnext eq_refl) as (c1 & E1 & B1 & S1 & A1 & L1).
    destruct (close_line_spec name Hname) as (K1 & K2 & K3).
    assert (Hsz' : zlen (a_text a) < 2 ^ 61) by lia.
    destruct (keep_line c1 a) as (c2 & a' & E2 & S2 & B2 & L2 & A2 & O2 & T2); [by rewrite A1|done|by rewrite B1|done|].
    cbn [object_lines]. rewrite E1. cbn [and_then]. rewrite B1, K1, bool_decide_eq_true_2 by (rewrite A1, Ha; eauto).
    rewrite E2. cbn [and_then]. rewrite B2, B1, K2, K3. eexists _, a'. split; [done|].
    cbn [src acc allow_buffering with_buff]. split_and!; try done; try congruence.
    rewrite T2, B1, text_of_cons. done.
  - apply list.Forall_cons in Hok as [Hiok Hok]. rewrite items_lines_cons, <- app_assoc in Hf, Hsz |- *.
    destruct fuel as [|fuel]; [lia|]. rewrite items_lines_cons, length_app in Hfuel, Hdepth.
    rewrite text_of_app, length_app in Hsz. rewrite text_of_app.
    destruct it as [k v|n params sub].
    + cbn [item_lines app length] in *. inversion Hf as [|? ? s1 ? ? Hnext Hrest]; subst.
      destruct (next_buff c _ _ _ Hnext eq_refl) as (c1 & E1 & B1 & S1 & A1 & L1).
      cbn [item_ok] in Hiok. destruct Hiok as (K1 & K2 & K3). pose proof K3 as (_ & K4 & _).
      destruct (key_line_spec k v K1 K2 K4) as (Q1 & Q2 & _).
      destruct (keep_line c1 a) as (c2 & a2 & E2 & S2 & B2 & L2 & A2 & O2 & T2); [by rewrite A1|done|by rewrite B1|lia|].
      assert (Hlen : zlen (a_text a2) = zlen (a_text a) + zlen (text_of [key_line k v]))
        by (rewrite T2, B1, text_of_cons, !length_app; cbn; lia).
      destruct (IH Hok depth fuel c2 s' a2 name d w ltac:(lia) Hname Hcl) as (c' & a' & R1 & R2 & R3 & R4 & R5 & R6);
        [lia|by rewrite S2, S1|done|done|lia|].
      cbn [object_lines]. rewrite E1. cbn [and_then]. rewrite B1, Q2, Q1, A1, Ha, E2. cbn [and_then]. rewrite R1.
      exists c', a'. split_and!; try done; [congruence|]. rewrite R6, T2, B1, text_of_cons. by rewrite <- !app_assoc.
    + rewrite sub_lines in Hf. cbn [app] in Hf.
      inversion Hf as [|? ? s1 ? ? Hnext Hrest]; subst.
      apply feeds_app in Hrest as (s2 & F1 & F2).
      destruct (next_buff c _ _ _ Hnext eq_refl) as (c1 & E1 & B1 & S1 & A1 & L1).
      pose proof Hiok as Hiok'. apply sub_ok in Hiok' as (Hn & Ho & Hc' & Hsub).
      destruct (open_line_spec n params Hn) as (_ & Q1 & Q2 & _).
      destruct (Hit depth (with_allow c1 true) s2 a d w) as (c2 & a2 & P1 & P2 & P3 & P4 & P5 & P6);
        cbn [with_allow src acc buff allow_buffering]; try done; [lia|by rewrite S1|congruence|lia|].
      destruct (IH Hok depth fuel (with_allow c2 (allow_buffering c1)) s' a2 name d w ltac:(lia) Hname Hcl)
        as (c' & a' & R1 & R2 & R3 & R4 & R5 & R6); cbn [with_allow src acc buff allow_buffering]; try done; [rewrite sub_lines in Hfuel; cbn [length] in Hfuel; lia|by rewrite P2| |].
      { rewrite P6, length_app. lia. }
      cbn [object_lines]. rewrite E1. cbn [and_then]. rewrite B1, Q2, Q1.
      change (child_keys objs None) with (@None (list CFG_ParseValue)). rewrite P1. cbn [and_then]. rewrite R1.
      exists c', a'. split_and!; try done; [cbn in R3; congruence|]. rewrite R6, P6. by rewrite <- app_assoc.
Qed.

Lemma kept_item it : item_ok it -> kept it.
Proof.
  induction it as [k v|name params items IH] using item_rect'; [done|]. intros Hok.
  apply sub_ok in Hok as (Hn & Ho & Hc & Hsub).
  assert (Hk : Forall kept items) by (rewrite list.Forall_forall in *; auto).
  intros fuel c s' a d w Hfuel Hb Hf Ha Hao Hsz. rewrite sub_lines in Hfuel, Hsz |- *.
  destruct fuel as [|fuel]; [cbn in Hfuel; lia|]. cbn [length] in Hfuel. rewrite length_app in Hfuel. cbn [length] in Hfuel.
  rewrite zlen_text in Hsz. destruct (open_line_spec name params Hn) as (Q1 & _ & _ & Q4).
  destruct (keep_line c a) as (c1 & a1 & E1 & S1 & B1 & L1 & A1 & O1 & T1); [done|done|by rewrite Hb|lia|].
  assert (Hlen : zlen (a_text a1) = zlen (a_text a) + zlen (open_line name params) + 1)
    by (rewrite T1, Hb, !length_app; cbn [length]; lia).
  destruct (kept_lines items Hk Hsub fuel fuel (with_buff c1 (LT :: name)) s' a1 name Null w)
    as (c' & a' & R1 & R2 & R3 & R4 & R5 & R6); try done; [lia|lia|cbn; by rewrite S1|lia|].
  cbn [ParseObject]. rewrite Hb, Q1. cbn [negb]. rewrite Q4, Ha. cbn [find_child].
  rewrite bool_decide_eq_true_2 by eauto. cbn [orb]. rewrite E1.
  cbn [and_then call_type child_keys fmap option_fmap option_map mbind option_bind]. rewrite R1. cbn [and_then].
  exists c', a'. split_and!; try done; [cbn in R3; congruence|].
  rewrite R6, T1, Hb, text_of_cons. by rewrite <- !app_assoc.
Qed.

Abbreviation mean := (meaning objs lookup call).
Abbreviation means := (meanings objs lookup call).

Lemma go_meanings ks l d w :
  (fix go l d w := match l with [] => (d, w) | x :: l' => let '(d, w) := mean true ks x d w in go l' d w end) l d w
  = means ks l d w.
Proof. revert d w. induction l as [|x l IH]; intros d w; [done|]. cbn [meanings]. destruct (mean true ks x d w). apply IH. Qed.

Lemma object_meaning_ext b1 b2 par curr child name p d w :
  (forall ks d w, b1 ks d w = b2 ks d w) ->
  object_meaning objs call b1 par curr child name p d w = object_meaning objs call b2 par curr child name p d w.
Proof. intros H. unfold object_meaning. destruct (match child with Some _ => _ | None => _ end). by rewrite H. Qed.

Lemma sub_meaning allow par name params items d w :
  mean allow par (Sub name params items) d w =
  let p := default [] params in
  let curr := sub_value par name in
  let '(child, obj_buff) := find_child lookup curr p allow in
  match child, obj_buff with
  | None, Some v =>
      let w1 := call_type call par (type_key name) p d w in
      finish call curr (Buffered Null (Some (text_of (item_lines (Sub name params items)))) v) d w1
  | _, _ =>
      let '(d1, w1) := object_meaning objs call (fun ks => means ks items) par curr child name p d w in
      finish call curr (match obj_buff with Some v => Buffered d1 None v | None => d1 end) d w1
  end.
Proof.
  cbn [meaning]. cbv zeta. destruct (find_child _ _ _ _) as [child obj_buff].
  destruct child as [i|], obj_buff as [v|]; try done;
    by rewrite (object_meaning_ext _ (fun ks => means ks items)) by (intros ks d0 w0; apply go_meanings).
Qed.

(** An item is parsed to its meaning. *)
Definition parsed (it : item) : Prop :=
  match it with
  | Key _ _ => True
  | Sub name params items =>
      forall fuel c s' par d w,
        (length (item_lines it) <= fuel)%nat -> buff c = open_line name params ->
        feeds (src c) (items_lines items ++ [close_line name]) s' -> acc c = None ->
        zlen (text_of (item_lines it)) < 2 ^ 61 ->
        exists c', parse fuel c par d w =
            Done ((mean (allow_buffering c) par it d w).1, c', (mean (allow_buffering c) par it d w).2) /\
          src c' = s' /\ acc c' = None /\ allow_buffering c' = allow_buffering c
  end.

Lemma key_line_meaning c ks k v d w :
  buff c = key_line k v -> strchr 61 (key_line k v) = (k, v) ->
  processKeyValueLine call c ks d w = ((key_meaning call ks k v d w).1, with_buff c k, (key_meaning call ks k v d w).2).
Proof.
  intros Hb Hs. unfold processKeyValueLine, key_meaning. rewrite Hb, Hs.
  destruct (ks ≫= _) as [pv|]; [|done]. destruct (lookup_cb pv); [done|]. by destruct (call_cb _ _ _ _ _ _).
Qed.

Lemma parsed_lines items :
  Forall parsed items -> Forall item_ok items ->
  forall depth fuel c s' child name d w,
    (length (items_lines items) <= depth)%nat -> name_ok name -> (length (items_lines items) < fuel)%nat ->
    feeds (src c) (items_lines items ++ [close_line name]) s' -> acc c = None ->
    zlen (text_of (items_lines items)) < 2 ^ 61 ->
    exists c', body depth fuel c child name d w =
        Done ((means (child_keys objs child) items d w).1, c', (means (child_keys objs child) items d w).2) /\
      src c' = s' /\ acc c' = None /\ allow_buffering c' = allow_buffering c.
Proof.
  induction 1 as [|it items Hit _ IH]; intros Hok depth fuel c s' child name d w Hdepth Hname Hfuel Hf Ha Hsz.
  - cbn [items_lines fmap list_fmap concat app] in *. destruct fuel as [|fuel]; [cbn in Hfuel; lia|].
    inversion Hf as [|? ? s1 ? ? Hnext Hrest]; subst. inversion Hrest; subst.
    destruct (next_buff c _ _ _ Hnext eq_refl) as (c1 & E1 & B1 & S1 & A1 & L1).
    destruct (close_line_spec name Hname) as (K1 & K2 & K3).
    cbn [object_lines]. rewrite E1. cbn [and_then]. rewrite B1, K1, bool_decide_eq_false_2 by (rewrite A1, Ha; by intros [? ?]).
    cbn [and_then]. rewrite B1, K2, K3. eexists. split; [done|]. cbn [src acc allow_buffering with_buff].
    split_and!; congruence.
  - apply list.Forall_cons in Hok as [Hiok Hok]. rewrite items_lines_cons, <- app_assoc in Hf.
    destruct fuel as [|fuel]; [lia|]. rewrite items_lines_cons, length_app in Hfuel, Hdepth.
    rewrite items_lines_cons, text_of_app, length_app in Hsz.
    destruct it as [k v|n params sub].
    + cbn [item_lines app length] in *. inversion Hf as [|? ? s1 ? ? Hnext Hrest]; subst.
      destruct (next_buff c _ _ _ Hnext eq_refl) as (c1 & E1 & B1 & S1 & A1 & L1).
      cbn [item_ok] in Hiok. destruct Hiok as (K1 & K2 & K3). pose proof K3 as (_ & K4 & _).
      destruct (key_line_spec k v K1 K2 K4) as (Q1 & Q2 & Q3).
      cbn [object_lines]. rewrite E1. cbn [and_then]. rewrite B1, Q2, Q1, A1, Ha.
      rewrite (key_line_meaning c1 _ k v d w B1 Q3). cbn [meanings meaning].
      destruct (key_meaning call (child_keys objs child) k v d w) as [d1 w1]. cbn [fst snd].
      destruct (IH Hok depth fuel (with_buff c1 k) s' child name d1 w1 ltac:(lia) Hname) as (c' & R1 & R2 & R3 & R4);
        cbn [with_buff src acc]; [lia|by rewrite S1|congruence|lia|].
      exists c'. split_and!; try done. cbn in R4. congruence.
    + rewrite sub_lines in Hf. cbn [app] in Hf. inversion Hf as [|? ? s1 ? ? Hnext Hrest]; subst.
      apply feeds_app in Hrest as (s2 & F1 & F2).
      destruct (next_buff c _ _ _ Hnext eq_refl) as (c1 & E1 & B1 & S1 & A1 & L1).
      pose proof Hiok as Hiok'. apply sub_ok in Hiok' as (Hn & Ho & Hc' & Hsub).
      destruct (open_line_spec n params Hn) as (_ & Q1 & Q2 & _).
      destruct (Hit depth (with_allow c1 true) s2 (child_keys objs child) d w) as (c2 & P1 & P2 & P3 & P4);
        cbn [with_allow src acc buff allow_buffering]; try done; [lia|by rewrite S1|congruence|lia|].
      cbn [object_lines]. rewrite E1. cbn [and_then]. rewrite B1, Q2, Q1, P1. cbn [and_then meanings].
      cbn [allow_buffering with_allow]. destruct (mean true (child_keys objs child) (Sub n params sub) d w) as [d1 w1]. cbn [fst snd].
      destruct (IH Hok depth fuel (with_allow c2 (allow_buffering c1)) s' child name d1 w1 ltac:(lia) Hname)
        as (c' & R1 & R2 & R3 & R4); cbn [with_allow src acc]; try done;
        [rewrite sub_lines in Hfuel; cbn [length] in Hfuel; lia|by rewrite P2|lia|].
      exists c'. split_and!; try done. cbn in R4. congruence.
Qed.

Lemma parsed_item it : item_ok it -> parsed it.
Proof.
  induction it as [k v|name params items IH] using item_rect'; [done|]. intros Hok0. pose proof Hok0 as Hok.
  apply sub_ok in Hok as (Hn & Ho & Hc & Hsub).
  assert (Hp : Forall parsed items) by (rewrite list.Forall_forall in *; auto).
  assert (Hk : Forall kept items) by (rewrite list.Forall_forall in *; intros x Hx; by apply kept_item, Hsub).
  intros fuel c s' par d w Hfuel Hb Hf Ha Hsz. rewrite sub_meaning. rewrite sub_lines in Hfuel, Hsz.
  destruct fuel as [|fuel]; [cbn in Hfuel; lia|]. cbn [length] in Hfuel. rewrite length_app in Hfuel. cbn [length] in Hfuel.
  rewrite zlen_text, text_of_app, length_app in Hsz.
  destruct (open_line_spec name params Hn) as (Q1 & _ & _ & Q4).
  cbn [ParseObject]. rewrite Hb, Q1. cbn [negb]. rewrite Q4, Ha. cbv zeta.
  set (curr := sub_value par name). set (p := default [] params).
  assert (Hcurr : (find_child lookup curr p (allow_buffering c)).2 <> None -> curr <> None) by (by destruct curr).
  destruct (find_child lookup curr p (allow_buffering c)) as [child obj_buff] eqn:Ef. cbn [snd] in Hcurr.
  rewrite (bool_decide_eq_false_2 (is_Some None)) by (by intros [? ?]). cbn [orb].
  destruct (decide (child = None /\ is_Some obj_buff)) as [[-> [v ->]]|Hno].
  - (* kept as text *)
    rewrite bool_decide_eq_true_2, bool_decide_eq_true_2 by eauto. cbn [andb].
    destruct (accumulate_ok c (Acc [] 1024)) as (a1 & E1 & O1 & T1); [split; cbn; lia|by right|rewrite Hb; by apply line_short|cbn; lia|].
    rewrite E1. cbn [and_then child_keys fmap option_fmap option_map].
    cbn [a_text app] in T1. rewrite Hb in T1.
    destruct curr as [cv|] eqn:Ec; [|by destruct (Hcurr ltac:(done))].
    change (call_type call None TYPE_KEY p Null (call_type call par (type_key name) p d w))
      with (call_type call par (type_key name) p d w).
    destruct (kept_lines items Hk Hsub fuel fuel (with_buff (with_acc c (Some a1)) (LT :: name)) s' a1 name Null
      (call_type call par (type_key name) p d w)) as (c2 & a2 & R1 & R2 & R3 & R4 & R5 & R6); try done; try lia.
    { rewrite T1, text_of_app, !length_app. cbn [length]. lia. }
    rewrite R1. cbn [and_then]. rewrite R4. cbn [fmap option_fmap option_map].
    assert (Et : a_text a2 = text_of (item_lines (Sub name params items)))
      by (rewrite R6, T1, sub_lines, text_of_cons; by rewrite <- app_assoc).
    rewrite Et. unfold finish. exists (with_acc c2 None).
    destruct (v_cb cv) as [cb|]; [destruct (call_cb _ _ _ _ _ _)|]; (split; [done|]); cbn; split_and!; try done; cbn in R3; congruence.
  - (* parsed *)
    assert (Eb : bool_decide (child = None) && bool_decide (is_Some obj_buff) = false).
    { apply andb_false_iff. rewrite !bool_decide_eq_false. destruct child; [by left|]. right. intros H. by apply Hno. }
    rewrite Eb. cbn [and_then].
    assert (Em : forall (X Y : data * W), match child, obj_buff with None, Some v => X | _, _ => Y end = Y)
      by (intros X Y; destruct child, obj_buff; try done; exfalso; apply Hno; eauto).
    unfold object_meaning.
    destruct (match child with Some i => call_cb call (initCb (objs i)) name (Text (Some p)) Null w | None => (Null, w) end)
      as [data0 w1].
    set (w3 := call_type call (child_keys objs child) _ _ _ _).
    destruct (parsed_lines items Hp Hsub fuel fuel (with_buff c (LT :: name)) s' child name data0 w3)
      as (c2 & R1 & R2 & R3 & R4); try done; try lia.
    rewrite R1. cbn [and_then]. destruct (means (child_keys objs child) items data0 w3) as [data1 w4]. cbn [fst snd].
    destruct (match child with Some i => call_cb call (finiCb (objs i)) name (Text (Some p)) data1 w4 | None => (data1, w4) end)
      as [data2 w5].
    exists c2. split; [|by rewrite R4].
    destruct child as [i|], obj_buff as [v|]; try (exfalso; apply Hno; by eauto); unfold finish;
      (destruct curr as [cv|]; [|done]); (destruct (v_cb cv) as [cb|]; [|done]); by destruct (call_cb _ _ _ _ _ _).
Qed.


(** The items of the whole file. *)
Lemma top_spec items :
  Forall parsed items -> Forall item_ok items ->
  forall fuel c s' ks d w,
    (length (items_lines items) < fuel)%nat -> feeds (src c) (items_lines items) s' ->
    (forall c', src c' = s' -> NextLine c' = Done None) -> acc c = None -> allow_buffering c = true ->
    zlen (text_of (items_lines items)) < 2 ^ 61 ->
    top_lines objs lookup call fuel c ks d w = Done (means (Some ks) items d w).
Proof.
  induction 1 as [|it items Hit _ IH]; intros Hok fuel c s' ks d w Hfuel Hf Hend Ha Hal Hsz.
  - destruct fuel as [|fuel]; [cbn in Hfuel; lia|]. inversion Hf; subst. cbn [top_lines]. by rewrite Hend.
  - apply list.Forall_cons in Hok as [Hiok Hok]. rewrite items_lines_cons in Hf.
    destruct fuel as [|fuel]; [lia|]. rewrite items_lines_cons, length_app in Hfuel.
    rewrite items_lines_cons, text_of_app, length_app in Hsz.
    destruct it as [k v|n params sub].
    + cbn [item_lines app length] in *. inversion Hf as [|? ? s1 ? ? Hnext Hrest]; subst.
      destruct (next_buff c _ _ _ Hnext eq_refl) as (c1 & E1 & B1 & S1 & A1 & L1).
      cbn [item_ok] in Hiok. destruct Hiok as (K1 & K2 & K3). pose proof K3 as (_ & K4 & _).
      destruct (key_line_spec k v K1 K2 K4) as (Q1 & _ & Q3).
      cbn [top_lines]. rewrite E1. cbn [and_then]. rewrite B1, Q1.
      rewrite (key_line_meaning c1 _ k v d w B1 Q3). cbn [meanings meaning].
      destruct (key_meaning call (Some ks) k v d w) as [d1 w1]. cbn [fst snd].
      apply (IH Hok fuel (with_buff c1 k) s'); cbn; [lia|by rewrite S1|done|congruence|congruence|lia].
    + rewrite sub_lines in Hf, Hfuel. cbn [app] in Hf. inversion Hf as [|? ? s1 ? ? Hnext Hrest]; subst.
      apply feeds_app in Hrest as (s2 & F1 & F2).
      destruct (next_buff c _ _ _ Hnext eq_refl) as (c1 & E1 & B1 & S1 & A1 & L1).
      pose proof Hiok as Hiok'. apply sub_ok in Hiok' as (Hn & Ho & Hc' & Hsub).
      destruct (open_line_spec n params Hn) as (_ & Q1 & _ & _).
      destruct (Hit fuel c1 s2 (Some ks) d w) as (c2 & P1 & P2 & P3 & P4);
        try done; [rewrite sub_lines; cbn [length] in *; lia|by rewrite S1|congruence|lia|].
      cbn [top_lines]. rewrite E1. cbn [and_then]. rewrite B1, Q1, P1. cbn [and_then meanings].
      rewrite L1, Hal. destruct (mean true (Some ks) (Sub n params sub) d w) as [d1 w1]. cbn [fst snd].
      apply (IH Hok fuel c2 s'); try done; [cbn [length] in Hfuel; lia|by rewrite P2|congruence|lia].
Qed.

End Correct.

(** ** Lines in a file *)

(** A line of a document as it may stand in a file: after lines without
    content, indented, and with carriage returns before the newline. *)
Record laid := Laid { notes : list str; indent : str; line : str; crs : str }.

Definition note_ok (t : str) : Prop :=
  Forall (fun c => c <> 10 /\ c <> 0) t /\ comment (skip_blank (strip_end (t ++ [10]))) = true /\ zlen t <= 4094.

Definition laid_ok (l : laid) : Prop :=
  Forall note_ok (notes l) /\ Forall (fun c => isblank c = true) (indent l) /\ line_ok (line l) /\
  Forall (fun c => c = 13) (crs l) /\ zlen (indent l ++ line l ++ crs l) <= 4094.

Definition laid_text (l : laid) : str := text_of (notes l) ++ indent l ++ line l ++ crs l ++ [10].
Definition file_text (ls : list laid) (trailer : list str) : str := concat (laid_text <$> ls) ++ text_of trailer.

Lemma take_line_spec n l f :
  Forall (fun c => c <> 10 /\ c <> 0) l -> (length l < n)%nat -> take_line n (l ++ 10 :: f) = (l ++ [10], f).
Proof.
  intros H. revert n. induction H as [|c l [Hc _] _ IH]; intros n Hn; (destruct n as [|n]; [cbn in Hn; lia|]).
  - done.
  - cbn [app take_line]. apply Z.eqb_neq in Hc as ->. by rewrite IH by (cbn in Hn; lia).
Qed.

Lemma strip_end_eol a e : Forall (fun c => is_eol c = true) e -> strip_end (a ++ e) = strip_end a.
Proof.
  intros He. induction a as [|c a IH]; cbn [app strip_end].
  - induction He as [|c e Hc _ IH]; [done|]. cbn [strip_end]. by rewrite IH, Hc.
  - by rewrite IH.
Qed.

Lemma strip_end_id a : a <> [] -> ends_in 10 a = false -> ends_in 13 a = false -> strip_end a = a.
Proof.
  induction a as [|c a IH]; [done|]. intros _ H1 H2. cbn [strip_end]. destruct a as [|d a].
  - cbn in H1, H2 |- *. unfold is_eol. by rewrite H1, H2.
  - rewrite IH by done. done.
Qed.

Lemma ends_in_cons c x b : b <> [] -> ends_in c (x :: b) = ends_in c b.
Proof. by destruct b. Qed.

Lemma ends_in_app c a b : b <> [] -> ends_in c (a ++ b) = ends_in c b.
Proof. intros Hb. induction a as [|x a IH]; [done|]. cbn [app]. rewrite ends_in_cons; [done|]. by destruct a. Qed.

Lemma ends_in_none c b : Forall (fun x => x <> c /\ x <> 0) b -> ends_in c b = false.
Proof.
  induction 1 as [|x b [Hx _] _ IH]; [done|]. destruct b; [cbn; by apply Z.eqb_neq|]. exact IH.
Qed.

Lemma skip_blank_app i l : Forall (fun c => isblank c = true) i -> l <> [] -> isblank (hd 0 l) = false -> skip_blank (i ++ l) = l.
Proof.
  intros Hi Hl Hh. induction Hi as [|c i Hc _ IH]; [|cbn; by rewrite Hc]. destruct l as [|x l]; [done|]. cbn in *. by rewrite Hh.
Qed.

Lemma line_nonempty l : line_ok l -> l <> [].
Proof. by intros (_ & H & _) ->. Qed.

Lemma cstr_line l : Forall (fun c => c <> 10 /\ c <> 0) l -> cstr (l ++ [10]) = l ++ [10].
Proof.
  intros H. apply cstr_plain, list.Forall_app. split; [|by repeat constructor].
  eapply list.Forall_impl; [exact H|]. by intros c [_ ?].
Qed.

(** One chunk of the file. *)
Lemma file_line_step fuel l f n :
  Forall (fun c => c <> 10 /\ c <> 0) l -> zlen l <= 4094 ->
  file_line (S fuel) (l ++ 10 :: f) n false =
  let b := skip_blank (strip_end (l ++ [10])) in
  if comment b then file_line fuel f (n + 1) false else Some (b, f, n + 1).
Proof.
  intros Hl Hs. cbn [file_line]. destruct (l ++ 10 :: f) eqn:E; [by destruct l|]. rewrite <- E. clear E.
  rewrite take_line_spec by (done || (unfold BUFF_SIZE; lia)). rewrite (cstr_line l Hl).
  destruct (l ++ [10]) as [|x b] eqn:E; [by destruct l|]. rewrite <- E, ends_in_snoc. done.
Qed.

Lemma file_line_notes fuel ts f n :
  Forall note_ok ts -> (length (text_of ts ++ f) < fuel)%nat ->
  exists fuel', file_line fuel (text_of ts ++ f) n false = file_line fuel' f (n + zlen ts) false /\ (length f < fuel')%nat.
Proof.
  intros H. revert fuel n. induction H as [|t ts (T1 & T2 & T3) _ IH]; intros fuel n Hf.
  - exists fuel. cbn [length]. by rewrite Z.add_0_r.
  - rewrite text_of_cons in *. cbn [app] in *. rewrite <- app_assoc in *. cbn [app] in *. rewrite length_app in Hf. cbn [length] in Hf.
    destruct fuel as [|fuel]; [lia|]. rewrite file_line_step by done. cbv zeta. rewrite T2.
    destruct (IH fuel (n + 1)) as (fuel' & E & L); [lia|]. exists fuel'. split; [|done]. rewrite E. f_equal. cbn [length]. lia.
Qed.

Lemma laid_next l f n :
  laid_ok l -> exists n', next_src (Src (Some (laid_text l ++ f)) None false n) (line l) (Src (Some f) None false n').
Proof.
  intros (L1 & L2 & L3 & L4 & L5). pose proof L3 as (K1 & K2 & K3 & K4 & K5). pose proof (line_nonempty _ L3) as Hne.
  unfold laid_text. rewrite <- app_assoc. set (rest := _ ++ f).
  destruct (file_line_notes (S (length (text_of (notes l) ++ rest))) (notes l) rest n L1 ltac:(lia)) as (fuel' & E & Hl).
  exists (n + zlen (notes l) + 1). intros c Hc. unfold NextLine. rewrite Hc. cbn [replay stop file lineNum]. rewrite E.
  destruct fuel' as [|fuel']; [lia|]. set (ll := indent l ++ line l ++ crs l) in *.
  assert (Hrest : rest = ll ++ 10 :: f) by (unfold rest, ll; by rewrite <- !app_assoc).
  assert (Hll : Forall (fun c => c <> 10 /\ c <> 0) ll).
  { unfold ll. rewrite !list.Forall_app. split_and!; [|done|].
    - eapply list.Forall_impl; [exact L2|]. intros x Hx. unfold isblank in Hx. apply orb_true_iff in Hx as [Hx|Hx]; apply Z.eqb_eq in Hx; lia.
    - eapply list.Forall_impl; [exact L4|]. intros x ->. lia. }
  rewrite Hrest, file_line_step by done. cbv zeta.
  assert (Eb : skip_blank (strip_end (ll ++ [10])) = line l).
  { replace (ll ++ [10]) with ((indent l ++ line l) ++ (crs l ++ [10])) by (unfold ll; by rewrite <- !app_assoc).
    rewrite strip_end_eol.
    - rewrite strip_end_id; [by apply skip_blank_app|by destruct (indent l), (line l)| |].
      + rewrite ends_in_app by done. by apply ends_in_none.
      + by rewrite ends_in_app.
    - apply list.Forall_app. split; [eapply list.Forall_impl; [exact L4|]; by intros x ->|by repeat constructor]. }
  by rewrite Eb, K2.
Qed.

Lemma laid_feeds ls trailer n :
  Forall laid_ok ls ->
  exists n', feeds (Src (Some (file_text ls trailer)) None false n) (line <$> ls) (Src (Some (text_of trailer)) None false n').
Proof.
  intros H. revert n. induction H as [|l ls Hl _ IH]; intros n; [exists n; constructor|].
  unfold file_text. rewrite !fmap_cons. cbn [concat]. rewrite <- app_assoc.
  destruct (laid_next l (file_text ls trailer) n Hl) as [n1 H1]. destruct (IH n1) as [n' H2].
  exists n'. by econstructor.
Qed.

Lemma trailer_end c trailer n :
  Forall note_ok trailer -> src c = Src (Some (text_of trailer)) None false n -> NextLine c = Done None.
Proof.
  intros H Hc. unfold NextLine. rewrite Hc. cbn [replay stop file lineNum].
  destruct (file_line_notes (S (length (text_of trailer))) trailer [] n H) as (fuel' & E & Hl); [rewrite app_nil_r; lia|].
  rewrite app_nil_r in E. rewrite E. by destruct fuel'.
Qed.

(** ** Lines of a buffered object *)

Lemma replay_feeds ls n :
  Forall line_ok ls ->
  exists n', feeds (Src None (Some (text_of ls)) false n) ls (Src None (Some []) false n').
Proof.
  intros H. revert n. induction H as [|l ls Hl Hls IH]; intros n; [exists n; constructor|].
  destruct (IH (n + 1)) as [n' H2]. exists n'. econstructor; [|exact H2].
  intros c Hc. unfold NextLine. rewrite Hc. cbn [replay file stop lineNum].
  assert (Hz : Forall (fun c => c <> 0) (text_of (l :: ls))).
  { assert (Hl0 : forall x, line_ok x -> Forall (fun c => c <> 0) x)
      by (intros x (K & _); eapply list.Forall_impl; [exact K|]; by intros y [_ ?]).
    clear Hc H2 IH. assert (Hall : Forall line_ok (l :: ls)) by (by constructor).
    induction Hall as [|x xs Hx _ IHx]; [constructor|]. rewrite text_of_cons, !list.Forall_app.
    split_and!; [by apply Hl0|by repeat constructor|done]. }
  rewrite (cstr_plain _ Hz), text_of_cons. cbn [app]. destruct Hl as (K1 & _ & _ & _ & K5).
  rewrite strchr_app.
  - rewrite bool_decide_eq_true_2 by eauto. cbn [negb orb]. rewrite take_ge by (unfold BUFF_SIZE; lia). done.
  - intros Hin. rewrite list.Forall_forall in K1. by destruct (K1 10 Hin).
Qed.

Lemma item_lines_ok it : item_ok it -> Forall line_ok (item_lines it).
Proof.
  induction it as [k v|name params items IH] using item_rect'.
  - intros (_ & _ & H). constructor; [done|constructor].
  - intros H. apply sub_ok in H as (_ & H1 & H2 & H3). rewrite sub_lines. constructor; [done|].
    apply list.Forall_app. split; [|constructor; [done|constructor]]. clear H1 H2.
    induction IH as [|x l Hx _ IHl]; [constructor|]. apply list.Forall_cons in H3 as [H3 H4].
    rewrite items_lines_cons, list.Forall_app. auto.
Qed.

Lemma file_text_size ls trailer : (length (text_of (line <$> ls)) <= length (file_text ls trailer))%nat.
Proof.
  unfold file_text. rewrite length_app. induction ls as [|l ls IH]; [cbn; lia|]. rewrite !fmap_cons, text_of_cons.
  cbn [concat]. unfold laid_text at 1. rewrite !length_app. cbn [length]. lia.
Qed.

Lemma same_name_length a b : same_name a b = true -> length a = length b.
Proof.
  revert b. induction a as [|x a IH]; intros [|y b]; try done. cbn. intros H. apply andb_true_iff in H as [_ H].
  by rewrite (IH b H).
Qed.

Lemma items_parsed {W} objs lookup (call : Z -> str -> cb_arg -> data -> W -> data * W) items :
  Forall item_ok items -> Forall (parsed objs lookup call) items.
Proof. intros H. eapply list.Forall_impl; [exact H|]. intros x. apply parsed_item. Qed.

(** Parsing the text of a document makes the calls it means. *)
Lemma parse_document {W} objs lookup (call : Z -> str -> cb_arg -> data -> W -> data * W)
    ls trailer items r w fuel :
  Forall laid_ok ls -> Forall note_ok trailer -> line <$> ls = items_lines items -> Forall item_ok items ->
  zlen (file_text ls trailer) < 2 ^ 61 -> (length ls < fuel)%nat -> initCb (objs r) <> None ->
  CFG_parseFileAtPath objs lookup call fuel (Some r) (Some (file_text ls trailer)) w =
  Done (let '(d0, w0) := call_cb call (initCb (objs r)) [] (Text (Some [])) Null w in
        let '(d1, w1) := meanings objs lookup call (Some (keys (objs r))) items d0 w0 in
        call_cb call (finiCb (objs r)) [] (Text (Some [])) d1 w1).
Proof.
  intros Hls Htr El Hok Hsz Hfuel Hi. unfold CFG_parseFileAtPath.
  destruct (initCb (objs r)) as [ini|] eqn:Ei; [|done]. destruct (call_cb call (Some ini) [] _ Null w) as [d0 w0].
  destruct (laid_feeds ls trailer 0 Hls) as [n' Hf]. rewrite El in Hf.
  assert (Hlen : length (items_lines items) = length ls) by (by rewrite <- El, length_fmap).
  pose proof (file_text_size ls trailer) as Hts. rewrite El in Hts.
  rewrite (top_spec objs lookup call items (items_parsed _ _ _ _ Hok) Hok fuel _ (Src (Some (text_of trailer)) None false n'));
    cbn [src acc allow_buffering]; try done; [|lia| |lia].
  - cbn [and_then]. by destruct (meanings objs lookup call (Some (keys (objs r))) items d0 w0).
  - intros c' Hc'. by apply (trailer_end c' trailer n').
Qed.

(** C25. Reading a well-formed configuration file calls the callbacks that the
    document means: each key line the callback of its key, each object those
    of its table before, around and after its items, with the data handed from
    one to the next; objects to be buffered are handed over as text. Comments,
    empty lines, indentation and carriage returns make no difference.
    Well-formed: every line ends in a newline and has no zero byte and at most
    4094 bytes, of which at most 1020 are content, every object that is opened
    is closed, names of objects have no blanks ([laid_ok], [note_ok],
    [item_ok]), the file has less than 2^61 bytes and the root object a
    function that creates it. One unit of fuel per line, and one more, is
    enough, so such a file is read to its end. Outside of this the code
    misbehaves: [Limits.unclosed_forever], [Limits.last_line_lost],
    [Limits.accumulate_overrun]. *)
Theorem config_file_correct {W} objs lookup (call : Z -> str -> cb_arg -> data -> W -> data * W)
    ls trailer items r w fuel :
  Forall laid_ok ls -> Forall note_ok trailer -> line <$> ls = items_lines items -> Forall item_ok items ->
  zlen (file_text ls trailer) < 2 ^ 61 -> (length ls < fuel)%nat -> initCb (objs r) <> None ->
  CFG_parseFileAtPath objs lookup call fuel (Some r) (Some (file_text ls trailer)) w =
  Done (let '(d0, w0) := call_cb call (initCb (objs r)) [] (Text (Some [])) Null w in
        let '(d1, w1) := meanings objs lookup call (Some (keys (objs r))) items d0 w0 in
        call_cb call (finiCb (objs r)) [] (Text (Some [])) d1 w1).
Proof. apply parse_document. Qed.

(** A buffered object gives, when it is asked for, the data that its
    text means under the table that is known then, and the same data from then
    on; the text kept while the file was read is the object's own. *)
Theorem config_buffer_correct {W} objs lookup (call : Z -> str -> cb_arg -> data -> W -> data * W)
    name params items v l child w fuel :
  let it := Sub name params items in
  item_ok it -> zlen (text_of (item_lines it)) < 2 ^ 61 -> (length (item_lines it) <= fuel)%nat ->
  lookup_cb v = Some l -> same_name (v_name v) name = true -> zlen name < 248 ->
  lookup l (default [] params) false = (child, false) ->
  let '(d, w') := object_meaning objs call (fun ks => meanings objs lookup call ks items) None None child name
                    (default [] params) Null w in
  CFG_cfg_for_object_buffer objs lookup call fuel (Buffered Null (Some (text_of (item_lines it))) v) w
    = Done (d, Buffered d None v, w') /\
  (d <> Null -> forall fuel2 w2,
     CFG_cfg_for_object_buffer objs lookup call fuel2 (Buffered d None v) w2 = Done (d, Buffered d None v, w2)).
Proof.
  intros it Hok Hsz Hfuel Hl Hname Hnl Hlk. set (p := default [] params) in *.
  destruct (object_meaning _ _ _ _ _ _ _ _ _ _) as [d w'] eqn:Em. split; [|by destruct d].
  unfold CFG_cfg_for_object_buffer. set (rv := PValue (v_name v) (lookup_cb v) (Some PtrCpy)).
  destruct (replay_feeds (item_lines it) 0 (item_lines_ok it Hok)) as [n' Hf]. unfold it in Hf. rewrite sub_lines in Hf.
  inversion Hf as [|? ? s1 ? ? Hnext Hrest]; subst. unfold it at 1. rewrite sub_lines.
  destruct (next_buff (Ctx (Src None (Some (text_of (open_line name params :: items_lines items ++ [close_line name]))) false 0)
    None false []) _ _ _ Hnext eq_refl) as (c1 & E1 & B1 & S1 & A1 & L1).
  rewrite E1. cbn [and_then].
  destruct (parsed_item objs lookup call it Hok fuel c1 (Src None (Some []) false n') (Some [rv]) (Cell Null) w)
    as (c' & P1 & _); try done; [by rewrite S1|].
  rewrite P1. cbn [and_then]. cbn [allow_buffering] in L1. rewrite L1. unfold it. rewrite sub_meaning. cbv zeta. fold p.
  assert (Hsub : sub_value (Some [rv]) name = Some rv).
  { unfold sub_value. cbn [mbind option_bind find_value]. change (v_name rv) with (v_name v). rewrite Hname.
    cbn [mbind option_bind]. change (lookup_cb rv) with (lookup_cb v). by rewrite Hl. }
  assert (Hty : forall d w, call_type call (Some [rv]) (type_key name) p d w = w).
  { intros d0 w0. unfold call_type. cbn [mbind option_bind find_value]. change (v_name rv) with (v_name v).
    destruct (same_name (v_name v) (type_key name)) eqn:E; [|done]. exfalso.
    apply same_name_length in E, Hname. unfold type_key in E. rewrite length_take, length_app in E. cbn [length] in E. lia. }
  rewrite Hsub. cbn [find_child]. change (lookup_cb rv) with (lookup_cb v). rewrite Hl, Hlk.
  assert (Eo : object_meaning objs call (fun ks => meanings objs lookup call ks items) (Some [rv]) (Some rv) child name p (Cell Null) w
    = (d, w')).
  { rewrite <- Em. unfold object_meaning. destruct (match child with Some _ => _ | None => _ end) as [d0 w0].
    by rewrite Hty. }
  destruct child; rewrite Eo; done.
Qed.

(** ** Values *)

Definition array_ok (a : CFG_Array) (l : list data) : Prop :=
  len a = zlen l /\ capacity a = zlen (cells a) /\ take (length l) (cells a) = l /\ (length l <= length (cells a))%nat.

(** Appending keeps the elements in order. *)
Lemma array_append a l v :
  array_ok a l -> exists a', CFG_PtrArrayAppendCB a v true = Done (a', true) /\ array_ok a' (l ++ [v]).
Proof.
  intros (A1 & A2 & A3 & A4). unfold CFG_PtrArrayAppendCB.
  set (b := if len a =? capacity a then Arr (len a) (capacity a + 5) (take (Z.to_nat (len a)) (cells a) ++
    replicate (Z.to_nat (capacity a + 5 - len a)) Null) else a).
  assert (Hb : array_ok b l /\ (length l < length (cells b))%nat).
  { unfold b. destruct (Z.eqb_spec (len a) (capacity a)) as [E|E]; [|split; [done|lia]].
    assert (Hl : Z.to_nat (len a) = length l) by lia. unfold array_ok. cbn [len capacity cells]. rewrite Hl, A3.
    rewrite length_app, length_replicate, take_app_length. split_and!; try done; lia. }
  replace (if len a =? capacity a then _ else _) with (Done (b, true)) by (unfold b; by destruct (len a =? capacity a)).
  cbn [and_then negb]. destruct Hb as ((B1 & B2 & B3 & B4) & B5). rewrite (proj2 (Z.ltb_lt _ _)) by lia.
  eexists. split; [done|]. unfold array_ok. cbn [len capacity cells]. rewrite B1, Nat2Z.id, length_app, length_insert.
  cbn [length]. split_and!; [lia|done| |lia].
  rewrite Nat.add_1_r. rewrite (take_S_r _ _ v) by (apply list_lookup_insert_eq; lia).
  by rewrite take_insert_ge, B3 by lia.
Qed.

(** Numerals in the range of the field are read as the number. *)
Lemma numeral_strtol n : 0 < n < 10 ^ 18 -> strtol (numeral 18 n) 0 = (n, false).
Proof.
  intros Hn. destruct (numeral_digits 18 n ltac:(cbn; lia)) as [F V]. unfold strtol.
  assert (Hc : cstr (numeral 18 n) = numeral 18 n)
    by (apply cstr_plain; eapply list.Forall_impl; [exact F|]; intros c Hc; cbn beta in Hc; lia).
  rewrite Hc. pose proof (numeral_head 18 n ltac:(cbn; lia) ltac:(done)) as (c & r & E & H1).
  rewrite E in *. cbn [after_spaces].
  assert (Hs : isspace c = false) by (unfold isspace; apply orb_false_iff; split; [apply andb_false_iff; right; apply Z.leb_gt; lia|apply Z.eqb_neq; lia]).
  rewrite Hs. cbn [signed]. rewrite (proj2 (Z.eqb_neq c 45)), (proj2 (Z.eqb_neq c 43)) by lia.
  assert (Hp : prefixed 0 (c :: r) = (10, c :: r)).
  { unfold prefixed. destruct r as [|x [|h r]]; cbn [Z.eqb orb andb]; by rewrite (proj2 (Z.eqb_neq c 48)) by lia. }
  rewrite Hp, V. rewrite (proj2 (Z.ltb_ge _ _)), (proj2 (Z.ltb_ge _ _)) by lia. done.
Qed.

(** ** Concrete files *)

Module Demo.

Definition bytes (s : String.string) : str :=
  (fun a => Z.of_N (Ascii.N_of_ascii a)) <$> String.list_ascii_of_string s.

Section Tables.
Local Open Scope string_scope.

Definition later_value : CFG_ParseValue := PValue (bytes "later") (Some 2) (Some (UserCb 5)).
Definition later_item : item := Sub (bytes "later") None [Key (bytes "id") (Some (bytes "9"))].

(** Table 0 is the root: the number [rate], objects [unit] with table 1 and
    objects [later] that are buffered while files are read; table 2 is theirs.
    The world is the log of the calls. *)
Definition objs (i : Z) : CFG_ParseObj :=
  if i =? 0 then
    PObj (Some (UserCb 1)) (Some (UserCb 2))
      [PValue (bytes "rate") None (Some (UserCb 3)); PValue (bytes "unit") (Some 1) (Some (UserCb 4));
       later_value]
  else PObj (Some (UserCb 6)) None [PValue (bytes "id") None (Some (UserCb 7))].

Definition lookup (l : Z) (params : str) (allow : bool) : option Z * bool :=
  if l =? 1 then (Some 1, false) else if allow then (None, true) else (Some 2, false).

Definition call (z : Z) (key : str) (arg : cb_arg) (d : data) (w : list (Z * cb_arg)) : data * list (Z * cb_arg) :=
  (User z, w ++ [(z, arg)]).

Definition items : list item :=
  [Key (bytes "Rate") (Some (bytes "5"));
   Sub (bytes "unit") (Some (bytes "x")) [Key (bytes "id") (Some (bytes "7"))];
   later_item].

Definition laid_items : list laid :=
  [Laid [bytes "# a comment"; []] [] (bytes "Rate=5") [13]; Laid [] [] (bytes "<unit x>") [];
   Laid [] [32; 9] (bytes "id=7") []; Laid [] [] (bytes "</unit>") []; Laid [bytes "; note"] [] (bytes "<later>") [];
   Laid [] [] (bytes "id=9") []; Laid [] [] (bytes "</later>") []].

End Tables.
End Demo.

(** Decides the conditions on concrete lines. *)
Ltac concrete := repeat first
  [ apply list.Forall_cons_2 | apply list.Forall_nil_2 | apply conj | reflexivity | (cbn; lia) | (vm_compute; congruence)
  | (apply (bool_decide_unpack _); vm_compute; exact I) ].

Lemma config_file_correct_witness :
  CFG_parseFileAtPath Demo.objs Demo.lookup Demo.call 8 (Some 0) (Some (file_text Demo.laid_items [])) [] =
  Done (User 2, [(1, Text (Some [])); (3, Text (Some [53])); (6, Text (Some [120])); (7, Text (Some [55]));
                 (4, Object (User 7));
                 (5, Object (Buffered Null (Some (text_of (item_lines Demo.later_item))) Demo.later_value));
                 (2, Text (Some []))]).
Proof.
  rewrite (config_file_correct Demo.objs Demo.lookup Demo.call Demo.laid_items [] Demo.items 0 [] 8).
  - vm_compute. reflexivity.
  - concrete.
  - concrete.
  - reflexivity.
  - concrete.
  - vm_compute. reflexivity.
  - cbn. lia.
  - discriminate.
Defined.

Lemma config_buffer_correct_witness :
  CFG_cfg_for_object_buffer Demo.objs Demo.lookup Demo.call 3
    (Buffered Null (Some (text_of (item_lines Demo.later_item))) Demo.later_value) []
  = Done (User 7, Buffered (User 7) None Demo.later_value, [(6, Text (Some [])); (7, Text (Some [57]))]) /\
  (User 7 <> Null -> forall fuel2 w2,
     CFG_cfg_for_object_buffer Demo.objs Demo.lookup Demo.call fuel2 (Buffered (User 7) None Demo.later_value) w2
     = Done (User 7, Buffered (User 7) None Demo.later_value, w2)).
Proof.
  exact (config_buffer_correct Demo.objs Demo.lookup Demo.call (v_name Demo.later_value) None
    [Key [105; 100] (Some [57])] Demo.later_value 2 (Some 2) [] 3 ltac:(concrete) ltac:(vm_compute; reflexivity)
    ltac:(cbn; lia) eq_refl eq_refl ltac:(vm_compute; reflexivity) eq_refl).
Defined.

(** ** Where the reader departs from what it means to do *)

Module Limits.

Local Open Scope string_scope.
Import Demo.

Definition parse (f : str) : outcome (data * list (Z * cb_arg)) :=
  CFG_parseFileAtPath objs lookup call 20 (Some 0) (Some f) [].

(** A last line without a newline is taken for one that is too long. *)
Lemma last_line_lost : parse (bytes "rate=5") = parse [].
Proof. vm_compute. reflexivity. Qed.

(** Of a line of more than two buffers the rest is read as a line. *)
Lemma long_line_read :
  parse (replicate (2 * 4095) 35 ++ bytes "rate=5" ++ [10]) = parse (bytes "rate=5" ++ [10]).
Proof. vm_compute. reflexivity. Qed.

(** A line that is longer than the free part of the doubled block is written
    past it. *)
Lemma accumulate_overrun :
  parse (bytes "<later>" ++ [10] ++ replicate 3000 65 ++ [10] ++ bytes "</later>" ++ [10]) = Overrun.
Proof. vm_compute. reflexivity. Qed.

(** After the text of a buffered object the reader gives its last line again
    and again. *)
Lemma stuck p n c child name d w :
  replay (src c) = None -> stop (src c) = true -> buff c = [] -> acc c = None ->
  (child_keys objs child ≫= fun l => find_value l []) = None ->
  object_lines objs call p n c child name d w = NoEnd.
Proof.
  intros H1 H2 H3 H4 H5. revert d w. induction n as [|n IH]; intros d w; [done|]. cbn [object_lines]. unfold NextLine.
  rewrite H1, H2. cbn [and_then]. rewrite H3. cbn [is_close is_open]. rewrite H4. unfold processKeyValueLine.
  rewrite H3. cbn [strchr]. rewrite H5. replace (with_buff c []) with c by (destruct c; cbn in *; by subst). apply IH.
Qed.

(** An object without its end, buffered at the end of the file, is parsed for
    ever. *)
Lemma unclosed_forever fuel :
  CFG_cfg_for_object_buffer objs lookup call fuel
    (Buffered Null (Some (text_of [bytes "<later>"; bytes "id=9"])) later_value) [] = NoEnd.
Proof.
  destruct fuel as [|fuel]; [vm_compute; reflexivity|].
  assert (H : forall p, object_lines objs call p fuel
    (Ctx (Src None (Some (bytes "id=9" ++ [10])) false 1) None false (bytes "<later")) (Some 2) (bytes "later") (User 6)
    [(6, Text (Some []))] = NoEnd).
  { intros p. destruct fuel as [|[|fuel]]; [done| |].
    - vm_compute. reflexivity.
    - cbn [object_lines]. set (more := NextLine _). vm_compute in more. subst more. cbn [and_then].
      set (b := is_close _). vm_compute in b. subst b. cbn iota. set (b := is_open _). vm_compute in b. subst b. cbn iota. cbn [acc].
      set (r := processKeyValueLine _ _ _ _ _). vm_compute in r. subst r. cbn iota.
      set (more := NextLine _). vm_compute in more. subst more. cbn [and_then].
      apply stuck; vm_compute; reflexivity. }
  cbn [CFG_cfg_for_object_buffer later_value v_name lookup_cb]. set (more := NextLine _). vm_compute in more. subst more.
  cbn [and_then ParseObject]. specialize (H (ParseObject objs lookup call fuel)). revert H.
  generalize (object_lines objs call (ParseObject objs lookup call fuel) fuel) as f. intros f Hf. vm_compute in Hf |- *.
  by rewrite Hf.
Qed.

(** An object whose data is NULL and whose text is gone is read from the file,
    and there is none. *)
Lemma null_data_reads_file fuel :
  CFG_cfg_for_object_buffer objs lookup call fuel (Buffered Null None later_value) [] = Overrun.
Proof. reflexivity. Qed.

(** The capacity is raised before the block is, so an append after a failed one
    writes past the block. *)
Lemma append_after_failure a v v2 :
  len a = capacity a -> capacity a = zlen (cells a) ->
  exists a', CFG_PtrArrayAppendCB a v false = Done (a', false) /\ CFG_PtrArrayAppendCB a' v2 true = Overrun.
Proof.
  intros H1 H2. eexists. unfold CFG_PtrArrayAppendCB at 1. rewrite H1, Z.eqb_refl. cbn [and_then negb]. split; [done|].
  unfold CFG_PtrArrayAppendCB. cbn [len capacity cells]. rewrite (proj2 (Z.eqb_neq _ _)) by lia. cbn [and_then negb].
  cbn [len capacity cells]. by rewrite (proj2 (Z.ltb_ge _ _)) by lia.
Qed.

(** Numbers outside the field are cut off without an error. *)
Lemma number_truncated : CFG_uint16_CB (bytes "70000") = (4464, true) /\ CFG_uint32_CB (bytes "4294967297") = (1, true).
Proof. split; vm_compute; reflexivity. Qed.

(** A line [<x] without its end makes the data of the parent NULL. *)
Lemma malformed_loses_parent d w :
  ParseObject objs lookup call 1 (Ctx (Src (Some []) None false 0) None true (bytes "<unit")) (Some (keys (objs 0))) d w
  = Done (Null, Ctx (Src (Some []) None false 0) None true (bytes "<unit"), w).
Proof. reflexivity. Qed.

End Limits.
