(* ===== verification/CmdDispatch.v ===== *)
(** * Dispatch of commands (cmd.c)

    What a process does with a packet that arrives at its command socket: a
    response goes to the request it answers, a command in XDR to the handler
    registered for its number, a command of one byte to its entry in a table of
    256.  This file brings together the pieces the other files model: the
    codec of XdrStruct.v for the packets, the registry of CmdRegistry.v and the
    pending requests of CmdResponse.v.  The allocations of the decoders and of
    a command that is sent succeed. *)

From stdpp Require Import base gmap list numbers.
From Stdlib Require Import ZArith Lia.
From S2P Require Import Prelude Words CStr HashTable XdrCodec XdrStruct Timers CmdResponse CmdRegistry CmdTelemetry.
Open Scope Z_scope.

Definition EVENT_FD_READ : Z := 0.
Definition MAX_NUM_CMDS : Z := 256.
Definition CMD_STATUS_REQUEST : Z := 1.
Definition CMD_STATUS_RESPONSE : Z := 241.
Definition CMD_PROTECTED : Z := 1.
Definition IPC_RESULTCODE_UNSUPPORTED : Z := 33554690.

(** ** Packets *)

Record IPC_Command (Obj : Type) := ICmd { ic_cmd : Z; ic_ipcref : Z; ic_parameters : XDR_Union Obj }.
Arguments ICmd {_}.
Arguments ic_cmd {_}.
Arguments ic_ipcref {_}.
Arguments ic_parameters {_}.

Section Packets.
Context {Obj : Type}.
Variable XDR_definition_for_type : Z -> option (StructDefinition Obj).
(** The bytes of a block that malloc returns. *)
Variable block : Z -> list Z.

Definition command_cmd : FieldDefinition (IPC_Command Obj) :=
  FD Z XDR_decode_uint32 XDR_encode_uint32 0 0 0 ic_cmd (fun c v => ICmd v (ic_ipcref c) (ic_parameters c)) (fun _ => 0).
Definition command_ipcref : FieldDefinition (IPC_Command Obj) :=
  FD Z XDR_decode_uint32 XDR_encode_uint32 4 0 0 ic_ipcref (fun c v => ICmd (ic_cmd c) v (ic_parameters c)) (fun _ => 0).
Definition command_parameters : FieldDefinition (IPC_Command Obj) :=
  FD (XDR_Union Obj) (XDR_decode_union XDR_definition_for_type) (XDR_encode_union XDR_definition_for_type) 8 0 0
    ic_parameters (fun c v => ICmd (ic_cmd c) (ic_ipcref c) v) (fun _ => 0).
Definition IPC_Command_Fields : list (FieldDefinition (IPC_Command Obj)) :=
  [command_cmd; command_ipcref; command_parameters].

Definition IPC_Command_decode (src : list Z) (dst : IPC_Command Obj) (max : Z) : dres (IPC_Command Obj) :=
  XDR_struct_decoder (Some IPC_Command_Fields) src dst max.
Definition IPC_Command_encode (src : IPC_Command Obj) (max : Z) : eres :=
  XDR_struct_encoder (Some IPC_Command_Fields) (SObj src) (DBuf 0) max (block max).

Definition header_cmd : FieldDefinition IPC_ResponseHeader :=
  FD Z XDR_decode_uint32 XDR_encode_uint32 0 0 0 hdr_cmd (fun h v => RespHdr v (hdr_ipcref h) (hdr_result h)) (fun _ => 0).
Definition header_ipcref : FieldDefinition IPC_ResponseHeader :=
  FD Z XDR_decode_uint32 XDR_encode_uint32 4 0 0 hdr_ipcref (fun h v => RespHdr (hdr_cmd h) v (hdr_result h)) (fun _ => 0).
Definition header_result : FieldDefinition IPC_ResponseHeader :=
  FD Z XDR_decode_uint32 XDR_encode_uint32 8 0 0 hdr_result (fun h v => RespHdr (hdr_cmd h) (hdr_ipcref h) v) (fun _ => 0).
Definition IPC_ResponseHeader_Fields : list (FieldDefinition IPC_ResponseHeader) :=
  [header_cmd; header_ipcref; header_result].

Definition IPC_ResponseHeader_decode (src : list Z) (max : Z) : dres IPC_ResponseHeader :=
  XDR_struct_decoder (Some IPC_ResponseHeader_Fields) src (RespHdr 0 0 0) max.

(** [IPC_error]: the packet given to [PROC_cmd_raw_sockaddr], if any; [None]
    outside is a fault. *)
Definition IPC_error (cmd : IPC_Command Obj) (err_code : Z) : option (option (list Z)) :=
  let resp := Resp IPC_CMDS_RESPONSE (ic_ipcref cmd) err_code (XUnion IPC_TYPES_VOID SNull) in
  let buff_len := 128 in
  match XDR_struct_encoder (Some (IPC_Response_Fields XDR_definition_for_type)) (SObj resp) (DBuf 0) buff_len (block buff_len) with
  | EFault => None
  | ERet rc len buff => if rc <? 0 then Some None else Some (Some (take (Z.to_nat len) buff))
  end.

(** [IPC_success]. *)
Definition IPC_success (cmd : IPC_Command Obj) : option (option (list Z)) := IPC_error cmd IPC_RESULTCODE_SUCCESS.

(** The packet of a command, and what [IPC_command_internal] is told about it:
    the packet, or the size it needs.  The theorems are about commands for
    which the encoder does not fault. *)
Definition command_packet (num : Z) (params : XDR_Union Obj) (ref max : Z) : list Z + Z :=
  match IPC_Command_encode (ICmd num ref params) max with
  | EFault => inr 0
  | ERet rc len buf => if rc <? 0 then inr len else inl (take (Z.to_nat len) buf)
  end.

Definition header_of (data : list Z) : option IPC_ResponseHeader :=
  match IPC_ResponseHeader_decode data (zlen data) with DOk _ h => Some h | _ => None end.
End Packets.

(** ** The process *)

(** [cmd_cb]: one of the two functions of cmd.c, or the program's. *)
Inductive CMD_handler_t := invalidCommand | fakeStatusCommand | ProgramCommand (f : Z).

Record Command := Cmd { cmd_cb : option CMD_handler_t; uid : Z; group : Z; prot : Z }.

Record IPC_Heartbeat := Beats { commands : Z; responses : Z; heartbeats : Z }.

(** [struct CommandCbArg], the tables of cmd.c, and the process with its
    pending requests. *)
Record node (T W : Type) := Node { cmds : list Command; beats : IPC_Heartbeat; regs : tables; pr : proc T W }.
Arguments Node {_ _}.
Arguments cmds {_ _}.
Arguments beats {_ _}.
Arguments regs {_ _}.
Arguments pr {_ _}.

Section Dispatch.
Context {T W Obj R : Type} `{!TimerOps T}.
Variable XDR_definition_for_type : Z -> option (StructDefinition Obj).
Variable block : Z -> list Z.
Variable malloc : gset ptr -> option ptr.
Variable malloc_buff : Z -> bool.
Variable resp_decode : list Z -> option R.
Variable transmit : list Z -> sockaddr_in -> W -> W.
(** The program: callbacks of requests, handlers of commands in XDR and of one
    byte.  Each returns the commands it sends. *)
Abbreviation P := (Z * XDR_Union Obj)%type.
Variable user : Z -> bool -> Z -> option (list Z + R) -> W -> list (request P) * W.
Variable xdr_handler : Z -> IPC_Command Obj -> sockaddr_in -> Z -> W -> list (request P) * W.
Variable byte_handler : Z -> Z -> list Z -> sockaddr_in -> W -> list (request P) * W.
(** What is in the variables of [cmd_handler_cb] before they are set. *)
Variable junk_num : Z.
Variable junk_cmd : IPC_Command Obj.

Implicit Types n : node T W.

Definition encode (p : P) (ref max : Z) : list Z + Z := command_packet XDR_definition_for_type block p.1 p.2 ref max.

Definition with_pr n (v : proc T W) : node T W := Node (cmds n) (beats n) (regs n) v.
Definition with_beats n (v : IPC_Heartbeat) : node T W := Node (cmds n) v (regs n) (pr n).
Definition with_cmds n (v : list Command) : node T W := Node v (beats n) (regs n) (pr n).

Definition count_command n : node T W :=
  with_beats n (Beats (u64 (commands (beats n) + 1)) (responses (beats n)) (heartbeats (beats n))).
Definition count_response n : node T W :=
  with_beats n (Beats (commands (beats n)) (u64 (responses (beats n) + 1)) (heartbeats (beats n))).

(** The populator of heartbeats: the counters it reports. *)
Definition heartbeat_populator n : IPC_Heartbeat * node T W :=
  let b := Beats (commands (beats n)) (responses (beats n)) (u64 (heartbeats (beats n) + 1)) in (b, with_beats n b).

Definition send n (pkt : list Z) (dest : sockaddr_in) : node T W :=
  with_pr n (with_world (pr n) (transmit pkt dest (world (pr n)))).

(** [proc_cmd_sockaddr_internal] puts the command in front of the data. *)
Definition PROC_cmd_sockaddr n (cmd : Z) (data : list Z) (dest : sockaddr_in) : node T W := send n (cmd :: data) dest.

(** The program runs, and sends commands. *)
Definition program n (r : list (request P) * W) : option (node T W) :=
  with_pr n <$> send_all malloc malloc_buff encode transmit (with_world (pr n) r.2) r.1.

Definition run_command n (cb : option CMD_handler_t) (cmd : Z) (data : list Z) (src : sockaddr_in) : option (node T W) :=
  match cb with
  | None => None
  | Some invalidCommand => Some n
  | Some fakeStatusCommand => Some (PROC_cmd_sockaddr n CMD_STATUS_RESPONSE [0] src)
  | Some (ProgramCommand f) => program n (byte_handler f cmd data src (world (pr n)))
  end.

Definition run_xdr n (c : IPC_Command Obj) (src : sockaddr_in) : option (node T W) :=
  match CMD_xdr_cmd_by_number (regs n) (ic_cmd c) with
  | None => Some n
  | Some p =>
      match infos (regs n) !! p with
      | None => None
      | Some info =>
          match handler info with
          | Some h => program n (xdr_handler h c src (harg info) (world (pr n)))
          | None =>
              match IPC_error XDR_definition_for_type block c IPC_RESULTCODE_UNSUPPORTED with
              | None => None
              | Some None => Some n
              | Some (Some pkt) => Some (send n pkt src)
              end
          end
      end
  end.

(** [cmd_handler_cb] on what [socket_read] gives: the packet and its sender.  A
    read that fails is [None]: the code goes on with the buffer as it is, of
    which only the first byte is set. *)
Definition cmd_handler_cb n (type : Z) (read : option (list Z * sockaddr_in)) : option (node T W) :=
  if negb (type =? EVENT_FD_READ) then Some n
  else
    match read with
    | None => None
    | Some ([], _) => Some n
    | Some ((b :: rest) as data, src) =>
        if b =? 0 then
          match XDR_decode_uint32 data (Some junk_num) (zlen data) SNull with
          | DFault => None
          | r =>
              if match r with DOk _ v => v | _ => junk_num end =? IPC_CMDS_RESPONSE then
                let n1 := count_response n in
                with_pr n1 <$> cmd_handle_xdr_response malloc malloc_buff encode header_of resp_decode transmit user
                                 (pr n1) data src
              else
                match IPC_Command_decode XDR_definition_for_type data junk_cmd (zlen data) with
                | DFault => None
                | DErr _ => Some (count_command n)
                | DOk _ c => run_xdr (count_command n) c src
                end
          end
        else
          let n1 := count_command n in
          match cmds n1 !! Z.to_nat b with
          | None => None
          | Some cmd => if prot cmd =? CMD_PROTECTED then Some n1 else run_command n1 (cmd_cb cmd) b rest src
          end
    end.

Definition CMD_set_cmd_handler n (cmdNum : Z) (h : option CMD_handler_t) (uid group protection : Z) : Z * node T W :=
  if (cmdNum <? 0) || (MAX_NUM_CMDS <=? cmdNum) then (-1, n)
  else (0, with_cmds n (<[Z.to_nat cmdNum := Cmd h uid group protection]> (cmds n))).

Definition CMD_loopback_cmd n (cmdNum : Z) (data : list Z) : option (Z * node T W) :=
  if (cmdNum <? 0) || (MAX_NUM_CMDS <=? cmdNum) then Some (-1, n)
  else
    match cmds n !! Z.to_nat cmdNum with
    | None => None
    | Some cmd =>
        match cmd_cb cmd with
        | None => Some (-2, n)
        | Some h => pair 0 <$> run_command n (Some h) cmdNum data (SA 0 0)
        end
    end.
End Dispatch.

(** ** Decoders of structures stay inside their source *)

Section Safe.
Context {Obj : Type}.

Lemma struct_loop_safe {O : Type} (fields : list (FieldDefinition O)) src max used dst :
  Forall (fun f => SafeDecoder (f_decoder f) any_len) fields -> 0 <= used <= max -> max <= zlen src -> max < 2 ^ 32 ->
  dec_in max (struct_decode_loop fields src max used dst).
Proof.
  intros Hs Hu Hl Hm. revert used dst Hu. induction Hs as [|f fields Hf _ IH]; intros used dst Hu; [done|].
  cbn [struct_decode_loop]. rewrite u64_small by lia.
  pose proof (dec_safe (d := f_decoder f) (drop (Z.to_nat used) src) (f_get f dst) (max - used) (SObj (f_len f dst))) as Hd.
  rewrite length_drop in Hd. specialize (Hd I ltac:(lia) ltac:(lia)).
  destruct (f_decoder f _ _ _ _) as [|rc|len v]; [done|cbn; lia|]. cbn [dec_in] in Hd.
  rewrite u64_small by lia. apply IH. lia.
Qed.

(** The decoders of the registered structures are safe on what the allocator
    returns. *)
Definition definitions_safe (deft : Z -> option (StructDefinition Obj)) : Prop :=
  forall t def dec o src max, deft t = Some def -> sd_decoder def = Some dec -> sd_allocator def = Some o ->
    0 <= max <= zlen src -> max < 2 ^ 32 -> dec_in max (dec src o max).

Lemma union_safe deft : definitions_safe deft -> SafeDecoder (XDR_decode_union deft) any_len.
Proof.
  intros Hd. split. intros src old max len _ H Hm. unfold XDR_decode_union.
  pose proof (decode_uint32_in src 0 max SNull H) as H1. destruct (XDR_decode_uint32 src (Some 0) max SNull) as [|rc|used t];
    [done|cbn; lia|]. destruct H1 as (-> & Hmax & Ht).
  destruct (deft t) as [def|] eqn:E1; [|cbn; lia]. destruct (sd_decoder def) as [dec|] eqn:E2; [|cbn; lia].
  destruct (sd_allocator def) as [o|] eqn:E3; [|cbn; lia]. rewrite u64_small by lia.
  pose proof (Hd t def dec o (drop (Z.to_nat 4) src) (max - 4) E1 E2 E3) as H2. rewrite length_drop in H2.
  specialize (H2 ltac:(lia) ltac:(lia)). destruct (dec _ _ _) as [|rc|used2 v]; [done|cbn; lia|]. cbn [dec_in] in *.
  rewrite u64_small by lia. lia.
Qed.

Lemma command_safe deft data junk :
  definitions_safe deft -> zlen data < 2 ^ 32 ->
  dec_in (zlen data) (IPC_Command_decode deft data junk (zlen data)).
Proof.
  intros Hd Hl. unfold IPC_Command_decode, XDR_struct_decoder. apply struct_loop_safe; [|lia..].
  repeat apply list.Forall_cons_2; [exact uint32_safe..|by apply union_safe|apply list.Forall_nil_2].
Qed.

(** The decoder behind [header_of] does not fault. *)
Lemma header_safe data : zlen data < 2 ^ 32 -> dec_in (zlen data) (IPC_ResponseHeader_decode data (zlen data)).
Proof.
  intros Hl. unfold IPC_ResponseHeader_decode, XDR_struct_decoder. apply struct_loop_safe; [|lia..].
  repeat apply list.Forall_cons_2; [exact uint32_safe..|apply list.Forall_nil_2].
Qed.
End Safe.

(** ** Packets of numbers *)

Lemma be32_head v : 0 <= v < 2 ^ 24 -> exists r, be32 v = 0 :: r.
Proof.
  intros Hv. unfold be32. cbn [le_bytes reverse rev_append]. eexists. f_equal.
  rewrite !Z.div_div by lia. rewrite Z.div_small; [done|lia].
Qed.

(** Encoding one more field, behind the bytes [w] written so far. *)
Section Steps.
Context {O : Type}.

Lemma encode_step (f : FieldDefinition O) fs o max w v b0 :
  f_encoder f (SObj (f_get f o)) (DBuf (zlen w)) (max - zlen w) (SObj (f_len f o)) (splice b0 0 w)
    = ERet 0 (zlen v) (splice (splice b0 0 w) (zlen w) v) ->
  zlen w + zlen v <= max -> max <= zlen b0 -> max < 2 ^ 64 ->
  struct_encode_loop (f :: fs) (SObj o) (DBuf 0) max (zlen w) 0 (splice b0 0 w)
  = struct_encode_loop fs (SObj o) (DBuf 0) max (zlen (w ++ v)) 0 (splice b0 0 (w ++ v)).
Proof.
  intros E H1 H2 H3. cbn [struct_encode_loop field_ptr len_ptr]. change (dst_null (DBuf 0) || (0 <? 0)) with false.
  cbn [dadd]. cbv iota. rewrite u64_small by lia. change (0 + zlen w) with (zlen w). rewrite E, length_app, u64_small by lia.
  rewrite splice_splice by lia. f_equal. lia.
Qed.

Lemma encode_number off lo si get set len (fs : list (FieldDefinition O)) o max w b0 :
  zlen w + 4 <= max -> max <= zlen b0 -> max < 2 ^ 64 ->
  struct_encode_loop (FD Z XDR_decode_uint32 XDR_encode_uint32 off lo si get set len :: fs) (SObj o) (DBuf 0) max (zlen w) 0 (splice b0 0 w)
  = struct_encode_loop fs (SObj o) (DBuf 0) max (zlen (w ++ be32 (get o))) 0 (splice b0 0 (w ++ be32 (get o))).
Proof.
  intros H1 H2 H3. apply encode_step; rewrite ?be32_length; try lia. cbn [f_encoder f_get f_len].
  by rewrite encode_uint32_ok by (rewrite ?splice_length; lia).
Qed.

Lemma encode_start (fs : list (FieldDefinition O)) o max b0 :
  XDR_struct_encoder (Some fs) (SObj o) (DBuf 0) max b0 =
  struct_encode_loop fs (SObj o) (DBuf 0) max (zlen (@nil Z)) 0 (splice b0 0 []).
Proof. cbn [length]. by rewrite splice_nil by lia. Qed.

(** The union in [get o] with the structure encoded as [v] by its definition. *)
Lemma encode_union_field {Obj} deft off lo si dec (get : O -> XDR_Union Obj) set len o max w v b0 def enc :
  deft (u_type (get o)) = Some def -> sd_encoder def = Some enc ->
  (forall off max buf, 0 <= off -> off + max <= zlen buf -> zlen v <= max -> max < 2 ^ 64 ->
     enc (u_data (get o)) (DBuf off) max buf = ERet 0 (zlen v) (splice buf off v)) ->
  zlen w + 4 + zlen v <= max -> max <= zlen b0 -> max < 2 ^ 64 ->
  struct_encode_loop [FD (XDR_Union Obj) dec (XDR_encode_union deft) off lo si get set len] (SObj o) (DBuf 0) max (zlen w) 0 (splice b0 0 w)
  = ERet 0 (zlen (w ++ be32 (u_type (get o)) ++ v)) (splice b0 0 (w ++ be32 (u_type (get o)) ++ v)).
Proof.
  intros Hd He Hv H1 H2 H3. rewrite (encode_step _ [] o max w (be32 (u_type (get o)) ++ v)); [done| |rewrite length_app, be32_length; lia|lia..].
  cbn [f_encoder f_get f_len]. unfold XDR_encode_union.
  assert (Hs : zlen (splice b0 0 w) = zlen b0) by (rewrite splice_length; lia).
  rewrite encode_uint32_ok by lia. rewrite Hd. cbn [mbind option_bind]. rewrite He.
  change (negb (dst_null (DBuf (zlen w))) && (0 <=? 0)) with true. cbv iota zeta. cbn [dadd]. rewrite (u64_small (_ - 4)) by lia.
  rewrite Hv by (rewrite ?splice_length; rewrite ?be32_length; lia). change ((0 <? 0) || (0 <? 0)) with false. cbv iota.
  rewrite length_app, be32_length, u64_small by lia. f_equal; [lia|].
  change 4 with (Z.of_nat 4). rewrite <- (be32_length (u_type (get o))). apply splice_splice; rewrite ?be32_length; lia.
Qed.
End Steps.

Section PacketFacts.
Context {Obj : Type} (deft : Z -> option (StructDefinition Obj)).
Context (block : Z -> list Z) (Hblock : forall k, 0 <= k -> zlen (block k) = k).

(** The structure without fields that stands for nothing. *)
Definition void_registered : Prop :=
  exists def, deft IPC_TYPES_VOID = Some def /\ sd_encoder def = Some (XDR_struct_encoder (Some [])).

Lemma error_packet c code :
  void_registered ->
  IPC_error deft block c code = Some (Some (be32 256 ++ be32 (ic_ipcref c) ++ be32 code ++ be32 0)).
Proof.
  intros (def & Hd & He). unfold IPC_error. cbv zeta. pose proof (Hblock 128 ltac:(lia)) as Hb.
  unfold IPC_Response_Fields, response_cmd, response_ipcref, response_result, response_data.
  rewrite encode_start, !encode_number by (rewrite ?length_app, ?be32_length; cbn [length]; lia).
  rewrite (encode_union_field deft _ _ _ _ _ _ _ _ _ _ [] _ def (XDR_struct_encoder (Some []))); cbn [rs_data u_type u_data];
    [|done|done| |rewrite ?length_app, ?be32_length; cbn [length]; lia|lia|lia].
  - change (0 <? 0) with false. cbv iota. cbn [rs_cmd rs_ipcref rs_result app]. rewrite app_nil_r, <- !app_assoc.
    rewrite take_splice by (rewrite !length_app, !be32_length; lia). done.
  - intros off max buf H1 H2 H3 _. cbn [length] in H3. cbn [XDR_struct_encoder struct_encode_loop length]. rewrite splice_nil by lia. done.
Qed.

(** The bytes of a command. *)
Definition command_wire (num ref t : Z) (body : list Z) : list Z := be32 num ++ be32 ref ++ be32 t ++ body.

Lemma command_wire_length num ref t body : zlen (command_wire num ref t body) = 12 + zlen body.
Proof. unfold command_wire. rewrite !length_app, !be32_length. lia. Qed.

Lemma command_packet_ok num ref max t (o : Obj) def enc dec wire valid same :
  StructCodec 0 enc dec wire valid same -> deft t = Some def -> sd_encoder def = Some enc -> valid o ->
  12 + zlen (wire o) <= max -> max < 2 ^ 64 ->
  command_packet deft block num (XUnion t (SObj o)) ref max = inl (command_wire num ref t (wire o)).
Proof.
  intros HS Hd He Hv Hm H64. unfold command_packet, IPC_Command_encode, IPC_Command_Fields, command_cmd, command_ipcref, command_parameters.
  pose proof (Hblock max ltac:(lia)) as Hb.
  rewrite encode_start, !encode_number by (rewrite ?length_app, ?be32_length; cbn [length]; lia).
  rewrite (encode_union_field deft _ _ _ _ _ _ _ _ _ _ (wire o) _ def enc); cbn [ic_parameters u_type u_data];
    [|done|done| |rewrite ?length_app, ?be32_length; cbn [length]; lia|lia|lia].
  - change (0 <? 0) with false. cbv iota. cbn [ic_cmd ic_ipcref app]. rewrite <- !app_assoc.
    rewrite take_splice by (rewrite !length_app, !be32_length; lia). done.
  - intros off mx buf H1 H2 H3 H4. apply (struct_enc_ok 0 (enc := enc) (dec := dec)); try done; lia.
Qed.

Lemma decode_number {O} off lo si get set len (fs : list (FieldDefinition O)) dst max w v rest :
  0 <= v < 2 ^ 32 -> zlen w + 4 <= max -> max < 2 ^ 64 ->
  struct_decode_loop (FD Z XDR_decode_uint32 XDR_encode_uint32 off lo si get set len :: fs) (w ++ be32 v ++ rest) max (zlen w) dst
  = struct_decode_loop fs (w ++ be32 v ++ rest) max (zlen (w ++ be32 v)) (set dst v).
Proof.
  intros Hv H1 H2. cbn [struct_decode_loop f_decoder f_get f_len f_set]. rewrite drop_app_length' by lia.
  rewrite u64_small by lia. rewrite decode_uint32_ok, u32_small by lia. rewrite length_app, be32_length, u64_small by lia.
  f_equal. lia.
Qed.

Lemma command_decode_ok num ref t (o : Obj) junk def enc dec wire valid same fresh :
  StructCodec 0 enc dec wire valid same -> deft t = Some def -> sd_decoder def = Some dec -> sd_allocator def = Some fresh ->
  valid o -> 0 <= num < 2 ^ 32 -> 0 <= ref < 2 ^ 32 -> 0 <= t < 2 ^ 32 -> zlen (wire o) < 2 ^ 63 ->
  let pkt := command_wire num ref t (wire o) in
  exists o', same o o' /\
    IPC_Command_decode deft pkt junk (zlen pkt) = DOk (zlen pkt) (ICmd num ref (XUnion t (SObj o'))).
Proof.
  intros HS Hd Hdec Ha Hv Hn Hr Ht Hl pkt. pose proof (command_wire_length num ref t (wire o)) as Hp. fold pkt in Hp.
  destruct (struct_dec_ok 0 (enc := enc) (dec := dec) o fresh (zlen (wire o)) []) as (o' & E & Hs);
    [done|lia|lia|].
  exists o'. split; [done|]. unfold IPC_Command_decode, XDR_struct_decoder, IPC_Command_Fields, command_cmd, command_ipcref.
  change (struct_decode_loop ?f pkt ?m 0 junk) with (struct_decode_loop f ([] ++ be32 num ++ (be32 ref ++ be32 t ++ wire o)) m (zlen (@nil Z)) junk).
  rewrite decode_number by (cbn [length]; lia). cbn [app]. rewrite decode_number by (rewrite ?be32_length; lia).
  unfold command_parameters. cbn [struct_decode_loop f_decoder f_get f_len f_set].
  assert (H8 : zlen (be32 num ++ be32 ref) = 8) by (rewrite length_app, !be32_length; lia). rewrite H8.
  replace (drop (Z.to_nat 8) _) with (be32 t ++ wire o)
    by (rewrite (app_assoc (be32 num)), drop_app_length' by lia; done).
  rewrite (u64_small (zlen pkt - 8)) by lia. unfold XDR_decode_union. rewrite decode_uint32_ok by lia.
  rewrite u32_small, Hd, Hdec, Ha by lia. rewrite drop_app_length' by (by rewrite be32_length).
  rewrite app_nil_r in E. rewrite (u64_small (_ - 4)) by lia. replace (zlen pkt - 8 - 4) with (zlen (wire o)) by lia. rewrite E.
  rewrite (u64_small (4 + _)) by lia. rewrite u64_small by lia. f_equal. lia.
Qed.
End PacketFacts.

(** ** Dispatch *)

Section DispatchFacts.
Context {T W Obj R : Type} `{!TimerOps T, !Timers T}.
Context (deft : Z -> option (StructDefinition Obj)).
Context (block : Z -> list Z) (Hblock : forall k, 0 <= k -> zlen (block k) = k) (Hvoid : void_registered deft).
Context (malloc : gset ptr -> option ptr) `{!Malloc malloc} (malloc_buff : Z -> bool).
Context (resp_decode : list Z -> option R) (transmit : list Z -> sockaddr_in -> W -> W).
Context (user : Z -> bool -> Z -> option (list Z + R) -> W -> list (request (Z * XDR_Union Obj)) * W).
Context (xdr_handler : Z -> IPC_Command Obj -> sockaddr_in -> Z -> W -> list (request (Z * XDR_Union Obj)) * W).
Context (byte_handler : Z -> Z -> list Z -> sockaddr_in -> W -> list (request (Z * XDR_Union Obj)) * W).
Context (junk_num : Z) (junk_cmd : IPC_Command Obj).
Implicit Types n : node T W.

Abbreviation receive := (cmd_handler_cb deft block malloc malloc_buff resp_decode transmit user xdr_handler byte_handler junk_num junk_cmd).
Abbreviation encode := (encode deft block).
Abbreviation program := (program deft block malloc malloc_buff transmit).
Abbreviation safe_packet := (safe_packet malloc malloc_buff encode header_of resp_decode transmit user).

(** The table is full, the registry stands for a map to commands, and the
    requests are in order. *)
Definition node_ok n (l : list ptr) (m : gmap ptr CMDResponseCb) (r : gmap Z ptr) : Prop :=
  length (cmds n) = 256%nat /\ Forall (fun c => is_Some (cmd_cb c)) (cmds n) /\ reg_wf (regs n) r /\
  (forall k p, r !! k = Some p -> is_Some (infos (regs n) !! p)) /\ inv None Idle (pr n) l m.

(** What the program may change. *)
Definition same_tables n n' : Prop := cmds n' = cmds n /\ regs n' = regs n /\ beats n' = beats n.

Lemma node_ok_frame n n' l m l' m' r :
  node_ok n l m r -> same_tables n n' -> inv None Idle (pr n') l' m' -> node_ok n' l' m' r.
Proof. intros (H1 & H2 & H3 & H4 & _) (E1 & E2 & _) Hi. unfold node_ok. by rewrite E1, E2. Qed.

Lemma count_ok n l m r b : node_ok n l m r -> node_ok (with_beats n b) l m r.
Proof. done. Qed.

Lemma program_ok n l m r q :
  node_ok n l m r -> exists n' l' m', program n q = Some n' /\ node_ok n' l' m' r /\ same_tables n n'.
Proof.
  intros H. pose proof H as (_ & _ & _ & _ & Hi). destruct q as [qs w]. unfold CmdDispatch.program. cbn [fst snd].
  destruct (send_all_inv malloc malloc_buff encode transmit user None Idle qs (with_world (pr n) w) l m) as (s' & l' & m' & E & Hi' & _).
  { by apply (inv_frame None Idle (pr n)). }
  rewrite E. exists (with_pr n s'), l', m'. split; [done|]. split; [|done]. by apply (node_ok_frame n _ l m).
Qed.

Lemma send_ok n l m r pkt dest :
  node_ok n l m r -> node_ok (send transmit n pkt dest) l m r /\ same_tables n (send transmit n pkt dest).
Proof.
  intros H. split; [|done]. pose proof H as (_ & _ & _ & _ & Hi). eapply node_ok_frame; [exact H|done|].
  by apply (inv_frame None Idle (pr n)).
Qed.

Lemma run_xdr_ok n l m r c src :
  node_ok n l m r ->
  exists n' l' m', run_xdr deft block malloc malloc_buff transmit xdr_handler n c src = Some n' /\
    node_ok n' l' m' r /\ same_tables n n'.
Proof.
  intros H. pose proof H as (_ & _ & Hr & Hi & _). unfold run_xdr, CMD_xdr_cmd_by_number. rewrite (stands_find _ _ _ _ Hr).
  destruct (r !! ic_cmd c) as [p|] eqn:E; [|by exists n, l, m]. destruct (Hi _ _ E) as [info ->].
  destruct (handler info) as [h|]; [by apply (program_ok n l m)|]. rewrite error_packet by done.
  destruct (send_ok n l m r (be32 256 ++ be32 (ic_ipcref c) ++ be32 IPC_RESULTCODE_UNSUPPORTED ++ be32 0) src H) as [S1 S2].
  by eexists _, l, m.
Qed.

Lemma run_command_ok n l m r cb b data src :
  node_ok n l m r -> is_Some cb ->
  exists n' l' m', run_command deft block malloc malloc_buff transmit byte_handler n cb b data src = Some n' /\
    node_ok n' l' m' r /\ same_tables n n'.
Proof.
  intros H [[| |f] ->]; cbn [run_command].
  - by exists n, l, m.
  - destruct (send_ok n l m r [CMD_STATUS_RESPONSE; 0] src H) as [S1 S2]. by eexists _, l, m.
  - by apply (program_ok n l m).
Qed.

(** C21. Any packet of 1 to 65535 bytes that is read from the command socket
    is handled without going through a bad pointer: it is counted once, as a
    command or as a response, the tables stay as they are and the pending
    requests stay in order. Conditions: the process is in order, allocations
    succeed, the decoders registered for parameters do not fault
    ([definitions_safe], shown for the decoders of xdr.c), and if the packet
    answers a request its timeout can be removed from the queue
    ([safe_packet]: with tied timeouts the freed event stays queued,
    [response_tie_lost]). A read that fails is not a packet: the code then
    decodes the buffer with a length of SIZE_MAX. *)
Theorem dispatch_safe n l m r data src :
  node_ok n l m r -> definitions_safe deft -> Forall is_byte data -> 1 <= zlen data <= 65535 -> safe_packet (pr n) data src ->
  exists n' l' m', receive n EVENT_FD_READ (Some (data, src)) = Some n' /\ node_ok n' l' m' r /\
    cmds n' = cmds n /\ regs n' = regs n /\
    (beats n' = beats (count_command n) \/ beats n' = beats (count_response n)).
Proof.
  intros H Hd Hb Hl Hs. unfold cmd_handler_cb. cbn [negb EVENT_FD_READ Z.eqb].
  destruct data as [|b rest]; [cbn in Hl; lia|]. set (data := b :: rest) in *.
  destruct (Z.eqb_spec b 0) as [_|Hb0].
  - assert (Hbranch : forall num : Z, exists n' l' m',
      (if num =? IPC_CMDS_RESPONSE then
         with_pr (count_response n) <$> cmd_handle_xdr_response malloc malloc_buff encode header_of resp_decode transmit user (pr n) data src
       else match IPC_Command_decode deft data junk_cmd (zlen data) with
            | DFault => None
            | DErr _ => Some (count_command n)
            | DOk _ c => run_xdr deft block malloc malloc_buff transmit xdr_handler (count_command n) c src
            end) = Some n' /\ node_ok n' l' m' r /\ cmds n' = cmds n /\ regs n' = regs n /\
      (beats n' = beats (count_command n) \/ beats n' = beats (count_response n))).
    { intros num. destruct (num =? IPC_CMDS_RESPONSE).
      - pose proof H as (_ & _ & _ & _ & Hi).
        destruct (handle_inv malloc malloc_buff encode header_of resp_decode transmit user (pr n) l m data src Hi Hs)
          as (s' & l' & m' & E & Hi' & _).
        rewrite E. exists (with_pr (count_response n) s'), l', m'. split_and!; try done; [|by right].
        by apply (node_ok_frame (count_response n) _ l m).
      - pose proof (command_safe deft data junk_cmd Hd ltac:(lia)) as Hc. destruct (IPC_Command_decode _ _ _ _) as [|rc|used c]; [done| |].
        + exists (count_command n), l, m. split_and!; try done. by left.
        + destruct (run_xdr_ok (count_command n) l m r c src H) as (n' & l' & m' & E & O & T1 & T2 & T3).
          exists n', l', m'. split_and!; try done. left. by rewrite T3. }
    pose proof (decode_uint32_in data junk_num (zlen data) SNull ltac:(lia)) as Hnum.
    destruct (XDR_decode_uint32 _ _ _ _) as [|rc|used v]; [done|apply (Hbranch junk_num)|apply (Hbranch v)].
  - assert (Hbyte : is_byte b) by (by apply list.Forall_cons in Hb as [? _]). unfold is_byte in Hbyte.
    pose proof H as (H1 & H2 & _). destruct (lookup_lt_is_Some_2 (cmds n) (Z.to_nat b)) as [cmd Ec]; [lia|].
    change (cmds (count_command n)) with (cmds n). rewrite Ec. destruct (prot cmd =? CMD_PROTECTED).
    + exists (count_command n), l, m. split_and!; try done. by left.
    + assert (Hcb : is_Some (cmd_cb cmd)) by (by eapply Forall_lookup_1 in H2).
      destruct (run_command_ok (count_command n) l m r (cmd_cb cmd) b rest src H Hcb) as (n' & l' & m' & E & O & T1 & T2 & T3).
      exists n', l', m'. split_and!; try done. left. by rewrite T3.
Qed.

(** What a well-formed command packet does. *)
Lemma receive_command n num ref t (o : Obj) src def enc dec wire valid same fresh r :
  StructCodec 0 enc dec wire valid same -> deft t = Some def -> sd_decoder def = Some dec -> sd_allocator def = Some fresh ->
  valid o -> 0 <= num < 2 ^ 24 -> num <> IPC_CMDS_RESPONSE -> 0 <= ref < 2 ^ 32 -> 0 <= t < 2 ^ 32 -> zlen (wire o) < 2 ^ 63 ->
  reg_wf (regs n) r ->
  exists o', same o o' /\
    receive n EVENT_FD_READ (Some (command_wire num ref t (wire o), src)) =
    let c := ICmd num ref (XUnion t (SObj o')) in
    match r !! num with
    | None => Some (count_command n)
    | Some p =>
        info ← infos (regs n) !! p;
        match handler info with
        | Some h => program (count_command n) (xdr_handler h c src (harg info) (world (pr n)))
        | None => Some (send transmit (count_command n) (be32 256 ++ be32 ref ++ be32 IPC_RESULTCODE_UNSUPPORTED ++ be32 0) src)
        end
    end.
Proof.
  intros HS Hd Hdec Ha Hv Hn Hne Hr Ht Hl Hreg.
  destruct (command_decode_ok deft num ref t o junk_cmd def enc dec wire valid same fresh) as (o' & Hs & E); try done; [lia|].
  exists o'. split; [done|]. destruct (be32_head num Hn) as [hd Hhd]. unfold cmd_handler_cb. cbn [negb EVENT_FD_READ Z.eqb].
  set (pkt := command_wire num ref t (wire o)) in *.
  pose proof (command_wire_length num ref t (wire o)) as Hpl. fold pkt in Hpl.
  assert (Hp : pkt = 0 :: hd ++ be32 ref ++ be32 t ++ wire o) by (unfold pkt, command_wire; by rewrite Hhd).
  destruct pkt as [|b rest] eqn:Epkt; [done|]. injection Hp as -> Hrest. cbn [Z.eqb]. rewrite <- Epkt in *.
  replace (XDR_decode_uint32 pkt (Some junk_num) (zlen pkt) SNull) with (DOk (A := Z) 4 num).
  2:{ unfold pkt at 1, command_wire. rewrite decode_uint32_ok by lia. by rewrite u32_small by lia. }
  rewrite (proj2 (Z.eqb_neq _ _) Hne), E. unfold run_xdr, CMD_xdr_cmd_by_number. cbn [ic_cmd]. change (regs (count_command n)) with (regs n).
  rewrite (stands_find _ _ _ _ Hreg). destruct (r !! num) as [p|]; [|done].
  destruct (infos (regs n) !! p) as [info|]; [|done]. cbn [mbind option_bind]. destruct (handler info); [done|].
  by rewrite error_packet.
Qed.

(** C19. The packet that [IPC_command] makes of a command with parameters is
    dispatched by the receiver to the handler registered for its number, once,
    with the number, the reference and equal parameters; the receiver answers
    a registered command without a handler with an error, and counts and drops
    one that it does not know. Conditions: the number is below 2^24 (larger
    ones are taken for one-byte commands, [large_command_misrouted]) and is
    not that of responses; the parameters fit the packet, and their structure
    encodes and decodes without room to spare ([StructCodec 0]), which
    excludes one that ends in a byte array (XDR_decode_byte_array refuses the
    last bytes of a packet, so that such a command is sent and dropped); the
    allocations of encoder and decoder succeed, and the empty structure of
    type 0 is registered, as the library does. *)
Theorem command_dispatched n num ref t (o : Obj) max src def enc dec wire valid same fresh r :
  StructCodec 0 enc dec wire valid same -> deft t = Some def ->
  sd_encoder def = Some enc -> sd_decoder def = Some dec -> sd_allocator def = Some fresh ->
  valid o -> 0 <= num < 2 ^ 24 -> num <> IPC_CMDS_RESPONSE -> 0 <= ref < 2 ^ 32 -> 0 <= t < 2 ^ 32 ->
  12 + zlen (wire o) <= max -> max < 2 ^ 63 -> reg_wf (regs n) r ->
  exists pkt o', encode (num, XUnion t (SObj o)) ref max = inl pkt /\ same o o' /\
    receive n EVENT_FD_READ (Some (pkt, src)) =
    let c := ICmd num ref (XUnion t (SObj o')) in
    match r !! num with
    | None => Some (count_command n)
    | Some p =>
        info ← infos (regs n) !! p;
        match handler info with
        | Some h => program (count_command n) (xdr_handler h c src (harg info) (world (pr n)))
        | None => Some (send transmit (count_command n) (be32 256 ++ be32 ref ++ be32 IPC_RESULTCODE_UNSUPPORTED ++ be32 0) src)
        end
    end.
Proof.
  intros HS Hd He Hdec Ha Hv Hn Hne Hr Ht Hm Hm2 Hreg.
  destruct (receive_command n num ref t o src def enc dec wire valid same fresh r) as (o' & Hs & E); try done; [lia|].
  exists (command_wire num ref t (wire o)), o'. split; [|done].
  by apply (command_packet_ok deft block Hblock num ref max t o def enc dec wire valid same); try lia.
Qed.

Lemma header_of_error ref code :
  0 <= ref < 2 ^ 32 -> 0 <= code < 2 ^ 32 ->
  header_of (be32 256 ++ be32 ref ++ be32 code ++ be32 0) = Some (RespHdr 256 ref code).
Proof.
  intros Hr Hc. unfold header_of, IPC_ResponseHeader_decode, XDR_struct_decoder, IPC_ResponseHeader_Fields, header_cmd, header_ipcref, header_result.
  set (pkt := be32 256 ++ _). assert (Hl : zlen pkt = 16) by (unfold pkt; rewrite !length_app, !be32_length; done). rewrite Hl.
  change (struct_decode_loop ?f pkt ?m 0 ?j) with (struct_decode_loop f ([] ++ be32 256 ++ (be32 ref ++ be32 code ++ be32 0)) m (zlen (@nil Z)) j).
  rewrite decode_number by (cbn [length]; lia). cbn [app]. rewrite decode_number by (rewrite ?be32_length; lia).
  rewrite (app_assoc (be32 256)). rewrite decode_number by (rewrite ?length_app, ?be32_length; lia). done.
Qed.

(** A response goes to the pending requests. *)
Lemma receive_error n ref code src :
  receive n EVENT_FD_READ (Some (be32 256 ++ be32 ref ++ be32 code ++ be32 0, src)) =
  with_pr (count_response n) <$>
    cmd_handle_xdr_response malloc malloc_buff encode header_of resp_decode transmit user (pr n)
      (be32 256 ++ be32 ref ++ be32 code ++ be32 0) src.
Proof.
  set (pkt := be32 256 ++ _). unfold cmd_handler_cb. cbn [negb EVENT_FD_READ Z.eqb].
  assert (Hl : zlen pkt = 16) by (unfold pkt; rewrite !length_app, !be32_length; done).
  assert (Hp : pkt = 0 :: [0; 1; 0] ++ be32 ref ++ be32 code ++ be32 0) by done.
  assert (Hd : XDR_decode_uint32 pkt (Some junk_num) (zlen pkt) SNull = DOk 4 256)
    by (unfold pkt at 1; by rewrite decode_uint32_ok by lia).
  rewrite Hp in *. cbn [Z.eqb]. rewrite Hd. done.
Qed.

(** A request that is sent is the first pending one. *)
Lemma request_sent s num t o dest f arg to l ref pkt :
  resp s = Some l -> ref = next_cmd_ref s -> encode (num, XUnion t (SObj o)) ref 1024 = inl pkt ->
  exists s1 x nd, IPC_command_internal malloc malloc_buff encode transmit s
      (Req (num, XUnion t (SObj o)) dest (Some f) arg IPC_CB_TYPE_RAW to) = Some (0, s1) /\
    world s1 = transmit pkt dest (world s) /\ resp s1 = Some (x :: l) /\ nodes s1 !! x = Some nd /\
    rid nd = ref /\ rhost nd = dest /\ rcb nd = Some f /\ rarg nd = arg /\ rcb_type nd = IPC_CB_TYPE_RAW /\
    trace s1 = trace s ++ [Sent x nd].
Proof.
  intros Hl -> He. unfold IPC_command_internal. cbn [q_params]. rewrite He. unfold send_encoded. cbn [q_cb q_dest q_arg q_type q_timeout].
  unfold CMD_add_response_cb. cbn [resp with_world with_ref nodes timers]. rewrite Hl.
  destruct (malloc_some (malloc := malloc) (dom (nodes s))) as (x & -> & Hx).
  set (n0 := RCB _ _ _ _ _ _). destruct (if to =? 0 then _ else _) as [ev tm].
  eexists _, x, (with_to_evt n0 ev). split; [done|]. cbn [world with_timers with_nodes with_resp log resp nodes trace with_ref with_world].
  rewrite lookup_insert_eq. done.
Qed.

(** C20. A command that the receiver registers but does not handle is answered
    from end to end: the receiver of the packet sends an error back, and when
    it arrives the raw callback of the request is called, once and not for a
    timeout, with a response that carries the reference of the request and
    says that the command is not supported; the request is no longer pending.
    Conditions: the number is below 2^24 and not that of responses; the
    structure of the parameters encodes and decodes without room to spare
    ([StructCodec 0], so it does not end in a byte array, which the receiver
    would refuse), and the packet has at most 1024 bytes; both processes are
    in order, the empty structure of type 0 is registered and allocations
    succeed; the request asked for raw responses; and its timeout, if it has
    one, can be removed from the queue when the reply arrives ([safe_packet],
    see [response_tie_lost]). *)
Theorem unsupported_answered nA nB l m rA lB mB r a b num t (o : Obj) f arg to def enc dec wire valid same fresh p info :
  node_ok nA l m rA -> node_ok nB lB mB r -> r !! num = Some p -> infos (regs nB) !! p = Some info -> handler info = None ->
  StructCodec 0 enc dec wire valid same -> deft t = Some def ->
  sd_encoder def = Some enc -> sd_decoder def = Some dec -> sd_allocator def = Some fresh ->
  valid o -> 0 <= num < 2 ^ 24 -> num <> IPC_CMDS_RESPONSE -> 0 <= next_cmd_ref (pr nA) < 2 ^ 32 -> 0 <= t < 2 ^ 32 ->
  12 + zlen (wire o) <= 1024 ->
  exists s1 pkt nB' reply x nd,
    IPC_command_internal malloc malloc_buff encode transmit (pr nA)
      (Req (num, XUnion t (SObj o)) b (Some f) arg IPC_CB_TYPE_RAW to) = Some (0, s1) /\
    world s1 = transmit pkt b (world (pr nA)) /\
    receive nB EVENT_FD_READ (Some (pkt, a)) = Some nB' /\ world (pr nB') = transmit reply a (world (pr nB)) /\
    header_of reply = Some (RespHdr IPC_CMDS_RESPONSE (next_cmd_ref (pr nA)) IPC_RESULTCODE_UNSUPPORTED) /\
    trace s1 = trace (pr nA) ++ [Sent x nd] /\
    (safe_packet s1 reply b ->
     exists nA' es, receive (with_pr nA s1) EVENT_FD_READ (Some (reply, b)) = Some nA' /\
       trace (pr nA') = trace s1 ++ Called x f arg false :: es /\ Forall (fun e => exists y ny, e = Sent y ny) es /\
       nodes (pr nA') !! x = None).
Proof.
  intros HA HB Hr Hi Hh HS Hd He Hdec Ha Hv Hn Hne Href Ht Hm. set (ref := next_cmd_ref (pr nA)) in *.
  destruct (receive_command nB num ref t o a def enc dec wire valid same fresh r) as (o' & _ & EB); try done; [lia|apply HB|].
  pose proof (command_packet_ok deft block Hblock num ref 1024 t o def enc dec wire valid same HS Hd He Hv Hm ltac:(lia)) as Ep.
  pose proof HA as (_ & _ & _ & _ & HiA). pose proof (inv_resp _ _ _ _ _ HiA) as Hl.
  destruct (request_sent (pr nA) num t o b f arg to l ref _ Hl eq_refl Ep) as (s1 & x & nd & E1 & W1 & L1 & N1 & D1 & D2 & D3 & D4 & D5 & T1).
  cbv zeta in EB. rewrite Hr, Hi in EB. cbn [mbind option_bind] in EB. rewrite Hh in EB.
  eexists s1, _, _, _, x, nd. split; [exact E1|]. split; [exact W1|]. split; [exact EB|]. split; [done|].
  split; [by apply header_of_error|]. split; [exact T1|]. intros Hsafe.
  set (reply := be32 256 ++ _) in *.
  destruct (command_inv malloc malloc_buff encode transmit user None Idle (pr nA) l m
    (Req (num, XUnion t (SObj o)) b (Some f) arg IPC_CB_TYPE_RAW to) HiA) as (c & s1' & l1' & m1 & E1' & Hi1 & _).
  rewrite E1 in E1'. injection E1' as <- <-. pose proof (inv_resp _ _ _ _ _ Hi1) as L1'. rewrite L1 in L1'. injection L1' as <-.
  set (h := RespHdr IPC_CMDS_RESPONSE ref IPC_RESULTCODE_UNSUPPORTED).
  assert (Hmatch : resp_matches h b nd = true) by (unfold resp_matches, h; cbn [hdr_ipcref]; rewrite D1, D2, !Z.eqb_refl; done).
  destruct (handle_inv malloc malloc_buff encode header_of resp_decode transmit user s1 (x :: l) m1 reply b Hi1 Hsafe)
    as (s2 & l2 & m2 & E2 & _ & Hcase).
  destruct (Hcase h (header_of_error ref IPC_RESULTCODE_UNSUPPORTED Href ltac:(done)) eq_refl) as [[_ Hno]|(k1 & y & k2 & ny & es & k & Q1 & Q2 & Q3 & Q4 & Q5 & Q6 & _ & Q7 & _)].
  { rewrite (Hno x nd) in Hmatch; [done|left|done]. }
  assert (k1 = []) as ->.
  { destruct k1 as [|z k1]; [done|]. injection Q1 as <- _. rewrite (Q4 x nd) in Hmatch; [done|left|done]. }
  injection Q1 as <- _. rewrite N1 in Q2. injection Q2 as <-.
  exists (with_pr (count_response (with_pr nA s1)) s2), es. unfold reply at 1. rewrite receive_error. fold reply.
  change (pr (with_pr nA s1)) with s1. rewrite E2. split; [done|]. cbn [pr with_pr]. split_and!; [|done|done].
  rewrite Q5. unfold answer. by rewrite D3, D4, D5.
Qed.
End DispatchFacts.

(** ** Two processes

    Command 257 is handled by function 5, command 258 is not handled; the
    parameters are structures with one number. *)

Module Net.

Import CmdResponse.Demo.

Definition number_field : FieldDefinition Z :=
  FD Z XDR_decode_uint32 XDR_encode_uint32 0 0 0 (fun o => o) (fun _ v => v) (fun _ => 0).
Definition number_fields : list (FieldSpec (Obj := Z) 0) := [FS 0 number_field be32 (int_valid 0 (2 ^ 32)) uint32_codec].
Definition struct_def (t : Z) (fs : list (FieldDefinition Z)) : StructDefinition Z :=
  SD t 4 (Some (XDR_struct_encoder (Some fs))) (Some (XDR_struct_decoder (Some fs))) (Some 0) None None 0.
Definition deft (t : Z) : option (StructDefinition Z) :=
  if t =? 0 then Some (struct_def 0 []) else if t =? 100 then Some (struct_def 100 (fs_field 0 <$> number_fields)) else None.
Definition block (k : Z) : list Z := replicate (Z.to_nat k) 170.

Lemma number_layout : layout_ok 0 number_fields.
Proof.
  intros pre x post E. destruct pre as [|y1 pre]; [injection E as <- <-|injection E as <- E; by destruct pre].
  split_and!; try done. intros y o v Hy. by apply elem_of_nil in Hy.
Qed.

Lemma block_ok k : 0 <= k -> zlen (block k) = k.
Proof. intros H. unfold block. rewrite length_replicate. lia. Qed.

Lemma void_ok : void_registered deft.
Proof. by eexists. Qed.

Lemma deft_safe : definitions_safe deft.
Proof.
  intros t def dec o src max Hd Hdec _ H1 H2. unfold deft in Hd.
  destruct (t =? 0); [injection Hd as <-|destruct (t =? 100); [injection Hd as <-|done]]; injection Hdec as <-;
    unfold XDR_struct_decoder; apply struct_loop_safe; try lia; [apply list.Forall_nil_2|].
  apply list.Forall_cons_2; [exact uint32_safe|apply list.Forall_nil_2].
Qed.

Abbreviation world := (list (list Z)).
Abbreviation req := (request (Z * XDR_Union Z)).
Definition user (f : Z) (to : bool) (_ : Z) (_ : option (list Z + unit)) (w : world) : list req * world := ([], w ++ [[f]]).
Definition xdr_handler (h : Z) (c : IPC_Command Z) (_ : sockaddr_in) (_ : Z) (w : world) : list req * world :=
  ([], w ++ [[h; ic_cmd c; ic_ipcref c; match u_data (ic_parameters c) with SObj v => v | _ => -1 end]]).
Definition byte_handler (f cmd : Z) (data : list Z) (_ : sockaddr_in) (w : world) : list req * world := ([], w ++ [f :: cmd :: data]).

Definition tables0 : tables :=
  Tabs (<[1%positive := CI 257 0 None None None (Some 5) 0]> {[2%positive := CI 258 0 None None None None 0]}) None [] ∅ None false.
Definition registered : tables := CMD_register_commands (fun _ => None) tables0 [1; 2]%positive false.
Definition registered_map : gmap Z ptr := register_all_spec tables0 ∅ [1; 2]%positive false.
Definition table0 : list Command := <[1%nat := Cmd (Some fakeStatusCommand) 0 0 0]> (replicate 256 (Cmd (Some invalidCommand) 0 0 0)).
Definition n0 : node clocked world := Node table0 (Beats 0 0 0) registered s0.
Definition here : sockaddr_in := SA 3000 1.
Abbreviation go := (cmd_handler_cb deft block malloc (fun _ => true) resp_decode transmit user xdr_handler byte_handler 0 (ICmd 0 0 (XUnion 0 SNull))).

Lemma n0_ok : node_ok n0 [] ∅ registered_map.
Proof.
  split; [vm_compute; reflexivity|]. split; [apply Forall_insert; [apply Forall_replicate; by eexists|by eexists]|].
  split; [apply (register_all (fun _ => None) tables0 tables0 ∅ [1; 2]%positive false); done|].
  split; [|apply (started_inv s0), started_s0].
  intros k p H. assert (Hp : p = 1%positive \/ p = 2%positive).
  { unfold registered_map in H. vm_compute register_all_spec in H.
    destruct (decide (k = 258)) as [->|H1]; [vm_compute in H; injection H as <-; by right|].
    destruct (decide (k = 257)) as [->|H2]; [vm_compute in H; injection H as <-; by left|].
    exfalso. revert H. change (<[258 := 2%positive]> (<[257 := 1%positive]> ∅ : gmap Z ptr) !! k = Some p -> False).
    by rewrite !lookup_insert_ne, lookup_empty by done. }
  destruct Hp as [->| ->]; by eexists.
Qed.

End Net.

(** A packet of one byte asks for the status. *)
Lemma dispatch_safe_witness :
  exists n' l' m', Net.go Net.n0 EVENT_FD_READ (Some ([1], Net.here)) = Some n' /\ node_ok n' l' m' Net.registered_map.
Proof.
  destruct (dispatch_safe Net.deft Net.block Net.block_ok Net.void_ok CmdResponse.Demo.malloc (fun _ => true)
    CmdResponse.Demo.resp_decode CmdResponse.Demo.transmit Net.user Net.xdr_handler Net.byte_handler 0 (ICmd 0 0 (XUnion 0 SNull))
    Net.n0 [] ∅ Net.registered_map [1] Net.here Net.n0_ok Net.deft_safe) as (n' & l' & m' & E & H & _).
  - by repeat constructor.
  - by vm_compute.
  - intros h l a n l' s2 p Hh. by vm_compute in Hh.
  - by exists n', l', m'.
Defined.

Lemma command_dispatched_witness :
  exists pkt, encode Net.deft Net.block (257, XUnion 100 (SObj 77)) 9 1024 = inl pkt /\
    CmdResponse.world ∘ pr <$> Net.go Net.n0 EVENT_FD_READ (Some (pkt, Net.here)) = Some [[5; 257; 9; 77]].
Proof.
  destruct (command_dispatched Net.deft Net.block Net.block_ok Net.void_ok CmdResponse.Demo.malloc (fun _ => true)
    CmdResponse.Demo.resp_decode CmdResponse.Demo.transmit Net.user Net.xdr_handler Net.byte_handler 0 (ICmd 0 0 (XUnion 0 SNull))
    Net.n0 257 9 100 77 1024 Net.here (Net.struct_def 100 (fs_field 0 <$> Net.number_fields)) _ _ _ _ _ 0 Net.registered_map
    (struct_codec 0 Net.number_fields (Z.le_refl 0) Net.number_layout)) as (pkt & o' & E1 & Hs & E2); try reflexivity; try lia.
  - apply list.Forall_cons_2; [vm_compute; split; congruence|apply list.Forall_nil_2].
  - by vm_compute.
  - by vm_compute.
  - apply Net.n0_ok.
  - exists pkt. split; [exact E1|]. rewrite E2. specialize (Hs _ (list_elem_of_here _ _)). unfold fget in Hs. cbn in Hs. subst o'.
    vm_compute. reflexivity.
Defined.

Lemma unsupported_answered_witness :
  exists s1 pkt nB' reply x nd nA' es,
    IPC_command_internal CmdResponse.Demo.malloc (fun _ => true) (encode Net.deft Net.block) CmdResponse.Demo.transmit (pr Net.n0)
      (Req (258, XUnion 100 (SObj 77)) CmdResponse.Demo.host (Some 8) 40 IPC_CB_TYPE_RAW 0) = Some (0, s1) /\
    CmdResponse.world s1 = [pkt] /\ Net.go Net.n0 EVENT_FD_READ (Some (pkt, Net.here)) = Some nB' /\
    CmdResponse.world (pr nB') = [reply] /\
    Net.go (with_pr Net.n0 s1) EVENT_FD_READ (Some (reply, CmdResponse.Demo.host)) = Some nA' /\
    trace (pr nA') = [Sent x nd] ++ Called x 8 40 false :: es.
Proof.
  destruct (unsupported_answered Net.deft Net.block Net.block_ok Net.void_ok CmdResponse.Demo.malloc (fun _ => true)
    CmdResponse.Demo.resp_decode CmdResponse.Demo.transmit Net.user Net.xdr_handler Net.byte_handler 0 (ICmd 0 0 (XUnion 0 SNull))
    Net.n0 Net.n0 [] ∅ Net.registered_map [] ∅ Net.registered_map Net.here CmdResponse.Demo.host 258 100 77 8 40 0
    (Net.struct_def 100 (fs_field 0 <$> Net.number_fields)) _ _ _ _ _ 0 2%positive (CI 258 0 None None None None 0)
    Net.n0_ok Net.n0_ok ltac:(vm_compute; reflexivity) ltac:(vm_compute; reflexivity) eq_refl
    (struct_codec 0 Net.number_fields (Z.le_refl 0) Net.number_layout))
    as (s1 & pkt & nB' & reply & x & nd & E1 & W1 & E2 & W2 & Hh & T1 & Hlast); try reflexivity; try lia.
  - apply list.Forall_cons_2; [vm_compute; split; congruence|apply list.Forall_nil_2].
  - by vm_compute.
  - vm_compute. split; congruence.
  - by vm_compute.
  - destruct Hlast as (nA' & es & E3 & T2 & _).
    + intros h l a n l' s2 p Hh' Hl Hf _ Hp. rewrite Hh in Hh'. injection Hh' as <-.
      vm_compute in E1. injection E1 as <-. injection Hl as <-. vm_compute in Hf. injection Hf as <- <- <-. discriminate Hp.
    + exists s1, pkt, nB', reply, x, nd, nA', es. rewrite T1 in T2. split_and!; assumption.
Defined.

(** A command whose number has a first byte other than zero is taken for a
    command of one byte: this one for the status request. *)
Lemma large_command_misrouted :
  CmdResponse.world ∘ pr <$> Net.go Net.n0 EVENT_FD_READ (Some (command_wire 16777473 9 100 (be32 77), Net.here)) = Some [[241; 0]].
Proof. vm_compute. reflexivity. Qed.
