(* ===== verification/CmdInit.v ===== *)
(** * Starting the command handler (cmd.c)

    At start a process reads which functions handle its commands of one byte
    from a configuration file.  This file instantiates the parser of Config.v
    with the tables and callbacks of cmd.c and models [cmd_handler_init], which
    fills the table that CmdDispatch.v dispatches with. *)

From stdpp Require Import base gmap list sets numbers.
From Stdlib Require Import ZArith Lia.
From S2P Require Import Prelude Words CStr HashTable XdrCodec XdrStruct CmdRegistry CmdDispatch Config.
Open Scope Z_scope.

Definition IPC_CMDS_DATA_REQ : Z := 258.
Definition IPC_TYPES_HEARTBEAT : Z := 16777479.

(** ** The structures of the file *)

Record CFG_CommandDesc := CDesc { procName : option str; cmdName : option str; funcName : option str; cmdNum : Z }.

(** The heap the callbacks work on: command descriptions, the roots with their
    arrays, the next address, and whether a bad pointer was used. *)
Record cfg_heap := Heap { descs : gmap Z CFG_CommandDesc; roots : gmap Z CFG_Array; next : Z; crashed : bool }.

Definition with_descs (h : cfg_heap) (v : gmap Z CFG_CommandDesc) : cfg_heap := Heap v (roots h) (next h) (crashed h).
Definition with_roots (h : cfg_heap) (v : gmap Z CFG_Array) : cfg_heap := Heap (descs h) v (next h) (crashed h).
Definition with_next (h : cfg_heap) (v : Z) : cfg_heap := Heap (descs h) (roots h) v (crashed h).
Definition crash (h : cfg_heap) : cfg_heap := Heap (descs h) (roots h) (next h) true.

Definition PROC : str := [80; 82; 79; 67].
Definition NAME : str := [78; 65; 77; 69].
Definition FUNC : str := [70; 85; 78; 67].
Definition NUM : str := [78; 85; 77].
Definition CMD : str := [67; 77; 68].

(** The callbacks the tables refer to, by number. *)
Definition malloc_desc : Z := 1.
Definition malloc_root : Z := 2.
Definition strdup_proc : Z := 3.
Definition strdup_name : Z := 4.
Definition strdup_func : Z := 5.
Definition uint32_num : Z := 6.
Definition append_cmds : Z := 7.

Definition CommandDesc : CFG_ParseObj :=
  PObj (Some (UserCb malloc_desc)) None
    [PValue PROC None (Some (UserCb strdup_proc)); PValue NAME None (Some (UserCb strdup_name));
     PValue FUNC None (Some (UserCb strdup_func)); PValue NUM None (Some (UserCb uint32_num))].

(** The argument of the lookup is the number of the table. *)
Definition Root : CFG_ParseObj := PObj (Some (UserCb malloc_root)) None [PValue CMD (Some 1) (Some (UserCb append_cmds))].

Definition objs (i : Z) : CFG_ParseObj := if i =? 0 then Root else CommandDesc.

(** A callback that stores into a field of the description at [d]. *)
Definition store (f : str -> CFG_CommandDesc -> CFG_CommandDesc * bool) (arg : cb_arg) (d : data) (h : cfg_heap) : data * cfg_heap :=
  match arg, d with
  | Text (Some v), User a =>
      match descs h !! a with
      | Some c => let '(c', ok) := f v c in (if ok : bool then d else Null, with_descs h (<[a := c']> (descs h)))
      | None => (Null, crash h)
      end
  | _, _ => (Null, crash h)
  end.

Definition call (z : Z) (key : str) (arg : cb_arg) (d : data) (h : cfg_heap) : data * cfg_heap :=
  if z =? malloc_desc then
    (User (next h), with_next (with_descs h (<[next h := CDesc None None None 0]> (descs h))) (next h + 1))
  else if z =? malloc_root then
    (User (next h), with_next (with_roots h (<[next h := Arr 0 0 []]> (roots h))) (next h + 1))
  else if z =? strdup_proc then
    store (fun v c => (CDesc (Some (CFG_StrdupCB v)) (cmdName c) (funcName c) (cmdNum c), true)) arg d h
  else if z =? strdup_name then
    store (fun v c => (CDesc (procName c) (Some (CFG_StrdupCB v)) (funcName c) (cmdNum c), true)) arg d h
  else if z =? strdup_func then
    store (fun v c => (CDesc (procName c) (cmdName c) (Some (CFG_StrdupCB v)) (cmdNum c), true)) arg d h
  else if z =? uint32_num then
    store (fun v c => let '(n, ok) := CFG_uint32_CB v in (CDesc (procName c) (cmdName c) (funcName c) n, ok)) arg d h
  else if z =? append_cmds then
    match arg, d with
    | Object v, User a =>
        match roots h !! a ≫= fun arr => match CFG_PtrArrayAppendCB arr v true with Done r => Some r | _ => None end with
        | Some (arr', _) => (d, with_roots h (<[a := arr']> (roots h)))
        | None => (Null, crash h)
        end
    | _, _ => (Null, crash h)
    end
  else (Null, crash h).

(** ** cmd_handler_init *)

Section Init.
Context {Obj : Type}.
(** The function of a name. *)
Variable dlsym : str -> option Z.
(** [cmd_handle_data_req] and [heartbeat_populator], by address, and the
    [CommandCbArg] they are given. *)
Variables data_req heartbeat arg : Z.

(** The commands of the file, in order; [data] are the pointers of the array. *)
Fixpoint register_file (h : cfg_heap) (l : list data) (t : list Command) : outcome (list Command) :=
  match l with
  | [] => Done t
  | p :: l' =>
      match p with
      | User a =>
          match descs h !! a with
          | Some c =>
              match funcName c with
              | None => Overrun
              | Some f =>
                  match dlsym f with
                  | None => register_file h l' t
                  | Some fn =>
                      match t !! Z.to_nat (cmdNum c) with
                      | None => Overrun
                      | Some e => register_file h l' (<[Z.to_nat (cmdNum c) := Cmd (Some (ProgramCommand fn)) (uid e) (group e) (prot e)]> t)
                      end
                  end
              end
          | None => Overrun
          end
      | _ => Overrun
      end
  end.

(** Every entry refuses its command, and the one for the status answers. *)
Definition set_cb (h : CMD_handler_t) (e : Command) : Command := Cmd (Some h) (uid e) (group e) (prot e).
Definition first_table (block : list Command) : list Command :=
  alter (set_cb fakeStatusCommand) (Z.to_nat CMD_STATUS_REQUEST) (set_cb invalidCommand <$> take 256 block).

Definition config_name (procName : str) : str := [46; 47] ++ procName ++ [46; 99; 109; 100; 46; 99; 102; 103].

(** [exists_at] is stat, [home] the home directory, [content] fopen and [block]
    what malloc returns for the table; [fuel] is for the parser. *)
Definition cmd_handler_init (fuel : nat) (name : option str) (exists_at : str -> bool) (home : option str)
    (content : str -> option str) (path : str) (block : list Command) (t : tables) (r : registry Obj)
    : outcome (list Command * tables * registry Obj) :=
  let t1 := CMD_set_xdr_cmd_handler t IPC_CMDS_DATA_REQ (Some data_req) arg in
  let r1 := XDR_register_populator r (Some heartbeat) arg IPC_TYPES_HEARTBEAT in
  let* root :=
    match name with
    | None => Done (Null, Heap ∅ ∅ 1 false)
    | Some n =>
        if 256 <=? zlen (config_name n) then Overrun
        else
          let* (found, file) := CFG_locateConfigFile exists_at home (config_name n) path in
          if found =? 0 then Done (Null, Heap ∅ ∅ 1 false)
          else CFG_parseFileAtPath objs CFG_static_obj call fuel (Some 0) (content file) (Heap ∅ ∅ 1 false)
    end in
  let '(d, h) := root in
  if crashed h then Overrun
  else
    let* cmds :=
      match d with
      | User a =>
          match roots h !! a with
          | Some arr => register_file h (take (Z.to_nat (len arr)) (cells arr)) (first_table block)
          | None => Overrun
          end
      | _ => Done (first_table block)
      end in
    Done (cmds, t1, r1).
End Init.

(** ** What a file of commands says *)

(** An object [CMD] and its lines. *)
Record entry := Entry { e_name : str; e_params : option str; e_lines : list (str * str) }.

Definition entry_item (e : entry) : item := Sub (e_name e) (e_params e) ((fun kv => Key kv.1 (Some kv.2)) <$> e_lines e).

Definition set_line (c : CFG_CommandDesc) (kv : str * str) : CFG_CommandDesc :=
  if same_name PROC kv.1 then CDesc (Some (cstr kv.2)) (cmdName c) (funcName c) (cmdNum c)
  else if same_name NAME kv.1 then CDesc (procName c) (Some (cstr kv.2)) (funcName c) (cmdNum c)
  else if same_name FUNC kv.1 then CDesc (procName c) (cmdName c) (Some (cstr kv.2)) (cmdNum c)
  else if same_name NUM kv.1 then CDesc (procName c) (cmdName c) (funcName c) (u32 (strtol kv.2 0).1)
  else c.

Definition desc_of (e : entry) : CFG_CommandDesc := foldl set_line (CDesc None None None 0) (e_lines e).

(** Numbers are numbers. *)
Definition line_fine (kv : str * str) : Prop := same_name NUM kv.1 = true -> (strtol kv.2 0).2 = false.

Definition entry_ok (e : entry) : Prop :=
  same_name CMD (e_name e) = true /\ Forall line_fine (e_lines e).

(** The functions the file names for a command; the last one counts. *)
Definition functions_for (dlsym : str -> option Z) (es : list entry) (i : Z) : list Z :=
  omap (fun e => if cmdNum (desc_of e) =? i then funcName (desc_of e) ≫= dlsym else None) es.

Definition handler_for (dlsym : str -> option Z) (es : list entry) (i : Z) : CMD_handler_t :=
  match list.last (functions_for dlsym es i) with
  | Some f => ProgramCommand f
  | None => if i =? CMD_STATUS_REQUEST then fakeStatusCommand else invalidCommand
  end.

(** ** The calls a file means *)

Abbreviation keys1 := (Some (keys CommandDesc)).
Abbreviation keys0 := (Some (keys Root)).

Lemma line_meaning kv a c h :
  line_fine kv -> descs h !! a = Some c ->
  key_meaning call keys1 kv.1 (Some kv.2) (User a) h = (User a, with_descs h (<[a := set_line c kv]> (descs h))).
Proof.
  intros Hf Hc. unfold key_meaning. cbn [keys CommandDesc mbind option_bind find_value v_name]. unfold set_line.
  destruct (same_name PROC kv.1); [cbn; by rewrite Hc|]. destruct (same_name NAME kv.1); [cbn; by rewrite Hc|].
  destruct (same_name FUNC kv.1); [cbn; by rewrite Hc|]. destruct (same_name NUM kv.1) eqn:E.
  - specialize (Hf E). cbn. rewrite Hc. unfold CFG_uint32_CB. destruct (strtol kv.2 0) as [v er]. cbn in *. by rewrite Hf.
  - f_equal. destruct h. cbn in *. unfold with_descs. cbn. by rewrite insert_id.
Qed.

Lemma lines_meaning lines a c h :
  Forall line_fine lines -> descs h !! a = Some c ->
  meanings objs CFG_static_obj call keys1 ((fun kv => Key kv.1 (Some kv.2)) <$> lines) (User a) h =
  (User a, with_descs h (<[a := foldl set_line c lines]> (descs h))).
Proof.
  intros Hf. revert c h. induction Hf as [|kv lines Hkv _ IH]; intros c h Hc.
  - cbn. f_equal. destruct h. unfold with_descs. cbn in *. by rewrite insert_id.
  - rewrite fmap_cons. cbn [meanings meaning]. rewrite (line_meaning kv a c h Hkv Hc).
    rewrite (IH (set_line c kv)) by (cbn; apply lookup_insert_eq). cbn. unfold with_descs. cbn. by rewrite insert_insert_eq.
Qed.

Lemma no_type_key ks name p d h :
  ks = keys0 \/ ks = keys1 -> call_type call ks (type_key name) p d h = h /\ call_type call ks TYPE_KEY p d h = h.
Proof.
  intros [-> | ->]; unfold call_type; cbn [mbind option_bind]; split; try done; unfold type_key; cbn [app take]; done.
Qed.

(** An object makes a description and appends its address to the root. *)
Lemma entry_meaning e R arr l h :
  entry_ok e -> roots h !! R = Some arr -> array_ok arr l ->
  exists arr', array_ok arr' (l ++ [User (next h)]) /\
    meaning objs CFG_static_obj call true keys0 (entry_item e) (User R) h =
    (User R, Heap (<[next h := desc_of e]> (descs h)) (<[R := arr']> (roots h)) (next h + 1) (crashed h)).
Proof.
  intros [Hn Hl] Hr Ha. destruct (array_append arr l (User (next h)) Ha) as (arr' & Eapp & Ha'). exists arr'. split; [done|].
  unfold entry_item. rewrite sub_meaning. cbv zeta.
  assert (Hsub : sub_value keys0 (e_name e) = Some (PValue CMD (Some 1) (Some (UserCb append_cmds)))).
  { unfold sub_value. cbn [mbind option_bind keys Root find_value v_name]. by rewrite Hn. }
  rewrite Hsub. cbn [find_child lookup_cb CFG_static_obj]. unfold object_meaning. cbn [child_keys fmap option_fmap option_map].
  change (objs 1) with CommandDesc. cbn [initCb CommandDesc call_cb]. change (call malloc_desc ?k ?a ?d h) with
    (User (next h), with_next (with_descs h (<[next h := CDesc None None None 0]> (descs h))) (next h + 1)).
  cbv iota. set (p := default [] (e_params e)). set (h1 := with_next _ _).
  rewrite (proj1 (no_type_key keys0 (e_name e) p (User R) h1 (or_introl eq_refl))).
  rewrite (proj2 (no_type_key keys1 (e_name e) p (User (next h)) h1 (or_intror eq_refl))).
  rewrite (lines_meaning (e_lines e) (next h) (CDesc None None None 0) h1 Hl) by apply lookup_insert_eq.
  cbn [finiCb CommandDesc call_cb]. unfold finish. cbn [v_cb v_name call_cb].
  change (call append_cmds ?k (Object ?v) (User R) ?h2) with
    (match roots h2 !! R ≫= fun arr => match CFG_PtrArrayAppendCB arr v true with Done r => Some r | _ => None end with
     | Some (arr', _) => (User R, with_roots h2 (<[R := arr']> (roots h2))) | None => (Null, crash h2) end).
  cbn [roots with_descs h1 with_next]. rewrite Hr. cbn [mbind option_bind]. rewrite Eapp.
  unfold with_roots, with_descs. cbn [descs roots next crashed h1 with_next with_descs]. by rewrite insert_insert_eq.
Qed.

Lemma entries_meaning es R arr l h :
  Forall entry_ok es -> roots h !! R = Some arr -> array_ok arr l ->
  exists h' arr' addrs, meanings objs CFG_static_obj call keys0 (entry_item <$> es) (User R) h = (User R, h') /\
    roots h' !! R = Some arr' /\ array_ok arr' (l ++ (User <$> addrs)) /\
    Forall2 (fun a e => descs h' !! a = Some (desc_of e)) addrs es /\ crashed h' = crashed h /\
    (forall a, a < next h -> descs h' !! a = descs h !! a).
Proof.
  intros He. revert arr l h. induction He as [|e es He _ IH]; intros arr l h Hr Ha.
  - exists h, arr, []. cbn. rewrite app_nil_r. by split_and!.
  - destruct (entry_meaning e R arr l h He Hr Ha) as (arr1 & Ha1 & E1). set (h1 := Heap _ _ _ _) in E1.
    destruct (IH arr1 _ h1 (lookup_insert_eq _ _ _) Ha1) as (h' & arr' & addrs & E2 & R2 & A2 & F2 & C2 & K2).
    exists h', arr', (next h :: addrs). rewrite fmap_cons. cbn [meanings]. rewrite E1, E2. split_and!; try done.
    + rewrite fmap_cons. rewrite <- app_assoc in A2. exact A2.
    + constructor; [|exact F2]. rewrite K2 by (cbn; lia). cbn. apply lookup_insert_eq.
    + intros a H. rewrite K2 by (cbn; lia). cbn. apply lookup_insert_ne. lia.
Qed.

(** ** The table *)

Section Table.
Context (dlsym : str -> option Z).

Definition reg_entry (t : list Command) (e : entry) : list Command :=
  match funcName (desc_of e) ≫= dlsym with
  | Some f => alter (set_cb (ProgramCommand f)) (Z.to_nat (cmdNum (desc_of e))) t
  | None => t
  end.

(** A function is named, and a command that has one has a number in the
    table. *)
Definition entry_in (e : entry) : Prop :=
  is_Some (funcName (desc_of e)) /\ (is_Some (funcName (desc_of e) ≫= dlsym) -> cmdNum (desc_of e) < 256).

Lemma desc_num e : 0 <= cmdNum (desc_of e).
Proof.
  unfold desc_of. assert (H : 0 <= cmdNum (CDesc None None None 0)) by done. revert H.
  generalize (CDesc None None None 0). induction (e_lines e) as [|kv l IH]; intros c H; [done|]. cbn [foldl]. apply IH.
  unfold set_line. repeat destruct (same_name _ _); try done. cbn [cmdNum]. apply u32_range.
Qed.

Lemma alter_hit (g : Command -> Command) (t : list Command) i x : t !! i = Some x -> alter g i t = <[i := g x]> t.
Proof. revert i. induction t as [|y t IH]; intros [|i] H; try done; cbn in *; [by simplify_eq|]. f_equal. by apply IH. Qed.

Lemma reg_entry_length t e : length (reg_entry t e) = length t.
Proof. unfold reg_entry. destruct (_ ≫= _); [apply length_alter|done]. Qed.

Lemma register_file_spec h addrs es t :
  Forall2 (fun a e => descs h !! a = Some (desc_of e)) addrs es -> Forall entry_in es -> length t = 256%nat ->
  register_file dlsym h (User <$> addrs) t = Done (foldl reg_entry t es).
Proof.
  intros HF. revert t. induction HF as [|a e addrs es Ha _ IH]; intros t Hin Ht; [done|].
  apply list.Forall_cons in Hin as [[[f Hf] Hr] Hin]. rewrite fmap_cons. cbn [register_file foldl]. rewrite Ha, Hf.
  pose proof (reg_entry_length t e) as Hlen. unfold reg_entry in *. rewrite Hf in *. cbn [mbind option_bind] in *.
  destruct (dlsym f) as [fn|]; [|by apply IH]. specialize (Hr ltac:(by eexists)). pose proof (desc_num e) as Hnn.
  destruct (lookup_lt_is_Some_2 t (Z.to_nat (cmdNum (desc_of e)))) as [old Hold]; [lia|]. rewrite Hold.
  rewrite (alter_hit _ _ _ old Hold) in *. apply IH; [done|lia].
Qed.

Lemma reg_entries_lookup es t i :
  0 <= i ->
  foldl reg_entry t es !! Z.to_nat i =
  (fun c => match list.last (functions_for dlsym es i) with Some f => set_cb (ProgramCommand f) c | None => c end) <$> t !! Z.to_nat i.
Proof.
  intros Hi. induction es as [|e es IH] using rev_ind; [cbn; destruct (t !! Z.to_nat i); reflexivity|].
  rewrite foldl_app. cbn [foldl]. unfold reg_entry at 1, functions_for. rewrite omap_app. fold (functions_for dlsym es i).
  pose proof (desc_num e). cbn [omap list_omap].
  destruct (Z.eqb_spec (cmdNum (desc_of e)) i) as [<-|Hne].
  - destruct (funcName (desc_of e) ≫= dlsym) as [f|]; [|by rewrite app_nil_r].
    rewrite list_lookup_alter_eq, IH, last_snoc. destruct (t !! Z.to_nat (cmdNum (desc_of e))); [|reflexivity]. cbn. by destruct (list.last _).
  - rewrite app_nil_r. destruct (funcName (desc_of e) ≫= dlsym) as [f|]; [|done].
    by rewrite list_lookup_alter_ne by lia.
Qed.
End Table.

(** C22. After a process has started, its table of one-byte commands is what its
    command file says: command [i] is handled by the function that the last
    object of the file with number [i] names, the status request by the library
    if the file does not name it, and all others are refused; what the table
    held besides the functions is left as malloc returned it.  The data request
    and the heartbeat populator are registered. *)
Theorem command_file_correct {Obj} dlsym data_req heartbeat arg fuel n exists_at home content path file block t
    (r : registry Obj) ls trailer es :
  zlen (config_name n) < 256 ->
  CFG_locateConfigFile exists_at home (config_name n) path = Done (1, file) ->
  content file = Some (file_text ls trailer) ->
  Forall laid_ok ls -> Forall note_ok trailer -> line <$> ls = items_lines (entry_item <$> es) ->
  Forall item_ok (entry_item <$> es) -> Forall entry_ok es -> Forall (entry_in dlsym) es ->
  zlen (file_text ls trailer) < 2 ^ 61 -> (length ls < fuel)%nat -> length block = 256%nat ->
  exists cmds, cmd_handler_init dlsym data_req heartbeat arg fuel (Some n) exists_at home content path block t r
    = Done (cmds, CMD_set_xdr_cmd_handler t IPC_CMDS_DATA_REQ (Some data_req) arg,
            XDR_register_populator r (Some heartbeat) arg IPC_TYPES_HEARTBEAT) /\
    length cmds = 256%nat /\
    forall i e, 0 <= i -> block !! Z.to_nat i = Some e -> cmds !! Z.to_nat i = Some (set_cb (handler_for dlsym es i) e).
Proof.
  intros Hn Hloc Hc Hls Htr El Hok He Hin Hsz Hfuel Hb. unfold cmd_handler_init.
  rewrite (proj2 (Z.leb_gt _ _)) by done. rewrite Hloc. cbn [and_then]. change (1 =? 0) with false. cbv iota. rewrite Hc.
  rewrite (parse_document objs CFG_static_obj call ls trailer (entry_item <$> es) 0) by done.
  change (objs 0) with Root. cbn [initCb Root call_cb]. change (call malloc_root ?k ?a ?d (Heap ∅ ∅ 1 false)) with
    (User 1, Heap ∅ (<[1 := Arr 0 0 []]> ∅) 2 false). cbv iota.
  destruct (entries_meaning es 1 (Arr 0 0 []) [] (Heap ∅ (<[1 := Arr 0 0 []]> ∅) 2 false) He (lookup_insert_eq _ _ _))
    as (h' & arr' & addrs & E & R1 & A1 & F1 & C1 & _); [done|].
  rewrite E. cbn [finiCb Root call_cb and_then]. rewrite C1. cbn [crashed]. rewrite R1.
  destruct A1 as (A1 & _ & A3 & _). cbn [app] in A1, A3. rewrite A1, Nat2Z.id, A3.
  assert (Ht : length (first_table block) = 256%nat).
  { unfold first_table. rewrite length_alter, length_fmap, take_ge; lia. }
  rewrite (register_file_spec dlsym h' addrs es _ F1 Hin Ht). cbn [and_then]. eexists. split; [done|]. split.
  - assert (H : forall t0, length t0 = 256%nat -> length (foldl (reg_entry dlsym) t0 es) = 256%nat).
    { clear. induction es as [|e es IH]; intros t0 H; [done|]. cbn [foldl]. apply IH. by rewrite reg_entry_length. }
    by apply H.
  - intros i e Hi Hbi. rewrite reg_entries_lookup by done.
    assert (Hft : first_table block !! Z.to_nat i
      = Some (set_cb (if i =? CMD_STATUS_REQUEST then fakeStatusCommand else invalidCommand) e)).
    { unfold first_table, CMD_STATUS_REQUEST. rewrite take_ge by lia. destruct (Z.eqb_spec i 1) as [->|Hne].
      - rewrite list_lookup_alter_eq, list_lookup_fmap, Hbi. done.
      - rewrite list_lookup_alter_ne by lia. by rewrite list_lookup_fmap, Hbi. }
    rewrite Hft. cbn. unfold handler_for. by destruct (list.last _).
Qed.

(** ** A file with two commands *)

Module Demo.

Import Config.Demo.
Import String.StringSyntax.
Local Open Scope string_scope.

Definition es : list entry :=
  [Entry (bytes "CMD") None [(bytes "NUM", bytes "7"); (bytes "FUNC", bytes "blink")];
   Entry (bytes "cmd") (Some (bytes "x")) [(bytes "func", bytes "reset"); (bytes "num", bytes "0x1")]].

Definition ls : list laid :=
  (fun l => Laid [bytes "# commands"] [32] l []) <$>
  [bytes "<CMD>"; bytes "NUM=7"; bytes "FUNC=blink"; bytes "</CMD>";
   bytes "<cmd x>"; bytes "func=reset"; bytes "num=0x1"; bytes "</cmd>"].

Definition dlsym (f : str) : option Z := if same_name f (bytes "blink") then Some 40 else if same_name f (bytes "reset") then Some 41 else None.
Definition file : str := bytes "/etc/./a.cmd.cfg".
Definition exists_at (p : str) : bool := bool_decide (p = file).
Definition content (p : str) : option str := if exists_at p then Some (file_text ls []) else None.
(** What malloc returns; the protection of the commands is 1 by chance. *)
Definition block : list Command := replicate 256 (Cmd None 5 6 1).
Definition reg0 : registry Z := Reg ∅ None.
Definition tab0 : tables := Tabs ∅ None [] ∅ None false.

Abbreviation init f := (cmd_handler_init dlsym 1 2 3 20 (Some (bytes "a")) exists_at (Some (bytes "/home/b")) f [] block tab0 reg0).

(** A number that is not in the table is written past it. *)
Lemma number_past_table :
  init (fun _ => Some (file_text (Laid [] [] (bytes "<CMD>") [] :: Laid [] [] (bytes "FUNC=blink") [] ::
    Laid [] [] (bytes "NUM=256") [] :: Laid [] [] (bytes "</CMD>") [] :: []) [])) = Overrun.
Proof. vm_compute. reflexivity. Qed.

(** Without a function the name NULL is looked up. *)
Lemma function_missing :
  init (fun _ => Some (file_text (Laid [] [] (bytes "<CMD>") [] :: Laid [] [] (bytes "NUM=7") [] ::
    Laid [] [] (bytes "</CMD>") [] :: []) [])) = Overrun.
Proof. vm_compute. reflexivity. Qed.

(** With the dot that [cmd_handler_init] puts in front of the name, the file of
    the home directory is looked for in the directory above. *)
Lemma home_above :
  config_places (config_name (bytes "a")) (Some (bytes "/home/b")) =
  [bytes "./a.cmd.cfg"; bytes "/home/b/../a.cmd.cfg"; bytes "/etc/./a.cmd.cfg"; bytes "/usr/local/etc/./a.cmd.cfg"].
Proof. vm_compute. reflexivity. Qed.

End Demo.

Lemma command_file_correct_witness :
  exists cmds t r, Demo.init Demo.content = Done (cmds, t, r) /\
    cmds !! 7%nat = Some (Cmd (Some (ProgramCommand 40)) 5 6 1) /\
    cmds !! 1%nat = Some (Cmd (Some (ProgramCommand 41)) 5 6 1) /\
    cmds !! 8%nat = Some (Cmd (Some invalidCommand) 5 6 1).
Proof.
  destruct (command_file_correct Demo.dlsym 1 2 3 20 ([97]) Demo.exists_at (Some [47; 104; 111; 109; 101; 47; 98])
    Demo.content [] Demo.file Demo.block Demo.tab0 Demo.reg0 Demo.ls [] Demo.es) as (cmds & E & _ & H).
  - vm_compute. reflexivity.
  - vm_compute. reflexivity.
  - vm_compute. reflexivity.
  - concrete.
  - concrete.
  - vm_compute. reflexivity.
  - concrete.
  - concrete.
  - repeat constructor; vm_compute; try (eexists; reflexivity); congruence.
  - vm_compute. reflexivity.
  - vm_compute. lia.
  - vm_compute. reflexivity.
  - eexists cmds, _, _. split; [exact E|]. split_and!.
    + exact (H 7 (Cmd None 5 6 1) ltac:(lia) eq_refl).
    + exact (H 1 (Cmd None 5 6 1) ltac:(lia) eq_refl).
    + exact (H 8 (Cmd None 5 6 1) ltac:(lia) eq_refl).
Defined.

(** The protection of the commands of the file is never set: with what malloc
    returned here, a command that the file names is refused. *)
Lemma protected_by_chance :
  (let* (cmds, _, _) := Demo.init Demo.content in
   Done (CmdResponse.world ∘ pr <$> Net.go (with_cmds Net.n0 cmds) EVENT_FD_READ (Some ([7], Net.here)))) = Done (Some []).
Proof. vm_compute. reflexivity. Qed.
