(* ===== verification/CmdLine.v ===== *)
(** * Commands from the command line (cmd.c)

    A process sends a command that its arguments name: flags choose the command
    and the host, the other arguments are [key=value] pairs that fill the
    parameters of the command with the scanners of XdrText.v.  The function is
    modelled up to what it sends; the tables are those of CmdRegistry.v, and
    sending is [IPC_command] of CmdResponse.v. *)

From stdpp Require Import base gmap list sets numbers.
From Stdlib Require Import ZArith Lia.
From Stdlib Require String Ascii.
From S2P Require Import Prelude Words CStr XdrCodec XdrStruct XdrText Timers CmdResponse CmdRegistry CmdTelemetry CmdDispatch Config CmdInit.
Open Scope Z_scope.

(** ** Parameters *)

Section Params.
Context {Obj : Type}.

Fixpoint find_field (fields : list (text_field Obj)) (key : str) : option (text_field Obj) :=
  match fields with
  | [] => None
  | f :: fields' =>
      match fkey (tf_info f), tf_scanner f with
      | Some k, Some _ => if same_name k key then Some f else find_field fields' key
      | _, _ => find_field fields' key
      end
  end.

(** The scanner writes the field and perhaps the length. *)
Definition scan_field (f : text_field Obj) (value : str) (o : Obj) : option Obj :=
  match tf_scanner f with
  | None => Some o
  | Some scan =>
      '(v, len) ← scan value (tf_get f o) (inverse_conv (tf_info f));
      let o1 := tf_set f o v in
      Some (match len with Some n => tf_set_len f o1 n | None => o1 end)
  end.

(** The arguments: [Some None] is one that is no pair or that no field has;
    [None] is a fault of a scanner. *)
Fixpoint scan_args (fields : list (text_field Obj)) (o : Obj) (args : list str) : option (option Obj) :=
  match args with
  | [] => Some (Some o)
  | a :: args' =>
      match strchr 61 (cstr a) with
      | (_, None) => Some None
      | (key, Some value) =>
          match find_field fields key with
          | None => Some None
          | Some f => o' ← scan_field f value o; scan_args fields o' args'
          end
      end
  end.
End Params.

(** ** The command line *)

(** The parts of the definition of the parameters that are used: whether its
    encoder and decoder are those of structures, whether it has an allocator and
    a deallocator, the fields, and what the allocator returns. *)
Record param_def (Obj : Type) := PD { pd_struct : bool; pd_alloc : bool; pd_fields : list (text_field Obj); pd_allocator : option Obj }.
Arguments PD {_}.
Arguments pd_struct {_}.
Arguments pd_alloc {_}.
Arguments pd_fields {_}.
Arguments pd_allocator {_}.

Inductive cl_param (Obj : Type) := NoParam | StructParam (o : Obj) | DataReqParam (reqs : list Z).
Arguments NoParam {_}.
Arguments StructParam {_}.
Arguments DataReqParam {_}.

(** What comes of a command line: help or an error with the value returned, a
    function of the program with its arguments and the host, or a command. *)
Inductive cl_result (Obj : Type) :=
  | Usage
  | Help (rc : Z)
  | Failed (rc : Z)
  | Multicall (c : CMD_MulticallInfo) (args : list str) (host : str)
  | SendCommand (num : Z) (param : cl_param Obj) (type : Z) (dest : sockaddr_in) (style : XDR_PRINT_STYLE).
Arguments Usage {_}.
Arguments Help {_}.
Arguments Failed {_}.
Arguments Multicall {_}.
Arguments SendCommand {_}.

(** The variables that flags set. *)
Record flags := Flags { fl_command : option ptr; fl_mc : option CMD_MulticallInfo; fl_host : str; fl_style : XDR_PRINT_STYLE }.

Definition HUMAN : str := [104; 117; 109; 97; 110].
Definition KVP : str := [107; 118; 112].
Definition CSV : str := [99; 115; 118].
Definition LOCALHOST : str := [49; 50; 55; 46; 48; 46; 48; 46; 49].

Section CommandLine.
Context {Obj : Type}.
Variable t : tables.
Variable mc : list CMD_MulticallInfo.
Variable param_at : ptr -> option (param_def Obj).
(** The address of a host, and the port of a process. *)
Variable resolve : str -> option Z.
Variable localhost : Z.
Variable port_of : str -> Z.

Definition style_named (s : str) : option XDR_PRINT_STYLE :=
  if same_name s HUMAN then Some XDR_PRINT_HUMAN
  else if same_name s KVP then Some XDR_PRINT_KVP
  else if same_name s CSV then Some XDR_PRINT_CSV_DATA else None.

(** The value that [CMD_xdr_cmd_help] returns: 2, or -1 for parameters without
    fields.  The text of the help is not modelled. *)
Definition CMD_xdr_cmd_help (p : ptr) : option Z :=
  c ← infos t !! p;
  match parameter c with
  | None => Some 2
  | Some d => def ← param_at d; Some (if pd_struct def then 2 else -1)
  end.

(** The loop over the flags: a result, or the variables and the arguments that
    are left.  [None] is a fault. *)
Fixpoint read_flags (args : list str) (fl : flags) : option (cl_result Obj + flags * list str) :=
  match args with
  | (45 :: flag) :: args' =>
      match flag with
      | [99] =>
          match args' with
          | name :: rest =>
              c ← CMD_xdr_cmd_by_name t name;
              read_flags rest (Flags c (CMD_mc_cmd_by_name name mc) (fl_host fl) (fl_style fl))
          | [] => Some (inl Usage)
          end
      | [104] =>
          match args' with
          | host :: rest => read_flags rest (Flags (fl_command fl) (fl_mc fl) host (fl_style fl))
          | [] => Some (inl Usage)
          end
      | [110] =>
          match args' with
          | num :: rest =>
              read_flags rest (Flags (CMD_xdr_cmd_by_number t (u32 (strtol num 0).1)) (fl_mc fl) (fl_host fl) (fl_style fl))
          | [] => Some (inl Usage)
          end
      | [102] =>
          match args' with
          | name :: rest =>
              match style_named name with
              | Some st => read_flags rest (Flags (fl_command fl) (fl_mc fl) (fl_host fl) st)
              | None => Some (inl Usage)
              end
          | [] => Some (inl Usage)
          end
      | 99 :: _ | 104 :: _ | 110 :: _ | 102 :: _ => Some (inl Usage)
      | _ =>
          match fl_mc fl, fl_command fl with
          | Some _, _ => Some (inl (Help 2))
          | None, Some p => rc ← CMD_xdr_cmd_help p; Some (inl (Help rc))
          | None, None => Some (inl Usage)
          end
      end
  | _ => Some (inr (fl, args))
  end.

(** The name of the program without its directory. *)
Fixpoint base_name (s : str) : str :=
  match strchr 47 s with
  | (_, None) => s
  | (_, Some _) => match s with [] => [] | _ :: s' => base_name s' end
  end.

(** The command itself, with the pairs that are left. *)
Definition command_params (c : CMD_XDRCommandInfo) (p : ptr) (args : list str) (dest : sockaddr_in) (st : XDR_PRINT_STYLE)
    : option (cl_result Obj) :=
  let send num param type := Some (if num =? 0 then Failed (-3) else SendCommand num param type dest st) in
  match parameter c, negb (params c =? IPC_TYPES_DATAREQ) || bool_decide (types c = None) with
  | Some d, true =>
      def ← param_at d;
      if negb (pd_struct def && pd_alloc def) then Some (Failed (-2))
      else match pd_allocator def with
           | None => Some (Failed (-3))
           | Some o =>
               r ← scan_args (pd_fields def) o args;
               match r with
               | None => rc ← CMD_xdr_cmd_help p; Some (Help rc)
               | Some o' => send (command c) (StructParam o') (match args with [] => 0 | _ => params c end)
               end
           end
  | _, _ =>
      match types c with
      | Some (ty :: tys) =>
          if params c =? IPC_TYPES_DATAREQ then send IPC_CMDS_DATA_REQ (DataReqParam (ty :: tys)) IPC_TYPES_DATAREQ
          else send (command c) NoParam 0
      | _ => send (command c) NoParam 0
      end
  end.

Definition CMD_send_command_line_command_internal (argv : list str) (destProc : str) : option (cl_result Obj) :=
  match argv with
  | [] => None
  | arg0 :: args =>
      let execName := base_name arg0 in
      c0 ← CMD_xdr_cmd_by_name t execName;
      r ← read_flags args (Flags c0 (CMD_mc_cmd_by_name execName mc) LOCALHOST XDR_PRINT_HUMAN);
      match r with
      | inl res => Some res
      | inr (fl, rest) =>
          match fl_mc fl, fl_command fl with
          | Some m, _ => Some (Multicall m rest (fl_host fl))
          | None, None => Some Usage
          | None, Some p =>
              c ← infos t !! p;
              match resolve (fl_host fl) with
              | None => Some (Failed (-1))
              | Some a => command_params c p rest (SA (port_of destProc) (if a =? 0 then localhost else a)) (fl_style fl)
              end
          end
      end
  end.

(** [CMD_send_command_line_command]: the value returned and the process after
    it; [multicall] runs a function of the program. *)
Context {T W R : Type} `{!TimerOps T}.
Variable malloc : gset ptr -> option ptr.
Variable malloc_buff : Z -> bool.
Variable encode : Z * XDR_Union Obj -> Z -> Z -> list Z + Z.
Variable transmit : list Z -> sockaddr_in -> W -> W.
Variable multicall : CMD_MulticallInfo -> str -> list str -> str -> W -> Z * W.
(** The [struct IPC_DataReq] of a list of types. *)
Variable datareq : list Z -> Obj.

Definition param_ptr (p : cl_param Obj) : sptr Obj :=
  match p with NoParam => SNull | StructParam o => SObj o | DataReqParam l => SObj (datareq l) end.

Definition CMD_send_command_line_command (s : option (proc T W)) (argv : list str) (cb : option Z) (cb_arg timeout : Z)
    (destProc : str) : option (Z * option (proc T W)) :=
  match s with
  | None => Some (-1, None)
  | Some s =>
      r ← CMD_send_command_line_command_internal argv destProc;
      match r with
      | Usage => Some (1, Some s)
      | Help rc | Failed rc => Some (rc, Some s)
      | Multicall c args host =>
          let '(rc, w) := multicall c (base_name (default [] (head argv))) args host (world s) in
          Some (rc, Some (with_world s w))
      | SendCommand num param type dest _ =>
          IPC_command malloc malloc_buff encode transmit (Some s)
            (Req (num, XUnion type (param_ptr param)) dest cb cb_arg IPC_CB_TYPE_RAW timeout)
      end
  end.
End CommandLine.

(** ** Parameters that are printed and scanned *)

Section KvpRoundtrip.
Context {Obj : Type}.

(** A field with a key, a printer and a scanner of its type. *)
Record text_spec := TS {
  ts_type : Type;
  ts_key : str;
  ts_info : field_info;
  ts_printer : Printer ts_type;
  ts_scanner : Scanner ts_type;
  ts_text : ts_type -> str;
  ts_zero : ts_type;
  ts_valid : ts_type -> Prop;
  ts_get : Obj -> ts_type;
  ts_set : Obj -> ts_type -> Obj;
  ts_codec : TextCodec ts_printer ts_scanner ts_text ts_zero ts_valid
}.

Definition spec_field (x : text_spec) : text_field Obj :=
  TF (ts_type x) (FI (Some (ts_key x)) (fname (ts_info x)) (funit (ts_info x)) (conversion (ts_info x)) None)
    (Some (ts_printer x)) (Some (ts_scanner x)) (ts_get x) (ts_set x) (fun _ => 0) (fun o _ => o).

Definition spec_arg (o : Obj) (x : text_spec) : str := ts_key x ++ [61] ++ ts_text x (ts_get x o).

(** Keys are not empty, plain and different, also without case; a field reads
    back what was stored in it, and storing it leaves the others. *)
Definition key_ok (k : str) : Prop := k <> [] /\ 61 ∉ k /\ Forall (fun c => c <> 10 /\ c <> 0) k /\ zlen k < 1024.

Definition specs_ok (l : list text_spec) : Prop :=
  Forall (fun x => key_ok (ts_key x)) l /\
  forall pre x post, l = pre ++ x :: post ->
    (forall o v, ts_get x (ts_set x o v) = v) /\
    (forall y, y ∈ pre ++ post ->
       same_name (ts_key y) (ts_key x) = false /\ forall o v, ts_get y (ts_set x o v) = ts_get y o).


Lemma find_spec l pre x post :
  specs_ok l -> l = pre ++ x :: post -> find_field (spec_field <$> l) (ts_key x) = Some (spec_field x).
Proof.
  intros [_ Hl] E. destruct (Hl pre x post E) as [_ Hne]. rewrite E. clear Hl E l.
  assert (H : forall y, y ∈ pre -> same_name (ts_key y) (ts_key x) = false) by (intros y Hy; apply Hne; set_solver).
  clear Hne. induction pre as [|y pre IH]; cbn [app]; rewrite fmap_cons; cbn [find_field spec_field tf_info fkey tf_scanner].
  - by rewrite same_name_refl.
  - rewrite (H y) by (by left). apply IH. intros z Hz. apply H. by right.
Qed.

(** Scanning the arguments of the fields behind [pre], which are done. *)
Lemma scan_specs l o pre post o1 :
  specs_ok l -> l = pre ++ post -> Forall (fun x => ts_valid x (ts_get x o)) post ->
  (forall x, x ∈ pre -> ts_get x o1 = ts_get x o) -> (forall x, x ∈ post -> ts_get x o1 = ts_zero x) ->
  exists o', scan_args (spec_field <$> l) o1 (spec_arg o <$> post) = Some (Some o') /\ forall x, x ∈ l -> ts_get x o' = ts_get x o.
Proof.
  intros Hl E Hv. revert pre o1 E. induction Hv as [|x post Hx _ IH]; intros pre o1 E Hpre Hpost.
  { exists o1. split; [done|]. intros x Hx. apply Hpre. by rewrite E, app_nil_r in Hx. }
  destruct Hl as [Hk Hl]. pose proof (Hl pre x post E) as [Hset Hother].
  assert (Hkx : key_ok (ts_key x)) by (rewrite list.Forall_forall in Hk; apply Hk; rewrite E; set_solver).
  pose proof (ts_codec x) as Hc. destruct Hkx as (_ & K2 & K3 & _).
  rewrite fmap_cons. cbn [scan_args]. unfold spec_arg at 1. rewrite cstr_plain.
  2:{ rewrite !list.Forall_app. split_and!; [|by repeat constructor|].
      - eapply list.Forall_impl; [exact K3|]. by intros c [_ ?].
      - eapply list.Forall_impl; [by apply text_plain|]. by intros c [_ ?]. }
  cbn [app]. rewrite strchr_app by done. rewrite (find_spec l pre x post (conj Hk Hl) E).
  unfold scan_field. cbn [tf_scanner spec_field tf_get tf_info inverse_conv]. rewrite (Hpost x) by (by left).
  rewrite (scan_text _ Hx). cbn [mbind option_bind tf_set spec_field].
  apply (IH (pre ++ [x])).
  - by rewrite <- app_assoc.
  - intros y Hy. apply elem_of_app in Hy as [Hy|Hy].
    + rewrite (proj2 (Hother y ltac:(set_solver))). by apply Hpre.
    + apply elem_of_cons in Hy as [->|Hy]; [apply Hset|by apply elem_of_nil in Hy].
  - intros y Hy. rewrite (proj2 (Hother y ltac:(set_solver))). apply Hpost. by right.
Qed.


(** The fields with one value, by their type. *)
Inductive scalar := SInt32 | SUint32 | SInt64 | SUint64 | SChar | SString.

Definition scalar_type (k : scalar) : Type := match k with SString => option str | _ => Z end.

Definition scalar_printer (k : scalar) : Printer (scalar_type k) :=
  match k with
  | SInt32 => XDR_print_field_int32 | SUint32 => XDR_print_field_uint32
  | SInt64 => XDR_print_field_int64 | SUint64 => XDR_print_field_uint64
  | SChar => XDR_print_field_char | SString => XDR_print_field_string_array
  end.

Definition scalar_scanner (k : scalar) : Scanner (scalar_type k) :=
  match k with
  | SInt32 => XDR_scan_int32 | SUint32 => XDR_scan_uint32
  | SInt64 => XDR_scan_int64 | SUint64 => XDR_scan_uint64
  | SChar => XDR_scan_char | SString => XDR_scan_string_array
  end.

Definition scalar_text (k : scalar) : scalar_type k -> str :=
  match k with SChar => fun v => [v mod 256] | SString => default [] | _ => decimal end.

Definition scalar_zero (k : scalar) : scalar_type k := match k with SString => None | _ => 0 end.

Definition scalar_valid (k : scalar) : scalar_type k -> Prop :=
  match k with
  | SInt32 => in_range (- 2 ^ 31) (2 ^ 31) | SUint32 => in_range 0 (2 ^ 32)
  | SInt64 => in_range (- 2 ^ 63) (2 ^ 63) | SUint64 => in_range 0 (2 ^ 64)
  | SChar => char_ok | SString => string_ok
  end.

Lemma scalar_codec k : TextCodec (scalar_printer k) (scalar_scanner k) (scalar_text k) (scalar_zero k) (scalar_valid k).
Proof. destruct k; cbn; typeclasses eauto. Qed.

(** A field of a structure: its type and key, and where it is. *)
Record scalar_field := SF {
  sf_kind : scalar;
  sf_key : str;
  sf_info : field_info;
  sf_get : Obj -> scalar_type sf_kind;
  sf_set : Obj -> scalar_type sf_kind -> Obj
}.

Definition scalar_spec (f : scalar_field) : text_spec :=
  TS (scalar_type (sf_kind f)) (sf_key f) (sf_info f) (scalar_printer (sf_kind f)) (scalar_scanner (sf_kind f))
    (scalar_text (sf_kind f)) (scalar_zero (sf_kind f)) (scalar_valid (sf_kind f)) (sf_get f) (sf_set f)
    (scalar_codec (sf_kind f)).

End KvpRoundtrip.

(** ** From the command line to the handler *)

Section Delivered.
Context {Obj : Type} (t : tables) (mc : list CMD_MulticallInfo) (param_at : ptr -> option (param_def Obj)).
Context (resolve : str -> option Z) (localhost : Z) (port_of : str -> Z).

Abbreviation parse_line := (CMD_send_command_line_command_internal t mc param_at resolve localhost port_of).

(** The program, a command by name, a host, and the pairs of [o]. *)
Definition command_argv (exec name host : str) (o : Obj) (l : list (text_spec (Obj := Obj))) : list str :=
  exec :: [45; 99] :: name :: [45; 104] :: host :: (spec_arg o <$> l).

Lemma parse_command_line exec name host o (l : list text_spec) c0 p c d o0 a dest :
  specs_ok l -> Forall (fun x => ts_valid x (ts_get x o)) l -> (forall x, x ∈ l -> ts_get x o0 = ts_zero x) ->
  (forall x, head l = Some x -> hd 0 (ts_key x) <> 45) -> l <> [] ->
  CMD_xdr_cmd_by_name t (base_name exec) = Some c0 -> CMD_xdr_cmd_by_name t name = Some (Some p) ->
  CMD_mc_cmd_by_name name mc = None -> infos t !! p = Some c -> command c <> 0 -> types c = None -> parameter c = Some d ->
  param_at d = Some (PD true true (spec_field <$> l) (Some o0)) -> resolve host = Some a -> a <> 0 ->
  exists o', (forall x, x ∈ l -> ts_get x o' = ts_get x o) /\
    parse_line (command_argv exec name host o l) dest
    = Some (SendCommand (command c) (StructParam o') (params c) (SA (port_of dest) a) XDR_PRINT_HUMAN).
Proof.
  intros Hl Hv H0 Hdash Hne Hn0 Hn Hmc Hc Hnum Hty Hpar Hdef Hres Ha.
  destruct (scan_specs l o [] l o0) as (o' & E & Heq); try done; [intros x Hx; by apply elem_of_nil in Hx|].
  exists o'. split; [done|]. unfold command_argv, CMD_send_command_line_command_internal. rewrite Hn0. cbn [mbind option_bind].
  assert (Hstop : forall fl, read_flags (Obj := Obj) t mc param_at (spec_arg o <$> l) fl = Some (inr (fl, spec_arg o <$> l))).
  { intros fl. destruct l as [|x l']; [done|]. rewrite fmap_cons. specialize (Hdash x eq_refl). unfold spec_arg at 1 3.
    destruct Hl as [Hk _]. apply list.Forall_cons in Hk as [(Hk & _) _]. destruct (ts_key x) as [|k0 k] eqn:Ek; [done|]. cbn [hd] in Hdash.
    cbn [app]. generalize (k ++ 61 :: ts_text x (ts_get x o)). intros r. cbn [read_flags].
    destruct k0 as [|q|q]; try done. repeat (destruct q as [q|q|]; try done). }
  cbn [read_flags]. rewrite Hn. cbn [mbind option_bind fl_command fl_mc fl_host fl_style]. rewrite Hstop. cbn [mbind option_bind fl_command fl_mc fl_host fl_style].
  rewrite Hmc, Hc. cbn [mbind option_bind]. rewrite Hres, (proj2 (Z.eqb_neq _ _) Ha). unfold command_params. rewrite Hpar, Hty.
  rewrite bool_decide_eq_true_2, orb_true_r by done. rewrite Hdef. cbn [mbind option_bind pd_struct pd_alloc pd_allocator pd_fields negb andb].
  rewrite E. cbn [mbind option_bind]. rewrite (proj2 (Z.eqb_neq _ _) Hnum). by destruct l.
Qed.
End Delivered.

Section EndToEnd.
Context {T W Obj R : Type} `{!TimerOps T, !Timers T}.
Context (deft : Z -> option (StructDefinition Obj)).
Context (block : Z -> list Z) (Hblock : forall k, 0 <= k -> zlen (block k) = k) (Hvoid : void_registered deft).
Context (malloc : gset ptr -> option ptr) `{!Malloc malloc} (malloc_buff : Z -> bool).
Context (resp_decode : list Z -> option R) (transmit : list Z -> sockaddr_in -> W -> W).
Context (user : Z -> bool -> Z -> option (list Z + R) -> W -> list (request (Z * XDR_Union Obj)) * W).
Context (xdr_handler : Z -> IPC_Command Obj -> sockaddr_in -> Z -> W -> list (request (Z * XDR_Union Obj)) * W).
Context (byte_handler : Z -> Z -> list Z -> sockaddr_in -> W -> list (request (Z * XDR_Union Obj)) * W).
Context (junk_num : Z) (junk_cmd : IPC_Command Obj).
Context (mc : list CMD_MulticallInfo) (param_at : ptr -> option (param_def Obj)).
Context (resolve : str -> option Z) (localhost : Z) (port_of : str -> Z).
Context (multicall : CMD_MulticallInfo -> str -> list str -> str -> W -> Z * W) (datareq : list Z -> Obj).
Implicit Types n : node T W.

Abbreviation receive := (cmd_handler_cb deft block malloc malloc_buff resp_decode transmit user xdr_handler byte_handler junk_num junk_cmd).
Abbreviation line_command := (CMD_send_command_line_command (Obj := Obj)).

(** C23. A command given on the command line arrives: with the name of a
    command, a host that resolves and the [key=value] text of at least one
    parameter (without any the code sends type 0, [Demo.no_pairs_no_type]),
    the process sends one packet to the port of the process on that host and
    waits for the answer, and the receiver of the packet calls the handler
    registered for the command, once, with the reference of the request and
    parameters whose fields are those that were written. Conditions: the
    parameters are fields whose text is read back ([TextCodec]: integers,
    characters and strings), with distinct plain keys, of which the first does
    not begin with a minus sign, and an object that starts at the zero values;
    the command has one parameter type, which encodes and decodes without room
    to spare ([StructCodec 0], no byte array at the end), in a packet of at
    most 1024 bytes; its number is from 1 to 2^24 - 1 and not that of
    responses; allocations succeed; the process uses plain names, not those of
    multicalls. *)
Theorem command_line_delivered nA nB l r exec name host dest cb cb_arg to src o (ls : list text_spec) c0 p c d o0 a
    def enc dec wire valid same fresh p' info h :
  resp (pr nA) = Some l -> 0 <= next_cmd_ref (pr nA) < 2 ^ 32 ->
  specs_ok ls -> Forall (fun x => ts_valid x (ts_get x o)) ls -> (forall x, x ∈ ls -> ts_get x o0 = ts_zero x) ->
  (forall x, head ls = Some x -> hd 0 (ts_key x) <> 45) -> ls <> [] ->
  CMD_xdr_cmd_by_name (regs nA) (base_name exec) = Some c0 -> CMD_xdr_cmd_by_name (regs nA) name = Some (Some p) ->
  CMD_mc_cmd_by_name name mc = None -> infos (regs nA) !! p = Some c -> types c = None -> parameter c = Some d ->
  param_at d = Some (PD true true (spec_field <$> ls) (Some o0)) -> resolve host = Some a -> a <> 0 ->
  1 <= command c < 2 ^ 24 -> command c <> IPC_CMDS_RESPONSE -> 0 <= params c < 2 ^ 32 ->
  StructCodec 0 enc dec wire valid same -> deft (params c) = Some def ->
  sd_encoder def = Some enc -> sd_decoder def = Some dec -> sd_allocator def = Some fresh ->
  (forall o', (forall x, x ∈ ls -> ts_get x o' = ts_get x o) -> valid o' /\ 12 + zlen (wire o') <= 1024) ->
  (forall o1 o2 x, same o1 o2 -> x ∈ ls -> ts_get x o1 = ts_get x o2) ->
  reg_wf (regs nB) r -> r !! command c = Some p' -> infos (regs nB) !! p' = Some info -> handler info = Some h ->
  exists s1 pkt x nd o',
    line_command (regs nA) mc param_at resolve localhost port_of malloc malloc_buff (encode deft block) transmit multicall datareq
      (Some (pr nA)) (command_argv exec name host o ls) (Some cb) cb_arg to dest = Some (0, Some s1) /\
    world s1 = transmit pkt (SA (port_of dest) a) (world (pr nA)) /\
    resp s1 = Some (x :: l) /\ nodes s1 !! x = Some nd /\ rid nd = next_cmd_ref (pr nA) /\ rcb nd = Some cb /\
    (forall y, y ∈ ls -> ts_get y o' = ts_get y o) /\
    receive nB EVENT_FD_READ (Some (pkt, src)) =
    program deft block malloc malloc_buff transmit (count_command nB)
      (xdr_handler h (ICmd (command c) (next_cmd_ref (pr nA)) (XUnion (params c) (SObj o'))) src (harg info) (world (pr nB))).
Proof.
  intros Hl Href Hls Hv H0 Hdash Hne Hn0 Hn Hmc Hc Hty Hpar Hdef Hres Ha Hnum Hnr Ht HS Hd He Hdec Hal Hok Hsame Hreg Hr Hi Hh.
  destruct (parse_command_line (regs nA) mc param_at resolve localhost port_of exec name host o ls c0 p c d o0 a dest)
    as (o1 & Ho1 & E1); try done; [lia|].
  destruct (Hok o1 Ho1) as [Hv1 Hlen].
  pose proof (command_packet_ok deft block Hblock (command c) (next_cmd_ref (pr nA)) 1024 (params c) o1 def enc dec wire valid same
    HS Hd He Hv1 Hlen ltac:(lia)) as Ep.
  destruct (request_sent deft block malloc malloc_buff transmit (pr nA) (command c) (params c) o1 (SA (port_of dest) a) cb cb_arg to l _ _
    Hl eq_refl Ep) as (s1 & x & nd & E2 & W1 & L1 & N1 & D1 & _ & D3 & _).
  destruct (receive_command deft block Hblock Hvoid malloc malloc_buff resp_decode transmit user xdr_handler byte_handler junk_num junk_cmd
    nB (command c) (next_cmd_ref (pr nA)) (params c) o1 src def enc dec wire valid same fresh r)
    as (o2 & Hs & E3); try done; [lia..|].
  eexists s1, _, x, nd, o2. split.
  { unfold CMD_send_command_line_command. rewrite E1. cbn [mbind option_bind param_ptr]. unfold IPC_command. by rewrite E2. }
  split_and!; try done.
  - intros y Hy. rewrite <- (Hsame o1 o2 y Hs Hy). by apply Ho1.
  - rewrite E3. cbv zeta. rewrite Hr, Hi. cbn [mbind option_bind]. by rewrite Hh.
Qed.
End EndToEnd.

(** ** Examples *)

Module Demo.

Import Config.Demo.
Import String.StringSyntax.
Local Open Scope string_scope.

(** A structure with a number and a string. *)
Definition thing : Type := (Z * option str)%type.
Definition plain_info : field_info := FI None None None None None.
Definition mode : scalar_field (Obj := thing) := SF SString (bytes "mode") plain_info snd (fun o v => (o.1, v)).


(** The command of the network of CmdDispatch.v, with a name and a key. *)
Definition number : text_spec (Obj := Z) :=
  TS Z (bytes "val") plain_info XDR_print_field_uint32 XDR_scan_uint32 decimal 0 _ (fun o => o) (fun _ v => v) uint32_text.

Lemma number_ok : specs_ok [number].
Proof.
  split; [repeat constructor; vm_compute; try congruence; set_solver|].
  intros pre x post E. destruct pre as [|y1 pre]; [injection E as <- <-|injection E as <- E; by destruct pre].
  split; [done|]. intros y Hy. by apply elem_of_nil in Hy.
Qed.

Definition named0 : tables :=
  Tabs {[1%positive := CI 257 100 (Some (bytes "set")) None None (Some 5) 0]} None [] ∅ None false.
Definition named : tables := CMD_register_commands (fun t => if t =? 100 then Some 9%positive else None) named0 [1%positive] false.
Definition sender : node clocked (list (list Z)) := Node Net.table0 (Beats 0 0 0) named CmdResponse.Demo.s0.
Definition param_at (p : ptr) : option (param_def Z) :=
  if decide (p = 9%positive) then Some (PD true true [spec_field number] (Some 0)) else None.
Definition resolve (s : str) : option Z := Some 5.
Definition port_of (_ : str) : Z := 2000.

Abbreviation parse args := (CMD_send_command_line_command_internal named [] param_at resolve 1 port_of (bytes "/bin/util" :: args) (bytes "proc")).

(** Without parameters the type stays 0, and a structure is sent as one of
    type 0. *)
Lemma no_pairs_no_type :
  parse [bytes "-c"; bytes "set"] = Some (SendCommand 257 (StructParam 0) 0 (SA 2000 5) XDR_PRINT_HUMAN).
Proof. vm_compute. reflexivity. Qed.

(** A key that no field has, and an argument that is no pair, give help. *)
Lemma unknown_key :
  parse [bytes "-c"; bytes "set"; bytes "val=3"; bytes "other=4"] = Some (Help 2) /\
  parse [bytes "-c"; bytes "set"; bytes "val"] = Some (Help 2).
Proof. vm_compute. done. Qed.

(** A number that is none leaves the field, and one past 32 bits wraps. *)
Lemma bad_numbers :
  parse [bytes "-n"; bytes "0x101"; bytes "val=zero"] = Some (SendCommand 257 (StructParam 0) 100 (SA 2000 5) XDR_PRINT_HUMAN) /\
  parse [bytes "-f"; bytes "KVP"; bytes "-n"; bytes "257"; bytes "VAL=4294967298"]
    = Some (SendCommand 257 (StructParam 2) 100 (SA 2000 5) XDR_PRINT_KVP).
Proof. vm_compute. done. Qed.

(** A key given twice: the longer string is copied over the shorter one. *)
Lemma string_overrun :
  scan_args [spec_field (scalar_spec mode)] (0, None) [bytes "mode=a"; bytes "mode=longer"] = None.
Proof. vm_compute. reflexivity. Qed.

End Demo.


Lemma command_line_delivered_witness :
  exists s1 pkt,
    CMD_send_command_line_command Demo.named [] Demo.param_at Demo.resolve 1 Demo.port_of CmdResponse.Demo.malloc (fun _ => true)
      (encode Net.deft Net.block) CmdResponse.Demo.transmit (fun _ _ _ _ w => (0, w)) (fun _ => 0) (Some CmdResponse.Demo.s0)
      (command_argv [117] [115; 101; 116] [] 77 [Demo.number]) (Some 8) 40 0 [] = Some (0, Some s1) /\
    world s1 = [pkt] /\
    CmdResponse.world ∘ pr <$> Net.go Net.n0 EVENT_FD_READ (Some (pkt, Net.here)) = Some [[5; 257; 1; 77]].
Proof.
  destruct (command_line_delivered Net.deft Net.block Net.block_ok Net.void_ok CmdResponse.Demo.malloc (fun _ => true)
    CmdResponse.Demo.resp_decode CmdResponse.Demo.transmit Net.user Net.xdr_handler Net.byte_handler 0 (ICmd 0 0 (XUnion 0 SNull))
    [] Demo.param_at Demo.resolve 1 Demo.port_of (fun _ _ _ _ w => (0, w)) (fun _ => 0)
    Demo.sender Net.n0 [] Net.registered_map [117] [115; 101; 116] [] [] 8 40 0 Net.here 77 [Demo.number] None 1%positive
    (CI 257 100 (Some [115; 101; 116]) None (Some 9%positive) (Some 5) 0) 9%positive 0 5
    (Net.struct_def 100 (fs_field 0 <$> Net.number_fields))
    (XDR_struct_encoder (Some (fs_field 0 <$> Net.number_fields))) (XDR_struct_decoder (Some (fs_field 0 <$> Net.number_fields)))
    (struct_wire 0 Net.number_fields) (fun o => Forall (field_valid 0 o) Net.number_fields) (agree 0 Net.number_fields)
    0 1%positive (CI 257 0 None None None (Some 5) 0) 5
    eq_refl ltac:(vm_compute; split; congruence) Demo.number_ok)
    as (s1 & pkt & x & nd & o' & E1 & W1 & _ & _ & _ & _ & Ho & E2).
  - apply list.Forall_cons_2; [vm_compute; split; congruence|apply list.Forall_nil_2].
  - intros x Hx. apply list_elem_of_singleton in Hx as ->. reflexivity.
  - intros x Hx. injection Hx as <-. vm_compute. congruence.
  - congruence.
  - vm_compute. reflexivity.
  - vm_compute. reflexivity.
  - reflexivity.
  - vm_compute. reflexivity.
  - reflexivity.
  - reflexivity.
  - reflexivity.
  - reflexivity.
  - congruence.
  - vm_compute. split; congruence.
  - vm_compute. congruence.
  - vm_compute. split; congruence.
  - exact (struct_codec 0 Net.number_fields (Z.le_refl 0) Net.number_layout).
  - reflexivity.
  - reflexivity.
  - reflexivity.
  - reflexivity.
  - intros o' Ho'. specialize (Ho' _ (list_elem_of_here _ _)). change (o' = 77) in Ho'. subst o'.
    split; [apply list.Forall_cons_2; [vm_compute; split; congruence|apply list.Forall_nil_2]|vm_compute; congruence].
  - intros o1 o2 x Hs Hx. apply list_elem_of_singleton in Hx as ->. specialize (Hs _ (list_elem_of_here _ _)). unfold fget in Hs. cbn in Hs. exact (eq_sym Hs).
  - apply Net.n0_ok.
  - vm_compute. reflexivity.
  - vm_compute. reflexivity.
  - reflexivity.
  - exists s1, pkt. split; [exact E1|]. split; [exact W1|]. rewrite E2.
    specialize (Ho _ (list_elem_of_here _ _)). change (o' = 77) in Ho. subst o'. vm_compute. reflexivity.
Defined.
