(* ===== verification/Util.v ===== *)
(** * Utilities (util.c)

    Housekeeping of directories and what the board says of itself.
    [UTIL_cleanup_dir] keeps the newest files of a directory: it walks the
    entries once, with a heap (PriorityQueue.v) of as many records as files are
    kept, and reuses the record of the file that falls out.  The records are a
    memory of their own, addressed as the array they are: record [n] is at
    address [n], and a write past the array is a fault. *)

From stdpp Require Import base gmap list sets numbers.
From Stdlib Require Import ZArith Lia.
From Stdlib Require String Ascii.
From S2P Require Import Prelude Words CStr PriorityQueue.
Open Scope Z_scope.

Abbreviation str := (list Z).

Definition ENOMEM : Z := 12.
Definition INT_MAX : Z := 2 ^ 31 - 1.

(** ** Cleaning a directory *)

(** [struct CleanupState], with the name of the entry. *)
Record CleanupState := CS { cs_name : str; score : timeval; cs_pos : nat }.

Abbreviation cleanup_mem := (gmap ptr CleanupState).

Definition get_pri_cleanup_state (m : cleanup_mem) (a : ptr) : timeval :=
  match m !! a with Some r => score r | None => TV 0 0 end.
Definition set_pri_cleanup_state (m : cleanup_mem) (a : ptr) (pri : timeval) : cleanup_mem :=
  alter (fun r => CS (cs_name r) pri (cs_pos r)) a m.
Definition cmp_pri_cleanup_state (next curr : timeval) : bool := timercmp Z.geb next curr.
Definition get_pos_cleanup_state (m : cleanup_mem) (a : ptr) : nat :=
  match m !! a with Some r => cs_pos r | None => 0%nat end.
Definition set_pos_cleanup_state (m : cleanup_mem) (a : ptr) (pos : nat) : cleanup_mem :=
  alter (fun r => CS (cs_name r) (score r) pos) a m.

#[export] Instance cleanup_elem : PQElem cleanup_mem.
Proof.
  refine {| getpri := get_pri_cleanup_state; setpri := set_pri_cleanup_state; getpos := get_pos_cleanup_state;
            setpos := set_pos_cleanup_state; live := fun m p => is_Some (m !! p) |}.
  - intros m p n x. unfold get_pri_cleanup_state, set_pos_cleanup_state. rewrite lookup_alter.
    case_decide; [subst|done]. by destruct (m !! x).
  - intros m p t x. unfold get_pos_cleanup_state, set_pri_cleanup_state. rewrite lookup_alter.
    case_decide; [subst|done]. by destruct (m !! x).
  - intros m p n x Hne. unfold get_pos_cleanup_state, set_pos_cleanup_state. by rewrite lookup_alter_ne.
  - intros m p n x. unfold set_pos_cleanup_state. by rewrite lookup_alter_is_Some.
  - intros m p t x. unfold set_pri_cleanup_state. by rewrite lookup_alter_is_Some.
Defined.

#[export] Instance cleanup_pqpos : PQPos cleanup_mem.
Proof.
  split.
  - intros m p t x [e He]. simpl. unfold get_pri_cleanup_state, set_pri_cleanup_state. rewrite lookup_alter.
    repeat case_decide; try done; subst; by rewrite He.
  - intros m p n x [e He]. simpl. unfold get_pos_cleanup_state, set_pos_cleanup_state. rewrite lookup_alter.
    repeat case_decide; try done; subst; by rewrite He.
Qed.

#[export] Instance cleanup_cmp : CmpSpec cmp_pri_cleanup_state := geb_cmp.

Definition DOT : str := [46].
Definition DOTDOT : str := [46; 46].

Section Cleanup.
Context {W : Type}.
(** The time a file was changed, the score the program gives it, and whether
    there is memory for the name of a file to delete. *)
Context (stat : str -> option Z) (modtime_cb : option (str -> str -> Z -> timeval)) (node_ok : str -> bool).
(** Deleting a file, and what is told of it. *)
Context (unlink : str -> W -> bool * W) (del_cb : option (str -> W -> W)).

(** Entries that are not looked at. *)
Definition skipped (ignore_hidden : bool) (name : str) : bool :=
  bool_decide (name = DOT) || bool_decide (name = DOTDOT) || (ignore_hidden && (hd 0 name =? 46)).

Definition score_of (base name : str) : option timeval :=
  mtime ← stat (base ++ name);
  Some (match modtime_cb with Some cb => cb name (base ++ name) mtime | None => TV mtime 0 end).

(** The loop over the entries, with the next record to use and the files to
    delete; [None] is a write outside the records, [Some None] the way out when
    the queue has nothing to give. *)
Fixpoint cleanup_loop (base : str) (max : nat) (hidden : bool) (ents : list str) (m : cleanup_mem) (q : ps_pqueue_t)
    (next_rec : ptr) (unlinks : list str) : option (option (list str)) :=
  match ents with
  | [] => Some (Some unlinks)
  | name :: ents' =>
      r ← m !! next_rec;
      let m1 := <[next_rec := CS name (score r) (cs_pos r)]> m in
      if skipped hidden name then cleanup_loop base max hidden ents' m1 q next_rec unlinks
      else
        match score_of base name with
        | None => cleanup_loop base max hidden ents' m1 q next_rec unlinks
        | Some sc =>
            let m2 := <[next_rec := CS name sc (cs_pos r)]> m in
            let '(_, m3, q3) := ps_pqueue_insert cmp_pri_cleanup_state false m2 (Some q) next_rec in
            q3 ← q3;
            if (max <? ps_pqueue_size q3)%nat then
              match ps_pqueue_pop cmp_pri_cleanup_state m3 (Some q3) with
              | (Some p, m4, Some q4) =>
                  old ← m4 !! p;
                  let path := base ++ cs_name old in
                  cleanup_loop base max hidden ents' m4 q4 p (if node_ok path then path :: unlinks else unlinks)
              | _ => Some None
              end
            else cleanup_loop base max hidden ents' m3 q3 (Pos.succ next_rec) unlinks
        end
  end.

Fixpoint unlink_all (l : list str) (w : W) : W :=
  match l with
  | [] => w
  | f :: l' =>
      let '(ok, w1) := unlink f w in
      unlink_all l' (if ok then match del_cb with Some cb => cb f w1 | None => w1 end else w1)
  end.

(** The path that the names are put behind; [c] is its last character. *)
Definition dir_base (dn : str) (c : Z) : str := if c =? 47 then dn else dn ++ [47].

(** The array of records, filled with what malloc left there. *)
Definition records (n : nat) (junk : CleanupState) : cleanup_mem :=
  list_to_map ((fun i => (Pos.of_succ_nat i, junk)) <$> seq 0 n).

(** With the outcomes of the allocations, and of [opendir]: an error, or the
    entries and the last result of [readdir_r].  [None] is a fault: the byte
    before the path, a sum over the range of an int, or a write to a record
    that is not there. *)
Definition UTIL_cleanup_dir (dirname : option str) (max_entries : Z) (ignore_hidden : bool)
    (path_ok q_ok d_ok rec_ok : bool) (junk : CleanupState) (dir : Z + list str * Z) (w : W) : option (Z * W) :=
  match dirname with
  | None => Some (0, w)
  | Some dn =>
      let max_entries := if max_entries <=? 0 then 1 else max_entries in
      if negb path_ok then Some (- ENOMEM, w)
      else
        match list.last dn with
        | None => None
        | Some c =>
            let base := dir_base dn c in
            if INT_MAX <? max_entries + 5 then None
            else
            match ps_pqueue_init q_ok d_ok (Z.to_nat (max_entries + 5)) with
            | None => Some (- ENOMEM, w)
            | Some q =>
                match dir with
                | inl errno => Some (- errno, w)
                | inr (ents, res) =>
                    r ← cleanup_loop base (Z.to_nat max_entries) ignore_hidden ents
                          (if rec_ok then records (Z.to_nat (max_entries + 1)) junk else ∅) q 1%positive [];
                    Some (match r with Some l => (res, unlink_all l w) | None => (-1, w) end)
                end
            end
        end
  end.
End Cleanup.

(** ** Directories *)

Section Directories.
Context {W : Type}.
(** Whether a path is there and is a directory, and what the shell does: [None]
    when it cannot be started. *)
Context (stat_dir : str -> W -> option bool) (system : str -> W -> option W).

Definition PATH_MAX : Z := 4096.

Definition UTIL_ensure_dir (toDir : str) (w : W) : bool := match stat_dir toDir w with Some d => d | None => false end.

Definition mkdir_command (toDir : str) : str :=
  take (Z.to_nat (PATH_MAX - 1)) ([109; 107; 100; 105; 114; 32; 45; 112; 32; 34] ++ toDir ++ [34]).

Definition UTIL_ensure_path (toDir : str) (w : W) : bool * W :=
  if UTIL_ensure_dir toDir w then (true, w)
  else match system (mkdir_command toDir) w with
       | None => (false, w)
       | Some w' => (UTIL_ensure_dir toDir w', w')
       end.
End Directories.

(** ** The board *)

Import String.StringSyntax.

Definition INTREPID : str := bytes_of "PolySat Avionics Board, version 1".
Definition DEV : str := bytes_of "Atmel AT91SAM9G20-EK 2 MMC Slot Mod".

Definition ULONG_MAX : Z := 2 ^ 64 - 1.
Definition BOARD_TYPE_UNKNOWN : Z := 4660.
Definition BOARD_TYPE_INTREPID : Z := 29461.
Definition BOARD_TYPE_DEV : Z := 57005.

(** Blanks at the end, and at both ends. *)
Fixpoint strip_space (s : str) : str :=
  match s with
  | [] => []
  | c :: s' => match strip_space s' with [] => if isspace c then [] else [c] | r => c :: r end
  end.
Definition trim (s : str) : str := strip_space (after_spaces s).

(** The label and the value of a line that [fgets] read. *)
Definition cpuinfo_line (inb : str) : option (str * str) :=
  match strchr 58 (cstr inb) with
  | (_, None) => None
  | (label, Some value) => Some (trim label, trim value)
  end.

(** The first line with a label. *)
Fixpoint find_label (label : str) (lines : list str) : option str :=
  match lines with
  | [] => None
  | l :: lines' =>
      match cpuinfo_line l with
      | Some (k, v) => if decide (k = label) then Some v else find_label label lines'
      | None => find_label label lines'
      end
  end.

Definition SERIAL : str := bytes_of "Serial".
Definition HARDWARE : str := bytes_of "Hardware".

(** The result and the static variable; [file] is /proc/cpuinfo in the lines of
    [fgets], or [None] when it cannot be opened. *)
Definition UTIL_board_sn (serialNum : Z) (file : option (list str)) : Z * Z :=
  if negb (serialNum =? ULONG_MAX) then (serialNum, serialNum)
  else match file with
       | None => (0, serialNum)
       | Some lines =>
           let n := match find_label SERIAL lines with Some v => u64 (strtol v 16).1 | None => serialNum end in (n, n)
       end.

Definition UTIL_board_type (boardType : Z) (file : option (list str)) : Z * Z :=
  if negb (boardType =? BOARD_TYPE_UNKNOWN) then (boardType, boardType)
  else match file with
       | None => (0, boardType)
       | Some lines =>
           let n := match find_label HARDWARE lines with
                    | Some v => if decide (v = INTREPID) then BOARD_TYPE_INTREPID
                                else if decide (v = DEV) then BOARD_TYPE_DEV else boardType
                    | None => boardType
                    end in (n, n)
       end.

(** ** What is kept *)

(** The records without their positions. *)
Definition strip_pos (m : cleanup_mem) : gmap ptr (str * timeval) := (fun r => (cs_name r, score r)) <$> m.

Lemma lookup_strip m x : strip_pos m !! x = (fun r => (cs_name r, score r)) <$> m !! x.
Proof. apply lookup_fmap. Qed.

#[export] Instance strip_frame : PosFrame (fun m m' : cleanup_mem => strip_pos m' = strip_pos m).
Proof.
  split; [done|congruence|]. intros m p n. apply map_eq. intros x. cbn. unfold set_pos_cleanup_state.
  rewrite !lookup_strip, lookup_alter. case_decide; [subst|done]. by destruct (m !! x).
Qed.

Lemma strip_live m m' x : strip_pos m' = strip_pos m -> is_Some (m !! x) -> is_Some (m' !! x).
Proof.
  intros H Hx. assert (E : strip_pos m' !! x = strip_pos m !! x) by (by rewrite H). rewrite !lookup_strip in E.
  destruct (m !! x); [|by destruct Hx]. destruct (m' !! x); [by eexists|done].
Qed.

(** The files that the records of a list describe. *)
Definition files (m : cleanup_mem) (l : list ptr) : list (str * timeval) := omap (fun p => strip_pos m !! p) l.

Lemma files_ext m m' l : (forall x, x ∈ l -> strip_pos m' !! x = strip_pos m !! x) -> files m' l = files m l.
Proof.
  induction l as [|x l IH]; intros H; [done|]. unfold files in *. cbn [omap list_omap].
  rewrite (H x (list_elem_of_here _ _)), IH; [done|]. intros y Hy. apply H. by right.
Qed.

Lemma files_perm m l l' : l ≡ₚ l' -> files m l ≡ₚ files m l'.
Proof. intros H. unfold files. by rewrite H. Qed.

Lemma elem_files m l f : f ∈ files m l <-> exists p, p ∈ l /\ strip_pos m !! p = Some f.
Proof. apply list_elem_of_omap. Qed.

Lemma files_length m l : (forall x, x ∈ l -> is_Some (m !! x)) -> length (files m l) = length l.
Proof.
  induction l as [|x l IH]; intros H; [done|]. unfold files in *. cbn [omap list_omap]. rewrite lookup_strip.
  destruct (H x (list_elem_of_here _ _)) as [r ->]. cbn [fmap option_fmap option_map length]. f_equal. apply IH. intros y Hy. apply H. by right.
Qed.

Section Kept.
Context (stat : str -> option Z) (modtime_cb : option (str -> str -> Z -> timeval)).
Context (node_ok : str -> bool) (base : str) (max : nat) (hidden : bool).

Abbreviation loop := (cleanup_loop stat modtime_cb node_ok base max hidden).

(** The paths of the files to delete that there was memory for. *)
Definition to_unlink (gone : list (str * timeval)) : list str := filter (fun p => node_ok p = true) ((fun g => base ++ g.1) <$> gone).

(** The entries that count, with their scores. *)
Definition considered (ents : list str) : list (str * timeval) :=
  omap (fun n => if skipped hidden n then None else pair n <$> score_of stat modtime_cb base n) ents.

(** The walk after the entries [done]: the heap has the newest of them, as many
    as there is room for, and none older than one that is to be deleted; the
    next record is inside the array and not in the heap. *)
Definition walked (done : list (str * timeval)) (m : cleanup_mem) (q : ps_pqueue_t) (next_rec : ptr) (gone : list (str * timeval)) : Prop :=
  pq_wf m q /\ avail q = (max + 6)%nat /\ (length (contents q) <= max)%nat /\
  (forall i, (i <= max)%nat -> is_Some (m !! Pos.of_succ_nat i)) /\ is_Some (m !! next_rec) /\ next_rec ∉ contents q /\
  ((length (contents q) < max)%nat ->
     gone = [] /\ next_rec = Pos.of_succ_nat (length (contents q)) /\ forall x, x ∈ contents q -> (x < next_rec)%positive) /\
  done ≡ₚ files m (contents q) ++ gone /\
  (forall k g, k ∈ files m (contents q) -> g ∈ gone -> tv_le g.2 k.2).

Lemma contents_length m q : pq_wf m q -> length (contents q) = ps_pqueue_size q.
Proof.
  intros ((Hs & _) & _). pose proof (cells_bounds _ Hs). unfold contents, ps_pqueue_size. rewrite length_take, length_drop. lia.
Qed.

(** Writing to the next record changes none that counts. *)
Lemma write_walked l m q next_rec gone r :
  walked l m q next_rec gone -> walked l (<[next_rec := r]> m) q next_rec gone.
Proof.
  intros (H1 & H2 & H3 & H4 & H5 & H6 & H7 & H8 & H9). set (m' := <[next_rec := r]> m).
  assert (Hx : forall x, x ∈ contents q -> m' !! x = m !! x) by (intros x Hx; apply lookup_insert_ne; congruence).
  assert (Hf : files m' (contents q) = files m (contents q)) by (apply files_ext; intros x Hxq; by rewrite !lookup_strip, Hx).
  split_and!; try done.
  - eapply pq_wf_untouched; [exact H1|]. intros x Hxq. cbn. unfold get_pri_cleanup_state, get_pos_cleanup_state. rewrite (Hx x Hxq). done.
  - intros i Hi. apply lookup_insert_is_Some. destruct (decide (next_rec = Pos.of_succ_nat i)); [by left|]. right. by split; [|apply H4].
  - apply lookup_insert_is_Some. by left.
  - by rewrite Hf.
  - by rewrite Hf.
Qed.

(** The next record goes into the heap, which has room. *)
Lemma insert_walked l m q next_rec gone :
  walked l m q next_rec gone ->
  exists m3 q3, ps_pqueue_insert cmp_pri_cleanup_state false m (Some q) next_rec = (0, m3, Some q3) /\
    pq_wf m3 q3 /\ avail q3 = avail q /\ contents q3 ≡ₚ next_rec :: contents q /\ strip_pos m3 = strip_pos m.
Proof.
  intros (H1 & H2 & H3 & H4 & H5 & H6 & _). pose proof (contents_length m q H1) as Hl. unfold ps_pqueue_size in Hl.
  pose proof (insert_unfold cmp_pri_cleanup_state false m q next_rec) as E.
  assert (Hs : (avail q <=? size q)%nat = false) by (apply Nat.leb_gt; lia). rewrite Hs in E. cbn [andb] in E.
  set (r := bubble_up cmp_pri_cleanup_state m (appended q next_rec) (size q)) in E. exists r.1, r.2.
  destruct (insert_heap cmp_pri_cleanup_state _ _ _ _ _ _ (proj1 H1) (proj1 (proj2 H1)) E) as (_ & _ & I3 & _).
  split; [exact E|]. split_and!; [|..|exact I3|].
  - by refine (insert_wf cmp_pri_cleanup_state _ _ _ _ _ _ H1 _ H6 E).
  - unfold r, bubble_up. destruct (bubble_up_loop _ _ _ _ _ _) as [[? ?] ?]. cbn [snd avail]. unfold appended, grown. by rewrite Hs.
  - exact (insert_frame cmp_pri_cleanup_state (fun m m' : cleanup_mem => strip_pos m' = strip_pos m) _ _ _ _ _ _ _ E).
Qed.

(** A file that there is room for. *)
Lemma room_walked l m q next_rec gone f m3 q3 :
  walked l m q next_rec gone -> strip_pos m !! next_rec = Some f ->
  pq_wf m3 q3 -> avail q3 = avail q -> contents q3 ≡ₚ next_rec :: contents q -> strip_pos m3 = strip_pos m ->
  (ps_pqueue_size q3 <= max)%nat -> walked (l ++ [f]) m3 q3 (Pos.succ next_rec) gone.
Proof.
  intros (H1 & H2 & H3 & H4 & H5 & H6 & H7 & H8 & H9) Hf Q1 Q2 Q3 Q4 Hsz.
  rewrite <- (contents_length m3 q3 Q1), Q3 in Hsz. cbn [length] in Hsz. destruct (H7 ltac:(lia)) as (-> & Hn & Hlt).
  assert (Hsucc : Pos.succ next_rec = Pos.of_succ_nat (S (length (contents q)))) by (by rewrite Hn).
  assert (Hlive : forall x, is_Some (m !! x) -> is_Some (m3 !! x)) by (intros x; by apply strip_live).
  assert (Hless : forall x, x ∈ contents q3 -> (x < Pos.succ next_rec)%positive).
  { intros x. rewrite Q3, elem_of_cons. intros [->|Hx]; [lia|]. specialize (Hlt x Hx). lia. }
  split_and!.
  - done.
  - congruence.
  - rewrite Q3. cbn [length]. lia.
  - intros i Hi. by apply Hlive, H4.
  - rewrite Hsucc. apply Hlive, H4. lia.
  - intros Hx. specialize (Hless _ Hx). lia.
  - intros _. rewrite Q3. split_and!; [done|exact Hsucc|done].
  - rewrite app_nil_r, (files_perm m3 _ _ Q3). rewrite app_nil_r in H8. rewrite H8. unfold files. rewrite Q4. cbn [omap list_omap]. rewrite Hf.
    apply Permutation_app_comm.
  - intros k g _ Hg. by apply elem_of_nil in Hg.
Qed.

(** A file too many: the oldest falls out, and its record is the next. *)
Lemma full_walked l m q next_rec gone f m3 q3 :
  walked l m q next_rec gone -> strip_pos m !! next_rec = Some f ->
  pq_wf m3 q3 -> avail q3 = avail q -> contents q3 ≡ₚ next_rec :: contents q -> strip_pos m3 = strip_pos m ->
  (max < ps_pqueue_size q3)%nat ->
  exists p m4 q4 old, ps_pqueue_pop cmp_pri_cleanup_state m3 (Some q3) = (Some p, m4, Some q4) /\
    m4 !! p = Some old /\ walked (l ++ [f]) m4 q4 p ((cs_name old, score old) :: gone).
Proof.
  intros (H1 & H2 & H3 & H4 & H5 & H6 & H7 & H8 & H9) Hf Q1 Q2 Q3 Q4 Hsz.
  pose proof (contents_length m3 q3 Q1) as L3. assert (Hlen : length (contents q3) = S (length (contents q))) by (by rewrite Q3).
  assert (Hne : size q3 <> 1%nat) by (unfold ps_pqueue_size in L3; lia).
  pose proof (pop_unfold cmp_pri_cleanup_state m3 q3 Hne) as E. set (p := d q3 !!! 1%nat) in E.
  set (r := percolate_down cmp_pri_cleanup_state m3 (filled q3 1) 1) in E.
  destruct (pop_heap cmp_pri_cleanup_state _ _ _ _ _ (wf_heap _ _ Q1) E) as (_ & P2 & P3 & _ & _ & _ & _ & P8 & _).
  pose proof (pop_wf cmp_pri_cleanup_state _ _ _ _ _ Q1 E) as P1.
  pose proof (pop_frame cmp_pri_cleanup_state (fun m m' : cleanup_mem => strip_pos m' = strip_pos m) _ _ _ _ _ E) as P4.
  assert (Hpk : ps_pqueue_peek (Some q3) = Some p).
  { unfold ps_pqueue_peek. destruct (Nat.eqb_spec (size q3) 1); [done|done]. }
  destruct (peek_min _ _ _ (wf_heap _ _ Q1) Hpk) as [Hin Hmin].
  assert (Hst : strip_pos r.1 = strip_pos m) by congruence.
  assert (Hlive : forall x, is_Some (m !! x) -> is_Some (r.1 !! x)) by (intros x; by apply strip_live).
  assert (Hpl : is_Some (m !! p)).
  { rewrite Q3, elem_of_cons in Hin. destruct Hin as [->|Hin]; [done|]. by destruct (wf_position _ _ _ H1 Hin) as (_ & _ & ?). }
  destruct (Hlive p Hpl) as [old Hold]. exists p, r.1, r.2, old. split; [exact E|]. split; [exact Hold|].
  assert (Hsp : strip_pos m !! p = Some (cs_name old, score old)) by (rewrite <- Hst, lookup_strip, Hold; done).
  assert (Hnd : p ∉ contents r.2).
  { pose proof (contents_NoDup _ _ Q1) as Hn. rewrite P2 in Hn. by apply list.NoDup_cons in Hn as [? _]. }
  assert (Hlen4 : length (contents r.2) = length (contents q)) by (rewrite P2 in Hlen; cbn [length] in Hlen; lia).
  assert (Hfull : length (contents q) = max) by lia.
  assert (Hpri : forall x g, strip_pos m !! x = Some g -> getpri m3 x = g.2).
  { intros x g Hg. rewrite <- Q4, lookup_strip in Hg. cbn. unfold get_pri_cleanup_state. destruct (m3 !! x); [|done]. by injection Hg as <-. }
  split_and!.
  - done.
  - congruence.
  - lia.
  - intros i Hi. by apply Hlive, H4.
  - by eexists.
  - done.
  - lia.
  - assert (Hf3 : files m (contents q3) ≡ₚ f :: files m (contents q)).
    { rewrite (files_perm m _ _ Q3). unfold files. cbn [omap list_omap]. by rewrite Hf. }
    rewrite (files_perm m _ _ P2) in Hf3. unfold files at 1 in Hf3. cbn [omap list_omap] in Hf3. rewrite Hsp in Hf3. fold (files m (contents r.2)) in Hf3.
    rewrite (files_ext m r.1) by (by rewrite Hst). etransitivity; [|apply Permutation_middle].
    change (l ++ [f] ≡ₚ ((cs_name old, score old) :: files m (contents r.2)) ++ gone). rewrite Hf3, H8. cbn [app].
    symmetry. apply Permutation_cons_append.
  - rewrite (files_ext m r.1) by (by rewrite Hst). intros k g Hk Hg. apply elem_files in Hk as (x & Hx & Hxk).
    assert (Hx3 : x ∈ contents q3) by (rewrite P2; by right).
    pose proof (Hmin x Hx3) as Hle. rewrite (Hpri x k Hxk), (Hpri p _ Hsp) in Hle. cbn [snd] in Hle.
    apply elem_of_cons in Hg as [->|Hg]; [exact Hle|].
    rewrite Q3, elem_of_cons in Hin. destruct Hin as [Hpn|Hpq].
    + apply (H9 k g); [|done]. apply elem_files. exists x. split; [|done].
      rewrite Q3, elem_of_cons in Hx3. destruct Hx3 as [->|?]; [by rewrite Hpn in Hnd|done].
    + eapply tv_le_trans; [|exact Hle]. apply (H9 (cs_name old, score old) g); [|done]. apply elem_files. by exists p.
Qed.

(** What a walk may end with. *)
Definition cleanup_outcome (all kept gone : list (str * timeval)) : Prop :=
  all ≡ₚ kept ++ gone /\ length kept = Nat.min max (length all) /\ (forall k g, k ∈ kept -> g ∈ gone -> tv_le g.2 k.2).

Lemma walked_cleanup l m q next_rec gone : walked l m q next_rec gone -> cleanup_outcome l (files m (contents q)) gone.
Proof.
  intros (H1 & H2 & H3 & H4 & H5 & H6 & H7 & H8 & H9). split; [done|]. split; [|done].
  assert (Hl : length (files m (contents q)) = length (contents q)).
  { apply files_length. intros x Hx. by destruct (wf_position _ _ _ H1 Hx) as (_ & _ & ?). }
  rewrite H8, length_app, Hl. destruct (decide (length (contents q) < max)%nat) as [Hlt|]; [|lia].
  destruct (H7 Hlt) as (-> & _). cbn [length]. lia.
Qed.

Lemma loop_walked ents : forall l m q next_rec gone, walked l m q next_rec gone ->
  exists kept gone', loop ents m q next_rec (to_unlink gone) = Some (Some (to_unlink gone')) /\ cleanup_outcome (l ++ considered ents) kept gone'.
Proof.
  induction ents as [|name ents IH]; intros l m q nr gone Hw.
  - exists (files m (contents q)), gone. split; [done|]. unfold considered. cbn. rewrite app_nil_r. by eapply walked_cleanup.
  - pose proof Hw as (_ & _ & _ & _ & [r Hr] & _). cbn [cleanup_loop]. rewrite Hr. cbn [mbind option_bind].
    assert (Hskip : considered (name :: ents) = considered ents ->
      exists kept gone', loop ents (<[nr := CS name (score r) (cs_pos r)]> m) q nr (to_unlink gone) = Some (Some (to_unlink gone')) /\
        cleanup_outcome (l ++ considered (name :: ents)) kept gone').
    { intros ->. apply IH, write_walked, Hw. }
    assert (Hcons : considered (name :: ents) = match (if skipped hidden name then None else pair name <$> score_of stat modtime_cb base name) with
      Some f => f :: considered ents | None => considered ents end) by done.
    destruct (skipped hidden name); [by apply Hskip|]. destruct (score_of _ _ _ _) as [sc|]; [|by apply Hskip].
    cbn [fmap option_fmap option_map] in Hcons. rewrite Hcons, cons_middle, (assoc_L (++)).
    set (m2 := <[nr := CS name sc (cs_pos r)]> m). pose proof (write_walked _ _ _ _ _ (CS name sc (cs_pos r)) Hw) as Hw2. fold m2 in Hw2.
    assert (Hf : strip_pos m2 !! nr = Some (name, sc)) by (unfold m2; by rewrite lookup_strip, lookup_insert_eq).
    destruct (insert_walked _ _ _ _ _ Hw2) as (m3 & q3 & -> & Q1 & Q2 & Q3 & Q4). cbn [mbind option_bind]. destruct (Nat.ltb_spec max (ps_pqueue_size q3)) as [Hlt|Hge].
    + destruct (full_walked _ _ _ _ _ _ _ _ Hw2 Hf Q1 Q2 Q3 Q4 Hlt) as (p & m4 & q4 & old & -> & -> & Hw4). cbn [mbind option_bind].
      destruct (IH _ _ _ _ _ Hw4) as (kept & gone' & E & O). exists kept, gone'. split; [|exact O]. rewrite <- E. f_equal.
      unfold to_unlink. cbn [fmap list_fmap]. rewrite filter_cons. cbn [fst]. by destruct (node_ok _).
    + exact (IH _ _ _ _ _ (room_walked _ _ _ _ _ _ _ _ Hw2 Hf Q1 Q2 Q3 Q4 Hge)).
Qed.
End Kept.

(** ** The start of the walk *)

Lemma record_live n junk i : (i < n)%nat -> is_Some (records n junk !! Pos.of_succ_nat i).
Proof.
  intros Hi. unfold records. exists junk. apply elem_of_list_to_map_1.
  - rewrite <- list_fmap_compose. apply NoDup_fmap_2; [|apply NoDup_seq]. intros a b H. cbn in H. lia.
  - apply list_elem_of_fmap. exists i. split; [done|]. apply elem_of_seq. lia.
Qed.

Lemma start_walked max junk q : (1 <= max)%nat -> ps_pqueue_init true true (max + 5) = Some q ->
  walked max [] (records (max + 1) junk) q 1%positive [].
Proof.
  intros Hm [= <-]. set (m := records _ junk). set (q := PQ _ _ _ _).
  assert (Hw : pq_wf m q).
  { unfold q. split; [|split]; [|intros j H1 H2; cbn [size] in H2; lia..].
    unfold pq_shape, pq_cells. cbn [size d avail step]. rewrite length_replicate. lia. }
  assert (Hc : contents q = []) by done. unfold walked. rewrite Hc.
  split_and!; try done.
  - cbn. lia.
  - cbn. lia.
  - intros i Hi. apply record_live. lia.
  - apply (record_live _ junk 0). lia.
  - apply not_elem_of_nil.
  - intros _. split_and!; [done..|]. intros x Hx. by apply elem_of_nil in Hx.
  - intros k g Hk. by apply elem_of_nil in Hk.
Qed.

(** C33. [UTIL_cleanup_dir] on a directory with a name and with memory keeps
    the newest files and deletes the others: of the entries that count (not
    hidden, and with a time), [max_entries] are kept (one, if it is less than
    1) or all if there are fewer, no deleted file is newer than a kept one,
    the files to delete are unlinked (those whose path there was memory for)
    after the directory was read to its end, the result is that of the last
    [readdir_r], and no write goes past the array of [max_entries + 1]
    records. *)
Theorem cleanup_keeps_newest {W} stat modtime_cb node_ok (unlink : str -> W -> bool * W) del_cb
    dn c max_entries hidden junk ents res w :
  list.last dn = Some c -> max_entries + 5 <= INT_MAX ->
  let base := dir_base dn c in
  let max := Z.to_nat (Z.max 1 max_entries) in
  let all := considered stat modtime_cb base hidden ents in
  exists kept gone,
    UTIL_cleanup_dir stat modtime_cb node_ok unlink del_cb (Some dn) max_entries hidden true true true true junk (inr (ents, res)) w =
      Some (res, unlink_all unlink del_cb (to_unlink node_ok base gone) w) /\
    all ≡ₚ kept ++ gone /\ length kept = Nat.min max (length all) /\
    (forall k g, k ∈ kept -> g ∈ gone -> tv_le g.2 k.2).
Proof.
  intros Hl Hmax base max all. unfold UTIL_cleanup_dir. rewrite Hl. cbn [negb]. fold base.
  assert (E : (if max_entries <=? 0 then 1 else max_entries) = Z.max 1 max_entries) by (destruct (Z.leb_spec max_entries 0); lia).
  rewrite E. assert (Hov : (INT_MAX <? Z.max 1 max_entries + 5) = false) by (apply Z.ltb_ge; unfold INT_MAX in *; lia). rewrite Hov. fold max.
  replace (Z.to_nat (Z.max 1 max_entries + 5)) with (max + 5)%nat by lia.
  replace (Z.to_nat (Z.max 1 max_entries + 1)) with (max + 1)%nat by lia.
  destruct (ps_pqueue_init true true (max + 5)) as [q|] eqn:Eq; [|done].
  destruct (loop_walked stat modtime_cb node_ok base max hidden ents _ _ _ _ _ (start_walked max junk q ltac:(lia) Eq)) as (kept & gone & El & O).
  exists kept, gone. split; [|exact O]. change (to_unlink node_ok base []) with (@nil str) in El. by rewrite El.
Qed.

(** Five entries of which the two newest are kept: the hidden one does not
    count, and the one without a time is passed over. *)
Definition demo_stat (p : str) : option Z := match list.last p with Some 120 => None | Some n => Some n | None => None end.
Definition demo_unlink (p : str) (w : list str) : bool * list str := (true, p :: w).

Lemma cleanup_keeps_newest_witness :
  (exists kept gone,
    UTIL_cleanup_dir demo_stat None (fun _ => true) demo_unlink None (Some [100]) 2 true true true true true
      (CS [] (TV 0 0) 0) (inr ([[46]; [101]; [105]; [120]; [102]; [46; 99]; [104]; [46; 46]], 0)) [] =
      Some (0, unlink_all demo_unlink None (to_unlink (fun _ => true) [100; 47] gone) []) /\
    considered demo_stat None [100; 47] true [[46]; [101]; [105]; [120]; [102]; [46; 99]; [104]; [46; 46]] ≡ₚ kept ++ gone /\
    length kept = 2%nat /\ (forall k g, k ∈ kept -> g ∈ gone -> tv_le g.2 k.2)) /\
  UTIL_cleanup_dir demo_stat None (fun _ => true) demo_unlink None (Some [100]) 2 true true true true true
      (CS [] (TV 0 0) 0) (inr ([[46]; [101]; [105]; [120]; [102]; [46; 99]; [104]; [46; 46]], 0)) [] =
    Some (0, [[100; 47; 101]; [100; 47; 102]]).
Proof.
  split; [|vm_compute; reflexivity].
  exact (cleanup_keeps_newest demo_stat None (fun _ => true) demo_unlink None [100] 100 2 true (CS [] (TV 0 0) 0)
    [[46]; [101]; [105]; [120]; [102]; [46; 99]; [104]; [46; 46]] 0 [] eq_refl ltac:(vm_compute; discriminate)).
Defined.

(** The allocation of the records is not looked at: without memory for them the
    first entry is written through a null pointer. *)
Lemma records_not_checked {W} stat modtime_cb node_ok (unlink : str -> W -> bool * W) del_cb dn c max_entries hidden junk name ents res w :
  list.last dn = Some c ->
  UTIL_cleanup_dir stat modtime_cb node_ok unlink del_cb (Some dn) max_entries hidden true true true false junk (inr (name :: ents, res)) w = None.
Proof.
  intros Hl. unfold UTIL_cleanup_dir. rewrite Hl. cbn [negb]. by destruct (INT_MAX <? _).
Qed.

(** An empty name reads the byte before the path. *)
Lemma empty_name_faults {W} stat modtime_cb node_ok (unlink : str -> W -> bool * W) del_cb max_entries hidden q_ok d_ok rec_ok junk dir w :
  UTIL_cleanup_dir stat modtime_cb node_ok unlink del_cb (Some []) max_entries hidden true q_ok d_ok rec_ok junk dir w = None.
Proof. done. Qed.

(** ** The lines of /proc/cpuinfo *)

Definition blank (s : str) : Prop := Forall (fun c => isspace c = true) s.
Definition no_space_ends (s : str) : Prop :=
  (forall c, list.head s = Some c -> isspace c = false) /\ (forall c, list.last s = Some c -> isspace c = false).

Lemma strip_space_blank b : blank b -> strip_space b = [].
Proof. induction 1 as [|c b Hc _ IH]; [done|]. cbn [strip_space]. by rewrite IH, Hc. Qed.

Lemma strip_space_app s b : blank b -> strip_space (s ++ b) = strip_space s.
Proof. intros Hb. induction s as [|c s IH]; [by apply strip_space_blank|]. cbn [strip_space app]. by rewrite IH. Qed.

Lemma strip_space_id s : (forall c, list.last s = Some c -> isspace c = false) -> strip_space s = s.
Proof.
  induction s as [|c s IH]; intros H; [done|]. cbn [strip_space]. destruct s as [|c' s].
  - cbn. by rewrite (H c eq_refl).
  - rewrite IH; [done|]. intros x Hx. by apply H.
Qed.

Lemma after_spaces_app b s : blank b -> after_spaces (b ++ s) = after_spaces s.
Proof. induction 1 as [|c b Hc _ IH]; [done|]. cbn [after_spaces app]. by rewrite Hc. Qed.

Lemma trim_blanks b s b' : blank b -> blank b' -> no_space_ends s -> trim (b ++ s ++ b') = s.
Proof.
  intros Hb Hb' [Hh Hl]. unfold trim. rewrite after_spaces_app by done. destruct s as [|c s].
  - rewrite (app_nil_l b'), <- (app_nil_r b'), after_spaces_app by done. done.
  - cbn [after_spaces app]. rewrite (Hh c eq_refl), app_comm_cons, strip_space_app by done. by apply strip_space_id.
Qed.

(** A line, however it is padded, gives its label and its value. *)
Lemma cpuinfo_line_parts b1 k b2 b3 v b4 :
  blank b1 -> blank b2 -> blank b3 -> blank b4 -> no_space_ends k -> no_space_ends v -> 58 ∉ k ->
  Forall (fun c => c <> 0) (k ++ v) ->
  cpuinfo_line ((b1 ++ k ++ b2) ++ 58 :: b3 ++ v ++ b4) = Some (k, v).
Proof.
  intros H1 H2 H3 H4 Hk Hv Hc [Z1 Z2]%list.Forall_app. unfold cpuinfo_line.
  assert (Hb : forall b, blank b -> Forall (fun c => c <> 0) b /\ 58 ∉ b).
  { intros b Hb. unfold blank in Hb. rewrite list.Forall_forall in Hb. split; [apply list.Forall_forall|].
    - intros c Hin ->. by specialize (Hb _ Hin).
    - intros Hin. by specialize (Hb _ Hin). }
  rewrite cstr_plain.
  - rewrite strchr_app; [by rewrite !trim_blanks|]. rewrite !elem_of_app. naive_solver.
  - rewrite !list.Forall_app, list.Forall_cons, !list.Forall_app. naive_solver.
Qed.

(** The first line with the label decides, whatever follows. *)
Lemma find_label_first label before l after v :
  Forall (fun x => forall k v, cpuinfo_line x = Some (k, v) -> k <> label) before -> cpuinfo_line l = Some (label, v) ->
  find_label label (before ++ l :: after) = Some v.
Proof.
  intros Hb Hl. induction Hb as [|x before Hx _ IH].
  - cbn [find_label app]. rewrite Hl. by destruct (decide (label = label)).
  - cbn [find_label app]. rewrite IH. destruct (cpuinfo_line x) as [[k u]|]; [|done]. destruct (decide (k = label)) as [E|]; [|done].
    by destruct (Hx k u eq_refl).
Qed.

(** The serial number is read once. *)
Lemma board_sn_cached sn file file' : sn <> ULONG_MAX -> UTIL_board_sn (UTIL_board_sn sn file).2 file' = (sn, sn).
Proof. intros H. unfold UTIL_board_sn. rewrite (proj2 (Z.eqb_neq _ _) H). cbn. by rewrite (proj2 (Z.eqb_neq _ _) H). Qed.

(** A file with no serial line gives [ULONG_MAX] and not 0. *)
Lemma board_sn_missing : UTIL_board_sn ULONG_MAX (Some [bytes_of "Hardware : none"]) = (ULONG_MAX, ULONG_MAX).
Proof. by vm_compute. Qed.

Lemma board_sn_read : UTIL_board_sn ULONG_MAX (Some [bytes_of "Hardware : none"; bytes_of "Serial		: 000000000000002a "]) = (42, 42).
Proof. by vm_compute. Qed.

(** A quote in the path ends the argument that the shell is given. *)
Lemma mkdir_not_quoted : mkdir_command (bytes_of "a" ++ [34] ++ bytes_of "; reboot " ++ [34]) =
  bytes_of "mkdir -p " ++ [34] ++ bytes_of "a" ++ [34] ++ bytes_of "; reboot " ++ [34; 34].
Proof. by vm_compute. Qed.

(** [UTIL_ensure_path] says yes only when the directory is there afterwards,
    and does not call the shell when it was there before. *)
Lemma ensure_path_sound {W} (stat_dir : str -> W -> option bool) system toDir w r w' :
  UTIL_ensure_path stat_dir system toDir w = (r, w') -> r = true -> UTIL_ensure_dir stat_dir toDir w' = true.
Proof.
  unfold UTIL_ensure_path. destruct (UTIL_ensure_dir stat_dir toDir w) eqn:E; [intros [= <- <-]; done|].
  destruct (system _ w); intros [= <- <-]; [done|done].
Qed.
