(* ===== verification/FdTurn.v ===== *)
(** * A descriptor event as its callback sees it (events.c)

    What [evt_process_fd_event] does to the table around a callback: the entry is
    marked as running and counted before it; after it the entry is unmarked, and
    removed if the callback asked for that and did not register again.  Shared by
    the components whose callbacks are modelled without the whole loop. *)

From stdpp Require Import base gmap sets list numbers sorting.
From Stdlib Require Import ZArith Lia.
From S2P Require Import Prelude Sched FdEvents EventLoop.
Open Scope Z_scope.

Definition fd_entered (t : fds) (f : Z) (e : fd_event) : fds := put_entry t f (fun n => count_entry n e).

Definition fd_returned (t : fds) (f : Z) (e : fd_event) (r : Z) : fds :=
  match entry t f with
  | None => t
  | Some n =>
      let t0 := put_entry t f (fun n => with_einCallback n e 0) in
      if (get (einCallback n) e =? 3) || ((r =? EVENT_REMOVE) && (get (einCallback n) e =? 1)) then remove_at t0 f e else t0
  end.

Lemma fd_entered_wf t f e n : fd_wf t -> 0 <= f -> entry t f = Some n -> has (Some n) e = true ->
  fd_wf (fd_entered t f e) /\ entry (fd_entered t f e) f = Some (count_entry n e) /\
  (forall x, x <> f -> entry (fd_entered t f e) x = entry t x).
Proof.
  intros Hw Hf E Hcb. apply (put_entry_wf t f n (fun n => count_entry n e) Hw Hf E). destruct (entry_is_ok t f n Hw E) as [Hone Hrun].
  split_and!; try done. split; [exact Hone|]. intros e' He'. cbn [count_entry einCallback] in He'. rewrite get_set in He'.
  case_decide as Ee; [subst; exact Hcb|exact (Hrun e' He')].
Qed.

Lemma fd_returned_wf t f e n r : fd_wf t -> 0 <= f -> entry t f = Some n ->
  fd_wf (fd_returned t f e r) /\ entry (fd_returned t f e r) f = after_fd_callback n e r /\
  (forall x, x <> f -> entry (fd_returned t f e r) x = entry t x).
Proof. intros Hw Hf E. unfold fd_returned. rewrite E. exact (fd_return_wf t f e n r Hw Hf E). Qed.

(** A callback that asks for it is gone. *)
Lemma removed_has n e : get (einCallback n) e = 1 -> has (after_fd_callback n e EVENT_REMOVE) e = false.
Proof. intros H. unfold after_fd_callback. rewrite H. change (_ || _) with true. cbv iota. rewrite drop_event_has. by rewrite decide_True. Qed.
