(* ===== verification/ProcSignal.v ===== *)
(** * Signals (proclib.c)

    The signal handler writes the number of a signal to a pipe; the event loop
    calls [signal_fd_cb] when the pipe can be read, which puts the bytes of a
    number together and calls the callbacks registered with [PROC_signal].  A
    callback is a function of the world that also says what it registers.  The
    list of callbacks is walked through a pointer to the link of the current
    one, which the model keeps as the list before it and the list from it on; a
    node that was freed but is still linked is [None], and to reach it is a
    fault.  The pipe has room for every signal, and in runs no read fails. *)

From stdpp Require Import base gmap list numbers sorting.
From Stdlib Require Import ZArith Lia.
From S2P Require Import Prelude Words Sched FdEvents.
Open Scope Z_scope.

(** ** Data *)

(** [struct ProcSignalCB] *)
Record ProcSignalCB := PSCB { ps_cb : Z; ps_arg : Z; sigNum : Z; recvdCnt : Z }.

(** The part of [ProcessData] used here with the static variables of the file;
    [pipe] are the bytes that were written and not read. *)
Record signals := Sig {
  signalWriteFD : Z;
  sigPipe : Z * Z;
  signalCBHead : list (option ProcSignalCB);
  rdBuff : list Z;
  rdLen : Z;
  pipe : list Z;
  sig_fds : fds
}.

(** A call of [PROC_signal], and whether malloc and sigaction succeed. *)
Record sig_request := SReq { rq_sig : Z; rq_cb : Z; rq_arg : Z; rq_malloc : bool; rq_action : bool }.

(** What read returns on the pipe: an error, the end, or at most so many bytes. *)
Inductive rd_result := RdErr (again : bool) | RdEof | RdBytes (n : Z).

(** ** Registration *)

(** The guards of [PROC_signal]. *)
Definition catches (st : signals) : bool := negb (signalWriteFD st =? -1) && (snd (sigPipe st) =? signalWriteFD st).

(** What it puts in front of the list. *)
Definition linked (guard : bool) (r : sig_request) : list (option ProcSignalCB) :=
  if guard && rq_malloc r then [if rq_action r then Some (PSCB (rq_cb r) (rq_arg r) (rq_sig r) 0) else None] else [].

Definition PROC_signal (st : signals) (r : sig_request) : Z * signals :=
  (if catches st && rq_malloc r && rq_action r then 0 else -1,
   Sig (signalWriteFD st) (sigPipe st) (linked (catches st) r ++ signalCBHead st) (rdBuff st) (rdLen st) (pipe st) (sig_fds st)).

(** [setup_signal_fd]; [made] is the pipe or an errno, [cb] and [arg] the
    address of [signal_fd_cb] and of the process. *)
Definition setup_signal_fd (cb arg : Z) (made : Z + Z * Z) (fcntl_ok malloc_ok : bool) (st : signals) : Z * signals :=
  if negb (signalWriteFD st =? -1) then (0, st)
  else
    match made with
    | inl errno => (errno, st)
    | inr p =>
        let st1 := Sig (signalWriteFD st) p (signalCBHead st) (rdBuff st) (rdLen st) (pipe st) (sig_fds st) in
        if negb fcntl_ok then (-1, st1)
        else
          let '(res, t) := EVT_fd_add (sig_fds st) (fst p) FdRead (Some cb) arg malloc_ok in
          (res, Sig (snd p) p (signalCBHead st) (rdBuff st) (rdLen st) (pipe st) (EVT_fd_set_critical t (fst p) false))
    end.

(** ** Delivery *)

(** The handler that the kernel calls. *)
Definition PROC_signal_handler (n : Z) (st : signals) : signals :=
  if negb (signalWriteFD st =? -1)
  then Sig (signalWriteFD st) (sigPipe st) (signalCBHead st) (rdBuff st) (rdLen st) (pipe st ++ le_bytes 4 n) (sig_fds st)
  else st.

Section Delivery.
Context {W : Type}.
(** The callbacks: what is returned, and what is registered meanwhile. *)
Context (call : Z -> Z -> Z -> W -> Z * list sig_request * W).

(** What the calls of [PROC_signal] inside a callback put in front. *)
Definition pushed (guard : bool) (rs : list sig_request) : list (option ProcSignalCB) :=
  foldl (fun l r => linked guard r ++ l) [] rs.

Definition received (n : ProcSignalCB) : ProcSignalCB := PSCB (ps_cb n) (ps_arg n) (sigNum n) (recvdCnt n + 1).

(** The walk: [before] are the nodes up to the link [curr]. *)
Fixpoint signal_walk (guard : bool) (signum : Z) (before rest : list (option ProcSignalCB)) (w : W)
    : option (list (option ProcSignalCB) * W) :=
  match rest with
  | [] => Some (before, w)
  | None :: _ => None
  | Some n :: rest' =>
      if sigNum n =? signum then
        let '(keep, rs, w1) := call (ps_cb n) signum (ps_arg n) w in
        let new := pushed guard rs in
        if keep =? EVENT_REMOVE
        then signal_walk guard signum (match before with [] => [] | _ => new ++ before end) rest' w1
        else signal_walk guard signum (new ++ before ++ [Some (received n)]) rest' w1
      else signal_walk guard signum (before ++ [Some n]) rest' w
  end.

(** [None] is a write before the buffer, or a freed node. *)
Definition signal_fd_cb (rd : rd_result) (st : signals) (w : W) : option (Z * signals * W) :=
  match rd with
  | RdErr false => Some (EVENT_REMOVE, st, w)
  | RdEof => Some (EVENT_REMOVE, st, w)
  | RdErr true =>
      Some (EVENT_KEEP, Sig (signalWriteFD st) (sigPipe st) (signalCBHead st) (rdBuff st) (rdLen st - 1) (pipe st) (sig_fds st), w)
  | RdBytes n =>
      if rdLen st <? 0 then None
      else
        let k := Z.to_nat (Z.min (Z.max 1 n) (4 - rdLen st)) in
        let got := take k (pipe st) in
        let buf := splice (rdBuff st) (rdLen st) got in
        let len := rdLen st + Z.of_nat (length got) in
        let rest := drop k (pipe st) in
        if len =? 4 then
          '(l, w1) ← signal_walk (catches st) (s32 (le_value buf)) [] (signalCBHead st) w;
          Some (EVENT_KEEP, Sig (signalWriteFD st) (sigPipe st) l buf 0 rest (sig_fds st), w1)
        else Some (EVENT_KEEP, Sig (signalWriteFD st) (sigPipe st) (signalCBHead st) buf len rest (sig_fds st), w)
  end.

(** ** Runs *)

(** A signal arrives, or the loop finds the pipe ready and read returns at most
    so many bytes. *)
Inductive sig_step := Arrive (n : Z) | Ready (k : Z).

Fixpoint sig_run (steps : list sig_step) (st : signals) (w : W) : option (signals * W) :=
  match steps with
  | [] => Some (st, w)
  | Arrive n :: steps' => sig_run steps' (PROC_signal_handler n st) w
  | Ready k :: steps' =>
      match pipe st with
      | [] => sig_run steps' st w
      | _ => '(_, st1, w1) ← signal_fd_cb (RdBytes k) st w; sig_run steps' st1 w1
      end
  end.

Definition arrivals (steps : list sig_step) : list Z := omap (fun s => match s with Arrive n => Some n | Ready _ => None end) steps.

(** ** Specification *)

(** A signal: every callback for it is called once, in order; those that say so
    are removed; what they register comes in front and is not called yet. *)
Fixpoint delivered_to (signum : Z) (l : list ProcSignalCB) (w : W) : list ProcSignalCB * list (option ProcSignalCB) * W :=
  match l with
  | [] => ([], [], w)
  | n :: l' =>
      if sigNum n =? signum then
        let '(keep, rs, w1) := call (ps_cb n) signum (ps_arg n) w in
        let '(kept, new, w2) := delivered_to signum l' w1 in
        (if keep =? EVENT_REMOVE then kept else received n :: kept, new ++ pushed true rs, w2)
      else
        let '(kept, new, w2) := delivered_to signum l' w in (n :: kept, new, w2)
  end.

Definition deliver (s : list ProcSignalCB * W) (signum : Z) : list ProcSignalCB * W :=
  let '(kept, new, w) := delivered_to signum s.1 s.2 in (omap id new ++ kept, w).

(** What the callbacks must not do: register while they ask to be removed, or
    name a signal that cannot be caught. *)
Class TidyCallbacks : Prop := {
  removed_quietly c n a w : (call c n a w).1.1 = EVENT_REMOVE -> (call c n a w).1.2 = [];
  caught c n a w : Forall (fun r => rq_action r = true) (call c n a w).1.2
}.
End Delivery.

Section Delivered.
Context {W : Type} (call : Z -> Z -> Z -> W -> Z * list sig_request * W) `{!TidyCallbacks call}.

Lemma pushed_live g rs : Forall (fun r => rq_action r = true) rs -> pushed g rs = Some <$> omap id (pushed g rs).
Proof.
  unfold pushed. assert (H0 : (@nil (option ProcSignalCB)) = Some <$> omap id []) by done. revert H0. generalize (@nil (option ProcSignalCB)).
  induction rs as [|r rs IH]; intros l Hl H; [done|]. inversion H as [|? ? Hr Hrs]; subst. cbn [foldl]. apply IH; [|done].
  unfold linked. rewrite Hr. destruct (g && rq_malloc r); [|done]. cbn. by rewrite <- Hl.
Qed.

Lemma delivered_live signum l w : let '(_, new, _) := delivered_to call signum l w in new = Some <$> omap id new.
Proof.
  revert w. induction l as [|n l IH]; intros w; [done|]. cbn [delivered_to]. destruct (sigNum n =? signum).
  - pose proof (caught call (ps_cb n) signum (ps_arg n) w) as Hc. destruct (call _ _ _ w) as [[keep rs] w1]. specialize (IH w1).
    destruct (delivered_to call signum l w1) as [[kept new] w2]. cbn in Hc. by rewrite omap_app, fmap_app, <- IH, <- pushed_live.
  - specialize (IH w). by destruct (delivered_to call signum l w) as [[kept new] w2].
Qed.

Lemma walk_delivers signum l : forall before w,
  signal_walk call true signum before (Some <$> l) w =
    let '(kept, new, w') := delivered_to call signum l w in Some (new ++ before ++ (Some <$> kept), w').
Proof.
  induction l as [|n l IH]; intros before w; [cbn; by rewrite app_nil_r|]. cbn [signal_walk delivered_to fmap list_fmap].
  destruct (sigNum n =? signum).
  - pose proof (removed_quietly call (ps_cb n) signum (ps_arg n) w) as Hq. destruct (call _ _ _ w) as [[keep rs] w1]. cbn [fst snd] in Hq.
    destruct (Z.eqb_spec keep EVENT_REMOVE) as [->|_].
    + rewrite Hq by done. change (pushed true []) with (@nil (option ProcSignalCB)).
      assert (E : match before with [] => [] | _ => [] ++ before end = before) by (by destruct before). rewrite E, IH.
      destruct (delivered_to call signum l w1) as [[kept new] w2]. by rewrite app_nil_r.
    + rewrite IH. destruct (delivered_to call signum l w1) as [[kept new] w2]. cbn [fmap list_fmap]. by rewrite <- !(assoc_L (++)).
  - rewrite IH. destruct (delivered_to call signum l w) as [[kept new] w2]. cbn [fmap list_fmap]. by rewrite <- !(assoc_L (++)).
Qed.

Lemma walk_deliver signum l w :
  signal_walk call true signum [] (Some <$> l) w = Some (Some <$> (deliver call (l, w) signum).1, (deliver call (l, w) signum).2).
Proof.
  rewrite walk_delivers. unfold deliver. cbn [fst snd]. pose proof (delivered_live signum l w) as H.
  destruct (delivered_to call signum l w) as [[kept new] w2]. cbn [fst snd app]. by rewrite fmap_app, <- H.
Qed.

(** The signals that are in the pipe or half read. *)
Definition awaits (st : signals) (l : list ProcSignalCB) (pending : list Z) : Prop :=
  signalCBHead st = Some <$> l /\ signalWriteFD st <> -1 /\ snd (sigPipe st) = signalWriteFD st /\
  length (rdBuff st) = 4%nat /\ 0 <= rdLen st < 4 /\
  take (Z.to_nat (rdLen st)) (rdBuff st) ++ pipe st = concat (le_bytes 4 <$> pending).

Lemma awaits_catches st l pending : awaits st l pending -> catches st = true.
Proof. intros (_ & H1 & H2 & _). unfold catches. by rewrite H2, Z.eqb_refl, (proj2 (Z.eqb_neq _ _) H1). Qed.

Lemma arrive_awaits n st l pending : awaits st l pending -> awaits (PROC_signal_handler n st) l (pending ++ [n]).
Proof.
  intros (H1 & H2 & H3 & H4 & H5 & H6). unfold PROC_signal_handler. rewrite (proj2 (Z.eqb_neq _ _) H2). cbn [negb].
  split_and!; cbn [signalWriteFD sigPipe signalCBHead rdBuff rdLen pipe]; try done; try lia. rewrite (assoc_L (++)), H6, fmap_app, concat_app. cbn [fmap list_fmap concat]. by rewrite app_nil_r.
Qed.

Definition is_int (n : Z) : Prop := - 2 ^ 31 <= n < 2 ^ 31.

Lemma int_bytes n : is_int n -> s32 (le_value (le_bytes 4 n)) = n.
Proof.
  intros H. rewrite le_value_bytes. unfold s32, is_int in *. change (256 ^ Z.of_nat 4) with (2 ^ 32).
  rewrite Zplus_mod_idemp_l. rewrite Z.mod_small by lia. lia.
Qed.

(** The pipe is ready: either the number is not complete yet, or the first of
    the pending signals is delivered. *)
Lemma ready_awaits k st w l pending :
  awaits st l pending -> Forall is_int pending -> pipe st <> [] ->
  exists st' w', signal_fd_cb call (RdBytes k) st w = Some (EVENT_KEEP, st', w') /\
    (awaits st' l pending /\ w' = w /\ (length (pipe st') < length (pipe st))%nat \/
     exists n pending', pending = n :: pending' /\ w' = (deliver call (l, w) n).2 /\ awaits st' (deliver call (l, w) n).1 pending' /\
       (length (pipe st') < length (pipe st))%nat).
Proof.
  intros Hw HF Hne. pose proof (awaits_catches _ _ _ Hw) as Hc. destruct Hw as (H1 & H2 & H3 & H4 & H5 & H6).
  unfold signal_fd_cb. destruct (Z.ltb_spec (rdLen st) 0) as [?|_]; [lia|].
  set (k' := Z.to_nat (Z.min (Z.max 1 k) (4 - rdLen st))). set (got := take k' (pipe st)). set (buf := splice _ _ got).
  assert (Hk : (1 <= k')%nat /\ Z.of_nat k' <= 4 - rdLen st) by lia.
  assert (Hg : (1 <= length got)%nat /\ (length got <= k')%nat).
  { unfold got. rewrite length_take. destruct (pipe st); [done|]. cbn [length]. lia. }
  assert (Hdrop : (length (drop k' (pipe st)) < length (pipe st))%nat).
  { rewrite length_drop. destruct (pipe st); [done|]. cbn [length]. lia. }
  assert (Hbuf : length buf = 4%nat) by (unfold buf; rewrite splice_length; [done|lia|rewrite H4; lia]).
  assert (Ht : take (Z.to_nat (rdLen st) + length got) buf ++ drop k' (pipe st) = concat (le_bytes 4 <$> pending)).
  { pose proof (splice_take (rdBuff st) (Z.to_nat (rdLen st)) got) as Hs. rewrite Z2Nat.id in Hs by lia. unfold buf. rewrite Hs by lia. rewrite <- (assoc_L (++)). unfold got. by rewrite take_drop. }
  destruct (Z.eqb_spec (rdLen st + Z.of_nat (length got)) 4) as [E|E].
  - replace (Z.to_nat (rdLen st) + length got)%nat with 4%nat in Ht by lia. rewrite take_ge in Ht by lia.
    destruct pending as [|n pending']; [destruct buf; [done|done]|].
    cbn [fmap list_fmap concat] in Ht. apply app_inj_1 in Ht as [Hb Hr]; [|by rewrite Hbuf, le_bytes_length].
    inversion HF as [|? ? Hn _]; subst.
    rewrite Hc, Hb, int_bytes, H1, walk_deliver by done. cbn [mbind option_bind].
    eexists _, _. split; [reflexivity|]. right. exists n, pending'. unfold awaits. split_and!; cbn [signalWriteFD sigPipe signalCBHead rdBuff rdLen pipe]; try done; try lia.
  - eexists _, _. split; [reflexivity|]. left. unfold awaits; split_and!; cbn [signalWriteFD sigPipe signalCBHead rdBuff rdLen pipe]; try done; try lia.
    rewrite Z2Nat.inj_add, Nat2Z.id by lia. exact Ht.
Qed.

Lemma run_awaits steps : forall pending st l w, awaits st l pending -> Forall is_int (pending ++ arrivals steps) ->
  exists dn pending' st' w', sig_run call steps st w = Some (st', w') /\ pending ++ arrivals steps = dn ++ pending' /\
    awaits st' (foldl (deliver call) (l, w) dn).1 pending' /\ w' = (foldl (deliver call) (l, w) dn).2.
Proof.
  induction steps as [|s steps IH]; intros pending st l w Hw HF.
  - exists [], pending, st, w. cbn [arrivals omap list_omap]. by rewrite app_nil_r.
  - destruct s as [n|k]; cbn [sig_run arrivals omap list_omap] in *; fold (arrivals steps) in *.
    + destruct (IH (pending ++ [n]) (PROC_signal_handler n st) l w) as (dn & p & st' & w' & R & A & rest).
      { by apply arrive_awaits. } { by rewrite <- (assoc_L (++)). }
      exists dn, p, st', w'. split; [done|]. split; [|done]. by rewrite <- A, <- (assoc_L (++)).
    + destruct (pipe st) as [|b bs] eqn:Ep; [by apply IH|].
      assert (Hne : pipe st <> []) by congruence. apply list.Forall_app in HF as [HF1 HF2].
      destruct (ready_awaits k st w l pending Hw HF1 Hne) as (st1 & w1 & -> & C). cbn [mbind option_bind].
      destruct C as [(C1 & -> & _)|(n & pending' & -> & -> & C1 & _)]; [apply IH; [done|by apply list.Forall_app]|].
      inversion HF1; subst. destruct (IH pending' st1 _ (deliver call (l, w) n).2 C1) as (dn & p & st' & w' & R & A & B & C); [by apply list.Forall_app|].
      exists (n :: dn), p, st', w'. cbn [foldl app]. rewrite <- surjective_pairing in B, C. split_and!; try done. by rewrite A.
Qed.

Lemma awaits_none st l pending : awaits st l pending -> pipe st = [] -> pending = [].
Proof.
  intros (_ & _ & _ & H4 & H5 & H6) Hp. rewrite Hp, app_nil_r in H6. destruct pending as [|n pending]; [done|].
  apply (f_equal length) in H6. cbn [fmap list_fmap concat] in H6. rewrite length_app, le_bytes_length, length_take in H6. lia.
Qed.

(** C34. Signals are delivered: whatever the order in which signals arrive and
    the pipe is read, and however the reads cut the bytes, [signal_fd_cb] does
    not fault, the signals that were delivered are the first of those that
    arrived, in their order, each to every callback registered for it at that
    time, exactly once; the rest is in the pipe, and when the pipe is empty
    nothing is left. Conditions: the callbacks are tidy ([TidyCallbacks]: one
    that asks to be removed registers no other, and what they register can be
    caught; [Demo.new_callback_lost] and [Demo.uncaught_faults] show the other
    cases), reads do not fail, and the pipe has room for what arrives. *)
Theorem signals_delivered steps st l w :
  awaits st l [] -> Forall is_int (arrivals steps) ->
  exists dn pending st' w', sig_run call steps st w = Some (st', w') /\ arrivals steps = dn ++ pending /\
    awaits st' (foldl (deliver call) (l, w) dn).1 pending /\ w' = (foldl (deliver call) (l, w) dn).2 /\
    (pipe st' = [] -> pending = []).
Proof.
  intros Hw HF. destruct (run_awaits steps [] st l w Hw HF) as (dn & pending & st' & w' & R & A & B & C).
  exists dn, pending, st', w'. split_and!; try done. by eapply awaits_none.
Qed.
End Delivered.

(** Setting up: the read end is watched, and does not keep the loop alive. *)
Lemma setup_watches cb arg p st :
  fd_wf (sig_fds st) -> signalWriteFD st = -1 -> 0 <= fst p -> entry (sig_fds st) (fst p) = None ->
  let r := setup_signal_fd cb arg (inr p) true true st in
  r.1 = 1 /\ signalWriteFD r.2 = snd p /\ fd_wf (sig_fds r.2) /\ fst p ∈ get (eventSet (sig_fds r.2)) FdRead /\
  crit (entry (sig_fds r.2) (fst p)) = false /\ (snd p <> -1 -> catches r.2 = true).
Proof.
  intros Hf Hs Hp He r.
  destruct (fd_add_wf (sig_fds st) (fst p) FdRead cb None arg true Hf Hp (fun _ => eq_refl)) as (R1 & R2 & R3 & _).
  subst r. unfold setup_signal_fd, EVT_fd_add. rewrite Hs. cbn [negb Z.eqb Z.opp Pos.eqb].
  destruct (EVT_fd_add_with_cleanup _ _ _ _ _ _ _) as [res t]. cbn [fst snd] in *.
  destruct (fd_set_critical_wf t (fst p) false R2 Hp) as (S1 & S2 & _). cbn [sig_fds signalWriteFD].
  split_and!; try done.
  - pose proof S1 as (_ & _ & H & _). apply H. split; [done|]. rewrite S2, R3, He. cbn [fmap option_fmap option_map].
    pose proof (added_has None (fst p) FdRead cb None arg FdRead) as Ha. by rewrite decide_True in Ha.
  - by rewrite S2, R3.
  - intros Hne. unfold catches. cbn [sigPipe signalWriteFD]. by rewrite Z.eqb_refl, (proj2 (Z.eqb_neq _ _) Hne).
Qed.

(** ** Examples *)

(** A callback that logs the signal and its argument, and is removed after the
    signal 15; for the signal 1 it registers another. *)
Definition demo_call (c n a : Z) (w : list (Z * Z)) : Z * list sig_request * list (Z * Z) :=
  (if n =? 15 then EVENT_REMOVE else EVENT_KEEP, if n =? 1 then [SReq 17 5 9 true true] else [], w ++ [(n, a)]).

#[export] Instance demo_tidy : TidyCallbacks demo_call.
Proof.
  split; intros c n a w; unfold demo_call; cbn.
  - destruct (Z.eqb_spec n 15) as [->|]; [done|]. intros [=].
  - destruct (n =? 1); repeat constructor.
Qed.

Definition demo_signals : signals :=
  Sig 4 (3, 4) (Some <$> [PSCB 5 1 15 0; PSCB 5 2 1 0; PSCB 5 3 15 0]) [0; 0; 0; 0] 0 [] (fds_init 3).

Lemma signals_delivered_witness :
  exists dn pending st' w',
    sig_run demo_call [Arrive 15; Ready 3; Arrive 1; Ready 8; Ready 4; Arrive 17; Ready 2] demo_signals [] = Some (st', w') /\
    [15; 1; 17] = dn ++ pending /\
    awaits st' (foldl (deliver demo_call) ([PSCB 5 1 15 0; PSCB 5 2 1 0; PSCB 5 3 15 0], []) dn).1 pending /\
    w' = (foldl (deliver demo_call) ([PSCB 5 1 15 0; PSCB 5 2 1 0; PSCB 5 3 15 0], []) dn).2 /\ (pipe st' = [] -> pending = []).
Proof.
  apply (signals_delivered demo_call [Arrive 15; Ready 3; Arrive 1; Ready 8; Ready 4; Arrive 17; Ready 2] demo_signals).
  - unfold awaits. split_and!; [reflexivity|discriminate|reflexivity|reflexivity|reflexivity|reflexivity|reflexivity].
  - repeat constructor; discriminate.
Defined.

Module Demo.
(** A callback at the head that registers another and asks to be removed takes
    the new one out of the list with it. *)
Lemma new_callback_lost :
  signal_walk (fun _ _ _ w => (EVENT_REMOVE, [SReq 17 5 9 true true], w)) true 15 [] [Some (PSCB 5 1 15 0)] tt = Some ([], tt) /\
  signal_walk (fun _ _ _ w => (EVENT_REMOVE, [SReq 17 5 9 true true], w)) true 15 [] [Some (PSCB 5 1 1 0); Some (PSCB 5 1 15 0)] tt
    = Some ([Some (PSCB 5 9 17 0); Some (PSCB 5 1 1 0)], tt).
Proof. done. Qed.

(** A signal that cannot be caught leaves a freed node in the list: any signal
    that is delivered afterwards faults. *)
Lemma uncaught_faults st r n w : catches st = true -> rq_malloc r = true -> rq_action r = false ->
  (PROC_signal st r).1 = -1 /\ signal_walk demo_call true n [] (signalCBHead (PROC_signal st r).2) w = None.
Proof. intros H1 H2 H3. unfold PROC_signal, linked. cbn [fst snd signalCBHead]. by rewrite H1, H2, H3. Qed.

(** The result -1 of a read that would block is added to the length. *)
Lemma would_block_faults st w : rdLen st = 0 ->
  exists st1, signal_fd_cb demo_call (RdErr true) st w = Some (EVENT_KEEP, st1, w) /\ signal_fd_cb demo_call (RdBytes 4) st1 w = None.
Proof. intros H. eexists. split; [reflexivity|]. cbn [signal_fd_cb rdLen]. by rewrite H. Qed.
End Demo.
