(* ===== verification/Gpio.v ===== *)
(** * GPIO interrupts (events.c)

    Two files tell of the deployment from the launcher and of a pending reboot.
    A callback waits for its interrupt in a list; when the file says that it has
    happened, every callback of the list is called and the file is closed, and
    callbacks that are added later are called at once.  A callback may add and
    remove callbacks; it is given by these actions.  The files are descriptor
    events of FdEvents, processed as the loop of EventLoop does. *)

From stdpp Require Import base gmap list numbers sorting.
From Stdlib Require Import ZArith Lia.
From S2P Require Import Prelude Sched FdEvents EventLoop FdTurn.
Open Scope Z_scope.

(** ** Data *)

(** [struct GPIOInterruptDesc] with its [struct GPIOInterruptCBList]; the file
    name follows from the index. *)
Record GPIOInterruptDesc := Intr { ifd : Z; tripped : Z; callbacks : list (option Z * Z) }.

(** What becomes of a callback of an interrupt: it is accepted, called, or
    given up. *)
Inductive hev := HReg (i : bool) (x : option Z * Z) | HFire (i : bool) (x : option Z * Z) | HDrop (i : bool) (x : option Z * Z).

(** [gpio_intrs[0]] and [gpio_intrs[1]], the table of descriptors, and the
    history. *)
Record gpio := Gp { intr0 : GPIOInterruptDesc; intr1 : GPIOInterruptDesc; gfds : fds; hist : list hev }.

Definition intr (s : gpio) (i : bool) : GPIOInterruptDesc := if i then intr1 s else intr0 s.
Definition set_intr (s : gpio) (i : bool) (d : GPIOInterruptDesc) : gpio :=
  if i then Gp (intr0 s) d (gfds s) (hist s) else Gp d (intr1 s) (gfds s) (hist s).
Definition set_gfds (s : gpio) (t : fds) : gpio := Gp (intr0 s) (intr1 s) t (hist s).
Definition note (s : gpio) (l : list hev) : gpio := Gp (intr0 s) (intr1 s) (gfds s) (hist s ++ l).

(** A call of the interface, with the memory there is for the entry of the
    descriptor and for the node. *)
Inductive gact :=
| GAdd (i : bool) (cb : option Z) (arg : Z) (entry_mem node_mem : bool)
| GRemove (i : bool) (cb : option Z) (arg : Z).

Definition ENOMEM : Z := 12.
Definition TRIPPED : Z := 1193046.

(** ** Operations *)

Section Operations.
Context {W : Type}.
(** What a callback does, what [open] gives (an errno or a descriptor, from the
    descriptors in use), and the address of [trip_gpio_intr_callback]. *)
Context (gcall : Z -> Z -> W -> list gact * W) (openf : bool -> list Z -> Z + Z) (TRIP : Z).

(** [EVT_fd_add] returns 0 only without a callback, so that a failure is not
    seen. *)
Definition setup_gpio_intr (i mem : bool) (s : gpio) : Z * gpio :=
  if negb (tripped (intr s i) =? 0) || (0 <? ifd (intr s i)) then (0, s)
  else
    match openf i [ifd (intr0 s); ifd (intr1 s)] with
    | inl errno => (- errno, set_intr s i (Intr (-1) 0 []))
    | inr f =>
        let '(r, t) := EVT_fd_add (gfds s) f FdRead (Some TRIP) (Z.b2z i) mem in
        let f := if r =? 0 then 0 else f in
        (0, set_gfds (set_intr s i (Intr f 0 [])) (EVT_fd_set_critical t f false))
    end.

(** [call] runs a callback; [None] is a call through NULL. *)
Definition add_gpio_intr_callback (call : Z -> Z -> gpio * W -> option (gpio * W)) (i : bool) (c : option Z) (a : Z) (mem : bool)
    (s : gpio * W) : option (Z * (gpio * W)) :=
  let d := intr s.1 i in
  if tripped d =? 0 then
    Some (if mem then (0, (note (set_intr s.1 i (Intr (ifd d) (tripped d) ((c, a) :: callbacks d))) [HReg i (c, a)], s.2))
          else (- ENOMEM, s))
  else
    f ← c;
    s' ← call f a (note s.1 [HReg i (c, a); HFire i (c, a)], s.2);
    Some (0, s').

Definition remove_gpio_intr_callback (i : bool) (c : option Z) (a : Z) (s : gpio) : gpio :=
  let d := intr s i in
  note (set_intr s i (Intr (ifd d) (tripped d) (filter (fun x => x <> (c, a)) (callbacks d))))
    (HDrop i <$> filter (fun x => x = (c, a)) (callbacks d)).

Definition EVT_add_gpio_cb (call : Z -> Z -> gpio * W -> option (gpio * W)) (i : bool) (c : option Z) (a : Z) (entry_mem node_mem : bool)
    (s : gpio * W) : option (Z * (gpio * W)) :=
  let '(ret, s1) := setup_gpio_intr i entry_mem s.1 in
  if ret <? 0 then Some (ret, (s1, s.2)) else add_gpio_intr_callback call i c a node_mem (s1, s.2).

Definition EVT_add_ppod_deployment_cb call := EVT_add_gpio_cb call false.
Definition EVT_add_pending_reboot_cb call := EVT_add_gpio_cb call true.
Definition EVT_remove_ppod_deployment_cb := remove_gpio_intr_callback false.
Definition EVT_remove_pending_reboot_cb := remove_gpio_intr_callback true.

Definition perform (call : Z -> Z -> gpio * W -> option (gpio * W)) (act : gact) (s : gpio * W) : option (gpio * W) :=
  match act with
  | GAdd i c a em nm =>
      r ← (if i then EVT_add_pending_reboot_cb call c a em nm s else EVT_add_ppod_deployment_cb call c a em nm s);
      Some r.2
  | GRemove i c a => Some (if i then EVT_remove_pending_reboot_cb c a s.1 else EVT_remove_ppod_deployment_cb c a s.1, s.2)
  end.

Fixpoint performs (call : Z -> Z -> gpio * W -> option (gpio * W)) (acts : list gact) (s : gpio * W) : option (gpio * W) :=
  match acts with [] => Some s | a :: acts' => s' ← perform call a s; performs call acts' s' end.

(** A callback, with the depth of nested calls that the stack has room for. *)
Fixpoint invoke (depth : nat) (c a : Z) (s : gpio * W) : option (gpio * W) :=
  match depth with
  | O => None
  | S depth' => let '(acts, w) := gcall c a s.2 in performs (invoke depth') acts (s.1, w)
  end.

(** The loop of [trip_gpio_intr_callback]; [n] is the length of the list. *)
Fixpoint trip_loop (call : Z -> Z -> gpio * W -> option (gpio * W)) (n : nat) (i : bool) (s : gpio * W) : option (gpio * W) :=
  match callbacks (intr s.1 i) with
  | [] => Some s
  | x :: rest =>
      match n with
      | O => None
      | S n' =>
          let s1 := set_intr s.1 i (Intr (ifd (intr s.1 i)) (tripped (intr s.1 i)) rest) in
          s2 ← match x.1 with
               | Some c => call c x.2 (note s1 [HFire i x], s.2)
               | None => Some (note s1 [HDrop i x], s.2)
               end;
          trip_loop call n' i s2
      end
  end.

(** [buff] is what read gave. *)
Definition trip_gpio_intr_callback (call : Z -> Z -> gpio * W -> option (gpio * W)) (i : bool) (buff : list Z) (s : gpio * W)
    : option (Z * (gpio * W)) :=
  if negb (length buff =? 2)%nat then Some (EVENT_KEEP, s)
  else if negb (hd 0 buff =? 89) then Some (EVENT_KEEP, s)
  else
    let d := intr s.1 i in
    let s1 := set_intr s.1 i (Intr (if 0 <? ifd d then -1 else ifd d) TRIPPED (callbacks d)) in
    s2 ← trip_loop call (length (callbacks d)) i (s1, s.2);
    Some (EVENT_REMOVE, s2).

(** The loop finds the descriptor [f] readable. *)
Definition gpio_ready (depth : nat) (f : Z) (buff : list Z) (s : gpio * W) : option (gpio * W) :=
  match entry (gfds s.1) f with
  | None => Some s
  | Some n =>
      if decide (get (cb n) FdRead = Some TRIP) then
        r ← trip_gpio_intr_callback (invoke depth) (get (earg n) FdRead =? 1) buff
              (set_gfds s.1 (fd_entered (gfds s.1) f FdRead), s.2);
        Some (set_gfds r.2.1 (fd_returned (gfds r.2.1) f FdRead r.1), r.2.2)
      else Some s
  end.

(** ** Runs *)

Inductive gop := OpAct (a : gact) | OpReady (f : Z) (buff : list Z).

Definition gpio_step (depth : nat) (o : gop) (s : gpio * W) : option (gpio * W) :=
  match o with OpAct a => perform (invoke depth) a s | OpReady f buff => gpio_ready depth f buff s end.

Fixpoint gpio_steps (depth : nat) (ops : list gop) (s : gpio * W) : option (gpio * W) :=
  match ops with [] => Some s | o :: ops' => s' ← gpio_step depth o s; gpio_steps depth ops' s' end.
End Operations.

(** ** The invariant *)

(** Accepted less called and given up, and how often a callback waits. *)
Definition delta (i : bool) (x : option Z * Z) (e : hev) : Z :=
  match e with
  | HReg j y => if decide (j = i /\ y = x) then 1 else 0
  | HFire j y | HDrop j y => if decide (j = i /\ y = x) then -1 else 0
  end.
Fixpoint balance (h : list hev) (i : bool) (x : option Z * Z) : Z :=
  match h with [] => 0 | e :: h' => delta i x e + balance h' i x end.
Definition waiting (d : GPIOInterruptDesc) (x : option Z * Z) : Z := Z.of_nat (length (filter (fun y => y = x) (callbacks d))).

Lemma balance_app h k i x : balance (h ++ k) i x = balance h i x + balance k i x.
Proof. induction h; cbn [balance app]; lia. Qed.

Lemma balance_dropped l i j x : balance (HDrop j <$> l) i x = if decide (j = i) then - Z.of_nat (length (filter (fun y => y = x) l)) else 0.
Proof.
  induction l as [|y l IH]; cbn [fmap list_fmap balance delta]; [by case_decide|].
  rewrite IH, filter_cons. repeat case_decide; cbn [length]; try lia; naive_solver.
Qed.

Lemma filter_split (x y : option Z * Z) (l : list (option Z * Z)) :
  (length (filter (fun z => z = x) (filter (fun z => z <> y) l)) + length (filter (fun z => z = x) (filter (fun z => z = y) l))
    = length (filter (fun z => z = x) l))%nat.
Proof.
  induction l as [|z l IH]; [done|]. rewrite !filter_cons. destruct (decide (z = y)) as [->|Hz].
  - rewrite (decide_False (P := y <> y)) by (intros H; by apply H). rewrite filter_cons. case_decide; cbn [length]; lia.
  - rewrite (decide_True (P := z <> y)) by done. rewrite filter_cons. case_decide; cbn [length]; lia.
Qed.

Lemma intr_set s i d j : intr (set_intr s i d) j = if decide (i = j) then d else intr s j.
Proof. by destruct i, j. Qed.

Section Facts.
Context {W : Type} (gcall : Z -> Z -> W -> list gact * W) (openf : bool -> list Z -> Z + Z) (TRIP : Z).

(** The descriptor of an interrupt in the table: it does not keep the loop
    alive, and if its number is that of the descriptor whose callback runs, it
    was registered meanwhile. *)
Definition watched (t : fds) (f : Z) (i : bool) (run : option Z) : Prop :=
  exists n, entry t f = Some n /\ get (cb n) FdRead = Some TRIP /\ get (earg n) FdRead = Z.b2z i /\ ecritical n = false /\
    (run = Some f -> get (einCallback n) FdRead = 2).

Record ginv (run : option Z) (s : gpio) : Prop := {
  g_wf : fd_wf (gfds s);
  g_tripped i : tripped (intr s i) <> 0 -> ifd (intr s i) <= 0;
  g_waiting i : tripped (intr s i) = 0 -> callbacks (intr s i) <> [] -> 0 < ifd (intr s i);
  g_watched i : 0 < ifd (intr s i) -> watched (gfds s) (ifd (intr s i)) i run;
  g_balance i x : balance (hist s) i x = waiting (intr s i) x;
  g_run f : run = Some f -> 0 <= f /\ exists n, entry (gfds s) f = Some n /\ (get (einCallback n) FdRead = 1 \/ get (einCallback n) FdRead = 2)
}.

(** Callbacks trip no interrupt, and the list of one that has happened does not
    grow. *)
Definition evolves (s s' : gpio) : Prop :=
  forall i, tripped (intr s' i) = tripped (intr s i) /\
    (tripped (intr s i) <> 0 -> (length (callbacks (intr s' i)) <= length (callbacks (intr s i)))%nat).

#[export] Instance evolves_preorder : PreOrder evolves.
Proof.
  split; [intros s i; split; [done|lia]|]. intros s1 s2 s3 H1 H2 i. destruct (H1 i) as [A B]. destruct (H2 i) as [C D].
  split; [congruence|]. intros H. specialize (B H). rewrite A in D. specialize (D H). lia.
Qed.

(** What [open] promises, and what callbacks may do: the callbacks they add are
    of a lower rank. *)
Class GpioOpen : Prop := {
  open_fresh i used f : openf i used = inr f -> 0 < f /\ f ∉ used;
  open_errno i used e : openf i used = inl e -> 0 < e
}.

Definition act_ok (below : Z -> Prop) (a : gact) : Prop :=
  match a with GAdd _ (Some c) _ em _ => em = true /\ below c | GAdd _ None _ _ _ => False | GRemove _ _ _ => True end.

Class GpioCallbacks (rank : Z -> nat) : Prop := {
  acts_ranked c a w : Forall (act_ok (fun c' => (rank c' < rank c)%nat)) (gcall c a w).1
}.

Context {Hopen : GpioOpen}.

(** One interrupt and the table change; the others are as they were. *)
Lemma replace_inv run s s' i d :
  ginv run s -> (forall j, intr s' j = if decide (i = j) then d else intr s j) -> fd_wf (gfds s') ->
  (tripped d <> 0 -> ifd d <= 0) -> (tripped d = 0 -> callbacks d <> [] -> 0 < ifd d) ->
  (0 < ifd d -> watched (gfds s') (ifd d) i run) ->
  (forall j, j <> i -> 0 < ifd (intr s j) -> entry (gfds s') (ifd (intr s j)) = entry (gfds s) (ifd (intr s j))) ->
  (forall j x, balance (hist s') j x = balance (hist s) j x + if decide (i = j) then waiting d x - waiting (intr s i) x else 0) ->
  (forall f, run = Some f -> exists n, entry (gfds s') f = Some n /\ (get (einCallback n) FdRead = 1 \/ get (einCallback n) FdRead = 2)) ->
  ginv run s'.
Proof.
  intros H Hi Hw D1 D2 D3 He Hb Hr. split.
  - exact Hw.
  - intros j. rewrite Hi. case_decide; [done|]. apply H.
  - intros j. rewrite Hi. case_decide; [done|]. apply H.
  - intros j. rewrite Hi. case_decide; [by subst|]. intros Hj. destruct (g_watched _ _ H j Hj) as (n & N). exists n. by rewrite He.
  - intros j x. rewrite Hb, (g_balance _ _ H), Hi. case_decide; [subst; lia|lia].
  - intros f Hf. split; [by apply (g_run _ _ H f Hf)|by apply Hr].
Qed.

(** The same with the table as it was. *)
Lemma replace_intr run s i d l :
  ginv run s ->
  (tripped d <> 0 -> ifd d <= 0) -> (tripped d = 0 -> callbacks d <> [] -> 0 < ifd d) -> (0 < ifd d -> ifd d = ifd (intr s i)) ->
  (forall j x, balance l j x = if decide (i = j) then waiting d x - waiting (intr s i) x else 0) ->
  ginv run (note (set_intr s i d) l).
Proof.
  intros H D1 D2 D3 Hb. assert (Hg : gfds (note (set_intr s i d) l) = gfds s) by (by destruct i).
  apply (replace_inv run s _ i d); rewrite ?Hg; try done.
  - intros j. apply (intr_set s i d j).
  - apply H.
  - intros Hd. rewrite D3 by done. apply H. by rewrite <- D3.
  - intros j x. specialize (Hb j x). change (hist (note ?a l)) with (hist a ++ l). rewrite balance_app, Hb. by destruct i.
  - intros f Hf. by apply (g_run _ _ H f Hf).
Qed.

(** A new descriptor in the table. *)
Lemma watch_table t f i : fd_wf t -> 0 < f ->
  let '(r, t1) := EVT_fd_add t f FdRead (Some TRIP) (Z.b2z i) true in
  let t' := EVT_fd_set_critical t1 f false in
  r = 1 /\ fd_wf t' /\ (forall x, x <> f -> entry t' x = entry t x) /\
  exists n, entry t' f = Some n /\ get (cb n) FdRead = Some TRIP /\ get (earg n) FdRead = Z.b2z i /\ ecritical n = false /\
    (forall n0, entry t f = Some n0 -> get (einCallback n0) FdRead <> 0 -> get (einCallback n) FdRead = 2).
Proof.
  intros Hw Hf. destruct (fd_add_wf t f FdRead TRIP None (Z.b2z i) true Hw ltac:(lia) (fun _ => eq_refl)) as (R1 & R2 & R3 & R4).
  unfold EVT_fd_add. destruct (EVT_fd_add_with_cleanup _ _ _ _ _ _ _) as [r t1]. cbn [fst snd] in *.
  destruct (fd_set_critical_wf t1 f false R2 ltac:(lia)) as (S1 & S2 & S3). cbv zeta. split_and!; try done.
  - intros x Hx. by rewrite S3, R4.
  - rewrite S2, R3. eexists. split; [reflexivity|]. unfold added_entry. split_and!; try done; try (by destruct (_ =? 0)).
    intros n0 -> Hic. cbn [default from_option id with_cb einCallback]. by rewrite (proj2 (Z.eqb_neq _ _) Hic).
Qed.

Lemma setup_inv run i s : ginv run s ->
  let '(ret, s1) := setup_gpio_intr openf TRIP i true s in
  ginv run s1 /\ evolves s s1 /\ (0 <= ret -> tripped (intr s1 i) = 0 -> 0 < ifd (intr s1 i)).
Proof.
  intros H. unfold setup_gpio_intr. destruct (Z.eqb_spec (tripped (intr s i)) 0) as [H0|H0]; cbn [negb orb].
  2:{ split; [done|]. split; [reflexivity|]. intros _ ?. lia. }
  destruct (Z.ltb_spec 0 (ifd (intr s i))) as [Hf|Hf]; [split; [done|]; split; [reflexivity|done]|].
  assert (Hc : callbacks (intr s i) = []).
  { destruct (callbacks (intr s i)) as [|x l] eqn:E; [done|]. pose proof (g_waiting _ _ H i H0) as G. rewrite E in G. specialize (G ltac:(done)). lia. }
  assert (Hev : forall d s1, tripped d = 0 -> (forall j, intr s1 j = if decide (i = j) then d else intr s j) -> evolves s s1).
  { intros d s1 Ed E j. rewrite E. case_decide; [subst; split; congruence|done]. }
  assert (Hwt : forall f x, waiting (Intr f 0 []) x - waiting (intr s i) x = 0) by (intros f x; unfold waiting; rewrite Hc; cbn; lia).
  destruct (openf i _) as [e|f] eqn:Eo.
  - pose proof (open_errno _ _ _ Eo). split; [|split; [|lia]].
    + assert (E : set_intr s i (Intr (-1) 0 []) = note (set_intr s i (Intr (-1) 0 [])) []) by (unfold note; rewrite app_nil_r; by destruct (set_intr _ _ _)).
      rewrite E. apply replace_intr; try done. intros j x. rewrite Hwt. by case_decide.
    + eapply (Hev (Intr (-1) 0 [])); [done|]. intros j. apply intr_set.
  - destruct (open_fresh _ _ _ Eo) as [Hf0 Hfr]. rewrite !not_elem_of_cons in Hfr. destruct Hfr as (F0 & F1 & _).
    pose proof (watch_table (gfds s) f i (g_wf _ _ H) Hf0) as T. destruct (EVT_fd_add _ _ _ _ _ _) as [r t1]. cbv zeta in T.
    destruct T as (-> & T1 & T2 & n & N1 & N2 & N3 & N4 & N5). cbn [Z.eqb]. set (t' := EVT_fd_set_critical t1 f false) in *.
    assert (Hin : forall j, intr (set_gfds (set_intr s i (Intr f 0 [])) t') j = if decide (i = j) then Intr f 0 [] else intr s j) by (intros j; apply (intr_set s i)).
    assert (Hrun : run = Some f -> get (einCallback n) FdRead = 2).
    { intros E. destruct (g_run _ _ H f E) as (_ & n0 & E0 & Hic). apply (N5 n0 E0). lia. }
    split; [|split; [by apply (Hev (Intr f 0 []))|intros _ _; by rewrite Hin, decide_True]].
    apply (replace_inv run s _ i (Intr f 0 [])); try done.
    + intros _. by exists n.
    + intros j Hj Hp. apply T2. destruct j; cbn in *; congruence.
    + intros j x. rewrite Hwt. transitivity (balance (hist s) j x); [by destruct i|]. case_decide; lia.
    + intros g Eg. destruct (g_run _ _ H g Eg) as (_ & m & M1 & M2). change (gfds (set_gfds _ t')) with t'.
      destruct (decide (g = f)) as [->|Hne]; [exists n; auto|exists m; by rewrite T2].
Qed.

(** A step of the model that returns and keeps the invariant. *)
Definition safe_to (run : option Z) (s : gpio * W) (o : option (gpio * W)) : Prop :=
  exists s', o = Some s' /\ ginv run s'.1 /\ evolves s.1 s'.1.

Lemma safe_bind run s o k : safe_to run s o -> (forall s', ginv run s'.1 -> safe_to run s' (k s')) -> safe_to run s (o ≫= k).
Proof.
  intros (s1 & -> & G1 & E1) Hk. destruct (Hk s1 G1) as (s2 & E & G2 & E2). exists s2. split; [done|]. split; [done|]. by etransitivity.
Qed.

Section Calls.
Context (run : option Z) (call : Z -> Z -> gpio * W -> option (gpio * W)) (below : Z -> Prop).
Hypothesis call_safe : forall c a s, below c -> ginv run s.1 -> safe_to run s (call c a s).

(** The history with two entries that cancel out. *)
Lemma note_called s i x : ginv run s -> ginv run (note s [HReg i x; HFire i x]).
Proof.
  intros H. assert (E : note s [HReg i x; HFire i x] = note (set_intr s i (intr s i)) [HReg i x; HFire i x]) by (by destruct s, i).
  rewrite E. apply replace_intr; try done; [apply H..|]. intros j y. cbn [balance delta]. repeat case_decide; lia.
Qed.

Lemma add_safe i c a mem s : below c -> ginv run s.1 -> (tripped (intr s.1 i) = 0 -> 0 < ifd (intr s.1 i)) ->
  exists r s', add_gpio_intr_callback call i (Some c) a mem s = Some (r, s') /\ ginv run s'.1 /\ evolves s.1 s'.1.
Proof.
  intros Hc H Hf. unfold add_gpio_intr_callback. destruct (Z.eqb_spec (tripped (intr s.1 i)) 0) as [H0|H0].
  - destruct mem; [|exists (- ENOMEM), s; split; [done|]; split; [done|reflexivity]].
    eexists _, _. split; [reflexivity|]. cbn [fst]. split.
    + apply replace_intr; cbn [tripped ifd callbacks]; try done; [auto..|].
      intros j x. cbn [balance delta]. unfold waiting. cbn [callbacks]. rewrite filter_cons.
      repeat case_decide; cbn [length]; try lia; naive_solver.
    + intros j. change (intr (note ?x ?l) j) with (intr x j). rewrite intr_set. case_decide; [subst; split; [done|congruence]|done].
  - cbn [mbind option_bind]. destruct (call_safe c a (note s.1 [HReg i (Some c, a); HFire i (Some c, a)], s.2) Hc (note_called _ _ _ H)) as (s' & E & G & V).
    exists 0, s'. rewrite E. cbn [mbind option_bind]. split; [done|]. split; [done|]. exact V.
Qed.

Lemma remove_safe i c a s : ginv run s -> ginv run (remove_gpio_intr_callback i c a s) /\ evolves s (remove_gpio_intr_callback i c a s).
Proof.
  intros H. unfold remove_gpio_intr_callback. split.
  - apply replace_intr; cbn [tripped ifd callbacks]; try done.
    + apply H.
    + intros H0 Hne. apply (g_waiting _ _ H i H0). intros E. by rewrite E in Hne.
    + intros j x. rewrite balance_dropped. case_decide; [|done]. unfold waiting. cbn [callbacks].
      pose proof (filter_split x (c, a) (callbacks (intr s i))). lia.
  - intros j. change (intr (note ?x ?l) j) with (intr x j). rewrite intr_set. case_decide; [subst|done].
    split; [done|]. intros _. cbn [callbacks]. apply length_filter.
Qed.

Lemma perform_safe act s : act_ok below act -> ginv run s.1 -> safe_to run s (perform openf TRIP call act s).
Proof.
  intros Ha H. destruct act as [i [c|] a em nm|i c a]; cbn [act_ok] in Ha; [|done|].
  - destruct Ha as [-> Hc]. cbn [perform].
    assert (E : (if i then EVT_add_pending_reboot_cb openf TRIP call (Some c) a true nm s
      else EVT_add_ppod_deployment_cb openf TRIP call (Some c) a true nm s) = EVT_add_gpio_cb openf TRIP call i (Some c) a true nm s) by (by destruct i).
    rewrite E. unfold EVT_add_gpio_cb. pose proof (setup_inv run i s.1 H) as Hs. destruct (setup_gpio_intr openf TRIP i true s.1) as [ret s1].
    destruct Hs as (G1 & V1 & F1). destruct (Z.ltb_spec ret 0) as [Hr|Hr]; cbn [mbind option_bind].
    + by exists (s1, s.2).
    + destruct (add_safe i c a nm (s1, s.2) Hc G1 (F1 Hr)) as (r & s' & -> & G & V). exists s'. cbn. split; [done|]. split; [done|]. by etransitivity.
  - destruct (remove_safe i c a s.1 H) as [G V]. cbn [perform]. eexists. split; [reflexivity|]. by destruct i.
Qed.

Lemma performs_safe acts s : Forall (act_ok below) acts -> ginv run s.1 -> safe_to run s (performs openf TRIP call acts s).
Proof.
  intros Ha. revert s. induction Ha as [|act acts H1 _ IH]; intros s H; cbn [performs].
  - exists s. split; [done|]. split; [done|reflexivity].
  - apply safe_bind; [by apply perform_safe|]. intros s' G. by apply IH.
Qed.

(** The loop of the interrupt empties the list. *)
Lemma trip_loop_safe i : (forall c, below c) -> forall n s, ginv run s.1 -> tripped (intr s.1 i) <> 0 -> (length (callbacks (intr s.1 i)) <= n)%nat ->
  exists s', trip_loop call n i s = Some s' /\ ginv run s'.1 /\ evolves s.1 s'.1 /\ callbacks (intr s'.1 i) = [].
Proof.
  intros Hb n. induction n as [|n IH]; intros s H Ht Hn; destruct (callbacks (intr s.1 i)) as [|x rest] eqn:E; cbn [length] in Hn; try lia.
  - exists s. cbn [trip_loop]. rewrite E. split; [done|]. split; [done|]. split; [reflexivity|done].
  - exists s. cbn [trip_loop]. rewrite E. split; [done|]. split; [done|]. split; [reflexivity|done].
  - cbn [trip_loop]. rewrite E. set (d := Intr (ifd (intr s.1 i)) (tripped (intr s.1 i)) rest).
    assert (Hpop : forall ev, ev = HFire i x \/ ev = HDrop i x -> ginv run (note (set_intr s.1 i d) [ev]) /\ evolves s.1 (note (set_intr s.1 i d) [ev])).
    { intros ev Hev. split.
      - apply replace_intr; cbn [d tripped ifd callbacks]; try done; [apply H|].
        intros j y. unfold waiting. rewrite E, filter_cons. unfold d. cbn [callbacks].
        destruct Hev as [->| ->]; cbn [balance delta]; repeat case_decide; cbn [length]; try lia; naive_solver.
      - intros j. change (intr (note ?y ?l) j) with (intr y j). rewrite intr_set. case_decide; [subst|done].
        split; [done|]. intros _. rewrite E. cbn [d callbacks length]. lia. }
    assert (Hs : safe_to run (note (set_intr s.1 i d) [match x.1 with Some _ => HFire i x | None => HDrop i x end], s.2)
      (match x.1 with Some c => call c x.2 (note (set_intr s.1 i d) [HFire i x], s.2) | None => Some (note (set_intr s.1 i d) [HDrop i x], s.2) end)).
    { destruct x as [[c|] a]; cbn [fst snd].
      - apply call_safe; [done|]. apply Hpop. by left.
      - eexists. split; [reflexivity|]. split; [apply Hpop; by right|reflexivity]. }
    destruct Hs as (s2 & -> & G2 & V2). cbn [mbind option_bind].
    set (ev := match x.1 with Some _ => _ | None => _ end) in V2.
    assert (Hev : ev = HFire i x \/ ev = HDrop i x) by (unfold ev; destruct (x.1); auto). destruct (Hpop ev Hev) as [_ V1].
    assert (Hd : intr (note (set_intr s.1 i d) [ev]) i = d) by (change (intr (note ?y ?l) i) with (intr y i); by rewrite intr_set, decide_True).
    destruct (V2 i) as [T2 L2]. cbn [fst] in T2, L2. rewrite Hd in T2, L2. specialize (L2 Ht). cbn [d callbacks] in L2.
    destruct (IH s2 G2 ltac:(by rewrite T2)) as (s' & E' & G' & V' & C'); [lia|]. exists s'. split; [done|]. split; [done|]. split; [|done].
    etransitivity; [exact V1|]. by etransitivity.
Qed.
End Calls.

Context (rank : Z -> nat) {Hcalls : GpioCallbacks rank}.

Lemma invoke_safe run depth : forall c a s, (rank c < depth)%nat -> ginv run s.1 -> safe_to run s (invoke gcall openf TRIP depth c a s).
Proof.
  induction depth as [|depth IH]; intros c a s Hr H; [lia|]. cbn [invoke]. pose proof (acts_ranked c a s.2) as Ha.
  destruct (gcall c a s.2) as [acts w]. cbn [fst] in Ha.
  assert (Hlow : forall c' a' s', (rank c' < rank c)%nat -> ginv run s'.1 -> safe_to run s' (invoke gcall openf TRIP depth c' a' s')).
  { intros c' a' s' Hc'. apply IH. lia. }
  exact (performs_safe run _ (fun c' => (rank c' < rank c)%nat) Hlow acts (s.1, w) Ha H).
Qed.

(** ** The interrupt *)

(** Leaving the callback of the descriptor [f]. *)
Lemma returned_inv s f r n : ginv (Some f) s -> 0 <= f -> entry (gfds s) f = Some n ->
  (get (einCallback n) FdRead = 1 \/ get (einCallback n) FdRead = 2) -> ginv None (set_gfds s (fd_returned (gfds s) f FdRead r)).
Proof.
  intros H Hf E Hic. destruct (fd_returned_wf (gfds s) f FdRead n r (g_wf _ _ H) Hf E) as (R1 & R2 & R3).
  set (t := fd_returned _ _ _ _) in *. split.
  - exact R1.
  - apply (g_tripped _ _ H).
  - apply (g_waiting _ _ H).
  - intros i Hi. change (intr (set_gfds s t) i) with (intr s i) in *. change (gfds (set_gfds s t)) with t.
    destruct (g_watched _ _ H i Hi) as (m & M1 & M2 & M3 & M4 & M5). destruct (decide (ifd (intr s i) = f)) as [Ef|Ef].
    + rewrite Ef in *. rewrite E in M1. injection M1 as <-. specialize (M5 eq_refl). exists (with_einCallback n FdRead 0).
      rewrite R2. unfold after_fd_callback. rewrite M5, andb_false_r. split_and!; done.
    + exists m. rewrite R3 by done. split_and!; try done.
  - apply (g_balance _ _ H).
  - intros g [=].
Qed.

(** Entering it: no interrupt but that of [i] has the descriptor. *)
Lemma entered_inv s f i n d : ginv None s -> 0 <= f -> entry (gfds s) f = Some n -> get (cb n) FdRead = Some TRIP ->
  i = (get (earg n) FdRead =? 1) -> (tripped d <> 0) -> ifd d <= 0 -> callbacks d = callbacks (intr s i) ->
  ginv (Some f) (set_intr (set_gfds s (fd_entered (gfds s) f FdRead)) i d).
Proof.
  intros H Hf E Hcb Hi Ht Hd Hc. assert (Hhas : has (Some n) FdRead = true) by (unfold has; by rewrite Hcb).
  destruct (fd_entered_wf (gfds s) f FdRead n (g_wf _ _ H) Hf E Hhas) as (P1 & P2 & P3).
  set (t := fd_entered _ _ _) in *. set (s' := set_intr _ i d).
  assert (Hin : forall j, intr s' j = if decide (i = j) then d else intr s j) by (intros j; apply (intr_set (set_gfds s t) i)).
  assert (Hg : gfds s' = t) by (by destruct i). assert (Hh : hist s' = hist s) by (by destruct i). split.
  - by rewrite Hg.
  - intros j. rewrite Hin. case_decide; [done|]. apply H.
  - intros j. rewrite Hin. case_decide; [done|]. apply H.
  - intros j. rewrite Hin, Hg. case_decide as Ej; [lia|]. intros Hj. destruct (g_watched _ _ H j Hj) as (m & M1 & M2 & M3 & M4 & _).
    assert (Hne : ifd (intr s j) <> f).
    { intros Ef. rewrite Ef, E in M1. injection M1 as <-. apply Ej. rewrite Hi, M3. by destruct j. }
    exists m. rewrite P3 by done. split_and!; try done. congruence.
  - intros j x. rewrite Hh, (g_balance _ _ H), Hin. case_decide; [subst j|done]. unfold waiting. by rewrite Hc.
  - intros g [= <-]. split; [done|]. rewrite Hg. exists (count_entry n FdRead). split; [done|by left].
Qed.

(** A read that does not tell of the interrupt. *)
Lemma kept_inv s f n : ginv None s -> 0 <= f -> entry (gfds s) f = Some n -> get (cb n) FdRead = Some TRIP ->
  ginv None (set_gfds s (fd_returned (fd_entered (gfds s) f FdRead) f FdRead EVENT_KEEP)).
Proof.
  intros H Hf E Hcb. assert (Hhas : has (Some n) FdRead = true) by (unfold has; by rewrite Hcb).
  destruct (fd_entered_wf (gfds s) f FdRead n (g_wf _ _ H) Hf E Hhas) as (P1 & P2 & P3).
  set (t := fd_entered _ _ _) in *. destruct (fd_returned_wf t f FdRead _ EVENT_KEEP P1 Hf P2) as (R1 & R2 & R3).
  set (t1 := fd_returned _ _ _ _) in *. split.
  - exact R1.
  - apply (g_tripped _ _ H).
  - apply (g_waiting _ _ H).
  - intros i Hi. change (intr (set_gfds s t1) i) with (intr s i) in *. change (gfds (set_gfds s t1)) with t1.
    destruct (g_watched _ _ H i Hi) as (m & M1 & M2 & M3 & M4 & _). destruct (decide (ifd (intr s i) = f)) as [Ef|Ef].
    + rewrite Ef in *. rewrite E in M1. injection M1 as <-. eexists. rewrite R2. split; [reflexivity|]. done.
    + exists m. by rewrite R3, P3.
  - apply (g_balance _ _ H).
  - intros g [=].
Qed.

(** What holds between the turns of the loop: an interrupt that has happened
    leaves no callback waiting. *)
Definition settled (s : gpio) : Prop := forall i, tripped (intr s i) <> 0 -> callbacks (intr s i) = [].

Lemma settled_evolves s s' : settled s -> evolves s s' -> settled s'.
Proof.
  intros S V i Hi. destruct (V i) as [T L]. rewrite T in Hi. specialize (L Hi). rewrite (S i Hi) in L.
  by destruct (callbacks (intr s' i)); [|cbn in L; lia].
Qed.

(** The loop finds a descriptor ready. *)
Lemma ready_safe depth f buff s : (forall c, (rank c < depth)%nat) -> 0 <= f -> ginv None s.1 -> settled s.1 ->
  exists s', gpio_ready gcall openf TRIP depth f buff s = Some s' /\ ginv None s'.1 /\ settled s'.1 /\
    (forall i, tripped (intr s.1 i) <> 0 -> tripped (intr s'.1 i) <> 0).
Proof.
  intros Hd Hf H S. unfold gpio_ready. destruct (entry (gfds s.1) f) as [n|] eqn:E; [|by exists s].
  destruct (decide (get (cb n) FdRead = Some TRIP)) as [Hcb|]; [|by exists s].
  set (i := get (earg n) FdRead =? 1). set (t := fd_entered _ _ _). unfold trip_gpio_intr_callback.
  assert (Hkeep : exists s', (r ← Some (EVENT_KEEP, (set_gfds s.1 t, s.2)); Some (set_gfds r.2.1 (fd_returned (gfds r.2.1) f FdRead r.1), r.2.2)) = Some s' /\
    ginv None s'.1 /\ settled s'.1 /\ (forall i, tripped (intr s.1 i) <> 0 -> tripped (intr s'.1 i) <> 0)).
  { eexists. split; [reflexivity|]. split; [exact (kept_inv s.1 f n H Hf E Hcb)|]. split; [exact S|]. by intros j Hj. }
  destruct (negb _); [exact Hkeep|]. destruct (negb _); [exact Hkeep|]. cbn [fst snd]. change (intr (set_gfds s.1 t) i) with (intr s.1 i).
  set (d := Intr _ TRIPPED _). set (s1 := set_intr _ i d).
  assert (G1 : ginv (Some f) s1).
  { apply (entered_inv s.1 f i n d H Hf E Hcb eq_refl); [done|cbn; destruct (Z.ltb_spec 0 (ifd (intr s.1 i))); lia|done]. }
  assert (Hin : forall j, intr s1 j = if decide (i = j) then d else intr s.1 j) by (intros j; apply (intr_set (set_gfds s.1 t) i)).
  assert (Hi : intr s1 i = d) by (by rewrite Hin, decide_True).
  destruct (trip_loop_safe (Some f) (invoke gcall openf TRIP depth) (fun c => (rank c < depth)%nat) (invoke_safe (Some f) depth) i Hd
    (length (callbacks (intr s.1 i))) (s1, s.2) G1) as (s2 & -> & G2 & V2 & C2); [cbn [fst]; by rewrite Hi|cbn [fst]; by rewrite Hi|].
  cbn [mbind option_bind fst snd]. destruct (g_run _ _ G2 f eq_refl) as (_ & m & M1 & M2).
  eexists. split; [reflexivity|]. cbn [fst]. split; [by apply (returned_inv s2.1 f EVENT_REMOVE m)|].
  split; intros j; change (intr (set_gfds s2.1 ?x) j) with (intr s2.1 j); destruct (V2 j) as [T L]; cbn [fst] in T, L; rewrite Hin in T, L.
  - intros Hj. destruct (decide (i = j)) as [<-|Hne]; [done|]. rewrite T in Hj. specialize (L Hj). rewrite (S j Hj) in L.
    by destruct (callbacks (intr s2.1 j)); [|cbn in L; lia].
  - rewrite T. by case_decide.
Qed.

Definition op_ok (o : gop) : Prop := match o with OpAct a => act_ok (fun _ => True) a | OpReady f _ => 0 <= f end.

Lemma gpio_steps_safe depth ops : (forall c, (rank c < depth)%nat) -> Forall op_ok ops -> forall s, ginv None s.1 -> settled s.1 ->
  exists s', gpio_steps gcall openf TRIP depth ops s = Some s' /\ ginv None s'.1 /\ settled s'.1 /\
    (forall i, tripped (intr s.1 i) <> 0 -> tripped (intr s'.1 i) <> 0).
Proof.
  intros Hd. induction 1 as [|o ops Ho _ IH]; intros s H S; [by exists s|]. cbn [gpio_steps].
  assert (exists s1, gpio_step gcall openf TRIP depth o s = Some s1 /\ ginv None s1.1 /\ settled s1.1 /\
    (forall i, tripped (intr s.1 i) <> 0 -> tripped (intr s1.1 i) <> 0)) as (s1 & -> & G1 & S1 & T1).
  { destruct o as [a|f buff]; cbn [gpio_step op_ok] in *; [|by apply ready_safe].
    destruct (perform_safe None (invoke gcall openf TRIP depth) (fun _ => True) ltac:(intros c a' s' _; by apply invoke_safe) a s Ho H) as (s1 & E & G & V).
    exists s1. split_and!; try done; [by eapply settled_evolves|]. intros i. by destruct (V i) as [-> _]. }
  cbn [mbind option_bind]. destruct (IH s1 G1 S1) as (s' & E & G & S' & T). exists s'. split_and!; try done. auto.
Qed.

(** The handler before the first call. *)
Definition gpio_fresh (t : fds) : gpio := Gp (Intr 0 0 []) (Intr 0 0 []) t [].

Lemma fresh_inv t : fd_wf t -> ginv None (gpio_fresh t) /\ settled (gpio_fresh t).
Proof.
  intros Hw. split; [|by intros []]. split; try done; try (by intros []).
Qed.

(** C35. Interrupts: for any sequence of calls of the interface and of files
    that become readable, with whatever they say, where callbacks themselves
    may add callbacks of a lower rank and remove any, nothing faults and all
    calls return. A callback that was accepted is called once or was removed,
    or it still waits; when the interrupt has happened none waits. While one
    waits, its file is open and watched without keeping the loop alive, and
    the table of descriptors stays well formed. Conditions: [EVT_fd_add] has
    memory ([Demo.failure_unseen] shows what happens without), open gives a
    new descriptor that is not 0 ([Demo.descriptor_zero_forgets]) or a
    positive errno, and every registration has a callback. *)
Theorem gpio_exactly_once depth ops t w :
  (forall c, (rank c < depth)%nat) -> Forall op_ok ops -> fd_wf t ->
  exists s w', gpio_steps gcall openf TRIP depth ops (gpio_fresh t, w) = Some (s, w') /\ fd_wf (gfds s) /\
    (forall i x, balance (hist s) i x = waiting (intr s i) x) /\
    (forall i, tripped (intr s i) <> 0 -> callbacks (intr s i) = [] /\ forall x, balance (hist s) i x = 0) /\
    (forall i, callbacks (intr s i) <> [] -> exists n, entry (gfds s) (ifd (intr s i)) = Some n /\
       get (cb n) FdRead = Some TRIP /\ get (earg n) FdRead = Z.b2z i /\ ecritical n = false).
Proof.
  intros Hd Ho Hw. destruct (fresh_inv t Hw) as [G0 S0].
  destruct (gpio_steps_safe depth ops Hd Ho (gpio_fresh t, w) G0 S0) as ([s w'] & E & G & S & _). exists s, w'. cbn [fst] in *.
  split; [done|]. split; [apply G|]. split; [apply G|]. split.
  - intros i Hi. split; [by apply S|]. intros x. rewrite (g_balance _ _ G). unfold waiting. by rewrite (S i Hi).
  - intros i Hne. destruct (decide (tripped (intr s i) = 0)) as [H0|H0]; [|by specialize (S i H0)].
    destruct (g_watched _ _ G i (g_waiting _ _ G i H0 Hne)) as (n & N1 & N2 & N3 & N4 & _). by exists n.
Qed.
End Facts.

(** ** Examples *)

(** Callback 1 adds callback 2, which removes callback 3; they log their
    arguments. *)
Definition demo_gcall (c a : Z) (w : list Z) : list gact * list Z :=
  (if c =? 1 then [GAdd false (Some 2) (a + 1) true true] else if c =? 2 then [GRemove false (Some 3) 9] else [], w ++ [a]).
Definition demo_rank (c : Z) : nat := if c =? 1 then 1%nat else 0%nat.
Definition demo_open (i : bool) (used : list Z) : Z + Z := inr (foldr Z.max 0 used + 1).

#[export] Instance demo_open_ok : GpioOpen demo_open.
Proof.
  split; intros i used z; [|done]. intros [= <-]. assert (H : 0 <= foldr Z.max 0 used /\ forall x, x ∈ used -> x <= foldr Z.max 0 used).
  { induction used as [|y l [H1 H2]]; cbn; [split; [done|]; by intros x ?%elem_of_nil|]. split; [lia|]. intros x [->|Hx]%elem_of_cons; [lia|]. specialize (H2 x Hx). lia. }
  destruct H as [H1 H2]. split; [lia|]. intros Hx. specialize (H2 _ Hx). lia.
Qed.

#[export] Instance demo_gcall_ok : GpioCallbacks demo_gcall demo_rank.
Proof.
  split. intros c a w. unfold demo_gcall. destruct (Z.eqb_spec c 1) as [->|]; cbn; [|destruct (c =? 2); repeat constructor].
  repeat constructor.
Qed.

Lemma gpio_exactly_once_witness :
  let ops := [OpAct (GAdd false (Some 3) 9 true true); OpAct (GAdd false (Some 1) 5 true true); OpReady 1 [78; 10]; OpReady 1 [89; 10];
              OpAct (GAdd false (Some 4) 7 true true)] in
  (exists s w', gpio_steps demo_gcall demo_open 70 2 ops (gpio_fresh (fds_init 3), []) = Some (s, w') /\ fd_wf (gfds s) /\
    (forall i x, balance (hist s) i x = waiting (intr s i) x) /\
    (forall i, tripped (intr s i) <> 0 -> callbacks (intr s i) = [] /\ forall x, balance (hist s) i x = 0) /\
    (forall i, callbacks (intr s i) <> [] -> exists n, entry (gfds s) (ifd (intr s i)) = Some n /\
       get (cb n) FdRead = Some 70 /\ get (earg n) FdRead = Z.b2z i /\ ecritical n = false)) /\
  (fun r => r.2) <$> gpio_steps demo_gcall demo_open 70 2 ops (gpio_fresh (fds_init 3), []) = Some [5; 6; 7].
Proof.
  intros ops. split; [|vm_compute; reflexivity].
  apply (gpio_exactly_once demo_gcall demo_open 70 demo_rank 2 ops (fds_init 3) []).
  - intros c. unfold demo_rank. destruct (c =? 1); lia.
  - repeat constructor; discriminate.
  - by apply fds_init_wf.
Defined.

Module Demo.
(** Without memory for the entry of the descriptor the failure is not seen: the
    callback is accepted, and nothing watches the file. *)
Lemma failure_unseen :
  exists s w, perform demo_open 70 (fun _ _ s => Some s) (GAdd false (Some 3) 9 false true) (gpio_fresh (fds_init 3), tt) = Some (s, w) /\
    hist s = [HReg false (Some 3, 9)] /\ get (eventSet (gfds s)) FdRead = ∅.
Proof. eexists _, _. split; [vm_compute; reflexivity|]. by split. Qed.

(** A descriptor 0 counts as none: the next call forgets the callbacks that
    wait. *)
Lemma descriptor_zero_forgets :
  exists s w, performs (fun _ _ => inr 0) 70 (fun _ _ s => Some s) [GAdd false (Some 3) 9 true true; GAdd false (Some 4) 9 true true]
      (gpio_fresh (fds_init 3), tt) = Some (s, w) /\
    hist s = [HReg false (Some 3, 9); HReg false (Some 4, 9)] /\ callbacks (intr s false) = [(Some 4, 9)].
Proof. eexists _, _. split; [vm_compute; reflexivity|]. by split. Qed.
End Demo.
