(* ===== verification/Handler.v ===== *)
(** * Creating and freeing an event handler (events.c)

    [EVT_initWithSize] allocates the handler, its two queues and its timer;
    [EVT_free_handler] runs what was deferred, removes every descriptor event
    with its cleanup callback (recorded, as in FdEvents, and not run), and frees
    the timed events.  Blocks that stay allocated after a failure are named. *)

From stdpp Require Import base gmap sets list numbers sorting.
From Stdlib Require Import ZArith Lia.
From S2P Require Import Prelude CStr PriorityQueue Sched FdEvents EventLoop Zmqlite.
Open Scope Z_scope.

(** ** Creation *)

Inductive block := BQueueData | BDbgQueue | BDbgQueueData.

(** "ENABLED" and "STOPPED" *)
Definition ENABLED : list Z := [69; 78; 65; 66; 76; 69; 68].
Definition STOPPED : list Z := [83; 84; 79; 80; 80; 69; 68].

(** The debugger's state from the environment. *)
Definition initial_debugger (dbg_state : option (list Z)) : EVTDebuggerState :=
  match dbg_state with
  | None => EDBG_DISABLED
  | Some v => if same_name v ENABLED then EDBG_ENABLED else if same_name v STOPPED then EDBG_STOPPED else EDBG_DISABLED
  end.

(** With the outcomes of the allocations; [timer] is what [ET_default_init]
    returns, [null] the address of [null_evt].  On failure: what is lost. *)
Definition EVT_initWithSize {T} (hashSize : Z) (dbg_state : option (list Z)) (state_ok q_ok qd_ok dq_ok dqd_ok : bool) (timer : option T)
    (null : ptr) : EventState T + list block :=
  if negb state_ok then inr []
  else
    let st := initial_debugger dbg_state in
    match ps_pqueue_init q_ok qd_ok (Z.to_nat hashSize) with
    | None => inr []
    | Some q =>
        match ps_pqueue_init dq_ok dqd_ok (Z.to_nat hashSize) with
        | None => inr [BQueueData]
        | Some dq =>
            match timer with
            | None => inr [BQueueData; BDbgQueue; BDbgQueueData]
            | Some t =>
                inl (ES (Sched {[null := SCB (TV 0 0) (TV 0 0) 0 0 (Some 0%nat) (TV 0 0) Main 0 false false 0]} q dq 0 None null)
                       (fds_init hashSize) t true false st
                       (match st with EDBG_DISABLED => EDBG_DISABLED | _ => EDBG_ENABLED end)
                       false 0 false None None 0 0 0 [])
            end
        end
    end.

Definition EVT_create_handler {T} := @EVT_initWithSize T 19.

(** ** Freeing *)

Definition set_bucket (s : fds) (i : nat) (c : list EventCB) : fds :=
  Fds (hashSize s) (<[i:=c]> (events s)) (eventSet s) (blockedSet s) (maxFd s) (maxFds s) (eventCnt s) (critical_fd_count s) (calls s).

(** [EVT_remove_internal(ctx, &ctx->events[i], event)]: on whatever is first. *)
Definition remove_head (i : nat) (s : fds) (e : fd_event) : fds :=
  match events s !! i with
  | Some (n :: c) => let '(s1, o) := EVT_remove_internal s n e in set_bucket s1 i (option_list o ++ c)
  | _ => s
  end.

(** The inner while loop. *)
Fixpoint free_bucket (fuel : nat) (i : nat) (s : fds) : option fds :=
  match events s !! i with
  | Some (_ :: _) =>
      match fuel with O => None | S fuel' => free_bucket fuel' i (foldl (remove_head i) s all_events) end
  | _ => Some s
  end.

(** Three callbacks for each entry are enough. *)
Fixpoint free_buckets (idx : list nat) (s : fds) : option fds :=
  match idx with
  | [] => Some s
  | i :: idx' => s' ← free_bucket (3 * length (default [] (events s !! i))) i s; free_buckets idx' s'
  end.

(** The loop over a queue of timed events. *)
Fixpoint free_queue (fuel : nat) (null : ptr) (m : sched_mem) (q : ps_pqueue_t) : option (sched_mem * ps_pqueue_t) :=
  match ps_pqueue_peek (Some q) with
  | None => Some (m, q)
  | Some p =>
      match fuel with
      | O => None
      | S fuel' =>
          match ps_pqueue_pop cmp_pri m (Some q) with
          | (_, m1, Some q1) => free_queue fuel' null (if decide (p = null) then m1 else delete p m1) q1
          | _ => None
          end
      end
  end.

Section Free.
Context {T W : Type}.
Context (sched_cb : Z -> Z -> EventState T -> W -> Z * EventState T * W).

Definition remove_evt (evt : option ptr) (s : EventState T) : EventState T :=
  match evt with Some _ => upd_sched s (EVT_sched_remove (sch s) evt).2 | None => s end.

(** What is left when the handler itself is freed: the timed events in memory,
    the queues, the descriptor events; [fuel] bounds the deferred callbacks,
    [srv] is the debugger's server. *)
Definition EVT_free_handler (fuel : nat) (srv : option zworld) (breakpoint_evt dump_evt : option ptr) (s : EventState T) (w : W)
    : option (sched_mem * fds * W) :=
  '(s1, w1) ← run_deferred sched_cb fuel s w;
  let s2 := match srv with
            | Some z => upd_fds s1 (table (zmql_destroy_tcp_server (ZW (server z) (pool z) (fdt s1) (closed z) (trace z))))
            | None => s1
            end in
  let s3 := remove_evt (dbg_reply_evt s2) (remove_evt dump_evt (remove_evt breakpoint_evt s2)) in
  t ← free_buckets (seq 0 (Z.to_nat (hashSize (fdt s3)))) (fdt s3);
  '(m1, q1) ← free_queue (size (queue (sch s3))) (null_evt (sch s3)) (heap (sch s3)) (queue (sch s3));
  '(m2, _) ← free_queue (size (dbg_queue (sch s3))) (null_evt (sch s3)) m1 (dbg_queue (sch s3));
  Some (m2, t, w1).
End Free.

(** ** Descriptor events *)

Definition due_entry (n : EventCB) : list (Z * fd_event * Z) :=
  omap (fun e => if has (Some n) e then k ← get (cleanup n) e; Some (k, e, get (earg n) e) else None) all_events.

(** The cleanup callbacks that are still to be called, with their arguments. *)
Definition due (s : fds) : list (Z * fd_event * Z) := concat (due_entry <$> concat (events s)).

Definition idle_entry (n : EventCB) : Prop := forall e, get (einCallback n) e = 0.
Definition idle_all (s : fds) : Prop := Forall idle_entry (concat (events s)).

Definition cb_count (n : EventCB) : nat := length (filter (fun e => has (Some n) e = true) all_events).
Definition cb_total (c : list EventCB) : nat := sum_list_with cb_count c.

Lemma drop_none n e : has (Some n) e = false -> drop_event n e = Some n.
Proof. intros H. unfold drop_event. by rewrite H. Qed.

Lemma drop_due n e : has (Some n) e = true ->
  match get (cleanup n) e with Some k => [(k, e, get (earg n) e)] | None => [] end ++ concat (due_entry <$> option_list (drop_event n e)) ≡ₚ due_entry n.
Proof.
  destruct n as [[r w x] [kr kw kx] [ar aw ax] ? ? ? ? ? ?]. unfold drop_event, due_entry, has. cbn.
  destruct e; cbn; destruct r, w, x; intros [=]; cbn; destruct kr, kw, kx; cbn; try done; solve_Permutation.
Qed.

Lemma drop_count n e : has (Some n) e = true -> (S (cb_total (option_list (drop_event n e))) = cb_count n)%nat.
Proof.
  destruct n as [[r w x] ? ? ? ? ? ? ? ?]. unfold drop_event, cb_count, cb_total, has. cbn.
  destruct e; cbn; destruct r, w, x; intros [=]; done.
Qed.

Lemma drop_idle n e n' : idle_entry n -> drop_event n e = Some n' -> idle_entry n'.
Proof. intros H. unfold drop_event. destruct (has _ e); [|by intros [= <-]]. destruct (existsb _ _); [|done]. intros [= <-]. exact H. Qed.

(** What one call does to the bucket and to what is due. *)
Definition freed_to (s s' : fds) : Prop := fd_wf s' /\ idle_all s' /\ hashSize s' = hashSize s /\ calls s' ++ due s' ≡ₚ calls s ++ due s.

Lemma bucket_split (s : fds) i c c' : events s !! i = Some c ->
  concat (events s) = concat (take i (events s)) ++ c ++ concat (drop (S i) (events s)) /\
  concat (<[i:=c']> (events s)) = concat (take i (events s)) ++ c' ++ concat (drop (S i) (events s)).
Proof.
  intros H. split.
  - rewrite <- (take_drop_middle _ _ _ H) at 1. by rewrite concat_app.
  - rewrite insert_take_drop by (by eapply lookup_lt_Some). by rewrite concat_app.
Qed.

Lemma remove_head_spec s i n c e : fd_wf s -> idle_all s -> events s !! i = Some (n :: c) ->
  freed_to s (remove_head i s e) /\ events (remove_head i s e) = <[i := option_list (drop_event n e) ++ c]> (events s).
Proof.
  intros Hw Hi Hb. pose proof Hw as (_ & Hc & _). destruct (Hc i _ Hb) as [HF Hnd]. inversion HF as [|? ? (N1 & N2 & N3) _]; subst.
  rewrite fmap_cons in Hnd. apply list.NoDup_cons in Hnd as [Hnd _].
  destruct (bucket_split s (bucket_of s (fd n)) (n :: c) (option_list (drop_event n e) ++ c) Hb) as [C1 C2].
  assert (Hin : get (einCallback n) e = 0).
  { unfold idle_all in Hi. rewrite C1, !list.Forall_app, list.Forall_cons in Hi. apply Hi. }
  assert (Hch : chain s (fd n) = n :: c) by (unfold chain; by rewrite Hb).
  assert (He : entry s (fd n) = Some n) by (unfold entry; rewrite Hch; cbn [find_fd]; by rewrite Z.eqb_refl).
  pose proof (remove_internal_wf s (fd n) n e [] c Hw N1 He Hin Hch ltac:(apply not_elem_of_nil) Hnd) as (W & _).
  assert (Hidle : Forall idle_entry (concat (<[bucket_of s (fd n) := option_list (drop_event n e) ++ c]> (events s)))).
  { rewrite C2. unfold idle_all in Hi. rewrite C1, !list.Forall_app, list.Forall_cons in Hi. destruct Hi as (I1 & (I2 & I3) & I4).
    rewrite !list.Forall_app. split_and!; try done. destruct (drop_event n e) as [n'|] eqn:Ed; [|done]. repeat constructor. by eapply drop_idle. }
  unfold remove_head. rewrite Hb. destruct (has (Some n) e) eqn:Eh.
  - cbn [has] in Eh. destruct (get (cb n) e) as [c0|] eqn:Ecb; [|done]. rewrite (remove_internal_eq s n e c0 Ecb) in W |- *. cbn [fst snd] in W.
    split; [|done]. split; [exact W|]. split; [exact Hidle|]. split; [done|]. unfold due. cbn [set_bucket events calls].
    rewrite C1, C2, !fmap_app, !concat_app, fmap_cons. cbn [concat].
    rewrite <- (drop_due n e) by (unfold has; by rewrite Ecb). destruct (get (cleanup n) e); cbn [app]; solve_Permutation.
  - assert (E : EVT_remove_internal s n e = (s, Some n)).
    { unfold EVT_remove_internal. cbn [has] in Eh. by destruct (get (cb n) e). }
    rewrite E in W |- *. rewrite (drop_none n e Eh) in *.
    assert (Es : set_bucket s (bucket_of s (fd n)) (option_list (Some n) ++ c) = s).
    { unfold set_bucket. cbn [option_list app]. rewrite list_insert_id by done. by destruct s. }
    rewrite Es. split; [done|]. cbn [option_list app]. by rewrite list_insert_id.
Qed.

Lemma freed_trans s1 s2 s3 : freed_to s1 s2 -> freed_to s2 s3 -> freed_to s1 s3.
Proof. intros (_ & _ & H1 & P1) (W & I & H2 & P2). split_and!; try done; [congruence|]. by rewrite P2. Qed.

Lemma insert_bucket (s : fds) i (c c' : list EventCB) : events s !! i = Some c -> <[i:=c']> (events s) !! i = Some c'.
Proof. intros H. apply list_lookup_insert_eq. by eapply lookup_lt_Some. Qed.

(** A pass over the events leaves fewer callbacks, if the first entry has one of
    them; it changes no other bucket. *)
Lemma free_pass i es : forall s c, fd_wf s -> idle_all s -> events s !! i = Some c ->
  let s' := foldl (remove_head i) s es in
  freed_to s s' /\ exists c', events s' = <[i:=c']> (events s) /\ (cb_total c' <= cb_total c)%nat /\
    (forall n c0 e, c = n :: c0 -> e ∈ es -> has (Some n) e = true -> (cb_total c' < cb_total c)%nat).
Proof.
  induction es as [|e es IH]; intros s c Hw Hi Hb; cbn [foldl].
  - split; [done|]. exists c. rewrite list_insert_id by done. split_and!; [done|lia|]. intros n c0 e _ He. by apply elem_of_nil in He.
  - destruct c as [|n c].
    + assert (E : remove_head i s e = s) by (unfold remove_head; by rewrite Hb). rewrite E.
      destruct (IH s [] Hw Hi Hb) as (F & c' & C1 & C2 & _). split; [done|]. exists c'. split_and!; try done.
    + destruct (remove_head_spec s i n c e Hw Hi Hb) as [F1 E1]. set (s1 := remove_head i s e) in *. pose proof F1 as (W1 & I1 & _).
      destruct (IH s1 (option_list (drop_event n e) ++ c) W1 I1) as (F & c' & C1 & C2 & C3).
      { rewrite E1. by eapply insert_bucket. }
      split; [by eapply freed_trans|]. exists c'. rewrite E1, list_insert_insert_eq in C1. split; [done|].
      assert (Ha : forall l k, cb_total (l ++ k) = (cb_total l + cb_total k)%nat) by (intros; apply sum_list_with_app).
      rewrite Ha in C2, C3. assert (Hc : cb_total (n :: c) = (cb_count n + cb_total c)%nat) by done. rewrite Hc.
      destruct (has (Some n) e) eqn:Eh.
      * pose proof (drop_count n e Eh) as Hd. split; [lia|]. intros. lia.
      * rewrite (drop_none n e Eh) in *. assert (Ho : cb_total (option_list (Some n)) = cb_count n) by (cbn; lia). rewrite Ho in C2, C3. cbn [option_list app] in C3. split; [lia|]. intros n0 c0 e0 [= <- <-] Hin Hh.
        apply elem_of_cons in Hin as [->|Hin]; [congruence|]. specialize (C3 n c e0 eq_refl Hin Hh). lia.
Qed.

Lemma free_bucket_spec i fuel : forall s c, fd_wf s -> idle_all s -> events s !! i = Some c -> (cb_total c <= fuel)%nat ->
  exists s', free_bucket fuel i s = Some s' /\ freed_to s s' /\ events s' = <[i:=[]]> (events s).
Proof.
  induction fuel as [|fuel IH]; intros s c Hw Hi Hb Hf; destruct c as [|n c].
  1,3: exists s; cbn [free_bucket]; rewrite Hb, list_insert_id by done; done.
  all: pose proof Hw as (_ & Hc & _); destruct (Hc i _ Hb) as [HF _]; inversion HF as [|? ? (_ & _ & N3) _]; subst; destruct N3 as [[e He] _].
  - exfalso. pose proof (drop_count n e He) as Hd. unfold cb_total in Hf. cbn [sum_list_with] in Hf. lia.
  - cbn [free_bucket]. rewrite Hb.
    destruct (free_pass i all_events s (n :: c) Hw Hi Hb) as (F & c' & C1 & C2 & C3). set (s1 := foldl _ _ _) in *. pose proof F as (W1 & I1 & _).
    assert (Hin : e ∈ all_events) by (destruct e; set_solver). specialize (C3 n c e eq_refl Hin He).
    destruct (IH s1 c' W1 I1) as (s' & E & F' & E'); [rewrite C1; by eapply insert_bucket|lia|].
    exists s'. split; [done|]. split; [by eapply freed_trans|]. by rewrite E', C1, list_insert_insert_eq.
Qed.

Lemma cb_total_le c : (cb_total c <= 3 * length c)%nat.
Proof.
  unfold cb_total. induction c as [|n c IH]; [done|]. cbn [sum_list_with length].
  assert (cb_count n <= 3)%nat by (unfold cb_count; etransitivity; [apply length_filter|done]). lia.
Qed.

Lemma free_buckets_spec idx : forall s, fd_wf s -> idle_all s -> (forall i, i ∈ idx -> (i < length (events s))%nat) ->
  exists s', free_buckets idx s = Some s' /\ freed_to s s' /\ length (events s') = length (events s) /\
    forall i c, events s' !! i = Some c -> i ∈ idx \/ events s !! i = Some [] -> c = [].
Proof.
  induction idx as [|i idx IH]; intros s Hw Hi Hlt; cbn [free_buckets].
  - exists s. split_and!; try done. intros i c Hc [Hin|Hn]; [by apply elem_of_nil in Hin|congruence].
  - destruct (lookup_lt_is_Some_2 (events s) i) as [c Hb]; [apply Hlt; left|]. rewrite Hb. cbn [default from_option id].
    destruct (free_bucket_spec i _ s c Hw Hi Hb (cb_total_le c)) as (s1 & -> & F1 & E1). cbn [mbind option_bind]. pose proof F1 as (W1 & I1 & _).
    destruct (IH s1 W1 I1) as (s' & -> & F & L & E); [intros j Hj; rewrite E1, length_insert; apply Hlt; by right|].
    exists s'. split; [done|]. split; [by eapply freed_trans|]. split; [by rewrite L, E1, length_insert|].
    intros j c' Hc' Hj. apply (E j c' Hc'). destruct (decide (j = i)) as [->|Hne].
    + right. rewrite E1. by eapply insert_bucket.
    + destruct Hj as [[->|Hj]%elem_of_cons|Hj]; [done|by left|]. right. rewrite E1. by rewrite list_lookup_insert_ne.
Qed.

(** All of it: nothing is registered, and every cleanup callback was called
    once. *)
Lemma free_fds_spec s : fd_wf s -> idle_all s ->
  exists s', free_buckets (seq 0 (Z.to_nat (hashSize s))) s = Some s' /\ fd_wf s' /\ concat (events s') = [] /\ calls s' ≡ₚ calls s ++ due s.
Proof.
  intros Hw Hi. pose proof Hw as ((_ & Hl) & _). destruct (free_buckets_spec (seq 0 (Z.to_nat (hashSize s))) s Hw Hi) as (s' & E & F & L & B).
  { intros i Hin. apply elem_of_seq in Hin. lia. }
  destruct F as (W & _ & _ & P). assert (Hc : concat (events s') = []).
  { apply concat_nil_Forall. apply list.Forall_lookup. intros i c Hic. apply (B i c Hic). left. apply elem_of_seq.
    apply lookup_lt_Some in Hic. lia. }
  exists s'. split_and!; try done. rewrite <- P. unfold due. by rewrite Hc, app_nil_r.
Qed.

(** ** Timed events *)

(** The blocks of memory, and freeing a queue of them. *)
Lemma free_queue_spec null fuel : forall m q, pq_wf m q -> (size q <= fuel)%nat ->
  exists m' q', free_queue fuel null m q = Some (m', q') /\ dom m' = dom m ∖ (list_to_set (contents q) ∖ {[null]}) /\
    (forall q2, pq_wf m q2 -> (forall x, x ∈ contents q2 -> x ∉ contents q) -> pq_wf m' q2).
Proof.
  induction fuel as [|fuel IH]; intros m q Hq Hf; pose proof (cells_bounds q (proj1 (proj1 Hq))) as Hb; [lia|].
  cbn [free_queue]. unfold ps_pqueue_peek. destruct (Nat.eqb_spec (size q) 1) as [E|E].
  - assert (Hc : contents q = []) by (unfold contents; by rewrite E). exists m, q. rewrite Hc. split; [done|]. split; [set_solver|done].
  - pose proof (pop_unfold cmp_pri m q E) as Hp. set (p := d q !!! 1%nat) in *. set (r := percolate_down cmp_pri m (filled q 1) 1) in *. rewrite Hp.
    destruct (pop_heap cmp_pri _ _ _ _ _ (wf_heap _ _ Hq) Hp) as (_ & P1 & P2 & P3 & P4 & P5 & _). pose proof (pop_wf cmp_pri _ _ _ _ _ Hq Hp) as W1.
    assert (Hnd : p ∉ contents r.2).
    { pose proof (contents_NoDup _ _ Hq) as Hn. rewrite P1 in Hn. by apply list.NoDup_cons in Hn as [? _]. }
    set (m2 := if decide (p = null) then r.1 else delete p r.1).
    assert (Hother : forall q2, pq_wf r.1 q2 -> p ∉ contents q2 -> pq_wf m2 q2).
    { intros q2 W2 Hn. unfold m2. case_decide; [done|]. eapply pq_wf_untouched; [exact W2|]. intros x Hx. assert (x <> p) by congruence.
      cbn. unfold get_pri, get_pos. by rewrite lookup_delete_ne. }
    destruct (IH m2 r.2 (Hother _ W1 Hnd)) as (m' & q' & Ef & Ed & Eo); [lia|]. exists m', q'. split; [exact Ef|]. split.
    + rewrite Ed, P1. assert (D1 : dom r.1 = dom m) by (apply set_eq; intros x; rewrite !elem_of_dom; apply P3).
      cbn [list_to_set]. unfold m2. case_decide as Hn; [rewrite D1; set_solver|]. rewrite dom_delete_L, D1. set_solver.
    + intros q2 W2 Hdis. apply Eo; [apply Hother|].
      * eapply pq_wf_untouched; [exact W2|]. intros x Hx. split; [apply P2|]. split; [apply P3|]. apply P4, Hdis, Hx.
      * intros Hx. apply (Hdis p Hx). rewrite P1. left.
      * intros x Hx. pose proof (Hdis x Hx) as Hn. rewrite P1 in Hn. apply not_elem_of_cons in Hn. naive_solver.
Qed.

(** ** A handler from its creation to its end *)

(** A callback that defers itself, as [EVT_defer_add] does while the loop
    runs. *)
Definition defers_itself {T W} (id : ptr) (c a : Z) (s : EventState T) (w : W) : Z * EventState T * W :=
  (EVENT_REMOVE, upd_deferred s (Def id (Some c) a :: deferred s), w).

(** The handler is then never freed. *)
Lemma defer_again_never_ends {T W} (id : ptr) c a fuel (s : EventState T) (w : W) :
  in_loop s = true -> deferred s = [Def id (Some c) a] ->
  (EVT_defer_add (defers_itself id) (upd_deferred s []) w id c a).1.2 = (defers_itself id c a (upd_deferred s []) w).1.2 /\
  EVT_free_handler (defers_itself id) fuel None None None s w = None.
Proof.
  intros Hl Hd. split; [unfold EVT_defer_add; change (in_loop (upd_deferred s [])) with (in_loop s); by rewrite Hl|].
  unfold EVT_free_handler. assert (run_deferred (defers_itself id) fuel s w = None) as ->; [|done].
  clear Hl. revert s Hd. induction fuel as [|fuel IH]; intros s Hd; cbn [run_deferred]; rewrite Hd; [done|]. apply IH. done.
Qed.

Section Life.
Context {T W : Type} (sched_cb : Z -> Z -> EventState T -> W -> Z * EventState T * W).

(** Deferred callbacks that leave the handler alone. *)
Class QuietCallbacks : Prop := quiet c a s w : (sched_cb c a s w).1.2 = s.
Context {Hquiet : QuietCallbacks}.

Definition run_one (s : EventState T) (w : W) (x : DeferredEvent) : W :=
  match def_cb x with Some c => (sched_cb c (def_arg x) s w).2 | None => w end.

(** They run once each, in order. *)
Fixpoint run_all (s : EventState T) (w : W) (l : list DeferredEvent) : W :=
  match l with [] => w | x :: l' => run_all s (run_one (upd_deferred s l') w x) l' end.

Lemma deferred_spec fuel : forall s w, (length (deferred s) <= fuel)%nat ->
  run_deferred sched_cb fuel s w = Some (upd_deferred s [], run_all s w (deferred s)).
Proof.
  induction fuel as [|fuel IH]; intros s w Hf; cbn [run_deferred]; destruct (deferred s) as [|x l] eqn:E; cbn [length] in Hf; try lia.
  1,2: cbn [run_all]; rewrite <- E; by destruct s.
  assert (Hr : forall w', run_all (upd_deferred s l) w' l = run_all s w' l).
  { assert (H : forall l' s' w', (forall k, upd_deferred s' k = upd_deferred s k) -> run_all s' w' l' = run_all s w' l').
    { induction l' as [|y l' IHl]; intros s' w' Hs; [done|]. cbn [run_all]. by rewrite Hs, IHl. }
    intros w'. by apply H. }
  assert (Hl : deferred (upd_deferred s l) = l) by done. cbn [run_all]. unfold run_one. destruct (def_cb x) as [c|].
  - pose proof (quiet c (def_arg x) (upd_deferred s l) w) as Hq. destruct (sched_cb c (def_arg x) (upd_deferred s l) w) as [[r s2] w2].
    cbn [fst snd] in Hq |- *. subst s2. rewrite IH by (rewrite Hl; lia). by rewrite Hl, Hr.
  - rewrite IH by (rewrite Hl; lia). by rewrite Hl, Hr.
Qed.

(** C37. [EVT_free_handler] of a well-formed handler without a debugger,
    called from outside of any callback, where the deferred callbacks leave
    the handler as it is ([QuietCallbacks]; one that defers itself keeps it
    from ending, [defer_again_never_ends]), ends: what was deferred is called
    once, in order; no descriptor event is left and none is watched; the
    cleanup callback of every registered event has been called exactly once,
    with its argument (the calls are recorded, what the callbacks do is not
    part of the model); and of the timed events exactly the queued ones are
    freed. *)
Theorem handler_freed fuel s w :
  sched_wf (sch s) -> fd_wf (fdt s) -> idle_all (fdt s) -> dbg_reply_evt s = None -> (length (deferred s) <= fuel)%nat ->
  exists m t, EVT_free_handler sched_cb fuel None None None s w = Some (m, t, run_all s w (deferred s)) /\
    concat (events t) = [] /\ (forall e, get (eventSet t) e = ∅) /\ critical_fd_count t = 0 /\ calls t ≡ₚ calls (fdt s) ++ due (fdt s) /\
    dom m = dom (heap (sch s)) ∖ list_to_set (contents (queue (sch s)) ++ contents (dbg_queue (sch s))).
Proof.
  intros Hs Hf Hi Hd Hfuel. unfold EVT_free_handler. rewrite deferred_spec by done. cbn [mbind option_bind].
  assert (Hdb : dbg_reply_evt (upd_deferred s []) = None) by done. rewrite Hdb. cbn [remove_evt].
  change (fdt (upd_deferred s [])) with (fdt s). change (sch (upd_deferred s [])) with (sch s).
  destruct (free_fds_spec (fdt s) Hf Hi) as (t & -> & Wt & Ct & Pt). cbn [mbind option_bind].
  destruct Hs as (Q & C & _ & _ & N & _).
  destruct (free_queue_spec (null_evt (sch s)) (size (queue (sch s))) (heap (sch s)) (queue (sch s)) (Q Main) ltac:(lia)) as (m1 & q1 & -> & D1 & O1).
  cbn [mbind option_bind]. assert (W2 : pq_wf m1 (dbg_queue (sch s))).
  { apply O1; [exact (Q Dbg)|]. intros x Hx Hx'. destruct (C Dbg x Hx) as (e & E1 & E2 & _). destruct (C Main x Hx') as (e' & E1' & E2' & _). congruence. }
  destruct (free_queue_spec (null_evt (sch s)) (size (dbg_queue (sch s))) m1 (dbg_queue (sch s)) W2 ltac:(lia)) as (m2 & q2 & -> & D2 & _).
  cbn [mbind option_bind]. exists m2, t. split; [done|]. split; [done|]. pose proof Wt as (_ & _ & E4 & _ & _ & E6 & _).
  split_and!; try done.
  - intros e. apply set_eq. intros x. rewrite E4. split; [|set_solver]. intros [_ Hx]. exfalso.
    destruct (entry t x) as [n|] eqn:En; [|done]. destruct (entry_elem t x n Wt En) as [Hin _]. rewrite Ct in Hin. by apply elem_of_nil in Hin.
  - by rewrite E6, Ct.
  - rewrite D2, D1. pose proof (N Main) as N1. pose proof (N Dbg) as N2. cbn [get_queue] in N1, N2. rewrite list_to_set_app_L. set_solver.
Qed.

(** A new handler is well formed, knows no event, and has the debugger state
    that the environment asks for; a handler that cannot be made leaves blocks
    behind unless it fails at the first. *)
Theorem handler_created hs env st q qd dq dqd (timer : option T) null : 0 < hs ->
  match EVT_initWithSize hs env st q qd dq dqd timer null with
  | inl s => sched_wf (sch s) /\ fd_wf (fdt s) /\ idle_all (fdt s) /\ concat (events (fdt s)) = [] /\ dom (heap (sch s)) = {[null]} /\
      deferred s = [] /\ timer = Some (evt_timer s) /\ initialDebuggerState s = initial_debugger env /\
      (debuggerState s = EDBG_DISABLED <-> initialDebuggerState s = EDBG_DISABLED)
  | inr lost => st && q && qd && dq && dqd = false \/ timer = None
  end.
Proof.
  intros Hh. unfold EVT_initWithSize. destruct st; [|by left]. cbn [negb]. unfold ps_pqueue_init.
  destruct q; [|by left]. destruct qd; [|by left]. destruct dq; [|by left]. destruct dqd; [|by left]. cbn [negb].
  destruct timer as [t|]; [|by right]. cbn [sch fdt heap deferred initialDebuggerState debuggerState evt_timer].
  assert (Hc : concat (events (fds_init hs)) = []) by apply concat_replicate_nil. split_and!.
  - by apply (sched_init_wf (Z.to_nat hs) null).
  - by apply fds_init_wf.
  - unfold idle_all. by rewrite Hc.
  - done.
  - apply dom_singleton_L.
  - done.
  - done.
  - done.
  - by destruct (initial_debugger env).
Qed.
End Life.

(** ** Witnesses *)

Definition log_cb (c a : Z) (s : EventState unit) (w : list Z) : Z * EventState unit * list Z := (EVENT_REMOVE, s, w ++ [c]).

#[export] Instance log_cb_quiet : QuietCallbacks log_cb.
Proof. by intros c a s w. Qed.

(** The demonstration schedule and table, with two deferred callbacks, one of
    them cancelled. *)
Definition demo_handler : EventState unit :=
  ES demo demo_fds tt true false EDBG_DISABLED EDBG_DISABLED false 0 false None None 0 0 0
    [Def 9%positive (Some 30) 1; Def 10%positive None 2; Def 11%positive (Some 31) 3].

Lemma handler_freed_witness :
  exists m t, EVT_free_handler log_cb 3 None None None demo_handler [] = Some (m, t, [30; 31]) /\
    concat (events t) = [] /\ (forall e, get (eventSet t) e = ∅) /\ critical_fd_count t = 0 /\ calls t ≡ₚ calls demo_fds ++ due demo_fds /\
    dom m = dom (heap demo) ∖ list_to_set (contents (queue demo) ++ contents (dbg_queue demo)).
Proof.
  apply (handler_freed log_cb 3 demo_handler []).
  - exact demo_wf.
  - exact demo_fds_wf.
  - unfold idle_all. vm_compute. repeat constructor; by intros [].
  - reflexivity.
  - cbn. lia.
Defined.

Lemma handler_created_witness :
  exists s, EVT_initWithSize 19 (Some [115; 116; 111; 112; 112; 101; 100]) true true true true true (Some tt) 1%positive = inl s /\
    initialDebuggerState s = EDBG_STOPPED /\ debuggerState s = EDBG_ENABLED /\ sched_wf (sch s).
Proof.
  eexists. split; [reflexivity|]. split; [reflexivity|]. split; [reflexivity|].
  destruct (handler_created 19 (Some [115; 116; 111; 112; 112; 101; 100]) true true true true true (Some tt) 1%positive ltac:(lia)) as [H _].
  exact H.
Defined.
