(* ===== verification/Sockets.v ===== *)
(** * Names of services, and commands sent to them (ipc.c, proclib.c)

    A process is known by the name of its service, which stands for a port: the
    lookup in both directions, with the table of the library behind that of the
    system.  A command is one datagram; when the socket would block it is kept
    and written when the descriptor is ready, an event of FdEvents.  The wait for
    a response of the blocking calls.  The system's table, select, the clock and
    sendto are parameters. *)

From stdpp Require Import base gmap sets list numbers sorting.
From Stdlib Require Import ZArith Lia.
From Stdlib Require String.
From S2P Require Import Prelude Words CStr Sched FdEvents EventLoop FdTurn CmdResponse.
Open Scope Z_scope.
Import String.StringSyntax.

Abbreviation str := (list Z).

(** ** Names and ports *)

(** [struct ServiceNames]; the address is that of the text. *)
Record ServiceNames := SN { sn_name : str; sn_port : Z; multicast_ip : Z * Z * Z * Z; multicast_port : Z }.

Definition serverNameList : list ServiceNames :=
  [SN (bytes_of "beacon") 50000 (234, 192, 101, 1) 51000;
   SN (bytes_of "sys_manager") 50001 (234, 192, 101, 2) 51001;
   SN (bytes_of "watchdog") 50002 (234, 192, 101, 3) 51002;
   SN (bytes_of "satcomm") 50003 (234, 192, 101, 4) 51003;
   SN (bytes_of "filemgr") 50004 (234, 192, 101, 5) 51004;
   SN (bytes_of "telemetry") 50005 (234, 192, 101, 6) 51005;
   SN (bytes_of "datalogger") 50006 (234, 192, 101, 7) 51006;
   SN (bytes_of "ethcomm") 50007 (234, 192, 101, 8) 51007;
   SN (bytes_of "comm_server") 50008 (234, 192, 101, 9) 51008;
   SN (bytes_of "clksync") 50009 (234, 192, 101, 10) 51009;
   SN (bytes_of "payload") 50010 (234, 192, 101, 11) 51010;
   SN (bytes_of "adcs") 50011 (234, 192, 101, 12) 51011;
   SN (bytes_of "pscam") 50012 (234, 192, 101, 13) 51012;
   SN (bytes_of "camera") 50012 (234, 192, 101, 13) 51012;
   SN (bytes_of "gps") 50013 (234, 192, 101, 14) 51013;
   SN (bytes_of "log_cleaner") 50014 (234, 192, 101, 15) 51014;
   SN (bytes_of "star_tracker") 50015 (234, 192, 101, 16) 51015;
   SN (bytes_of "camera") 50016 (234, 192, 101, 17) 51016;
   SN (bytes_of "payload2") 50017 (234, 192, 101, 18) 51017;
   SN (bytes_of "payload3") 50018 (234, 192, 101, 19) 51018;
   SN (bytes_of "payload3") 50019 (234, 192, 101, 20) 51019;
   SN (bytes_of "test1") 52003 (224, 0, 0, 1) 52003;
   SN (bytes_of "test2") 52004 (234, 192, 101, 16) 52004].

(** The loops over the table. *)
Definition service_named (service : str) : option ServiceNames := list_find (fun e => sn_name e = service) serverNameList ≫= (fun r => Some r.2).
Definition service_at (port : Z) : option ServiceNames := list_find (fun e => sn_port e = port) serverNameList ≫= (fun r => Some r.2).

(** 16 bits in the other order. *)
Definition htons (x : Z) : Z := (x mod 256) * 256 + (x / 256) mod 256.
Abbreviation ntohs := htons.

(** The four bytes of an address, in network order. *)
Definition inet_aton (ip : Z * Z * Z * Z) : Z := let '(a, b, c, d) := ip in le_value [a; b; c; d].

Definition INADDR_LOOPBACK : Z := le_value [127; 0; 0; 1].

Section Lookup.
(** /etc/services, in both directions: ports in network order. *)
Context (getservbyname : str -> option Z) (getservbyport : Z -> option str).

Definition socket_get_addr_by_name (service : str) : Z :=
  match getservbyname service with
  | Some s_port => ntohs s_port
  | None =>
      match service_named service with
      | Some e => sn_port e
      | None => let port := s32 (atol service) in if 0 <? port then port else -1
      end
  end.

(** The result, and what is in the buffer of [bufSize] bytes if it is changed. *)
Definition socket_get_name_by_addr (port : Z) (bufSize : Z) : Z * option str :=
  let name := match getservbyport port with
              | Some n => Some n
              | None => sn_name <$> service_at (ntohs port)
              end in
  match name with
  | None => (-1, None)
  | Some n => if bufSize <=? zlen n then (-1, None) else (zlen n, Some n)
  end.
End Lookup.

Definition socket_multicast_port_by_name (service : str) : Z := match service_named service with Some e => multicast_port e | None => 0 end.
Definition socket_multicast_addr_by_name (service : str) : Z := match service_named service with Some e => inet_aton (multicast_ip e) | None => 0 end.

(** ** Waiting for a response *)

(** The interval in milliseconds; the division of C. *)
Definition ms_tv (ms : Z) : timeval := let s := Z.quot ms 1000 in TV s ((ms - s * 1000) * 1000).

Section Wait.
(** The [k]-th call of select, for a time, from a moment: its result, whether
    errno is EINTR, and the time afterwards. *)
Context (select : nat -> timeval -> timeval -> Z * bool * timeval).

(** With the last reading of the clock. *)
Fixpoint wait_loop (fuel k : nat) (now end_time : timeval) : option (Z * timeval) :=
  match fuel with
  | O => None
  | S fuel' =>
      if timercmp Z.ltb now end_time then
        let '(result, eintr, now') := select k (timersub end_time now) now in
        if result =? 1 then Some (1, now)
        else if (result <? 0) && negb eintr then Some (-1, now)
        else wait_loop fuel' (S k) now' end_time
      else Some (0, now)
  end.

Definition wait_for_packet (fuel : nat) (ms_dur : Z) (now : timeval) : option (Z * timeval) :=
  wait_loop fuel 0 now (timeradd (ms_tv ms_dur) now).

(** Sending and waiting: the result, and whether the socket is closed.
    [sock] is what [socket_init] returns, [host] the address that the name
    resolves to (0 is none), [want] whether a response is read, [read] what
    [socket_read] returns, [rxRespLen] the size of the response. *)
Definition read_response (read rxRespLen : Z) : Z := if read <? 0 then -4 else if negb (read =? rxRespLen) then -5 else read.

Definition send_and_read (fuel : nat) (want : bool) (ms : Z) (now : timeval) (got : Z) : option Z :=
  if want then
    '(r, _) ← wait_for_packet fuel ms now;
    Some (if r =? 0 then -2 else if negb (r =? 1) then -3 else got)
  else Some 0.

Definition socket_send_packet_and_read_response (fuel : nat) (sock : Z) (dstAddr : option (option Z)) (want : bool) (ms : Z) (now : timeval)
    (read rxRespLen : Z) : option (Z * bool) :=
  if sock <? 0 then Some (-1, true)
  else
    match dstAddr with
    | Some None => Some (-1, false)
    | _ => r ← send_and_read fuel want ms now (read_response read rxRespLen); Some (r, true)
    end.

Definition socket_send_packet_and_read_xdr_sa (fuel : nat) (sock : Z) (want : bool) (ms : Z) (now : timeval) (read : Z) : option (Z * bool) :=
  if sock <? 0 then Some (-1, true) else r ← send_and_read fuel want ms now read; Some (r, true).

Definition socket_send_packet_and_read_xdr (fuel : nat) (dstAddr : option (option Z)) (sock : Z) (want : bool) (ms : Z) (now : timeval) (read : Z)
    : option (Z * bool) :=
  match dstAddr with Some None => Some (-1, true) | _ => socket_send_packet_and_read_xdr_sa fuel sock want ms now read end.
End Wait.

(** ** Requests of data *)

(** [IPC_fill_datareq_va]: the items up to the first that is not positive, the
    length and the room of the array; a write past the room is [None]. *)
Fixpoint fill_loop (items : list Z) (reqs : list Z) (room allocLen : Z) : option (list Z * Z) :=
  match items with
  | [] => None
  | item :: items' =>
      if 0 <? item then
        let grow := (room =? 0) || (zlen reqs =? allocLen) in
        let allocLen' := if grow then allocLen * 2 else allocLen in
        let room' := if grow then allocLen' else room in
        if zlen reqs <? room' then fill_loop items' (reqs ++ [item]) room' allocLen' else None
      else Some (reqs, room)
  end.

Definition IPC_fill_datareq (items : list Z) : option (list Z * Z) := fill_loop items [] 0 8.

(** ** Commands *)

(** [struct MsgData] *)
Record MsgData := Msg { msg_data : list Z; msg_dest : sockaddr_in }.

(** What sendto does: the datagram is gone, it would block, or another error. *)
Inductive wout := WOk | WAgain | WErr.

(** The messages that wait, at their addresses, the table of descriptors, the
    datagrams sent, and the messages that were given up but not freed. *)
Record sockets := Sk { pend : gmap ptr MsgData; sk_fds : fds; sent : list (Z * (list Z * sockaddr_in)); leaked : list MsgData }.

Section Send.
(** The address of [socket_write_cb]. *)
Context (SOCKET_WRITE_CB : Z).

(** [p] is the address of the message, [mem] whether the table can grow. *)
Definition proc_cmd_sockaddr_raw_internal (st : sockets) (fd : Z) (data : list Z) (dest : sockaddr_in) (out : wout) (p : ptr) (mem : bool)
    : Z * sockets :=
  match out with
  | WOk => (zlen data, Sk (pend st) (sk_fds st) (sent st ++ [(fd, (data, dest))]) (leaked st))
  | WAgain => (zlen data, Sk (<[p := Msg data dest]> (pend st)) (EVT_fd_add (sk_fds st) fd FdWrite (Some SOCKET_WRITE_CB) (Z.pos p) mem).2 (sent st) (leaked st))
  | WErr => (-1, Sk (pend st) (sk_fds st) (sent st) (leaked st ++ [Msg data dest]))
  end.

Definition proc_cmd_sockaddr_internal (st : sockets) (fd cmd : Z) (data : list Z) := proc_cmd_sockaddr_raw_internal st fd (cmd :: data).

(** To a service of this machine. *)
Definition proc_cmd_internal (port : Z) (st : sockets) (fd cmd : Z) (data : list Z) (out : wout) (p : ptr) (mem : bool) : Z * sockets :=
  if 0 <? port then proc_cmd_sockaddr_internal st fd cmd data (SA (htons port) INADDR_LOOPBACK) out p mem else (0, st).

(** The two sockets of a process. *)
Definition PROC_cmd (getserv : str -> option Z) (cmdFd : Z) (st : sockets) (cmd : Z) (data : list Z) (dest : str) :=
  proc_cmd_internal (socket_get_addr_by_name getserv dest) st cmdFd cmd data.
Definition PROC_cmd_secondary (getserv : str -> option Z) (txFd : Z) (st : sockets) (cmd : Z) (data : list Z) (dest : str) :=
  proc_cmd_internal (socket_get_addr_by_name getserv dest) st txFd cmd data.

(** To the listeners of the process' own service. *)
Definition PROC_multi_cmd (name : str) (cmdFd : Z) (st : sockets) (cmd : Z) (data : list Z) (out : wout) (p : ptr) (mem : bool) : Z * sockets :=
  let port := socket_multicast_port_by_name name in
  let addr := socket_multicast_addr_by_name name in
  if (0 <? port) && negb (addr =? 0) then proc_cmd_sockaddr_internal st cmdFd cmd data (SA (htons port) addr) out p mem else (0, st).

(** The descriptor is ready; [None] is a message that is not there. *)
Definition socket_write_cb (st : sockets) (fd : Z) (p : ptr) (out : wout) : option (Z * sockets) :=
  m ← pend st !! p;
  Some (match out with
        | WOk => (EVENT_REMOVE, Sk (delete p (pend st)) (sk_fds st) (sent st ++ [(fd, (msg_data m, msg_dest m))]) (leaked st))
        | WAgain => (EVENT_KEEP, st)
        | WErr => (EVENT_REMOVE, Sk (delete p (pend st)) (sk_fds st) (sent st) (leaked st ++ [m]))
        end).

Definition with_sk_fds (st : sockets) (t : fds) : sockets := Sk (pend st) t (sent st) (leaked st).

(** The loop finds the descriptor writable. *)
Definition sock_writable (st : sockets) (fd : Z) (out : wout) : option sockets :=
  match entry (sk_fds st) fd with
  | Some n =>
      match get (cb n) FdWrite, get (earg n) FdWrite with
      | Some c, Zpos p =>
          if c =? SOCKET_WRITE_CB then
            r ← socket_write_cb (with_sk_fds st (fd_entered (sk_fds st) fd FdWrite)) fd p out;
            Some (with_sk_fds r.2 (fd_returned (sk_fds r.2) fd FdWrite r.1))
          else Some st
      | _, _ => Some st
      end
  | None => Some st
  end.

(** ** The watchdog *)

Definition WATCHDOG_CMD_REG_INFO : Z := 120.
Definition CMD_WDT_REGISTER : Z := 3.
Definition WDG_PROC_FLAG_WATCHED : Z := 1.

(** A [WatchdogInfoResp] for a process that is watched: 32 bytes with the first
    byte of the name, the flags at 1, the process id at 2. *)
Definition entry_good (name : str) (getpid : Z) (data : list Z) : bool :=
  (zlen name + 32 <=? zlen data) && bool_decide (cstr (drop 31 data) = name) &&
  (getpid =? nth 2 data 0 * 256 + nth 3 data 0) && negb (Z.land (nth 1 data 0) WDG_PROC_FLAG_WATCHED =? 0).

(** [watchProc] is the process that asked, if any, by its name. *)
Definition watchdog_reg_info (getserv : str -> option Z) (cmdFd : Z) (watchProc : option (option str)) (getpid : Z) (data : list Z) (st : sockets)
    (out : wout) (p : ptr) (mem : bool) : sockets :=
  match watchProc with
  | Some (Some name) =>
      if entry_good name getpid data then st
      else (PROC_cmd getserv cmdFd st CMD_WDT_REGISTER (name ++ [0]) (bytes_of "watchdog") out p mem).2
  | _ => st
  end.

Inductive WatchdogMode := WD_ENABLED | WD_DISABLED | WD_NOTSAT | WD_XDR.
#[export] Instance WatchdogMode_eq_dec : EqDecision WatchdogMode.
Proof. solve_decision. Defined.

(** A command that is sent with [IPC_command_local] to the watchdog: the
    number of the command and the name in its [struct IPC_WDProcName]. *)
Inductive wd_command := IPC_CMDS_WD_REG_INFO (name : str) | IPC_CMDS_WD_REGISTER_STATIC (name : str).

(** The timed event: what it returns, [watchProc], what was sent as a command of
    one byte, and the XDR command. *)
Definition validate_watch_registration (getserv : str -> option Z) (cmdFd : Z) (name : option str) (wdMode : WatchdogMode)
    (watchProc : option (option str)) (st : sockets) (out : wout) (p : ptr) (mem : bool) : Z * option (option str) * sockets * option wd_command :=
  match name with
  | None => (EVENT_KEEP, watchProc, st, None)
  | Some n =>
      match wdMode with
      | WD_ENABLED =>
          (EVENT_KEEP, Some (Some n), (PROC_cmd getserv cmdFd st WATCHDOG_CMD_REG_INFO (n ++ [0]) (bytes_of "watchdog") out p mem).2, None)
      | WD_XDR => (EVENT_KEEP, watchProc, st, Some (IPC_CMDS_WD_REG_INFO n))
      | _ => (EVENT_REMOVE, watchProc, st, None)
      end
  end.

(** The response to it: the result code (0 is success) with the name, process id
    and flag of [struct IPC_WDRegInfo]. *)
Definition watchdog_xdr_reg_info (name : str) (getpid : Z) (timeout : bool) (result : Z) (data : str * Z * bool) : option wd_command :=
  if timeout then None
  else
    let '(n, pid, watched) := data in
    if (result =? 0) && bool_decide (name = n) && (getpid =? pid) && watched then None
    else Some (IPC_CMDS_WD_REGISTER_STATIC name).

(** ** Histories *)

(** The commands issued so far, and the state.  A command is issued while no
    other waits on its socket. *)
Inductive sstep : list (Z * (list Z * sockaddr_in)) * sockets -> list (Z * (list Z * sockaddr_in)) * sockets -> Prop :=
| SIssue h st fd cmd data dest out p mem :
    0 <= fd -> has (entry (sk_fds st) fd) FdWrite = false -> pend st !! p = None -> out <> WErr ->
    (entry (sk_fds st) fd = None -> mem = true) ->
    sstep (h, st) (h ++ [(fd, (cmd :: data, dest))], (proc_cmd_sockaddr_internal st fd cmd data dest out p mem).2)
| SWritable h st fd out st' : 0 <= fd -> out <> WErr -> sock_writable st fd out = Some st' -> sstep (h, st) (h, st').
End Send.

(** ** Commands arrive once, in order *)

(** The datagrams of a socket. *)
Definition of_fd (fd : Z) (l : list (Z * (list Z * sockaddr_in))) : list (list Z * sockaddr_in) :=
  omap (fun x => if decide (x.1 = fd) then Some x.2 else None) l.

Lemma of_fd_app fd l k : of_fd fd (l ++ k) = of_fd fd l ++ of_fd fd k.
Proof. apply omap_app. Qed.

Lemma of_fd_one fd g x : of_fd fd [(g, x)] = if decide (g = fd) then [x] else [].
Proof. cbn. by case_decide. Qed.

(** The message that waits on a socket. *)
Definition waits (st : sockets) (fd : Z) : list (list Z * sockaddr_in) :=
  match entry (sk_fds st) fd with
  | Some n =>
      if has (Some n) FdWrite then
        match get (earg n) FdWrite with
        | Zpos p => (fun m => (msg_data m, msg_dest m)) <$> option_list (pend st !! p)
        | _ => []
        end
      else []
  | None => []
  end.

Section Sent.
Context (SOCKET_WRITE_CB : Z).

Record sinv (h : list (Z * (list Z * sockaddr_in))) (st : sockets) : Prop := {
  s_wf : fd_wf (sk_fds st);
  s_msg fd n : entry (sk_fds st) fd = Some n -> has (Some n) FdWrite = true ->
    get (cb n) FdWrite = Some SOCKET_WRITE_CB /\ exists p m, get (earg n) FdWrite = Zpos p /\ pend st !! p = Some m;
  s_inj fd fd' n n' : entry (sk_fds st) fd = Some n -> entry (sk_fds st) fd' = Some n' -> has (Some n) FdWrite = true -> has (Some n') FdWrite = true ->
    get (earg n) FdWrite = get (earg n') FdWrite -> fd = fd';
  s_order fd : of_fd fd h = of_fd fd (sent st) ++ waits st fd
}.

(** The table and the messages change at one descriptor. *)
Lemma sinv_at h st h' st' fd :
  sinv h st -> fd_wf (sk_fds st') -> (forall x, x <> fd -> entry (sk_fds st') x = entry (sk_fds st) x) ->
  (forall n, entry (sk_fds st') fd = Some n -> has (Some n) FdWrite = true ->
     get (cb n) FdWrite = Some SOCKET_WRITE_CB /\ exists p m, get (earg n) FdWrite = Zpos p /\ pend st' !! p = Some m /\
     forall x n' p', x <> fd -> entry (sk_fds st) x = Some n' -> has (Some n') FdWrite = true -> get (earg n') FdWrite = Zpos p' -> p' <> p) ->
  (forall x n' p', x <> fd -> entry (sk_fds st) x = Some n' -> has (Some n') FdWrite = true -> get (earg n') FdWrite = Zpos p' -> pend st' !! p' = pend st !! p') ->
  (forall x, of_fd x h' = if decide (fd = x) then of_fd x (sent st') ++ waits st' x else of_fd x h) ->
  (forall x, x <> fd -> of_fd x (sent st') = of_fd x (sent st)) -> sinv h' st'.
Proof.
  intros H W E M P O S. split.
  - exact W.
  - intros x n Hx Hh. destruct (decide (x = fd)) as [->|Hne].
    + destruct (M n Hx Hh) as (C & p & m & A & B & _). split; [done|]. by exists p, m.
    + rewrite E in Hx by done. destruct (s_msg _ _ H x n Hx Hh) as (C & p & m & A & B). split; [done|]. exists p, m. split; [done|]. by rewrite (P x n p).
  - intros x y n n' Hx Hy Hn Hn' Ha. destruct (decide (x = fd)) as [->|Hx']; destruct (decide (y = fd)) as [->|Hy']; [done|..].
    + exfalso. rewrite E in Hy by done. destruct (M n Hx Hn) as (_ & p & m & A & _ & D). by apply (D y n' p Hy' Hy Hn'); [congruence|].
    + exfalso. rewrite E in Hx by done. destruct (M n' Hy Hn') as (_ & p & m & A & _ & D). by apply (D x n p Hx' Hx Hn); [congruence|].
    + rewrite E in Hx, Hy by done. by eapply (s_inj _ _ H).
  - intros x. rewrite O. case_decide as Ex; [by subst|]. rewrite S, (s_order _ _ H) by done. f_equal. unfold waits. rewrite E by done.
    destruct (entry (sk_fds st) x) as [n|] eqn:Ex'; [|done]. destruct (has (Some n) FdWrite) eqn:Hh; [|done].
    destruct (get (earg n) FdWrite) eqn:Ea; try done. by rewrite (P x n p).
Qed.

Lemma waits_none st fd : has (entry (sk_fds st) fd) FdWrite = false -> waits st fd = [].
Proof. unfold waits. destruct (entry _ fd); [|done]. by intros ->. Qed.

Lemma issue_inv h st fd data dest out p mem :
  sinv h st -> 0 <= fd -> has (entry (sk_fds st) fd) FdWrite = false -> pend st !! p = None -> out <> WErr -> (entry (sk_fds st) fd = None -> mem = true) ->
  sinv (h ++ [(fd, (data, dest))]) (proc_cmd_sockaddr_raw_internal SOCKET_WRITE_CB st fd data dest out p mem).2.
Proof.
  intros H Hfd Hno Hp Ho Hm. pose proof (s_order _ _ H fd) as Hord. rewrite (waits_none st fd Hno), app_nil_r in Hord.
  destruct out; [| |done]; cbn [proc_cmd_sockaddr_raw_internal snd].
  - apply (sinv_at h st _ _ fd H); cbn [sk_fds pend sent]; try done.
    + apply H.
    + intros n Hn Hh. exfalso. rewrite Hn in Hno. congruence.
    + intros x. rewrite of_fd_app, of_fd_one. case_decide; [subst x|by rewrite app_nil_r].
      rewrite Hord, of_fd_app, of_fd_one, decide_True by done. rewrite (waits_none (Sk _ (sk_fds st) _ _) fd Hno). by rewrite app_nil_r.
    + intros x Hx. rewrite of_fd_app, of_fd_one, decide_False by done. by rewrite app_nil_r.
  - destruct (fd_add_wf (sk_fds st) fd FdWrite SOCKET_WRITE_CB None (Z.pos p) mem (s_wf _ _ H) Hfd Hm) as (_ & R2 & R3 & R4).
    unfold EVT_fd_add. set (t := (EVT_fd_add_with_cleanup _ _ _ _ _ _ _).2) in *. set (n0 := added_entry _ _ _ _ _ _) in *.
    assert (N0 : get (cb n0) FdWrite = Some SOCKET_WRITE_CB /\ get (earg n0) FdWrite = Z.pos p) by (unfold n0, added_entry; by destruct (_ =? 0)).
    assert (Hfresh : forall x n' p', entry (sk_fds st) x = Some n' -> has (Some n') FdWrite = true -> get (earg n') FdWrite = Zpos p' -> p' <> p).
    { intros x n' p' Hx Hh Ha ->. destruct (s_msg _ _ H x n' Hx Hh) as (_ & q & m & A & B). congruence. }
    apply (sinv_at h st _ _ fd H); cbn [sk_fds pend sent]; try done.
    + intros n Hn _. rewrite R3 in Hn. injection Hn as <-. split; [apply N0|]. exists p, (Msg data dest).
      split; [apply N0|]. split; [apply lookup_insert_eq|]. intros x n' p' _. apply Hfresh.
    + intros x n' p' _ Hx Hh Ha. apply lookup_insert_ne. intros <-. by apply (Hfresh x n' p).
    + intros x. rewrite of_fd_app, of_fd_one. case_decide; [subst x|by rewrite app_nil_r]. rewrite Hord. f_equal.
      unfold waits. cbn [sk_fds pend]. rewrite R3. unfold has. rewrite (proj1 N0). cbn [is_set]. rewrite (proj2 N0). by rewrite lookup_insert_eq.
Qed.

(** The callback of a message that waits. *)
Lemma writable_inv h st fd out : sinv h st -> 0 <= fd -> out <> WErr ->
  exists st', sock_writable SOCKET_WRITE_CB st fd out = Some st' /\ sinv h st' /\ leaked st' = leaked st /\
    (out = WOk -> waits st' fd = []).
Proof.
  intros H Hfd Ho. unfold sock_writable. destruct (entry (sk_fds st) fd) as [n|] eqn:En.
  2:{ exists st. split_and!; try done. intros _. apply waits_none. by rewrite En. }
  destruct (has (Some n) FdWrite) eqn:Hh.
  2:{ pose proof Hh as Hc. unfold has in Hc. destruct (get (cb n) FdWrite) eqn:Ec; [done|]. exists st. split_and!; try done.
      intros _. apply waits_none. by rewrite En. }
  destruct (s_msg _ _ H fd n En Hh) as (Hc & p & m & Ha & Hp). rewrite Hc, Ha, Z.eqb_refl. unfold socket_write_cb.
  cbn [with_sk_fds pend sk_fds sent leaked]. rewrite Hp. cbn [mbind option_bind].
  destruct (fd_entered_wf (sk_fds st) fd FdWrite n (s_wf _ _ H) Hfd En Hh) as (P1 & P2 & P3).
  pose proof (fun r => fd_returned_wf (fd_entered (sk_fds st) fd FdWrite) fd FdWrite (count_entry n FdWrite) r P1 Hfd P2) as R.
  assert (Hother : forall x n' p', x <> fd -> entry (sk_fds st) x = Some n' -> has (Some n') FdWrite = true -> get (earg n') FdWrite = Zpos p' -> p' <> p).
  { intros x n' p' Hx E' Hh' Ha' ->. apply Hx. symmetry. eapply (s_inj _ _ H fd x n n'); congruence. }
  assert (Hord : of_fd fd h = of_fd fd (sent st) ++ [(msg_data m, msg_dest m)]).
  { rewrite (s_order _ _ H fd). f_equal. unfold waits. by rewrite En, Hh, Ha, Hp. }
  destruct out; [| |done].
  - destruct (R EVENT_REMOVE) as (R1 & R2 & R3). set (t := fd_returned _ _ _ _) in *.
    assert (Hgone : has (entry t fd) FdWrite = false).
    { rewrite R2. apply removed_has. cbn [count_entry einCallback]. by rewrite get_set_eq. }
    eexists. split; [reflexivity|]. cbn [with_sk_fds fst snd sk_fds]. split; [|split; [done|intros _; apply waits_none; exact Hgone]].
    apply (sinv_at h st _ _ fd H); cbn [with_sk_fds sk_fds pend sent]; try done.
    + intros x Hx. by rewrite R3, P3.
    + intros n' En' Hh'. exfalso. rewrite <- En' in Hh'. congruence.
    + intros x n' p' Hx E' Hh' Ha'. apply lookup_delete_ne. intros <-. by apply (Hother x n' p).
    + intros x. case_decide; [subst x|done]. rewrite of_fd_app, of_fd_one, decide_True by done.
      rewrite waits_none by exact Hgone. by rewrite app_nil_r.
    + intros x Hx. rewrite of_fd_app, of_fd_one, decide_False by done. by rewrite app_nil_r.
  - destruct (R EVENT_KEEP) as (R1 & R2 & R3). set (t := fd_returned _ _ _ _) in *.
    assert (Hkept : entry t fd = Some (with_einCallback (count_entry n FdWrite) FdWrite 0)) by (rewrite R2; by destruct n as [? ? ? ? ? [? ? ?] ? ? ?]).
    eexists. split; [reflexivity|]. cbn [with_sk_fds fst snd sk_fds]. split; [|done].
    apply (sinv_at h st _ _ fd H); cbn [with_sk_fds sk_fds pend sent]; try done.
    + intros x Hx. by rewrite R3, P3.
    + intros n' En' _. rewrite Hkept in En'. injection En' as <-. split; [exact Hc|]. exists p, m. split; [exact Ha|]. split; [exact Hp|exact Hother].
    + intros x. case_decide; [subst x|done]. rewrite Hord. f_equal. unfold waits. cbn [with_sk_fds sk_fds pend]. rewrite Hkept.
      change (has (Some (with_einCallback (count_entry n FdWrite) FdWrite 0)) FdWrite) with (has (Some n) FdWrite). rewrite Hh.
      change (get (earg (with_einCallback (count_entry n FdWrite) FdWrite 0)) FdWrite) with (get (earg n) FdWrite). by rewrite Ha, Hp.
Qed.

Lemma sstep_inv h st h' st' : sstep SOCKET_WRITE_CB (h, st) (h', st') -> sinv h st -> sinv h' st' /\ leaked st' = leaked st.
Proof.
  intros Hs H. inversion Hs; subst.
  - split; [by apply issue_inv|]. by destruct out.
  - edestruct (writable_inv _ st fd out H) as (st1 & E & G & L & _); [done..|]. assert (st1 = st') as -> by congruence. done.
Qed.

(** C36. Commands: in every history in which a command is issued only while
    none waits on its socket, and errors other than EAGAIN do not happen, the
    datagrams sent on a socket, followed by the one that waits, are the
    commands issued on it, in order, each once; the callback never misses its
    message, nothing is leaked, and a socket with a waiting command is watched
    and sends it when it is ready. *)
Theorem commands_sent st0 h st :
  fd_wf (sk_fds st0) -> (forall fd, has (entry (sk_fds st0) fd) FdWrite = false) -> sent st0 = [] ->
  rtc (sstep SOCKET_WRITE_CB) ([], st0) (h, st) ->
  leaked st = leaked st0 /\
  forall fd, 0 <= fd ->
    of_fd fd h = of_fd fd (sent st) ++ waits st fd /\ (length (waits st fd) <= 1)%nat /\
    (waits st fd <> [] -> fd ∈ get (eventSet (sk_fds st)) FdWrite) /\
    (forall out, out <> WErr -> is_Some (sock_writable SOCKET_WRITE_CB st fd out)) /\
    exists st', sock_writable SOCKET_WRITE_CB st fd WOk = Some st' /\ of_fd fd (sent st') = of_fd fd h.
Proof.
  intros Hw Hn Hs Hr.
  assert (H : sinv h st /\ leaked st = leaked st0).
  { assert (H0 : sinv [] st0).
    { split; [done|..].
      - intros fd n E Hh. rewrite <- E, Hn in Hh. done.
      - intros fd fd' n n' E _ Hh. rewrite <- E, Hn in Hh. done.
      - intros fd. rewrite Hs, waits_none by apply Hn. done. }
    revert H0. remember ([], st0) as a eqn:Ea. remember (h, st) as b eqn:Eb. revert h st Eb.
    assert (Hg : forall a b, rtc (sstep SOCKET_WRITE_CB) a b -> sinv a.1 a.2 -> sinv b.1 b.2 /\ leaked b.2 = leaked a.2).
    { induction 1 as [x|x y z Hxy _ IH]; intros Hx; [done|]. destruct x as [hx sx], y as [hy sy]. destruct (sstep_inv _ _ _ _ Hxy Hx) as [Hy L].
      destruct (IH Hy) as [Hz L']. split; [done|]. cbn in *. congruence. }
    intros h st -> H0. subst a. by apply (Hg _ _ Hr). }
  destruct H as [H L]. split; [done|]. intros fd Hfd. split; [apply H|]. split; [|split; [|split]].
  - unfold waits. destruct (entry _ fd) as [n|]; [|cbn; lia]. destruct (has _ _); [|cbn; lia]. destruct (get _ _); cbn; try lia. destruct (pend st !! p); cbn; lia.
  - intros Hne. pose proof (s_wf _ _ H) as (_ & _ & E & _). apply E. split; [done|]. destruct (has (entry (sk_fds st) fd) FdWrite) eqn:Eh; [done|].
    by rewrite waits_none in Hne.
  - intros out Ho. destruct (writable_inv h st fd out H Hfd Ho) as (st' & -> & _). done.
  - destruct (writable_inv h st fd WOk H Hfd ltac:(done)) as (st' & E & G & _ & Wn). exists st'. split; [done|].
    rewrite (s_order _ _ G fd), (Wn eq_refl). by rewrite app_nil_r.
Qed.
End Sent.

(** ** Waiting ends *)

(** What select promises: it returns 0 only after the time it was given. *)
Class PunctualSelect (select : nat -> timeval -> timeval -> Z * bool * timeval) : Prop := {
  select_late k tmo now : tv_norm now -> let '(r, _, now') := select k tmo now in tv_norm now' /\ (r = 0 -> tv_le (timeradd tmo now) now');
  select_result k tmo now : let '(r, _, _) := select k tmo now in r <= 1
}.

Section WaitEnds.
Context (select : nat -> timeval -> timeval -> Z * bool * timeval) `{!PunctualSelect select}.

Lemma wait_loop_ends n : forall k now end_time, tv_norm now -> tv_norm end_time ->
  (forall j tmo t, (k + n <= j)%nat -> (select j tmo t).1.2 = false) ->
  exists r t, wait_loop select (n + 2) k now end_time = Some (r, t) /\ tv_norm t /\ (r = 1 \/ r = -1 \/ r = 0 /\ tv_le end_time t).
Proof.
  induction n as [|n IH]; intros k now en Hn He Hi; cbn [Nat.add wait_loop].
  all: destruct (timercmp Z.ltb now en) eqn:Ec; [|exists 0, now; split; [done|]; split; [done|]; right; right; split; [done|by apply timercmp_ltb]].
  all: pose proof (select_late k (timersub en now) now Hn) as Hl; pose proof (select_result k (timersub en now) now) as Hr.
  all: assert (Hend : timeradd (timersub en now) now = en)
    by (apply tv_us_inj; [by apply timeradd_norm; [apply timersub_norm|]|done|rewrite timeradd_us, timersub_us; lia]).
  1: pose proof (Hi k (timersub en now) now ltac:(lia)) as Hint.
  all: destruct (select k (timersub en now) now) as [[r ei] now'] eqn:Es; destruct Hl as [Hn' Hl]; rewrite Hend in Hl.
  all: destruct (Z.eqb_spec r 1) as [->|Hr1]; [exists 1, now; auto|].
  - cbn [fst snd] in Hint. subst ei. rewrite andb_true_r. destruct (Z.ltb_spec r 0) as [Hneg|Hpos]; [exists (-1), now; auto|].
    assert (r = 0) as -> by lia. specialize (Hl eq_refl). apply timercmp_ltb in Hl as E2. rewrite E2. exists 0, now'. auto 6.
  - destruct ((r <? 0) && negb ei); [exists (-1), now; auto|]. apply IH; try done. intros j tmo t Hj. apply Hi. lia.
Qed.

(** The wait for a response ends: with at most [n] interrupted calls, [n + 2]
    turns are enough, and the answer that no packet came is given only after
    the time. *)
Theorem wait_ends n ms now : tv_norm now -> 0 <= ms -> (forall j tmo t, (n <= j)%nat -> (select j tmo t).1.2 = false) ->
  exists r t, wait_for_packet select (n + 2) ms now = Some (r, t) /\
    (r = 1 \/ r = -1 \/ r = 0 /\ tv_us now + ms * 1000 <= tv_us t).
Proof.
  intros Hn Hms Hi. assert (Hm : tv_norm (ms_tv ms)).
  { unfold ms_tv, tv_norm. cbn [tv_usec]. pose proof (Z.quot_rem' ms 1000). pose proof (Z.rem_bound_pos ms 1000 Hms ltac:(lia)). lia. }
  assert (He : tv_norm (timeradd (ms_tv ms) now)) by (by apply timeradd_norm).
  destruct (wait_loop_ends n 0 now _ Hn He Hi) as (r & t & E & Ht & C).
  exists r, t. split; [exact E|]. destruct C as [|[|[-> Hle]]]; [auto..|]. right. right. split; [done|].
  assert (Hus : tv_us (timeradd (ms_tv ms) now) = tv_us now + ms * 1000) by (rewrite timeradd_us; unfold tv_us, ms_tv; cbn; lia).
  rewrite <- Hus. by apply tv_le_us.
Qed.
End WaitEnds.

(** ** Names *)

(** Without an entry in the system's table, the port of a service leads back to
    its name, except for the second owner of a port. *)
Lemma names_roundtrip e : e ∈ serverNameList -> sn_name e <> bytes_of "camera" ->
  socket_get_name_by_addr (fun _ => None) (htons (socket_get_addr_by_name (fun _ => None) (sn_name e))) 16 = (zlen (sn_name e), Some (sn_name e)).
Proof.
  assert (H : Forall (fun e => sn_name e <> bytes_of "camera" ->
    socket_get_name_by_addr (fun _ => None) (htons (socket_get_addr_by_name (fun _ => None) (sn_name e))) 16 = (zlen (sn_name e), Some (sn_name e))) serverNameList).
  { unfold serverNameList. repeat constructor; intros Hne; first [by vm_compute|by destruct Hne]. }
  rewrite list.Forall_forall in H. apply H.
Qed.

(** A name is written only where there is room for it and its zero byte. *)
Lemma name_fits getservbyport port bufSize n name : socket_get_name_by_addr getservbyport port bufSize = (n, Some name) -> n = zlen name /\ zlen name + 1 <= bufSize.
Proof.
  unfold socket_get_name_by_addr. destruct (match getservbyport port with Some _ => _ | None => _ end) as [x|]; [|done].
  destruct (Z.leb_spec bufSize (zlen x)); [done|]. intros [= <- <-]. lia.
Qed.

(** ** Requests of data *)

Lemma fill_loop_spec items stop rest : Forall (fun i => 0 < i) items -> stop <= 0 -> forall reqs room allocLen,
  (reqs = [] /\ room = 0 /\ 0 < allocLen \/ 0 < room /\ room = allocLen /\ zlen reqs <= room) ->
  exists room', fill_loop (items ++ stop :: rest) reqs room allocLen = Some (reqs ++ items, room') /\ zlen (reqs ++ items) <= room'.
Proof.
  intros Hi Hs. induction Hi as [|i items Hp _ IH]; intros reqs room al Hr; cbn [app fill_loop].
  - destruct (Z.ltb_spec 0 stop); [lia|]. exists room. rewrite app_nil_r. split; [done|]. destruct Hr as [(-> & -> & _)|(_ & -> & ?)]; [done|lia].
  - destruct (Z.ltb_spec 0 i); [|lia].
    assert (Hroom : let grow := (room =? 0) || (zlen reqs =? al) in let al' := if grow then al * 2 else al in
      let room' := if grow then al' else room in zlen reqs < room' /\ 0 < room' /\ room' = al').
    { destruct Hr as [(-> & -> & Ha)|(H0 & -> & Hl)]; cbn -[Z.mul]; [lia|]. destruct (Z.eqb_spec al 0); [lia|]. cbn [orb].
      destruct (Z.eqb_spec (zlen reqs) al); lia. }
    cbv zeta in Hroom. destruct Hroom as (H1 & H2 & H3). rewrite (proj2 (Z.ltb_lt _ _) H1).
    replace (reqs ++ i :: items) with ((reqs ++ [i]) ++ items) by (by rewrite <- (assoc_L (++))).
    apply IH. right. split; [done|]. split; [done|]. rewrite length_app. cbn [length]. lia.
Qed.

(** A request has the items up to the end of the list, in an array with room
    for them. *)
Lemma fill_datareq_correct items stop rest : Forall (fun i => 0 < i) items -> stop <= 0 ->
  exists room, IPC_fill_datareq (items ++ stop :: rest) = Some (items, room) /\ zlen items <= room.
Proof. intros Hi Hs. apply (fill_loop_spec items stop rest Hi Hs [] 0 8). by left. Qed.

(** ** The watchdog *)

(** A registration that is in order is left alone; a process whose number does
    not fit 16 bits registers again every time. *)
Lemma watchdog_quiet name getserv cmdFd pid data st out p mem :
  entry_good name pid data = true -> watchdog_reg_info 70 getserv cmdFd (Some (Some name)) pid data st out p mem = st.
Proof. intros H. cbn [watchdog_reg_info]. by rewrite H. Qed.

Lemma large_pid_never_good name pid data : Forall is_byte data -> 65535 < pid -> entry_good name pid data = false.
Proof.
  intros Hd Hp. unfold entry_good. assert (Hb : forall k, 0 <= nth k data 0 < 256).
  { intros k. destruct (Nat.lt_ge_cases k (length data)) as [Hk|Hk]; [|rewrite nth_overflow by done; lia].
    rewrite Forall_forall in Hd. apply Hd, list_elem_of_In. by apply nth_In. }
  pose proof (Hb 2%nat). pose proof (Hb 3%nat). destruct (Z.eqb_spec pid (nth 2 data 0 * 256 + nth 3 data 0)); [lia|]. by rewrite andb_false_r.
Qed.

(** ** Examples *)

Definition quiet_sockets : sockets := Sk ∅ (fds_init 3) [] [].
Definition to_beacon : sockaddr_in := SA (htons 50000) INADDR_LOOPBACK.

Definition demo_wait1 : sockets := (proc_cmd_sockaddr_internal 70 quiet_sockets 5 1 [2] to_beacon WAgain 1%positive true).2.

Lemma demo_history : rtc (sstep 70) ([], quiet_sockets) ([(5, ([1; 2], to_beacon))], demo_wait1).
Proof.
  eapply rtc_l; [|apply rtc_refl]. apply (SIssue 70 [] quiet_sockets 5 1 [2] to_beacon WAgain 1%positive true); try done.
Qed.

Lemma fresh_no_writes fd : has (entry (fds_init 3) fd) FdWrite = false.
Proof.
  unfold entry, chain. cbn [events fds_init]. destruct (replicate (Z.to_nat 3) [] !! bucket_of (fds_init 3) fd) as [c|] eqn:E; [|done].
  apply lookup_replicate_1 in E as [-> _]. done.
Qed.

Lemma commands_sent_witness :
  of_fd 5 [(5, ([1; 2], to_beacon))] = of_fd 5 (sent demo_wait1) ++ waits demo_wait1 5 /\ waits demo_wait1 5 = [([1; 2], to_beacon)] /\
  exists st', sock_writable 70 demo_wait1 5 WOk = Some st' /\ of_fd 5 (sent st') = [([1; 2], to_beacon)].
Proof.
  destruct (commands_sent 70 quiet_sockets _ _ (fds_init_wf 3 ltac:(lia)) fresh_no_writes eq_refl demo_history) as [_ H].
  destruct (H 5 ltac:(lia)) as (H1 & _ & _ & _ & H2). split; [exact H1|]. split; [vm_compute; reflexivity|exact H2].
Defined.

(** Select that waits for the whole time, the first time interrupted. *)
Definition demo_select (k : nat) (tmo now : timeval) : Z * bool * timeval :=
  match k with O => (-1, true, now) | _ => (0, false, if decide (tv_norm (timeradd tmo now)) then timeradd tmo now else TV (tv_sec (timeradd tmo now) + 1) 0) end.

#[export] Instance demo_select_ok : PunctualSelect demo_select.
Proof.
  split; intros [|k] tmo now; cbn; try done. intros _. case_decide as H; [split; [exact H|]; intros _; apply tv_le_refl|].
  split; [done|]. intros _. left. cbn. lia.
Qed.

Lemma wait_ends_witness : exists r t, wait_for_packet demo_select 3 2500 (TV 10 700000) = Some (r, t) /\
  (r = 1 \/ r = -1 \/ r = 0 /\ tv_us (TV 10 700000) + 2500 * 1000 <= tv_us t).
Proof. apply (wait_ends demo_select 1); [done|lia|]. intros [|j] tmo t Hj; [lia|done]. Defined.

Module Demo.
(** A second command while one waits on the socket replaces it: the first is
    never sent and its memory is lost. *)
Lemma second_command_replaces :
  let st := (proc_cmd_sockaddr_internal 70 demo_wait1 5 3 [4] to_beacon WAgain 2%positive true).2 in
  exists st', sock_writable 70 st 5 WOk = Some st' /\ sent st' = [(5, ([3; 4], to_beacon))] /\ waits st' 5 = [] /\
    pend st' !! 1%positive = Some (Msg [1; 2] to_beacon).
Proof. eexists. split; [vm_compute; reflexivity|]. split_and!; vm_compute; reflexivity. Qed.

(** The name camera stands for the port of pscam, and its own port, like the
    second of payload3, has no name that leads to it. *)
Lemma camera_is_pscam :
  socket_get_addr_by_name (fun _ => None) (bytes_of "camera") = 50012 /\
  socket_get_name_by_addr (fun _ => None) (htons 50012) 16 = (5, Some (bytes_of "pscam")) /\
  socket_get_addr_by_name (fun _ => None) (bytes_of "payload3") = 50018.
Proof. by vm_compute. Qed.

(** A number that is no port is taken for one. *)
Lemma port_out_of_range : socket_get_addr_by_name (fun _ => None) (bytes_of "70000") = 70000 /\ htons 70000 = htons 4464.
Proof. by vm_compute. Qed.

(** The socket stays open when the host cannot be resolved. *)
Lemma unresolved_leaks select now : socket_send_packet_and_read_response select 1 4 (Some None) true 100 now 0 8 = Some (-1, false).
Proof. done. Qed.
End Demo.
