(* ===== verification/Plugin.v ===== *)
(** * Plugins (plugin.c)

    A set of plugins is filled by the initialisation functions of shared
    libraries: those in the directories of the set whose names say so are loaded
    when the set is first used, the others when a plugin is asked for that is not
    registered.  The directories that were scanned are remembered over all sets.
    The file system and the dynamic linker are parameters: a library that can be
    opened and has the function is given by the plugins that it registers.  A
    path that overruns its buffer is a fault. *)

From stdpp Require Import base gmap sets list numbers.
From Stdlib Require Import ZArith Lia.
From Stdlib Require String.
From S2P Require Import Prelude Words CStr.
Open Scope Z_scope.
Import String.StringSyntax.

Abbreviation str := (list Z).

(** ** Data *)

(** [struct Plugin], and the node of [struct PluginList]. *)
Record Plugin := Plug { pl_cfg : option Z; pl_name : str; factory : option Z }.
Record PluginList := PLN { plugin : Plugin; opaque : Z }.

(** [struct PluginSetData]: the list of directories by their paths. *)
Record PluginSetData := PSD { dirs : list str; plugins : list PluginList; name_lc : str }.

(** [struct PluginSet] with its data. *)
Record PluginSet := PS { prefix : str; initial_paths : option str; data : option PluginSetData }.

(** The list of [find_directory], the set, the files that the linker was asked
    for and the directories that were read. *)
Record plugin_state := PLS { head : list (str * bool); pset : PluginSet; loaded : list str; scanned : list str }.

Definition PL_PRELOAD_PREFIX : str := bytes_of "preload-".
Definition PL_PLUGIN_SUFFIX : str := bytes_of ".so".

Definition with_data (st : plugin_state) (d : PluginSetData) : plugin_state :=
  PLS (head st) (PS (prefix (pset st)) (initial_paths (pset st)) (Some d)) (loaded st) (scanned st).

(** ** Operations *)

Section Operations.
Context (readdir : str -> option (list str)) (dlopen : str -> option (list PluginList)).

(** A node in front of the list, once the set has its data. *)
Definition push_plugin (n : PluginList) (st : plugin_state) : plugin_state :=
  match data (pset st) with
  | Some d => with_data st (PSD (dirs d) (n :: plugins d) (name_lc d))
  | None => st
  end.

Definition load_plugin_file (file : str) (st : plugin_state) : plugin_state :=
  let st1 := PLS (head st) (pset st) (loaded st ++ [file]) (scanned st) in
  match dlopen file with
  | None => st1
  | Some l => foldl (fun s n => push_plugin n s) st1 l
  end.

(** The names that are loaded at once. *)
Definition preloads (d_name : str) : bool :=
  negb (hd 0 d_name =? 0) && negb (hd 0 d_name =? 46) && bool_decide (take 8 d_name = PL_PRELOAD_PREFIX) &&
  bool_decide (drop (length d_name - 3) d_name = PL_PLUGIN_SUFFIX).

Definition PATH_SIZE : Z := 2049.

Fixpoint preload_files (path : str) (ents : list str) (st : plugin_state) : option plugin_state :=
  match ents with
  | [] => Some st
  | d_name :: ents' =>
      if preloads d_name then
        let file := path ++ [47] ++ d_name in
        if zlen file <? PATH_SIZE then preload_files path ents' (load_plugin_file file st) else None
      else preload_files path ents' st
  end.

Definition mark_preloaded (path : str) (st : plugin_state) : plugin_state :=
  PLS ((fun x => if decide (x.1 = path) then (x.1, true) else x) <$> head st) (pset st) (loaded st) (scanned st ++ [path]).

Definition preload_directory (path : str) (st : plugin_state) : option plugin_state :=
  match readdir path with
  | None => Some st
  | Some ents => st' ← preload_files path ents st; Some (mark_preloaded path st')
  end.

(** Whether the directory was scanned, and the list with it. *)
Definition find_directory (name : str) (st : plugin_state) : bool * plugin_state :=
  match list_find (fun x => x.1 = name) (head st) with
  | Some (_, x) => (x.2, st)
  | None => (false, PLS ((name, false) :: head st) (pset st) (loaded st) (scanned st))
  end.

(** Whether the directory can be used. *)
Definition configure_directory (name : str) (st : plugin_state) : option (bool * plugin_state) :=
  match name with
  | [] => Some (false, st)
  | _ =>
      let '(preloaded, st1) := find_directory name st in
      if preloaded then Some (true, st1)
      else
        st2 ← preload_directory name st1;
        Some ((find_directory name st2).1, st2)
  end.

(** The paths of a set: separated by commas, without slashes at the end. *)
Fixpoint strip_slashes (s : str) : str :=
  match s with
  | [] => []
  | c :: s' => match strip_slashes s' with [] => if c =? 47 then [] else [c] | r => c :: r end
  end.

Fixpoint path_list (fuel : nat) (itr : str) : list str :=
  match fuel, itr with
  | S fuel', _ :: _ => let '(a, sep) := strchr 44 itr in strip_slashes a :: match sep with Some r => path_list fuel' r | None => [] end
  | _, _ => []
  end.

Fixpoint configure_directories (names : list str) (st : plugin_state) : option plugin_state :=
  match names with
  | [] => Some st
  | n :: names' =>
      match configure_directory n st with
      | None => None
      | Some (false, st1) => configure_directories names' st1
      | Some (true, st1) =>
          configure_directories names'
            (match data (pset st1) with
             | Some d => with_data st1 (PSD (n :: dirs d) (plugins d) (name_lc d))
             | None => st1
             end)
      end
  end.

Definition configure_set (st : plugin_state) : option plugin_state :=
  let st1 := with_data st (PSD [] [] (tolower <$> prefix (pset st))) in
  match initial_paths (pset st) with
  | None => Some st1
  | Some p => configure_directories (path_list (length p) p) st1
  end.

Definition configured (st : plugin_state) : option plugin_state :=
  match data (pset st) with Some _ => Some st | None => configure_set st end.

Definition PL_register (n : PluginList) (st : plugin_state) : option (Z * plugin_state) :=
  st1 ← configured st; Some (0, push_plugin n st1).

Definition registered (name : str) (st : plugin_state) : option PluginList :=
  d ← data (pset st);
  r ← list_find (fun n => same_name (pl_name (plugin n)) name = true) (plugins d);
  Some r.2.

(** The file of a plugin in a directory; the buffer has 2048 bytes. *)
Definition plugin_file (d : PluginSetData) (name dir : str) : str :=
  take 2047 (dir ++ [47] ++ name_lc d ++ [45] ++ (tolower <$> name) ++ PL_PLUGIN_SUFFIX).

Definition find_plugin (name : str) (dont_load : bool) (st : plugin_state) : option (option PluginList * plugin_state) :=
  st1 ← configured st;
  match registered name st1 with
  | Some n => Some (Some n, st1)
  | None =>
      if dont_load then Some (None, st1)
      else
        d ← data (pset st1);
        let st2 := foldl (fun s dir => load_plugin_file (plugin_file d name dir) s) st1 (dirs d) in
        Some (registered name st2, st2)
  end.

(** The factory that makes the object, with the opaque value it is given. *)
Definition PL_create_object (name : str) (st : plugin_state) : option (option (Z * Z) * plugin_state) :=
  '(plug, st1) ← find_plugin name false st;
  Some (n ← plug; f ← factory (plugin n); Some (f, opaque n), st1).

Definition PL_config_for_plugin (name : str) (defer_load : bool) (st : plugin_state) : option (option Z * plugin_state) :=
  '(plug, st1) ← find_plugin name defer_load st; Some (n ← plug; pl_cfg (plugin n), st1).

(** The lookups given to the configuration reader: the table, and whether the
    object is buffered. *)
Definition PL_objectlookup (params : str) (buffer_obj : bool) (st : plugin_state) : option (option Z * bool * plugin_state) :=
  '(c, st1) ← PL_config_for_plugin params false st; Some (c, false, st1).
Definition PL_objectlookup_w_buffer (params : str) (buffer_obj : bool) (st : plugin_state) : option (option Z * bool * plugin_state) :=
  '(c, st1) ← PL_config_for_plugin params buffer_obj st; Some (c, buffer_obj, st1).

Definition PL_preload_plugins (st : plugin_state) : option plugin_state := configured st.
End Operations.

(** ** Looking up *)

Section Lookup.
Context (readdir : str -> option (list str)) (dlopen : str -> option (list PluginList)).

(** What loading files registers, the last in front. *)
Definition registrations (files : list str) : list PluginList := reverse (concat ((fun f => default [] (dlopen f)) <$> files)).

Lemma push_all l : forall st d, data (pset st) = Some d ->
  foldl (fun s n => push_plugin n s) st l = with_data st (PSD (dirs d) (reverse l ++ plugins d) (name_lc d)).
Proof.
  induction l as [|n l IH]; intros st d Hd; cbn [foldl].
  - unfold with_data. cbn [reverse rev_append app]. destruct st as [h [p i dd] ld sc]. cbn in *. subst dd. by destruct d.
  - assert (E : push_plugin n st = with_data st (PSD (dirs d) (n :: plugins d) (name_lc d))) by (unfold push_plugin; by rewrite Hd).
    set (d' := PSD (dirs d) (n :: plugins d) (name_lc d)) in *. rewrite E, (IH (with_data st d') d' eq_refl). cbn [dirs plugins name_lc].
    rewrite reverse_cons, <- (assoc_L (++)). done.
Qed.

(** Loading a list of files. *)
Definition after_load (st : plugin_state) (d : PluginSetData) (files : list str) : plugin_state :=
  let st' := with_data st (PSD (dirs d) (registrations files ++ plugins d) (name_lc d)) in
  PLS (head st') (pset st') (loaded st ++ files) (scanned st').

Lemma load_each files : forall st d, data (pset st) = Some d ->
  foldl (fun s f => load_plugin_file dlopen f s) st files = after_load st d files.
Proof.
  induction files as [|f files IH]; intros st d Hd; cbn [foldl].
  - unfold after_load, with_data, registrations. cbn [fmap list_fmap concat reverse rev_append app head pset loaded scanned]. rewrite app_nil_r.
    destruct st as [h [p i dd] ld sc]. cbn in *. subst dd. by destruct d.
  - assert (E : load_plugin_file dlopen f st = after_load st d [f]).
    { unfold load_plugin_file, after_load, registrations. cbn [fmap list_fmap concat]. rewrite app_nil_r.
      destruct (dlopen f) as [l|]; cbn [default from_option id].
      - by rewrite (push_all l _ d).
      - destruct st as [h [p i dd] ld sc]. cbn in *. subst dd. by destruct d. }
    rewrite E, (IH (after_load st d [f]) (PSD (dirs d) (registrations [f] ++ plugins d) (name_lc d)) eq_refl). unfold after_load, with_data. cbn [head pset loaded scanned prefix initial_paths dirs plugins name_lc].
    unfold registrations. cbn [fmap list_fmap concat]. rewrite app_nil_r, !reverse_app, <- !(assoc_L (++)). done.
Qed.

Definition first_named (name : str) (l : list PluginList) : option PluginList :=
  r ← list_find (fun n => same_name (pl_name (plugin n)) name = true) l; Some r.2.

(** Looking a plugin up in a set that has its data: the last one that was
    registered under the name, in whatever case it is spelt, and nothing is
    loaded; without one, and unless loading is put off, the file of the plugin
    in each directory of the set is loaded, once and in order, and the last one
    that these register under the name is found. *)
Theorem plugin_lookup name dont_load st d : data (pset st) = Some d ->
  let files := plugin_file d name <$> dirs d in
  find_plugin readdir dlopen name dont_load st =
    match first_named name (plugins d) with
    | Some n => Some (Some n, st)
    | None => if dont_load then Some (None, st) else Some (first_named name (registrations files), after_load st d files)
    end.
Proof.
  intros Hd files. unfold find_plugin, configured. rewrite Hd. cbn [mbind option_bind].
  assert (Hr : registered name st = first_named name (plugins d)) by (unfold registered, first_named; by rewrite Hd). rewrite Hr.
  destruct (first_named name (plugins d)) eqn:E0; [done|]. destruct dont_load; [done|]. rewrite Hd. cbn [mbind option_bind].
  assert (El : foldl (fun s dir => load_plugin_file dlopen (plugin_file d name dir) s) st (dirs d) = after_load st d files).
  { rewrite <- (load_each files st d Hd). unfold files. generalize st. induction (dirs d) as [|x l IH]; intros s; [done|]. cbn [fmap list_fmap foldl]. apply IH. }
  rewrite El. f_equal. f_equal. unfold registered, after_load, with_data, first_named. cbn [pset data plugins mbind option_bind].
  unfold first_named in E0. destruct (list_find _ (plugins d)) eqn:E1; [done|].
  destruct (list_find (fun n => same_name (pl_name (plugin n)) name = true) (registrations files)) as [[i n]|] eqn:E2.
  - by rewrite (list_find_app_l _ _ _ _ _ E2).
  - rewrite list_find_app_r by done. by rewrite E1.
Qed.

(** What is registered is found, in front of what was there. *)
Lemma register_found n name dont_load st d st' : data (pset st) = Some d -> same_name (pl_name (plugin n)) name = true ->
  PL_register readdir dlopen n st = Some (0, st') -> find_plugin readdir dlopen name dont_load st' = Some (Some n, st').
Proof.
  intros Hd Hn. unfold PL_register, configured. rewrite Hd. cbn [mbind option_bind]. intros [= <-]. unfold push_plugin. rewrite Hd.
  unfold find_plugin, configured, with_data, registered. cbn [pset data mbind option_bind plugins list_find].
  by rewrite decide_True.
Qed.
End Lookup.

(** ** Directories *)

Section Directories.
Context (readdir : str -> option (list str)) (dlopen : str -> option (list PluginList)).

(** The list has each directory once, and those that are marked are those that
    were read, each once. *)
Definition dirs_ok (st : plugin_state) : Prop :=
  NoDup (head st).*1 /\ NoDup (scanned st) /\ forall p, (p, true) ∈ head st <-> p ∈ scanned st.

(** Loading changes neither. *)
Definition same_dirs (st st' : plugin_state) : Prop := head st' = head st /\ scanned st' = scanned st.

Lemma push_same n st : same_dirs st (push_plugin n st).
Proof. unfold push_plugin. by destruct (data (pset st)). Qed.

Lemma load_same f st : same_dirs st (load_plugin_file dlopen f st).
Proof.
  unfold load_plugin_file. destruct (dlopen f) as [l|]; [|done]. set (st1 := PLS _ _ _ _). change (same_dirs st1 (foldl (fun s n => push_plugin n s) st1 l)).
  generalize st1. induction l as [|n l IH]; intros s; [done|]. cbn [foldl]. destruct (IH (push_plugin n s)) as [A B]. destruct (push_same n s) as [C D]. split; congruence.
Qed.

Lemma preload_same path ents : forall st st', preload_files dlopen path ents st = Some st' -> same_dirs st st'.
Proof.
  induction ents as [|e ents IH]; intros st st'; cbn [preload_files]; [by intros [= <-]|]. destruct (preloads e); [|apply IH].
  destruct (_ <? _); [|done]. intros H%IH. destruct (load_same (path ++ [47] ++ e) st) as [A B]. destruct H as [C D]. split; congruence.
Qed.

Lemma find_directory_ok name st : dirs_ok st ->
  let '(b, st1) := find_directory name st in dirs_ok st1 /\ scanned st1 = scanned st /\ (b = true <-> name ∈ scanned st) /\ name ∈ (head st1).*1.
Proof.
  intros (H1 & H2 & H3). unfold find_directory. destruct (list_find _ (head st)) as [[i [p b]]|] eqn:E.
  - apply list_find_Some in E as (E1 & E2 & _). cbn in E2. subst p. cbn [snd].
    assert (Hin : (name, b) ∈ head st) by (by eapply list_elem_of_lookup_2). split; [done|]. split; [done|].
    split; [|apply list_elem_of_fmap; by exists (name, b)]. rewrite <- H3. destruct b; [done|]. split; [done|]. intros Ht. exfalso.
    apply list_elem_of_lookup in Hin as [j Hj]. apply list_elem_of_lookup in Ht as [k Hk].
    assert (Hjk : j = k) by (eapply (NoDup_lookup _ j k name H1); rewrite list_lookup_fmap; [by rewrite Hj|by rewrite Hk]). subst. congruence.
  - apply list_find_None in E. assert (Hn : name ∉ (head st).*1).
    { intros (x & -> & Hx)%list_elem_of_fmap. rewrite list.Forall_forall in E. by apply (E x Hx). }
    unfold dirs_ok. cbn [head scanned]. split; [|split; [done|split; [|left]]].
    + split_and!; [by apply list.NoDup_cons|done|]. intros p. rewrite elem_of_cons, <- H3. split; [by intros [[=]|?]|by right].
    + split; [done|]. rewrite <- H3. intros Hx. exfalso. apply Hn. apply list_elem_of_fmap. by exists (name, true).
Qed.

Lemma mark_ok path st : dirs_ok st -> path ∈ (head st).*1 -> path ∉ scanned st -> dirs_ok (mark_preloaded path st).
Proof.
  intros (H1 & H2 & H3) Hin Hn. unfold dirs_ok. cbn [mark_preloaded head scanned]. split_and!.
  - rewrite <- list_fmap_compose. assert (E : fst ∘ (fun x : str * bool => if decide (x.1 = path) then (x.1, true) else x) <$> head st = (head st).*1).
    { apply list_fmap_ext. intros i x _. cbn. by case_decide. }
    by rewrite E.
  - apply list.NoDup_app. split_and!; [done| |apply NoDup_singleton]. intros x Hx ->%list_elem_of_singleton. done.
  - intros p. rewrite elem_of_app, list_elem_of_singleton, <- H3, list_elem_of_fmap. split.
    + intros ([q b] & E & Hx). cbn [fst] in E. case_decide; [right; congruence|left; by rewrite E].
    + intros [Hp| ->].
      * exists (p, true). split; [|done]. cbn. by case_decide.
      * apply list_elem_of_fmap in Hin as ([q b] & E & Hx). cbn in E. subst q. exists (path, b). split; [|done]. cbn. by rewrite decide_True.
Qed.

Lemma configure_directory_ok name st b st' : dirs_ok st -> configure_directory readdir dlopen name st = Some (b, st') ->
  dirs_ok st' /\ (b = true -> name ∈ scanned st').
Proof.
  intros H. unfold configure_directory. destruct name as [|c name]; [by intros [= <- <-]|]. set (n := c :: name).
  pose proof (find_directory_ok n st H) as F. destruct (find_directory n st) as [[] st1]; destruct F as (F1 & F2 & F3 & F4).
  - intros [= <- <-]. split; [done|]. intros _. rewrite F2. by apply F3.
  - unfold preload_directory. destruct (readdir n) as [ents|]; cbn [mbind option_bind].
    + destruct (preload_files dlopen n ents st1) as [st2|] eqn:E; [|done]. cbn [mbind option_bind]. destruct (preload_same _ _ _ _ E) as [A B].
      assert (Hm : dirs_ok (mark_preloaded n st2)).
      { apply mark_ok; [unfold dirs_ok; by rewrite A, B|by rewrite A|]. rewrite B, F2. intros Hx%F3. done. }
      intros [= <- <-]. split; [done|]. intros _. cbn. apply elem_of_app. right. by left.
    + intros [= <- <-]. split; [done|]. pose proof (find_directory_ok n st1 F1) as F. destruct (find_directory n st1) as [b2 st3]. cbn [fst]. intros ->.
      by apply F.
Qed.

Lemma configure_directories_ok names : forall st st', dirs_ok st -> configure_directories readdir dlopen names st = Some st' -> dirs_ok st'.
Proof.
  induction names as [|n names IH]; intros st st' H; cbn [configure_directories]; [by intros [= <-]|].
  destruct (configure_directory readdir dlopen n st) as [[b st1]|] eqn:E; [|done]. destruct (configure_directory_ok _ _ _ _ H E) as [H1 _].
  destruct b; [|by apply IH]. apply IH. by destruct (data (pset st1)).
Qed.

(** Preparing sets, one after the other, reads no directory twice. *)
Fixpoint configure_sets (sets : list PluginSet) (st : plugin_state) : option plugin_state :=
  match sets with
  | [] => Some st
  | s :: sets' => st' ← PL_preload_plugins readdir dlopen (PLS (head st) s (loaded st) (scanned st)); configure_sets sets' st'
  end.

Theorem scanned_once sets : forall st st', dirs_ok st -> configure_sets sets st = Some st' -> dirs_ok st' /\ NoDup (scanned st').
Proof.
  induction sets as [|s sets IH]; intros st st' H; cbn [configure_sets]; [intros [= <-]; split; [done|apply H]|].
  unfold PL_preload_plugins, configured, configure_set. cbn [pset]. destruct (data s); cbn [mbind option_bind]; [apply IH; exact H|].
  destruct (initial_paths s) as [p|]; cbn [mbind option_bind]; [|by apply IH].
  destruct (configure_directories readdir dlopen _ _) as [st1|] eqn:E; [|done]. cbn [mbind option_bind]. apply IH.
  eapply configure_directories_ok; [|exact E]. exact H.
Qed.
End Directories.

(** ** Examples *)

Module Demo.
Definition square : PluginList := PLN (Plug (Some 1) (bytes_of "Square") (Some 2)) 7.
Definition circle : PluginList := PLN (Plug (Some 3) (bytes_of "Circle") None) 8.

Definition readdir (d : str) : option (list str) :=
  if decide (d = bytes_of "/lib/a") then Some [bytes_of "."; bytes_of "preload-x.so"; bytes_of "shape-circle.so"] else None.
Definition dlopen (f : str) : option (list PluginList) :=
  if decide (f = bytes_of "/lib/a/preload-x.so") then Some [square]
  else if decide (f = bytes_of "/lib/a/shape-circle.so") then Some [circle] else None.

Definition shapes : PluginSet := PS (bytes_of "Shape") (Some (bytes_of "/lib/a/,/lib/b,/lib/a")) None.
Definition start : plugin_state := PLS [] shapes [] [].
Definition ready : plugin_state := default start (PL_preload_plugins readdir dlopen start).
End Demo.

Lemma plugin_lookup_witness :
  find_plugin Demo.readdir Demo.dlopen (bytes_of "CIRCLE") false Demo.ready =
    Some (Some Demo.circle, after_load Demo.dlopen Demo.ready (PSD [bytes_of "/lib/a"; bytes_of "/lib/a"] [Demo.square] (bytes_of "shape"))
      [bytes_of "/lib/a/shape-circle.so"; bytes_of "/lib/a/shape-circle.so"]) /\
  scanned Demo.ready = [bytes_of "/lib/a"].
Proof.
  split; [|vm_compute; reflexivity].
  etransitivity; [apply (plugin_lookup Demo.readdir Demo.dlopen (bytes_of "CIRCLE") false Demo.ready
    (PSD [bytes_of "/lib/a"; bytes_of "/lib/a"] [Demo.square] (bytes_of "shape"))); vm_compute; reflexivity|vm_compute; reflexivity].
Defined.
