(* ===== verification/ProcInit.v ===== *)
(** * The start and the end of a process (proclib.c)

    [PROC_init] leaves two files by which the process is found, one named after
    it with its number and one named after its number with its name; it removes
    the second of an earlier run that ended without cleaning up.  It then makes
    an event handler that watches the signal pipe and the two command sockets,
    installs the handlers of the program's commands, and schedules the
    registration with the watchdog.  The files are a map from
    paths to contents; a path or a word that overruns its buffer is a fault. *)

From stdpp Require Import base gmap sets list numbers sorting.
From Stdlib Require Import ZArith Lia.
From Stdlib Require String.
From S2P Require Import Prelude Words CStr XdrText PriorityQueue Sched FdEvents EventLoop ProcSignal Handler CmdResponse CmdRegistry CmdDispatch Sockets.
Open Scope Z_scope.
Import String.StringSyntax.

Abbreviation str := (list Z).
Abbreviation files := (gmap str str).

(** ** Files *)

Definition PID_FILE_PATH : str := bytes_of "/var/run".
Definition PROC_FILE_PATH : str := bytes_of "/var/run".
Definition FILEPATH_SIZE : Z := 80.

Definition pid_path (name : str) : str := PID_FILE_PATH ++ [47] ++ name ++ bytes_of ".pid".
Definition proc_path (pid : Z) : str := PROC_FILE_PATH ++ [47] ++ decimal pid ++ bytes_of ".proc".

(** [sprintf] into the array of 80 bytes. *)
Definition in_filepath (p : str) : option str := if zlen p <? FILEPATH_SIZE then Some p else None.

(** [fscanf] of [%d] and of [%s]. *)
Definition fscanf_d (s : str) : option Z := s32 <$> scan_number 10 s.

Fixpoint word (s : str) : str := match s with [] => [] | c :: s' => if isspace c then [] else c :: word s' end.
Definition fscanf_s (s : str) : option str := match word (after_spaces s) with [] => None | w => Some w end.

(** The system: which files can be opened for reading, and, for those that can
    be opened for writing, how many bytes the write stores (0 when it fails). *)
Record sysfs := Sys { can_read : str -> bool; stored : str -> option nat }.

Definition fopen_r (sys : sysfs) (fs : files) (path : str) : option str := if can_read sys path then fs !! path else None.

(** The old number, -1 without one. *)
Definition old_pid (sys : sysfs) (fs : files) (path : str) : Z :=
  match fopen_r sys fs path with Some s => default (-1) (fscanf_d s) | None => -1 end.

(** The .proc file of the old number, if it claims to be ours. *)
Definition drop_old (sys : sysfs) (name : str) (oldPid : Z) (fs : files) : option files :=
  if 1 <? oldPid then
    path ← in_filepath (proc_path oldPid);
    match fopen_r sys fs path with
    | None => Some fs
    | Some s =>
        match fscanf_s s with
        | None => Some fs
        | Some w => if zlen w <? FILEPATH_SIZE then Some (if decide (w = name) then delete path fs else fs) else None
        end
    end
  else Some fs.

(** [open], which truncates, [write] and [close]. *)
Definition write_file (sys : sysfs) (path contents : str) (fs : files) : files :=
  match stored sys path with Some n => <[path := take n contents]> fs | None => fs end.

Definition init_files (sys : sysfs) (name : str) (getpid : Z) (fs : files) : option files :=
  pp ← in_filepath (pid_path name);
  fs1 ← drop_old sys name (old_pid sys fs pp) fs;
  mine ← in_filepath (proc_path getpid);
  let fs2 := write_file sys mine name fs1 in
  Some (write_file sys pp (decimal getpid) fs2).

Definition cleanup_files (name : str) (getpid : Z) (fs : files) : option files :=
  mine ← in_filepath (proc_path getpid);
  pp ← in_filepath (pid_path name);
  Some (delete pp (delete mine fs)).

(** ** Events *)

Definition SIGCHLD : Z := 17.
Definition WATCHDOG_VALIDATE_SECS : Z := 30.

Definition WATCHDOG_CMD_REG_INFO_RESP : Z := Z.lor WATCHDOG_CMD_REG_INFO 128.

(** The addresses of the callbacks and of the process. *)
Record pconfig := PC { signal_cb : Z; command_cb : Z; tx_cb : Z; sigchld_cb : Z; wd_cb : Z; reg_info_cb : Z; proc_addr : Z }.

Record XDR_CommandHandlers := XCH { number : Z; xcb : option Z; xarg : Z }.

(** [handlers]: the entries before the one with number 0. *)
Definition install (t : tables) (handlers : list XDR_CommandHandlers) : tables :=
  foldl (fun t h => CMD_set_xdr_cmd_handler t (number h) (xcb h) (xarg h)) t handlers.

Section Events.
Context {T U W : Type} (cfg : pconfig).

Definition watch_socket (cb fd : Z) (t : fds) : fds := EVT_fd_set_critical (EVT_fd_add t fd FdRead (Some cb) (proc_addr cfg) true).2 fd false.

Definition PROC_wd_enable (name : option str) (wdMode : WatchdogMode) (now : timeval) (evt : option ptr) (mem : bool) (s : sched) (n : node U W)
    : sched * node U W :=
  match name, wdMode with
  | Some _, (WD_ENABLED | WD_XDR) =>
      let n' := if bool_decide (wdMode = WD_ENABLED)
                then (CMD_set_cmd_handler n WATCHDOG_CMD_REG_INFO_RESP (Some (ProgramCommand (reg_info_cb cfg))) 0 0 0).2 else n in
      ((EVT_sched_add_with_timestep s now (EVT_ms2tv 0) (EVT_ms2tv (WATCHDOG_VALIDATE_SECS * 1000)) (wd_cb cfg) (proc_addr cfg) evt mem).2, n')
  | _, _ => (s, n)
  end.

(** What the start does to a new handler, with memory for the descriptors: the
    commands (nothing if the process is not created), the handler and the
    state of signals.  [inited] is what [cmd_handler_init] gives. *)
Definition init_events (name : option str) (wdMode : WatchdogMode) (handlers : list XDR_CommandHandlers) (inited : option (node U W))
    (p : Z * Z) (cmdFd txFd : Z) (now : timeval) (evt : option ptr) (mem : bool)
    (s : EventState T) (junk : list Z) : option (node U W) * EventState T * signals :=
  let sg0 := Sig (-1) (0, 0) [] junk 0 [] (fdt s) in
  let '(_, sg1) := setup_signal_fd (signal_cb cfg) (proc_addr cfg) (inr p) true true sg0 in
  match inited with
  | None => (None, upd_fds s (sig_fds sg1), sg1)
  | Some n0 =>
      let n1 := Node (cmds n0) (beats n0) (install (regs n0) handlers) (pr n0) in
      let t := watch_socket (tx_cb cfg) txFd (watch_socket (command_cb cfg) cmdFd (sig_fds sg1)) in
      let sg2 := (PROC_signal sg1 (SReq SIGCHLD (sigchld_cb cfg) (proc_addr cfg) true true)).2 in
      let '(sc, n2) := PROC_wd_enable name wdMode now evt mem (sch s) n1 in
      (Some n2, upd_sched (upd_fds s t) sc,
       Sig (signalWriteFD sg2) (sigPipe sg2) (signalCBHead sg2) (rdBuff sg2) (rdLen sg2) (pipe sg2) t)
  end.
End Events.

(** ** Files *)

Lemma pid_path_inj n m : pid_path n = pid_path m -> n = m.
Proof. unfold pid_path. intros H. apply (inj _) in H. injection H as H. by apply (inj (fun x => x ++ _)) in H. Qed.

(** The two kinds of files have different names. *)
Lemma paths_differ name pid : pid_path name <> proc_path pid.
Proof.
  intros H. apply (f_equal list.last) in H. unfold pid_path, proc_path in H. rewrite !(assoc_L (++)) in H.
  by rewrite !last_app in H.
Qed.

Lemma decimal_inj a b : - 2 ^ 63 <= a < 2 ^ 63 -> - 2 ^ 63 <= b < 2 ^ 63 -> decimal a = decimal b -> a = b.
Proof. intros Ha Hb E. pose proof (strtol_decimal 10 a (or_intror eq_refl) Ha) as H. rewrite E, strtol_decimal in H by auto. congruence. Qed.

Lemma proc_path_inj a b : - 2 ^ 63 <= a < 2 ^ 63 -> - 2 ^ 63 <= b < 2 ^ 63 -> proc_path a = proc_path b -> a = b.
Proof.
  intros Ha Hb H. unfold proc_path in H. apply (inj _) in H. injection H as H. apply (inj (fun x => x ++ _)) in H. by apply decimal_inj.
Qed.

Lemma proc_path_fits pid : in_filepath (proc_path pid) = Some (proc_path pid).
Proof.
  unfold in_filepath. assert (zlen (proc_path pid) < FILEPATH_SIZE).
  { unfold proc_path. rewrite !length_app. pose proof (decimal_short pid).
    change (length PROC_FILE_PATH) with 8%nat. change (length (bytes_of ".proc")) with 5%nat. cbn [length]. unfold FILEPATH_SIZE. lia. }
  by rewrite (proj2 (Z.ltb_lt _ _)).
Qed.

Lemma pid_path_fits name : zlen name <= 66 -> in_filepath (pid_path name) = Some (pid_path name).
Proof.
  intros H. unfold in_filepath. assert (zlen (pid_path name) < FILEPATH_SIZE).
  { unfold pid_path. rewrite !length_app. change (length PID_FILE_PATH) with 8%nat. change (length (bytes_of ".pid")) with 4%nat. cbn [length]. unfold FILEPATH_SIZE. lia. }
  by rewrite (proj2 (Z.ltb_lt _ _)).
Qed.

(** A name that is one word. *)
Definition one_word (name : str) : Prop := name <> [] /\ Forall (fun c => isspace c = false) name /\ zlen name <= 66.

Lemma word_plain name : Forall (fun c => isspace c = false) name -> word name = name.
Proof. induction 1 as [|c l Hc _ IH]; [done|]. cbn [word]. by rewrite Hc, IH. Qed.

Lemma scan_name name : one_word name -> fscanf_s name = Some name.
Proof.
  intros (Hne & HF & _). unfold fscanf_s. destruct name as [|c l]; [done|]. inversion HF as [|? ? Hc _]; subst. cbn [after_spaces]. rewrite Hc.
  by rewrite word_plain.
Qed.

Lemma scan_pid pid : 0 <= pid < 2 ^ 31 -> fscanf_d (decimal pid) = Some pid.
Proof.
  intros H. unfold fscanf_d. rewrite scan_decimal by (auto; lia). cbn [fmap option_fmap option_map]. f_equal. unfold s32.
  rewrite Z.mod_small by lia. lia.
Qed.

(** The word in the .proc file of the old number fits its buffer. *)
Definition word_fits (fs : files) (old : Z) : Prop :=
  forall s w, fs !! proc_path old = Some s -> fscanf_s s = Some w -> zlen w < FILEPATH_SIZE.

(** The file is the old one's and has the name. *)
Definition is_ours (sys : sysfs) (name : str) (old : Z) (fs : files) (q : str) : Prop :=
  1 < old /\ q = proc_path old /\ (fopen_r sys fs q ≫= fscanf_s) = Some name.

#[export] Instance is_ours_dec sys name old fs q : Decision (is_ours sys name old fs q).
Proof. unfold is_ours. apply _. Defined.

Lemma drop_old_spec sys name o fs : word_fits fs o ->
  exists fs1, drop_old sys name o fs = Some fs1 /\ forall q, fs1 !! q = if decide (is_ours sys name o fs q) then None else fs !! q.
Proof.
  intros Hf. unfold drop_old, is_ours. destruct (Z.ltb_spec 1 o) as [Ho|Ho].
  2:{ exists fs. split; [done|]. intros q. case_decide; [lia|done]. }
  rewrite proc_path_fits. cbn [mbind option_bind].
  assert (Hkeep : (fopen_r sys fs (proc_path o) ≫= fscanf_s) <> Some name ->
    forall q, fs !! q = if decide (1 < o /\ q = proc_path o /\ (fopen_r sys fs q ≫= fscanf_s) = Some name) then None else fs !! q).
  { intros Hne q. case_decide as Hq; [|done]. destruct Hq as (_ & -> & Hq). done. }
  destruct (fopen_r sys fs (proc_path o)) as [s|] eqn:E; [|exists fs; split; [done|]; by apply Hkeep].
  cbn [mbind option_bind] in Hkeep. destruct (fscanf_s s) as [w|] eqn:Ew; [|exists fs; split; [done|]; by apply Hkeep].
  assert (Hs : fs !! proc_path o = Some s) by (unfold fopen_r in E; by destruct (can_read sys (proc_path o))).
  rewrite (proj2 (Z.ltb_lt _ _) (Hf _ _ Hs Ew)). case_decide as Hw; [subst w|exists fs; split; [done|]; apply Hkeep; congruence].
  exists (delete (proc_path o) fs). split; [done|]. intros q. destruct (decide (q = proc_path o)) as [->|Hq].
  - rewrite lookup_delete_eq, decide_True; [done|]. split_and!; [done|done|]. rewrite E. cbn. by rewrite Ew.
  - rewrite lookup_delete_ne by done. by rewrite decide_False by (by intros (_ & ? & _)).
Qed.

Lemma write_file_lookup sys path c fs q :
  write_file sys path c fs !! q =
  match stored sys path with Some n => if decide (q = path) then Some (take n c) else fs !! q | None => fs !! q end.
Proof.
  unfold write_file. destruct (stored sys path) as [n|]; [|done]. case_decide as H; [subst; apply lookup_insert_eq|by rewrite lookup_insert_ne].
Qed.

(** The files after the start, one by one. *)
Lemma init_files_spec sys name pid fs : one_word name -> word_fits fs (old_pid sys fs (pid_path name)) ->
  exists fs', init_files sys name pid fs = Some fs' /\
    (forall n, stored sys (proc_path pid) = Some n -> fs' !! proc_path pid = Some (take n name)) /\
    (forall n, stored sys (pid_path name) = Some n -> fs' !! pid_path name = Some (take n (decimal pid))) /\
    (forall q, (q = proc_path pid -> stored sys q = None) -> (q = pid_path name -> stored sys q = None) ->
       fs' !! q = if decide (is_ours sys name (old_pid sys fs (pid_path name)) fs q) then None else fs !! q).
Proof.
  intros Hn Hf. destruct (drop_old_spec sys name _ fs Hf) as (fs1 & E & Hq). unfold init_files.
  rewrite pid_path_fits by apply Hn. cbn [mbind option_bind]. rewrite E. cbn [mbind option_bind]. rewrite proc_path_fits. cbn [mbind option_bind].
  eexists. split; [done|]. pose proof (paths_differ name pid) as Hd. split_and!.
  - intros n Hs. rewrite !write_file_lookup, Hs, (decide_True _ _ eq_refl).
    destruct (stored sys (pid_path name)); [|done]. by rewrite decide_False.
  - intros n Hs. rewrite !write_file_lookup, Hs. by rewrite decide_True.
  - intros q H1 H2. rewrite !write_file_lookup. rewrite <- Hq. repeat case_match; try done; subst; naive_solver.
Qed.

(** C38. The files of a process, with a name of one word and at most 66
    characters and a number from 2 to 2^31 - 1, where the word in the .proc
    file of the old number is shorter than its buffer of 80 bytes; any file
    may fail to open and any write may be short. The start does not fault. The
    file of the process that could be opened holds the name, as far as it was
    written, and the file of the name the number. Of the other files exactly
    one may go: the .proc file of the old number, if the .pid file and it
    could be read and its first word is this name; a .proc file of another
    process stays, whatever number is in the old .pid file, and all others are
    untouched. The end of the process removes both files. After a crash, if
    both files had been written completely and nothing changed them since, the
    next start, under another number and able to read them, leaves no trace of
    this one. *)
Theorem process_files sys name pid fs : one_word name -> 1 < pid < 2 ^ 31 -> word_fits fs (old_pid sys fs (pid_path name)) ->
  exists fs', init_files sys name pid fs = Some fs' /\
    (forall n, stored sys (proc_path pid) = Some n -> fs' !! proc_path pid = Some (take n name)) /\
    (forall n, stored sys (pid_path name) = Some n -> fs' !! pid_path name = Some (take n (decimal pid))) /\
    (forall q, (q = proc_path pid -> stored sys q = None) -> (q = pid_path name -> stored sys q = None) ->
       fs' !! q = if decide (is_ours sys name (old_pid sys fs (pid_path name)) fs q) then None else fs !! q) /\
    cleanup_files name pid fs' = Some (delete (pid_path name) (delete (proc_path pid) fs')) /\
    (forall n m sys2 pid2, stored sys (proc_path pid) = Some n -> (length name <= n)%nat ->
       stored sys (pid_path name) = Some m -> (length (decimal pid) <= m)%nat ->
       can_read sys2 (pid_path name) = true -> can_read sys2 (proc_path pid) = true -> 1 < pid2 < 2 ^ 31 -> pid2 <> pid ->
       exists fs2, init_files sys2 name pid2 fs' = Some fs2 /\ fs2 !! proc_path pid = None).
Proof.
  intros Hn Hp Hf. destruct (init_files_spec sys name pid fs Hn Hf) as (fs' & E & P1 & P2 & Q). exists fs'. split_and!; try done.
  - unfold cleanup_files. rewrite proc_path_fits. cbn [mbind option_bind]. by rewrite pid_path_fits by apply Hn.
  - intros n m sys2 pid2 Sn Ln Sm Lm R1 R2 Hp2 Hne. specialize (P1 n Sn). specialize (P2 m Sm).
    rewrite take_ge in P1 by done. rewrite take_ge in P2 by done.
    assert (Eo : old_pid sys2 fs' (pid_path name) = pid) by (unfold old_pid, fopen_r; rewrite R1, P2, scan_pid by lia; done).
    destruct (init_files_spec sys2 name pid2 fs' Hn) as (fs2 & E2 & _ & _ & Q2).
    { rewrite Eo. intros s w Hs Hw. rewrite P1 in Hs. injection Hs as <-. rewrite scan_name in Hw by done. injection Hw as <-.
      destruct Hn as (_ & _ & Hn). unfold FILEPATH_SIZE. lia. }
    exists fs2. split; [done|]. rewrite Q2.
    + rewrite Eo, decide_True; [done|]. split_and!; [lia|done|]. unfold fopen_r. rewrite R2, P1. cbn. by apply scan_name.
    + intros H%proc_path_inj; [congruence|lia|lia].
    + intros H. exfalso. by eapply paths_differ.
Qed.

(** ** Events *)

Section Started.
Context {T U W : Type} (cfg : pconfig).

(** A descriptor that is watched for reading and does not keep the loop alive. *)
Definition listens (t : fds) (f c : Z) : Prop :=
  exists n, entry t f = Some n /\ get (cb n) FdRead = Some c /\ get (earg n) FdRead = proc_addr cfg /\ ecritical n = false.

Lemma watch_listens c f t : fd_wf t -> 0 <= f -> entry t f = None ->
  fd_wf (watch_socket cfg c f t) /\ listens (watch_socket cfg c f t) f c /\ (forall x, x <> f -> entry (watch_socket cfg c f t) x = entry t x).
Proof.
  intros Hw Hf He. destruct (fd_add_wf t f FdRead c None (proc_addr cfg) true Hw Hf (fun _ => eq_refl)) as (_ & R2 & R3 & R4).
  unfold watch_socket, EVT_fd_add. set (t1 := (EVT_fd_add_with_cleanup _ _ _ _ _ _ _).2) in *.
  destruct (fd_set_critical_wf t1 f false R2 Hf) as (S1 & S2 & S3). split; [done|]. split; [|intros x Hx; by rewrite S3, R4].
  rewrite He in R3. eexists. split; [by rewrite S2, R3|]. done.
Qed.

Lemma listens_other t t' f c : listens t f c -> entry t' f = entry t f -> listens t' f c.
Proof. intros (n & N) E. exists n. by rewrite E. Qed.

(** No critical descriptor. *)
Lemma none_critical t : fd_wf t -> (forall x n, entry t x = Some n -> ecritical n = false) -> critical_fd_count t = 0.
Proof.
  intros Hw Hc. pose proof Hw as (_ & Hb & _ & _ & _ & -> & _).
  assert (H : Forall (fun n => ecritical n = false) (concat (events t))).
  { apply Forall_concat, list.Forall_lookup. intros i c Hi. destruct (Hb i c Hi) as [HF Hnd]. apply list.Forall_forall. intros n Hn.
    rewrite list.Forall_forall in HF. destruct (HF n Hn) as (_ & Hk & _). apply (Hc (fd n)). unfold entry, chain. rewrite Hk, Hi. cbn [default from_option id].
    clear -Hn Hnd. induction c as [|m c IH]; [by apply elem_of_nil in Hn|]. cbn [find_fd]. rewrite fmap_cons in Hnd. apply list.NoDup_cons in Hnd as [Hm Hnd].
    apply elem_of_cons in Hn as [->|Hn]; [by rewrite Z.eqb_refl|]. rewrite (proj2 (Z.eqb_neq _ _)); [by apply IH|].
    intros E. apply Hm. rewrite E. by apply list_elem_of_fmap_2. }
  induction H as [|n l Hn _ IH]; [done|]. cbn [count_if]. by rewrite Hn, IH.
Qed.

(** The handler that a command ends up with: that of the last entry for it. *)
Lemma install_hash handlers : forall t, xdrCommandHash (install t handlers) = xdrCommandHash t.
Proof.
  induction handlers as [|h l IH]; intros t; [done|]. cbn [install foldl]. unfold install in IH. rewrite IH.
  unfold CMD_set_xdr_cmd_handler. by destruct (CMD_xdr_cmd_by_number t (number h)).
Qed.

Lemma install_other handlers q : forall t, Forall (fun h => CMD_xdr_cmd_by_number t (number h) <> Some q) handlers ->
  infos (install t handlers) !! q = infos t !! q.
Proof.
  induction handlers as [|h l IH]; intros t H; [done|]. apply list.Forall_cons in H as [H1 H2]. cbn [install foldl]. unfold install in IH. rewrite IH.
  - unfold CMD_set_xdr_cmd_handler. destruct (CMD_xdr_cmd_by_number t (number h)) as [r|]; [|done].
    cbn [with_infos infos]. apply lookup_alter_ne. congruence.
  - eapply list.Forall_impl; [exact H2|]. intros x Hx E. apply Hx. rewrite <- E. unfold CMD_xdr_cmd_by_number. f_equal.
    symmetry. exact (install_hash [h] t).
Qed.

Lemma install_last t l1 h l2 q c :
  CMD_xdr_cmd_by_number t (number h) = Some q -> infos t !! q = Some c -> Forall (fun x => CMD_xdr_cmd_by_number t (number x) <> Some q) l2 ->
  infos (install t (l1 ++ h :: l2)) !! q = Some (with_handler c (xcb h) (xarg h)).
Proof.
  intros Hq Hc Hl. unfold install. rewrite foldl_app. cbn [foldl]. fold (install t l1). set (t1 := install t l1).
  assert (Hh : xdrCommandHash t1 = xdrCommandHash t) by apply install_hash.
  assert (Hin : exists cb arg, infos t1 !! q = Some (with_handler c cb arg)).
  { unfold t1. clear -Hc. induction l1 as [|x l1 IH] using rev_ind; [exists (handler c), (harg c); change (infos t !! q = Some (with_handler c (handler c) (harg c))); rewrite Hc; by destruct c|].
    unfold install. rewrite foldl_app. cbn [foldl]. fold (install t l1). destruct IH as (cb & arg & E). unfold CMD_set_xdr_cmd_handler.
    destruct (CMD_xdr_cmd_by_number (install t l1) (number x)) as [r|]; [|eauto]. cbn [with_infos infos].
    destruct (decide (r = q)) as [->|Hr]; [rewrite lookup_alter_eq, E; cbn; eauto|rewrite lookup_alter_ne by done; eauto]. }
  destruct Hin as (cb & arg & E).
  change (infos (install (CMD_set_xdr_cmd_handler t1 (number h) (xcb h) (xarg h)) l2) !! q = Some (with_handler c (xcb h) (xarg h))).
  unfold CMD_set_xdr_cmd_handler, CMD_xdr_cmd_by_number. rewrite Hh. fold (CMD_xdr_cmd_by_number t (number h)). rewrite Hq.
  rewrite install_other; [cbn [with_infos infos]; by rewrite lookup_alter_eq, E|].
  eapply list.Forall_impl; [exact Hl|]. intros x Hx. unfold CMD_xdr_cmd_by_number in *. cbn [with_infos xdrCommandHash]. by rewrite Hh.
Qed.

(** The watchdog is asked. *)
Definition asks (name : option str) (wd : WatchdogMode) : Prop := is_Some name /\ (wd = WD_ENABLED \/ wd = WD_XDR).

(** The event that asks, and the handler of the answers. *)
Lemma wd_enabled name wd now evt mem (s : sched) (n : node U W) : sched_wf s -> heap s !! evt = None -> length (cmds n) = Z.to_nat MAX_NUM_CMDS ->
  let r := EVT_sched_add_with_timestep s now (EVT_ms2tv 0) (EVT_ms2tv (WATCHDOG_VALIDATE_SECS * 1000)) (wd_cb cfg) (proc_addr cfg) (Some evt) mem in
  let '(s', n') := PROC_wd_enable cfg name wd now (Some evt) mem s n in
  sched_wf s' /\ regs n' = regs n /\
  (s' = s /\ (~ asks name wd \/ r.1 = None) \/
   asks name wd /\ contents (queue s') ≡ₚ evt :: contents (queue s) /\
   exists e, heap s' !! evt = Some e /\ nextAwake e = timeradd now (TV 0 0) /\ timeStep e = TV 30 0) /\
  (forall k, cmds n' !! k = if bool_decide (is_Some name /\ wd = WD_ENABLED /\ k = 248%nat)
                           then Some (Cmd (Some (ProgramCommand (reg_info_cb cfg))) 0 0 0) else cmds n !! k).
Proof.
  intros Hs Hevt Hlen r. pose proof (add_body s now (EVT_ms2tv 0) (EVT_ms2tv (WATCHDOG_VALIDATE_SECS * 1000)) (wd_cb cfg) (proc_addr cfg) evt mem Hs Hevt) as Hb.
  fold r in Hb. cbv zeta in Hb.
  assert (Hwd : asks name wd -> sched_wf r.2 /\ (r.2 = s /\ (~ asks name wd \/ r.1 = None) \/ asks name wd /\ contents (queue r.2) ≡ₚ evt :: contents (queue s) /\
     exists e, heap r.2 !! evt = Some e /\ nextAwake e = timeradd now (TV 0 0) /\ timeStep e = TV 30 0)).
  { intros A. destruct Hb as [[Er E]|(E1 & E2 & E3 & _ & _ & E6)]; [rewrite E; split; [done|auto]|]. split; [done|right].
    split; [done|]. split; [exact E3|]. destruct (erase_Some _ _ evt _ E6 (lookup_insert_eq _ _ _)) as [k Hk]. eexists. split; [exact Hk|done]. }
  assert (Hno : ~ asks name wd -> sched_wf s /\ (s = s /\ (~ asks name wd \/ r.1 = None) \/ asks name wd /\ contents (queue s) ≡ₚ evt :: contents (queue s) /\
     exists e, heap s !! evt = Some e /\ nextAwake e = timeradd now (TV 0 0) /\ timeStep e = TV 30 0)) by auto.
  unfold PROC_wd_enable. destruct name as [nm|]; [|split; [|split; [done|split]]; [by apply Hno; intros [[? ?] _]..|]].
  2: { intros k. by rewrite bool_decide_eq_false_2 by (intros [[? ?] _]; done). }
  destruct wd; try rewrite (bool_decide_eq_true_2 (WD_ENABLED = WD_ENABLED)) by done; try rewrite (bool_decide_eq_false_2 (WD_XDR = WD_ENABLED)) by done.
  all: fold r; (split; [first [apply Hwd; split; [by eexists|auto; done] | apply Hno; by intros [_ [?|?]]]|]).
  all: split; [done|]; (split; [first [apply Hwd; split; [by eexists|auto; done] | apply Hno; by intros [_ [?|?]]]|]); intros k.
  2-4: by rewrite bool_decide_eq_false_2 by (intros (_ & ? & _); done).
  change (cmds (CMD_set_cmd_handler n WATCHDOG_CMD_REG_INFO_RESP (Some (ProgramCommand (reg_info_cb cfg))) 0 0 0).2)
    with (<[248%nat := Cmd (Some (ProgramCommand (reg_info_cb cfg))) 0 0 0]> (cmds n)).
  destruct (decide (k = 248%nat)) as [->|Hk].
  - rewrite bool_decide_eq_true_2 by (split; [by eexists|done]). apply list_lookup_insert_eq. rewrite Hlen. unfold MAX_NUM_CMDS. lia.
  - rewrite bool_decide_eq_false_2 by (intros (_ & _ & ?); done). by apply list_lookup_insert_ne.
Qed.

(** A process that has started on a new handler: both tables are well
    formed; the signal pipe and the two command sockets are watched, each with
    its callback, and none of them keeps the loop alive; signals are caught, and
    the handler of child processes is the one callback; a command of the
    program has the handler of the last entry for it, and a command without an
    entry keeps its own; the watchdog is asked at once, and again every 30
    seconds, exactly if the process has a name and its mode says so (and there
    is memory for the event), and in the mode of the old protocol, and only
    then, its answers have a handler. *)
Theorem process_started name wd handlers n0 p cmdFd txFd now evt mem (s : EventState T) junk :
  sched_wf (sch s) -> fd_wf (fdt s) -> (forall x, entry (fdt s) x = None) -> heap (sch s) !! evt = None -> length (cmds n0) = Z.to_nat MAX_NUM_CMDS ->
  0 <= fst p -> 0 <= cmdFd -> 0 <= txFd -> fst p <> cmdFd -> fst p <> txFd -> cmdFd <> txFd -> snd p <> -1 -> length junk = 4%nat ->
  let r := EVT_sched_add_with_timestep (sch s) now (EVT_ms2tv 0) (EVT_ms2tv (WATCHDOG_VALIDATE_SECS * 1000)) (wd_cb cfg) (proc_addr cfg) (Some evt) mem in
  exists n s' sg, init_events cfg name wd handlers (Some n0) p cmdFd txFd now (Some evt) mem s junk = (Some n : option (node U W), s', sg) /\
  fd_wf (fdt s') /\ sched_wf (sch s') /\ sig_fds sg = fdt s' /\
  listens (fdt s') (fst p) (signal_cb cfg) /\ listens (fdt s') cmdFd (command_cb cfg) /\ listens (fdt s') txFd (tx_cb cfg) /\
  critical_fd_count (fdt s') = 0 /\ awaits sg [PSCB (sigchld_cb cfg) (proc_addr cfg) SIGCHLD 0] [] /\
  (forall l1 h l2 q c, handlers = l1 ++ h :: l2 -> CMD_xdr_cmd_by_number (regs n0) (number h) = Some q -> infos (regs n0) !! q = Some c ->
     Forall (fun x => CMD_xdr_cmd_by_number (regs n0) (number x) <> Some q) l2 -> infos (regs n) !! q = Some (with_handler c (xcb h) (xarg h))) /\
  (forall q, Forall (fun h => CMD_xdr_cmd_by_number (regs n0) (number h) <> Some q) handlers -> infos (regs n) !! q = infos (regs n0) !! q) /\
  (sch s' = sch s /\ (~ asks name wd \/ r.1 = None) \/
   asks name wd /\ contents (queue (sch s')) ≡ₚ evt :: contents (queue (sch s)) /\
   exists e, heap (sch s') !! evt = Some e /\ nextAwake e = timeradd now (TV 0 0) /\ timeStep e = TV 30 0) /\
  (forall k, cmds n !! k = if bool_decide (is_Some name /\ wd = WD_ENABLED /\ k = 248%nat)
                          then Some (Cmd (Some (ProgramCommand (reg_info_cb cfg))) 0 0 0) else cmds n0 !! k).
Proof.
  intros Hs Hf Hempty Hevt Hlen H0 H1 H2 N1 N2 N3 Hp Hj r. unfold init_events, setup_signal_fd. cbn [signalWriteFD Z.eqb Z.opp Pos.eqb negb].
  set (sg0 := Sig _ _ _ _ _ _ _). cbn [sg0 sig_fds signalCBHead rdBuff rdLen pipe].
  destruct (watch_listens (signal_cb cfg) (fst p) (fdt s) Hf H0 (Hempty _)) as (A1 & A2 & A3).
  unfold watch_socket in A1, A2, A3. set (added := EVT_fd_add (fdt s) (fst p) FdRead (Some (signal_cb cfg)) (proc_addr cfg) true) in *. destruct added as [r0 t0].
  cbn [snd] in A1, A2, A3. set (t1 := EVT_fd_set_critical t0 (fst p) false) in *. cbn [sig_fds].
  destruct (watch_listens (command_cb cfg) cmdFd t1 A1 H1) as (B1 & B2 & B3); [by rewrite A3|]. set (t2 := watch_socket cfg (command_cb cfg) cmdFd t1) in *.
  destruct (watch_listens (tx_cb cfg) txFd t2 B1 H2) as (C1 & C2 & C3); [by rewrite B3, A3|]. set (t3 := watch_socket cfg (tx_cb cfg) txFd t2) in *.
  assert (L1 : listens t3 (fst p) (signal_cb cfg)) by (eapply listens_other; [exact A2|]; by rewrite C3, B3).
  assert (L2 : listens t3 cmdFd (command_cb cfg)) by (eapply listens_other; [exact B2|]; by rewrite C3).
  unfold PROC_signal, linked, catches. cbn [signalWriteFD sigPipe snd fst signalCBHead rdBuff rdLen pipe sig_fds].
  rewrite (proj2 (Z.eqb_neq _ _) Hp), Z.eqb_refl. cbn [negb andb rq_malloc rq_action app].
  set (n1 := Node (cmds n0) (beats n0) (install (regs n0) handlers) (pr n0)).
  pose proof (wd_enabled name wd now evt mem (sch s) n1 Hs Hevt Hlen) as Hw. cbv zeta in Hw.
  destruct (PROC_wd_enable cfg name wd now (Some evt) mem (sch s) n1) as [sc n2]. destruct Hw as (W1 & W2 & W3 & W4).
  eexists _, _, _. split; [reflexivity|]. cbn [upd_sched upd_fds fdt sch]. split_and!; try done.
  - apply none_critical; [done|]. intros x n Hx. destruct L1 as (m1 & E1 & _ & _ & D1). destruct L2 as (m2 & E2 & _ & _ & D2). destruct C2 as (m3 & E3 & _ & _ & D3).
    destruct (decide (x = fst p)) as [->|X1]; [congruence|]. destruct (decide (x = cmdFd)) as [->|X2]; [congruence|]. destruct (decide (x = txFd)) as [->|X3]; [congruence|].
    by rewrite C3, B3, A3, Hempty in Hx.
  - intros l1 h l2 q c -> Hq Hc Hl. rewrite W2. by apply install_last.
  - intros q Hq. rewrite W2. by apply install_other.
Qed.
End Started.

(** ** Witnesses *)

Definition demo_name : str := bytes_of "beacon".
(** An earlier run, with number 40, crashed. *)
Definition demo_files : files :=
  <[pid_path demo_name := decimal 40]> (<[proc_path 40 := demo_name]> (<[proc_path 41 := bytes_of "other"]> ∅)).

(** A system on which everything works, and what it stores of a file. *)
Definition demo_sys : sysfs := Sys (fun _ => true) (fun _ => Some 80%nat).

Lemma demo_words : word_fits demo_files (old_pid demo_sys demo_files (pid_path demo_name)).
Proof.
  replace (old_pid _ _ _) with 40 by (vm_compute; reflexivity). intros s w Hs Hw. vm_compute in Hs. injection Hs as <-.
  vm_compute in Hw. injection Hw as <-. done.
Qed.

Lemma process_files_witness :
  exists fs', init_files demo_sys demo_name 50 demo_files = Some fs' /\ fs' !! proc_path 50 = Some demo_name /\
    fs' !! proc_path 40 = None /\ fs' !! proc_path 41 = Some (bytes_of "other") /\
    exists fs2, init_files demo_sys demo_name 60 fs' = Some fs2 /\ fs2 !! proc_path 50 = None.
Proof.
  destruct (process_files demo_sys demo_name 50 demo_files) as (fs' & E & P & _ & R & _ & N).
  - split; [done|]. split; [repeat constructor|vm_compute; discriminate].
  - lia.
  - exact demo_words.
  - exists fs'. split; [exact E|]. split; [apply (P 80%nat); reflexivity|].
    split; [rewrite (R (proc_path 40)); [vm_compute; reflexivity|vm_compute; discriminate..]|].
    split; [rewrite (R (proc_path 41)); [vm_compute; reflexivity|vm_compute; discriminate..]|].
    apply (N 80%nat 80%nat demo_sys 60); [reflexivity|vm_compute; lia|reflexivity|vm_compute; lia|reflexivity|reflexivity|lia|lia].
Defined.

Definition demo_pconfig : pconfig := PC 1 2 3 4 5 6 7.
(** Command 300 is known at address 8. *)
Definition demo_node : node unit unit :=
  Node (replicate (Z.to_nat MAX_NUM_CMDS) (Cmd (Some invalidCommand) 0 0 0)) (Beats 0 0 0)
    (Tabs {[8%positive := CI 300 0 None None None None 0]} (Some (HashTable.HT 1 [[HashTable.Node 300 300 8%positive]])) [] ∅ None true)
    (Proc ∅ None 0 tt tt []).
Definition demo_handler0 : EventState unit := ES start0 (fds_init 19) tt true false EDBG_DISABLED EDBG_DISABLED false 0 false None None 0 0 0 [].

Lemma process_started_witness :
  exists n s' sg, init_events demo_pconfig (Some demo_name) WD_ENABLED [XCH 300 (Some 70) 71] (Some demo_node) (3, 4) 5 6 (TV 10 0) (Some 9%positive) true
    demo_handler0 [0; 0; 0; 0] = (Some n, s', sg) /\
  critical_fd_count (fdt s') = 0 /\ handler <$> infos (regs n) !! 8%positive = Some (Some 70) /\ cmds n !! 248%nat = Some (Cmd (Some (ProgramCommand 6)) 0 0 0).
Proof.
  assert (Hempty : forall x, entry (fdt demo_handler0) x = None).
  { intros x. unfold entry, chain. cbn [demo_handler0 fdt fds_init events]. destruct (replicate (Z.to_nat 19) [] !! bucket_of (fds_init 19) x) as [c|] eqn:E; [|done].
    by apply lookup_replicate_1 in E as [-> _]. }
  destruct (process_started demo_pconfig (Some demo_name) WD_ENABLED [XCH 300 (Some 70) 71] demo_node (3, 4) 5 6 (TV 10 0) 9%positive true demo_handler0 [0; 0; 0; 0]
    start0_wf (fds_init_wf 19 ltac:(lia)) Hempty eq_refl eq_refl ltac:(cbn; lia) ltac:(lia) ltac:(lia) ltac:(cbn; lia) ltac:(cbn; lia) ltac:(lia) ltac:(cbn; lia) eq_refl)
    as (n & s' & sg & E & _ & _ & _ & _ & _ & _ & Hc & _ & Hh & _ & _ & Hk).
  exists n, s', sg. split; [exact E|]. split; [exact Hc|]. split.
  - rewrite (Hh [] (XCH 300 (Some 70) 71) [] 8%positive (CI 300 0 None None None None 0) eq_refl eq_refl eq_refl (list.Forall_nil_2 _)). reflexivity.
  - rewrite (Hk 248%nat). reflexivity.
Defined.

Module Demo.
(** A name of more than 66 characters overruns the array. *)
Lemma long_name_faults sys pid fs : init_files sys (replicate 67 97) pid fs = None.
Proof. done. Qed.

(** So does a word of 80 characters in the file of the old number. *)
Lemma long_word_faults : init_files demo_sys demo_name 50 (<[pid_path demo_name := decimal 40]> (<[proc_path 40 := replicate 80 97]> ∅)) = None.
Proof. vm_compute. reflexivity. Qed.
End Demo.
