(* ===== verification/Threads.v ===== *)
(** * Functions run in threads of their own (proclib.c)

    [thread_function] runs a function in a thread and watches a pipe for its
    end; the thread writes a byte when the function has returned, which may fail,
    and the event loop then joins it and calls the callback with the result.  The threads and
    the loop are steps in any order; they share the block of a thread and its
    pipe.  Callbacks may start threads. *)

From stdpp Require Import base gmap sets list numbers sorting.
From Stdlib Require Import ZArith Lia.
From S2P Require Import Prelude Sched FdEvents EventLoop Timers FdTurn.
Open Scope Z_scope.

Record thread_data := TD { write_fd : Z; read_fd : Z; fcn : Z; fcn_arg : Z; cb_fcn : Z; cb_arg : Z; retval : Z }.

(** What the thread has done: nothing yet, stored the result, written the byte,
    ended although the write failed. *)
Inductive phase := Running | Returned | Wrote | Mute.
#[export] Instance phase_eq_dec : EqDecision phase.
Proof. solve_decision. Defined.

(** A block, its thread, and whether its pipe is watched. *)
Record thr := Thr { td : thread_data; ph : phase; watched : bool }.

(** A function with its argument, and a callback with its argument. *)
Abbreviation call := (Z * Z * Z * Z)%type.
Definition call_of (d : thread_data) : call := (fcn d, fcn_arg d, cb_fcn d, cb_arg d).

(** [full]: the read ends with a byte; [opened]: the descriptors of the process;
    [lost]: those of failed starts, which nobody will close; then the history:
    [silent] are the calls that were not watched or whose byte was not
    written. *)
Record threads := Th {
  blocks : gmap positive thr;
  full : gset Z;
  opened : gset Z;
  lost : gset Z;
  tfds : fds;
  started : list call;
  returned : list (call * Z);
  reported : list (call * Z);
  silent : list call
}.

(** A call of [thread_function], and whether the calls of the system in it
    succeed. *)
Record treq := TQ { q_fcn : Z; q_arg : Z; q_cb : Z; q_cbarg : Z; attr_ok : bool; create_ok : bool; entry_mem : bool }.

(** ** Operations *)

Section Operations.
Context {W : Type}.
Context (malloc : gset ptr -> option ptr) (pipe : gset Z -> option (Z * Z)) (tcall : Z -> Z -> Z -> W -> list treq * W) (TCB : Z).

(** [None]: a write through NULL. *)
Definition thread_function (q : treq) (s : threads) : option (Z * threads) :=
  p ← malloc (dom (blocks s));
  Some
    match pipe (opened s) with
    | None => (1, s)
    | Some (r, w) =>
        let opened' := {[r; w]} ∪ opened s in
        if negb (attr_ok q && create_ok q)
        then (1, Th (blocks s) (full s) opened' ({[r; w]} ∪ lost s) (tfds s) (started s) (returned s) (reported s) (silent s))
        else
          let d := TD w r (q_fcn q) (q_arg q) (q_cb q) (q_cbarg q) 0 in
          let '(added, t) := EVT_fd_add (tfds s) r FdRead (Some TCB) (Zpos p) (entry_mem q) in
          (0, Th (<[p := Thr d Running (added =? 1)]> (blocks s)) (full s) opened' (lost s) t (started s ++ [call_of d]) (returned s) (reported s)
                (if added =? 1 then silent s else silent s ++ [call_of d]))
    end.

(** [thread_main]: the function returns [v], ... *)
Definition thread_return (p : positive) (v : Z) (s : threads) : threads :=
  match blocks s !! p with
  | Some (Thr d Running wd) =>
      let d' := TD (write_fd d) (read_fd d) (fcn d) (fcn_arg d) (cb_fcn d) (cb_arg d) v in
      Th (<[p := Thr d' Returned wd]> (blocks s)) (full s) (opened s) (lost s) (tfds s) (started s) (returned s ++ [(call_of d, v)]) (reported s)
        (silent s)
  | _ => s
  end.

(** ... and the byte is written, or not, before the thread ends. *)
Definition thread_write (p : positive) (write_ok : bool) (s : threads) : threads :=
  match blocks s !! p with
  | Some (Thr d Returned wd) =>
      if write_ok
      then Th (<[p := Thr d Wrote wd]> (blocks s)) ({[read_fd d]} ∪ full s) (opened s) (lost s) (tfds s) (started s) (returned s) (reported s)
             (silent s)
      else Th (<[p := Thr d Mute wd]> (blocks s)) (full s) (opened s) (lost s) (tfds s) (started s) (returned s) (reported s)
             (if wd then silent s ++ [call_of d] else silent s)
  | _ => s
  end.

Fixpoint start_all (qs : list treq) (s : threads) : option threads :=
  match qs with [] => Some s | q :: qs' => r ← thread_function q s; start_all qs' r.2 end.

Definition with_tfds (s : threads) (t : fds) : threads := Th (blocks s) (full s) (opened s) (lost s) t (started s) (returned s) (reported s) (silent s).

(** The call of the callback, and the end of the block and of the pipe. *)
Definition note_reported (d : thread_data) (s : threads) : threads :=
  Th (blocks s) (full s) (opened s) (lost s) (tfds s) (started s) (returned s) (reported s ++ [(call_of d, retval d)]) (silent s).
Definition dispose (p : positive) (d : thread_data) (s : threads) : threads :=
  Th (delete p (blocks s)) (full s ∖ {[read_fd d]}) (opened s ∖ {[read_fd d; write_fd d]}) (lost s) (tfds s) (started s) (returned s) (reported s) (silent s).

(** The loop calls it for a pipe with a byte, so that [pthread_join] returns;
    [None] is a block that is not there, or a join that waits for a thread that
    has not written. *)
Definition thread_cb (arg : Z) (s : threads * W) : option (Z * (threads * W)) :=
  p ← match arg with Zpos p => Some p | _ => None end;
  b ← blocks s.1 !! p;
  if decide (ph b = Wrote) then
    let '(qs, w) := tcall (cb_fcn (td b)) (cb_arg (td b)) (retval (td b)) s.2 in
    s1 ← start_all qs (note_reported (td b) s.1);
    Some (EVENT_REMOVE, (dispose p (td b) s1, w))
  else None.

(** The loop finds the descriptor [f] readable. *)
Definition thread_ready (f : Z) (s : threads * W) : option (threads * W) :=
  if decide (f ∈ full s.1) then
    match entry (tfds s.1) f with
    | None => Some s
    | Some n =>
        if decide (get (cb n) FdRead = Some TCB) then
          r ← thread_cb (get (earg n) FdRead) (with_tfds s.1 (fd_entered (tfds s.1) f FdRead), s.2);
          Some (with_tfds r.2.1 (fd_returned (tfds r.2.1) f FdRead r.1), r.2.2)
        else Some s
    end
  else Some s.

(** ** Runs *)

Inductive top := OpStart (q : treq) | OpReturn (p : positive) (v : Z) | OpWrite (p : positive) (write_ok : bool) | OpReady (f : Z).

Definition thread_step (o : top) (s : threads * W) : option (threads * W) :=
  match o with
  | OpStart q => r ← thread_function q s.1; Some (r.2, s.2)
  | OpReturn p v => Some (thread_return p v s.1, s.2)
  | OpWrite p write_ok => Some (thread_write p write_ok s.1, s.2)
  | OpReady f => thread_ready f s
  end.

Fixpoint thread_steps (ops : list top) (s : threads * W) : option (threads * W) :=
  match ops with [] => Some s | o :: ops' => s' ← thread_step o s; thread_steps ops' s' end.
End Operations.

(** ** Invariant *)

Definition ends (b : thr) : gset Z := {[read_fd (td b); write_fd (td b)]}.

(** The blocks but the one whose callback runs. *)
Definition pend (run : option positive) (m : gmap positive thr) : gmap positive thr :=
  match run with Some p => delete p m | None => m end.
Definition values (m : gmap positive thr) : list thr := (map_to_list m).*2.

Definition result_of (b : thr) : option (call * Z) :=
  match ph b with Running => None | _ => Some (call_of (td b), retval (td b)) end.

(** The loop will not hear of the thread. *)
Definition silent_of (b : thr) : option call :=
  if negb (watched b) || bool_decide (ph b = Mute) then Some (call_of (td b)) else None.

(** A callback of a pipe, alone on its descriptor. *)
Definition watches (TCB : Z) (run : option positive) (p : positive) (n : EventCB) : Prop :=
  get (cb n) FdRead = Some TCB /\ get (earg n) FdRead = Zpos p /\
  get (einCallback n) FdRead = (if decide (run = Some p) then 1 else 0) /\ forall e, e <> FdRead -> has (Some n) e = false.

(** The entry of the pipe of a block. *)
Definition seen (TCB : Z) (run : option positive) (p : positive) (b : thr) (o : option EventCB) : Prop :=
  if watched b then exists n, o = Some n /\ watches TCB run p n else o = None.

Record tinv (TCB : Z) (own : gset Z) (run : option positive) (s : threads) : Prop := {
  t_wf : fd_wf (tfds s);
  t_block p b : blocks s !! p = Some b -> 0 <= read_fd (td b) /\ read_fd (td b) <> write_fd (td b) /\
    entry (tfds s) (write_fd (td b)) = None /\ seen TCB run p b (entry (tfds s) (read_fd (td b)));
  t_apart p q b c : blocks s !! p = Some b -> blocks s !! q = Some c -> p <> q -> ends b ## ends c;
  t_opened f : f ∈ opened s <-> f ∈ own ∪ lost s \/ exists p b, blocks s !! p = Some b /\ f ∈ ends b;
  t_own p b : blocks s !! p = Some b -> ends b ## own ∪ lost s;
  t_entries f n : entry (tfds s) f = Some n -> f ∈ opened s;
  t_full f : f ∈ full s <-> exists p b, blocks s !! p = Some b /\ read_fd (td b) = f /\ ph b = Wrote;
  t_started : started s ≡ₚ (reported s).*1 ++ ((fun b => call_of (td b)) <$> values (pend run (blocks s)));
  t_returned : returned s ≡ₚ reported s ++ omap result_of (values (pend run (blocks s)));
  t_run p : run = Some p -> exists b, blocks s !! p = Some b /\ ph b = Wrote /\ watched b = true;
  t_silent : silent s ≡ₚ omap silent_of (values (pend run (blocks s)))
}.

(** What [pipe] gives. *)
Class Pipe (pipe : gset Z -> option (Z * Z)) : Prop :=
  pipe_fresh X r w : pipe X = Some (r, w) -> 0 <= r /\ 0 <= w /\ r <> w /\ r ∉ X /\ w ∉ X.

Lemma values_insert m p b : m !! p = None -> values (<[p := b]> m) ≡ₚ b :: values m.
Proof. intros H. unfold values. by rewrite map_to_list_insert. Qed.

Lemma values_update m p b c : m !! p = Some b -> values m ≡ₚ b :: values (delete p m) /\ values (<[p := c]> m) ≡ₚ c :: values (delete p m).
Proof.
  intros H. split.
  - unfold values. by rewrite <- (map_to_list_delete m p b H).
  - rewrite <- insert_delete_eq. apply values_insert, lookup_delete_eq.
Qed.

Lemma silent_cons b l :
  omap silent_of (b :: l) = match silent_of b with Some c => c :: omap silent_of l | None => omap silent_of l end.
Proof. done. Qed.

Lemma pend_lookup run m p : run <> Some p -> pend run m !! p = m !! p.
Proof. destruct run as [q|]; [|done]. intros H. apply lookup_delete_ne. congruence. Qed.

Lemma pend_insert run m p b : run <> Some p -> pend run (<[p := b]> m) = <[p := b]> (pend run m).
Proof. destruct run as [q|]; [|done]. intros H. apply delete_insert_ne. congruence. Qed.

Section Facts.
Context {W : Type}.
Context (malloc : gset ptr -> option ptr) {Hmalloc : Malloc malloc} (pipe : gset Z -> option (Z * Z)) {Hpipe : Pipe pipe}.
Context (tcall : Z -> Z -> Z -> W -> list treq * W) (TCB : Z) (own : gset Z).

Abbreviation inv := (tinv TCB own).

(** A new pipe in the table. *)
Lemma pipe_watched t f p run d k mem : fd_wf t -> 0 <= f -> entry t f = None -> run <> Some p ->
  let r := EVT_fd_add t f FdRead (Some TCB) (Zpos p) mem in
  fd_wf r.2 /\ (forall x, x <> f -> entry r.2 x = entry t x) /\ seen TCB run p (Thr d k (r.1 =? 1)) (entry r.2 f).
Proof.
  intros Hw Hf E Hr. destruct mem; [|cbv zeta; by rewrite (add_fails t f FdRead TCB (Zpos p) Hw E)].
  destruct (fd_add_wf t f FdRead TCB None (Zpos p) true Hw Hf (fun _ => eq_refl)) as (R1 & R2 & R3 & R4).
  unfold EVT_fd_add. cbv zeta. split; [done|]. split; [done|]. rewrite R1, R3, E. eexists. split; [reflexivity|].
  unfold watches, added_entry. rewrite decide_False by done. split_and!; try done. intros e He. by destruct e.
Qed.

Lemma lost_inv run s r w : inv run s -> r ∉ opened s -> w ∉ opened s ->
  inv run (Th (blocks s) (full s) ({[r; w]} ∪ opened s) ({[r; w]} ∪ lost s) (tfds s) (started s) (returned s) (reported s) (silent s)).
Proof.
  intros H Hr Hw. destruct H as [H1 H2 H3 H4 H5 H6 H7 H8 H9 H10 H11]. split; cbn [tfds blocks full opened lost started returned reported silent]; try done.
  - intros f. specialize (H4 f). set_solver.
  - intros p b Hb. assert (forall f, f ∈ ends b -> f ∈ opened s) by (intros f Hf; apply H4; eauto). specialize (H5 p b Hb). set_solver.
  - intros f n Hn. specialize (H6 f n Hn). set_solver.
Qed.

Lemma thr_started run s p r w q : inv run s -> p ∉ dom (blocks s) -> 0 <= r -> r <> w -> r ∉ opened s -> w ∉ opened s ->
  let d := TD w r (q_fcn q) (q_arg q) (q_cb q) (q_cbarg q) 0 in
  let a := EVT_fd_add (tfds s) r FdRead (Some TCB) (Zpos p) (entry_mem q) in
  inv run (Th (<[p := Thr d Running (a.1 =? 1)]> (blocks s)) (full s) ({[r; w]} ∪ opened s) (lost s)
    a.2 (started s ++ [call_of d]) (returned s) (reported s) (if a.1 =? 1 then silent s else silent s ++ [call_of d])).
Proof.
  intros H Hp Hr0 Hrw Hr Hw d a. apply not_elem_of_dom in Hp. pose proof H as [H1 H2 H3 H4 H5 H6 H7 H8 H9 H10 H11].
  assert (Hrun : run <> Some p) by (intros E; destruct (H10 p E) as (b & Hb & _); congruence).
  assert (He : entry (tfds s) r = None) by (destruct (entry (tfds s) r) eqn:E; [by apply H6 in E|done]).
  destruct (pipe_watched (tfds s) r p run d Running (entry_mem q) H1 Hr0 He Hrun) as (T1 & T2 & T3). fold a in T1, T2, T3.
  set (b0 := Thr d Running (a.1 =? 1)) in *.
  assert (Hin : forall q b f, blocks s !! q = Some b -> f ∈ ends b -> f ∈ opened s) by (intros q' b f Hb Hf; apply H4; eauto).
  assert (Hb0 : ends b0 = {[r; w]}) by done.
  split; cbn [tfds blocks full opened lost started returned reported silent]; try done.
  - intros q' b. rewrite lookup_insert_Some. intros [[<- <-]|[Hne Hb]].
    + cbn [b0 d td read_fd write_fd]. split_and!; [done..| |exact T3]. rewrite T2 by done. destruct (entry (tfds s) w) eqn:E; [by apply H6 in E|done].
    + destruct (H2 q' b Hb) as (B1 & B2 & B5 & B3). assert (read_fd (td b) <> r /\ write_fd (td b) <> r) as [N1 N2].
      { split; intros E; apply Hr; rewrite <- E; apply (Hin q' b); [done|unfold ends; set_solver..|done|unfold ends; set_solver]. }
      rewrite !T2 by done. done.
  - intros q1 q2 b c. rewrite !lookup_insert_Some. intros [[<- <-]|[N1 B]] [[<- <-]|[N2 C]] Hne; try done.
    + rewrite Hb0. pose proof (fun f => Hin q2 c f C). set_solver.
    + rewrite Hb0. pose proof (fun f => Hin q1 b f B). set_solver.
    + by apply (H3 q1 q2).
  - intros f. rewrite elem_of_union, H4. split.
    + intros [Hf|[Hf|(q' & b & Hb & Hf)]]; [right; exists p, b0; by rewrite lookup_insert_eq|by left|].
      right. exists q', b. rewrite lookup_insert_ne by congruence. done.
    + intros [Hf|(q' & b & Hb & Hf)]; [by right; left|]. apply lookup_insert_Some in Hb as [[<- <-]|[_ Hb]]; [by left|right; right; eauto].
  - intros q' b. rewrite lookup_insert_Some. intros [[<- <-]|[_ Hb]]; [|by apply (H5 q')]. rewrite Hb0.
    assert (forall f, f ∈ own ∪ lost s -> f ∈ opened s) by (intros f Hf; apply H4; by left). set_solver.
  - intros f m Hm. destruct (decide (f = r)) as [->|Hf]; [set_solver|]. rewrite T2 in Hm by done. specialize (H6 f m Hm). set_solver.
  - intros f. rewrite H7. split.
    + intros (q' & b & Hb & Hq). exists q', b. rewrite lookup_insert_ne by congruence. done.
    + intros (q' & b & Hb & <- & Hq). apply lookup_insert_Some in Hb as [[<- <-]|[_ Hb]]; [done|eauto].
  - rewrite pend_insert, values_insert by (rewrite ?pend_lookup; done). cbn [fmap list_fmap td]. rewrite H8, <- app_assoc. f_equiv. by rewrite Permutation_app_comm.
  - rewrite pend_insert by done. rewrite H9. f_equiv. by rewrite values_insert by (rewrite pend_lookup; done).
  - intros q' Hq. destruct (H10 q' Hq) as (b & Hb & ?). exists b. rewrite lookup_insert_ne by congruence. done.
  - rewrite pend_insert, values_insert by (rewrite ?pend_lookup; done). rewrite silent_cons. unfold silent_of at 1. cbn [b0 watched ph].
    destruct (a.1 =? 1); cbn [negb orb]; [done|]. rewrite H11. by rewrite Permutation_app_comm.
Qed.

Lemma function_safe run q s : inv run s ->
  exists r s', thread_function malloc pipe TCB q s = Some (r, s') /\ inv run s' /\
    (forall p b, blocks s !! p = Some b -> blocks s' !! p = Some b) /\ reported s' = reported s.
Proof.
  intros H. unfold thread_function. destruct (malloc_some (dom (blocks s))) as (p & -> & Hp). cbn [mbind option_bind].
  destruct (pipe (opened s)) as [[r w]|] eqn:E; [|by eexists _, s]. destruct (pipe_fresh _ _ _ E) as (P1 & P2 & P3 & P4 & P5).
  destruct (negb _).
  - eexists _, _. split; [reflexivity|]. split; [by apply lost_inv|]. done.
  - pose proof (thr_started run s p r w q H Hp P1 P3 P4 P5) as G. cbv zeta in G.
    destruct (EVT_fd_add (tfds s) r FdRead (Some TCB) (Zpos p) (entry_mem q)) as [added t].
    eexists _, _. split; [reflexivity|]. split; [exact G|]. split; [|done]. cbn [blocks]. intros p' b Hb.
    rewrite lookup_insert_ne; [done|]. intros <-. apply not_elem_of_dom in Hp. congruence.
Qed.

Lemma start_all_safe run qs : forall s, inv run s ->
  exists s', start_all malloc pipe TCB qs s = Some s' /\ inv run s' /\ (forall p b, blocks s !! p = Some b -> blocks s' !! p = Some b) /\ reported s' = reported s.
Proof.
  induction qs as [|q qs IH]; intros s H; [by exists s|]. cbn [start_all]. destruct (function_safe run q s H) as (r & s1 & -> & G1 & B1 & R1).
  cbn [mbind option_bind snd]. destruct (IH s1 G1) as (s2 & E & G2 & B2 & R2). exists s2. split_and!; [done..|auto|congruence].
Qed.

(** ** Steps of a thread *)

(** A block moves to another phase, with the same pipe. *)
Lemma phase_inv s p d d' k k' wd fl rt sl :
  inv None s -> blocks s !! p = Some (Thr d k wd) -> read_fd d' = read_fd d -> write_fd d' = write_fd d -> call_of d' = call_of d ->
  (k <> Wrote) -> fl = (if decide (k' = Wrote) then {[read_fd d]} ∪ full s else full s) ->
  rt = returned s ++ (match k, k' with Running, Returned => [(call_of d, retval d')] | _, _ => [] end) ->
  (k = Running /\ k' = Returned \/ k = Returned /\ (k' = Wrote \/ k' = Mute) /\ d' = d) ->
  sl = (if decide (k' = Mute) then if wd then silent s ++ [call_of d] else silent s else silent s) ->
  inv None (Th (<[p := Thr d' k' wd]> (blocks s)) fl (opened s) (lost s) (tfds s) (started s) rt (reported s) sl).
Proof.
  intros H Hp Er Ew Ec Hk -> -> Hkk ->. pose proof H as [H1 H2 H3 H4 H5 H6 H7 H8 H9 H10 H11].
  assert (Ee : ends (Thr d' k' wd) = ends (Thr d k wd)) by (unfold ends; cbn [td]; by rewrite Er, Ew).
  assert (Hold : forall q b, <[p := Thr d' k' wd]> (blocks s) !! q = Some b -> exists b0, blocks s !! q = Some b0 /\ ends b = ends b0 /\ read_fd (td b) = read_fd (td b0) /\ write_fd (td b) = write_fd (td b0) /\ watched b = watched b0).
  { intros q b. rewrite lookup_insert_Some. intros [[<- <-]|[_ Hb]]; [exists (Thr d k wd); by split_and!|exists b; by split_and!]. }
  assert (Hnew : forall q b0, blocks s !! q = Some b0 -> exists b, <[p := Thr d' k' wd]> (blocks s) !! q = Some b /\ ends b = ends b0).
  { intros q b0 Hb. destruct (decide (p = q)) as [<-|Hne]; [|exists b0; by rewrite lookup_insert_ne].
    exists (Thr d' k' wd). rewrite lookup_insert_eq. split; [done|]. congruence. }
  destruct (values_update (blocks s) p _ (Thr d' k' wd) Hp) as [V1 V2].
  split; cbn [tfds blocks full opened lost started returned reported silent]; try done.
  - intros q b Hb. destruct (Hold q b Hb) as (b0 & Hb0 & _ & -> & -> & Ew0). destruct (H2 q b0 Hb0) as (B1 & B2 & B3 & B4).
    split_and!; try done. unfold seen in *. by rewrite Ew0.
  - intros q1 q2 b c Hb Hc Hne. destruct (Hold q1 b Hb) as (b0 & Hb0 & -> & _). destruct (Hold q2 c Hc) as (c0 & Hc0 & -> & _). by apply (H3 q1 q2).
  - intros f. rewrite H4. split; (intros [?|(q & b & Hb & Hf)]; [by left|right]).
    + destruct (Hnew q b Hb) as (b' & Hb' & E). exists q, b'. by rewrite E.
    + destruct (Hold q b Hb) as (b0 & Hb0 & E & _). exists q, b0. by rewrite <- E.
  - intros q b Hb. destruct (Hold q b Hb) as (b0 & Hb0 & -> & _). by apply (H5 q).
  - intros f. assert (HF : f ∈ full s <-> exists q b, q <> p /\ blocks s !! q = Some b /\ read_fd (td b) = f /\ ph b = Wrote).
    { rewrite H7. split; [|naive_solver]. intros (q & b & Hb & Hf & Hw). exists q, b. split_and!; try done. intros ->. rewrite Hp in Hb. by injection Hb as <-. }
    assert (HR : (exists q b, <[p := Thr d' k' wd]> (blocks s) !! q = Some b /\ read_fd (td b) = f /\ ph b = Wrote) <->
      (k' = Wrote /\ read_fd d = f) \/ exists q b, q <> p /\ blocks s !! q = Some b /\ read_fd (td b) = f /\ ph b = Wrote).
    { split.
      - intros (q & b & Hb & Hf & Hw). apply lookup_insert_Some in Hb as [[<- <-]|[Hne Hb]]; [left; cbn in *; split; congruence|right; exists q, b; auto].
      - intros [[Hw Hf]|(q & b & Hne & Hb & Hf)]; [exists p, (Thr d' k' wd); rewrite lookup_insert_eq; cbn; split_and!; congruence|].
        exists q, b. rewrite lookup_insert_ne by congruence. done. }
    rewrite HR, <- HF. case_decide; set_solver.
  - cbn [pend]. rewrite V2. rewrite H8. cbn [pend]. rewrite V1. cbn [fmap list_fmap td]. by rewrite Ec.
  - cbn [pend]. rewrite V2. rewrite H9. cbn [pend]. rewrite V1. destruct Hkk as [[-> ->]|(-> & Hk' & ->)].
    + set (vs := values _). change (omap result_of (Thr d Running wd :: vs)) with (omap result_of vs).
      change (omap result_of (Thr d' Returned wd :: vs)) with ((call_of d', retval d') :: omap result_of vs).
      rewrite Ec, <- app_assoc. f_equiv. by rewrite Permutation_app_comm.
    + destruct Hk' as [-> | ->]; by rewrite app_nil_r.
  - assert (S1 : silent_of (Thr d k wd) = if wd then None else Some (call_of d)).
    { unfold silent_of. cbn [watched ph td]. rewrite (bool_decide_eq_false_2 (k = Mute)) by (destruct Hkk as [[-> _]|[-> _]]; done). by destruct wd. }
    assert (S2 : silent_of (Thr d' k' wd) = if wd then if decide (k' = Mute) then Some (call_of d) else None else Some (call_of d)).
    { unfold silent_of. cbn [watched ph td]. rewrite Ec. destruct wd; cbn [negb orb]; [|done]. case_decide as Em; [by rewrite (bool_decide_eq_true_2 _ Em)|by rewrite (bool_decide_eq_false_2 _ Em)]. }
    cbn [pend] in *. rewrite V2. rewrite V1 in H11. rewrite silent_cons, S1 in H11. rewrite silent_cons, S2. destruct wd; [|by case_decide].
    case_decide; [|done]. rewrite H11. by rewrite Permutation_app_comm.
Qed.

Lemma return_inv s p v : inv None s -> inv None (thread_return p v s).
Proof.
  intros H. unfold thread_return. destruct (blocks s !! p) as [[d [] wd]|] eqn:E; try done.
  eapply (phase_inv s p d _ Running Returned wd); [done..|by left|done].
Qed.

Lemma write_inv s p ok : inv None s -> inv None (thread_write p ok s).
Proof.
  intros H. unfold thread_write. destruct (blocks s !! p) as [[d [] wd]|] eqn:E; try done. destruct ok.
  - eapply (phase_inv s p d d Returned Wrote wd); [done..|by rewrite app_nil_r|by right; auto|done].
  - eapply (phase_inv s p d d Returned Mute wd); [done..|by rewrite app_nil_r|by right; auto|done].
Qed.

(** ** The event of a pipe *)

(** The callback is entered: its thread counts as reported. *)
Lemma thr_entered s p b n : inv None s -> blocks s !! p = Some b -> ph b = Wrote -> entry (tfds s) (read_fd (td b)) = Some n ->
  inv (Some p) (note_reported (td b) (with_tfds s (fd_entered (tfds s) (read_fd (td b)) FdRead))).
Proof.
  intros H Hp Hw Hn. pose proof H as [H1 H2 H3 H4 H5 H6 H7 H8 H9 H10 H11]. destruct (H2 p b Hp) as (Hr & Hrw & _ & Hse).
  unfold seen in Hse. destruct (watched b) eqn:Hwd; [|congruence]. destruct Hse as (n' & Hn' & Hwt).
  rewrite Hn in Hn'. injection Hn' as <-. destruct Hwt as (Wc & Wa & Wi & Wo).
  assert (Hhas : has (Some n) FdRead = true) by (unfold has; by rewrite Wc).
  destruct (fd_entered_wf (tfds s) (read_fd (td b)) FdRead n H1 Hr Hn Hhas) as (P1 & P2 & P3). set (t := fd_entered _ _ _) in *.
  destruct (values_update (blocks s) p b b Hp) as [V _].
  split; cbn [note_reported with_tfds tfds blocks full opened lost started returned reported silent]; try done.
  - intros q c Hc. destruct (H2 q c Hc) as (C1 & C2 & C5 & C3).
    assert (Hwr : write_fd (td c) <> read_fd (td b)).
    { destruct (decide (p = q)) as [<-|Hne]; [rewrite Hp in Hc; injection Hc as <-; congruence|]. specialize (H3 p q b c Hp Hc Hne). unfold ends in H3. set_solver. }
    rewrite P3 by done. split_and!; try done. destruct (decide (p = q)) as [<-|Hne].
    + rewrite Hp in Hc. injection Hc as <-. unfold seen. rewrite Hwd. exists (count_entry n FdRead). split; [done|]. unfold watches. rewrite decide_True by done. split_and!; done.
    + rewrite P3; [unfold seen in *; destruct (watched c); [|done]; destruct C3 as (m & C3 & C4); exists m; split; [done|]|].
      * destruct C4 as (D1 & D2 & D3 & D4). unfold watches. rewrite decide_False in D3 by done. rewrite decide_False by congruence. done.
      * specialize (H3 p q b c Hp Hc Hne). unfold ends in H3. set_solver.
  - intros f m Hm. destruct (decide (f = read_fd (td b))) as [->|Hf]; [by apply (H6 _ n)|]. rewrite P3 in Hm by done. by apply (H6 f m).
  - rewrite H8. cbn [pend]. rewrite V, fmap_app, <- app_assoc. done.
  - rewrite H9. cbn [pend]. rewrite V, <- app_assoc. f_equiv. cbn [omap list_omap]. unfold result_of at 1. by rewrite Hw.
  - intros q [= <-]. eauto.
  - cbn [pend]. rewrite H11. cbn [pend]. rewrite V. rewrite silent_cons. unfold silent_of at 1. by rewrite Hwd, Hw.
Qed.

(** It returns: the pipe is closed and its event is gone. *)
Lemma thr_disposed s p b : inv (Some p) s -> blocks s !! p = Some b ->
  inv None (with_tfds (dispose p (td b) s) (fd_returned (tfds s) (read_fd (td b)) FdRead EVENT_REMOVE)).
Proof.
  intros H Hp. pose proof H as [H1 H2 H3 H4 H5 H6 H7 H8 H9 H10 H11]. destruct (H2 p b Hp) as (Hr & _ & Hwn & Hse).
  destruct (H10 p eq_refl) as (b1 & Hb1 & _ & Hwd). rewrite Hp in Hb1. injection Hb1 as <-. unfold seen in Hse. rewrite Hwd in Hse.
  destruct Hse as (n & Hn & Wc & Wa & Wi & Wo).
  rewrite decide_True in Wi by done. destruct (fd_returned_wf (tfds s) (read_fd (td b)) FdRead n EVENT_REMOVE H1 Hr Hn) as (R1 & R2 & R3).
  set (t := fd_returned _ _ _ _) in *.
  assert (Hgone : entry t (read_fd (td b)) = None).
  { rewrite R2. unfold after_fd_callback. rewrite Wi. change (_ || _) with true. cbv iota. unfold drop_event.
    assert (Hh : has (Some (with_einCallback n FdRead 0)) FdRead = true) by (unfold has; cbn [with_einCallback cb]; by rewrite Wc). rewrite Hh.
    assert (Hx : existsb (has (Some (with_cb (with_einCallback n FdRead 0) FdRead None None 0))) all_events = false); [|by rewrite Hx].
    apply not_true_iff_false. intros (e & _ & He)%existsb_exists. rewrite has_with_cb in He. case_decide as Ee; [done|].
    specialize (Wo e ltac:(congruence)). unfold has in *. cbn [with_einCallback cb] in He. congruence. }
  assert (Hother : forall q c f, delete p (blocks s) !! q = Some c -> f ∈ ends c -> f ∉ ends b /\ blocks s !! q = Some c /\ q <> p).
  { intros q c f Hc Hf. apply lookup_delete_Some in Hc as [Hne Hc]. specialize (H3 p q b c Hp Hc Hne). set_solver. }
  split; cbn [dispose with_tfds tfds blocks full opened lost started returned reported silent]; try done.
  - intros q c Hc. destruct (Hother q c (read_fd (td c)) Hc ltac:(unfold ends; set_solver)) as (Hf & Hq & Hne).
    destruct (Hother q c (write_fd (td c)) Hc ltac:(unfold ends; set_solver)) as (Hf' & _).
    destruct (H2 q c Hq) as (C1 & C2 & C5 & C3). rewrite (R3 (write_fd (td c))) by (unfold ends in Hf'; set_solver). split_and!; try done. rewrite R3 by (unfold ends in Hf; set_solver).
    unfold seen in *. destruct (watched c); [|done]. destruct C3 as (m & C3 & D1 & D2 & D3 & D4). exists m.
    split; [done|]. unfold watches. rewrite decide_False in D3 by congruence. rewrite decide_False by done. done.
  - intros q1 q2 c1 c2 [_ Hc1]%lookup_delete_Some [_ Hc2]%lookup_delete_Some. by apply H3.
  - intros f. rewrite elem_of_difference, H4. split.
    + intros [[Hf|(q & c & Hc & Hf)] Hb]; [by left|right]. exists q, c. split; [|done]. rewrite lookup_delete_ne; [done|]. intros <-. rewrite Hp in Hc. by injection Hc as <-.
    + intros [Hf|(q & c & Hc & Hf)]; [split; [by left|]|].
      * specialize (H5 p b Hp). unfold ends in H5. set_solver.
      * destruct (Hother q c f Hc Hf) as (Hb & Hq & _). split; [right; eauto|done].
  - intros q c [_ Hc]%lookup_delete_Some. by apply (H5 q).
  - intros f m Hm. destruct (decide (f = read_fd (td b))) as [->|Hf]; [congruence|]. rewrite R3 in Hm by done. pose proof (H6 f m Hm) as Ho. apply elem_of_difference. split; [done|].
    assert (f <> write_fd (td b)) by congruence. set_solver.
  - intros f. rewrite elem_of_difference, H7. split.
    + intros [(q & c & Hc & Hf & Hw) Hb]. exists q, c. split; [|done]. rewrite lookup_delete_ne; [done|]. intros <-. rewrite Hp in Hc. injection Hc as <-. set_solver.
    + intros (q & c & Hc & Hf & Hw). destruct (Hother q c f Hc) as (Hb & Hq & _); [unfold ends; set_solver|]. split; [eauto|]. unfold ends in Hb. set_solver.
Qed.

(** A pipe with a byte: the callback of its thread is called, with the result. *)
Lemma ready_reports s p b : inv None s.1 -> blocks s.1 !! p = Some b -> ph b = Wrote -> watched b = true ->
  exists s', thread_ready malloc pipe tcall TCB (read_fd (td b)) s = Some s' /\ inv None s'.1 /\ blocks s'.1 !! p = None /\
    reported s'.1 = reported s.1 ++ [(call_of (td b), retval (td b))].
Proof.
  intros H Hp Hw Hwd. destruct (t_block _ _ _ _ H p b Hp) as (_ & _ & _ & Hse). unfold seen in Hse. rewrite Hwd in Hse.
  destruct Hse as (n & Hn & Wc & Wa & _ & _).
  unfold thread_ready. rewrite decide_True by (apply (t_full _ _ _ _ H); eauto). rewrite Hn, decide_True by done. rewrite Wa. unfold thread_cb.
  cbn [mbind option_bind fst snd]. change (blocks (with_tfds s.1 ?t)) with (blocks s.1). rewrite Hp. cbn [mbind option_bind]. rewrite decide_True by done.
  destruct (tcall _ _ _ _) as [qs w].
  destruct (start_all_safe (Some p) qs _ (thr_entered s.1 p b n H Hp Hw Hn)) as (s1 & E1 & G1 & B1 & R1). rewrite E1.
  cbn [mbind option_bind fst snd]. eexists. split; [reflexivity|]. cbn [fst]. split; [exact (thr_disposed s1 p b G1 (B1 p b Hp))|].
  split; [apply lookup_delete_eq|]. exact R1.
Qed.

Lemma ready_inv f s : inv None s.1 -> exists s', thread_ready malloc pipe tcall TCB f s = Some s' /\ inv None s'.1.
Proof.
  intros H. destruct (decide (f ∈ full s.1)) as [Hf|Hf].
  - pose proof Hf as (p & b & Hp & <- & Hw)%(t_full _ _ _ _ H). destruct (watched b) eqn:Hwd.
    + destruct (ready_reports s p b H Hp Hw Hwd) as (s' & E & G & _). eauto.
    + exists s. unfold thread_ready. rewrite decide_True by done. destruct (t_block _ _ _ _ H p b Hp) as (_ & _ & _ & Hse).
      unfold seen in Hse. rewrite Hwd in Hse. by rewrite Hse.
  - exists s. unfold thread_ready. by rewrite decide_False.
Qed.

Lemma steps_inv ops : forall s, inv None s.1 ->
  exists s', thread_steps malloc pipe tcall TCB ops s = Some s' /\ inv None s'.1.
Proof.
  induction ops as [|o ops IH]; intros s H; [by exists s|]. cbn [thread_steps].
  assert (exists s1, thread_step malloc pipe tcall TCB o s = Some s1 /\ inv None s1.1) as (s1 & -> & G1); [|apply IH, G1].
  destruct o as [q|p v|p ok|f]; cbn [thread_step].
  - destruct (function_safe None q s.1 H) as (r & s1 & -> & G & _). by eexists.
  - eexists. split; [reflexivity|]. by apply return_inv.
  - eexists. split; [reflexivity|]. by apply write_inv.
  - by apply ready_inv.
Qed.

Definition idle_threads (t : fds) : threads := Th ∅ ∅ own ∅ t [] [] [] [].

Lemma idle_inv t : fd_wf t -> (forall f n, entry t f = Some n -> f ∈ own) -> inv None (idle_threads t).
Proof.
  intros Hw He. split; cbn [idle_threads tfds blocks full opened lost started returned reported silent]; try done.
  - intros f. set_solver.
  - intros f. set_solver.
Qed.

(** C39. Functions in threads, with memory for their blocks: for any order of
    starts (also by the callbacks), of steps of the threads and of turns of
    the loop, whether or not pipe, pthread_create, [EVT_fd_add] and the
    threads' writes succeed, nothing faults and no join waits for ever; every
    call that was started is either waiting or was reported, exactly once and
    with the value its function returned; a thread that has ended, whose byte
    was written and whose pipe is watched, is reported by the turn that finds
    the pipe readable; and when no thread runs and no watched pipe is
    readable, the calls that were not reported are exactly the silent ones,
    for which [EVT_fd_add] or the write of the byte failed (the code goes on
    after both). If there are none, all that was returned was reported, and
    the only descriptors left besides those of the program are those of failed
    starts. *)
Theorem threads_reported_once ops t w : fd_wf t -> (forall f n, entry t f = Some n -> f ∈ own) ->
  exists s', thread_steps malloc pipe tcall TCB ops (idle_threads t, w) = Some s' /\ fd_wf (tfds s'.1) /\
  started s'.1 ≡ₚ (reported s'.1).*1 ++ ((fun b => call_of (td b)) <$> values (blocks s'.1)) /\
  returned s'.1 ≡ₚ reported s'.1 ++ omap result_of (values (blocks s'.1)) /\
  (forall p b, blocks s'.1 !! p = Some b -> ph b = Wrote -> watched b = true ->
     exists s2, thread_ready malloc pipe tcall TCB (read_fd (td b)) s' = Some s2 /\ blocks s2.1 !! p = None /\
       reported s2.1 = reported s'.1 ++ [(call_of (td b), retval (td b))]) /\
  ((forall f, f ∈ full s'.1 -> entry (tfds s'.1) f = None) -> (forall p b, blocks s'.1 !! p = Some b -> ph b = Wrote \/ ph b = Mute) ->
     started s'.1 ≡ₚ (reported s'.1).*1 ++ silent s'.1 /\
     (silent s'.1 = [] -> returned s'.1 ≡ₚ reported s'.1 /\ opened s'.1 = own ∪ lost s'.1)).
Proof.
  intros Hw He. destruct (steps_inv ops (idle_threads t, w) (idle_inv t Hw He)) as (s' & E & G). exists s'. split; [done|].
  split; [apply G|]. pose proof (t_started _ _ _ _ G) as Hs. pose proof (t_returned _ _ _ _ G) as Hr. cbn [pend] in Hs, Hr. split_and!; try done.
  - intros p b Hp Hb Hwd. destruct (ready_reports s' p b G Hp Hb Hwd) as (s2 & E2 & _ & B & R). eauto.
  - intros Hf Hall. pose proof (t_silent _ _ _ _ G) as Hq. cbn [pend] in Hq.
    assert (Hb : forall p b, blocks s'.1 !! p = Some b -> silent_of b = Some (call_of (td b))).
    { intros p b Eb. unfold silent_of. destruct (watched b) eqn:Hwd; [|done]. cbn [negb orb]. rewrite bool_decide_eq_true_2; [done|].
      destruct (Hall p b Eb) as [Hx|]; [|done]. exfalso. destruct (t_block _ _ _ _ G p b Eb) as (_ & _ & _ & Hse). unfold seen in Hse. rewrite Hwd in Hse.
      destruct Hse as (n & Hn & _). rewrite Hf in Hn by (apply (t_full _ _ _ _ G); eauto). done. }
    assert (Hfil : omap silent_of (values (blocks s'.1)) = (fun b => call_of (td b)) <$> values (blocks s'.1)).
    { assert (Hin : forall b, b ∈ values (blocks s'.1) -> silent_of b = Some (call_of (td b))).
      { intros b ([p c] & -> & Hc)%list_elem_of_fmap. apply elem_of_map_to_list in Hc. by apply (Hb p). }
      revert Hin. generalize (values (blocks s'.1)). intros l. induction l as [|b l IH]; intros Hin; [done|].
      rewrite silent_cons, Hin by (by left). rewrite fmap_cons. f_equal. apply IH. intros c Hc. apply Hin. by right. }
    rewrite Hfil in Hq. split; [by rewrite Hs, Hq|]. intros Hnil. rewrite Hnil in Hq.
    assert (Hv : values (blocks s'.1) = []) by (symmetry in Hq; apply Permutation_nil_r, fmap_nil_inv in Hq; exact Hq).
    assert (Hbl : blocks s'.1 = ∅) by (unfold values in Hv; apply fmap_nil_inv in Hv; by apply map_to_list_empty_iff).
    rewrite Hv in Hr. cbn in Hr. rewrite app_nil_r in Hr. split; [done|].
    apply set_eq. intros f. rewrite (t_opened _ _ _ _ G), Hbl.
    split; [intros [?|(p & b & Hx & _)]; [done|by rewrite lookup_empty in Hx]|by left].
Qed.
End Facts.

(** ** Witness *)

Definition demo_pipe (X : gset Z) : option (Z * Z) := let m := set_fold Z.max 0 X in Some (m + 1, m + 2).
Definition demo_tcall (c a v : Z) (w : list Z) : list treq * list Z :=
  (if c =? 1 then [TQ 20 21 2 22 true true true] else [], w ++ [v]).

#[export] Instance demo_pipe_ok : Pipe demo_pipe.
Proof.
  intros X r w [= <- <-]. set (m := set_fold Z.max 0 X).
  assert (Hm : 0 <= m /\ forall x, x ∈ X -> x <= m).
  { unfold m. apply (set_fold_ind_L (fun m Y => 0 <= m /\ forall x, x ∈ Y -> x <= m)); [set_solver|]. intros x Y r _ [H1 H2].
    split; [lia|]. intros y [->%elem_of_singleton|Hy]%elem_of_union; [lia|]. specialize (H2 y Hy). lia. }
  destruct Hm as [H1 H2]. split_and!; try lia; intros Hx; specialize (H2 _ Hx); lia.
Qed.

Definition demo_fresh (X : gset ptr) : option ptr := Some (fresh X).
#[export] Instance demo_fresh_ok : Malloc demo_fresh.
Proof. constructor. intros X. exists (fresh X). split; [done|apply is_fresh]. Qed.

(** A thread whose callback starts another; a start that fails; a thread that
    is not watched; the write of the second thread fails. *)
Definition demo_ops : list top :=
  [OpStart (TQ 10 11 1 12 true true true); OpReady 6; OpReturn 1 5; OpWrite 1 true; OpStart (TQ 30 31 3 32 true false true);
   OpReady 6; OpStart (TQ 40 41 4 42 true true false); OpReturn 3 8; OpReturn 2 9; OpWrite 3 true; OpWrite 2 false].

(** That nothing is left to do, by evaluation. *)
Definition settled (s : threads) : bool :=
  forallb (fun f => negb (is_set (entry (tfds s) f))) (elements (full s)) &&
  forallb (fun x => bool_decide (ph x.2 = Wrote) || bool_decide (ph x.2 = Mute)) (map_to_list (blocks s)).

Lemma settled_spec s : settled s = true ->
  (forall f, f ∈ full s -> entry (tfds s) f = None) /\ (forall p b, blocks s !! p = Some b -> ph b = Wrote \/ ph b = Mute).
Proof.
  intros [H1 H2]%andb_true_iff. rewrite forallb_forall in H1, H2. split.
  - intros f Hf%elem_of_elements%list_elem_of_In%H1. by destruct (entry (tfds s) f).
  - intros p b Hb%elem_of_map_to_list%list_elem_of_In%H2. cbn [snd] in Hb. apply orb_true_iff in Hb as [Hb|Hb]; apply bool_decide_eq_true in Hb; auto.
Qed.

Lemma threads_reported_once_witness :
  exists s', thread_steps demo_fresh demo_pipe demo_tcall 99 demo_ops (idle_threads {[0; 1; 5]} (fds_init 3), []) = Some s' /\
    reported s'.1 = [(10, 11, 1, 12, 5)] /\ silent s'.1 = [(40, 41, 4, 42); (20, 21, 2, 22)] /\
    started s'.1 ≡ₚ (reported s'.1).*1 ++ silent s'.1 /\ lost s'.1 = {[8; 9]}.
Proof.
  destruct (threads_reported_once demo_fresh demo_pipe demo_tcall 99 {[0; 1; 5]} demo_ops (fds_init 3) []) as (s' & E & _ & _ & _ & _ & H).
  - by apply fds_init_wf.
  - intros f n. unfold entry, chain. cbn [fds_init events]. destruct (replicate (Z.to_nat 3) [] !! bucket_of (fds_init 3) f) as [c|] eqn:Ec; [|done].
    by apply lookup_replicate_1 in Ec as [-> _].
  - exists s'. split; [exact E|]. vm_compute in E. injection E as <-. split; [reflexivity|]. split; [reflexivity|]. split; [|vm_compute; reflexivity].
    match goal with |- started ?x.1 ≡ₚ _ => destruct (settled_spec x.1 ltac:(vm_compute; reflexivity)) as [Q1 Q2] end. exact (proj1 (H Q1 Q2)).
Defined.

Module Demo.
(** Without memory for the event the thread runs, and its callback is never
    called: the result of [EVT_fd_add] is not looked at. *)
Lemma unwatched_never_reported :
  option_map (fun s => (length (started s.1), reported s.1))
    (thread_steps demo_fresh demo_pipe demo_tcall 99 [OpStart (TQ 10 11 1 12 true true false); OpReturn 1 5; OpWrite 1 true; OpReady 6]
       (idle_threads {[0; 1; 5]} (fds_init 3), [])) = Some (1%nat, []).
Proof. vm_compute. reflexivity. Qed.

(** Nor is it called when the thread could not write its byte. *)
Lemma mute_never_reported :
  option_map (fun s => (length (started s.1), returned s.1, reported s.1))
    (thread_steps demo_fresh demo_pipe demo_tcall 99 [OpStart (TQ 10 11 1 12 true true true); OpReturn 1 5; OpWrite 1 false; OpReady 6]
       (idle_threads {[0; 1; 5]} (fds_init 3), [])) = Some (1%nat, [(10, 11, 1, 12, 5)], []).
Proof. vm_compute. reflexivity. Qed.

(** A start that fails leaves its pipe open. *)
Lemma failed_start_leaks :
  option_map (fun s => elements (opened s.1)) (thread_steps demo_fresh demo_pipe demo_tcall 99 [OpStart (TQ 10 11 1 12 true false true)]
    (idle_threads {[0; 1; 5]} (fds_init 3), [])) = Some (elements ({[0; 1; 5; 6; 7]} : gset Z)).
Proof. vm_compute. reflexivity. Qed.
End Demo.
