(* ===== verification/Spawn.v ===== *)
(** * Starting child processes (proclib.c)

    [PROC_fork_child] opens three pipes, forks, and keeps its ends; the child
    puts its ends in the place of the standard descriptors, closes the rest of
    the pipes and executes the words of a command line (ProcParse).  The parent's
    record of the child is that of ProcChild.  A table of descriptors is a map to
    open files; pipe, fork and exec are parameters: what they return.  Then the
    callbacks that throw a child's output away or echo it. *)

From stdpp Require Import base gmap sets list numbers sorting.
From Stdlib Require Import ZArith Lia.
From S2P Require Import Prelude Words CStr Sched FdEvents IpcBuffer ProcParse ProcChild.
Open Scope Z_scope.

Abbreviation str := (list Z).

(** ** The child *)

Inductive file := PipeR (k : Z) | PipeW (k : Z) | Other (k : Z).
Abbreviation fdtab := (gmap Z file).

(** What becomes of the child: it executes a program, or exits. *)
Inductive child_end := Exec (argv : list str) (t : fdtab) | Exit (code : Z).

(** The six descriptors of [PROC_fork_child_fd]; a negative one is absent. *)
Record child_fds := Ends { inFd_read : Z; inFd_write : Z; outFd_read : Z; outFd_write : Z; errFd_read : Z; errFd_write : Z }.

(** What the system returns: the limits that are to be set and whether that
    succeeds, the priority, exec; in the parent, the number that fork returns,
    and memory for the arguments and for the record. *)
Record fork_env := FE {
  mem_limit : option bool; cpu_limit : option bool; nice_ok : bool; exec_ok : bool;
  fork_pid : Z; argv_mem : bool; child_mem : option positive
}.

Definition or_exit {A} (o : option A) (code : Z) (k : A -> child_end) : child_end :=
  match o with Some a => k a | None => Exit code end.

Definition close (f : Z) (t : fdtab) : option fdtab := if decide (is_Some (t !! f)) then Some (delete f t) else None.
Definition dup_to (f new : Z) (t : fdtab) : option fdtab :=
  if -1 <? f then x ← t !! f; Some (<[new := x]> t) else Some t.
Definition close_if (f : Z) (t : fdtab) : fdtab := if -1 <? f then delete f t else t.

(** The six, in the order in which they are closed. *)
Definition all_ends (e : child_fds) : list Z := [inFd_read e; inFd_write e; outFd_read e; outFd_write e; errFd_read e; errFd_write e].
Definition close_all (l : list Z) (t : fdtab) : fdtab := foldl (fun t f => close_if f t) t l.

Definition child_main (env : fork_env) (e : child_fds) (argv : list str) (t : fdtab) : child_end :=
  or_exit (close 0 t) 1 (fun t =>
  or_exit (close 1 t) 2 (fun t =>
  or_exit (close 2 t) 3 (fun t =>
  or_exit (dup_to (inFd_read e) 0 t) 4 (fun t =>
  or_exit (dup_to (outFd_write e) 1 t) 5 (fun t =>
  or_exit (dup_to (errFd_write e) 2 t) 6 (fun t =>
    let t := close_all (all_ends e) t in
    if negb (default true (mem_limit env)) then Exit 7
    else if negb (default true (cpu_limit env)) then Exit 8
    else if negb (nice_ok env) then Exit 9
    else if exec_ok env then Exec argv t else Exit 1)))))).

(** ** The parent *)

(** Its descriptors and children, the processes it has forked, and the number
    of pipes made. *)
Record spawner := Sp { ptab : fdtab; fam : family; forked : list (Z * child_end); npipes : Z }.

(** [cmd]: what vasprintf gives; [None] outside is a fault. *)
Definition PROC_fork_child_fd (env : fork_env) (e : child_fds) (cmd : option str) (s : spawner) : option (option positive * spawner) :=
  match cmd with
  | None | Some [] => Some (None, s)
  | Some c =>
      '(buf, args) ← parse_cmd (c ++ [0]);
      argv ← mapM (arg_string buf) args;
      if negb (argv_mem env) || bool_decide (argv = []) then Some (None, s)
      else if fork_pid env =? -1 then Some (None, s)
      else
        let s1 := Sp (ptab s) (fam s) (forked s ++ [(fork_pid env, child_main env e argv (ptab s))]) (npipes s) in
        match child_mem env with
        | None => Some (None, s1)
        | Some p => Some (Some p, Sp (ptab s1) (add_child (fam s1) p (fork_pid env) (inFd_write e) (outFd_read e) (errFd_read e)) (forked s1) (npipes s1))
        end
  end.

Section Spawn.
(** [pipe]: two descriptors, from those in use. *)
Context (pipe : fdtab -> option (Z * Z)).

Definition open_pipe (s : spawner) : option (Z * Z * spawner) :=
  '(r, w) ← pipe (ptab s);
  Some (r, w, Sp (<[w := PipeW (npipes s)]> (<[r := PipeR (npipes s)]> (ptab s))) (fam s) (forked s) (npipes s + 1)).

Definition with_ptab (s : spawner) (t : fdtab) : spawner := Sp t (fam s) (forked s) (npipes s).

(** The limits of this entry are NULL. *)
Definition PROC_fork_child (env : fork_env) (cmd : option str) (s : spawner) : option (option positive * spawner) :=
  match open_pipe s with
  | None => Some (None, s)
  | Some (ir, iw, s1) =>
      match open_pipe s1 with
      | None => Some (None, s1)
      | Some (outr, outw, s2) =>
          match open_pipe s2 with
          | None => Some (None, s2)
          | Some (er, ew, s3) =>
              r ← PROC_fork_child_fd (FE None None (nice_ok env) (exec_ok env) (fork_pid env) (argv_mem env) (child_mem env))
                    (Ends ir iw outr outw er ew) cmd s3;
              Some (r.1, with_ptab r.2 (delete ew (delete outw (delete ir (ptab r.2)))))
          end
      end
  end.
End Spawn.

(** ** Output that nobody reads *)

Section Output.
(** The addresses of the three callbacks. *)
Context (DUMP ECHO READER : Z).

(** [dump_child_data] and [echo_child_data]: whether the event is kept, and the
    bytes echoed. *)
Definition dump_child_data (f : family) (p : positive) (fd : Z) (rd : read_out) : Z * family :=
  match rd with
  | RdData (_ :: _) => (EVENT_KEEP, f)
  | RdErr _ => (EVENT_REMOVE, f)
  | _ => (EVENT_REMOVE, CHLD_close_fd f p fd)
  end.
Definition echo_child_data (f : family) (p : positive) (fd : Z) (rd : read_out) : Z * family * list Z :=
  (dump_child_data f p fd rd, match rd with RdData l => l | _ => [] end).

(** The calls that watch a stream; [child] NULL is [None].  A reader also sets
    the callback of the stream, the parameter [cb] of ProcChild. *)
Definition watch_stream (stream : ProcChild -> Z) (cbk : Z) (critical : bool) (f : family) (child : option positive) (t : fds) (mem : bool) : Z * fds :=
  match p ← child; c ← kids f !! p; Some (p, c) with
  | None => (0, t)
  | Some (p, c) =>
      if stream c <? 0 then (0, t)
      else
        let '(r, t1) := EVT_fd_add t (stream c) FdRead (Some cbk) (Zpos p) mem in
        (r, if critical then t1 else EVT_fd_set_critical t1 (stream c) false)
  end.
Definition CHLD_ignore_stderr := watch_stream stderr_fd DUMP false.
Definition CHLD_echo_stderr := watch_stream stderr_fd ECHO false.
Definition CHLD_ignore_stdout := watch_stream stdout_fd DUMP false.
Definition CHLD_echo_stdout := watch_stream stdout_fd ECHO false.
Definition CHLD_stdout_reader := watch_stream stdout_fd READER true.
Definition CHLD_stderr_reader := watch_stream stderr_fd READER true.
End Output.

(** ** The descriptors of the child *)

Lemma close_if_lookup f t x : 0 <= f -> close_if f t !! x = if decide (f = x) then None else t !! x.
Proof. intros H. unfold close_if. rewrite (proj2 (Z.ltb_lt _ _)) by lia. apply lookup_delete. Qed.

Lemma close_open f t : is_Some (t !! f) -> close f t = Some (delete f t).
Proof. intros H. unfold close. by rewrite decide_True. Qed.

Lemma dup_open f new t x : 0 <= f -> t !! f = Some x -> dup_to f new t = Some (<[new := x]> t).
Proof. intros H Hx. unfold dup_to. rewrite (proj2 (Z.ltb_lt _ _)) by lia. by rewrite Hx. Qed.

Lemma close_all_lookup l x : forall t, Forall (fun f => 0 <= f) l -> close_all l t !! x = if decide (x ∈ l) then None else t !! x.
Proof.
  induction l as [|f l IH]; intros t H; [by rewrite decide_False by apply not_elem_of_nil|]. apply list.Forall_cons in H as [Hf H].
  cbn [close_all foldl]. unfold close_all in IH. rewrite IH, close_if_lookup by done. destruct (decide (x ∈ l)) as [Hx|Hx].
  - by rewrite decide_True by (by right).
  - destruct (decide (f = x)) as [->|Hne]; [by rewrite decide_True by left|]. rewrite decide_False; [done|]. rewrite not_elem_of_cons. auto.
Qed.

(** With the standard descriptors open and six others, the child gets its ends
    in their place, and keeps what else was open. *)
Lemma child_wired env e argv t a b c :
  is_Some (t !! 0) -> is_Some (t !! 1) -> is_Some (t !! 2) -> Forall (fun f => 2 < f) (all_ends e) ->
  t !! inFd_read e = Some a -> t !! outFd_write e = Some b -> t !! errFd_write e = Some c ->
  mem_limit env <> Some false -> cpu_limit env <> Some false -> nice_ok env = true -> exec_ok env = true ->
  exists ct, child_main env e argv t = Exec argv ct /\ ct !! 0 = Some a /\ ct !! 1 = Some b /\ ct !! 2 = Some c /\
    (forall f, f ∈ all_ends e -> ct !! f = None) /\ (forall f, f ∉ [0; 1; 2] -> f ∉ all_ends e -> ct !! f = t !! f).
Proof.
  intros H0 H1 H2 Hall Ha Hb Hc L1 L2 Hn Hx. destruct e as [ir iw outr outw er ew]. unfold all_ends in *. cbn [inFd_read inFd_write outFd_read outFd_write errFd_read errFd_write] in *.
  rewrite !list.Forall_cons in Hall. destruct Hall as (G1 & G2 & G3 & G4 & G5 & G6 & _).
  unfold child_main. rewrite close_open by done. cbn [or_exit]. rewrite close_open by (rewrite lookup_delete_ne by done; done). cbn [or_exit].
  rewrite close_open by (rewrite !lookup_delete_ne by done; done). cbn [or_exit inFd_read outFd_write errFd_write].
  rewrite (dup_open ir 0 _ a) by (rewrite ?lookup_delete_ne by lia; done || lia). cbn [or_exit].
  rewrite (dup_open outw 1 _ b) by (rewrite ?lookup_insert_ne, ?lookup_delete_ne by lia; done || lia). cbn [or_exit].
  rewrite (dup_open ew 2 _ c) by (rewrite ?lookup_insert_ne, ?lookup_delete_ne by lia; done || lia). cbn [or_exit].
  set (ct := close_all _ _). exists ct. split.
  { rewrite Hn, Hx. destruct (mem_limit env) as [[]|]; [|done|]; destruct (cpu_limit env) as [[]|]; done. }
  assert (Hct : forall x, ct !! x = if decide (x ∈ [ir; iw; outr; outw; er; ew]) then None
     else <[2 := c]> (<[1 := b]> (<[0 := a]> (delete 2 (delete 1 (delete 0 t))))) !! x).
  { intros x. apply close_all_lookup. repeat constructor; lia. }
  split_and!.
  - rewrite Hct, decide_False by (rewrite !not_elem_of_cons; split_and!; lia || apply not_elem_of_nil). rewrite !lookup_insert_ne by lia. by rewrite lookup_insert_eq.
  - rewrite Hct, decide_False by (rewrite !not_elem_of_cons; split_and!; lia || apply not_elem_of_nil). rewrite !lookup_insert_ne by lia. by rewrite lookup_insert_eq.
  - rewrite Hct, decide_False by (rewrite !not_elem_of_cons; split_and!; lia || apply not_elem_of_nil). by rewrite lookup_insert_eq.
  - intros f Hf. by rewrite Hct, decide_True.
  - intros f Hs Hf. rewrite Hct, decide_False by done. rewrite !not_elem_of_cons in Hs. destruct Hs as (S0 & S1 & S2 & _).
    by rewrite !lookup_insert_ne, !lookup_delete_ne by done.
Qed.

(** ** A child is started *)

Class PipeTable (pipe : fdtab -> option (Z * Z)) : Prop :=
  pipe_new t r w : pipe t = Some (r, w) -> 0 <= r /\ 0 <= w /\ r <> w /\ t !! r = None /\ t !! w = None.

Section Started.
Context (pipe : fdtab -> option (Z * Z)) {Hpipe : PipeTable pipe}.

Lemma open_pipe_spec s r w : pipe (ptab s) = Some (r, w) ->
  open_pipe pipe s = Some (r, w, Sp (<[w := PipeW (npipes s)]> (<[r := PipeR (npipes s)]> (ptab s))) (fam s) (forked s) (npipes s + 1)).
Proof. intros E. unfold open_pipe. by rewrite E. Qed.

(** A command line with a word is executed if there is memory and fork works. *)
Lemma fork_fd_runs env e c s : Forall (fun x => x <> 0) c -> words c <> [] -> argv_mem env = true -> fork_pid env <> -1 ->
  PROC_fork_child_fd env e (Some c) s =
    let s1 := Sp (ptab s) (fam s) (forked s ++ [(fork_pid env, child_main env e (strip <$> words c) (ptab s))]) (npipes s) in
    match child_mem env with
    | None => Some (None, s1)
    | Some p => Some (Some p, Sp (ptab s1) (add_child (fam s1) p (fork_pid env) (inFd_write e) (outFd_read e) (errFd_read e)) (forked s1) (npipes s1))
    end.
Proof.
  intros Hc Hw Hm Hf. unfold PROC_fork_child_fd. destruct c as [|x c']; [by exfalso; apply Hw|]. set (c := x :: c') in *.
  destruct (parse_cmd_words c Hc) as (buf & args & E & _ & A). rewrite E. cbn [mbind option_bind]. rewrite A. cbn [mbind option_bind].
  rewrite Hm. rewrite bool_decide_eq_false_2 by (by intros ?%fmap_nil_inv). rewrite (proj2 (Z.eqb_neq _ _) Hf). by destruct (child_mem env).
Qed.

(** C40. Starting a child with a command line of at least one word and without
    zero bytes, when the three standard descriptors are open, the pipes, fork
    and the allocations succeed, and in the child setpriority and exec do
    (otherwise it exits with 9 and 1): the child runs the words of the command
    line, with the read end of one new pipe as its input and the write ends of
    two others as its output and errors, and otherwise the descriptors that
    the parent had before, so none of the new pipes but also those of earlier
    children ([Demo.pipes_inherited]); the parent has gained the three other
    ends and nothing else, and remembers them in a new child at the head of
    its list. *)
Theorem child_spawned env c s p :
  is_Some (ptab s !! 0) -> is_Some (ptab s !! 1) -> is_Some (ptab s !! 2) -> (forall t, is_Some (pipe t)) ->
  Forall (fun x => x <> 0) c -> words c <> [] -> argv_mem env = true -> fork_pid env <> -1 -> child_mem env = Some p ->
  nice_ok env = true -> exec_ok env = true ->
  exists s' fi fo fe ct, PROC_fork_child pipe env (Some c) s = Some (Some p, s') /\ NoDup [fi; fo; fe] /\
    (forall f, f ∈ [fi; fo; fe] -> ptab s !! f = None /\ 0 <= f) /\
    ptab s' = <[fe := PipeR (npipes s + 2)]> (<[fo := PipeR (npipes s + 1)]> (<[fi := PipeW (npipes s)]> (ptab s))) /\
    fam s' = add_child (fam s) p (fork_pid env) fi fo fe /\
    forked s' = forked s ++ [(fork_pid env, Exec (strip <$> words c) ct)] /\
    ct !! 0 = Some (PipeR (npipes s)) /\ ct !! 1 = Some (PipeW (npipes s + 1)) /\ ct !! 2 = Some (PipeW (npipes s + 2)) /\
    (forall f, f ∉ [0; 1; 2] -> ct !! f = ptab s !! f).
Proof.
  intros O0 O1 O2 Hp Hc Hw Hm Hf Hk Hn Hx. unfold PROC_fork_child. set (k := npipes s). set (t := ptab s) in *.
  destruct (Hp t) as [[ir iw] E1]. destruct (pipe_new _ _ _ E1) as (I1 & I2 & I3 & I4 & I5). rewrite (open_pipe_spec s ir iw E1). fold k t.
  set (t1 := <[iw := _]> _). destruct (Hp t1) as [[outr outw] E2]. destruct (pipe_new _ _ _ E2) as (J1 & J2 & J3 & J4 & J5).
  unfold t1 in J4, J5. rewrite !lookup_insert_None in J4, J5. destruct J4 as ((J4 & J4a) & J4b), J5 as ((J5 & J5a) & J5b).
  rewrite (open_pipe_spec (Sp t1 _ _ _) outr outw E2). cbn [ptab fam forked npipes].
  set (t2 := <[outw := _]> _). destruct (Hp t2) as [[er ew] E3]. destruct (pipe_new _ _ _ E3) as (K1 & K2 & K3 & K4 & K5).
  unfold t2, t1 in K4, K5. rewrite !lookup_insert_None in K4, K5. destruct K4 as ((((K4 & K4a) & K4b) & K4c) & K4d), K5 as ((((K5 & K5a) & K5b) & K5c) & K5d).
  rewrite (open_pipe_spec (Sp t2 _ _ _) er ew E3). cbn [ptab fam forked npipes]. set (t3 := <[ew := _]> _).
  rewrite fork_fd_runs by done. cbn [child_mem fork_pid ptab fam forked npipes]. rewrite Hk. cbn [mbind option_bind fst snd ptab fam forked npipes].
  assert (Hbig : forall f, t !! f = None -> 0 <= f -> 2 < f).
  { intros f Hno Hf0. destruct (decide (f = 0)) as [->|]; [by rewrite Hno in O0; destruct O0|]. destruct (decide (f = 1)) as [->|]; [by rewrite Hno in O1; destruct O1|].
    destruct (decide (f = 2)) as [->|]; [by rewrite Hno in O2; destruct O2|]. lia. }
  assert (Hall : Forall (fun f => 2 < f) (all_ends (Ends ir iw outr outw er ew))) by (repeat constructor; apply Hbig; done).
  assert (Hstd : forall f, 0 <= f <= 2 -> t3 !! f = t !! f).
  { intros f Hf2. unfold all_ends in Hall. rewrite !list.Forall_cons in Hall. cbn [inFd_read inFd_write outFd_read outFd_write errFd_read errFd_write] in Hall.
    destruct Hall as (G1 & G2 & G3 & G4 & G5 & G6 & _). unfold t3, t2, t1. by rewrite !lookup_insert_ne by (clear -G1 G2 G3 G4 G5 G6 Hf2; lia). }
  set (env' := FE _ _ _ _ _ _ _).
  destruct (child_wired env' (Ends ir iw outr outw er ew) (strip <$> words c) t3 (PipeR k) (PipeW (k + 1)) (PipeW (k + 2)))
    as (ct & C0 & C1 & C2 & C3 & C4 & C5); try done.
  - by rewrite Hstd.
  - by rewrite Hstd.
  - by rewrite Hstd.
  - cbn [inFd_read]. unfold t3, t2, t1. rewrite !lookup_insert_ne by congruence. by rewrite lookup_insert_eq.
  - cbn [outFd_write]. unfold t3, t2. rewrite !lookup_insert_ne by congruence. by rewrite lookup_insert_eq.
  - cbn [errFd_write]. unfold t3. rewrite lookup_insert_eq. do 2 f_equal. lia.
  - eexists _, iw, outr, er, ct. split; [reflexivity|]. split_and!; try done.
    + rewrite !NoDup_cons, !not_elem_of_cons. split_and!; try congruence; try apply not_elem_of_nil. apply NoDup_nil_2.
    + intros f. rewrite !elem_of_cons, elem_of_nil. intros [->|[->|[->|[]]]]; done.
    + cbn [with_ptab ptab]. apply map_eq. intros x. unfold t3, t2, t1. rewrite !lookup_delete, !lookup_insert.
      repeat (case_decide; subst; try congruence); do 2 f_equal; lia.
    + cbn [with_ptab forked]. by rewrite C0.
    + intros f Hf3. destruct (decide (f ∈ all_ends (Ends ir iw outr outw er ew))) as [Hin|Hout].
      * rewrite C4 by done. unfold all_ends in Hin. cbn in Hin. rewrite !elem_of_cons, elem_of_nil in Hin. naive_solver.
      * rewrite C5 by done. unfold all_ends in Hout. cbn in Hout. rewrite !not_elem_of_cons in Hout. destruct Hout as (X1 & X2 & X3 & X4 & X5 & X6 & _).
        unfold t3, t2, t1. rewrite !lookup_insert_ne by done. done.
Qed.
End Started.

(** ** Watching the output *)

(** The event of a stream that is ignored or echoed does not keep the loop
    alive; that of a reader does. *)
Lemma watch_stream_correct stream cbk critical f p c t :
  fd_wf t -> kids f !! p = Some c -> 0 <= stream c -> entry t (stream c) = None ->
  let '(r, t') := watch_stream stream cbk critical f (Some p) t true in
  r = 1 /\ fd_wf t' /\ (forall x, x <> stream c -> entry t' x = entry t x) /\
  exists n, entry t' (stream c) = Some n /\ get (cb n) FdRead = Some cbk /\ get (earg n) FdRead = Zpos p /\ ecritical n = critical.
Proof.
  intros Hw Hk Hs He. unfold watch_stream. cbn [mbind option_bind]. rewrite Hk. cbn [mbind option_bind].
  destruct (Z.ltb_spec (stream c) 0) as [?|_]; [lia|].
  destruct (fd_add_wf t (stream c) FdRead cbk None (Zpos p) true Hw Hs (fun _ => eq_refl)) as (R1 & R2 & R3 & R4).
  unfold EVT_fd_add. destruct (EVT_fd_add_with_cleanup _ _ _ _ _ _ _) as [r t1]. cbn [fst snd] in *. rewrite He in R3.
  destruct critical.
  - split_and!; try done. eexists. split; [exact R3|]. done.
  - destruct (fd_set_critical_wf t1 (stream c) false R2 Hs) as (S1 & S2 & S3). split_and!; try done.
    + intros x Hx. by rewrite S3, R4.
    + eexists. split; [by rewrite S2, R3|]. done.
Qed.

(** ** Witness *)

Definition demo_tab : fdtab := <[0 := Other 0]> (<[1 := Other 1]> (<[2 := Other 2]> (<[7 := Other 7]> ∅))).
Definition demo_pipes (t : fdtab) : option (Z * Z) := let m := set_fold Z.max 0 (dom t) in Some (m + 1, m + 2).
Definition demo_spawner : spawner := Sp demo_tab (Fam ∅ [] [] []) [] 0.
Definition demo_env : fork_env := FE None None true true 500 true (Some 1%positive).

#[export] Instance demo_pipes_ok : PipeTable demo_pipes.
Proof.
  intros t r w [= <- <-]. set (m := set_fold Z.max 0 (dom t)).
  assert (Hm : 0 <= m /\ forall x, x ∈ dom t -> x <= m).
  { unfold m. apply (set_fold_ind_L (fun m Y => 0 <= m /\ forall x, x ∈ Y -> x <= m)); [set_solver|]. intros x Y r _ [H1 H2].
    split; [lia|]. intros y [->%elem_of_singleton|Hy]%elem_of_union; [lia|]. specialize (H2 y Hy). lia. }
  destruct Hm as [H1 H2]. split_and!; try lia; apply not_elem_of_dom; intros Hx; specialize (H2 _ Hx); lia.
Qed.

(** [ls -l]. *)
Lemma child_spawned_witness :
  exists s' ct, PROC_fork_child demo_pipes demo_env (Some [108; 115; 32; 45; 108]) demo_spawner = Some (Some 1%positive, s') /\
    forked s' = [(500, Exec [[108; 115]; [45; 108]] ct)] /\ ct !! 0 = Some (PipeR 0) /\ ct !! 7 = Some (Other 7).
Proof.
  destruct (child_spawned demo_pipes demo_env [108; 115; 32; 45; 108] demo_spawner 1%positive) as (s' & fi & fo & fe & ct & E & _ & _ & _ & _ & F & C0 & _ & _ & C).
  all: try (by eexists); try done.
  - repeat constructor; done.
  - exists s', ct. split; [exact E|]. split; [exact F|]. split; [exact C0|]. rewrite C; [done|]. rewrite !not_elem_of_cons. split_and!; try done. apply not_elem_of_nil.
Defined.

Module Demo.
(** If fork fails the three ends of the parent stay open. *)
Lemma failed_fork_leaks :
  option_map (fun r => (r.1, elements (dom (ptab r.2)))) (PROC_fork_child demo_pipes (FE None None true true (-1) true (Some 1%positive)) (Some [108; 115]) demo_spawner)
  = Some (None, elements ({[0; 1; 2; 7; 9; 10; 12]} : gset Z)).
Proof. vm_compute. reflexivity. Qed.

(** Without memory for the record the child runs and nobody waits for it. *)
Lemma unrecorded_child_runs :
  option_map (fun r => (r.1, length (forked r.2), childHead (fam r.2))) (PROC_fork_child demo_pipes (FE None None true true 500 true None) (Some [108; 115]) demo_spawner)
  = Some (None, 1%nat, []).
Proof. vm_compute. reflexivity. Qed.

(** A second child inherits the parent's ends of the pipes of the first: the
    first does not see the end of its input while the second lives. *)
Definition second_child : option fdtab :=
  '(_, s1) ← PROC_fork_child demo_pipes (FE None None true true 500 true (Some 1%positive)) (Some [97]) demo_spawner;
  '(_, s2) ← PROC_fork_child demo_pipes (FE None None true true 501 true (Some 2%positive)) (Some [98]) s1;
  match forked s2 with [_; (_, Exec _ t)] => Some t | _ => None end.

Lemma pipes_inherited :
  (fun t => filter (fun x => x.1 ∉ [0; 1; 2]) (map_to_list t)) <$> second_child = Some [(7, Other 7); (9, PipeW 0); (10, PipeR 1); (12, PipeR 2)].
Proof. vm_compute. reflexivity. Qed.

(** A parent that has closed its standard input cannot start children: they
    exit with status 1. *)
Lemma closed_stdin_exits env e argv t : t !! 0 = None -> child_main env e argv t = Exit 1.
Proof. intros H. unfold child_main, close. rewrite decide_False; [done|]. rewrite H. by intros [? ?]. Qed.

(** A read that fails, be it for a signal, takes the event away but does not
    close the descriptor: the child stays unreported after its exit. *)
Lemma failed_read_unreported f p fd again c :
  kids f !! p = Some c -> stdout_fd c <> -1 -> (dump_child_data f p fd (RdErr again)).1 = EVENT_REMOVE /\
  deaths (validate_pipe_flush (dump_child_data f p fd (RdErr again)).2 p) = deaths f.
Proof.
  intros Hk Hs. split; [done|]. cbn [dump_child_data snd]. unfold validate_pipe_flush. rewrite Hk. destruct (negb (bool_decide _)); [done|].
  rewrite (proj2 (Z.eqb_neq _ _) Hs). cbn [negb]. by rewrite orb_true_r.
Qed.
End Demo.
