(* ===== verification/TelmDict.v ===== *)
(** * Telemetry dictionaries (telm_dict.c)

    A program describes the telemetry and the events it makes in static tables;
    three functions print them for the data logger, for the export of telemetry
    and as JSON.  What is printed is a string.  The options are those of getopt
    in the order of GNU, where arguments that are no options come last; the text
    of a double is a parameter.  The JSON is read back with json.c. *)

From stdpp Require Import base list numbers.
From Stdlib Require Import ZArith Lia.
From Stdlib Require String.
From S2P Require Import Prelude Words CStr Json XdrText Sockets.
Open Scope Z_scope.
Import String.StringSyntax.

Abbreviation str := (list Z).

(** ** Tables *)

Record TELMBitfieldInfo := TB { b_value : Z; set_label : str; clear_label : option str }.

(** The entries before the one without a label, an id or a port name. *)
Record TELMTelemetryInfo {D : Type} := TI {
  id : str; location : str; group : str; units : str; divisor : D; offset : D; name : str; desc : str;
  bitfields : option (list TELMBitfieldInfo); computed_by : option str
}.
Arguments TELMTelemetryInfo : clear implicits.
Arguments TI {D}.

Record TELMEventInfo := TE { port_name : str; e_id : Z; e_name : str; e_desc : str }.

(** ** Options *)

(** An option with its argument, or an error. *)
Inductive gopt := Opt (c : Z) (arg : str) | BadOpt.

Section Getopt.
(** Whether a character is an option, and one with an argument. *)
Context (takes : Z -> option bool).

(** [getopt] until it returns -1 or an error; the number of the arguments left. *)
Fixpoint getopt (args : list str) : list gopt * nat :=
  match args with
  | [] => ([], 0%nat)
  | [45; 45] :: rest => ([], length rest)
  | (45 :: c0 :: cs0) :: rest =>
      (fix cluster (cs : str) : list gopt * nat :=
         match cs with
         | [] => getopt rest
         | c :: cs' =>
             match takes c with
             | None => ([BadOpt], 0%nat)
             | Some false => let '(l, n) := cluster cs' in (Opt c [] :: l, n)
             | Some true =>
                 match cs', rest with
                 | _ :: _, _ => let '(l, n) := getopt rest in (Opt c cs' :: l, n)
                 | [], v :: rest' => let '(l, n) := getopt rest' in (Opt c v :: l, n)
                 | [], [] => ([BadOpt], 0%nat)
                 end
             end
         end) (c0 :: cs0)
  | _ :: rest => let '(l, n) := getopt rest in (l, S n)
  end.
End Getopt.

Definition c_H : Z := 72.
Definition c_m : Z := 109.
Definition c_n : Z := 110.
Definition c_p : Z := 112.
Definition c_s : Z := 115.
Definition c_t : Z := 116.
Definition c_x : Z := 120.

Definition has_arg (with_arg without : list Z) (c : Z) : option bool :=
  if bool_decide (c ∈ with_arg) then Some true else if bool_decide (c ∈ without) then Some false else None.

(** [x] is in the list of names to leave out. *)
Definition ignored (head : list str) (x : str) : bool := existsb (fun n => same_name n x) head.

Definition as_int (s : str) : Z := s32 (atol s).

(** ** The data logger *)

Record dl_options := DL { header : bool; mode : Z; start_time : Z; period : Z; dl_name : str; path : str; exclude : list str }.

Definition dl_set (o : dl_options) (g : gopt) : option dl_options :=
  match g with
  | BadOpt => None
  | Opt c a =>
      if c =? c_p then Some (DL (header o) (mode o) (start_time o) (as_int a) (dl_name o) (path o) (exclude o))
      else if c =? c_s then Some (DL (header o) (mode o) (as_int a) (period o) (dl_name o) (path o) (exclude o))
      else if c =? c_t then Some (DL (header o) (mode o) (start_time o) (period o) (dl_name o) a (exclude o))
      else if c =? c_H then Some (DL true (mode o) (start_time o) (period o) (dl_name o) (path o) (exclude o))
      else if c =? c_n then Some (DL (header o) (mode o) (start_time o) (period o) a (path o) (exclude o))
      else if c =? c_x then Some (DL (header o) (mode o) (start_time o) (period o) (dl_name o) (path o) (a :: exclude o))
      else if c =? c_m then Some (DL (header o) (as_int a) (start_time o) (period o) (dl_name o) (path o) (exclude o))
      else None
  end.

(** The options in order; [None] is the usage message. *)
Fixpoint set_options {O} (set : O -> gopt -> option O) (gs : list gopt) (o : O) : option O :=
  match gs with [] => Some o | g :: gs' => o' ← set o g; set_options set gs' o' end.

Definition read_options {O} (takes : Z -> option bool) (set : O -> gopt -> option O) (o : O) (args : list str) : option O :=
  let '(gs, others) := getopt takes args in
  o' ← set_options set gs o;
  if (0 <? others)%nat then None else Some o'.

Definition dl_takes : Z -> option bool := has_arg [c_s; c_n; c_x; c_m; c_t; c_p] [c_H].

Definition NL : str := [10].
Definition kv (indent : nat) (key : String.string) (v : str) : str := replicate indent 32 ++ bytes_of key ++ bytes_of "=" ++ v ++ NL.
Definition tag (indent : nat) (t : String.string) : str := replicate indent 32 ++ bytes_of t ++ NL.

Arguments kv (_)%_nat_scope (_)%_string_scope _.
Arguments tag (_)%_nat_scope (_)%_string_scope.

Definition dl_header (o : dl_options) : str :=
  tag 0 "<EVENT>" ++ kv 3 "NAME" (dl_name o) ++ kv 3 "PROC_NAME" (dl_name o) ++ kv 3 "NUM" (bytes_of "0") ++
  kv 3 "START_TIME" (bytes_of "P+" ++ decimal (start_time o)) ++ kv 3 "SCHED_TIME" (decimal (period o)) ++
  kv 3 "DURATION" (bytes_of "0") ++ tag 0 "</EVENT>" ++ NL ++ tag 0 "<SUBPROCESS>" ++ kv 3 "NAME" (dl_name o) ++
  kv 3 "PROC_PATH" (path o) ++ kv 3 "POWER" (bytes_of "1") ++ kv 3 "POWER_PROC" (bytes_of "./none") ++ kv 3 "PARAM" [] ++ NL.

Definition USAGE_DL : str :=
  bytes_of " [-n <subprocess name>] [-H] [-p <period>] [-s <start time>] [-t <telemetry path] [-x <exclude tlm id>] [-x <>] ..." ++ NL.
Definition USAGE_JSON : str := bytes_of " [-m <mode>] [-x <exclude tlm id>] [-x <>] ..." ++ NL.

Section Printers.
Context {D : Type} (fmt_lf : D -> str) (getservbyname : str -> option Z).
Implicit Types points : list (TELMTelemetryInfo D).

Definition dl_point (o : dl_options) (c : TELMTelemetryInfo D) : str :=
  let ignore := ignored (exclude o) (id c) in
  if mode o =? 1 then (if ignore then [] else id c ++ NL)
  else if ignore then tag 3 "<IGNORE>" ++ kv 6 "SENSOR_KEY" (id c) ++ tag 3 "</IGNORE>"
  else tag 3 "<SENSOR>" ++ kv 6 "NAME" (dl_name o) ++ kv 6 "SENSOR_KEY" (id c) ++
       kv 6 "LOCATION" (location c) ++ kv 6 "GROUPS" (group c) ++ tag 3 "</SENSOR>".

(** [argv] begins with the name of the program. *)
Definition TELM_print_datalogger_info points (dfl_name dfl_path prog : str) (args : list str) : str :=
  match read_options dl_takes dl_set (DL false 0 5 300 dfl_name dfl_path []) args with
  | None => prog ++ USAGE_DL
  | Some o =>
      if mode o =? 2 then dl_name o ++ NL
      else (if header o then dl_header o else []) ++ concat (dl_point o <$> points) ++ (if header o then tag 0 "</SUBPROCESS>" else [])
  end.

(** ** The export *)

Definition md_enum (b : TELMBitfieldInfo) : str :=
  tag 3 "<ENUM>" ++ kv 6 "VALUE" (decimal (u32 (b_value b))) ++ kv 6 "LABEL" (set_label b) ++
  match clear_label b with Some l => kv 6 "UNSET" l | None => [] end ++ tag 3 "</ENUM>".

Definition md_point (c : TELMTelemetryInfo D) : str :=
  let type := match computed_by c with Some _ => bytes_of "VSENSOR" | None => bytes_of "SENSOR" end in
  bytes_of "<" ++ type ++ bytes_of ">" ++ NL ++
  kv 3 "KEY" (id c) ++ kv 3 "LOCATION" (location c) ++ kv 3 "SUBSYSTEM" (group c) ++ kv 3 "UNITS" (units c) ++
  kv 3 "DIVISOR" (fmt_lf (divisor c)) ++ kv 3 "OFFSET" (fmt_lf (offset c)) ++ kv 3 "NAME" (name c) ++ kv 3 "DESCRIPTION" (desc c) ++
  match computed_by c with Some f => kv 3 "FUNCTION" f | None => [] end ++
  concat (md_enum <$> default [] (bitfields c)) ++ bytes_of "</" ++ type ++ bytes_of ">" ++ NL.

Definition md_event (e : TELMEventInfo) : str :=
  tag 0 "<EVENT>" ++ kv 3 "PORT_NAME" (port_name e) ++ kv 3 "PORT" (decimal (u32 (socket_get_addr_by_name getservbyname (port_name e)))) ++
  kv 3 "ID" (decimal (e_id e)) ++ kv 3 "NAME" (e_name e) ++ kv 3 "DESCRIPTION" (e_desc e) ++ tag 0 "</EVENT>".

Definition TELM_print_sensor_metadata points (events : list TELMEventInfo) : str := concat (md_point <$> points) ++ concat (md_event <$> events).

(** ** JSON *)

Record js_options := JS { js_mode : Z; js_exclude : list str }.

Definition js_set (o : js_options) (g : gopt) : option js_options :=
  match g with
  | BadOpt => None
  | Opt c a => if c =? c_x then Some (JS (js_mode o) (a :: js_exclude o)) else if c =? c_m then Some (JS (as_int a) (js_exclude o)) else None
  end.
Definition js_takes : Z -> option bool := has_arg [c_x; c_m] [].

(** A key, between quotes, and what follows it. *)
Definition js_key (indent : nat) (key sep : String.string) : str := replicate indent 32 ++ QUOTE :: bytes_of key ++ QUOTE :: bytes_of sep.
Arguments js_key (_)%_nat_scope (_ _)%_string_scope.
Definition js_str (key : String.string) (v : str) : str := js_key 3 key ": " ++ QUOTE :: v ++ QUOTE :: bytes_of "," ++ NL.
Arguments js_str (_)%_string_scope _.
Definition COMMA : str := bytes_of "," ++ NL.

Definition js_enum (b : TELMBitfieldInfo) : str :=
  tag 6 "{" ++ js_key 9 "value" ": " ++ decimal (u32 (b_value b)) ++ COMMA ++
  match clear_label b with Some l => js_key 9 "unset" ": " ++ QUOTE :: l ++ QUOTE :: COMMA | None => [] end ++
  js_key 9 "label" ": " ++ QUOTE :: set_label b ++ QUOTE :: NL ++ bytes_of "   }".

(** The loops print a comma unless it is the first time. *)
Fixpoint js_enums (efirst : bool) (l : list TELMBitfieldInfo) : str :=
  match l with [] => [] | b :: l' => (if efirst then [] else COMMA) ++ js_enum b ++ js_enums false l' end.

Definition js_point (type : str) (c : TELMTelemetryInfo D) : str :=
  tag 0 "{" ++ js_str "type" type ++ js_str "key" (id c) ++ js_str "location" (location c) ++ js_str "subsystem" (group c) ++
  js_str "units" (units c) ++ js_key 3 "divisor" ": " ++ fmt_lf (divisor c) ++ COMMA ++ js_key 3 "offset" ": " ++ fmt_lf (offset c) ++ COMMA ++
  js_str "name" (name c) ++ match computed_by c with Some f => js_str "function" f | None => [] end ++
  match bitfields c with Some l => js_key 3 "enums" ": [" ++ NL ++ js_enums true l ++ tag 3 "]," | None => [] end ++
  js_key 3 "description" ": " ++ QUOTE :: desc c ++ QUOTE :: NL ++ bytes_of "}".

(** The type of a point in a mode; [None] passes it over. *)
Definition js_type (mode : Z) (c : TELMTelemetryInfo D) : option str :=
  match computed_by c with
  | None => if mode =? 1 then Some (bytes_of "sensor") else None
  | Some _ => if mode =? 3 then Some (bytes_of "virtual_sensor") else None
  end.

Fixpoint js_points (o : js_options) (first : bool) points : str * bool :=
  match points with
  | [] => ([], first)
  | c :: rest =>
      if ignored (js_exclude o) (id c) then js_points o first rest
      else
        match js_type (js_mode o) c with
        | None => js_points o first rest
        | Some type => let '(s, f) := js_points o false rest in ((if first then [] else COMMA) ++ js_point type c ++ s, f)
        end
  end.

Definition js_event (e : TELMEventInfo) : str :=
  tag 0 "{" ++ js_key 3 "port_name" " : " ++ QUOTE :: port_name e ++ QUOTE :: COMMA ++
  js_key 3 "port" " : " ++ decimal (u32 (socket_get_addr_by_name getservbyname (port_name e))) ++ COMMA ++
  js_key 3 "id" " : =" ++ decimal (e_id e) ++ COMMA ++ js_key 3 "name" " : " ++ QUOTE :: e_name e ++ QUOTE :: COMMA ++
  js_key 3 "description" " : " ++ QUOTE :: e_desc e ++ QUOTE :: NL ++ bytes_of "}".

(** The loop over events ends at one with the number 0. *)
Fixpoint js_events (o : js_options) (first : bool) (events : list TELMEventInfo) : str * bool :=
  match events with
  | [] => ([], first)
  | e :: rest =>
      if (js_mode o =? 2) && negb (e_id e =? 0)
      then let '(s, f) := js_events o false rest in ((if first then [] else COMMA) ++ js_event e ++ s, f)
      else ([], first)
  end.

Definition TELM_print_json_telem_dict points (events : list TELMEventInfo) (prog : str) (args : list str) : str :=
  match read_options js_takes js_set (JS 0 []) args with
  | None => prog ++ USAGE_JSON
  | Some o =>
      let '(s1, first1) := js_points o true points in
      let '(s2, first2) := js_events o first1 events in
      s1 ++ s2 ++ (if first2 then [] else NL)
  end.
End Printers.

(** ** Options *)

(** The arguments of options written apart. *)
Definition spelled (l : list (Z * str)) : list str := concat ((fun cv => [[45; cv.1]; cv.2]) <$> l).

Lemma getopt_spelled takes l : Forall (fun cv => takes cv.1 = Some true /\ cv.1 <> 45) l ->
  getopt takes (spelled l) = ((fun cv => Opt cv.1 cv.2) <$> l, 0%nat).
Proof.
  induction 1 as [|[c v] l [Hc Hm] _ IH]; [done|]. cbn [fst snd] in Hc, Hm. change (spelled ((c, v) :: l)) with ([45; c] :: v :: spelled l).
  assert (E : getopt takes ([45; c] :: v :: spelled l) = let '(r, n) := getopt takes (spelled l) in (Opt c v :: r, n)).
  { cbn [getopt]. destruct (decide (c = 45)) as [->|_]; [done|]. rewrite Hc.
    destruct c as [|p|p]; try done. do 7 (try destruct p as [p|p|]; try done). }
  rewrite E, IH. done.
Qed.

(** ** What the JSON says *)

(** Objects with commas between them. *)
Definition joined (objs : list str) : str := match objs with [] => [] | x :: l => x ++ concat ((fun y => COMMA ++ y) <$> l) end.

(** What the options mean: the last mode, and the names to leave out. *)
Definition json_mode (opts : list (Z * str)) : Z := foldl (fun m cv => if cv.1 =? c_m then as_int cv.2 else m) 0 opts.
Definition left_out (opts : list (Z * str)) (x : str) : bool := existsb (fun cv => (cv.1 =? c_x) && same_name cv.2 x) opts.

Lemma json_options opts : Forall (fun cv => cv.1 = c_x \/ cv.1 = c_m) opts ->
  exists ex, read_options js_takes js_set (JS 0 []) (spelled opts) = Some (JS (json_mode opts) ex) /\ forall x, ignored ex x = left_out opts x.
Proof.
  intros H. unfold read_options. rewrite getopt_spelled.
  2: { eapply list.Forall_impl; [exact H|]. intros cv [->| ->]; by split. }
  assert (Hset : forall o, exists ex, set_options js_set ((fun cv => Opt cv.1 cv.2) <$> opts) o =
    Some (JS (foldl (fun m cv => if cv.1 =? c_m then as_int cv.2 else m) (js_mode o) opts) ex) /\
    forall x, ignored ex x = ignored (js_exclude o) x || left_out opts x).
  { induction H as [|[c v] opts Hc _ IH]; intros [m e].
    - exists e. split; [done|]. intros x. cbn [left_out existsb js_exclude]. by rewrite orb_false_r.
    - cbn [fst] in Hc. cbn [fmap list_fmap set_options fst snd js_set foldl]. destruct Hc as [->| ->]; cbn [Z.eqb Pos.eqb c_x c_m mbind option_bind js_mode js_exclude].
      + destruct (IH (JS m (v :: e))) as (ex & E & I). exists ex. split; [exact E|]. intros x. rewrite I. cbn [left_out existsb ignored js_exclude fst snd].
        change (c_x =? c_x) with true. cbn [andb]. rewrite (orb_comm (same_name v x)), orb_assoc. done.
      + destruct (IH (JS (as_int v) e)) as (ex & E & I). exists ex. split; [exact E|]. intros x. rewrite I. done. }
  destruct (Hset (JS 0 [])) as (ex & E & I). rewrite E. cbn [mbind option_bind]. exists ex. split; [done|]. intros x. by rewrite I.
Qed.

Section JsonFacts.
Context {D : Type} (fmt_lf : D -> str) (getservbyname : str -> option Z).

(** The objects of the points and of the events. *)
Definition point_objs (m : Z) (skip : str -> bool) (points : list (TELMTelemetryInfo D)) : list str :=
  omap (fun c => if skip (id c) then None else (fun type => js_point fmt_lf type c) <$> js_type m c) points.
Fixpoint event_objs (m : Z) (events : list TELMEventInfo) : list str :=
  match events with
  | [] => []
  | e :: rest => if (m =? 2) && negb (e_id e =? 0) then js_event getservbyname e :: event_objs m rest else []
  end.

Definition continued (first : bool) (objs : list str) : str := if first then joined objs else concat ((fun y => COMMA ++ y) <$> objs).

Lemma js_points_spec o first points :
  js_points fmt_lf o first points = (continued first (point_objs (js_mode o) (ignored (js_exclude o)) points),
    first && bool_decide (point_objs (js_mode o) (ignored (js_exclude o)) points = [])).
Proof.
  revert first. induction points as [|c points IH]; intros first; [by destruct first|]. cbn [js_points point_objs omap list_omap].
  destruct (ignored (js_exclude o) (id c)); [apply IH|]. destruct (js_type (js_mode o) c) as [type|]; cbn [fmap option_fmap option_map]; [|apply IH].
  rewrite IH. cbn [andb]. fold (point_objs (js_mode o) (ignored (js_exclude o)) points). set (l := point_objs _ _ _).
  rewrite bool_decide_eq_false_2 by done. rewrite andb_false_r. f_equal. destruct first; cbn [continued joined fmap list_fmap concat app]; [done|].
  by rewrite <- app_assoc.
Qed.

Lemma js_events_spec o first events :
  js_events getservbyname o first events = (continued first (event_objs (js_mode o) events), first && bool_decide (event_objs (js_mode o) events = [])).
Proof.
  revert first. induction events as [|e events IH]; intros first; [by destruct first|]. cbn [js_events event_objs].
  destruct ((js_mode o =? 2) && negb (e_id e =? 0)); [|by destruct first]. rewrite IH. cbn [andb].
  rewrite bool_decide_eq_false_2 by done. rewrite andb_false_r. f_equal. destruct first; cbn [continued joined fmap list_fmap concat app]; [done|].
  by rewrite <- app_assoc.
Qed.

Lemma continued_app first a b : continued first a ++ continued (first && bool_decide (a = [])) b = continued first (a ++ b).
Proof.
  destruct first, a as [|x a]; cbn [andb]; try done.
  - rewrite bool_decide_eq_false_2 by done. cbn [continued joined app]. by rewrite fmap_app, concat_app, app_assoc.
  - cbn [continued app fmap list_fmap concat]. by rewrite fmap_app, concat_app, app_assoc.
Qed.

(** *** One point *)

Definition mem (key : String.string) (v : value) : member := Member (bytes_of key) v (NL ++ replicate 3 32) [] [32] [].
Arguments mem (_)%_string_scope _.

Definition point_members (type : str) (c : TELMTelemetryInfo D) : list member :=
  [mem "type" (Quoted type); mem "key" (Quoted (id c)); mem "location" (Quoted (location c)); mem "subsystem" (Quoted (group c));
   mem "units" (Quoted (units c)); mem "divisor" (Bare (fmt_lf (divisor c))); mem "offset" (Bare (fmt_lf (offset c))); mem "name" (Quoted (name c))] ++
  match computed_by c with Some f => [mem "function" (Quoted f)] | None => [] end ++ [mem "description" (Quoted (desc c))].

Lemma js_point_object type c : bitfields c = None -> js_point fmt_lf type c = object_text [] NL [] (point_members type c).
Proof.
  intros Hb. unfold js_point, object_text, point_members. rewrite Hb. destruct c as [i lo g u d o n de bf cb]. cbn [id location group units divisor offset name desc computed_by].
  unfold js_str, js_key. generalize (fmt_lf d), (fmt_lf o). intros l1 l2.
  destruct cb as [f|]; cbn [app]; cbv [members_text member_text m_key m_val sp1 sp2 sp3 sp4 value_text mem];
    repeat (rewrite <- ?app_assoc; progress cbn [app]); vm_compute; reflexivity.
Qed.

(** A string that the reader takes as it is. *)
Definition text_ok (s : str) : Prop := QUOTE ∉ s /\ Forall (fun c => c <> 0) s /\ (length s <= 2047)%nat.
#[export] Instance text_ok_dec s : Decision (text_ok s).
Proof. unfold text_ok. apply _. Defined.
Definition double_ok (d : D) : Prop := fmt_lf d <> [] /\ Forall (fun c => plain c = true) (fmt_lf d).

(** The strings of a point, under their names. *)
Definition point_fields (type : str) (c : TELMTelemetryInfo D) : list (str * str) :=
  [(bytes_of "type", type); (bytes_of "key", id c); (bytes_of "location", location c); (bytes_of "subsystem", group c);
   (bytes_of "units", units c); (bytes_of "name", name c); (bytes_of "description", desc c)] ++
  match computed_by c with Some f => [(bytes_of "function", f)] | None => [] end.

Lemma cstr_text s : text_ok s -> cstr (take 2047 s) = s.
Proof. intros (_ & H0 & Hl). rewrite take_ge by done. by apply cstr_plain. Qed.

Lemma point_readable type c :
  bitfields c = None -> Forall (fun kv => text_ok kv.2) (point_fields type c) -> double_ok (divisor c) -> double_ok (offset c) ->
  zlen (js_point fmt_lf type c) < 2 ^ 31 ->
  forall k v, (k, v) ∈ point_fields type c -> json_get_string_prop (Some (js_point fmt_lf type c)) (Some k) true = Some (0, Some (Some v)).
Proof.
  intros Hb Hf Hd Ho Hl k v Hin. rewrite js_point_object in Hl |- * by done.
  assert (Hv : text_ok v) by (rewrite list.Forall_forall in Hf; apply (Hf _ Hin)).
  assert (Hms : Forall member_ok (point_members type c)).
  { unfold point_fields in Hf. rewrite list.Forall_app, !list.Forall_cons in Hf. cbn [snd] in Hf. destruct Hf as [(F1 & F2 & F3 & F4 & F5 & F6 & F7 & _) F8].
    assert (Hm : forall key x, Forall (fun c => c <> QUOTE) (bytes_of key) -> match x with Quoted s => QUOTE ∉ s | Bare s => s <> [] /\ Forall (fun c => plain c = true) s end -> member_ok (mem key x)).
    { intros key x Hk Hx. unfold member_ok, mem. cbn [m_key m_val sp1 sp2 sp3 sp4]. assert (Hs : spaces (NL ++ replicate 3 32) /\ spaces [] /\ spaces [32]) by (unfold spaces; split_and!; repeat constructor).
      destruct Hs as (S1 & S2 & S3). split; [|done]. intros Hq. rewrite list.Forall_forall in Hk. by apply (Hk _ Hq). }
    unfold point_members. rewrite !list.Forall_app, !list.Forall_cons. split_and!; try apply list.Forall_nil_2.
    all: try (apply Hm; [by repeat constructor|first [apply F1|apply F2|apply F3|apply F4|apply F5|apply F6|apply F7|apply Hd|apply Ho]]).
    destruct (computed_by c) as [f|]; [|apply list.Forall_nil_2]. rewrite list.Forall_cons in F8. destruct F8 as [F8 _].
    apply list.Forall_cons. split; [|apply list.Forall_nil_2]. apply Hm; [by repeat constructor|apply F8]. }
  destruct (getters_object [] NL [] (point_members type c) k Hl Hms) as (_ & _ & ->); try (by repeat constructor).
  assert (Hlast : last_member k (point_members type c) = Some (take 2047 v)); [|by rewrite Hlast; cbn [fmap option_fmap option_map]; rewrite cstr_text].
  unfold point_fields in Hin. unfold last_member, point_members. clear -Hin. destruct (computed_by c) as [f|]; cbn [app] in Hin |- *;
    repeat (apply elem_of_cons in Hin as [[= -> ->]|Hin]; [vm_compute; reflexivity|]); by apply elem_of_nil in Hin.
Qed.

(** The dictionary in JSON: the points of the mode that are not left out, or in
    mode 2 the events up to the first with the number 0, as objects with commas
    between them and a line end after the last; and the reader of json.c finds
    in the object of a point without enumerations every string of the point
    under its name. *)
Theorem telm_json_correct points events prog opts :
  Forall (fun cv => cv.1 = c_x \/ cv.1 = c_m) opts ->
  (let objs := point_objs (json_mode opts) (left_out opts) points ++ event_objs (json_mode opts) events in
   TELM_print_json_telem_dict fmt_lf getservbyname points events prog (spelled opts) = joined objs ++ (if bool_decide (objs = []) then [] else NL)) /\
  (forall c type, js_type (json_mode opts) c = Some type -> bitfields c = None ->
   Forall (fun kv => text_ok kv.2) (point_fields type c) -> double_ok (divisor c) -> double_ok (offset c) -> zlen (js_point fmt_lf type c) < 2 ^ 31 ->
   forall k v, (k, v) ∈ point_fields type c -> json_get_string_prop (Some (js_point fmt_lf type c)) (Some k) true = Some (0, Some (Some v))).
Proof.
  intros Hopts. split; [|intros c type _; apply point_readable]. cbv zeta. destruct (json_options opts Hopts) as (ex & E & I).
  unfold TELM_print_json_telem_dict. rewrite E, js_points_spec, js_events_spec. cbn [js_mode js_exclude].
  assert (Ho : point_objs (json_mode opts) (ignored ex) points = point_objs (json_mode opts) (left_out opts) points).
  { unfold point_objs. apply list_omap_ext, Forall_Forall2_diag, list.Forall_true. intros c. by rewrite I. }
  rewrite Ho. set (a := point_objs _ _ _). set (b := event_objs _ _). rewrite app_assoc, continued_app. cbn [continued andb]. f_equal.
  destruct a as [|x a]; [done|]. by rewrite bool_decide_eq_false_2.
Qed.
End JsonFacts.

(** ** The data logger *)

(** In mode 1 the ids of the points that are not left out, one on a line. *)
Lemma datalogger_ids {D} (points : list (TELMTelemetryInfo D)) nm pth prog ex :
  TELM_print_datalogger_info points nm pth prog (spelled ((c_m, bytes_of "1") :: ((fun x => (c_x, x)) <$> ex))) =
  concat ((fun c => id c ++ NL) <$> filter (fun c => ignored ex (id c) = false) points).
Proof.
  unfold TELM_print_datalogger_info, read_options. rewrite getopt_spelled.
  2: { apply list.Forall_cons. split; [done|]. apply list.Forall_fmap, list.Forall_true. done. }
  assert (Hset : forall l o, mode o = 1 -> header o = false -> exists o', set_options dl_set ((fun cv => Opt cv.1 cv.2) <$> ((fun x => (c_x, x)) <$> l)) o = Some o' /\
     mode o' = 1 /\ header o' = false /\ forall x, ignored (exclude o') x = ignored (exclude o) x || ignored l x).
  { induction l as [|y l IH]; intros o Hm Hh; [exists o; split_and!; try done; intros x; by rewrite orb_false_r|].
    cbn [fmap list_fmap set_options fst snd]. change (dl_set o (Opt c_x y)) with
      (Some (DL (header o) (mode o) (start_time o) (period o) (dl_name o) (path o) (y :: exclude o))). cbn [mbind option_bind].
    destruct (IH (DL (header o) (mode o) (start_time o) (period o) (dl_name o) (path o) (y :: exclude o)) Hm Hh) as (o' & E & M & H & I).
    exists o'. split_and!; try done. intros x. rewrite I. cbn [exclude ignored existsb].
    fold (ignored (exclude o) x). fold (ignored l x). rewrite (orb_comm (same_name y x)), <- orb_assoc. done. }
  destruct (Hset ex (DL false 1 5 300 nm pth []) eq_refl eq_refl) as (o' & E & M & H & I).
  change (set_options dl_set ((fun cv => Opt cv.1 cv.2) <$> (c_m, bytes_of "1") :: ((fun x => (c_x, x)) <$> ex)) (DL false 0 5 300 nm pth []))
    with (set_options dl_set ((fun cv => Opt cv.1 cv.2) <$> ((fun x => (c_x, x)) <$> ex)) (DL false 1 5 300 nm pth [])).
  rewrite E. cbn [mbind option_bind]. change ((0 <? 0)%nat) with false. cbv iota. rewrite M, H. cbn [Z.eqb Pos.eqb app]. rewrite app_nil_r.
  clear E. induction points as [|c points IH]; [done|]. cbn [fmap list_fmap concat]. rewrite IH, filter_cons. unfold dl_point at 1.
  rewrite M, I. cbn [Z.eqb Pos.eqb exclude ignored existsb orb]. fold (ignored ex (id c)). by destruct (ignored ex (id c)).
Qed.

(** ** Witness *)

Definition demo_lf (d : unit) : str := bytes_of "1.000000".
Definition demo_temp : TELMTelemetryInfo unit :=
  TI (bytes_of "temp") (bytes_of "board") (bytes_of "adcs") (bytes_of "C") tt tt (bytes_of "Temperature") (bytes_of "of the board") None None.
Definition demo_points : list (TELMTelemetryInfo unit) :=
  [demo_temp; TI (bytes_of "volt") (bytes_of "board") (bytes_of "eps") (bytes_of "V") tt tt (bytes_of "Voltage") (bytes_of "of the bus") None None].

Lemma telm_json_correct_witness :
  TELM_print_json_telem_dict demo_lf (fun _ => None) demo_points [] [] (spelled [(c_m, bytes_of "1"); (c_x, bytes_of "VOLT")]) = js_point demo_lf (bytes_of "sensor") demo_temp ++ NL /\
    json_get_string_prop (Some (js_point demo_lf (bytes_of "sensor") demo_temp)) (Some (bytes_of "units")) true = Some (0, Some (Some (bytes_of "C"))).
Proof.
  destruct (telm_json_correct demo_lf (fun _ => None) demo_points [] [] [(c_m, bytes_of "1"); (c_x, bytes_of "VOLT")]) as [H1 H2].
  { apply list.Forall_cons. split; [by right|]. apply list.Forall_cons. split; [by left|apply list.Forall_nil_2]. }
  split; [rewrite H1; vm_compute; reflexivity|].
  apply (H2 demo_temp (bytes_of "sensor") eq_refl eq_refl).
  - apply (bool_decide_unpack _). vm_compute. reflexivity.
  - split; [done|repeat constructor].
  - split; [done|repeat constructor].
  - vm_compute. reflexivity.
  - do 4 right. left.
Defined.

Module Demo.
(** The number of an event is printed after an equals sign, which is not JSON;
    the reader of json.c gives 0 for it. *)
Lemma event_number_unreadable :
  json_get_int_prop (Some (js_event (fun _ => None) (TE (bytes_of "test1") 7 (bytes_of "boot") (bytes_of "it booted")))) (Some (bytes_of "id")) true = Some (0, Some 0).
Proof. vm_compute. reflexivity. Qed.

(** An event with the number 0 hides those after it from the JSON, but not from
    the export. *)
Lemma event_zero_ends :
  event_objs (fun _ => None) 2 [TE (bytes_of "test1") 0 [] []; TE (bytes_of "test1") 1 [] []] = [].
Proof. reflexivity. Qed.
End Demo.
